(* ===== verification/_CoqProject ===== *)
-Q . S2P
OpenIon.v
Prelude.v
Addr.v
FrameAlloc.v
Slab.v
Timer.v
TaskStack.v
Task.v
ReadyQueue.v
Critical.v
Sched.v
SchedInv.v
SchedOps.v
SchedKernel.v
SchedProps.v
WaitQueue.v
AsyncRt.v
Wait.v
WaitProps.v
Paging.v
Sv39.v
Sv32.v
GStage.v
IdentityMap.v
MmuProps.v
Str.v
Text.v
RamFs.v
RamFsTree.v
RamFsProps.v
Exfat.v
ExfatRead.v
ExfatDir.v
ExfatProps.v
Fdt.v
FdtWalk.v
FdtProps.v
BootMap.v
BootProps.v
Drivers.v
Irq.v
DriverInv.v
DriverProps.v
Virtio.v
VirtioProps.v
Mounts.v
MountProps.v
Shell.v
ShellEdit.v
Rx.v
Hv.v
HvProps.v
ShellCmds.v
ShellSafe.v
ShellProps.v
Elf.v
Trap.v
TrapProps.v
Init.v
Vcpu.v
Pmp.v
Uart.v
Irqchip.v
Board.v
UartProps.v
BoardProps.v
IrqchipProps.v
IonSoc.v
Xtask.v
Gpu.v
GpuProps.v
AsyncTasks.v
AsyncTasksProps.v
Heap.v
Reports.v
ReportsProps.v
Lan9118.v
Net.v
NetProps.v
Arm.v
