(* ===== verification/OpenIon.v ===== *)
(** * OpenIon: a verification development of the kernel

    OpenIon is a small kernel for RISC-V and Cortex-M boards: a preemptive
    scheduler with blocking primitives and an executor for futures, frame and
    page-table management, a registry of drivers probed from the device tree,
    drivers for serial ports, VirtIO devices, the display and Ethernet, a RAM
    file system and a reader of exFAT volumes, UDP sockets, system calls and a
    loader for programs, guests of a small hypervisor, a shell on the console,
    and a tool that builds all of it from a configuration.  The files below translate the
    functions of the source, under their names, and prove what makes each part
    correct.  Paths are relative to [src/].

    ** How code is modelled

    A function that can panic or dereference a bad pointer returns in the
    monad [exec] of [Prelude]: [Done] of a result, or [Stuck].  Checked
    arithmetic, slices and indexing are [Stuck] where the source panics, so a
    theorem that a function is [Done] says that it does not panic.  A
    [Result] or [Option] of the source is a sum or an option.  Statics and
    pointers are explicit state: a heap of control blocks by pool slot, a
    memory of table pages by physical address, a pool of nodes by index.  A
    machine integer is a [Z] at its width, [usize] having 64 bits except in
    the Sv32 tables and where a width [w] is a parameter; wrapping operations
    wrap.  Devices, drivers, futures and clocks, whose code is not fixed, are
    type classes or functions.  Loops that the source bounds are structural;
    the others take fuel, and the theorems say how much is enough.

    ** The parts

    Memory.  [Addr] ([kernel/src/mm/addr.rs]), [FrameAlloc] ([mm/frame.rs]):
    the bitmap refines the sorted list of free pages, a frame is never handed
    out twice, [free] gives back exactly one page.  [Slab] ([mm/slab.rs]): an
    object pool never shares a slot.  [Heap] ([mm/tlsf.rs]): the counters of
    the global allocator, over a class for the crate that it wraps.

    Registers.  [TaskStack] ([arch/src/riscv/context.rs], [trap.S]) has the
    frame of a task and the trap vector of the RISC-V port.  What a port
    promises when it switches tasks is the class [Port] with its laws, and it
    follows once that tasks on disjoint stacks keep their registers across
    every history of switches; RISC-V and Cortex-M implement it.  [TrapProps]
    puts the RISC-V vector around the handler of [Trap]: the registers follow
    the current task of the kernel.

    Scheduling.  [Timer] ([timer.rs]), [Task] ([sched/task.rs]), [ReadyQueue]
    ([sched/ready_queue.rs]): queues of lists; [Critical] ([sched/percpu.rs],
    [sync.rs]): interrupt nesting and the lock that masks interrupts.  [Sched]
    ([sched/mod.rs]) holds the scheduler; [SchedInv] its invariant, [SchedOps]
    the proof that the operations keep it, [SchedKernel] the running kernel:
    every history of ticks, yields, delays, waits, wake-ups, creations and
    terminations runs without panicking.  [SchedProps] says which task is
    dispatched, that equals take turns, and that sleepers wake on time across
    the wrap-around of the tick counter.

    Blocking.  [WaitQueue] and [Wait] ([sched/wait.rs]): the array of waiters
    refines a queue; [WaitProps]: over the running kernel no signal is lost
    and a semaphore keeps its permits.  [AsyncRt] ([sched/async_rt.rs]): the
    executor polls what is ready and a sleeping future is woken.  [AsyncTasks]
    puts the tasks of the executor on the running kernel, with the events of
    [Wait] and the receive ring ([driver/char.rs]); [AsyncTasksProps]: with
    interrupts between the turns of single tasks they count every signal and
    beat when due, and a signal inside a turn is lost.

    Page tables.  [Paging] is the walk shared by [Sv39], [Sv32] and [GStage]
    ([arch/src/riscv/sv39.rs], [sv32.rs], [hypervisor/gstage.rs]); a source of
    frames is the class [PageSource], which the frame allocator implements.
    [IdentityMap] ([platform/riscv-generic/src/mmu.rs]) is proved against the
    class [RiscvPageTableLaws] of the page-table trait, which the Sv39 table
    implements.  [MmuProps] describes every translation after each operation.
    [BootMap] and [BootProps] compose the device tree, the frame allocator and
    the identity map in the order of [kernel/src/lib.rs]: after boot an
    address translates, to itself, exactly if it is to.  [Pmp]
    ([arch/src/riscv/pmp.rs]): on a machine without translation the entries
    written to the PMP registers decode to the regions requested.

    Cortex-M.  [Arm] ([arch/src/arm/cortex_m/], [bsp/src/arm/],
    [kernel/src/arch.rs]) has the port's assembly, over a CPU with the
    exception entry and return of the architecture, as a [Port]; the kernel of
    [Sched] on it, which runs unless a tick comes between choosing a task and
    PendSV, which is proved to lose the task; and the serial ports and clocks
    of the boards.

    Device tree and drivers.  [Fdt], [FdtWalk], [FdtProps] ([fdt.rs]): a walk
    over the blob of a tree visits the tree.  [Drivers], [DriverInv],
    [DriverProps] ([driver/manager.rs], [driver/mod.rs]) and [Irq]
    ([irq/mod.rs]): the tables, buckets, counters and the interrupt fast path
    stay consistent, probing registers what matches, an interrupt is
    delivered once.  [Rx] ([driver/char.rs]): the receive ring is a bounded
    queue under every interleaving of the interrupt handler and the reader.

    Devices.  A driver is proved against the laws of its device, which a small
    concrete device satisfies.  [Uart], [UartProps] ([drivers/ns16550a],
    [drivers/cmsdk_uart], [driver/terminal.rs]): the two serial drivers
    implement one interface.  [Virtio], [VirtioProps] ([drivers/virtio_common],
    [virtio_blk], [virtio_rng], [driver/pool.rs]): what initialisation and a
    read of a sector do in every case.  [Gpu], [GpuProps]
    ([drivers/virtio_gpu]): what the screen shows after drawing.

    Boards.  [Irqchip], [IrqchipProps] ([arch/src/riscv/plic.rs], [clic.rs],
    [clint.rs], [timer.rs]); [Board], [BoardProps]
    ([platform/riscv-generic/src/main.rs]): bytes go from the wire through the
    port, the interrupt and the ring to the reader, interrupts falling also
    between the pieces of a read, and in their order but for one place.  [IonSoc]
    ([platform/ionsoc-verilator/src]): which port of the device tree becomes
    the console.

    Programs.  [Trap], [TrapProps] ([syscall.rs], [arch/src/riscv/trap.rs]): a
    trap is one operation of the kernel of [Sched]; what the system calls
    read and write, with the poll function of the console, and their errors.  [Elf] ([process/elf.rs]): the loader
    agrees with a reference.  [Init] ([process/init.rs], [process/root.rs],
    [kernel/src/lib.rs]): the services started after boot and the files of
    [/dev].

    Files.  [Str] has the byte strings.  [RamFs], [RamFsTree], [RamFsProps]
    ([fs/mod.rs]): the pool is a tree, creation adds a path, what was written
    is read.  [Exfat], [ExfatRead], [ExfatDir], [ExfatProps] ([fs/exfat.rs]):
    directory entries round-trip, a file is read along its cluster chain, and
    on a sound volume everything returns.  [Mounts], [MountProps]
    ([fs/detect.rs], [fs/mod.rs]): detection and the longest-prefix lookup.

    Guests.  [Hv], [HvProps] ([kernel/src/hv.rs]): the table of guests keeps
    its numbers, names and memories, and an image is loaded into one guest
    only.  [Vcpu] ([arch/src/riscv/hypervisor/]): every exit of a
    guest is recorded and handled, the calls read the receive ring of [Rx].

    The shell ([shell.rs], [log.rs]).  [Text] has the characters of valid
    strings and the console.  [Shell], [ShellEdit]: paths are
    normalised to lists of components; the input line refines a text with a
    cursor.  [ShellCmds] has the commands that work on files, mounts and
    guests, and the loop; [ShellSafe] and [ShellProps]: with sound volumes to
    mount, no input panics the shell but Enter on a full line, and [cat] shows
    what [echo] wrote.
    [Reports] has the commands that print the state of the other components,
    as text; [ReportsProps]: they are total, numbers read back, and the list of
    tasks has the tasks that can run.

    The network.  [Lan9118] ([drivers/lan9118/src]) is the Ethernet driver over
    a record of laws for the controller.  [Net] ([net/smoltcp/], [net/posix.rs],
    [driver/net.rs]) is the adapter to the protocol stack and the sockets over
    classes for that crate; [NetProps]: frames pass unchanged and in order, and
    the calls are those of a machine with one socket.

    The build tool ([xtask/src/main.rs]).  [Xtask]: which configurations are
    accepted, and the features and flags they become.

    ** Bounds and fuel

    A walk over a device tree takes as many steps as its size in bytes, since
    every token moves forward. The loops of the identity map take one step per
    page of the region. The chains of an exFAT volume come from the disk and
    may be cyclic: the source loops for ever, and the theorems are about
    chains that end, with their length as fuel; file reads are bounded by the
    buffer. A volume is sound ([volume_sound]) if the chains reachable from
    its root stay within 32-bit arithmetic and those of directories end. The
    sleep queue and the ready queues are as long as the task table. Loops that
    wait for a device are bounded by the source, or take the bound [spin]; the
    theorems assume that the device answers within it. [cas_clear] takes the
    number of spurious failures of a weak compare-exchange, which the theorems
    quantify over.

    ** What is assumed

    The generated configuration is the one below.  The running kernel has one
    CPU.  Reads and writes of control registers succeed; [satp] is a field.
    A task of the executor is polled without an interrupt ([AsyncTasks]), and
    what a device tree names lies below 2^39 ([BootProps]).
    The blob of the device tree is not overwritten by a frame handed out.
    Drivers, factories and futures do not call back into the component that
    runs them, except through the arguments given to them.

    ** What is not modelled

    What control registers do beyond holding a value, entering a guest, and
    the start of the processor.  The crates [rlsf], [smoltcp] and [cortex_m],
    whose code is not in the repository, are classes with laws or lists of
    calls.  The fault handlers of the Cortex-M port and the start-up of its
    boards ([platform/qemu-an521/], [platform/stm32f103-bluepill/]) print,
    stop or call what is modelled.  Features that the configuration leaves out
    are left out.  The build tool's command line, files and processes are
    input and output only. *)

From Stdlib Require Import ZArith.

(** ** Configuration constants, [kernel/src/generated_config.rs] *)

Definition OPENION_SYSTICK_HZ : Z := 1000.
Definition OPENION_TASK_CAP : nat := 32.
Definition OPENION_ASYNC_RT : bool := true.
Definition OPENION_ASYNC_TASK_SLOTS : nat := 8.
Definition OPENION_RAMFS_NODE_CAP : nat := 64.
Definition OPENION_RAMFS_FILE_MAX_SIZE : nat := 4096.
Definition OPENION_EXTERNAL_IRQ_COUNT : nat := 64.
Definition OPENION_RISCV_XLEN_64 : bool := true.
Definition OPENION_RISCV_XLEN_32 : bool := false.
Definition OPENION_RISCV_S_MODE : bool := true.
Definition OPENION_RISCV_M_MODE : bool := false.
Definition OPENION_RISCV_SV32_MMU : bool := false.
Definition OPENION_RISCV_EXT_M : bool := true.
Definition OPENION_RISCV_EXT_A : bool := true.
Definition OPENION_RISCV_EXT_C : bool := true.
Definition OPENION_RISCV_EXT_F : bool := false.
Definition OPENION_RISCV_EXT_D : bool := false.
Definition OPENION_RISCV_EXT_B : bool := true.
Definition OPENION_RISCV_EXT_V : bool := false.
Definition OPENION_RISCV_EXT_ZICSR : bool := true.
Definition OPENION_RISCV_EXT_ZIFENCEI : bool := true.
