(* ===== verification/Prelude.v ===== *)
(** * Prelude: what every component of the development shares

    - the result monad [exec] of code that can panic (a failed bounds check,
      an [expect], a checked overflow) or dereference an invalid pointer;
    - machine integers as [Z] with their width written out;
    - bit-level lemmas ([testbit] of a set, cleared or masked word);
    - list lemmas on filters over ranges and on in-place updates;
    - the tactics and the hint database [openion]. *)

From stdpp Require Export base tactics numbers list gmap strings.
From Stdlib Require Export ZArith Lia.
From S2P Require Export OpenIon.

Create HintDb openion.
Create Rewrite HintDb openion.

#[global] Arguments Nat.ltb : simpl never.

(** ** Code that can get stuck *)

(** [Stuck] is a panic or undefined behaviour: the code has no next state. *)
Inductive exec (A : Type) : Type :=
  | Done (a : A)
  | Stuck.
Arguments Done {A} a.
Arguments Stuck {A}.

#[export] Instance exec_ret : MRet exec := λ A a, Done a.
#[export] Instance exec_bind : MBind exec := λ A B f m,
  match m with Done a => f a | Stuck => Stuck end.

(** A read that gets stuck outside the bounds. *)
Definition get_exec {A} (o : option A) : exec A :=
  match o with Some a => Done a | None => Stuck end.

Lemma exec_bind_Done {A B} (f : A → exec B) (a : A) : (Done a ≫= f) = f a.
Proof. done. Qed.

Lemma exec_bind_inv {A B} (m : exec A) (f : A → exec B) (b : B) :
  (m ≫= f) = Done b → ∃ a, m = Done a ∧ f a = Done b.
Proof. destruct m as [a|]; [|done]. intros H. by exists a. Qed.

Lemma get_exec_Done {A} (o : option A) (a : A) : get_exec o = Done a ↔ o = Some a.
Proof. destruct o; simpl; split; congruence. Qed.

#[export] Hint Rewrite @exec_bind_Done : openion.

(** Indexed reads and writes of an array, which panic outside of it. *)
Definition put_exec {A} (l : list A) (i : nat) (x : A) : exec (list A) :=
  if i <? length l then Done (<[i := x]> l) else Stuck.

Lemma put_exec_Done {A} (l : list A) (i : nat) (x : A) : i < length l → put_exec l i x = Done (<[i := x]> l).
Proof. intros Hi. unfold put_exec. by rewrite (proj2 (Nat.ltb_lt _ _) Hi). Qed.

(** [&l[..n]]. *)
Definition prefix_exec {A} (l : list A) (n : nat) : exec (list A) :=
  if n <=? length l then Done (take n l) else Stuck.

(** ** Tactics *)

(** Case analysis on the tests of a definition, with the arithmetic facts. *)
Ltac case_bool :=
  match goal with
  | |- context [bool_decide ?P] => destruct (bool_decide_reflect P)
  | |- context [Nat.ltb ?a ?b] => destruct (Nat.ltb_spec a b)
  | |- context [Nat.leb ?a ?b] => destruct (Nat.leb_spec a b)
  | |- context [Nat.eqb ?a ?b] => destruct (Nat.eqb_spec a b)
  | |- context [Z.ltb ?a ?b] => destruct (Z.ltb_spec a b)
  | |- context [Z.leb ?a ?b] => destruct (Z.leb_spec a b)
  | |- context [Z.eqb ?a ?b] => destruct (Z.eqb_spec a b)
  end.

Ltac case_bool_in H :=
  match type of H with
  | context [bool_decide ?P] => destruct (bool_decide_reflect P)
  | context [Nat.ltb ?a ?b] => destruct (Nat.ltb_spec a b)
  | context [Nat.leb ?a ?b] => destruct (Nat.leb_spec a b)
  | context [Nat.eqb ?a ?b] => destruct (Nat.eqb_spec a b)
  | context [Z.ltb ?a ?b] => destruct (Z.ltb_spec a b)
  | context [Z.leb ?a ?b] => destruct (Z.leb_spec a b)
  | context [Z.eqb ?a ?b] => destruct (Z.eqb_spec a b)
  end.

(** Inversion of a computation that returned: one equation per step. *)
Ltac exec_inv :=
  repeat match goal with
  | H : Stuck = Done _ |- _ => discriminate H
  | H : mbind _ _ = Done _ |- _ =>
      let a := fresh "a" in let Ha := fresh "Ha" in let H' := fresh in
      rename H into H'; destruct (exec_bind_inv _ _ _ H') as (a & Ha & H); clear H'
  | H : match ?x with _ => _ end = Done _ |- _ => destruct x eqn:?
  | H : Done _ = Done _ |- _ => progress simplify_eq/=
  end.

(** Division and modulo by literals. *)
Ltac divmod := Z.div_mod_to_equations; lia.

(** ** Machine integers *)

Definition wrap (w x : Z) : Z := x `mod` 2 ^ w.
Definition wrapping_add (w x y : Z) : Z := wrap w (x + y).
Definition wrapping_sub (w x y : Z) : Z := wrap w (x - y).
Definition in_width (w x : Z) : Prop := (0 <= x < 2 ^ w)%Z.

Definition U8_MAX : Z := 255.
Definition U32_MAX : Z := 4294967295.
Definition USIZE_MAX : Z := 18446744073709551615.

Definition saturating_sub (x y : Z) : Z := (if x <? y then 0 else x - y)%Z.

Lemma wrap_range (w x : Z) : (0 <= w)%Z → in_width w (wrap w x).
Proof. intros Hw. unfold in_width, wrap. apply Z.mod_pos_bound. lia. Qed.

Lemma wrap_small (w x : Z) : in_width w x → wrap w x = x.
Proof. intros H. unfold wrap. by apply Z.mod_small. Qed.

#[export] Hint Resolve wrap_range : openion.

(** ** Bits *)

(** [!x] on a [w]-bit word. *)
Definition lnot_w (w x : Z) : Z := Z.land (Z.lnot x) (Z.ones w).

(** [x.trailing_zeros()] on a [w]-bit word: [w] when no bit is set. *)
Fixpoint tz_from (fuel : nat) (i : nat) (x : Z) : nat :=
  match fuel with
  | O => i
  | S f => if Z.testbit x (Z.of_nat i) then i else tz_from f (S i) x
  end.
Definition trailing_zeros (w : nat) (x : Z) : nat := tz_from w 0 x.

(** [w - 1 - x.leading_zeros()]: the index of the highest set bit. *)
Fixpoint highest_bit (w : nat) (x : Z) : nat :=
  match w with
  | O => O
  | S w' => if Z.testbit x (Z.of_nat w') then w' else highest_bit w' x
  end.

Lemma testbit_pow2 (b i : Z) : (0 <= b)%Z → Z.testbit (Z.shiftl 1 b) i = bool_decide (i = b).
Proof.
  intros Hb. rewrite Z.shiftl_1_l.
  case_bool_decide; subst; [by apply Z.pow2_bits_true|].
  apply Z.pow2_bits_false. lia.
Qed.

Lemma testbit_set (x b i : Z) : (0 <= b)%Z →
  Z.testbit (Z.lor x (Z.shiftl 1 b)) i = Z.testbit x i || bool_decide (i = b).
Proof. intros Hb. by rewrite Z.lor_spec, testbit_pow2. Qed.

Lemma testbit_lnot_w (w x i : Z) : (0 <= w)%Z → (0 <= i)%Z →
  Z.testbit (lnot_w w x) i = bool_decide (i < w)%Z && negb (Z.testbit x i).
Proof.
  intros Hw Hi. unfold lnot_w. rewrite Z.land_spec, Z.lnot_spec by done.
  rewrite andb_comm. f_equal. case_bool_decide.
  - by apply Z.ones_spec_low.
  - apply Z.ones_spec_high. lia.
Qed.

Lemma testbit_clear (w x b i : Z) : (0 <= b)%Z → (0 <= i < w)%Z →
  Z.testbit (Z.land x (lnot_w w (Z.shiftl 1 b))) i = Z.testbit x i && negb (bool_decide (i = b)).
Proof.
  intros Hb Hi. rewrite Z.land_spec, testbit_lnot_w, testbit_pow2 by lia.
  rewrite (bool_decide_true (i < w)%Z) by lia. done.
Qed.

Lemma testbit_high (w x i : Z) : in_width w x → (w <= i)%Z → Z.testbit x i = false.
Proof.
  intros [H1 H2] Hi. destruct (decide (x = 0)%Z) as [->|Hx]; [by rewrite Z.testbit_0_l|].
  destruct (decide (0 <= w)%Z).
  - apply Z.bits_above_log2; [lia|].
    apply Z.log2_lt_pow2; [lia|]. eapply Z.lt_le_trans; [done|]. apply Z.pow_le_mono_r; lia.
  - rewrite Z.pow_neg_r in H2 by lia. lia.
Qed.

(** A word is bounded as soon as its high bits are clear. *)
Lemma in_width_bits (w x : Z) : (0 <= w)%Z → (0 <= x)%Z →
  (∀ i, (w <= i)%Z → Z.testbit x i = false) → in_width w x.
Proof.
  intros Hw Hx Hb. split; [done|].
  destruct (decide (x = 0)%Z) as [->|]; [lia|].
  apply Z.log2_lt_pow2; [lia|].
  destruct (decide (Z.log2 x < w)%Z); [done|].
  pose proof (Z.bit_log2 x ltac:(lia)) as Hlog. rewrite Hb in Hlog by lia. done.
Qed.

Lemma in_width_land (w x y : Z) : (0 <= w)%Z → in_width w x → (0 <= y)%Z → in_width w (Z.land x y).
Proof.
  intros Hw Hx Hy. apply in_width_bits; [done| |].
  - apply Z.land_nonneg. right; done.
  - intros i Hi. by rewrite Z.land_spec, (testbit_high w) by done.
Qed.

Lemma in_width_lor (w x y : Z) : (0 <= w)%Z → in_width w x → in_width w y → in_width w (Z.lor x y).
Proof.
  intros Hw Hx Hy. apply in_width_bits; [done| |].
  - apply Z.lor_nonneg. split; [apply Hx | apply Hy].
  - intros i Hi. by rewrite Z.lor_spec, !(testbit_high w) by done.
Qed.

Lemma in_width_bit (w b : Z) : (0 <= b < w)%Z → in_width w (Z.shiftl 1 b).
Proof.
  intros Hb. rewrite Z.shiftl_1_l. split; [apply Z.pow_nonneg; lia|].
  apply Z.pow_lt_mono_r; lia.
Qed.

Lemma lnot_w_nonneg (w x : Z) : (0 <= w)%Z → (0 <= lnot_w w x)%Z.
Proof. intros. apply Z.land_nonneg. right. rewrite Z.ones_equiv. lia. Qed.

Lemma word_zero_bits (w x : Z) : in_width w x →
  (∀ i, (0 <= i < w)%Z → Z.testbit x i = false) → x = 0%Z.
Proof.
  intros Hx Hb. apply Z.bits_inj'. intros i Hi. rewrite Z.testbit_0_l.
  destruct (decide (i < w)%Z); [by apply Hb | apply (testbit_high w); [done | lia]].
Qed.

Lemma tz_from_spec (fuel i : nat) (x : Z) :
  (tz_from fuel i x < i + fuel ∧ Z.testbit x (Z.of_nat (tz_from fuel i x)) = true
   ∧ i ≤ tz_from fuel i x
   ∧ ∀ j, i ≤ j < tz_from fuel i x → Z.testbit x (Z.of_nat j) = false)
  ∨ (tz_from fuel i x = i + fuel ∧ ∀ j, i ≤ j < i + fuel → Z.testbit x (Z.of_nat j) = false).
Proof.
  revert i. induction fuel as [|f IH]; intros i; simpl.
  { right. split; [lia|]. intros; lia. }
  destruct (Z.testbit x (Z.of_nat i)) eqn:Hb.
  { left. repeat split; [lia|done|lia|intros; lia]. }
  destruct (IH (S i)) as [(H1&H2&H3&H4)|[H1 H2]].
  - left. split_and!; [lia|done|lia|]. intros j Hj.
    destruct (decide (j = i)) as [->|]; [done|]. apply H4. lia.
  - right. split; [lia|]. intros j Hj.
    destruct (decide (j = i)) as [->|]; [done|]. apply H2. lia.
Qed.

(** On a non-zero word, [trailing_zeros] is the index of the lowest set bit. *)
Lemma trailing_zeros_spec (w : nat) (x : Z) : in_width (Z.of_nat w) x → x ≠ 0%Z →
  trailing_zeros w x < w ∧ Z.testbit x (Z.of_nat (trailing_zeros w x)) = true
  ∧ ∀ j, j < trailing_zeros w x → Z.testbit x (Z.of_nat j) = false.
Proof.
  intros Hw Hx. unfold trailing_zeros.
  destruct (tz_from_spec w 0 x) as [(H1&H2&H3&H4)|[H1 H2]].
  - split_and!; [lia|done|]. intros j Hj. apply H4. lia.
  - destruct Hx. apply (word_zero_bits (Z.of_nat w)); [done|]. intros i Hi.
    rewrite <- (Z2Nat.id i) by lia. apply H2. lia.
Qed.

Lemma highest_bit_spec (w : nat) (x : Z) : in_width (Z.of_nat w) x → x ≠ 0%Z →
  highest_bit w x < w ∧ Z.testbit x (Z.of_nat (highest_bit w x)) = true
  ∧ ∀ j, highest_bit w x < j → Z.testbit x (Z.of_nat j) = false.
Proof.
  intros Hw Hx.
  assert (Hj : ∀ j, w ≤ j → Z.testbit x (Z.of_nat j) = false)
    by (intros j Hj; apply (testbit_high (Z.of_nat w)); [done|lia]).
  assert (Hnz : ∃ i, i < w ∧ Z.testbit x (Z.of_nat i) = true).
  { destruct (trailing_zeros_spec w x Hw Hx) as (?&?&_). eauto. }
  clear Hw Hx. induction w as [|w IH]; simpl; [destruct Hnz as (?&?&_); lia|].
  destruct (Z.testbit x (Z.of_nat w)) eqn:Hb.
  - split_and!; [lia|done|]. intros j Hlt. apply Hj. lia.
  - destruct IH as (H1&H2&H3).
    + intros j Hlt. destruct (decide (j = w)) as [->|]; [done|]. apply Hj. lia.
    + destruct Hnz as (i&Hi&Hbit). exists i. split; [|done].
      destruct (decide (i = w)) as [->|]; [congruence|lia].
    + split_and!; [lia|done|done].
Qed.

(** ** Checked arithmetic

    The kernel is built with overflow checks: an addition that leaves the
    width, or a subtraction below zero, panics. *)

Definition add_w (w x y : Z) : exec Z := if (x + y <? 2 ^ w)%Z then Done (x + y)%Z else Stuck.
Definition sub_w (x y : Z) : exec Z := if (x <? y)%Z then Stuck else Done (x - y)%Z.
Definition mul_w (w x y : Z) : exec Z := if (x * y <? 2 ^ w)%Z then Done (x * y)%Z else Stuck.

Lemma add_w_Done (w x y : Z) : (x + y < 2 ^ w)%Z → add_w w x y = Done (x + y)%Z.
Proof. intros H. unfold add_w. by rewrite (proj2 (Z.ltb_lt _ _) H). Qed.

Lemma mul_w_Done (w x y : Z) : (x * y < 2 ^ w)%Z → mul_w w x y = Done (x * y)%Z.
Proof. intros H. unfold mul_w. by rewrite (proj2 (Z.ltb_lt _ _)). Qed.

Lemma sub_w_Done (x y : Z) : (y <= x)%Z → sub_w x y = Done (x - y)%Z.
Proof. intros H. unfold sub_w. by rewrite (proj2 (Z.ltb_ge _ _) H). Qed.

(** ** Lists *)

(** Membership in the elements of a range that pass a test. *)
Lemma elem_of_filter_seq (P : nat → bool) (n i : nat) :
  i ∈ filter (λ j, P j = true) (seq 0 n) ↔ i < n ∧ P i = true.
Proof. rewrite list_elem_of_filter, elem_of_seq. split; intros [??]; split; auto; lia. Qed.

Lemma filter_ext_elem {A} (P Q : A → Prop) `{!∀ x, Decision (P x), !∀ x, Decision (Q x)} (l : list A) :
  (∀ x, x ∈ l → P x ↔ Q x) → filter P l = filter Q l.
Proof.
  induction l as [|x l IH]; intros HPQ; [done|].
  rewrite !filter_cons. rewrite IH by (intros; apply HPQ; by right).
  pose proof (HPQ x (list_elem_of_here _ _)). repeat case_decide; tauto.
Qed.

(** Two tests that agree everywhere but at [k], where the second is false and
    the first true: the filtered ranges differ by [k]. *)
Lemma filter_seq_remove (P Q : nat → bool) (a n k : nat) :
  a ≤ k < a + n → P k = true → Q k = false → (∀ j, j ≠ k → Q j = P j) →
  (∀ j, a ≤ j < k → P j = false) →
  filter (λ j, P j = true) (seq a n) = k :: filter (λ j, Q j = true) (seq a n).
Proof.
  intros Hk HP HQ Heq Hlow. revert a Hk Hlow.
  induction n as [|n IH]; intros a Hk Hlow; [lia|]. cbn [seq].
  destruct (decide (a = k)) as [->|Hne].
  - rewrite filter_cons_True by done. rewrite filter_cons_False by congruence. f_equal.
    apply filter_ext_elem. intros j Hj%elem_of_seq. rewrite Heq by lia. done.
  - rewrite !filter_cons_False.
    + apply IH; [lia|]. intros j Hj. apply Hlow. lia.
    + rewrite Heq by done. rewrite Hlow by lia. done.
    + rewrite Hlow by lia. done.
Qed.

(** The head of a filtered range is the least element that passes. *)
Lemma filter_seq_head (P : nat → bool) (a n i : nat) (l : list nat) :
  filter (λ j, P j = true) (seq a n) = i :: l → ∀ j, a ≤ j < i → P j = false.
Proof.
  revert a. induction n as [|n IH]; intros a Hf j Hj; [done|]. cbn [seq] in Hf.
  rewrite filter_cons in Hf. case_decide as Ha.
  - injection Hf as -> _. lia.
  - destruct (decide (j = a)) as [->|]; [by destruct (P a)|]. apply (IH (S a)); [done|lia].
Qed.

(** The number of elements that pass the test, when one more passes. *)
Lemma filter_seq_count (P Q : nat → bool) (a n k : nat) :
  a ≤ k < a + n → P k = true → Q k = false → (∀ j, j ≠ k → Q j = P j) →
  length (filter (λ j, P j = true) (seq a n)) = S (length (filter (λ j, Q j = true) (seq a n))).
Proof.
  intros Hk HP HQ Heq. revert a Hk.
  induction n as [|n IH]; intros a Hk; [lia|]. cbn [seq].
  destruct (decide (a = k)) as [->|Hne].
  - rewrite filter_cons_True by done. rewrite filter_cons_False by congruence. cbn. f_equal.
    f_equal. apply filter_ext_elem. intros j Hj%elem_of_seq. rewrite Heq by lia. done.
  - specialize (IH (S a) ltac:(lia)). rewrite !filter_cons, Heq by done.
    case_decide; cbn; lia.
Qed.

Lemma lookup_total_insert_list {A} `{Inhabited A} (l : list A) (i j : nat) (x : A) :
  i < length l → <[i := x]> l !!! j = if decide (i = j) then x else l !!! j.
Proof.
  intros Hi. case_decide; subst.
  - by rewrite list_lookup_total_insert_eq.
  - by rewrite list_lookup_total_insert_ne.
Qed.

(** Replacing one list of a list of lists. *)
Lemma concat_insert_perm {A} (ls : list (list A)) (i : nat) (l : list A) : ls !! i = Some l →
  ∃ rest, concat ls ≡ₚ l ++ rest ∧ ∀ l', concat (<[i := l']> ls) ≡ₚ l' ++ rest.
Proof.
  revert i. induction ls as [|k ls IH]; intros [|i] Hi; simplify_eq/=.
  - by exists (concat ls).
  - destruct (IH i Hi) as (rest&H1&H2). exists (k ++ rest). split.
    + rewrite H1. rewrite !app_assoc. by rewrite (Permutation_app_comm k l).
    + intros l'. cbn. rewrite H2. rewrite !app_assoc. by rewrite (Permutation_app_comm k l').
Qed.

Lemma elem_of_concat {A} (ls : list (list A)) (x : A) :
  x ∈ concat ls ↔ ∃ i l, ls !! i = Some l ∧ x ∈ l.
Proof.
  rewrite list_elem_of_In, in_concat. split.
  - intros (l&Hl&Hx). apply list_elem_of_In, list_elem_of_lookup in Hl as [i Hi].
    exists i, l. by rewrite list_elem_of_In.
  - intros (i&l&Hi&Hx). exists l. split; [|by apply list_elem_of_In].
    apply list_elem_of_In. by eapply list_elem_of_lookup_2.
Qed.

(** Two lists of a duplicate-free concatenation are disjoint. *)
Lemma concat_disjoint {A} (ls : list (list A)) (i j : nat) (l k : list A) (x : A) :
  NoDup (concat ls) → ls !! i = Some l → ls !! j = Some k → x ∈ l → x ∈ k → i = j.
Proof.
  revert i j. induction ls as [|m ls IH]; intros i j Hnd Hi Hj Hx Hy; [done|].
  cbn in Hnd. apply NoDup_app in Hnd as (_&Hd&Hnd).
  destruct i as [|i], j as [|j]; simplify_eq/=; [done| | |f_equal; by eapply IH].
  - destruct (Hd x Hx). apply elem_of_concat. eauto.
  - destruct (Hd x Hy). apply elem_of_concat. eauto.
Qed.
