(* ===== verification/Addr.v ===== *)
(** * Physical and virtual addresses, [kernel/src/mm/addr.rs]

    [PhysAddr] and [VirtAddr] are transparent wrappers around [usize]; an
    address is the [Z] it wraps.  Both types have the same operations. *)

From S2P Require Export Prelude.

Definition PAGE_SIZE : Z := 4096.
Definition PAGE_SHIFT : Z := 12.

Abbreviation PhysAddr := Z (only parsing).
Abbreviation VirtAddr := Z (only parsing).

Definition is_aligned (a align : Z) : bool := (a `mod` align =? 0)%Z.
Definition page_align (a : Z) : Z := Z.land a (lnot_w 64 (PAGE_SIZE - 1)).
Definition page_offset (a : Z) : Z := Z.land a (PAGE_SIZE - 1).
Definition page_number (a : Z) : Z := Z.shiftr a PAGE_SHIFT.
Definition is_null (a : Z) : bool := (a =? 0)%Z.

(** [Add<usize>] and [Sub<usize>]: checked arithmetic. *)
Definition addr_add (a rhs : Z) : exec Z := add_w 64 a rhs.
Definition addr_sub (a rhs : Z) : exec Z := sub_w a rhs.

(** ** Lemmas *)

Lemma page_offset_mod (a : Z) : page_offset a = (a `mod` 4096)%Z.
Proof. unfold page_offset. change (PAGE_SIZE - 1)%Z with (Z.ones 12). by rewrite Z.land_ones. Qed.

Lemma page_number_div (a : Z) : page_number a = (a / 4096)%Z.
Proof. unfold page_number. by rewrite Z.shiftr_div_pow2. Qed.

Lemma page_align_mul (a : Z) : in_width 64 a → page_align a = (a / 4096 * 4096)%Z.
Proof.
  intros Ha. change (a / 4096 * 4096)%Z with (a / 2 ^ 12 * 2 ^ 12)%Z.
  rewrite <- Z.shiftr_div_pow2, <- Z.shiftl_mul_pow2 by lia.
  apply Z.bits_inj'. intros i Hi. unfold page_align. rewrite Z.land_spec, testbit_lnot_w by lia.
  change (PAGE_SIZE - 1)%Z with (Z.ones 12).
  destruct (decide (i < 12)%Z).
  - rewrite Z.ones_spec_low, Z.shiftl_spec_low by lia. by rewrite andb_false_r, andb_false_r.
  - rewrite Z.ones_spec_high, Z.shiftl_spec, Z.shiftr_spec by lia.
    replace (i - 12 + 12)%Z with i by lia. cbn [negb]. rewrite andb_true_r.
    case_bool_decide; [by rewrite andb_true_r|].
    by rewrite (testbit_high 64 a i) by (done || lia).
Qed.

Lemma is_aligned_true (a align : Z) : is_aligned a align = true ↔ (a `mod` align = 0)%Z.
Proof. unfold is_aligned. apply Z.eqb_eq. Qed.

(** An address is its page number and its offset. *)
Lemma page_split (a : Z) : in_width 64 a → a = (page_align a + page_offset a)%Z.
Proof. intros Ha. rewrite page_align_mul, page_offset_mod by done. divmod. Qed.
