(* ===== verification/FrameAlloc.v ===== *)
(** * The physical frame allocator, [kernel/src/mm/frame.rs]

    A bitmap of 32768 pages in 1024 32-bit words (a set bit is a free page)
    with a next-fit hint.  The theorems relate it to the sorted list of free
    page numbers: [alloc] removes its head, [free] inserts a page, and the
    hint never hides a free page. *)

From S2P Require Export Prelude.
From S2P Require Export Addr.

Definition WORD_BITS : nat := 32.
Definition BITMAP_WORDS : nat := 1024.
(** 32768, written so that [nat] does not expand it. *)
Definition MAX_PAGES : nat := BITMAP_WORDS * WORD_BITS.

Record FrameAllocator : Type := mk_frame_allocator {
  bitmap : list Z;
  base_addr : PhysAddr;
  total_pages : nat;
  free_pages : Z;
  next_word : nat;
  next_bit : nat;
}.

Record FrameStats : Type := mk_frame_stats {
  fs_initialized : bool;
  fs_base : PhysAddr;
  fs_total_pages : nat;
  fs_free_pages : Z;
}.

Definition new : FrameAllocator :=
  mk_frame_allocator (replicate BITMAP_WORDS 0%Z) 0%Z 0 0%Z 0 0.

(** ** [init] *)

(** One iteration of the loop that marks the pages free. *)
Definition set_bit (bm : list Z) (i : nat) : list Z :=
  let word := (i `div` WORD_BITS)%nat in
  let bit := (i `mod` WORD_BITS)%nat in
  if word <? BITMAP_WORDS
  then <[word := Z.lor (bm !!! word) (Z.shiftl 1 (Z.of_nat bit))]> bm
  else bm.

Fixpoint set_bits (bm : list Z) (n : nat) : list Z :=
  match n with O => bm | S m => set_bit (set_bits bm m) m end.

Definition init (base : PhysAddr) (size : Z) : FrameAllocator :=
  let base_addr := page_align base in
  let adjust := saturating_sub base_addr base in
  let usable := saturating_sub size adjust in
  let total := Z.to_nat (Z.min (usable / PAGE_SIZE) (Z.of_nat MAX_PAGES)) in
  mk_frame_allocator (set_bits (replicate BITMAP_WORDS 0%Z) total) base_addr total
    (Z.of_nat total) 0 0.

(** ** [alloc] *)

(** The compare-exchange loop on one word.  [compare_exchange_weak] may fail
    although the word is unchanged; [spur] bounds how often it does. *)
Fixpoint cas_clear (spur : nat) (bm : list Z) (word_idx : nat) (mask : Z) : option (list Z) :=
  let old := bm !!! word_idx in
  if (Z.land old mask =? 0)%Z then None else
  match spur with
  | O => Some (<[word_idx := Z.land old (lnot_w 32 mask)]> bm)
  | S s => cas_clear s bm word_idx mask
  end.

(** The body of the [Ok] arm: the counters and the hint after page [page_idx]
    was taken at [bit]. *)
Definition took_page (fa : FrameAllocator) (bm : list Z) (page_idx bit : nat)
    : exec (option PhysAddr * FrameAllocator) :=
  fp ← sub_w (free_pages fa) 1;
  let nw := (page_idx `div` WORD_BITS)%nat in
  let nb := S bit in
  let '(nw, nb) := if WORD_BITS <=? nb then ((S nw) `mod` BITMAP_WORDS, 0)%nat else (nw, nb) in
  a ← addr_add (base_addr fa) (Z.of_nat page_idx * PAGE_SIZE);
  Done (Some a, mk_frame_allocator bm (base_addr fa) (total_pages fa) fp nw nb).

(** The scan over the words; [fuel] counts the iterations left. *)
Fixpoint alloc_scan (spur : nat) (fa : FrameAllocator) (start_word start_bit scan fuel : nat)
    : exec (option PhysAddr * FrameAllocator) :=
  match fuel with
  | O => Done (None, fa)
  | S fuel' =>
      let continue := alloc_scan spur fa start_word start_bit (S scan) fuel' in
      let word_idx := ((start_word + scan) `mod` BITMAP_WORDS)%nat in
      let word := bitmap fa !!! word_idx in
      if (word =? 0)%Z then continue else
      let word := if (scan =? 0)%nat && (0 <? start_bit)%nat
                  then Z.land word (lnot_w 32 (Z.shiftl 1 (Z.of_nat start_bit) - 1))
                  else word in
      if (word =? 0)%Z then continue else
      let bit := trailing_zeros 32 word in
      if WORD_BITS <=? bit then continue else
      let page_idx := word_idx * WORD_BITS + bit in
      if total_pages fa <=? page_idx then continue else
      let mask := Z.shiftl 1 (Z.of_nat bit) in
      match cas_clear spur (bitmap fa) word_idx mask with
      | None => continue
      | Some bm => took_page fa bm page_idx bit
      end
  end.

Definition alloc (spur : nat) (fa : FrameAllocator) : exec (option PhysAddr * FrameAllocator) :=
  if (total_pages fa =? 0)%nat then Done (None, fa) else
  let start_word := Nat.min (next_word fa) (BITMAP_WORDS - 1) in
  let start_bit := Nat.min (next_bit fa) (WORD_BITS - 1) in
  alloc_scan spur fa start_word start_bit 0 BITMAP_WORDS.

(** ** [free] and the readers *)

Definition free (fa : FrameAllocator) (addr : PhysAddr) : exec FrameAllocator :=
  let raw := page_align addr in
  let base := base_addr fa in
  if (raw <? base)%Z then Done fa else
  let page := ((raw - base) / PAGE_SIZE)%Z in
  if (Z.of_nat (total_pages fa) <=? page)%Z then Done fa else
  let page_idx := Z.to_nat page in
  let word := (page_idx `div` WORD_BITS)%nat in
  let bit := (page_idx `mod` WORD_BITS)%nat in
  let mask := Z.shiftl 1 (Z.of_nat bit) in
  let prev := bitmap fa !!! word in
  let bm := <[word := Z.lor prev mask]> (bitmap fa) in
  if (Z.land prev mask =? 0)%Z then
    fp ← add_w 64 (free_pages fa) 1;
    let cur_word := Nat.min (next_word fa) (BITMAP_WORDS - 1) in
    let cur_bit := Nat.min (next_bit fa) (WORD_BITS - 1) in
    if (word <? cur_word) || ((word =? cur_word) && (bit <? cur_bit))
    then Done (mk_frame_allocator bm base (total_pages fa) fp word bit)
    else Done (mk_frame_allocator bm base (total_pages fa) fp (next_word fa) (next_bit fa))
  else Done (mk_frame_allocator bm base (total_pages fa) (free_pages fa) (next_word fa) (next_bit fa)).

Definition stats (fa : FrameAllocator) : FrameStats :=
  mk_frame_stats (negb (total_pages fa =? 0)%nat) (base_addr fa) (total_pages fa) (free_pages fa).

(** ** Abstraction: the sorted list of free page numbers *)

Definition is_free (bm : list Z) (i : nat) : bool :=
  Z.testbit (bm !!! (i `div` WORD_BITS)%nat) (Z.of_nat (i `mod` WORD_BITS)).

Definition free_list (fa : FrameAllocator) : list nat :=
  filter (λ i, is_free (bitmap fa) i = true) (seq 0 (total_pages fa)).

(** The address of page [i]. *)
Definition page_addr (fa : FrameAllocator) (i : nat) : PhysAddr :=
  (base_addr fa + Z.of_nat i * PAGE_SIZE)%Z.

(** The next-fit hint as a page number. *)
Definition hint (fa : FrameAllocator) : nat := next_word fa * WORD_BITS + next_bit fa.

Record frame_wf (fa : FrameAllocator) : Prop := {
  wf_len : length (bitmap fa) = BITMAP_WORDS;
  wf_words : Forall (in_width 32) (bitmap fa);
  wf_total : total_pages fa ≤ MAX_PAGES;
  wf_beyond : ∀ i, total_pages fa ≤ i < MAX_PAGES → is_free (bitmap fa) i = false;
  wf_count : free_pages fa = Z.of_nat (length (free_list fa));
  wf_nword : next_word fa < BITMAP_WORDS;
  wf_nbit : next_bit fa < WORD_BITS;
  wf_hint : ∀ i, i < hint fa → is_free (bitmap fa) i = false;
  wf_base : (0 <= base_addr fa)%Z ∧ (base_addr fa `mod` PAGE_SIZE = 0)%Z;
  wf_end : (base_addr fa + Z.of_nat (total_pages fa) * PAGE_SIZE <= 2 ^ 64)%Z;
}.

(** ** Lemmas on the bitmap *)

Lemma MAX_PAGES_words : MAX_PAGES = BITMAP_WORDS * WORD_BITS.
Proof. reflexivity. Qed.

#[local] Opaque MAX_PAGES BITMAP_WORDS.

Lemma page_word_lt (i : nat) : i < MAX_PAGES → i `div` WORD_BITS < BITMAP_WORDS.
Proof.
  intros Hi. rewrite MAX_PAGES_words in Hi. apply Nat.Div0.div_lt_upper_bound.
  by rewrite Nat.mul_comm.
Qed.

Lemma page_split_eq (i j : nat) :
  i = j ↔ i `div` WORD_BITS = j `div` WORD_BITS ∧ i `mod` WORD_BITS = j `mod` WORD_BITS.
Proof.
  split; [by intros ->|]. intros [H1 H2].
  rewrite (Nat.div_mod_eq i WORD_BITS), (Nat.div_mod_eq j WORD_BITS). by rewrite H1, H2.
Qed.

Lemma page_bit_lt (i : nat) : i `mod` WORD_BITS < WORD_BITS.
Proof. apply Nat.mod_upper_bound. done. Qed.

Lemma page_join (w b : nat) : b < WORD_BITS →
  (w * WORD_BITS + b) `div` WORD_BITS = w ∧ (w * WORD_BITS + b) `mod` WORD_BITS = b.
Proof.
  intros Hb. split.
  - rewrite Nat.div_add_l by done. rewrite Nat.div_small by done. lia.
  - rewrite Nat.add_comm, Nat.Div0.mod_add. by apply Nat.mod_small.
Qed.

Lemma page_lt_iff (i j : nat) :
  i < j ↔ i `div` WORD_BITS < j `div` WORD_BITS
          ∨ (i `div` WORD_BITS = j `div` WORD_BITS ∧ i `mod` WORD_BITS < j `mod` WORD_BITS).
Proof.
  pose proof (Nat.div_mod_eq i WORD_BITS). pose proof (Nat.div_mod_eq j WORD_BITS).
  pose proof (page_bit_lt i). pose proof (page_bit_lt j). unfold WORD_BITS in *. lia.
Qed.

Lemma bool_decide_nat_Z (a b : nat) : bool_decide (Z.of_nat a = Z.of_nat b) = bool_decide (a = b).
Proof. apply bool_decide_ext. lia. Qed.

Lemma is_free_set (bm : list Z) (k i : nat) : length bm = BITMAP_WORDS → k < MAX_PAGES →
  is_free (<[k `div` WORD_BITS := Z.lor (bm !!! (k `div` WORD_BITS)%nat)
                                   (Z.shiftl 1 (Z.of_nat (k `mod` WORD_BITS)))]> bm) i
  = is_free bm i || bool_decide (i = k).
Proof.
  intros Hlen Hk. unfold is_free.
  rewrite lookup_total_insert_list by (rewrite Hlen; by apply page_word_lt).
  case_decide as Hw.
  - rewrite testbit_set, bool_decide_nat_Z, Hw by lia. f_equal. apply bool_decide_ext.
    rewrite (page_split_eq i k). rewrite Hw. tauto.
  - rewrite (bool_decide_false (i = k)) by (intros ->; done). by rewrite orb_false_r.
Qed.

Lemma is_free_clear (bm : list Z) (k i : nat) : length bm = BITMAP_WORDS → k < MAX_PAGES →
  is_free (<[k `div` WORD_BITS := Z.land (bm !!! (k `div` WORD_BITS)%nat)
                      (lnot_w 32 (Z.shiftl 1 (Z.of_nat (k `mod` WORD_BITS))))]> bm) i
  = is_free bm i && negb (bool_decide (i = k)).
Proof.
  intros Hlen Hk. unfold is_free.
  rewrite lookup_total_insert_list by (rewrite Hlen; by apply page_word_lt).
  case_decide as Hw.
  - pose proof (page_bit_lt i). rewrite testbit_clear by (unfold WORD_BITS in *; lia).
    rewrite bool_decide_nat_Z, Hw. do 2 f_equal. apply bool_decide_ext.
    rewrite (page_split_eq i k), Hw. tauto.
  - rewrite (bool_decide_false (i = k)) by (intros ->; done). by rewrite andb_true_r.
Qed.

Lemma words_lookup (bm : list Z) (w : nat) : Forall (in_width 32) bm → in_width 32 (bm !!! w).
Proof.
  intros Hbm. destruct (bm !! w) as [x|] eqn:Hx.
  - rewrite (list_lookup_total_correct _ _ _ Hx). by eapply Forall_lookup_1 in Hx.
  - assert (length bm ≤ w) by (by apply lookup_ge_None).
    rewrite list_lookup_total_alt, Hx. split; simpl; lia.
Qed.

Lemma words_set (bm : list Z) (w b : nat) : Forall (in_width 32) bm → b < WORD_BITS →
  Forall (in_width 32) (<[w := Z.lor (bm !!! w) (Z.shiftl 1 (Z.of_nat b))]> bm).
Proof.
  intros Hbm Hb. apply Forall_insert; [done|].
  apply in_width_lor; [done|by apply words_lookup|]. apply in_width_bit. unfold WORD_BITS in *. lia.
Qed.

Lemma words_clear (bm : list Z) (w : nat) (m : Z) : Forall (in_width 32) bm →
  Forall (in_width 32) (<[w := Z.land (bm !!! w) (lnot_w 32 m)]> bm).
Proof.
  intros Hbm. apply Forall_insert; [done|].
  apply in_width_land; [done|by apply words_lookup|by apply lnot_w_nonneg].
Qed.

(** A word is zero exactly when it has no free page. *)
Lemma word_zero_iff (bm : list Z) (w : nat) : Forall (in_width 32) bm →
  (bm !!! w = 0%Z ↔ ∀ i, i `div` WORD_BITS = w → is_free bm i = false).
Proof.
  intros Hbm. split.
  - intros H i <-. unfold is_free. rewrite H. apply Z.testbit_0_l.
  - intros H. apply (word_zero_bits 32); [by apply words_lookup|]. intros b Hb.
    destruct (page_join w (Z.to_nat b)) as [H1 H2]; [unfold WORD_BITS; lia|].
    specialize (H _ H1). unfold is_free in H. rewrite H1, H2 in H. by rewrite Z2Nat.id in H by lia.
Qed.

#[export] Hint Resolve words_lookup words_set words_clear page_word_lt page_bit_lt : openion.

(** ** Lemmas on the scan of [alloc] *)

Lemma cas_clear_spur (spur : nat) (bm : list Z) (w : nat) (mask : Z) :
  cas_clear spur bm w mask =
    if (Z.land (bm !!! w) mask =? 0)%Z then None
    else Some (<[w := Z.land (bm !!! w) (lnot_w 32 mask)]> bm).
Proof. induction spur as [|s IH]; simpl; [done|]. rewrite IH. by case_match. Qed.

Lemma land_bit_zero (x b : Z) : (0 <= b)%Z →
  (Z.land x (Z.shiftl 1 b) =? 0)%Z = negb (Z.testbit x b).
Proof.
  intros Hb. destruct (Z.testbit x b) eqn:Hx; simpl.
  - apply Z.eqb_neq. intros H0. assert (Hf : Z.testbit (Z.land x (Z.shiftl 1 b)) b = true)
      by (rewrite Z.land_spec, testbit_pow2, Hx by done; by rewrite bool_decide_true).
    rewrite H0, Z.testbit_0_l in Hf. done.
  - apply Z.eqb_eq. apply Z.bits_inj'. intros i Hi.
    rewrite Z.land_spec, testbit_pow2, Z.testbit_0_l by done.
    case_bool_decide; subst; [by rewrite Hx|by rewrite andb_false_r].
Qed.

(** Masking the bits below the hint does not change a word without free pages there. *)
Lemma mask_low_id (bm : list Z) (w sb : nat) : Forall (in_width 32) bm →
  (∀ b, b < sb → is_free bm (w * WORD_BITS + b) = false) → sb < WORD_BITS →
  Z.land (bm !!! w) (lnot_w 32 (Z.shiftl 1 (Z.of_nat sb) - 1)) = bm !!! w.
Proof.
  intros Hbm Hlow Hsb. apply Z.bits_inj'. intros i Hi.
  destruct (decide (i < 32)%Z).
  - replace (Z.shiftl 1 (Z.of_nat sb) - 1)%Z with (Z.ones (Z.of_nat sb))
      by (rewrite Z.ones_equiv, Z.shiftl_1_l; lia).
    rewrite Z.land_spec, testbit_lnot_w by lia.
    rewrite bool_decide_true by done. destruct (decide (i < Z.of_nat sb)%Z).
    + rewrite Z.ones_spec_low by lia. rewrite andb_false_r. symmetry.
      specialize (Hlow (Z.to_nat i) ltac:(lia)). unfold is_free in Hlow.
      destruct (page_join w (Z.to_nat i)) as [E1 E2]; [unfold WORD_BITS in *; lia|].
      by rewrite E1, E2, Z2Nat.id in Hlow by lia.
    + rewrite Z.ones_spec_high by lia. by rewrite andb_true_r.
  - rewrite Z.land_spec, (testbit_high 32) by (eauto with openion || lia). done.
Qed.

Lemma free_list_elem (fa : FrameAllocator) (i : nat) :
  i ∈ free_list fa ↔ i < total_pages fa ∧ is_free (bitmap fa) i = true.
Proof. apply elem_of_filter_seq. Qed.

Lemma wf_free_lt (fa : FrameAllocator) (i : nat) : frame_wf fa → i < MAX_PAGES →
  is_free (bitmap fa) i = true → i < total_pages fa.
Proof.
  intros Hwf Hi Hf. destruct (decide (i < total_pages fa)); [done|].
  rewrite (wf_beyond _ Hwf) in Hf by lia. done.
Qed.

(** The bitmap with page [i] taken. *)
Definition cleared (bm : list Z) (i : nat) : list Z :=
  <[i `div` WORD_BITS := Z.land (bm !!! (i `div` WORD_BITS)%nat)
        (lnot_w 32 (Z.shiftl 1 (Z.of_nat (i `mod` WORD_BITS))))]> bm.

Definition take_lowest (fa : FrameAllocator) : exec (option PhysAddr * FrameAllocator) :=
  match free_list fa with
  | [] => Done (None, fa)
  | i :: _ => took_page fa (cleared (bitmap fa) i) i (i `mod` WORD_BITS)
  end.

Lemma free_list_lowest (fa : FrameAllocator) (i : nat) :
  i < total_pages fa → is_free (bitmap fa) i = true →
  (∀ j, j < i → is_free (bitmap fa) j = false) →
  free_list fa = i :: filter (λ j, is_free (bitmap fa) j && negb (bool_decide (j = i)) = true)
                        (seq 0 (total_pages fa)).
Proof.
  intros Hi Hf Hlow. unfold free_list.
  apply (filter_seq_remove (is_free (bitmap fa))
           (λ j, is_free (bitmap fa) j && negb (bool_decide (j = i)))); [lia|done| | |].
  - by rewrite bool_decide_true, andb_false_r.
  - intros j Hj. by rewrite bool_decide_false, andb_true_r.
  - intros j Hj. apply Hlow. lia.
Qed.

(** The word a scan stops at holds the lowest free page. *)
Lemma scan_lowest (fa : FrameAllocator) (scan j bit : nat) : frame_wf fa → scan < BITMAP_WORDS →
  (∀ k, k < scan → bitmap fa !!! ((next_word fa + k) `mod` BITMAP_WORDS)%nat = 0%Z) →
  (∀ b, b < bit → Z.testbit (bitmap fa !!! ((next_word fa + scan) `mod` BITMAP_WORDS)%nat)
                    (Z.of_nat b) = false) →
  bit < WORD_BITS →
  j < ((next_word fa + scan) `mod` BITMAP_WORDS) * WORD_BITS + bit →
  is_free (bitmap fa) j = false.
Proof.
  intros Hwf Hscan Hzero Hbits Hbit Hj.
  set (wi := (next_word fa + scan) `mod` BITMAP_WORDS) in *.
  destruct (decide (j < hint fa)) as [Hh|Hh]; [by apply (wf_hint _ Hwf)|].
  pose proof (Nat.div_mod_eq j WORD_BITS) as Ej. pose proof (page_bit_lt j) as Bj.
  pose proof (wf_nword _ Hwf). pose proof (wf_nbit _ Hwf). unfold hint in Hh.
  assert (Hsw : next_word fa ≤ j `div` WORD_BITS) by (unfold WORD_BITS in *; lia).
  destruct (decide (j `div` WORD_BITS = wi)) as [Hw|Hw].
  { unfold is_free. rewrite Hw. apply Hbits. unfold WORD_BITS in *; lia. }
  assert (Hlt : j `div` WORD_BITS < wi) by (unfold WORD_BITS in *; lia).
  apply (word_zero_iff (bitmap fa) (j `div` WORD_BITS)); [apply Hwf| |done].
  assert (Hnw : next_word fa + scan < BITMAP_WORDS).
  { destruct (decide (next_word fa + scan < BITMAP_WORDS)); [done|].
    assert (wi = next_word fa + scan - BITMAP_WORDS); [|lia].
    unfold wi. symmetry. apply (Nat.mod_unique _ _ 1); lia. }
  assert (Ewi : wi = next_word fa + scan) by (by apply Nat.mod_small).
  specialize (Hzero (j `div` WORD_BITS - next_word fa) ltac:(lia)).
  rewrite Nat.mod_small in Hzero by lia.
  by replace (next_word fa + (j `div` WORD_BITS - next_word fa)) with (j `div` WORD_BITS) in Hzero by lia.
Qed.

(** When every word was visited and found empty, no page is free. *)
Lemma scan_empty (fa : FrameAllocator) : frame_wf fa →
  (∀ k, k < BITMAP_WORDS → bitmap fa !!! ((next_word fa + k) `mod` BITMAP_WORDS)%nat = 0%Z) →
  free_list fa = [].
Proof.
  intros Hwf Hzero. apply elem_of_nil_inv. intros i [Hi Hf]%free_list_elem.
  pose proof (wf_total _ Hwf). pose proof (wf_nword _ Hwf).
  assert (Hw : i `div` WORD_BITS < BITMAP_WORDS) by (apply page_word_lt; lia).
  assert (Hz0 : bitmap fa !!! (i `div` WORD_BITS)%nat = 0%Z).
  { destruct (decide (next_word fa ≤ i `div` WORD_BITS)).
    - specialize (Hzero (i `div` WORD_BITS - next_word fa) ltac:(lia)).
      replace (next_word fa + (i `div` WORD_BITS - next_word fa)) with (i `div` WORD_BITS) in Hzero by lia.
      by rewrite Nat.mod_small in Hzero by done.
    - specialize (Hzero (BITMAP_WORDS + i `div` WORD_BITS - next_word fa) ltac:(lia)).
      replace (next_word fa + (BITMAP_WORDS + i `div` WORD_BITS - next_word fa))
        with (i `div` WORD_BITS + 1 * BITMAP_WORDS) in Hzero by lia.
      rewrite Nat.Div0.mod_add in Hzero. by rewrite Nat.mod_small in Hzero by done. }
  rewrite (proj1 (word_zero_iff _ _ (wf_words _ Hwf)) Hz0 i eq_refl) in Hf. done.
Qed.

Lemma alloc_scan_lowest (fa : FrameAllocator) (spur scan fuel : nat) : frame_wf fa →
  scan + fuel = BITMAP_WORDS →
  (∀ k, k < scan → bitmap fa !!! ((next_word fa + k) `mod` BITMAP_WORDS)%nat = 0%Z) →
  alloc_scan spur fa (next_word fa) (next_bit fa) scan fuel = take_lowest fa.
Proof.
  intros Hwf. revert scan. induction fuel as [|fuel IH]; intros scan Hs Hzero; cbn [alloc_scan].
  { unfold take_lowest. rewrite scan_empty; [done|done|]. intros k Hk. apply Hzero. lia. }
  set (wi := (next_word fa + scan) `mod` BITMAP_WORDS).
  assert (Hstep : bitmap fa !!! wi = 0%Z →
    alloc_scan spur fa (next_word fa) (next_bit fa) (S scan) fuel = take_lowest fa).
  { intros H0. apply IH; [lia|]. intros k Hk. destruct (decide (k = scan)) as [->|]; [done|].
    apply Hzero. lia. }
  destruct (Z.eqb_spec (bitmap fa !!! wi) 0) as [H0|H0]; [by apply Hstep|]. clear Hstep IH.
  assert (Hmask : (if (scan =? 0) && (0 <? next_bit fa)
      then Z.land (bitmap fa !!! wi) (lnot_w 32 (Z.shiftl 1 (Z.of_nat (next_bit fa)) - 1))
      else bitmap fa !!! wi) = bitmap fa !!! wi).
  { destruct (Nat.eqb_spec scan 0) as [->|]; [|done]. destruct (0 <? next_bit fa); [|done]. cbn.
    assert (Ewi : wi = next_word fa).
    { unfold wi. rewrite Nat.add_0_r. apply Nat.mod_small, Hwf. }
    rewrite Ewi. apply mask_low_id; [apply Hwf| |apply Hwf]. intros b Hb. apply (wf_hint _ Hwf).
    unfold hint. lia. }
  rewrite Hmask. rewrite (proj2 (Z.eqb_neq _ _) H0).
  destruct (trailing_zeros_spec 32 (bitmap fa !!! wi)) as (Hb&Htz&Hlow);
    [apply words_lookup, Hwf|done|].
  set (bit := trailing_zeros 32 (bitmap fa !!! wi)) in *.
  rewrite (proj2 (Nat.leb_gt WORD_BITS bit)) by (unfold WORD_BITS; lia).
  destruct (page_join wi bit) as [E1 E2]; [done|].
  assert (Hfree : is_free (bitmap fa) (wi * WORD_BITS + bit) = true)
    by (unfold is_free; by rewrite E1, E2).
  assert (Hwi : wi < BITMAP_WORDS) by (apply Nat.mod_upper_bound; by vm_compute).
  assert (Hlt : wi * WORD_BITS + bit < total_pages fa).
  { apply wf_free_lt; [done| |done]. rewrite MAX_PAGES_words. unfold WORD_BITS in *. lia. }
  rewrite (proj2 (Nat.leb_gt _ _) Hlt).
  rewrite cas_clear_spur, land_bit_zero, Htz by lia. cbn [negb].
  unfold take_lowest. rewrite (free_list_lowest fa (wi * WORD_BITS + bit)); [|done|done|].
  - unfold cleared. by rewrite E1, E2.
  - intros j Hj. eapply (scan_lowest fa scan j bit); [done|lia|done|done|done|done].
Qed.

Lemma length_set_bits (bm : list Z) (n : nat) : length (set_bits bm n) = length bm.
Proof.
  induction n as [|n IH]; simpl; [done|]. unfold set_bit. case_match; [|done].
  by rewrite length_insert.
Qed.

Lemma words_set_bits (bm : list Z) (n : nat) :
  Forall (in_width 32) bm → Forall (in_width 32) (set_bits bm n).
Proof.
  intros Hbm. induction n as [|n IH]; simpl; [done|]. unfold set_bit. case_match; [|done].
  apply words_set; [done|]. apply page_bit_lt.
Qed.

Lemma is_free_set_bits (bm : list Z) (n i : nat) : length bm = BITMAP_WORDS → n ≤ MAX_PAGES →
  is_free (set_bits bm n) i = is_free bm i || bool_decide (i < n).
Proof.
  intros Hlen Hn. induction n as [|n IH]; cbn [set_bits].
  { by rewrite bool_decide_false, orb_false_r by lia. }
  unfold set_bit. rewrite (proj2 (Nat.ltb_lt _ _)) by (apply page_word_lt; lia).
  rewrite is_free_set by (rewrite ?length_set_bits; lia || done).
  rewrite IH by lia. rewrite <- orb_assoc. f_equal.
  repeat case_bool_decide; simpl; done || lia.
Qed.

Lemma is_free_zero (i : nat) : i < MAX_PAGES → is_free (replicate BITMAP_WORDS 0%Z) i = false.
Proof.
  intros Hi. unfold is_free. rewrite lookup_total_replicate_2 by (by apply page_word_lt).
  apply Z.testbit_0_l.
Qed.

Lemma filter_all_seq (P : nat → bool) (n : nat) : (∀ i, i < n → P i = true) →
  filter (λ j, P j = true) (seq 0 n) = seq 0 n.
Proof.
  intros HP. transitivity (filter (λ _ : nat, True) (seq 0 n)).
  - apply filter_ext_elem. intros x Hx%elem_of_seq. rewrite HP by lia. done.
  - generalize (seq 0 n). intros l. induction l as [|x l IH]; [done|].
    rewrite filter_cons_True by done. by rewrite IH.
Qed.

(** [base.page_align()] never exceeds [base], so nothing is subtracted. *)
Lemma init_adjust_zero (base : Z) : in_width 64 base → saturating_sub (page_align base) base = 0%Z.
Proof.
  intros Hb. unfold saturating_sub. rewrite page_align_mul by done.
  case_bool; [done|]. unfold PAGE_SIZE in *. divmod.
Qed.

Lemma init_total (base size : Z) : in_width 64 base → (0 <= size)%Z →
  total_pages (init base size) = Z.to_nat (Z.min (size / PAGE_SIZE) (Z.of_nat MAX_PAGES)).
Proof.
  intros Hb Hs. unfold init. cbn -[MAX_PAGES]. rewrite init_adjust_zero by done.
  unfold saturating_sub. rewrite (proj2 (Z.ltb_ge _ _)) by lia. by rewrite Z.sub_0_r.
Qed.

(** ** [init], [alloc] *)

Lemma init_wf (base size : Z) :
  in_width 64 base → (0 <= size)%Z → (base + size <= 2 ^ 64)%Z →
  frame_wf (init base size) ∧
  free_list (init base size) = seq 0 (Z.to_nat (Z.min (size / PAGE_SIZE) (Z.of_nat MAX_PAGES))).
Proof.
  intros Hb Hs He. pose proof (init_total base size Hb Hs) as Ht.
  assert (Hle : total_pages (init base size) ≤ MAX_PAGES) by (rewrite Ht; lia).
  assert (Hfree : ∀ i, i < MAX_PAGES → is_free (bitmap (init base size)) i
                       = bool_decide (i < total_pages (init base size))).
  { intros i Hi. unfold init in *. cbn -[MAX_PAGES set_bits BITMAP_WORDS] in *.
    rewrite is_free_set_bits by (by rewrite ?length_replicate). by rewrite is_free_zero by done. }
  assert (Hfl : free_list (init base size) = seq 0 (total_pages (init base size))).
  { apply filter_all_seq. intros i Hi. rewrite Hfree by lia. by apply bool_decide_true. }
  split; [|by rewrite Hfl, Ht]. constructor.
  - unfold init; cbn -[MAX_PAGES set_bits BITMAP_WORDS]. by rewrite length_set_bits, length_replicate.
  - unfold init; cbn -[MAX_PAGES set_bits BITMAP_WORDS]. apply words_set_bits. apply Forall_replicate. split; lia.
  - done.
  - intros i Hi. rewrite Hfree by lia. apply bool_decide_false. lia.
  - rewrite Hfl, length_seq. done.
  - by vm_compute; lia.
  - by vm_compute; lia.
  - cbn. lia.
  - unfold init; cbn -[MAX_PAGES set_bits BITMAP_WORDS]. rewrite page_align_mul by done. unfold PAGE_SIZE.
    destruct Hb. split; [|apply Z.mod_mul; done]. apply Z.mul_nonneg_nonneg; [apply Z.div_pos|]; lia.
  - change (base_addr (init base size)) with (page_align base). rewrite Ht, page_align_mul by done.
    unfold PAGE_SIZE. rewrite Z2Nat.id by (apply Z.min_glb; [apply Z.div_pos|]; lia).
    destruct Hb. pose proof (Z.le_min_l (size / 4096) (Z.of_nat MAX_PAGES)).
    transitivity (base / 4096 * 4096 + size / 4096 * 4096)%Z; [lia|]. divmod.
Qed.

Lemma took_page_wf (fa : FrameAllocator) (i : nat) (rest : list nat) :
  frame_wf fa → free_list fa = i :: rest →
  ∃ fa', took_page fa (cleared (bitmap fa) i) i (i `mod` WORD_BITS) = Done (Some (page_addr fa i), fa')
    ∧ frame_wf fa' ∧ free_list fa' = rest
    ∧ base_addr fa' = base_addr fa ∧ total_pages fa' = total_pages fa.
Proof.
  intros Hwf Hfl.
  assert (Hi : i ∈ free_list fa) by (rewrite Hfl; by left). apply free_list_elem in Hi as [Hi Hf].
  pose proof (wf_total _ Hwf) as Htot.
  assert (Hlow : ∀ j, j < i → is_free (bitmap fa) j = false).
  { intros j Hj. apply (filter_seq_head _ 0 (total_pages fa) i rest); [done|lia]. }
  assert (Hclr : ∀ j, is_free (cleared (bitmap fa) i) j
                      = is_free (bitmap fa) j && negb (bool_decide (j = i))).
  { intros j. apply is_free_clear; [apply Hwf|lia]. }
  pose proof (free_list_lowest fa i Hi Hf Hlow) as Hlist.
  assert (Hrest : rest = filter (λ j, is_free (cleared (bitmap fa) i) j = true) (seq 0 (total_pages fa))).
  { rewrite Hfl in Hlist. injection Hlist as ->. apply filter_ext_elem. intros j _. by rewrite Hclr. }
  pose proof (wf_count _ Hwf) as Hcnt. rewrite Hfl in Hcnt. cbn [length] in Hcnt.
  pose proof (wf_end _ Hwf) as Hend. pose proof (page_bit_lt i) as Hbl.
  pose proof (page_word_lt i ltac:(lia)) as Hwl.
  unfold took_page. rewrite sub_w_Done by lia. cbn [mbind exec_bind].
  destruct (if WORD_BITS <=? S (i `mod` WORD_BITS) then _ else _) as [nw nb] eqn:Hh.
  unfold addr_add. rewrite add_w_Done by (unfold PAGE_SIZE in *; nia). cbn [mbind exec_bind].
  assert (Hhint : nw < BITMAP_WORDS ∧ nb < WORD_BITS ∧ nw * WORD_BITS + nb ≤ S i).
  { pose proof (Nat.div_mod_eq i WORD_BITS) as Ei.
    destruct (Nat.leb_spec WORD_BITS (S (i `mod` WORD_BITS))) as [Hle|Hgt].
    - apply pair_equal_spec in Hh as [<- <-].
      split_and!; [apply Nat.mod_upper_bound; by vm_compute|unfold WORD_BITS; lia|].
      pose proof (Nat.Div0.mod_le (S (i `div` WORD_BITS)) BITMAP_WORDS). unfold WORD_BITS in *. nia.
    - apply pair_equal_spec in Hh as [<- <-]. split_and!; [done|done|]. unfold WORD_BITS in *. lia. }
  set (fa' := mk_frame_allocator _ _ _ _ _ _).
  assert (Hfl' : free_list fa' = rest) by (symmetry; exact Hrest).
  exists fa'. split; [done|]. split_and!; [|done|done|done].
  destruct Hhint as (Hnw&Hnb&Hle). constructor; try rewrite Hfl'; cbn.
  - unfold cleared. rewrite length_insert. apply Hwf.
  - apply words_clear, Hwf.
  - done.
  - intros j Hj. rewrite Hclr, (wf_beyond _ Hwf) by done. done.
  - lia.
  - done.
  - done.
  - unfold hint. cbn. intros j Hj. rewrite Hclr.
    destruct (decide (j = i)) as [->|]; [by rewrite bool_decide_true, andb_false_r|].
    rewrite Hlow by lia. done.
  - apply Hwf.
  - apply Hwf.
Qed.

Lemma alloc_lowest (spur : nat) (fa : FrameAllocator) : frame_wf fa →
  match free_list fa with
  | [] => alloc spur fa = Done (None, fa)
  | i :: rest => ∃ fa', alloc spur fa = Done (Some (page_addr fa i), fa')
      ∧ frame_wf fa' ∧ free_list fa' = rest
      ∧ base_addr fa' = base_addr fa ∧ total_pages fa' = total_pages fa
  end.
Proof.
  intros Hwf. assert (Hal : alloc spur fa = take_lowest fa).
  { unfold alloc. destruct (Nat.eqb_spec (total_pages fa) 0) as [Ht|Ht].
    - unfold take_lowest, free_list. by rewrite Ht.
    - pose proof (wf_nword _ Hwf). pose proof (wf_nbit _ Hwf).
      rewrite !Nat.min_l by lia. apply alloc_scan_lowest; [done|done|lia]. }
  rewrite Hal. unfold take_lowest. destruct (free_list fa) as [|i rest] eqn:Hfl; [done|].
  by apply took_page_wf.
Qed.

(** ** Lemmas on [free] *)

Lemma free_count_set (bm bm' : list Z) (i n : nat) : i < n → is_free bm i = false →
  (∀ j, is_free bm' j = is_free bm j || bool_decide (j = i)) →
  length (filter (λ j, is_free bm' j = true) (seq 0 n))
  = S (length (filter (λ j, is_free bm j = true) (seq 0 n))).
Proof.
  intros Hi Hf Hset. apply (filter_seq_count (is_free bm') (is_free bm) 0 n i); [lia| |done|].
  - by rewrite Hset, bool_decide_true, orb_true_r.
  - intros j Hj. by rewrite Hset, bool_decide_false, orb_false_r.
Qed.

(** The hint after page [i] was freed. *)
Lemma free_hint (fa : FrameAllocator) (i nw nb : nat) : frame_wf fa → i < MAX_PAGES →
  (nw, nb) = (if (i `div` WORD_BITS <? next_word fa)
                 || ((i `div` WORD_BITS =? next_word fa) && (i `mod` WORD_BITS <? next_bit fa))
              then (i `div` WORD_BITS, i `mod` WORD_BITS) else (next_word fa, next_bit fa)) →
  nw < BITMAP_WORDS ∧ nb < WORD_BITS ∧ nw * WORD_BITS + nb = Nat.min i (hint fa).
Proof.
  intros Hwf Hi Hn. pose proof (wf_nword _ Hwf). pose proof (wf_nbit _ Hwf).
  pose proof (page_word_lt i Hi). pose proof (page_bit_lt i). unfold hint.
  pose proof (Nat.div_mod_eq i WORD_BITS).
  destruct (Nat.ltb_spec (i `div` WORD_BITS) (next_word fa));
    destruct (Nat.eqb_spec (i `div` WORD_BITS) (next_word fa));
    destruct (Nat.ltb_spec (i `mod` WORD_BITS) (next_bit fa)); cbn [orb andb] in Hn;
    apply pair_equal_spec in Hn as [-> ->]; split_and!; try done; unfold WORD_BITS in *; lia.
Qed.

(** The page an address falls in. *)
Lemma free_page_index (fa : FrameAllocator) (addr : Z) (i : nat) :
  frame_wf fa → in_width 64 addr → (base_addr fa <= page_align addr)%Z →
  page_addr fa i = page_align addr ↔ Z.of_nat i = ((page_align addr - base_addr fa) / PAGE_SIZE)%Z.
Proof.
  intros Hwf Ha Hb. destruct (wf_base _ Hwf) as [Hb0 Hbm]. unfold page_addr, PAGE_SIZE in *.
  rewrite page_align_mul in * by done. divmod.
Qed.

Lemma free_spec (fa : FrameAllocator) (addr : PhysAddr) : frame_wf fa → in_width 64 addr →
  ∃ fa', free fa addr = Done fa' ∧ frame_wf fa'
    ∧ base_addr fa' = base_addr fa ∧ total_pages fa' = total_pages fa
    ∧ ∀ i, i ∈ free_list fa' ↔
        i ∈ free_list fa ∨ (i < total_pages fa ∧ page_addr fa i = page_align addr).
Proof.
  intros Hwf Ha. unfold free.
  destruct (Z.ltb_spec (page_align addr) (base_addr fa)) as [Hlt|Hge].
  { exists fa. split_and!; try done. intros i. split; [by left|]. intros [?|[_ Hi]]; [done|].
    unfold page_addr, PAGE_SIZE in Hi. lia. }
  pose proof (λ i, free_page_index fa addr i Hwf Ha Hge) as Hidx.
  destruct (Z.leb_spec (Z.of_nat (total_pages fa)) ((page_align addr - base_addr fa) / PAGE_SIZE)) as [Hle|Hgt].
  { exists fa. split_and!; try done. intros i. split; [by left|].
    intros [?|[Hit Hi%Hidx]]; [done|]. lia. }
  assert (Hq : (0 <= (page_align addr - base_addr fa) / PAGE_SIZE)%Z)
    by (apply Z.div_pos; unfold PAGE_SIZE; lia).
  set (k := Z.to_nat ((page_align addr - base_addr fa) / PAGE_SIZE)).
  assert (Hk : k < total_pages fa) by lia.
  assert (HkM : k < MAX_PAGES) by (pose proof (wf_total _ Hwf); lia).
  assert (Hik : ∀ i, page_addr fa i = page_align addr ↔ i = k) by (intros i; rewrite Hidx; lia).
  pose proof (λ i, is_free_set (bitmap fa) k i (wf_len _ Hwf) HkM) as Hset.
  set (bm := <[k `div` WORD_BITS := _]> (bitmap fa)) in *.
  rewrite land_bit_zero by lia. change (Z.testbit _ _) with (is_free (bitmap fa) k).
  assert (Hlist : ∀ fp nw nb i, i ∈ free_list (mk_frame_allocator bm (base_addr fa) (total_pages fa) fp nw nb)
    ↔ i ∈ free_list fa ∨ (i < total_pages fa ∧ page_addr fa i = page_align addr)).
  { intros fp nw nb i. rewrite !free_list_elem, Hik. cbn. rewrite Hset, orb_true_iff, bool_decide_eq_true.
    tauto. }
  assert (Hmk : ∀ fp nw nb, fp = Z.of_nat (length (free_list (mk_frame_allocator bm (base_addr fa) (total_pages fa) fp nw nb))) →
    nw < BITMAP_WORDS → nb < WORD_BITS →
    (∀ i, i < nw * WORD_BITS + nb → i < hint fa ∧ i ≠ k) →
    frame_wf (mk_frame_allocator bm (base_addr fa) (total_pages fa) fp nw nb)).
  { intros fp nw nb Hfp Hnw Hnb Hh. constructor; try done; cbn; try apply Hwf.
    - unfold bm. rewrite length_insert. apply Hwf.
    - apply words_set; [apply Hwf|apply page_bit_lt].
    - intros i Hi. rewrite Hset, (wf_beyond _ Hwf), bool_decide_false by lia. done.
    - unfold hint. cbn. intros i Hi. apply Hh in Hi as [Hi Hne].
      rewrite Hset, (wf_hint _ Hwf), bool_decide_false by done. done. }
  pose proof (wf_nword _ Hwf) as Hnw. pose proof (wf_nbit _ Hwf) as Hnb.
  destruct (is_free (bitmap fa) k) eqn:Hfk; cbn [negb].
  - eexists. split_and!; [done| |done|done|by apply Hlist]. apply Hmk; [|done|done|].
    + rewrite (wf_count _ Hwf). do 2 f_equal. apply filter_ext_elem. intros i _. cbn. rewrite Hset.
      case_bool_decide; subst; [by rewrite Hfk|by rewrite orb_false_r].
    + intros i Hi. split; [done|]. intros ->. rewrite (wf_hint _ Hwf) in Hfk by done. done.
  - pose proof (free_count_set (bitmap fa) bm k (total_pages fa) Hk Hfk Hset) as Hcnt.
    pose proof (wf_count _ Hwf) as Hc. unfold free_list in Hc.
    assert (Hbound : (free_pages fa < 2 ^ 60)%Z).
    { rewrite Hc. pose proof (length_filter (λ j, is_free (bitmap fa) j = true) (seq 0 (total_pages fa))) as Hlf.
      rewrite length_seq in Hlf. pose proof (wf_end _ Hwf). destruct (wf_base _ Hwf).
      unfold PAGE_SIZE in *. lia. }
    rewrite add_w_Done by lia. cbn [mbind exec_bind]. rewrite !Nat.min_l by lia.
    destruct (if (k `div` WORD_BITS <? next_word fa)
                 || ((k `div` WORD_BITS =? next_word fa) && (k `mod` WORD_BITS <? next_bit fa))
              then (k `div` WORD_BITS, k `mod` WORD_BITS) else (next_word fa, next_bit fa))
      as [nw nb] eqn:Hn.
    destruct (free_hint fa k nw nb Hwf HkM (eq_sym Hn)) as (H1&H2&H3).
    exists (mk_frame_allocator bm (base_addr fa) (total_pages fa) (free_pages fa + 1) nw nb).
    split_and!; [|apply Hmk|done|done|by apply Hlist]; [| |done|done|].
    + revert Hn. case_match; intros Hn; by apply pair_equal_spec in Hn as [<- <-].
    + rewrite Hc. unfold free_list. cbn [bitmap total_pages]. rewrite Hcnt. lia.
    + intros i Hi. lia.
Qed.

(** ** Histories of the allocator

    [owned] are the frames handed out and not given back. *)
Inductive frame_reach (base size : Z) : FrameAllocator → list PhysAddr → Prop :=
  | reach_init : frame_reach base size (init base size) []
  | reach_alloc spur fa owned r fa' :
      frame_reach base size fa owned → alloc spur fa = Done (r, fa') →
      frame_reach base size fa' (match r with Some a => a :: owned | None => owned end)
  | reach_free fa l1 a l2 fa' :
      frame_reach base size fa (l1 ++ a :: l2) → free fa a = Done fa' →
      frame_reach base size fa' (l1 ++ l2).

(** The invariant of a history: the owned frames are distinct pages of the
    region, none of them free, and together with the free ones they are all. *)
Record frame_owned (fa : FrameAllocator) (owned : list PhysAddr) : Prop := {
  ow_wf : frame_wf fa;
  ow_nodup : NoDup owned;
  ow_page : ∀ a, a ∈ owned → ∃ i, a = page_addr fa i ∧ i < total_pages fa ∧ i ∉ free_list fa;
  ow_count : length owned + length (free_list fa) = total_pages fa;
}.

Lemma page_addr_inj (fa : FrameAllocator) (i j : nat) : page_addr fa i = page_addr fa j → i = j.
Proof. unfold page_addr, PAGE_SIZE. lia. Qed.

Lemma page_addr_range (fa : FrameAllocator) (i : nat) : frame_wf fa → i < total_pages fa →
  in_width 64 (page_addr fa i) ∧ page_align (page_addr fa i) = page_addr fa i.
Proof.
  intros Hwf Hi. pose proof (wf_end _ Hwf). destruct (wf_base _ Hwf) as [H0 Hm].
  assert (Hr : in_width 64 (page_addr fa i)) by (unfold in_width, page_addr, PAGE_SIZE in *; lia).
  split; [done|]. rewrite page_align_mul by done. unfold page_addr, PAGE_SIZE in *. divmod.
Qed.

Lemma free_list_NoDup (fa : FrameAllocator) : NoDup (free_list fa).
Proof. apply NoDup_filter, NoDup_seq. Qed.

Lemma owned_init (base size : Z) : in_width 64 base → (0 <= size)%Z → (base + size <= 2 ^ 64)%Z → frame_owned (init base size) [].
Proof.
  intros Hb Hs He. destruct (init_wf base size Hb Hs He) as [Hwf Hfl]. split; [done|constructor|set_solver|].
  by rewrite Hfl, length_seq, init_total.
Qed.

Lemma owned_alloc (fa fa' : FrameAllocator) (spur : nat) (r : option PhysAddr) (owned : list PhysAddr) :
  frame_owned fa owned → alloc spur fa = Done (r, fa') →
  frame_owned fa' (match r with Some a => a :: owned | None => owned end).
Proof.
  intros [Hwf Hnd Hpg Hct] Hal. pose proof (alloc_lowest spur fa Hwf) as Hlow.
  destruct (free_list fa) as [|i rest] eqn:Hfl.
  { rewrite Hal in Hlow. injection Hlow as -> ->. split; [done|done| |by rewrite Hfl]. intros a Ha.
    destruct (Hpg a Ha) as (j&?&?&?). exists j. by rewrite Hfl. }
  destruct Hlow as (fa''&Heq&Hwf'&Hfl'&Hb&Ht). rewrite Hal in Heq. injection Heq as -> ->.
  pose proof (free_list_NoDup fa) as Hndf. rewrite Hfl in Hndf. apply NoDup_cons in Hndf as [Hin _].
  assert (Hpa : ∀ j, page_addr fa'' j = page_addr fa j) by (intros j; unfold page_addr; by rewrite Hb).
  split; [done| | |].
  - apply NoDup_cons. split; [|done]. intros Ha. destruct (Hpg _ Ha) as (j&Hj&_&Hnf).
    apply page_addr_inj in Hj as ->. apply Hnf. by left.
  - intros a [->|Ha]%elem_of_cons.
    + exists i. rewrite Hpa, Ht, Hfl'. split_and!; [done| |done].
      assert (Hi : i ∈ free_list fa) by (rewrite Hfl; by left). by apply free_list_elem in Hi as [? _].
    + destruct (Hpg _ Ha) as (j&->&Hj&Hnf). exists j. rewrite Hpa, Ht, Hfl'. split_and!; [done|done|].
      intros ?. apply Hnf. by right.
  - rewrite Ht, Hfl'. cbn in *. lia.
Qed.

Lemma owned_free (fa fa' : FrameAllocator) (l1 l2 : list PhysAddr) (a : PhysAddr) :
  frame_owned fa (l1 ++ a :: l2) → free fa a = Done fa' → frame_owned fa' (l1 ++ l2).
Proof.
  intros [Hwf Hnd Hpg Hct] Hfr. destruct (Hpg a) as (i&->&Hi&Hnf); [set_solver|].
  destruct (page_addr_range fa i Hwf Hi) as [Hr Hal].
  destruct (free_spec fa _ Hwf Hr) as (fa''&Heq&Hwf'&Hb&Ht&Hel). rewrite Hfr in Heq. injection Heq as ->.
  rewrite Hal in Hel.
  assert (Hpa : ∀ j, page_addr fa'' j = page_addr fa j) by (intros j; unfold page_addr; by rewrite Hb).
  assert (Hel' : ∀ j, j ∈ free_list fa'' ↔ j = i ∨ j ∈ free_list fa).
  { intros j. rewrite Hel. split; [intros [?|[_ ?%page_addr_inj]]; auto|].
    intros [->|?]; [right|left]; done. }
  rewrite <- Permutation_middle in Hnd. apply NoDup_cons in Hnd as [Hni Hnd].
  split; [done|done| |].
  - intros b Hb'. destruct (Hpg b) as (j&->&Hj&Hnfj);
      [apply elem_of_app in Hb'; apply elem_of_app; rewrite elem_of_cons; tauto|]. exists j.
    rewrite Hpa, Ht, Hel'. split_and!; [done|done|]. intros [->|?]; done.
  - assert (Hperm : free_list fa'' ≡ₚ i :: free_list fa).
    { apply NoDup_Permutation; [apply free_list_NoDup| |].
      - apply NoDup_cons. split; [done|apply free_list_NoDup].
      - intros j. rewrite Hel', elem_of_cons. done. }
    rewrite Ht, Hperm. rewrite length_app in *. cbn in *. lia.
Qed.

(** ** Properties *)

(** [init] on a region that ends inside the address space establishes the
    allocator invariant, and every page of the region (capped at 32768) is
    free, in ascending order. *)
Theorem frame_init_wf (base size : Z) :
  in_width 64 base → (0 <= size)%Z → (base + size <= 2 ^ 64)%Z →
  frame_wf (init base size) ∧
  free_list (init base size) = seq 0 (Z.to_nat (Z.min (size / PAGE_SIZE) (Z.of_nat MAX_PAGES))).
Proof. apply init_wf. Qed.

Lemma frame_init_wf_witness :
  frame_wf (init 2149580800 16384) ∧ free_list (init 2149580800 16384) = [0; 1; 2; 3].
Proof. apply (frame_init_wf 2149580800 16384); unfold in_width; lia. Defined.

(** C15. [alloc] returns the lowest free page, whatever spurious failures the
    compare-exchange has: it never panics, it returns [None] exactly when no
    page is free, and otherwise it removes that page and nothing else. *)
Theorem frame_alloc_lowest (spur : nat) (fa : FrameAllocator) : frame_wf fa →
  match free_list fa with
  | [] => alloc spur fa = Done (None, fa)
  | i :: rest => ∃ fa', alloc spur fa = Done (Some (page_addr fa i), fa')
      ∧ frame_wf fa' ∧ free_list fa' = rest
      ∧ base_addr fa' = base_addr fa ∧ total_pages fa' = total_pages fa
  end.
Proof. apply alloc_lowest. Qed.

Lemma frame_alloc_lowest_witness :
  ∃ fa', alloc 2 (init 2149580800 16384) = Done (Some 2149580800%Z, fa')
    ∧ frame_wf fa' ∧ free_list fa' = [1; 2; 3].
Proof.
  destruct (init_wf 2149580800 16384) as [Hwf Hfl]; [unfold in_width; lia..|].
  pose proof (frame_alloc_lowest 2 (init 2149580800 16384) Hwf) as H.
  rewrite Hfl in H. destruct H as (fa'&H1&H2&H3&_). exists fa'. split; [exact H1|]. split; [exact H2|exact H3].
Defined.

(** [free] of any address keeps the invariant and never panics; the free
    pages become the old ones and the page the address falls in when it is in
    the region, so a double free and a free outside the region change nothing. *)
Theorem frame_free_spec (fa : FrameAllocator) (addr : PhysAddr) : frame_wf fa → in_width 64 addr →
  ∃ fa', free fa addr = Done fa' ∧ frame_wf fa'
    ∧ base_addr fa' = base_addr fa ∧ total_pages fa' = total_pages fa
    ∧ ∀ i, i ∈ free_list fa' ↔
        i ∈ free_list fa ∨ (i < total_pages fa ∧ page_addr fa i = page_align addr).
Proof. apply free_spec. Qed.

Lemma frame_free_spec_witness :
  ∃ fa', free (init 2149580800 16384) 2149584896 = Done fa' ∧ frame_wf fa'
         ∧ (0 ∈ free_list fa' ↔ 0 ∈ free_list (init 2149580800 16384) ∨
              (0 < total_pages (init 2149580800 16384)
               ∧ page_addr (init 2149580800 16384) 0 = page_align 2149584896)).
Proof.
  destruct (init_wf 2149580800 16384) as [Hwf _]; [unfold in_width; lia..|].
  destruct (frame_free_spec (init 2149580800 16384) 2149584896 Hwf) as (fa'&H1&H2&_&_&H3);
    [unfold in_width; lia|]. exists fa'. split; [exact H1|]. split; [exact H2|exact (H3 0)].
Defined.

(** C17. Over any history of allocations and frees of owned frames, no frame is
    owned twice, no owned frame is free, and no frame is lost. *)
Theorem frame_never_shared (base size : Z) (fa : FrameAllocator) (owned : list PhysAddr) :
  in_width 64 base → (0 <= size)%Z → (base + size <= 2 ^ 64)%Z →
  frame_reach base size fa owned → frame_owned fa owned.
Proof.
  intros Hb Hs He Hr. induction Hr as [|spur fa owned r fa' _ IH Hal|fa l1 a l2 fa' _ IH Hfr].
  - by apply owned_init.
  - by eapply owned_alloc.
  - by eapply owned_free.
Qed.

Lemma frame_never_shared_witness :
  ∃ fa, frame_reach 2149580800 16384 fa [2149584896; 2149580800]%Z
        ∧ frame_owned fa [2149584896; 2149580800]%Z.
Proof.
  destruct (init_wf 2149580800 16384) as [Hwf Hfl]; [unfold in_width; lia..|].
  pose proof (alloc_lowest 0 _ Hwf) as H1. rewrite Hfl in H1. destruct H1 as (fa1&H1&Hwf1&Hfl1&Hb1&_).
  pose proof (alloc_lowest 1 _ Hwf1) as H2. rewrite Hfl1 in H2. destruct H2 as (fa2&H2&_).
  assert (Hr : frame_reach 2149580800 16384 fa2 [2149584896; 2149580800]%Z).
  { eapply (reach_alloc _ _ 1 fa1 [2149580800%Z] (Some 2149584896%Z)).
    - eapply (reach_alloc _ _ 0 _ [] (Some 2149580800%Z)); [apply reach_init|exact H1].
    - rewrite H2. unfold page_addr. rewrite Hb1. reflexivity. }
  exists fa2. split; [exact Hr|].
  apply (frame_never_shared 2149580800 16384); [unfold in_width; lia..|exact Hr].
Defined.
