(* ===== verification/Slab.v ===== *)
(** * The static object pool, [kernel/src/mm/slab.rs]

    [N] slots and a free list threaded through [next_free].  The contents are
    a partial map from slots to values ([MaybeUninit]); a pointer into the pool
    is the address [base + idx * step]. *)

From S2P Require Export Prelude.

Record SlabInner (T : Type) : Type := mk_slab {
  data : gmap nat T;
  next_free : list nat;
  free_head : option nat;
  free_count : nat;
}.
Arguments mk_slab {T} data next_free free_head free_count.
Arguments data {T} s.
Arguments next_free {T} s.
Arguments free_head {T} s.
Arguments free_count {T} s.

Section slab.
Context {T : Type} (N : nat) (base step : Z).

Definition slab_new : SlabInner T :=
  mk_slab ∅ (S <$> seq 0 N) (if 0 <? N then Some 0 else None) N.

(** The slot's number; [slot_ptr] is the pointer the code returns for it. *)
Definition slab_alloc (s : SlabInner T) (val : T) : exec (option nat * SlabInner T) :=
  match free_head s with
  | Some idx =>
      next ← get_exec (next_free s !! idx);
      match free_count s with
      | O => Stuck
      | S n => Done (Some idx, mk_slab (<[idx := val]> (data s)) (next_free s)
                                 (if next <? N then Some next else None) n)
      end
  | None => Done (None, s)
  end.

Definition slot_ptr (idx : nat) : Z := (base + Z.of_nat idx * step)%Z.

Definition slab_free (s : SlabInner T) (p : Z) : exec (SlabInner T) :=
  off ← sub_w p base;
  let idx := Z.to_nat (off / step) in
  if N <=? idx then Done s else
  let nx := match free_head s with Some head => head | None => N end in
  _ ← get_exec (next_free s !! idx);
  Done (mk_slab (delete idx (data s)) (<[idx := nx]> (next_free s)) (Some idx) (S (free_count s))).

(** ** The free list *)

Fixpoint free_chain (nf : list nat) (hd : option nat) (l : list nat) : Prop :=
  match l with
  | [] => hd = None
  | x :: l' => hd = Some x ∧ ∃ n, nf !! x = Some n ∧ free_chain nf (if n <? N then Some n else None) l'
  end.

Record slab_wf (s : SlabInner T) (l : list nat) : Prop := {
  sw_len : length (next_free s) = N;
  sw_chain : free_chain (next_free s) (free_head s) l;
  sw_nodup : NoDup l;
  sw_bound : ∀ x, x ∈ l → x < N;
  sw_count : free_count s = length l;
  sw_data : ∀ x, x ∈ l → data s !! x = None;
}.

Lemma free_chain_insert (nf : list nat) (hd : option nat) (l : list nat) (x n : nat) :
  x ∉ l → free_chain nf hd l → free_chain (<[x := n]> nf) hd l.
Proof.
  revert hd. induction l as [|y l IH]; intros hd Hx; cbn; [done|]. intros [-> (m&Hm&Hc)].
  split; [done|]. exists m. split.
  - rewrite list_lookup_insert_ne; [done|]. intros ->. apply Hx. by left.
  - apply IH; [|done]. intros ?. apply Hx. by right.
Qed.

Lemma slab_new_chain (k i : nat) : i + k = N →
  free_chain (S <$> seq 0 N) (if i <? N then Some i else None) (seq i k).
Proof.
  revert i. induction k as [|k IH]; intros i Hi; destruct (Nat.ltb_spec i N); [lia|done| |lia].
  split; [done|]. exists (S i). split; [|apply IH; lia].
  rewrite list_lookup_fmap, lookup_seq_lt by lia. done.
Qed.

Lemma slab_new_wf : slab_wf slab_new (seq 0 N).
Proof.
  split; cbn [slab_new data next_free free_head free_count].
  - by rewrite length_fmap, length_seq.
  - by apply slab_new_chain.
  - apply NoDup_seq.
  - intros x Hx%elem_of_seq. lia.
  - by rewrite length_seq.
  - done.
Qed.

Lemma slab_alloc_ok (s : SlabInner T) (l : list nat) (v : T) : slab_wf s l →
  match l with
  | [] => slab_alloc s v = Done (None, s)
  | x :: l' => ∃ s', slab_alloc s v = Done (Some x, s') ∧ slab_wf s' l'
                 ∧ data s' = <[x := v]> (data s)
  end.
Proof.
  intros [H1 H2 H3 H4 H5 H6]. unfold slab_alloc. destruct l as [|x l]; cbn in H2; [by rewrite H2|].
  destruct H2 as [Hh (n&Hn&Hc)]. rewrite Hh, Hn, H5. cbn [get_exec mbind exec_bind length].
  apply NoDup_cons in H3 as [Hx Hnd].
  eexists. split; [done|]. split; [|done]. split; cbn; try done.
  - intros y Hy. apply H4. by right.
  - intros y Hy. rewrite lookup_insert_ne by (by intros ->). apply H6. by right.
Qed.

Lemma slab_free_ok (s : SlabInner T) (l : list nat) (x : nat) : (0 < step)%Z →
  slab_wf s l → x < N → x ∉ l →
  ∃ s', slab_free s (slot_ptr x) = Done s' ∧ slab_wf s' (x :: l) ∧ data s' = delete x (data s).
Proof.
  intros Hstep [H1 H2 H3 H4 H5 H6] Hx Hxl. unfold slab_free, slot_ptr.
  rewrite sub_w_Done by nia. cbn [mbind exec_bind].
  replace (base + Z.of_nat x * step - base)%Z with (Z.of_nat x * step)%Z by lia.
  rewrite Z.div_mul, Nat2Z.id by lia. rewrite (proj2 (Nat.leb_gt _ _) Hx).
  destruct (lookup_lt_is_Some_2 (next_free s) x) as [n Hn]; [lia|]. rewrite Hn.
  cbn [get_exec mbind exec_bind]. eexists. split; [done|]. split; [|done]. split; cbn.
  - by rewrite length_insert.
  - split; [done|]. eexists. split; [by rewrite list_lookup_insert_eq by lia|].
    apply free_chain_insert; [done|].
    destruct (free_head s) as [hd|] eqn:Hh.
    + destruct l as [|y l]; [done|]. destruct H2 as [[= ->] H2].
      destruct (Nat.ltb_spec y N) as [_|Hge]; [by split|].
      specialize (H4 y (list_elem_of_here _ _)). lia.
    + rewrite Nat.ltb_irrefl. by destruct l as [|y l]; [|destruct H2].
  - by apply NoDup_cons.
  - intros y [->|Hy]%elem_of_cons; [done|by apply H4].
  - by rewrite H5.
  - intros y [->|Hy]%elem_of_cons; [apply lookup_delete_eq|].
    rewrite lookup_delete_ne by (by intros ->). by apply H6.
Qed.

(** ** Histories: the slots handed out and not freed *)
Inductive slab_reach : SlabInner T → list nat → Prop :=
  | sr_new : slab_reach slab_new []
  | sr_alloc s owned v r s' : slab_reach s owned → slab_alloc s v = Done (r, s') →
      slab_reach s' (match r with Some x => x :: owned | None => owned end)
  | sr_free s l1 x l2 s' : slab_reach s (l1 ++ x :: l2) →
      slab_free s (slot_ptr x) = Done s' → slab_reach s' (l1 ++ l2).

Lemma slab_reach_perm (s : SlabInner T) (owned : list nat) : (0 < step)%Z → slab_reach s owned →
  ∃ l, slab_wf s l ∧ owned ++ l ≡ₚ seq 0 N.
Proof.
  intros Hstep. induction 1 as [|s owned v r s' _ (l&Hwf&Hp) Hal|s l1 x l2 s' _ (l&Hwf&Hp) Hfr].
  - exists (seq 0 N). split; [apply slab_new_wf|done].
  - pose proof (slab_alloc_ok s l v Hwf) as Hok. destruct l as [|x l].
    + rewrite Hal in Hok. injection Hok as -> ->. by exists [].
    + destruct Hok as (s''&Heq&Hwf'&_). rewrite Hal in Heq. injection Heq as -> ->.
      exists l. split; [done|]. rewrite <- Hp. cbn. by rewrite Permutation_middle.
  - assert (Hnd : NoDup ((l1 ++ x :: l2) ++ l)) by (rewrite Hp; apply NoDup_seq).
    assert (Hx : x < N).
    { assert (Hin : x ∈ seq 0 N) by (rewrite <- Hp; apply elem_of_app; left; apply elem_of_app; right; by left).
      apply elem_of_seq in Hin. lia. }
    assert (Hxl : x ∉ l).
    { apply NoDup_app in Hnd as (_&Hd&_). apply Hd. apply elem_of_app. right. by left. }
    destruct (slab_free_ok s l x Hstep Hwf Hx Hxl) as (s''&Heq&Hwf'&_).
    rewrite Hfr in Heq. injection Heq as ->. exists (x :: l). split; [done|].
    rewrite <- Hp. rewrite <- !app_assoc. cbn. by rewrite (Permutation_middle l2 l x).
Qed.
End slab.

(** ** Properties *)

(** Over any history of allocations and frees of owned slots, the owned
    slots are distinct and, with the free ones, are all [N] slots: an
    allocation fails only when all [N] are owned, and never panics. *)
Theorem slab_never_shared {T} (N : nat) (base step : Z) (s : SlabInner T) (owned : list nat) (v : T) :
  (0 < step)%Z → slab_reach N base step s owned →
  NoDup owned ∧ (∀ x, x ∈ owned → x < N) ∧ free_count s + length owned = N
  ∧ ∃ r s', slab_alloc N s v = Done (r, s')
      ∧ match r with
        | Some x => (x ∉ owned) ∧ data s' !! x = Some v
        | None => (length owned = N)
        end.
Proof.
  intros Hstep Hr. destruct (slab_reach_perm N base step s owned Hstep Hr) as (l&Hwf&Hp).
  assert (Hnd : NoDup (owned ++ l)) by (rewrite Hp; apply NoDup_seq).
  assert (Hlen : length owned + length l = N).
  { rewrite <- length_app, Hp. apply length_seq. }
  pose proof (sw_count _ _ _ Hwf) as Hc. split_and!.
  - by apply NoDup_app in Hnd as (?&_).
  - intros x Hx. assert (Hin : x ∈ seq 0 N) by (rewrite <- Hp; apply elem_of_app; by left).
    apply elem_of_seq in Hin. lia.
  - lia.
  - pose proof (slab_alloc_ok N s l v Hwf) as Hok. destruct l as [|x l].
    + exists None, s. split; [done|]. cbn in Hlen. lia.
    + destruct Hok as (s'&Heq&_&Hd). exists (Some x), s'. split; [done|]. rewrite Hd, lookup_insert_eq.
      split; [|done]. intros Hx. apply NoDup_app in Hnd as (_&Hdis&_). apply (Hdis x Hx). by left.
Qed.

Lemma slab_never_shared_witness :
  ∃ s : SlabInner Z, slab_reach 2 4096 16 s [1; 0] ∧ length [1; 0] = 2
    ∧ ∃ r s', slab_alloc 2 s 9%Z = Done (r, s')
      ∧ match r with Some x => (x ∉ [1; 0]) ∧ data s' !! x = Some 9%Z | None => (length [1; 0] = 2) end.
Proof.
  set (s1 := mk_slab (<[0 := 7%Z]> ∅) [1; 2] (Some 1) 1).
  set (s2 := mk_slab (<[1 := 8%Z]> (<[0 := 7%Z]> ∅)) [1; 2] None 0).
  assert (Hr : slab_reach 2 4096 16 s2 [1; 0]).
  { apply (sr_alloc 2 4096 16 s1 [0] 8%Z (Some 1)); [|reflexivity].
    apply (sr_alloc 2 4096 16 (slab_new 2) [] 7%Z (Some 0)); [apply sr_new|reflexivity]. }
  exists s2. split; [exact Hr|]. split; [reflexivity|].
  destruct (slab_never_shared 2 4096 16 s2 [1; 0] 9%Z ltac:(lia) Hr) as (_&_&_&H). exact H.
Defined.
