(* ===== verification/Timer.v ===== *)
(** * The tick counter, [kernel/src/timer.rs]

    A 32-bit counter incremented by the timer interrupt and the length of a
    tick in microseconds; the time is their 64-bit product. *)

From S2P Require Export Prelude.

Record timer : Type := mk_timer { TICK_US : Z; TICKS : Z }.
Definition timer_boot : timer := mk_timer 0 0.

(** A frequency of zero divides by zero. *)
Definition timer_init (t : timer) (systick_hz : Z) : exec timer :=
  if (systick_hz =? 0)%Z then Stuck else Done (mk_timer (1000000 / systick_hz) (TICKS t)).

Definition tick (t : timer) : timer := mk_timer (TICK_US t) (wrapping_add 32 (TICKS t) 1).
Definition ticks (t : timer) : Z := TICKS t.
Definition time_us (t : timer) : exec Z :=
  let p := (TICKS t * TICK_US t)%Z in if (p <? 2 ^ 64)%Z then Done p else Stuck.

(** A deadline [n] ticks ahead, and the test that it has passed: the distance
    modulo 2^32 is less than half of the range. *)
Definition deadline (now n : Z) : Z := wrapping_add 32 now n.
Definition passed (now wake : Z) : bool := (wrapping_sub 32 now wake <? U32_MAX / 2)%Z.

(** ** Lemmas *)

Lemma passed_spec (now wake : Z) : passed now wake = true ↔ ((now - wake) `mod` 2 ^ 32 < 2147483647)%Z.
Proof. unfold passed, wrapping_sub, wrap. rewrite Z.ltb_lt. by change (U32_MAX / 2)%Z with 2147483647%Z. Qed.

(** A deadline [n <= 2^31] ticks ahead of [now] is reported passed at
    [now + d] exactly from [d = n] on, whatever the counter's wrap-around, as
    long as it is looked at within [2^31 - 1] ticks. *)
Lemma passed_deadline (now n d : Z) : (0 <= n <= 2 ^ 31)%Z → (0 <= d < n + 2 ^ 31 - 1)%Z →
  passed (wrapping_add 32 now d) (deadline now n) = bool_decide (n <= d)%Z.
Proof.
  intros Hn Hd. unfold deadline, passed, wrapping_sub, wrapping_add, wrap.
  rewrite <- Zminus_mod. replace (now + d - (now + n))%Z with (d - n)%Z by lia.
  change (U32_MAX / 2)%Z with 2147483647%Z.
  case_bool_decide.
  - rewrite Z.mod_small by lia. apply Z.ltb_lt. lia.
  - replace (d - n)%Z with (d - n + 2 ^ 32 + (-1) * 2 ^ 32)%Z by lia.
    rewrite Z.mod_add, Z.mod_small by lia. apply Z.ltb_ge. lia.
Qed.

(** [time_us] cannot overflow: both factors are 32-bit. *)
Lemma time_us_total (t : timer) : in_width 32 (TICKS t) → in_width 32 (TICK_US t) →
  time_us t = Done (TICKS t * TICK_US t)%Z.
Proof.
  intros [H1 H2] [H3 H4]. unfold time_us. rewrite (proj2 (Z.ltb_lt _ _)); [done|].
  change (2 ^ 64)%Z with (2 ^ 32 * 2 ^ 32)%Z. nia.
Qed.

Lemma tick_width (t : timer) : in_width 32 (TICKS (tick t)).
Proof. by apply wrap_range. Qed.
