(* ===== verification/TaskStack.v ===== *)
(** * The initial stack frame of a task, [arch/src/riscv/context.rs]

    [init_task_stack] writes a trap frame of 34 words at the top of the stack;
    the return path of the trap vector ([arch/src/riscv/trap.S], [trap_exit])
    loads the status word and the program counter from slots 32 and 33.
    Memory is a partial map from addresses to words; words are 8 bytes, and
    the status word is the one of the S-mode build.

    [Switch] is the interface of a port that switches tasks and the proof that
    the tasks keep their registers; [Riscv] has the trap vector, which
    implements it. *)

From S2P Require Export Prelude.

Abbreviation memory := (gmap Z Z) (only parsing).

Definition REG_BYTES : Z := 8.
Definition FRAME_WORDS : nat := 34.
Definition init_status : Z := 288. (* 0x120: SPP = 1, SPIE = 1 *)

(** [frame.add(i).write(0)] for [i] in [0..34]. *)
Definition zero_frame (mem : memory) (frame : Z) : memory :=
  fold_left (λ mem i, <[(frame + REG_BYTES * Z.of_nat i)%Z := 0%Z]> mem) (seq 0 FRAME_WORDS) mem.

Definition init_task_stack (mem : memory) (stack : Z) (words : Z) (entry : Z) : exec (Z * memory) :=
  stack_top ← add_w 64 stack (words * REG_BYTES);
  let sp := Z.land stack_top (lnot_w 64 15) in
  sp ← sub_w sp (34 * REG_BYTES);
  let mem := zero_frame mem sp in
  let mem := <[(sp + REG_BYTES * 32)%Z := init_status]> mem in
  Done (sp, <[(sp + REG_BYTES * 33)%Z := entry]> mem).

(** What [trap_exit] loads from the frame at [sp]: status, program counter,
    and the general registers. *)
Definition load_frame (mem : memory) (sp : Z) : option (Z * Z * list Z) :=
  status ← mem !! (sp + REG_BYTES * 32)%Z;
  epc ← mem !! (sp + REG_BYTES * 33)%Z;
  x ← mapM (λ i, mem !! (sp + REG_BYTES * Z.of_nat i)%Z) (seq 0 32);
  Some (status, epc, x).

(** ** Lemmas *)

Lemma land_align16 (x : Z) : in_width 64 x → Z.land x (lnot_w 64 15) = (x / 16 * 16)%Z.
Proof.
  intros Hx.
  replace (x / 16 * 16)%Z with (Z.shiftl (Z.shiftr x 4) 4)
    by (rewrite Z.shiftl_mul_pow2, Z.shiftr_div_pow2 by lia; done).
  apply Z.bits_inj'. intros i Hi. rewrite Z.land_spec, testbit_lnot_w by lia.
  rewrite Z.shiftl_spec by done. change 15%Z with (Z.ones 4).
  destruct (decide (i < 4)%Z).
  - rewrite Z.ones_spec_low by lia. rewrite (Z.testbit_neg_r _ (i - 4)) by lia. by rewrite !andb_false_r.
  - rewrite Z.ones_spec_high by lia. rewrite Z.shiftr_spec by lia. rewrite Z.sub_add.
    rewrite andb_true_r. case_bool_decide; [by rewrite andb_true_r|].
    by rewrite (testbit_high 64) by (done || lia).
Qed.

Lemma zero_frame_in (mem : memory) (sp : Z) (n i : nat) : i < n →
  fold_left (λ mem i, <[(sp + REG_BYTES * Z.of_nat i)%Z := 0%Z]> mem) (seq 0 n) mem
    !! (sp + REG_BYTES * Z.of_nat i)%Z = Some 0%Z.
Proof.
  induction n as [|n IH]; intros Hi; [lia|]. rewrite seq_S, fold_left_app. cbn.
  destruct (decide (i = n)) as [->|]; [by rewrite lookup_insert_eq|].
  rewrite lookup_insert_ne by (unfold REG_BYTES; lia). apply IH. lia.
Qed.

Lemma zero_frame_out (mem : memory) (sp a : Z) (n : nat) :
  (∀ i, i < n → a ≠ (sp + REG_BYTES * Z.of_nat i)%Z) →
  fold_left (λ mem i, <[(sp + REG_BYTES * Z.of_nat i)%Z := 0%Z]> mem) (seq 0 n) mem !! a = mem !! a.
Proof.
  induction n as [|n IH]; intros Ha; [done|]. rewrite seq_S, fold_left_app. cbn.
  rewrite lookup_insert_ne by (intros Heq; apply (Ha n); lia). apply IH. intros i Hi. apply Ha. lia.
Qed.

(** The frame lies inside the stack, is 16-byte aligned, and loading it starts
    the task at [entry] with zeroed registers and interrupts enabled. *)
Lemma init_task_stack_spec (mem : memory) (stack words entry : Z) :
  (0 <= stack)%Z → (36 <= words)%Z → (stack + words * REG_BYTES < 2 ^ 64)%Z →
  ∃ sp mem', init_task_stack mem stack words entry = Done (sp, mem')
    ∧ (stack <= sp)%Z ∧ (sp + 272 <= stack + words * REG_BYTES)%Z ∧ (sp `mod` 16 = 0)%Z
    ∧ load_frame mem' sp = Some (init_status, entry, replicate 32 0%Z)
    ∧ ∀ a, (a < sp ∨ sp + 272 <= a)%Z → mem' !! a = mem !! a.
Proof.
  intros Hs Hw Ht. unfold init_task_stack. rewrite add_w_Done by done. cbn [mbind exec_bind].
  rewrite land_align16 by (split; [unfold REG_BYTES in *; lia|done]).
  set (top := (stack + words * REG_BYTES)%Z) in *.
  assert (Htop : (top - 15 <= top / 16 * 16 <= top)%Z) by divmod.
  assert (Hsp : (34 * REG_BYTES <= top / 16 * 16)%Z) by (unfold REG_BYTES in *; lia).
  rewrite sub_w_Done by done. cbn [mbind exec_bind].
  set (sp := (top / 16 * 16 - 34 * REG_BYTES)%Z).
  exists sp, (<[(sp + REG_BYTES * 33)%Z := entry]>
    (<[(sp + REG_BYTES * 32)%Z := init_status]> (zero_frame mem sp))). split; [done|].
  assert (Hspv : (sp = top / 16 * 16 - 272)%Z) by (unfold sp, REG_BYTES; lia).
  split_and!.
  - unfold REG_BYTES in *. lia.
  - lia.
  - rewrite Hspv. divmod.
  - unfold load_frame. rewrite (lookup_insert_ne _ _ (sp + REG_BYTES * 32)%Z) by (unfold REG_BYTES; lia).
    rewrite lookup_insert_eq. cbn [mbind option_bind].
    rewrite lookup_insert_eq. cbn [mbind option_bind].
    assert (Hregs : ∀ i, i < 32 → <[(sp + REG_BYTES * 33)%Z := entry]>
      (<[(sp + REG_BYTES * 32)%Z := init_status]> (zero_frame mem sp)) !! (sp + REG_BYTES * Z.of_nat i)%Z = Some 0%Z).
    { intros i Hi. do 2 rewrite lookup_insert_ne by (unfold REG_BYTES; lia). apply zero_frame_in.
      unfold FRAME_WORDS. lia. }
    rewrite (mapM_Some_2 _ _ (replicate 32 0%Z)); [done|].
    apply Forall2_same_length_lookup_2; [done|]. intros i a z Ha [-> _]%lookup_replicate.
    apply lookup_seq in Ha as [-> Hi]. by apply Hregs.
  - intros a Ha. assert (∀ k, (0 <= k < 34)%Z → (sp + REG_BYTES * k)%Z ≠ a) as Hk.
    { intros k Hk. unfold REG_BYTES. lia. }
    do 2 rewrite lookup_insert_ne by (apply Hk; lia). apply zero_frame_out.
    intros i Hi. unfold REG_BYTES, FRAME_WORDS in *. lia.
Qed.

(** ** Switching tasks

    What a port does when it switches is stated for the class [Port]: a CPU,
    the context of a task, and switches.  The RISC-V port implements it below,
    the Cortex-M port in [Arm]. *)
Module Switch.

(** Words of [stride] bytes. *)
Fixpoint store_words (stride : Z) (m : memory) (addr : Z) (ws : list Z) : memory :=
  match ws with
  | [] => m
  | w :: ws => store_words stride (<[addr := w]> m) (addr + stride) ws
  end.
Fixpoint load_words (stride : Z) (m : memory) (addr : Z) (n : nat) : exec (list Z) :=
  match n with
  | O => Done []
  | S n => w ← get_exec (m !! addr); ws ← load_words stride m (addr + stride) n; Done (w :: ws)
  end.
Definition write_all (m : memory) (writes : list (Z * Z)) : memory := foldl (λ m '(k, v), <[k := v]> m) m writes.

Section words.
Context (stride : Z) (Hstride : (0 < stride)%Z).

Lemma store_words_out (ws : list Z) : ∀ (m : memory) (a k : Z),
  (k < a ∨ a + stride * Z.of_nat (length ws) <= k)%Z → store_words stride m a ws !! k = m !! k.
Proof.
  induction ws as [|w ws IH]; intros m a k Hk; cbn [store_words length] in *; [done|].
  rewrite IH by lia. by rewrite lookup_insert_ne by lia.
Qed.

Lemma load_store (ws : list Z) : ∀ (m : memory) (a : Z), load_words stride (store_words stride m a ws) a (length ws) = Done ws.
Proof.
  induction ws as [|w ws IH]; intros m a; cbn [store_words load_words length]; [done|].
  rewrite store_words_out, lookup_insert_eq by lia. cbn [get_exec mbind exec_bind]. by rewrite IH.
Qed.

Lemma load_words_ext (n : nat) : ∀ (m m' : memory) (a : Z),
  (∀ k, (a <= k < a + stride * Z.of_nat n)%Z → m' !! k = m !! k) → load_words stride m' a n = load_words stride m a n.
Proof.
  induction n as [|n IH]; intros m m' a H; cbn [load_words]; [done|]. rewrite H by lia.
  destruct (m !! a); cbn [get_exec mbind exec_bind]; [|done]. rewrite (IH m) by (intros k Hk; apply H; lia). done.
Qed.

Lemma load_words_lookup (ws : list Z) : ∀ (m : memory) (a : Z),
  (∀ i w, ws !! i = Some w → m !! (a + stride * Z.of_nat i)%Z = Some w) → load_words stride m a (length ws) = Done ws.
Proof.
  induction ws as [|w ws IH]; intros m a Hm; cbn [load_words length]; [done|].
  pose proof (Hm 0 w eq_refl) as H0. rewrite Z.mul_0_r, Z.add_0_r in H0. rewrite H0. cbn [get_exec mbind exec_bind].
  rewrite IH; [done|]. intros i v Hi. rewrite <- (Hm (S i) v Hi). f_equal. lia.
Qed.

Lemma store_words_app (ws ws' : list Z) : ∀ (m : memory) (a : Z),
  store_words stride m a (ws ++ ws') = store_words stride (store_words stride m a ws) (a + stride * Z.of_nat (length ws)) ws'.
Proof.
  induction ws as [|w ws IH]; intros m a; cbn [store_words app length]; [by rewrite Z.mul_0_r, Z.add_0_r|].
  rewrite IH. f_equal. lia.
Qed.
End words.

Lemma write_all_out (writes : list (Z * Z)) : ∀ (m : memory) (k : Z), k ∉ writes.*1 → write_all m writes !! k = m !! k.
Proof.
  induction writes as [|[k' v] ws IH]; intros m k Hk; [done|]. cbn [write_all foldl fmap list_fmap] in *. unfold write_all in IH.
  apply not_elem_of_cons in Hk as [Hne Hk]. rewrite IH by done. by apply lookup_insert_ne.
Qed.

(** The interface of a port.  A task is its control block, which starts with
    its stack pointer. *)
Class Port (C X W : Type) := {
  p_cur : C → Z; p_mem : C → memory; p_ctx : C → X;
  p_run : C → X → memory → C;
  p_switch : C → W → exec C;
  s_next : W → Z; s_ctx : W → X → X; s_writes : W → list (Z * Z);
  x_sp : X → Z; x_wf : X → Prop; frame_size : Z;
  holds : memory → Z → X → Prop;
}.

Definition in_frame {C X W} `{!Port C X W} (x : X) (k : Z) : Prop := (x_sp x - frame_size <= k < x_sp x)%Z.
Definition written {C X W} `{!Port C X W} (s : W) (k : Z) : Prop := k ∈ (s_writes s).*1.

(** A control block [holds] a context whose frame is below its stack pointer;
    a switch leaves what it makes of the context of the task that ran, and
    takes the one of the next task, which may be the same. *)
Class PortLaws C X W `{!Port C X W} : Prop := {
  holds_ext (m m' : memory) (t : Z) (x : X) : m' !! t = m !! t → (∀ k, in_frame x k → m' !! k = m !! k) → holds m t x → holds m' t x;
  run_spec (c : C) (x : X) (m : memory) : p_cur (p_run c x m) = p_cur c ∧ p_mem (p_run c x m) = m ∧ p_ctx (p_run c x m) = x;
  switch_spec (c : C) (s : W) (y : X) :
    let x := p_ctx c in let x' := s_ctx s x in
    p_cur c ≠ 0%Z → s_next s ≠ 0%Z → x_wf x → x_wf x' → x_sp x' = x_sp x → ¬ in_frame x (p_cur c) →
    (∀ k, written s k → ¬ in_frame x k ∧ k ≠ p_cur c) →
    (s_next s = p_cur c ∧ y = x' ∨ s_next s ≠ p_cur c ∧ holds (p_mem c) (s_next s) y
      ∧ ∀ k, k = s_next s ∨ in_frame y k → k ≠ p_cur c ∧ ¬ in_frame x k ∧ ¬ written s k) →
    ∃ c', p_switch c s = Done c' ∧ p_cur c' = s_next s ∧ p_ctx c' = y
    ∧ (s_next s ≠ p_cur c → holds (p_mem c') (p_cur c) x')
    ∧ ∀ k, k ≠ p_cur c → ¬ in_frame x k → ¬ written s k → p_mem c' !! k = p_mem c !! k;
}.

(** Tasks that take turns: the stack of [t] is [lo t .. hi t].  A task runs,
    which changes its registers and its stack, until a switch. *)
Inductive Step (X W : Type) : Type := Run (x : X) (writes : list (Z * Z)) | SwitchTo (s : W).
Arguments Run {X W}. Arguments SwitchTo {X W}.

Section turns.
Context {C X W : Type} `{!Port C X W, !PortLaws C X W}.

Definition step (c : C) (s : Step X W) : exec C :=
  match s with
  | Run x writes => Done (p_run c x (write_all (p_mem c) writes))
  | SwitchTo s => p_switch c s
  end.
Fixpoint run_steps (c : C) (ss : list (Step X W)) : exec C :=
  match ss with [] => Done c | s :: ss => c ← step c s; run_steps c ss end.

(** The specification: a context for each task, and the task that runs. *)
Definition upd_ctx (xs : Z → X) (t : Z) (x : X) : Z → X := λ u, if bool_decide (u = t) then x else xs u.
Definition spec_step (p : Z * (Z → X)) (s : Step X W) : Z * (Z → X) :=
  match s with
  | Run x _ => (p.1, upd_ctx p.2 p.1 x)
  | SwitchTo s => (s_next s, upd_ctx p.2 p.1 (s_ctx s (p.2 p.1)))
  end.
Definition spec_steps (p : Z * (Z → X)) (ss : list (Step X W)) : Z * (Z → X) := foldl spec_step p ss.

Context (ts : list Z) (lo hi : Z → Z).

(** Stacks are disjoint, and no control block lies in one. *)
Record layout_ok : Prop := {
  la_nonzero : ∀ t, t ∈ ts → t ≠ 0%Z;
  la_stacks : ∀ t u, t ∈ ts → u ∈ ts → t ≠ u → (hi t <= lo u ∨ hi u <= lo t)%Z;
  la_blocks : ∀ t u, t ∈ ts → u ∈ ts → (u < lo t ∨ hi t <= u)%Z;
}.

(** A context leaves room for a frame on the stack. *)
Record fits (t : Z) (x : X) : Prop := {
  fi_wf : x_wf x;
  fi_sp : (lo t + frame_size <= x_sp x ∧ x_sp x <= hi t)%Z;
}.

(** A task writes to its stack; what a switch writes besides the frame is in
    no control block and in no other stack. *)
Definition step_ok (p : Z * (Z → X)) (s : Step X W) : Prop :=
  match s with
  | Run x writes => fits p.1 x ∧ Forall (λ kv, lo p.1 <= kv.1 < hi p.1)%Z writes
  | SwitchTo s => let x := p.2 p.1 in
      s_next s ∈ ts ∧ x_wf (s_ctx s x) ∧ x_sp (s_ctx s x) = x_sp x
      ∧ ∀ k, written s k → ¬ in_frame x k ∧ ∀ u, u ∈ ts → k ≠ u ∧ (u ≠ p.1 → (k < lo u ∨ hi u <= k)%Z)
  end.
Fixpoint steps_ok (p : Z * (Z → X)) (ss : list (Step X W)) : Prop :=
  match ss with [] => True | s :: ss => step_ok p s ∧ steps_ok (spec_step p s) ss end.

Record turns (c : C) (p : Z * (Z → X)) : Prop := {
  tu_cur : p_cur c = p.1;
  tu_in : p.1 ∈ ts;
  tu_ctx : p_ctx c = p.2 p.1;
  tu_fits : ∀ t, t ∈ ts → fits t (p.2 t);
  tu_holds : ∀ t, t ∈ ts → t ≠ p.1 → holds (p_mem c) t (p.2 t);
}.

Context (Hla : layout_ok).

Lemma in_frame_stack (t : Z) (x : X) (k : Z) : fits t x → in_frame x k → (lo t <= k < hi t)%Z.
Proof. unfold in_frame. intros [_ ?] ?. lia. Qed.

Lemma fits_upd (p : Z * (Z → X)) (y : X) : (∀ t, t ∈ ts → fits t (p.2 t)) → fits p.1 y →
  ∀ t, t ∈ ts → fits t (upd_ctx p.2 p.1 y t).
Proof. intros Hf Hy t Ht. unfold upd_ctx. case_bool_decide; [by subst|by apply Hf]. Qed.

Lemma run_ok (c : C) (p : Z * (Z → X)) (x : X) (writes : list (Z * Z)) : turns c p → step_ok p (Run x writes) →
  turns (p_run c x (write_all (p_mem c) writes)) (spec_step p (Run x writes)).
Proof.
  intros [Hcur Hin Hctx Hfits Hholds] [Hf Hw]. destruct (run_spec c x (write_all (p_mem c) writes)) as (R1&R2&R3).
  assert (Hout : ∀ k, (k < lo p.1 ∨ hi p.1 <= k)%Z → write_all (p_mem c) writes !! k = p_mem c !! k).
  { intros k Hk. apply write_all_out. intros (kv&->&Hkv)%list_elem_of_fmap. rewrite Forall_forall in Hw. specialize (Hw kv Hkv). lia. }
  split; cbn [spec_step fst snd].
  - by rewrite R1.
  - done.
  - rewrite R3. unfold upd_ctx. by rewrite bool_decide_true.
  - by apply fits_upd.
  - intros t Ht Hne. unfold upd_ctx. rewrite bool_decide_false by done. rewrite R2. eapply holds_ext; [| |by apply Hholds].
    + apply Hout. by apply (la_blocks Hla).
    + intros k Hk%(in_frame_stack t); [|by apply Hfits]. apply Hout. destruct (la_stacks Hla t p.1 Ht Hin Hne); lia.
Qed.

Lemma switch_ok (c : C) (p : Z * (Z → X)) (s : W) : turns c p → step_ok p (SwitchTo s) →
  ∃ c', p_switch c s = Done c' ∧ turns c' (spec_step p (SwitchTo s)).
Proof.
  intros [Hcur Hin Hctx Hfits Hholds] (Hn&Hwf&Hsp&Hwr). destruct p as [cur xs]; cbn [fst snd spec_step] in *.
  set (x := xs cur) in *. set (x' := s_ctx s x) in *. set (n := s_next s) in *. pose proof (Hfits cur Hin) as Hfc. fold x in Hfc.
  assert (Hfx' : fits cur x') by (split; [done|rewrite Hsp; apply Hfc]).
  assert (Hblk : ∀ u k, u ∈ ts → in_frame x k → k ≠ u).
  { intros u k Hu Hk%(in_frame_stack cur); [|done]. destruct (la_blocks Hla cur u Hin Hu); lia. }
  assert (Hoth : ∀ u k, u ∈ ts → u ≠ cur → k = u ∨ in_frame (xs u) k → k ≠ cur ∧ ¬ in_frame x k ∧ ¬ written s k).
  { intros u k Hu Hne [->|Hk].
    - split_and!; [done|intros Hk; by apply (Hblk u u)|]. intros Hk. by destruct (proj2 (Hwr u Hk) u Hu) as [[] _].
    - apply (in_frame_stack u) in Hk; [|by apply Hfits]. split_and!.
      + intros ->. destruct (la_blocks Hla u cur Hu Hin); lia.
      + intros Hk'%(in_frame_stack cur); [|done]. destruct (la_stacks Hla u cur Hu Hin Hne); lia.
      + intros Hk'. destruct (proj2 (proj2 (Hwr k Hk') u Hu) Hne); lia. }
  destruct (switch_spec c s (if bool_decide (n = cur) then x' else xs n)) as (c'&Hrun&C1&C2&C3&C4); fold n; rewrite ?Hcur, ?Hctx; fold x; fold x'.
  - by apply (la_nonzero Hla).
  - by apply (la_nonzero Hla).
  - apply Hfc.
  - done.
  - done.
  - intros Hk. by apply (Hblk cur cur).
  - intros k Hk. split; [by apply Hwr|by apply (Hwr k Hk)].
  - case_bool_decide as Hnc; [by left|right]. split_and!; [done|by apply Hholds|]. intros k Hk. by apply (Hoth n).
  - rewrite Hcur, Hctx in *. fold n x x' in C1, C3, C4. exists c'. split; [exact Hrun|]. split; cbn [fst snd].
    + done.
    + done.
    + rewrite C2. unfold upd_ctx. by case_bool_decide.
    + by apply (fits_upd (cur, xs)).
    + intros u Hu Hne. clear C2. unfold upd_ctx. case_bool_decide as Hc; [subst u; by apply C3|].
      eapply holds_ext; [| |by apply Hholds].
      * apply C4; apply (Hoth u u Hu Hc); by left.
      * intros k Hk. apply C4; apply (Hoth u k Hu Hc); by right.
Qed.

Lemma run_steps_ok (ss : list (Step X W)) : ∀ (c : C) (p : Z * (Z → X)), turns c p → steps_ok p ss →
  ∃ c', run_steps c ss = Done c' ∧ turns c' (spec_steps p ss).
Proof.
  induction ss as [|s ss IH]; intros c p Ht Hs; cbn [run_steps spec_steps foldl steps_ok] in *; [by exists c|].
  destruct Hs as [Hs Hss]. destruct s as [x ws|s]; cbn [step].
  - apply IH; [by apply run_ok|done].
  - destruct (switch_ok c p s Ht Hs) as (c1&->&Ht1). by apply IH.
Qed.
End turns.
End Switch.

(** ** The trap vector of the RISC-V port

    [trap.S] and the end of [context.rs].  The registers are x1, the stack
    pointer, x3-x31, and the status and program counter that the trap left in
    [sstatus] and [sepc]; the trap frame has no slot for x2. *)
Module Riscv.
Import Switch.

Record RvRegs : Type := mk_regs { rg_ra : Z; rg_x3_x31 : list Z; rg_status : Z; rg_epc : Z }.
Record RvCpu : Type := mk_rv { rv_regs : RvRegs; rv_sp : Z; rv_mem : memory; RV_CURRENT_TCB : Z; RV_NEXT_TCB : Z }.

Definition save_frame (m : memory) (sp : Z) (r : RvRegs) : memory :=
  let m := <[(sp + REG_BYTES * 1)%Z := rg_ra r]> m in
  let m := store_words REG_BYTES m (sp + REG_BYTES * 3) (rg_x3_x31 r) in
  let m := <[(sp + REG_BYTES * 32)%Z := rg_status r]> m in
  <[(sp + REG_BYTES * 33)%Z := rg_epc r]> m.

(** [trap_exit]. *)
Definition load_regs (m : memory) (sp : Z) : exec RvRegs :=
  status ← get_exec (m !! (sp + REG_BYTES * 32)%Z);
  epc ← get_exec (m !! (sp + REG_BYTES * 33)%Z);
  ra ← get_exec (m !! (sp + REG_BYTES * 1)%Z);
  x ← load_words REG_BYTES m (sp + REG_BYTES * 3) 29;
  Done (mk_regs ra x status epc).
Definition trap_exit (m : memory) (sp current next : Z) : exec RvCpu :=
  r ← load_regs m sp; Done (mk_rv r (sp + REG_BYTES * 34) m current next).

(** [trap_vector]; the handler gets the frame, and leaves the memory and the
    task it has chosen. *)
Definition trap_vector (handler : memory → Z → exec (memory * Z)) (c : RvCpu) : exec RvCpu :=
  let sp := (rv_sp c - REG_BYTES * 34)%Z in
  '(m, t3) ← handler (save_frame (rv_mem c) sp (rv_regs c)) sp;
  let t1 := RV_CURRENT_TCB c in
  if (t1 =? t3)%Z then trap_exit m sp t1 t3 else
  let m := <[t1 := sp]> m in
  sp ← get_exec (m !! t3);
  trap_exit m sp t3 t3.

Definition load_first_task_and_start (c : RvCpu) : exec RvCpu :=
  let t1 := RV_NEXT_TCB c in
  sp ← get_exec (rv_mem c !! t1);
  trap_exit (rv_mem c) sp t1 t1.

(** *** The port *)

Record RvCtx : Type := mk_ctx { cx_regs : RvRegs; cx_sp : Z }.
(** What the handler leaves: its stores, the trap frame, and the next task. *)
Record RvTrap : Type := mk_trap { tr_writes : list (Z * Z); tr_frame : RvRegs; tr_next : Z }.
Definition handler_of (tr : RvTrap) (m : memory) (frame : Z) : exec (memory * Z) :=
  Done (save_frame (write_all m (tr_writes tr)) frame (tr_frame tr), tr_next tr).

#[export] Instance riscv_port : Port RvCpu RvCtx RvTrap := {
  p_cur := RV_CURRENT_TCB; p_mem := rv_mem; p_ctx c := mk_ctx (rv_regs c) (rv_sp c);
  p_run c x m := mk_rv (cx_regs x) (cx_sp x) m (RV_CURRENT_TCB c) (RV_NEXT_TCB c);
  p_switch c tr := trap_vector (handler_of tr) c;
  s_next := tr_next; s_ctx tr x := mk_ctx (tr_frame tr) (cx_sp x); s_writes := tr_writes;
  x_sp := cx_sp; x_wf x := length (rg_x3_x31 (cx_regs x)) = 29; frame_size := 272%Z;
  holds m t x := m !! t = Some (cx_sp x - 272)%Z ∧ load_regs m (cx_sp x - 272) = Done (cx_regs x);
}.

Lemma save_frame_out (m : memory) (sp k : Z) (r : RvRegs) : length (rg_x3_x31 r) = 29 →
  (k < sp ∨ sp + 272 <= k)%Z → save_frame m sp r !! k = m !! k.
Proof.
  intros Hl Hk. unfold save_frame, REG_BYTES. rewrite 2 lookup_insert_ne by lia.
  rewrite store_words_out by (rewrite ?Hl; lia). by rewrite lookup_insert_ne by lia.
Qed.

Lemma load_save (m : memory) (sp : Z) (r : RvRegs) : length (rg_x3_x31 r) = 29 → load_regs (save_frame m sp r) sp = Done r.
Proof.
  intros Hl. unfold load_regs, save_frame, REG_BYTES. rewrite (lookup_insert_ne _ _ (sp + 8 * 32)%Z), !lookup_insert_eq by lia.
  cbn [get_exec mbind exec_bind]. rewrite 2 lookup_insert_ne, store_words_out, lookup_insert_eq by lia. cbn [get_exec mbind exec_bind].
  rewrite <- Hl. set (m1 := <[(sp + 8 * 1)%Z := rg_ra r]> m).
  rewrite (load_words_ext 8 ltac:(done) (length (rg_x3_x31 r)) (store_words 8 m1 (sp + 8 * 3) (rg_x3_x31 r))).
  - rewrite load_store by lia. by destruct r.
  - intros k Hk. by rewrite 2 lookup_insert_ne by lia.
Qed.

Lemma load_regs_ext (m m' : memory) (sp : Z) : (∀ k, (sp <= k < sp + 272)%Z → m' !! k = m !! k) → load_regs m' sp = load_regs m sp.
Proof.
  intros Hk. unfold load_regs, REG_BYTES. rewrite !Hk by lia. rewrite (load_words_ext 8 ltac:(done) 29 m m'); [done|]. intros k Hr. apply Hk. lia.
Qed.

Arguments save_frame : simpl never. Arguments load_regs : simpl never. Arguments write_all : simpl never.

#[export] Instance riscv_laws : PortLaws RvCpu RvCtx RvTrap.
Proof.
  split; unfold in_frame, written; cbn.
  - intros m m' t x Ht Hk [H1 H2]. split; [by rewrite Ht|]. rewrite <- H2. apply load_regs_ext. intros k Hr. apply Hk. lia.
  - intros c x m. by destruct x.
  - intros c [ws fr nx] y; cbn. intros Hc0 Hn0 Hwf Hwf' _ Hcur Hwr Hcase. unfold trap_vector, handler_of; cbn.
    set (sp := (rv_sp c - REG_BYTES * 34)%Z). assert (Hsp : sp = (rv_sp c - 272)%Z) by (unfold sp, REG_BYTES; lia).
    set (m1 := save_frame (rv_mem c) sp (rv_regs c)). set (m2 := save_frame (write_all m1 ws) sp fr).
    assert (Hkeep : ∀ k, ¬ (rv_sp c - 272 <= k < rv_sp c)%Z → k ∉ ws.*1 → m2 !! k = rv_mem c !! k).
    { intros k Hk Hw. unfold m2. rewrite save_frame_out by (done || lia). rewrite write_all_out by done. unfold m1. apply save_frame_out; [done|lia]. }
    assert (Hfr : load_regs m2 sp = Done fr) by (by apply load_save).
    assert (Hback : (sp + REG_BYTES * 34 = rv_sp c)%Z) by (unfold sp; lia).
    destruct (RV_CURRENT_TCB c =? nx)%Z eqn:Hcn; [apply Z.eqb_eq in Hcn|apply Z.eqb_neq in Hcn].
    + destruct Hcase as [[_ ->]|[Hne _]]; [|congruence]. unfold trap_exit. rewrite Hfr. cbn. eexists. split; [done|]. cbn. rewrite Hback.
      split_and!; [done|done|congruence|]. intros k _ Hk Hw. by apply Hkeep.
    + destruct Hcase as [[? _]|(_&[Hs Hr]&Hdis)]; [congruence|]. set (m3 := <[RV_CURRENT_TCB c := sp]> m2).
      assert (Hkeep3 : ∀ k, k ≠ RV_CURRENT_TCB c → ¬ (rv_sp c - 272 <= k < rv_sp c)%Z → k ∉ ws.*1 → m3 !! k = rv_mem c !! k).
      { intros k Hk Hf Hw. unfold m3. rewrite lookup_insert_ne by done. by apply Hkeep. }
      rewrite Hkeep3, Hs by (apply (Hdis nx); by left). cbn. unfold trap_exit.
      rewrite (load_regs_ext (rv_mem c)), Hr by (intros k Hk; apply Hkeep3; apply (Hdis k); right; lia).
      cbn. eexists. split; [done|]. cbn. split_and!; [done| |intros _; split|exact Hkeep3].
      * destruct y as [r s]; cbn. f_equal. unfold REG_BYTES. lia.
      * unfold m3. rewrite lookup_insert_eq. by rewrite Hsp.
      * rewrite <- Hsp, <- Hfr. apply load_regs_ext. intros k Hk. unfold m3. rewrite lookup_insert_ne; [done|]. intros Heq. apply Hcur. lia.
Qed.

Lemma load_frame_regs (m : memory) (sp status epc : Z) (x : list Z) : load_frame m sp = Some (status, epc, x) →
  ∃ ra, x !! 1 = Some ra ∧ load_regs m sp = Done (mk_regs ra (drop 3 x) status epc).
Proof.
  unfold load_frame, load_regs. destruct (m !! (sp + REG_BYTES * 32)%Z) as [st|]; cbn [mbind option_bind get_exec exec_bind]; [|done].
  destruct (m !! (sp + REG_BYTES * 33)%Z) as [ep|]; cbn [mbind option_bind get_exec exec_bind]; [|done]. destruct (mapM (λ i, m !! (sp + REG_BYTES * Z.of_nat i)%Z) (seq 0 32)) as [x'|] eqn:E; cbn [mbind option_bind get_exec exec_bind]; [|done]. intros [= -> -> ->].
  apply mapM_Some in E. pose proof (Forall2_length _ _ _ E) as Hl. rewrite length_seq in Hl.
  assert (Hx : ∀ i w, x !! i = Some w → m !! (sp + REG_BYTES * Z.of_nat i)%Z = Some w).
  { intros i w Hi. destruct (Forall2_lookup_r _ _ _ _ _ E Hi) as (j&Hj&Hm). by apply lookup_seq in Hj as [-> _]. }
  destruct (lookup_lt_is_Some_2 x 1) as [ra Hra]; [lia|]. exists ra. split; [done|]. pose proof (Hx 1 ra Hra) as H1.
  change (Z.of_nat 1) with 1%Z in H1. rewrite H1. cbn [mbind exec_bind get_exec]. replace 29 with (length (drop 3 x)) by (rewrite length_drop; lia).
  rewrite (load_words_lookup REG_BYTES); [done|]. intros i w Hi. rewrite lookup_drop in Hi. rewrite <- (Hx _ _ Hi). f_equal. lia.
Qed.

(** The frame that [init_task_stack] makes starts the task at its entry. *)
Definition initial_ctx (entry top : Z) : RvCtx := mk_ctx (mk_regs 0 (replicate 29 0%Z) init_status entry) top.

Lemma initial_holds (m : memory) (stack words entry t : Z) : (0 <= stack)%Z → (36 <= words)%Z → (stack + words * REG_BYTES < 2 ^ 64)%Z →
  ∃ sp m', init_task_stack m stack words entry = Done (sp, m') ∧ (stack <= sp ∧ sp + 272 <= stack + words * REG_BYTES)%Z
  ∧ (∀ k, (k < stack ∨ stack + words * REG_BYTES <= k)%Z → m' !! k = m !! k)
  ∧ ((t < stack ∨ stack + words * REG_BYTES <= t)%Z → holds (<[t := sp]> m') t (initial_ctx entry (sp + 272))).
Proof.
  intros H0 Hw Ht. destruct (init_task_stack_spec m stack words entry H0 Hw Ht) as (sp&m'&Hrun&Hlo&Hhi&_&Hload&Hout).
  exists sp, m'. split_and!; [done|done|done|intros k Hk; apply Hout; lia|]. intros Htt. cbn. split; [rewrite lookup_insert_eq; f_equal; lia|].
  rewrite (load_regs_ext m') by (intros k Hk; rewrite lookup_insert_ne by lia; done). replace (sp + 272 - 272)%Z with sp by lia.
  destruct (load_frame_regs _ _ _ _ _ Hload) as (ra&[= <-]&->). done.
Qed.

(** The first task starts with the context of its block. *)
Lemma start_turns (ts : list Z) (lo hi : Z → Z) (c : RvCpu) (xs : Z → RvCtx) : RV_NEXT_TCB c ∈ ts →
  (∀ u, u ∈ ts → fits lo hi u (xs u) ∧ holds (rv_mem c) u (xs u)) →
  ∃ c', load_first_task_and_start c = Done c' ∧ turns ts lo hi c' (RV_NEXT_TCB c, xs).
Proof.
  intros Hin Hall. destruct (Hall _ Hin) as [_ [Hs Hr]]. unfold load_first_task_and_start. rewrite Hs. cbn. unfold trap_exit. rewrite Hr. cbn.
  eexists. split; [done|]. split; cbn.
  - done.
  - done.
  - destruct (xs _) as [r s]; cbn. f_equal. unfold REG_BYTES. lia.
  - intros t Ht. by apply Hall.
  - intros t Ht _. by apply Hall.
Qed.

(** *** Property *)

(** Tasks on RISC-V keep their context: with a frame for every task, on
    disjoint stacks, the first task starts with its frame, and after any
    history in which the task that runs changes its registers and its stack,
    traps, and the handler writes to the frame and outside the other tasks'
    stacks and chooses a task, the task that runs has exactly the registers,
    stack pointer, status and program counter that its last trap frame was
    left with. *)
Theorem riscv_contexts_kept (ts : list Z) (lo hi : Z → Z) (c : RvCpu) (xs : Z → RvCtx) (ss : list (Step RvCtx RvTrap)) :
  layout_ok ts lo hi → RV_NEXT_TCB c ∈ ts → (∀ u, u ∈ ts → fits lo hi u (xs u) ∧ holds (rv_mem c) u (xs u)) →
  steps_ok ts lo hi (RV_NEXT_TCB c, xs) ss →
  ∃ c1 c', load_first_task_and_start c = Done c1 ∧ p_ctx c1 = xs (RV_NEXT_TCB c) ∧ run_steps c1 ss = Done c'
  ∧ let '(cur, ctxs) := spec_steps (RV_NEXT_TCB c, xs) ss in
    RV_CURRENT_TCB c' = cur ∧ p_ctx c' = ctxs cur ∧ ∀ u, u ∈ ts → u ≠ cur → holds (rv_mem c') u (ctxs u).
Proof.
  intros Hla Hin Hall Hss. destruct (start_turns ts lo hi c xs Hin Hall) as (c1&Hstart&Ht).
  destruct (run_steps_ok ts lo hi Hla ss c1 _ Ht Hss) as (c'&Hrun&Ht'). exists c1, c'. split_and!; [done|apply Ht|done|].
  destruct (spec_steps _ ss) as [cur ctxs]. destruct Ht'. by split_and!.
Qed.

(** Two tasks of 128 words: the first is preempted, the second makes a system
    call, yields, and the first goes on. *)
Definition demo_blocks : list Z := [16; 32]%Z.
Definition demo_lo (t : Z) : Z := (t * 1024)%Z.
Definition demo_hi (t : Z) : Z := (t * 1024 + 1024)%Z.
Definition demo_entry (t : Z) : Z := (0x80000000 + t)%Z.
Definition demo_task (m : memory) (t : Z) : exec memory :=
  '(sp, m) ← init_task_stack m (demo_lo t) 128 (demo_entry t); Done (<[t := sp]> m).
Definition demo_memory : memory := match (m ← demo_task ∅ 16; demo_task m 32) with Done m => m | Stuck => ∅ end.
Definition demo_cpu : RvCpu := mk_rv (mk_regs 0 [] 0 0) 0 demo_memory 0 16.
Definition demo_ctx (t : Z) : RvCtx := initial_ctx (demo_entry t) (demo_hi t).
Definition demo_regs (v epc : Z) : RvRegs := mk_regs v (replicate 29 v) init_status epc.
Definition demo_run (t : Z) : RvCtx := mk_ctx (demo_regs (t + 1) (demo_entry t + 64)) (demo_hi t - 64).
Definition demo_steps : list (Step RvCtx RvTrap) :=
  [Run (demo_run 16) [(demo_hi 16 - 8, 5)]; SwitchTo (mk_trap [(8, 1)] (cx_regs (demo_run 16)) 32);
   Run (demo_run 32) []; SwitchTo (mk_trap [(demo_hi 32 - 400, 1)] (demo_regs 7 (demo_entry 32 + 68)) 32);
   SwitchTo (mk_trap [] (demo_regs 7 (demo_entry 32 + 72)) 16)]%Z.

Example demo_turns : (c ← load_first_task_and_start demo_cpu; c ← run_steps c demo_steps; Done (RV_CURRENT_TCB c, p_ctx c)) = Done (16%Z, demo_run 16).
Proof. by vm_compute. Qed.

Lemma demo_layout : layout_ok demo_blocks demo_lo demo_hi.
Proof.
  split; unfold demo_blocks, demo_lo, demo_hi.
  - intros t Ht. apply list_elem_of_In in Ht. cbn in Ht. lia.
  - intros t u Ht Hu Hne. apply list_elem_of_In in Ht, Hu. cbn in Ht, Hu. lia.
  - intros t u Ht Hu. apply list_elem_of_In in Ht, Hu. cbn in Ht, Hu. lia.
Qed.

Lemma demo_step_ok (p : Z * (Z → RvCtx)) (ws : list (Z * Z)) (r : RvRegs) (t : Z) :
  t ∈ demo_blocks → length (rg_x3_x31 r) = 29 →
  bool_decide (Forall (λ kv, ¬ (cx_sp (p.2 p.1) - 272 <= kv.1 < cx_sp (p.2 p.1)) ∧ Forall (λ u, kv.1 ≠ u ∧ (u ≠ p.1 → kv.1 < demo_lo u ∨ demo_hi u <= kv.1)) demo_blocks)%Z ws) = true →
  step_ok demo_blocks demo_lo demo_hi p (SwitchTo (mk_trap ws r t)).
Proof.
  intros Ht Hl Hw%bool_decide_eq_true_1. split_and!; [done|done|done|]. intros k (kv&->&Hk)%list_elem_of_fmap. rewrite Forall_forall in Hw. destruct (Hw kv Hk) as [H1 H2].
  split; [exact H1|]. intros u Hu. rewrite Forall_forall in H2. by apply H2.
Qed.

Lemma riscv_contexts_kept_witness : ∃ c1 c', load_first_task_and_start demo_cpu = Done c1 ∧ run_steps c1 demo_steps = Done c'.
Proof.
  destruct (riscv_contexts_kept demo_blocks demo_lo demo_hi demo_cpu demo_ctx demo_steps) as (c1&c'&Hs&_&Hr&_);
    [exact demo_layout|exact (list_elem_of_here _ _)| | |exists c1, c'; split; [exact Hs|exact Hr]].
  - apply Forall_forall. repeat constructor; by vm_compute.
  - unfold demo_steps. cbn [steps_ok]. split_and!; [split; [split; [done|by vm_compute]|by apply Forall_singleton]| |split; [split; [done|by vm_compute]|done]| | |done].
    all: apply demo_step_ok; [cbn; set_solver|done|by vm_compute].
Defined.
End Riscv.
