(* ===== verification/Task.v ===== *)
(** * Task control blocks, [kernel/src/sched/task.rs]

    Tasks live in a static pool and are linked through their [next] field: a
    heap of control blocks indexed by pool slot, with [None] as the null
    pointer. *)

From S2P Require Export Prelude.

Abbreviation ptr := (option nat) (only parsing).

Inductive CpuAffinity : Type :=
  | Any
  | Pin (cpu : nat).

Inductive TaskState : Type :=
  | Ready | Running | Blocked | Suspended | Terminated | Sleeping.

#[export] Instance TaskState_eq_dec : EqDecision TaskState.
Proof. solve_decision. Defined.
#[export] Instance CpuAffinity_eq_dec : EqDecision CpuAffinity.
Proof. solve_decision. Defined.

Record TaskControlBlock : Type := mk_tcb {
  sp : Z;
  id : Z;
  priority : nat;
  wakeup_tick : Z;
  state : TaskState;
  stack_size : Z;
  entry : Z;
  name : string;
  next : ptr;
  queued : bool;
  affinity : CpuAffinity;
  cpu_id : nat;
}.

Abbreviation heap := (gmap nat TaskControlBlock) (only parsing).

(** [TaskControlBlock::new]. *)
Definition tcb_new (id entry initial_sp stack_size : Z) (priority : nat) (name : string)
    : TaskControlBlock :=
  mk_tcb initial_sp id priority 0 Ready stack_size entry name None false Any 0.

Definition set_affinity (t : TaskControlBlock) (a : CpuAffinity) : TaskControlBlock :=
  mk_tcb (sp t) (id t) (priority t) (wakeup_tick t) (state t) (stack_size t) (entry t) (name t)
    (next t) (queued t) a (cpu_id t).

Definition can_run_on (t : TaskControlBlock) (cpu : nat) : bool :=
  match affinity t with Any => true | Pin pin_cpu => pin_cpu =? cpu end.

(** Field assignments. *)
Definition set_id (t : TaskControlBlock) (x : Z) : TaskControlBlock :=
  mk_tcb (sp t) x (priority t) (wakeup_tick t) (state t) (stack_size t) (entry t) (name t)
    (next t) (queued t) (affinity t) (cpu_id t).
Definition set_wakeup (t : TaskControlBlock) (x : Z) : TaskControlBlock :=
  mk_tcb (sp t) (id t) (priority t) x (state t) (stack_size t) (entry t) (name t)
    (next t) (queued t) (affinity t) (cpu_id t).
Definition set_state (t : TaskControlBlock) (x : TaskState) : TaskControlBlock :=
  mk_tcb (sp t) (id t) (priority t) (wakeup_tick t) x (stack_size t) (entry t) (name t)
    (next t) (queued t) (affinity t) (cpu_id t).
Definition set_next (t : TaskControlBlock) (x : ptr) : TaskControlBlock :=
  mk_tcb (sp t) (id t) (priority t) (wakeup_tick t) (state t) (stack_size t) (entry t) (name t)
    x (queued t) (affinity t) (cpu_id t).
Definition set_queued (t : TaskControlBlock) (x : bool) : TaskControlBlock :=
  mk_tcb (sp t) (id t) (priority t) (wakeup_tick t) (state t) (stack_size t) (entry t) (name t)
    (next t) x (affinity t) (cpu_id t).
Definition set_cpu (t : TaskControlBlock) (x : nat) : TaskControlBlock :=
  mk_tcb (sp t) (id t) (priority t) (wakeup_tick t) (state t) (stack_size t) (entry t) (name t)
    (next t) (queued t) (affinity t) x.

(** A field assignment through a pointer: stuck on a dangling one. *)
Definition upd (h : heap) (p : nat) (f : TaskControlBlock → TaskControlBlock) : exec heap :=
  t ← get_exec (h !! p); Done (<[p := f t]> h).

(** ** Intrusive lists *)

(** [chain h p l]: following [next] from [p] visits exactly [l]. *)
Fixpoint chain (h : heap) (p : ptr) (l : list nat) : Prop :=
  match l with
  | [] => p = None
  | x :: l' => p = Some x ∧ ∃ t, h !! x = Some t ∧ chain h (next t) l'
  end.

Lemma upd_Done (h : heap) (p : nat) (t : TaskControlBlock) f :
  h !! p = Some t → upd h p f = Done (<[p := f t]> h).
Proof. intros H. unfold upd. by rewrite H. Qed.

(** A chain only depends on the [next] fields of its members. *)
Lemma chain_ext (h h' : heap) (p : ptr) (l : list nat) :
  (∀ x t, x ∈ l → h !! x = Some t → ∃ t', h' !! x = Some t' ∧ next t' = next t) →
  chain h p l → chain h' p l.
Proof.
  revert p. induction l as [|x l IH]; intros p Heq; simpl; [done|]. intros [-> (t&Hx&Hc)].
  split; [done|]. destruct (Heq x t (list_elem_of_here _ _) Hx) as (t'&Hx'&Hn).
  exists t'. split; [done|]. rewrite Hn. apply IH; [|done].
  intros y ty Hy. apply Heq. by right.
Qed.

Lemma chain_insert (h : heap) (p : ptr) (l : list nat) (x : nat) (t : TaskControlBlock) :
  x ∉ l → chain h p l → chain (<[x := t]> h) p l.
Proof.
  intros Hx. apply chain_ext. intros y ty Hy Hl. exists ty. split; [|done].
  rewrite lookup_insert_ne; [done|]. intros ->. done.
Qed.

(** Writing a field other than [next] keeps every chain. *)
Lemma chain_insert_same (h : heap) (p : ptr) (l : list nat) (x : nat) (t t' : TaskControlBlock) :
  h !! x = Some t → next t' = next t → chain h p l → chain (<[x := t']> h) p l.
Proof.
  intros Hx Hn. apply chain_ext. intros y ty Hy Hl.
  destruct (decide (x = y)) as [<-|Hne].
  - exists t'. rewrite lookup_insert_eq. split; [done|]. congruence.
  - exists ty. by rewrite lookup_insert_ne.
Qed.

Lemma chain_lookup (h : heap) (p : ptr) (l : list nat) (x : nat) :
  chain h p l → x ∈ l → is_Some (h !! x).
Proof.
  revert p. induction l as [|y l IH]; intros p; simpl; [by intros _ ?%elem_of_nil|].
  intros [_ (t&Hy&Hc)] [->|Hx]%elem_of_cons; [by eexists|]. by eapply IH.
Qed.

Lemma chain_inj (h : heap) (p : ptr) (l l' : list nat) : chain h p l → chain h p l' → l = l'.
Proof.
  revert p l'. induction l as [|x l IH]; intros p [|y l']; simpl; try done.
  - by intros -> [? _].
  - by intros [-> _] ?.
  - intros [-> (t&Ht&Hc)] [[= <-] (t'&Ht'&Hc')]. f_equal. simplify_map_eq. by eapply IH.
Qed.

(** Appending at the last element. *)
Lemma chain_snoc (h : heap) (p : ptr) (l : list nat) (x y : nat) (tx ty : TaskControlBlock) :
  NoDup (l ++ [x]) → y ∉ l ++ [x] → h !! x = Some tx → h !! y = Some ty → next ty = None →
  chain h p (l ++ [x]) → chain (<[x := set_next tx (Some y)]> h) p ((l ++ [x]) ++ [y]).
Proof.
  intros Hnd Hy Hx Hhy Hn. assert (Hxy : x ≠ y) by (intros ->; apply Hy, elem_of_app; right; by left).
  revert p Hnd Hy. induction l as [|z l IH]; intros p Hnd Hy; cbn.
  - intros [-> _]. split; [done|]. exists (set_next tx (Some y)). rewrite lookup_insert_eq.
    split; [done|]. cbn. split; [done|]. exists ty. by rewrite lookup_insert_ne.
  - intros [-> (t&Hz&Hc)]. split; [done|]. cbn in Hnd. apply NoDup_cons in Hnd as [Hzl Hnd].
    exists t. split; [|apply IH; [done| |done]].
    + rewrite lookup_insert_ne; [done|]. intros ->. apply Hzl, elem_of_app. right. by left.
    + intros ?. apply Hy. by right.
Qed.

Lemma chain_app_inv (h : heap) (p : ptr) (l1 l2 : list nat) (x : nat) (t : TaskControlBlock) :
  chain h p (l1 ++ x :: l2) → h !! x = Some t → chain h (next t) l2.
Proof.
  revert p. induction l1 as [|y l1 IH]; intros p; cbn.
  - intros [_ (t'&Hx&Hc)] Hx'. by simplify_map_eq.
  - intros [_ (t'&_&Hc)]. by eapply IH.
Qed.

(** Unlinking the element after [p]. *)
Lemma chain_unlink (h : heap) (hd : ptr) (l1 l2 : list nat) (p x : nat) (tp t : TaskControlBlock) :
  NoDup (l1 ++ [p] ++ x :: l2) → h !! p = Some tp → h !! x = Some t →
  chain h hd ((l1 ++ [p]) ++ x :: l2) → chain (<[p := set_next tp (next t)]> h) hd ((l1 ++ [p]) ++ l2).
Proof.
  intros Hnd Hp Hx. revert hd Hnd. induction l1 as [|y l1 IH]; intros hd Hnd; cbn.
  - intros [-> (tp'&Hp'&[Hn (t'&Hx'&Hc)])]. simplify_map_eq. split; [done|].
    exists (set_next tp (next t)). split; [by simplify_map_eq|]. cbn.
    apply chain_insert; [|done]. cbn in Hnd. apply NoDup_cons in Hnd as [Hnd _].
    intros Hin. apply Hnd. by right.
  - intros [-> (ty&Hy&Hc)]. split; [done|]. cbn in Hnd. apply NoDup_cons in Hnd as [Hyn Hnd].
    exists ty. rewrite lookup_insert_ne; [split; [done|by apply IH]|].
    intros ->. apply Hyn, elem_of_app. right. by left.
Qed.

(** The fields that no queue operation touches. *)
Definition task_core (t : TaskControlBlock) : TaskControlBlock :=
  mk_tcb (sp t) (id t) (priority t) (wakeup_tick t) Ready (stack_size t) (entry t) (name t) None false
    (affinity t) 0.
Definition same_cores (h h' : heap) : Prop := ∀ y, task_core <$> h !! y = task_core <$> h' !! y.

Lemma same_cores_refl (h : heap) : same_cores h h.
Proof. done. Qed.
Lemma same_cores_trans (h1 h2 h3 : heap) : same_cores h1 h2 → same_cores h2 h3 → same_cores h1 h3.
Proof. intros H1 H2 y. by rewrite H1. Qed.
Lemma same_cores_insert (h : heap) (x : nat) (t t' : TaskControlBlock) :
  h !! x = Some t → task_core t' = task_core t → same_cores h (<[x := t']> h).
Proof.
  intros Hx Ht y. destruct (decide (x = y)) as [<-|Hne]; [|by rewrite lookup_insert_ne].
  rewrite lookup_insert_eq, Hx. cbn. by rewrite Ht.
Qed.
Lemma same_cores_lookup (h h' : heap) (x : nat) (t : TaskControlBlock) :
  same_cores h h' → h !! x = Some t → ∃ t', h' !! x = Some t' ∧ task_core t' = task_core t.
Proof.
  intros Hs Hx. pose proof (Hs x) as E. rewrite Hx in E. cbn in E. symmetry in E.
  apply fmap_Some in E as (t'&?&?). exists t'. split; congruence.
Qed.
Lemma same_cores_dom (h h' : heap) (x : nat) : same_cores h h' → is_Some (h !! x) → is_Some (h' !! x).
Proof. intros Hs [t Hx]. destruct (same_cores_lookup h h' x t Hs Hx) as (t'&Ht'&_). by exists t'. Qed.
#[export] Hint Resolve same_cores_refl : openion.
