(* ===== verification/ReadyQueue.v ===== *)
(** * The ready queue, [kernel/src/sched/ready_queue.rs]

    Eight FIFO queues of tasks linked through their [next] fields, a bit mask
    of the non-empty ones and a counter.  [rq_repr] relates them to eight
    lists of tasks; each operation refines the list operation. *)

From S2P Require Export Prelude.
From S2P Require Export Task.

Definition MAX_TASKS : nat := OPENION_TASK_CAP.
Definition MAX_PRIORITIES : nat := 8.
Definition MIN_PRIORITY : nat := 0.
Definition MAX_PRIORITY : nat := MAX_PRIORITIES - 1.
Definition REALTIME_PRIORITY_THRESHOLD : nat := 7.

Definition is_realtime_priority (prio : nat) : bool := REALTIME_PRIORITY_THRESHOLD <=? prio.

(** ** One FIFO queue *)

Record Queue : Type := mk_queue { head : ptr; tail : ptr }.
Definition queue_new : Queue := mk_queue None None.

Definition push_back (h : heap) (q : Queue) (task : nat) : exec (heap * Queue) :=
  h ← upd h task (λ t, set_next t None);
  match tail q with
  | None => Done (h, mk_queue (Some task) (Some task))
  | Some last => h ← upd h last (λ t, set_next t (Some task)); Done (h, mk_queue (head q) (Some task))
  end.

Definition pop_front (h : heap) (q : Queue) : exec (ptr * heap * Queue) :=
  match head q with
  | None => Done (None, h, q)
  | Some task =>
      t ← get_exec (h !! task);
      let q := mk_queue (next t) (match next t with None => None | Some _ => tail q end) in
      h ← upd h task (λ t, set_next t None);
      Done (Some task, h, q)
  end.

(** ** The eight queues *)

Record ReadyQueue : Type := mk_ready_queue {
  queues : list Queue;
  task_count : nat;
  non_empty : Z;
  current_priority : nat;
}.

Definition rq_new : ReadyQueue := mk_ready_queue (replicate MAX_PRIORITIES queue_new) 0 0%Z 0.

Definition highest_priority (mask : Z) : nat := highest_bit 8 mask.
Definition lowest_priority (mask : Z) : nat := trailing_zeros 8 mask.

Definition push (h : heap) (rq : ReadyQueue) (task : nat) : exec (bool * heap * ReadyQueue) :=
  t ← get_exec (h !! task);
  if queued t then Done (false, h, rq) else
  if negb (bool_decide (state t = Ready)) || negb (bool_decide (next t = None))
  then Done (false, h, rq) else
  if MAX_TASKS <=? task_count rq then Done (false, h, rq) else
  let prio := priority t in
  if MAX_PRIORITIES <=? prio then Done (false, h, rq) else
  q ← get_exec (queues rq !! prio);
  '(h, q) ← push_back h q task;
  h ← upd h task (λ t, set_queued t true);
  Done (true, h, mk_ready_queue (<[prio := q]> (queues rq)) (S (task_count rq))
                   (Z.lor (non_empty rq) (Z.shiftl 1 (Z.of_nat prio))) (current_priority rq)).

(** The lines the three pops share: unlink the first task of a queue, clear the
    mask bit of a queue that became empty, decrement the counter (checked). *)
Definition pop_queue (h : heap) (rq : ReadyQueue) (prio : nat) : exec (ptr * heap * ReadyQueue) :=
  q ← get_exec (queues rq !! prio);
  '(task_ptr, h, q) ← pop_front h q;
  let ne := match head q with
            | None => Z.land (non_empty rq) (lnot_w 8 (Z.shiftl 1 (Z.of_nat prio)))
            | Some _ => non_empty rq
            end in
  match task_count rq with
  | O => Stuck
  | S n => Done (task_ptr, h, mk_ready_queue (<[prio := q]> (queues rq)) n ne (current_priority rq))
  end.

Definition pop_highest (h : heap) (rq : ReadyQueue) : exec (ptr * heap * ReadyQueue) :=
  if (non_empty rq =? 0)%Z then Done (None, h, rq) else
  let prio := highest_priority (non_empty rq) in
  '(task_ptr, h, rq) ← pop_queue h rq prio;
  let rq := mk_ready_queue (queues rq) (task_count rq) (non_empty rq) prio in
  task ← get_exec task_ptr;
  h ← upd h task (λ t, set_queued t false);
  Done (Some task, h, rq).

Definition pop_lowest (h : heap) (rq : ReadyQueue) : exec (ptr * heap * ReadyQueue) :=
  if (non_empty rq =? 0)%Z then Done (None, h, rq) else
  let prio := lowest_priority (non_empty rq) in
  '(task_ptr, h, rq) ← pop_queue h rq prio;
  task ← get_exec task_ptr;
  h ← upd h task (λ t, set_queued t false);
  Done (Some task, h, rq).

Definition pop_lowest_raw (h : heap) (rq : ReadyQueue) : exec (ptr * heap * ReadyQueue) :=
  if (non_empty rq =? 0)%Z then Done (None, h, rq) else
  let prio := lowest_priority (non_empty rq) in
  '(task_ptr, h, rq) ← pop_queue h rq prio;
  match task_ptr with
  | None => Done (None, h, rq)
  | Some task => h ← upd h task (λ t, set_queued t false); Done (Some task, h, rq)
  end.

Definition push_raw (h : heap) (rq : ReadyQueue) (task_ptr : ptr) : exec (bool * heap * ReadyQueue) :=
  match task_ptr with
  | None => Done (false, h, rq)
  | Some task => push h rq task
  end.

Definition peek_highest_priority (rq : ReadyQueue) : nat :=
  if (non_empty rq =? 0)%Z then 0 else highest_priority (non_empty rq).

Definition is_empty (rq : ReadyQueue) : bool := (task_count rq =? 0)%nat.
Definition len (rq : ReadyQueue) : nat := task_count rq.

(** [for_each] as the tasks it visits, in order: each queue's chain is followed
    from its head; [fuel] bounds the walk of one queue. *)
Fixpoint walk (fuel : nat) (h : heap) (p : ptr) : exec (list nat) :=
  match p with
  | None => Done []
  | Some x =>
      match fuel with
      | O => Stuck
      | S f => t ← get_exec (h !! x); l ← walk f h (next t); Done (x :: l)
      end
  end.

Fixpoint for_each_queue (fuel : nat) (h : heap) (qs : list Queue) : exec (list nat) :=
  match qs with
  | [] => Done []
  | q :: qs => l ← walk fuel h (head q); l' ← for_each_queue fuel h qs; Done (l ++ l')
  end.

Definition for_each (h : heap) (rq : ReadyQueue) : exec (list nat) :=
  for_each_queue (task_count rq) h (queues rq).

(** ** Abstraction: eight lists of tasks *)

Definition queue_repr (h : heap) (q : Queue) (l : list nat) : Prop :=
  chain h (head q) l ∧ tail q = last l.

Record rq_repr (h : heap) (rq : ReadyQueue) (qs : list (list nat)) : Prop := {
  rr_len : length (queues rq) = MAX_PRIORITIES;
  rr_qlen : length qs = MAX_PRIORITIES;
  rr_queue : ∀ p q l, queues rq !! p = Some q → qs !! p = Some l → queue_repr h q l;
  rr_nodup : NoDup (concat qs);
  rr_task : ∀ p l x, qs !! p = Some l → x ∈ l →
    ∃ t, h !! x = Some t ∧ priority t = p ∧ queued t = true ∧ state t = Ready;
  rr_count : task_count rq = length (concat qs);
  rr_width : in_width 8 (non_empty rq);
  rr_mask : ∀ p l, qs !! p = Some l →
    Z.testbit (non_empty rq) (Z.of_nat p) = negb (bool_decide (l = []));
}.

(** Two heaps that differ at most in [next] fields. *)
Definition same_but_next (o o' : option TaskControlBlock) : Prop :=
  (λ t, set_next t None) <$> o = (λ t, set_next t None) <$> o'.

(** The tests [push] makes before it links a task. *)
Definition pushable (rq : ReadyQueue) (t : TaskControlBlock) : bool :=
  negb (queued t) && bool_decide (state t = Ready) && bool_decide (next t = None)
  && (task_count rq <? MAX_TASKS) && (priority t <? MAX_PRIORITIES).

(** [x] is the first task of the highest (lowest) non-empty queue, and [qs']
    the queues without it. *)
Definition takes_highest (qs : list (list nat)) (x : nat) (qs' : list (list nat)) : Prop :=
  ∃ p l, qs !! p = Some (x :: l) ∧ qs' = <[p := l]> qs
    ∧ ∀ p' l', p < p' → qs !! p' = Some l' → l' = [].
Definition takes_lowest (qs : list (list nat)) (x : nat) (qs' : list (list nat)) : Prop :=
  ∃ p l, qs !! p = Some (x :: l) ∧ qs' = <[p := l]> qs
    ∧ ∀ p' l', p' < p → qs !! p' = Some l' → l' = [].

(** ** Lemmas on one queue *)

Lemma same_but_next_insert (h : heap) (x y : nat) (t : TaskControlBlock) (n : ptr) :
  h !! x = Some t → same_but_next (h !! y) (<[x := set_next t n]> h !! y).
Proof.
  intros Hx. unfold same_but_next. destruct (decide (x = y)) as [<-|Hne].
  - by rewrite lookup_insert_eq, Hx.
  - by rewrite lookup_insert_ne.
Qed.

Lemma same_but_next_trans o1 o2 o3 : same_but_next o1 o2 → same_but_next o2 o3 → same_but_next o1 o3.
Proof. unfold same_but_next. congruence. Qed.

Lemma same_but_next_Some o o' t : same_but_next o o' → o = Some t →
  ∃ n, o' = Some (set_next t n).
Proof.
  unfold same_but_next. intros H ->. destruct o' as [t'|]; simplify_eq/=.
  exists (next t'). f_equal. destruct t, t'; cbn in *. unfold set_next in *. cbn in *. congruence.
Qed.

Lemma queue_repr_ext (h h' : heap) (q : Queue) (l : list nat) :
  (∀ x, x ∈ l → h' !! x = h !! x) → queue_repr h q l → queue_repr h' q l.
Proof.
  intros Heq [Hc Ht]. split; [|done]. eapply chain_ext; [|done].
  intros x t Hx Hl. exists t. by rewrite Heq.
Qed.

Lemma push_back_spec (h : heap) (q : Queue) (l : list nat) (x : nat) (t : TaskControlBlock) :
  queue_repr h q l → NoDup (l ++ [x]) → h !! x = Some t →
  ∃ h' q', push_back h q x = Done (h', q') ∧ queue_repr h' q' (l ++ [x])
    ∧ h' !! x = Some (set_next t None)
    ∧ (∀ y, y ∉ l → y ≠ x → h' !! y = h !! y)
    ∧ (∀ y, same_but_next (h !! y) (h' !! y)).
Proof.
  intros [Hc Ht] Hnd Hx. unfold push_back. rewrite (upd_Done _ _ _ _ Hx). cbn [mbind exec_bind].
  assert (Hxl : x ∉ l).
  { apply NoDup_app in Hnd as (_&Hd&_). intros Hin. apply (Hd x Hin). by left. }
  set (h1 := <[x := set_next t None]> h).
  assert (Hx1 : h1 !! x = Some (set_next t None)) by apply lookup_insert_eq.
  pose proof (chain_insert h (head q) l x (set_next t None) Hxl Hc) as Hc1. fold h1 in Hc1.
  destruct l as [|a l _] using rev_ind.
  { rewrite Ht. cbn. exists h1, (mk_queue (Some x) (Some x)). split_and!; [done| |done| |].
    - split; [|done]. cbn. split; [done|]. by exists (set_next t None).
    - intros y _ Hy. by apply lookup_insert_ne.
    - intros y. by apply same_but_next_insert. }
  rewrite last_snoc in Ht. rewrite Ht.
  destruct (chain_lookup _ _ _ a Hc1) as [ta Ha]; [apply elem_of_app; right; by left|].
  rewrite (upd_Done _ _ _ _ Ha). cbn [mbind exec_bind].
  exists (<[a := set_next ta (Some x)]> h1), (mk_queue (head q) (Some x)). split_and!; [done| | | |].
  - split; cbn; [|by rewrite last_snoc].
    apply (chain_snoc _ _ _ _ _ ta (set_next t None)); try done. by apply NoDup_app in Hnd as (?&_).
  - rewrite lookup_insert_ne; [done|]. intros ->. apply Hxl, elem_of_app. right. by left.
  - intros y Hy Hyx. rewrite lookup_insert_ne by (intros ->; apply Hy, elem_of_app; right; by left).
    by apply lookup_insert_ne.
  - intros y. eapply same_but_next_trans; [by apply (same_but_next_insert h x y t None)|].
    by apply same_but_next_insert.
Qed.

Lemma pop_front_spec (h : heap) (q : Queue) (x : nat) (l : list nat) (t : TaskControlBlock) :
  queue_repr h q (x :: l) → x ∉ l → h !! x = Some t →
  ∃ q', pop_front h q = Done (Some x, <[x := set_next t None]> h, q')
    ∧ queue_repr (<[x := set_next t None]> h) q' l ∧ (head q' = None ↔ l = []).
Proof.
  intros [Hc Ht] Hxl Hx. destruct Hc as [Hh (t'&Hx'&Hc)]. assert (t' = t) as -> by congruence.
  unfold pop_front. rewrite Hh, Hx. cbn [get_exec mbind exec_bind].
  rewrite (upd_Done _ _ _ _ Hx). cbn [mbind exec_bind].
  eexists. split; [done|]. split; [split|]; cbn.
  - by apply chain_insert.
  - destruct l as [|y l]; cbn in Hc; [by rewrite Hc|]. destruct Hc as [-> _]. by rewrite Ht.
  - destruct l as [|y l]; cbn in Hc; [by rewrite Hc|]. destruct Hc as [-> _]. done.
Qed.

(** ** Lemmas on the eight queues *)

(** A ready queue only depends on its own tasks. *)
Lemma rq_repr_ext (h h' : heap) (rq : ReadyQueue) (qs : list (list nat)) :
  (∀ x, x ∈ concat qs → h' !! x = h !! x) → rq_repr h rq qs → rq_repr h' rq qs.
Proof.
  intros Heq [H1 H2 H3 H4 H5 H6 H7 H8]. split; try done.
  - intros p q l Hq Hl. apply (queue_repr_ext h); [|by eapply H3]. intros x Hx. apply Heq.
    apply elem_of_concat. eauto.
  - intros p l x Hl Hx. rewrite Heq by (apply elem_of_concat; eauto). by eapply H5.
Qed.

Lemma rq_repr_prio (h : heap) (rq : ReadyQueue) (cp : nat) (qs : list (list nat)) :
  rq_repr h rq qs → rq_repr h (mk_ready_queue (queues rq) (task_count rq) (non_empty rq) cp) qs.
Proof. by intros []. Qed.

Lemma rq_new_repr (h : heap) : rq_repr h rq_new (replicate MAX_PRIORITIES []).
Proof.
  assert (Hc : concat (replicate MAX_PRIORITIES ([] : list nat)) = []) by done.
  split; try done.
  - intros p q l [-> _]%lookup_replicate [-> _]%lookup_replicate. by split.
  - rewrite Hc. constructor.
  - intros p l x [-> _]%lookup_replicate []%elem_of_nil.
  - intros p l [-> _]%lookup_replicate. by rewrite Z.testbit_0_l.
Qed.

Lemma rq_queued (h : heap) (rq : ReadyQueue) (qs : list (list nat)) (x : nat) (t : TaskControlBlock) :
  rq_repr h rq qs → h !! x = Some t → x ∈ concat qs → queued t = true ∧ state t = Ready.
Proof.
  intros Hr Hx (p&l&Hl&Hin)%elem_of_concat.
  destruct (rr_task _ _ _ Hr p l x Hl Hin) as (t'&Hx'&_&Hq&Hs). assert (t' = t) as -> by congruence.
  done.
Qed.

Lemma queue_lookup (h : heap) (rq : ReadyQueue) (qs : list (list nat)) (p : nat) :
  rq_repr h rq qs → p < MAX_PRIORITIES →
  ∃ q l, queues rq !! p = Some q ∧ qs !! p = Some l ∧ queue_repr h q l.
Proof.
  intros Hr Hp.
  destruct (lookup_lt_is_Some_2 (queues rq) p) as [q Hq]; [by rewrite (rr_len _ _ _ Hr)|].
  destruct (lookup_lt_is_Some_2 qs p) as [l Hl]; [by rewrite (rr_qlen _ _ _ Hr)|].
  exists q, l. split_and!; [done|done|]. by eapply rr_queue.
Qed.

Lemma pushable_spec (h : heap) (rq : ReadyQueue) (x : nat) (t : TaskControlBlock) :
  h !! x = Some t → pushable rq t = false → push h rq x = Done (false, h, rq).
Proof.
  intros Hx Hp. unfold push. rewrite Hx. cbn [get_exec mbind exec_bind]. unfold pushable in Hp.
  destruct (queued t); [done|]. cbn [negb andb orb] in Hp.
  destruct (bool_decide (state t = Ready)); [|done]. destruct (bool_decide (next t = None)); [|done].
  cbn [negb andb orb] in *. destruct (Nat.leb_spec MAX_TASKS (task_count rq)); [done|].
  rewrite (proj2 (Nat.ltb_lt _ _)) in Hp by done. cbn [negb andb orb] in Hp.
  destruct (Nat.leb_spec MAX_PRIORITIES (priority t)); [done|].
  by rewrite (proj2 (Nat.ltb_lt _ _)) in Hp by done.
Qed.

Lemma mask_set (h : heap) (rq : ReadyQueue) (qs : list (list nat)) (p i : nat) (l l' : list nat) :
  rq_repr h rq qs → p < MAX_PRIORITIES → l' ≠ [] →
  <[p := l']> qs !! i = Some l →
  Z.testbit (Z.lor (non_empty rq) (Z.shiftl 1 (Z.of_nat p))) (Z.of_nat i) = negb (bool_decide (l = [])).
Proof.
  intros Hr Hp Hl' Hi. rewrite testbit_set by lia. pose proof (rr_qlen _ _ _ Hr) as Hlen.
  destruct (decide (p = i)) as [<-|Hne].
  - rewrite list_lookup_insert_eq in Hi by lia. simplify_eq.
    by rewrite bool_decide_true, orb_true_r, bool_decide_false.
  - rewrite list_lookup_insert_ne in Hi by done. rewrite (rr_mask _ _ _ Hr i l Hi).
    rewrite (bool_decide_false (Z.of_nat i = Z.of_nat p)) by lia. apply orb_false_r.
Qed.

Lemma mask_clear (h : heap) (rq : ReadyQueue) (qs : list (list nat)) (p i : nat) (k l : list nat) (q : Queue) :
  rq_repr h rq qs → p < MAX_PRIORITIES → (head q = None ↔ k = []) →
  (∃ x, qs !! p = Some (x :: k)) → <[p := k]> qs !! i = Some l →
  Z.testbit (match head q with
             | None => Z.land (non_empty rq) (lnot_w 8 (Z.shiftl 1 (Z.of_nat p)))
             | Some _ => non_empty rq
             end) (Z.of_nat i) = negb (bool_decide (l = [])).
Proof.
  intros Hr Hp Hq [x Hx] Hi. pose proof (rr_qlen _ _ _ Hr) as Hlen.
  assert (Hilt : i < MAX_PRIORITIES).
  { apply lookup_lt_Some in Hi. rewrite length_insert in Hi. lia. }
  destruct (decide (p = i)) as [<-|Hne].
  - rewrite list_lookup_insert_eq in Hi by lia. simplify_eq. pose proof (rr_mask _ _ _ Hr p _ Hx) as Hb.
    destruct (head q) as [n|]; [rewrite Hb; rewrite !bool_decide_false; [done|by intros ?%Hq|done]|].
    rewrite testbit_clear by (unfold MAX_PRIORITIES in *; lia).
    rewrite (bool_decide_true (Z.of_nat p = Z.of_nat p)) by done.
    rewrite andb_false_r, bool_decide_true; [done|]. by apply Hq.
  - rewrite list_lookup_insert_ne in Hi by done. rewrite <- (rr_mask _ _ _ Hr i l Hi).
    destruct (head q) as [n|]; [done|]. rewrite testbit_clear by (unfold MAX_PRIORITIES in *; lia).
    rewrite (bool_decide_false (Z.of_nat i = Z.of_nat p)) by lia. apply andb_true_r.
Qed.

Lemma push_spec (h : heap) (rq : ReadyQueue) (qs : list (list nat)) (x : nat) (t : TaskControlBlock) :
  rq_repr h rq qs → h !! x = Some t → pushable rq t = true →
  ∃ h' rq' l, push h rq x = Done (true, h', rq')
    ∧ qs !! priority t = Some l
    ∧ rq_repr h' rq' (<[priority t := l ++ [x]]> qs)
    ∧ h' !! x = Some (set_queued t true)
    ∧ (∀ y, y ∉ concat qs → y ≠ x → h' !! y = h !! y)
    ∧ (∀ y, y ≠ x → same_but_next (h !! y) (h' !! y))
    ∧ task_count rq' = S (task_count rq).
Proof.
  intros Hr Hx Hp. unfold pushable in Hp.
  rewrite !andb_true_iff, negb_true_iff, !bool_decide_eq_true, !Nat.ltb_lt in Hp.
  destruct Hp as [[[[Hq Hs] Hn] Hm] Hpr].
  destruct (queue_lookup h rq qs (priority t) Hr Hpr) as (q&l&Hql&Hl&Hrep).
  assert (Hxc : x ∉ concat qs).
  { intros Hin. destruct (rq_queued h rq qs x t Hr Hx Hin). congruence. }
  destruct (concat_insert_perm qs (priority t) l Hl) as (rest&Hp1&Hp2).
  assert (Hnd : NoDup (concat (<[priority t := l ++ [x]]> qs))).
  { rewrite Hp2. rewrite <- app_assoc. cbn. rewrite <- Permutation_middle. apply NoDup_cons.
    rewrite <- Hp1. split; [done|]. apply Hr. }
  assert (Hndl : NoDup (l ++ [x])).
  { rewrite Hp2 in Hnd. by apply NoDup_app in Hnd as (?&_). }
  destruct (push_back_spec h q l x t Hrep Hndl Hx) as (h1&q1&Hpb&Hrep1&Hx1&Hfr1&Hsn1).
  assert (Ht : set_next t None = t) by (destruct t; cbn in *; by subst).
  rewrite Ht in Hx1.
  exists (<[x := set_queued t true]> h1), (mk_ready_queue (<[priority t := q1]> (queues rq))
    (S (task_count rq)) (Z.lor (non_empty rq) (Z.shiftl 1 (Z.of_nat (priority t)))) (current_priority rq)), l.
  pose proof (rr_qlen _ _ _ Hr) as Hqlen. pose proof (rr_len _ _ _ Hr) as Hlen.
  split_and!; [|done| | | | |done].
  - unfold push. rewrite Hx. cbn [get_exec mbind exec_bind].
    rewrite Hq, (bool_decide_true _ Hs), (bool_decide_true _ Hn). cbn [negb orb].
    rewrite (proj2 (Nat.leb_gt _ _) Hm), (proj2 (Nat.leb_gt _ _) Hpr), Hql.
    cbn [get_exec mbind exec_bind]. rewrite Hpb. cbn [mbind exec_bind].
    rewrite (upd_Done _ _ _ _ Hx1). done.
  - split; cbn.
    + by rewrite length_insert.
    + by rewrite length_insert.
    + intros p q' l' Hq' Hl'. destruct (decide (priority t = p)) as [<-|Hne].
      * rewrite list_lookup_insert_eq in Hq' by lia. rewrite list_lookup_insert_eq in Hl' by lia. simplify_eq. destruct Hrep1 as [Hc Hta].
        split; [|done]. by eapply chain_insert_same.
      * rewrite list_lookup_insert_ne in Hq' by done. rewrite list_lookup_insert_ne in Hl' by done.
        apply (queue_repr_ext h); [|by eapply rr_queue].
        intros y Hy. assert (Hyx : y ≠ x) by (intros ->; apply Hxc, elem_of_concat; eauto).
        rewrite lookup_insert_ne by done. apply Hfr1; [|done]. intros Hyl.
        apply Hne. by eapply (concat_disjoint qs _ _ l l' y); [apply Hr|..].
    + done.
    + intros p l' y Hl' Hy. destruct (decide (priority t = p)) as [<-|Hne].
      * rewrite list_lookup_insert_eq in Hl' by lia. simplify_eq.
        apply elem_of_app in Hy as [Hy| ->%list_elem_of_singleton].
        -- assert (Hyx : x ≠ y) by (intros ->; apply Hxc, elem_of_concat; eauto).
           rewrite lookup_insert_ne by done.
           destruct (rr_task _ _ _ Hr _ l y Hl Hy) as (ty&Hty&?&?&?).
           destruct (same_but_next_Some _ _ ty (Hsn1 y) Hty) as [n Hn']. exists (set_next ty n). done.
        -- rewrite lookup_insert_eq. by eexists.
      * rewrite list_lookup_insert_ne in Hl' by done.
        assert (Hyx : y ≠ x) by (intros ->; apply Hxc, elem_of_concat; eauto).
        rewrite lookup_insert_ne by done. rewrite Hfr1; [by eapply rr_task| |done].
        intros Hyl. apply Hne. by eapply (concat_disjoint qs _ _ l l' y); [apply Hr|..].
    + rewrite Hp2, (rr_count _ _ _ Hr), Hp1, !length_app. cbn. lia.
    + apply in_width_lor; [done|apply Hr|apply in_width_bit; unfold MAX_PRIORITIES in *; lia].
    + intros i l' Hi. eapply mask_set; try done. by destruct l.
  - apply lookup_insert_eq.
  - intros y Hy Hyx. rewrite lookup_insert_ne by done. apply Hfr1; [|done].
    intros Hyl. apply Hy, elem_of_concat. eauto.
  - intros y Hyx. rewrite lookup_insert_ne by done. apply Hsn1.
Qed.

Lemma pop_queue_repr (h h' : heap) (rq : ReadyQueue) (qs : list (list nat)) (q1 : Queue)
    (p x : nat) (l : list nat) (ne : Z) :
  rq_repr h rq qs → qs !! p = Some (x :: l) → queue_repr h' q1 l → in_width 8 ne →
  (∀ y, y ≠ x → h' !! y = h !! y) →
  (∀ i k, <[p := l]> qs !! i = Some k → Z.testbit ne (Z.of_nat i) = negb (bool_decide (k = []))) →
  rq_repr h' (mk_ready_queue (<[p := q1]> (queues rq)) (pred (task_count rq)) ne (current_priority rq))
    (<[p := l]> qs).
Proof.
  intros Hr Hl Hrep1 Hw Hfr Hmask.
  destruct (concat_insert_perm qs p _ Hl) as (rest&Hp1&Hp2).
  pose proof (rr_nodup _ _ _ Hr) as Hnd. rewrite Hp1 in Hnd. cbn in Hnd. apply NoDup_cons in Hnd as [Hx Hnd].
  assert (Hxl : ∀ i k, <[p := l]> qs !! i = Some k → x ∉ k).
  { intros i k Hik Hin. apply Hx. rewrite <- Hp2. apply elem_of_concat. eauto. }
  pose proof (rr_qlen _ _ _ Hr) as Hqlen. pose proof (rr_len _ _ _ Hr) as Hlen.
  assert (Hplt : p < MAX_PRIORITIES) by (rewrite <- Hqlen; by eapply lookup_lt_Some).
  split; cbn.
  - by rewrite length_insert.
  - by rewrite length_insert.
  - intros i q' l' Hq' Hl'. destruct (decide (p = i)) as [<-|Hne].
    + rewrite list_lookup_insert_eq in Hq' by lia. rewrite list_lookup_insert_eq in Hl' by lia.
      by simplify_eq.
    + pose proof (Hxl _ _ Hl') as Hxl'. rewrite list_lookup_insert_ne in Hq' by done.
      rewrite list_lookup_insert_ne in Hl' by done.
      apply (queue_repr_ext h); [|by eapply rr_queue].
      intros y Hy. apply Hfr. by intros ->.
  - by rewrite Hp2.
  - intros i l' y Hl' Hy. rewrite Hfr by (intros ->; by eapply Hxl).
    destruct (decide (p = i)) as [<-|Hne].
    + rewrite list_lookup_insert_eq in Hl' by lia. simplify_eq. eapply rr_task; [done..|]. by right.
    + rewrite list_lookup_insert_ne in Hl' by done. by eapply rr_task.
  - rewrite Hp2, (rr_count _ _ _ Hr), Hp1. done.
  - done.
  - done.
Qed.

(** Unlinking the first task of queue [p]. *)
Lemma pop_queue_spec (h : heap) (rq : ReadyQueue) (qs : list (list nat)) (p x : nat) (l : list nat) :
  rq_repr h rq qs → qs !! p = Some (x :: l) →
  ∃ t rq', h !! x = Some t ∧ pop_queue h rq p = Done (Some x, <[x := set_next t None]> h, rq')
    ∧ rq_repr (<[x := set_next t None]> h) rq' (<[p := l]> qs)
    ∧ S (task_count rq') = task_count rq ∧ priority t = p ∧ state t = Ready.
Proof.
  intros Hr Hl.
  assert (Hplt : p < MAX_PRIORITIES) by (rewrite <- (rr_qlen _ _ _ Hr); by eapply lookup_lt_Some).
  destruct (queue_lookup h rq qs p Hr Hplt) as (q&l0&Hq&Hl0&Hrep). simplify_eq.
  destruct (rr_task _ _ _ Hr p _ x Hl (list_elem_of_here _ _)) as (t&Hx&Hpr&_&Hs).
  destruct (concat_insert_perm qs p _ Hl) as (rest&Hp1&_).
  pose proof (rr_nodup _ _ _ Hr) as Hnd. rewrite Hp1 in Hnd. cbn in Hnd. apply NoDup_cons in Hnd as [Hxr _].
  destruct (pop_front_spec h q x l t Hrep) as (q1&Hpf&Hrep1&Hh1); [|done|].
  { intros ?. apply Hxr, elem_of_app. by left. }
  pose proof (rr_count _ _ _ Hr) as Hc. rewrite Hp1 in Hc. cbn in Hc.
  exists t, (mk_ready_queue (<[p := q1]> (queues rq)) (pred (task_count rq))
              (match head q1 with
               | None => Z.land (non_empty rq) (lnot_w 8 (Z.shiftl 1 (Z.of_nat p)))
               | Some _ => non_empty rq
               end) (current_priority rq)).
  split; [done|]. unfold pop_queue. rewrite Hq. cbn [get_exec mbind exec_bind].
  rewrite Hpf. cbn [mbind exec_bind]. split_and!; [by rewrite Hc| |by rewrite Hc|done|done].
  eapply pop_queue_repr; try done.
  - destruct (head q1); [apply Hr|].
    apply in_width_land; [done|apply Hr|by apply lnot_w_nonneg].
  - intros y Hy. by apply lookup_insert_ne.
  - intros i k Hik. eapply mask_clear; try done. by eexists.
Qed.

Lemma mask_zero (h : heap) (rq : ReadyQueue) (qs : list (list nat)) :
  rq_repr h rq qs → non_empty rq = 0%Z ↔ concat qs = [].
Proof.
  intros Hr. split.
  - intros H0. apply elem_of_nil_inv. intros x (p&l&Hl&Hx)%elem_of_concat.
    pose proof (rr_mask _ _ _ Hr p l Hl) as Hb. rewrite H0, Z.testbit_0_l in Hb.
    case_bool_decide; [subst; by apply elem_of_nil in Hx|done].
  - intros Hc. apply (word_zero_bits 8); [apply Hr|]. intros i Hi.
    destruct (queue_lookup h rq qs (Z.to_nat i) Hr) as (q&l&_&Hl&_); [unfold MAX_PRIORITIES; lia|].
    pose proof (rr_mask _ _ _ Hr _ l Hl) as Hb. rewrite Z2Nat.id in Hb by lia. rewrite Hb.
    destruct l as [|x l]; [done|]. exfalso.
    assert (Hin : x ∈ concat qs) by (apply elem_of_concat; eexists _, _; split; [done|by left]).
    rewrite Hc in Hin. by apply elem_of_nil in Hin.
Qed.

(** The highest (lowest) bit of the mask selects the queue the specification takes from. *)
Lemma mask_bit_queue (h : heap) (rq : ReadyQueue) (qs : list (list nat)) (b : nat) :
  rq_repr h rq qs → b < 8 → Z.testbit (non_empty rq) (Z.of_nat b) = true →
  ∃ x l, qs !! b = Some (x :: l).
Proof.
  intros Hr Hb Ht. destruct (queue_lookup h rq qs b Hr Hb) as (q&l&_&Hl&_).
  rewrite (rr_mask _ _ _ Hr b l Hl) in Ht. destruct l as [|x l]; [done|]. eauto.
Qed.

Lemma mask_bit_empty (h : heap) (rq : ReadyQueue) (qs : list (list nat)) (b : nat) (l : list nat) :
  rq_repr h rq qs → Z.testbit (non_empty rq) (Z.of_nat b) = false → qs !! b = Some l → l = [].
Proof.
  intros Hr Ht Hl. rewrite (rr_mask _ _ _ Hr b l Hl) in Ht. by destruct l.
Qed.

(** What a pop of task [x] does to the heap: it is unlinked and not queued. *)
Definition popped (h : heap) (x : nat) (t : TaskControlBlock) : heap :=
  <[x := set_queued (set_next t None) false]> h.

Lemma popped_repr (h : heap) (rq : ReadyQueue) (qs : list (list nat)) (x : nat) (t : TaskControlBlock) :
  rq_repr (<[x := set_next t None]> h) rq qs → x ∉ concat qs → rq_repr (popped h x t) rq qs.
Proof.
  intros Hr Hx. eapply rq_repr_ext; [|done]. intros y Hy. unfold popped.
  rewrite !lookup_insert_ne; [done|by intros ->..].
Qed.

Lemma taken_not_in (h : heap) (rq : ReadyQueue) (qs : list (list nat)) (p x : nat) (l : list nat) :
  rq_repr h rq qs → qs !! p = Some (x :: l) → x ∉ concat (<[p := l]> qs).
Proof.
  intros Hr Hl. destruct (concat_insert_perm qs p _ Hl) as (rest&Hp1&Hp2).
  pose proof (rr_nodup _ _ _ Hr) as Hnd. rewrite Hp1 in Hnd. cbn in Hnd.
  apply NoDup_cons in Hnd as [Hxr _]. by rewrite Hp2.
Qed.

Lemma pop_highest_spec (h : heap) (rq : ReadyQueue) (qs : list (list nat)) : rq_repr h rq qs →
  (concat qs = [] ∧ pop_highest h rq = Done (None, h, rq))
  ∨ ∃ x t qs' rq', takes_highest qs x qs' ∧ h !! x = Some t ∧ state t = Ready
      ∧ pop_highest h rq = Done (Some x, popped h x t, rq')
      ∧ rq_repr (popped h x t) rq' qs'
      ∧ S (task_count rq') = task_count rq
      ∧ peek_highest_priority rq = priority t.
Proof.
  intros Hr. unfold pop_highest. destruct (Z.eqb_spec (non_empty rq) 0) as [H0|H0].
  { left. split; [by apply (mask_zero h rq qs Hr)|done]. }
  right. destruct (highest_bit_spec 8 (non_empty rq)) as (Hb&Ht&Hhi); [apply Hr|done|].
  unfold highest_priority. set (p := highest_bit 8 (non_empty rq)) in *.
  destruct (mask_bit_queue h rq qs p Hr Hb Ht) as (x&l&Hl).
  destruct (pop_queue_spec h rq qs p x l Hr Hl) as (t&rq'&Hx&Hpop&Hr'&Hct&Hpr&Hs).
  exists x, t, (<[p := l]> qs), (mk_ready_queue (queues rq') (task_count rq') (non_empty rq') p).
  split_and!; [|done|done| | |done|].
  - exists p, l. split_and!; [done|done|]. intros p' l' Hp' Hl'.
    apply (mask_bit_empty h rq qs p' l' Hr); [by apply Hhi|done].
  - rewrite Hpop. cbn [mbind exec_bind get_exec].
    rewrite (upd_Done _ _ _ _ (lookup_insert_eq h x (set_next t None))). cbn [mbind exec_bind].
    unfold popped. by rewrite insert_insert_eq.
  - apply rq_repr_prio. apply popped_repr; [done|]. by eapply taken_not_in.
  - unfold peek_highest_priority. by rewrite (proj2 (Z.eqb_neq _ _) H0).
Qed.

Lemma pop_lowest_raw_spec (h : heap) (rq : ReadyQueue) (qs : list (list nat)) : rq_repr h rq qs →
  (concat qs = [] ∧ pop_lowest_raw h rq = Done (None, h, rq))
  ∨ ∃ x t qs' rq', takes_lowest qs x qs' ∧ h !! x = Some t ∧ state t = Ready
      ∧ pop_lowest_raw h rq = Done (Some x, popped h x t, rq')
      ∧ pop_lowest h rq = Done (Some x, popped h x t, rq')
      ∧ rq_repr (popped h x t) rq' qs'
      ∧ S (task_count rq') = task_count rq.
Proof.
  intros Hr. unfold pop_lowest_raw, pop_lowest. destruct (Z.eqb_spec (non_empty rq) 0) as [H0|H0].
  { left. split; [by apply (mask_zero h rq qs Hr)|done]. }
  right. destruct (trailing_zeros_spec 8 (non_empty rq)) as (Hb&Ht&Hlo); [apply Hr|done|].
  unfold lowest_priority. set (p := trailing_zeros 8 (non_empty rq)) in *.
  destruct (mask_bit_queue h rq qs p Hr Hb Ht) as (x&l&Hl).
  destruct (pop_queue_spec h rq qs p x l Hr Hl) as (t&rq'&Hx&Hpop&Hr'&Hct&_&Hs).
  exists x, t, (<[p := l]> qs), rq'.
  rewrite Hpop. cbn [mbind exec_bind get_exec].
  rewrite (upd_Done _ _ _ _ (lookup_insert_eq h x (set_next t None))). cbn [mbind exec_bind].
  unfold popped. rewrite insert_insert_eq. split_and!; try done.
  - exists p, l. split_and!; [done|done|]. intros p' l' Hp' Hl'.
    apply (mask_bit_empty h rq qs p' l' Hr); [by apply Hlo|done].
  - apply popped_repr; [done|]. by eapply taken_not_in.
Qed.

Lemma peek_spec (h : heap) (rq : ReadyQueue) (qs : list (list nat)) (p : nat) (l : list nat) :
  rq_repr h rq qs → qs !! p = Some l → l ≠ [] → p ≤ peek_highest_priority rq.
Proof.
  intros Hr Hl Hne. unfold peek_highest_priority, highest_priority.
  assert (Hp : p < 8) by (change 8 with MAX_PRIORITIES; rewrite <- (rr_qlen _ _ _ Hr); by eapply lookup_lt_Some).
  pose proof (rr_mask _ _ _ Hr p l Hl) as Hb. rewrite bool_decide_false in Hb by done. cbn in Hb.
  destruct (Z.eqb_spec (non_empty rq) 0) as [H0|H0]; [by rewrite H0, Z.testbit_0_l in Hb|].
  destruct (highest_bit_spec 8 (non_empty rq)) as (_&_&Hhi); [apply Hr|done|].
  destruct (decide (p ≤ highest_bit 8 (non_empty rq))); [done|]. rewrite Hhi in Hb by lia. done.
Qed.

Lemma is_empty_spec (h : heap) (rq : ReadyQueue) (qs : list (list nat)) :
  rq_repr h rq qs → is_empty rq = true ↔ concat qs = [].
Proof.
  intros Hr. unfold is_empty. rewrite Nat.eqb_eq, (rr_count _ _ _ Hr).
  split; [apply nil_length_inv|by intros ->].
Qed.

Lemma walk_chain (h : heap) (p : ptr) (l : list nat) (fuel : nat) :
  chain h p l → length l ≤ fuel → walk fuel h p = Done l.
Proof.
  revert p fuel. induction l as [|x l IH]; intros p fuel; cbn.
  - intros ->. by destruct fuel.
  - intros [-> (t&Hx&Hc)] Hlen. destruct fuel as [|fuel]; [lia|]. cbn. rewrite Hx.
    cbn [get_exec mbind exec_bind]. rewrite (IH (next t) fuel) by (done || lia). done.
Qed.

Lemma for_each_queue_spec (h : heap) (fuel : nat) (qls : list Queue) (qs : list (list nat)) :
  Forall2 (queue_repr h) qls qs → (∀ l, l ∈ qs → length l ≤ fuel) →
  for_each_queue fuel h qls = Done (concat qs).
Proof.
  induction 1 as [|q l qls qs [Hc _] _ IH]; intros Hlen; [done|]. cbn.
  rewrite (walk_chain h (head q) l fuel Hc) by (apply Hlen; by left). cbn [mbind exec_bind].
  rewrite IH by (intros; apply Hlen; by right). done.
Qed.

Lemma for_each_spec (h : heap) (rq : ReadyQueue) (qs : list (list nat)) :
  rq_repr h rq qs → for_each h rq = Done (concat qs).
Proof.
  intros Hr. apply for_each_queue_spec.
  - apply Forall2_same_length_lookup_2; [by rewrite (rr_len _ _ _ Hr), (rr_qlen _ _ _ Hr)|].
    intros p q l. apply Hr.
  - intros l [p Hl]%list_elem_of_lookup. rewrite (rr_count _ _ _ Hr).
    destruct (concat_insert_perm qs p l Hl) as (rest&Hp&_). rewrite Hp, length_app. lia.
Qed.

(** ** Properties *)

(** A ready task of a given priority, for the witnesses. *)
Definition demo_task (prio : nat) : TaskControlBlock := tcb_new 7 2149580800 2149600000 8192 prio "DEMO".

(** [push] accepts a task exactly when it is ready, unlinked, not queued,
    of a valid priority and the queue is not full; it then appends the task to
    the queue of its priority and changes no other list, and a refused task
    changes nothing. It never dereferences an invalid pointer. *)
Theorem rq_push_refines (h : heap) (rq : ReadyQueue) (qs : list (list nat)) (x : nat) (t : TaskControlBlock) :
  rq_repr h rq qs → h !! x = Some t →
  if pushable rq t
  then ∃ h' rq' l, push h rq x = Done (true, h', rq') ∧ qs !! priority t = Some l
         ∧ rq_repr h' rq' (<[priority t := l ++ [x]]> qs)
         ∧ h' !! x = Some (set_queued t true)
         ∧ (∀ y, y ∉ concat qs → y ≠ x → h' !! y = h !! y)
         ∧ (∀ y, y ≠ x → same_but_next (h !! y) (h' !! y))
  else push h rq x = Done (false, h, rq).
Proof.
  intros Hr Hx. destruct (pushable rq t) eqn:Hp; [|by eapply pushable_spec].
  destruct (push_spec h rq qs x t Hr Hx Hp) as (h'&rq'&l&?&?&?&?&?&?&_). by exists h', rq', l.
Qed.

Lemma rq_push_refines_witness :
  ∃ h' rq', push {[4 := demo_task 3]} rq_new 4 = Done (true, h', rq')
    ∧ rq_repr h' rq' (<[3 := [4]]> (replicate MAX_PRIORITIES [])).
Proof.
  pose proof (rq_push_refines {[4 := demo_task 3]} rq_new (replicate MAX_PRIORITIES []) 4 (demo_task 3)
                (rq_new_repr _) (lookup_singleton_eq _ _)) as H.
  cbn [pushable] in H. destruct H as (h'&rq'&l&H1&H2&H3&_).
  exists h', rq'. split; [exact H1|]. cbn in H2. injection H2 as <-. exact H3.
Defined.

(** [pop_highest] removes the first task of the highest non-empty queue,
    unlinked and no longer queued, and returns [None] only when no task is
    queued; [peek_highest_priority] announces the priority it takes. *)
Theorem rq_pop_highest_refines (h : heap) (rq : ReadyQueue) (qs : list (list nat)) : rq_repr h rq qs →
  (concat qs = [] ∧ pop_highest h rq = Done (None, h, rq))
  ∨ ∃ x t qs' rq', takes_highest qs x qs' ∧ h !! x = Some t ∧ state t = Ready
      ∧ pop_highest h rq = Done (Some x, popped h x t, rq')
      ∧ rq_repr (popped h x t) rq' qs'
      ∧ S (task_count rq') = task_count rq
      ∧ peek_highest_priority rq = priority t.
Proof. apply pop_highest_spec. Qed.

Lemma rq_pop_highest_refines_witness :
  ∃ h rq, rq_repr h rq (<[3 := [4]]> (replicate MAX_PRIORITIES []))
    ∧ ∃ t rq', pop_highest h rq = Done (Some 4, popped h 4 t, rq')
      ∧ rq_repr (popped h 4 t) rq' (replicate MAX_PRIORITIES []).
Proof.
  destruct (push_spec {[4 := demo_task 3]} rq_new (replicate MAX_PRIORITIES []) 4 (demo_task 3)
              (rq_new_repr _) (lookup_singleton_eq _ _) eq_refl) as (h&rq&l&_&Hl&Hr&_).
  cbn in Hl. injection Hl as <-. exists h, rq. split; [exact Hr|].
  destruct (rq_pop_highest_refines h rq _ Hr) as [[Hc _]|(x&t&qs'&rq'&Htk&_&_&Hpop&Hr'&_)]; [discriminate Hc|].
  destruct Htk as (p&k&Hk&->&_). exists t, rq'.
  destruct p as [|[|[|[|[|[|[|[|p]]]]]]]]; try discriminate Hk.
  injection Hk as <- <-. split; [exact Hpop|exact Hr'].
Defined.

(** [pop_lowest_raw] (the work-stealing pop) and [pop_lowest] both remove
    the first task of the lowest non-empty queue. *)
Theorem rq_pop_lowest_refines (h : heap) (rq : ReadyQueue) (qs : list (list nat)) : rq_repr h rq qs →
  (concat qs = [] ∧ pop_lowest_raw h rq = Done (None, h, rq))
  ∨ ∃ x t qs' rq', takes_lowest qs x qs' ∧ h !! x = Some t ∧ state t = Ready
      ∧ pop_lowest_raw h rq = Done (Some x, popped h x t, rq')
      ∧ pop_lowest h rq = Done (Some x, popped h x t, rq')
      ∧ rq_repr (popped h x t) rq' qs'
      ∧ S (task_count rq') = task_count rq.
Proof. apply pop_lowest_raw_spec. Qed.

Lemma rq_pop_lowest_refines_witness :
  pop_lowest_raw ∅ rq_new = Done (None, ∅, rq_new).
Proof.
  destruct (rq_pop_lowest_refines ∅ rq_new _ (rq_new_repr ∅)) as [[_ H]|(x&t&qs'&rq'&Htk&_)]; [exact H|].
  destruct Htk as (p&k&Hk&_). exfalso.
  destruct p as [|[|[|[|[|[|[|[|p]]]]]]]]; discriminate Hk.
Defined.
