(* ===== verification/Critical.v ===== *)
(** * Per-CPU data, interrupt nesting and the IRQ-safe mutex

    [kernel/src/sched/percpu.rs], the interrupt part of [kernel/src/arch.rs],
    the context-switch symbols of [kernel/src/sched/mod.rs] and
    [kernel/src/sync.rs].  The machine has one hardware interrupt flag for the
    CPU that runs; [disable_irq] and [enable_irq] nest through the per-CPU
    counter. *)

From S2P Require Export Prelude.
From S2P Require Export Task.

(** The SMP configuration: how many CPUs, the one that runs, the active ones.
    [max_cpus] is [OPENION_SMP_MAX_CPUS] when [OPENION_SMP] is set and 1
    otherwise; [active_mask] is what the platform's [smp_status] reports. *)
Class SmpConfig : Type := {
  max_cpus : nat;
  this_cpu : nat;
  active_mask : Z;
  max_cpus_pos : 0 < max_cpus;
}.

(** The generated configuration: [OPENION_SMP = false]. *)
Definition single_cpu : SmpConfig :=
  {| max_cpus := 1; this_cpu := 0; active_mask := 1; max_cpus_pos := Nat.lt_0_1 |}.

Record PerCpuData : Type := mk_percpu {
  current_tcb : ptr;
  next_tcb : ptr;
  crit_nest : nat;
  pc_cpu_id : nat;
}.

Definition percpu_new (cpu_id : nat) : PerCpuData := mk_percpu None None 0 cpu_id.

(** [PER_CPU], the context-switch symbols [CURRENT_TCB] and [NEXT_TCB], and
    the interrupt enable flag of the CPU. *)
Record machine : Type := mk_machine {
  per_cpu : list PerCpuData;
  CURRENT_TCB : ptr;
  NEXT_TCB : ptr;
  irq_on : bool;
}.

Section critical.
Context `{!SmpConfig}.

Definition PER_CPU : list PerCpuData := percpu_new <$> seq 0 max_cpus.
Definition machine_boot : machine := mk_machine PER_CPU None None false.

(** ** percpu.rs *)

Definition cpu_slot (cpu_id : nat) : nat := cpu_id `mod` max_cpus.
Definition cpu_data (m : machine) (cpu_id : nat) : PerCpuData :=
  default (percpu_new 0) (per_cpu m !! cpu_slot cpu_id).
Definition current_cpu (m : machine) : PerCpuData := cpu_data m this_cpu.
Definition set_current_cpu (m : machine) (d : PerCpuData) : machine :=
  mk_machine (<[cpu_slot this_cpu := d]> (per_cpu m)) (CURRENT_TCB m) (NEXT_TCB m) (irq_on m).

Definition percpu_current_task_ptr (m : machine) : ptr := current_tcb (current_cpu m).
Definition percpu_set_current_task_ptr (m : machine) (task : ptr) : machine :=
  let d := current_cpu m in
  set_current_cpu m (mk_percpu task (next_tcb d) (crit_nest d) (pc_cpu_id d)).
Definition percpu_next_task_ptr (m : machine) : ptr := next_tcb (current_cpu m).
Definition percpu_set_next_task_ptr (m : machine) (task : ptr) : machine :=
  let d := current_cpu m in
  set_current_cpu m (mk_percpu (current_tcb d) task (crit_nest d) (pc_cpu_id d)).

Definition critical_nest (m : machine) : nat := crit_nest (current_cpu m).
Definition set_critical_nest (m : machine) (nest : nat) : machine :=
  let d := current_cpu m in
  set_current_cpu m (mk_percpu (current_tcb d) (next_tcb d) nest (pc_cpu_id d)).
Definition enter_critical (m : machine) : nat * machine :=
  let nest := critical_nest m in (S nest, set_critical_nest m (S nest)).
Definition exit_critical (m : machine) : nat * machine :=
  match critical_nest m with
  | O => (O, m)
  | S next => (next, set_critical_nest m next)
  end.
Definition in_critical_section (m : machine) : bool := negb (critical_nest m =? 0).

(** ** The context-switch symbols, sched/mod.rs *)

Definition sync_current_task_shadow (m : machine) (task : ptr) : machine :=
  if bool_decide (percpu_current_task_ptr m = task) then m
  else percpu_set_current_task_ptr m task.
(** [current_task_ptr] returns [CURRENT_TCB]; reading it refreshes the shadow. *)
Definition sync_current (m : machine) : machine := sync_current_task_shadow m (CURRENT_TCB m).
Definition set_next_task_ptr (m : machine) (task : ptr) : machine :=
  let m := percpu_set_next_task_ptr m task in
  mk_machine (per_cpu m) (CURRENT_TCB m) task (irq_on m).
Definition keep_current_task (m : machine) : machine :=
  let m := sync_current m in set_next_task_ptr m (CURRENT_TCB m).
Definition has_current_task (m : machine) : bool * machine :=
  (bool_decide (CURRENT_TCB m ≠ None), sync_current m).

(** The end of the trap vector: [CURRENT_TCB] takes the value of [NEXT_TCB]. *)
Definition context_switch (m : machine) : machine :=
  mk_machine (per_cpu m) (NEXT_TCB m) (NEXT_TCB m) (irq_on m).

(** ** arch.rs: nested interrupt masking *)

Definition set_irq (m : machine) (b : bool) : machine :=
  mk_machine (per_cpu m) (CURRENT_TCB m) (NEXT_TCB m) b.

Definition disable_irq (m : machine) : machine :=
  let nest := critical_nest m in
  let m := if nest =? 0 then set_irq m false else m in
  set_critical_nest m (S nest).

Definition enable_irq (m : machine) : machine :=
  let '(nest, m) := exit_critical m in
  if nest =? 0 then
    let '(has, m) := has_current_task m in
    if has then set_irq m true else m
  else m.
End critical.

(** ** sync.rs: the mutex *)

Record mutex (T : Type) : Type := mk_mutex { locked : bool; value : T }.
Arguments mk_mutex {T} locked value.
Arguments locked {T} m.
Arguments value {T} m.

Section mutex.
Context `{!SmpConfig} {T : Type}.

Definition mutex_new (v : T) : mutex T := mk_mutex false v.

(** Spinning on a lock that is held by the same CPU never returns. *)
Definition lock (m : machine) (x : mutex T) : exec (machine * mutex T) :=
  let m := disable_irq m in
  if locked x then Stuck else Done (m, mk_mutex true (value x)).

Definition try_lock (m : machine) (x : mutex T) : option (mutex T) * machine :=
  let m := disable_irq m in
  if locked x then (None, enable_irq m) else (Some (mk_mutex true (value x)), m).

(** The guard's drop: release, then unmask. *)
Definition unlock (m : machine) (x : mutex T) : machine * mutex T :=
  (enable_irq m, mk_mutex false (value x)).
End mutex.

(** ** Lemmas *)

Section lemmas.
Context `{!SmpConfig}.

Definition machine_ok (m : machine) : Prop := length (per_cpu m) = max_cpus.

Lemma cpu_slot_lt (c : nat) : cpu_slot c < max_cpus.
Proof. apply Nat.mod_upper_bound. pose proof max_cpus_pos. lia. Qed.

Lemma machine_boot_ok : machine_ok machine_boot.
Proof. unfold machine_ok, machine_boot, PER_CPU. cbn [per_cpu]. by rewrite length_fmap, length_seq. Qed.

Lemma current_cpu_set (m : machine) (d : PerCpuData) :
  machine_ok m → current_cpu (set_current_cpu m d) = d.
Proof.
  intros Hm. unfold current_cpu, cpu_data. cbn. rewrite list_lookup_insert_eq; [done|].
  rewrite Hm. apply cpu_slot_lt.
Qed.

Lemma set_current_cpu_ok (m : machine) (d : PerCpuData) : machine_ok m → machine_ok (set_current_cpu m d).
Proof. unfold machine_ok. cbn. by rewrite length_insert. Qed.

Lemma critical_nest_set (m : machine) (n : nat) : machine_ok m → critical_nest (set_critical_nest m n) = n.
Proof. intros Hm. unfold critical_nest, set_critical_nest. by rewrite current_cpu_set. Qed.

Lemma sync_current_nest (m : machine) : machine_ok m →
  machine_ok (sync_current m) ∧ critical_nest (sync_current m) = critical_nest m
  ∧ irq_on (sync_current m) = irq_on m ∧ CURRENT_TCB (sync_current m) = CURRENT_TCB m
  ∧ NEXT_TCB (sync_current m) = NEXT_TCB m.
Proof.
  intros Hm. unfold sync_current, sync_current_task_shadow. case_bool_decide; [done|].
  unfold percpu_set_current_task_ptr. split_and!; try done; [by apply set_current_cpu_ok|].
  unfold critical_nest. by rewrite current_cpu_set.
Qed.

Lemma set_next_nest (m : machine) (p : ptr) : machine_ok m →
  machine_ok (set_next_task_ptr m p) ∧ critical_nest (set_next_task_ptr m p) = critical_nest m.
Proof.
  intros Hm. split; [by apply set_current_cpu_ok|].
  change (critical_nest (percpu_set_next_task_ptr m p) = critical_nest m).
  unfold critical_nest, percpu_set_next_task_ptr. by rewrite current_cpu_set.
Qed.

Lemma disable_irq_spec (m : machine) : machine_ok m →
  machine_ok (disable_irq m) ∧ critical_nest (disable_irq m) = S (critical_nest m)
  ∧ irq_on (disable_irq m) = irq_on m && negb (critical_nest m =? 0)
  ∧ CURRENT_TCB (disable_irq m) = CURRENT_TCB m ∧ NEXT_TCB (disable_irq m) = NEXT_TCB m.
Proof.
  intros Hm. unfold disable_irq. destruct (critical_nest m =? 0); cbn.
  - split_and!; try done; [by apply (set_current_cpu_ok (set_irq m false))| |by rewrite andb_false_r].
    by apply (critical_nest_set (set_irq m false)).
  - split_and!; try done; [by apply set_current_cpu_ok|by apply critical_nest_set|by rewrite andb_true_r].
Qed.

Lemma enable_irq_spec (m : machine) : machine_ok m →
  machine_ok (enable_irq m) ∧ critical_nest (enable_irq m) = pred (critical_nest m)
  ∧ irq_on (enable_irq m)
    = (if (critical_nest m <=? 1) && bool_decide (CURRENT_TCB m ≠ None) then true else irq_on m)
  ∧ CURRENT_TCB (enable_irq m) = CURRENT_TCB m ∧ NEXT_TCB (enable_irq m) = NEXT_TCB m.
Proof.
  intros Hm. unfold enable_irq, exit_critical. destruct (critical_nest m) as [|n] eqn:Hn.
  - cbn [Nat.eqb]. unfold has_current_task. destruct (sync_current_nest m Hm) as (H1&H2&H3&H4&H5).
    case_bool_decide; (split_and!; [exact H1|exact (eq_trans H2 Hn)| |exact H4|exact H5]); [done|exact H3].
  - assert (Hs : machine_ok (set_critical_nest m n)) by (by apply set_current_cpu_ok).
    pose proof (critical_nest_set m n Hm) as Hc.
    destruct n as [|n]; cbn [Nat.eqb]; [|by split_and!].
    unfold has_current_task. destruct (sync_current_nest _ Hs) as (H1&H2&H3&H4&H5).
    change (CURRENT_TCB (set_critical_nest m 0)) with (CURRENT_TCB m) in *.
    case_bool_decide; (split_and!; [exact H1|exact (eq_trans H2 Hc)| |exact H4|exact H5]); [done|exact H3].
Qed.

(** The interrupts are masked inside every critical section. *)
Definition masked_inside (m : machine) : Prop := 0 < critical_nest m → irq_on m = false.
End lemmas.

(** ** Runs of one CPU over a mutex

    The state is the machine, one mutex, and the number of explicit
    [disable_irq] calls and traps not yet undone. *)
Section runs.
Context `{!SmpConfig} {T : Type}.

Inductive crit_step : machine * mutex T * nat → machine * mutex T * nat → Prop :=
  | st_lock m x k m' x' : lock m x = Done (m', x') → crit_step (m, x, k) (m', x', k)
  | st_try_lock m x k x' m' : try_lock m x = (Some x', m') → crit_step (m, x, k) (m', x', k)
  | st_try_fail m x k m' : try_lock m x = (None, m') → crit_step (m, x, k) (m', x, k)
  | st_unlock m x k : locked x = true → crit_step (m, x, k) (unlock m x, k)
  | st_disable m x k : crit_step (m, x, k) (disable_irq m, x, S k)
  | st_enable m x k : crit_step (m, x, S k) (enable_irq m, x, k)
  (* the hardware masks interrupts on a trap, the handler's first call is
     [enter_critical]; its last is [exit_critical], and [sret] unmasks *)
  | st_trap_enter m x k : irq_on m = true →
      crit_step (m, x, k) (snd (enter_critical (set_irq m false)), x, S k)
  | st_trap_exit m x : locked x = false →
      crit_step (m, x, 1) (set_irq (snd (exit_critical m)) true, x, 0)
  | st_set_next m x k p : crit_step (m, x, k) (set_next_task_ptr m p, x, k)
  | st_switch m x k : crit_step (m, x, k) (context_switch m, x, k).

Inductive crit_reach (v : T) : machine * mutex T * nat → Prop :=
  | cr_boot : crit_reach v (machine_boot, mutex_new v, 0)
  | cr_step s s' : crit_reach v s → crit_step s s' → crit_reach v s'.

Definition crit_inv (s : machine * mutex T * nat) : Prop :=
  let '(m, x, k) := s in
  machine_ok m ∧ critical_nest m = k + (if locked x then 1 else 0) ∧ masked_inside m.

Lemma crit_disable (m : machine) : machine_ok m → masked_inside m →
  machine_ok (disable_irq m) ∧ critical_nest (disable_irq m) = S (critical_nest m)
  ∧ irq_on (disable_irq m) = false.
Proof.
  intros Hm Hmask. destruct (disable_irq_spec m Hm) as (H1&H2&H3&_). split_and!; try done.
  rewrite H3. destruct (Nat.eqb_spec (critical_nest m) 0); [apply andb_false_r|].
  rewrite Hmask by lia. done.
Qed.

Lemma crit_enable (m : machine) (n : nat) : machine_ok m → masked_inside m → critical_nest m = S n →
  machine_ok (enable_irq m) ∧ critical_nest (enable_irq m) = n ∧ masked_inside (enable_irq m).
Proof.
  intros Hm Hmask Hn. destruct (enable_irq_spec m Hm) as (H1&H2&H3&_). rewrite Hn in H2, H3.
  split_and!; try done. unfold masked_inside. rewrite H2, H3. intros Hpos.
  rewrite (proj2 (Nat.leb_gt _ _)) by (cbn in *; lia). cbn. apply Hmask. lia.
Qed.

Lemma crit_inv_step s s' : crit_inv s → crit_step s s' → crit_inv s'.
Proof.
  intros Hi Hs. inversion Hs as [m x k m' x' Hl|m x k x' m' Hl|m x k m' Hl|m x k Hl|m x k|m x k|m x k Hon|m x Hl|m x k p|m x k];
    subst; destruct Hi as (Hm&Hn&Hmask).
  - unfold lock in Hl. destruct (locked x) eqn:Hx; [done|]. injection Hl as <- <-.
    destruct (crit_disable m Hm Hmask) as (H1&H2&H3). split_and!; [done|cbn; lia|by intros _].
  - unfold try_lock in Hl. destruct (locked x) eqn:Hx; [done|]. injection Hl as <- <-.
    destruct (crit_disable m Hm Hmask) as (H1&H2&H3). split_and!; [done|cbn; lia|by intros _].
  - unfold try_lock in Hl. destruct (locked x) eqn:Hx; [|done]. injection Hl as <-.
    destruct (crit_disable m Hm Hmask) as (H1&H2&H3).
    destruct (crit_enable (disable_irq m) (critical_nest m)) as (H4&H5&H6); [done|by intros _|done|].
    split_and!; [done|rewrite Hx; lia|done].
  - rewrite Hl in Hn. destruct (crit_enable m k Hm Hmask) as (H4&H5&H6); [lia|].
    split_and!; [done|cbn; lia|done].
  - destruct (crit_disable m Hm Hmask) as (H1&H2&H3). split_and!; [done|lia|by intros _].
  - destruct (crit_enable m (k + if locked x then 1 else 0) Hm Hmask) as (H4&H5&H6); [lia|].
    by split_and!.
  - unfold enter_critical. cbn [snd].
    assert (Hm' : machine_ok (set_irq m false)) by done.
    split_and!; [by apply set_current_cpu_ok| |by intros _].
    rewrite critical_nest_set by done. change (critical_nest (set_irq m false)) with (critical_nest m). lia.
  - rewrite Hl in Hn. unfold exit_critical. rewrite Hn. cbn [Nat.add snd].
    pose proof (critical_nest_set m 0 Hm) as Hc.
    split_and!; [by apply set_current_cpu_ok|rewrite Hl; exact Hc|].
    intros Hpos. change (0 < critical_nest (set_critical_nest m 0)) in Hpos. lia.
  - pose proof (set_next_nest m p Hm) as [H1 H2].
    split_and!; [done|lia|]. intros Hpos. apply Hmask. lia.
  - by split_and!.
Qed.

Lemma crit_reach_inv (v : T) s : crit_reach v s → crit_inv s.
Proof.
  induction 1 as [|s s' _ IH Hs]; [|by eapply crit_inv_step]. split_and!; [apply machine_boot_ok| |done].
  cbn. unfold critical_nest, current_cpu, cpu_data, machine_boot, PER_CPU. cbn [per_cpu].
  rewrite list_lookup_fmap. rewrite lookup_seq_lt by apply cpu_slot_lt. done.
Qed.
End runs.

(** ** Properties *)

(** Whenever interrupts are enabled the mutex is free, so an interrupt
    handler that takes it does not spin on a lock its own CPU holds, and it
    runs with interrupts masked until it releases it. *)
Theorem irq_lock_no_deadlock `{!SmpConfig} {T : Type} (v : T) (m : machine) (x : mutex T) (k : nat) :
  crit_reach v (m, x, k) → irq_on m = true →
  k = 0 ∧ ∃ m', lock m x = Done (m', mk_mutex true (value x)) ∧ irq_on m' = false.
Proof.
  intros Hr Hon. destruct (crit_reach_inv v _ Hr) as (Hm&Hn&Hmask).
  assert (H0 : critical_nest m = 0).
  { destruct (critical_nest m) eqn:E; [done|]. rewrite Hmask in Hon by lia. done. }
  destruct (locked x) eqn:Hx; [lia|]. split; [lia|].
  destruct (crit_disable m Hm Hmask) as (_&_&H3). exists (disable_irq m).
  unfold lock. by rewrite Hx.
Qed.

Section witness.
#[local] Existing Instance single_cpu.

(** Boot, the first task selected and switched to, one critical section. *)
Definition demo_machine : machine :=
  enable_irq (disable_irq (context_switch (set_next_task_ptr machine_boot (Some 0)))).

Lemma irq_lock_no_deadlock_witness :
  crit_reach 5 (demo_machine, mutex_new 5, 0) ∧ irq_on demo_machine = true
  ∧ ∃ m', lock demo_machine (mutex_new 5) = Done (m', mk_mutex true 5) ∧ irq_on m' = false.
Proof.
  assert (Hr : crit_reach 5 (demo_machine, mutex_new 5, 0)).
  { eapply cr_step; [|apply st_enable]. eapply cr_step; [|apply st_disable].
    eapply cr_step; [|apply st_switch]. eapply cr_step; [|apply st_set_next]. apply cr_boot. }
  split; [exact Hr|]. split; [reflexivity|].
  exact (proj2 (irq_lock_no_deadlock 5 demo_machine (mutex_new 5) 0 Hr eq_refl)).
Defined.
End witness.
