(* ===== verification/Sched.v ===== *)
(** * The scheduler, [kernel/src/sched/mod.rs]

    One ready queue per CPU, one sleep queue linked through [next], the
    context-switch symbols of the machine.  The functions that run under the
    scheduler's lock take the heap of control blocks, the [Scheduler] and the
    machine; the public functions take the whole [kernel] and do the masking
    and locking around them, and yield where the code yields.  A yield is the
    breakpoint trap of the RISC-V port ([arch/src/riscv/trap.rs], [trap.S]). *)

From S2P Require Export Prelude.
From S2P Require Export Slab.
From S2P Require Export Timer.
From S2P Require Export TaskStack.
From S2P Require Export Task.
From S2P Require Export ReadyQueue.
From S2P Require Export Critical.

Definition TASK_CAP : nat := OPENION_TASK_CAP.
Definition TASK_SNAPSHOT_CAP : nat := TASK_CAP.

Record CpuScheduler : Type := mk_cpu_sched {
  ready_queue : ReadyQueue;
  idle_task : option Z;
  preempt_pending : bool;
  context_switches : Z;
  preemptions : Z;
  steal_attempts : Z;
  steal_successes : Z;
}.

Definition cpu_sched_new : CpuScheduler := mk_cpu_sched rq_new None false 0 0 0 0.

Record Scheduler : Type := mk_scheduler {
  cpu_scheds : list CpuScheduler;
  task_id_counter : Z;
  sleep_queue : ptr;
}.

(** Field assignments. *)
Definition set_ready_queue (c : CpuScheduler) (rq : ReadyQueue) : CpuScheduler :=
  mk_cpu_sched rq (idle_task c) (preempt_pending c) (context_switches c) (preemptions c)
    (steal_attempts c) (steal_successes c).
Definition set_idle_task (c : CpuScheduler) (i : option Z) : CpuScheduler :=
  mk_cpu_sched (ready_queue c) i (preempt_pending c) (context_switches c) (preemptions c)
    (steal_attempts c) (steal_successes c).
Definition set_pending (c : CpuScheduler) (b : bool) : CpuScheduler :=
  mk_cpu_sched (ready_queue c) (idle_task c) b (context_switches c) (preemptions c)
    (steal_attempts c) (steal_successes c).
Definition count_switch (c : CpuScheduler) (preempted : bool) : CpuScheduler :=
  mk_cpu_sched (ready_queue c) (idle_task c) (preempt_pending c) (wrapping_add 64 (context_switches c) 1)
    (if preempted then wrapping_add 64 (preemptions c) 1 else preemptions c)
    (steal_attempts c) (steal_successes c).
Definition set_steals (c : CpuScheduler) (attempts successes : Z) : CpuScheduler :=
  mk_cpu_sched (ready_queue c) (idle_task c) (preempt_pending c) (context_switches c) (preemptions c)
    attempts successes.
Definition set_cpu_sched (s : Scheduler) (cpu : nat) (c : CpuScheduler) : Scheduler :=
  mk_scheduler (<[cpu := c]> (cpu_scheds s)) (task_id_counter s) (sleep_queue s).
Definition set_sleep_queue (s : Scheduler) (p : ptr) : Scheduler :=
  mk_scheduler (cpu_scheds s) (task_id_counter s) p.

Record TaskInfo : Type := mk_task_info {
  ti_id : Z; ti_name : string; ti_priority : nat; ti_state : TaskState;
  ti_stack_size : Z; ti_wakeup_tick : Z; ti_queued : bool; ti_current : bool;
}.

Record SchedulerStats : Type := mk_sched_stats {
  ss_ready_tasks : nat; ss_highest_ready_priority : nat; ss_current_task : option TaskInfo;
  ss_context_switches : Z; ss_preemptions : Z; ss_preempt_pending : bool; ss_current_cpu : nat;
  ss_active_cpu_mask : Z; ss_steal_attempts : Z; ss_steal_successes : Z;
}.

Definition task_info (task : TaskControlBlock) (current : bool) : TaskInfo :=
  mk_task_info (id task) (name task) (priority task) (state task) (stack_size task)
    (wakeup_tick task) (queued task) current.

Definition push_task_info (snapshot : list (option TaskInfo)) (count : nat) (info : TaskInfo)
    : list (option TaskInfo) * nat :=
  (if count <? length snapshot then <[count := Some info]> snapshot else snapshot, S count).

Section sched.
Context `{!SmpConfig}.

(** ** Which CPU *)

Definition active_cpu_mask : Z := (if active_mask =? 0 then 1 else active_mask)%Z.
Definition cpu_bit (cpu : nat) : option Z :=
  if cpu <? 64 then Some (Z.shiftl 1 (Z.of_nat cpu)) else None.
Definition is_cpu_active (cpu : nat) : bool :=
  match cpu_bit cpu with
  | Some bit => negb (Z.land active_cpu_mask bit =? 0)%Z
  | None => false
  end.
Definition current_scheduler_cpu_id : nat :=
  let current := this_cpu `mod` max_cpus in
  if is_cpu_active current then current else 0.

(** The shortest queue of the active CPUs from [i] on, [usize::MAX] as the
    initial best length. *)
Fixpoint shortest_queue (scheds : list CpuScheduler) (i best_cpu : nat) (best_len : option nat) : nat :=
  match scheds with
  | [] => best_cpu
  | c :: scheds =>
      if negb (is_cpu_active i) then shortest_queue scheds (S i) best_cpu best_len else
      let l := len (ready_queue c) in
      if match best_len with None => true | Some b => l <? b end
      then shortest_queue scheds (S i) i (Some l)
      else shortest_queue scheds (S i) best_cpu best_len
  end.

Definition select_cpu_for_task (s : Scheduler) (task : TaskControlBlock) : nat :=
  match affinity task with
  | Pin cpu =>
      let target := cpu `mod` max_cpus in
      if is_cpu_active target then target else current_scheduler_cpu_id
  | Any => shortest_queue (cpu_scheds s) 0 current_scheduler_cpu_id None
  end.

(** ** Preemption tests *)

(** Does a task of this priority preempt the current one? *)
Definition check_preempt_needed (h : heap) (m : machine) (prio : nat) : exec (bool * machine) :=
  let m := sync_current m in
  match CURRENT_TCB m with
  | None => Done (false, m)
  | Some current =>
      task ← get_exec (h !! current);
      Done (bool_decide (state task = Running) && (priority task <? prio), m)
  end.

Definition has_higher_ready_than_current (h : heap) (c : CpuScheduler) (m : machine) : exec (bool * machine) :=
  let m := sync_current m in
  match CURRENT_TCB m with
  | None => Done (false, m)
  | Some current =>
      if is_empty (ready_queue c) then Done (false, m) else
      task ← get_exec (h !! current);
      Done (bool_decide (state task = Running) && (priority task <? peek_highest_priority (ready_queue c)), m)
  end.

Definition can_preempt_now (m : machine) : bool * machine :=
  let '(has, m) := has_current_task m in (has && negb (in_critical_section m), m).

(** Queue a task that became ready on a CPU, and note whether it preempts. *)
Definition push_ready (h : heap) (s : Scheduler) (m : machine) (cpu_id task : nat)
    : exec (bool * heap * Scheduler * machine) :=
  c ← get_exec (cpu_scheds s !! cpu_id);
  '(pushed, h, rq) ← push h (ready_queue c) task;
  let c := set_ready_queue c rq in
  if pushed : bool then
    t ← get_exec (h !! task);
    '(b, m) ← check_preempt_needed h m (priority t);
    Done (true, h, set_cpu_sched s cpu_id (set_pending c b), m)
  else Done (false, h, set_cpu_sched s cpu_id c, m).

(** ** Picking the next task *)

(** The loop of [try_steal_task] over the remaining offsets. *)
Fixpoint steal_loop (h : heap) (s : Scheduler) (cpu_id : nat) (offsets : list nat)
    : exec (ptr * heap * Scheduler) :=
  match offsets with
  | [] => Done (None, h, s)
  | offset :: offsets =>
      let victim_id := (cpu_id + offset) `mod` max_cpus in
      if negb (is_cpu_active victim_id) then steal_loop h s cpu_id offsets else
      v ← get_exec (cpu_scheds s !! victim_id);
      if negb (1 <? len (ready_queue v)) then steal_loop h s cpu_id offsets else
      '(task_ptr, h, rq) ← pop_lowest_raw h (ready_queue v);
      let s := set_cpu_sched s victim_id (set_ready_queue v rq) in
      match task_ptr with
      | None => steal_loop h s cpu_id offsets
      | Some task =>
          t ← get_exec (h !! task);
          if can_run_on t cpu_id then
            c ← get_exec (cpu_scheds s !! cpu_id);
            n ← add_w 64 (steal_successes c) 1;
            Done (Some task, h, set_cpu_sched s cpu_id (set_steals c (steal_attempts c) n))
          else
            '(_, h, rq) ← push_raw h rq (Some task);
            steal_loop h (set_cpu_sched s victim_id (set_ready_queue v rq)) cpu_id offsets
      end
  end.

Definition try_steal_task (h : heap) (s : Scheduler) (cpu_id : nat) : exec (ptr * heap * Scheduler) :=
  c ← get_exec (cpu_scheds s !! cpu_id);
  n ← add_w 64 (steal_attempts c) 1;
  steal_loop h (set_cpu_sched s cpu_id (set_steals c n (steal_successes c))) cpu_id (seq 1 (max_cpus - 1)).

(** The priority of the current task when it is running. *)
Definition running_priority (h : heap) (current : ptr) : exec (option nat) :=
  match current with
  | None => Done None
  | Some p =>
      task ← get_exec (h !! p);
      Done (if bool_decide (state task = Running) then Some (priority task) else None)
  end.

(** The current task, if it runs, goes back to its queue; [false] when the
    queue refuses it. *)
Definition requeue_current (h : heap) (rq : ReadyQueue) (current : ptr) : exec (bool * heap * ReadyQueue) :=
  match current with
  | None => Done (true, h, rq)
  | Some p =>
      task ← get_exec (h !! p);
      if negb (bool_decide (state task = Running)) then Done (true, h, rq) else
      h ← upd h p (λ t, set_state t Ready);
      '(pushed, h, rq) ← push h rq p;
      if pushed : bool then Done (true, h, rq) else
      h ← upd h p (λ t, set_state t Running);
      Done (false, h, rq)
  end.

(** The end of [schedule_cpu_locked]: the chosen task becomes [NEXT_TCB]. *)
Definition dispatch_next (h : heap) (s : Scheduler) (m : machine) (cpu_id : nat) (current next : ptr)
    (crp : option nat) : exec (bool * heap * Scheduler * machine) :=
  match next with
  | None => Done (false, h, s, set_next_task_ptr m current)
  | Some n =>
      t ← get_exec (h !! n);
      h ← upd h n (λ t, set_cpu (set_state t Running) cpu_id);
      let m := set_next_task_ptr m (Some n) in
      if bool_decide (current = Some n) then Done (false, h, s, m) else
      c ← get_exec (cpu_scheds s !! cpu_id);
      let was_preempted := match crp with Some cp => cp <? priority t | None => false end in
      Done (true, h, set_cpu_sched s cpu_id (count_switch c was_preempted), m)
  end.

(** The local queue first, then the other CPUs'. *)
Definition pick_next (h : heap) (s : Scheduler) (m : machine) (cpu_id : nat) (c : CpuScheduler)
    (rq : ReadyQueue) (current : ptr) (crp : option nat) : exec (bool * heap * Scheduler * machine) :=
  '(next, h, rq) ← pop_highest h rq;
  let s := set_cpu_sched s cpu_id (set_ready_queue c rq) in
  '(next, h, s) ← match next with
                  | None => if 1 <? max_cpus then try_steal_task h s cpu_id else Done (None, h, s)
                  | Some n => Done (Some n, h, s)
                  end;
  dispatch_next h s m cpu_id current next crp.

Definition schedule_cpu_locked (h : heap) (s : Scheduler) (m : machine) (cpu_id : nat)
    : exec (bool * heap * Scheduler * machine) :=
  c ← get_exec (cpu_scheds s !! cpu_id);
  let c := set_pending c false in
  let m := sync_current m in
  let current := CURRENT_TCB m in
  crp ← running_priority h current;
  if match crp with
     | Some cp => is_empty (ready_queue c) || (peek_highest_priority (ready_queue c) <? cp)
     | None => false
     end
  then Done (false, h, set_cpu_sched s cpu_id c, set_next_task_ptr m current) else
  '(ok, h, rq) ← requeue_current h (ready_queue c) current;
  if negb ok then Done (false, h, set_cpu_sched s cpu_id (set_ready_queue c rq), set_next_task_ptr m current) else
  pick_next h s m cpu_id c rq current crp.

Definition schedule_locked (h : heap) (s : Scheduler) (m : machine) : exec (bool * heap * Scheduler * machine) :=
  schedule_cpu_locked h s m current_scheduler_cpu_id.

Definition schedule_if_preempt_pending_locked (h : heap) (s : Scheduler) (m : machine)
    : exec (bool * heap * Scheduler * machine) :=
  let cpu_id := current_scheduler_cpu_id in
  c ← get_exec (cpu_scheds s !! cpu_id);
  '(higher, m) ← (if preempt_pending c then has_higher_ready_than_current h c m else Done (false, m));
  if higher : bool then schedule_cpu_locked h s m cpu_id
  else Done (false, h, set_cpu_sched s cpu_id (set_pending c false), keep_current_task m).

(** ** Sleeping, blocking, waking, terminating *)

(** Unlink from the sleep queue the task between [prev] and [nxt]. *)
Definition unlink_sleeping (h : heap) (s : Scheduler) (prev nxt : ptr) : exec (heap * Scheduler) :=
  match prev with
  | None => Done (h, set_sleep_queue s nxt)
  | Some p => h ← upd h p (λ t, set_next t nxt); Done (h, s)
  end.

(** The loop of [tick_update]; [fuel] bounds the length of the sleep queue. *)
Fixpoint wake_loop (fuel : nat) (current_tick : Z) (h : heap) (s : Scheduler) (m : machine) (prev curr : ptr)
    : exec (heap * Scheduler * machine) :=
  match curr with
  | None => Done (h, s, m)
  | Some x =>
      match fuel with
      | O => Stuck
      | S fuel =>
          task ← get_exec (h !! x);
          let nxt := next task in
          if passed current_tick (wakeup_tick task) then
            '(h, s) ← unlink_sleeping h s prev nxt;
            h ← upd h x (λ t, set_next (set_state t Ready) None);
            '(pushed, h, s, m) ← push_ready h s m (select_cpu_for_task s task) x;
            '(h, s) ← (if pushed : bool then Done (h, s) else
                         h ← upd h x (λ t, set_next (set_wakeup (set_state t Sleeping) current_tick) (sleep_queue s));
                         Done (h, set_sleep_queue s (Some x)));
            wake_loop fuel current_tick h s m prev nxt
          else wake_loop fuel current_tick h s m (Some x) nxt
      end
  end.

Definition tick_update_locked (now : Z) (h : heap) (s : Scheduler) (m : machine)
    : exec (unit * heap * Scheduler * machine) :=
  '(h, s, m) ← wake_loop TASK_CAP now h s m None (sleep_queue s);
  Done (tt, h, s, m).

(** Put the current task to sleep until [wakeup]. *)
Definition delay_locked (wakeup : Z) (h : heap) (s : Scheduler) (m : machine)
    : exec (bool * heap * Scheduler * machine) :=
  let m := sync_current m in
  match CURRENT_TCB m with
  | None => Done (false, h, s, m)
  | Some current =>
      h ← upd h current (λ t, set_next (set_wakeup (set_state t Sleeping) wakeup) (sleep_queue s));
      Done (true, h, set_sleep_queue s (Some current), m)
  end.

Definition terminate_locked (h : heap) (s : Scheduler) (m : machine)
    : exec (bool * heap * Scheduler * machine) :=
  let m := sync_current m in
  match CURRENT_TCB m with
  | None => Done (false, h, s, m)
  | Some current =>
      h ← upd h current (λ t, set_next (set_state t Terminated) None);
      schedule_cpu_locked h s m current_scheduler_cpu_id
  end.

(** Only a running current task blocks. *)
Definition block_locked (h : heap) (s : option Scheduler) (m : machine)
    : exec (bool * heap * option Scheduler * machine) :=
  let m := sync_current m in
  match CURRENT_TCB m with
  | None => Done (false, h, s, m)
  | Some current =>
      task ← get_exec (h !! current);
      if bool_decide (state task = Running) then
        h ← upd h current (λ t, set_next (set_wakeup (set_state t Blocked) 0) None);
        Done (true, h, s, m)
      else Done (false, h, s, m)
  end.

Definition wake_locked (x : nat) (h : heap) (s : Scheduler) (m : machine)
    : exec (bool * heap * Scheduler * machine) :=
  task ← get_exec (h !! x);
  if bool_decide (state task = Blocked) then
    h ← upd h x (λ t, set_next (set_wakeup (set_state t Ready) 0) None);
    '(pushed, h, s, m) ← push_ready h s m (select_cpu_for_task s task) x;
    if pushed : bool then Done (true, h, s, m) else
    h ← upd h x (λ t, set_state t Blocked);
    Done (false, h, s, m)
  else Done (false, h, s, m).

Definition create_locked (x : nat) (prio target_cpu : nat) (h : heap) (s : Scheduler) (m : machine)
    : exec (Z * heap * Scheduler * machine) :=
  let new_id := task_id_counter s in
  let s := mk_scheduler (cpu_scheds s) (wrapping_add 32 new_id 1) (sleep_queue s) in
  h ← upd h x (λ t, set_id t new_id);
  '(pushed, h, s, m) ← push_ready h s m (target_cpu `mod` max_cpus) x;
  Done (if pushed : bool then new_id else U32_MAX, h, s, m).
End sched.

(** ** The kernel *)

(** The pool of control blocks ([data] is the heap), the scheduler behind its
    lock, the machine, the tick counter and the memory of the stacks. *)
Record kernel : Type := mk_kernel {
  TCB_POOL : SlabInner TaskControlBlock;
  SCHEDULER : mutex (option Scheduler);
  mach : machine;
  clock : timer;
  mem : memory;
}.

Definition tcbs (k : kernel) : heap := data (TCB_POOL k).
Definition with_mach (k : kernel) (m : machine) : kernel :=
  mk_kernel (TCB_POOL k) (SCHEDULER k) m (clock k) (mem k).
Definition with_heap (p : SlabInner TaskControlBlock) (h : heap) : SlabInner TaskControlBlock :=
  mk_slab h (next_free p) (free_head p) (free_count p).

Section kernel.
Context `{!SmpConfig}.
(** Where the pool lies, and the size of a control block. *)
Context (tcb_base tcb_step : Z).

Definition kernel_boot : kernel :=
  mk_kernel (slab_new TASK_CAP) (mutex_new None) machine_boot timer_boot ∅.

(** A block under the scheduler's lock. *)
Definition locked_section {A} (k : kernel)
    (f : heap → option Scheduler → machine → exec (A * heap * option Scheduler * machine)) : exec (A * kernel) :=
  '(m, x) ← lock (mach k) (SCHEDULER k);
  '(a, h, s, m) ← f (tcbs k) (value x) m;
  let '(m, x) := unlock m (mk_mutex true s) in
  Done (a, mk_kernel (with_heap (TCB_POOL k) h) x m (clock k) (mem k)).

(** The same between [disable_irq] and [enable_irq], on an initialised scheduler. *)
Definition with_sched {A} (k : kernel) (dflt : A)
    (f : heap → Scheduler → machine → exec (A * heap * Scheduler * machine)) : exec (A * kernel) :=
  '(a, k) ← locked_section (with_mach k (disable_irq (mach k))) (λ h s m,
    match s with
    | None => Done (dflt, h, None, m)
    | Some s => '(a, h, s, m) ← f h s m; Done (a, h, Some s, m)
    end);
  Done (a, with_mach k (enable_irq (mach k))).

Definition sched_init (k : kernel) : exec kernel :=
  '(_, k) ← locked_section k (λ h _ m,
    Done (tt, h, Some (mk_scheduler (replicate max_cpus cpu_sched_new) 0 None), m));
  Done k.

Definition tick_update (k : kernel) : exec kernel :=
  '(_, k) ← with_sched k tt (tick_update_locked (ticks (clock k))); Done k.

Definition schedule (k : kernel) : exec (bool * kernel) := with_sched k false schedule_locked.

Definition schedule_if_preempt_pending (k : kernel) : exec (bool * kernel) :=
  with_sched k false schedule_if_preempt_pending_locked.

Definition sched_preempt_pending (k : kernel) : exec (bool * kernel) :=
  locked_section k (λ h s m,
    match s with
    | None => Done (false, h, s, m)
    | Some s =>
        c ← get_exec (cpu_scheds s !! current_scheduler_cpu_id);
        '(b, m) ← (if preempt_pending c then has_higher_ready_than_current h c m else Done (false, m));
        Done (b, h, Some s, m)
    end).

(** ** Traps, [rust_trap_handler] and [trap_vector]

    The hardware masks interrupts and the handler enters a critical section;
    at the end the vector switches stacks when [CURRENT_TCB] and [NEXT_TCB]
    differ (a null one is dereferenced) and returns with the interrupt flag
    that the resumed task saved: a task is switched out with interrupts
    enabled, a new one starts with [SPIE] set. *)
Definition trap (k : kernel) (handler : kernel → exec kernel) : exec kernel :=
  let saved := irq_on (mach k) in
  k ← handler (with_mach k (snd (enter_critical (set_irq (mach k) false))));
  let m := snd (exit_critical (mach k)) in
  if bool_decide (CURRENT_TCB m = NEXT_TCB m) then Done (with_mach k (set_irq m saved)) else
  _ ← get_exec (CURRENT_TCB m);
  _ ← get_exec (NEXT_TCB m);
  Done (with_mach k (set_irq (context_switch m) true)).

Definition timer_trap (k : kernel) : exec kernel :=
  trap k (λ k,
    k ← tick_update (mk_kernel (TCB_POOL k) (SCHEDULER k) (mach k) (tick (clock k)) (mem k));
    '(_, k) ← schedule k; Done k).

Definition yield_trap (k : kernel) : exec kernel := trap k (λ k, '(_, k) ← schedule k; Done k).

Definition external_trap (k : kernel) (handler : kernel → exec kernel) : exec kernel :=
  trap k (λ k, k ← handler k; '(_, k) ← schedule_if_preempt_pending k; Done k).

(** [load_first_task_and_start]. *)
Definition start_first_task (k : kernel) : exec kernel :=
  _ ← get_exec (NEXT_TCB (mach k));
  Done (with_mach k (set_irq (context_switch (mach k)) true)).

(** ** The public operations that yield *)

(** The RISC-V port enters the scheduler from the breakpoint trap. *)
Definition yield_task (k : kernel) : exec kernel := yield_trap k.

Definition yield_if_preempt_pending (k : kernel) : exec kernel :=
  let '(now, m) := can_preempt_now (mach k) in
  let k := with_mach k m in
  if now : bool then
    '(b, k) ← sched_preempt_pending k;
    if b : bool then yield_task k else Done k
  else Done k.

Definition delay (k : kernel) (n : Z) : exec kernel :=
  '(blocked, k) ← with_sched k false (delay_locked (wrapping_add 32 (ticks (clock k)) n));
  if blocked : bool then yield_task k else Done k.

Definition terminate_current (k : kernel) : exec (bool * kernel) := with_sched k false terminate_locked.

Definition block_current_task_irq_disabled (k : kernel) : exec (bool * kernel) :=
  locked_section k block_locked.

Definition wake_blocked_task (k : kernel) (task : ptr) : exec (bool * kernel) :=
  match task with
  | None => Done (false, k)
  | Some x =>
      '(woke, k) ← with_sched k false (wake_locked x);
      if woke : bool then k ← yield_if_preempt_pending k; Done (true, k) else Done (false, k)
  end.

Definition create_task_on_cpu (k : kernel) (entry stack words : Z) (prio : nat) (name : string)
    (target_cpu : nat) : exec (Z * kernel) :=
  let prio := prio `min` MAX_PRIORITY in
  '(initial_sp, mem) ← init_task_stack (mem k) stack words entry;
  '(slot, pool) ← slab_alloc TASK_CAP (TCB_POOL k)
                    (tcb_new 0 entry initial_sp (words * REG_BYTES) prio name);
  x ← get_exec slot;
  '(id, k) ← with_sched (mk_kernel pool (SCHEDULER k) (mach k) (clock k) mem) U32_MAX
               (create_locked x prio target_cpu);
  if bool_decide (id ≠ U32_MAX) then k ← yield_if_preempt_pending k; Done (id, k) else
  pool ← slab_free TASK_CAP tcb_base tcb_step (TCB_POOL k) (slot_ptr tcb_base tcb_step x);
  Done (id, mk_kernel pool (SCHEDULER k) (mach k) (clock k) mem).

Definition create_task (k : kernel) (entry stack words : Z) (prio : nat) (name : string) : exec (Z * kernel) :=
  create_task_on_cpu k entry stack words prio name current_scheduler_cpu_id.

(** One idle task per CPU, all on the same stack, then the root task. *)
Fixpoint init_idle_tasks (k : kernel) (idle_entry idle_stack idle_words : Z) (cpus : list nat) : exec kernel :=
  match cpus with
  | [] => Done k
  | cpu :: cpus =>
      '(idle_id, k) ← create_task_on_cpu k idle_entry idle_stack idle_words 0 "IDLE" cpu;
      '(_, k) ← locked_section k (λ h s m,
        match s with
        | None => Done (tt, h, s, m)
        | Some s => c ← get_exec (cpu_scheds s !! cpu);
                    Done (tt, h, Some (set_cpu_sched s cpu (set_idle_task c (Some idle_id))), m)
        end);
      init_idle_tasks k idle_entry idle_stack idle_words cpus
  end.

Definition init_system_tasks (k : kernel) (idle_entry idle_stack idle_words root_entry root_stack root_words : Z)
    : exec kernel :=
  k ← init_idle_tasks k idle_entry idle_stack idle_words (seq 0 max_cpus);
  '(_, k) ← create_task k root_entry root_stack root_words 1 "ROOT";
  Done k.

(** ** Statistics *)

Definition current_task_info (h : heap) (m : machine) : exec (option TaskInfo * machine) :=
  let m := sync_current m in
  match CURRENT_TCB m with
  | None => Done (None, m)
  | Some p => t ← get_exec (h !! p); Done (Some (task_info t true), m)
  end.

Fixpoint sum_w64 (l : list Z) (acc : Z) : exec Z :=
  match l with [] => Done acc | x :: l => acc ← add_w 64 acc x; sum_w64 l acc end.

Definition stats (k : kernel) : exec (SchedulerStats * kernel) :=
  locked_section k (λ h s m,
    match s with
    | None => Done (mk_sched_stats 0 0 None 0 0 false 0 active_cpu_mask 0 0, h, s, m)
    | Some s =>
        c ← get_exec (cpu_scheds s !! current_scheduler_cpu_id);
        attempts ← sum_w64 (steal_attempts <$> cpu_scheds s) 0;
        successes ← sum_w64 (steal_successes <$> cpu_scheds s) 0;
        '(cur, m) ← current_task_info h m;
        let rq := ready_queue c in
        Done (mk_sched_stats (len rq) (if is_empty rq then 0 else peek_highest_priority rq) cur
                (context_switches c) (preemptions c) (preempt_pending c) current_scheduler_cpu_id
                active_cpu_mask attempts successes, h, Some s, m)
    end).

(** The control blocks of a list of tasks, appended to the snapshot. *)
Definition push_infos (h : heap) (l : list nat) (acc : list (option TaskInfo) * nat)
    : exec (list (option TaskInfo) * nat) :=
  foldl (λ acc x, '(snap, n) ← acc; t ← get_exec (h !! x); Done (push_task_info snap n (task_info t false)))
    (Done acc) l.

Fixpoint ready_infos (h : heap) (cs : list CpuScheduler) (acc : list (option TaskInfo) * nat)
    : exec (list (option TaskInfo) * nat) :=
  match cs with
  | [] => Done acc
  | c :: cs => l ← for_each h (ready_queue c); acc ← push_infos h l acc; ready_infos h cs acc
  end.

Definition task_snapshot (k : kernel) : exec ((list (option TaskInfo) * nat) * kernel) :=
  with_sched k (replicate TASK_SNAPSHOT_CAP None, 0) (λ h s m,
    '(cur, m) ← current_task_info h m;
    let acc := (replicate TASK_SNAPSHOT_CAP None, 0) in
    let acc := match cur with Some info => push_task_info acc.1 acc.2 info | None => acc end in
    acc ← ready_infos h (cpu_scheds s) acc;
    l ← walk TASK_CAP h (sleep_queue s);
    acc ← push_infos h l acc;
    Done (acc, h, s, m)).
End kernel.
