(* ===== verification/SchedInv.v ===== *)
(** * The scheduler's invariant

    [sched_wf ex h s qss sl]: the ready queues of the CPUs hold the tasks
    [qss], the sleep queue holds [sl], no task is in two of them, a task is
    ready exactly when it is in a ready queue and sleeping exactly when it is
    in the sleep queue, and every other task is unlinked.  [ex] is a task in
    hand, exempt from the last clauses while an operation moves it.  Each
    lemma is one such move. *)

From S2P Require Export Prelude.
From S2P Require Export Sched.

Definition ready_of (qss : list (list (list nat))) : list nat := concat (@concat nat <$> qss).

Section inv.
Context `{!SmpConfig}.

Record sched_wf (ex : ptr) (h : heap) (s : Scheduler) (qss : list (list (list nat))) (sl : list nat) : Prop := {
sw_len : length (cpu_scheds s) = max_cpus;
sw_qlen : length qss = max_cpus;
sw_rq : ∀ c cs qs, cpu_scheds s !! c = Some cs → qss !! c = Some qs → rq_repr h (ready_queue cs) qs;
sw_sleep : chain h (sleep_queue s) sl;
sw_nodup : NoDup (ready_of qss ++ sl);
sw_sleeping : ∀ x, x ∈ sl → ∃ t, h !! x = Some t ∧ state t = Sleeping;
sw_ex : ∀ x, ex = Some x → x ∉ ready_of qss ++ sl;
sw_prio : ∀ x t, h !! x = Some t → priority t < MAX_PRIORITIES;
sw_ready : ∀ x t, h !! x = Some t → ex ≠ Some x → state t = Ready → x ∈ ready_of qss;
sw_slept : ∀ x t, h !! x = Some t → ex ≠ Some x → state t = Sleeping → x ∈ sl;
sw_unqueued : ∀ x t, h !! x = Some t → ex ≠ Some x → x ∉ ready_of qss → queued t = false;
sw_unlinked : ∀ x t, h !! x = Some t → ex ≠ Some x → x ∉ ready_of qss ++ sl → next t = None;
sw_cap : size h ≤ MAX_TASKS;
}.

(** ** Queues of queues *)

Lemma ready_of_insert (qss : list (list (list nat))) (c : nat) (qs : list (list nat)) : qss !! c = Some qs →
∃ rest, ready_of qss ≡ₚ concat qs ++ rest ∧ ∀ qs', ready_of (<[c := qs']> qss) ≡ₚ concat qs' ++ rest.
Proof.
intros Hc. unfold ready_of.
destruct (concat_insert_perm (@concat nat <$> qss) c (concat qs)) as (rest&H1&H2).
{ by rewrite list_lookup_fmap, Hc. }
exists rest. split; [done|]. intros qs'. by rewrite list_fmap_insert, H2.
Qed.

Lemma elem_of_ready (qss : list (list (list nat))) (x : nat) :
x ∈ ready_of qss ↔ ∃ c qs, qss !! c = Some qs ∧ x ∈ concat qs.
Proof.
unfold ready_of. rewrite elem_of_concat. split.
- intros (c&l&Hl&Hx). rewrite list_lookup_fmap, fmap_Some in Hl. destruct Hl as (qs&Hq&->). eauto.
- intros (c&qs&Hq&Hx). exists c, (concat qs). by rewrite list_lookup_fmap, Hq.
Qed.

(** Lists of distinct tasks of the heap are no longer than the heap is large. *)
Lemma tasks_length (h : heap) (l : list nat) : NoDup l → (∀ x, x ∈ l → is_Some (h !! x)) → length l ≤ size h.
Proof.
intros Hnd Hl. rewrite <- (size_list_to_set (C := gset nat)) by done.
rewrite <- (size_dom (D := gset nat)). apply subseteq_size.
intros x Hx%elem_of_list_to_set. by apply elem_of_dom, Hl.
Qed.

(** ** Consequences of the invariant *)

Section facts.
Context (ex : ptr) (h : heap) (s : Scheduler) (qss : list (list (list nat))) (sl : list nat).
Hypothesis Hwf : sched_wf ex h s qss sl.

Lemma wf_lookup (c : nat) : c < max_cpus →
  ∃ cs qs, cpu_scheds s !! c = Some cs ∧ qss !! c = Some qs ∧ rq_repr h (ready_queue cs) qs.
Proof.
  intros Hc. destruct (lookup_lt_is_Some_2 (cpu_scheds s) c) as [cs Hcs]; [by rewrite (sw_len _ _ _ _ _ Hwf)|].
  destruct (lookup_lt_is_Some_2 qss c) as [qs Hqs]; [by rewrite (sw_qlen _ _ _ _ _ Hwf)|].
  exists cs, qs. split_and!; [done|done|]. by eapply sw_rq.
Qed.

Lemma wf_cpu (c : nat) (qs : list (list nat)) : qss !! c = Some qs →
  ∃ cs, cpu_scheds s !! c = Some cs ∧ rq_repr h (ready_queue cs) qs.
Proof.
  intros Hc. assert (Hlt : c < max_cpus) by (rewrite <- (sw_qlen _ _ _ _ _ Hwf); by eapply lookup_lt_Some).
  destruct (wf_lookup c Hlt) as (cs&qs'&Hcs&Hqs&Hr). exists cs. split; congruence.
Qed.

Lemma wf_ready_state (x : nat) : x ∈ ready_of qss →
  ∃ t, h !! x = Some t ∧ state t = Ready ∧ queued t = true.
Proof.
  intros (c&qs&Hc&Hx)%elem_of_ready. destruct (wf_cpu c qs Hc) as (cs&_&Hr).
  apply elem_of_concat in Hx as (p&l&Hl&Hx).
  destruct (rr_task _ _ _ Hr p l x Hl Hx) as (t&?&?&?&?). by exists t.
Qed.

Lemma wf_listed (x : nat) : x ∈ ready_of qss ++ sl → ∃ t, h !! x = Some t ∧ (state t = Ready ∨ state t = Sleeping).
Proof.
  intros [Hx|Hx]%elem_of_app.
  - destruct (wf_ready_state x Hx) as (t&?&?&_). eauto.
  - destruct (sw_sleeping _ _ _ _ _ Hwf x Hx) as (t&?&?). eauto.
Qed.

Lemma wf_unlisted (x : nat) (t : TaskControlBlock) :
  h !! x = Some t → state t ≠ Ready → state t ≠ Sleeping → x ∉ ready_of qss ++ sl.
Proof. intros Hx Hr Hs Hin. destruct (wf_listed x Hin) as (t'&Ht'&[|]); congruence. Qed.

(** A queue has room for the task in hand. *)
Lemma wf_room (c x : nat) (cs : CpuScheduler) (qs : list (list nat)) :
  ex = Some x → is_Some (h !! x) → qss !! c = Some qs → rq_repr h (ready_queue cs) qs →
  task_count (ready_queue cs) < MAX_TASKS.
Proof.
  intros He Hx Hc Hr. rewrite (rr_count _ _ _ Hr).
  destruct (ready_of_insert qss c qs Hc) as (rest&Hp&_).
  pose proof (sw_cap _ _ _ _ _ Hwf) as Hcap. pose proof (sw_ex _ _ _ _ _ Hwf x He) as Hxn.
  assert (Hle : length (x :: concat qs) ≤ size h); [|cbn in Hle; lia].
  apply tasks_length.
  - apply NoDup_cons. split.
    + intros Hin. apply Hxn, elem_of_app. left. rewrite Hp. apply elem_of_app. by left.
    + pose proof (sw_nodup _ _ _ _ _ Hwf) as Hnd. apply NoDup_app in Hnd as (Hnd&_).
      rewrite Hp in Hnd. by apply NoDup_app in Hnd as (?&_).
  - intros y [->|Hy]%elem_of_cons; [done|].
    destruct (wf_ready_state y) as (t&Ht&_); [apply elem_of_ready; eauto|by eexists].
Qed.
End facts.

(** ** Moves *)

(** The invariant does not look at the counters and flags of a CPU. *)
Lemma wf_state (ex : ptr) (h : heap) (s s' : Scheduler) (qss : list (list (list nat))) (sl : list nat) :
ready_queue <$> cpu_scheds s' = ready_queue <$> cpu_scheds s → sleep_queue s' = sleep_queue s →
sched_wf ex h s qss sl → sched_wf ex h s' qss sl.
Proof.
intros Hrq Hsl Hwf. destruct Hwf. split; try done.
- rewrite <- (length_fmap ready_queue), Hrq, length_fmap. done.
- intros c cs qs Hcs Hqs. assert (Hc : (ready_queue <$> cpu_scheds s) !! c = Some (ready_queue cs)).
  { by rewrite <- Hrq, list_lookup_fmap, Hcs. }
  rewrite list_lookup_fmap, fmap_Some in Hc. destruct Hc as (cs'&Hcs'&->). eauto.
- by rewrite Hsl.
Qed.

Lemma wf_cpu_state (ex : ptr) (h : heap) (s : Scheduler) (qss : list (list (list nat))) (sl : list nat)
  (c : nat) (cs cs' : CpuScheduler) :
cpu_scheds s !! c = Some cs → ready_queue cs' = ready_queue cs →
sched_wf ex h s qss sl → sched_wf ex h (set_cpu_sched s c cs') qss sl.
Proof.
intros Hc Hrq. apply wf_state; [|done]. cbn. rewrite list_fmap_insert, Hrq.
apply list_insert_id. by rewrite list_lookup_fmap, Hc.
Qed.

(** An operation on the queue of CPU [c] leaves the other queues alone. *)
Lemma wf_others (ex : ptr) (h h' : heap) (s : Scheduler) (qss : list (list (list nat))) (sl : list nat)
  (c : nat) (cs' : CpuScheduler) (qs qs' : list (list nat)) :
sched_wf ex h s qss sl → qss !! c = Some qs → rq_repr h' (ready_queue cs') qs' →
(∀ y, y ∉ concat qs → ex ≠ Some y → h' !! y = h !! y) →
(∀ i ci qi, cpu_scheds (set_cpu_sched s c cs') !! i = Some ci → <[c := qs']> qss !! i = Some qi →
   rq_repr h' (ready_queue ci) qi).
Proof.
intros Hwf Hc Hr' Hfr i ci qi Hci Hqi.
assert (Hlt : c < length qss) by (by eapply lookup_lt_Some). cbn in Hci.
destruct (decide (c = i)) as [<-|Hne].
{ rewrite list_lookup_insert_eq in Hci by (rewrite (sw_len _ _ _ _ _ Hwf), <- (sw_qlen _ _ _ _ _ Hwf); done).
  rewrite list_lookup_insert_eq in Hqi by done. by simplify_eq. }
rewrite list_lookup_insert_ne in Hci by done. rewrite list_lookup_insert_ne in Hqi by done.
apply (rq_repr_ext h); [|by eapply sw_rq]. intros y Hy. apply Hfr.
- intros Hyc. apply Hne. pose proof (sw_nodup _ _ _ _ _ Hwf) as Hnd. apply NoDup_app in Hnd as (Hnd&_).
  eapply (concat_disjoint (@concat nat <$> qss) c i); [done|by rewrite list_lookup_fmap, Hc|
    by rewrite list_lookup_fmap, Hqi|done|done].
- intros He. apply (sw_ex _ _ _ _ _ Hwf y He), elem_of_app. left. apply elem_of_ready. eauto.
Qed.

Lemma wf_sleep_ext (ex : ptr) (h h' : heap) (s : Scheduler) (qss : list (list (list nat))) (sl : list nat)
  (qs : list (list nat)) (c : nat) :
sched_wf ex h s qss sl → qss !! c = Some qs →
(∀ y, y ∉ concat qs → ex ≠ Some y → h' !! y = h !! y) →
(∀ y, y ∈ sl → h' !! y = h !! y).
Proof.
intros Hwf Hc Hfr y Hy. apply Hfr.
- intros Hyq. pose proof (sw_nodup _ _ _ _ _ Hwf) as Hnd. apply NoDup_app in Hnd as (_&Hd&_).
  apply (Hd y); [|done]. apply elem_of_ready. eauto.
- intros He. apply (sw_ex _ _ _ _ _ Hwf y He), elem_of_app. by right.
Qed.

(** The task in hand goes to the back of the queue of its priority on CPU [c]. *)
Lemma wf_push (h : heap) (s : Scheduler) (qss : list (list (list nat))) (sl : list nat)
  (c x : nat) (t : TaskControlBlock) (cs : CpuScheduler) (qs : list (list nat)) :
sched_wf (Some x) h s qss sl → h !! x = Some t → state t = Ready → queued t = false → next t = None →
cpu_scheds s !! c = Some cs → qss !! c = Some qs →
∃ h' rq' l, push h (ready_queue cs) x = Done (true, h', rq') ∧ qs !! priority t = Some l
  ∧ (∀ cs', ready_queue cs' = rq' →
       sched_wf None h' (set_cpu_sched s c cs') (<[c := <[priority t := l ++ [x]]> qs]> qss) sl)
  ∧ rq_repr h' rq' (<[priority t := l ++ [x]]> qs)
  ∧ h' !! x = Some (set_queued t true)
  ∧ ∀ y, y ≠ x → same_but_next (h !! y) (h' !! y).
Proof.
intros Hwf Hx Hs Hq Hn Hcs Hqs.
pose proof (sw_rq _ _ _ _ _ Hwf c cs qs Hcs Hqs) as Hr.
pose proof (wf_room _ _ _ _ _ Hwf c x cs qs eq_refl (mk_is_Some _ _ Hx) Hqs Hr) as Hroom.
pose proof (sw_prio _ _ _ _ _ Hwf x t Hx) as Hpr.
assert (Hp : pushable (ready_queue cs) t = true).
{ unfold pushable. rewrite Hq, Hs, Hn. rewrite !bool_decide_true by done.
  by rewrite (proj2 (Nat.ltb_lt _ _) Hroom), (proj2 (Nat.ltb_lt _ _) Hpr). }
destruct (push_spec h (ready_queue cs) qs x t Hr Hx Hp) as (h'&rq'&l&Hpush&Hl&Hr'&Hx'&Hfr&Hsn&_).
exists h', rq', l. split_and!; try done. intros cs' Hcs'.
destruct (ready_of_insert qss c qs Hqs) as (rest&Hp1&Hp2).
destruct (concat_insert_perm qs (priority t) l Hl) as (rl&Hp3&Hp4).
assert (Hperm : ready_of (<[c := <[priority t := l ++ [x]]> qs]> qss) ≡ₚ x :: ready_of qss).
{ rewrite Hp2, Hp1, Hp4, Hp3. rewrite <- !app_assoc. cbn. by rewrite <- Permutation_middle. }
assert (Hfr' : ∀ y, y ∉ concat qs → Some x ≠ Some y → h' !! y = h !! y).
{ intros y Hy Hne. apply Hfr; [done|congruence]. }
assert (Hle : ∀ y t', h' !! y = Some t' → y ≠ x → ∃ t0 n, h !! y = Some t0 ∧ t' = set_next t0 n).
{ intros y t' Hy Hne. pose proof (Hsn y Hne) as Hb. unfold same_but_next in Hb.
  destruct (h !! y) as [t0|] eqn:E; [|by rewrite Hy in Hb].
  destruct (same_but_next_Some _ _ t0 (Hsn y Hne) E) as [n Hn']. exists t0, n. split; congruence. }
split.
- cbn. rewrite length_insert. apply Hwf.
- rewrite length_insert. apply Hwf.
- eapply wf_others; try done. by rewrite Hcs'.
- eapply chain_ext; [|apply Hwf]. intros y ty Hy Hl'. exists ty.
  by rewrite (wf_sleep_ext _ _ _ _ _ _ _ _ Hwf Hqs Hfr' y Hy).
- rewrite Hperm. cbn. apply NoDup_cons. split; [by apply (sw_ex _ _ _ _ _ Hwf)|apply Hwf].
- intros y Hy. rewrite (wf_sleep_ext _ _ _ _ _ _ _ _ Hwf Hqs Hfr' y Hy). by apply Hwf.
- done.
- intros y t' Hy. destruct (decide (y = x)) as [->|Hne]; [by simplify_map_eq|].
  destruct (Hle y t' Hy Hne) as (t0&n&Hy0&->). exact (sw_prio _ _ _ _ _ Hwf y t0 Hy0).
- intros y t' Hy _ Hst. rewrite Hperm. destruct (decide (y = x)) as [->|Hne]; [by left|].
  destruct (Hle y t' Hy Hne) as (t0&n&Hy0&->). right. apply (sw_ready _ _ _ _ _ Hwf y t0); [done|congruence|done].
- intros y t' Hy _ Hst. destruct (decide (y = x)) as [->|Hne]; [simplify_map_eq; cbn in Hst; congruence|].
  destruct (Hle y t' Hy Hne) as (t0&n&Hy0&->). apply (sw_slept _ _ _ _ _ Hwf y t0); [done|congruence|done].
- intros y t' Hy _ Hin. rewrite Hperm in Hin. apply not_elem_of_cons in Hin as [Hne Hin].
  destruct (Hle y t' Hy Hne) as (t0&n&Hy0&->). apply (sw_unqueued _ _ _ _ _ Hwf y t0); [done|congruence|done].
- intros y t' Hy _ Hin. rewrite Hperm in Hin. cbn in Hin. apply not_elem_of_cons in Hin as [Hne Hin].
  assert (Hyq : y ∉ concat qs).
  { intros Hyq. apply Hin, elem_of_app. left. apply elem_of_ready. eauto. }
  rewrite Hfr' in Hy by congruence. apply (sw_unlinked _ _ _ _ _ Hwf y t'); [done|congruence|done].
- erewrite <- size_dom. replace (dom h') with (dom h); [rewrite size_dom; apply Hwf|].
  apply set_eq. intros y. rewrite !elem_of_dom. destruct (decide (y = x)) as [->|Hne].
  + rewrite Hx, Hx'. split; by eexists.
  + pose proof (Hsn y Hne) as Hb. unfold same_but_next in Hb.
    destruct (h !! y), (h' !! y); try done; split; by eexists || intros [? ?].
Qed.

(** The first task of a queue of CPU [c] is taken in hand. *)
Lemma wf_pop (h : heap) (s : Scheduler) (qss : list (list (list nat))) (sl : list nat)
  (c p x : nat) (t : TaskControlBlock) (cs' : CpuScheduler) (qs : list (list nat)) (l : list nat) :
sched_wf None h s qss sl → h !! x = Some t → qss !! c = Some qs → qs !! p = Some (x :: l) →
rq_repr (popped h x t) (ready_queue cs') (<[p := l]> qs) →
sched_wf (Some x) (popped h x t) (set_cpu_sched s c cs') (<[c := <[p := l]> qs]> qss) sl
∧ ready_of qss ≡ₚ x :: ready_of (<[c := <[p := l]> qs]> qss).
Proof.
intros Hwf Hx Hqs Hl Hr'.
destruct (ready_of_insert qss c qs Hqs) as (rest&Hp1&Hp2).
destruct (concat_insert_perm qs p _ Hl) as (rl&Hp3&Hp4).
assert (Hperm : ready_of qss ≡ₚ x :: ready_of (<[c := <[p := l]> qs]> qss)).
{ rewrite Hp2, Hp1, Hp4, Hp3. done. }
split; [|done].
assert (Hxq : x ∈ concat qs) by (rewrite Hp3; by left).
assert (Hfr : ∀ y, y ≠ x → popped h x t !! y = h !! y).
{ intros y Hy. by apply lookup_insert_ne. }
assert (Hx' : popped h x t !! x = Some (set_queued (set_next t None) false)) by apply lookup_insert_eq.
pose proof (sw_nodup _ _ _ _ _ Hwf) as Hnd. rewrite Hperm in Hnd. cbn in Hnd.
apply NoDup_cons in Hnd as [Hxn Hnd].
assert (Hxs : ∀ y, y ∈ sl → y ≠ x) by (intros y Hy ->; apply Hxn, elem_of_app; by right).
split.
- cbn. rewrite length_insert. apply Hwf.
- rewrite length_insert. apply Hwf.
- eapply wf_others; try done. intros y Hy _. apply Hfr. by intros ->.
- eapply chain_ext; [|apply Hwf]. intros y ty Hy Hl'. exists ty. by rewrite Hfr by auto.
- done.
- intros y Hy. rewrite Hfr by auto. by apply Hwf.
- by intros y [= <-].
- intros y t' Hy. destruct (decide (y = x)) as [->|Hne].
  + simplify_map_eq. exact (sw_prio _ _ _ _ _ Hwf x t Hx).
  + rewrite Hfr in Hy by done. by eapply (sw_prio _ _ _ _ _ Hwf y).
- intros y t' Hy Hne Hst. rewrite Hfr in Hy by congruence.
  pose proof (sw_ready _ _ _ _ _ Hwf y t' Hy ltac:(done) Hst) as Hin. rewrite Hperm in Hin.
  apply elem_of_cons in Hin as [->|Hin]; [done|exact Hin].
- intros y t' Hy Hne Hst. rewrite Hfr in Hy by congruence. by eapply (sw_slept _ _ _ _ _ Hwf y).
- intros y t' Hy Hne Hin. rewrite Hfr in Hy by congruence.
  apply (sw_unqueued _ _ _ _ _ Hwf y t'); [done..|]. rewrite Hperm.
  intros [->|?]%elem_of_cons; [by apply Hne|by apply Hin].
- intros y t' Hy Hne Hin. rewrite Hfr in Hy by congruence.
  apply (sw_unlinked _ _ _ _ _ Hwf y t'); [done..|]. rewrite Hperm. cbn.
  intros [->|?]%elem_of_cons; [by apply Hne|by apply Hin].
- unfold popped. rewrite map_size_insert, Hx. apply Hwf.
Qed.

(** The task in hand may be changed at will. *)
Lemma wf_write (h : heap) (s : Scheduler) (qss : list (list (list nat))) (sl : list nat)
  (x : nat) (t t' : TaskControlBlock) :
sched_wf (Some x) h s qss sl → h !! x = Some t → priority t' < MAX_PRIORITIES →
sched_wf (Some x) (<[x := t']> h) s qss sl.
Proof.
intros Hwf Hx Hpr. pose proof (sw_ex _ _ _ _ _ Hwf x eq_refl) as Hxn.
apply not_elem_of_app in Hxn as [Hxr Hxs].
assert (Hfr : ∀ y, y ≠ x → <[x := t']> h !! y = h !! y) by (intros y Hy; by apply lookup_insert_ne).
split; try apply Hwf.
- intros c cs qs Hcs Hqs. apply (rq_repr_ext h); [|by eapply sw_rq]. intros y Hy. apply Hfr.
  intros ->. apply Hxr, elem_of_ready. eauto.
- apply chain_insert; [done|apply Hwf].
- intros y Hy. rewrite Hfr by (by intros ->). by apply Hwf.
- intros y ty Hy. destruct (decide (y = x)) as [->|Hne]; [by simplify_map_eq|].
  rewrite Hfr in Hy by done. by eapply (sw_prio _ _ _ _ _ Hwf y).
- intros y ty Hy Hne. rewrite Hfr in Hy by congruence. by apply (sw_ready _ _ _ _ _ Hwf y).
- intros y ty Hy Hne. rewrite Hfr in Hy by congruence. by apply (sw_slept _ _ _ _ _ Hwf y).
- intros y ty Hy Hne. rewrite Hfr in Hy by congruence. by apply (sw_unqueued _ _ _ _ _ Hwf y).
- intros y ty Hy Hne. rewrite Hfr in Hy by congruence. by apply (sw_unlinked _ _ _ _ _ Hwf y).
- rewrite map_size_insert, Hx. apply Hwf.
Qed.

(** Taking in hand a task that is in no queue. *)
Lemma wf_open (h : heap) (s : Scheduler) (qss : list (list (list nat))) (sl : list nat) (x : nat) :
sched_wf None h s qss sl → x ∉ ready_of qss ++ sl → sched_wf (Some x) h s qss sl.
Proof. intros [] Hx. split; eauto. by intros y [= <-]. Qed.

(** Releasing a task that is neither ready nor sleeping. *)
Lemma wf_close (h : heap) (s : Scheduler) (qss : list (list (list nat))) (sl : list nat)
  (x : nat) (t : TaskControlBlock) :
sched_wf (Some x) h s qss sl → h !! x = Some t → state t ≠ Ready → state t ≠ Sleeping →
queued t = false → next t = None → sched_wf None h s qss sl.
Proof.
intros Hwf Hx Hr Hs Hq Hn. pose proof Hwf as [].
split; try done; intros y ty Hy _; destruct (decide (y = x)) as [->|Hne]; try (intros; congruence);
  [apply (sw_ready _ _ _ _ _ Hwf)|apply (sw_slept _ _ _ _ _ Hwf)
  |apply (sw_unqueued _ _ _ _ _ Hwf)|apply (sw_unlinked _ _ _ _ _ Hwf)]; congruence.
Qed.

(** The task in hand is put at the head of the sleep queue. *)
Lemma wf_sleep (h : heap) (s : Scheduler) (qss : list (list (list nat))) (sl : list nat)
  (x : nat) (t : TaskControlBlock) :
sched_wf (Some x) h s qss sl → h !! x = Some t → state t = Sleeping → queued t = false →
next t = sleep_queue s → sched_wf None h (set_sleep_queue s (Some x)) qss (x :: sl).
Proof.
intros Hwf Hx Hs Hq Hn. pose proof Hwf as [].
pose proof (sw_ex _ _ _ _ _ Hwf x eq_refl) as Hxn. apply not_elem_of_app in Hxn as [Hxr Hxs].
split; try done.
- cbn. split; [done|]. exists t. split; [done|]. by rewrite Hn.
- rewrite <- Permutation_middle. apply NoDup_cons. split; [by apply (sw_ex _ _ _ _ _ Hwf)|done].
- intros y [->|Hy]%elem_of_cons; [by exists t|]. by apply Hwf.
- intros y ty Hy _ Hst. destruct (decide (y = x)) as [->|Hne]; [congruence|].
  apply (sw_ready _ _ _ _ _ Hwf y ty); congruence.
- intros y ty Hy _ Hst. destruct (decide (y = x)) as [->|Hne]; [by left|]. right.
  apply (sw_slept _ _ _ _ _ Hwf y ty); congruence.
- intros y ty Hy _ Hin. destruct (decide (y = x)) as [->|Hne]; [congruence|].
  apply (sw_unqueued _ _ _ _ _ Hwf y ty); congruence.
- intros y ty Hy _ Hin. rewrite <- Permutation_middle in Hin. apply not_elem_of_cons in Hin as [Hne Hin].
  apply (sw_unlinked _ _ _ _ _ Hwf y ty); congruence.
Qed.

(** A sleeping task is taken out of the sleep queue and in hand. *)
Lemma wf_unsleep (h : heap) (s : Scheduler) (qss : list (list (list nat))) (l1 l2 : list nat)
  (x : nat) (t : TaskControlBlock) :
sched_wf None h s qss (l1 ++ x :: l2) → h !! x = Some t →
∃ h1 s1, unlink_sleeping h s (last l1) (next t) = Done (h1, s1)
  ∧ sched_wf (Some x) h1 s1 qss (l1 ++ l2) ∧ h1 !! x = Some t ∧ cpu_scheds s1 = cpu_scheds s
  ∧ same_cores h h1 ∧ ∀ y, same_but_next (h !! y) (h1 !! y).
Proof.
intros Hwf Hx. pose proof (sw_sleep _ _ _ _ _ Hwf) as Hch.
pose proof (sw_nodup _ _ _ _ _ Hwf) as Hnd.
assert (Hnd' : NoDup (x :: ready_of qss ++ l1 ++ l2)).
{ rewrite Permutation_middle, Permutation_middle. done. }
apply NoDup_cons in Hnd' as [Hxn Hnd'].
assert (Hxn' : (x ∉ ready_of qss) ∧ (x ∉ l1) ∧ x ∉ l2).
{ rewrite !elem_of_app in Hxn. tauto. }
destruct Hxn' as (Hxr&Hx1&Hx2).
assert (Hin : ∀ y, (y ∈ (l1 ++ x :: l2)) ↔ (y = x) ∨ (y ∈ l1 ++ l2)).
{ intros y. rewrite !elem_of_app, elem_of_cons. tauto. }
pose proof Hwf as [].
destruct l1 as [|p l1 _] using rev_ind.
{ exists h, (set_sleep_queue s (next t)). split; [done|]. split; [|done].
  split; try done; cbn in *.
  - destruct Hch as [_ (t'&Hx'&Hc)]. by simplify_map_eq.
  - intros y Hy. apply Hwf. by right.
  - by intros y [= <-].
  - intros y ty Hy Hne. by apply (sw_ready _ _ _ _ _ Hwf y).
  - intros y ty Hy Hne Hst. pose proof (sw_slept _ _ _ _ _ Hwf y ty Hy ltac:(done) Hst) as Hs.
    apply elem_of_cons in Hs as [->|?]; [by destruct Hne|done].
  - intros y ty Hy Hne. by apply (sw_unqueued _ _ _ _ _ Hwf y).
  - intros y ty Hy Hne Hyn. apply (sw_unlinked _ _ _ _ _ Hwf y ty Hy); [done|].
    rewrite elem_of_app, elem_of_cons. rewrite elem_of_app in Hyn. intros [?|[->|?]]; [tauto|done|tauto]. }
rewrite last_snoc. destruct (sw_sleeping0 p) as (tp&Hp&Hsp).
{ apply elem_of_app. left. apply elem_of_app. right. by left. }
assert (Hpx : p ≠ x) by (intros ->; apply Hx1, elem_of_app; right; by left).
assert (Hps : p ∈ l1 ++ [p]) by (apply elem_of_app; right; by left).
exists (<[p := set_next tp (next t)]> h), s. unfold unlink_sleeping. rewrite (upd_Done _ _ _ _ Hp).
split; [done|]. split; [|split_and!].
- assert (Hfr : ∀ y, y ≠ p → <[p := set_next tp (next t)]> h !! y = h !! y).
  { intros y Hy. by apply lookup_insert_ne. }
  assert (Hle : ∀ y ty, <[p := set_next tp (next t)]> h !! y = Some ty →
    ∃ t0, h !! y = Some t0 ∧ state ty = state t0 ∧ queued ty = queued t0 ∧ priority ty = priority t0
      ∧ (y ≠ p → next ty = next t0)).
  { intros y ty Hy. destruct (decide (y = p)) as [->|Hne].
    - rewrite lookup_insert_eq in Hy. injection Hy as <-. by exists tp.
    - rewrite Hfr in Hy by done. by exists ty. }
  split; try done.
  + intros c cs qs Hcs Hqs. apply (rq_repr_ext h); [|by eapply sw_rq]. intros y Hy. apply Hfr. intros ->.
    apply NoDup_app in Hnd' as (_&Hd&_).
    apply (Hd p); [apply elem_of_ready; eauto|]. apply elem_of_app. by left.
  + apply (chain_unlink _ _ _ l2 p x tp t); [|done..]. apply NoDup_app in Hnd as (_&_&Hnd). by rewrite <- app_assoc in Hnd.
  + intros y Hy. destruct (decide (y = p)) as [->|Hne].
    * exists (set_next tp (next t)). by rewrite lookup_insert_eq.
    * rewrite Hfr by done. apply Hwf, Hin. by right.
  + by intros y [= <-].
  + intros y ty Hy. destruct (Hle y ty Hy) as (t0&Hy0&_&_&Hpr&_). rewrite Hpr. by eapply sw_prio0.
  + intros y ty Hy Hne Hst. destruct (Hle y ty Hy) as (t0&Hy0&He&_). rewrite He in Hst.
    by apply (sw_ready0 y t0).
  + intros y ty Hy Hne Hst. destruct (Hle y ty Hy) as (t0&Hy0&He&_). rewrite He in Hst.
    pose proof (sw_slept0 y t0 Hy0 ltac:(done) Hst) as Hyi. apply Hin in Hyi as [->|?]; [by destruct Hne|done].
  + intros y ty Hy Hne Hyn. destruct (Hle y ty Hy) as (t0&Hy0&_&He&_). rewrite He. by apply (sw_unqueued0 y t0).
  + intros y ty Hy Hne Hyn. destruct (Hle y ty Hy) as (t0&Hy0&_&_&_&He).
    rewrite He by (intros ->; apply Hyn; rewrite !elem_of_app; rewrite elem_of_app in Hps; tauto).
    apply (sw_unlinked0 y t0 Hy0); [done|]. rewrite elem_of_app, Hin. rewrite elem_of_app in Hyn.
    intros [?|[->|?]]; [tauto|by destruct Hne|tauto].
  + rewrite map_size_insert, Hp. done.
- rewrite lookup_insert_ne; done.
- done.
- by eapply same_cores_insert.
- intros y. by apply same_but_next_insert.
Qed.

(** A new control block, in hand. *)
Lemma wf_fresh (h : heap) (s : Scheduler) (qss : list (list (list nat))) (sl : list nat)
  (x : nat) (t : TaskControlBlock) :
sched_wf None h s qss sl → h !! x = None → size h < MAX_TASKS → priority t < MAX_PRIORITIES →
sched_wf (Some x) (<[x := t]> h) s qss sl.
Proof.
intros Hwf Hx Hsz Hpr.
assert (Hxn : x ∉ ready_of qss ++ sl).
{ intros Hin. destruct (wf_listed _ _ _ _ _ Hwf x Hin) as (ty&Hy&_). congruence. }
assert (Hfr : ∀ y, is_Some (h !! y) → <[x := t]> h !! y = h !! y).
{ intros y [ty Hy]. apply lookup_insert_ne. intros ->. congruence. }
assert (Hin : ∀ y, y ∈ ready_of qss ++ sl → <[x := t]> h !! y = h !! y).
{ intros y Hy. apply Hfr. destruct (wf_listed _ _ _ _ _ Hwf y Hy) as (ty&?&_). by exists ty. }
pose proof Hwf as []. split; try done.
- intros c cs qs Hcs Hqs. apply (rq_repr_ext h); [|by eapply sw_rq]. intros y Hy. apply Hin, elem_of_app.
  left. apply elem_of_ready. eauto.
- eapply chain_ext; [|done]. intros y ty Hy Hl. exists ty. rewrite Hin by (apply elem_of_app; by right). done.
- intros y Hy. rewrite Hin by (apply elem_of_app; by right). by apply Hwf.
- by intros y [= <-].
- intros y ty Hy. destruct (decide (y = x)) as [->|Hne]; [by simplify_map_eq|].
  rewrite lookup_insert_ne in Hy by done. by eapply sw_prio0.
- intros y ty Hy Hne. rewrite lookup_insert_ne in Hy by congruence. by apply (sw_ready _ _ _ _ _ Hwf y).
- intros y ty Hy Hne. rewrite lookup_insert_ne in Hy by congruence. by apply (sw_slept _ _ _ _ _ Hwf y).
- intros y ty Hy Hne. rewrite lookup_insert_ne in Hy by congruence. by apply (sw_unqueued _ _ _ _ _ Hwf y).
- intros y ty Hy Hne. rewrite lookup_insert_ne in Hy by congruence. by apply (sw_unlinked _ _ _ _ _ Hwf y).
- rewrite map_size_insert, Hx. lia.
Qed.

(** Before any task exists. *)
Lemma wf_new (h : heap) : h = ∅ →
sched_wf None h (mk_scheduler (replicate max_cpus cpu_sched_new) 0 None)
  (replicate max_cpus (replicate MAX_PRIORITIES [])) [].
Proof.
intros ->.
assert (Hr : ready_of (replicate max_cpus (replicate MAX_PRIORITIES [])) = []).
{ apply elem_of_nil_inv. intros x (c&qs&[-> _]%lookup_replicate&Hx)%elem_of_ready.
  apply elem_of_concat in Hx as (p&l&[-> _]%lookup_replicate&Hx). by apply elem_of_nil in Hx. }
split; try (by intros x t; rewrite lookup_empty); try (rewrite Hr; cbn); try done.
- apply length_replicate.
- apply length_replicate.
- intros c cs qs [-> _]%lookup_replicate [-> _]%lookup_replicate. apply rq_new_repr.
- constructor.
- by intros x ?%elem_of_nil.
- rewrite map_size_empty. lia.
Qed.
End inv.
