(* ===== verification/SchedOps.v ===== *)
(** * The scheduler's operations keep its invariant

    What each operation under the lock does to the queues, to the tasks and to
    [NEXT_TCB], from the moves of [SchedInv]; then the public operations. *)

From S2P Require Export Prelude.
From S2P Require Export SchedInv.

(** A machine that differs at most in the shadow of the current task. *)
Record mach_like `{!SmpConfig} (m m' : machine) : Prop := {
  ml_current : CURRENT_TCB m' = CURRENT_TCB m;
  ml_next : NEXT_TCB m' = NEXT_TCB m;
  ml_irq : irq_on m' = irq_on m;
  ml_ok : machine_ok m → machine_ok m' ∧ critical_nest m' = critical_nest m;
}.

Section ops.
Context `{!SmpConfig}.

Lemma mach_like_refl (m : machine) : mach_like m m.
Proof. by split. Qed.
Lemma mach_like_trans (m1 m2 m3 : machine) : mach_like m1 m2 → mach_like m2 m3 → mach_like m1 m3.
Proof.
  intros [H1 H2 H3 H4] [H5 H6 H7 H8]. split; try congruence.
  intros Hm. destruct (H4 Hm) as [Hm2 Hn2]. destruct (H8 Hm2). split; congruence.
Qed.
Lemma mach_like_sync (m : machine) : mach_like m (sync_current m).
Proof.
  split; try (intros Hm; destruct (sync_current_nest m Hm) as (?&?&_); done);
    unfold sync_current, sync_current_task_shadow; by case_bool_decide.
Qed.

Definition cur_ok (h : heap) (m : machine) : Prop := ∀ p, CURRENT_TCB m = Some p → is_Some (h !! p).

Lemma cur_ok_like (h h' : heap) (m m' : machine) :
  mach_like m m' → (∀ y, is_Some (h !! y) → is_Some (h' !! y)) → cur_ok h m → cur_ok h' m'.
Proof. intros Hl Hd Hc p Hp. apply Hd, Hc. rewrite <- Hp. symmetry. apply Hl. Qed.

(** Does a task of priority [p] preempt the current one? *)
Definition preempts (h : heap) (m : machine) (p : nat) : bool :=
  match CURRENT_TCB m ≫= λ c, h !! c with
  | Some t => bool_decide (state t = Running) && (priority t <? p)
  | None => false
  end.

Lemma check_preempt_spec (h : heap) (m : machine) (p : nat) : cur_ok h m →
  check_preempt_needed h m p = Done (preempts h m p, sync_current m).
Proof.
  intros Hc. unfold check_preempt_needed, preempts. rewrite (ml_current _ _ (mach_like_sync m)).
  destruct (CURRENT_TCB m) as [c|] eqn:E; [|done]. destruct (Hc c E) as [t Ht].
  cbn. rewrite Ht. done.
Qed.

Lemma has_higher_spec (h : heap) (c : CpuScheduler) (m : machine) (qs : list (list nat)) :
  cur_ok h m → rq_repr h (ready_queue c) qs →
  ∃ b, has_higher_ready_than_current h c m = Done (b, sync_current m)
    ∧ (b = true → ∃ x t p l y, CURRENT_TCB m = Some x ∧ h !! x = Some t ∧ state t = Running
         ∧ priority t < p ∧ qs !! p = Some (y :: l)).
Proof.
  intros Hc Hr. unfold has_higher_ready_than_current. rewrite (ml_current _ _ (mach_like_sync m)).
  destruct (CURRENT_TCB m) as [x|] eqn:E; [|by exists false]. destruct (Hc x E) as [t Ht].
  destruct (is_empty (ready_queue c)) eqn:Ee; [by exists false|]. rewrite Ht. cbn [get_exec mbind exec_bind].
  eexists. split; [done|]. rewrite andb_true_iff, bool_decide_eq_true, Nat.ltb_lt. intros [Hs Hp].
  destruct (pop_highest_spec h (ready_queue c) qs Hr) as [[Hn _]|(y&ty&qs'&rq'&(p&l&Hl&_&_)&Hy&_&_&_&_&Hpk)].
  { apply (is_empty_spec _ _ _ Hr) in Hn. congruence. }
  exists x, t, p, l, y. split_and!; try done.
  destruct (rr_task _ _ _ Hr p _ y Hl (list_elem_of_here _ _)) as (ty'&Hy'&<-&_). simplify_map_eq. lia.
Qed.

(** ** Which CPU *)

Lemma current_scheduler_cpu_id_lt : current_scheduler_cpu_id < max_cpus.
Proof.
  pose proof max_cpus_pos. unfold current_scheduler_cpu_id. case_match; [|done].
  apply Nat.mod_upper_bound. lia.
Qed.

Lemma shortest_queue_lt (cs : list CpuScheduler) (i best : nat) (bl : option nat) :
  i + length cs ≤ max_cpus → best < max_cpus → shortest_queue cs i best bl < max_cpus.
Proof.
  revert i best bl. induction cs as [|c cs IH]; intros i best bl Hi Hb; cbn [shortest_queue length] in *; [done|].
  destruct (negb (is_cpu_active i)); [by apply IH; [lia|]|].
  case_match; apply IH; lia.
Qed.

Lemma select_cpu_lt (s : Scheduler) (t : TaskControlBlock) :
  length (cpu_scheds s) = max_cpus → select_cpu_for_task s t < max_cpus.
Proof.
  intros Hs. pose proof max_cpus_pos. unfold select_cpu_for_task. destruct (affinity t).
  - apply shortest_queue_lt; [by rewrite Hs|apply current_scheduler_cpu_id_lt].
  - case_match; [apply Nat.mod_upper_bound; lia|apply current_scheduler_cpu_id_lt].
Qed.

(** ** Queueing a ready task *)

(** [qss'] is [qss] with [x] at the back of queue [p] of CPU [c]. *)
Definition enqueued (qss : list (list (list nat))) (c p x : nat) (qss' : list (list (list nat))) : Prop :=
  ∃ qs l, qss !! c = Some qs ∧ qs !! p = Some l ∧ qss' = <[c := <[p := l ++ [x]]> qs]> qss.

Lemma enqueued_perm (qss qss' : list (list (list nat))) (c p x : nat) :
  enqueued qss c p x qss' → ready_of qss' ≡ₚ x :: ready_of qss.
Proof.
  intros (qs&l&Hc&Hl&->). destruct (ready_of_insert qss c qs Hc) as (rest&H1&H2).
  destruct (concat_insert_perm qs p l Hl) as (rl&H3&H4).
  rewrite H2, H1, H4, H3. rewrite <- !app_assoc. cbn. by rewrite <- Permutation_middle.
Qed.

Lemma same_but_next_cores (h h' : heap) (x : nat) (t t' : TaskControlBlock) :
  h !! x = Some t → h' !! x = Some t' → task_core t' = task_core t →
  (∀ y, y ≠ x → same_but_next (h !! y) (h' !! y)) → same_cores h h'.
Proof.
  intros Hx Hx' Ht Hs y. destruct (decide (y = x)) as [->|Hne]; [rewrite Hx, Hx'; cbn; by rewrite Ht|].
  specialize (Hs y Hne). destruct (h !! y) as [t0|] eqn:E.
  - destruct (same_but_next_Some _ _ t0 Hs eq_refl) as [n ->]. done.
  - unfold same_but_next in Hs. by destruct (h' !! y).
Qed.

Lemma push_ready_spec (h : heap) (s : Scheduler) (m : machine) (qss : list (list (list nat))) (sl : list nat)
    (c x : nat) (t : TaskControlBlock) :
  sched_wf (Some x) h s qss sl → cur_ok h m → h !! x = Some t →
  state t = Ready → queued t = false → next t = None → c < max_cpus →
  ∃ h' s' qss', push_ready h s m c x = Done (true, h', s', sync_current m)
    ∧ sched_wf None h' s' qss' sl ∧ enqueued qss c (priority t) x qss'
    ∧ h' !! x = Some (set_queued t true)
    ∧ (∀ y, y ≠ x → same_but_next (h !! y) (h' !! y))
    ∧ (∃ cs, cpu_scheds s' !! c = Some cs ∧ preempt_pending cs = preempts h' m (priority t))
    ∧ sleep_queue s' = sleep_queue s ∧ same_cores h h'.
Proof.
  intros Hwf Hc Hx Hs Hq Hn Hlt. destruct (wf_lookup _ _ _ _ _ Hwf c Hlt) as (cs&qs&Hcs&Hqs&Hr).
  destruct (wf_push h s qss sl c x t cs qs Hwf Hx Hs Hq Hn Hcs Hqs) as (h'&rq'&l&Hpush&Hl&Hwf'&_&Hx'&Hsn).
  assert (Hcore : same_cores h h') by (by eapply same_but_next_cores).
  assert (Hc' : cur_ok h' m).
  { eapply cur_ok_like; [apply mach_like_refl| |done]. intros y. by apply same_cores_dom. }
  unfold push_ready. rewrite Hcs. cbn [get_exec mbind exec_bind]. rewrite Hpush. cbn [mbind exec_bind].
  rewrite Hx'. cbn [get_exec mbind exec_bind]. rewrite check_preempt_spec by done. cbn [mbind exec_bind].
  eexists h', _, _. split; [done|]. split_and!; [by apply Hwf'|by exists qs, l|done|done| |done|done].
  eexists. cbn. rewrite list_lookup_insert_eq; [by split|]. by rewrite (sw_len _ _ _ _ _ Hwf).
Qed.

(** ** Work stealing *)

Lemma victim_ne (c offset : nat) : c < max_cpus → 1 ≤ offset < max_cpus → (c + offset) `mod` max_cpus ≠ c.
Proof.
  intros Hc Ho. destruct (decide (c + offset < max_cpus)).
  - rewrite Nat.mod_small by done. lia.
  - replace (c + offset) with (c + offset - max_cpus + 1 * max_cpus) by lia.
    rewrite Nat.Div0.mod_add, Nat.mod_small by lia. lia.
Qed.

(** The outcome of a theft for CPU [c]. *)
Record stolen (h : heap) (qss : list (list (list nat))) (sl : list nat) (c : nat)
    (o : ptr) (h' : heap) (s' : Scheduler) (qss' : list (list (list nat))) : Prop := {
  st_wf : sched_wf o h' s' qss' sl;
  st_perm : ready_of qss ≡ₚ match o with Some n => [n] | None => [] end ++ ready_of qss';
  st_local : qss' !! c = qss !! c;
  st_task : ∀ n, o = Some n → ∃ t, h' !! n = Some t ∧ state t = Ready ∧ queued t = false ∧ next t = None
              ∧ can_run_on t c = true;
  st_cores : same_cores h h';
  st_frame : ∀ y, y ∉ ready_of qss → h' !! y = h !! y;
}.

Lemma stolen_trans (h1 h2 h3 : heap) (qss1 qss2 qss3 : list (list (list nat))) (sl : list nat) (c : nat)
    (s2 s3 : Scheduler) (o : ptr) :
  stolen h1 qss1 sl c None h2 s2 qss2 → stolen h2 qss2 sl c o h3 s3 qss3 → stolen h1 qss1 sl c o h3 s3 qss3.
Proof.
  intros [H1 H2 H3 H4 H5 H6] [H7 H8 H9 H10 H11 H12]. split; try done.
  - by rewrite H2, H8.
  - congruence.
  - by eapply same_cores_trans.
  - intros y Hy. rewrite H12, H6; [done|done|]. by rewrite H2 in Hy.
Qed.

(** A task that cannot run on [c] is popped from the victim and pushed back. *)
Lemma steal_give_back (h : heap) (s : Scheduler) (qss : list (list (list nat))) (sl : list nat)
    (c v x : nat) (t : TaskControlBlock) (cv : CpuScheduler) (rq : ReadyQueue) (qs : list (list nat)) :
  let s1 := set_cpu_sched s v (set_ready_queue cv rq) in
  v ≠ c → sched_wf (Some x) h s1 qss sl → h !! x = Some t →
  state t = Ready → queued t = false → next t = None → cpu_scheds s1 !! v = Some (set_ready_queue cv rq) →
  ∃ h' rq' qss', push h rq x = Done (true, h', rq')
    ∧ sched_wf None h' (set_cpu_sched s1 v (set_ready_queue cv rq')) qss' sl
    ∧ ready_of qss' ≡ₚ x :: ready_of qss ∧ qss' !! c = qss !! c ∧ same_cores h h'
    ∧ ∀ y, y ∉ x :: ready_of qss → h' !! y = h !! y.
Proof.
  intros s1 Hvc Hwf Hx Hs Hq Hn Hcv.
  assert (Hv : v < max_cpus) by (rewrite <- (sw_len _ _ _ _ _ Hwf); by eapply lookup_lt_Some).
  destruct (wf_lookup _ _ _ _ _ Hwf v Hv) as (cs&qv&Hcs&Hqv&Hr). rewrite Hcv in Hcs. injection Hcs as <-.
  destruct (wf_push h s1 qss sl v x t _ qv Hwf Hx Hs Hq Hn Hcv Hqv) as (h'&rq'&l&Hpush&Hl&Hwf'&_&Hx'&Hsn).
  exists h', rq', (<[v := <[priority t := l ++ [x]]> qv]> qss). split_and!.
  - done.
  - by apply Hwf'.
  - apply (enqueued_perm qss _ v (priority t)). by exists qv, l.
  - by rewrite list_lookup_insert_ne.
  - by eapply same_but_next_cores.
  - intros y [Hyx Hy]%not_elem_of_cons.
    assert (Hp : pushable rq t = true).
    { unfold pushable. rewrite Hs, Hq, Hn. rewrite !bool_decide_true by done. cbn.
      pose proof (wf_room _ _ _ _ _ Hwf v x _ qv eq_refl (mk_is_Some _ _ Hx) Hqv Hr) as Hroom.
      cbn in Hroom. rewrite (proj2 (Nat.ltb_lt _ _) Hroom). apply Nat.ltb_lt. by eapply sw_prio. }
    destruct (push_spec h rq qv x t Hr Hx Hp) as (h2&rq2&l2&Hp2&_&_&_&Hfr&_). cbn in Hpush.
    rewrite Hp2 in Hpush. injection Hpush as -> ->. apply Hfr; [|done].
    intros Hin. apply Hy, elem_of_ready. eauto.
Qed.

(** The theft counters of [c] do not overflow at the next attempt. *)
Definition can_succeed (s : Scheduler) (c : nat) : Prop :=
  ∀ cs, cpu_scheds s !! c = Some cs → (steal_successes cs + 1 < 2 ^ 64)%Z.
Definition can_steal (s : Scheduler) (c : nat) : Prop :=
  (∀ cs, cpu_scheds s !! c = Some cs → (steal_attempts cs + 1 < 2 ^ 64)%Z) ∧ can_succeed s c.

Lemma steal_loop_spec (sl : list nat) (c : nat) (offsets : list nat) : c < max_cpus →
  (∀ o, o ∈ offsets → 1 ≤ o < max_cpus) → ∀ h s qss,
  sched_wf None h s qss sl → can_succeed s c →
  ∃ o h' s' qss', steal_loop h s c offsets = Done (o, h', s') ∧ stolen h qss sl c o h' s' qss'.
Proof.
  intros Hc. induction offsets as [|off offsets IH]; intros Hoff h s qss Hwf Hcnt; cbn [steal_loop].
  { exists None, h, s, qss. split; [done|]. split; try done; auto with openion. }
  assert (IH' : ∀ h s qss, sched_wf None h s qss sl → can_succeed s c →
    ∃ o h' s' qss', steal_loop h s c offsets = Done (o, h', s') ∧ stolen h qss sl c o h' s' qss').
  { apply IH. intros o Ho. apply Hoff. by right. }
  set (v := (c + off) `mod` max_cpus).
  assert (Hvc : v ≠ c) by (apply victim_ne; [done|apply Hoff; by left]).
  destruct (negb (is_cpu_active v)); [by apply IH'|].
  assert (Hv : v < max_cpus) by (apply Nat.mod_upper_bound; pose proof max_cpus_pos; lia).
  destruct (wf_lookup _ _ _ _ _ Hwf v Hv) as (cv&qv&Hcv&Hqv&Hr). rewrite Hcv. cbn [get_exec mbind exec_bind].
  destruct (negb (1 <? len (ready_queue cv))); [by apply IH'|].
  destruct (pop_lowest_raw_spec h (ready_queue cv) qv Hr) as [[_ ->]|Hpop]; cbn [mbind exec_bind].
  { apply IH'.
    - eapply wf_cpu_state; [done|done|done].
    - intros cs. cbn. rewrite list_lookup_insert_ne by done. apply Hcnt. }
  destruct Hpop as (x&t&qs'&rq'&(p&l&Hl&->&_)&Hx&Hst&->&_&Hr'&_). cbn [mbind exec_bind].
  destruct (wf_pop h s qss sl v p x t (set_ready_queue cv rq') qv l Hwf Hx Hqv Hl Hr') as [Hwf1 Hperm].
  set (s1 := set_cpu_sched s v (set_ready_queue cv rq')) in *.
  set (t1 := set_queued (set_next t None) false).
  assert (Hx1 : popped h x t !! x = Some t1) by apply lookup_insert_eq.
  assert (Hcore : same_cores h (popped h x t)) by (by eapply same_cores_insert).
  assert (Hcnt1 : can_succeed s1 c).
  { intros cs. cbn. rewrite list_lookup_insert_ne by done. apply Hcnt. }
  assert (Hxin : x ∈ ready_of qss) by (rewrite Hperm; by left).
  assert (Hlocal : <[v := <[p := l]> qv]> qss !! c = qss !! c) by (by rewrite list_lookup_insert_ne).
  rewrite Hx1. cbn [get_exec mbind exec_bind].
  destruct (can_run_on t1 c) eqn:Hrun.
  - destruct (wf_lookup _ _ _ _ _ Hwf1 c Hc) as (cc&qc&Hcc&_&_). rewrite Hcc. cbn [get_exec mbind exec_bind].
    rewrite add_w_Done by (by apply Hcnt1). cbn [mbind exec_bind].
    eexists _, _, _, _. split; [done|]. split; [by eapply wf_cpu_state|done|done| |done|].
    + intros n [= <-]. exists t1. split_and!; done.
    + intros y Hy. apply lookup_insert_ne. by intros ->.
  - assert (Hcv1 : cpu_scheds s1 !! v = Some (set_ready_queue cv rq')).
    { cbn. apply list_lookup_insert_eq. by eapply lookup_lt_Some. }
    cbn [push_raw].
    destruct (steal_give_back _ s _ _ c v x t1 cv rq' qv Hvc Hwf1 Hx1 Hst eq_refl eq_refl Hcv1)
      as (h2&rq2&qss2&Hpush&Hwf2&Hperm2&Hloc2&Hcore2&Hfr2).
    rewrite Hpush. cbn [mbind exec_bind].
    destruct (IH' h2 _ qss2 Hwf2) as (o&h3&s3&qss3&Hres&Hst3).
    { intros cs. cbn. rewrite list_lookup_insert_ne by done. apply Hcnt1. }
    exists o, h3, s3, qss3. split; [done|].
    eapply (stolen_trans _ h2 _ _ qss2); [|done]. split; try done.
    + rewrite Hperm2. done.
    + by rewrite Hloc2.
    + by eapply same_cores_trans.
    + intros y Hy. rewrite Hfr2 by (by rewrite <- Hperm). apply lookup_insert_ne. by intros ->.
Qed.

Lemma try_steal_spec (h : heap) (s : Scheduler) (qss : list (list (list nat))) (sl : list nat) (c : nat) :
  c < max_cpus → sched_wf None h s qss sl → can_steal s c →
  ∃ o h' s' qss', try_steal_task h s c = Done (o, h', s') ∧ stolen h qss sl c o h' s' qss'.
Proof.
  intros Hc Hwf [Ha Hs]. destruct (wf_lookup _ _ _ _ _ Hwf c Hc) as (cs&qs&Hcs&_&_).
  unfold try_steal_task. rewrite Hcs. cbn [get_exec mbind exec_bind]. rewrite add_w_Done by (by apply Ha).
  cbn [mbind exec_bind]. apply steal_loop_spec; [done| | |].
  - intros o Ho%elem_of_seq. lia.
  - by eapply wf_cpu_state.
  - intros cs'. cbn. rewrite list_lookup_insert_eq by (by eapply lookup_lt_Some). intros [= <-].
    exact (Hs cs Hcs).
Qed.

(** ** Picking the next task *)

(** What [pick_next] leaves: the chosen task is [NEXT_TCB], running on [c]
    and in no queue; without any, the current task is kept. *)
Definition chosen (t : TaskControlBlock) (c : nat) : TaskControlBlock :=
  set_cpu (set_state (set_queued (set_next t None) false) Running) c.

Record picked (h : heap) (m : machine) (c : nat) (qss : list (list (list nat))) (sl : list nat)
    (b : bool) (h' : heap) (s' : Scheduler) (m' : machine) (qss' : list (list (list nat))) (o : ptr) : Prop := {
  pk_wf : sched_wf None h' s' qss' sl;
  pk_perm : ready_of qss ≡ₚ match o with Some n => [n] | None => [] end ++ ready_of qss';
  pk_next : NEXT_TCB m' = match o with Some n => Some n | None => CURRENT_TCB m end;
  pk_current : CURRENT_TCB m' = CURRENT_TCB m;
  pk_switch : b = match o with Some n => bool_decide (CURRENT_TCB m ≠ Some n) | None => false end;
  pk_task : ∀ n, o = Some n → ∃ t, h !! n = Some t ∧ h' !! n = Some (chosen t c);
  pk_local : ∀ qs, qss !! c = Some qs →
    (concat qs ≠ [] → ∃ n qs', o = Some n ∧ takes_highest qs n qs' ∧ qss' = <[c := qs']> qss)
    ∧ (concat qs = [] → max_cpus = 1 → o = None ∧ h' = h);
  pk_cores : same_cores h h';
  pk_frame : ∀ y, y ∉ ready_of qss → h' !! y = h !! y;
  pk_irq : irq_on m' = irq_on m;
  pk_machine : machine_ok m → machine_ok m' ∧ critical_nest m' = critical_nest m;
}.

Lemma chosen_core (t t1 : TaskControlBlock) (c : nat) :
  task_core t1 = task_core t → queued t1 = false → next t1 = None →
  set_cpu (set_state t1 Running) c = chosen t c.
Proof.
  destruct t, t1. unfold task_core, chosen, set_cpu, set_state, set_queued, set_next. cbn.
  intros Hc -> ->. congruence.
Qed.

Lemma dispatch_spec (h : heap) (s : Scheduler) (m : machine) (c n : nat) (t : TaskControlBlock)
    (qss : list (list (list nat))) (sl : list nat) (crp : option nat) :
  sched_wf (Some n) h s qss sl → c < max_cpus → h !! n = Some t → queued t = false → next t = None →
  ∃ s', dispatch_next h s m c (CURRENT_TCB m) (Some n) crp
        = Done (bool_decide (CURRENT_TCB m ≠ Some n), <[n := set_cpu (set_state t Running) c]> h, s',
                set_next_task_ptr m (Some n))
    ∧ sched_wf None (<[n := set_cpu (set_state t Running) c]> h) s' qss sl.
Proof.
  intros Hwf Hc Hn Hq Hnx.
  assert (Hwf1 : sched_wf None (<[n := set_cpu (set_state t Running) c]> h) s qss sl).
  { eapply wf_close; [eapply wf_write; [done..|]|by rewrite lookup_insert_eq| | | |]; try done.
    exact (sw_prio _ _ _ _ _ Hwf n t Hn). }
  destruct (wf_lookup _ _ _ _ _ Hwf1 c Hc) as (cs&qs&Hcs&_&_).
  unfold dispatch_next. rewrite Hn. cbn [get_exec mbind exec_bind].
  rewrite (upd_Done _ _ _ _ Hn). cbn [mbind exec_bind].
  case_bool_decide as He.
  - rewrite bool_decide_false by auto. by exists s.
  - rewrite bool_decide_true by done. rewrite Hcs. cbn [get_exec mbind exec_bind].
    eexists. split; [done|]. by eapply wf_cpu_state.
Qed.

Lemma picked_some (h : heap) (m : machine) (c : nat) (qss qss' : list (list (list nat))) (sl : list nat)
    (h' : heap) (s' : Scheduler) (n : nat) (t : TaskControlBlock) :
  sched_wf None h' s' qss' sl → ready_of qss ≡ₚ n :: ready_of qss' → h !! n = Some t →
  h' !! n = Some (chosen t c) →
  (∀ qs, qss !! c = Some qs →
    (concat qs ≠ [] → ∃ n' qs', Some n = Some n' ∧ takes_highest qs n' qs' ∧ qss' = <[c := qs']> qss)
    ∧ (concat qs = [] → max_cpus = 1 → False)) →
  same_cores h h' → (∀ y, y ∉ ready_of qss → h' !! y = h !! y) →
  picked h m c qss sl (bool_decide (CURRENT_TCB m ≠ Some n)) h' s' (set_next_task_ptr m (Some n)) qss' (Some n).
Proof.
  intros Hwf Hp Hn Hn' Hloc Hcore Hfr. split; try done.
  - intros n' [= <-]. by exists t.
  - intros qs Hqs. destruct (Hloc qs Hqs) as [H1 H2]. split; [done|]. intros He Hm. by destruct (H2 He Hm).
  - intros Hm. destruct (set_next_nest m (Some n) Hm). by split.
Qed.

Lemma pick_spec (h : heap) (s : Scheduler) (m : machine) (c : nat) (cs : CpuScheduler) (rq : ReadyQueue)
    (crp : option nat) (qss : list (list (list nat))) (sl : list nat) :
  c < max_cpus → sched_wf None h (set_cpu_sched s c (set_ready_queue cs rq)) qss sl →
  (1 < max_cpus → can_steal (set_cpu_sched s c cs) c) →
  ∃ b h' s' m' qss' o, pick_next h s m c cs rq (CURRENT_TCB m) crp = Done (b, h', s', m')
    ∧ picked h m c qss sl b h' s' m' qss' o.
Proof.
  intros Hc Hwf Hcnt. destruct (wf_lookup _ _ _ _ _ Hwf c Hc) as (cs'&qs&Hcs&Hqs&Hr).
  assert (Hlt : c < length (cpu_scheds s)).
  { apply lookup_lt_Some in Hcs. cbn in Hcs. by rewrite length_insert in Hcs. }
  cbn in Hcs. rewrite list_lookup_insert_eq in Hcs by done. injection Hcs as <-. cbn [ready_queue set_ready_queue] in Hr.
  unfold pick_next.
  destruct (pop_highest_spec h rq qs Hr) as [[Hemp ->]|(x&t&qs'&rq'&Htk&Hx&Hst&->&Hr'&_&_)]; cbn [mbind exec_bind].
  - (* the local queue is empty *)
    assert (Hcnt' : 1 < max_cpus → can_steal (set_cpu_sched s c (set_ready_queue cs rq)) c).
    { intros Hm. destruct (Hcnt Hm) as [Ha Hs]. split; intros cc; cbn; rewrite list_lookup_insert_eq by done; intros [= <-];
        [apply (Ha cs)|apply (Hs cs)]; cbn; by rewrite list_lookup_insert_eq. }
    assert (Hsteal : ∃ o h' s' qss', (if 1 <? max_cpus then try_steal_task h (set_cpu_sched s c (set_ready_queue cs rq)) c
        else Done (None, h, set_cpu_sched s c (set_ready_queue cs rq))) = Done (o, h', s')
        ∧ stolen h qss sl c o h' s' qss' ∧ (max_cpus = 1 → o = None ∧ h' = h)).
    { destruct (Nat.ltb_spec 1 max_cpus) as [Hm|Hm].
      - destruct (try_steal_spec h _ qss sl c Hc Hwf (Hcnt' Hm)) as (o&h'&s'&qss'&Heq&Hs).
        exists o, h', s', qss'. split_and!; [done|done|lia].
      - exists None, h, (set_cpu_sched s c (set_ready_queue cs rq)), qss. split; [done|].
        split; [|done]. split; try done. }
    destruct Hsteal as (o&h1&s1&qss1&->&[Hs1 Hs2 Hs3 Hs4 Hs5 Hs6]&Hone). cbn [mbind exec_bind].
    destruct o as [n|].
    + destruct (Hs4 n eq_refl) as (t&Hn&Hst&Hq&Hnx&Hrun).
      destruct (dispatch_spec h1 s1 m c n t qss1 sl crp Hs1 Hc Hn Hq Hnx) as (s2&Heq&Hwf2).
      destruct (wf_ready_state _ _ _ _ _ Hwf n) as (t0&Ht0&_); [rewrite Hs2; by left|].
      destruct (same_cores_lookup h h1 n t0 Hs5 Ht0) as (t1&Ht1&Hcore). rewrite Hn in Ht1. injection Ht1 as <-.
      exists (bool_decide (CURRENT_TCB m ≠ Some n)). eexists _, s2, _, qss1, (Some n). split; [exact Heq|].
      eapply picked_some; try done.
      * by rewrite lookup_insert_eq, (chosen_core t0 t c).
      * intros qs0 Hqs0. simplify_eq. split; [done|]. intros _ Hm. by destruct (Hone Hm).
      * eapply same_cores_trans; [done|]. by eapply same_cores_insert.
      * intros y Hy. rewrite lookup_insert_ne; [by apply Hs6|]. intros ->. apply Hy. rewrite Hs2. by left.
    + eexists false, h1, s1, _, qss1, None. split; [done|]. split; try done.
      * intros qs0 Hqs0. simplify_eq. split; [done|]. intros _ Hm. by apply Hone.
      * intros Hm. destruct (set_next_nest m (CURRENT_TCB m) Hm). by split.
  - destruct Htk as (p&l&Hl&->&Hhi).
    destruct (wf_pop h _ qss sl c p x t (set_ready_queue cs rq') qs l Hwf Hx Hqs Hl Hr') as [Hwf1 Hperm].
    assert (Hs : set_cpu_sched (set_cpu_sched s c (set_ready_queue cs rq)) c (set_ready_queue cs rq')
                 = set_cpu_sched s c (set_ready_queue cs rq')).
    { unfold set_cpu_sched. cbn. by rewrite list_insert_insert_eq. }
    rewrite Hs in Hwf1.
    destruct (dispatch_spec _ _ m c x (set_queued (set_next t None) false) _ sl crp Hwf1 Hc
                (lookup_insert_eq _ _ _) eq_refl eq_refl) as (s2&Heq&Hwf2).
    eexists _, _, s2, _, _, (Some x). split; [exact Heq|]. eapply picked_some; try done.
    + by rewrite lookup_insert_eq.
    + intros qs0 Hqs0. simplify_eq. split.
      * intros _. exists x, (<[p := l]> qs). split_and!; [done| |done]. by exists p, l.
      * intros He. destruct (concat_insert_perm qs p _ Hl) as (rest&Hp1&_). rewrite He in Hp1.
        by apply Permutation_nil_cons in Hp1.
    + unfold popped. rewrite insert_insert_eq. by eapply same_cores_insert.
    + intros y Hy. unfold popped. rewrite insert_insert_eq. apply lookup_insert_ne.
      intros ->. apply Hy. rewrite Hperm. by left.
Qed.

(** ** schedule *)

Definition is_running (h : heap) (o : ptr) (x : nat) (t : TaskControlBlock) : Prop :=
  o = Some x ∧ h !! x = Some t ∧ state t = Running.

(** The queues after a running current task was put back. *)
Definition requeued (h : heap) (m : machine) (c : nat) (qss : list (list (list nat))) (sl : list nat)
    (h1 : heap) (qss1 : list (list (list nat))) : Prop :=
  (∃ s1, sched_wf None h1 s1 qss1 sl) ∧
  ((∃ x t, is_running h (CURRENT_TCB m) x t ∧ enqueued qss c (priority t) x qss1
     ∧ h1 !! x = Some (set_queued (set_state t Ready) true)
     ∧ (∀ y, y ≠ x → same_but_next (h !! y) (h1 !! y))
     ∧ ∃ qs p l y, qss !! c = Some qs ∧ qs !! p = Some (y :: l) ∧ priority t ≤ p)
  ∨ ((∀ x t, ¬ is_running h (CURRENT_TCB m) x t) ∧ h1 = h ∧ qss1 = qss)).

(** The current task keeps the CPU. *)
Definition kept (h : heap) (m : machine) (c : nat) (qss : list (list (list nat))) (sl : list nat)
    (b : bool) (h' : heap) (s' : Scheduler) (m' : machine) : Prop :=
  ∃ x t, is_running h (CURRENT_TCB m) x t ∧ NEXT_TCB m' = Some x ∧ CURRENT_TCB m' = Some x
    ∧ irq_on m' = irq_on m ∧ (machine_ok m → machine_ok m' ∧ critical_nest m' = critical_nest m)
    ∧ b = false ∧ h' = h ∧ sched_wf None h s' qss sl
    ∧ ∀ qs p l y, qss !! c = Some qs → qs !! p = Some l → y ∈ l → p < priority t.

Lemma running_unlisted (h : heap) (s : Scheduler) (qss : list (list (list nat))) (sl : list nat) (o : ptr)
    (x : nat) (t : TaskControlBlock) :
  sched_wf None h s qss sl → is_running h o x t →
  (x ∉ ready_of qss ++ sl) ∧ queued t = false ∧ next t = None.
Proof.
  intros Hwf (_&Hx&Hst).
  assert (Hn : x ∉ ready_of qss ++ sl) by (eapply wf_unlisted; [done|done|congruence..]).
  split_and!; [done| |by eapply (sw_unlinked _ _ _ _ _ Hwf x)].
  eapply (sw_unqueued _ _ _ _ _ Hwf x); [done|done|]. intros ?. apply Hn, elem_of_app. by left.
Qed.

Lemma set_next_like (m m1 : machine) (p : ptr) : mach_like m m1 →
  irq_on (set_next_task_ptr m1 p) = irq_on m
  ∧ (machine_ok m → machine_ok (set_next_task_ptr m1 p) ∧ critical_nest (set_next_task_ptr m1 p) = critical_nest m).
Proof.
  intros [H1 H2 H3 H4]. split; [done|]. intros Hm. destruct (H4 Hm) as [Hm1 Hn].
  destruct (set_next_nest m1 p Hm1). split; congruence.
Qed.

(** The current task, put back, is Ready in the queue of its priority. *)
Lemma requeue_spec (h : heap) (s : Scheduler) (m : machine) (c : nat) (cs cs1 : CpuScheduler)
    (qss : list (list (list nat))) (sl : list nat) (qs : list (list nat)) (x : nat) (t : TaskControlBlock) :
  sched_wf None h s qss sl → is_running h (CURRENT_TCB m) x t →
  cpu_scheds s !! c = Some cs → qss !! c = Some qs → ready_queue cs1 = ready_queue cs →
  ∃ h1 rq1 qss1, requeue_current h (ready_queue cs1) (CURRENT_TCB m) = Done (true, h1, rq1)
    ∧ enqueued qss c (priority t) x qss1
    ∧ sched_wf None h1 (set_cpu_sched s c (set_ready_queue cs1 rq1)) qss1 sl
    ∧ h1 !! x = Some (set_queued (set_state t Ready) true)
    ∧ ∀ y, y ≠ x → same_but_next (h !! y) (h1 !! y).
Proof.
  intros Hwf Hrun Hcs Hqs Hrq.
  destruct (running_unlisted h s qss sl _ x t Hwf Hrun) as (Hxn&Hq&Hn). destruct Hrun as (Hcur&Hx&Hst).
  assert (Hwf1 : sched_wf (Some x) (<[x := set_state t Ready]> h) s qss sl).
  { eapply wf_write; [by apply wf_open|done|]. exact (sw_prio _ _ _ _ _ Hwf x t Hx). }
  destruct (wf_push _ s qss sl c x (set_state t Ready) cs qs Hwf1 (lookup_insert_eq _ _ _) eq_refl Hq Hn Hcs Hqs)
    as (h1&rq1&l&Hpush&Hl&Hwf2&_&Hx1&Hsn).
  exists h1, rq1, (<[c := <[priority t := l ++ [x]]> qs]> qss). split_and!; [|by exists qs, l|by apply Hwf2|done|].
  - rewrite Hcur. unfold requeue_current. rewrite Hx. cbn [get_exec mbind exec_bind].
    rewrite bool_decide_true by done. cbn [negb]. rewrite (upd_Done _ _ _ _ Hx). cbn [mbind exec_bind].
    rewrite Hrq, Hpush. done.
  - intros y Hy. specialize (Hsn y Hy). by rewrite lookup_insert_ne in Hsn.
Qed.

Lemma picked_like (h : heap) (m m1 : machine) (c : nat) (qss qss' : list (list (list nat))) (sl : list nat)
    (b : bool) (h' : heap) (s' : Scheduler) (m' : machine) (o : ptr) :
  mach_like m m1 → picked h m1 c qss sl b h' s' m' qss' o → picked h m c qss sl b h' s' m' qss' o.
Proof.
  intros [H1 H2 H3 H4] []. rewrite H1 in *. split; try done; [congruence|].
  intros Hm. destruct (H4 Hm) as [Hm1 Hn]. destruct (pk_machine0 Hm1). split; congruence.
Qed.

Lemma running_dec (h : heap) (m : machine) : cur_ok h m →
  (∃ x t, is_running h (CURRENT_TCB m) x t) ∨ ∀ x t, ¬ is_running h (CURRENT_TCB m) x t.
Proof.
  intros Hcur. destruct (CURRENT_TCB m) as [x|] eqn:E; [|right; by intros x t (?&_)].
  destruct (Hcur x E) as [t Ht]. destruct (decide (state t = Running)) as [Hst|Hst].
  - left. exists x, t. done.
  - right. intros y ty (Hy&Hty&Hst'). congruence.
Qed.

Lemma schedule_spec (h : heap) (s : Scheduler) (m : machine) (c : nat) (qss : list (list (list nat))) (sl : list nat) :
  c < max_cpus → sched_wf None h s qss sl → cur_ok h m → (1 < max_cpus → can_steal s c) →
  ∃ b h' s' m', schedule_cpu_locked h s m c = Done (b, h', s', m')
    ∧ (kept h m c qss sl b h' s' m'
       ∨ ∃ h1 qss1 qss' o, requeued h m c qss sl h1 qss1 ∧ picked h1 m c qss1 sl b h' s' m' qss' o).
Proof.
  intros Hc Hwf Hcur Hcnt. destruct (wf_lookup _ _ _ _ _ Hwf c Hc) as (cs&qs&Hcs&Hqs&Hr).
  unfold schedule_cpu_locked. rewrite Hcs. cbn [get_exec mbind exec_bind].
  set (cs1 := set_pending cs false). set (m1 := sync_current m).
  pose proof (mach_like_sync m) as Hm1. fold m1 in Hm1. rewrite (ml_current _ _ Hm1).
  change (ready_queue cs1) with (ready_queue cs).
  assert (Hcnt1 : 1 < max_cpus → can_steal (set_cpu_sched s c cs1) c).
  { intros Hm. destruct (Hcnt Hm) as [Ha Hs]. split; intros cc; cbn; rewrite list_lookup_insert_eq by (by eapply lookup_lt_Some);
      intros [= <-]; [exact (Ha cs Hcs)|exact (Hs cs Hcs)]. }
  destruct (running_dec h m Hcur) as [(x&t&Hrun)|Hno].
  - pose proof Hrun as (E&Hx&Hst).
    assert (Hrp : running_priority h (CURRENT_TCB m) = Done (Some (priority t))).
    { unfold running_priority. rewrite E, Hx. cbn. by rewrite bool_decide_true. }
    rewrite Hrp. cbn [mbind exec_bind].
    destruct (is_empty (ready_queue cs) || (peek_highest_priority (ready_queue cs) <? priority t)) eqn:Hkeep.
    + eexists _, _, _, _. split; [done|]. left. exists x, t.
      destruct (set_next_like m m1 (CURRENT_TCB m) Hm1) as [Hi Hmo].
      split_and!; [done|by rewrite E|by rewrite <- E; apply (ml_current _ _ Hm1)|done|done|done|done| |].
      * by eapply wf_cpu_state.
      * intros qs0 p l y Hqs0 Hl Hy. simplify_eq. assert (Hne : l ≠ []) by (by intros ->; apply elem_of_nil in Hy).
        apply orb_true_iff in Hkeep as [He|He].
        -- apply (is_empty_spec _ _ _ Hr) in He. exfalso. apply (not_elem_of_nil y). rewrite <- He.
           apply elem_of_concat. eauto.
        -- apply Nat.ltb_lt in He. pose proof (peek_spec h _ qs p l Hr Hl Hne). lia.
    + apply orb_false_iff in Hkeep as [He Hp]. apply Nat.ltb_ge in Hp.
      destruct (requeue_spec h s m c cs cs1 qss sl qs x t Hwf Hrun Hcs Hqs eq_refl)
        as (h1&rq1&qss1&Hreq&Henq&Hwf1&Hx1&Hsn).
      change (ready_queue cs1) with (ready_queue cs) in Hreq. rewrite Hreq. cbn [mbind exec_bind negb].
      rewrite <- (ml_current _ _ Hm1).
      destruct (pick_spec h1 s m1 c cs1 rq1 (Some (priority t)) qss1 sl Hc Hwf1 Hcnt1)
        as (b&h'&s'&m'&qss'&o&Hpick&Hpk).
      exists b, h', s', m'. split; [done|]. right. exists h1, qss1, qss', o. split; [|by eapply picked_like].
      split; [by eexists|]. left. exists x, t. split_and!; [done..|].
      destruct (pop_highest_spec h (ready_queue cs) qs Hr) as [[Hn _]|(y&ty&qs'&rq'&(p&l&Hl&_&_)&Hy&_&_&_&_&Hpk')].
      { apply (is_empty_spec _ _ _ Hr) in Hn. congruence. }
      exists qs, p, l, y. split_and!; [done..|].
      destruct (rr_task _ _ _ Hr p _ y Hl (list_elem_of_here _ _)) as (ty'&Hy'&<-&_). simplify_map_eq. lia.
  - assert (Hrp : running_priority h (CURRENT_TCB m) = Done None
      ∧ requeue_current h (ready_queue cs) (CURRENT_TCB m) = Done (true, h, ready_queue cs)).
    { unfold running_priority, requeue_current. destruct (CURRENT_TCB m) as [x|] eqn:E; [|done].
      destruct (Hcur x E) as [t Ht]. rewrite Ht. cbn.
      rewrite (bool_decide_false (state t = Running)); [done|]. intros Hst. by apply (Hno x t). }
    destruct Hrp as [-> ->]. cbn [mbind exec_bind negb].
    rewrite <- (ml_current _ _ Hm1).
    destruct (pick_spec h s m1 c cs1 (ready_queue cs) None qss sl Hc) as (b&h'&s'&m'&qss'&o&Hpick&Hpk).
    { by eapply wf_cpu_state. }
    { done. }
    exists b, h', s', m'. split; [done|]. right. exists h, qss, qss', o. split; [|by eapply picked_like].
    split; [by eexists|]. right. done.
Qed.

(** ** tick_update *)

Definition due_task (h : heap) (now : Z) (x : nat) : bool :=
  match h !! x with Some t => passed now (wakeup_tick t) | None => false end.

Lemma due_same_cores (h h' : heap) (now : Z) (x : nat) : same_cores h h' → due_task h' now x = due_task h now x.
Proof.
  intros Hs. unfold due_task. specialize (Hs x). destruct (h !! x) as [t|], (h' !! x) as [t'|]; try done.
  cbn in Hs. assert (Hc : task_core t = task_core t') by congruence.
  apply (f_equal wakeup_tick) in Hc. cbn in Hc. by rewrite Hc.
Qed.

Lemma filter_due_same (h h' : heap) (now : Z) (b : bool) (l : list nat) : same_cores h h' →
  filter (λ x, due_task h' now x = b) l = filter (λ x, due_task h now x = b) l.
Proof. intros Hs. apply filter_ext_elem. intros x _. by rewrite (due_same_cores h h'). Qed.

Lemma chain_head (h : heap) (p : ptr) (l : list nat) : chain h p l → p = list.head l.
Proof. destruct l; cbn; [done|]. by intros [? _]. Qed.

(** One due task leaves the sleep queue for a ready queue. *)
Lemma wake_one_spec (now : Z) (h : heap) (s : Scheduler) (m : machine) (qss : list (list (list nat)))
    (l1 l2 : list nat) (x : nat) (t : TaskControlBlock) :
  sched_wf None h s qss (l1 ++ x :: l2) → cur_ok h m → h !! x = Some t →
  ∃ h0 s0 h1 s1 qss1,
    unlink_sleeping h s (last l1) (next t) = Done (h0, s0)
    ∧ h0 !! x = Some t
    ∧ push_ready (<[x := set_next (set_state t Ready) None]> h0) s0 m (select_cpu_for_task s0 t) x
      = Done (true, h1, s1, sync_current m)
    ∧ sched_wf None h1 s1 qss1 (l1 ++ l2) ∧ ready_of qss1 ≡ₚ x :: ready_of qss
    ∧ same_cores h h1 ∧ (∀ y, y ≠ x → same_but_next (h !! y) (h1 !! y)).
Proof.
  intros Hwf Hcur Hx. destruct (wf_unsleep h s qss l1 l2 x t Hwf Hx) as (h0&s0&Hun&Hwf0&Hx0&Hcs0&Hcore0&Hsn0).
  set (t1 := set_next (set_state t Ready) None).
  assert (Hq : queued t = false).
  { apply (sw_unqueued _ _ _ _ _ Hwf x t Hx); [done|]. intros Hin.
    pose proof (sw_nodup _ _ _ _ _ Hwf) as Hnd. apply NoDup_app in Hnd as (_&Hd&_).
    apply (Hd x Hin), elem_of_app. right. by left. }
  assert (Hwf1 : sched_wf (Some x) (<[x := t1]> h0) s0 qss (l1 ++ l2)).
  { eapply wf_write; [done|done|]. exact (sw_prio _ _ _ _ _ Hwf x t Hx). }
  assert (Hcore1 : same_cores h (<[x := t1]> h0)).
  { eapply same_cores_trans; [done|]. by eapply same_cores_insert. }
  assert (Hlt : select_cpu_for_task s0 t < max_cpus) by (apply select_cpu_lt, Hwf0).
  destruct (push_ready_spec _ s0 m qss (l1 ++ l2) (select_cpu_for_task s0 t) x t1 Hwf1)
    as (h1&s1&qss1&Hpush&Hwf2&Henq&_&Hsn1&_&_&Hcore2); try done.
  { eapply cur_ok_like; [apply mach_like_refl| |done]. intros y. by apply same_cores_dom. }
  { by rewrite lookup_insert_eq. }
  exists h0, s0, h1, s1, qss1. split_and!; try done.
  - by eapply enqueued_perm.
  - by eapply same_cores_trans.
  - intros y Hy. eapply same_but_next_trans; [apply Hsn0|].
    specialize (Hsn1 y Hy). by rewrite lookup_insert_ne in Hsn1.
Qed.

Lemma wake_loop_spec (now : Z) (l2 : list nat) : ∀ (fuel : nat) (l1 : list nat) h s m qss,
  length l2 ≤ fuel → sched_wf None h s qss (l1 ++ l2) → cur_ok h m →
  ∃ h' s' m' qss', wake_loop fuel now h s m (last l1) (list.head l2) = Done (h', s', m')
    ∧ sched_wf None h' s' qss' (l1 ++ filter (λ x, due_task h now x = false) l2)
    ∧ ready_of qss' ≡ₚ filter (λ x, due_task h now x = true) l2 ++ ready_of qss
    ∧ same_cores h h' ∧ mach_like m m'
    ∧ ∀ y, due_task h now y = false ∨ y ∉ l2 → same_but_next (h !! y) (h' !! y).
Proof.
  induction l2 as [|x l2 IH]; intros fuel l1 h s m qss Hf Hwf Hcur.
  { exists h, s, m, qss. split_and!; [by destruct fuel|done|done|done|apply mach_like_refl|done]. }
  destruct fuel as [|fuel]; [cbn in Hf; lia|]. cbn [wake_loop list.head].
  destruct (sw_sleeping _ _ _ _ _ Hwf x) as (t&Hx&Hst); [apply elem_of_app; right; by left|].
  rewrite Hx. cbn [get_exec mbind exec_bind].
  assert (Hnx : next t = list.head l2).
  { eapply chain_head, chain_app_inv; [apply (sw_sleep _ _ _ _ _ Hwf)|done]. }
  assert (Hdue : due_task h now x = passed now (wakeup_tick t)) by (unfold due_task; by rewrite Hx).
  rewrite !filter_cons, Hdue. destruct (passed now (wakeup_tick t)); simpl decide; cbn [length] in Hf.
  - destruct (wake_one_spec now h s m qss l1 l2 x t Hwf Hcur Hx)
      as (h0&s0&h1&s1&qss1&Hun&Hx0&Hpush&Hwf1&Hperm&Hcore&Hsn).
    rewrite Hun. cbn [mbind exec_bind]. rewrite (upd_Done _ _ _ _ Hx0). cbn [mbind exec_bind].
    rewrite Hpush. cbn [mbind exec_bind]. rewrite Hnx.
    assert (Hcur1 : cur_ok h1 (sync_current m)).
    { eapply cur_ok_like; [apply mach_like_sync| |done]. intros y. by apply same_cores_dom. }
    destruct (IH fuel l1 h1 s1 (sync_current m) qss1 ltac:(lia) Hwf1 Hcur1)
      as (h'&s'&m'&qss'&Hres&Hwf'&Hperm'&Hcore'&Hm'&Hsn').
    rewrite (filter_due_same h h1) in Hwf' by done. rewrite (filter_due_same h h1) in Hperm' by done.
    exists h', s', m', qss'. split_and!; [done|done| | | |].
    + rewrite Hperm', Hperm. cbn. by rewrite <- Permutation_middle.
    + by eapply same_cores_trans.
    + eapply mach_like_trans; [apply mach_like_sync|done].
    + intros y Hy. assert (Hyx : y ≠ x) by (intros ->; destruct Hy as [Hy|Hy]; [congruence|apply Hy; by left]).
      eapply same_but_next_trans; [by apply Hsn|]. apply Hsn'.
      destruct Hy as [Hy|Hy]; [left; by rewrite (due_same_cores h h1)|right]. intros ?. apply Hy. by right.
  - rewrite Hnx. destruct (IH fuel (l1 ++ [x]) h s m qss ltac:(lia)) as (h'&s'&m'&qss'&Hres&Hwf'&Hrest); [|done|].
    { by rewrite <- app_assoc. }
    rewrite last_snoc in Hres. rewrite <- app_assoc in Hwf'. exists h', s', m', qss'. split_and!; try apply Hrest.
    + done.
    + done.
    + intros y Hy. apply Hrest. destruct Hy as [Hy|Hy]; [by left|right]. intros ?. apply Hy. by right.
Qed.

Lemma tick_update_spec (now : Z) (h : heap) (s : Scheduler) (m : machine) (qss : list (list (list nat))) (sl : list nat) :
  sched_wf None h s qss sl → cur_ok h m →
  ∃ h' s' m' qss', tick_update_locked now h s m = Done (tt, h', s', m')
    ∧ sched_wf None h' s' qss' (filter (λ x, due_task h now x = false) sl)
    ∧ ready_of qss' ≡ₚ filter (λ x, due_task h now x = true) sl ++ ready_of qss
    ∧ same_cores h h' ∧ mach_like m m'
    ∧ ∀ y, due_task h now y = false ∨ y ∉ sl → same_but_next (h !! y) (h' !! y).
Proof.
  intros Hwf Hcur. assert (Hlen : length sl ≤ TASK_CAP).
  { etransitivity; [|apply (sw_cap _ _ _ _ _ Hwf)]. apply tasks_length.
    - pose proof (sw_nodup _ _ _ _ _ Hwf) as Hnd. by apply NoDup_app in Hnd as (_&_&?).
    - intros x Hx. destruct (sw_sleeping _ _ _ _ _ Hwf x Hx) as (t&?&_). by exists t. }
  destruct (wake_loop_spec now sl TASK_CAP [] h s m qss Hlen Hwf Hcur) as (h'&s'&m'&qss'&Hres&Hrest).
  exists h', s', m', qss'. split; [|exact Hrest]. unfold tick_update_locked.
  rewrite (chain_head h (sleep_queue s) sl) by apply Hwf. cbn [last] in Hres. rewrite Hres. reflexivity.
Qed.

(** ** delay, block, wake *)

Lemma delay_spec (wakeup : Z) (h : heap) (s : Scheduler) (m : machine) (qss : list (list (list nat))) (sl : list nat)
    (x : nat) (t : TaskControlBlock) :
  sched_wf None h s qss sl → is_running h (CURRENT_TCB m) x t →
  let h' := <[x := set_next (set_wakeup (set_state t Sleeping) wakeup) (sleep_queue s)]> h in
  delay_locked wakeup h s m = Done (true, h', set_sleep_queue s (Some x), sync_current m)
  ∧ sched_wf None h' (set_sleep_queue s (Some x)) qss (x :: sl).
Proof.
  intros Hwf Hrun h'. destruct (running_unlisted h s qss sl _ x t Hwf Hrun) as (Hxn&Hq&Hn).
  destruct Hrun as (Hcur&Hx&Hst). split.
  - unfold delay_locked. rewrite (ml_current _ _ (mach_like_sync m)), Hcur.
    by rewrite (upd_Done _ _ _ _ Hx).
  - eapply wf_sleep; [eapply wf_write; [by apply wf_open|done|]|apply lookup_insert_eq|done..].
    exact (sw_prio _ _ _ _ _ Hwf x t Hx).
Qed.

Lemma block_spec (h : heap) (s : Scheduler) (m : machine) (qss : list (list (list nat))) (sl : list nat)
    (x : nat) (t : TaskControlBlock) :
  sched_wf None h s qss sl → is_running h (CURRENT_TCB m) x t →
  let h' := <[x := set_next (set_wakeup (set_state t Blocked) 0) None]> h in
  block_locked h (Some s) m = Done (true, h', Some s, sync_current m) ∧ sched_wf None h' s qss sl.
Proof.
  intros Hwf Hrun h'. destruct (running_unlisted h s qss sl _ x t Hwf Hrun) as (Hxn&Hq&Hn).
  destruct Hrun as (Hcur&Hx&Hst). split.
  - unfold block_locked. rewrite (ml_current _ _ (mach_like_sync m)), Hcur, Hx. cbn [get_exec mbind exec_bind].
    rewrite bool_decide_true by done. by rewrite (upd_Done _ _ _ _ Hx).
  - eapply wf_close; [eapply wf_write; [by apply wf_open|done|]|apply lookup_insert_eq|done..].
    exact (sw_prio _ _ _ _ _ Hwf x t Hx).
Qed.

Lemma wake_spec (x : nat) (h : heap) (s : Scheduler) (m : machine) (qss : list (list (list nat))) (sl : list nat)
    (t : TaskControlBlock) :
  sched_wf None h s qss sl → cur_ok h m → h !! x = Some t →
  if bool_decide (state t = Blocked)
  then ∃ h' s' qss', wake_locked x h s m = Done (true, h', s', sync_current m)
         ∧ sched_wf None h' s' qss' sl ∧ ready_of qss' ≡ₚ x :: ready_of qss
         ∧ (∃ t', h' !! x = Some t' ∧ state t' = Ready)
         ∧ (∀ y, y ≠ x → same_but_next (h !! y) (h' !! y))
         ∧ (∃ c cs, c < max_cpus ∧ cpu_scheds s' !! c = Some cs ∧ preempt_pending cs = preempts h' m (priority t))
  else wake_locked x h s m = Done (false, h, s, m).
Proof.
  intros Hwf Hcur Hx. unfold wake_locked. rewrite Hx. cbn [get_exec mbind exec_bind].
  case_bool_decide as Hst; [|done].
  assert (Hxn : x ∉ ready_of qss ++ sl) by (eapply wf_unlisted; [done|done|congruence..]).
  assert (Hq : queued t = false).
  { apply (sw_unqueued _ _ _ _ _ Hwf x t Hx); [done|]. intros ?. apply Hxn, elem_of_app. by left. }
  rewrite (upd_Done _ _ _ _ Hx). cbn [mbind exec_bind].
  set (t1 := set_next (set_wakeup (set_state t Ready) 0) None).
  assert (Hwf1 : sched_wf (Some x) (<[x := t1]> h) s qss sl).
  { eapply wf_write; [by apply wf_open|done|]. exact (sw_prio _ _ _ _ _ Hwf x t Hx). }
  assert (Hlt : select_cpu_for_task s t < max_cpus) by (apply select_cpu_lt, Hwf).
  destruct (push_ready_spec _ s m qss sl (select_cpu_for_task s t) x t1 Hwf1)
    as (h1&s1&qss1&Hpush&Hwf2&Henq&Hx1&Hsn1&(cs&Hcs&Hpend)&_&_); try done.
  { intros p Hp. destruct (decide (p = x)) as [->|Hne]; [rewrite lookup_insert_eq; by eexists|].
    rewrite lookup_insert_ne by done. by apply Hcur. }
  { by rewrite lookup_insert_eq. }
  rewrite Hpush. cbn [mbind exec_bind]. exists h1, s1, qss1. split_and!; [done|done| | | |].
  - by eapply enqueued_perm.
  - by eexists.
  - intros y Hy. specialize (Hsn1 y Hy). by rewrite lookup_insert_ne in Hsn1.
  - exists (select_cpu_for_task s t), cs. done.
Qed.

Lemma create_spec (x prio target : nat) (h : heap) (s : Scheduler) (m : machine) (qss : list (list (list nat)))
    (sl : list nat) (t : TaskControlBlock) :
  sched_wf (Some x) h s qss sl → cur_ok h m → h !! x = Some t →
  state t = Ready → queued t = false → next t = None →
  ∃ h' s' qss', create_locked x prio target h s m = Done (task_id_counter s, h', s', sync_current m)
    ∧ sched_wf None h' s' qss' sl ∧ enqueued qss (target `mod` max_cpus) (priority t) x qss'
    ∧ task_id_counter s' = wrapping_add 32 (task_id_counter s) 1
    ∧ h' !! x = Some (set_queued (set_id t (task_id_counter s)) true)
    ∧ (∀ y, y ≠ x → same_but_next (h !! y) (h' !! y)).
Proof.
  intros Hwf Hcur Hx Hst Hq Hn. unfold create_locked.
  rewrite (upd_Done _ _ _ _ Hx). cbn [mbind exec_bind].
  set (t1 := set_id t (task_id_counter s)). set (s1 := mk_scheduler _ _ _).
  assert (Hwf1 : sched_wf (Some x) (<[x := t1]> h) s1 qss sl).
  { apply (wf_state _ _ s); [done..|]. eapply wf_write; [done|done|]. exact (sw_prio _ _ _ _ _ Hwf x t Hx). }
  assert (Hlt : target `mod` max_cpus < max_cpus) by (apply Nat.mod_upper_bound; pose proof max_cpus_pos; lia).
  destruct (push_ready_spec _ s1 m qss sl (target `mod` max_cpus) x t1 Hwf1)
    as (h1&s2&qss1&Hpush&Hwf2&Henq&Hx1&Hsn1&_&_&_); try done.
  { intros p Hp. destruct (decide (p = x)) as [->|Hne]; [rewrite lookup_insert_eq; by eexists|].
    rewrite lookup_insert_ne by done. by apply Hcur. }
  { by rewrite lookup_insert_eq. }
  rewrite Hpush. cbn [mbind exec_bind]. exists h1, s2, qss1. split_and!; [done|done|done| |done|].
  - unfold push_ready in Hpush. apply exec_bind_inv in Hpush as (cs&_&Hpush).
    apply exec_bind_inv in Hpush as ([[b h2] rq]&_&Hpush). destruct b; [|done].
    apply exec_bind_inv in Hpush as (t2&_&Hpush). apply exec_bind_inv in Hpush as ([b m2]&_&Hpush).
    by injection Hpush as _ <- _.
  - intros y Hy. specialize (Hsn1 y Hy). by rewrite lookup_insert_ne in Hsn1.
Qed.

(** ** The id counter *)

Lemma push_ready_ids h s m c x b h' s' m' : push_ready h s m c x = Done (b, h', s', m') →
  task_id_counter s' = task_id_counter s.
Proof. unfold push_ready. intros Hp. by exec_inv. Qed.

Lemma steal_loop_ids c offsets : ∀ h s o h' s', steal_loop h s c offsets = Done (o, h', s') →
  task_id_counter s' = task_id_counter s.
Proof.
  induction offsets as [|off offsets IH]; intros h s o h' s' Hst; cbn in Hst; [by simplify_eq|].
  case_match; [by eapply IH|]. exec_inv;
    match goal with Hs : steal_loop _ _ _ offsets = Done _ |- _ => rewrite (IH _ _ _ _ _ Hs) | _ => idtac end; done.
Qed.

Lemma schedule_ids h s m c b h' s' m' : schedule_cpu_locked h s m c = Done (b, h', s', m') →
  task_id_counter s' = task_id_counter s.
Proof.
  unfold schedule_cpu_locked, pick_next, dispatch_next, try_steal_task. intros Hs. exec_inv; try done;
    match goal with Hl : steal_loop _ _ _ _ = Done _ |- _ => by rewrite (steal_loop_ids _ _ _ _ _ _ _ Hl) end.
Qed.

Lemma wake_loop_ids fuel now : ∀ h s m prev curr h' s' m',
  wake_loop fuel now h s m prev curr = Done (h', s', m') → task_id_counter s' = task_id_counter s.
Proof.
  induction fuel as [|fuel IH]; intros h s m prev curr h' s' m' Hw; cbn [wake_loop] in Hw;
    destruct curr as [x|]; try (by simplify_eq). unfold unlink_sleeping in Hw. exec_inv;
    match goal with Hs : wake_loop _ _ _ _ _ _ _ = Done _ |- _ => rewrite (IH _ _ _ _ _ _ _ _ Hs) end;
    try match goal with Hp : push_ready _ _ _ _ _ = Done _ |- _ => apply push_ready_ids in Hp end; done.
Qed.

Lemma tick_update_ids now h s m u h' s' m' : tick_update_locked now h s m = Done (u, h', s', m') →
  task_id_counter s' = task_id_counter s.
Proof.
  unfold tick_update_locked. generalize TASK_CAP. intros fuel Hw.
  destruct (wake_loop fuel now h s m None (sleep_queue s)) as [[[h2 s2] m2]|] eqn:Hl; [|discriminate Hw].
  cbn [mbind exec_bind] in Hw. apply wake_loop_ids in Hl. congruence.
Qed.

Lemma wake_ids x h s m b h' s' m' : wake_locked x h s m = Done (b, h', s', m') →
  task_id_counter s' = task_id_counter s.
Proof.
  unfold wake_locked. intros Hw. exec_inv;
    try match goal with Hp : push_ready _ _ _ _ _ = Done _ |- _ => apply push_ready_ids in Hp end; done.
Qed.
End ops.
