(* ===== verification/SchedKernel.v ===== *)
(** * The running kernel

    From the task context, any sequence of timer interrupts, yields, delays,
    blocking waits, wake-ups (from tasks and from interrupt handlers), task
    creations and terminations runs without getting stuck and comes back to a
    task context: one running task, which is the current one, and a consistent
    scheduler.  One CPU, as generated; the idle task never blocks. *)

From S2P Require Export Prelude.
From S2P Require Export SchedOps.

(** What the scheduler's callers see of the kernel. *)
Record kst `{!SmpConfig} (k : kernel) (nest : nat) (irq : bool) (cur nxt : ptr) (s : Scheduler) : Prop := {
  ks_ok : machine_ok (mach k);
  ks_nest : critical_nest (mach k) = nest;
  ks_irq : irq_on (mach k) = irq;
  ks_cur : CURRENT_TCB (mach k) = cur;
  ks_nxt : NEXT_TCB (mach k) = nxt;
  ks_sched : SCHEDULER k = mk_mutex false (Some s);
}.

(** The interrupt flag after a critical section entered at depth [nest]. *)
Definition irq_after (nest : nat) (irq : bool) (cur : ptr) : bool :=
  if nest =? 0 then bool_decide (cur ≠ None) else irq.

Definition only_running (h : heap) (p : ptr) : Prop :=
  ∀ y t, h !! y = Some t → state t = Running → p = Some y.

(** [idle] can be picked, or runs. *)
Definition idle_ok (idle : nat) (h : heap) : Prop :=
  ∃ t, h !! idle = Some t ∧ (state t = Ready ∨ state t = Running).

(** The queues and the pool. *)
Record pcore `{!SmpConfig} (k : kernel) (s : Scheduler) (qss : list (list (list nat))) (sl fl : list nat) : Prop := {
  pc_wf : sched_wf None (tcbs k) s qss sl;
  pc_slab : slab_wf TASK_CAP (TCB_POOL k) fl;
  pc_dom : ∀ x, is_Some (tcbs k !! x) ↔ x < TASK_CAP ∧ x ∉ fl;
  pc_ids : task_id_counter s = Z.of_nat (size (tcbs k));
}.

Definition is_blocked (h : heap) (y : nat) : Prop := ∃ t, h !! y = Some t ∧ state t = Blocked.
Definition keeps_blocked (h h' : heap) : Prop := ∀ y, is_blocked h y → is_blocked h' y.

(** ... and the idle task, and tasks [B] that wait in some queue. *)
Record core `{!SmpConfig} (idle : nat) (B : list nat) (k : kernel) (s : Scheduler) (qss : list (list (list nat)))
    (sl fl : list nat) : Prop := {
  co_pcore : pcore k s qss sl fl;
  co_idle : idle_ok idle (tcbs k);
  co_blocked : ∀ y, y ∈ B → is_blocked (tcbs k) y;
}.

(** At most [p] runs, and it does. *)
Definition run_at (h : heap) (p : ptr) : Prop :=
  only_running h p ∧ ∀ x, p = Some x → ∃ t, h !! x = Some t ∧ state t = Running.

Definition kernel_at `{!SmpConfig} (idle : nat) (B : list nat) (k : kernel) (n : nat) (irq : bool) (cur : nat) (nxt run : ptr) : Prop :=
  ∃ s qss sl fl, kst k n irq (Some cur) nxt s ∧ core idle B k s qss sl fl
    ∧ is_Some (tcbs k !! cur) ∧ run_at (tcbs k) run.

(** The task context: interrupts enabled, one running task. *)
Definition task_context `{!SmpConfig} (idle : nat) (B : list nat) (k : kernel) : Prop :=
  ∃ cur, kernel_at idle B k 0 true cur (Some cur) (Some cur).

(** ** The operations of a running kernel *)

Inductive kop : Type :=
  | OpTimer                          (* the timer interrupt *)
  | OpYield                          (* the current task yields *)
  | OpDelay (n : Z)                  (* ... sleeps *)
  | OpBlock                          (* ... blocks, [WaitQueue::wait] *)
  | OpExit                           (* ... exits, the exit system call *)
  | OpWake (x : nat)                 (* ... wakes a task *)
  | OpIrq (xs : list nat)            (* an external interrupt whose handler wakes tasks *)
  | OpCreate (entry stack words : Z) (prio : nat) (name : string) (cpu : nat).

Section kops.
Context `{!SmpConfig} (tcb_base tcb_step : Z).

Fixpoint wake_list (k : kernel) (xs : list nat) : exec kernel :=
  match xs with
  | [] => Done k
  | x :: xs => '(_, k) ← wake_blocked_task k (Some x); wake_list k xs
  end.

Definition block_and_yield (k : kernel) : exec kernel :=
  '(blocked, k) ← block_current_task_irq_disabled (with_mach k (disable_irq (mach k)));
  let k := with_mach k (enable_irq (mach k)) in
  if blocked : bool then yield_task k else Done k.

Definition run_kop (k : kernel) (op : kop) : exec kernel :=
  match op with
  | OpTimer => timer_trap k
  | OpYield => yield_task k
  | OpDelay n => delay k n
  | OpBlock => block_and_yield k
  | OpExit => trap k (λ k, '(_, k) ← terminate_current k; Done k)
  | OpWake x => '(_, k) ← wake_blocked_task k (Some x); Done k
  | OpIrq xs => external_trap k (λ k, wake_list k xs)
  | OpCreate entry stack words prio name cpu =>
      '(_, k) ← create_task_on_cpu tcb_base tcb_step k entry stack words prio name cpu; Done k
  end.

(** The tasks the operation wakes. *)
Definition kop_wakes (op : kop) : list nat :=
  match op with OpWake x => [x] | OpIrq xs => xs | _ => [] end.

Fixpoint run_kops (k : kernel) (ops : list kop) : exec kernel :=
  match ops with [] => Done k | op :: ops => k ← run_kop k op; run_kops k ops end.

(** [kernel_main]: the scheduler, the idle and root tasks, the first task. *)
Definition boot (idle_entry idle_stack idle_words root_entry root_stack root_words : Z) : exec kernel :=
  k ← sched_init kernel_boot;
  k ← init_system_tasks tcb_base tcb_step k idle_entry idle_stack idle_words root_entry root_stack root_words;
  '(_, k) ← schedule k;
  start_first_task k.

Definition stack_ok (stack words : Z) : Prop :=
  (0 <= stack)%Z ∧ (36 <= words)%Z ∧ (stack + words * REG_BYTES < 2 ^ 64)%Z.

(** The idle task only waits for interrupts; woken tasks exist; a task is
    created on a stack of at least 36 words while the pool has a free slot. *)
Definition kop_allowed (idle : nat) (k : kernel) (op : kop) : Prop :=
  match op with
  | OpTimer | OpYield => True
  | OpDelay _ | OpBlock | OpExit => CURRENT_TCB (mach k) ≠ Some idle
  | OpWake x => is_Some (tcbs k !! x)
  | OpIrq xs => ∀ x, x ∈ xs → is_Some (tcbs k !! x)
  | OpCreate _ stack words _ _ _ =>
      stack_ok stack words ∧ free_head (TCB_POOL k) ≠ None
  end.
End kops.

Section kernel.
Context `{!SmpConfig}.

Lemma kst_section (k : kernel) (n : nat) (irq : bool) (cur nxt : ptr) (s : Scheduler) :
  kst k n irq cur nxt s → let m0 := disable_irq (disable_irq (mach k)) in
  machine_ok m0 ∧ critical_nest m0 = S (S n) ∧ CURRENT_TCB m0 = cur ∧ NEXT_TCB m0 = nxt
  ∧ irq_on m0 = irq && negb (n =? 0).
Proof.
  intros [H1 H2 H3 H4 H5 H6] m0. destruct (disable_irq_spec _ H1) as (D1&D2&D3&D4&D5).
  destruct (disable_irq_spec _ D1) as (E1&E2&E3&E4&E5). unfold m0. split_and!; try congruence.
  rewrite E3, D3, D2, H2, H3. cbn. by rewrite andb_true_r.
Qed.

(** A critical section whose body keeps the nesting depth. *)
Lemma with_sched_spec {A} (k : kernel) (n : nat) (irq : bool) (cur nxt : ptr) (s s' : Scheduler) (dflt a : A)
    (f : heap → Scheduler → machine → exec (A * heap * Scheduler * machine)) (h' : heap) (m2 : machine) :
  kst k n irq cur nxt s → let m0 := disable_irq (disable_irq (mach k)) in
  f (tcbs k) s m0 = Done (a, h', s', m2) → CURRENT_TCB m2 = cur → irq_on m2 = irq_on m0 →
  (machine_ok m0 → machine_ok m2 ∧ critical_nest m2 = critical_nest m0) →
  ∃ k', with_sched k dflt f = Done (a, k') ∧ kst k' n (irq_after n irq cur) cur (NEXT_TCB m2) s'
    ∧ TCB_POOL k' = with_heap (TCB_POOL k) h' ∧ clock k' = clock k ∧ mem k' = mem k.
Proof.
  intros Hk m0 Hf Hcur Hirq Hok. pose proof (kst_section k n irq cur nxt s Hk) as (M1&M2&M3&M4&M5).
  fold m0 in M1, M2, M3, M4, M5. destruct (Hok M1) as [O1 O2].
  unfold with_sched, locked_section. cbn [mach with_mach SCHEDULER]. rewrite (ks_sched _ _ _ _ _ _ Hk).
  unfold lock. cbn [locked value mbind exec_bind]. fold m0.
  change (tcbs (with_mach k (disable_irq (mach k)))) with (tcbs k). rewrite Hf. cbn [mbind exec_bind unlock value].
  destruct (enable_irq_spec m2 O1) as (E1&E2&E3&E4&E5).
  destruct (enable_irq_spec (enable_irq m2) E1) as (F1&F2&F3&F4&F5).
  eexists. split; [done|]. split; [|done]. split; cbn; try congruence.
  - rewrite F2, E2, O2, M2. done.
  - rewrite F3, E2, E3, O2, M2, E4, Hcur, Hirq, M5. unfold irq_after. cbn.
    destruct n as [|n]; cbn; [destruct (bool_decide (cur ≠ None)); [done|apply andb_false_r]|].
    destruct n; cbn; by rewrite andb_true_r.
Qed.

End kernel.

#[local] Opaque tick_update_locked.

Section single.
Context `{!SmpConfig} (idle : nat).
Hypothesis one_cpu : max_cpus = 1.

Lemma cpu_zero : current_scheduler_cpu_id = 0.
Proof. pose proof current_scheduler_cpu_id_lt. lia. Qed.

Lemma ready_one (h : heap) (s : Scheduler) (qss : list (list (list nat))) (sl : list nat) :
  sched_wf None h s qss sl → ∃ qs, qss !! 0 = Some qs ∧ ∀ x, x ∈ ready_of qss → x ∈ concat qs.
Proof.
  intros Hwf. destruct (wf_lookup _ _ _ _ _ Hwf 0 ltac:(lia)) as (cs&qs&_&Hqs&_). exists qs. split; [done|].
  intros x (c&qs'&Hc&Hx)%elem_of_ready.
  assert (c < length qss) by (by eapply lookup_lt_Some). pose proof (sw_qlen _ _ _ _ _ Hwf).
  assert (c = 0) as -> by lia. congruence.
Qed.

Lemma idle_listed (h : heap) (s : Scheduler) (qss : list (list (list nat))) (sl : list nat) :
  sched_wf None h s qss sl → idle ∈ ready_of qss → idle_ok idle h.
Proof. intros Hwf Hi. destruct (wf_ready_state _ _ _ _ _ Hwf idle Hi) as (t&?&?&_). exists t. auto. Qed.

(** Tasks outside of a queue that did not change keep their state. *)
Lemma state_same (h h' : heap) (y : nat) (t : TaskControlBlock) :
  same_but_next (h !! y) (h' !! y) → h' !! y = Some t → ∃ t0, h !! y = Some t0 ∧ state t0 = state t.
Proof.
  intros Hs Hy. destruct (h !! y) as [t0|] eqn:E.
  - destruct (same_but_next_Some _ _ t0 Hs eq_refl) as [n Hn]. exists t0. split; [done|]. by simplify_map_eq.
  - unfold same_but_next in Hs. by rewrite Hy in Hs.
Qed.

Lemma same_but_next_blocked (h h' : heap) (y : nat) :
  same_but_next (h !! y) (h' !! y) → is_blocked h y → is_blocked h' y.
Proof.
  intros Hs (t&Hy&Hst). destruct (same_but_next_Some _ _ t Hs Hy) as [nx Hnx]. by exists (set_next t nx).
Qed.

Lemma picked_runs (h : heap) (m : machine) (qss : list (list (list nat))) (sl : list nat) (b : bool)
    (h' : heap) (s s' : Scheduler) (m' : machine) (qss' : list (list (list nat))) (o : ptr) :
  sched_wf None h s qss sl → picked h m 0 qss sl b h' s' m' qss' o → only_running h None → idle_ok idle h →
  ∃ n t, NEXT_TCB m' = Some n ∧ h' !! n = Some t ∧ state t = Running ∧ only_running h' (Some n) ∧ idle_ok idle h'.
Proof.
  intros Hwf Hpk Hno (ti&Hi&Hst).
  assert (Hin : idle ∈ ready_of qss).
  { destruct Hst as [Hst|Hst]; [by eapply (sw_ready _ _ _ _ _ Hwf idle)|]. by specialize (Hno idle ti Hi Hst). }
  destruct (ready_one h s qss sl Hwf) as (qs&Hqs&Hall).
  destruct (pk_local _ _ _ _ _ _ _ _ _ _ _ Hpk qs Hqs) as [Hsome _].
  destruct Hsome as (n&qs'&->&_&_); [intros Hn; specialize (Hall idle Hin); rewrite Hn in Hall; by apply elem_of_nil in Hall|].
  destruct (pk_task _ _ _ _ _ _ _ _ _ _ _ Hpk n eq_refl) as (t&Hn&Hn').
  exists n, (chosen t 0). split_and!; [apply Hpk|done|done| |].
  - intros y ty Hy Hsty. f_equal. destruct (decide (y ∈ ready_of qss)) as [Hyr|Hyr].
    + pose proof (pk_perm _ _ _ _ _ _ _ _ _ _ _ Hpk) as Hp. rewrite Hp in Hyr.
      apply elem_of_cons in Hyr as [->|Hyr]; [done|].
      destruct (wf_ready_state _ _ _ _ _ (pk_wf _ _ _ _ _ _ _ _ _ _ _ Hpk) y Hyr) as (ty'&Hy'&Hs'&_). congruence.
    + rewrite (pk_frame _ _ _ _ _ _ _ _ _ _ _ Hpk) in Hy by done. by specialize (Hno y ty Hy Hsty).
  - pose proof (pk_perm _ _ _ _ _ _ _ _ _ _ _ Hpk) as Hp. rewrite Hp in Hin.
    apply elem_of_cons in Hin as [Heq|Hin].
    + exists (chosen t 0). rewrite Heq. split; [done|by right].
    + eapply idle_listed; [apply Hpk|done].
Qed.

Lemma schedule_runs (h : heap) (s : Scheduler) (m : machine) (qss : list (list (list nat))) (sl : list nat) (cur : nat) :
  sched_wf None h s qss sl → CURRENT_TCB m = Some cur → is_Some (h !! cur) → only_running h (Some cur) → idle_ok idle h →
  ∃ b h' s' m' qss' n t, schedule_locked h s m = Done (b, h', s', m') ∧ sched_wf None h' s' qss' sl
    ∧ NEXT_TCB m' = Some n ∧ h' !! n = Some t ∧ state t = Running ∧ only_running h' (Some n) ∧ idle_ok idle h'
    ∧ CURRENT_TCB m' = Some cur ∧ irq_on m' = irq_on m
    ∧ (machine_ok m → machine_ok m' ∧ critical_nest m' = critical_nest m)
    ∧ same_cores h h' ∧ task_id_counter s' = task_id_counter s ∧ keeps_blocked h h'.
Proof.
  intros Hwf Hcur [tc Hc] Hrun Hidle. unfold schedule_locked. rewrite cpu_zero.
  assert (Hok : cur_ok h m) by (intros p Hp; rewrite Hcur in Hp; injection Hp as <-; by exists tc).
  destruct (schedule_spec h s m 0 qss sl ltac:(lia) Hwf Hok ltac:(lia)) as (b&h'&s'&m'&Heq&Hout).
  pose proof (schedule_ids _ _ _ _ _ _ _ _ Heq) as Hids. exists b, h', s', m'. destruct Hout as [Hk|Hp].
  - destruct Hk as (x&t&(Hx1&Hx&Hst)&Hnx&Hcu&Hi&Hmo&_&->&Hwf'&_). rewrite Hcur in Hx1. injection Hx1 as <-.
    exists qss, cur, t. split_and!; try done. by intros y.
  - destruct Hp as (h1&qss1&qss'&o&Hrq&Hpk). exists qss'.
    assert (H1 : ∃ s1, sched_wf None h1 s1 qss1 sl ∧ only_running h1 None ∧ idle_ok idle h1 ∧ same_cores h h1 ∧ keeps_blocked h h1).
    { destruct Hrq as [[s1 Hwf1] [(x&t&(Hx1&Hx&Hst)&_&Hx'&Hsn&_)|(Hno&->&->)]]; exists s1.
      - assert (x = cur) as -> by congruence. split_and!; [done| | |by eapply same_but_next_cores|].
        + intros y ty Hy Hsty. exfalso. destruct (decide (y = cur)) as [->|Hne]; [by simplify_map_eq|].
          destruct (state_same h h1 y ty (Hsn y Hne) Hy) as (t0&Ht0&Hs0). 
          assert (Some cur = Some y) by (apply (Hrun y t0 Ht0); congruence). congruence.
        + destruct Hidle as (ti&Hi&Hsi). destruct (decide (idle = cur)) as [Hic|Hne]; [eexists; rewrite Hic; split; [done|by left]|].
          destruct (same_but_next_Some _ _ ti (Hsn idle Hne) Hi) as [n Hn]. by exists (set_next ti n).
        + intros y Hb. destruct (decide (y = cur)) as [->|Hne]; [destruct Hb as (tb&?&?); congruence|].
          by eapply same_but_next_blocked; [apply Hsn|].
      - split_and!; [done| |done|done|by intros y]. intros y ty Hy Hsty. exfalso. eapply Hno. split_and!; [|done|done].
        rewrite Hcur. by eapply Hrun. }
    destruct H1 as (s1&Hwf1&Hno1&Hid1&Hco1&Hbl1).
    destruct (picked_runs h1 m qss1 sl b h' s1 s' m' qss' o Hwf1 Hpk Hno1 Hid1) as (n&t&Hn&Ht&Hst&Hon&Hid).
    exists n, t. split_and!; try done; try apply Hpk.
    + rewrite (pk_current _ _ _ _ _ _ _ _ _ _ _ Hpk). done.
    + eapply same_cores_trans; [done|apply Hpk].
    + intros y Hb. destruct (Hbl1 y Hb) as (tb&Hy&Hsb). exists tb. split; [|done].
      rewrite (pk_frame _ _ _ _ _ _ _ _ _ _ _ Hpk); [done|]. intros Hin.
      destruct (wf_ready_state _ _ _ _ _ Hwf1 y Hin) as (ty&?&?&_). congruence.
Qed.

(** ** From the locked operations to the kernel's *)

Lemma co_wf {B : list nat} (k : kernel) s qss sl fl : core idle B k s qss sl fl → sched_wf None (tcbs k) s qss sl.
Proof. intros H'. apply H'. Qed.

Definition same_dom (h h' : heap) : Prop := ∀ y, is_Some (h' !! y) ↔ is_Some (h !! y).

Lemma same_cores_same_dom (h h' : heap) : same_cores h h' → same_dom h h'.
Proof.
  intros Hs y. split; [|by apply same_cores_dom]. intros [t Ht]. specialize (Hs y). rewrite Ht in Hs.
  destruct (h !! y); [by eexists|done].
Qed.

Lemma same_dom_size (h h' : heap) : same_dom h h' → size h' = size h.
Proof.
  intros Hd. rewrite <- !(size_dom (D := gset nat)). f_equal. apply set_eq. intros y.
  rewrite !elem_of_dom. apply Hd.
Qed.

Lemma next_dom (h h' : heap) (x : nat) : is_Some (h !! x) → is_Some (h' !! x) →
  (∀ y, y ≠ x → same_but_next (h !! y) (h' !! y)) → same_dom h h'.
Proof.
  intros Hx Hx' Hs y. destruct (decide (y = x)) as [->|Hne]; [done|]. specialize (Hs y Hne).
  unfold same_but_next in Hs. destruct (h !! y), (h' !! y); done || (split; intros []; discriminate) || (by split; eexists).
Qed.

(** A locked operation re-establishes the core. *)
Lemma pcore_step (k k' : kernel) (s s' : Scheduler) (qss qss' : list (list (list nat))) (sl sl' fl : list nat) (h' : heap) :
  pcore k s qss sl fl → TCB_POOL k' = with_heap (TCB_POOL k) h' → same_dom (tcbs k) h' →
  sched_wf None h' s' qss' sl' → task_id_counter s' = task_id_counter s →
  pcore k' s' qss' sl' fl.
Proof.
  intros [H1 H2 H3 H5] Hp Hd Hwf Hids.
  assert (Ht : tcbs k' = h') by (unfold tcbs; rewrite Hp; done).
  split; rewrite ?Ht; try done.
  - rewrite Hp. destruct H2 as [S1 S2 S3 S4 S5 S6]. split; try done. intros x Hx. cbn.
    destruct (h' !! x) as [t|] eqn:E; [|done]. exfalso.
    assert (Hs : is_Some (tcbs k !! x)) by (apply Hd; by eexists). apply H3 in Hs as [_ Hs]. done.
  - intros x. by rewrite (Hd x).
  - rewrite Hids, H5. f_equal. symmetry. by apply same_dom_size.
Qed.

Lemma core_step {B B' : list nat} (k k' : kernel) (s s' : Scheduler) (qss qss' : list (list (list nat))) (sl sl' fl : list nat) (h' : heap) :
  core idle B k s qss sl fl → TCB_POOL k' = with_heap (TCB_POOL k) h' → same_dom (tcbs k) h' →
  sched_wf None h' s' qss' sl' → idle_ok idle h' → task_id_counter s' = task_id_counter s →
  (∀ y, y ∈ B' → is_blocked h' y) →
  core idle B' k' s' qss' sl' fl.
Proof.
  intros [Hpc _ _] Hp Hd Hwf Hi Hids Hb. split; [by eapply pcore_step|..]; unfold tcbs; by rewrite Hp.
Qed.

(** A locked operation that picks the next task. *)
Lemma with_sched_next {B : list nat} (k : kernel) (n : nat) (irq : bool) (cur nx : nat) (nxt : ptr) (s s' : Scheduler)
    (qss qss' : list (list (list nat))) (sl sl' fl : list nat) (dflt b : bool) f (h' : heap) (m' : machine)
    (t : TaskControlBlock) :
  kst k n irq (Some cur) nxt s → core idle B k s qss sl fl → is_Some (tcbs k !! cur) →
  let m0 := disable_irq (disable_irq (mach k)) in
  f (tcbs k) s m0 = Done (b, h', s', m') → sched_wf None h' s' qss' sl' →
  NEXT_TCB m' = Some nx → h' !! nx = Some t → state t = Running → only_running h' (Some nx) → idle_ok idle h' →
  CURRENT_TCB m' = Some cur → irq_on m' = irq_on m0 →
  (machine_ok m0 → machine_ok m' ∧ critical_nest m' = critical_nest m0) →
  same_cores (tcbs k) h' → task_id_counter s' = task_id_counter s → (∀ y, y ∈ B → is_blocked h' y) →
  ∃ k', with_sched k dflt f = Done (b, k')
    ∧ kernel_at idle B k' n (irq_after n irq (Some cur)) cur (Some nx) (Some nx).
Proof.
  intros Hk Hco Hcur m0 Hf Hwf Hnx Ht Hst Hon Hid Hcu Hirq Hmo Hcore Hids Hbl.
  destruct (with_sched_spec k n irq (Some cur) nxt s s' dflt b f h' m' Hk Hf Hcu Hirq Hmo)
    as (k'&Hk'&Hkst&Hpool&_).
  assert (Htc : tcbs k' = h') by (unfold tcbs; by rewrite Hpool).
  exists k'. rewrite Hnx in Hkst. split; [done|]. exists s', qss', sl', fl. split; [done|]. rewrite Htc. split_and!.
  - eapply core_step; [done|done|by apply same_cores_same_dom|done|done|done|done].
  - by eapply same_cores_dom.
  - split; [done|]. intros x [= <-]. by exists t.
Qed.

Lemma schedule_k {B : list nat} (k : kernel) (n : nat) (irq : bool) (cur : nat) (nxt run : ptr) :
  kernel_at idle B k n irq cur nxt run → run = Some cur ∨ run = None →
  ∃ b k' nx, schedule k = Done (b, k') ∧ kernel_at idle B k' n (irq_after n irq (Some cur)) cur (Some nx) (Some nx).
Proof.
  intros (s&qss&sl&fl&Hk&Hco&Hcur&[Hrun _]) Hr.
  assert (Hrun' : only_running (tcbs k) (Some cur)).
  { intros y t Hy Hst. specialize (Hrun y t Hy Hst). destruct Hr as [->| ->]; done. }
  destruct (kst_section k n irq (Some cur) nxt s Hk) as (M1&M2&M3&M4&M5).
  destruct (schedule_runs (tcbs k) s _ qss sl cur (co_wf _ _ _ _ _ Hco) M3 Hcur Hrun' (co_idle _ _ _ _ _ _ _ Hco))
    as (b&h'&s'&m'&qss'&nx&t&Heq&Hwf&Hnx&Ht&Hst&Hon&Hid&Hcu&Hirq&Hmo&Hcore&Hids&Hbl).
  destruct (with_sched_next (B := B) k n irq cur nx nxt s s' qss qss' sl sl fl false b schedule_locked h' m' t)
    as (k'&Hk'&Hat); try done; [|by exists b, k', nx].
  intros y Hy. by apply Hbl, Hco.
Qed.

(** The state seen by a locked operation of a kernel. *)
Lemma kernel_locked (k : kernel) (n : nat) (irq : bool) (cur : nat) (nxt : ptr) (s : Scheduler) :
  kst k n irq (Some cur) nxt s → is_Some (tcbs k !! cur) →
  let m0 := disable_irq (disable_irq (mach k)) in
  machine_ok m0 ∧ CURRENT_TCB m0 = Some cur ∧ NEXT_TCB m0 = nxt ∧ cur_ok (tcbs k) m0.
Proof.
  intros Hk Hcur m0. destruct (kst_section k n irq (Some cur) nxt s Hk) as (M1&M2&M3&M4&M5).
  split_and!; [done..|]. intros p Hp. unfold m0 in Hp. rewrite M3 in Hp. by injection Hp as <-.
Qed.

(** A locked operation that leaves [CURRENT_TCB] and [NEXT_TCB] alone. *)
Lemma with_sched_like {B B' : list nat} {A} (k : kernel) (n : nat) (irq : bool) (cur : nat) (nxt run : ptr) (s s' : Scheduler)
    (qss qss' : list (list (list nat))) (sl sl' fl : list nat) (dflt a : A) f (h' : heap) (m2 : machine) :
  kst k n irq (Some cur) nxt s → core idle B k s qss sl fl → is_Some (tcbs k !! cur) →
  f (tcbs k) s (disable_irq (disable_irq (mach k))) = Done (a, h', s', m2) →
  mach_like (disable_irq (disable_irq (mach k))) m2 →
  same_dom (tcbs k) h' → sched_wf None h' s' qss' sl' → idle_ok idle h' → task_id_counter s' = task_id_counter s →
  run_at h' run → (∀ y, y ∈ B' → is_blocked h' y) →
  ∃ k', with_sched k dflt f = Done (a, k') ∧ kernel_at idle B' k' n (irq_after n irq (Some cur)) cur nxt run
    ∧ tcbs k' = h' ∧ clock k' = clock k.
Proof.
  intros Hk Hco Hcur Hf Hm Hd Hwf Hid Hids Hrun Hbl.
  destruct (kernel_locked k n irq cur nxt s Hk Hcur) as (M1&M2&M3&M4).
  destruct (with_sched_spec k n irq (Some cur) nxt s s' dflt a f h' m2 Hk Hf) as (k'&Hk'&Hkst&Hpool&Hcl&_).
  { rewrite (ml_current _ _ Hm). done. }
  { apply Hm. }
  { apply Hm. }
  rewrite (ml_next _ _ Hm), M3 in Hkst.
  assert (Htc : tcbs k' = h') by (unfold tcbs; by rewrite Hpool).
  exists k'. split_and!; [done| |done|done]. exists s', qss', sl', fl. rewrite Htc.
  split_and!; [done|by eapply core_step|by apply Hd|done].
Qed.

Lemma run_at_same (h h' : heap) (run : ptr) :
  (∀ y t, h' !! y = Some t → state t = Running → ∃ t0, h !! y = Some t0 ∧ state t0 = Running) →
  (∀ y t, h !! y = Some t → state t = Running → ∃ t0, h' !! y = Some t0 ∧ state t0 = Running) →
  run_at h run → run_at h' run.
Proof.
  intros Hb Hf [H1 H2]. split.
  - intros y t Hy Hst. destruct (Hb y t Hy Hst) as (t0&Hy0&Hst0). eauto.
  - intros x Hx. destruct (H2 x Hx) as (t&Ht&Hst). eauto.
Qed.

Lemma running_frame (h h' : heap) (s' : Scheduler) (qss' : list (list (list nat))) (sl' : list nat) (x y : nat)
    (t : TaskControlBlock) :
  sched_wf None h' s' qss' sl' → x ∈ ready_of qss' → (y ≠ x → same_but_next (h !! y) (h' !! y)) →
  h' !! y = Some t → state t = Running → ∃ t0, h !! y = Some t0 ∧ state t0 = Running.
Proof.
  intros Hwf Hx Hs Hy Hst. destruct (decide (y = x)) as [->|Hne].
  - destruct (wf_ready_state _ _ _ _ _ Hwf x Hx) as (tx&Htx&?&_). congruence.
  - destruct (state_same h h' y t (Hs Hne) Hy) as (t0&?&?). exists t0. split; congruence.
Qed.

Lemma tick_update_k {B : list nat} (k : kernel) (n : nat) (irq : bool) (cur : nat) (nxt run : ptr) :
  kernel_at idle B k n irq cur nxt run →
  ∃ k', tick_update k = Done k' ∧ kernel_at idle B k' n (irq_after n irq (Some cur)) cur nxt run
    ∧ same_dom (tcbs k) (tcbs k').
Proof.
  intros (s&qss&sl&fl&Hk&Hco&Hcur&Hrun).
  destruct (kernel_locked k n irq cur nxt s Hk Hcur) as (M1&M2&M3&M4).
  destruct (tick_update_spec (ticks (clock k)) (tcbs k) s _ qss sl (co_wf _ _ _ _ _ Hco) M4)
    as (h'&s'&m'&qss'&Heq&Hwf&Hperm&Hcore&Hml&Hsn).
  assert (Hids : task_id_counter s' = task_id_counter s).
  { exact (tick_update_ids _ _ _ _ _ _ _ _ Heq). }
  assert (Hback : ∀ y t, h' !! y = Some t → state t = Running → ∃ t0, tcbs k !! y = Some t0 ∧ state t0 = Running).
  { intros y t Hy Hst. destruct (decide (y ∈ filter (λ x, due_task (tcbs k) (ticks (clock k)) x = true) sl)) as [Hin|Hin].
    - destruct (wf_ready_state _ _ _ _ _ Hwf y) as (t'&Ht'&?&_); [rewrite Hperm; apply elem_of_app; by left|congruence].
    - rewrite list_elem_of_filter in Hin. destruct (state_same (tcbs k) h' y t) as (t0&?&?); [|done|exists t0; split; congruence].
      apply Hsn. destruct (due_task (tcbs k) (ticks (clock k)) y); [right; tauto|by left]. }
  assert (Hfwd : ∀ y t, tcbs k !! y = Some t → state t ≠ Sleeping → ∃ t0, h' !! y = Some t0 ∧ state t0 = state t).
  { intros y t Hy Hst. assert (Hys : y ∉ sl).
    { intros Hin. destruct (sw_sleeping _ _ _ _ _ (co_wf _ _ _ _ _ Hco) y Hin) as (t'&?&?). congruence. }
    destruct (same_but_next_Some _ _ t (Hsn y (or_intror Hys)) Hy) as [nx Hnx]. by exists (set_next t nx). }
  destruct (with_sched_like (B' := B) k n irq cur nxt run s s' qss qss' sl
              (filter (λ x, due_task (tcbs k) (ticks (clock k)) x = false) sl) fl tt tt (tick_update_locked (ticks (clock k))) h' m'
              Hk Hco Hcur Heq Hml) as (k'&Hk'&Hat&Htc&_).
  - by apply same_cores_same_dom.
  - done.
  - destruct (co_idle _ _ _ _ _ _ _ Hco) as (t&Ht&Hst). destruct (Hfwd idle t Ht) as (t0&Ht0&Hs0); [by destruct Hst as [->| ->]|].
    exists t0. by rewrite Hs0.
  - done.
  - eapply run_at_same; [done| |done]. intros y t Hy Hst. destruct (Hfwd y t Hy) as (t0&?&?); [congruence|].
    exists t0. split; congruence.
  - intros y Hy. destruct (co_blocked _ _ _ _ _ _ _ Hco y Hy) as (t&Ht&Hst).
    destruct (Hfwd y t Ht) as (t0&?&?); [congruence|]. exists t0. split; congruence.
  - exists k'. unfold tick_update. rewrite Hk'. split_and!; [done|done|]. rewrite Htc. by apply same_cores_same_dom.
Qed.

Lemma wake_k {B : list nat} (k : kernel) (n : nat) (irq : bool) (cur x : nat) (nxt run : ptr) :
  kernel_at idle B k n irq cur nxt run → is_Some (tcbs k !! x) → x ∉ B →
  ∃ b k', with_sched k false (wake_locked x) = Done (b, k') ∧ (is_blocked (tcbs k) x → b = true ∧ ∃ t, tcbs k' !! x = Some t ∧ state t = Ready)
    ∧ kernel_at idle B k' n (irq_after n irq (Some cur)) cur nxt run ∧ same_dom (tcbs k) (tcbs k').
Proof.
  intros (s&qss&sl&fl&Hk&Hco&Hcur&Hrun) [t Hx] HxB.
  destruct (kernel_locked k n irq cur nxt s Hk Hcur) as (M1&M2&M3&M4).
  pose proof (wake_spec x (tcbs k) s _ qss sl t (co_wf _ _ _ _ _ Hco) M4 Hx) as Hw. case_bool_decide as Hst.
  - destruct Hw as (h'&s'&qss'&Heq&Hwf&Hperm&(t'&Hx'&Hst')&Hsn&_).
    assert (Hd : same_dom (tcbs k) h') by (eapply (next_dom _ _ x); [by eexists|by eexists|done]).
    assert (Hfwd : ∀ y ty, tcbs k !! y = Some ty → state ty ≠ Blocked → ∃ t0, h' !! y = Some t0 ∧ state t0 = state ty).
    { intros y ty Hy Hs. assert (Hyx : y ≠ x) by (intros ->; congruence).
      destruct (same_but_next_Some _ _ ty (Hsn y Hyx) Hy) as [nx Hnx]. by exists (set_next ty nx). }
    destruct (with_sched_like (B' := B) k n irq cur nxt run s s' qss qss' sl sl fl false true (wake_locked x) h' _
                Hk Hco Hcur Heq (mach_like_sync _)) as (k'&Hk'&Hat&Htc&_); try done.
    + destruct (co_idle _ _ _ _ _ _ _ Hco) as (ti&Hti&Hsti).
      destruct (Hfwd idle ti Hti) as (t0&Ht0&Hs0); [by destruct Hsti as [->| ->]|]. exists t0. by rewrite Hs0.
    + by eapply wake_ids.
    + eapply run_at_same; [| |done].
      * intros y ty Hy Hs. eapply (running_frame _ _ _ _ _ x); [done|rewrite Hperm; by left|apply Hsn|done|done].
      * intros y ty Hy Hs. destruct (Hfwd y ty Hy) as (t0&?&?); [congruence|]. exists t0. split; congruence.
    + intros y Hy. eapply same_but_next_blocked; [|by apply Hco]. apply Hsn. by intros ->.
    + exists true, k'. rewrite Htc. split_and!; [done| |done|done]. intros _. split; [done|]. by exists t'.
  - destruct (with_sched_like (B' := B) k n irq cur nxt run s s qss qss sl sl fl false false (wake_locked x) (tcbs k) _
                Hk Hco Hcur Hw (mach_like_refl _)) as (k'&Hk'&Hat&Htc&_); try done; try apply Hco.
    exists false, k'. rewrite Htc. split_and!; [done| |done|done]. intros (t0&?&?). congruence.
Qed.

(** ** Traps *)

Lemma kernel_at_mach {B : list nat} (k : kernel) (m : machine) (n n' : nat) (irq irq' : bool) (cur cur' : nat) (nxt nxt' run : ptr) :
  kernel_at idle B k n irq cur nxt run → is_Some (tcbs k !! cur') →
  machine_ok m → critical_nest m = n' → irq_on m = irq' → CURRENT_TCB m = Some cur' → NEXT_TCB m = nxt' →
  kernel_at idle B (with_mach k m) n' irq' cur' nxt' run.
Proof.
  intros (s&qss&sl&fl&Hk&[[]]&Hcur&Hrun) Hc' M1 M2 M3 M4 M5.
  exists s, qss, sl, fl. split_and!; try done; split; try done; apply Hk.
Qed.

Lemma trap_k {B : list nat} (k : kernel) (cur : nat) (run : ptr) (handler : kernel → exec kernel) :
  kernel_at idle B k 0 true cur (Some cur) run →
  (∀ m, let k0 := with_mach k m in kernel_at idle B k0 1 false cur (Some cur) run →
     ∃ k1 nx, handler k0 = Done k1 ∧ kernel_at idle B k1 1 false cur (Some nx) (Some nx)) →
  ∃ k', trap k handler = Done k' ∧ task_context idle B k'.
Proof.
  intros Hk Hh. pose proof Hk as (s&qss&sl&fl&Hkst&Hco&Hcur&Hrun). destruct Hkst as [K1 K2 K3 K4 K5 K6].
  assert (Hm0 : machine_ok (set_irq (mach k) false)) by done.
  destruct (Hh (snd (enter_critical (set_irq (mach k) false)))) as (k1&nx&Hk1&Hat1).
  { eapply kernel_at_mach; try done; cbn.
    - by apply set_current_cpu_ok.
    - rewrite critical_nest_set by done. change (critical_nest (set_irq (mach k) false)) with (critical_nest (mach k)).
      by rewrite K2. }
  unfold trap. rewrite Hk1. cbn [mbind exec_bind].
  pose proof Hat1 as (s1&qss1&sl1&fl1&[L1 L2 L3 L4 L5 L6]&Hco1&Hcur1&[Hon Hrun1]).
  assert (Hex : snd (exit_critical (mach k1)) = set_critical_nest (mach k1) 0) by (unfold exit_critical; by rewrite L2).
  rewrite Hex. set (m := set_critical_nest (mach k1) 0).
  assert (Hm : machine_ok m) by (by apply set_current_cpu_ok).
  assert (Hn : critical_nest m = 0) by (by apply critical_nest_set).
  change (CURRENT_TCB m) with (CURRENT_TCB (mach k1)). change (NEXT_TCB m) with (NEXT_TCB (mach k1)).
  rewrite L4, L5. rewrite K3. case_bool_decide as Hsame.
  - injection Hsame as <-. eexists. split; [done|]. exists cur. by eapply kernel_at_mach.
  - cbn [get_exec mbind exec_bind]. eexists. split; [done|]. exists nx.
    destruct (Hrun1 nx eq_refl) as (t&Ht&_). by eapply kernel_at_mach.
Qed.

Lemma schedule_handler {B : list nat} (k : kernel) (cur : nat) (nxt run : ptr) :
  kernel_at idle B k 1 false cur nxt run → run = Some cur ∨ run = None →
  ∃ k1 nx, ('(_, k) ← schedule k; Done k) = Done k1 ∧ kernel_at idle B k1 1 false cur (Some nx) (Some nx).
Proof.
  intros Hk Hr. destruct (schedule_k k 1 false cur nxt run Hk Hr) as (b&k'&nx&Heq&Hat).
  exists k', nx. by rewrite Heq.
Qed.

Lemma yield_k {B : list nat} (k : kernel) (cur : nat) (run : ptr) :
  kernel_at idle B k 0 true cur (Some cur) run → run = Some cur ∨ run = None →
  ∃ k', yield_task k = Done k' ∧ task_context idle B k'.
Proof.
  intros Hk Hr. apply (trap_k k cur run); [done|]. intros m k0 Hk0. by eapply schedule_handler.
Qed.

Lemma timer_k {B : list nat} (k : kernel) (cur : nat) :
  kernel_at idle B k 0 true cur (Some cur) (Some cur) → ∃ k', timer_trap k = Done k' ∧ task_context idle B k'.
Proof.
  intros Hk. apply (trap_k k cur (Some cur)); [done|]. intros m k0 Hk0.
  set (k2 := mk_kernel (TCB_POOL k0) (SCHEDULER k0) (mach k0) (tick (clock k0)) (mem k0)).
  assert (Hk2 : kernel_at idle B k2 1 false cur (Some cur) (Some cur)).
  { destruct Hk0 as (s&qss&sl&fl&[]&[[]]&?&?). exists s, qss, sl, fl. split_and!; [split|split; [split|..]|..]; done. }
  destruct (tick_update_k k2 1 false cur (Some cur) (Some cur) Hk2) as (k3&Heq&Hat&_).
  rewrite Heq. cbn [mbind exec_bind]. eapply schedule_handler; [exact Hat|by left].
Qed.

(** In a critical section nothing preempts; outside, the yield is taken. *)
Lemma yield_if_nested {B : list nat} (k : kernel) (n : nat) (irq : bool) (cur : nat) (nxt run : ptr) :
  kernel_at idle B k (S n) irq cur nxt run →
  ∃ k', yield_if_preempt_pending k = Done k' ∧ kernel_at idle B k' (S n) irq cur nxt run ∧ tcbs k' = tcbs k.
Proof.
  intros Hk. pose proof Hk as (s&qss&sl&fl&[K1 K2 K3 K4 K5 K6]&Hco&Hcur&Hrun).
  destruct (sync_current_nest (mach k) K1) as (S1&S2&S3&S4&S5).
  exists (with_mach k (sync_current (mach k))). split_and!; [|eapply kernel_at_mach; [done..| | | |]; congruence|done].
  assert (Hcp : can_preempt_now (mach k) = (false, sync_current (mach k))).
  { unfold can_preempt_now, has_current_task, in_critical_section. rewrite S2, K2. by rewrite andb_false_r. }
  unfold yield_if_preempt_pending. by rewrite Hcp.
Qed.

Lemma preempt_pending_k {B : list nat} (k : kernel) (n : nat) (cur : nat) (nxt run : ptr) :
  kernel_at idle B k 0 true cur nxt run →
  ∃ b k', sched_preempt_pending k = Done (b, k') ∧ kernel_at idle B k' 0 true cur nxt run ∧ tcbs k' = tcbs k.
Proof.
  intros (s&qss&sl&fl&[K1 K2 K3 K4 K5 K6]&Hco&Hcur&Hrun).
  destruct (disable_irq_spec (mach k) K1) as (D1&D2&D3&D4&D5).
  destruct (wf_lookup _ _ _ _ _ (co_wf _ _ _ _ _ Hco) 0 ltac:(lia)) as (cs&qs&Hcs&Hqs&Hr).
  assert (Hb : ∃ b m', (if preempt_pending cs then has_higher_ready_than_current (tcbs k) cs (disable_irq (mach k))
      else Done (false, disable_irq (mach k))) = Done (b, m') ∧ mach_like (disable_irq (mach k)) m').
  { destruct (preempt_pending cs); [|eexists _, _; split; [done|apply mach_like_refl]].
    destruct (has_higher_spec (tcbs k) cs (disable_irq (mach k)) qs) as (b&Heq&_); [|done|].
    - intros p Hp. rewrite D4, K4 in Hp. by injection Hp as <-.
    - eexists _, _. split; [done|apply mach_like_sync]. }
  destruct Hb as (b&m'&Heq&[L1 L2 L3 L4]). destruct (L4 D1) as [M1 M2].
  destruct (enable_irq_spec m' M1) as (E1&E2&E3&E4&E5).
  unfold sched_preempt_pending, locked_section, lock. rewrite K6. cbn [locked value mbind exec_bind].
  rewrite cpu_zero, Hcs. cbn [get_exec mbind exec_bind]. rewrite Heq. cbn [mbind exec_bind unlock value].
  eexists b, _. split; [done|]. split; [|done]. exists s, qss, sl, fl. split; [|split_and!; [|done|done]].
  - split; cbn; try congruence.
    + rewrite E2, M2, D2, K2. done.
    + by rewrite E3, M2, D2, K2, L1, D4, K4.
  - eapply core_step; [done|reflexivity|by intros y|apply Hco|apply Hco|done|apply Hco].
Qed.

Lemma yield_if_k {B : list nat} (k : kernel) (cur : nat) :
  kernel_at idle B k 0 true cur (Some cur) (Some cur) →
  ∃ k', yield_if_preempt_pending k = Done k' ∧ task_context idle B k'.
Proof.
  intros Hk. pose proof Hk as (s&qss&sl&fl&[K1 K2 K3 K4 K5 K6]&Hco&Hcur&Hrun).
  destruct (sync_current_nest (mach k) K1) as (S1&S2&S3&S4&S5).
  assert (Hk1 : kernel_at idle B (with_mach k (sync_current (mach k))) 0 true cur (Some cur) (Some cur)).
  { eapply kernel_at_mach; [done..| | | |]; congruence. }
  assert (Hcp : can_preempt_now (mach k) = (true, sync_current (mach k))).
  { unfold can_preempt_now, has_current_task, in_critical_section. by rewrite S2, K2, K4. }
  unfold yield_if_preempt_pending. rewrite Hcp.
  destruct (preempt_pending_k _ 0 cur _ _ Hk1) as (b&k'&Heq&Hat&_). rewrite Heq. cbn [mbind exec_bind].
  destruct b; [|exists k'; split; [done|by exists cur]]. apply (yield_k k' cur (Some cur)); [done|by left].
Qed.

(** ** Operations that stop the current task *)

Lemma stop_run (h : heap) (cur : nat) (t : TaskControlBlock) :
  run_at h (Some cur) → state t ≠ Running → run_at (<[cur := t]> h) None.
Proof.
  intros [Hon _] Hst. split; [|done]. intros y ty Hy Hs. destruct (decide (y = cur)) as [->|Hne]; [by simplify_map_eq|].
  rewrite lookup_insert_ne in Hy by done. specialize (Hon y ty Hy Hs). congruence.
Qed.

Lemma idle_other (h : heap) (cur : nat) (t : TaskControlBlock) : cur ≠ idle → idle_ok idle h → idle_ok idle (<[cur := t]> h).
Proof. intros Hne (ti&Hi&Hs). exists ti. by rewrite lookup_insert_ne. Qed.

Lemma insert_dom (h : heap) (x : nat) (t : TaskControlBlock) : is_Some (h !! x) → same_dom h (<[x := t]> h).
Proof. 
  intros Hx y. destruct (decide (x = y)) as [<-|Hne]; [|by rewrite lookup_insert_ne].
  rewrite lookup_insert_eq. split; [done|by eexists].
Qed.

Lemma stop_blocked (h : heap) (cur y : nat) (t : TaskControlBlock) :
  run_at h (Some cur) → is_blocked h y → is_blocked (<[cur := t]> h) y.
Proof.
  intros [_ Hr] (tb&Hy&Hst). destruct (Hr cur eq_refl) as (tc&Hc&Hsc).
  exists tb. rewrite lookup_insert_ne; [done|]. intros ->. congruence.
Qed.

Lemma current_running {B : list nat} (k : kernel) (n : nat) (irq : bool) (cur : nat) (nxt : ptr) :
  kernel_at idle B k n irq cur nxt (Some cur) → ∃ t, tcbs k !! cur = Some t ∧ state t = Running.
Proof. intros (s&qss&sl&fl&_&_&_&[_ Hr]). by apply Hr. Qed.

(** The current task asleep, or blocked, and not yet switched out. *)
Lemma delay_stop {B : list nat} (k : kernel) (cur : nat) (w : Z) : cur ≠ idle →
  kernel_at idle B k 0 true cur (Some cur) (Some cur) →
  ∃ k', with_sched k false (delay_locked w) = Done (true, k') ∧ kernel_at idle B k' 0 true cur (Some cur) None.
Proof.
  intros Hne Hk. destruct (current_running _ _ _ _ _ Hk) as (t&Ht&Hst).
  destruct Hk as (s&qss&sl&fl&Hk&Hco&Hcur&Hrun).
  destruct (kernel_locked k 0 true cur (Some cur) s Hk Hcur) as (M1&M2&M3&M4).
  destruct (delay_spec w (tcbs k) s _ qss sl cur t (co_wf _ _ _ _ _ Hco) (conj M2 (conj Ht Hst))) as [Heq Hwf].
  destruct (with_sched_like (B' := B) k 0 true cur (Some cur) None s _ qss qss sl (cur :: sl) fl false true (delay_locked w) _ _
              Hk Hco Hcur Heq (mach_like_sync _)) as (k'&Hk'&Hat&_&_); try done.
  - by apply insert_dom.
  - by apply idle_other, Hco.
  - by apply stop_run.
  - intros y Hy. by apply stop_blocked; [|apply Hco].
  - by exists k'.
Qed.

Lemma delay_k {B : list nat} (k : kernel) (cur : nat) (w : Z) : cur ≠ idle →
  kernel_at idle B k 0 true cur (Some cur) (Some cur) →
  ∃ k', delay k w = Done k' ∧ task_context idle B k'.
Proof.
  intros Hne Hk. unfold delay. destruct (delay_stop k cur (wrapping_add 32 (ticks (clock k)) w) Hne Hk) as (k'&->&Hat).
  cbn [mbind exec_bind]. eapply yield_k; [exact Hat|by right].
Qed.

Lemma terminate_k {B : list nat} (k : kernel) (n : nat) (irq : bool) (cur : nat) (nxt : ptr) : cur ≠ idle →
  kernel_at idle B k n irq cur nxt (Some cur) →
  ∃ b k' nx, terminate_current k = Done (b, k') ∧ kernel_at idle B k' n (irq_after n irq (Some cur)) cur (Some nx) (Some nx).
Proof.
  intros Hne Hk. destruct (current_running _ _ _ _ _ Hk) as (t&Ht&Hst).
  destruct Hk as (s&qss&sl&fl&Hk&Hco&Hcur&Hrun).
  destruct (kst_section k n irq (Some cur) nxt s Hk) as (M1&M2&M3&M4&M5).
  set (m0 := disable_irq (disable_irq (mach k))) in *. set (t' := set_next (set_state t Terminated) None).
  destruct (running_unlisted (tcbs k) s qss sl (Some cur) cur t (co_wf _ _ _ _ _ Hco)) as (Hn&Hq&_); [done|].
  assert (Hwf : sched_wf None (<[cur := t']> (tcbs k)) s qss sl).
  { eapply wf_close; [eapply wf_write; [by apply wf_open; [apply Hco|]|done|]|apply lookup_insert_eq|done..].
    exact (sw_prio _ _ _ _ _ (co_wf _ _ _ _ _ Hco) cur t Ht). }
  pose proof (mach_like_sync m0) as [L1 L2 L3 L4].
  destruct (schedule_runs (<[cur := t']> (tcbs k)) s (sync_current m0) qss sl cur Hwf)
    as (b&h'&s'&m'&qss'&nx&tn&Heq&Hwf'&Hnx&Htn&Hstn&Hon&Hid&Hcu&Hirq&Hmo&Hcore&Hids&Hbl).
  { congruence. }
  { rewrite lookup_insert_eq. by eexists. }
  { destruct (stop_run (tcbs k) cur t' Hrun ltac:(done)) as [Hon _]. intros y ty Hy Hs. by specialize (Hon y ty Hy Hs). }
  { by apply idle_other, Hco. }
  destruct (with_sched_next (B := B) k n irq cur nx nxt s s' qss qss' sl sl fl false b terminate_locked h' m' tn)
    as (k'&Hk'&Hat); try done.
  - unfold terminate_locked. fold m0. rewrite L1, M3. rewrite (upd_Done _ _ _ _ Ht). exact Heq.
  - fold m0. congruence.
  - fold m0. intros Hm. destruct (L4 Hm) as [Hm1 Hn1]. destruct (Hmo Hm1). split; congruence.
  - eapply same_cores_trans; [|done]. by eapply same_cores_insert.
  - intros y Hy. by apply Hbl, stop_blocked; [|apply Hco].
  - by exists b, k', nx.
Qed.

Lemma exit_k {B : list nat} (k : kernel) (cur : nat) : cur ≠ idle → kernel_at idle B k 0 true cur (Some cur) (Some cur) →
  ∃ k', trap k (λ k, '(_, k) ← terminate_current k; Done k) = Done k' ∧ task_context idle B k'.
Proof.
  intros Hne Hk. apply (trap_k k cur (Some cur)); [done|]. intros m k0 Hk0.
  destruct (terminate_k k0 1 false cur (Some cur) Hne Hk0) as (b&k'&nx&Heq&Hat). exists k', nx. by rewrite Heq.
Qed.

Lemma wake_list_k {B : list nat} (xs : list nat) : ∀ (k : kernel) (n : nat) (irq : bool) (cur : nat) (nxt run : ptr),
  kernel_at idle B k (S n) irq cur nxt run → (∀ x, x ∈ xs → is_Some (tcbs k !! x) ∧ (x ∉ B)) →
  ∃ k', wake_list k xs = Done k' ∧ kernel_at idle B k' (S n) irq cur nxt run.
Proof.
  induction xs as [|x xs IH]; intros k n irq cur nxt run Hk Hxs; [by exists k|]. cbn [wake_list wake_blocked_task].
  destruct (Hxs x (list_elem_of_here _ _)) as [Hx HxB].
  destruct (wake_k k (S n) irq cur x nxt run Hk Hx HxB) as (b&k1&Heq&_&Hat&Hd).
  rewrite Heq. cbn [mbind exec_bind]. change (irq_after (S n) irq (Some cur)) with irq in Hat.
  assert (Hxs1 : ∀ y, y ∈ xs → is_Some (tcbs k1 !! y) ∧ (y ∉ B)).
  { intros y Hy. destruct (Hxs y (list_elem_of_further _ _ _ Hy)). split; [by apply Hd|done]. }
  destruct b; cbn [mbind exec_bind]; [|by apply (IH k1 n irq cur nxt run)].
  destruct (yield_if_nested k1 n irq cur nxt run Hat) as (k2&Hy&Hat2&Ht2). rewrite Hy. cbn [mbind exec_bind].
  apply (IH k2 n irq cur nxt run); [done|]. by rewrite Ht2.
Qed.

Lemma irq_k {B : list nat} (k : kernel) (cur : nat) (xs : list nat) :
  kernel_at idle B k 0 true cur (Some cur) (Some cur) → (∀ x, x ∈ xs → is_Some (tcbs k !! x) ∧ (x ∉ B)) →
  ∃ k', external_trap k (λ k, wake_list k xs) = Done k' ∧ task_context idle B k'.
Proof.
  intros Hk Hxs. apply (trap_k k cur (Some cur)); [done|]. intros m k0 Hk0.
  destruct (wake_list_k xs k0 0 false cur (Some cur) (Some cur) Hk0 Hxs) as (k1&Heq&Hat). rewrite Heq.
  cbn [mbind exec_bind]. destruct Hat as (s&qss&sl&fl&Hk1&Hco&Hcur&Hrun).
  destruct (kernel_locked k1 1 false cur (Some cur) s Hk1 Hcur) as (M1&M2&M3&M4).
  set (m0 := disable_irq (disable_irq (mach k1))) in *.
  destruct (wf_lookup _ _ _ _ _ (co_wf _ _ _ _ _ Hco) 0 ltac:(lia)) as (cs&qs&Hcs&Hqs&Hr).
  assert (Hb : ∃ b m', (if preempt_pending cs then has_higher_ready_than_current (tcbs k1) cs m0
      else Done (false, m0)) = Done (b, m') ∧ mach_like m0 m').
  { destruct (preempt_pending cs); [|eexists _, _; split; [done|apply mach_like_refl]].
    destruct (has_higher_spec (tcbs k1) cs m0 qs M4 Hr) as (b&Hb&_).
    eexists _, _; split; [done|apply mach_like_sync]. }
  destruct Hb as (b&m'&Hb&Hml). unfold schedule_if_preempt_pending.
  assert (Hf : schedule_if_preempt_pending_locked (tcbs k1) s m0
    = if b then schedule_cpu_locked (tcbs k1) s m' 0
      else Done (false, tcbs k1, set_cpu_sched s 0 (set_pending cs false), keep_current_task m')).
  { unfold schedule_if_preempt_pending_locked. rewrite cpu_zero, Hcs. cbn [get_exec mbind exec_bind].
    rewrite Hb. cbn [mbind exec_bind]. by destruct b. }
  pose proof Hml as [L1 L2 L3 L4]. destruct Hrun as [Hon Hrun]. destruct b.
  - destruct (schedule_runs (tcbs k1) s m' qss sl cur (co_wf _ _ _ _ _ Hco)) as
      (b&h'&s'&m2&qss'&nx&tn&Hs&Hwf'&Hnx&Htn&Hstn&Hon'&Hid&Hcu&Hirq&Hmo&Hcore&Hids&Hbl); try done.
    { by rewrite L1. }
    { apply Hco. }
    unfold schedule_locked in Hs. rewrite cpu_zero in Hs. rewrite Hs in Hf.
    destruct (with_sched_next (B := B) k1 1 false cur nx (Some cur) s s' qss qss' sl sl fl false b
                schedule_if_preempt_pending_locked h' m2 tn) as (k2&Hk2&Hat2); try done.
    + fold m0. congruence.
    + fold m0. intros Hm. destruct (L4 Hm) as [Hm1 Hn1]. destruct (Hmo Hm1). split; congruence.
    + intros y Hy. by apply Hbl, Hco.
    + exists k2, nx. by rewrite Hk2.
  - destruct (Hrun cur eq_refl) as (tc&Htc&Hstc).
    pose proof (mach_like_sync m') as [S1 S2 S3 S4].
    destruct (with_sched_next (B := B) k1 1 false cur cur (Some cur) s _ qss qss sl sl fl false false
                schedule_if_preempt_pending_locked (tcbs k1) _ tc Hk1 Hco Hcur Hf) as (k2&Hk2&Hat2); try done.
    + by eapply wf_cpu_state; [| |apply Hco].
    + change (CURRENT_TCB (sync_current m') = Some cur). congruence.
    + apply Hco.
    + change (CURRENT_TCB (sync_current m') = Some cur). congruence.
    + change (irq_on (sync_current m') = irq_on m0). congruence.
    + fold m0. intros Hm. destruct (L4 Hm) as [Hm1 Hn1]. destruct (S4 Hm1) as [Hm2 Hn2]. unfold keep_current_task.
      destruct (set_next_nest (sync_current m') (CURRENT_TCB (sync_current m')) Hm2). split; congruence.
    + apply Hco.
    + exists k2, cur. by rewrite Hk2.
Qed.

Lemma task_wake_k {B : list nat} (k : kernel) (cur x : nat) :
  kernel_at idle B k 0 true cur (Some cur) (Some cur) → is_Some (tcbs k !! x) → x ∉ B →
  ∃ b k', wake_blocked_task k (Some x) = Done (b, k') ∧ task_context idle B k'.
Proof.
  intros Hk Hx HxB. destruct (wake_k k 0 true cur x _ _ Hk Hx HxB) as (b&k1&Heq&_&Hat&_).
  cbn [wake_blocked_task]. rewrite Heq. cbn [mbind exec_bind].
  destruct b; [|exists false, k1; split; [done|by exists cur]].
  destruct (yield_if_k k1 cur Hat) as (k2&Hy&Hc). rewrite Hy. cbn [mbind exec_bind]. by exists true, k2.
Qed.

Lemma block_stop {B : list nat} (k : kernel) (cur : nat) : cur ≠ idle →
  kernel_at idle B k 0 true cur (Some cur) (Some cur) →
  ∃ k1, block_current_task_irq_disabled (with_mach k (disable_irq (mach k))) = Done (true, k1)
    ∧ kernel_at idle B (with_mach k1 (enable_irq (mach k1))) 0 true cur (Some cur) None.
Proof.
  intros Hne Hk. destruct (current_running _ _ _ _ _ Hk) as (t&Ht&Hst).
  destruct Hk as (s&qss&sl&fl&Hk&Hco&Hcur&Hrun).
  destruct (kernel_locked k 0 true cur (Some cur) s Hk Hcur) as (M1&M2&M3&M4).
  set (m0 := disable_irq (disable_irq (mach k))) in *.
  destruct (block_spec (tcbs k) s m0 qss sl cur t (co_wf _ _ _ _ _ Hco) (conj M2 (conj Ht Hst))) as [Heq Hwf].
  set (h' := <[cur := _]> (tcbs k)) in *.
  set (f := λ (h : heap) (s : Scheduler) (m : machine),
    '(b, h, o, m) ← block_locked h (Some s) m; match o with Some s => Done (b, h, s, m) | None => Stuck end).
  destruct (with_sched_like (B' := B) k 0 true cur (Some cur) None s s qss qss sl sl fl false true f h' (sync_current m0)
              Hk Hco Hcur) as (k'&Hk'&Hat&_&_); try done.
  - unfold f. fold m0. by rewrite Heq.
  - apply mach_like_sync.
  - by apply insert_dom.
  - by apply idle_other, Hco.
  - by apply stop_run.
  - intros y Hy. by apply stop_blocked; [|apply Hco].
  - unfold block_current_task_irq_disabled.
    assert (Hsame : ('(b, k1) ← locked_section (with_mach k (disable_irq (mach k))) block_locked;
              Done (b, with_mach k1 (enable_irq (mach k1)))) = Done (true, k')).
    { rewrite <- Hk'. unfold with_sched, locked_section, f. cbn [mach with_mach SCHEDULER].
      rewrite (ks_sched _ _ _ _ _ _ Hk). unfold lock. cbn [locked value mbind exec_bind]. fold m0.
      change (tcbs (with_mach k (disable_irq (mach k)))) with (tcbs k). rewrite Heq. done. }
    destruct (locked_section _ _) as [[b k1]|] eqn:E; [|discriminate Hsame]. cbn [mbind exec_bind] in *.
    injection Hsame as -> Hk1. exists k1. by rewrite Hk1.
Qed.

Lemma block_k {B : list nat} (k : kernel) (cur : nat) : cur ≠ idle →
  kernel_at idle B k 0 true cur (Some cur) (Some cur) →
  ∃ k', block_and_yield k = Done k' ∧ task_context idle B k'.
Proof.
  intros Hne Hk. unfold block_and_yield. destruct (block_stop k cur Hne Hk) as (k1&->&Hat).
  cbn [mbind exec_bind]. eapply yield_k; [exact Hat|by right].
Qed.

(** ** Creating a task *)

Lemma pool_room (k : kernel) (s : Scheduler) (qss : list (list (list nat))) (sl fl : list nat) (x : nat) :
  pcore k s qss sl fl → x ∈ fl → tcbs k !! x = None ∧ size (tcbs k) < TASK_CAP.
Proof.
  intros Hco Hx. pose proof (sw_data _ _ _ (pc_slab _ _ _ _ _ Hco) x Hx) as Hn. split; [exact Hn|].
  assert (Hle : size (dom (tcbs k) ∪ {[x]}) ≤ size (set_seq (C := gset nat) 0 TASK_CAP)).
  { apply subseteq_size. intros y. rewrite elem_of_union, elem_of_singleton, elem_of_set_seq, elem_of_dom.
    intros [Hy| ->]; [apply (pc_dom _ _ _ _ _ Hco) in Hy; lia|].
    pose proof (sw_bound _ _ _ (pc_slab _ _ _ _ _ Hco) x Hx). lia. }
  rewrite size_set_seq, size_union, size_dom, size_singleton in Hle; [lia|].
  intros y. rewrite elem_of_dom, elem_of_singleton. intros [t Ht] ->. unfold tcbs in Ht. congruence.
Qed.

(** The core of the kernel after the slot [x] was taken and filled. *)
Lemma core_created (k k2 : kernel) (s s' : Scheduler) (qss qss' : list (list (list nat))) (sl fl : list nat)
    (x : nat) (pool : SlabInner TaskControlBlock) (v : TaskControlBlock) (h' : heap) :
  pcore k s qss sl (x :: fl) → slab_wf TASK_CAP pool fl → data pool = <[x := v]> (tcbs k) →
  TCB_POOL k2 = with_heap pool h' → same_dom (<[x := v]> (tcbs k)) h' → sched_wf None h' s' qss' sl →
  task_id_counter s' = wrapping_add 32 (task_id_counter s) 1 →
  pcore k2 s' qss' sl fl.
Proof.
  intros Hco Hslab Hdata Hpool Hd Hwf Hids.
  destruct (pool_room k s qss sl _ x Hco (list_elem_of_here _ _)) as [Hxn Hsz].
  assert (Hcap : TASK_CAP = 32) by reflexivity.
  assert (Ht2 : tcbs k2 = h') by (unfold tcbs; by rewrite Hpool).
  pose proof (Slab.sw_nodup _ _ _ (pc_slab _ _ _ _ _ Hco)) as Hnd. apply NoDup_cons in Hnd as [Hxf _].
  pose proof (sw_bound _ _ _ (pc_slab _ _ _ _ _ Hco) x (list_elem_of_here _ _)) as Hxb.
  assert (Hdom : ∀ y, is_Some (h' !! y) ↔ y < TASK_CAP ∧ y ∉ fl).
  { intros y. rewrite (Hd y). destruct (decide (y = x)) as [->|Hne].
    - rewrite lookup_insert_eq. split; [done|by eexists].
    - rewrite lookup_insert_ne by done. rewrite (pc_dom _ _ _ _ _ Hco y), not_elem_of_cons. tauto. }
  split; rewrite ?Ht2; try done.
  - rewrite Hpool. destruct Hslab as [S1 S2 S3 S4 S5 S6]. split; try done. intros y Hy. cbn.
    destruct (h' !! y) as [ty|] eqn:E; [|done]. exfalso. assert (Hs : is_Some (h' !! y)) by (by eexists).
    apply Hdom in Hs as [_ Hs]. done.
  - rewrite Hids, (pc_ids _ _ _ _ _ Hco), (same_dom_size _ _ Hd), map_size_insert, Hxn.
    unfold wrapping_add. rewrite wrap_small; [lia|]. split; lia.
Qed.

(** What a creation changes: one new ready task. *)
Record grown (h h' : heap) (x : nat) : Prop := {
  gr_new : ∃ t, h' !! x = Some t ∧ state t = Ready;
  gr_fwd : ∀ y t, h !! y = Some t → ∃ t0, h' !! y = Some t0 ∧ state t0 = state t;
  gr_back : ∀ y t, h' !! y = Some t → state t = Running → ∃ t0, h !! y = Some t0 ∧ state t0 = Running;
}.

Lemma grown_run (h h' : heap) (x : nat) (run : ptr) : grown h h' x → run_at h run → run_at h' run.
Proof.
  intros [_ Hf Hb]. apply run_at_same; [done|]. intros y t Hy Hs. destruct (Hf y t Hy) as (t0&?&?).
  exists t0. split; congruence.
Qed.

Lemma grown_idle (h h' : heap) (x i : nat) : grown h h' x → idle_ok i h → idle_ok i h'.
Proof. intros [_ Hf _] (t&Ht&Hs). destruct (Hf i t Ht) as (t0&Ht0&Hs0). exists t0. by rewrite Hs0. Qed.

(** Up to the final yield, in any context. *)
Lemma create_mid (base step : Z) (k : kernel) (irq : bool) (cur nxt : ptr) (s : Scheduler)
    (qss : list (list (list nat))) (sl fl : list nat) (entry stack words : Z) (prio cpu : nat) (name : string) :
  kst k 0 irq cur nxt s → pcore k s qss sl fl → (∀ c, cur = Some c → is_Some (tcbs k !! c)) →
  kop_allowed idle k (OpCreate entry stack words prio name cpu) →
  ∃ x fl' k2 s' qss', fl = x :: fl' ∧ x < TASK_CAP
    ∧ create_task_on_cpu base step k entry stack words prio name cpu
      = (k' ← yield_if_preempt_pending k2; Done (task_id_counter s, k'))
    ∧ kst k2 0 (irq_after 0 irq cur) cur nxt s' ∧ pcore k2 s' qss' sl fl' ∧ grown (tcbs k) (tcbs k2) x.
Proof.
  intros Hkst Hco Hcur [(A1&A2&A3) A4].
  destruct (init_task_stack_spec (mem k) stack words entry A1 A2 A3) as (sp&mem'&Hst&_).
  set (v := tcb_new 0 entry sp (words * REG_BYTES) (prio `min` MAX_PRIORITY) name).
  pose proof (slab_alloc_ok TASK_CAP (TCB_POOL k) fl v (pc_slab _ _ _ _ _ Hco)) as Hal.
  destruct fl as [|x fl]; [destruct A4; by apply (sw_chain _ _ _ (pc_slab _ _ _ _ _ Hco))|].
  destruct Hal as (pool&Hal&Hslab&Hdata).
  destruct (pool_room k s qss sl _ x Hco (list_elem_of_here _ _)) as [Hxn Hsz].
  set (k1 := mk_kernel pool (SCHEDULER k) (mach k) (clock k) mem').
  assert (Ht1 : tcbs k1 = <[x := v]> (tcbs k)) by exact Hdata.
  assert (Hk1 : kst k1 0 irq cur nxt s) by (destruct Hkst; by split).
  destruct (kst_section k1 0 irq cur nxt s Hk1) as (M1&M2&M3&M4&M5).
  set (m0 := disable_irq (disable_irq (mach k1))) in *.
  assert (Hwf : sched_wf (Some x) (tcbs k1) s qss sl).
  { rewrite Ht1. apply wf_fresh; [apply Hco|done|exact Hsz|]. unfold v. cbn. unfold MAX_PRIORITY, MAX_PRIORITIES. lia. }
  assert (Hx1 : tcbs k1 !! x = Some v) by (rewrite Ht1; apply lookup_insert_eq).
  destruct (create_spec x (prio `min` MAX_PRIORITY) cpu (tcbs k1) s m0 qss sl v Hwf)
    as (h'&s'&qss'&Heq&Hwf'&_&Hids&Hx'&Hsn); try done.
  { intros p Hp. rewrite M3 in Hp. rewrite Ht1, lookup_insert_ne; [by apply Hcur|].
    intros ->. destruct (Hcur p Hp). congruence. }
  pose proof (mach_like_sync m0) as [L1 L2 L3 L4].
  destruct (with_sched_spec k1 0 irq cur nxt s s' U32_MAX (task_id_counter s)
              (create_locked x (prio `min` MAX_PRIORITY) cpu) h' (sync_current m0) Hk1 Heq)
    as (k2&Hk2&Hkst2&Hpool2&_); [congruence|done|done|].
  rewrite L2, M4 in Hkst2.
  assert (Ht2 : tcbs k2 = h') by (unfold tcbs; by rewrite Hpool2).
  assert (Hd : same_dom (tcbs k1) h') by (eapply (next_dom _ _ x); [by eexists|by eexists|done]).
  exists x, fl, k2, s', qss'. split_and!; [done|by eapply sw_bound; [apply Hco|left]| |done| |].
  - unfold create_task_on_cpu. rewrite Hst. cbn [mbind exec_bind]. fold v. rewrite Hal.
    cbn [get_exec mbind exec_bind]. fold k1. rewrite Hk2. cbn [mbind exec_bind].
    assert (Hcap : TASK_CAP = 32) by reflexivity.
    rewrite bool_decide_true; [done|]. rewrite (pc_ids _ _ _ _ _ Hco). unfold U32_MAX. lia.
  - apply (core_created k k2 s s' qss qss' sl fl x pool v h'); try done. by rewrite <- Ht1.
  - rewrite Ht2. split; [by eexists| |].
    + intros y t Hy. assert (Hyx : y ≠ x) by (intros ->; congruence).
      assert (Hy1 : tcbs k1 !! y = Some t) by (by rewrite Ht1, lookup_insert_ne).
      destruct (same_but_next_Some _ _ t (Hsn y Hyx) Hy1) as [nx Hnx]. by exists (set_next t nx).
    + intros y t Hy Hs. destruct (decide (y = x)) as [->|Hyx]; [rewrite Hx' in Hy; injection Hy as <-; discriminate Hs|].
      destruct (state_same (tcbs k1) h' y t (Hsn y Hyx) Hy) as (t0&Hy0&Hs0).
      rewrite Ht1, lookup_insert_ne in Hy0 by done. exists t0. split; congruence.
Qed.

Lemma create_k {B : list nat} (base step : Z) (k : kernel) (cur : nat) (entry stack words : Z) (prio cpu : nat) (name : string) :
  kernel_at idle B k 0 true cur (Some cur) (Some cur) →
  kop_allowed idle k (OpCreate entry stack words prio name cpu) →
  ∃ r k', create_task_on_cpu base step k entry stack words prio name cpu = Done (r, k') ∧ task_context idle B k'.
Proof.
  intros (s&qss&sl&fl&Hkst&[Hpc Hid Hblk]&[tc Hcur]&Hrun) Hop.
  destruct (create_mid base step k true (Some cur) (Some cur) s qss sl fl entry stack words prio cpu name Hkst Hpc)
    as (x&fl'&k2&s'&qss'&_&_&Heq&Hkst2&Hpc2&Hgr); [intros c [= <-]; by exists tc|done|].
  destruct (yield_if_k (B := B) k2 cur) as (k3&Hy3&Hc3).
  { exists s', qss', sl, fl'. split_and!; [done| | |by eapply grown_run].
    - split; [done|by eapply grown_idle|]. intros y Hy. destruct (Hblk y Hy) as (tb&Hty&Hst).
      destruct (gr_fwd _ _ _ Hgr y tb Hty) as (t0&?&?). exists t0. split; congruence.
    - destruct (gr_fwd _ _ _ Hgr cur tc Hcur) as (t0&?&_). by exists t0. }
  exists (task_id_counter s), k3. by rewrite Heq, Hy3.
Qed.

(** ** All operations *)

Lemma run_kop_ok {B : list nat} (base step : Z) (k : kernel) (op : kop) :
  task_context idle B k → kop_allowed idle k op → (∀ x, x ∈ kop_wakes op → x ∉ B) →
  ∃ k', run_kop base step k op = Done k' ∧ task_context idle B k'.
Proof.
  intros [cur Hk] Hop HB.
  assert (Hcu : CURRENT_TCB (mach k) = Some cur) by (destruct Hk as (s&qss&sl&fl&[]&_); done).
  assert (Hne : CURRENT_TCB (mach k) ≠ Some idle → cur ≠ idle) by (intros Hn ->; done).
  destruct op; cbn [run_kop kop_allowed kop_wakes] in *.
  - by eapply timer_k.
  - eapply yield_k; [done|by left].
  - eapply delay_k; [by apply Hne|done].
  - eapply block_k; [by apply Hne|done].
  - eapply exit_k; [by apply Hne|done].
  - destruct (task_wake_k k cur x Hk Hop (HB x (list_elem_of_here _ _))) as (b&k'&Heq&Hc). exists k'. by rewrite Heq.
  - eapply irq_k; [done|]. intros y Hy. split; [by apply Hop|by apply HB].
  - destruct (create_k base step k cur entry stack words prio cpu name Hk Hop) as (r&k'&Heq&Hc).
    exists k'. by rewrite Heq.
Qed.

(** ** Booting *)

Lemma section_spec {A} (k : kernel) (n : nat) (irq : bool) (cur nxt : ptr) (s s' : Scheduler) (a : A)
    (f : heap → option Scheduler → machine → exec (A * heap * option Scheduler * machine)) (h' : heap) (m2 : machine) :
  kst k n irq cur nxt s → f (tcbs k) (Some s) (disable_irq (mach k)) = Done (a, h', Some s', m2) →
  mach_like (disable_irq (mach k)) m2 →
  ∃ k', locked_section k f = Done (a, k') ∧ kst k' n (irq_after n irq cur) cur nxt s' ∧ TCB_POOL k' = with_heap (TCB_POOL k) h'.
Proof.
  intros [K1 K2 K3 K4 K5 K6] Hf [L1 L2 L3 L4]. destruct (disable_irq_spec (mach k) K1) as (D1&D2&D3&D4&D5).
  destruct (L4 D1) as [M1 M2]. destruct (enable_irq_spec _ M1) as (E1&E2&E3&E4&E5).
  unfold locked_section, lock. rewrite K6. cbn [locked value mbind exec_bind]. rewrite Hf. cbn [mbind exec_bind unlock value].
  eexists. split; [done|]. split; [|done]. split; cbn; try congruence.
  - by rewrite E2, M2, D2, K2.
  - rewrite E3, M2, D2, L1, L3, D3, D4, K2, K3, K4. unfold irq_after. destruct n as [|n]; cbn.
    + destruct (bool_decide (cur ≠ None)); [done|apply andb_false_r].
    + by rewrite andb_true_r.
Qed.

(** A kernel that has not started its first task. *)
Definition booting (k : kernel) (s : Scheduler) (qss : list (list (list nat))) (fl : list nat) : Prop :=
  kst k 0 false None None s ∧ pcore k s qss [] fl.

Lemma boot_init : ∃ k s qss, sched_init kernel_boot = Done k ∧ booting k s qss (seq 0 TASK_CAP).
Proof.
  set (s := mk_scheduler (replicate max_cpus cpu_sched_new) 0 None).
  destruct (disable_irq_spec machine_boot machine_boot_ok) as (D1&D2&D3&D4&D5).
  destruct (enable_irq_spec _ D1) as (E1&E2&E3&E4&E5).
  assert (Hn : critical_nest machine_boot = 0).
  { unfold critical_nest, current_cpu, cpu_data, machine_boot, PER_CPU. cbn [per_cpu].
    rewrite list_lookup_fmap. rewrite lookup_seq_lt by apply cpu_slot_lt. done. }
  exists (mk_kernel (with_heap (slab_new TASK_CAP) ∅) (mk_mutex false (Some s))
            (enable_irq (disable_irq machine_boot)) timer_boot ∅), s,
    (replicate max_cpus (replicate MAX_PRIORITIES [])). split; [reflexivity|]. split.
  - split; cbn [mach SCHEDULER].
    + exact E1.
    + by rewrite E2, D2, Hn.
    + by rewrite E3, D2, D3, D4, Hn.
    + by rewrite E4, D4.
    + by rewrite E5, D5.
    + done.
  - split.
    + by apply wf_new.
    + destruct (slab_new_wf (T := TaskControlBlock) TASK_CAP) as []. by split.
    + intros x. change (tcbs _) with (∅ : heap). rewrite lookup_empty, elem_of_seq. split; [by intros []|lia].
    + done.
Qed.

Lemma boot_create (base step : Z) (k : kernel) (s : Scheduler) (qss : list (list (list nat))) (x : nat) (fl : list nat)
    (entry stack words : Z) (prio cpu : nat) (name : string) :
  booting k s qss (x :: fl) → stack_ok stack words →
  ∃ r k' s' qss', create_task_on_cpu base step k entry stack words prio name cpu = Done (r, k')
    ∧ booting k' s' qss' fl ∧ grown (tcbs k) (tcbs k') x.
Proof.
  intros [Hk Hpc] Hok.
  destruct (create_mid base step k false None None s qss [] (x :: fl) entry stack words prio cpu name Hk Hpc)
    as (y&fl'&k2&s'&qss'&Hfl&_&Heq&Hk2&Hpc2&Hgr); [done| |].
  { split; [done|]. pose proof (sw_chain _ _ _ (pc_slab _ _ _ _ _ Hpc)) as [Hc _]. by rewrite Hc. }
  injection Hfl as <- <-. destruct Hk2 as [K1 K2 K3 K4 K5 K6].
  destruct (sync_current_nest (mach k2) K1) as (S1&S2&S3&S4&S5).
  assert (Hcp : can_preempt_now (mach k2) = (false, sync_current (mach k2))).
  { unfold can_preempt_now, has_current_task. by rewrite K4. }
  eexists _, (with_mach k2 (sync_current (mach k2))), s', qss'. split_and!; [|split|done].
  - rewrite Heq. unfold yield_if_preempt_pending. by rewrite Hcp.
  - split; cbn; try congruence. by rewrite S3, K3.
  - destruct Hpc2. by split.
Qed.

Lemma boot_k (base step idle_entry idle_stack idle_words root_entry root_stack root_words : Z) : idle = 0 →
  stack_ok idle_stack idle_words → stack_ok root_stack root_words →
  ∃ k, boot base step idle_entry idle_stack idle_words root_entry root_stack root_words = Done k
    ∧ task_context idle [] k.
Proof.
  intros Hidle Hi Hr. unfold boot, init_system_tasks. rewrite one_cpu. cbn [seq init_idle_tasks].
  destruct boot_init as (k0&s0&qss0&Hb0&Hk0). rewrite Hb0. cbn [mbind exec_bind].
  change (seq 0 TASK_CAP) with (0 :: 1 :: seq 2 (TASK_CAP - 2)) in Hk0.
  destruct (boot_create base step k0 s0 qss0 0 _ idle_entry idle_stack idle_words 0 0 "IDLE" Hk0 Hi)
    as (r1&k1&s1&qss1&Heq1&[Hk1 Hpc1]&Hg1). rewrite Heq1. cbn [mbind exec_bind].
  destruct (wf_lookup _ _ _ _ _ (pc_wf _ _ _ _ _ Hpc1) 0 ltac:(lia)) as (cs&qs&Hcs&_&_).
  destruct (section_spec k1 0 false None None s1 (set_cpu_sched s1 0 (set_idle_task cs (Some r1))) tt
    (λ h s m, match s with
              | None => Done (tt, h, s, m)
              | Some s => c ← get_exec (cpu_scheds s !! 0);
                          Done (tt, h, Some (set_cpu_sched s 0 (set_idle_task c (Some r1))), m)
              end) (tcbs k1) (disable_irq (mach k1)) Hk1) as (k2&Heq2&Hk2&Hp2).
  { by rewrite Hcs. }
  { apply mach_like_refl. }
  rewrite Heq2. cbn [mbind exec_bind].
  assert (Ht2 : tcbs k2 = tcbs k1) by (unfold tcbs; by rewrite Hp2).
  assert (Hpc2 : booting k2 (set_cpu_sched s1 0 (set_idle_task cs (Some r1))) qss1 (1 :: seq 2 (TASK_CAP - 2))).
  { split; [exact Hk2|]. eapply pcore_step; [done|done|by intros y| |done]. eapply wf_cpu_state; [done|done|apply Hpc1]. }
  unfold create_task. rewrite cpu_zero.
  destruct (boot_create base step k2 _ qss1 1 _ root_entry root_stack root_words 1 0 "ROOT" Hpc2 Hr)
    as (r3&k3&s3&qss3&Heq3&[Hk3 Hpc3]&Hg3). rewrite Heq3. cbn [mbind exec_bind].
  assert (Hid : idle_ok idle (tcbs k3)).
  { eapply grown_idle; [exact Hg3|]. rewrite Ht2, Hidle. destruct (gr_new _ _ _ Hg1) as (t&?&?). exists t. auto. }
  assert (Hno : run_at (tcbs k3) None).
  { eapply grown_run; [exact Hg3|]. rewrite Ht2. eapply grown_run; [exact Hg1|]. split; [|done].
    intros y t Hy. assert (Hs : is_Some (tcbs k0 !! y)) by (by eexists). apply (pc_dom _ _ _ _ _ (proj2 Hk0)) in Hs as [Hy1 Hy2].
    destruct Hy2. change (0 :: 1 :: seq 2 (TASK_CAP - 2)) with (seq 0 TASK_CAP). apply elem_of_seq. lia. }
  destruct (kst_section k3 0 false None None s3 Hk3) as (M1&M2&M3&M4&M5).
  destruct (schedule_spec (tcbs k3) s3 (disable_irq (disable_irq (mach k3))) 0 qss3 [] ltac:(lia) (pc_wf _ _ _ _ _ Hpc3))
    as (b&h'&s'&m'&Heq&Hout); [intros p Hp; congruence|lia|].
  destruct Hout as [(x&t&(Hx&_)&_)|(h1&qss1'&qss'&o&[_ Hrq]&Hpk)]; [congruence|].
  destruct Hrq as [(x&t&(Hx&_)&_)|(_&->&->)]; [congruence|].
  destruct (picked_runs (tcbs k3) _ qss3 [] b h' s3 s' m' qss' o (pc_wf _ _ _ _ _ Hpc3) Hpk (proj1 Hno) Hid)
    as (n&t&Hn&Ht&Hst&Hon&Hid').
  destruct Hpk as [P1 P2 P3 P4 P5 P6 P7 P8 P9 P10 P11].
  destruct (with_sched_spec k3 0 false None None s3 s' false b schedule_locked h' m' Hk3) as (k4&Hk4&Hkst4&Hp4&_).
  { unfold schedule_locked. by rewrite cpu_zero. }
  { congruence. }
  { congruence. }
  { done. }
  unfold schedule. rewrite Hk4. cbn [mbind exec_bind]. destruct Hkst4 as [K1 K2 K3 K4 K5 K6].
  unfold start_first_task. rewrite K5, Hn. cbn [get_exec mbind exec_bind]. eexists. split; [done|].
  assert (Ht4 : tcbs k4 = h') by (unfold tcbs; by rewrite Hp4).
  exists n, s', qss', [], (seq 2 (TASK_CAP - 2)). split; [split; cbn; try done; congruence|].
  split; [|split; [|split]].
  - split; [|change (idle_ok idle (tcbs k4)); by rewrite Ht4|intros y []%elem_of_nil].
    apply (pcore_step k3 _ s3 s' qss3 qss' [] [] _ h'); try done; [by apply same_cores_same_dom|by eapply schedule_ids].
  - change (is_Some (tcbs k4 !! n)). rewrite Ht4. by exists t.
  - change (only_running (tcbs k4) (Some n)). by rewrite Ht4.
  - intros x [= <-]. exists t. change (tcbs k4 !! n = Some t ∧ state t = Running). by rewrite Ht4.
Qed.
End single.

(** ** The pool

    Only creating a task takes a slot: every other operation leaves the free
    list, and with it the set of tasks. *)

Definition pool_kept (k k' : kernel) : Prop := ∃ h, TCB_POOL k' = with_heap (TCB_POOL k) h.

Lemma pool_kept_refl (k k' : kernel) : TCB_POOL k' = TCB_POOL k → pool_kept k k'.
Proof. intros Hp. exists (tcbs k). rewrite Hp. unfold tcbs. by destruct (TCB_POOL k). Qed.

Lemma pool_kept_trans (k1 k2 k3 : kernel) : pool_kept k1 k2 → pool_kept k2 k3 → pool_kept k1 k3.
Proof. intros [h1 H1] [h2 H2]. exists h2. by rewrite H2, H1. Qed.

Lemma free_chain_unique {N : nat} (nf l l' : list nat) : ∀ hd, free_chain N nf hd l → free_chain N nf hd l' → l = l'.
Proof.
  revert l'. induction l as [|x l IH]; intros [|y l'] hd; cbn; [done|intros -> [[=] _]|by intros [-> _] [=]|].
  intros [-> (n&Hn&Hl)] [[= <-] (n'&Hn'&Hl')]. f_equal. eapply IH; [exact Hl|]. assert (n' = n) as -> by congruence. exact Hl'.
Qed.

Section pool.
Context `{!SmpConfig}.

Lemma locked_section_pool {A} (k k' : kernel) (a : A) f : locked_section k f = Done (a, k') → pool_kept k k'.
Proof. unfold locked_section. intros Hl. exec_inv. by eexists. Qed.

Lemma with_sched_pool {A} (k k' : kernel) (a d : A) f : with_sched k d f = Done (a, k') → pool_kept k k'.
Proof. unfold with_sched. intros Hl. exec_inv. by eapply locked_section_pool in Ha as [h Hh]; exists h. Qed.

Lemma trap_pool (k k' : kernel) (h : kernel → exec kernel) :
  (∀ k1 k2, h k1 = Done k2 → pool_kept k1 k2) → trap k h = Done k' → pool_kept k k'.
Proof.
  unfold trap. intros Hh Ht. apply exec_bind_inv in Ht as (k1&Hk1&Ht). apply Hh in Hk1 as [p Hp]. exists p.
  exec_inv; exact Hp.
Qed.

Lemma yield_pool (k k' : kernel) : yield_task k = Done k' → pool_kept k k'.
Proof. apply trap_pool. intros k1 k2 Hk. exec_inv. by eapply with_sched_pool. Qed.

Lemma wake_pool (k k' : kernel) (b : bool) (x : ptr) : wake_blocked_task k x = Done (b, k') → pool_kept k k'.
Proof.
  unfold wake_blocked_task. destruct x as [x|]; intros Hw; [|exec_inv; by apply pool_kept_refl].
  apply exec_bind_inv in Hw as ([woke k1]&H1&Hw). apply with_sched_pool in H1. destruct woke; [|by injection Hw as <- <-].
  apply exec_bind_inv in Hw as (k2&H2&Hw). injection Hw as <- <-. eapply pool_kept_trans; [exact H1|].
  unfold yield_if_preempt_pending in H2. destruct (can_preempt_now (mach k1)) as [[] m]; [|injection H2 as <-; by apply pool_kept_refl].
  apply exec_bind_inv in H2 as ([b k3]&H3&H2). apply locked_section_pool in H3 as [h Hh].
  assert (Hk3 : pool_kept k1 k3) by (by exists h). destruct b; [|by injection H2 as <-].
  eapply pool_kept_trans; [exact Hk3|by apply yield_pool].
Qed.

Lemma wake_list_pool (xs : list nat) : ∀ k k', wake_list k xs = Done k' → pool_kept k k'.
Proof.
  induction xs as [|x xs IH]; intros k k' Hw; cbn [wake_list] in Hw; [injection Hw as <-; by apply pool_kept_refl|].
  apply exec_bind_inv in Hw as ([b k1]&H1&Hw). eapply pool_kept_trans; [by eapply wake_pool|by apply IH].
Qed.

(** An operation that a trap stands for creates no task. *)
Lemma trap_op_pool (base step : Z) (k k' : kernel) (op : kop) : (op = OpTimer ∨ op = OpYield ∨ op = OpExit ∨ ∃ xs, op = OpIrq xs) →
  run_kop base step k op = Done k' → pool_kept k k'.
Proof.
  intros [-> |[-> |[-> |[xs ->]]]]; cbn [run_kop].
  - apply trap_pool. intros k1 k2 Hk. apply exec_bind_inv in Hk as (k3&H3&Hk). unfold tick_update in H3.
    apply exec_bind_inv in H3 as ([u k4]&H4&H3). injection H3 as <-. apply with_sched_pool in H4.
    apply exec_bind_inv in Hk as ([b k5]&H5&Hk). injection Hk as <-. eapply pool_kept_trans; [exact H4|by eapply with_sched_pool].
  - apply yield_pool.
  - apply trap_pool. intros k1 k2 Hk. exec_inv. by eapply with_sched_pool.
  - apply trap_pool. intros k1 k2 Hk. apply exec_bind_inv in Hk as (k3&H3&Hk). apply exec_bind_inv in Hk as ([b k4]&H4&Hk). injection Hk as <-.
    eapply pool_kept_trans; [by eapply wake_list_pool|by eapply with_sched_pool].
Qed.

Lemma pool_kept_dom (idle : nat) (B : list nat) (k k' : kernel) : task_context idle B k → task_context idle B k' → pool_kept k k' →
  same_dom (tcbs k) (tcbs k').
Proof.
  intros (c&s&qss&sl&fl&_&[[_ Hs Hd _] _ _]&_) (c'&s'&qss'&sl'&fl'&_&[[_ Hs' Hd' _] _ _]&_) [h Hp] y.
  rewrite Hd, Hd'. assert (Hfl : fl' = fl); [|by rewrite Hfl].
  pose proof (sw_chain _ _ _ Hs) as Hc. pose proof (sw_chain _ _ _ Hs') as Hc'. rewrite Hp in Hc'. by eapply free_chain_unique.
Qed.
End pool.
