(* ===== verification/SchedProps.v ===== *)
(** * Properties of the scheduler

    The theorems on [schedule], [tick_update] and [delay], and on the running
    kernel, with concrete kernels on which they apply. *)

From S2P Require Export Prelude.
From S2P Require Export SchedKernel.

(** ** Lemmas *)

Section props.
Context `{!SmpConfig}.

Lemma takes_highest_max (h : heap) (rq : ReadyQueue) (qs qs' : list (list nat)) (n p y : nat) (l : list nat)
    (t : TaskControlBlock) :
  rq_repr h rq qs → takes_highest qs n qs' → h !! n = Some t → qs !! p = Some l → y ∈ l → p ≤ priority t.
Proof.
  intros Hr (pn&ln&Hln&_&Hhi) Hn Hl Hy.
  destruct (rr_task _ _ _ Hr pn _ n Hln (list_elem_of_here _ _)) as (t'&Hn'&<-&_). simplify_eq.
  destruct (decide (p ≤ priority t)); [done|]. rewrite (Hhi p l) in Hy by (done || lia). by apply elem_of_nil in Hy.
Qed.

(** The tasks of [qs] other than the chosen one have no higher priority. *)
Lemma picked_max (h : heap) (m : machine) (c : nat) (qss qss' : list (list (list nat))) (sl : list nat) (b : bool)
    (h' : heap) (s s' : Scheduler) (m' : machine) (o : ptr) (qs : list (list nat)) :
  sched_wf None h s qss sl → picked h m c qss sl b h' s' m' qss' o → qss !! c = Some qs → concat qs ≠ [] →
  ∃ n t, NEXT_TCB m' = Some n ∧ h' !! n = Some t ∧ state t = Running
    ∧ ∀ qs' y ty, qss' !! c = Some qs' → y ∈ concat qs' → h' !! y = Some ty → priority ty ≤ priority t.
Proof.
  intros Hwf Hpk Hqs Hne. destruct (wf_cpu _ _ _ _ _ Hwf c qs Hqs) as (cs&Hcs&Hr).
  destruct (pk_local _ _ _ _ _ _ _ _ _ _ _ Hpk qs Hqs) as [Hsome _]. destruct (Hsome Hne) as (n&qs'&->&Htk&->).
  destruct (pk_task _ _ _ _ _ _ _ _ _ _ _ Hpk n eq_refl) as (t&Hn&Hn').
  exists n, (chosen t c). split_and!; [apply Hpk|done|done|]. intros qs1 y ty Hqs1 Hy Hty.
  rewrite list_lookup_insert_eq in Hqs1 by (by eapply lookup_lt_Some). injection Hqs1 as <-.
  destruct (wf_cpu _ _ _ _ _ (pk_wf _ _ _ _ _ _ _ _ _ _ _ Hpk) c qs') as (cs'&_&Hr').
  { rewrite list_lookup_insert_eq; [done|by eapply lookup_lt_Some]. }
  apply elem_of_concat in Hy as (p&l&Hl&Hy).
  destruct (rr_task _ _ _ Hr' p l y Hl Hy) as (ty'&Hty'&<-&_). rewrite Hty in Hty'. injection Hty' as <-.
  change (priority (chosen t c)) with (priority t).
  destruct Htk as (pn&ln&Hln&->&Hhi).
  assert (Htk : takes_highest qs n (<[pn := ln]> qs)) by (by exists pn, ln).
  destruct (decide (pn = priority ty)) as [->|Hp].
  - rewrite list_lookup_insert_eq in Hl by (by eapply lookup_lt_Some). injection Hl as <-.
    eapply (takes_highest_max h _ qs); [done|done|done|done|by left].
  - rewrite list_lookup_insert_ne in Hl by done. by eapply (takes_highest_max h _ qs).
Qed.

Definition running_list (h : heap) (p : ptr) : list nat :=
  match p with
  | Some x => match h !! x with Some t => if bool_decide (state t = Running) then [x] else [] | None => [] end
  | None => []
  end.

Lemma running_list_yes (h : heap) (p : ptr) (x : nat) (t : TaskControlBlock) :
  is_running h p x t → running_list h p = [x].
Proof. intros (->&Hx&Hs). cbn. by rewrite Hx, bool_decide_true. Qed.

Lemma running_list_no (h : heap) (p : ptr) : (∀ x t, ¬ is_running h p x t) → running_list h p = [].
Proof.
  intros Hno. destruct p as [x|]; [|done]. cbn. destruct (h !! x) as [t|] eqn:Hx; [|done].
  rewrite bool_decide_false; [done|]. intros Hs. by apply (Hno x t).
Qed.

(** Nothing chosen: the current task does not run afterwards either. *)
Lemma picked_none (h : heap) (m : machine) (c : nat) (qss qss' : list (list (list nat))) (sl : list nat) (b : bool)
    (h' : heap) (s s' : Scheduler) (m' : machine) :
  sched_wf None h s qss sl → picked h m c qss sl b h' s' m' qss' None →
  (∀ x t, ¬ is_running h (CURRENT_TCB m) x t) → running_list h' (NEXT_TCB m') = [].
Proof.
  intros Hwf Hpk Hno. rewrite (pk_next _ _ _ _ _ _ _ _ _ _ _ Hpk). apply running_list_no. intros x t (Hx&Ht&Hs).
  destruct (decide (x ∈ ready_of qss)) as [Hin|Hin].
  - rewrite (pk_perm _ _ _ _ _ _ _ _ _ _ _ Hpk) in Hin.
    destruct (wf_ready_state _ _ _ _ _ (pk_wf _ _ _ _ _ _ _ _ _ _ _ Hpk) x Hin) as (t'&?&?&_). congruence.
  - rewrite (pk_frame _ _ _ _ _ _ _ _ _ _ _ Hpk) in Ht by done. by apply (Hno x t).
Qed.

Lemma requeued_perm (h h1 : heap) (m : machine) (c : nat) (qss qss1 : list (list (list nat))) (sl : list nat) :
  requeued h m c qss sl h1 qss1 → ready_of qss1 ≡ₚ ready_of qss ++ running_list h (CURRENT_TCB m).
Proof.
  intros [_ [(x&t&Hrun&Henq&_)|(Hno&_&->)]].
  - rewrite (running_list_yes _ _ _ _ Hrun), (enqueued_perm _ _ _ _ _ Henq). by rewrite Permutation_cons_append.
  - by rewrite (running_list_no _ _ Hno), app_nil_r.
Qed.

Lemma requeued_stopped (h h1 : heap) (m : machine) (c : nat) (qss qss1 : list (list (list nat))) (sl : list nat) :
  requeued h m c qss sl h1 qss1 → ∀ x t, ¬ is_running h1 (CURRENT_TCB m) x t.
Proof.
  intros [_ [(x&t&(Hx&_)&_&Hx1&_)|(Hno&->&_)]]; [|done]. intros y ty (Hy&Hty&Hs).
  assert (y = x) as -> by congruence. rewrite Hx1 in Hty. injection Hty as <-. discriminate Hs.
Qed.

Lemma schedule_no_task_lost_lem (h : heap) (s : Scheduler) (m : machine) (c : nat) (qss : list (list (list nat))) (sl : list nat) :
  c < max_cpus → sched_wf None h s qss sl → cur_ok h m → (1 < max_cpus → can_steal s c) →
  ∃ b h' s' m' qss', schedule_cpu_locked h s m c = Done (b, h', s', m') ∧ sched_wf None h' s' qss' sl
    ∧ ready_of qss' ++ running_list h' (NEXT_TCB m') ≡ₚ ready_of qss ++ running_list h (CURRENT_TCB m)
    ∧ ∀ qs, qss !! c = Some qs → concat qs ≠ [] ∨ running_list h (CURRENT_TCB m) ≠ [] →
        ∃ n t, NEXT_TCB m' = Some n ∧ h' !! n = Some t ∧ state t = Running
          ∧ ∀ qs' y ty, qss' !! c = Some qs' → y ∈ concat qs' → h' !! y = Some ty → priority ty ≤ priority t.
Proof.
  intros Hc Hwf Hcur Hst. destruct (schedule_spec h s m c qss sl Hc Hwf Hcur Hst) as (b&h'&s'&m'&Heq&[Hk|Hp]).
  - destruct Hk as (x&t&Hrun&Hnx&_&_&_&->&->&Hwf'&Hlow). pose proof Hrun as (Hx&Ht&Hs).
    exists false, h, s', m', qss. split_and!; [done|done| |].
    + rewrite Hnx, Hx. done.
    + intros qs Hqs _. exists x, t. split_and!; [done..|]. intros qs' y ty Hqs' Hy Hty.
      apply elem_of_concat in Hy as (p&l&Hl&Hy). destruct (wf_cpu _ _ _ _ _ Hwf c qs' Hqs') as (cs&_&Hr).
      destruct (rr_task _ _ _ Hr p l y Hl Hy) as (ty'&Hty'&<-&_). rewrite Hty in Hty'. injection Hty' as <-.
      pose proof (Hlow qs' _ l y Hqs' Hl Hy). lia.
  - destruct Hp as (h1&qss1&qss'&o&Hrq&Hpk). pose proof (proj1 Hrq) as [s1 Hwf1].
    exists b, h', s', m', qss'. split_and!; [done|apply Hpk| |].
    + rewrite <- (requeued_perm _ _ _ _ _ _ _ Hrq), (pk_perm _ _ _ _ _ _ _ _ _ _ _ Hpk). destruct o as [n|].
      * destruct (pk_task _ _ _ _ _ _ _ _ _ _ _ Hpk n eq_refl) as (t&_&Hn').
        rewrite (running_list_yes h' (NEXT_TCB m') n (chosen t c)); [by rewrite (Permutation_app_comm [n])|].
        split_and!; [apply (pk_next _ _ _ _ _ _ _ _ _ _ _ Hpk)|done|done].
      * rewrite (picked_none h1 m c qss1 qss' sl b h' s1 s' m'); [by rewrite app_nil_r|done|done|].
        by eapply requeued_stopped.
    + intros qs Hqs Hne. destruct (wf_lookup _ _ _ _ _ Hwf1 c Hc) as (cs1&qs1&_&Hqs1&_).
      eapply (picked_max h1 m c qss1); [done|done|done|]. destruct Hrq as [_ [(x&t&Hrun&(qs2&l&Hq2&Hl&->)&_)|(Hno&->&->)]].
      * rewrite list_lookup_insert_eq in Hqs1 by (by eapply lookup_lt_Some). injection Hqs1 as <-.
        destruct (concat_insert_perm qs2 (priority t) l Hl) as (rest&_&Hp2). intros He. specialize (Hp2 (l ++ [x])).
        rewrite He in Hp2. apply Permutation_nil in Hp2. by destruct l.
      * simplify_eq. destruct Hne as [?|Hne]; [done|]. by rewrite (running_list_no _ _ Hno) in Hne.
Qed.

Lemma takes_highest_head (qs qs' : list (list nat)) (p n y : nat) (l : list nat) :
  qs !! p = Some (y :: l) → (∀ p' l', p < p' → qs !! p' = Some l' → l' = []) → takes_highest qs n qs' →
  n = y ∧ qs' = <[p := l]> qs.
Proof.
  intros Hl Hhi (pn&ln&Hln&->&Hhi'). assert (pn = p) as ->.
  { destruct (Nat.lt_trichotomy pn p) as [Hlt|[He|Hlt]]; [|done|].
    - discriminate (Hhi' p _ Hlt Hl).
    - discriminate (Hhi pn _ Hlt Hln). }
  by simplify_eq.
Qed.

Lemma round_robin_lem (h : heap) (s : Scheduler) (m : machine) (c x y : nat) (qss : list (list (list nat))) (sl : list nat)
    (qs : list (list nat)) (t : TaskControlBlock) (l : list nat) :
  c < max_cpus → sched_wf None h s qss sl → (1 < max_cpus → can_steal s c) →
  is_running h (CURRENT_TCB m) x t → qss !! c = Some qs → qs !! priority t = Some (y :: l) →
  (∀ p l', priority t < p → qs !! p = Some l' → l' = []) →
  ∃ h' s' m', schedule_cpu_locked h s m c = Done (true, h', s', m') ∧ NEXT_TCB m' = Some y
    ∧ sched_wf None h' s' (<[c := <[priority t := l ++ [x]]> qs]> qss) sl.
Proof.
  intros Hc Hwf Hst Hrun Hqs Hl Hhi. pose proof Hrun as (Hx&Ht&Hs).
  assert (Hcur : cur_ok h m) by (intros p Hp; assert (p = x) as -> by congruence; by eexists).
  destruct (schedule_spec h s m c qss sl Hc Hwf Hcur Hst) as (b&h'&s'&m'&Heq&[Hk|Hp]).
  { destruct Hk as (x'&t'&(Hx'&Ht'&_)&_&_&_&_&_&_&_&Hlow). assert (x' = x) as -> by congruence. simplify_eq.
    pose proof (Hlow qs _ _ y Hqs Hl (list_elem_of_here _ _)). lia. }
  destruct Hp as (h1&qss1&qss'&o&[[s1 Hwf1] [(x'&t'&(Hx'&Ht'&_)&(qs0&l0&Hq0&Hl0&->)&_)|(Hno&_)]]&Hpk);
    [|by exfalso; eapply Hno].
  assert (x' = x) as -> by congruence. simplify_eq.
  assert (Hclt : c < length qss) by (by eapply lookup_lt_Some).
  assert (Hplt : priority t < length qs) by (by eapply lookup_lt_Some).
  destruct (pk_local _ _ _ _ _ _ _ _ _ _ _ Hpk (<[priority t := (y :: l) ++ [x]]> qs)) as [Hsome _].
  { by rewrite list_lookup_insert_eq. }
  destruct Hsome as (n&qs'&->&Htk&->).
  { destruct (concat_insert_perm qs (priority t) _ Hl) as (rest&_&Hp2). intros He.
    specialize (Hp2 ((y :: l) ++ [x])). rewrite He in Hp2. by apply Permutation_nil in Hp2. }
  destruct (takes_highest_head (<[priority t := (y :: l) ++ [x]]> qs) qs' (priority t) n y (l ++ [x])) as [-> ->]; [| |done|].
  { by rewrite list_lookup_insert_eq. }
  { intros p' l' Hp' Hl'. rewrite list_lookup_insert_ne in Hl' by lia. by eapply Hhi. }
  pose proof (pk_wf _ _ _ _ _ _ _ _ _ _ _ Hpk) as Hwf'. rewrite !list_insert_insert_eq in Hwf'.
  exists h', s', m'. split_and!; [|apply (pk_next _ _ _ _ _ _ _ _ _ _ _ Hpk)|done].
  rewrite Heq, (pk_switch _ _ _ _ _ _ _ _ _ _ _ Hpk), bool_decide_true; [done|].
  intros He. assert (y = x) as -> by congruence.
  destruct (running_unlisted h s qss sl _ x t Hwf Hrun) as (Hn&_). apply Hn, elem_of_app. left.
  apply elem_of_ready. exists c, qs. split; [done|]. apply elem_of_concat. exists (priority t), (x :: l). split; [done|by left].
Qed.

(** A task that called [delay n] at tick [now], at a timer interrupt at [now + d]. *)
Lemma delay_wakes_lem (now n d : Z) (h : heap) (s : Scheduler) (m m1 : machine) (qss : list (list (list nat)))
    (sl : list nat) (x : nat) (t : TaskControlBlock) :
  sched_wf None h s qss sl → is_running h (CURRENT_TCB m) x t →
  (0 <= n <= 2 ^ 31)%Z → (0 <= d < n + 2 ^ 31 - 1)%Z →
  ∃ h1 s1, delay_locked (wrapping_add 32 now n) h s m = Done (true, h1, s1, sync_current m)
    ∧ (cur_ok h1 m1 → ∃ h2 s2 m2 t2,
         tick_update_locked (wrapping_add 32 now d) h1 s1 m1 = Done (tt, h2, s2, m2)
         ∧ h2 !! x = Some t2 ∧ state t2 = if bool_decide (n <= d)%Z then Ready else Sleeping).
Proof.
  intros Hwf Hrun Hn Hd. destruct (delay_spec (wrapping_add 32 now n) h s m qss sl x t Hwf Hrun) as [Heq Hwf1].
  eexists _, _. split; [exact Heq|]. intros Hcur.
  set (h1 := <[x := _]> h) in *. set (s1 := set_sleep_queue s (Some x)) in *.
  destruct (tick_update_spec (wrapping_add 32 now d) h1 s1 m1 qss (x :: sl) Hwf1 Hcur)
    as (h2&s2&m2&qss2&Heq2&Hwf2&Hperm&_&_&_).
  assert (Hdue : due_task h1 (wrapping_add 32 now d) x = bool_decide (n <= d)%Z).
  { unfold due_task, h1. rewrite lookup_insert_eq. cbn. by apply passed_deadline. }
  assert (Hst : ∃ t2, h2 !! x = Some t2 ∧ state t2 = if bool_decide (n <= d)%Z then Ready else Sleeping).
  { destruct (bool_decide (n <= d)%Z).
    - destruct (wf_ready_state _ _ _ _ _ Hwf2 x) as (t2&?&?&_); [|by exists t2].
      rewrite Hperm. apply elem_of_app. left. apply list_elem_of_filter. split; [done|by left].
    - apply (sw_sleeping _ _ _ _ _ Hwf2 x). apply list_elem_of_filter. split; [done|by left]. }
  destruct Hst as (t2&Hx2&Hs2). by exists h2, s2, m2, t2.
Qed.
End props.

(** ** Histories of the running kernel *)

Inductive kernel_reach `{!SmpConfig} (base step : Z) : kernel → Prop :=
  | kr_boot ie isp iw re rsp rw k : stack_ok isp iw → stack_ok rsp rw →
      boot base step ie isp iw re rsp rw = Done k → kernel_reach base step k
  | kr_step k op k' : kernel_reach base step k → kop_allowed 0 k op →
      run_kop base step k op = Done k' → kernel_reach base step k'.

Lemma reach_context `{!SmpConfig} (base step : Z) (k : kernel) :
  max_cpus = 1 → kernel_reach base step k → task_context 0 [] k.
Proof.
  intros Hone. induction 1 as [ie isp iw re rsp rw k Hi Hr Hb|k op k' _ IH Hop Hrun].
  - destruct (boot_k 0 Hone base step ie isp iw re rsp rw eq_refl Hi Hr) as (k'&Hk'&Hc). congruence.
  - destruct (run_kop_ok 0 Hone base step k op IH Hop (λ x _, not_elem_of_nil x)) as (k2&Hk2&Hc). congruence.
Qed.

(** ** A concrete scheduler for the witnesses

    The idle task and a task of priority 2 are ready, another of priority 2
    runs, a fourth sleeps until tick 5. *)
Section demo.
#[local] Existing Instance single_cpu.

Definition demo_queues : list (list (list nat)) := [[[0]; []; [2]; []; []; []; []; []]].
Definition demo_tcb (n : Z) (prio : nat) (st : TaskState) : TaskControlBlock :=
  set_state (tcb_new n 2149580800 2149600000 8192 prio "DEMO") st.
Definition demo_running : TaskControlBlock := demo_tcb 1 2 Running.
Definition demo_sleeping : TaskControlBlock := set_wakeup (demo_tcb 3 4 Sleeping) 5.

Lemma demo_wf : ∃ h s, sched_wf None h s demo_queues [3]
  ∧ is_running h (Some 1) 1 demo_running ∧ h !! 3 = Some demo_sleeping.
Proof.
  pose proof (wf_new (∅ : heap) eq_refl) as W0.
  set (s0 := mk_scheduler (replicate max_cpus cpu_sched_new) 0 None) in *.
  pose proof (wf_fresh _ _ _ _ 0 (demo_tcb 0 0 Ready) W0 (lookup_empty _) ltac:(apply Nat.ltb_lt; reflexivity) ltac:(apply Nat.ltb_lt; reflexivity)) as W1.
  destruct (wf_push _ s0 _ _ 0 0 (demo_tcb 0 0 Ready) cpu_sched_new (replicate MAX_PRIORITIES []) W1
              (lookup_insert_eq _ _ _) eq_refl eq_refl eq_refl eq_refl eq_refl) as (h2&rq2&l2&P2&L2&W2&_&_&_).
  vm_compute in P2. injection P2 as <- <-. cbv in L2. injection L2 as <-.
  specialize (W2 (set_ready_queue cpu_sched_new _) eq_refl).
  pose proof (wf_fresh _ _ _ _ 2 (demo_tcb 2 2 Ready) W2 eq_refl ltac:(apply Nat.ltb_lt; reflexivity) ltac:(apply Nat.ltb_lt; reflexivity)) as W3.
  destruct (wf_push _ _ _ _ 0 2 (demo_tcb 2 2 Ready) _ _ W3
              (lookup_insert_eq _ _ _) eq_refl eq_refl eq_refl eq_refl eq_refl) as (h4&rq4&l4&P4&L4&W4&_&_&_).
  vm_compute in P4. injection P4 as <- <-. cbv in L4. injection L4 as <-.
  specialize (W4 (set_ready_queue cpu_sched_new _) eq_refl).
  pose proof (wf_fresh _ _ _ _ 1 demo_running W4 eq_refl ltac:(apply Nat.ltb_lt; reflexivity) ltac:(apply Nat.ltb_lt; reflexivity)) as W5.
  pose proof (wf_close _ _ _ _ 1 demo_running W5 (lookup_insert_eq _ _ _) ltac:(done) ltac:(done) eq_refl eq_refl) as W6.
  pose proof (wf_fresh _ _ _ _ 3 demo_sleeping W6 eq_refl ltac:(apply Nat.ltb_lt; reflexivity) ltac:(apply Nat.ltb_lt; reflexivity)) as W7.
  pose proof (wf_sleep _ _ _ _ 3 demo_sleeping W7 (lookup_insert_eq _ _ _) eq_refl eq_refl eq_refl) as W8.
  eexists _, _. split; [exact W8|]. split; [|apply lookup_insert_eq]. split_and!; reflexivity.
Qed.
End demo.

(** ** Properties *)

(** C1. Every kernel reached from boot by any sequence of timer interrupts,
    yields, delays, blocking waits, exits, wake-ups (by tasks or interrupt
    handlers) and task creations is back in a task context: interrupts are on,
    exactly the current task runs, and every allowed operation returns: no
    panic, no dangling pointer, no self-deadlock. *)
Theorem kernel_never_stuck `{!SmpConfig} (base step : Z) (k : kernel) :
  max_cpus = 1 → kernel_reach base step k →
  (∃ cur t, CURRENT_TCB (mach k) = Some cur ∧ NEXT_TCB (mach k) = Some cur
     ∧ irq_on (mach k) = true ∧ critical_nest (mach k) = 0 ∧ locked (SCHEDULER k) = false
     ∧ tcbs k !! cur = Some t ∧ state t = Running
     ∧ ∀ y ty, tcbs k !! y = Some ty → state ty = Running → y = cur)
  ∧ ∀ op, kop_allowed 0 k op → ∃ k', run_kop base step k op = Done k'.
Proof.
  intros Hone Hr. pose proof (reach_context base step k Hone Hr) as Hc. split.
  - destruct Hc as (cur&s&qss&sl&fl&[K1 K2 K3 K4 K5 K6]&_&_&[Hon Hrun]).
    destruct (Hrun cur eq_refl) as (t&Ht&Hs). exists cur, t. rewrite K6. split_and!; try done.
    intros y ty Hy Hsy. specialize (Hon y ty Hy Hsy). congruence.
  - intros op Hop. destruct (run_kop_ok 0 Hone base step k op Hc Hop (λ x _, not_elem_of_nil x)) as (k'&Hk'&_). by exists k'.
Qed.

(** C4. [schedule] never gets stuck, keeps the invariant, and leaves as
    [NEXT_TCB] a running task of the highest priority of its CPU whenever one
    is ready there or the current one still runs; the ready and running tasks
    after it are exactly those before it: none is lost or duplicated, stolen
    tasks included. *)
Theorem schedule_picks_highest `{!SmpConfig} (h : heap) (s : Scheduler) (m : machine) (c : nat)
    (qss : list (list (list nat))) (sl : list nat) :
  c < max_cpus → sched_wf None h s qss sl → cur_ok h m → (1 < max_cpus → can_steal s c) →
  ∃ b h' s' m' qss', schedule_cpu_locked h s m c = Done (b, h', s', m') ∧ sched_wf None h' s' qss' sl
    ∧ ready_of qss' ++ running_list h' (NEXT_TCB m') ≡ₚ ready_of qss ++ running_list h (CURRENT_TCB m)
    ∧ ∀ qs, qss !! c = Some qs → concat qs ≠ [] ∨ running_list h (CURRENT_TCB m) ≠ [] →
        ∃ n t, NEXT_TCB m' = Some n ∧ h' !! n = Some t ∧ state t = Running
          ∧ ∀ qs' y ty, qss' !! c = Some qs' → y ∈ concat qs' → h' !! y = Some ty → priority ty ≤ priority t.
Proof. apply schedule_no_task_lost_lem. Qed.

(** C5. Round robin: a running task whose priority is the highest of its CPU
    gives way to the task that waited longest at that priority and goes to the
    back of its queue. *)
Theorem schedule_round_robin `{!SmpConfig} (h : heap) (s : Scheduler) (m : machine) (c x y : nat)
    (qss : list (list (list nat))) (sl : list nat) (qs : list (list nat)) (t : TaskControlBlock) (l : list nat) :
  c < max_cpus → sched_wf None h s qss sl → (1 < max_cpus → can_steal s c) →
  is_running h (CURRENT_TCB m) x t → qss !! c = Some qs → qs !! priority t = Some (y :: l) →
  (∀ p l', priority t < p → qs !! p = Some l' → l' = []) →
  ∃ h' s' m', schedule_cpu_locked h s m c = Done (true, h', s', m') ∧ NEXT_TCB m' = Some y
    ∧ sched_wf None h' s' (<[c := <[priority t := l ++ [x]]> qs]> qss) sl.
Proof. apply round_robin_lem. Qed.

(** C6. [tick_update] moves exactly the sleeping tasks whose deadline has
    passed to the ready queues, keeps the others asleep in their order, loses
    no task, terminates and keeps the invariant; it touches no other task. *)
Theorem tick_update_wakes_due `{!SmpConfig} (now : Z) (h : heap) (s : Scheduler) (m : machine)
    (qss : list (list (list nat))) (sl : list nat) :
  sched_wf None h s qss sl → cur_ok h m →
  ∃ h' s' m' qss', tick_update_locked now h s m = Done (tt, h', s', m')
    ∧ sched_wf None h' s' qss' (filter (λ x, due_task h now x = false) sl)
    ∧ ready_of qss' ≡ₚ filter (λ x, due_task h now x = true) sl ++ ready_of qss
    ∧ same_cores h h' ∧ mach_like m m'
    ∧ ∀ y, due_task h now y = false ∨ y ∉ sl → same_but_next (h !! y) (h' !! y).
Proof. apply tick_update_spec. Qed.

(** C7. A task that calls [delay n] ([n <= 2^31]) at tick [now] is ready after
    the timer interrupt of tick [now + d] exactly when [n <= d], although the
    tick counter wraps around. *)
Theorem delay_wakes_on_time `{!SmpConfig} (now n d : Z) (h : heap) (s : Scheduler) (m m1 : machine)
    (qss : list (list (list nat))) (sl : list nat) (x : nat) (t : TaskControlBlock) :
  sched_wf None h s qss sl → is_running h (CURRENT_TCB m) x t →
  (0 <= n <= 2 ^ 31)%Z → (0 <= d < n + 2 ^ 31 - 1)%Z →
  ∃ h1 s1, delay_locked (wrapping_add 32 now n) h s m = Done (true, h1, s1, sync_current m)
    ∧ (cur_ok h1 m1 → ∃ h2 s2 m2 t2,
         tick_update_locked (wrapping_add 32 now d) h1 s1 m1 = Done (tt, h2, s2, m2)
         ∧ h2 !! x = Some t2 ∧ state t2 = if bool_decide (n <= d)%Z then Ready else Sleeping).
Proof. apply delay_wakes_lem. Qed.

Section witnesses.
#[local] Existing Instance single_cpu.

Definition demo_boot : exec kernel := boot 4096 128 11 65536 512 22 131072 2048.
Definition demo_ops : list kop :=
  [OpYield; OpCreate 33 262144 1024 5 "HI" 0; OpBlock; OpTimer; OpIrq [2]; OpTimer; OpDelay 2; OpTimer; OpTimer].

(** The high-priority task created second runs when its delay is over. *)
Example demo_run :
  (k ← demo_boot; k ← run_kops 4096 128 k demo_ops;
   Done (CURRENT_TCB (mach k), (λ p, (p.1, state p.2)) <$> map_to_list (tcbs k)))
  = Done (Some 2, [(2, Running); (1, Ready); (0, Ready)]).
Proof. vm_compute. reflexivity. Qed.

(** An interrupt that wakes a task of priority 5 and then one of priority 1
    while a task of priority 1 runs leaves that task running: the second
    wake-up overwrites [preempt_pending].  In the other order it preempts. *)
Definition demo_blocked : list kop :=
  [OpCreate 33 262144 1024 5 "H" 0; OpBlock; OpCreate 44 327680 1024 1 "L" 0; OpYield; OpBlock].

Example preempt_request_lost :
  let run ops := k ← demo_boot; k ← run_kops 4096 128 k ops;
                 Done (CURRENT_TCB (mach k), state <$> tcbs k !! 2) in
  run (demo_blocked ++ [OpIrq [2; 3]]) = Done (Some 1, Some Ready)
  ∧ run (demo_blocked ++ [OpIrq [3; 2]]) = Done (Some 2, Some Running).
Proof. vm_compute. split; reflexivity. Qed.

Lemma kernel_never_stuck_witness :
  ∃ k0 k1, demo_boot = Done k0 ∧ run_kop 4096 128 k0 OpTimer = Done k1
    ∧ ∃ k', run_kop 4096 128 k1 OpYield = Done k'.
Proof.
  assert (Hone : max_cpus = 1) by reflexivity.
  assert (Hi : stack_ok 65536 512) by (unfold stack_ok, REG_BYTES; lia).
  assert (Hr : stack_ok 131072 2048) by (unfold stack_ok, REG_BYTES; lia).
  destruct (boot_k 0 Hone 4096 128 11 65536 512 22 131072 2048 eq_refl Hi Hr) as (k0&E0&C0).
  destruct (run_kop_ok 0 Hone 4096 128 k0 OpTimer C0 I (λ x _, not_elem_of_nil x)) as (k1&E1&_).
  exists k0, k1. split; [exact E0|]. split; [exact E1|].
  pose proof (kr_step 4096 128 k0 OpTimer k1 (kr_boot 4096 128 _ _ _ _ _ _ k0 Hi Hr E0) I E1) as R1.
  exact (proj2 (kernel_never_stuck 4096 128 k1 Hone R1) OpYield I).
Defined.

Lemma schedule_picks_highest_witness :
  ∃ h s m, sched_wf None h s demo_queues [3] ∧ CURRENT_TCB m = Some 1
    ∧ ∃ b h' s' m', schedule_cpu_locked h s m 0 = Done (b, h', s', m')
      ∧ ∃ n t, NEXT_TCB m' = Some n ∧ h' !! n = Some t ∧ state t = Running.
Proof.
  destruct demo_wf as (h&s&Hwf&Hrun&_). set (m := mk_machine PER_CPU (Some 1) (Some 1) false).
  exists h, s, m. split; [exact Hwf|]. split; [reflexivity|].
  assert (Hcur : cur_ok h m) by (intros p [= <-]; destruct Hrun as (_&Ht&_); by eexists).
  destruct (schedule_picks_highest h s m 0 demo_queues [3] ltac:(apply Nat.ltb_lt; reflexivity) Hwf Hcur) as (b&h'&s'&m'&qss'&Heq&_&_&Hmax).
  { intros Hm. vm_compute in Hm. lia. }
  exists b, h', s', m'. split; [exact Heq|].
  destruct (Hmax [[0]; []; [2]; []; []; []; []; []] eq_refl) as (n&t&H1&H2&H3&_); [left; discriminate|].
  exists n, t. auto.
Defined.

Lemma schedule_round_robin_witness :
  ∃ h s m, sched_wf None h s demo_queues [3] ∧ CURRENT_TCB m = Some 1
    ∧ ∃ h' s' m', schedule_cpu_locked h s m 0 = Done (true, h', s', m') ∧ NEXT_TCB m' = Some 2
      ∧ sched_wf None h' s' [[[0]; []; [1]; []; []; []; []; []]] [3].
Proof.
  destruct demo_wf as (h&s&Hwf&Hrun&_). set (m := mk_machine PER_CPU (Some 1) (Some 1) false).
  exists h, s, m. split; [exact Hwf|]. split; [reflexivity|].
  apply (schedule_round_robin h s m 0 1 2 demo_queues [3] [[0]; []; [2]; []; []; []; []; []] demo_running []);
    [vm_compute; lia|exact Hwf| |exact Hrun|reflexivity|reflexivity|].
  - intros Hm. vm_compute in Hm. lia.
  - intros p l' Hp Hl. change (2 < p) in Hp.
    destruct p as [|[|[|[|[|[|[|[|p]]]]]]]]; try lia; vm_compute in Hl; congruence.
Defined.

Lemma tick_update_wakes_due_witness :
  ∃ h s m, sched_wf None h s demo_queues [3]
    ∧ ∃ h' s' m' qss', tick_update_locked 5 h s m = Done (tt, h', s', m') ∧ sched_wf None h' s' qss' []
      ∧ ready_of qss' ≡ₚ [3; 0; 2].
Proof.
  destruct demo_wf as (h&s&Hwf&Hrun&H3). set (m := mk_machine PER_CPU (Some 1) (Some 1) false).
  exists h, s, m. split; [exact Hwf|].
  assert (Hcur : cur_ok h m) by (intros p [= <-]; destruct Hrun as (_&Ht&_); by eexists).
  destruct (tick_update_wakes_due 5 h s m demo_queues [3] Hwf Hcur) as (h'&s'&m'&qss'&Heq&Hwf'&Hp&_).
  assert (Hd : due_task h 5 3 = true) by (unfold due_task; rewrite H3; reflexivity).
  rewrite filter_cons, Hd in Hwf'. rewrite filter_cons, Hd in Hp. exists h', s', m', qss'. auto.
Defined.

Lemma delay_wakes_on_time_witness :
  ∃ h s m, sched_wf None h s demo_queues [3]
    ∧ ∃ h1 s1, delay_locked (wrapping_add 32 4294967290 10) h s m = Done (true, h1, s1, sync_current m)
      ∧ (cur_ok h1 m → ∃ h2 s2 m2 t2, tick_update_locked (wrapping_add 32 4294967290 10) h1 s1 m = Done (tt, h2, s2, m2)
           ∧ h2 !! 1 = Some t2 ∧ state t2 = Ready).
Proof.
  destruct demo_wf as (h&s&Hwf&Hrun&H3). set (m := mk_machine PER_CPU (Some 1) (Some 1) false).
  exists h, s, m. split; [exact Hwf|].
  apply (delay_wakes_on_time 4294967290 10 10 h s m m demo_queues [3] 1 demo_running Hwf Hrun); lia.
Defined.
End witnesses.
