(* ===== verification/WaitQueue.v ===== *)
(** * The queue of waiting tasks, [WaitQueueInner] of [kernel/src/sched/wait.rs]

    A fixed array of task pointers, filled from the front.  Each operation is
    refined to one on the list of the waiting tasks, oldest first. *)

From S2P Require Export Prelude.
From S2P Require Export Task.

Record WaitQueueInner : Type := mk_wqi {
  wq_tasks : list ptr;
  wq_len : nat;
  wq_wakes : Z;
  failed_wakes : Z;
}.

Record WaitQueueStats : Type := mk_wq_stats { wqs_waiting : nat; wqs_wakes : Z; wqs_failed_wakes : Z }.
Definition wq_stats (w : WaitQueueInner) : WaitQueueStats := mk_wq_stats (wq_len w) (wq_wakes w) (failed_wakes w).

Definition wq_set (w : WaitQueueInner) (ts : list ptr) (n : nat) : WaitQueueInner :=
  mk_wqi ts n (wq_wakes w) (failed_wakes w).
Definition wq_count (w : WaitQueueInner) (woke failed : nat) : WaitQueueInner :=
  mk_wqi (wq_tasks w) (wq_len w) (wrapping_add 64 (wq_wakes w) (Z.of_nat woke))
    (wrapping_add 64 (failed_wakes w) (Z.of_nat failed)).

Section queue.
Context (N : nat).

Definition wqi_new : WaitQueueInner := mk_wqi (replicate N None) 0 0 0.

Definition wq_contains (w : WaitQueueInner) (task : ptr) : exec bool :=
  l ← prefix_exec (wq_tasks w) (wq_len w); Done (bool_decide (task ∈ l)).

Definition wq_push (w : WaitQueueInner) (task : ptr) : exec (bool * WaitQueueInner) :=
  if bool_decide (task = None) then Done (false, w) else
  c ← wq_contains w task;
  if c || (N <=? wq_len w) then Done (false, w) else
  ts ← put_exec (wq_tasks w) (wq_len w) task;
  Done (true, wq_set w ts (S (wq_len w))).

(** [tasks[i] = tasks[i + 1]] for the given indices. *)
Fixpoint shift_left (ts : list ptr) (idxs : list nat) : exec (list ptr) :=
  match idxs with
  | [] => Done ts
  | i :: idxs => t ← get_exec (ts !! S i); ts ← put_exec ts i t; shift_left ts idxs
  end.

Definition wq_pop_front (w : WaitQueueInner) : exec (option ptr * WaitQueueInner) :=
  match wq_len w with
  | O => Done (None, w)
  | S last =>
      task ← get_exec (wq_tasks w !! 0);
      ts ← shift_left (wq_tasks w) (seq 0 last);
      ts ← put_exec ts last None;
      Done (Some task, wq_set w ts last)
  end.

Fixpoint take_loop (ts out : list ptr) (idxs : list nat) : exec (list ptr * list ptr) :=
  match idxs with
  | [] => Done (ts, out)
  | i :: idxs =>
      t ← get_exec (ts !! i); out ← put_exec out i t; ts ← put_exec ts i None; take_loop ts out idxs
  end.

(** The count, the array of the caller and the queue left. *)
Definition wq_take_all (w : WaitQueueInner) (out : list ptr) : exec (nat * list ptr * WaitQueueInner) :=
  '(ts, out) ← take_loop (wq_tasks w) out (seq 0 (wq_len w));
  Done (wq_len w, out, wq_set w ts 0).

(** The compaction loop of [remove]: it reads at [read] and writes at [write]. *)
Fixpoint remove_loop (ts : list ptr) (task : ptr) (write : nat) (reads : list nat) : exec (list ptr * nat) :=
  match reads with
  | [] => Done (ts, write)
  | read :: reads =>
      t ← get_exec (ts !! read);
      if bool_decide (t ≠ task) then ts ← put_exec ts write t; remove_loop ts task (S write) reads
      else remove_loop ts task write reads
  end.

(** [iter_mut().take(old_len).skip(write)]. *)
Definition clear_range (ts : list ptr) (write old_len : nat) : list ptr :=
  take write ts ++ replicate (length (take old_len ts) - write) None ++ drop (write `max` length (take old_len ts)) ts.

Definition wq_remove (w : WaitQueueInner) (task : ptr) : exec WaitQueueInner :=
  '(ts, write) ← remove_loop (wq_tasks w) task 0 (seq 0 (wq_len w));
  Done (wq_set w (clear_range ts write (wq_len w)) write).

(** ** The queue is a list *)

Record wq_rep (w : WaitQueueInner) (l : list nat) : Prop := {
  wr_tasks : wq_tasks w = (Some <$> l) ++ replicate (N - length l) None;
  wr_len : wq_len w = length l;
  wr_cap : length l ≤ N;
  wr_nodup : NoDup l;
}.

Lemma wqi_new_rep : wq_rep wqi_new [].
Proof. split; cbn; [by rewrite Nat.sub_0_r|done|lia|constructor]. Qed.

Lemma wq_rep_count (w : WaitQueueInner) (l : list nat) (a b : nat) : wq_rep w l → wq_rep (wq_count w a b) l.
Proof. by intros []. Qed.

Lemma wq_rep_length (w : WaitQueueInner) (l : list nat) : wq_rep w l → length (wq_tasks w) = N.
Proof. intros [Ht _ Hc _]. rewrite Ht, length_app, length_fmap, length_replicate. lia. Qed.

Lemma wq_contains_spec (w : WaitQueueInner) (l : list nat) (x : nat) : wq_rep w l →
  wq_contains w (Some x) = Done (bool_decide (x ∈ l)).
Proof.
  intros Hw. pose proof (wq_rep_length _ _ Hw) as Hn. destruct Hw as [Ht Hl Hc _].
  unfold wq_contains, prefix_exec. rewrite Hn, Hl, (proj2 (Nat.leb_le _ _) Hc). cbn [mbind exec_bind].
  rewrite Ht, take_app_length' by (by rewrite length_fmap). f_equal. apply bool_decide_ext.
  rewrite list_elem_of_fmap. split; [intros (y&[= <-]&?); done|]. intros ?. by eexists.
Qed.

Lemma wq_push_spec (w : WaitQueueInner) (l : list nat) (x : nat) : wq_rep w l →
  if bool_decide (x ∈ l) || (N <=? length l) then wq_push w (Some x) = Done (false, w)
  else ∃ w', wq_push w (Some x) = Done (true, w') ∧ wq_rep w' (l ++ [x]).
Proof.
  intros Hw. pose proof (wq_rep_length _ _ Hw) as Hn. unfold wq_push.
  rewrite (bool_decide_false (Some x = None)) by done. rewrite (wq_contains_spec _ _ _ Hw). cbn [mbind exec_bind].
  destruct Hw as [Ht Hl Hc Hnd]. rewrite Hl. destruct (bool_decide (x ∈ l) || (N <=? length l)) eqn:E; [done|].
  apply orb_false_iff in E as [Hx%bool_decide_eq_false Hlt%Nat.leb_gt].
  rewrite put_exec_Done by lia. cbn [mbind exec_bind]. eexists. split; [done|]. split; cbn.
  - rewrite Ht, insert_app_r_alt by (rewrite length_fmap; lia). rewrite length_fmap, Nat.sub_diag, fmap_app, length_app.
    cbn. rewrite <- app_assoc. destruct (N - length l) as [|d] eqn:Ed; [lia|]. cbn. by replace (N - (length l + 1)) with d by lia.
  - rewrite length_app. cbn. lia.
  - rewrite length_app. cbn. lia.
  - apply NoDup_app. split_and!; [done| |apply NoDup_singleton]. intros y Hy ->%list_elem_of_singleton. done.
Qed.

Lemma lookup_mid {A} (pre post : list A) (x : A) (i : nat) : length pre = i → (pre ++ x :: post) !! i = Some x.
Proof. intros <-. by apply list_lookup_middle. Qed.

Lemma put_mid {A} (pre post : list A) (x y : A) (i : nat) : length pre = i →
  put_exec (pre ++ x :: post) i y = Done (pre ++ y :: post).
Proof.
  intros <-. rewrite put_exec_Done by (rewrite length_app; cbn; lia).
  by rewrite insert_app_r_alt, Nat.sub_diag by lia.
Qed.

Lemma cons_app_assoc {A} (pre post : list A) (x : A) : pre ++ x :: post = (pre ++ [x]) ++ post.
Proof. by rewrite <- app_assoc. Qed.

(** The cells of [mid] move down by one; the last of them is left behind. *)
Lemma shift_left_spec (mid : list ptr) : ∀ (pre post : list ptr) (t : ptr) (i n : nat), length pre = i → length mid = n →
  ∃ z, shift_left (pre ++ t :: mid ++ post) (seq i n) = Done (pre ++ mid ++ z :: post).
Proof.
  induction mid as [|u mid IH]; intros pre post t i n Hi Hn; subst n; [by exists t|].
  cbn [seq length shift_left].
  assert (E : ∀ v, pre ++ v :: (u :: mid) ++ post = (pre ++ [v]) ++ u :: mid ++ post) by (intros v; by rewrite <- app_assoc).
  rewrite (E t), lookup_mid by (rewrite length_app; cbn; lia). cbn [get_exec mbind exec_bind].
  rewrite <- (E t), put_mid by done. cbn [mbind exec_bind]. rewrite (E u).
  destruct (IH (pre ++ [u]) post u (S i) (length mid)) as [z Hz]; [rewrite length_app; cbn; lia|done|].
  exists z. rewrite Hz. by rewrite <- app_assoc.
Qed.

Lemma wq_pop_front_spec (w : WaitQueueInner) (l : list nat) : wq_rep w l →
  match l with
  | [] => wq_pop_front w = Done (None, w)
  | x :: l => ∃ w', wq_pop_front w = Done (Some (Some x), w') ∧ wq_rep w' l
  end.
Proof.
  intros [Ht Hl Hc Hnd]. unfold wq_pop_front. rewrite Hl. destruct l as [|x l]; [done|]. cbn [length].
  rewrite Ht. cbn [fmap list_fmap app lookup list_lookup get_exec mbind exec_bind].
  destruct (shift_left_spec (Some <$> l) [] (replicate (N - length (x :: l)) None) (Some x) 0 (length l)) as [z Hz];
    [done|by rewrite length_fmap|].
  change (list_fmap nat ptr Some l) with (Some <$> l) in *. cbn [app] in Hz. rewrite Hz. cbn [mbind exec_bind].
  rewrite put_mid by (by rewrite length_fmap). cbn [mbind exec_bind]. eexists. split; [done|].
  cbn in Hc. apply NoDup_cons in Hnd as [_ Hnd]. split; cbn; [|done|lia|done].
  f_equal. replace (N - length l) with (S (N - S (length l))) by lia. done.
Qed.

Lemma take_loop_spec (mid : list ptr) : ∀ (post o1 o2 : list ptr) (i n : nat),
  length mid = n → length o1 = i → n ≤ length o2 →
  take_loop (replicate i None ++ mid ++ post) (o1 ++ o2) (seq i n)
  = Done (replicate (i + n) None ++ post, o1 ++ mid ++ drop n o2).
Proof.
  induction mid as [|u mid IH]; intros post o1 o2 i n Hn Hi Ho; subst n; [by rewrite Nat.add_0_r|].
  cbn in Ho. destruct o2 as [|v o2]; cbn in Ho; [lia|]. cbn [seq length take_loop app].
  rewrite lookup_mid by (by rewrite length_replicate). cbn [get_exec mbind exec_bind].
  rewrite (put_mid o1) by done. cbn [mbind exec_bind]. rewrite put_mid by (by rewrite length_replicate). cbn [mbind exec_bind].
  rewrite (cons_app_assoc o1), (cons_app_assoc (replicate i None) (mid ++ post) None).
  replace (replicate i None ++ [None]) with (replicate (S i) (@None nat)) by (by rewrite replicate_S_end).
  rewrite (IH post (o1 ++ [u]) o2 (S i) (length mid)) by (rewrite ?length_app; cbn; lia).
  replace (S i + length mid) with (i + S (length mid)) by lia. by rewrite <- app_assoc.
Qed.

Lemma wq_take_all_spec (w : WaitQueueInner) (l : list nat) (out : list ptr) : wq_rep w l → length out = N →
  ∃ w', wq_take_all w out = Done (length l, (Some <$> l) ++ drop (length l) out, w') ∧ wq_rep w' [].
Proof.
  intros [Ht Hl Hc Hnd] Ho. unfold wq_take_all. rewrite Hl, Ht.
  pose proof (take_loop_spec (Some <$> l) (replicate (N - length l) None) [] out 0 (length l)) as Hloop.
  cbn [replicate app] in Hloop. rewrite Hloop by (rewrite ?length_fmap; done || lia). cbn [mbind exec_bind].
  eexists. split; [done|]. split; cbn; [|done|lia|constructor].
  rewrite Nat.sub_0_r, <- replicate_add. f_equal. lia.
Qed.

Lemma remove_loop_spec (x : nat) (mid : list nat) : ∀ (kept junk post : list ptr) (r n : nat),
  length (kept ++ junk) = r → length mid = n →
  ∃ junk', remove_loop (kept ++ junk ++ (Some <$> mid) ++ post) (Some x) (length kept) (seq r n)
    = Done (kept ++ (Some <$> filter (λ y, y ≠ x) mid) ++ junk' ++ post, length kept + length (filter (λ y, y ≠ x) mid))
    ∧ length (filter (λ y, y ≠ x) mid) + length junk' = length junk + n.
Proof.
  induction mid as [|u mid IH]; intros kept junk post r n Hr Hn; subst n.
  { exists junk. cbn. by rewrite Nat.add_0_r, Nat.add_comm. }
  cbn [seq length remove_loop fmap list_fmap app]. rewrite app_assoc, lookup_mid by done. cbn [get_exec mbind exec_bind].
  rewrite <- app_assoc. change (list_fmap nat (option nat) Some mid) with (Some <$> mid).
  destruct (decide (u = x)) as [->|Hne].
  - rewrite bool_decide_false by (intros []; done). rewrite filter_cons_False by (intros []; done).
    destruct (IH kept (junk ++ [Some x]) post (S r) (length mid)) as (junk'&Hrun&Hlen).
    { rewrite !length_app in *. cbn. lia. }
    { done. }
    exists junk'. rewrite <- !app_assoc in Hrun. cbn in Hrun. rewrite Hrun. split; [done|]. rewrite length_app in Hlen. cbn in Hlen. lia.
  - rewrite bool_decide_true by (intros [=]; done). rewrite filter_cons_True by done.
    assert (Hput : ∃ j2, put_exec (kept ++ junk ++ Some u :: (Some <$> mid) ++ post) (length kept) (Some u)
                    = Done ((kept ++ [Some u]) ++ j2 ++ (Some <$> mid) ++ post) ∧ length j2 = length junk).
    { destruct junk as [|v junk]; cbn [app].
      - rewrite put_mid by done. exists []. split; [|done]. by rewrite <- app_assoc.
      - rewrite put_mid by done. exists (junk ++ [Some u]). split; [|rewrite length_app; cbn; lia]. by rewrite <- !app_assoc. }
    destruct Hput as (j2&Hput&Hj2). rewrite Hput. cbn [mbind exec_bind].
    replace (S (length kept)) with (length (kept ++ [Some u])) by (rewrite length_app; cbn; lia).
    destruct (IH (kept ++ [Some u]) j2 post (S r) (length mid)) as (junk'&Hrun&Hlen).
    { rewrite !length_app in *. cbn in *. lia. }
    { done. }
    exists junk'. rewrite Hrun. split; [|cbn; lia]. rewrite length_app, <- !app_assoc. cbn. do 2 f_equal. lia.
Qed.

Lemma wq_remove_spec (w : WaitQueueInner) (l : list nat) (x : nat) : wq_rep w l →
  ∃ w', wq_remove w (Some x) = Done w' ∧ wq_rep w' (filter (λ y, y ≠ x) l).
Proof.
  intros [Ht Hl Hc Hnd]. unfold wq_remove. rewrite Ht, Hl.
  destruct (remove_loop_spec x l [] [] (replicate (N - length l) None) 0 (length l)) as (junk&Hrun&Hlen); [done..|].
  cbn [app length] in Hrun, Hlen. rewrite Hrun. cbn [mbind exec_bind]. eexists. split; [done|].
  set (l' := filter (λ y, y ≠ x) l) in *.
  split; cbn; [|done|lia|by apply NoDup_filter].
  unfold clear_range. rewrite take_app_length' by (by rewrite length_fmap). rewrite !(app_assoc (Some <$> l') junk).
  assert (Htk : length ((Some <$> l') ++ junk) = length l) by (rewrite length_app, length_fmap; lia).
  rewrite take_app_length' by done. rewrite Htk, Nat.max_r by lia. rewrite drop_app_length' by done.
  rewrite <- replicate_add. do 2 f_equal. lia.
Qed.
End queue.

(** ** Refinement of a FIFO list *)

Inductive wq_op : Type := WPush (x : nat) | WPopFront | WTakeAll | WRemove (x : nat).
Inductive wq_res : Type := RBool (b : bool) | RTask (o : option ptr) | RTasks (ts : list ptr) | RUnit.

Definition wq_step (N : nat) (w : WaitQueueInner) (op : wq_op) : exec (wq_res * WaitQueueInner) :=
  match op with
  | WPush x => '(b, w) ← wq_push N w (Some x); Done (RBool b, w)
  | WPopFront => '(o, w) ← wq_pop_front w; Done (RTask o, w)
  | WTakeAll => '(n, out, w) ← wq_take_all w (replicate N None); Done (RTasks (take n out), w)
  | WRemove x => w ← wq_remove w (Some x); Done (RUnit, w)
  end.

(** The specification: a list of at most [N] distinct tasks. *)
Definition fifo_step (N : nat) (l : list nat) (op : wq_op) : wq_res * list nat :=
  match op with
  | WPush x => if bool_decide (x ∈ l) || (N <=? length l) then (RBool false, l) else (RBool true, l ++ [x])
  | WPopFront => match l with [] => (RTask None, []) | x :: l => (RTask (Some (Some x)), l) end
  | WTakeAll => (RTasks (Some <$> l), [])
  | WRemove x => (RUnit, filter (λ y, y ≠ x) l)
  end.

Fixpoint wq_run (N : nat) (w : WaitQueueInner) (ops : list wq_op) : exec (list wq_res) :=
  match ops with
  | [] => Done []
  | op :: ops => '(r, w) ← wq_step N w op; rs ← wq_run N w ops; Done (r :: rs)
  end.
Fixpoint fifo_run (N : nat) (l : list nat) (ops : list wq_op) : list wq_res :=
  match ops with
  | [] => []
  | op :: ops => let '(r, l) := fifo_step N l op in r :: fifo_run N l ops
  end.

Lemma wq_step_refines (N : nat) (w : WaitQueueInner) (l : list nat) (op : wq_op) : wq_rep N w l →
  ∃ w', wq_step N w op = Done ((fifo_step N l op).1, w') ∧ wq_rep N w' (fifo_step N l op).2.
Proof.
  intros Hw. destruct op as [x| | |x]; cbn [wq_step fifo_step].
  - pose proof (wq_push_spec N w l x Hw) as Hp. destruct (bool_decide (x ∈ l) || (N <=? length l)).
    + rewrite Hp. by exists w.
    + destruct Hp as (w'&->&Hw'). by exists w'.
  - pose proof (wq_pop_front_spec N w l Hw) as Hp. destruct l as [|x l].
    + rewrite Hp. by exists w.
    + destruct Hp as (w'&->&Hw'). by exists w'.
  - destruct (wq_take_all_spec N w l (replicate N None) Hw) as (w'&->&Hw'); [by rewrite length_replicate|].
    exists w'. cbn. by rewrite take_app_length' by (by rewrite length_fmap).
  - destruct (wq_remove_spec N w l x Hw) as (w'&->&Hw'). by exists w'.
Qed.

(** Any sequence of pushes, pops, drains and removals on the array of a
    wait queue of any capacity runs without an index out of bounds and gives
    the results of a duplicate-free FIFO list bounded by the capacity. *)
Theorem wait_queue_refines_fifo (N : nat) (ops : list wq_op) : wq_run N (wqi_new N) ops = Done (fifo_run N [] ops).
Proof.
  assert (H : ∀ w l, wq_rep N w l → wq_run N w ops = Done (fifo_run N l ops)); [|apply H, wqi_new_rep].
  induction ops as [|op ops IH]; intros w l Hw; [done|]. cbn [wq_run fifo_run].
  destruct (wq_step_refines N w l op Hw) as (w'&Hs&Hw'). rewrite Hs. cbn [mbind exec_bind].
  rewrite (IH w' _ Hw'). by destruct (fifo_step N l op).
Qed.
