(* ===== verification/AsyncRt.v ===== *)
(** * The asynchronous executor, [kernel/src/sched/async_rt.rs]

    A table of futures with a ready flag each, a table of sleeping futures,
    and the poll loop.  A future is an abstract state with a poll function
    that may act on the executor and on the rest of the world; [SleepTicks] is
    the one the source defines.  The functions run under the executor's lock,
    polls outside of it. *)

From S2P Require Export Prelude.
From S2P Require Export Timer.

Definition MAX_ASYNC_TASKS : nat := OPENION_ASYNC_TASK_SLOTS.

Inductive SpawnError : Type := Disabled | NoSlots | InvalidConfig.

Record AsyncSlot (F : Type) : Type := mk_aslot { future : option F; slot_name : string; ready : bool }.
Arguments mk_aslot {F} future slot_name ready.
Arguments future {F} a.
Arguments slot_name {F} a.
Arguments ready {F} a.
Definition aslot_empty {F} : AsyncSlot F := mk_aslot None "" false.

(** [task_idx] is [None] for [NO_TASK]. *)
Record SleepSlot : Type := mk_sleep { task_idx : option nat; wake_tick : Z; active : bool }.
Definition sleep_empty : SleepSlot := mk_sleep None 0 false.

Record Executor (F : Type) : Type := mk_exec {
  slots : list (AsyncSlot F);
  sleep_slots : list SleepSlot;
  spawned : Z;
  completed : Z;
  polls : Z;
  wakes : Z;
}.
Arguments mk_exec {F} slots sleep_slots spawned completed polls wakes.
Arguments slots {F} e.
Arguments sleep_slots {F} e.
Arguments spawned {F} e.
Arguments completed {F} e.
Arguments polls {F} e.
Arguments wakes {F} e.

Definition executor_new {F} : Executor F :=
  mk_exec (replicate MAX_ASYNC_TASKS aslot_empty) (replicate MAX_ASYNC_TASKS sleep_empty) 0 0 0 0.

Definition set_slots {F} (e : Executor F) (l : list (AsyncSlot F)) : Executor F :=
  mk_exec l (sleep_slots e) (spawned e) (completed e) (polls e) (wakes e).
Definition set_sleeps {F} (e : Executor F) (l : list SleepSlot) : Executor F :=
  mk_exec (slots e) l (spawned e) (completed e) (polls e) (wakes e).

Definition active_count {F} (e : Executor F) : nat :=
  length (filter (λ s, bool_decide (is_Some (future s)) = true) (slots e)).
Definition sleeping_count {F} (e : Executor F) : nat :=
  length (filter (λ s, active s = true) (sleep_slots e)).

Definition mark_ready {F} (e : Executor F) (idx : nat) : Executor F :=
  match slots e !! idx with
  | Some s =>
      match future s with
      | Some _ => mk_exec (<[idx := mk_aslot (future s) (slot_name s) true]> (slots e)) (sleep_slots e)
                    (spawned e) (completed e) (polls e) (wrapping_add 64 (wakes e) 1)
      | None => e
      end
  | None => e
  end.

Definition sleeps_for (t : nat) (s : SleepSlot) : bool := active s && bool_decide (task_idx s = Some t).

Definition register_sleep {F} (e : Executor F) (t : nat) (w : Z) : Executor F :=
  match list_find (λ s, sleeps_for t s = true) (sleep_slots e) with
  | Some (i, s) => set_sleeps e (<[i := mk_sleep (task_idx s) w (active s)]> (sleep_slots e))
  | None =>
      match list_find (λ s, active s = false) (sleep_slots e) with
      | Some (i, _) => set_sleeps e (<[i := mk_sleep (Some t) w true]> (sleep_slots e))
      | None => mark_ready e t
      end
  end.

Definition clear_sleep {F} (e : Executor F) (t : nat) : Executor F :=
  match list_find (λ s, sleeps_for t s = true) (sleep_slots e) with
  | Some (i, _) => set_sleeps e (<[i := sleep_empty]> (sleep_slots e))
  | None => e
  end.

Definition spawn {F} (e : Executor F) (name : string) (fut : F) : (nat + SpawnError) * Executor F :=
  if negb OPENION_ASYNC_RT then (inr Disabled, e) else
  if (MAX_ASYNC_TASKS =? 0)%nat then (inr InvalidConfig, e) else
  match list_find (λ s : AsyncSlot F, future s = None) (slots e) with
  | Some (idx, _) =>
      (inl idx, mk_exec (<[idx := mk_aslot (Some fut) name true]> (slots e)) (sleep_slots e)
                  (wrapping_add 64 (spawned e) 1) (completed e) (polls e) (wakes e))
  | None => (inr NoSlots, e)
  end.

Definition wake_task {F} (e : Executor F) (idx : nat) : Executor F :=
  if idx <? MAX_ASYNC_TASKS then mark_ready e idx else e.

(** [task_raw_waker] and [task_waker_wake_by_ref]: the waker's data is the index plus one. *)
Definition task_raw_waker (idx : nat) : nat := S idx.
Definition task_waker_wake_by_ref {F} (e : Executor F) (data : nat) : Executor F :=
  match data with O => e | S idx => wake_task e idx end.

(** The loop of [tick_update] from slot [i] on. *)
Fixpoint wake_sleepers {F} (now : Z) (e : Executor F) (idxs : list nat) : exec (Executor F) :=
  match idxs with
  | [] => Done e
  | i :: idxs =>
      s ← get_exec (sleep_slots e !! i);
      if active s && passed now (wake_tick s) then
        let e := set_sleeps e (<[i := sleep_empty]> (sleep_slots e)) in
        wake_sleepers now (match task_idx s with Some t => mark_ready e t | None => e end) idxs
      else wake_sleepers now e idxs
  end.

Definition async_tick_update {F} (now : Z) (e : Executor F) : exec (Executor F) :=
  if negb OPENION_ASYNC_RT then Done e else wake_sleepers now e (seq 0 (length (sleep_slots e))).

Section poll.
Context {F W : Type}.

(** The executor, [CURRENT_POLL_TASK] and the rest of the world. *)
Record runtime : Type := mk_rt { executor : Executor F; current_poll : option nat; world : W }.

(** Polling a future: [true] when it completed. *)
Context (poll : F → runtime → bool * F * runtime).

Definition poll_idx (rt : runtime) (idx : nat) : exec (nat * runtime) :=
  let e := executor rt in
  match slots e !! idx with
  | Some s =>
      if negb (ready s) then Done (0, rt) else
      let e := set_slots e (<[idx := mk_aslot None (slot_name s) false]> (slots e)) in
      match future s with
      | None => Done (0, mk_rt e (current_poll rt) (world rt))
      | Some fut =>
          let '(done, fut, rt) := poll fut (mk_rt e (Some idx) (world rt)) in
          let e := executor rt in
          let e := mk_exec (slots e) (sleep_slots e) (spawned e) (completed e) (wrapping_add 64 (polls e) 1) (wakes e) in
          s ← get_exec (slots e !! idx);
          let e :=
            if done : bool then
              let e := clear_sleep (set_slots e (<[idx := mk_aslot (future s) "" false]> (slots e))) idx in
              mk_exec (slots e) (sleep_slots e) (spawned e) (wrapping_add 64 (completed e) 1) (polls e) (wakes e)
            else set_slots e (<[idx := mk_aslot (Some fut) (slot_name s) (ready s)]> (slots e)) in
          Done (1, mk_rt e None (world rt))
      end
  | None => Done (0, rt)
  end.

Fixpoint poll_from (rt : runtime) (idxs : list nat) : exec (nat * runtime) :=
  match idxs with
  | [] => Done (0, rt)
  | idx :: idxs =>
      '(n, rt) ← poll_idx rt idx;
      '(m, rt) ← poll_from rt idxs;
      Done (n + m, rt)
  end.

Definition poll_once (rt : runtime) : exec (nat * runtime) := poll_from rt (seq 0 MAX_ASYNC_TASKS).
End poll.
Arguments runtime : clear implicits.
Arguments mk_rt {F W} executor current_poll world.
Arguments executor {F W} r.
Arguments current_poll {F W} r.
Arguments world {F W} r.

(** [SleepTicks]: done once its tick has passed, else registered once. *)
Record SleepTicks : Type := mk_sleep_ticks { st_wake_tick : Z; registered : bool }.
Definition sleep_ticks (now n : Z) : SleepTicks := mk_sleep_ticks (deadline now n) false.

Definition sleep_ticks_poll {F} (now : Z) (f : SleepTicks) (e : Executor F) (current : option nat)
    : bool * SleepTicks * Executor F :=
  if passed now (st_wake_tick f) then (true, f, e) else
  if registered f then (false, f, e) else
  match current with
  | Some t => (false, mk_sleep_ticks (st_wake_tick f) true, register_sleep e t (st_wake_tick f))
  | None => (false, f, e)
  end.

(** ** Lemmas *)

Record exec_wf {F} (e : Executor F) : Prop := {
  ew_slots : length (slots e) = MAX_ASYNC_TASKS;
  ew_sleeps : length (sleep_slots e) = MAX_ASYNC_TASKS;
  ew_task : ∀ i s, sleep_slots e !! i = Some s → active s = true → ∃ t, task_idx s = Some t ∧ t < MAX_ASYNC_TASKS;
  ew_unique : ∀ i j si sj, sleep_slots e !! i = Some si → sleep_slots e !! j = Some sj →
    active si = true → active sj = true → task_idx si = task_idx sj → i = j;
}.

Lemma executor_new_wf {F} : exec_wf (executor_new (F := F)).
Proof. by split; try (intros i s [-> _]%lookup_replicate); try (intros i j s s' [-> _]%lookup_replicate). Qed.

Lemma mark_ready_sleeps {F} (e : Executor F) (t : nat) : sleep_slots (mark_ready e t) = sleep_slots e.
Proof. unfold mark_ready. by repeat case_match. Qed.

Lemma mark_ready_lookup {F} (e : Executor F) (t i : nat) (s : AsyncSlot F) : slots e !! i = Some s →
  slots (mark_ready e t) !! i
  = Some (if bool_decide (i = t) && bool_decide (is_Some (future s)) then mk_aslot (future s) (slot_name s) true else s).
Proof.
  intros Hi. unfold mark_ready. destruct (slots e !! t) as [st|] eqn:Ht.
  - destruct (decide (i = t)) as [->|Hne].
    + rewrite Hi in Ht. injection Ht as <-. rewrite bool_decide_true by done.
      destruct (future s) as [f|] eqn:Hf; cbn; [|by rewrite Hi].
      by rewrite list_lookup_insert_eq by (by eapply lookup_lt_Some).
    + rewrite bool_decide_false by done. cbn. destruct (future st); cbn; [|done].
      by rewrite list_lookup_insert_ne.
  - rewrite bool_decide_false; [done|]. intros ->. congruence.
Qed.

Lemma mark_ready_length {F} (e : Executor F) (t : nat) : length (slots (mark_ready e t)) = length (slots e).
Proof. unfold mark_ready. repeat case_match; try done. cbn. by rewrite length_insert. Qed.

Lemma exec_wf_sleeps {F} (e e' : Executor F) :
  exec_wf e → length (slots e') = length (slots e) → sleep_slots e' = sleep_slots e → exec_wf e'.
Proof. intros [] Hl Hs. split; rewrite ?Hl, ?Hs; done. Qed.

Lemma sleeps_for_true (t : nat) (s : SleepSlot) : sleeps_for t s = true ↔ active s = true ∧ task_idx s = Some t.
Proof. unfold sleeps_for. by rewrite andb_true_iff, bool_decide_eq_true. Qed.

(** When no slot sleeps for [t], one is free: the other tasks fill at most
    [MAX_ASYNC_TASKS - 1] of them. *)
Lemma free_sleep_slot {F} (e : Executor F) (t : nat) : exec_wf e → t < MAX_ASYNC_TASKS →
  (∀ i s, sleep_slots e !! i = Some s → sleeps_for t s = false) →
  ∃ i s, sleep_slots e !! i = Some s ∧ active s = false.
Proof.
  intros Hwf Ht Hno. destruct (list_find (λ s, active s = false) (sleep_slots e)) as [[i s]|] eqn:Hf.
  { apply list_find_Some in Hf as (Hi&Ha&_). eauto. }
  exfalso. apply list_find_None in Hf. rewrite Forall_lookup in Hf.
  assert (Hact : ∀ i s, sleep_slots e !! i = Some s → active s = true).
  { intros i s Hi. specialize (Hf i s Hi). cbn in Hf. by destruct (active s). }
  set (ids := (λ s, default 0 (task_idx s)) <$> sleep_slots e).
  assert (Hids : ∀ i x, ids !! i = Some x → ∃ s, sleep_slots e !! i = Some s ∧ task_idx s = Some x ∧ x < MAX_ASYNC_TASKS).
  { intros i x Hx. unfold ids in Hx. rewrite list_lookup_fmap, fmap_Some in Hx. destruct Hx as (s&Hs&->).
    destruct (ew_task e Hwf i s Hs (Hact i s Hs)) as (t'&Ht'&Hlt). exists s. by rewrite Ht'. }
  assert (Hnd : NoDup (t :: ids)).
  { apply NoDup_cons. split.
    - intros [i Hi]%list_elem_of_lookup. destruct (Hids i t Hi) as (s&Hs&Hts&_).
      assert (sleeps_for t s = true) by (apply sleeps_for_true; eauto). rewrite (Hno i s Hs) in *. done.
    - apply NoDup_alt. intros i j x Hi Hj. destruct (Hids i x Hi) as (si&Hsi&Hti&_).
      destruct (Hids j x Hj) as (sj&Hsj&Htj&_). eapply (ew_unique e Hwf i j si sj); eauto; congruence. }
  assert (Hsub : t :: ids ⊆+ seq 0 MAX_ASYNC_TASKS).
  { apply NoDup_submseteq; [done|]. intros x [->|[i Hi]%list_elem_of_lookup]%elem_of_cons; apply elem_of_seq; [lia|].
    destruct (Hids i x Hi) as (_&_&_&?). lia. }
  apply submseteq_length in Hsub. rewrite length_seq in Hsub. cbn [length] in Hsub. unfold ids in Hsub.
  rewrite length_fmap, (ew_sleeps e Hwf) in Hsub. lia.
Qed.

(** Writing [t]'s sleep into slot [i], which is free or already [t]'s. *)
Lemma set_sleep_wf {F} (e : Executor F) (t i : nat) (s : SleepSlot) (w : Z) : exec_wf e → t < MAX_ASYNC_TASKS →
  sleep_slots e !! i = Some s →
  (∀ j sj, sleep_slots e !! j = Some sj → sleeps_for t sj = true → j = i) →
  exec_wf (set_sleeps e (<[i := mk_sleep (Some t) w true]> (sleep_slots e))).
Proof.
  intros Hwf Ht Hi Hu. assert (Hilt : i < length (sleep_slots e)) by (by eapply lookup_lt_Some).
  split; cbn.
  - apply Hwf.
  - rewrite length_insert. apply Hwf.
  - intros j sj Hj Ha. destruct (decide (i = j)) as [<-|Hne].
    + rewrite list_lookup_insert_eq in Hj by done. injection Hj as <-. by exists t.
    + rewrite list_lookup_insert_ne in Hj by done. by eapply ew_task.
  - intros j k sj sk Hj Hk Haj Hak Heq.
    assert (Hoth : ∀ l sl', i ≠ l → <[i := mk_sleep (Some t) w true]> (sleep_slots e) !! l = Some sl' →
      active sl' = true → task_idx sl' ≠ Some t).
    { intros l sl' Hne Hl Ha Htl. rewrite list_lookup_insert_ne in Hl by done. apply Hne. symmetry.
      eapply Hu; [done|]. by apply sleeps_for_true. }
    destruct (decide (i = j)) as [<-|Hnj], (decide (i = k)) as [<-|Hnk]; [done| | |].
    + rewrite list_lookup_insert_eq in Hj by done. injection Hj as <-. by destruct (Hoth k sk Hnk Hk Hak).
    + rewrite list_lookup_insert_eq in Hk by done. injection Hk as <-. by destruct (Hoth j sj Hnj Hj Haj).
    + rewrite list_lookup_insert_ne in Hj by done. rewrite list_lookup_insert_ne in Hk by done. by eapply ew_unique.
Qed.

Lemma register_sleep_spec {F} (e : Executor F) (t : nat) (w : Z) : exec_wf e → t < MAX_ASYNC_TASKS →
  exec_wf (register_sleep e t w) ∧ slots (register_sleep e t w) = slots e
  ∧ ∃ i, sleep_slots (register_sleep e t w) !! i = Some (mk_sleep (Some t) w true).
Proof.
  intros Hwf Ht. unfold register_sleep.
  destruct (list_find (λ s, sleeps_for t s = true) (sleep_slots e)) as [[i s]|] eqn:Hf.
  - apply list_find_Some in Hf as (Hi&Hs&_). apply sleeps_for_true in Hs as [Ha Hts]. rewrite Ha, Hts.
    assert (Hilt : i < length (sleep_slots e)) by (by eapply lookup_lt_Some).
    split_and!; [|done|exists i; cbn; by rewrite list_lookup_insert_eq].
    eapply set_sleep_wf; [done|done|done|]. intros j sj Hj [Haj Htj]%sleeps_for_true.
    eapply (ew_unique e Hwf j i); eauto; congruence.
  - apply list_find_None in Hf. rewrite Forall_lookup in Hf.
    assert (Hno : ∀ i s, sleep_slots e !! i = Some s → sleeps_for t s = false).
    { intros i s Hi. specialize (Hf i s Hi). cbn in Hf. by destruct (sleeps_for t s). }
    destruct (free_sleep_slot e t Hwf Ht Hno) as (k&sk&Hk&Hak).
    destruct (list_find (λ s, active s = false) (sleep_slots e)) as [[i s]|] eqn:Hg.
    + apply list_find_Some in Hg as (Hi&Ha&_).
      assert (Hilt : i < length (sleep_slots e)) by (by eapply lookup_lt_Some).
      split_and!; [|done|exists i; cbn; by rewrite list_lookup_insert_eq].
      eapply set_sleep_wf; [done|done|done|]. intros j sj Hj Hsj. by rewrite (Hno j sj Hj) in Hsj.
    + apply list_find_None in Hg. rewrite Forall_lookup in Hg. by destruct (Hg k sk Hk).
Qed.

(** ** The tick *)

Definition due (now : Z) (s : SleepSlot) : bool := active s && passed now (wake_tick s).

Lemma wake_sleepers_spec {F} (now : Z) (n i : nat) (e : Executor F) : i + n ≤ length (sleep_slots e) →
  ∃ e', wake_sleepers now e (seq i n) = Done e'
  ∧ length (slots e') = length (slots e) ∧ length (sleep_slots e') = length (sleep_slots e)
  ∧ (∀ j s, sleep_slots e !! j = Some s →
       sleep_slots e' !! j = Some (if bool_decide (i ≤ j < i + n) && due now s then sleep_empty else s))
  ∧ (∀ t s, slots e !! t = Some s → ∃ r, slots e' !! t = Some (mk_aslot (future s) (slot_name s) r)
       ∧ (r = true ↔ ready s = true ∨ (is_Some (future s) ∧ ∃ j d, i ≤ j < i + n ∧ sleep_slots e !! j = Some d
                                         ∧ due now d = true ∧ task_idx d = Some t))).
Proof.
  revert i e. induction n as [|n IH]; intros i e Hlen.
  { exists e. split_and!; [done..| |].
    - intros j s Hj. by rewrite bool_decide_false by lia.
    - intros t s Ht. exists (ready s). split; [by destruct s|]. split; [by left|].
      intros [?|(_&j&d&?&_)]; [done|lia]. }
  destruct (lookup_lt_is_Some_2 (sleep_slots e) i ltac:(lia)) as [si Hi].
  cbn [seq wake_sleepers]. rewrite Hi. cbn [get_exec mbind exec_bind]. fold (due now si).
  destruct (due now si) eqn:Hdue.
  - set (e1 := match task_idx si with
               | Some t => mark_ready (set_sleeps e (<[i := sleep_empty]> (sleep_slots e))) t
               | None => set_sleeps e (<[i := sleep_empty]> (sleep_slots e)) end).
    assert (Hsl1 : sleep_slots e1 = <[i := sleep_empty]> (sleep_slots e)).
    { unfold e1. case_match; [by rewrite mark_ready_sleeps|done]. }
    assert (Hln1 : length (slots e1) = length (slots e)).
    { unfold e1. case_match; [by rewrite mark_ready_length|done]. }
    destruct (IH (S i) e1) as (e'&He'&Hl&Hls&Hs&Hr).
    { rewrite Hsl1, length_insert. lia. }
    exists e'. split_and!; [done|congruence|by rewrite Hls, Hsl1, length_insert| |].
    + intros j s Hj. destruct (decide (i = j)) as [<-|Hne].
      * rewrite (Hs i sleep_empty) by (rewrite Hsl1; apply list_lookup_insert_eq; by eapply lookup_lt_Some).
        rewrite Hi in Hj. injection Hj as <-. rewrite Hdue, (bool_decide_true (i ≤ i < i + S n)) by lia. cbn. by case_match.
      * rewrite (Hs j s) by (by rewrite Hsl1, list_lookup_insert_ne).
        f_equal. rewrite (bool_decide_ext (i ≤ j < i + S n) (S i ≤ j < S i + n)) by (clear -Hne; lia). done.
    + intros t s Ht.
      set (hit := bool_decide (task_idx si = Some t) && bool_decide (is_Some (future s))).
      assert (Ht1 : slots e1 !! t = Some (mk_aslot (future s) (slot_name s) (ready s || hit))).
      { unfold e1, hit. destruct (task_idx si) as [t'|] eqn:Hti.
        - rewrite (mark_ready_lookup _ _ _ s) by done. f_equal.
          rewrite (bool_decide_ext (t = t') (Some t' = Some t)) by (split; congruence).
          destruct (bool_decide (Some t' = Some t)); cbn; [|by destruct s as [?? []]].
          destruct (bool_decide (is_Some (future s))); destruct s as [?? []]; done.
        - cbn. rewrite Ht. by destruct s as [?? []]. }
      destruct (Hr t _ Ht1) as (r&Hr1&Hr2). exists r. split; [done|]. rewrite Hr2. cbn.
      rewrite orb_true_iff. unfold hit. rewrite andb_true_iff, !bool_decide_eq_true. rewrite Hsl1. split.
      * intros [[?|[Hti ?]]|(?&j&d&?&Hj&?&?)]; [by left| |].
        -- right. split; [done|]. exists i, si. split_and!; [lia..|done|done|done].
        -- right. split; [done|]. rewrite list_lookup_insert_ne in Hj by lia. exists j, d. split_and!; [lia..|done|done|done].
      * intros [?|(?&j&d&?&Hj&?&?)]; [by left; left|].
        destruct (decide (i = j)) as [<-|Hne].
        -- rewrite Hi in Hj. injection Hj as <-. left. by right.
        -- right. split; [done|]. exists j, d. rewrite list_lookup_insert_ne by done. split_and!; [lia..|done|done|done].
  - destruct (IH (S i) e) as (e'&He'&Hl&Hls&Hs&Hr); [lia|].
    exists e'. split_and!; [done|done|done| |].
    + intros j s Hj. rewrite (Hs j s Hj). f_equal. destruct (decide (i = j)) as [<-|Hne].
      * rewrite Hi in Hj. injection Hj as <-. by rewrite Hdue, !andb_false_r.
      * by rewrite (bool_decide_ext (i ≤ j < i + S n) (S i ≤ j < S i + n)) by (clear -Hne; lia).
    + intros t s Ht. destruct (Hr t s Ht) as (r&Hr1&Hr2). exists r. split; [done|]. rewrite Hr2.
      split; (intros [?|(?&j&d&?&?&?&?)]; [by left|right; split; [done|]; exists j, d; split_and!; try done; try lia]).
      destruct (decide (i = j)) as [<-|]; [congruence|lia].
Qed.

(** What [tick_update] promises: it never indexes out of bounds; exactly the
    due sleepers are released, and exactly their tasks become ready. *)
Lemma async_tick_update_spec {F} (now : Z) (e : Executor F) : exec_wf e →
  ∃ e', async_tick_update now e = Done e' ∧ exec_wf e'
  ∧ (∀ j s, sleep_slots e !! j = Some s → sleep_slots e' !! j = Some (if due now s then sleep_empty else s))
  ∧ (∀ t s, slots e !! t = Some s → ∃ r, slots e' !! t = Some (mk_aslot (future s) (slot_name s) r)
       ∧ (r = true ↔ ready s = true ∨ (is_Some (future s) ∧
            ∃ j d, sleep_slots e !! j = Some d ∧ due now d = true ∧ task_idx d = Some t))).
Proof.
  intros Hwf. unfold async_tick_update. cbn [negb OPENION_ASYNC_RT].
  destruct (wake_sleepers_spec now (length (sleep_slots e)) 0 e) as (e'&He'&Hl&Hls&Hs&Hr); [lia|].
  assert (Hs' : ∀ j s, sleep_slots e !! j = Some s → sleep_slots e' !! j = Some (if due now s then sleep_empty else s)).
  { intros j s Hj. rewrite (Hs j s Hj). rewrite bool_decide_true; [done|].
    apply lookup_lt_Some in Hj. lia. }
  assert (Hback : ∀ j s, sleep_slots e' !! j = Some s → active s = true → sleep_slots e !! j = Some s).
  { intros j s Hj Ha. destruct (lookup_lt_is_Some_2 (sleep_slots e) j) as [s0 Hj0].
    { rewrite <- Hls. by eapply lookup_lt_Some. }
    rewrite (Hs' j s0 Hj0) in Hj. injection Hj as <-. by destruct (due now s0). }
  exists e'. split_and!; [done| |done|].
  - split.
    + rewrite Hl. apply Hwf.
    + rewrite Hls. apply Hwf.
    + intros i s Hi Ha. eapply (ew_task e Hwf i); eauto.
    + intros i j si sj Hi Hj Hai Haj. eapply (ew_unique e Hwf i j si sj); eauto.
  - intros t s Ht. destruct (Hr t s Ht) as (r&Hr1&Hr2). exists r. split; [done|]. rewrite Hr2.
    split; (intros [?|(?&j&d&H)]; [by left|right; split; [done|]; exists j, d]).
    + destruct H as (_&?&?&?). done.
    + destruct H as (Hj&?&?). split_and!; [lia| |done..]. apply lookup_lt_Some in Hj. lia.
Qed.

(** ** A pass over the slots *)

Section pass.
Context {F W : Type} (poll : F → runtime F W → bool * F * runtime F W).

(** A future that only sleeps, or acts on the world: its poll wakes and
    spawns nothing. *)
Definition quiet : Prop := ∀ f rt b f' rt', poll f rt = (b, f', rt') → slots (executor rt') = slots (executor rt).

Definition runnable (s : AsyncSlot F) : bool := ready s && bool_decide (is_Some (future s)).

(** Slot [s] of task [i] after the pass. *)
Definition polled_slot (i : nat) (s s' : AsyncSlot F) : Prop :=
  match future s with
  | Some f =>
      if ready s then
        ∃ rt b f' rt', poll f rt = (b, f', rt') ∧ current_poll rt = Some i ∧
          s' = if b : bool then mk_aslot None "" false else mk_aslot (Some f') (slot_name s) false
      else s' = s
  | None => s' = mk_aslot None (slot_name s) false
  end.

Lemma clear_sleep_slots (e : Executor F) (t : nat) : slots (clear_sleep e t) = slots e.
Proof. unfold clear_sleep. by repeat case_match. Qed.

Lemma poll_idx_spec (rt : runtime F W) (idx : nat) (s : AsyncSlot F) : quiet → slots (executor rt) !! idx = Some s →
  ∃ rt' s', poll_idx poll rt idx = Done (if runnable s then 1 else 0, rt') ∧ slots (executor rt') = <[idx := s']> (slots (executor rt))
  ∧ ready s' = false ∧ (future s = None → future s' = None) ∧ (is_Some (future s) ∨ ready s = true → polled_slot idx s s').
Proof.
  intros Hq Hs. pose proof (lookup_lt_Some _ _ _ Hs) as Hlt.
  unfold poll_idx, runnable, polled_slot. rewrite Hs. destruct (ready s) eqn:Hr; cbn [negb andb].
  - destruct (future s) as [f|] eqn:Hf; cbn.
    + destruct (poll f _) as [[b f'] rt1] eqn:Hp. pose proof (Hq _ _ _ _ _ Hp) as Hsl. cbn in Hsl.
      rewrite Hsl, list_lookup_insert_eq by done. cbn.
      destruct b; eexists _, _; (split; [reflexivity|]); cbn.
      * rewrite clear_sleep_slots. cbn. rewrite list_insert_insert_eq. split; [reflexivity|].
        split_and!; [done|done|]. intros _. by eexists _, true, _, _.
      * rewrite list_insert_insert_eq. split; [reflexivity|].
        split_and!; [done|done|]. intros _. by eexists _, false, _, _.
    + eexists _, _. split; [reflexivity|]. cbn. split; [reflexivity|]. done.
  - exists rt, s. rewrite list_insert_id by done. split_and!; [done..|].
    intros _. destruct (future s) eqn:Hf; [done|]. destruct s; cbn in *. by subst.
Qed.

Lemma poll_from_spec (n i : nat) (rt : runtime F W) : quiet → i + n = length (slots (executor rt)) →
  ∃ rt', poll_from poll rt (seq i n) = Done (length (filter (λ s, runnable s = true) (drop i (slots (executor rt)))), rt')
  ∧ length (slots (executor rt')) = length (slots (executor rt))
  ∧ (∀ j s, slots (executor rt) !! j = Some s → ∃ s', slots (executor rt') !! j = Some s' ∧
       (j < i → s' = s) ∧ (i ≤ j → polled_slot j s s')).
Proof.
  intros Hq. revert i rt. induction n as [|n IH]; intros i rt Hlen.
  { exists rt. cbn. rewrite drop_ge by lia. split_and!; [done..|]. intros j s Hj. exists s.
    split_and!; [done..|]. intros Hij. apply lookup_lt_Some in Hj. lia. }
  destruct (lookup_lt_is_Some_2 (slots (executor rt)) i ltac:(lia)) as [si Hi].
  destruct (poll_idx_spec rt i si Hq Hi) as (rt1&s1&Hp&Hsl&Hrd&Hnone&Hpol).
  destruct (IH (S i) rt1) as (rt2&Hf&Hl&Hj); [rewrite Hsl, length_insert; lia|].
  exists rt2. cbn [seq poll_from]. rewrite Hp. cbn [mbind exec_bind]. rewrite Hf. cbn [mbind exec_bind].
  rewrite Hsl in *. rewrite length_insert in Hl.
  split_and!; [|done|].
  - rewrite (drop_S _ _ _ Hi), filter_cons. rewrite drop_insert_lt by lia.
    destruct (runnable si); by case_decide.
  - intros j s Hjs. destruct (decide (i = j)) as [<-|Hne].
    + destruct (Hj i s1) as (s2&Hs2&Hlt&_); [apply list_lookup_insert_eq; by eapply lookup_lt_Some|].
      rewrite (Hlt ltac:(lia)) in Hs2. exists s1. split_and!; [done|lia|]. intros _.
      rewrite Hi in Hjs. injection Hjs as <-.
      destruct (decide (is_Some (future si) ∨ ready si = true)) as [?|Hno]; [by apply Hpol|].
      unfold poll_idx in Hp. rewrite Hi in Hp. destruct (ready si) eqn:Hr; [by destruct Hno; right|].
      cbn in Hp. unfold polled_slot. destruct (future si) eqn:Hfu; [destruct Hno; by left|].
      assert (rt1 = rt) as -> by congruence. apply (f_equal (λ l, l !! i)) in Hsl.
      rewrite list_lookup_insert_eq, Hi in Hsl by (by eapply lookup_lt_Some).
      injection Hsl as <-. destruct si; cbn in *. by subst.
    + destruct (Hj j s) as (s2&Hs2&Hlt&Hge); [by rewrite list_lookup_insert_ne|].
      exists s2. split_and!; [done| |]; intros; [apply Hlt|apply Hge]; lia.
Qed.
End pass.

(** [poll_once], when the polls themselves wake and spawn nothing, polls
    every ready task exactly once with its own index current, returns how many
    it polled, frees the slots of the tasks that completed, keeps the futures
    of the pending ones with their ready flag down, and leaves every other
    task as it was. *)
Theorem poll_once_polls_ready {F W} (poll : F → runtime F W → bool * F * runtime F W) (rt : runtime F W) :
  quiet poll → exec_wf (executor rt) →
  ∃ rt', poll_once poll rt = Done (length (filter (λ s, runnable s = true) (slots (executor rt))), rt')
  ∧ (∀ j s, slots (executor rt) !! j = Some s → ∃ s', slots (executor rt') !! j = Some s' ∧ polled_slot poll j s s').
Proof.
  intros Hq Hwf. destruct (poll_from_spec poll MAX_ASYNC_TASKS 0 rt Hq) as (rt'&Hp&_&Hj); [by rewrite ew_slots|].
  exists rt'. unfold poll_once. split; [by rewrite Hp, drop_0|].
  intros j s Hs. destruct (Hj j s Hs) as (s'&Hs'&_&Hpol). exists s'. split; [done|]. apply Hpol. lia.
Qed.

(** The whole life of a [SleepTicks] awaited by task [t]: its first poll
    before the deadline is pending and always finds a sleep slot, so it never
    falls back to waking the task at once; however the executor goes on until
    tick [now'], [tick_update] then releases the slot exactly when the
    deadline has passed, and makes the task ready if it has. *)
Theorem sleep_registers_and_wakes {F} (now now' n : Z) (e : Executor F) (t : nat) :
  exec_wf e → t < MAX_ASYNC_TASKS → passed now (deadline now n) = false →
  ∃ e1 i, sleep_ticks_poll now (sleep_ticks now n) e (Some t) = (false, mk_sleep_ticks (deadline now n) true, e1)
  ∧ exec_wf e1 ∧ slots e1 = slots e
  ∧ sleep_slots e1 !! i = Some (mk_sleep (Some t) (deadline now n) true)
  ∧ ∀ (e2 : Executor F) (s : AsyncSlot F), exec_wf e2 → sleep_slots e2 !! i = sleep_slots e1 !! i → slots e2 !! t = Some s → is_Some (future s) →
      ∃ (e3 : Executor F) (r : bool), async_tick_update now' e2 = Done e3 ∧ slots e3 !! t = Some (mk_aslot (future s) (slot_name s) r)
      ∧ r = ready s || passed now' (deadline now n)
      ∧ sleep_slots e3 !! i = Some (if passed now' (deadline now n) then sleep_empty else mk_sleep (Some t) (deadline now n) true).
Proof.
  intros Hwf Ht Hnot. destruct (register_sleep_spec e t (deadline now n) Hwf Ht) as (Hwf1&Hsl&i&Hi).
  exists (register_sleep e t (deadline now n)), i. split_and!; [|done..|].
  { unfold sleep_ticks_poll, sleep_ticks. cbn. by rewrite Hnot. }
  intros e2 s Hwf2 Hi2 Hs Hfut. rewrite Hi in Hi2.
  destruct (async_tick_update_spec now' e2 Hwf2) as (e3&He3&_&Hsleep&Hslots).
  destruct (Hslots t s Hs) as (r&Hr&Hiff). exists e3, r. split_and!; [done|done| |].
  - apply eq_true_iff_eq. rewrite orb_true_iff, Hiff. split.
    + intros [?|(_&j&d&Hj&[Ha Hp]%andb_true_iff&Hd)]; [by left|]. right.
      assert (j = i) as -> by (eapply (ew_unique e2 Hwf2 j i); eauto).
      rewrite Hi2 in Hj. by injection Hj as <-.
    + intros [?|Hp]; [by left|]. right. split; [done|]. eexists i, _. split; [done|]. split; [|done].
      by unfold due; cbn; rewrite Hp.
  - rewrite (Hsleep i _ Hi2). by unfold due.
Qed.

(** ** Concrete runs *)

(** A future that is done at its [n+1]-st poll; the world logs the polls. *)
Definition countdown_poll (n : nat) (rt : runtime nat (list nat)) : bool * nat * runtime nat (list nat) :=
  let rt := mk_rt (executor rt) (current_poll rt) (n :: world rt) in
  match n with O => (true, 0, rt) | S n => (false, n, rt) end.

Definition demo_executor : Executor nat :=
  snd (spawn (snd (spawn executor_new "now" 0)) "later" 2).

Example demo_poll_once :
  match poll_once countdown_poll (mk_rt demo_executor None []) with
  | Done (n, rt) => n = 2 ∧ world rt = [2; 0] ∧ (future <$> take 2 (slots (executor rt))) = [None; Some 1]
                    ∧ completed (executor rt) = 1%Z
  | Stuck => False
  end.
Proof. vm_compute. done. Qed.

(** A future that wakes its own task and stays pending, as a future that
    yields does: the slot is empty while it is polled, so [mark_ready] finds no
    future and the wake-up is lost. *)
Example wake_during_poll_lost :
  let yields (f : unit) (rt : runtime unit unit) :=
    (false, f, mk_rt (match current_poll rt with
                      | Some t => task_waker_wake_by_ref (executor rt) (task_raw_waker t) | None => executor rt end)
                 (current_poll rt) (world rt)) in
  match poll_once yields (mk_rt (snd (spawn executor_new "yields" ())) None ()) with
  | Done (n, rt) => n = 1 ∧ (ready <$> slots (executor rt)) = replicate MAX_ASYNC_TASKS false
  | Stuck => False
  end.
Proof. vm_compute. done. Qed.

(** A task that spawns another while it is polled: the new future lands in the
    slot that is being polled, and the pending one is stored over it. *)
Example spawn_during_poll_overwritten :
  let spawns (f : nat) (rt : runtime nat unit) := (false, f, mk_rt (snd (spawn (executor rt) "child" 7)) (current_poll rt) (world rt)) in
  match poll_once spawns (mk_rt (snd (spawn executor_new "parent" 1)) None ()) with
  | Done (_, rt) => spawned (executor rt) = 2%Z ∧ active_count (executor rt) = 1 ∧ future <$> (slots (executor rt) !! 0) = Some (Some 1)
  | Stuck => False
  end.
Proof. vm_compute. done. Qed.

(** Two sleeps awaited together by one task: the second takes the slot of the
    first, so the tick of the first passes without a wake-up. *)
Example second_sleep_replaces_first :
  let e := snd (spawn executor_new "joins" ()) in
  let e := snd (sleep_ticks_poll 0 (sleep_ticks 0 5) e (Some 0)) in
  let e := snd (sleep_ticks_poll 0 (sleep_ticks 0 50) e (Some 0)) in
  match async_tick_update 5 (set_slots e [mk_aslot (Some ()) "joins" false]) with
  | Done e => sleeping_count e = 1 ∧ (ready <$> slots e) = [false]
  | Stuck => False
  end.
Proof. vm_compute. done. Qed.

Lemma spawn_wf {F} (e : Executor F) (name : string) (f : F) : exec_wf e → exec_wf (snd (spawn e name f)).
Proof.
  intros Hwf. unfold spawn. cbn [negb OPENION_ASYNC_RT]. repeat case_match; try done.
  eapply exec_wf_sleeps; [done| |done]. cbn. by rewrite length_insert.
Qed.

Lemma poll_once_polls_ready_witness :
  quiet countdown_poll ∧ exec_wf demo_executor ∧ ∃ rt', poll_once countdown_poll (mk_rt demo_executor None []) = Done (2, rt').
Proof.
  assert (Hq : quiet countdown_poll).
  { intros [|f] rt b f' rt' H; injection H as <- <- <-; done. }
  assert (Hwf : exec_wf demo_executor) by apply spawn_wf, spawn_wf, executor_new_wf.
  split_and!; [done..|].
  destruct (poll_once_polls_ready countdown_poll (mk_rt demo_executor None []) Hq Hwf) as (rt'&H&_). exists rt'. exact H.
Defined.

Lemma sleep_registers_and_wakes_witness :
  exec_wf (executor_new (F := unit)) ∧ passed 4294967290 (deadline 4294967290 10) = false
  ∧ ∃ e1, sleep_ticks_poll 4294967290 (sleep_ticks 4294967290 10) (executor_new (F := unit)) (Some 3)
          = (false, mk_sleep_ticks 4 true, e1).
Proof.
  split_and!; [apply executor_new_wf|reflexivity|].
  destruct (sleep_registers_and_wakes 4294967290 4 10 (executor_new (F := unit)) 3 executor_new_wf
    ltac:(vm_compute; lia) eq_refl) as (e1&_&H&_). exists e1. exact H.
Defined.
