(* ===== verification/Wait.v ===== *)
(** * Wait queues, events and semaphores, [kernel/src/sched/wait.rs]

    The operations on the running kernel: each primitive is a value behind its
    own lock, next to the kernel whose tasks it blocks and wakes.  [WaitQueue]
    holds the array operations and their refinement. *)

From S2P Require Export Prelude.
From S2P Require Export SchedKernel.
From S2P Require Export WaitQueue.
From S2P Require Export AsyncRt.

Section wait.
Context `{!SmpConfig}.

(** A block under the lock [x]. *)
Definition with_lock {A T} (k : kernel) (x : mutex T) (f : kernel → T → exec (A * kernel * T)) : exec (A * kernel * mutex T) :=
  '(m, x) ← lock (mach k) x;
  '(a, k, v) ← f (with_mach k m) (value x);
  let '(m, x) := unlock (mach k) (mk_mutex true v) in
  Done (a, with_mach k m, x).

Definition current_task_ptr (k : kernel) : ptr * kernel := (CURRENT_TCB (mach k), with_mach k (sync_current (mach k))).
Definition k_disable_irq (k : kernel) : kernel := with_mach k (disable_irq (mach k)).
Definition k_enable_irq (k : kernel) : kernel := with_mach k (enable_irq (mach k)).

(** ** [WaitQueue] *)

Definition WaitQueue : Type := mutex WaitQueueInner.

Section queue.
Context (N : nat).

Definition wait_queue_new : WaitQueue := mutex_new (wqi_new N).

Definition push_current (k : kernel) (q : WaitQueue) (current : ptr) : exec (bool * kernel * WaitQueue) :=
  with_lock k q (λ k w, '(b, w) ← wq_push N w current; Done (b, k, w)).

Definition remove_task (k : kernel) (q : WaitQueue) (task : ptr) : exec (unit * kernel * WaitQueue) :=
  with_lock k q (λ k w, w ← wq_remove w task; Done (tt, k, w)).

Definition enqueue_current (k : kernel) (q : WaitQueue) : exec (bool * kernel * WaitQueue) :=
  let '(current, k) := current_task_ptr k in
  if bool_decide (current = None) then Done (false, k, q) else push_current k q current.

Definition wq_wait (k : kernel) (q : WaitQueue) : exec (bool * kernel * WaitQueue) :=
  let '(current, k) := current_task_ptr k in
  if bool_decide (current = None) then Done (false, k, q) else
  '(queued, k, q) ← push_current (k_disable_irq k) q current;
  '(blocked, k) ← (if queued : bool then block_current_task_irq_disabled k else Done (false, k));
  let k := k_enable_irq k in
  if blocked : bool then k ← yield_task k; Done (true, k, q) else
  if queued : bool then '(_, k, q) ← remove_task k q current; Done (false, k, q)
  else Done (false, k, q).

Definition wake_one (k : kernel) (q : WaitQueue) : exec (bool * kernel * WaitQueue) :=
  '(task, k, q) ← with_lock k q (λ k w, '(o, w) ← wq_pop_front w; Done (o, k, w));
  match task with
  | None => Done (false, k, q)
  | Some task =>
      '(woke, k) ← wake_blocked_task k task;
      with_lock k q (λ k w, Done (woke, k, if woke : bool then wq_count w 1 0 else wq_count w 0 1))
  end.

(** The loop of [wake_all]: the woken and the failed. *)
Fixpoint wake_tasks (k : kernel) (tasks : list ptr) (woke failed : nat) : exec (nat * nat * kernel) :=
  match tasks with
  | [] => Done (woke, failed, k)
  | t :: tasks =>
      '(b, k) ← wake_blocked_task k t;
      if b : bool then wake_tasks k tasks (S woke) failed else wake_tasks k tasks woke (S failed)
  end.

Definition wake_all (k : kernel) (q : WaitQueue) : exec (nat * kernel * WaitQueue) :=
  '(r, k, q) ← with_lock k q (λ k w, '(n, ts, w) ← wq_take_all w (replicate N None); Done ((n, ts), k, w));
  '(woke, failed, k) ← wake_tasks k (take r.1 r.2) 0 0;
  with_lock k q (λ k w, Done (woke, k, wq_count w woke failed)).

Definition wait_queue_stats (k : kernel) (q : WaitQueue) : exec (WaitQueueStats * kernel * WaitQueue) :=
  with_lock k q (λ k w, Done (wq_stats w, k, w)).

(** The common end of [Event::wait] and [Semaphore::wait]: [Some true] when
    the task queued itself, [Some false] when it need not wait. *)
Definition finish_wait {I} (waiters : I → WaitQueue) (set_waiters : I → WaitQueue → I)
    (k : kernel) (x : mutex I) (current : ptr) (r : option bool) : exec (bool * kernel * mutex I) :=
  '(blocked, k) ← (if bool_decide (r = Some true) then block_current_task_irq_disabled k else Done (false, k));
  let k := k_enable_irq k in
  if blocked : bool then k ← yield_task k; Done (true, k, x) else
  if bool_decide (r = Some true) then
    with_lock k x (λ k i, '(_, k, q) ← remove_task k (waiters i) current; Done (false, k, set_waiters i q))
  else Done (bool_decide (r = Some false), k, x).

(** ** [Event] *)

Record EventInner : Type := mk_event { signaled : bool; ev_waiters : WaitQueue; async_waiter : option nat }.
Definition Event : Type := mutex EventInner.
Definition event_new : Event := mutex_new (mk_event false wait_queue_new None).
Definition set_ev_waiters (i : EventInner) (q : WaitQueue) : EventInner := mk_event (signaled i) q (async_waiter i).

Definition event_try (k : kernel) (i : EventInner) : exec (option bool * kernel * EventInner) :=
  if signaled i then Done (Some false, k, mk_event false (ev_waiters i) (async_waiter i)) else
  '(b, k, q) ← enqueue_current k (ev_waiters i);
  Done (if b : bool then Some true else None, k, set_ev_waiters i q).

Definition event_wait (k : kernel) (x : Event) : exec (bool * kernel * Event) :=
  let '(current, k) := current_task_ptr k in
  if bool_decide (current = None) then Done (false, k, x) else
  '(r, k, x) ← with_lock (k_disable_irq k) x event_try;
  finish_wait ev_waiters set_ev_waiters k x current r.

(** With the [async_rt] feature; [ex] is the executor behind its lock. *)
Definition event_signal {F} (k : kernel) (ex : mutex (Executor F)) (x : Event)
    : exec (bool * kernel * mutex (Executor F) * Event) :=
  '(r, k, x) ← with_lock k x (λ k i,
    '(b, k, q) ← wake_one k (ev_waiters i);
    if b : bool then Done ((true, ex), k, set_ev_waiters i q) else
    match async_waiter i with
    | Some task =>
        '(_, k, ex) ← with_lock k ex (λ k e, Done (tt, k, wake_task e task));
        Done ((true, ex), k, mk_event true q None)
    | None => Done ((false, ex), k, mk_event true q None)
    end);
  Done (r.1, k, r.2, x).

Definition event_clear (k : kernel) (x : Event) : exec (unit * kernel * Event) :=
  with_lock k x (λ k i, Done (tt, k, mk_event false (ev_waiters i) (async_waiter i))).

Definition is_signaled (k : kernel) (x : Event) : exec (bool * kernel * Event) :=
  with_lock k x (λ k i, Done (signaled i, k, i)).

Definition event_stats (k : kernel) (x : Event) : exec ((bool * nat) * kernel * Event) :=
  with_lock k x (λ k i,
    '(st, k, q) ← wait_queue_stats k (ev_waiters i);
    Done ((signaled i, wqs_waiting st), k, set_ev_waiters i q)).

(** The future of [wait_async]: its [waiter] field. *)
Definition wait_async : option nat := None.

Definition event_poll (k : kernel) (current : option nat) (x : Event) (waiter : option nat)
    : exec (bool * option nat * kernel * Event) :=
  match current with
  | None => Done (false, waiter, k, x)
  | Some c =>
      '(r, k, x) ← with_lock (k_disable_irq k) x (λ k i,
        if signaled i then
          Done ((true, waiter), k,
                mk_event false (ev_waiters i) (if bool_decide (async_waiter i = Some c) then None else async_waiter i))
        else if bool_decide (async_waiter i = None ∨ async_waiter i = Some c) then
          Done ((false, Some c), k, mk_event false (ev_waiters i) (Some c))
        else Done ((false, waiter), k, i));
      let k := k_enable_irq k in
      if r.1 : bool then Done (true, None, k, x) else Done (false, r.2, k, x)
  end.

Definition event_wait_drop (k : kernel) (x : Event) (waiter : option nat) : exec (unit * kernel * Event) :=
  match waiter with
  | None => Done (tt, k, x)
  | Some _ => with_lock k x (λ k i,
      Done (tt, k, if bool_decide (async_waiter i = waiter) then mk_event (signaled i) (ev_waiters i) None else i))
  end.

(** ** [Semaphore] *)

Record SemaphoreInner : Type := mk_sem { permits : Z; sem_waiters : WaitQueue }.
Definition Semaphore : Type := mutex SemaphoreInner.
Definition semaphore_new (n : Z) : Semaphore := mutex_new (mk_sem n wait_queue_new).
Definition set_sem_waiters (i : SemaphoreInner) (q : WaitQueue) : SemaphoreInner := mk_sem (permits i) q.

Definition try_acquire (k : kernel) (x : Semaphore) : exec (bool * kernel * Semaphore) :=
  with_lock k x (λ k i,
    if (0 <? permits i)%Z then Done (true, k, mk_sem (permits i - 1) (sem_waiters i)) else Done (false, k, i)).

Definition sem_try (k : kernel) (i : SemaphoreInner) : exec (option bool * kernel * SemaphoreInner) :=
  if (0 <? permits i)%Z then Done (Some false, k, mk_sem (permits i - 1) (sem_waiters i)) else
  '(b, k, q) ← enqueue_current k (sem_waiters i);
  Done (if b : bool then Some true else None, k, set_sem_waiters i q).

Definition sem_wait (k : kernel) (x : Semaphore) : exec (bool * kernel * Semaphore) :=
  let '(current, k) := current_task_ptr k in
  if bool_decide (current = None) then Done (false, k, x) else
  '(r, k, x) ← with_lock (k_disable_irq k) x sem_try;
  finish_wait sem_waiters set_sem_waiters k x current r.

(** The loop of [release_many], [woke] of [count] iterations done. *)
Fixpoint release_loop (k : kernel) (x : Semaphore) (count woke todo : nat) : exec (nat * kernel * Semaphore) :=
  match todo with
  | O => Done (woke, k, x)
  | S todo =>
      '(did_wake, k, x) ← with_lock k x (λ k i,
        '(b, k, q) ← wake_one k (sem_waiters i); Done (b, k, set_sem_waiters i q));
      if did_wake : bool then release_loop k x count (S woke) todo else
      with_lock k x (λ k i,
        Done (woke, k, mk_sem (Z.min (permits i + Z.of_nat (count - woke)) USIZE_MAX) (sem_waiters i)))
  end.

Definition release_many (k : kernel) (x : Semaphore) (count : nat) : exec (nat * kernel * Semaphore) :=
  if count =? 0 then Done (0, k, x) else release_loop k x count 0 count.
Definition release (k : kernel) (x : Semaphore) : exec (nat * kernel * Semaphore) := release_many k x 1.

Definition available (k : kernel) (x : Semaphore) : exec (Z * kernel * Semaphore) :=
  with_lock k x (λ k i, Done (permits i, k, i)).

Definition sem_stats (k : kernel) (x : Semaphore) : exec ((Z * nat) * kernel * Semaphore) :=
  with_lock k x (λ k i,
    '(st, k, q) ← wait_queue_stats k (sem_waiters i);
    Done ((permits i, wqs_waiting st), k, set_sem_waiters i q)).
End queue.
End wait.

(** ** The kernel around a lock *)

Section single.
Context `{!SmpConfig} (idle : nat).
Hypothesis one_cpu : max_cpus = 1.

Lemma kernel_at_sync {B : list nat} (k : kernel) (n : nat) (irq : bool) (cur : nat) (nxt run : ptr) :
  kernel_at idle B k n irq cur nxt run →
  current_task_ptr k = (Some cur, with_mach k (sync_current (mach k)))
  ∧ kernel_at idle B (with_mach k (sync_current (mach k))) n irq cur nxt run.
Proof.
  intros Hk. pose proof Hk as (s&qss&sl&fl&[K1 K2 K3 K4 K5 K6]&Hco&Hcur&Hrun).
  destruct (sync_current_nest (mach k) K1) as (S1&S2&S3&S4&S5). unfold current_task_ptr. rewrite K4.
  split; [done|]. eapply (kernel_at_mach idle); try done; congruence.
Qed.

Lemma kernel_at_disable {B : list nat} (k : kernel) (n : nat) (irq : bool) (cur : nat) (nxt run : ptr) :
  kernel_at idle B k n irq cur nxt run → kernel_at idle B (k_disable_irq k) (S n) (irq && negb (n =? 0)) cur nxt run.
Proof.
  intros Hk. pose proof Hk as (s&qss&sl&fl&[K1 K2 K3 K4 K5 K6]&Hco&Hcur&Hrun).
  destruct (disable_irq_spec (mach k) K1) as (D1&D2&D3&D4&D5).
  eapply (kernel_at_mach idle); try done; congruence.
Qed.

Lemma kernel_at_enable {B : list nat} (k : kernel) (n : nat) (irq : bool) (cur : nat) (nxt run : ptr) :
  kernel_at idle B k (S n) irq cur nxt run → kernel_at idle B (k_enable_irq k) n (if n =? 0 then true else irq) cur nxt run.
Proof.
  intros Hk. pose proof Hk as (s&qss&sl&fl&[K1 K2 K3 K4 K5 K6]&Hco&Hcur&Hrun).
  destruct (enable_irq_spec (mach k) K1) as (E1&E2&E3&E4&E5).
  eapply (kernel_at_mach idle); try done; try congruence.
  - by rewrite E2, K2.
  - rewrite E3, K2, K3, K4. cbn. destruct n; cbn; done.
Qed.

(** The interrupt flag is on in the task context. *)
Definition irq_ok (n : nat) (irq : bool) : Prop := n = 0 → irq = true.

Lemma irq_back (n : nat) (irq : bool) : irq_ok n irq → (if n =? 0 then true else irq && negb (n =? 0)) = irq.
Proof. intros Hi. destruct n; cbn; [by rewrite Hi|by rewrite andb_true_r]. Qed.

Lemma with_lock_spec {A T} {B : list nat} (Q : A → list nat → heap → T → Prop) (k : kernel) (n : nat) (irq : bool)
    (cur : nat) (nxt run : ptr) (x : mutex T) (f : kernel → T → exec (A * kernel * T)) :
  kernel_at idle B k n irq cur nxt run → irq_ok n irq → locked x = false →
  (∀ k1, kernel_at idle B k1 (S n) (irq && negb (n =? 0)) cur nxt run → tcbs k1 = tcbs k →
     ∃ a k2 v B', f k1 (value x) = Done (a, k2, v)
       ∧ kernel_at idle B' k2 (S n) (irq && negb (n =? 0)) cur nxt run ∧ Q a B' (tcbs k2) v) →
  ∃ a k2 v B', with_lock k x f = Done (a, k2, mk_mutex false v) ∧ kernel_at idle B' k2 n irq cur nxt run ∧ Q a B' (tcbs k2) v.
Proof.
  intros Hk Hi Hx Hf. destruct (Hf _ (kernel_at_disable _ _ _ _ _ _ Hk) eq_refl) as (a&k2&v&B'&Heq&Hat&HQ).
  unfold with_lock, lock. rewrite Hx. cbn [mbind exec_bind]. cbn [value].
  change (with_mach k (disable_irq (mach k))) with (k_disable_irq k). rewrite Heq. cbn [mbind exec_bind unlock value].
  exists a, (k_enable_irq k2), v, B'. split_and!; [done| |done].
  apply kernel_at_enable in Hat. by rewrite irq_back in Hat.
Qed.

Lemma current_not_waiting {B : list nat} (k : kernel) (n : nat) (irq : bool) (cur : nat) (nxt : ptr) :
  kernel_at idle B k n irq cur nxt (Some cur) → cur ∉ B.
Proof.
  intros (s&qss&sl&fl&_&Hco&_&[_ Hr]) Hin. destruct (Hr cur eq_refl) as (t&Ht&Hst).
  destruct (co_blocked _ _ _ _ _ _ _ Hco cur Hin) as (t'&Ht'&Hst'). congruence.
Qed.

Lemma kernel_at_mono {B B' : list nat} (k : kernel) (n : nat) (irq : bool) (cur : nat) (nxt run : ptr) :
  (∀ x, x ∈ B' → x ∈ B) → kernel_at idle B k n irq cur nxt run → kernel_at idle B' k n irq cur nxt run.
Proof.
  intros HB (s&qss&sl&fl&Hk&[H1 H2 H3]&Hcur&Hrun). exists s, qss, sl, fl. split_and!; [done|split; [done..|]|done|done].
  intros y Hy. apply H3. auto.
Qed.

Lemma waiting_blocked {B : list nat} (k : kernel) (n : nat) (irq : bool) (cur x : nat) (nxt run : ptr) :
  kernel_at idle B k n irq cur nxt run → x ∈ B → is_blocked (tcbs k) x.
Proof. intros (s&qss&sl&fl&_&Hco&_) Hx. by apply (co_blocked _ _ _ _ _ _ _ Hco). Qed.

(** Blocking: the current task stops and waits. *)
Lemma block_section_k {B : list nat} (k : kernel) (n : nat) (irq : bool) (cur : nat) (nxt : ptr) : cur ≠ idle →
  kernel_at idle B k n irq cur nxt (Some cur) → irq_ok n irq →
  ∃ k', block_current_task_irq_disabled k = Done (true, k') ∧ kernel_at idle (B ++ [cur]) k' n irq cur nxt None.
Proof.
  intros Hne Hk Hi. destruct (current_running idle _ _ _ _ _ Hk) as (t&Ht&Hst).
  destruct Hk as (s&qss&sl&fl&Hk&Hco&Hcur&Hrun). pose proof Hk as [K1 K2 K3 K4 K5 K6].
  destruct (disable_irq_spec (mach k) K1) as (D1&D2&D3&D4&D5).
  destruct (block_spec (tcbs k) s (disable_irq (mach k)) qss sl cur t (co_wf _ _ _ _ _ _ Hco)) as [Heq Hwf].
  { rewrite D4. done. }
  destruct (section_spec k n irq (Some cur) nxt s s true block_locked _ _ Hk Heq (mach_like_sync _)) as (k'&Hk'&Hkst&Hp).
  exists k'. split; [done|]. exists s, qss, sl, fl.
  assert (Htc : tcbs k' = <[cur := set_next (set_wakeup (set_state t Blocked) 0) None]> (tcbs k)) by (unfold tcbs; by rewrite Hp).
  split_and!.
  - replace (irq_after n irq (Some cur)) with irq in Hkst; [done|]. unfold irq_after. destruct n; cbn; [by apply Hi|done].
  - eapply core_step; [done|done|by apply insert_dom|done|by apply idle_other, Hco|done|].
    intros y [Hy| ->%list_elem_of_singleton]%elem_of_app; [by apply stop_blocked; [|apply Hco]|].
    eexists. by rewrite lookup_insert_eq.
  - rewrite Htc, lookup_insert_eq. by eexists.
  - rewrite Htc. by apply stop_run.
Qed.

(** Waking a waiting task inside a critical section. *)
Lemma wake_nested_k {B : list nat} (k : kernel) (n : nat) (irq : bool) (cur x : nat) (nxt run : ptr) : x ∉ B →
  kernel_at idle (x :: B) k (S n) irq cur nxt run →
  ∃ k', wake_blocked_task k (Some x) = Done (true, k') ∧ kernel_at idle B k' (S n) irq cur nxt run
    ∧ ∃ t, tcbs k' !! x = Some t ∧ state t = Ready.
Proof.
  intros HxB Hk. pose proof (waiting_blocked _ _ _ _ x _ _ Hk (list_elem_of_here _ _)) as Hb.
  assert (Hk' : kernel_at idle B k (S n) irq cur nxt run) by (eapply kernel_at_mono; [|done]; intros y; by right).
  destruct Hb as (tb&Htb&Hst).
  destruct (wake_k idle k (S n) irq cur x nxt run Hk' (ltac:(by eexists)) HxB) as (b&k1&Heq&Hwoke&Hat&_).
  destruct Hwoke as [-> (t&Ht&Hrd)]; [by exists tb|]. change (irq_after (S n) irq (Some cur)) with irq in Hat.
  cbn [wake_blocked_task]. rewrite Heq. cbn [mbind exec_bind].
  destruct (yield_if_nested idle k1 n irq cur nxt run Hat) as (k2&Hy&Hat2&Ht2). rewrite Hy. cbn [mbind exec_bind].
  exists k2. split_and!; [done|done|]. exists t. by rewrite Ht2.
Qed.

(** ** Queues, events and semaphores in the running kernel *)

Section prims.
Context (N : nat).

(** An unlocked queue holding [l]. *)
Definition queue_ok (q : WaitQueue) (l : list nat) : Prop := locked q = false ∧ wq_rep N (value q) l.

Lemma push_current_k {B : list nat} (k : kernel) (q : WaitQueue) (l : list nat) (n : nat) (irq : bool) (cur : nat) (nxt run : ptr) :
  kernel_at idle B k n irq cur nxt run → irq_ok n irq → queue_ok q l → cur ∉ l →
  ∃ k' q', push_current N k q (Some cur) = Done (length l <? N, k', q') ∧ kernel_at idle B k' n irq cur nxt run
    ∧ queue_ok q' (if length l <? N then l ++ [cur] else l).
Proof.
  intros Hk Hi [Hq Hr] Hn.
  destruct (with_lock_spec (λ b B' h w, B' = B ∧ b = (length l <? N) ∧ wq_rep N w (if length l <? N then l ++ [cur] else l))
              k n irq cur nxt run q (λ k w, '(b, w) ← wq_push N w (Some cur); Done (b, k, w)) Hk Hi Hq)
    as (b&k'&v&B'&Heq&Hat&->&->&Hv).
  - intros k1 Hk1 _. pose proof (wq_push_spec N (value q) l cur Hr) as Hp. rewrite bool_decide_false in Hp by done.
    cbn [orb] in Hp. rewrite Nat.ltb_antisym. destruct (N <=? length l); cbn [negb].
    + exists false, k1, (value q), B. by rewrite Hp.
    + destruct Hp as (w'&Hp&Hw'). exists true, k1, w', B. by rewrite Hp.
  - exists k', (mk_mutex false v). done.
Qed.

Lemma enqueue_current_k {B : list nat} (k : kernel) (q : WaitQueue) (l : list nat) (n : nat) (irq : bool) (cur : nat) (nxt run : ptr) :
  kernel_at idle B k n irq cur nxt run → irq_ok n irq → queue_ok q l → cur ∉ l →
  ∃ k' q', enqueue_current N k q = Done (length l <? N, k', q') ∧ kernel_at idle B k' n irq cur nxt run
    ∧ queue_ok q' (if length l <? N then l ++ [cur] else l).
Proof.
  intros Hk Hi Hq Hn. destruct (kernel_at_sync _ _ _ _ _ _ Hk) as [Hc Hk1]. unfold enqueue_current. rewrite Hc.
  rewrite bool_decide_false by done. by apply push_current_k.
Qed.

(** The oldest waiter, if any, becomes ready. *)
Lemma wake_one_k (k : kernel) (q : WaitQueue) (l : list nat) (n : nat) (irq : bool) (cur : nat) (nxt run : ptr) :
  kernel_at idle l k (S n) irq cur nxt run → queue_ok q l →
  ∃ k' q', wake_one k q = Done (bool_decide (l ≠ []), k', q') ∧ kernel_at idle (tail l) k' (S n) irq cur nxt run
    ∧ queue_ok q' (tail l) ∧ ∀ x, head l = Some x → ∃ t, tcbs k' !! x = Some t ∧ state t = Ready.
Proof.
  intros Hk [Hq Hr]. pose proof (wr_nodup _ _ _ Hr) as Hnd.
  destruct (with_lock_spec (B := l) (λ o B' h w, B' = l ∧ o = Some <$> head l ∧ wq_rep N w (tail l))
              k (S n) irq cur nxt run q (λ k w, '(o, w) ← wq_pop_front w; Done (o, k, w)) Hk ltac:(done) Hq)
    as (o&k1&v&B'&Heq&Hat&->&->&Hv).
  { intros k1 Hk1 _. pose proof (wq_pop_front_spec N (value q) l Hr) as Hp. destruct l as [|x l].
    - exists None, k1, (value q), []. by rewrite Hp.
    - destruct Hp as (w'&Hp&Hw'). exists (Some (Some x)), k1, w', (x :: l). by rewrite Hp. }
  unfold wake_one. rewrite Heq. cbn [mbind exec_bind]. destruct l as [|x l]; cbn [head tail fmap option_fmap option_map].
  { exists k1, (mk_mutex false v). split_and!; [done..|]. intros y. done. }
  apply NoDup_cons in Hnd as [Hx Hnd].
  destruct (wake_nested_k k1 n irq cur x nxt run Hx Hat) as (k2&Hw&Hk2&t&Ht&Hst). rewrite Hw. cbn [mbind exec_bind].
  destruct (with_lock_spec (B := l) (λ b B' h w, B' = l ∧ b = true ∧ wq_rep N w l ∧ h = tcbs k2)
              k2 (S n) irq cur nxt run (mk_mutex false v) (λ k w, Done (true, k, wq_count w 1 0)) Hk2 ltac:(done) eq_refl)
    as (b&k3&v3&B3&Heq3&Hat3&->&->&Hv3&Hh).
  { intros k3 Hk3 Ht3. exists true, k3, (wq_count v 1 0), l. split_and!; try done. by apply wq_rep_count. }
  rewrite Heq3. exists k3, (mk_mutex false v3). split_and!; [done|done|done|]. intros y [= <-]. exists t. by rewrite Hh.
Qed.

(** The end of a wait at depth 1, by the verdict [r] of the locked part. *)
Definition waited (l : list nat) (cur : nat) (r : option bool) (k : kernel) : Prop :=
  if bool_decide (r = Some true) then task_context idle (l ++ [cur]) k
  else kernel_at idle l k 0 true cur (Some cur) (Some cur).

Lemma finish_wait_k {I} (waiters : I → WaitQueue) (set_waiters : I → WaitQueue → I) (k : kernel) (x : mutex I)
    (l : list nat) (cur : nat) (r : option bool) : cur ≠ idle →
  kernel_at idle l k 1 false cur (Some cur) (Some cur) →
  ∃ k', finish_wait waiters set_waiters k x (Some cur) r = Done (bool_decide (r ≠ None), k', x) ∧ waited l cur r k'.
Proof.
  intros Hne Hk. unfold finish_wait, waited. destruct r as [[]|].
  - rewrite bool_decide_true by done.
    destruct (block_section_k k 1 false cur (Some cur) Hne Hk ltac:(done)) as (k1&Hb&Hk1). rewrite Hb. cbn [mbind exec_bind].
    destruct (yield_k idle one_cpu _ cur None (kernel_at_enable _ _ _ _ _ _ Hk1) ltac:(by right)) as (k2&Hy&Hc).
    rewrite Hy. by exists k2.
  - rewrite (bool_decide_false (Some false = Some true)) by done. cbn [mbind exec_bind].
    eexists. split; [done|]. exact (kernel_at_enable _ _ _ _ _ _ Hk).
  - rewrite (bool_decide_false (None = Some true)) by done. cbn [mbind exec_bind].
    eexists. split; [done|]. exact (kernel_at_enable _ _ _ _ _ _ Hk).
Qed.

(** A whole wait, by what its locked part does. *)
Lemma wait_with_k {I} (try : kernel → I → exec (option bool * kernel * I)) (waiters : I → WaitQueue)
    (set_waiters : I → WaitQueue → I) (k : kernel) (x : mutex I) (l : list nat) (cur : nat) (r : option bool) (P : I → Prop) :
  cur ≠ idle → kernel_at idle l k 0 true cur (Some cur) (Some cur) → locked x = false →
  (∀ k1, kernel_at idle l k1 2 false cur (Some cur) (Some cur) →
     ∃ k2 i, try k1 (value x) = Done (r, k2, i) ∧ kernel_at idle l k2 2 false cur (Some cur) (Some cur) ∧ P i) →
  ∃ k' i,
    (let '(current, k) := current_task_ptr k in
     if bool_decide (current = None) then Done (false, k, x) else
     '(r, k, x) ← with_lock (k_disable_irq k) x try;
     finish_wait waiters set_waiters k x current r)
    = Done (bool_decide (r ≠ None), k', mk_mutex false i) ∧ P i ∧ waited l cur r k'.
Proof.
  intros Hne Hk Hx Htry. destruct (kernel_at_sync _ _ _ _ _ _ Hk) as [Hc Hk1]. rewrite Hc.
  rewrite (bool_decide_false (Some cur = None)) by done.
  destruct (with_lock_spec (λ r' B' h i, r' = r ∧ B' = l ∧ P i) _ 1 false cur (Some cur) (Some cur) x try
              (kernel_at_disable _ _ _ _ _ _ Hk1) ltac:(done) Hx) as (r'&k2&i&B'&Heq&Hat&->&->&HP).
  { intros k2 Hk2 _. destruct (Htry k2 Hk2) as (k3&i&Heq&Hk3&HP). by exists r, k3, i, l. }
  rewrite Heq. cbn [mbind exec_bind].
  destruct (finish_wait_k waiters set_waiters k2 (mk_mutex false i) l cur r Hne Hat) as (k3&Hf&Hw).
  exists k3, i. done.
Qed.

(** ** Events *)

Record event_ok (x : Event) (sig : bool) (aw : option nat) (l : list nat) : Prop := {
  eo_locked : locked x = false;
  eo_signaled : signaled (value x) = sig;
  eo_async : async_waiter (value x) = aw;
  eo_queue : queue_ok (ev_waiters (value x)) l;
}.

(** What [wait] finds out under the lock: [Some false] consumes the signal,
    [Some true] queues the task, [None] when the queue is full. *)
Definition event_verdict (sig : bool) (l : list nat) : option bool :=
  if sig then Some false else if length l <? N then Some true else None.

Lemma event_wait_k (k : kernel) (x : Event) (sig : bool) (aw : option nat) (l : list nat) (cur : nat) : cur ≠ idle →
  kernel_at idle l k 0 true cur (Some cur) (Some cur) → event_ok x sig aw l →
  let r := event_verdict sig l in
  ∃ k' x', event_wait N k x = Done (bool_decide (r ≠ None), k', x') ∧ waited l cur r k'
    ∧ event_ok x' false aw (if bool_decide (r = Some true) then l ++ [cur] else l).
Proof.
  intros Hne Hk [Hx <- <- Hq] r. pose proof (current_not_waiting _ _ _ _ _ Hk) as Hn.
  destruct (wait_with_k (event_try N) ev_waiters set_ev_waiters k x l cur r
    (λ i, event_ok (mk_mutex false i) false (async_waiter (value x)) (if bool_decide (r = Some true) then l ++ [cur] else l)) Hne Hk Hx)
    as (k'&i&Heq&Hi&Hw); [|by exists k', (mk_mutex false i)].
  intros k1 Hk1. unfold event_try. unfold r, event_verdict. destruct (signaled (value x)) eqn:Hsig.
  - eexists _, _. split; [done|]. split; [done|]. by split.
  - destruct (enqueue_current_k k1 (ev_waiters (value x)) l 2 false cur _ _ Hk1 ltac:(done) Hq Hn) as (k2&q'&He&Hk2&Hq').
    rewrite He. cbn [mbind exec_bind]. eexists k2, _. split; [by destruct (length l <? N)|]. split; [done|].
    split; cbn; try done. destruct (length l <? N); case_bool_decide; done.
Qed.

(** A signal: the oldest waiter, else the asynchronous one, else the flag. *)
Lemma event_signal_k {F} (k : kernel) (x : Event) (ex : mutex (Executor F)) (sig : bool) (aw : option nat) (l : list nat)
    (n : nat) (irq : bool) (cur : nat) (nxt run : ptr) :
  kernel_at idle l k n irq cur nxt run → irq_ok n irq → event_ok x sig aw l → locked ex = false →
  ∃ k' ex' x', event_signal k ex x = Done (bool_decide (l ≠ [] ∨ aw ≠ None), k', ex', x')
    ∧ kernel_at idle (tail l) k' n irq cur nxt run ∧ locked ex' = false
    ∧ match l with
      | t :: l' => event_ok x' sig aw l' ∧ ex' = ex ∧ ∃ tcb, tcbs k' !! t = Some tcb ∧ state tcb = Ready
      | [] => event_ok x' true None [] ∧ value ex' = match aw with Some t => wake_task (value ex) t | None => value ex end
      end.
Proof.
  intros Hk Hi [Hx Hs Ha Hq] Hex.
  destruct (with_lock_spec (B := l) (λ a B' h i, B' = tail l ∧ a.1 = bool_decide (l ≠ [] ∨ aw ≠ None) ∧ locked a.2 = false
      ∧ match l with
        | t :: l' => event_ok (mk_mutex false i) sig aw l' ∧ a.2 = ex ∧ ∃ tcb, h !! t = Some tcb ∧ state tcb = Ready
        | [] => event_ok (mk_mutex false i) true None [] ∧ value a.2 = match aw with Some t => wake_task (value ex) t | None => value ex end
        end)
    k n irq cur nxt run x (λ k i,
    '(b, k, q) ← wake_one k (ev_waiters i);
    if b : bool then Done ((true, ex), k, set_ev_waiters i q) else
    match async_waiter i with
    | Some task =>
        '(_, k, ex) ← with_lock k ex (λ k e, Done (tt, k, wake_task e task));
        Done ((true, ex), k, mk_event true q None)
    | None => Done ((false, ex), k, mk_event true q None)
    end) Hk Hi Hx) as (a&k1&i&B'&Heq&Hat&->&Ha1&Ha2&Hl).
  - intros k1 Hk1 _. destruct (wake_one_k k1 (ev_waiters (value x)) l n _ cur nxt run Hk1 Hq) as (k2&q'&Hw&Hk2&Hq'&Hrd).
    rewrite Hw. cbn [mbind exec_bind]. destruct l as [|t l]; cbn [tail head] in *.
    + rewrite bool_decide_false by (by intros []). rewrite Ha. destruct aw as [t|].
      * destruct (with_lock_spec (B := []) (λ _ B' h e, B' = [] ∧ e = wake_task (value ex) t) k2 (S n) _ cur nxt run ex
          (λ k e, Done (tt, k, wake_task e t)) Hk2 ltac:(done) Hex) as (u&k3&e&B'&Heq&Hk3&->&->).
        { intros k3 Hk3 _. by eexists tt, k3, _, []. }
        rewrite Heq. eexists _, k3, _, []. split; [done|]. split; [done|]. split_and!; [done| |done|by split|done].
        symmetry. apply bool_decide_eq_true. by right.
      * eexists _, k2, _, []. split; [done|]. split; [done|]. split_and!; [done| |done|by split|done].
        symmetry. apply bool_decide_eq_false. by intros [].
    + rewrite bool_decide_true by done. eexists _, k2, _, l. split; [done|]. split; [done|].
      split_and!; [done| |done|by split|done|by apply Hrd]. symmetry. apply bool_decide_eq_true. by left.
  - exists k1, a.2, (mk_mutex false i). unfold event_signal. rewrite Heq. cbn [mbind exec_bind]. by rewrite Ha1.
Qed.

(** ** Semaphores *)

Record sem_ok (x : Semaphore) (p : Z) (l : list nat) : Prop := {
  so_locked : locked x = false;
  so_permits : permits (value x) = p;
  so_queue : queue_ok (sem_waiters (value x)) l;
}.

Lemma try_acquire_k {B : list nat} (k : kernel) (x : Semaphore) (p : Z) (l : list nat) (n : nat) (irq : bool) (cur : nat) (nxt run : ptr) :
  kernel_at idle B k n irq cur nxt run → irq_ok n irq → sem_ok x p l →
  ∃ k' x', try_acquire k x = Done ((0 <? p)%Z, k', x') ∧ kernel_at idle B k' n irq cur nxt run
    ∧ sem_ok x' (if (0 <? p)%Z then p - 1 else p)%Z l.
Proof.
  intros Hk Hi [Hx <- Hq].
  destruct (with_lock_spec (λ b B' h i, B' = B ∧ b = (0 <? permits (value x))%Z
     ∧ sem_ok (mk_mutex false i) (if (0 <? permits (value x))%Z then permits (value x) - 1 else permits (value x))%Z l)
     k n irq cur nxt run x (λ k i, if (0 <? permits i)%Z then Done (true, k, mk_sem (permits i - 1) (sem_waiters i)) else Done (false, k, i))
     Hk Hi Hx) as (b&k'&i&B'&Heq&Hat&->&->&Hi').
  - intros k1 Hk1 _. destruct (0 <? permits (value x))%Z; (eexists _, k1, _, B; split; [done|]; split_and!; [done..|by split]).
  - by exists k', (mk_mutex false i).
Qed.

Definition sem_verdict (p : Z) (l : list nat) : option bool :=
  if (0 <? p)%Z then Some false else if length l <? N then Some true else None.

Lemma sem_wait_k (k : kernel) (x : Semaphore) (p : Z) (l : list nat) (cur : nat) : cur ≠ idle →
  kernel_at idle l k 0 true cur (Some cur) (Some cur) → sem_ok x p l →
  let r := sem_verdict p l in
  ∃ k' x', sem_wait N k x = Done (bool_decide (r ≠ None), k', x') ∧ waited l cur r k'
    ∧ sem_ok x' (if (0 <? p)%Z then p - 1 else p)%Z (if bool_decide (r = Some true) then l ++ [cur] else l).
Proof.
  intros Hne Hk [Hx <- Hq] r. pose proof (current_not_waiting _ _ _ _ _ Hk) as Hn.
  destruct (wait_with_k (sem_try N) sem_waiters set_sem_waiters k x l cur r
    (λ i, sem_ok (mk_mutex false i) (if (0 <? permits (value x))%Z then permits (value x) - 1 else permits (value x))%Z
            (if bool_decide (r = Some true) then l ++ [cur] else l)) Hne Hk Hx)
    as (k'&i&Heq&Hi&Hw); [|by exists k', (mk_mutex false i)].
  intros k1 Hk1. unfold sem_try. unfold r, sem_verdict. destruct (0 <? permits (value x))%Z.
  - eexists _, _. split; [done|]. split; [done|]. by split.
  - destruct (enqueue_current_k k1 (sem_waiters (value x)) l 2 false cur _ _ Hk1 ltac:(done) Hq Hn) as (k2&q'&He&Hk2&Hq').
    rewrite He. cbn [mbind exec_bind]. eexists k2, _. split; [by destruct (length l <? N)|]. split; [done|].
    split; cbn; try done. destruct (length l <? N); case_bool_decide; done.
Qed.

(** One hand-over of [release_many]. *)
Lemma release_one_k (k : kernel) (x : Semaphore) (p : Z) (l : list nat) (n : nat) (irq : bool) (cur : nat) (nxt run : ptr) :
  kernel_at idle l k n irq cur nxt run → irq_ok n irq → sem_ok x p l →
  ∃ k' x', with_lock k x (λ k i, '(b, k, q) ← wake_one k (sem_waiters i); Done (b, k, set_sem_waiters i q))
      = Done (bool_decide (l ≠ []), k', x')
    ∧ kernel_at idle (tail l) k' n irq cur nxt run ∧ sem_ok x' p (tail l).
Proof.
  intros Hk Hi [Hx <- Hq].
  destruct (with_lock_spec (B := l) (λ b B' h i, B' = tail l ∧ b = bool_decide (l ≠ []) ∧ sem_ok (mk_mutex false i) (permits (value x)) (tail l))
     k n irq cur nxt run x (λ k i, '(b, k, q) ← wake_one k (sem_waiters i); Done (b, k, set_sem_waiters i q)) Hk Hi Hx)
     as (b&k'&i&B'&Heq&Hat&->&->&Hi').
  - intros k1 Hk1 _. destruct (wake_one_k k1 (sem_waiters (value x)) l n _ cur nxt run Hk1 Hq) as (k2&q'&Hw&Hk2&Hq'&_).
    rewrite Hw. cbn [mbind exec_bind]. eexists _, k2, _, (tail l). split; [done|]. split_and!; [done..|by split].
  - by exists k', (mk_mutex false i).
Qed.

Lemma release_loop_k (todo : nat) : ∀ (k : kernel) (x : Semaphore) (p : Z) (l : list nat) (count woke n : nat) (irq : bool) (cur : nat) (nxt run : ptr),
  kernel_at idle l k n irq cur nxt run → irq_ok n irq → sem_ok x p l → woke + todo = count →
  ∃ k' x', release_loop k x count woke todo = Done (woke + todo `min` length l, k', x')
    ∧ kernel_at idle (drop todo l) k' n irq cur nxt run
    ∧ sem_ok x' (if (todo <=? length l)%nat then p else Z.min (p + Z.of_nat (todo - length l)) USIZE_MAX)%Z (drop todo l).
Proof.
  induction todo as [|todo IH]; intros k x p l count woke n irq cur nxt run Hk Hi Hs Hc.
  { exists k, x. cbn. by rewrite Nat.add_0_r. }
  cbn [release_loop]. destruct (release_one_k k x p l n irq cur nxt run Hk Hi Hs) as (k1&x1&Heq&Hk1&Hs1).
  rewrite Heq. cbn [mbind exec_bind]. destruct l as [|t l]; cbn [tail] in *.
  - rewrite bool_decide_false by (by intros []). destruct Hs1 as [Hx1 <- Hq1].
    destruct (with_lock_spec (B := []) (λ a B' h i, B' = [] ∧ a = woke
        ∧ sem_ok (mk_mutex false i) (Z.min (permits (value x1) + Z.of_nat (count - woke)) USIZE_MAX) [])
      k1 n irq cur nxt run x1 (λ k i,
        Done (woke, k, mk_sem (Z.min (permits i + Z.of_nat (count - woke)) USIZE_MAX) (sem_waiters i))) Hk1 Hi Hx1)
      as (a&k2&i&B'&Heq2&Hat2&->&->&Hi2).
    { intros k2 Hk2 _. eexists _, k2, _, []. split; [done|]. split_and!; [done..|by split]. }
    rewrite Heq2. exists k2, (mk_mutex false i). cbn [length Nat.min drop]. rewrite Nat.add_0_r, Nat.sub_0_r.
    replace (S todo) with (count - woke) by lia. by destruct (count - woke) eqn:E; [lia|].
  - rewrite bool_decide_true by done.
    destruct (IH k1 x1 p l count (S woke) n irq cur nxt run Hk1 Hi Hs1 ltac:(lia)) as (k2&x2&Heq2&Hk2&Hs2).
    rewrite Heq2. exists k2, x2. cbn [length drop]. split; [do 3 f_equal; lia|done].
Qed.

Lemma release_many_k (k : kernel) (x : Semaphore) (p : Z) (l : list nat) (count n : nat) (irq : bool) (cur : nat) (nxt run : ptr) :
  kernel_at idle l k n irq cur nxt run → irq_ok n irq → sem_ok x p l →
  ∃ k' x', release_many k x count = Done (count `min` length l, k', x')
    ∧ kernel_at idle (drop count l) k' n irq cur nxt run
    ∧ sem_ok x' (if (count <=? length l)%nat then p else Z.min (p + Z.of_nat (count - length l)) USIZE_MAX)%Z (drop count l).
Proof.
  intros Hk Hi Hs. unfold release_many. destruct count as [|count]; [by exists k, x|].
  cbn [Nat.eqb]. apply (release_loop_k (S count) k x p l (S count) 0); done.
Qed.
End prims.
End single.
