(* ===== verification/WaitProps.v ===== *)
(** * Properties of the blocking primitives

    Histories of an event and of a semaphore used by the tasks of the running
    kernel, next to every other operation of the kernel that does not wake
    their waiters behind their back. *)

From S2P Require Export Prelude.
From S2P Require Export SchedProps.
From S2P Require Export Wait.

(** The tasks an array of waiters holds. *)
Definition queued_in (q : WaitQueue) (x : nat) : Prop := Some x ∈ wq_tasks (value q).

Lemma queue_ok_in (N : nat) (q : WaitQueue) (l : list nat) (x : nat) : queue_ok N q l → queued_in q x ↔ x ∈ l.
Proof.
  intros [_ Hr]. unfold queued_in. rewrite (wr_tasks _ _ _ Hr), elem_of_app, list_elem_of_fmap. split.
  - intros [(y&[= <-]&?)|[? Hx]%list_elem_of_lookup]; [done|]; apply lookup_replicate in Hx as [Hx _]; discriminate Hx.
  - intros Hx. left. by exists x.
Qed.

Section hist.
Context `{!SmpConfig} (base step : Z) (N : nat).

(** What any other operation of the kernel may do next to a queue. *)
Definition beside (k : kernel) (q : WaitQueue) (op : kop) : Prop :=
  kop_allowed 0 k op ∧ ∀ x, x ∈ kop_wakes op → ¬ queued_in q x.

Definition not_idle (k : kernel) : Prop := CURRENT_TCB (mach k) ≠ Some 0.

(** ** Events *)

Inductive event_reach {F} : kernel → mutex (Executor F) → Event → Prop :=
  | er_boot k : kernel_reach base step k → event_reach k (mutex_new executor_new) (event_new N)
  | er_wait k ex x b k' x' : event_reach k ex x → not_idle k →
      event_wait N k x = Done (b, k', x') → event_reach k' ex x'
  | er_signal k ex x b k' ex' x' : event_reach k ex x →
      event_signal k ex x = Done (b, k', ex', x') → event_reach k' ex' x'
  | er_clear k ex x u k' x' : event_reach k ex x → event_clear k x = Done (u, k', x') → event_reach k' ex x'
  | er_poll k ex x c w r k' x' : event_reach k ex x → event_poll k c x w = Done (r, k', x') → event_reach k' ex x'
  | er_kernel k ex x op k' : event_reach k ex x → beside k (ev_waiters (value x)) op →
      run_kop base step k op = Done k' → event_reach k' ex x.

Definition event_state {F} (k : kernel) (ex : mutex (Executor F)) (x : Event) : Prop :=
  ∃ sig aw l, task_context 0 l k ∧ locked ex = false ∧ event_ok N x sig aw l ∧ (sig = true → l = []).

Lemma context_current (l : list nat) (k : kernel) : task_context 0 l k →
  ∃ cur, CURRENT_TCB (mach k) = Some cur ∧ kernel_at 0 l k 0 true cur (Some cur) (Some cur).
Proof. intros [cur Hk]. exists cur. pose proof Hk as (s&qss&sl&fl&[]&_). done. Qed.

Lemma waited_context (l : list nat) (cur : nat) (r : option bool) (k : kernel) : waited 0 l cur r k →
  task_context 0 (if bool_decide (r = Some true) then l ++ [cur] else l) k.
Proof. unfold waited. case_bool_decide; [done|]. intros Hk. by exists cur. Qed.

Hypothesis one_cpu : max_cpus = 1.

Lemma event_wait_state {F} (k : kernel) (ex : mutex (Executor F)) (x : Event) : event_state k ex x → not_idle k →
  ∃ b k' x', event_wait N k x = Done (b, k', x') ∧ event_state k' ex x'.
Proof.
  intros (sig&aw&l&Hc&Hex&Hx&Hsl) Hni. destruct (context_current l k Hc) as (cur&Hcu&Hk).
  assert (Hne : cur ≠ 0) by (unfold not_idle in Hni; congruence).
  destruct (event_wait_k 0 one_cpu N k x sig aw l cur Hne Hk Hx) as (k'&x'&Heq&Hw&Hx').
  eexists _, k', x'. split; [done|]. eexists false, aw, _. split_and!; [by apply waited_context|done|done|done].
Qed.

Lemma event_signal_state {F} (k : kernel) (ex : mutex (Executor F)) (x : Event) : event_state k ex x →
  ∃ b k' ex' x', event_signal k ex x = Done (b, k', ex', x') ∧ event_state k' ex' x'.
Proof.
  intros (sig&aw&l&Hc&Hex&Hx&Hsl). destruct (context_current l k Hc) as (cur&Hcu&Hk).
  destruct (event_signal_k 0 N k x ex sig aw l 0 true cur _ _ Hk ltac:(done) Hx Hex) as (k'&ex'&x'&Heq&Hat&Hex'&Hl).
  eexists _, k', ex', x'. split; [done|]. destruct l as [|t l].
  - exists true, None, []. split_and!; [by exists cur|done|apply Hl|done].
  - exists sig, aw, l. split_and!; [by exists cur|done|apply Hl|]. intros Hs. by specialize (Hsl Hs).
Qed.

Lemma event_clear_state {F} (k : kernel) (ex : mutex (Executor F)) (x : Event) : event_state k ex x →
  ∃ k' x', event_clear k x = Done (tt, k', x') ∧ event_state k' ex x'.
Proof.
  intros (sig&aw&l&[cur Hk]&Hex&[Hx Hs Ha Hq]&Hsl).
  destruct (with_lock_spec 0 (B := l) (λ a B' h i, B' = l ∧ event_ok N (mk_mutex false i) false aw l)
    k 0 true cur _ _ x (λ k i, Done (tt, k, mk_event false (ev_waiters i) (async_waiter i))) Hk ltac:(done) Hx)
    as ([]&k'&i&B'&Heq&Hat&->&Hi').
  - intros k1 Hk1 _. eexists tt, k1, _, l. split; [done|]. split_and!; [done..|by split].
  - exists k', (mk_mutex false i). split; [done|]. exists false, aw, l. split_and!; [by exists cur|done..].
Qed.

Lemma event_poll_state {F} (k : kernel) (ex : mutex (Executor F)) (x : Event) (c w : option nat) : event_state k ex x →
  ∃ r k' x', event_poll k c x w = Done (r, k', x') ∧ event_state k' ex x'.
Proof.
  intros Hst. destruct c as [c|]; [|by exists (false, w), k, x].
  destruct Hst as (sig&aw&l&[cur Hk]&Hex&[Hx Hs Ha Hq]&Hsl).
  unfold event_poll. set (f := λ (k : kernel) (i : EventInner), if signaled i then _ else _).
  destruct (with_lock_spec 0 (B := l) (λ a B' h i, B' = l ∧ ∃ sig' aw', event_ok N (mk_mutex false i) sig' aw' l ∧ (sig' = true → l = []))
    (k_disable_irq k) 1 false cur _ _ x f (kernel_at_disable _ _ _ _ _ _ _ Hk) ltac:(done) Hx)
    as (a&k'&i&B'&Heq&Hat&->&sig'&aw'&Hi'&Hsl').
  - intros k1 Hk1 _. unfold f. destruct (signaled (value x)) eqn:Hsig.
    + eexists _, k1, _, l. split; [done|]. split_and!; [done..|]. eexists false, _. by split; [split|].
    + case_bool_decide.
      * eexists _, k1, _, l. split; [done|]. split_and!; [done..|]. eexists false, _. by split; [split|].
      * eexists _, k1, _, l. split; [done|]. split_and!; [done..|]. exists false, aw. split; [split; try done; congruence|done].
  - rewrite Heq. cbn [mbind exec_bind]. apply kernel_at_enable in Hat.
    destruct a.1; (eexists _, _, _; split; [reflexivity|]; exists sig', aw', l; split_and!; [by exists cur|done..]).
Qed.

Lemma event_kernel_state {F} (k : kernel) (ex : mutex (Executor F)) (x : Event) (op : kop) : event_state k ex x →
  beside k (ev_waiters (value x)) op → ∃ k', run_kop base step k op = Done k' ∧ event_state k' ex x.
Proof.
  intros (sig&aw&l&Hc&Hex&Hx&Hsl) [Hop Hw].
  destruct (run_kop_ok 0 one_cpu base step k op Hc Hop) as (k'&Heq&Hc').
  { intros y Hy Hin. eapply Hw; [done|]. by eapply queue_ok_in; [apply Hx|]. }
  exists k'. split; [done|]. by exists sig, aw, l.
Qed.

Lemma event_reach_state {F} (k : kernel) (ex : mutex (Executor F)) (x : Event) : event_reach k ex x → event_state k ex x.
Proof.
  induction 1 as [k Hk|k ex x b k' x' _ IH Hni Heq|k ex x b k' ex' x' _ IH Heq|k ex x u k' x' _ IH Heq
    |k ex x c w r k' x' _ IH Heq|k ex x op k' _ IH Hb Heq].
  - exists false, None, []. split_and!; [by eapply reach_context|done| |done].
    split; try done. split; [done|]. apply wqi_new_rep.
  - destruct (event_wait_state k ex x IH Hni) as (b2&k2&x2&Heq2&?). congruence.
  - destruct (event_signal_state k ex x IH) as (b2&k2&ex2&x2&Heq2&?). congruence.
  - destruct (event_clear_state k ex x IH) as (k2&x2&Heq2&?). congruence.
  - destruct (event_poll_state k ex x c w IH) as (r2&k2&x2&Heq2&?). congruence.
  - destruct (event_kernel_state k ex x op IH Hb) as (k2&Heq2&?). congruence.
Qed.

(** ** Semaphores *)

(** The permits released so far and the acquisitions that succeeded: a [wait]
    that queued its task counts, so the waiting ones are yet to be served. *)
Inductive sem_reach (init : Z) : kernel → Semaphore → Z → Z → Prop :=
  | sr_boot k : kernel_reach base step k → (0 <= init)%Z → sem_reach init k (semaphore_new N init) 0 0
  | sr_try k x rel acq b k' x' : sem_reach init k x rel acq →
      try_acquire k x = Done (b, k', x') → sem_reach init k' x' rel (acq + (if b : bool then 1 else 0))
  | sr_wait k x rel acq b k' x' : sem_reach init k x rel acq → not_idle k →
      sem_wait N k x = Done (b, k', x') → sem_reach init k' x' rel (acq + (if b : bool then 1 else 0))
  | sr_release k x rel acq count w k' x' : sem_reach init k x rel acq →
      release_many k x count = Done (w, k', x') → sem_reach init k' x' (rel + Z.of_nat count) acq
  | sr_kernel k x rel acq op k' : sem_reach init k x rel acq → beside k (sem_waiters (value x)) op →
      run_kop base step k op = Done k' → sem_reach init k' x rel acq.

Definition sem_state (init : Z) (k : kernel) (x : Semaphore) (rel acq : Z) : Prop :=
  ∃ p l, task_context 0 l k ∧ sem_ok N x p l ∧ (0 <= p <= init + rel)%Z ∧ (p = 0%Z ∨ l = [])
    ∧ (init + rel + Z.of_nat (length l) = acq + p)%Z.

Lemma sem_try_state (init : Z) (k : kernel) (x : Semaphore) (rel acq : Z) : sem_state init k x rel acq →
  ∃ b k' x', try_acquire k x = Done (b, k', x') ∧ sem_state init k' x' rel (acq + (if b : bool then 1 else 0)).
Proof.
  intros (p&l&[cur Hk]&Hx&Hp&Hpl&Hsum).
  destruct (try_acquire_k 0 N k x p l 0 true cur _ _ Hk ltac:(done) Hx) as (k'&x'&Heq&Hat&Hx').
  eexists _, k', x'. split; [done|]. eexists _, l. split; [by exists cur|]. split; [done|].
  destruct (Z.ltb_spec 0 p); (split_and!; [lia..| |lia]); destruct Hpl; [lia|by right|by left|by right].
Qed.

Lemma sem_wait_state (init : Z) (k : kernel) (x : Semaphore) (rel acq : Z) : sem_state init k x rel acq → not_idle k →
  ∃ b k' x', sem_wait N k x = Done (b, k', x') ∧ sem_state init k' x' rel (acq + (if b : bool then 1 else 0)).
Proof.
  intros (p&l&Hc&Hx&Hp&Hpl&Hsum) Hni. destruct (context_current l k Hc) as (cur&Hcu&Hk).
  assert (Hne : cur ≠ 0) by (unfold not_idle in Hni; congruence).
  destruct (sem_wait_k 0 one_cpu N k x p l cur Hne Hk Hx) as (k'&x'&Heq&Hw&Hx').
  eexists _, k', x'. split; [done|]. apply waited_context in Hw. eexists _, _. split; [done|]. split; [done|].
  unfold sem_verdict in *. destruct (Z.ltb_spec 0 p).
  - rewrite (bool_decide_true (Some false ≠ None)), (bool_decide_false (Some false = Some true)) by done.
    destruct Hpl as [->|Hpl]; [lia|]. split_and!; [lia..|by right|lia].
  - assert (p = 0%Z) as -> by lia. destruct (length l <? N).
    + rewrite !bool_decide_true by done. rewrite length_app. cbn. split_and!; [lia..|by left|lia].
    + rewrite (bool_decide_false (None ≠ None)), (bool_decide_false (None = Some true)) by auto.
      split_and!; [lia..|by left|lia].
Qed.

Lemma sem_release_state (init : Z) (k : kernel) (x : Semaphore) (rel acq : Z) (count : nat) : sem_state init k x rel acq →
  (init + rel + Z.of_nat count <= USIZE_MAX)%Z →
  ∃ w k' x', release_many k x count = Done (w, k', x') ∧ sem_state init k' x' (rel + Z.of_nat count) acq.
Proof.
  intros (p&l&[cur Hk]&Hx&Hp&Hpl&Hsum) Hmax.
  destruct (release_many_k 0 one_cpu N k x p l count 0 true cur _ _ Hk ltac:(done) Hx) as (k'&x'&Heq&Hat&Hx').
  eexists _, k', x'. split; [done|]. eexists _, _. split; [by exists cur|]. split; [done|]. rewrite length_drop.
  destruct (Nat.leb_spec count (length l)) as [Hle|Hlt].
  - destruct Hpl as [->| ->]; [split_and!; [lia..|by left|lia]|]. cbn in Hle, Hsum |- *. assert (count = 0) as -> by lia.
    split_and!; [lia..|by right|lia].
  - rewrite drop_ge by lia. rewrite Z.min_l by lia. split_and!; [lia..|by right|lia].
Qed.

Lemma sem_kernel_state (init : Z) (k : kernel) (x : Semaphore) (rel acq : Z) (op : kop) : sem_state init k x rel acq →
  beside k (sem_waiters (value x)) op → ∃ k', run_kop base step k op = Done k' ∧ sem_state init k' x rel acq.
Proof.
  intros (p&l&Hc&Hx&Hrest) [Hop Hw].
  destruct (run_kop_ok 0 one_cpu base step k op Hc Hop) as (k'&Heq&Hc').
  { intros y Hy Hin. eapply Hw; [done|]. by eapply queue_ok_in; [apply Hx|]. }
  exists k'. split; [done|]. by exists p, l.
Qed.

Lemma sem_reach_state (init : Z) (k : kernel) (x : Semaphore) (rel acq : Z) : sem_reach init k x rel acq →
  (init + rel <= USIZE_MAX)%Z → sem_state init k x rel acq.
Proof.
  induction 1 as [k Hk Hi|k x rel acq b k' x' _ IH Heq|k x rel acq b k' x' _ IH Hni Heq|k x rel acq count w k' x' _ IH Heq
    |k x rel acq op k' _ IH Hb Heq]; intros Hmax.
  - exists init, []. split_and!; [by eapply reach_context| |lia|lia|by right|cbn; lia].
    split; [done|done|]. split; [done|]. apply wqi_new_rep.
  - destruct (sem_try_state init k x rel acq (IH Hmax)) as (b2&k2&x2&Heq2&?). rewrite Heq in Heq2. by injection Heq2 as <- <- <-.
  - destruct (sem_wait_state init k x rel acq (IH Hmax) Hni) as (b2&k2&x2&Heq2&?). rewrite Heq in Heq2. by injection Heq2 as <- <- <-.
  - destruct (sem_release_state init k x rel acq count) as (w2&k2&x2&Heq2&?); [apply IH; lia|lia|congruence].
  - destruct (sem_kernel_state init k x rel acq op (IH Hmax) Hb) as (k2&Heq2&?). congruence.
Qed.
End hist.

(** ** The theorems *)

(** C9. A semaphore neither loses nor invents a permit: in every history of
    tries, waits, releases and kernel operations, the initial and the released
    permits are those acquired and those available, a queued waiter counting
    as served in advance; permits are available only when nobody waits; and
    the next release hands its permits to the oldest waiters first. *)
Theorem semaphore_conserves_permits `{!SmpConfig} (base step : Z) (N : nat) (init : Z) (k : kernel) (x : Semaphore) (rel acq : Z) :
  max_cpus = 1 → sem_reach base step N init k x rel acq → (init + rel <= USIZE_MAX)%Z →
  ∃ l, wq_tasks (value (sem_waiters (value x))) = (Some <$> l) ++ replicate (N - length l) None
  ∧ (init + rel + Z.of_nat (length l) = acq + permits (value x))%Z
  ∧ (permits (value x) = 0%Z ∨ l = [])
  ∧ (∀ y, y ∈ l → is_blocked (tcbs k) y)
  ∧ ∀ count, (init + rel + Z.of_nat count <= USIZE_MAX)%Z →
      ∃ k' x', release_many k x count = Done (count `min` length l, k', x')
      ∧ wq_tasks (value (sem_waiters (value x'))) = (Some <$> drop count l) ++ replicate (N - length (drop count l)) None
      ∧ permits (value x') = (permits (value x) + Z.of_nat (count - length l))%Z.
Proof.
  intros Hone Hr Hmax. destruct (sem_reach_state base step N Hone init k x rel acq Hr Hmax) as (p&l&[cur Hk]&Hx&Hp&Hpl&Hsum).
  exists l. pose proof Hx as [_ Hpx [_ Hq]]. subst p. split_and!; [apply Hq|done|done| |].
  - intros y Hy. by eapply waiting_blocked.
  - intros count Hc. destruct (release_many_k 0 Hone N k x _ l count 0 true cur _ _ Hk ltac:(done) Hx) as (k'&x'&Heq&_&[_ Hpx' [_ Hq']]).
    exists k', x'. split_and!; [done|apply Hq'|]. rewrite Hpx'. destruct (Nat.leb_spec count (length l)).
    + replace (count - length l) with 0 by lia. lia.
    + apply Z.min_l. lia.
Qed.

(** C8. A signal is never lost: in every history of an event, the flag is up
    only while no task waits; a signal makes the longest-waiting task ready,
    and when none waits it raises the flag (and wakes the asynchronous waiter);
    a wait takes a raised flag at once, and otherwise queues the task, which
    blocks while another one runs. *)
Theorem event_signal_never_lost `{!SmpConfig} {F} (base step : Z) (N : nat) (k : kernel) (ex : mutex (Executor F)) (x : Event) :
  max_cpus = 1 → event_reach base step N k ex x →
  ∃ l, wq_tasks (value (ev_waiters (value x))) = (Some <$> l) ++ replicate (N - length l) None
  ∧ (∀ y, y ∈ l → is_blocked (tcbs k) y) ∧ (signaled (value x) = true → l = [])
  ∧ (∃ b k' ex' x', event_signal k ex x = Done (b, k', ex', x')
     ∧ match l with
       | [] => signaled (value x') = true
               ∧ value ex' = match async_waiter (value x) with Some t => wake_task (value ex) t | None => value ex end
       | y :: l => b = true ∧ signaled (value x') = false ∧ (∃ t, tcbs k' !! y = Some t ∧ state t = Ready)
                   ∧ wq_tasks (value (ev_waiters (value x'))) = (Some <$> l) ++ replicate (N - length l) None
       end)
  ∧ (not_idle k → ∃ b k' x', event_wait N k x = Done (b, k', x') ∧ signaled (value x') = false
     ∧ if signaled (value x) then b = true ∧ CURRENT_TCB (mach k') = CURRENT_TCB (mach k)
       else b = (length l <? N) ∧ (b = true → ∃ cur, CURRENT_TCB (mach k) = Some cur ∧ is_blocked (tcbs k') cur
              ∧ wq_tasks (value (ev_waiters (value x'))) = (Some <$> (l ++ [cur])) ++ replicate (N - length (l ++ [cur])) None)).
Proof.
  intros Hone Hr. destruct (event_reach_state base step N Hone k ex x Hr) as (sig&aw&l&Hc&Hex&Hx&Hsl).
  destruct (context_current l k Hc) as (cur&Hcu&Hk). exists l. pose proof Hx as [_ Hsx Hax [_ Hq]]. subst sig aw.
  split_and!; [apply Hq|intros y Hy; by eapply waiting_blocked|done| |].
  - destruct (event_signal_k 0 N k x ex _ _ l 0 true cur _ _ Hk ltac:(done) Hx Hex) as (k'&ex'&x'&Heq&_&_&Hl).
    eexists _, k', ex', x'. split; [done|]. destruct l as [|y l].
    + destruct Hl as [[_ Hs _ _] Hv]. done.
    + destruct Hl as ([_ Hs _ [_ Hq']]&_&Hrd). split_and!; [apply bool_decide_eq_true; by left| |done|apply Hq'].
      rewrite Hs. destruct (signaled (value x)); [by specialize (Hsl eq_refl)|done].
  - intros Hni. assert (Hne : cur ≠ 0) by (unfold not_idle in Hni; congruence).
    destruct (event_wait_k 0 Hone N k x _ _ l cur Hne Hk Hx) as (k'&x'&Heq&Hw&[_ Hs _ [_ Hq']]).
    eexists _, k', x'. split; [done|]. split; [done|]. unfold event_verdict, waited in *. destruct (signaled (value x)).
    + split; [by apply bool_decide_eq_true|]. rewrite bool_decide_false in Hw by done.
      destruct Hw as (s&qss&sl&fl&[]&_). congruence.
    + destruct (length l <? N); [|by split; [apply bool_decide_eq_false; auto|]].
      split; [by apply bool_decide_eq_true|]. intros _. exists cur. rewrite bool_decide_true in Hw, Hq' by done.
      split_and!; [done| |apply Hq']. destruct Hw as [c2 Hk2]. eapply waiting_blocked; [done|]. apply elem_of_app. right. by left.
Qed.

(** ** Witnesses: the root task of a booted kernel waits *)

Section witnesses.
#[local] Existing Instance single_cpu.

Lemma demo_one : max_cpus = 1.
Proof. reflexivity. Qed.

Lemma demo_root : ∃ k, demo_boot = Done k ∧ kernel_reach 4096 128 k ∧ not_idle k.
Proof.
  assert (Hi : stack_ok 65536 512) by (unfold stack_ok, REG_BYTES; lia).
  assert (Hr : stack_ok 131072 2048) by (unfold stack_ok, REG_BYTES; lia).
  destruct (boot_k 0 demo_one 4096 128 11 65536 512 22 131072 2048 eq_refl Hi Hr) as (k&E&_).
  exists k. split; [exact E|]. split; [exact (kr_boot 4096 128 _ _ _ _ _ _ k Hi Hr E)|].
  assert (Hc : (k ← demo_boot; Done (CURRENT_TCB (mach k))) = Done (Some 1)) by (vm_compute; reflexivity).
  unfold demo_boot in Hc. rewrite E in Hc. cbn [mbind exec_bind] in Hc. unfold not_idle. congruence.
Qed.

Lemma semaphore_conserves_permits_witness :
  ∃ k0 k x, demo_boot = Done k0 ∧ sem_wait 4 k0 (semaphore_new 4 1) = Done (true, k, x) ∧ permits (value x) = 0%Z.
Proof.
  destruct demo_root as (k0&E0&R0&Hni).
  pose proof (sr_boot 4096 128 4 1 k0 R0 ltac:(lia)) as S0.
  destruct (sem_wait_state 4 demo_one 1 k0 _ 0 0 (sem_reach_state 4096 128 4 demo_one 1 k0 _ 0 0 S0 ltac:(done)) Hni)
    as (b&k&x&Heq&_).
  pose proof (sr_wait _ _ _ _ _ _ _ _ b k x S0 Hni Heq) as S1.
  destruct (semaphore_conserves_permits 4096 128 4 1 k x 0 _ demo_one S1 ltac:(done)) as (l&_&Hsum&Hor&_).
  exists k0, k, x. split; [exact E0|]. destruct b.
  - split; [exact Heq|]. destruct Hor as [Hp|Hl]; [exact Hp|]. rewrite Hl in Hsum. cbn in Hsum. lia.
  - exfalso. pose proof (sem_reach_state 4096 128 4 demo_one 1 k0 _ 0 0 S0 ltac:(done)) as (p&l'&Hc&Hx&_).
    destruct (context_current l' k0 Hc) as (cur&Hcu&Hk). assert (Hne : cur ≠ 0) by (unfold not_idle in Hni; congruence).
    destruct (sem_wait_k 0 demo_one 4 k0 _ p l' cur Hne Hk Hx) as (k'&x'&Heq'&_).
    pose proof (so_permits _ _ _ _ Hx) as Hp. cbn in Hp. subst p. rewrite Heq in Heq'. discriminate Heq'.
Defined.

Lemma event_signal_never_lost_witness :
  ∃ k0, demo_boot = Done k0 ∧ ∃ k' ex' x' b, event_signal k0 (mutex_new (executor_new (F := unit))) (event_new 4) = Done (b, k', ex', x')
    ∧ signaled (value x') = true.
Proof.
  destruct demo_root as (k0&E0&R0&Hni). exists k0. split; [exact E0|].
  destruct (event_signal_never_lost 4096 128 4 k0 (mutex_new (executor_new (F := unit))) (event_new 4) demo_one
              (er_boot _ _ _ k0 R0)) as (l&Hl&_&_&(b&k'&ex'&x'&Heq&Hs)&_).
  exists k', ex', x', b. split; [exact Heq|]. destruct l as [|y l]; [apply Hs|]. discriminate Hl.
Defined.
End witnesses.
