(* ===== verification/Paging.v ===== *)
(** * Page tables

    What the Sv39, Sv32 and G-stage tables of [arch/src/riscv/] share: the
    bits of an entry, the memory of table pages, the walk from the root that
    allocates missing tables, and the theory of a tree of tables.  A format
    gives the number of levels and of entries, the mask of a page number and
    the width of [usize]. *)

From S2P Require Export Prelude.
From S2P Require Export Addr.

Inductive MmError : Type := OutOfMemory | AlreadyMapped | NotMapped | InvalidAlignment | InvalidRegion.

Definition PTE_V : Z := 1.
Definition PTE_R : Z := 2.
Definition PTE_W : Z := 4.
Definition PTE_X : Z := 8.
Definition PTE_A : Z := 64.
Definition PTE_D : Z := 128.

(** [MemPerms], a set of flags. *)
Definition PERM_READ : Z := 1.
Definition PERM_WRITE : Z := 2.
Definition PERM_EXECUTE : Z := 4.
Definition contains (perms flag : Z) : bool := (Z.land perms flag =? flag)%Z.

Definition perms_to_pte_bits (perms : Z) : Z :=
  let bits := Z.lor (Z.lor PTE_V PTE_A) PTE_D in
  let bits := if contains perms PERM_READ then Z.lor bits PTE_R else bits in
  let bits := if contains perms PERM_WRITE then Z.lor bits PTE_W else bits in
  if contains perms PERM_EXECUTE then Z.lor bits PTE_X else bits.

Definition pte_to_perms (pte : Z) : Z :=
  let perms := 0%Z in
  let perms := if (Z.land pte PTE_R =? 0)%Z then perms else Z.lor perms PERM_READ in
  let perms := if (Z.land pte PTE_W =? 0)%Z then perms else Z.lor perms PERM_WRITE in
  if (Z.land pte PTE_X =? 0)%Z then perms else Z.lor perms PERM_EXECUTE.

Definition is_valid (e : Z) : bool := negb (Z.land e PTE_V =? 0)%Z.
Definition is_leaf (e : Z) : bool := is_valid e && negb (Z.land e (Z.lor (Z.lor PTE_R PTE_W) PTE_X) =? 0)%Z.

(** The memory of table pages, by physical address: dereferencing an address
    that holds no table is undefined behaviour. *)
Abbreviation pmem := (gmap Z (list Z)).

Definition read_entry (m : pmem) (table : PhysAddr) (idx : nat) : exec Z :=
  es ← get_exec (m !! table); get_exec (es !! idx).
Definition set_entry (m : pmem) (table : PhysAddr) (idx : nat) (v : Z) : exec pmem :=
  es ← get_exec (m !! table); es ← put_exec es idx v; Done (<[table := es]> m).

(** A source of zeroed frames: what page tables need of an allocator.  [ps_inv a X]
    says that the frames [X] are in use; a frame returned is a new one, page
    aligned, whose number fits the page number field. *)
Class PageSource (A : Type) := ps_alloc : A → exec (option PhysAddr * A).

Definition frame_ok (mask usize_bits p : Z) : Prop :=
  Z.shiftl (Z.land (Z.shiftr p PAGE_SHIFT) mask) PAGE_SHIFT = p ∧ in_width usize_bits p.

Class PageSourceLaws (A : Type) `{!PageSource A} (mask usize_bits : Z) := {
  ps_inv : A → gset Z → Prop;
  ps_alloc_ok : ∀ a X, ps_inv a X → ∃ r a', ps_alloc a = Done (r, a') ∧
    match r with
    | None => ps_inv a' X
    | Some p => ps_inv a' ({[p]} ∪ X) ∧ (p ∉ X) ∧ frame_ok mask usize_bits p
    end;
}.

(** The source has run out: from then on it gives no frame. *)
Class PageSourceSpent (A : Type) `{!PageSource A} := {
  ps_spent : A → Prop;
  ps_spent_step : ∀ a r a', ps_alloc a = Done (r, a') → ps_spent a ∨ r = None → ps_spent a';
}.

Section format.
Context (ENTRIES : nat) (PPN_MASK : Z) (usize_bits : Z).

Definition ppn (e : Z) : Z := Z.land (Z.shiftr e 10) PPN_MASK.
Definition child (e : Z) : PhysAddr := wrap usize_bits (Z.shiftl (ppn e) PAGE_SHIFT).
(** [bits | ((pa >> PAGE_SHIFT) & PPN_MASK) << 10]. *)
Definition pte (bits : Z) (pa : PhysAddr) : Z :=
  Z.lor bits (Z.shiftl (Z.land (Z.shiftr pa PAGE_SHIFT) PPN_MASK) 10).

Definition zero_table : list Z := replicate ENTRIES 0%Z.

(** From [table] down through the given indices, allocating missing tables. *)
Fixpoint map_walk `{!PageSource A} (m : pmem) (a : A) (table : PhysAddr) (idxs : list nat)
    : exec ((MmError + PhysAddr) * pmem * A) :=
  match idxs with
  | [] => Done (inr table, m, a)
  | idx :: idxs =>
      e ← read_entry m table idx;
      if negb (is_valid e) then
        '(r, a) ← ps_alloc a;
        match r with
        | None => Done (inl OutOfMemory, m, a)
        | Some new_page =>
            let m := <[new_page := zero_table]> m in
            m ← set_entry m table idx (pte PTE_V new_page);
            map_walk m a new_page idxs
        end
      else if is_leaf e then Done (inl AlreadyMapped, m, a)
      else map_walk m a (child e) idxs
  end.

(** The last step: a leaf entry in the table found. *)
Definition map_leaf (m : pmem) (table : PhysAddr) (idx : nat) (bits : Z) (paddr : PhysAddr)
    : exec ((MmError + unit) * pmem) :=
  e ← read_entry m table idx;
  if is_valid e then Done (inl AlreadyMapped, m) else
  m ← set_entry m table idx (pte bits paddr); Done (inr (), m).

Definition map_at `{!PageSource A} (m : pmem) (a : A) (root : PhysAddr) (upper : list nat) (last : nat)
    (bits : Z) (paddr : PhysAddr) : exec ((MmError + unit) * pmem * A) :=
  '(r, m, a) ← map_walk m a root upper;
  match r with
  | inl err => Done (inl err, m, a)
  | inr table => '(r, m) ← map_leaf m table last bits paddr; Done (r, m, a)
  end.

(** Down to the last table, for [unmap_page]; [check] says whether a leaf on
    the way is an error or is followed like a table. *)
Fixpoint unmap_walk (check : bool) (m : pmem) (table : PhysAddr) (idxs : list nat) : exec (MmError + PhysAddr) :=
  match idxs with
  | [] => Done (inr table)
  | idx :: idxs =>
      e ← read_entry m table idx;
      if negb (is_valid e) then Done (inl NotMapped) else
      if check && is_leaf e then Done (inl InvalidRegion) else
      unmap_walk check m (child e) idxs
  end.

Definition unmap_at (check : bool) (m : pmem) (root : PhysAddr) (upper : list nat) (last : nat)
    : exec ((MmError + PhysAddr) * pmem) :=
  r ← unmap_walk check m root upper;
  match r with
  | inl err => Done (inl err, m)
  | inr table =>
      e ← read_entry m table last;
      if negb (is_valid e) then Done (inl NotMapped, m) else
      m ← set_entry m table last 0;
      Done (inr (child e), m)
  end.

(** The walk of [translate]; [on_leaf] is what a leaf at a level above the
    last translates to, [on_page] an entry of the last table. *)
Fixpoint translate_walk (on_leaf : nat → Z → option PhysAddr) (m : pmem) (table : PhysAddr) (idxs : list nat)
    : exec (option PhysAddr + PhysAddr) :=
  match idxs with
  | [] => Done (inr table)
  | idx :: idxs =>
      e ← read_entry m table idx;
      if negb (is_valid e) then Done (inl None) else
      if is_leaf e then Done (inl (on_leaf (S (length idxs)) e)) else
      translate_walk on_leaf m (child e) idxs
  end.

Definition translate_at (on_leaf : nat → Z → option PhysAddr) (on_page : Z → PhysAddr) (m : pmem) (root : PhysAddr)
    (upper : list nat) (last : nat) : exec (option PhysAddr) :=
  r ← translate_walk on_leaf m root upper;
  match r with
  | inl res => Done res
  | inr table =>
      e ← read_entry m table last;
      if negb (is_valid e) then Done None else Done (Some (on_page e))
  end.

(** ** The tree *)

Context (L : nat).

(** The entry a full index list leads to, with its level; [entry_lookup] goes
    on from an entry. *)
Fixpoint pt_lookup (m : pmem) (table : PhysAddr) (vs : list nat) : option (nat * Z) :=
  match vs with
  | [] => None
  | i :: rest =>
      match m !! table ≫= λ es : list Z, es !! i with
      | None => None
      | Some e =>
          if negb (is_valid e) then None else
          match rest with
          | [] => Some (0, e)
          | _ => if is_leaf e then Some (length rest, e) else pt_lookup m (child e) rest
          end
      end
  end.
Definition entry_lookup (m : pmem) (e : Z) (rest : list nat) : option (nat * Z) :=
  if negb (is_valid e) then None else
  match rest with
  | [] => Some (0, e)
  | _ => if is_leaf e then Some (length rest, e) else pt_lookup m (child e) rest
  end.

(** The table an index list leads to through pointers only. *)
Fixpoint pt_walk (m : pmem) (table : PhysAddr) (vs : list nat) : option PhysAddr :=
  match vs with
  | [] => Some table
  | i :: rest =>
      match m !! table ≫= λ es : list Z, es !! i with
      | None => None
      | Some e => if is_valid e && negb (is_leaf e) then pt_walk m (child e) rest else None
      end
  end.

(** [own] gives each table page its only path from the root. *)
Record pt_wf (m : pmem) (own : gmap Z (list nat)) (root : PhysAddr) : Prop := {
  pw_root : own !! root = Some [];
  pw_table : ∀ p π, own !! p = Some π → length π < L ∧ ∃ es, m !! p = Some es ∧ length es = ENTRIES;
  pw_child : ∀ p π es i e, own !! p = Some π → m !! p = Some es → es !! i = Some e →
    is_valid e = true → is_leaf e = false → S (length π) < L → own !! child e = Some (π ++ [i]);
}.

Lemma pt_lookup_cons (m : pmem) (t : PhysAddr) (es : list Z) (i : nat) (e : Z) (rest : list nat) :
  m !! t = Some es → es !! i = Some e → pt_lookup m t (i :: rest) = entry_lookup m e rest.
Proof. intros Ht He. cbn [pt_lookup]. rewrite Ht. cbn. by rewrite He. Qed.

Lemma wf_read (m : pmem) (own : gmap Z (list nat)) (root p : PhysAddr) (π : list nat) (i : nat) :
  pt_wf m own root → own !! p = Some π → i < ENTRIES →
  ∃ es e, m !! p = Some es ∧ es !! i = Some e ∧ length es = ENTRIES ∧ read_entry m p i = Done e.
Proof.
  intros Hwf Hp Hi. destruct (pw_table _ _ _ Hwf p π Hp) as (_&es&Hes&Hlen).
  destruct (lookup_lt_is_Some_2 es i) as [e He]; [lia|]. exists es, e. unfold read_entry. rewrite Hes.
  cbn [get_exec mbind exec_bind]. by rewrite He.
Qed.

Lemma set_entry_Done (m : pmem) (p : PhysAddr) (es : list Z) (i : nat) (v : Z) :
  m !! p = Some es → i < length es → set_entry m p i v = Done (<[p := <[i := v]> es]> m).
Proof. intros Hp Hi. unfold set_entry. rewrite Hp. cbn [get_exec mbind exec_bind]. by rewrite put_exec_Done. Qed.

(** Memory runs out only when the source does. *)
Lemma map_walk_spent `{!PageSource A, !PageSourceSpent A} (idxs : list nat) : ∀ (m : pmem) (a : A) table r m' a',
  map_walk m a table idxs = Done (r, m', a') → ps_spent a ∨ r = inl OutOfMemory → ps_spent a'.
Proof.
  induction idxs as [|idx idxs IH]; intros m a table r m' a'; cbn [map_walk]; [intros [= <- <- <-] [?|?]; done|].
  destruct (read_entry m table idx) as [e|]; [cbn [mbind exec_bind]|done].
  destruct (negb (is_valid e)); [|destruct (is_leaf e); [intros [= <- <- <-] [?|?]; done|apply IH]].
  destruct (ps_alloc a) as [[p a1]|] eqn:Ha; [cbn [mbind exec_bind]|done]. destruct p as [p|].
  - destruct (set_entry _ table idx _) as [m1|]; [cbn [mbind exec_bind]|done]. intros Hw [Hs|Hr]; (eapply IH; [exact Hw|]); [|by right].
    left. eapply ps_spent_step; [exact Ha|by left].
  - intros [= <- <- <-] _. eapply ps_spent_step; [exact Ha|by right].
Qed.

Lemma map_at_spent `{!PageSource A, !PageSourceSpent A} (m : pmem) (a : A) root upper last bits paddr r m' a' :
  map_at m a root upper last bits paddr = Done (r, m', a') → ps_spent a ∨ r = inl OutOfMemory → ps_spent a'.
Proof.
  unfold map_at. destruct (map_walk m a root upper) as [[[[e|t] m1] a1]|] eqn:Hw; [| |done]; cbn [mbind exec_bind].
  - intros [= <- <- <-] Hs. eapply map_walk_spent; [exact Hw|]. destruct Hs as [?|[= ->]]; [by left|by right].
  - destruct (map_leaf m1 t last bits paddr) as [[r1 m2]|] eqn:Hl; [cbn [mbind exec_bind]|done]. intros [= <- <- <-] [Hs|Hr].
    + eapply map_walk_spent; [exact Hw|by left].
    + subst. unfold map_leaf in Hl. destruct (read_entry m1 t last); [cbn [mbind exec_bind] in Hl|done].
      destruct (is_valid _); [done|]. destruct (set_entry m1 t last _); done.
Qed.

(** One entry of one table changed. *)
Record entry_set (own : gmap Z (list nat)) (m m' : pmem) (p : PhysAddr) (es : list Z) (i : nat) (e v : Z) : Prop := {
  es_old : m !! p = Some es;
  es_entry : es !! i = Some e;
  es_new : m' !! p = Some (<[i := v]> es);
  es_others : ∀ q, q ≠ p → is_Some (own !! q) → m' !! q = m !! q;
}.

Lemma entry_set_insert (own : gmap Z (list nat)) (m : pmem) (p : PhysAddr) (es : list Z) (i : nat) (e v : Z) :
  m !! p = Some es → es !! i = Some e → entry_set own m (<[p := <[i := v]> es]> m) p es i e v.
Proof. intros Hp He. split; [done|done|apply lookup_insert_eq|]. intros q Hq _. by apply lookup_insert_ne. Qed.

(** The tables seen from a table [t] at path [σ]: any entry but the changed
    one is the same. *)
Lemma entry_set_same (m m' : pmem) (own : gmap Z (list nat)) (p t : PhysAddr) (π σ : list nat) (es est : list Z)
    (i j : nat) (e v : Z) : entry_set own m m' p es i e v →
  own !! p = Some π → own !! t = Some σ → m !! t = Some est → (t = p → i ≠ j) →
  (m' !! t ≫= λ es : list Z, es !! j) = est !! j.
Proof.
  intros [H1 H2 H3 H4] Hp Ht Hest Hne. destruct (decide (t = p)) as [->|Htp].
  - rewrite H3. cbn. assert (es = est) as -> by congruence. rewrite list_lookup_insert_ne; [done|]. by apply Hne.
  - rewrite H4 by (done || by eexists). by rewrite Hest.
Qed.

Lemma lookup_upd (m m' : pmem) (own : gmap Z (list nat)) (root p : PhysAddr) (π : list nat) (es : list Z) (i : nat) (e v : Z) :
  pt_wf m own root → own !! p = Some π → entry_set own m m' p es i e v →
  ∀ vs t σ, own !! t = Some σ → length σ + length vs = L →
  (∀ rest, σ ++ vs = π ++ i :: rest → entry_lookup m' v rest = entry_lookup m e rest) →
  pt_lookup m' t vs = pt_lookup m t vs.
Proof.
  intros Hwf Hp Hset. induction vs as [|j rest IH]; intros t σ Ht Hlen Hch; [done|].
  destruct (pw_table _ _ _ Hwf t σ Ht) as (_&est&Hest&_). pose proof Hset as [H1 H2 H3 H4].
  destruct (decide (t = p ∧ i = j)) as [[-> <-]|Hne].
  - assert (σ = π) as -> by congruence. assert (est = es) as -> by congruence.
    rewrite (pt_lookup_cons m p es i e rest), (pt_lookup_cons m' p (<[i := v]> es) i v rest); [by apply Hch|done| |done|done].
    apply list_lookup_insert_eq. by eapply lookup_lt_Some.
  - cbn [pt_lookup]. rewrite (entry_set_same m m' own p t π σ es est i j e v) by (done || naive_solver).
    rewrite Hest. cbn. destruct (est !! j) as [ej|] eqn:Hej; [|done]. destruct (is_valid ej) eqn:Hv; cbn; [|done].
    destruct rest as [|j2 rest]; [done|]. destruct (is_leaf ej) eqn:Hlf; [done|].
    apply (IH (child ej) (σ ++ [j])).
    + eapply (pw_child _ _ _ Hwf t σ est); try done. cbn in Hlen. lia.
    + rewrite length_app. cbn in *. lia.
    + rewrite <- app_assoc. exact Hch.
Qed.

Lemma walk_own (m : pmem) (own : gmap Z (list nat)) (root : PhysAddr) : pt_wf m own root →
  ∀ vs t σ p, own !! t = Some σ → pt_walk m t vs = Some p → length σ + length vs < L → own !! p = Some (σ ++ vs).
Proof.
  intros Hwf. induction vs as [|i rest IH]; intros t σ p Ht Hw Hlen; cbn [pt_walk] in Hw.
  { injection Hw as <-. by rewrite app_nil_r. }
  destruct (pw_table _ _ _ Hwf t σ Ht) as (_&es&Hes&_). rewrite Hes in Hw. cbn in Hw.
  destruct (es !! i) as [e|] eqn:He; [|done]. destruct (is_valid e) eqn:Hv, (is_leaf e) eqn:Hlf; try done. cbn in Hw, Hlen.
  replace (σ ++ i :: rest) with ((σ ++ [i]) ++ rest) by (by rewrite <- app_assoc).
  apply (IH (child e)); [|done|rewrite length_app; cbn; lia].
  eapply (pw_child _ _ _ Hwf t σ es); try done. lia.
Qed.

Lemma lookup_walk (m : pmem) (vs rest : list nat) : ∀ t p, pt_walk m t vs = Some p → rest ≠ [] →
  pt_lookup m t (vs ++ rest) = pt_lookup m p rest.
Proof.
  induction vs as [|i vs IH]; intros t p Hw Hr; cbn [pt_walk] in Hw; [by injection Hw as <-|].
  cbn [pt_lookup app]. destruct (m !! t ≫= _) as [e|]; [|done].
  destruct (is_valid e), (is_leaf e); cbn in Hw; try done. cbn [negb].
  destruct (vs ++ rest) as [|j l] eqn:E; [by apply app_eq_nil in E as [_ ->]|]. by apply IH.
Qed.

(** A walk that stops above the changed table, or leaves its path, is the same. *)
Lemma walk_upd (m m' : pmem) (own : gmap Z (list nat)) (root p : PhysAddr) (π : list nat) (es : list Z) (i : nat) (e v : Z) :
  pt_wf m own root → own !! p = Some π → entry_set own m m' p es i e v →
  ∀ vs t σ, own !! t = Some σ → length σ + length vs < L → (∀ rest, σ ++ vs ≠ π ++ i :: rest) →
  pt_walk m' t vs = pt_walk m t vs.
Proof.
  intros Hwf Hp Hset. induction vs as [|j rest IH]; intros t σ Ht Hlen Hpre; [done|]. cbn [pt_walk].
  destruct (pw_table _ _ _ Hwf t σ Ht) as (_&est&Hest&_).
  rewrite (entry_set_same m m' own p t π σ es est i j e v); [|done..|].
  2: { intros -> ->. assert (σ = π) as -> by congruence. by destruct (Hpre rest). }
  rewrite Hest. cbn. destruct (est !! j) as [ej|] eqn:Hej; [|done].
  destruct (is_valid ej) eqn:Hv, (is_leaf ej) eqn:Hlf; cbn; try done. apply (IH (child ej) (σ ++ [j])).
  - eapply (pw_child _ _ _ Hwf t σ est); try done. cbn in Hlen. lia.
  - rewrite length_app. cbn in *. lia.
  - intros r. rewrite <- app_assoc. apply Hpre.
Qed.

(** ** Entries *)

Lemma land_shifted (x k : Z) : (0 <= k < 1024)%Z → Z.land (Z.shiftl x 10) k = 0%Z.
Proof.
  intros Hk. apply Z.bits_inj'. intros i Hi. rewrite Z.land_spec, Z.testbit_0_l.
  destruct (decide (i < 10)%Z); [by rewrite Z.shiftl_spec_low|].
  rewrite (testbit_high 10 k) by (done || (split; lia) || lia). apply andb_false_r.
Qed.

Lemma pte_low (bits pa k : Z) : (0 <= k < 1024)%Z → Z.land (pte bits pa) k = Z.land bits k.
Proof. intros Hk. unfold pte. by rewrite Z.land_lor_distr_l, land_shifted, Z.lor_0_r. Qed.

Lemma pte_valid (bits pa : Z) : is_valid (pte bits pa) = is_valid bits.
Proof. unfold is_valid. by rewrite pte_low by (unfold PTE_V; lia). Qed.

Lemma pte_leaf (bits pa : Z) : is_leaf (pte bits pa) = is_leaf bits.
Proof. unfold is_leaf. rewrite pte_valid, pte_low; [done|]. vm_compute. split; congruence. Qed.

Lemma ppn_pte (bits pa : Z) : (0 <= bits < 1024)%Z → ppn (pte bits pa) = Z.land (Z.shiftr pa PAGE_SHIFT) PPN_MASK.
Proof.
  intros Hb. unfold ppn, pte. rewrite Z.shiftr_lor, Z.shiftr_shiftl_l, Z.sub_diag, Z.shiftl_0_r by lia.
  assert (Hz : Z.shiftr bits 10 = 0%Z) by (rewrite Z.shiftr_div_pow2 by lia; apply Z.div_small; lia).
  by rewrite Hz, Z.lor_0_l, <- Z.land_assoc, Z.land_diag.
Qed.

Lemma child_pte (bits pa : Z) : (0 <= bits < 1024)%Z → frame_ok PPN_MASK usize_bits pa → child (pte bits pa) = pa.
Proof. intros Hb [Hf Hw]. unfold child. rewrite ppn_pte, Hf by done. by apply wrap_small. Qed.

Lemma zero_invalid : is_valid 0 = false.
Proof. done. Qed.

Lemma zero_table_lookup (i : nat) (e : Z) : zero_table !! i = Some e → e = 0%Z.
Proof. unfold zero_table. intros [-> _]%lookup_replicate. done. Qed.

Lemma lookup_zero_table (m : pmem) (t : PhysAddr) (vs : list nat) : m !! t = Some zero_table → pt_lookup m t vs = None.
Proof.
  intros Ht. destruct vs as [|i rest]; [done|]. cbn [pt_lookup]. rewrite Ht. cbn.
  destruct (zero_table !! i) as [e|] eqn:He; [|done]. by rewrite (zero_table_lookup i e He).
Qed.

Lemma root_wf (m : pmem) (root : PhysAddr) : 0 < L → m !! root = Some zero_table → pt_wf m {[root := []]} root.
Proof.
  intros HL Hm. split.
  - apply lookup_singleton_eq.
  - intros p π Hp. apply lookup_singleton_Some in Hp as [<- <-]. split; [done|].
    exists zero_table. split; [done|]. apply length_replicate.
  - intros p π es i e Hp Hes Hi Hv. apply lookup_singleton_Some in Hp as [<- <-].
    assert (es = zero_table) as -> by congruence. apply zero_table_lookup in Hi as ->. done.
Qed.

(** ** Adding a table *)

Lemma add_table (m : pmem) (own : gmap Z (list nat)) (root table q : PhysAddr) (σ : list nat) (es : list Z) (idx : nat) (e : Z) :
  pt_wf m own root → own !! table = Some σ → m !! table = Some es → es !! idx = Some e → is_valid e = false →
  S (length σ) < L → own !! q = None → frame_ok PPN_MASK usize_bits q →
  let m' := <[table := <[idx := pte PTE_V q]> es]> (<[q := zero_table]> m) in
  let own' := <[q := σ ++ [idx]]> own in
  pt_wf m' own' root
  ∧ (∀ vs, length vs = L → pt_lookup m' root vs = pt_lookup m root vs)
  ∧ (∀ p, is_Some (own !! p) → p ≠ table → m' !! p = m !! p) ∧ pt_walk m' table [idx] = Some q.
Proof.
  intros Hwf Ht Hes He Hinv Hlen Hq Hok m' own'. assert (Htq : table ≠ q) by (intros ->; congruence).
  assert (Hidx : idx < length es) by (by eapply lookup_lt_Some).
  assert (Hold : ∀ p, is_Some (own !! p) → p ≠ table → m' !! p = m !! p).
  { intros p [π Hp] Hne. assert (p ≠ q) by (intros ->; congruence). unfold m'. by rewrite !lookup_insert_ne. }
  assert (Hown : ∀ p π, own !! p = Some π → own' !! p = Some π).
  { intros p π Hp. unfold own'. rewrite lookup_insert_ne; [done|]. intros ->. congruence. }
  assert (Hm'q : m' !! q = Some zero_table) by (unfold m'; by rewrite lookup_insert_ne, lookup_insert_eq by done).
  assert (Hm't : m' !! table = Some (<[idx := pte PTE_V q]> es)) by apply lookup_insert_eq.
  assert (Hset : entry_set own m m' table es idx e (pte PTE_V q)).
  { split; [done..|]. intros p Hne Hp. by apply Hold. }
  assert (Hchild : child (pte PTE_V q) = q) by (apply child_pte; [unfold PTE_V; lia|done]).
  split_and!; [|intros vs Hvs|done|].
  - split.
    + apply Hown, Hwf.
    + intros p π Hp. destruct (decide (p = q)) as [->|Hne].
      * unfold own' in Hp. rewrite lookup_insert_eq in Hp. injection Hp as <-. rewrite length_app. cbn.
        split; [lia|]. exists zero_table. by rewrite Hm'q; unfold zero_table; rewrite length_replicate.
      * unfold own' in Hp. rewrite lookup_insert_ne in Hp by done. destruct (pw_table _ _ _ Hwf p π Hp) as (Hl&esp&Hesp&Hlp).
        split; [done|]. destruct (decide (p = table)) as [->|Hpt]; [|rewrite Hold by (done || by eexists); by exists esp].
        exists (<[idx := pte PTE_V q]> es). rewrite length_insert. split; [done|]. congruence.
    + intros p π esp i ei Hp Hesp Hi Hv Hlf Hl. destruct (decide (p = q)) as [->|Hne].
      { rewrite Hm'q in Hesp. injection Hesp as <-. apply zero_table_lookup in Hi as ->. done. }
      unfold own' in Hp. rewrite lookup_insert_ne in Hp by done.
      destruct (decide (p = table)) as [->|Hpt].
      * assert (π = σ) as -> by congruence. rewrite Hm't in Hesp. injection Hesp as <-.
        destruct (decide (idx = i)) as [<-|Hii].
        -- rewrite list_lookup_insert_eq in Hi by done. injection Hi as <-. rewrite Hchild. apply lookup_insert_eq.
        -- rewrite list_lookup_insert_ne in Hi by done. apply Hown. by eapply (pw_child _ _ _ Hwf table).
      * rewrite Hold in Hesp by (done || by eexists). apply Hown. by eapply (pw_child _ _ _ Hwf p).
  - apply (lookup_upd m m' own root table σ es idx e (pte PTE_V q) Hwf Ht Hset vs root []); [apply Hwf|done|].
    intros rest Heq. cbn [app] in Heq. subst vs. unfold entry_lookup. rewrite Hinv, pte_valid, pte_leaf.
    change (is_valid PTE_V) with true. change (is_leaf PTE_V) with false. cbn [negb].
    destruct rest as [|j rest]; [rewrite length_app in Hvs; cbn in Hvs; lia|].
    rewrite Hchild. by apply lookup_zero_table.
  - cbn [pt_walk]. rewrite Hm't. cbn. rewrite list_lookup_insert_eq by done. rewrite pte_valid, pte_leaf.
    change (is_valid PTE_V) with true. change (is_leaf PTE_V) with false. cbn. by rewrite Hchild.
Qed.

(** ** The walks *)

(** No leaf above the last level. *)
Definition small_pages (m : pmem) (root : PhysAddr) : Prop :=
  ∀ vs n e, length vs = L → pt_lookup m root vs = Some (n, e) → n = 0.

Section laws.
Context `{!PageSource A, !PageSourceLaws A PPN_MASK usize_bits}.

(** What a walk may have changed: tables were added below [σ]. *)
Record grown_tables (root : PhysAddr) (σ : list nat) (m m' : pmem) (own own' : gmap Z (list nat)) (a' : A) (X X' : gset Z) : Prop := {
  gt_wf : pt_wf m' own' root;
  gt_own : own ⊆ own';
  gt_inv : ps_inv a' X';
  gt_dom : dom own' ⊆ X';
  gt_used : X ⊆ X';
  gt_same : ∀ vs, length vs = L → pt_lookup m' root vs = pt_lookup m root vs;
  gt_frame : ∀ q τ, own !! q = Some τ → (¬ σ `prefix_of` τ) → m' !! q = m !! q;
}.

Lemma grown_refl (root : PhysAddr) (σ : list nat) (m : pmem) (own : gmap Z (list nat)) (a : A) (X : gset Z) :
  pt_wf m own root → ps_inv a X → dom own ⊆ X → grown_tables root σ m m own own a X X.
Proof. by split. Qed.

Definition walk_result (m m' : pmem) (own' : gmap Z (list nat)) (table : PhysAddr) (idxs : list nat) (r : MmError + PhysAddr) : Prop :=
  match r with
  | inl OutOfMemory => True
  | inl AlreadyMapped => ∀ last, ∃ n e, pt_lookup m table (idxs ++ [last]) = Some (S n, e)
  | inl _ => False
  | inr t => pt_walk m' table idxs = Some t
  end.

Lemma map_walk_spec (idxs : list nat) : ∀ (m : pmem) (a : A) (own : gmap Z (list nat)) (X : gset Z) (root table : PhysAddr) (σ : list nat),
  pt_wf m own root → own !! table = Some σ → length σ + length idxs < L → Forall (λ i, i < ENTRIES) idxs →
  ps_inv a X → dom own ⊆ X →
  ∃ r m' a' own' X', map_walk m a table idxs = Done (r, m', a')
    ∧ grown_tables root σ m m' own own' a' X X' ∧ walk_result m m' own' table idxs r.
Proof.
  induction idxs as [|idx idxs IH]; intros m a own X root table σ Hwf Ht Hlen Hb Ha Hd.
  { exists (inr table), m, a, own, X. split_and!; [done|by apply grown_refl|done]. }
  apply Forall_cons in Hb as [Hidx Hb]. cbn in Hlen.
  destruct (wf_read m own root table σ idx Hwf Ht Hidx) as (es&e&Hes&He&Hel&Hrd). cbn [map_walk].
  rewrite Hrd. cbn [mbind exec_bind]. destruct (is_valid e) eqn:Hv; cbn [negb].
  - destruct (is_leaf e) eqn:Hlf.
    + exists (inl AlreadyMapped), m, a, own, X. split_and!; [done|by apply grown_refl|].
      intros last. exists (length idxs), e. cbn [app]. rewrite (pt_lookup_cons m table es idx e _ Hes He).
      unfold entry_lookup. rewrite Hv, Hlf. cbn. destruct (idxs ++ [last]) as [|? ?] eqn:E; [by apply app_eq_nil in E as [_ ?]|].
      rewrite <- E, length_app. cbn. by rewrite Nat.add_1_r.
    + assert (Hc : own !! child e = Some (σ ++ [idx])) by (eapply (pw_child _ _ _ Hwf table σ es); try done; lia).
      destruct (IH m a own X root (child e) (σ ++ [idx]) Hwf Hc) as (r&m'&a'&own'&X'&Heq&Hg&Hr);
        [rewrite length_app; cbn; lia|done..|].
      exists r, m', a', own', X'. destruct Hg as [G1 G2 G3 G4 G5 G6 G7]. split_and!; [done| |].
      * split; try done. intros q τ Hq Hp. eapply G7; [done|]. intros [k ->]. apply Hp. exists ([idx] ++ k). by rewrite app_assoc.
      * assert (Hmt : m' !! table = Some es).
        { rewrite <- Hes. eapply G7; [done|]. intros [k Hk]. apply (f_equal length) in Hk. rewrite !length_app in Hk. cbn in Hk. lia. }
        unfold walk_result in *. destruct r as [[]|t]; try done.
        -- intros last. destruct (Hr last) as (n&e'&Hl). exists n, e'. cbn [app].
           rewrite (pt_lookup_cons m table es idx e _ Hes He). unfold entry_lookup. rewrite Hv, Hlf. cbn [negb].
           by destruct (idxs ++ [last]) eqn:E; [apply app_eq_nil in E as [_ ?]|].
        -- cbn [pt_walk]. rewrite Hmt. cbn. rewrite He, Hv, Hlf. done.
  - destruct (ps_alloc_ok a X Ha) as ([q|]&a1&Hal&Hq); rewrite Hal; cbn [mbind exec_bind].
    2: { exists (inl OutOfMemory), m, a1, own, X. split_and!; [done|by apply grown_refl|done]. }
    destruct Hq as (Hq1&Hq2&Hq3).
    assert (Hqn : own !! q = None).
    { apply not_elem_of_dom. intros Hin. apply Hq2. by apply Hd. }
    assert (Htq : table ≠ q) by (intros ->; congruence).
    destruct (add_table m own root table q σ es idx e Hwf Ht Hes He Hv ltac:(lia) Hqn Hq3) as (Hwf1&Hsame1&Hfr1&Hw1).
    rewrite (set_entry_Done _ table es idx) by (rewrite ?lookup_insert_ne; done || lia). cbn [mbind exec_bind].
    set (m1 := <[table := _]> _) in *. set (own1 := <[q := σ ++ [idx]]> own) in *.
    assert (Hsub : own ⊆ own1) by by apply insert_subseteq.
    destruct (IH m1 a1 own1 ({[q]} ∪ X) root q (σ ++ [idx]) Hwf1) as (r&m'&a'&own'&X'&Heq&Hg&Hr).
    { apply lookup_insert_eq. }
    { rewrite length_app. cbn. lia. }
    { done. }
    { done. }
    { unfold own1. rewrite dom_insert_L. apply union_mono_l, Hd. }
    exists r, m', a', own', X'. destruct Hg as [G1 G2 G3 G4 G5 G6 G7].
    assert (Hmt : m' !! table = m1 !! table).
    { eapply (G7 table σ); [by eapply lookup_weaken|].
      intros [k Hk]. apply (f_equal length) in Hk. rewrite !length_app in Hk. cbn in Hk. lia. }
    split_and!; [done| |].
    + split; try done.
      * by etransitivity.
      * etransitivity; [apply union_subseteq_r|done].
      * intros vs Hvs. rewrite G6 by done. by apply Hsame1.
      * intros q' τ Hq' Hp. rewrite (G7 q' τ).
        -- apply Hfr1; [by eexists|]. intros ->. apply Hp. by replace τ with σ by congruence.
        -- by eapply lookup_weaken.
        -- intros [k ->]. apply Hp. exists ([idx] ++ k). by rewrite app_assoc.
    + unfold walk_result in *. destruct r as [[]|t]; try done.
      * intros last. destruct (Hr last) as (n&e'&Hl). exfalso. revert Hl.
        rewrite lookup_zero_table; [done|]. unfold m1. by rewrite lookup_insert_ne, lookup_insert_eq by done.
      * cbn [pt_walk] in Hw1 |- *. rewrite Hmt. destruct (m1 !! table ≫= _) as [e1|]; [|done].
        destruct (is_valid e1 && negb (is_leaf e1)); [|done]. by injection Hw1 as ->.
Qed.

(** Writing a leaf at the end of a walk, over an invalid entry. *)
Lemma set_leaf (m : pmem) (own : gmap Z (list nat)) (root p : PhysAddr) (π : list nat) (es : list Z) (i : nat) (e v : Z) :
  pt_wf m own root → own !! p = Some π → pt_walk m root π = Some p → m !! p = Some es → es !! i = Some e →
  is_valid v = false ∨ S (length π) = L ∨ is_leaf v = true →
  let m' := <[p := <[i := v]> es]> m in
  pt_wf m' own root
  ∧ (∀ rest, length (π ++ i :: rest) = L → pt_lookup m' root (π ++ i :: rest) = if is_valid v then Some (length rest, v) else None)
  ∧ ∀ vs, length vs = L → (∀ rest, vs ≠ π ++ i :: rest) → pt_lookup m' root vs = pt_lookup m root vs.
Proof.
  intros Hwf Hp Hw Hes He Hv m'. pose proof (entry_set_insert own m p es i e v Hes He) as Hset. fold m' in Hset.
  assert (Hi : i < length es) by (by eapply lookup_lt_Some).
  assert (Hm'p : m' !! p = Some (<[i := v]> es)) by apply lookup_insert_eq.
  destruct (pw_table _ _ _ Hwf p π Hp) as (Hpl&esp&Hesp&Hlen). assert (esp = es) as -> by congruence.
  split_and!.
  - split; [apply Hwf| |].
    + intros q τ Hq. destruct (pw_table _ _ _ Hwf q τ Hq) as (Hl&esq&Hesq&Hlq). split; [done|].
      destruct (decide (q = p)) as [->|Hne].
      * exists (<[i := v]> es). by rewrite length_insert.
      * exists esq. split; [|done]. unfold m'. by rewrite lookup_insert_ne.
    + intros q τ esq j ej Hq Hesq Hj Hvj Hlj Hl. destruct (decide (q = p)) as [->|Hne].
      * assert (τ = π) as -> by congruence. rewrite Hm'p in Hesq. injection Hesq as <-.
        destruct (decide (i = j)) as [<-|Hij].
        -- rewrite list_lookup_insert_eq in Hj by done. injection Hj as <-. destruct Hv as [?|[?|?]]; [congruence|lia|congruence].
        -- rewrite list_lookup_insert_ne in Hj by done. by eapply (pw_child _ _ _ Hwf p).
      * unfold m' in Hesq. rewrite lookup_insert_ne in Hesq by done. by eapply (pw_child _ _ _ Hwf q).
  - intros rest Hr. rewrite length_app in Hr. cbn in Hr. rewrite (lookup_walk m' π (i :: rest) root p); [| |done].
    + rewrite (pt_lookup_cons m' p _ i v rest Hm'p) by (by apply list_lookup_insert_eq). unfold entry_lookup.
      destruct (is_valid v); [|done]. cbn. destruct rest as [|j rest]; [done|].
      destruct Hv as [?|[?|Hlf]]; [done|exfalso; cbn in Hr; lia|]. by rewrite Hlf.
    + rewrite (walk_upd m m' own root p π es i e v Hwf Hp Hset π root []); [done|apply Hwf|exact Hpl|].
      intros r Heq. apply (f_equal length) in Heq. rewrite !length_app in Heq. cbn in Heq. lia.
  - intros vs Hvs Hne. apply (lookup_upd m m' own root p π es i e v Hwf Hp Hset vs root []); [apply Hwf|done|].
    intros rest Heq. by destruct (Hne rest).
Qed.

Lemma map_at_spec (m : pmem) (a : A) (own : gmap Z (list nat)) (X : gset Z) (root : PhysAddr) (upper : list nat) (last : nat)
    (bits : Z) (paddr : PhysAddr) :
  pt_wf m own root → length upper < L → Forall (λ i, i < ENTRIES) upper → last < ENTRIES → ps_inv a X → dom own ⊆ X →
  is_valid bits = true → S (length upper) = L ∨ is_leaf bits = true →
  ∃ r m' a' own' X', map_at m a root upper last bits paddr = Done (r, m', a')
    ∧ pt_wf m' own' root ∧ ps_inv a' X' ∧ dom own' ⊆ X' ∧ X ⊆ X'
    ∧ (∀ vs, length vs = L → (∀ rest, vs ≠ upper ++ last :: rest) → pt_lookup m' root vs = pt_lookup m root vs)
    ∧ match r with
      | inr _ => ∀ rest, length (upper ++ last :: rest) = L →
          pt_lookup m root (upper ++ last :: rest) = None
          ∧ pt_lookup m' root (upper ++ last :: rest) = Some (length rest, pte bits paddr)
      | inl err =>
          (∀ vs, length vs = L → pt_lookup m' root vs = pt_lookup m root vs)
          ∧ (err = OutOfMemory ∨ err = AlreadyMapped)
          ∧ (err = AlreadyMapped → S (length upper) = L → pt_lookup m root (upper ++ [last]) ≠ None)
      end.
Proof.
  intros Hwf Hul Hub Hlast Ha Hd Hbv Hbl.
  destruct (map_walk_spec upper m a own X root root [] Hwf (pw_root _ _ _ Hwf) Hul Hub Ha Hd)
    as (r&m'&a'&own'&X'&Heq&[G1 G2 G3 G4 G5 G6 G7]&Hr).
  unfold map_at. rewrite Heq. cbn [mbind exec_bind]. destruct r as [err|t].
  { exists (inl err), m', a', own', X'. split_and!; try done; [intros; by apply G6|by destruct err; auto|].
    intros -> _. cbn in Hr. destruct (Hr last) as (n&e&->). done. }
  cbn in Hr. pose proof (walk_own m' own' root G1 upper root [] t (pw_root _ _ _ G1) Hr Hul) as Hown. cbn [app] in Hown.
  destruct (wf_read m' own' root t upper last G1 Hown Hlast) as (es&e&Hes&He&Hel&Hrd).
  unfold map_leaf. rewrite Hrd. cbn [mbind exec_bind]. destruct (is_valid e) eqn:Hv.
  { exists (inl AlreadyMapped), m', a', own', X'. split_and!; try done; [intros; by apply G6|by right|].
    intros _ HL. rewrite <- G6 by (rewrite length_app; cbn; lia). rewrite (lookup_walk m' upper [last] root t Hr) by done.
    rewrite (pt_lookup_cons m' t es last e [] Hes He). unfold entry_lookup. by rewrite Hv. }
  rewrite (set_entry_Done m' t es last _ Hes) by lia. cbn [mbind exec_bind].
  destruct (set_leaf m' own' root t upper es last e (pte bits paddr) G1 Hown Hr Hes He) as (W1&W2&W3).
  { rewrite pte_leaf. tauto. }
  eexists (inr ()), _, a', own', X'. split_and!; [done|done|done|done|done| |].
  - intros vs Hvs Hne. rewrite W3 by done. by apply G6.
  - intros rest Hrl. rewrite W2, pte_valid, Hbv by done. split; [|done]. rewrite <- G6 by done.
    rewrite (lookup_walk m' upper (last :: rest) root t Hr), (pt_lookup_cons m' t es last e rest Hes He) by done.
    unfold entry_lookup. by rewrite Hv.
Qed.
(** Mapping a page at the last level. *)
Lemma map_page_at_spec (m : pmem) (a : A) (own : gmap Z (list nat)) (X : gset Z) (root : PhysAddr) (upper : list nat) (last : nat)
    (bits : Z) (paddr : PhysAddr) :
  pt_wf m own root → S (length upper) = L → Forall (λ i, i < ENTRIES) upper → last < ENTRIES → ps_inv a X → dom own ⊆ X →
  is_valid bits = true →
  ∃ r m' a' own' X', map_at m a root upper last bits paddr = Done (r, m', a')
    ∧ pt_wf m' own' root ∧ ps_inv a' X' ∧ dom own' ⊆ X' ∧ (small_pages m root → small_pages m' root)
    ∧ match r with
      | inr _ => pt_lookup m root (upper ++ [last]) = None ∧ ∀ vs, length vs = L →
          pt_lookup m' root vs = if decide (vs = upper ++ [last]) then Some (0, pte bits paddr) else pt_lookup m root vs
      | inl err => (err = OutOfMemory ∨ (err = AlreadyMapped ∧ pt_lookup m root (upper ++ [last]) ≠ None))
          ∧ ∀ vs, length vs = L → pt_lookup m' root vs = pt_lookup m root vs
      end.
Proof.
  intros Hwf Hul Hub Hlast Ha Hd Hbv.
  destruct (map_at_spec m a own X root upper last bits paddr Hwf ltac:(lia) Hub Hlast Ha Hd Hbv ltac:(by left))
    as (r&m'&a'&own'&X'&Heq&Hwf'&Ha'&Hd'&_&Hsame&Hr).
  exists r, m', a', own', X'. split_and!; [done|done|done|done| |].
  - intros Hs vs n e Hvs Hl. destruct r as [err|u].
    + destruct Hr as (Hall&_). rewrite Hall in Hl by done. by eapply Hs.
    + destruct (decide (vs = upper ++ [last])) as [->|Hne].
      * destruct (Hr [] Hvs) as [_ Hsome]. rewrite Hsome in Hl. by injection Hl as <- <-.
      * rewrite Hsame in Hl; [by eapply Hs|done|]. intros rest ->. apply Hne. rewrite length_app in Hvs. cbn in Hvs.
        destruct rest; [done|cbn in Hvs; lia].
  - destruct r as [err|u].
    + destruct Hr as (Hall&[->| ->]&Hm); (split; [|done]); [by left|right]. split; [done|]. by apply Hm.
    + assert (Hlen : length (upper ++ [last]) = L) by (rewrite length_app; cbn; lia).
      destruct (Hr [] Hlen) as [Hnone Hsome]. split; [done|]. intros vs Hvs. case_decide as Heq'; [by rewrite Heq'|].
      apply Hsame; [done|]. intros rest ->. apply Heq'. rewrite length_app in Hvs. cbn in Hvs.
      destruct rest; [done|cbn in Hvs; lia].
Qed.
End laws.

Lemma unmap_walk_spec (check : bool) (m : pmem) (own : gmap Z (list nat)) (root : PhysAddr) (last : nat) :
  pt_wf m own root → ∀ idxs t σ, own !! t = Some σ → length σ + length idxs < L → Forall (λ i, i < ENTRIES) idxs →
  (check = true ∨ ∀ n e, pt_lookup m t (idxs ++ [last]) ≠ Some (S n, e)) →
  ∃ r, unmap_walk check m t idxs = Done r ∧
    match r with
    | inr p => pt_walk m t idxs = Some p
    | inl NotMapped => pt_lookup m t (idxs ++ [last]) = None
    | inl InvalidRegion => ∃ n e, pt_lookup m t (idxs ++ [last]) = Some (S n, e)
    | inl _ => False
    end.
Proof.
  intros Hwf. induction idxs as [|i idxs IH]; intros t σ Ht Hlen Hb Hc; [by exists (inr t)|].
  apply Forall_cons in Hb as [Hi Hb]. cbn in Hlen.
  destruct (wf_read m own root t σ i Hwf Ht Hi) as (es&e&Hes&He&_&Hrd). cbn [unmap_walk app] in *. rewrite Hrd.
  cbn [mbind exec_bind]. rewrite (pt_lookup_cons m t es i e _ Hes He) in *. unfold entry_lookup in *.
  destruct (is_valid e) eqn:Hv; cbn [negb] in *; [|by exists (inl NotMapped)].
  assert (Hn : idxs ++ [last] ≠ []) by (by intros [_ ?]%app_eq_nil).
  assert (Hlr : length (idxs ++ [last]) = S (length idxs)) by (rewrite length_app; cbn; lia).
  destruct (idxs ++ [last]) as [|j rest] eqn:E; [done|]. rewrite <- E in *. destruct (is_leaf e) eqn:Hlf.
  - destruct Hc as [->|Hc]; [|destruct (Hc (length idxs) e); by rewrite Hlr]. cbn [andb].
    exists (inl InvalidRegion). split; [done|]. exists (length idxs), e. by rewrite Hlr.
  - rewrite andb_false_r. destruct (IH (child e) (σ ++ [i])) as (r&Hr&Hpost); [| |done|done|].
    + eapply (pw_child _ _ _ Hwf t σ es); try done. lia.
    + rewrite length_app. cbn. lia.
    + exists r. split; [done|]. destruct r as [[]|p]; try done. cbn [pt_walk]. rewrite Hes. cbn. by rewrite He, Hv, Hlf.
Qed.

Lemma unmap_at_spec (check : bool) (m : pmem) (own : gmap Z (list nat)) (root : PhysAddr) (upper : list nat) (last : nat) :
  pt_wf m own root → S (length upper) = L → Forall (λ i, i < ENTRIES) upper → last < ENTRIES →
  check = true ∨ small_pages m root →
  ∃ r m', unmap_at check m root upper last = Done (r, m') ∧ pt_wf m' own root ∧
    match r with
    | inr pa => (∃ e, pt_lookup m root (upper ++ [last]) = Some (0, e) ∧ pa = child e)
        ∧ ∀ vs, length vs = L → pt_lookup m' root vs = if decide (vs = upper ++ [last]) then None else pt_lookup m root vs
    | inl NotMapped => m' = m ∧ pt_lookup m root (upper ++ [last]) = None
    | inl InvalidRegion => m' = m ∧ ∃ n e, pt_lookup m root (upper ++ [last]) = Some (S n, e)
    | inl _ => False
    end.
Proof.
  intros Hwf Hul Hub Hlast Hc.
  destruct (unmap_walk_spec check m own root last Hwf upper root [] (pw_root _ _ _ Hwf) ltac:(cbn; lia) Hub) as (r&Hr&Hpost).
  { destruct Hc as [->|Hs]; [by left|right]. intros n e Hl. apply Hs in Hl; [done|]. rewrite length_app. cbn. lia. }
  unfold unmap_at. rewrite Hr. cbn [mbind exec_bind]. destruct r as [err|t].
  { exists (inl err), m. split_and!; [done|done|]. by destruct err. }
  pose proof (walk_own m own root Hwf upper root [] t (pw_root _ _ _ Hwf) Hpost ltac:(cbn; lia)) as Hown. cbn [app] in Hown.
  destruct (wf_read m own root t upper last Hwf Hown Hlast) as (es&e&Hes&He&Hel&Hrd). rewrite Hrd. cbn [mbind exec_bind].
  assert (Hlk : pt_lookup m root (upper ++ [last]) = entry_lookup m e []).
  { rewrite (lookup_walk m upper [last] root t Hpost) by done. by apply (pt_lookup_cons m t es). }
  unfold entry_lookup in Hlk. destruct (is_valid e) eqn:Hv; cbn [negb] in *; [|by exists (inl NotMapped), m].
  rewrite (set_entry_Done m t es last _ Hes) by lia. cbn [mbind exec_bind].
  destruct (set_leaf m own root t upper es last e 0 Hwf Hown Hpost Hes He) as (W1&W2&W3); [by left|].
  eexists (inr _), _. split_and!; [done|done|by exists e|]. intros vs Hvs. case_decide as Hd.
  - subst vs. apply W2. done.
  - apply W3; [done|]. intros rest ->. apply Hd. rewrite length_app in Hvs. cbn in Hvs. destruct rest; [done|cbn in Hvs; lia].
Qed.

Lemma translate_at_spec (on_leaf : nat → Z → option PhysAddr) (on_page : Z → PhysAddr) (m : pmem) (own : gmap Z (list nat))
    (root : PhysAddr) (upper : list nat) (last : nat) :
  pt_wf m own root → S (length upper) = L → Forall (λ i, i < ENTRIES) upper → last < ENTRIES →
  translate_at on_leaf on_page m root upper last
  = Done (match pt_lookup m root (upper ++ [last]) with
          | None => None | Some (0, e) => Some (on_page e) | Some (S n, e) => on_leaf (S n) e end).
Proof.
  intros Hwf Hul Hub Hlast.
  assert (H : ∀ idxs t σ, own !! t = Some σ → length σ + S (length idxs) = L → Forall (λ i, i < ENTRIES) idxs →
    translate_at on_leaf on_page m t idxs last = Done (match pt_lookup m t (idxs ++ [last]) with
          | None => None | Some (0, e) => Some (on_page e) | Some (S n, e) => on_leaf (S n) e end)).
  2: { apply (H upper root []); [apply Hwf|done|done]. }
  clear Hul Hub. induction idxs as [|i idxs IH]; intros t σ Ht Hlen Hb.
  - destruct (wf_read m own root t σ last Hwf Ht Hlast) as (es&e&Hes&He&_&Hrd). unfold translate_at. cbn [translate_walk mbind exec_bind app].
    rewrite Hrd, (pt_lookup_cons m t es last e _ Hes He). cbn [mbind exec_bind]. unfold entry_lookup. by destruct (is_valid e).
  - apply Forall_cons in Hb as [Hi Hb]. cbn in Hlen. destruct (wf_read m own root t σ i Hwf Ht Hi) as (es&e&Hes&He&_&Hrd).
    unfold translate_at. cbn [translate_walk app]. rewrite Hrd, (pt_lookup_cons m t es i e _ Hes He). cbn [mbind exec_bind].
    unfold entry_lookup. destruct (is_valid e) eqn:Hv; cbn [negb mbind exec_bind]; [|done].
    assert (Hlr : length (idxs ++ [last]) = S (length idxs)) by (rewrite length_app; cbn; lia).
    destruct (idxs ++ [last]) as [|j rest] eqn:E; [done|]. rewrite <- E in *. destruct (is_leaf e) eqn:Hlf; cbn [mbind exec_bind].
    + by rewrite Hlr.
    + apply (IH (child e) (σ ++ [i])); [|rewrite length_app; cbn; lia|done].
      eapply (pw_child _ _ _ Hwf t σ es); try done. lia.
Qed.
End format.

(** ** Permissions and addresses in entries *)

Lemma bits_range (perms : Z) : (0 <= perms_to_pte_bits perms < 1024)%Z ∧ is_valid (perms_to_pte_bits perms) = true.
Proof.
  unfold perms_to_pte_bits. destruct (contains perms PERM_READ), (contains perms PERM_WRITE), (contains perms PERM_EXECUTE);
    by vm_compute.
Qed.

Lemma bits_leaf (perms : Z) : contains perms PERM_READ || contains perms PERM_WRITE || contains perms PERM_EXECUTE = true →
  is_leaf (perms_to_pte_bits perms) = true.
Proof.
  unfold perms_to_pte_bits. destruct (contains perms PERM_READ), (contains perms PERM_WRITE), (contains perms PERM_EXECUTE);
    done.
Qed.

(** The address in a page number field, with an offset below it. *)
Lemma frame_join (w mask bits pa off k : Z) : (0 <= w)%Z → mask = Z.ones w → (0 <= bits < 1024)%Z → in_width (w + 12) pa → (12 <= k)%Z → (pa `mod` 2 ^ k = 0)%Z →
  Z.lor (Z.shiftl (ppn mask (pte mask bits pa)) PAGE_SHIFT) (Z.land off (Z.shiftl 1 k - 1)) = (pa + off `mod` 2 ^ k)%Z.
Proof.
  intros Hw0 -> Hb Hw Hk Hal. rewrite ppn_pte by done.
  assert (Hpa : Z.shiftl (Z.land (Z.shiftr pa PAGE_SHIFT) (Z.ones w)) PAGE_SHIFT = pa).
  { unfold PAGE_SHIFT. rewrite Z.land_ones, Z.shiftr_div_pow2, Z.shiftl_mul_pow2 by lia.
    destruct Hw as [H1 H2]. assert (Hd : (pa `mod` 2 ^ 12 = 0)%Z).
    { apply Z.mod_divide; [lia|]. apply (Z.divide_trans _ (2 ^ k)); [|by apply Z.mod_divide; [lia|]].
      exists (2 ^ (k - 12))%Z. rewrite <- Z.pow_add_r by lia. f_equal. lia. }
    rewrite Z.mod_small; [|split; [apply Z.div_pos; lia|apply Z.div_lt_upper_bound; [lia|]; rewrite <- Z.pow_add_r, Z.add_comm by lia; done]].
    pose proof (Z.div_mod pa (2 ^ 12) ltac:(lia)). lia. }
  rewrite Hpa. rewrite Z.shiftl_1_l. replace (2 ^ k - 1)%Z with (Z.ones k) by (rewrite Z.ones_equiv; lia). rewrite Z.land_ones by lia.
  rewrite <- Z.add_lor_land. replace (Z.land pa (off `mod` 2 ^ k)) with 0%Z; [lia|].
  apply Z.bits_inj'. intros i Hi. rewrite Z.testbit_0_l, Z.land_spec. symmetry.
  destruct (decide (i < k)%Z).
  - assert (Hd : pa = (2 ^ k * (pa / 2 ^ k))%Z) by (apply Z.div_exact; [lia|done]).
    by rewrite Hd, Z.mul_comm, Z.mul_pow2_bits_low by lia.
  - rewrite Z.mod_pow2_bits_high by lia. apply andb_false_r.
Qed.
