(* ===== verification/Sv39.v ===== *)
(** * Sv39 page tables, [arch/src/riscv/sv39.rs]

    Three levels of 512 entries of 64 bits; the methods are those of the
    [RiscvPageTable] implementation.  The theorems say what a page table is
    for: the translation of an address after mapping and unmapping. *)

From S2P Require Export Prelude.
From S2P Require Export Paging.

Definition LEVELS : nat := 3.
Definition PT_ENTRIES : nat := 512.
Definition PPN_MASK : Z := 0xFFFFFFFFFFF.
Definition SUPERPAGE_SIZE : Z := 2 * 1024 * 1024.

(** [VPN[level]]. *)
Definition vpn (vaddr : VirtAddr) (level : nat) : nat :=
  Z.to_nat (Z.land (Z.shiftr vaddr (12 + 9 * Z.of_nat level)) 0x1FF).

Definition translate_leaf (e : Z) (level : nat) (vaddr : VirtAddr) : PhysAddr :=
  let offset := Z.land vaddr (Z.shiftl 1 (PAGE_SHIFT + 9 * Z.of_nat level) - 1) in
  Z.lor (Z.shiftl (ppn PPN_MASK e) PAGE_SHIFT) offset.

Definition satp_value (root : PhysAddr) : Z :=
  Z.lor (Z.shiftl 8 60) (Z.land (Z.shiftr root PAGE_SHIFT) PPN_MASK).

Section ops.
Context `{!PageSource A}.

Definition map_page (m : pmem) (a : A) (root : PhysAddr) (vaddr : VirtAddr) (paddr : PhysAddr) (perms : Z)
    : exec ((MmError + unit) * pmem * A) :=
  if negb (is_aligned vaddr PAGE_SIZE) || negb (is_aligned paddr PAGE_SIZE) then Done (inl InvalidAlignment, m, a) else
  map_at PT_ENTRIES PPN_MASK 64 m a root [vpn vaddr 2; vpn vaddr 1] (vpn vaddr 0) (perms_to_pte_bits perms) paddr.

Definition map_superpage (m : pmem) (a : A) (root : PhysAddr) (vaddr : VirtAddr) (paddr : PhysAddr) (size perms : Z)
    : exec ((MmError + unit) * pmem * A) :=
  if negb (size =? SUPERPAGE_SIZE)%Z then Done (inl InvalidRegion, m, a) else
  if negb (is_aligned vaddr SUPERPAGE_SIZE) || negb (is_aligned paddr SUPERPAGE_SIZE) then Done (inl InvalidAlignment, m, a) else
  map_at PT_ENTRIES PPN_MASK 64 m a root [vpn vaddr 2] (vpn vaddr 1) (perms_to_pte_bits perms) paddr.
End ops.

Definition unmap_page (m : pmem) (root : PhysAddr) (vaddr : VirtAddr) : exec ((MmError + PhysAddr) * pmem) :=
  if negb (is_aligned vaddr PAGE_SIZE) then Done (inl InvalidAlignment, m) else
  unmap_at PPN_MASK 64 true m root [vpn vaddr 2; vpn vaddr 1] (vpn vaddr 0).

Definition translate (m : pmem) (root : PhysAddr) (vaddr : VirtAddr) : exec (option PhysAddr) :=
  translate_at PPN_MASK 64 (λ level e, Some (translate_leaf e level vaddr))
    (λ e, Z.lor (Z.shiftl (ppn PPN_MASK e) PAGE_SHIFT) (Z.land vaddr 0xFFF))
    m root [vpn vaddr 2; vpn vaddr 1] (vpn vaddr 0).

(** ** Lemmas *)

(** A table set up by [new] on a zeroed root page, and its descendants. *)
Definition table_wf `{!PageSource A, !PageSourceLaws A PPN_MASK 64} (m : pmem) (a : A) (root : PhysAddr) : Prop :=
  ∃ own X, pt_wf PT_ENTRIES PPN_MASK 64 LEVELS m own root ∧ ps_inv (mask := PPN_MASK) (usize_bits := 64) a X ∧ dom own ⊆ X.

(** The page of a virtual address, 27 bits, and its 2 MiB region. *)
Definition vpage (vaddr : VirtAddr) : Z := Z.land (Z.shiftr vaddr 12) (Z.ones 27).
Definition vregion (vaddr : VirtAddr) : Z := Z.land (Z.shiftr vaddr 21) (Z.ones 18).
Definition path (vaddr : VirtAddr) : list nat := [vpn vaddr 2; vpn vaddr 1; vpn vaddr 0].

Lemma vpn_lt (va : Z) (l : nat) : vpn va l < PT_ENTRIES.
Proof.
  unfold vpn, PT_ENTRIES. change 0x1FF%Z with (Z.ones 9). rewrite Z.land_ones by lia.
  pose proof (Z.mod_pos_bound (Z.shiftr va (12 + 9 * Z.of_nat l)) (2 ^ 9) ltac:(lia)). lia.
Qed.

Lemma vpns_lt (va : Z) (ls : list nat) : Forall (λ i, i < PT_ENTRIES) (vpn va <$> ls).
Proof. apply Forall_fmap, Forall_forall. intros l _. apply vpn_lt. Qed.

Lemma vpn_Z (va : Z) (l : nat) : Z.of_nat (vpn va l) = Z.land (Z.shiftr va (12 + 9 * Z.of_nat l)) (Z.ones 9).
Proof.
  unfold vpn. change 0x1FF%Z with (Z.ones 9). rewrite Z2Nat.id; [done|].
  rewrite Z.land_ones by lia. apply Z.mod_pos_bound. lia.
Qed.

(** The indices are the digits of the page number. *)
Lemma vpage_digits (va : Z) : vpage va = (Z.of_nat (vpn va 2) * 2 ^ 18 + Z.of_nat (vpn va 1) * 2 ^ 9 + Z.of_nat (vpn va 0))%Z.
Proof.
  unfold vpage. rewrite !vpn_Z, !Z.land_ones, !Z.shiftr_div_pow2 by lia. cbn [Z.of_nat].
  change (12 + 9 * Z.pos 2)%Z with 30%Z. change (12 + 9 * Z.pos (Pos.of_succ_nat 0))%Z with 21%Z.
  change (12 + 9 * Z.pos (Pos.of_succ_nat 1))%Z with 30%Z. change (12 + 9 * 0)%Z with 12%Z.
  change (2 ^ 12)%Z with 4096%Z. change (2 ^ 21)%Z with 2097152%Z. change (2 ^ 30)%Z with 1073741824%Z.
  change (2 ^ 27)%Z with 134217728%Z. change (2 ^ 18)%Z with 262144%Z. change (2 ^ 9)%Z with 512%Z. divmod.
Qed.

Lemma vregion_digits (va : Z) : vregion va = (Z.of_nat (vpn va 2) * 2 ^ 9 + Z.of_nat (vpn va 1))%Z.
Proof.
  unfold vregion. rewrite !vpn_Z, !Z.land_ones, !Z.shiftr_div_pow2 by lia. cbn [Z.of_nat].
  change (12 + 9 * Z.pos (Pos.of_succ_nat 0))%Z with 21%Z.
  change (12 + 9 * Z.pos (Pos.of_succ_nat 1))%Z with 30%Z.
  change (2 ^ 21)%Z with 2097152%Z. change (2 ^ 30)%Z with 1073741824%Z.
  change (2 ^ 18)%Z with 262144%Z. change (2 ^ 9)%Z with 512%Z. divmod.
Qed.

Lemma path_vpage (va va' : Z) : path va' = path va ↔ vpage va' = vpage va.
Proof.
  rewrite !vpage_digits. pose proof (vpn_lt va 0). pose proof (vpn_lt va 1). pose proof (vpn_lt va 2).
  pose proof (vpn_lt va' 0). pose proof (vpn_lt va' 1). pose proof (vpn_lt va' 2). unfold PT_ENTRIES in *.
  change (2 ^ 18)%Z with 262144%Z. change (2 ^ 9)%Z with 512%Z. unfold path. split; [intros [= -> -> ->]; done|].
  intros Heq. assert (vpn va' 2 = vpn va 2) as -> by lia. assert (vpn va' 1 = vpn va 1) as -> by lia.
  assert (vpn va' 0 = vpn va 0) as -> by lia. done.
Qed.

Lemma path_vregion (va va' : Z) : (∃ i, path va' = [vpn va 2; vpn va 1; i]) ↔ vregion va' = vregion va.
Proof.
  rewrite !vregion_digits. pose proof (vpn_lt va 1). pose proof (vpn_lt va 2).
  pose proof (vpn_lt va' 1). pose proof (vpn_lt va' 2). unfold PT_ENTRIES in *.
  change (2 ^ 9)%Z with 512%Z. unfold path. split; [intros [i [= -> -> _]]; done|].
  intros Heq. assert (vpn va' 2 = vpn va 2) as -> by lia. assert (vpn va' 1 = vpn va 1) as -> by lia. by eexists.
Qed.

Lemma translate_lookup (m : pmem) (own : gmap Z (list nat)) (root : PhysAddr) (va : VirtAddr) :
  pt_wf PT_ENTRIES PPN_MASK 64 LEVELS m own root →
  translate m root va = Done (match pt_lookup PPN_MASK 64 m root (path va) with
    | None => None
    | Some (O, e) => Some (Z.lor (Z.shiftl (ppn PPN_MASK e) PAGE_SHIFT) (Z.land va 0xFFF))
    | Some (S n, e) => Some (translate_leaf e (S n) va)
    end).
Proof.
  intros Hwf. unfold translate. rewrite (translate_at_spec PT_ENTRIES PPN_MASK 64 LEVELS _ _ m own root _ _ Hwf).
  - unfold path. cbn [app]. by destruct (pt_lookup PPN_MASK 64 m root _) as [[[|n] e]|].
  - done.
  - apply (vpns_lt va [2; 1]).
  - apply vpn_lt.
Qed.


Lemma mask_ones : PPN_MASK = Z.ones 44.
Proof. done. Qed.

Section maps.
Context `{!PageSource A, !PageSourceLaws A PPN_MASK 64}.

Lemma table_new (m : pmem) (a : A) (root : PhysAddr) (X : gset Z) :
  m !! root = Some (zero_table PT_ENTRIES) → ps_inv (mask := PPN_MASK) (usize_bits := 64) a X → root ∈ X → table_wf m a root.
Proof.
  intros Hm Ha HX. exists {[root := []]}, X.
  split_and!; [apply root_wf; [unfold LEVELS; lia|done]|done|rewrite dom_singleton_L; set_solver].
Qed.

Lemma translate_new (m : pmem) (a : A) (root : PhysAddr) (X : gset Z) (va : VirtAddr) :
  m !! root = Some (zero_table PT_ENTRIES) → ps_inv (mask := PPN_MASK) (usize_bits := 64) a X → root ∈ X →
  translate m root va = Done None.
Proof.
  intros Hm Ha HX. destruct (table_new m a root X Hm Ha HX) as (own&X'&Hwf&_). rewrite (translate_lookup m own root va Hwf).
  by rewrite (lookup_zero_table PT_ENTRIES).
Qed.

Lemma aligned_mod (a k : Z) : is_aligned a k = true → (a `mod` k = 0)%Z.
Proof. apply is_aligned_true. Qed.

Lemma map_page_lem (m : pmem) (a : A) (root : PhysAddr) (vaddr : VirtAddr) (paddr : PhysAddr) (perms : Z) :
  table_wf m a root → in_width 56 paddr → is_aligned vaddr PAGE_SIZE = true → is_aligned paddr PAGE_SIZE = true →
  ∃ r m' a', map_page m a root vaddr paddr perms = Done (r, m', a') ∧ table_wf m' a' root
  ∧ match r with
    | inr _ => translate m root vaddr = Done None ∧ ∀ va, translate m' root va =
        if bool_decide (vpage va = vpage vaddr) then Done (Some (paddr + va `mod` 2 ^ 12)%Z) else translate m root va
    | inl err => (err = OutOfMemory ∨ (err = AlreadyMapped ∧ translate m root vaddr ≠ Done None))
                 ∧ ∀ va, translate m' root va = translate m root va
    end.
Proof.
  intros (own&X&Hwf&Ha&Hd) Hw Hva Hpa. unfold map_page. rewrite Hva, Hpa. cbn [negb orb].
  destruct (bits_range perms) as [Hb Hbv].
  destruct (map_page_at_spec PT_ENTRIES PPN_MASK 64 LEVELS m a own X root [vpn vaddr 2; vpn vaddr 1] (vpn vaddr 0) (perms_to_pte_bits perms) paddr
              Hwf eq_refl (vpns_lt vaddr [2; 1]) (vpn_lt _ _) Ha Hd Hbv) as (r&m'&a'&own'&X'&Heq&Hwf'&Ha'&Hd'&_&Hr).
  change ([vpn vaddr 2; vpn vaddr 1] ++ [vpn vaddr 0]) with (path vaddr) in Hr.
  exists r, m', a'. split; [done|]. split; [by exists own', X'|]. rewrite (translate_lookup m own root _ Hwf).
  destruct r as [err|u]; destruct Hr as [Hr Hvs].
  - split.
    + destruct Hr as [->|[-> Hr]]; [by left|right]. split; [done|]. by destruct (pt_lookup _ _ m root _) as [[[|n] e]|].
    + intros va. rewrite (translate_lookup m own root _ Hwf), (translate_lookup m' own' root _ Hwf'). by rewrite Hvs.
  - rewrite Hr. split; [done|]. intros va.
    rewrite (translate_lookup m own root _ Hwf), (translate_lookup m' own' root _ Hwf'), Hvs by done.
    rewrite (bool_decide_ext _ _ (symmetry (path_vpage vaddr va))).
    case_decide as Hp; [rewrite bool_decide_true by done|by rewrite bool_decide_false by done].
    rewrite <- (frame_join 44 PPN_MASK (perms_to_pte_bits perms) paddr va 12); [done|lia|done|done|done|lia|]. by apply aligned_mod.
Qed.

Lemma map_superpage_lem (m : pmem) (a : A) (root : PhysAddr) (vaddr : VirtAddr) (paddr : PhysAddr) (perms : Z) :
  table_wf m a root → in_width 56 paddr → is_aligned vaddr SUPERPAGE_SIZE = true → is_aligned paddr SUPERPAGE_SIZE = true →
  contains perms PERM_READ || contains perms PERM_WRITE || contains perms PERM_EXECUTE = true →
  ∃ r m' a', map_superpage m a root vaddr paddr SUPERPAGE_SIZE perms = Done (r, m', a') ∧ table_wf m' a' root
  ∧ match r with
    | inr _ => ∀ va, translate m' root va =
        if bool_decide (vregion va = vregion vaddr) then Done (Some (paddr + va `mod` 2 ^ 21)%Z) else translate m root va
    | inl err => (err = OutOfMemory ∨ err = AlreadyMapped) ∧ ∀ va, translate m' root va = translate m root va
    end.
Proof.
  intros (own&X&Hwf&Ha&Hd) Hw Hva Hpa Hperm. unfold map_superpage. rewrite Z.eqb_refl, Hva, Hpa. cbn [negb orb].
  destruct (bits_range perms) as [Hb Hbv].
  destruct (map_at_spec PT_ENTRIES PPN_MASK 64 LEVELS m a own X root [vpn vaddr 2] (vpn vaddr 1) (perms_to_pte_bits perms) paddr
              Hwf ltac:(cbn; unfold LEVELS; lia) (vpns_lt vaddr [2]) (vpn_lt _ _) Ha Hd Hbv ltac:(right; by apply bits_leaf))
    as (r&m'&a'&own'&X'&Heq&Hwf'&Ha'&Hd'&_&Hsame&Hr).
  exists r, m', a'. split; [done|]. split; [by exists own', X'|]. destruct r as [err|u].
  - destruct Hr as (Hall&Herr&_). split; [done|].
    intros va. rewrite (translate_lookup m own root _ Hwf), (translate_lookup m' own' root _ Hwf'). by rewrite Hall.
  - intros va. rewrite (translate_lookup m own root _ Hwf), (translate_lookup m' own' root _ Hwf'). case_bool_decide as Hp.
    + apply path_vregion in Hp as [i Hi]. rewrite Hi. destruct (Hr [i] eq_refl) as [_ Hsome]. cbn [app length] in Hsome.
      rewrite Hsome. f_equal. f_equal. unfold translate_leaf.
      rewrite <- (frame_join 44 PPN_MASK (perms_to_pte_bits perms) paddr va 21); [done|lia|done|done|done|lia|]. by apply aligned_mod.
    + rewrite Hsame; [done|done|]. intros rest Hpth. apply Hp, path_vregion.
      destruct rest as [|j [|? rest]]; cbn [app] in Hpth; try (apply (f_equal length) in Hpth; cbn in Hpth; lia). by exists j.
Qed.

Lemma unmap_page_lem (m : pmem) (a : A) (root : PhysAddr) (vaddr : VirtAddr) :
  table_wf m a root → is_aligned vaddr PAGE_SIZE = true →
  ∃ r m', unmap_page m root vaddr = Done (r, m') ∧ table_wf m' a root
  ∧ match r with
    | inr pa => translate m root vaddr = Done (Some pa)
        ∧ ∀ va, translate m' root va = if bool_decide (vpage va = vpage vaddr) then Done None else translate m root va
    | inl NotMapped => translate m root vaddr = Done None ∧ m' = m
    | inl InvalidRegion => translate m root vaddr ≠ Done None ∧ m' = m
    | inl _ => False
    end.
Proof.
  intros (own&X&Hwf&Ha&Hd) Hva. unfold unmap_page. rewrite Hva. cbn [negb].
  destruct (unmap_at_spec PT_ENTRIES PPN_MASK 64 LEVELS true m own root [vpn vaddr 2; vpn vaddr 1] (vpn vaddr 0)
              Hwf eq_refl (vpns_lt vaddr [2; 1]) (vpn_lt _ _) ltac:(by left)) as (r&m'&Heq&Hwf'&Hr).
  exists r, m'. split; [done|]. split; [by exists own, X|].
  rewrite (translate_lookup m own root vaddr Hwf). unfold path. cbn [app] in Hr.
  destruct r as [[]|pa]; try done.
  - destruct Hr as [-> ->]. done.
  - destruct Hr as (->&n&e&->). done.
  - destruct Hr as [(e&Hl&->) Hvs]. rewrite Hl. split.
    + unfold child. rewrite wrap_small.
      * do 2 f_equal. apply aligned_mod in Hva. change 0xFFF%Z with (Z.ones 12). rewrite Z.land_ones by lia.
        change (2 ^ 12)%Z with PAGE_SIZE. by rewrite Hva, Z.lor_0_r.
      * unfold ppn, PAGE_SHIFT. rewrite mask_ones, Z.land_ones, Z.shiftl_mul_pow2 by lia.
        pose proof (Z.mod_pos_bound (Z.shiftr e 10) (2 ^ 44) ltac:(lia)). unfold in_width.
        change (2 ^ 64)%Z with (2 ^ 44 * 2 ^ 12 * 2 ^ 8)%Z. nia.
    + intros va. rewrite (translate_lookup m own root va Hwf), (translate_lookup m' own root va Hwf').
      rewrite Hvs by done. case_decide as Hp; case_bool_decide as Hq; try done.
      * destruct Hq. by apply path_vpage.
      * destruct Hp. by apply path_vpage.
Qed.
End maps.
