(* ===== verification/Sv32.v ===== *)
(** * Sv32 page tables, [arch/src/riscv/sv32.rs]

    Two levels of 1024 entries of 32 bits, on a 32-bit [usize]: the physical
    address of a page number above 2^20 loses its high bits, so the theorems
    are about physical addresses of 32 bits.  There are no superpages: a leaf
    at the upper level does not translate, and [unmap_page] does not look for
    one. *)

From S2P Require Export Prelude.
From S2P Require Export Paging.

Module Sv32.

Definition LEVELS : nat := 2.
Definition PT_ENTRIES : nat := 1024.
Definition PPN_MASK : Z := 0x3fffff.

Definition vpn (vaddr : VirtAddr) (level : nat) : nat :=
  Z.to_nat (Z.land (Z.shiftr vaddr (12 + 10 * Z.of_nat level)) 0x3ff).

Definition satp_value (root : PhysAddr) : Z :=
  Z.lor (Z.shiftl 1 31) (Z.land (Z.shiftr root PAGE_SHIFT) PPN_MASK).

Definition map_page `{!PageSource A} (m : pmem) (a : A) (root : PhysAddr) (vaddr : VirtAddr) (paddr : PhysAddr) (perms : Z)
    : exec ((MmError + unit) * pmem * A) :=
  if negb (is_aligned vaddr PAGE_SIZE) || negb (is_aligned paddr PAGE_SIZE) then Done (inl InvalidAlignment, m, a) else
  map_at PT_ENTRIES PPN_MASK 32 m a root [vpn vaddr 1] (vpn vaddr 0) (perms_to_pte_bits perms) paddr.

Definition unmap_page (m : pmem) (root : PhysAddr) (vaddr : VirtAddr) : exec ((MmError + PhysAddr) * pmem) :=
  if negb (is_aligned vaddr PAGE_SIZE) then Done (inl InvalidAlignment, m) else
  unmap_at PPN_MASK 32 false m root [vpn vaddr 1] (vpn vaddr 0).

Definition translate (m : pmem) (root : PhysAddr) (vaddr : VirtAddr) : exec (option PhysAddr) :=
  translate_at PPN_MASK 32 (λ _ _, None) (λ e, Z.lor (child PPN_MASK 32 e) (Z.land vaddr (PAGE_SIZE - 1)))
    m root [vpn vaddr 1] (vpn vaddr 0).

(** ** Lemmas *)

Definition path (vaddr : VirtAddr) : list nat := [vpn vaddr 1; vpn vaddr 0].
Definition vpage (vaddr : VirtAddr) : Z := Z.land (Z.shiftr vaddr 12) (Z.ones 20).

Definition table_wf `{!PageSource A, !PageSourceLaws A PPN_MASK 32} (m : pmem) (a : A) (root : PhysAddr) : Prop :=
  ∃ own X, pt_wf PT_ENTRIES PPN_MASK 32 LEVELS m own root ∧ ps_inv (mask := PPN_MASK) (usize_bits := 32) a X ∧ dom own ⊆ X
    ∧ small_pages PPN_MASK 32 LEVELS m root.

Lemma sv32_vpn_lt (va : Z) (l : nat) : vpn va l < PT_ENTRIES.
Proof.
  unfold vpn, PT_ENTRIES. change 0x3ff%Z with (Z.ones 10). rewrite Z.land_ones by lia.
  pose proof (Z.mod_pos_bound (Z.shiftr va (12 + 10 * Z.of_nat l)) (2 ^ 10) ltac:(lia)). lia.
Qed.

Lemma sv32_vpns_lt (va : Z) (ls : list nat) : Forall (λ i, i < PT_ENTRIES) (vpn va <$> ls).
Proof. apply Forall_fmap, Forall_forall. intros l _. apply sv32_vpn_lt. Qed.

Lemma sv32_vpn_Z (va : Z) (l : nat) : Z.of_nat (vpn va l) = ((va / 2 ^ (12 + 10 * Z.of_nat l)) `mod` 1024)%Z.
Proof.
  unfold vpn. change 0x3ff%Z with (Z.ones 10). rewrite Z.land_ones, Z.shiftr_div_pow2 by lia.
  change (2 ^ 10)%Z with 1024%Z. rewrite Z2Nat.id; [done|]. apply Z.mod_pos_bound. lia.
Qed.

Lemma sv32_path_vpage (va va' : Z) : path va' = path va ↔ vpage va' = vpage va.
Proof.
  assert (Hd : ∀ v, vpage v = (Z.of_nat (vpn v 1) * 1024 + Z.of_nat (vpn v 0))%Z).
  { intros v. unfold vpage. rewrite !sv32_vpn_Z, Z.land_ones, Z.shiftr_div_pow2 by lia.
    change (2 ^ (12 + 10 * Z.of_nat 1))%Z with 4194304%Z. change (2 ^ (12 + 10 * Z.of_nat 0))%Z with 4096%Z.
    change (2 ^ 12)%Z with 4096%Z. change (2 ^ 20)%Z with 1048576%Z. divmod. }
  rewrite !Hd. pose proof (sv32_vpn_lt va 0). pose proof (sv32_vpn_lt va' 0). unfold PT_ENTRIES, path in *.
  split; [intros [= -> ->]; done|]. intros Heq.
  assert (vpn va' 1 = vpn va 1) as -> by lia. by assert (vpn va' 0 = vpn va 0) as -> by lia.
Qed.

Lemma sv32_translate_lookup (m : pmem) (own : gmap Z (list nat)) (root : PhysAddr) (va : VirtAddr) :
  pt_wf PT_ENTRIES PPN_MASK 32 LEVELS m own root → small_pages PPN_MASK 32 LEVELS m root →
  translate m root va = Done ((λ ne, Z.lor (child PPN_MASK 32 ne.2) (Z.land va (PAGE_SIZE - 1))) <$> pt_lookup PPN_MASK 32 m root (path va)).
Proof.
  intros Hwf Hs. unfold translate.
  rewrite (translate_at_spec PT_ENTRIES PPN_MASK 32 LEVELS _ _ m own root [vpn va 1] (vpn va 0) Hwf eq_refl (sv32_vpns_lt va [1]) (sv32_vpn_lt _ _)).
  cbn [app]. fold (path va). destruct (pt_lookup PPN_MASK 32 m root (path va)) as [[n e]|] eqn:E; [|done].
  by apply Hs in E as ->.
Qed.

Lemma child_join (bits pa off : Z) : (0 <= bits < 1024)%Z → in_width 32 pa → is_aligned pa PAGE_SIZE = true →
  Z.lor (child PPN_MASK 32 (pte PPN_MASK bits pa)) (Z.land off (PAGE_SIZE - 1)) = (pa + off `mod` 2 ^ 12)%Z.
Proof.
  intros Hb Hw Hal%is_aligned_true.
  rewrite <- (frame_join 22 PPN_MASK bits pa off 12); [|lia|done|done|unfold in_width in *; lia|lia|done].
  unfold child. f_equal.
  assert (Hf : Z.shiftl (ppn PPN_MASK (pte PPN_MASK bits pa)) PAGE_SHIFT = pa).
  { pose proof (frame_join 22 PPN_MASK bits pa 0 12) as Hj. rewrite Z.land_0_l, Z.lor_0_r in Hj.
    rewrite Hj; [change (0 `mod` 2 ^ 12)%Z with 0%Z; lia|lia|done|done|unfold in_width in *; lia|lia|done]. }
  rewrite Hf. by apply wrap_small.
Qed.

Section maps.
Context `{!PageSource A, !PageSourceLaws A PPN_MASK 32}.

Lemma sv32_table_new (m : pmem) (a : A) (root : PhysAddr) (X : gset Z) :
  m !! root = Some (zero_table PT_ENTRIES) → ps_inv (mask := PPN_MASK) (usize_bits := 32) a X → root ∈ X → table_wf m a root.
Proof.
  intros Hm Ha HX. exists {[root := []]}, X. split_and!; [apply root_wf; [unfold LEVELS; lia|done]|done|rewrite dom_singleton_L; set_solver|].
  intros vs n e _ Hl. by rewrite (lookup_zero_table PT_ENTRIES) in Hl.
Qed.

Lemma sv32_translate_new (m : pmem) (a : A) (root : PhysAddr) (X : gset Z) (va : VirtAddr) :
  m !! root = Some (zero_table PT_ENTRIES) → ps_inv (mask := PPN_MASK) (usize_bits := 32) a X → root ∈ X →
  translate m root va = Done None.
Proof.
  intros Hm Ha HX. destruct (sv32_table_new m a root X Hm Ha HX) as (own&X'&Hwf&_&_&Hs). rewrite (sv32_translate_lookup m own root va Hwf Hs).
  by rewrite (lookup_zero_table PT_ENTRIES).
Qed.

Lemma sv32_map_page_lem (m : pmem) (a : A) (root : PhysAddr) (vaddr : VirtAddr) (paddr : PhysAddr) (perms : Z) :
  table_wf m a root → in_width 32 paddr → is_aligned vaddr PAGE_SIZE = true → is_aligned paddr PAGE_SIZE = true →
  ∃ r m' a', map_page m a root vaddr paddr perms = Done (r, m', a') ∧ table_wf m' a' root
  ∧ match r with
    | inr _ => translate m root vaddr = Done None ∧ ∀ va, translate m' root va =
        if bool_decide (vpage va = vpage vaddr) then Done (Some (paddr + va `mod` 2 ^ 12)%Z) else translate m root va
    | inl err => (err = OutOfMemory ∨ (err = AlreadyMapped ∧ translate m root vaddr ≠ Done None))
                 ∧ ∀ va, translate m' root va = translate m root va
    end.
Proof.
  intros (own&X&Hwf&Ha&Hd&Hs) Hw Hva Hpa. unfold map_page. rewrite Hva, Hpa. cbn [negb orb].
  destruct (bits_range perms) as [Hb Hbv].
  destruct (map_page_at_spec PT_ENTRIES PPN_MASK 32 LEVELS m a own X root [vpn vaddr 1] (vpn vaddr 0) (perms_to_pte_bits perms) paddr
              Hwf eq_refl (sv32_vpns_lt vaddr [1]) (sv32_vpn_lt _ _) Ha Hd Hbv) as (r&m'&a'&own'&X'&Heq&Hwf'&Ha'&Hd'&Hs'&Hr).
  change ([vpn vaddr 1] ++ [vpn vaddr 0]) with (path vaddr) in Hr. specialize (Hs' Hs).
  exists r, m', a'. split; [done|]. split; [by exists own', X'|]. rewrite (sv32_translate_lookup m own root _ Hwf Hs).
  destruct r as [err|u]; destruct Hr as [Hr Hvs].
  - split.
    + destruct Hr as [->|[-> Hr]]; [by left|right]. split; [done|]. by destruct (pt_lookup _ _ m root _).
    + intros va. rewrite (sv32_translate_lookup m own root _ Hwf Hs), (sv32_translate_lookup m' own' root _ Hwf' Hs'). by rewrite Hvs.
  - rewrite Hr. split; [done|]. intros va.
    rewrite (sv32_translate_lookup m own root _ Hwf Hs), (sv32_translate_lookup m' own' root _ Hwf' Hs'), Hvs by done.
    rewrite (bool_decide_ext _ _ (symmetry (sv32_path_vpage vaddr va))).
    case_decide as Hp; [rewrite bool_decide_true by done|by rewrite bool_decide_false by done].
    cbn [fmap option_fmap option_map snd]. by rewrite child_join.
Qed.

Lemma sv32_unmap_page_lem (m : pmem) (a : A) (root : PhysAddr) (vaddr : VirtAddr) :
  table_wf m a root → is_aligned vaddr PAGE_SIZE = true →
  ∃ r m', unmap_page m root vaddr = Done (r, m') ∧ table_wf m' a root
  ∧ match r with
    | inr pa => translate m root vaddr = Done (Some pa)
        ∧ ∀ va, translate m' root va = if bool_decide (vpage va = vpage vaddr) then Done None else translate m root va
    | inl NotMapped => translate m root vaddr = Done None ∧ m' = m
    | inl _ => False
    end.
Proof.
  intros (own&X&Hwf&Ha&Hd&Hs) Hva. unfold unmap_page. rewrite Hva. cbn [negb].
  destruct (unmap_at_spec PT_ENTRIES PPN_MASK 32 LEVELS false m own root [vpn vaddr 1] (vpn vaddr 0)
              Hwf eq_refl (sv32_vpns_lt vaddr [1]) (sv32_vpn_lt _ _) ltac:(by right)) as (r&m'&Heq&Hwf'&Hr).
  exists r, m'. split; [done|]. change ([vpn vaddr 1] ++ [vpn vaddr 0]) with (path vaddr) in *.
  rewrite (sv32_translate_lookup m own root vaddr Hwf Hs). destruct r as [[]|pa]; try done.
  - destruct Hr as [-> ->]. by split; [exists own, X|].
  - destruct Hr as (->&n&e&Hl). by apply Hs in Hl.
  - destruct Hr as [(e&Hl&->) Hvs]. rewrite Hl.
    assert (Hs' : small_pages PPN_MASK 32 LEVELS m' root).
    { intros vs n e' Hlen. rewrite Hvs by done. case_decide; [done|]. by apply Hs. }
    split; [by exists own, X|]. split.
    + cbn. do 2 f_equal. apply is_aligned_true in Hva. change (PAGE_SIZE - 1)%Z with (Z.ones 12). rewrite Z.land_ones by lia.
      change (2 ^ 12)%Z with PAGE_SIZE. by rewrite Hva, Z.lor_0_r.
    + intros va. rewrite (sv32_translate_lookup m own root va Hwf Hs), (sv32_translate_lookup m' own root va Hwf' Hs').
      rewrite Hvs by done. case_decide as Hp; case_bool_decide as Hq; try done.
      * destruct Hq. by apply sv32_path_vpage.
      * destruct Hp. by apply sv32_path_vpage.
Qed.
End maps.
End Sv32.
