(* ===== verification/GStage.v ===== *)
(** * G-stage page tables of the hypervisor, [arch/src/riscv/hypervisor/gstage.rs]

    Guest physical to host physical addresses, Sv39x4: the index of the root
    has 11 bits, but the root table is declared with 512 entries, so that an
    address of 2^39 or more is an index out of bounds.  Below 2^39 the table
    is an Sv39 one without superpages. *)

From S2P Require Export Prelude.
From S2P Require Export Sv39.

Module GStage.

Definition GST_LEVELS : nat := 3.

(** [vpn[level]]: 9 bits, 11 for the root. *)
Definition vpn (addr : Z) (level : nat) : nat :=
  Z.to_nat (Z.land (Z.shiftr addr (12 + 9 * Z.of_nat level)) (if level =? 2 then 0x7FF else 0x1FF)).

Definition hgatp_value (root : PhysAddr) : Z :=
  Z.lor (Z.shiftl 8 60) (Z.land (Z.shiftr root PAGE_SHIFT) PPN_MASK).

Section ops.
Context `{!PageSource A}.

Definition map_page (m : pmem) (a : A) (root : PhysAddr) (gpa hpa : PhysAddr) (perms : Z)
    : exec ((MmError + unit) * pmem * A) :=
  if negb (is_aligned gpa PAGE_SIZE) || negb (is_aligned hpa PAGE_SIZE) then Done (inl InvalidAlignment, m, a) else
  map_at PT_ENTRIES PPN_MASK 64 m a root [vpn gpa 2; vpn gpa 1] (vpn gpa 0) (perms_to_pte_bits perms) hpa.

(** The loop of [map_region] over the given page numbers. *)
Fixpoint map_pages (m : pmem) (a : A) (root : PhysAddr) (gpa_base hpa_base : PhysAddr) (perms : Z) (pages : list nat)
    : exec ((MmError + unit) * pmem * A) :=
  match pages with
  | [] => Done (inr (), m, a)
  | i :: pages =>
      gpa ← addr_add gpa_base (Z.of_nat i * PAGE_SIZE);
      hpa ← addr_add hpa_base (Z.of_nat i * PAGE_SIZE);
      '(r, m, a) ← map_page m a root gpa hpa perms;
      match r with
      | inl err => Done (inl err, m, a)
      | inr _ => map_pages m a root gpa_base hpa_base perms pages
      end
  end.

Definition map_region (m : pmem) (a : A) (root : PhysAddr) (gpa_base hpa_base : PhysAddr) (size perms : Z)
    : exec ((MmError + unit) * pmem * A) :=
  s ← add_w 64 size PAGE_SIZE;
  let pages := Z.to_nat ((s - 1) / PAGE_SIZE) in
  map_pages m a root gpa_base hpa_base perms (seq 0 pages).
End ops.

Definition translate (m : pmem) (root : PhysAddr) (gpa : PhysAddr) : exec (option PhysAddr) :=
  translate_at PPN_MASK 64 (λ _ _, None) (λ e, Z.lor (Z.shiftl (ppn PPN_MASK e) PAGE_SHIFT) (Z.land gpa 0xFFF))
    m root [vpn gpa 2; vpn gpa 1] (vpn gpa 0).

(** ** Lemmas *)

Definition in_gpa (gpa : Z) : Prop := (0 <= gpa < 2 ^ 39)%Z.

Lemma vpn_sv39 (gpa : Z) (level : nat) : in_gpa gpa → vpn gpa level = Sv39.vpn gpa level.
Proof.
  intros [H1 H2]. unfold vpn, Sv39.vpn. destruct (Nat.eqb_spec level 2) as [->|]; [|done]. f_equal.
  change 0x7FF%Z with (Z.ones 11). change 0x1FF%Z with (Z.ones 9). change (12 + 9 * Z.of_nat 2)%Z with 30%Z.
  rewrite !Z.land_ones, Z.shiftr_div_pow2 by lia.
  assert (0 <= gpa / 2 ^ 30 < 512)%Z by (split; [apply Z.div_pos; lia|apply Z.div_lt_upper_bound; lia]).
  rewrite !Z.mod_small; lia.
Qed.

Definition table_wf `{!PageSource A, !PageSourceLaws A PPN_MASK 64} (m : pmem) (a : A) (root : PhysAddr) : Prop :=
  ∃ own X, pt_wf PT_ENTRIES PPN_MASK 64 LEVELS m own root ∧ ps_inv (mask := PPN_MASK) (usize_bits := 64) a X ∧ dom own ⊆ X
    ∧ small_pages PPN_MASK 64 LEVELS m root.

Lemma gst_translate_lookup (m : pmem) (own : gmap Z (list nat)) (root gpa : PhysAddr) :
  pt_wf PT_ENTRIES PPN_MASK 64 LEVELS m own root → small_pages PPN_MASK 64 LEVELS m root → in_gpa gpa →
  translate m root gpa = Done ((λ ne, Z.lor (Z.shiftl (ppn PPN_MASK ne.2) PAGE_SHIFT) (Z.land gpa 0xFFF))
                               <$> pt_lookup PPN_MASK 64 m root (path gpa)).
Proof.
  intros Hwf Hs Hg. unfold translate. rewrite !vpn_sv39 by done.
  rewrite (translate_at_spec PT_ENTRIES PPN_MASK 64 LEVELS _ _ m own root [Sv39.vpn gpa 2; Sv39.vpn gpa 1] (Sv39.vpn gpa 0) Hwf eq_refl
             (vpns_lt gpa [2; 1]) (vpn_lt _ _)).
  cbn [app]. fold (path gpa). destruct (pt_lookup PPN_MASK 64 m root (path gpa)) as [[n e]|] eqn:E; [|done].
  by apply Hs in E as ->.
Qed.

Lemma root_out_of_bounds (m : pmem) (root gpa : PhysAddr) (es : list Z) : m !! root = Some es → length es = PT_ENTRIES →
  (2 ^ 39 <= gpa < 2 ^ 41)%Z → translate m root gpa = Stuck.
Proof.
  intros Hm Hlen Hg. unfold translate, translate_at. cbn [translate_walk]. unfold read_entry. rewrite Hm.
  cbn [get_exec mbind exec_bind]. rewrite lookup_ge_None_2; [done|]. rewrite Hlen. unfold vpn, PT_ENTRIES.
  change 0x7FF%Z with (Z.ones 11). change (2 =? 2) with true. cbv iota. change (12 + 9 * Z.of_nat 2)%Z with 30%Z.
  rewrite Z.land_ones, Z.shiftr_div_pow2 by lia.
  assert (512 <= gpa / 2 ^ 30 < 2048)%Z by (split; [apply Z.div_le_lower_bound; lia|apply Z.div_lt_upper_bound; lia]).
  rewrite Z.mod_small by lia. lia.
Qed.

Lemma vpage_small (gpa : Z) : in_gpa gpa → vpage gpa = (gpa / PAGE_SIZE)%Z.
Proof.
  intros Hg. unfold vpage, in_gpa, PAGE_SIZE in *. rewrite Z.land_ones, Z.shiftr_div_pow2 by lia.
  change (2 ^ 12)%Z with 4096%Z. apply Z.mod_small. change (2 ^ 27)%Z with 134217728%Z. change (2 ^ 39)%Z with 549755813888%Z in Hg. divmod.
Qed.

Section maps.
Context `{!PageSource A, !PageSourceLaws A PPN_MASK 64}.

Lemma gst_table_new (m : pmem) (a : A) (root : PhysAddr) (X : gset Z) :
  m !! root = Some (zero_table PT_ENTRIES) → ps_inv (mask := PPN_MASK) (usize_bits := 64) a X → root ∈ X → table_wf m a root.
Proof.
  intros Hm Ha HX. exists {[root := []]}, X. split_and!; [apply root_wf; [unfold LEVELS; lia|done]|done|rewrite dom_singleton_L; set_solver|].
  intros vs n e _ Hl. by rewrite (lookup_zero_table PT_ENTRIES) in Hl.
Qed.

Lemma gst_map_page_lem (m : pmem) (a : A) (root gpa hpa : PhysAddr) (perms : Z) :
  table_wf m a root → in_gpa gpa → in_width 56 hpa → is_aligned gpa PAGE_SIZE = true → is_aligned hpa PAGE_SIZE = true →
  ∃ r m' a', map_page m a root gpa hpa perms = Done (r, m', a') ∧ table_wf m' a' root
  ∧ match r with
    | inr _ => translate m root gpa = Done None ∧ ∀ g, in_gpa g → translate m' root g =
        if bool_decide (g / PAGE_SIZE = gpa / PAGE_SIZE)%Z then Done (Some (hpa + g `mod` PAGE_SIZE)%Z) else translate m root g
    | inl err => (err = OutOfMemory ∨ (err = AlreadyMapped ∧ translate m root gpa ≠ Done None))
                 ∧ ∀ g, in_gpa g → translate m' root g = translate m root g
    end.
Proof.
  intros (own&X&Hwf&Ha&Hd&Hs) Hg Hw Hva Hpa. unfold map_page. rewrite Hva, Hpa. cbn [negb orb]. rewrite !vpn_sv39 by done.
  destruct (bits_range perms) as [Hb Hbv].
  destruct (map_page_at_spec PT_ENTRIES PPN_MASK 64 LEVELS m a own X root [Sv39.vpn gpa 2; Sv39.vpn gpa 1] (Sv39.vpn gpa 0) (perms_to_pte_bits perms) hpa
              Hwf eq_refl (vpns_lt gpa [2; 1]) (vpn_lt _ _) Ha Hd Hbv) as (r&m'&a'&own'&X'&Heq&Hwf'&Ha'&Hd'&Hs'&Hr).
  change ([Sv39.vpn gpa 2; Sv39.vpn gpa 1] ++ [Sv39.vpn gpa 0]) with (path gpa) in Hr. specialize (Hs' Hs).
  exists r, m', a'. split; [done|]. split; [by exists own', X'|]. rewrite (gst_translate_lookup m own root gpa Hwf Hs Hg).
  destruct r as [err|u]; destruct Hr as [Hr Hvs].
  - split.
    + destruct Hr as [->|[-> Hr]]; [by left|right]. split; [done|]. by destruct (pt_lookup _ _ m root _).
    + intros g Hgg. rewrite (gst_translate_lookup m own root g Hwf Hs Hgg), (gst_translate_lookup m' own' root g Hwf' Hs' Hgg). by rewrite Hvs.
  - rewrite Hr. split; [done|]. intros g Hgg.
    rewrite (gst_translate_lookup m own root g Hwf Hs Hgg), (gst_translate_lookup m' own' root g Hwf' Hs' Hgg), Hvs by done.
    rewrite <- !vpage_small by done. rewrite (bool_decide_ext _ _ (symmetry (path_vpage gpa g))).
    case_decide as Hp; [rewrite bool_decide_true by done|by rewrite bool_decide_false by done].
    cbn [fmap option_fmap option_map snd]. change PAGE_SIZE with (2 ^ 12)%Z.
    rewrite <- (frame_join 44 PPN_MASK (perms_to_pte_bits perms) hpa g 12); [done|lia|done|done|done|lia|]. by apply aligned_mod.
Qed.

(** The loop from page [i] on: what was mapped so far stays. *)
Lemma map_pages_lem (perms gpa_base hpa_base : Z) (root : PhysAddr) : is_aligned gpa_base PAGE_SIZE = true → is_aligned hpa_base PAGE_SIZE = true →
  ∀ n i m a, table_wf m a root → (0 <= gpa_base)%Z → (0 <= hpa_base)%Z →
  (gpa_base + Z.of_nat (i + n) * PAGE_SIZE <= 2 ^ 39)%Z → (hpa_base + Z.of_nat (i + n) * PAGE_SIZE <= 2 ^ 56)%Z →
  ∃ r m' a', map_pages m a root gpa_base hpa_base perms (seq i n) = Done (r, m', a') ∧ table_wf m' a' root
  ∧ match r with
    | inl err => err = OutOfMemory ∨ err = AlreadyMapped
    | inr _ => ∀ g, in_gpa g → translate m' root g =
        if bool_decide (gpa_base + Z.of_nat i * PAGE_SIZE <= g < gpa_base + Z.of_nat (i + n) * PAGE_SIZE)%Z
        then Done (Some (hpa_base + (g - gpa_base))%Z) else translate m root g
    end.
Proof.
  intros Hga Hha. induction n as [|n IH]; intros i m a Hwf Hg0 Hh0 Hg Hh.
  { exists (inr ()), m, a. split_and!; [done|done|]. intros g _. rewrite bool_decide_false; [done|]. rewrite Nat.add_0_r. lia. }
  cbn [seq map_pages]. unfold PAGE_SIZE in *. unfold addr_add. rewrite !add_w_Done by lia. cbn [mbind exec_bind].
  set (gpa := (gpa_base + Z.of_nat i * 4096)%Z). set (hpa := (hpa_base + Z.of_nat i * 4096)%Z).
  apply is_aligned_true in Hga, Hha.
  assert (Hgal : is_aligned gpa PAGE_SIZE = true) by (apply is_aligned_true; unfold gpa, PAGE_SIZE; divmod).
  assert (Hhal : is_aligned hpa PAGE_SIZE = true) by (apply is_aligned_true; unfold hpa, PAGE_SIZE; divmod).
  destruct (gst_map_page_lem m a root gpa hpa perms Hwf) as (r&m1&a1&Heq&Hwf1&Hr); [unfold in_gpa, gpa; lia|unfold in_width, hpa; lia|done|done|].
  rewrite Heq. cbn [mbind exec_bind]. destruct r as [err|u].
  { exists (inl err), m1, a1. split_and!; [done|done|]. destruct Hr as [[?|[? _]] _]; auto. }
  destruct Hr as [_ Hr]. destruct (IH (S i) m1 a1 Hwf1 Hg0 Hh0) as (r2&m2&a2&Heq2&Hwf2&Hr2); [lia|lia|].
  exists r2, m2, a2. split_and!; [done|done|]. destruct r2 as [err|u2]; [done|]. intros g Hgg.
  rewrite Hr2, Hr by done. unfold PAGE_SIZE, gpa, hpa.
  repeat case_bool_decide; try done; try (exfalso; divmod); try lia. f_equal. f_equal. divmod.
Qed.
End maps.
End GStage.
