(* ===== verification/IdentityMap.v ===== *)
(** * The identity map of the kernel, [platform/riscv-generic/src/mmu.rs]

    Generic in the page table: [RiscvPageTable] is the trait of
    [arch/src/riscv/mmu.rs] and [RiscvPageTableLaws] is what the identity map
    relies on, proved for the Sv39 table whose frames come from the frame
    allocator.  Addresses have the 64 bits of that architecture. *)

From S2P Require Export Prelude.
From S2P Require Export FrameAlloc.
From S2P Require Export Sv39.
From S2P Require Export Sv32.

(** ** The trait *)

Class RiscvPageTable := {
  rpt_entries : nat;
  rpt_satp_value : PhysAddr → Z;
  rpt_map_page : ∀ {A} `{!PageSource A}, pmem → A → PhysAddr → VirtAddr → PhysAddr → Z → exec ((MmError + unit) * pmem * A);
  rpt_max_superpage_size : Z;
  rpt_map_superpage : ∀ {A} `{!PageSource A}, pmem → A → PhysAddr → VirtAddr → PhysAddr → Z → Z → exec ((MmError + unit) * pmem * A);
  rpt_translate : pmem → PhysAddr → VirtAddr → exec (option PhysAddr);
}.

Definition sv39_table : RiscvPageTable := {|
  rpt_entries := PT_ENTRIES;
  rpt_satp_value := Sv39.satp_value;
  rpt_map_page := @Sv39.map_page;
  rpt_max_superpage_size := SUPERPAGE_SIZE;
  rpt_map_superpage := @Sv39.map_superpage;
  rpt_translate := Sv39.translate;
|}.

(** ** mmu.rs *)

Definition align_down (value align : Z) : Z := Z.land value (lnot_w 64 (align - 1)).
Definition align_up (value align : Z) : exec Z := v ← add_w 64 value align; Done (Z.land (v - 1) (lnot_w 64 (align - 1))).
Definition aligned_to (value align : Z) : bool := (Z.land value (align - 1) =? 0)%Z.
Definition saturating_add (x y : Z) : Z := Z.min (x + y) USIZE_MAX.

Record KernelSections : Type := mk_sections { text_start : Z; text_end : Z; rodata_start : Z; rodata_end : Z }.

Definition kernel_memory_perms (addr : Z) (s : KernelSections) : exec Z :=
  te ← align_up (text_end s) PAGE_SIZE;
  if (align_down (text_start s) PAGE_SIZE <=? addr)%Z && (addr <? te)%Z then Done (Z.lor PERM_READ PERM_EXECUTE) else
  re ← align_up (rodata_end s) PAGE_SIZE;
  if (align_down (rodata_start s) PAGE_SIZE <=? addr)%Z && (addr <? re)%Z then Done PERM_READ
  else Done (Z.lor PERM_READ PERM_WRITE).

(** The guards are those of the task stacks. *)
Definition is_stack_guard_page (guards : list Z) (addr : Z) : bool :=
  existsb (λ g, (addr =? align_down g PAGE_SIZE)%Z) guards.

Definition memory_perms (guards : list Z) (s : KernelSections) (addr : Z) : exec (option Z) :=
  if is_stack_guard_page guards addr then Done None else p ← kernel_memory_perms addr s; Done (Some p).

(** The loop of [uniform_region_perms]. *)
Fixpoint uniform_loop (fuel : nat) (perms_for : Z → exec (option Z)) (first addr stop : Z) : exec (option Z) :=
  match fuel with
  | O => Stuck
  | S fuel =>
      if (addr <? stop)%Z then
        p ← perms_for addr;
        match p with
        | None => Done None
        | Some q => if (q =? first)%Z then uniform_loop fuel perms_for first (saturating_add addr PAGE_SIZE) stop else Done None
        end
      else Done (Some first)
  end.

Definition uniform_region_perms (start size : Z) (perms_for : Z → exec (option Z)) : exec (option Z) :=
  p ← perms_for start;
  match p with
  | None => Done None
  | Some first => uniform_loop (S (Z.to_nat (size / PAGE_SIZE))) perms_for first (saturating_add start PAGE_SIZE) (saturating_add start size)
  end.

Section identity.
Context `{!RiscvPageTable} `{!PageSource A}.

(** One iteration: the new address, or the end of the function. *)
Definition try_superpage (use : Z) (perms_for : Z → exec (option Z)) (m : pmem) (a : A) (root addr stop : Z)
    : exec (bool * pmem * A) :=
  if negb (use =? 0)%Z && aligned_to addr use && (saturating_add addr use <=? stop)%Z then
    u ← uniform_region_perms addr use perms_for;
    match u with
    | None => Done (false, m, a)
    | Some perms =>
        '(r, m, a) ← rpt_map_superpage m a root addr addr use perms;
        Done (match r with inr _ => true | inl _ => false end, m, a)
    end
  else Done (false, m, a).

Fixpoint identity_loop (fuel : nat) (use : Z) (perms_for : Z → exec (option Z)) (m : pmem) (a : A) (root addr stop : Z)
    (mapped_any : bool) : exec (bool * pmem * A) :=
  match fuel with
  | O => Stuck
  | S fuel =>
      if (addr <? stop)%Z then
        '(done, m, a) ← try_superpage use perms_for m a root addr stop;
        if done : bool then identity_loop fuel use perms_for m a root (saturating_add addr use) stop true else
        p ← perms_for addr;
        match p with
        | None => identity_loop fuel use perms_for m a root (saturating_add addr PAGE_SIZE) stop mapped_any
        | Some perms =>
            '(r, m, a) ← rpt_map_page m a root addr addr perms;
            match r with
            | inr _ | inl AlreadyMapped => identity_loop fuel use perms_for m a root (saturating_add addr PAGE_SIZE) stop true
            | inl _ => Done (mapped_any, m, a)
            end
        end
      else Done (mapped_any, m, a)
  end.

Definition map_identity_region_with (m : pmem) (a : A) (root base size : Z) (use_superpages : bool)
    (perms_for : Z → exec (option Z)) : exec (bool * pmem * A) :=
  if (size =? 0)%Z then Done (false, m, a) else
  let start := align_down base PAGE_SIZE in
  stop ← align_up (saturating_add base size) PAGE_SIZE;
  let use := if use_superpages then rpt_max_superpage_size else 0%Z in
  identity_loop (S (Z.to_nat ((stop - start) / PAGE_SIZE))) use perms_for m a root start stop false.

Definition map_identity_region (m : pmem) (a : A) (root base size perms : Z) : exec (bool * pmem * A) :=
  map_identity_region_with m a root base size false (λ _, Done (Some perms)).

Definition map_memory_region (guards : list Z) (s : KernelSections) (m : pmem) (a : A) (root base size : Z)
    : exec (bool * pmem * A) :=
  map_identity_region_with m a root base size true (memory_perms guards s).
End identity.

(** ** The frame allocator as the source of frames *)

(** [alloc_zeroed_frame]; the walk zeroes the new table. *)
#[export] Instance frame_source : PageSource FrameAllocator := λ fa, alloc 0 fa.

Definition frames_inv (bound : Z) (fa : FrameAllocator) (X : gset Z) : Prop :=
  ∃ owned, frame_owned fa owned ∧ X ⊆ list_to_set owned ∧ (base_addr fa + Z.of_nat (total_pages fa) * PAGE_SIZE <= bound)%Z.

Lemma frames_alloc (w usize : Z) (fa : FrameAllocator) (X : gset Z) : (0 <= w)%Z → (w + 12 <= 64)%Z →
  let bound := Z.min (2 ^ (w + 12)) (2 ^ usize) in
  frames_inv bound fa X → ∃ r fa', ps_alloc fa = Done (r, fa') ∧
    match r with
    | None => frames_inv bound fa' X
    | Some p => frames_inv bound fa' ({[p]} ∪ X) ∧ (p ∉ X) ∧ frame_ok (Z.ones w) usize p
    end.
Proof.
  intros Hw Hw64 bound (owned&Ho&HX&Hb). pose proof Ho as [Hwf Hnd Hpg Hct].
  pose proof (alloc_lowest 0 fa Hwf) as Hal. change (ps_alloc fa) with (alloc 0 fa).
  destruct (free_list fa) as [|i rest] eqn:Hfl.
  { exists None, fa. split; [done|]. exists owned. done. }
  destruct Hal as (fa'&Heq&Hwf'&Hfl'&Hba&Hto). exists (Some (page_addr fa i)), fa'. split; [done|].
  pose proof (owned_alloc fa fa' 0 _ owned Ho Heq) as Ho'. cbn in Ho'.
  assert (Hi : i < total_pages fa).
  { assert (Hin : i ∈ free_list fa) by (rewrite Hfl; by left). by apply free_list_elem in Hin as [? _]. }
  destruct (page_addr_range fa i Hwf Hi) as [[Hr0 _] Hal].
  assert (Hlt : (page_addr fa i < bound)%Z).
  { unfold page_addr, PAGE_SIZE in *. lia. }
  split_and!.
  - exists (page_addr fa i :: owned). split_and!; [done| |by rewrite Hba, Hto]. cbn [list_to_set]. by apply union_mono_l.
  - intros Hin. apply HX, elem_of_list_to_set in Hin. pose proof (ow_nodup _ _ Ho') as Hn. by apply NoDup_cons in Hn as [? _].
  - split; [|split; [done|unfold bound in Hlt; lia]]. unfold PAGE_SHIFT. rewrite Z.land_ones, Z.shiftr_div_pow2, Z.shiftl_mul_pow2 by lia.
    destruct (wf_base _ Hwf) as [_ Hm]. unfold PAGE_SIZE in Hm.
    assert (Hmod : (page_addr fa i `mod` 2 ^ 12 = 0)%Z) by (unfold page_addr, PAGE_SIZE; change (2 ^ 12)%Z with 4096%Z; divmod).
    rewrite Z.mod_small; [pose proof (Z.div_mod (page_addr fa i) (2 ^ 12) ltac:(lia)); lia|].
    split; [apply Z.div_pos; lia|]. apply Z.div_lt_upper_bound; [lia|]. rewrite <- Z.pow_add_r by lia.
    rewrite Z.add_comm. unfold bound in Hlt. lia.
Qed.

#[export] Instance frames_sv39 : PageSourceLaws FrameAllocator Sv39.PPN_MASK 64 :=
  {| ps_inv := frames_inv (2 ^ 56); ps_alloc_ok := λ fa X, frames_alloc 44 64 fa X ltac:(lia) ltac:(lia) |}.
#[export] Instance frames_sv32 : PageSourceLaws FrameAllocator Sv32.PPN_MASK 32 :=
  {| ps_inv := frames_inv (2 ^ 32); ps_alloc_ok := λ fa X, frames_alloc 22 32 fa X ltac:(lia) ltac:(lia) |}.

Lemma alloc_scan_none (fa : FrameAllocator) (sw sb fuel : nat) : ∀ scan fa', alloc_scan 0 fa sw sb scan fuel = Done (None, fa') → fa' = fa.
Proof.
  induction fuel as [|fuel IH]; intros scan fa'; cbn [alloc_scan]; [by intros [= <-]|].
  repeat match goal with |- (if ?b then _ else _) = _ → _ => destruct b; [by apply IH|] end.
  destruct (cas_clear _ _ _ _) as [bm|]; [|by apply IH]. unfold took_page. destruct (sub_w _ _); [cbn [mbind exec_bind]|done].
  case_match. destruct (addr_add _ _); done.
Qed.

Lemma alloc_none (fa fa' : FrameAllocator) : alloc 0 fa = Done (None, fa') → fa' = fa.
Proof. unfold alloc. destruct (_ =? 0); [by intros [= <-]|]. apply alloc_scan_none. Qed.

#[export, program] Instance frames_spent : PageSourceSpent FrameAllocator := {| ps_spent := λ fa, alloc 0 fa = Done (None, fa) |}.
Next Obligation.
  intros fa r fa' Ha Hs. change (ps_alloc fa) with (alloc 0 fa) in Ha.
  assert (fa' = fa) as ->; [|destruct Hs as [Hs| ->]; [done|pose proof Ha as Hn; apply alloc_none in Hn; by subst]].
  destruct Hs as [Hs| ->]; [|by apply alloc_none]. rewrite Hs in Ha. by injection Ha.
Qed.

(** ** What the identity map relies on *)

Definition some_perms (perms : Z) : bool :=
  contains perms PERM_READ || contains perms PERM_WRITE || contains perms PERM_EXECUTE.

(** Mapping an address below [lim] to itself. *)
Class RiscvPageTableLaws `{!RiscvPageTable} (A : Type) `{!PageSource A} (lim : Z) := {
  rl_wf : pmem → A → PhysAddr → Prop;
  rl_lim : (0 < lim <= 2 ^ 39)%Z;
  rl_size : rpt_max_superpage_size = 0%Z ∨ ∃ k, (12 <= k)%Z ∧ rpt_max_superpage_size = (2 ^ k)%Z;
  rl_ready : A → Prop;
  rl_alloc : ∀ a, rl_ready a → ∃ r a', ps_alloc a = Done (r, a');
  rl_new : ∀ m a root a', rl_ready a → ps_alloc a = Done (Some root, a') →
    let m' := <[root := zero_table rpt_entries]> m in
    rl_wf m' a' root ∧ ∀ w, (0 <= w < lim)%Z → rpt_translate m' root w = Done None;
  rl_uniform : ∀ m a root w, rl_wf m a root → (0 <= w < lim)%Z →
    rpt_translate m root w = Done None ↔ rpt_translate m root (w / PAGE_SIZE * PAGE_SIZE) = Done None;
  rl_page : ∀ m a root v perms, rl_wf m a root → (0 <= v < lim)%Z → (v `mod` PAGE_SIZE = 0)%Z →
    ∃ r m' a', rpt_map_page m a root v v perms = Done (r, m', a') ∧ rl_wf m' a' root ∧
    match r with
    | inr _ => ∀ w, (0 <= w < lim)%Z → rpt_translate m' root w =
        if bool_decide (w / PAGE_SIZE = v / PAGE_SIZE)%Z then Done (Some w) else rpt_translate m root w
    | inl err => (err = OutOfMemory ∨ (err = AlreadyMapped ∧ rpt_translate m root v ≠ Done None))
        ∧ ∀ w, (0 <= w < lim)%Z → rpt_translate m' root w = rpt_translate m root w
    end;
  rl_super : ∀ m a root v perms, let size := rpt_max_superpage_size in
    size ≠ 0%Z → rl_wf m a root → (0 <= v < lim)%Z → (v `mod` size = 0)%Z → some_perms perms = true →
    ∃ r m' a', rpt_map_superpage m a root v v size perms = Done (r, m', a') ∧ rl_wf m' a' root ∧
    match r with
    | inr _ => ∀ w, (0 <= w < lim)%Z → rpt_translate m' root w =
        if bool_decide (w / size = v / size)%Z then Done (Some w) else rpt_translate m root w
    | inl err => ∀ w, (0 <= w < lim)%Z → rpt_translate m' root w = rpt_translate m root w
    end;
}.

(** Mapping runs out of memory only when the source does. *)
Class RiscvPageTableSpent `{!RiscvPageTable} (A : Type) `{!PageSource A, !PageSourceSpent A} := {
  rs_page : ∀ m a root v p perms r m' a', rpt_map_page m a root v p perms = Done (r, m', a') →
    ps_spent a ∨ r = inl OutOfMemory → ps_spent a';
  rs_super : ∀ m a root v p size perms r m' a', rpt_map_superpage m a root v p size perms = Done (r, m', a') →
    ps_spent a → ps_spent a';
}.

Lemma land_pow2_mod (x k : Z) : (0 <= k)%Z → Z.land x (2 ^ k - 1) = (x `mod` 2 ^ k)%Z.
Proof. intros Hk. rewrite <- Z.land_ones by done. by rewrite Z.ones_equiv, Z.sub_1_r. Qed.

Lemma align_down_spec (x : Z) : in_width 64 x → align_down x PAGE_SIZE = (x / PAGE_SIZE * PAGE_SIZE)%Z.
Proof. intros Hx. exact (page_align_mul x Hx). Qed.

Lemma align_up_spec (x : Z) : (0 <= x)%Z → (x + PAGE_SIZE < 2 ^ 64)%Z →
  align_up x PAGE_SIZE = Done ((x + PAGE_SIZE - 1) / PAGE_SIZE * PAGE_SIZE)%Z.
Proof.
  intros H0 H1. unfold align_up. rewrite add_w_Done by done. cbn [mbind exec_bind].
  f_equal. apply page_align_mul. unfold in_width, PAGE_SIZE in *. lia.
Qed.

Section loop.
Context `{!RiscvPageTable} `{!PageSource A} (lim : Z) `{!RiscvPageTableLaws A lim}.
Context (perms_for : Z → exec (option Z)) (pf : Z → option Z) (root stop : Z).
Hypothesis pf_spec : ∀ v, (0 <= v < stop)%Z → (v `mod` PAGE_SIZE = 0)%Z → perms_for v = Done (pf v).
Hypothesis pf_some : ∀ v p, pf v = Some p → some_perms p = true.
Hypothesis stop_lim : (0 <= stop <= lim)%Z.
Hypothesis stop_page : (stop `mod` PAGE_SIZE = 0)%Z.

Lemma sat_add (x y : Z) : (0 <= x)%Z → (0 <= y)%Z → (x + y <= 2 ^ 40)%Z → saturating_add x y = (x + y)%Z.
Proof. intros. unfold saturating_add, USIZE_MAX. change (2 ^ 40)%Z with 1099511627776%Z in *. lia. Qed.

Lemma lim_bound : (lim <= 2 ^ 39)%Z.
Proof. apply rl_lim. Qed.

Lemma uniform_loop_spec (fuel : nat) : ∀ (first addr fin : Z), (0 <= addr)%Z → (addr `mod` PAGE_SIZE = 0)%Z →
  (fin `mod` PAGE_SIZE = 0)%Z → (addr <= fin <= stop)%Z → (fin - addr < Z.of_nat fuel * PAGE_SIZE)%Z →
  ∃ r, uniform_loop fuel perms_for first addr fin = Done r ∧
    (∀ p, r = Some p → p = first ∧ ∀ v, (addr <= v < fin)%Z → (v `mod` PAGE_SIZE = 0)%Z → pf v = Some first).
Proof.
  pose proof lim_bound as Hl. change (2 ^ 39)%Z with 549755813888%Z in Hl.
  induction fuel as [|fuel IH]; intros first addr fin H0 Hal Hfal Hf Hfu; [unfold PAGE_SIZE in *; lia|].
  cbn [uniform_loop]. destruct (Z.ltb_spec addr fin) as [Hlt|Hge].
  - rewrite pf_spec by (done || lia). cbn [mbind exec_bind]. destruct (pf addr) as [q|] eqn:Hq; [|by exists None].
    destruct (Z.eqb_spec q first) as [->|Hne]; [|by exists None].
    assert (Hsa : saturating_add addr PAGE_SIZE = (addr + PAGE_SIZE)%Z) by (apply sat_add; unfold PAGE_SIZE; change (2 ^ 40)%Z with 1099511627776%Z; lia).
    rewrite Hsa. destruct (IH first (addr + PAGE_SIZE)%Z fin) as (r&Hr&Hpost); unfold PAGE_SIZE in *; [lia|divmod|done|divmod|lia|].
    exists r. split; [done|]. intros p Hp. destruct (Hpost p Hp) as [-> Hall]. split; [done|]. intros v Hv Hvm.
    destruct (decide (v = addr)) as [->|Hne]; [done|]. apply Hall; [divmod|done].
  - exists (Some first). split; [done|]. intros p [= <-]. split; [done|]. intros v Hv. lia.
Qed.

Lemma uniform_spec (start size : Z) : (0 <= start)%Z → (start `mod` PAGE_SIZE = 0)%Z → (size `mod` PAGE_SIZE = 0)%Z →
  (0 < size)%Z → (start + size <= stop)%Z →
  ∃ r, uniform_region_perms start size perms_for = Done r ∧
    ∀ p, r = Some p → ∀ v, (start <= v < start + size)%Z → (v `mod` PAGE_SIZE = 0)%Z → pf v = Some p.
Proof.
  pose proof lim_bound as Hl. change (2 ^ 39)%Z with 549755813888%Z in Hl.
  intros H0 Hal Hsal Hs He. unfold uniform_region_perms. rewrite pf_spec by (done || lia). cbn [mbind exec_bind].
  destruct (pf start) as [first|] eqn:Hf; [|by exists None].
  rewrite !sat_add by (unfold PAGE_SIZE; change (2 ^ 40)%Z with 1099511627776%Z; lia).
  destruct (uniform_loop_spec (S (Z.to_nat (size / PAGE_SIZE))) first (start + PAGE_SIZE) (start + size)) as (r&Hr&Hpost).
  { unfold PAGE_SIZE; lia. }
  { unfold PAGE_SIZE in *; divmod. }
  { unfold PAGE_SIZE in *; divmod. }
  { unfold PAGE_SIZE in *; split; [divmod|lia]. }
  { unfold PAGE_SIZE in *. rewrite Nat2Z.inj_succ, Z2Nat.id by divmod. divmod. }
  exists r. split; [done|]. intros p Hp. destruct (Hpost p Hp) as [-> Hall]. intros v Hv Hvm.
  destruct (decide (v = start)) as [->|Hne]; [done|]. apply Hall; [unfold PAGE_SIZE in *; divmod|done].
Qed.

Definition identity_only (m : pmem) : Prop := ∀ w, (0 <= w < lim)%Z →
  rpt_translate m root w = Done None ∨ rpt_translate m root w = Done (Some w).

(** What the loop leaves of the addresses from [addr] to [fin]. *)
Definition mapped_upto (addr fin : Z) (m m' : pmem) : Prop := ∀ w, (0 <= w < lim)%Z →
  rpt_translate m' root w =
    if bool_decide (addr <= w < fin ∧ pf (w / PAGE_SIZE * PAGE_SIZE) ≠ None)%Z then Done (Some w) else rpt_translate m root w.

Lemma mapped_refl (addr : Z) (m m' : pmem) : (∀ w, (0 <= w < lim)%Z → rpt_translate m' root w = rpt_translate m root w) →
  mapped_upto addr addr m m'.
Proof. intros Hs w Hw. rewrite bool_decide_false by lia. by apply Hs. Qed.

Lemma mapped_trans (a1 a2 a3 : Z) (m1 m2 m3 : pmem) : (a1 <= a2 <= a3)%Z →
  mapped_upto a1 a2 m1 m2 → mapped_upto a2 a3 m2 m3 → mapped_upto a1 a3 m1 m3.
Proof.
  intros Ha H12 H23 w Hw. rewrite H23, H12 by done.
  case_bool_decide as Hb1; [|case_bool_decide as Hb2]; case_bool_decide as Hb3; try done; exfalso.
  - apply Hb3. split; [lia|apply Hb1].
  - apply Hb3. split; [lia|apply Hb2].
  - destruct Hb3 as [Hr Hp]. destruct (Z.lt_ge_cases w a2); [apply Hb2|apply Hb1]; (split; [lia|done]).
Qed.

Lemma mapped_identity (a1 a2 : Z) (m m' : pmem) : mapped_upto a1 a2 m m' → identity_only m → identity_only m'.
Proof. intros Hm Hi w Hw. rewrite Hm by done. case_bool_decide; [by right|by apply Hi]. Qed.

(** One page, mapped or mapped before. *)
Lemma page_step (m : pmem) (a : A) (addr perms : Z) : rl_wf m a root → identity_only m → (0 <= addr < lim)%Z →
  (addr `mod` PAGE_SIZE = 0)%Z → pf addr = Some perms →
  ∃ r m' a', rpt_map_page m a root addr addr perms = Done (r, m', a') ∧ rl_wf m' a' root ∧
    (r = inl OutOfMemory ∧ mapped_upto addr addr m m'
     ∨ (r = inr () ∨ r = inl AlreadyMapped) ∧ mapped_upto addr (addr + PAGE_SIZE) m m').
Proof.
  intros Hwf Hid Ha Hal Hpf. destruct (rl_page m a root addr perms Hwf Ha Hal) as (r&m'&a'&Heq&Hwf'&Hr).
  exists r, m', a'. split; [done|]. split; [done|].
  assert (Hpg : ∀ w, (addr <= w < addr + PAGE_SIZE)%Z ↔ (w / PAGE_SIZE = addr / PAGE_SIZE)%Z).
  { intros w. unfold PAGE_SIZE in *. split; intros; divmod. }
  assert (Hpp : ∀ w, (w / PAGE_SIZE = addr / PAGE_SIZE)%Z → (w / PAGE_SIZE * PAGE_SIZE)%Z = addr).
  { intros w ->. unfold PAGE_SIZE in *. divmod. }
  destruct r as [err|[]].
  - destruct Hr as [[->|[-> Hne]] Hsame]; [left; split; [done|by apply mapped_refl]|right]. split; [by right|].
    intros w Hw. rewrite Hsame by done. case_bool_decide as Hc; [|done]. destruct Hc as [Hc _]. apply Hpg in Hc.
    destruct (Hid w Hw) as [Hn|]; [|done]. exfalso. apply Hne. rewrite <- (Hpp w Hc). exact (proj1 (rl_uniform m a root w Hwf Hw) Hn).
  - right. split; [by left|]. intros w Hw. rewrite Hr by done.
    case_bool_decide as Hb1; case_bool_decide as Hb2; try done.
    + destruct Hb2. split; [by apply Hpg|]. by rewrite Hpp, Hpf.
    + destruct Hb1. apply Hpg, Hb2.
Qed.

Lemma superpage_size (k : Z) : (12 <= k)%Z → (0 < 2 ^ k)%Z ∧ ((2 ^ k) `mod` PAGE_SIZE = 0)%Z ∧ (PAGE_SIZE <= 2 ^ k)%Z.
Proof.
  intros Hk. change PAGE_SIZE with (2 ^ 12)%Z. split_and!.
  - apply Z.pow_pos_nonneg; lia.
  - apply Z.mod_divide; [lia|]. exists (2 ^ (k - 12))%Z. rewrite <- Z.pow_add_r by lia. f_equal. lia.
  - apply Z.pow_le_mono_r; lia.
Qed.

Lemma block_range (addr size w : Z) : (0 < size)%Z → (addr `mod` size = 0)%Z →
  (w / size = addr / size)%Z ↔ (addr <= w < addr + size)%Z.
Proof.
  intros Hpos Hau. pose proof (Z.div_mod addr size ltac:(lia)). pose proof (Z.div_mod w size ltac:(lia)).
  pose proof (Z.mod_pos_bound w size Hpos). split; [intros Hq; rewrite Hq in *; lia|].
  intros Hin. symmetry. apply (Z.div_unique w size _ (w - addr)); lia.
Qed.

Lemma block_pages (addr size w : Z) : (addr `mod` PAGE_SIZE = 0)%Z → (size `mod` PAGE_SIZE = 0)%Z → (addr <= w < addr + size)%Z →
  (addr <= w / PAGE_SIZE * PAGE_SIZE < addr + size)%Z.
Proof. unfold PAGE_SIZE. intros. divmod. Qed.

Lemma superpage_mapped (m m' : pmem) (addr size perms : Z) : (0 < size)%Z → (addr `mod` size = 0)%Z →
  (addr `mod` PAGE_SIZE = 0)%Z → (size `mod` PAGE_SIZE = 0)%Z →
  (∀ v, (addr <= v < addr + size)%Z → (v `mod` PAGE_SIZE = 0)%Z → pf v = Some perms) →
  (∀ w, (0 <= w < lim)%Z → rpt_translate m' root w =
     if bool_decide (w / size = addr / size)%Z then Done (Some w) else rpt_translate m root w) →
  mapped_upto addr (addr + size) m m'.
Proof.
  intros Hpos Hau Hal Hsal Hall Hr w Hw. rewrite Hr by done.
  case_bool_decide as Hb1; case_bool_decide as Hb2; try done.
  - destruct Hb2. apply block_range in Hb1; [|done|done]. split; [done|].
    rewrite (Hall (w / PAGE_SIZE * PAGE_SIZE)%Z); [done|by apply block_pages|]. unfold PAGE_SIZE. apply Z.mod_mul. lia.
  - destruct Hb1. apply block_range; [done|done|apply Hb2].
Qed.

Lemma sat_le (x y z : Z) : (z <= 2 ^ 39)%Z → (saturating_add x y <= z)%Z → (x + y <= z)%Z.
Proof. change (2 ^ 39)%Z with 549755813888%Z. unfold saturating_add, USIZE_MAX. lia. Qed.

Lemma superpage_fits (addr use : Z) : use = 0%Z ∨ use = rpt_max_superpage_size → (0 <= addr < lim)%Z →
  negb (use =? 0)%Z && aligned_to addr use && (saturating_add addr use <=? stop)%Z = true →
  use = rpt_max_superpage_size ∧ use ≠ 0%Z ∧ (0 < use)%Z ∧ (use `mod` PAGE_SIZE = 0)%Z ∧ (PAGE_SIZE <= use)%Z
  ∧ (addr `mod` use = 0)%Z ∧ (addr + use <= stop)%Z.
Proof.
  intros Huse Ha E. apply andb_true_iff in E as [E Hle]. apply andb_true_iff in E as [Hnz Hau].
  apply Z.leb_le, sat_le in Hle; [|transitivity lim; [apply stop_lim|apply lim_bound]].
  apply negb_true_iff, Z.eqb_neq in Hnz. unfold aligned_to in Hau. apply Z.eqb_eq in Hau.
  destruct Huse as [->|Hu]; [done|]. destruct rl_size as [Hz|(k&Hk&Hsz)]; [congruence|].
  destruct (superpage_size k Hk) as (Hpos&Hdvd&Hge).
  assert (Hk' : use = (2 ^ k)%Z) by congruence. clear Hsz.
  rewrite Hk', land_pow2_mod in Hau by (clear -Hk; lia). rewrite <- Hk' in Hau, Hpos, Hdvd, Hge. clear Hk'. done.
Qed.

Lemma superpage_step (m : pmem) (a : A) (addr use : Z) : rl_wf m a root → (0 <= addr < lim)%Z →
  (addr `mod` PAGE_SIZE = 0)%Z → use = 0%Z ∨ use = rpt_max_superpage_size →
  ∃ b m' a', try_superpage use perms_for m a root addr stop = Done (b, m', a') ∧ rl_wf m' a' root ∧
    if b : bool then (addr + use <= stop)%Z ∧ (PAGE_SIZE <= use)%Z ∧ (use `mod` PAGE_SIZE = 0)%Z ∧ mapped_upto addr (addr + use) m m'
    else mapped_upto addr addr m m'.
Proof.
  intros Hwf Ha Hal Huse. unfold try_superpage.
  destruct (negb (use =? 0)%Z && aligned_to addr use && (saturating_add addr use <=? stop)%Z) eqn:E.
  2: { exists false, m, a. split_and!; [done|done|]. by apply mapped_refl. }
  destruct (superpage_fits addr use Huse Ha E) as (Hu&Hnz&Hpos&Hdvd&Hge&Hau&Hend).
  destruct (uniform_spec addr use) as (u&Huq&Hall); [lia|done|done|done|lia|].
  rewrite Huq. cbn [mbind exec_bind]. destruct u as [perms|].
  2: { exists false, m, a. split_and!; [done|done|]. by apply mapped_refl. }
  specialize (Hall perms eq_refl). subst use.
  destruct (rl_super m a root addr perms) as (r&m'&a'&Heq&Hwf'&Hr); [done|done|done|done| |].
  { eapply pf_some, (Hall addr); [lia|done]. }
  rewrite Heq. cbn [mbind exec_bind]. destruct r as [err|[]].
  { exists false, m', a'. split_and!; [done|done|]. by apply mapped_refl. }
  exists true, m', a'. split_and!; [done|done|done|done|done|]. by eapply superpage_mapped.
Qed.
(** The loop stops at [fin], the end of the region or the page for which
    memory ran out; it returns [false] only when it mapped nothing. *)
Record loop_post (addr : Z) (m : pmem) (any b : bool) (m' : pmem) (a' : A) : Prop := {
  lp_wf : rl_wf m' a' root;
  lp_identity : identity_only m';
  lp_fin : ∃ fin, (addr <= fin <= stop)%Z ∧ mapped_upto addr fin m m'
    ∧ (fin = stop ∨ ∃ perms m1 (a1 : A), rpt_map_page m1 a1 root fin fin perms = Done (inl OutOfMemory, m', a'));
  lp_any : b = false → any = false ∧ ∀ w, (0 <= w < lim)%Z → rpt_translate m' root w = rpt_translate m root w;
}.

Lemma loop_later (addr next : Z) (m m1 m' : pmem) (any any1 b : bool) (a' : A) : (addr <= next)%Z →
  mapped_upto addr next m m1 → (any1 = false → any = false ∧ mapped_upto addr addr m m1) →
  loop_post next m1 any1 b m' a' → loop_post addr m any b m' a'.
Proof.
  intros Hn Hup Hany [Hwf Hid (fin&Hf&Hm&Hend) Hb]. split; [done|done| |].
  - exists fin. split_and!; [lia|lia|apply (mapped_trans addr next fin m m1 m'); [lia|done|done]|done].
  - intros [Ha Hs]%Hb. destruct (Hany Ha) as [Ha0 Hr]. split; [done|]. intros w Hw. rewrite Hs by done.
    specialize (Hr w Hw). by rewrite bool_decide_false in Hr by lia.
Qed.

Lemma skip_page (addr : Z) (m m' : pmem) : (addr `mod` PAGE_SIZE = 0)%Z → pf addr = None →
  mapped_upto addr addr m m' → mapped_upto addr (addr + PAGE_SIZE) m m'.
Proof.
  intros Hal Hpf Hm w Hw. rewrite (Hm w Hw), bool_decide_false by lia. rewrite bool_decide_false; [done|].
  intros [Hr Hp]. apply Hp. assert ((w / PAGE_SIZE * PAGE_SIZE)%Z = addr) as -> by (unfold PAGE_SIZE in *; divmod). done.
Qed.

Lemma identity_loop_spec (use : Z) (Huse : use = 0%Z ∨ use = rpt_max_superpage_size) (fuel : nat) :
  ∀ m a addr any, rl_wf m a root → identity_only m → (0 <= addr <= stop)%Z → (addr `mod` PAGE_SIZE = 0)%Z →
  (stop - addr < Z.of_nat fuel * PAGE_SIZE)%Z →
  ∃ b m' a', identity_loop fuel use perms_for m a root addr stop any = Done (b, m', a') ∧ loop_post addr m any b m' a'.
Proof.
  assert (Hl : (stop <= 549755813888)%Z) by (transitivity lim; [apply stop_lim|exact lim_bound]).
  induction fuel as [|fuel IH]; intros m a addr any Hwf Hid Ha Hal Hfu; [unfold PAGE_SIZE in *; lia|].
  cbn [identity_loop]. destruct (Z.ltb_spec addr stop) as [Hlt|Hge].
  2: { exists any, m, a. split; [done|]. split; [done|done| |by intros ->].
       exists addr. split_and!; [lia|lia|by apply mapped_refl|left; lia]. }
  assert (Hlim : (0 <= addr < lim)%Z) by (pose proof stop_lim; lia).
  assert (Hpg : (addr + PAGE_SIZE <= stop)%Z) by (unfold PAGE_SIZE in *; divmod).
  assert (Hstep : (addr <= addr + PAGE_SIZE)%Z) by (unfold PAGE_SIZE; lia).
  assert (Hal' : ((addr + PAGE_SIZE) `mod` PAGE_SIZE = 0)%Z) by (unfold PAGE_SIZE in *; divmod).
  destruct (superpage_step m a addr use Hwf Hlim Hal Huse) as (bs&m1&a1&Hs&Hwf1&Hp). rewrite Hs. cbn [mbind exec_bind].
  destruct bs.
  - destruct Hp as (Hend&Hge&Hum&Hup). rewrite sat_add by (unfold PAGE_SIZE in *; change (2 ^ 40)%Z with 1099511627776%Z; lia).
    destruct (IH m1 a1 (addr + use)%Z true) as (b&m'&a'&Heq&Hpost);
      [done|by eapply mapped_identity|unfold PAGE_SIZE in *; lia|unfold PAGE_SIZE in *; divmod|unfold PAGE_SIZE in *; lia|].
    exists b, m', a'. split; [done|]. eapply loop_later; [|exact Hup| |exact Hpost]; [unfold PAGE_SIZE in *; lia|done].
  - rewrite pf_spec by (done || lia). cbn [mbind exec_bind].
    rewrite sat_add by (unfold PAGE_SIZE in *; change (2 ^ 40)%Z with 1099511627776%Z; lia).
    assert (Hid1 : identity_only m1) by by eapply mapped_identity.
    assert (Hfu' : (stop - (addr + PAGE_SIZE) < Z.of_nat fuel * PAGE_SIZE)%Z) by (unfold PAGE_SIZE in *; lia).
    destruct (pf addr) as [perms|] eqn:Hpf.
    + destruct (page_step m1 a1 addr perms Hwf1 Hid1 Hlim Hal Hpf) as (r&m2&a2&Hr&Hwf2&Hcase). rewrite Hr. cbn [mbind exec_bind].
      destruct Hcase as [[-> Hup]|[Hok Hup]].
      * exists any, m2, a2. split; [done|]. pose proof (mapped_trans _ _ _ _ _ _ (conj (Z.le_refl _) (Z.le_refl _)) Hp Hup) as Hup2.
        split; [done|by eapply mapped_identity| |].
        -- exists addr. split_and!; [lia|lia|done|]. right. by exists perms, m1, a1.
        -- intros ->. split; [done|]. intros w Hw. specialize (Hup2 w Hw). by rewrite bool_decide_false in Hup2 by lia.
      * destruct (IH m2 a2 (addr + PAGE_SIZE)%Z true) as (b&m'&a'&Heq&Hpost);
          [done|by eapply mapped_identity|unfold PAGE_SIZE in *; lia|done|done|].
        exists b, m', a'. split; [by destruct Hok as [-> | ->]|].
        eapply loop_later; [|exact (mapped_trans addr addr _ _ _ _ (conj (Z.le_refl _) Hstep) Hp Hup)| |exact Hpost]; done.
    + destruct (IH m1 a1 (addr + PAGE_SIZE)%Z any) as (b&m'&a'&Heq&Hpost); [done|done|unfold PAGE_SIZE in *; lia|done|done|].
      exists b, m', a'. split; [done|]. eapply loop_later; [|by apply skip_page| |exact Hpost]; [unfold PAGE_SIZE; lia|done].
Qed.

Lemma try_superpage_spent `{!PageSourceSpent A, !RiscvPageTableSpent A} (use addr : Z) m a b m' a' :
  try_superpage use perms_for m a root addr stop = Done (b, m', a') → ps_spent a → ps_spent a'.
Proof.
  unfold try_superpage. destruct (_ && _); [|by intros [= <- <- <-]].
  destruct (uniform_region_perms addr use perms_for) as [[perms|]|]; cbn [mbind exec_bind]; [|by intros [= <- <- <-]|done].
  destruct (rpt_map_superpage m a root addr addr use perms) as [[[r m1] a1]|] eqn:Hm; [cbn [mbind exec_bind]|done].
  intros [= _ <- <-]. by eapply rs_super.
Qed.

Lemma identity_loop_spent `{!PageSourceSpent A, !RiscvPageTableSpent A} (use : Z) (fuel : nat) : ∀ m a addr any b m' a',
  identity_loop fuel use perms_for m a root addr stop any = Done (b, m', a') → ps_spent a → ps_spent a'.
Proof.
  induction fuel as [|fuel IH]; intros m a addr any b m' a'; cbn [identity_loop]; [done|].
  destruct (addr <? stop)%Z; [|by intros [= <- <- <-]].
  destruct (try_superpage use perms_for m a root addr stop) as [[[d m1] a1]|] eqn:Ht; [cbn [mbind exec_bind]|done].
  intros Hl Hs. pose proof (try_superpage_spent _ _ _ _ _ _ _ Ht Hs) as Hs1. revert Hl. destruct d; [intros Hl; by eapply IH|].
  destruct (perms_for addr) as [[perms|]|]; cbn [mbind exec_bind]; [|intros Hl; by eapply IH|done].
  destruct (rpt_map_page m1 a1 root addr addr perms) as [[[r m2] a2]|] eqn:Hp; [cbn [mbind exec_bind]|done].
  pose proof (rs_page _ _ _ _ _ _ _ _ _ Hp (or_introl Hs1)) as Hs2.
  destruct r as [[]|u]; intros Hl; try (by eapply IH); by injection Hl as <- <- <-.
Qed.

Lemma uniform_some (start size p : Z) : uniform_region_perms start size perms_for = Done (Some p) → ∃ q, perms_for start = Done (Some q).
Proof. unfold uniform_region_perms. destruct (perms_for start) as [[q|]|]; cbn [mbind exec_bind]; [by eexists|done|done]. Qed.

(** A loop that reports a mapping went over a page that is to be mapped. *)
Lemma identity_loop_true (use : Z) (fuel : nat) : ∀ m a addr any m' a', (0 <= addr)%Z → (addr `mod` PAGE_SIZE = 0)%Z →
  identity_loop fuel use perms_for m a root addr stop any = Done (true, m', a') →
  any = true ∨ ∃ v, (addr <= v < stop)%Z ∧ (v `mod` PAGE_SIZE = 0)%Z ∧ pf v ≠ None.
Proof.
  pose proof (lim_bound) as Hl. change (2 ^ 39)%Z with 549755813888%Z in Hl.
  induction fuel as [|fuel IH]; intros m a addr any m' a' H0 Hal; cbn [identity_loop]; [done|].
  destruct (Z.ltb_spec addr stop) as [Hlt|]; [|intros [= -> _ _]; by left].
  assert (Hhere : ∀ q, perms_for addr = Done (Some q) → any = true ∨ ∃ v, (addr <= v < stop)%Z ∧ (v `mod` PAGE_SIZE = 0)%Z ∧ pf v ≠ None).
  { intros q Hq. right. exists addr. split_and!; [lia|done|done|]. rewrite pf_spec in Hq by done. by injection Hq as ->. }
  destruct (try_superpage use perms_for m a root addr stop) as [[[d m1] a1]|] eqn:Ht; [cbn [mbind exec_bind]|done]. destruct d.
  { intros _. unfold try_superpage in Ht. destruct (_ && _); [|done].
    destruct (uniform_region_perms addr use perms_for) as [[q|]|] eqn:Hu; [|done|done]. apply uniform_some in Hu as [q' Hq]. by apply (Hhere q'). }
  destruct (perms_for addr) as [[q|]|] eqn:Hq; cbn [mbind exec_bind]; [intros _; by apply (Hhere q)| |done].
  rewrite sat_add by (unfold PAGE_SIZE; change (2 ^ 40)%Z with 1099511627776%Z; lia). intros Hloop.
  destruct (IH m1 a1 (addr + PAGE_SIZE)%Z any m' a' ltac:(unfold PAGE_SIZE; lia) ltac:(unfold PAGE_SIZE in *; divmod) Hloop) as [Ha|(v&Hv&Hvm&Hp)]; [by left|right].
  exists v. split_and!; [unfold PAGE_SIZE in *; lia|lia|done|done].
Qed.
End loop.

(** ** A region *)

Definition region_start (base : Z) : Z := base / PAGE_SIZE * PAGE_SIZE.
Definition region_stop (base size : Z) : Z := (base + size + PAGE_SIZE - 1) / PAGE_SIZE * PAGE_SIZE.
Definition in_region (base size w : Z) : Prop := (size ≠ 0 ∧ region_start base <= w < region_stop base size)%Z.

Section region.
Context `{!RiscvPageTable} `{!PageSource A} (lim : Z) `{!RiscvPageTableLaws A lim}.

Lemma region_bounds (base size : Z) : (0 <= base)%Z → (0 < size)%Z →
  (base + size <= region_stop base size < base + size + PAGE_SIZE)%Z ∧ (0 <= region_start base <= base)%Z
  ∧ (region_stop base size `mod` PAGE_SIZE = 0)%Z ∧ (region_start base `mod` PAGE_SIZE = 0)%Z.
Proof. unfold region_stop, region_start, PAGE_SIZE. intros. split_and!; divmod. Qed.

Lemma region_spec (perms_for : Z → exec (option Z)) (pf : Z → option Z) (root base size : Z) (use : bool) (m : pmem) (a : A) :
  (∀ v, perms_for v = Done (pf v)) → (∀ v p, pf v = Some p → some_perms p = true) →
  rl_wf m a root → identity_only lim root m → (0 <= base)%Z → (0 < size)%Z → (region_stop base size <= lim)%Z →
  ∃ b m' a', map_identity_region_with m a root base size use perms_for = Done (b, m', a')
    ∧ loop_post lim pf root (region_stop base size) (region_start base) m false b m' a'
    ∧ (b = true → ∃ v, in_region base size v ∧ (v `mod` PAGE_SIZE = 0)%Z ∧ pf v ≠ None).
Proof.
  intros Hpf Hps Hwf Hid Hb Hs Hst. destruct (region_bounds base size Hb Hs) as (Hse&Hsb&Hsm&Hsm').
  pose proof (lim_bound lim) as Hl. change (2 ^ 39)%Z with 549755813888%Z in Hl.
  unfold map_identity_region_with. rewrite (proj2 (Z.eqb_neq size 0)) by lia.
  rewrite (sat_add base size) by (change (2 ^ 40)%Z with 1099511627776%Z; lia).
  rewrite align_down_spec, align_up_spec by (unfold in_width, PAGE_SIZE in *; lia). cbn [mbind exec_bind].
  fold (region_start base) (region_stop base size).
  destruct (identity_loop_spec lim perms_for pf root (region_stop base size) ltac:(by intros) Hps ltac:(lia) Hsm
    (if use then rpt_max_superpage_size else 0%Z) ltac:(destruct use; [by right|by left])
    (S (Z.to_nat ((region_stop base size - region_start base) / PAGE_SIZE))) m a (region_start base) false Hwf Hid ltac:(lia) Hsm')
    as (b&m'&a'&Heq&Hpost).
  { unfold PAGE_SIZE in *. rewrite Nat2Z.inj_succ, Z2Nat.id by (apply Z.div_pos; lia). divmod. }
  exists b, m', a'. split_and!; [done|done|]. intros ->.
  destruct (identity_loop_true lim perms_for pf root (region_stop base size) ltac:(by intros) ltac:(lia) _ _ m a (region_start base) false m' a' ltac:(lia) Hsm' Heq)
    as [?|(v&Hv&Hvm&Hp)]; [done|]. exists v. split; [split; [lia|done]|done].
Qed.

(** Mapping a region, when memory may run out. *)
Record region_post (pf : Z → option Z) (root base size : Z) (m : pmem) (b : bool) (m' : pmem) : Prop := {
  rp_new : ∀ w, (0 <= w < lim)%Z → rpt_translate m' root w = rpt_translate m root w
    ∨ in_region base size w ∧ pf (w / PAGE_SIZE * PAGE_SIZE)%Z ≠ None ∧ rpt_translate m' root w = Done (Some w);
  rp_keep : ∀ w, (0 <= w < lim)%Z → rpt_translate m root w = Done (Some w) → rpt_translate m' root w = Done (Some w);
  rp_some : b = true → ∃ v, in_region base size v ∧ (v `mod` PAGE_SIZE = 0)%Z ∧ pf v ≠ None;
  rp_none : b = false → ∀ w, (0 <= w < lim)%Z → rpt_translate m' root w = rpt_translate m root w;
}.

Definition region_full (pf : Z → option Z) (root base size : Z) (m' : pmem) : Prop :=
  ∀ w, (0 <= w < lim)%Z → in_region base size w → pf (w / PAGE_SIZE * PAGE_SIZE)%Z ≠ None → rpt_translate m' root w = Done (Some w).

Lemma region_mapped `{!PageSourceSpent A, !RiscvPageTableSpent A} (perms_for : Z → exec (option Z)) (pf : Z → option Z) (root base size : Z)
    (use : bool) (m : pmem) (a : A) :
  (∀ v, perms_for v = Done (pf v)) → (∀ v p, pf v = Some p → some_perms p = true) →
  rl_wf m a root → identity_only lim root m → (0 <= base)%Z → (0 <= size)%Z → (region_stop base size <= lim)%Z →
  ∃ b m' a', map_identity_region_with m a root base size use perms_for = Done (b, m', a')
    ∧ rl_wf m' a' root ∧ identity_only lim root m' ∧ (ps_spent a → ps_spent a') ∧ region_post pf root base size m b m'
    ∧ (ps_spent a' ∨ region_full pf root base size m').
Proof.
  intros Hpf Hps Hwf Hid Hb Hs Hst. destruct (decide (size = 0)%Z) as [->|Hne].
  { exists false, m, a. split_and!; [done|done|done|done| |right; by intros w _ [? _]]. split; [by left|done|done|done]. }
  destruct (region_spec perms_for pf root base size use m a Hpf Hps Hwf Hid Hb ltac:(lia) Hst) as (b&m'&a'&Heq&[Hwf' Hid' (fin&Hf&Hm&Hend) Hn]&Hsome).
  exists b, m', a'. split_and!; [done|done|done| | |].
  - intros Hsp. revert Heq. unfold map_identity_region_with. rewrite (proj2 (Z.eqb_neq size 0)) by done.
    destruct (align_up _ _) as [stop|]; [cbn [mbind exec_bind]|done]. intros Heq. by eapply identity_loop_spent.
  - split.
    + intros w Hw. rewrite (Hm w Hw). case_bool_decide as Hc; [right|by left]. destruct Hc as [Hr Hp]. split; [split; [done|lia]|done].
    + intros w Hw Hk. rewrite (Hm w Hw). by case_bool_decide.
    + exact Hsome.
    + intros ->. by apply Hn.
  - destruct Hend as [->|(perms&m1&a1&Hp)].
    + right. intros w Hw [_ Hr] Hp. rewrite (Hm w Hw). by rewrite bool_decide_true.
    + left. eapply rs_page; [exact Hp|by right].
Qed.
End region.

(** ** The Sv39 table keeps the laws *)

Lemma vpage_div (v : Z) : (0 <= v < 2 ^ 39)%Z → vpage v = (v / PAGE_SIZE)%Z.
Proof.
  intros Hv. unfold vpage, PAGE_SIZE. rewrite Z.land_ones, Z.shiftr_div_pow2 by lia.
  change (2 ^ 12)%Z with 4096%Z. apply Z.mod_small. change (2 ^ 27)%Z with 134217728%Z. change (2 ^ 39)%Z with 549755813888%Z in Hv. divmod.
Qed.

Lemma vregion_div (v : Z) : (0 <= v < 2 ^ 39)%Z → vregion v = (v / SUPERPAGE_SIZE)%Z.
Proof.
  intros Hv. unfold vregion. change SUPERPAGE_SIZE with 2097152%Z. rewrite Z.land_ones, Z.shiftr_div_pow2 by lia.
  change (2 ^ 21)%Z with 2097152%Z. apply Z.mod_small. change (2 ^ 18)%Z with 262144%Z. change (2 ^ 39)%Z with 549755813888%Z in Hv. divmod.
Qed.

Lemma page_base (v : Z) : (0 <= v < 2 ^ 39)%Z → (0 <= v / PAGE_SIZE * PAGE_SIZE < 2 ^ 39)%Z ∧ (v / PAGE_SIZE * PAGE_SIZE / PAGE_SIZE)%Z = (v / PAGE_SIZE)%Z.
Proof. change (2 ^ 39)%Z with 549755813888%Z. unfold PAGE_SIZE. intros. split; divmod. Qed.

Lemma offset_base (v w k : Z) : (0 < k)%Z → (v `mod` k = 0)%Z → (w / k = v / k)%Z → (v + w `mod` k)%Z = w.
Proof. intros Hk Hv Hd. pose proof (Z.div_mod w k ltac:(lia)). pose proof (Z.div_mod v k ltac:(lia)). rewrite Hd in *. lia. Qed.

Section sv39_laws.
Context `{!PageSource A, !PageSourceLaws A PPN_MASK 64}.
Local Existing Instance sv39_table.

Lemma sv39_uniform (m : pmem) (a : A) (root : PhysAddr) (w : Z) : table_wf m a root → (0 <= w < 2 ^ 39)%Z →
  Sv39.translate m root w = Done None ↔ Sv39.translate m root (w / PAGE_SIZE * PAGE_SIZE) = Done None.
Proof.
  intros (own&X&Hwf&_) Hw. rewrite !(Sv39.translate_lookup m own root) by done.
  destruct (page_base w Hw) as [Hb Hq].
  assert (path (w / PAGE_SIZE * PAGE_SIZE) = path w) as -> by (apply path_vpage; by rewrite !vpage_div, Hq by done).
  by destruct (pt_lookup _ _ _ _ _) as [[[|n] e]|].
Qed.

Lemma sv39_page (m : pmem) (a : A) (root : PhysAddr) (v perms : Z) : table_wf m a root → (0 <= v < 2 ^ 39)%Z → (v `mod` PAGE_SIZE = 0)%Z →
  ∃ r m' a', Sv39.map_page m a root v v perms = Done (r, m', a') ∧ table_wf m' a' root ∧
    match r with
    | inr _ => ∀ w, (0 <= w < 2 ^ 39)%Z → Sv39.translate m' root w =
        if bool_decide (w / PAGE_SIZE = v / PAGE_SIZE)%Z then Done (Some w) else Sv39.translate m root w
    | inl err => (err = OutOfMemory ∨ (err = AlreadyMapped ∧ Sv39.translate m root v ≠ Done None))
        ∧ ∀ w, (0 <= w < 2 ^ 39)%Z → Sv39.translate m' root w = Sv39.translate m root w
    end.
Proof.
  intros Hwf Hv Hal. assert (Hal' : is_aligned v PAGE_SIZE = true) by by apply is_aligned_true.
  destruct (Sv39.map_page_lem m a root v v perms Hwf) as (r&m'&a'&Heq&Hwf'&Hr); [unfold in_width; change (2 ^ 56)%Z with (2 ^ 39 * 131072)%Z; lia|done|done|].
  exists r, m', a'. split_and!; [done|done|]. destruct r as [err|[]]; [destruct Hr as [? Hs]; by split; [|intros w _]|].
  destruct Hr as [_ Hs]. intros w Hw. rewrite Hs, !vpage_div by done. case_bool_decide as Hq; [|done].
  do 2 f_equal. by apply offset_base.
Qed.

Lemma sv39_super (m : pmem) (a : A) (root : PhysAddr) (v perms : Z) : table_wf m a root → (0 <= v < 2 ^ 39)%Z →
  (v `mod` SUPERPAGE_SIZE = 0)%Z → some_perms perms = true →
  ∃ r m' a', Sv39.map_superpage m a root v v SUPERPAGE_SIZE perms = Done (r, m', a') ∧ table_wf m' a' root ∧
    match r with
    | inr _ => ∀ w, (0 <= w < 2 ^ 39)%Z → Sv39.translate m' root w =
        if bool_decide (w / SUPERPAGE_SIZE = v / SUPERPAGE_SIZE)%Z then Done (Some w) else Sv39.translate m root w
    | inl err => ∀ w, (0 <= w < 2 ^ 39)%Z → Sv39.translate m' root w = Sv39.translate m root w
    end.
Proof.
  intros Hwf Hv Hal Hp. assert (Hal' : is_aligned v SUPERPAGE_SIZE = true) by by apply is_aligned_true.
  destruct (Sv39.map_superpage_lem m a root v v perms Hwf) as (r&m'&a'&Heq&Hwf'&Hr); [unfold in_width; change (2 ^ 56)%Z with (2 ^ 39 * 131072)%Z; lia|done|done|done|].
  exists r, m', a'. split_and!; [done|done|]. destruct r as [err|[]]; [destruct Hr as [_ Hs]; by intros w _|].
  intros w Hw. rewrite Hr, !vregion_div by done. case_bool_decide as Hq; [|done].
  do 2 f_equal. change (2 ^ 21)%Z with SUPERPAGE_SIZE. by apply offset_base.
Qed.

Lemma sv39_new (m : pmem) (a : A) (root : PhysAddr) (a' : A) : ps_inv (mask := PPN_MASK) (usize_bits := 64) a ∅ →
  ps_alloc a = Done (Some root, a') →
  let m' := <[root := zero_table PT_ENTRIES]> m in
  table_wf m' a' root ∧ ∀ w, (0 <= w < 2 ^ 39)%Z → Sv39.translate m' root w = Done None.
Proof.
  intros Ha Hal m'. destruct (ps_alloc_ok a ∅ Ha) as (r&a1&Heq&Hr). rewrite Hal in Heq. injection Heq as <- <-. destruct Hr as (Hinv&_&_).
  assert (Hm : m' !! root = Some (zero_table PT_ENTRIES)) by apply lookup_insert_eq.
  split; [by apply (table_new m' a' root ({[root]} ∪ ∅)); [| |set_solver]|].
  intros w _. by apply (translate_new m' a' root ({[root]} ∪ ∅)); [| |set_solver].
Qed.

#[export] Instance sv39_spent `{!PageSourceSpent A} : RiscvPageTableSpent A.
Proof.
  split.
  - intros m a root v p perms r m' a'. cbn. unfold Sv39.map_page. destruct (_ || _); [intros [= <- <- <-] [?|?]; done|]. apply map_at_spent.
  - intros m a root v p size perms r m' a' Hm Hs. revert Hm. cbn. unfold Sv39.map_superpage.
    destruct (negb _); [by intros [= <- <- <-]|]. destruct (_ || _); [by intros [= <- <- <-]|]. intros Hm. eapply map_at_spent; [exact Hm|by left].
Qed.

#[export] Instance sv39_laws : RiscvPageTableLaws A (2 ^ 39).
Proof.
  refine {| rl_wf := table_wf; rl_ready := λ a, ps_inv (mask := PPN_MASK) (usize_bits := 64) a ∅; rl_uniform := sv39_uniform; rl_page := sv39_page |}.
  - lia.
  - right. exists 21%Z. split; [lia|done].
  - intros a Ha. destruct (ps_alloc_ok a ∅ Ha) as (r&a'&Heq&_). by eexists _, _.
  - exact sv39_new.
  - intros m a root v perms size _ Hwf Hv Hal Hp. by apply sv39_super.
Defined.
End sv39_laws.
