(* ===== verification/MmuProps.v ===== *)
(** * What the page tables promise

    The properties of the Sv39, Sv32 and G-stage tables and of the identity
    map of the kernel, each with a table whose frames come from the frame
    allocator as its witness. *)

From S2P Require Export Prelude.
From S2P Require Export FrameAlloc.
From S2P Require Export Sv39.
From S2P Require Export Sv32.
From S2P Require Export GStage.
From S2P Require Export IdentityMap.

(** ** A table to try the properties on *)

Definition demo_root : PhysAddr := 2149580800.
Definition demo_tables (entries : nat) : pmem := {[ demo_root := replicate entries 0%Z ]}.

Lemma first_frame (bound : Z) (fa0 : FrameAllocator) (i : nat) (rest : list nat) : frame_owned fa0 [] → free_list fa0 = i :: rest →
  (base_addr fa0 + Z.of_nat (total_pages fa0) * PAGE_SIZE <= bound)%Z →
  ∃ fa, alloc 0 fa0 = Done (Some (page_addr fa0 i), fa) ∧ frames_inv bound fa {[page_addr fa0 i]}.
Proof.
  intros Ho Hfl Hbd. pose proof (alloc_lowest 0 fa0 (ow_wf _ _ Ho)) as Hal. rewrite Hfl in Hal.
  destruct Hal as (fa&Heq&_&_&Hba&Hto). exists fa. split; [done|]. exists [page_addr fa0 i]. split_and!.
  - by apply (owned_alloc fa0 fa 0 (Some (page_addr fa0 i)) []).
  - cbn [list_to_set]. set_solver.
  - by rewrite Hba, Hto.
Qed.

(** The root is the first frame of a region of 4 frames. *)
Lemma demo_frames (bound : Z) : (2149597184 <= bound)%Z →
  ∃ fa, alloc 0 (init 2149580800 16384) = Done (Some demo_root, fa) ∧ frames_inv bound fa {[demo_root]}.
Proof.
  intros Hbd. assert (Ho : frame_owned (init 2149580800 16384) []) by (apply owned_init; unfold in_width; lia).
  destruct (init_wf 2149580800 16384) as [Hwf Hfl]; [unfold in_width; lia..|].
  exact (first_frame bound _ 0 [1; 2; 3] Ho Hfl Hbd).
Qed.

Lemma demo_sv39 : ∃ fa, table_wf (demo_tables 512) fa demo_root ∧ ∀ va, Sv39.translate (demo_tables 512) demo_root va = Done None.
Proof.
  destruct (demo_frames (2 ^ 56)) as (fa&_&Hfa); [by vm_compute|]. exists fa.
  assert (Hm : demo_tables 512 !! demo_root = Some (zero_table 512)) by apply lookup_singleton_eq.
  split; [eapply table_new|intros va; eapply (translate_new _ fa _ {[demo_root]})]; try done; set_solver.
Qed.

(** ** Sv39 *)

(** C37. Mapping a page with Sv39: a call with aligned addresses never panics
    and keeps the tree of tables; on success the page was not mapped and, of
    all virtual addresses, exactly those of the page now translate, to the same
    offset of the frame; it fails only when the page is mapped or memory runs
    out, and then no translation changes. *)
Theorem sv39_map_page (m : pmem) (fa : FrameAllocator) (root : PhysAddr) (vaddr : VirtAddr) (paddr : PhysAddr) (perms : Z) :
  table_wf m fa root → in_width 56 paddr → is_aligned vaddr PAGE_SIZE = true → is_aligned paddr PAGE_SIZE = true →
  ∃ r m' fa', Sv39.map_page m fa root vaddr paddr perms = Done (r, m', fa') ∧ table_wf m' fa' root
  ∧ match r with
    | inr _ => Sv39.translate m root vaddr = Done None ∧ ∀ va, Sv39.translate m' root va =
        if bool_decide (vpage va = vpage vaddr) then Done (Some (paddr + va `mod` 2 ^ 12)%Z) else Sv39.translate m root va
    | inl err => (err = OutOfMemory ∨ (err = AlreadyMapped ∧ Sv39.translate m root vaddr ≠ Done None))
                 ∧ ∀ va, Sv39.translate m' root va = Sv39.translate m root va
    end.
Proof. apply Sv39.map_page_lem. Qed.

Lemma sv39_map_page_witness : ∃ fa r m' fa',
  Sv39.map_page (demo_tables 512) fa demo_root 4096 8192 PERM_READ = Done (r, m', fa') ∧ table_wf m' fa' demo_root
  ∧ r ≠ inl AlreadyMapped.
Proof.
  destruct demo_sv39 as (fa&Hwf&Hn).
  destruct (sv39_map_page _ fa demo_root 4096 8192 PERM_READ Hwf) as (r&m'&fa'&Heq&Hwf'&Hr); [unfold in_width; lia|reflexivity|reflexivity|].
  exists fa, r, m', fa'. split; [exact Heq|]. split; [exact Hwf'|]. intros ->. destruct Hr as [[?|[_ Hd]] _]; [congruence|].
  destruct Hd. apply Hn.
Defined.

(** Only the low 39 bits of a virtual address select its entries: mapping a
    device above that to itself maps a low address to the device instead. *)
Lemma sv39_high_aliases (m m' : pmem) (fa fa' : FrameAllocator) (root : PhysAddr) (a perms : Z) : table_wf m fa root → (2 ^ 39 <= a < 2 ^ 56)%Z →
  is_aligned a PAGE_SIZE = true → Sv39.map_page m fa root a a perms = Done (inr (), m', fa') →
  Sv39.translate m' root (a `mod` 2 ^ 39)%Z = Done (Some a) ∧ (a `mod` 2 ^ 39 < a)%Z.
Proof.
  intros Hwf Ha Hal Hmap. destruct (Sv39.map_page_lem m fa root a a perms Hwf ltac:(unfold in_width; lia) Hal Hal) as (r&m1&fa1&Heq&_&Hr).
  rewrite Hmap in Heq. injection Heq as <- <- <-. destruct Hr as [_ ->]. unfold is_aligned, vpage, PAGE_SIZE in *. apply Z.eqb_eq in Hal.
  rewrite !Z.land_ones, !Z.shiftr_div_pow2 by lia. change (2 ^ 39)%Z with 549755813888%Z in *. change (2 ^ 12)%Z with 4096%Z. change (2 ^ 27)%Z with 134217728%Z.
  rewrite bool_decide_true by divmod. split; [do 2 f_equal|]; divmod.
Qed.

(** Mapping a 2 MiB superpage with Sv39, with some permission: on success
    every address of the region translates to its offset in the 2 MiB frame and
    no other translation changes; a failure changes none. *)
Theorem sv39_map_superpage (m : pmem) (fa : FrameAllocator) (root : PhysAddr) (vaddr : VirtAddr) (paddr : PhysAddr) (perms : Z) :
  table_wf m fa root → in_width 56 paddr → is_aligned vaddr SUPERPAGE_SIZE = true → is_aligned paddr SUPERPAGE_SIZE = true →
  some_perms perms = true →
  ∃ r m' fa', Sv39.map_superpage m fa root vaddr paddr SUPERPAGE_SIZE perms = Done (r, m', fa') ∧ table_wf m' fa' root
  ∧ match r with
    | inr _ => ∀ va, Sv39.translate m' root va =
        if bool_decide (vregion va = vregion vaddr) then Done (Some (paddr + va `mod` 2 ^ 21)%Z) else Sv39.translate m root va
    | inl err => (err = OutOfMemory ∨ err = AlreadyMapped) ∧ ∀ va, Sv39.translate m' root va = Sv39.translate m root va
    end.
Proof. apply Sv39.map_superpage_lem. Qed.

Lemma sv39_map_superpage_witness : ∃ fa r m' fa',
  Sv39.map_superpage (demo_tables 512) fa demo_root 2097152 4194304 SUPERPAGE_SIZE PERM_READ = Done (r, m', fa') ∧ table_wf m' fa' demo_root.
Proof.
  destruct demo_sv39 as (fa&Hwf&Hn).
  destruct (sv39_map_superpage _ fa demo_root 2097152 4194304 PERM_READ Hwf) as (r&m'&fa'&Heq&Hwf'&_);
    [unfold in_width; lia|reflexivity|reflexivity|reflexivity|].
  exists fa, r, m', fa'. split; [exact Heq|exact Hwf'].
Defined.

(** Unmapping a page with Sv39 returns the frame it translated to and
    removes exactly the translations of that page; a page that is not mapped,
    or that a superpage covers, is reported and nothing changes. *)
Theorem sv39_unmap_page (m : pmem) (fa : FrameAllocator) (root : PhysAddr) (vaddr : VirtAddr) :
  table_wf m fa root → is_aligned vaddr PAGE_SIZE = true →
  ∃ r m', Sv39.unmap_page m root vaddr = Done (r, m') ∧ table_wf m' fa root
  ∧ match r with
    | inr pa => Sv39.translate m root vaddr = Done (Some pa)
        ∧ ∀ va, Sv39.translate m' root va = if bool_decide (vpage va = vpage vaddr) then Done None else Sv39.translate m root va
    | inl NotMapped => Sv39.translate m root vaddr = Done None ∧ m' = m
    | inl InvalidRegion => Sv39.translate m root vaddr ≠ Done None ∧ m' = m
    | inl _ => False
    end.
Proof. apply Sv39.unmap_page_lem. Qed.

Lemma sv39_unmap_page_witness : ∃ fa m', table_wf (demo_tables 512) fa demo_root
  ∧ Sv39.unmap_page (demo_tables 512) demo_root 4096 = Done (inl NotMapped, m') ∧ m' = demo_tables 512.
Proof.
  destruct demo_sv39 as (fa&Hwf&Hn).
  destruct (sv39_unmap_page _ fa demo_root 4096 Hwf eq_refl) as (r&m'&Heq&Hwf'&Hr).
  exists fa, m'. split; [exact Hwf|]. rewrite Hn in Hr.
  destruct r as [[]|pa]; try contradiction; try (destruct Hr as [Hr ?]; congruence).
  split; [exact Heq|apply Hr].
Defined.

(** ** Sv32 *)

Lemma demo_sv32 : ∃ fa, Sv32.table_wf (demo_tables 1024) fa demo_root ∧ ∀ va, Sv32.translate (demo_tables 1024) demo_root va = Done None.
Proof.
  destruct (demo_frames (2 ^ 32)) as (fa&_&Hfa); [by vm_compute|]. exists fa.
  assert (Hm : demo_tables 1024 !! demo_root = Some (zero_table 1024)) by apply lookup_singleton_eq.
  split; [eapply Sv32.sv32_table_new|intros va; eapply (Sv32.sv32_translate_new _ fa _ {[demo_root]})]; try done; set_solver.
Qed.

(** Mapping a page with Sv32, for a frame below 4 GiB: on success exactly
    the addresses of the page become mapped, to the same offset of the frame;
    the failures are those of a mapped page and of lack of memory, and change
    no translation. *)
Theorem sv32_map_page (m : pmem) (fa : FrameAllocator) (root : PhysAddr) (vaddr : VirtAddr) (paddr : PhysAddr) (perms : Z) :
  Sv32.table_wf m fa root → in_width 32 paddr → is_aligned vaddr PAGE_SIZE = true → is_aligned paddr PAGE_SIZE = true →
  ∃ r m' fa', Sv32.map_page m fa root vaddr paddr perms = Done (r, m', fa') ∧ Sv32.table_wf m' fa' root
  ∧ match r with
    | inr _ => Sv32.translate m root vaddr = Done None ∧ ∀ va, Sv32.translate m' root va =
        if bool_decide (Sv32.vpage va = Sv32.vpage vaddr) then Done (Some (paddr + va `mod` 2 ^ 12)%Z) else Sv32.translate m root va
    | inl err => (err = OutOfMemory ∨ (err = AlreadyMapped ∧ Sv32.translate m root vaddr ≠ Done None))
                 ∧ ∀ va, Sv32.translate m' root va = Sv32.translate m root va
    end.
Proof. apply Sv32.sv32_map_page_lem. Qed.

Lemma sv32_map_page_witness : ∃ fa r m' fa',
  Sv32.map_page (demo_tables 1024) fa demo_root 4096 8192 PERM_READ = Done (r, m', fa') ∧ Sv32.table_wf m' fa' demo_root
  ∧ r ≠ inl AlreadyMapped.
Proof.
  destruct demo_sv32 as (fa&Hwf&Hn).
  destruct (sv32_map_page _ fa demo_root 4096 8192 PERM_READ Hwf) as (r&m'&fa'&Heq&Hwf'&Hr); [unfold in_width; lia|reflexivity|reflexivity|].
  exists fa, r, m', fa'. split; [exact Heq|]. split; [exact Hwf'|]. intros ->. destruct Hr as [[?|[_ Hd]] _]; [congruence|].
  destruct Hd. apply Hn.
Defined.

(** ** The G-stage *)

(** Mapping a region of guest memory, below 2^39: the page loop ends, and
    on success exactly the guest addresses of the pages of the region translate
    differently, to the host address at the same distance from the base; it can
    fail only for lack of memory or on a page that is mapped. *)
Theorem gstage_map_region (m : pmem) (fa : FrameAllocator) (root gpa_base hpa_base : PhysAddr) (size perms : Z) :
  let pages := ((size + PAGE_SIZE - 1) / PAGE_SIZE)%Z in
  GStage.table_wf m fa root → is_aligned gpa_base PAGE_SIZE = true → is_aligned hpa_base PAGE_SIZE = true →
  (0 <= gpa_base)%Z → (0 <= hpa_base)%Z → (0 <= size)%Z →
  (gpa_base + pages * PAGE_SIZE <= 2 ^ 39)%Z → (hpa_base + pages * PAGE_SIZE <= 2 ^ 56)%Z →
  ∃ r m' fa', GStage.map_region m fa root gpa_base hpa_base size perms = Done (r, m', fa') ∧ GStage.table_wf m' fa' root
  ∧ match r with
    | inl err => err = OutOfMemory ∨ err = AlreadyMapped
    | inr _ => ∀ g, GStage.in_gpa g → GStage.translate m' root g =
        if bool_decide (gpa_base <= g < gpa_base + pages * PAGE_SIZE)%Z
        then Done (Some (hpa_base + (g - gpa_base))%Z) else GStage.translate m root g
    end.
Proof.
  intros pages Hwf Hga Hha Hg0 Hh0 Hs Hg Hh. unfold GStage.map_region.
  assert (Hp : (0 <= pages)%Z) by (unfold pages, PAGE_SIZE; divmod).
  rewrite add_w_Done by (unfold pages, PAGE_SIZE in *; change (2 ^ 39)%Z with 549755813888%Z in Hg; divmod).
  cbn [mbind exec_bind]. fold pages.
  destruct (GStage.map_pages_lem perms gpa_base hpa_base root Hga Hha (Z.to_nat pages) 0 m fa Hwf Hg0 Hh0) as (r&m'&fa'&Heq&Hwf'&Hr);
    [by cbn [Nat.add]; rewrite Z2Nat.id by done..|].
  exists r, m', fa'. split_and!; [done|done|]. destruct r as [err|u]; [done|]. intros g Hgg.
  rewrite Hr by done. cbn [Nat.add]. by rewrite Z2Nat.id, Z.add_0_r by done.
Qed.

Lemma gstage_map_region_witness : ∃ fa r m' fa',
  GStage.map_region (demo_tables 512) fa demo_root 2147483648 2155872256 10000 PERM_READ = Done (r, m', fa') ∧ GStage.table_wf m' fa' demo_root.
Proof.
  destruct (demo_frames (2 ^ 56)) as (fa&_&Hfa); [vm_compute; discriminate|].
  assert (Hwf : GStage.table_wf (demo_tables 512) fa demo_root).
  { apply (GStage.gst_table_new _ _ _ {[demo_root]}); [apply lookup_singleton_eq|exact Hfa|set_solver]. }
  destruct (gstage_map_region _ fa demo_root 2147483648 2155872256 10000 PERM_READ Hwf) as (r&m'&fa'&Heq&Hwf'&_);
    [reflexivity|reflexivity|lia|lia|lia|vm_compute; discriminate|vm_compute; discriminate|].
  exists fa, r, m', fa'. split; [exact Heq|exact Hwf'].
Defined.

(** A guest address from 2^39 up has a root index beyond the 512 entries of
    the root table: its translation panics instead of reporting no mapping. *)
Theorem gstage_root_panics (m : pmem) (root gpa : PhysAddr) (es : list Z) : m !! root = Some es → length es = PT_ENTRIES →
  (2 ^ 39 <= gpa < 2 ^ 41)%Z → GStage.translate m root gpa = Stuck.
Proof. apply GStage.root_out_of_bounds. Qed.

Lemma gstage_root_panics_witness : GStage.translate (demo_tables 512) demo_root 549755813888 = Stuck.
Proof.
  apply (gstage_root_panics _ _ _ (replicate 512 0%Z)); [apply lookup_singleton_eq|reflexivity|].
  split; [vm_compute; discriminate|vm_compute; reflexivity].
Defined.

(** ** The identity map *)

(** The page of an address is the guard page of a task stack. *)
Definition guarded (guards : list Z) (w : Z) : bool := is_stack_guard_page guards (w / PAGE_SIZE * PAGE_SIZE).

Lemma kernel_perms_Done (s : KernelSections) (v : Z) : (0 <= text_end s)%Z → (text_end s + PAGE_SIZE < 2 ^ 64)%Z →
  (0 <= rodata_end s)%Z → (rodata_end s + PAGE_SIZE < 2 ^ 64)%Z → ∃ p, kernel_memory_perms v s = Done p ∧ some_perms p = true.
Proof.
  intros Ht0 Ht Hr0 Hr. unfold kernel_memory_perms. rewrite !align_up_spec by done. cbn [mbind exec_bind].
  destruct (_ && _); [by eexists|]. destruct (_ && _); by eexists.
Qed.

(** The permissions of the region: none for a guard page. *)
Definition region_perms (guards : list Z) (s : KernelSections) (v : Z) : option Z :=
  if is_stack_guard_page guards v then None else match kernel_memory_perms v s with Done p => Some p | Stuck => None end.

Definition sections_ok (s : KernelSections) : Prop :=
  (0 <= text_end s ∧ text_end s + PAGE_SIZE < 2 ^ 64 ∧ 0 <= rodata_end s ∧ rodata_end s + PAGE_SIZE < 2 ^ 64)%Z.

Lemma memory_perms_spec (guards : list Z) (s : KernelSections) : sections_ok s →
  (∀ v, memory_perms guards s v = Done (region_perms guards s v)) ∧ (∀ v p, region_perms guards s v = Some p → some_perms p = true)
  ∧ ∀ w, region_perms guards s (w / PAGE_SIZE * PAGE_SIZE) ≠ None ↔ guarded guards w = false.
Proof.
  intros (Ht0&Ht&Hr0&Hr). unfold memory_perms, region_perms, guarded. split_and!.
  - intros v. destruct (is_stack_guard_page guards v); [done|]. by destruct (kernel_perms_Done s v Ht0 Ht Hr0 Hr) as (p&->&_).
  - intros v p. destruct (is_stack_guard_page guards v); [done|]. destruct (kernel_perms_Done s v Ht0 Ht Hr0 Hr) as (q&->&Hq). by intros [= <-].
  - intros w. destruct (is_stack_guard_page guards _); [done|]. by destruct (kernel_perms_Done s (w / PAGE_SIZE * PAGE_SIZE) Ht0 Ht Hr0 Hr) as (q&->&Hq).
Qed.

(** Identity mapping of memory: the loop over the region ends; afterwards
    exactly the pages of the region that are no stack guard page translate, each
    address to itself, whatever mix of superpages and pages was chosen, and the
    other translations are what they were; the loop stops early only at a page
    whose mapping ran out of memory. *)
Theorem memory_identity_mapped (guards : list Z) (s : KernelSections) (m : pmem) (fa : FrameAllocator) (root : PhysAddr) (base size : Z) :
  let start := (base / PAGE_SIZE * PAGE_SIZE)%Z in
  let stop := ((base + size + PAGE_SIZE - 1) / PAGE_SIZE * PAGE_SIZE)%Z in
  table_wf m fa root →
  (∀ w, (0 <= w < 2 ^ 39)%Z → Sv39.translate m root w = Done None ∨ Sv39.translate m root w = Done (Some w)) →
  (0 <= base)%Z → (0 < size)%Z → (stop <= 2 ^ 39)%Z →
  (0 <= text_end s)%Z → (text_end s + PAGE_SIZE < 2 ^ 64)%Z → (0 <= rodata_end s)%Z → (rodata_end s + PAGE_SIZE < 2 ^ 64)%Z →
  ∃ b m' fa', map_memory_region (H := sv39_table) guards s m fa root base size = Done (b, m', fa') ∧ table_wf m' fa' root
  ∧ ∃ fin, (start <= fin <= stop)%Z
    ∧ (fin = stop ∨ ∃ perms m1 (fa1 : FrameAllocator), Sv39.map_page m1 fa1 root fin fin perms = Done (inl OutOfMemory, m', fa'))
    ∧ ∀ w, (0 <= w < 2 ^ 39)%Z → Sv39.translate m' root w =
        if bool_decide (start <= w < fin)%Z && negb (guarded guards w) then Done (Some w) else Sv39.translate m root w.
Proof.
  intros start stop Hwf Hid Hb Hs Hst Ht0 Ht Hr0 Hr.
  destruct (memory_perms_spec guards s) as (Hpf&Hps&Hgd); [done|].
  destruct (region_spec (H := sv39_table) (2 ^ 39) (RiscvPageTableLaws0 := sv39_laws) (memory_perms guards s) (region_perms guards s) root base size true m fa Hpf Hps Hwf Hid Hb Hs Hst)
    as (b&m'&fa'&Heq&[Hwf' _ (fin&Hf&Hm&Hend) _]&_).
  exists b, m', fa'. split_and!; [done|done|]. exists fin. split_and!; [apply Hf|apply Hf|done|].
  intros w Hw. refine (eq_trans (Hm w Hw) _). specialize (Hgd w).
  destruct (guarded guards w); cbn [negb]; rewrite ?andb_true_r, ?andb_false_r.
  - rewrite bool_decide_false; [done|]. intros [_ Hp]. by apply Hgd in Hp.
  - rewrite (bool_decide_ext _ (start <= w < fin)%Z); [done|]. split; [by intros []|]. intros. split; [done|]. by apply Hgd.
Qed.

Lemma memory_identity_mapped_witness : ∃ fa b m' fa',
  map_memory_region (H := sv39_table) [2147487744%Z] (mk_sections 2147483648 2147487744 2147487744 2147491840)
    (demo_tables 512) fa demo_root 2147483648 4194304 = Done (b, m', fa')
  ∧ table_wf m' fa' demo_root ∧ Sv39.translate m' demo_root 2147487800 = Done None.
Proof.
  destruct demo_sv39 as (fa&Hwf&Hn).
  destruct (memory_identity_mapped [2147487744%Z] (mk_sections 2147483648 2147487744 2147487744 2147491840)
    (demo_tables 512) fa demo_root 2147483648 4194304 Hwf) as (b&m'&fa'&Heq&Hwf'&fin&_&_&Hw);
    [intros w _; left; apply Hn|lia|lia|vm_compute; discriminate|vm_compute; discriminate|reflexivity|vm_compute; discriminate|reflexivity|].
  exists fa, b, m', fa'. split; [exact Heq|]. split; [exact Hwf'|].
  rewrite Hw by (split; [lia|reflexivity]). rewrite Hn. change (guarded _ _) with true. by rewrite andb_false_r.
Defined.
