(* ===== verification/Str.v ===== *)
(** * Byte strings

    A [str] is the list of its bytes; what the source uses of the standard
    library's strings and slices: UTF-8 validation, splitting and trimming at
    a separator, prefixes, [rfind], [copy_from_slice]. *)

From S2P Require Export Prelude.

Abbreviation str := (list Z).

Definition SLASH : Z := 47.

(** The bytes of a literal. *)
Definition bytes (s : string) : str := (λ c, Z.of_nat (Ascii.nat_of_ascii c)) <$> String.list_ascii_of_string s.

(** ** UTF-8 *)

Definition in_range (lo hi b : Z) : bool := (lo <=? b)%Z && (b <=? hi)%Z.
Definition is_cont (b : Z) : bool := in_range 0x80 0xBF b.

(** The second byte a first byte allows, for three and four byte sequences. *)
Definition second3 (b0 b1 : Z) : bool :=
  if (b0 =? 0xE0)%Z then in_range 0xA0 0xBF b1 else
  if (b0 =? 0xED)%Z then in_range 0x80 0x9F b1 else in_range 0xE1 0xEF b0 && is_cont b1.
Definition second4 (b0 b1 : Z) : bool :=
  if (b0 =? 0xF0)%Z then in_range 0x90 0xBF b1 else
  if (b0 =? 0xF4)%Z then in_range 0x80 0x8F b1 else in_range 0xF1 0xF3 b0 && is_cont b1.

Fixpoint utf8_valid (l : str) : bool :=
  match l with
  | [] => true
  | b0 :: l1 =>
      if in_range 0 0x7F b0 then utf8_valid l1 else
      match l1 with
      | [] => false
      | b1 :: l2 =>
          if in_range 0xC2 0xDF b0 && is_cont b1 then utf8_valid l2 else
          match l2 with
          | [] => false
          | b2 :: l3 =>
              if second3 b0 b1 && is_cont b2 then utf8_valid l3 else
              match l3 with
              | [] => false
              | b3 :: l4 => second4 b0 b1 && is_cont b2 && is_cont b3 && utf8_valid l4
              end
          end
      end
  end.

(** [core::str::from_utf8(bs).unwrap_or([])]. *)
Definition from_utf8_or_empty (bs : list Z) : str := if utf8_valid bs then bs else [].

(** ** Slices *)

(** [dst[..len].copy_from_slice(&src[..len])]. *)
Definition copy_prefix (dst src : list Z) (len : nat) : exec (list Z) :=
  if (len <=? length dst) && (len <=? length src) then Done (take len src ++ drop len dst) else Stuck.

Lemma copy_prefix_Done (dst src : list Z) (len : nat) : len ≤ length dst → len ≤ length src →
  copy_prefix dst src len = Done (take len src ++ drop len dst).
Proof. intros Hd Hs. unfold copy_prefix. by rewrite (proj2 (Nat.leb_le _ _) Hd), (proj2 (Nat.leb_le _ _) Hs). Qed.

Lemma prefix_exec_Done {A} (l : list A) (n : nat) : n ≤ length l → prefix_exec l n = Done (take n l).
Proof. intros Hn. unfold prefix_exec. by rewrite (proj2 (Nat.leb_le _ _) Hn). Qed.

Lemma length_copied (dst src : list Z) (len : nat) : len ≤ length dst → len ≤ length src →
  length (take len src ++ drop len dst) = length dst.
Proof. intros. rewrite length_app, length_take, length_drop. lia. Qed.

Lemma take_copied (dst src : list Z) (len : nat) : len ≤ length src → take len (take len src ++ drop len dst) = take len src.
Proof. intros. rewrite take_app_le by (rewrite length_take; lia). rewrite take_take. f_equal. lia. Qed.

(** [l[off..off + n]]. *)
Definition slice_exec (l : list Z) (off n : nat) : exec (list Z) :=
  if (off + n <=? length l) then Done (take n (drop off l)) else Stuck.

Lemma slice_Done (l : list Z) (off n : nat) : off + n ≤ length l → slice_exec l off n = Done (take n (drop off l)).
Proof. intros Hl. unfold slice_exec. by rewrite (proj2 (Nat.leb_le _ _) Hl). Qed.

(** ** Splitting *)

Fixpoint split_on (c : Z) (l : str) : list str :=
  match l with
  | [] => [[]]
  | x :: r =>
      if (x =? c)%Z then [] :: split_on c r else
      match split_on c r with
      | h :: t => (x :: h) :: t
      | [] => [[x]]
      end
  end.

Fixpoint trim_start (c : Z) (l : str) : str :=
  match l with
  | [] => []
  | x :: r => if (x =? c)%Z then trim_start c r else l
  end.

(** The components of a path: the non-empty pieces between slashes. *)
Definition components (path : str) : list str := filter (λ c, c ≠ []) (split_on SLASH path).

Fixpoint starts_with (l prefix : str) {struct prefix} : bool :=
  match prefix, l with
  | [], _ => true
  | p :: prefix, x :: l => (x =? p)%Z && starts_with l prefix
  | _, [] => false
  end.

Definition strip_prefix (l prefix : str) : option str :=
  if starts_with l prefix then Some (drop (length prefix) l) else None.

Definition ends_with_byte (l : str) (c : Z) : bool := match last l with Some x => (x =? c)%Z | None => false end.

(** The index of the last occurrence. *)
Fixpoint rfind (c : Z) (l : str) : option nat :=
  match l with
  | [] => None
  | x :: r =>
      match rfind c r with
      | Some i => Some (S i)
      | None => if (x =? c)%Z then Some 0 else None
      end
  end.

Lemma split_on_cons (c : Z) (l : str) : ∃ h t, split_on c l = h :: t.
Proof.
  destruct l as [|x r]; [by exists [], []|]. cbn. destruct (x =? c)%Z; [by eexists _, _|].
  destruct (split_on c r); by eexists _, _.
Qed.

Lemma split_on_none (c : Z) (l : str) : c ∉ l → split_on c l = [l].
Proof.
  induction l as [|x l IH]; intros Hl; [done|]. apply not_elem_of_cons in Hl as [Hx Hl]. cbn [split_on].
  rewrite (proj2 (Z.eqb_neq x c)) by congruence. by rewrite IH.
Qed.

Lemma split_on_app (a : str) (rest : str) : SLASH ∉ a → split_on SLASH (a ++ SLASH :: rest) = a :: split_on SLASH rest.
Proof.
  induction a as [|x a IH]; intros Ha; cbn [app split_on]; [by rewrite Z.eqb_refl|]. apply not_elem_of_cons in Ha as [Hx Ha].
  destruct (Z.eqb_spec x SLASH); [congruence|]. by rewrite (IH Ha).
Qed.

Lemma components_slash (path : str) : components (SLASH :: path) = components path.
Proof. unfold components. cbn [split_on]. rewrite Z.eqb_refl. rewrite filter_cons_False; [done|]. intros Hn. by apply Hn. Qed.

Lemma components_trim (path : str) : components (trim_start SLASH path) = components path.
Proof.
  induction path as [|x r IH]; [done|]. cbn [trim_start]. destruct (Z.eqb_spec x SLASH) as [->|Hne]; [|done].
  by rewrite components_slash.
Qed.

Lemma starts_with_app (l prefix : str) : starts_with l prefix = true ↔ ∃ rest, l = prefix ++ rest.
Proof.
  revert l. induction prefix as [|p prefix IH]; intros l; cbn; [split; [intros _; by exists l|done]|].
  destruct l as [|x l]; [split; [done|by intros []]|]. rewrite andb_true_iff, Z.eqb_eq, IH. split.
  - intros [-> [rest ->]]. by exists rest.
  - intros [rest [= -> ->]]. split; [done|]. by exists rest.
Qed.

Lemma rfind_None (c : Z) (l : str) : rfind c l = None ↔ c ∉ l.
Proof.
  induction l as [|x r IH]; cbn; [split; [intros _; by apply not_elem_of_nil|done]|].
  rewrite not_elem_of_cons. destruct (rfind c r) as [i|].
  - split; [done|]. intros [_ Hr]. by apply IH in Hr.
  - destruct (Z.eqb_spec x c) as [->|Hne]; split; try done.
    + by intros [].
    + intros _. split; [congruence|by apply IH].
Qed.

Lemma rfind_Some (c : Z) (l : str) (i : nat) : rfind c l = Some i ↔ ∃ a b, l = a ++ c :: b ∧ length a = i ∧ c ∉ b.
Proof.
  revert i. induction l as [|x r IH]; intros i; cbn.
  { split; [done|]. intros (a&b&Hl&_). by destruct a. }
  destruct (rfind c r) as [j|] eqn:E.
  - split.
    + intros [= <-]. destruct (proj1 (IH j) eq_refl) as (a&b&->&<-&Hb). by exists (x :: a), b.
    + intros (a&b&Hl&Hi&Hb). destruct a as [|y a]; cbn in *; injection Hl as -> ->.
      * apply rfind_None in Hb. congruence.
      * subst i. f_equal. assert (Some j = Some (length a)) as [= ->]; [|done]. apply IH. by exists a, b.
  - apply rfind_None in E. destruct (Z.eqb_spec x c) as [->|Hne].
    + split; [intros [= <-]; by exists [], r|]. intros (a&b&Hl&Hi&Hb). destruct a as [|y a]; cbn in *; [by subst|].
      injection Hl as -> ->. exfalso. apply E, elem_of_app. right. by left.
    + split; [done|]. intros (a&b&Hl&Hi&Hb). destruct a as [|y a]; cbn in *; injection Hl as -> ->; [done|].
      exfalso. apply E, elem_of_app. right. by left.
Qed.

(** ** Little-endian numbers *)

Definition le_bytes (bs : list Z) : Z := foldr (λ b acc, b + 256 * acc)%Z 0%Z bs.

Definition byte_list (l : list Z) : Prop := Forall (λ b, 0 <= b < 256)%Z l.

(** Little-endian bytes of a number. *)
Fixpoint to_le (n : nat) (x : Z) : list Z :=
  match n with O => [] | S n => (x `mod` 256)%Z :: to_le n (x / 256)%Z end.

Lemma le_bytes_range (bs : list Z) : byte_list bs → (0 <= le_bytes bs < 2 ^ (8 * Z.of_nat (length bs)))%Z.
Proof.
  induction 1 as [|b bs Hb _ IH]; [by vm_compute|]. cbn [length]. rewrite Nat2Z.inj_succ.
  replace (8 * Z.succ (Z.of_nat (length bs)))%Z with (8 + 8 * Z.of_nat (length bs))%Z by lia.
  rewrite Z.pow_add_r by lia. change (2 ^ 8)%Z with 256%Z. cbn [le_bytes foldr] in *. fold (le_bytes bs) in *. nia.
Qed.

Lemma byte_list_slice (l : list Z) (off n : nat) : byte_list l → byte_list (take n (drop off l)).
Proof. intros Hl. by apply Forall_take, Forall_drop. Qed.

Lemma length_to_le (n : nat) (x : Z) : length (to_le n x) = n.
Proof. revert x. induction n as [|n IH]; intros x; cbn; [done|]. by rewrite IH. Qed.

Lemma to_le_bytes (n : nat) : ∀ x, in_width (8 * Z.of_nat n) x → le_bytes (to_le n x) = x.
Proof.
  induction n as [|n IH]; intros x Hx; unfold in_width in *; cbn [to_le le_bytes foldr]; [lia|].
  fold (le_bytes (to_le n (x / 256))). rewrite IH; [|split].
  - pose proof (Z.div_mod x 256 ltac:(lia)). lia.
  - apply Z.div_pos; lia.
  - apply Z.div_lt_upper_bound; [lia|]. change 256%Z with (2 ^ 8)%Z. rewrite <- Z.pow_add_r by lia.
    replace (8 + 8 * Z.of_nat n)%Z with (8 * Z.of_nat (S n))%Z by lia. lia.
Qed.

Lemma to_le_byte_list (n : nat) : ∀ x, byte_list (to_le n x).
Proof. induction n as [|n IH]; intros x; cbn; constructor; [apply Z.mod_pos_bound; lia|apply IH]. Qed.
