(* ===== verification/Text.v ===== *)
(** * Text: what the shell uses of the standard library's strings

    A valid string as its characters, Unicode white space, [trim],
    [split_whitespace], [find], the numbers of the formatting macros, and the
    console writer of [kernel/src/log.rs]. *)

From S2P Require Export Prelude.
From S2P Require Export Str.

(** ** Characters *)

(** The encodings of the characters of a valid string. *)
Fixpoint chars (l : str) : list str :=
  match l with
  | [] => []
  | b0 :: l1 =>
      if (b0 <? 0x80)%Z then [b0] :: chars l1 else
      match l1 with
      | [] => [[b0]]
      | b1 :: l2 =>
          if (b0 <? 0xE0)%Z then [b0; b1] :: chars l2 else
          match l2 with
          | [] => [[b0; b1]]
          | b2 :: l3 =>
              if (b0 <? 0xF0)%Z then [b0; b1; b2] :: chars l3 else
              match l3 with
              | [] => [[b0; b1; b2]]
              | b3 :: l4 => [b0; b1; b2; b3] :: chars l4
              end
          end
      end
  end.

(** A character is transparent to validation, and is one byte below 128 or
    bytes from 128 on. *)
Definition is_char (c : str) : Prop :=
  (∀ r, utf8_valid (c ++ r) = utf8_valid r) ∧ ((∃ b, c = [b] ∧ (0 <= b < 0x80)%Z) ∨ Forall (λ b, 0x80 <= b)%Z c) ∧ c ≠ [].

Lemma in_range_iff (lo hi b : Z) : in_range lo hi b = true ↔ (lo <= b <= hi)%Z.
Proof. unfold in_range. rewrite andb_true_iff, !Z.leb_le. done. Qed.

Lemma is_cont_high (b : Z) : is_cont b = true → (0x80 <= b)%Z.
Proof. unfold is_cont. rewrite in_range_iff. lia. Qed.

Lemma second3_high (b0 b1 : Z) : second3 b0 b1 = true → (0xE0 <= b0 <= 0xEF)%Z ∧ (0x80 <= b1)%Z.
Proof.
  unfold second3. destruct (Z.eqb_spec b0 0xE0); [rewrite in_range_iff; lia|]. destruct (Z.eqb_spec b0 0xED); [rewrite in_range_iff; lia|].
  rewrite andb_true_iff, in_range_iff. intros [? ?%is_cont_high]. lia.
Qed.

Lemma second4_high (b0 b1 : Z) : second4 b0 b1 = true → (0xF0 <= b0 <= 0xF4)%Z ∧ (0x80 <= b1)%Z.
Proof.
  unfold second4. destruct (Z.eqb_spec b0 0xF0); [rewrite in_range_iff; lia|]. destruct (Z.eqb_spec b0 0xF4); [rewrite in_range_iff; lia|].
  rewrite andb_true_iff, in_range_iff. intros [? ?%is_cont_high]. lia.
Qed.

Lemma ascii_char (b : Z) : (0 <= b < 0x80)%Z → is_char [b].
Proof.
  intros Hb. split; [|split; [left; by exists b|done]]. intros r. cbn [app utf8_valid].
  by rewrite (proj2 (in_range_iff 0 0x7F b)) by lia.
Qed.

Lemma char2 (b0 b1 : Z) : in_range 0xC2 0xDF b0 && is_cont b1 = true → is_char [b0; b1].
Proof.
  intros H. pose proof H as [?%in_range_iff ?%is_cont_high]%andb_true_iff. split; [|split; [right|done]].
  - intros r. cbn [app utf8_valid]. destruct (in_range 0 0x7F b0) eqn:E; [apply in_range_iff in E; lia|]. by rewrite H.
  - repeat constructor; lia.
Qed.

Lemma char3 (b0 b1 b2 : Z) : second3 b0 b1 && is_cont b2 = true → is_char [b0; b1; b2].
Proof.
  intros H. pose proof H as [[? ?]%second3_high ?%is_cont_high]%andb_true_iff. split; [|split; [right|done]].
  - intros r. cbn [app utf8_valid]. destruct (in_range 0 0x7F b0) eqn:E; [apply in_range_iff in E; lia|].
    destruct (in_range 0xC2 0xDF b0) eqn:E2; [apply in_range_iff in E2; lia|]. cbn [andb]. by rewrite H.
  - repeat constructor; lia.
Qed.

Lemma char4 (b0 b1 b2 b3 : Z) : second4 b0 b1 && is_cont b2 && is_cont b3 = true → is_char [b0; b1; b2; b3].
Proof.
  intros H. pose proof H as [[[? ?]%second4_high ?%is_cont_high]%andb_true_iff ?%is_cont_high]%andb_true_iff. split; [|split; [right|done]].
  - intros r. cbn [app utf8_valid]. destruct (in_range 0 0x7F b0) eqn:E; [apply in_range_iff in E; lia|].
    destruct (in_range 0xC2 0xDF b0) eqn:E2; [apply in_range_iff in E2; lia|]. cbn [andb].
    destruct (second3 b0 b1) eqn:E3; [apply second3_high in E3; lia|]. cbn [andb]. by rewrite H.
  - repeat constructor; lia.
Qed.

Lemma chars_valid (n : nat) : ∀ l, length l ≤ n → utf8_valid l = true → Forall is_char (chars l) ∧ concat (chars l) = l.
Proof.
  induction n as [|n IH]; intros [|b0 l1] Hl; cbn [length] in Hl; [done|lia|done|]. cbn [utf8_valid chars].
  destruct (in_range 0 0x7F b0) eqn:E0.
  { apply in_range_iff in E0. intros Hv. rewrite (proj2 (Z.ltb_lt _ _)) by lia. destruct (IH l1 ltac:(lia) Hv) as [H1 H2].
    split; [constructor; [apply ascii_char; lia|done]|]. cbn. by rewrite H2. }
  destruct l1 as [|b1 l2]; [done|]. cbn [length] in Hl. destruct (in_range 0xC2 0xDF b0 && is_cont b1) eqn:E1.
  { pose proof E1 as [Hr%in_range_iff _]%andb_true_iff. intros Hv. rewrite (proj2 (Z.ltb_ge _ _)), (proj2 (Z.ltb_lt _ _)) by lia.
    destruct (IH l2 ltac:(lia) Hv) as [H1 H2]. split; [constructor; [by apply char2|done]|]. cbn. by rewrite H2. }
  destruct l2 as [|b2 l3]; [done|]. cbn [length] in Hl. destruct (second3 b0 b1 && is_cont b2) eqn:E2.
  { pose proof E2 as [[Hr _]%second3_high _]%andb_true_iff. intros Hv.
    rewrite (proj2 (Z.ltb_ge b0 0x80)), (proj2 (Z.ltb_ge b0 0xE0)), (proj2 (Z.ltb_lt b0 0xF0)) by lia.
    destruct (IH l3 ltac:(lia) Hv) as [H1 H2]. split; [constructor; [by apply char3|done]|]. cbn. by rewrite H2. }
  destruct l3 as [|b3 l4]; [done|]. cbn [length] in Hl. intros [H4 Hv]%andb_true_iff.
  pose proof H4 as [[[Hr _]%second4_high _]%andb_true_iff _]%andb_true_iff.
  rewrite (proj2 (Z.ltb_ge b0 0x80)), (proj2 (Z.ltb_ge b0 0xE0)), (proj2 (Z.ltb_ge b0 0xF0)) by lia.
  destruct (IH l4 ltac:(lia) Hv) as [H1 H2]. split; [constructor; [by apply char4|done]|]. cbn. by rewrite H2.
Qed.

Lemma chars_Forall (l : str) : utf8_valid l = true → Forall is_char (chars l).
Proof. intros Hv. by apply (chars_valid (length l)). Qed.
Lemma concat_chars (l : str) : utf8_valid l = true → concat (chars l) = l.
Proof. intros Hv. by apply (chars_valid (length l)). Qed.

Lemma concat_valid (cs : list str) (r : str) : Forall is_char cs → utf8_valid (concat cs ++ r) = utf8_valid r.
Proof. induction 1 as [|c cs (Hc&_&_) _ IH]; cbn; [done|]. by rewrite <- app_assoc, Hc. Qed.

Lemma valid_app (a b : str) : utf8_valid a = true → utf8_valid (a ++ b) = utf8_valid b.
Proof. intros Ha. rewrite <- (concat_chars a Ha). apply concat_valid. by apply chars_Forall. Qed.

Lemma valid_app_true (a b : str) : utf8_valid a = true → utf8_valid b = true → utf8_valid (a ++ b) = true.
Proof. intros Ha Hb. by rewrite valid_app. Qed.

Lemma valid_concat (ls : list str) : Forall (λ l, utf8_valid l = true) ls → utf8_valid (concat ls) = true.
Proof. induction 1 as [|l ls Hl _ IH]; [done|]. cbn. by apply valid_app_true. Qed.

Lemma valid_ascii (l : str) : Forall (λ b, 0 <= b < 0x80)%Z l → utf8_valid l = true.
Proof.
  induction 1 as [|b l Hb _ IH]; [done|]. cbn [utf8_valid]. by rewrite (proj2 (in_range_iff 0 0x7F b)) by lia.
Qed.

(** A valid string splits at an ASCII byte into valid strings. *)
Lemma chars_split (c : Z) (cs : list str) : (0 <= c < 0x80)%Z → Forall is_char cs → ∀ a b, concat cs = a ++ c :: b →
  utf8_valid a = true ∧ utf8_valid b = true.
Proof.
  intros Hc. induction 1 as [|ch cs (Hch&Hcases&Hne) Hcs IH]; intros a b Heq; cbn [concat] in Heq; [by destruct a|].
  destruct Hcases as [(x&->&Hx)|Hhigh].
  - cbn in Heq. destruct a as [|y a]; cbn in Heq; injection Heq as <- Heq.
    + split; [done|]. rewrite <- Heq, <- (app_nil_r (concat cs)). by rewrite concat_valid.
    + destruct (IH a b Heq) as [Ha Hb]. split; [|done]. change (x :: a) with ([x] ++ a). by rewrite Hch.
  - apply app_eq_inv in Heq as [(k&Ha&Hk)|(k&Ha&Hk)].
    + destruct k as [|y k].
      * cbn in Hk. rewrite app_nil_r in Ha. subst ch. destruct (IH [] b) as [_ Hb]; [by rewrite <- Hk|].
        split; [|done]. rewrite <- (app_nil_r a). by rewrite Hch.
      * exfalso. cbn in Hk. injection Hk as <- _. rewrite Ha in Hhigh. apply Forall_app in Hhigh as [_ Hhigh].
        apply Forall_cons in Hhigh as [? _]. lia.
    + subst a. destruct (IH k b Hk) as [Hka Hkb]. split; [by rewrite Hch|done].
Qed.

Lemma valid_split (c : Z) (a b : str) : (0 <= c < 0x80)%Z → utf8_valid (a ++ c :: b) = true → utf8_valid a = true ∧ utf8_valid b = true.
Proof. intros Hc Hv. apply (chars_split c (chars (a ++ c :: b))); [done|by apply chars_Forall|by apply concat_chars]. Qed.

(** ** White space *)

(** The characters with the property [White_Space], as their encodings. *)
Definition WHITE_SPACE : list str :=
  [[9]; [10]; [11]; [12]; [13]; [32]; [0xC2; 0x85]; [0xC2; 0xA0]; [0xE1; 0x9A; 0x80];
   [0xE2; 0x80; 0x80]; [0xE2; 0x80; 0x81]; [0xE2; 0x80; 0x82]; [0xE2; 0x80; 0x83]; [0xE2; 0x80; 0x84]; [0xE2; 0x80; 0x85]; [0xE2; 0x80; 0x86];
   [0xE2; 0x80; 0x87]; [0xE2; 0x80; 0x88]; [0xE2; 0x80; 0x89]; [0xE2; 0x80; 0x8A]; [0xE2; 0x80; 0xA8]; [0xE2; 0x80; 0xA9];
   [0xE2; 0x80; 0xAF]; [0xE2; 0x81; 0x9F]; [0xE3; 0x80; 0x80]]%Z.
Definition is_whitespace (c : str) : bool := bool_decide (c ∈ WHITE_SPACE).

Fixpoint drop_white (cs : list str) : list str :=
  match cs with [] => [] | c :: r => if is_whitespace c then drop_white r else cs end.

(** [s.trim()]. *)
Definition trim (s : str) : str := concat (reverse (drop_white (reverse (drop_white (chars s))))).

(** The runs of characters between white space. *)
Fixpoint words (cs : list str) : list str :=
  match cs with
  | [] => [[]]
  | c :: r =>
      if is_whitespace c then [] :: words r else
      match words r with
      | h :: t => (c ++ h) :: t
      | [] => [c]
      end
  end.

(** [s.split_whitespace()]. *)
Definition split_whitespace (s : str) : list str := filter (λ w, w ≠ []) (words (chars s)).

Lemma drop_white_Forall (P : str → Prop) (cs : list str) : Forall P cs → Forall P (drop_white cs).
Proof. induction 1 as [|c cs Hc Hcs IH]; cbn [drop_white]; [done|]. destruct (is_whitespace c); [done|by constructor]. Qed.

Lemma trim_valid (s : str) : utf8_valid s = true → utf8_valid (trim s) = true.
Proof.
  intros Hv. unfold trim. rewrite <- (app_nil_r (concat _)). rewrite concat_valid; [done|].
  apply Forall_reverse, drop_white_Forall, Forall_reverse, drop_white_Forall. by apply chars_Forall.
Qed.

Lemma words_valid (cs : list str) : Forall is_char cs → Forall (λ w, utf8_valid w = true) (words cs).
Proof.
  induction 1 as [|c cs (Hc&_) _ IH]; cbn [words]; [by repeat constructor|]. destruct (is_whitespace c); [by constructor|].
  destruct (words cs) as [|h t]; [constructor; [by rewrite <- (app_nil_r c), Hc|done]|].
  apply Forall_cons in IH as [Hh Ht]. constructor; [by rewrite Hc|done].
Qed.

Lemma split_whitespace_valid (s : str) : utf8_valid s = true → Forall (λ w, utf8_valid w = true) (split_whitespace s).
Proof.
  intros Hv. apply Forall_forall. intros w [_ Hw]%list_elem_of_filter. revert w Hw. apply Forall_forall, words_valid. by apply chars_Forall.
Qed.

(** ** Search *)

(** [s.find(c)] for an ASCII character. *)
Fixpoint find_byte (c : Z) (l : str) : option nat :=
  match l with
  | [] => None
  | x :: r => if (x =? c)%Z then Some 0 else S <$> find_byte c r
  end.

Lemma find_byte_Some (c : Z) (l : str) (i : nat) : find_byte c l = Some i → ∃ a b, l = a ++ c :: b ∧ length a = i ∧ c ∉ a.
Proof.
  revert i. induction l as [|x r IH]; intros i; cbn [find_byte]; [done|]. destruct (Z.eqb_spec x c) as [->|Hne].
  - intros [= <-]. exists [], r. split_and!; [done|done|]. apply not_elem_of_nil.
  - destruct (find_byte c r) as [j|]; [|done]. intros [= <-]. destruct (IH j eq_refl) as (a&b&->&<-&Ha). exists (x :: a), b.
    split_and!; [done|done|]. rewrite not_elem_of_cons. split; [congruence|done].
Qed.

Lemma find_byte_app (c : Z) (a b : str) : c ∉ a → find_byte c (a ++ c :: b) = Some (length a).
Proof.
  induction a as [|x a IH]; cbn; [by rewrite Z.eqb_refl|]. intros [Hne Ha]%not_elem_of_cons.
  destruct (Z.eqb_spec x c); [congruence|]. by rewrite IH.
Qed.

Lemma split_at (c : Z) (a b : str) : take (length a) (a ++ c :: b) = a ∧ drop (S (length a)) (a ++ c :: b) = b.
Proof.
  split; [by rewrite take_app_length|]. rewrite drop_app_ge by lia. by replace (S (length a) - length a) with 1 by lia.
Qed.

(** [core::str::from_utf8(bs).unwrap_or(d)]. *)
Definition utf8_or (d : str) (bs : list Z) : str := if utf8_valid bs then bs else d.

Lemma utf8_or_valid (d : str) (bs : list Z) : utf8_valid bs = true → utf8_or d bs = bs.
Proof. unfold utf8_or. by intros ->. Qed.

(** [dst[off..off + src.len()].copy_from_slice(src)]. *)
Definition put_slice (dst : list Z) (off : nat) (src : list Z) : exec (list Z) :=
  if off + length src <=? length dst then Done (take off dst ++ src ++ drop (off + length src) dst) else Stuck.

Lemma put_slice_Done (dst : list Z) (off : nat) (src : list Z) : off + length src ≤ length dst →
  put_slice dst off src = Done (take off dst ++ src ++ drop (off + length src) dst).
Proof. intros Hl. unfold put_slice. by rewrite (proj2 (Nat.leb_le _ _) Hl). Qed.

Lemma length_put_slice (dst : list Z) (off : nat) (src : list Z) : off + length src ≤ length dst →
  length (take off dst ++ src ++ drop (off + length src) dst) = length dst.
Proof. intros Hl. rewrite !length_app, length_take, length_drop. lia. Qed.

Lemma take_put_slice (dst : list Z) (off : nat) (src : list Z) : off ≤ length dst →
  take (off + length src) (take off dst ++ src ++ drop (off + length src) dst) = take off dst ++ src.
Proof.
  intros Hl. rewrite app_assoc. rewrite take_app_le by (rewrite length_app, length_take; lia).
  apply take_ge. rewrite length_app, length_take. lia.
Qed.

(** ** Printing *)

Fixpoint digits (fuel : nat) (base n : Z) : str :=
  match fuel with
  | O => []
  | S fuel =>
      let d := (n mod base)%Z in
      (if (n <? base)%Z then [] else digits fuel base (n / base)) ++ [if (d <? 10)%Z then 48 + d else 87 + d]%Z
  end.
(** [{}] and [{:#x}] of an unsigned number of at most 64 bits. *)
Definition dec (n : Z) : str := digits 20 10 n.
Definition hex (n : Z) : str := bytes "0x" ++ digits 16 16 n.

(** [c as char] of a byte, encoded. *)
Definition char_bytes (b : Z) : str := (if b <? 0x80 then [b] else [0xC0 + b / 64; 0x80 + b mod 64])%Z.

(** What the console gets for a string: a carriage return before a line feed. *)
Definition write_str (s : str) : list Z := s ≫= λ b, (if b =? 10 then [13; b] else [b])%Z.

Example dec_hex : dec 1048 = bytes "1048" ∧ hex 4096 = bytes "0x1000" ∧ dec 0 = bytes "0" ∧ hex 0xFFFFFFFFFFFFFFFF = bytes "0xffffffffffffffff".
Proof. by vm_compute. Qed.
Example trim_words : trim (bytes "  a  b ") = bytes "a  b" ∧ split_whitespace (bytes "  a  b ") = [bytes "a"; bytes "b"].
Proof. by vm_compute. Qed.
