(* ===== verification/RamFs.v ===== *)
(** * The RAM file system, [kernel/src/fs/mod.rs]

    A pool of nodes that only grows, with a counter, a root and directories of
    at most 16 children; a node is read through its index, and a slot that was
    never written is uninitialised memory. *)

From S2P Require Export Prelude.
From S2P Require Export Str.

Definition NAME_MAX : nat := 32.
Definition DIR_MAX_ENTRIES : nat := 16.
Definition FILE_MAX_SIZE : nat := OPENION_RAMFS_FILE_MAX_SIZE.
Definition NODE_POOL_CAP : nat := OPENION_RAMFS_NODE_CAP.
Definition ROOT_UNSET : Z := USIZE_MAX.

Inductive FileType : Type := File | Directory.
#[export] Instance FileType_eq_dec : EqDecision FileType.
Proof. solve_decision. Defined.

Inductive FsError : Type := NotFound | NotDirectory | IsDirectory | AlreadyExists | NoSpace | NameTooLong.
#[export] Instance FsError_eq_dec : EqDecision FsError.
Proof. solve_decision. Defined.

Record FileNode : Type := mk_file { f_name : list Z; f_name_len : nat; f_data : list Z; f_size : nat }.
Record DirNode : Type := mk_dir { d_name : list Z; d_name_len : nat; d_children : list (option nat) }.
Inductive Vnode : Type := VFile (f : FileNode) | VDir (d : DirNode).

Record DirEntry : Type := mk_entry { de_name : list Z; de_name_len : nat; de_file_type : FileType }.
Definition name_str (e : DirEntry) : exec str := bs ← prefix_exec (de_name e) (de_name_len e); Done (from_utf8_or_empty bs).

(** [POOL], [NODE_COUNT] and [RAMFS_ROOT]. *)
Record RamFs : Type := mk_fs { fs_pool : list (option Vnode); node_count : Z; ramfs_root : Z }.

Definition boot_fs : RamFs := mk_fs (replicate NODE_POOL_CAP None) 0 ROOT_UNSET.

(** ** Nodes *)

Definition name_buffer (name : str) : exec (list Z * nat) :=
  let len := Nat.min (length name) (NAME_MAX - 1) in
  buf ← copy_prefix (replicate NAME_MAX 0%Z) name len; Done (buf, len).

Definition new_file (name : str) : exec Vnode :=
  '(buf, len) ← name_buffer name; Done (VFile (mk_file buf len (replicate FILE_MAX_SIZE 0%Z) 0)).

Definition new_dir (name : str) : exec Vnode :=
  '(buf, len) ← name_buffer name; Done (VDir (mk_dir buf len (replicate DIR_MAX_ENTRIES None))).

Definition vnode_name (v : Vnode) : exec str :=
  match v with
  | VFile f => bs ← prefix_exec (f_name f) (f_name_len f); Done (from_utf8_or_empty bs)
  | VDir d => bs ← prefix_exec (d_name d) (d_name_len d); Done (from_utf8_or_empty bs)
  end.

Definition file_type (v : Vnode) : FileType := match v with VFile _ => File | VDir _ => Directory end.

Definition alloc_node (fs : RamFs) (v : Vnode) : exec ((FsError + nat) * RamFs) :=
  let idx := node_count fs in
  let fs := mk_fs (fs_pool fs) (wrapping_add 64 idx 1) (ramfs_root fs) in
  if (Z.of_nat NODE_POOL_CAP <=? idx)%Z then Done (inl NoSpace, fs) else
  pool ← put_exec (fs_pool fs) (Z.to_nat idx) (Some v);
  Done (inr (Z.to_nat idx), mk_fs pool (node_count fs) (ramfs_root fs)).

Definition node (fs : RamFs) (id : nat) : exec (FsError + Vnode) :=
  if (node_count fs <=? Z.of_nat id)%Z || (NODE_POOL_CAP <=? id) then Done (inl NotFound) else
  slot ← get_exec (fs_pool fs !! id); v ← get_exec slot; Done (inr v).

(** The write through the reference of [node_mut]. *)
Definition set_node (fs : RamFs) (id : nat) (v : Vnode) : exec RamFs :=
  pool ← put_exec (fs_pool fs) id (Some v); Done (mk_fs pool (node_count fs) (ramfs_root fs)).

Definition root (fs : RamFs) : FsError + nat :=
  if (ramfs_root fs =? ROOT_UNSET)%Z then inl NotFound else inr (Z.to_nat (ramfs_root fs)).

Definition node_file_type (fs : RamFs) (id : nat) : exec (FsError + FileType) :=
  r ← node fs id;
  Done (match r with inl e => inl e | inr v => inr (file_type v) end).

Definition node_name (fs : RamFs) (id : nat) : exec (FsError + str) :=
  r ← node fs id;
  match r with inl e => Done (inl e) | inr v => s ← vnode_name v; Done (inr s) end.

(** ** Directories *)

(** The loop of [lookup], and of the check for an existing name. *)
Fixpoint find_child (fs : RamFs) (name : str) (children : list (option nat)) : exec (FsError + option nat) :=
  match children with
  | [] => Done (inr None)
  | None :: children => find_child fs name children
  | Some id :: children =>
      r ← node_name fs id;
      match r with
      | inl e => Done (inl e)
      | inr n => if bool_decide (n = name) then Done (inr (Some id)) else find_child fs name children
      end
  end.

Definition lookup (fs : RamFs) (dir : nat) (name : str) : exec (FsError + nat) :=
  v ← node fs dir;
  match v with
  | inl e => Done (inl e)
  | inr (VFile _) => Done (inl NotDirectory)
  | inr (VDir d) =>
      r ← find_child fs name (d_children d);
      Done (match r with inl e => inl e | inr (Some id) => inr id | inr None => inl NotFound end)
  end.

(** The first free slot gets the new node. *)
Fixpoint fill_slot (new_node : nat) (children : list (option nat)) : option (list (option nat)) :=
  match children with
  | [] => None
  | None :: children => Some (Some new_node :: children)
  | Some id :: children => (Some id ::.) <$> fill_slot new_node children
  end.

(** The end of [create_file] and [create_dir]. *)
Definition add_child (fs : RamFs) (dir new_node : nat) : exec ((FsError + nat) * RamFs) :=
  v ← node fs dir;
  match v with
  | inl e => Done (inl e, fs)
  | inr (VFile _) => Done (inl NotDirectory, fs)
  | inr (VDir d) =>
      match fill_slot new_node (d_children d) with
      | None => Done (inl NoSpace, fs)
      | Some children =>
          fs ← set_node fs dir (VDir (mk_dir (d_name d) (d_name_len d) children));
          Done (inr new_node, fs)
      end
  end.

Definition create_node (mk : str → exec Vnode) (fs : RamFs) (dir : nat) (name : str) : exec ((FsError + nat) * RamFs) :=
  if bool_decide (name = []) || (NAME_MAX <=? length name) then Done (inl NameTooLong, fs) else
  v ← node fs dir;
  match v with
  | inl e => Done (inl e, fs)
  | inr (VFile _) => Done (inl NotDirectory, fs)
  | inr (VDir d) =>
      r ← find_child fs name (d_children d);
      match r with
      | inl e => Done (inl e, fs)
      | inr (Some _) => Done (inl AlreadyExists, fs)
      | inr None =>
          v ← mk name;
          '(r, fs) ← alloc_node fs v;
          match r with inl e => Done (inl e, fs) | inr new_node => add_child fs dir new_node end
      end
  end.

Definition create_file (fs : RamFs) (dir : nat) (name : str) : exec ((FsError + nat) * RamFs) := create_node new_file fs dir name.
Definition create_dir (fs : RamFs) (dir : nat) (name : str) : exec ((FsError + nat) * RamFs) := create_node new_dir fs dir name.

(** The entries passed to the callback, and the count. *)
Fixpoint list_children (fs : RamFs) (children : list (option nat)) : exec ((FsError + nat) * list DirEntry) :=
  match children with
  | [] => Done (inr 0, [])
  | None :: children => list_children fs children
  | Some id :: children =>
      v ← node fs id;
      match v with
      | inl e => Done (inl e, [])
      | inr v =>
          let entry := match v with
            | VFile f => mk_entry (f_name f) (f_name_len f) (file_type v)
            | VDir d => mk_entry (d_name d) (d_name_len d) (file_type v)
            end in
          '(r, es) ← list_children fs children;
          Done (match r with inl e => inl e | inr count => inr (S count) end, entry :: es)
      end
  end.

Definition list_dir (fs : RamFs) (dir : nat) : exec ((FsError + nat) * list DirEntry) :=
  v ← node fs dir;
  match v with
  | inl e => Done (inl e, [])
  | inr (VFile _) => Done (inl NotDirectory, [])
  | inr (VDir d) => list_children fs (d_children d)
  end.

(** ** Files *)

Definition write_file (fs : RamFs) (file : nat) (data : list Z) : exec ((FsError + nat) * RamFs) :=
  v ← node fs file;
  match v with
  | inl e => Done (inl e, fs)
  | inr (VDir _) => Done (inl IsDirectory, fs)
  | inr (VFile f) =>
      let len := Nat.min (length data) FILE_MAX_SIZE in
      bytes ← copy_prefix (f_data f) data len;
      fs ← set_node fs file (VFile (mk_file (f_name f) (f_name_len f) bytes len));
      Done (inr len, fs)
  end.

Definition read_file (fs : RamFs) (file : nat) (buf : list Z) : exec ((FsError + nat) * list Z) :=
  v ← node fs file;
  match v with
  | inl e => Done (inl e, buf)
  | inr (VDir _) => Done (inl IsDirectory, buf)
  | inr (VFile f) =>
      let len := Nat.min (f_size f) (length buf) in
      buf ← copy_prefix buf (f_data f) len;
      Done (inr len, buf)
  end.

(** ** Paths *)

Fixpoint resolve_from (fs : RamFs) (current : nat) (pieces : list str) : exec (FsError + nat) :=
  match pieces with
  | [] => Done (inr current)
  | c :: pieces =>
      if bool_decide (c = []) then resolve_from fs current pieces else
      r ← lookup fs current c;
      match r with inl e => Done (inl e) | inr id => resolve_from fs id pieces end
  end.

Definition resolve_path (fs : RamFs) (path : str) : exec (FsError + nat) :=
  match root fs with
  | inl e => Done (inl e)
  | inr r => if bool_decide (path = [SLASH]) then Done (inr r) else resolve_from fs r (split_on SLASH (trim_start SLASH path))
  end.

Definition dev_name : str := [100; 101; 118]%Z.
Definition proc_name : str := [112; 114; 111; 99]%Z.
Definition mnt_name : str := [109; 110; 116]%Z.

Definition init (fs : RamFs) : exec RamFs :=
  match root fs with
  | inr _ => Done fs
  | inl _ =>
      v ← new_dir [SLASH];
      '(r, fs) ← alloc_node fs v;
      match r with
      | inl _ => Done fs
      | inr root =>
          let fs := mk_fs (fs_pool fs) (node_count fs) (Z.of_nat root) in
          '(_, fs) ← create_dir fs root dev_name;
          '(_, fs) ← create_dir fs root proc_name;
          '(_, fs) ← create_dir fs root mnt_name;
          Done fs
      end
  end.

Example init_count : (init boot_fs ≫= λ fs, Done (node_count fs)) = Done 4%Z.
Proof. reflexivity. Qed.
Example init_dev : (init boot_fs ≫= λ fs, resolve_path fs (SLASH :: dev_name ++ [SLASH])) = Done (inr 1).
Proof. reflexivity. Qed.
