(* ===== verification/RamFsTree.v ===== *)
(** * The tree of the RAM file system

    The invariant of the node pool, what each operation of [RamFs] does in
    terms of the nodes, and that it keeps the invariant. *)

From S2P Require Export Prelude.
From S2P Require Export RamFs.

#[local] Opaque NODE_POOL_CAP FILE_MAX_SIZE NAME_MAX DIR_MAX_ENTRIES.

(** ** The invariant *)

Definition at_node (fs : RamFs) (i : nat) : option Vnode := mjoin (fs_pool fs !! i).

Definition node_children (v : Vnode) : list (option nat) := match v with VFile _ => [] | VDir d => d_children d end.
Definition raw_name (v : Vnode) : str :=
  match v with VFile f => take (f_name_len f) (f_name f) | VDir d => take (d_name_len d) (d_name d) end.
Definition name_at (fs : RamFs) (i : nat) : option str := raw_name <$> at_node fs i.

Definition node_wf (v : Vnode) : Prop :=
  utf8_valid (raw_name v) = true ∧
  match v with
  | VFile f => length (f_name f) = NAME_MAX ∧ f_name_len f < NAME_MAX ∧ length (f_data f) = FILE_MAX_SIZE ∧ f_size f ≤ FILE_MAX_SIZE
  | VDir d => length (d_name d) = NAME_MAX ∧ d_name_len d < NAME_MAX ∧ length (d_children d) = DIR_MAX_ENTRIES
  end.

(** The nodes below the counter are initialised; a child comes after its
    directory, is in one slot of one directory, and names are unique there. *)
Record fs_wf (fs : RamFs) : Prop := {
  fw_len : length (fs_pool fs) = NODE_POOL_CAP;
  fw_count : in_width 64 (node_count fs);
  fw_dom : ∀ i, is_Some (at_node fs i) ↔ (Z.of_nat i < node_count fs)%Z ∧ i < NODE_POOL_CAP;
  fw_node : ∀ i v, at_node fs i = Some v → node_wf v;
  fw_child : ∀ i v c, at_node fs i = Some v → Some c ∈ node_children v → i < c ∧ is_Some (at_node fs c);
  fw_parent : ∀ i j v w k l c, at_node fs i = Some v → at_node fs j = Some w →
    node_children v !! k = Some (Some c) → node_children w !! l = Some (Some c) → i = j ∧ k = l;
  fw_names : ∀ i v k l c e, at_node fs i = Some v → node_children v !! k = Some (Some c) → node_children v !! l = Some (Some e) →
    name_at fs c = name_at fs e → k = l;
}.

(** After [init]: the root is node 0, a directory. *)
Definition rooted (fs : RamFs) : Prop := ramfs_root fs = 0%Z ∧ ∃ d, at_node fs 0 = Some (VDir d).

(** ** Reading *)

Fixpoint find_name (fs : RamFs) (name : str) (children : list (option nat)) : option nat :=
  match children with
  | [] => None
  | None :: children => find_name fs name children
  | Some id :: children => if bool_decide (name_at fs id = Some name) then Some id else find_name fs name children
  end.

Definition child_named (fs : RamFs) (i : nat) (name : str) : option nat :=
  at_node fs i ≫= λ v, find_name fs name (node_children v).

Fixpoint walk (fs : RamFs) (i : nat) (path : list str) : option nat :=
  match path with
  | [] => Some i
  | c :: path => child_named fs i c ≫= λ j, walk fs j path
  end.

Lemma node_spec (fs : RamFs) (i : nat) : fs_wf fs →
  node fs i = Done (match at_node fs i with Some v => inr v | None => inl NotFound end).
Proof.
  intros Hwf. unfold node. pose proof (fw_dom _ Hwf i) as Hd.
  destruct (Z.leb_spec (node_count fs) (Z.of_nat i)), (Nat.leb_spec NODE_POOL_CAP i); cbn [orb];
    try (destruct (at_node fs i); [|done]; destruct (proj1 Hd); [done|lia]).
  destruct (proj2 Hd ltac:(done)) as [v Hv]. rewrite Hv. unfold at_node in Hv.
  destruct (fs_pool fs !! i) as [[w|]|]; by simplify_eq/=.
Qed.

Lemma vnode_name_spec (v : Vnode) : node_wf v → vnode_name v = Done (raw_name v).
Proof.
  intros [Hu Hv]. destruct v as [f|d]; destruct Hv as (Hl&Hn&_); cbn [vnode_name raw_name] in *;
    rewrite prefix_exec_Done by lia; cbn [mbind exec_bind]; unfold from_utf8_or_empty; by rewrite Hu.
Qed.

Lemma find_child_spec (fs : RamFs) (name : str) (children : list (option nat)) : fs_wf fs →
  (∀ c, Some c ∈ children → is_Some (at_node fs c)) →
  find_child fs name children = Done (inr (find_name fs name children)).
Proof.
  intros Hwf. induction children as [|[id|] children IH]; intros Hc; cbn [find_child find_name]; [done| |].
  2: { apply IH. intros c Hin. apply Hc. by right. }
  destruct (Hc id ltac:(by left)) as [v Hv]. unfold node_name. rewrite node_spec by done. rewrite Hv. cbn [mbind exec_bind].
  rewrite vnode_name_spec by (by eapply fw_node). cbn [mbind exec_bind].
  assert (Hn : name_at fs id = Some (raw_name v)) by (unfold name_at; by rewrite Hv). rewrite Hn.
  rewrite (bool_decide_ext (Some (raw_name v) = Some name) (raw_name v = name)) by (split; congruence).
  case_bool_decide; [done|]. apply IH. intros c Hin. apply Hc. by right.
Qed.

Lemma dir_children_live (fs : RamFs) (i : nat) (v : Vnode) : fs_wf fs → at_node fs i = Some v →
  ∀ c, Some c ∈ node_children v → is_Some (at_node fs c).
Proof. intros Hwf Hv c Hc. by eapply (fw_child _ Hwf i v). Qed.

Lemma lookup_spec (fs : RamFs) (i : nat) (name : str) : fs_wf fs →
  lookup fs i name = Done (match at_node fs i with
    | None => inl NotFound
    | Some (VFile _) => inl NotDirectory
    | Some (VDir _) => match child_named fs i name with Some c => inr c | None => inl NotFound end
    end).
Proof.
  intros Hwf. unfold lookup, child_named. rewrite node_spec by done. cbn [mbind exec_bind].
  destruct (at_node fs i) as [[f|d]|] eqn:Hi; [done| |done].
  rewrite find_child_spec by (done || exact (dir_children_live fs i (VDir d) Hwf Hi)). cbn. by destruct (find_name _ _ _).
Qed.

Lemma child_of_file (fs : RamFs) (i : nat) (f : FileNode) (name : str) : at_node fs i = Some (VFile f) → child_named fs i name = None.
Proof. intros Hi. unfold child_named. by rewrite Hi. Qed.

Lemma resolve_from_spec (fs : RamFs) (pieces : list str) : fs_wf fs → ∀ i,
  ∃ r, resolve_from fs i pieces = Done r ∧ ∀ j, r = inr j ↔ walk fs i (filter (λ c, c ≠ []) pieces) = Some j.
Proof.
  intros Hwf. induction pieces as [|c pieces IH]; intros i; cbn [resolve_from].
  { exists (inr i). split; [done|]. intros j. cbn. split; congruence. }
  case_bool_decide as Hc; [rewrite filter_cons_False by (intros H; by apply H); apply IH|].
  rewrite filter_cons_True by done. cbn [walk]. rewrite lookup_spec by done. cbn [mbind exec_bind].
  destruct (at_node fs i) as [[f|d]|] eqn:Hi.
  - rewrite (child_of_file fs i f) by done. exists (inl NotDirectory). split; [done|]. intros j. by split.
  - destruct (child_named fs i c) as [k|]; [apply IH|]. exists (inl NotFound). split; [done|]. intros j. by split.
  - unfold child_named. rewrite Hi. exists (inl NotFound). split; [done|]. intros j. by split.
Qed.

Lemma resolve_path_spec (fs : RamFs) (path : str) : fs_wf fs → ramfs_root fs = 0%Z →
  ∃ r, resolve_path fs path = Done r ∧ ∀ j, r = inr j ↔ walk fs 0 (components path) = Some j.
Proof.
  intros Hwf Hr. unfold resolve_path, root. rewrite Hr. cbn. case_bool_decide as Hp.
  - subst path. exists (inr 0). split; [done|]. intros j. change (components [SLASH]) with (@nil str). cbn. split; congruence.
  - rewrite <- components_trim. by apply resolve_from_spec.
Qed.

(** ** New nodes *)

Lemma name_buffer_spec (name : str) : length name < NAME_MAX → ∃ buf, name_buffer name = Done (buf, length name)
  ∧ length buf = NAME_MAX ∧ take (length name) buf = name.
Proof.
  intros Hl. unfold name_buffer. replace (Nat.min (length name) (NAME_MAX - 1)) with (length name) by lia.
  rewrite copy_prefix_Done by (rewrite ?length_replicate; lia). cbn [mbind exec_bind]. eexists. split; [done|]. split.
  - rewrite length_copied by (rewrite ?length_replicate; lia). apply length_replicate.
  - rewrite take_copied by done. by apply take_ge.
Qed.

(** What [Vnode::new_file] and [Vnode::new_dir] make. *)
Definition fresh_node (v : Vnode) (name : str) : Prop :=
  node_wf v ∧ raw_name v = name ∧ (∀ c, Some c ∉ node_children v).

Lemma new_file_spec (name : str) : length name < NAME_MAX → utf8_valid name = true →
  ∃ v, new_file name = Done v ∧ fresh_node v name ∧ file_type v = File.
Proof.
  intros Hl Hu. destruct (name_buffer_spec name Hl) as (buf&Hb&Hlb&Ht). unfold new_file. rewrite Hb. cbn [mbind exec_bind].
  eexists. split; [done|]. split; [|done]. split_and!; [|done|].
  - split; cbn [raw_name f_name f_name_len f_data f_size]; [by rewrite Ht|]. rewrite length_replicate. split_and!; try done; lia.
  - intros c. by apply not_elem_of_nil.
Qed.

Lemma new_dir_spec (name : str) : length name < NAME_MAX → utf8_valid name = true →
  ∃ v, new_dir name = Done v ∧ fresh_node v name ∧ file_type v = Directory.
Proof.
  intros Hl Hu. destruct (name_buffer_spec name Hl) as (buf&Hb&Hlb&Ht). unfold new_dir. rewrite Hb. cbn [mbind exec_bind].
  eexists. split; [done|]. split; [|done]. split_and!; [|done|].
  - split; cbn [raw_name d_name d_name_len d_children]; [by rewrite Ht|]. rewrite length_replicate. split_and!; done.
  - intros c Hc. cbn in Hc. by apply elem_of_replicate in Hc as [? _].
Qed.

Lemma at_set (fs : RamFs) (i j : nat) (v : Vnode) (n r : Z) : i < length (fs_pool fs) →
  at_node (mk_fs (<[i := Some v]> (fs_pool fs)) n r) j = if decide (j = i) then Some v else at_node fs j.
Proof.
  intros Hi. unfold at_node. cbn [fs_pool]. case_decide as Hj; [subst j|].
  - by rewrite list_lookup_insert_eq.
  - by rewrite list_lookup_insert_ne.
Qed.

Lemma find_name_None (fs : RamFs) (name : str) (l : list (option nat)) :
  find_name fs name l = None ↔ ∀ c, Some c ∈ l → name_at fs c ≠ Some name.
Proof.
  induction l as [|[c|] l IH]; cbn [find_name]; [split; [intros _ c Hc; by apply not_elem_of_nil in Hc|done]| |].
  - case_bool_decide as Hc; [split; [done|intros Hall; destruct (Hall c); [by left|done]]|].
    rewrite IH. split; intros Hall e He; [|apply Hall; by right]. apply elem_of_cons in He as [[= ->]|He]; [done|by apply Hall].
  - rewrite IH. split; intros Hall e He; [|apply Hall; by right]. apply elem_of_cons in He as [?|He]; [done|by apply Hall].
Qed.

Lemma find_name_ext (fs fs' : RamFs) (name : str) (l : list (option nat)) : (∀ c, Some c ∈ l → name_at fs' c = name_at fs c) →
  find_name fs' name l = find_name fs name l.
Proof.
  induction l as [|[c|] l IH]; intros Hl; cbn [find_name]; [done| |]; (assert (IH' := IH ltac:(intros e He; apply Hl; by right))); [|done].
  rewrite Hl by by left. by rewrite IH'.
Qed.

Lemma find_name_in (fs : RamFs) (name : str) (l : list (option nat)) (c : nat) : find_name fs name l = Some c →
  Some c ∈ l ∧ name_at fs c = Some name.
Proof.
  induction l as [|[e|] l IH]; cbn [find_name]; [done| |intros [? ?]%IH; split; [by right|done]].
  case_bool_decide; [intros [= <-]; split; [by left|done]|intros [? ?]%IH; split; [by right|done]].
Qed.

Lemma fill_slot_None (new : nat) (l : list (option nat)) : fill_slot new l = None ↔ None ∉ l.
Proof.
  induction l as [|[c|] l IH]; cbn [fill_slot]; [split; [intros _; by apply not_elem_of_nil|done]| |].
  - rewrite not_elem_of_cons, <- IH. destruct (fill_slot new l); split; [done|by intros []|done..].
  - split; [done|]. intros Hn. destruct Hn. by left.
Qed.

Lemma fill_slot_Some (new : nat) (l l' : list (option nat)) : fill_slot new l = Some l' →
  ∃ k, l !! k = Some None ∧ l' = <[k := Some new]> l.
Proof.
  revert l'. induction l as [|[c|] l IH]; intros l'; cbn [fill_slot]; [done| |intros [= <-]; by exists 0].
  destruct (fill_slot new l) as [l1|]; [|done]. intros [= <-]. destruct (IH l1 eq_refl) as (k&Hk&->). by exists (S k).
Qed.

(** The name given last is found, the others are where they were. *)
Lemma find_name_filled (fs : RamFs) (new : nat) (name x : str) (l l' : list (option nat)) : name_at fs new = Some name →
  find_name fs name l = None → fill_slot new l = Some l' →
  find_name fs x l' = if decide (x = name) then Some new else find_name fs x l.
Proof.
  intros Hn. revert l'. induction l as [|[c|] l IH]; intros l'; cbn [find_name fill_slot]; [done| |].
  - case_bool_decide as Hc; [done|]. destruct (fill_slot new l) as [l1|]; [|done]. intros Hf [= <-]. cbn [find_name].
    rewrite (IH l1) by done. case_decide as Hx; [subst x; by rewrite bool_decide_false by done|done].
  - intros Hf [= <-]. cbn [find_name]. rewrite Hn. case_decide as Hx; case_bool_decide; congruence.
Qed.

Lemma name_at_ext (fs fs' : RamFs) (c : nat) : at_node fs' c = at_node fs c → name_at fs' c = name_at fs c.
Proof. unfold name_at. by intros ->. Qed.

(** The pool grows by a node that is in no directory. *)
Lemma wf_alloc (fs fs' : RamFs) (new : nat) (v : Vnode) (name : str) : fs_wf fs → fresh_node v name →
  Z.of_nat new = node_count fs → new < NODE_POOL_CAP → length (fs_pool fs') = NODE_POOL_CAP →
  in_width 64 (node_count fs') → node_count fs' = (node_count fs + 1)%Z →
  (∀ j, at_node fs' j = if decide (j = new) then Some v else at_node fs j) → fs_wf fs'.
Proof.
  intros Hwf (Hv&_&Hno) Hnew Hcap Hlen Hw Hc Hat.
  assert (Hlive : ∀ j, is_Some (at_node fs j) → at_node fs' j = at_node fs j).
  { intros j Hj. rewrite Hat. case_decide; [|done]. subst j. apply (fw_dom _ Hwf) in Hj. lia. }
  assert (Hold : ∀ i w k c, at_node fs' i = Some w → node_children w !! k = Some (Some c) → at_node fs i = Some w).
  { intros i w k c Hi Hk. rewrite Hat in Hi. case_decide; [|done]. simplify_eq. by apply list_elem_of_lookup_2, Hno in Hk. }
  split; [done|done| | | | |].
  - intros i. rewrite Hat. pose proof (fw_dom _ Hwf i) as Hd. case_decide as Hi; [subst i; split; [intros _; lia|done]|].
    rewrite Hd. lia.
  - intros i w. rewrite Hat. case_decide; [by intros [= <-]|apply (fw_node _ Hwf)].
  - intros i w c Hi Hin. destruct (proj1 (list_elem_of_lookup _ _) Hin) as [k Hk]. pose proof (Hold _ _ _ _ Hi Hk) as Hi'.
    destruct (fw_child _ Hwf i w c Hi' Hin) as [? Hs]. split; [done|]. by rewrite Hlive.
  - intros i j w x k l c Hi Hj Hk Hl. eapply (fw_parent _ Hwf i j w x k l c); eauto.
  - intros i w k l c e Hi Hk Hl Hn. pose proof (Hold _ _ _ _ Hi Hk) as Hi'. eapply (fw_names _ Hwf i w k l c e); eauto.
    rewrite <- !(name_at_ext fs fs'); [done|apply Hlive|apply Hlive];
      (eapply (fw_child _ Hwf i w _ Hi'); by eapply list_elem_of_lookup_2).
Qed.

Definition orphan (fs : RamFs) (c : nat) : Prop := ∀ i v, at_node fs i = Some v → Some c ∉ node_children v.

(** An orphan becomes the child of an earlier directory, under a new name. *)
Lemma wf_link (fs fs' : RamFs) (dir new k : nat) (d : DirNode) (name : str) : fs_wf fs →
  at_node fs dir = Some (VDir d) → d_children d !! k = Some None → dir < new →
  orphan fs new → name_at fs new = Some name → find_name fs name (d_children d) = None →
  fs_pool fs' = <[dir := Some (VDir (mk_dir (d_name d) (d_name_len d) (<[k := Some new]> (d_children d))))]> (fs_pool fs) →
  node_count fs' = node_count fs →
  fs_wf fs'.
Proof.
  intros Hwf Hd Hk Hlt Horph Hn Hfree Hpool Hcount.
  set (d' := mk_dir (d_name d) (d_name_len d) (<[k := Some new]> (d_children d))) in *.
  assert (Hdl : dir < length (fs_pool fs)) by (rewrite (fw_len _ Hwf); by apply (fw_dom _ Hwf dir); exists (VDir d)).
  assert (Hat : ∀ j, at_node fs' j = if decide (j = dir) then Some (VDir d') else at_node fs j).
  { intros j. rewrite <- (at_set fs dir j (VDir d') 0 0 Hdl). unfold at_node. by rewrite Hpool. }
  assert (Hname : ∀ j, name_at fs' j = name_at fs j).
  { intros j. unfold name_at. rewrite Hat. case_decide; [|done]. subst j. by rewrite Hd. }
  assert (Hlive : ∀ j, is_Some (at_node fs' j) ↔ is_Some (at_node fs j)).
  { intros j. rewrite Hat. case_decide; [|done]. subst j. rewrite Hd. split; intros _; by eexists. }
  assert (Hch : ∀ i v l c, at_node fs' i = Some v → node_children v !! l = Some (Some c) →
    (i = dir ∧ l = k ∧ c = new) ∨ ∃ w, at_node fs i = Some w ∧ node_children w !! l = Some (Some c)).
  { intros i v l c. rewrite Hat. case_decide as Hi; [|intros Hv Hl; right; by exists v].
    intros [= <-]. cbn [node_children d' d_children]. rewrite list_lookup_insert_Some. subst i.
    intros [(->&[= <-]&_)|[_ Hl]]; [by left|right; by exists (VDir d)]. }
  assert (Hold : ∀ i w l, at_node fs i = Some w → node_children w !! l ≠ Some (Some new)).
  { intros i w l Hi Hl. apply (Horph i w Hi). by eapply list_elem_of_lookup_2. }
  assert (Hnn : ∀ w l c, at_node fs dir = Some w → node_children w !! l = Some (Some c) → name_at fs c ≠ Some name).
  { intros w l c Hw Hl. rewrite Hd in Hw. injection Hw as <-. apply (proj1 (find_name_None _ _ _) Hfree). by eapply list_elem_of_lookup_2. }
  split.
  - rewrite Hpool, length_insert. apply (fw_len _ Hwf).
  - rewrite Hcount. apply (fw_count _ Hwf).
  - intros i. rewrite Hlive, Hcount. apply (fw_dom _ Hwf).
  - intros i v. rewrite Hat. case_decide as Hi; [|apply (fw_node _ Hwf)]. intros [= <-].
    destruct (fw_node _ Hwf dir (VDir d) Hd) as (Hu&Hl&Hnl&Hlen). split; [done|]. cbn. rewrite length_insert. done.
  - intros i v c Hi Hin. apply list_elem_of_lookup in Hin as [l Hl]. rewrite Hlive.
    destruct (Hch _ _ _ _ Hi Hl) as [(->&_&->)|(w&Hw&Hwl)].
    + split; [done|]. unfold name_at in Hn. by destruct (at_node fs new).
    + apply (fw_child _ Hwf i w); [done|]. by eapply list_elem_of_lookup_2.
  - intros i j v w l1 l2 c Hi Hj Hl1 Hl2. destruct (Hch _ _ _ _ Hi Hl1) as [(->&->&->)|(v'&Hv'&Hvl)], (Hch _ _ _ _ Hj Hl2) as [(->&->&?)|(w'&Hw'&Hwl)].
    + done.
    + by destruct (Hold _ _ _ Hw' Hwl).
    + subst c. by destruct (Hold _ _ _ Hv' Hvl).
    + by eapply (fw_parent _ Hwf i j v' w').
  - intros i v l1 l2 c e Hi Hl1 Hl2 Hne. rewrite !Hname in Hne.
    destruct (Hch _ _ _ _ Hi Hl1) as [(->&->&->)|(v'&Hv'&Hvl)], (Hch _ _ _ _ Hi Hl2) as [(?&->&->)|(w'&Hw'&Hwl)].
    + done.
    + rewrite Hn in Hne. by destruct (Hnn w' l2 e Hw' Hwl).
    + subst i. rewrite Hn in Hne. by destruct (Hnn v' l1 c Hv' Hvl).
    + rewrite Hv' in Hw'. injection Hw' as <-. by eapply (fw_names _ Hwf i v').
Qed.

Lemma alloc_node_spec (fs : RamFs) (v : Vnode) (name : str) : fs_wf fs → fresh_node v name → (node_count fs < USIZE_MAX)%Z →
  ∃ r fs', alloc_node fs v = Done (r, fs') ∧ fs_wf fs' ∧ node_count fs' = (node_count fs + 1)%Z ∧ ramfs_root fs' = ramfs_root fs ∧
  match r with
  | inl e => e = NoSpace ∧ (Z.of_nat NODE_POOL_CAP <= node_count fs)%Z ∧ fs_pool fs' = fs_pool fs
  | inr new => Z.of_nat new = node_count fs ∧ new < NODE_POOL_CAP
      ∧ (∀ j, at_node fs' j = if decide (j = new) then Some v else at_node fs j) ∧ orphan fs' new
  end.
Proof.
  intros Hwf Hf Hc. pose proof (fw_count _ Hwf) as Hw. unfold alloc_node.
  assert (Hadd : wrapping_add 64 (node_count fs) 1 = (node_count fs + 1)%Z).
  { apply wrap_small. unfold in_width, USIZE_MAX in *. lia. }
  assert (Hw' : in_width 64 (node_count fs + 1)) by (unfold in_width, USIZE_MAX in *; lia).
  rewrite Hadd. cbn [fs_pool node_count ramfs_root]. destruct (Z.leb_spec (Z.of_nat NODE_POOL_CAP) (node_count fs)) as [Hfull|Hroom].
  - eexists _, _. split; [done|]. split_and!; try done. destruct Hwf as [H1 H2 H3 H4 H5 H6 H7]. split; cbn [fs_pool node_count]; try done.
    intros i. rewrite (H3 i). unfold in_width in *. lia.
  - destruct (Z_of_nat_complete (node_count fs)) as [new Hnew]; [unfold in_width in *; lia|].
    rewrite Hnew, Nat2Z.id in *.
    assert (Hlt : new < length (fs_pool fs)) by (rewrite (fw_len _ Hwf); lia).
    rewrite put_exec_Done by done. cbn [mbind exec_bind]. eexists _, _. split; [done|].
    assert (Hat := λ j, at_set fs new j v (Z.of_nat new + 1) (ramfs_root fs) Hlt).
    assert (Hwf' : fs_wf (mk_fs (<[new:=Some v]> (fs_pool fs)) (Z.of_nat new + 1) (ramfs_root fs))).
    { eapply (wf_alloc fs _ new v name); cbn [fs_pool node_count]; try done; [lia|by rewrite length_insert, (fw_len _ Hwf)|congruence]. }
    split_and!; try done; [lia|]. intros i w. rewrite Hat. case_decide as Hi; [intros [= <-]; apply Hf|].
    intros Hw1 Hin. destruct (fw_child _ Hwf i w new Hw1 Hin) as [_ Hs]. apply (fw_dom _ Hwf) in Hs. lia.
Qed.

(** ** Creating *)

(** A directory entry was made: nothing else changed. *)
Record linked (fs fs' : RamFs) (dir new : nat) (name : str) (ty : FileType) : Prop := {
  ln_new : at_node fs new = None;
  ln_node : ∃ v, at_node fs' new = Some v ∧ file_type v = ty ∧ raw_name v = name ∧ (∀ x, child_named fs' new x = None);
  ln_child : ∀ i x, child_named fs' i x = if decide (i = dir ∧ x = name) then Some new else child_named fs i x;
  ln_other : ∀ i, i ≠ dir → i ≠ new → at_node fs' i = at_node fs i;
  ln_dir : ∃ d d', at_node fs dir = Some (VDir d) ∧ fill_slot new (d_children d) = Some (d_children d') ∧ at_node fs' dir = Some (VDir d');
}.

(** What a creation leaves: the outcome by cause. *)
Inductive created (fs : RamFs) (dir : nat) (name : str) (ty : FileType) (fs' : RamFs) : FsError + nat → Prop :=
  | cr_name : name = [] ∨ NAME_MAX ≤ length name → fs' = fs → created fs dir name ty fs' (inl NameTooLong)
  | cr_missing : at_node fs dir = None → fs' = fs → created fs dir name ty fs' (inl NotFound)
  | cr_file f : at_node fs dir = Some (VFile f) → fs' = fs → created fs dir name ty fs' (inl NotDirectory)
  | cr_exists c : child_named fs dir name = Some c → fs' = fs → created fs dir name ty fs' (inl AlreadyExists)
  | cr_pool_full : (Z.of_nat NODE_POOL_CAP <= node_count fs)%Z → fs_pool fs' = fs_pool fs → created fs dir name ty fs' (inl NoSpace)
  | cr_dir_full d : at_node fs dir = Some (VDir d) → None ∉ d_children d →
      (∀ i, is_Some (at_node fs i) → at_node fs' i = at_node fs i) → node_count fs' = (node_count fs + 1)%Z →
      created fs dir name ty fs' (inl NoSpace)
  | cr_done new : linked fs fs' dir new name ty → child_named fs dir name = None → created fs dir name ty fs' (inr new).

Lemma child_fresh (fs : RamFs) (i : nat) (v : Vnode) (x : str) : at_node fs i = Some v → (∀ c, Some c ∉ node_children v) →
  child_named fs i x = None.
Proof.
  intros Hi Hno. unfold child_named. rewrite Hi. cbn. apply find_name_None. intros c Hc. by destruct (Hno c).
Qed.

Lemma child_ext (fs fs' : RamFs) (i : nat) (x : str) : fs_wf fs → (∀ j, is_Some (at_node fs j) → at_node fs' j = at_node fs j) →
  is_Some (at_node fs i) → child_named fs' i x = child_named fs i x.
Proof.
  intros Hwf Hs Hi. unfold child_named. rewrite Hs by done. destruct (at_node fs i) as [v|] eqn:Hv; [|done]. cbn.
  apply find_name_ext. intros c Hc. apply name_at_ext, Hs. by eapply dir_children_live.
Qed.

Lemma add_child_spec (fs fs1 : RamFs) (dir new : nat) (d : DirNode) (v : Vnode) (name : str) : fs_wf fs → fs_wf fs1 →
  at_node fs dir = Some (VDir d) → at_node fs new = None → dir < new → fresh_node v name →
  (∀ j, at_node fs1 j = if decide (j = new) then Some v else at_node fs j) → orphan fs1 new → child_named fs dir name = None →
  ∃ r fs', add_child fs1 dir new = Done (r, fs') ∧ fs_wf fs' ∧ node_count fs' = node_count fs1 ∧ ramfs_root fs' = ramfs_root fs1
  ∧ match r with
    | inl e => e = NoSpace ∧ (None ∉ d_children d) ∧ fs' = fs1
    | inr n => n = new ∧ linked fs fs' dir new name (file_type v)
    end.
Proof.
  intros Hwf Hwf1 Hd Hnew Hlt Hf Hat Horph Hfree. destruct Hf as (Hvwf&Hraw&Hno).
  assert (Hs : ∀ j, is_Some (at_node fs j) → at_node fs1 j = at_node fs j).
  { intros j Hj. rewrite Hat. case_decide; [|done]. subst j. rewrite Hnew in Hj. by destruct Hj. }
  assert (Hd1 : at_node fs1 dir = Some (VDir d)) by (rewrite Hs; [done|by exists (VDir d)]).
  assert (Hn1 : name_at fs1 new = Some name) by (unfold name_at; rewrite Hat, decide_True by done; cbn; by rewrite Hraw).
  assert (Hdl : dir < length (fs_pool fs1)).
  { rewrite (fw_len _ Hwf1). apply (fw_dom _ Hwf1 dir). by exists (VDir d). }
  assert (Hfree1 : find_name fs1 name (d_children d) = None).
  { assert (Hc : child_named fs1 dir name = None) by (rewrite (child_ext fs fs1) by (done || by exists (VDir d)); done).
    unfold child_named in Hc. by rewrite Hd1 in Hc. }
  unfold add_child. rewrite node_spec, Hd1 by done. cbn [mbind exec_bind].
  destruct (fill_slot new (d_children d)) as [children|] eqn:Hfs.
  2: { eexists _, _. split; [done|]. apply fill_slot_None in Hfs. done. }
  unfold set_node. rewrite put_exec_Done by done. cbn [mbind exec_bind].
  set (d' := mk_dir (d_name d) (d_name_len d) children).
  set (fs' := mk_fs (<[dir := Some (VDir d')]> (fs_pool fs1)) (node_count fs1) (ramfs_root fs1)).
  exists (inr new), fs'. split; [done|]. destruct (fill_slot_Some _ _ _ Hfs) as (k&Hk&Hch).
  assert (Hat' : ∀ j, at_node fs' j = if decide (j = dir) then Some (VDir d') else at_node fs1 j) by (intros j; by apply at_set).
  assert (Hname : ∀ j, name_at fs' j = name_at fs1 j).
  { intros j. unfold name_at. rewrite Hat'. case_decide; [|done]. subst j. by rewrite Hd1. }
  assert (Hch' : ∀ i x, i ≠ dir → child_named fs' i x = child_named fs1 i x).
  { intros i x Hi. unfold child_named. rewrite Hat', decide_False by done. destruct (at_node fs1 i); [|done].
    apply find_name_ext. intros c _. apply Hname. }
  split_and!; try done.
  { apply (wf_link fs1 fs' dir new k d name); try done. cbn [fs_pool]. unfold fs', d'. by rewrite Hch. }
  split; [done| | | |].
  - exists v. rewrite Hat', decide_False, Hat, decide_True by lia. split_and!; try done.
    intros x. rewrite Hch' by lia. eapply child_fresh; [rewrite Hat; by rewrite decide_True|done].
  - intros i x. destruct (decide (i = dir)) as [->|Hi].
    + unfold child_named at 1. rewrite Hat', decide_True by done. cbn [mbind option_bind node_children d' d_children].
      rewrite (find_name_filled fs' new name x (d_children d) children); [|by rewrite Hname| |done].
      * rewrite (decide_ext (dir = dir ∧ x = name) (x = name)) by (split; [by intros []|done]).
        case_decide; [done|]. unfold child_named. rewrite Hd. cbn [mbind option_bind node_children].
        apply find_name_ext. intros c Hc. rewrite Hname. apply name_at_ext, Hs. by apply (fw_child _ Hwf dir (VDir d)).
      * rewrite (find_name_ext fs1); [done|]. intros c _. apply Hname.
    + rewrite decide_False by (by intros []). rewrite Hch' by done. destruct (decide (i = new)) as [->|Hin].
      * rewrite (child_fresh fs1 new v) by (done || by rewrite Hat, decide_True). unfold child_named. by rewrite Hnew.
      * unfold child_named. rewrite Hat, decide_False by done. destruct (at_node fs i) as [w|] eqn:Hw; [|done]. cbn.
        apply find_name_ext. intros c Hc. apply name_at_ext, Hs. by apply (fw_child _ Hwf i w).
  - intros i Hi Hin. rewrite Hat', decide_False, Hat, decide_False by done. done.
  - exists d, d'. split_and!; [done|done|]. by rewrite Hat', decide_True.
Qed.

Lemma create_node_spec (mk : str → exec Vnode) (ty : FileType) (fs : RamFs) (dir : nat) (name : str) :
  (length name < NAME_MAX → ∃ v, mk name = Done v ∧ fresh_node v name ∧ file_type v = ty) →
  fs_wf fs → (node_count fs < USIZE_MAX)%Z →
  ∃ r fs', create_node mk fs dir name = Done (r, fs') ∧ fs_wf fs' ∧ created fs dir name ty fs' r
  ∧ (node_count fs <= node_count fs' <= node_count fs + 1)%Z ∧ ramfs_root fs' = ramfs_root fs.
Proof.
  intros Hmk Hwf Hc. unfold create_node.
  destruct (bool_decide (name = []) || (NAME_MAX <=? length name)) eqn:Hnm.
  { exists (inl NameTooLong), fs. split_and!; try done; try lia. apply cr_name; [|done].
    apply orb_true_iff in Hnm as [?%bool_decide_eq_true|?%Nat.leb_le]; [by left|by right]. }
  apply orb_false_iff in Hnm as [_ Hlen%Nat.leb_gt].
  rewrite node_spec by done. cbn [mbind exec_bind]. destruct (at_node fs dir) as [[f|d]|] eqn:Hd.
  - eexists _, fs. split_and!; try done; try lia. by eapply cr_file.
  - assert (Hcn : child_named fs dir name = find_name fs name (d_children d)) by (unfold child_named; by rewrite Hd).
    rewrite find_child_spec by (done || exact (dir_children_live fs dir (VDir d) Hwf Hd)). cbn [mbind exec_bind].
    destruct (find_name fs name (d_children d)) as [c|] eqn:Hfn.
    { eexists _, fs. split_and!; try done; try lia. by eapply cr_exists. }
    destruct (Hmk Hlen) as (v&Hv&Hf&Hty). rewrite Hv. cbn [mbind exec_bind].
    destruct (alloc_node_spec fs v name Hwf Hf Hc) as (r1&fs1&Ha&Hwf1&Hc1&Hr1&Hpost). rewrite Ha. cbn [mbind exec_bind].
    destruct r1 as [e|new].
    { destruct Hpost as (->&Hfull&Hp). eexists _, fs1. split_and!; try done; try lia. by apply cr_pool_full. }
    destruct Hpost as (Hnew&Hcap&Hat&Horph).
    assert (Hnone : at_node fs new = None).
    { apply eq_None_not_Some. intros Hs. apply (fw_dom _ Hwf) in Hs. lia. }
    assert (Hlt : dir < new).
    { assert (Hs : is_Some (at_node fs dir)) by (rewrite Hd; by eexists). apply (fw_dom _ Hwf) in Hs. lia. }
    destruct (add_child_spec fs fs1 dir new d v name Hwf Hwf1 Hd Hnone Hlt Hf Hat Horph Hcn) as (r&fs'&Heq&Hwf'&Hc'&Hr'&Hres).
    exists r, fs'. split_and!; [done|done| |lia|lia|congruence]. destruct r as [e|n].
    + destruct Hres as (->&Hfull&->). eapply cr_dir_full; [done|done| |done]. intros i Hi. rewrite Hat. case_decide; [|done].
      subst i. rewrite Hnone in Hi. by destruct Hi.
    + destruct Hres as [-> Hl]. rewrite Hty in Hl. by apply cr_done.
  - eexists _, fs. split_and!; try done; try lia. by apply cr_missing.
Qed.

Lemma create_file_spec (fs : RamFs) (dir : nat) (name : str) : fs_wf fs → utf8_valid name = true → (node_count fs < USIZE_MAX)%Z →
  ∃ r fs', create_file fs dir name = Done (r, fs') ∧ fs_wf fs' ∧ created fs dir name File fs' r
  ∧ (node_count fs <= node_count fs' <= node_count fs + 1)%Z ∧ ramfs_root fs' = ramfs_root fs.
Proof. intros Hwf Hu. apply create_node_spec; [|done]. intros Hl. by apply new_file_spec. Qed.

Lemma create_dir_spec (fs : RamFs) (dir : nat) (name : str) : fs_wf fs → utf8_valid name = true → (node_count fs < USIZE_MAX)%Z →
  ∃ r fs', create_dir fs dir name = Done (r, fs') ∧ fs_wf fs' ∧ created fs dir name Directory fs' r
  ∧ (node_count fs <= node_count fs' <= node_count fs + 1)%Z ∧ ramfs_root fs' = ramfs_root fs.
Proof. intros Hwf Hu. apply create_node_spec; [|done]. intros Hl. by apply new_dir_spec. Qed.

(** The paths after a link: the old ones, and the new name below the paths of
    its directory. *)
Lemma walk_linked (fs fs' : RamFs) (dir new : nat) (name : str) (ty : FileType) : fs_wf fs → linked fs fs' dir new name ty →
  child_named fs dir name = None → ∀ p i j, i ≠ new →
  walk fs' i p = Some j ↔ walk fs i p = Some j ∨ (j = new ∧ ∃ q, p = q ++ [name] ∧ walk fs i q = Some dir).
Proof.
  intros Hwf Hl Hfree. destruct (ln_node _ _ _ _ _ _ Hl) as (v&_&_&_&Hleaf).
  assert (Hend : ∀ p j, walk fs' new p = Some j ↔ p = [] ∧ j = new).
  { intros [|c p] j; cbn [walk]; [split; [by intros [= <-]|by intros [_ ->]]|]. rewrite Hleaf. cbn. split; [done|by intros []]. }
  induction p as [|c p IH]; intros i j Hi; cbn [walk].
  { split; [by left|]. intros [?|(_&q&Hq&_)]; [done|]. by destruct q. }
  rewrite (ln_child _ _ _ _ _ _ Hl). case_decide as Hc.
  - destruct Hc as [-> ->]. rewrite Hfree. cbn. rewrite Hend. split.
    + intros [-> ->]. right. split; [done|]. by exists [].
    + intros [?|(->&q&Hq&Hw)]; [done|]. destruct q as [|x q]; cbn in Hq; injection Hq; [by intros ->|].
      intros -> <-. cbn [walk] in Hw. by rewrite Hfree in Hw.
  - destruct (child_named fs i c) as [k|] eqn:Hk; cbn.
    + rewrite IH.
      * split; (intros [?|(->&q&Hq&Hw)]; [by left|right; split; [done|]]).
        -- exists (c :: q). split; [by rewrite Hq|]. cbn [walk]. by rewrite Hk.
        -- destruct q as [|x q]; cbn in Hq; injection Hq as -> ->.
           ++ cbn in Hw. injection Hw as ->. by destruct Hc.
           ++ exists q. split; [done|]. cbn [walk] in Hw. by rewrite Hk in Hw.
      * intros ->. unfold child_named in Hk. destruct (at_node fs i) as [w|] eqn:Hw; [|done]. cbn in Hk.
        apply find_name_in in Hk as [Hin _]. destruct (fw_child _ Hwf i w new Hw Hin) as [_ Hs].
        rewrite (ln_new _ _ _ _ _ _ Hl) in Hs. by destruct Hs.
    + split; [done|]. intros [?|(_&q&Hq&Hw)]; [done|]. destruct q as [|x q]; cbn in Hq; injection Hq as -> ->; cbn [walk] in Hw.
      * injection Hw as ->. by destruct Hc.
      * by rewrite Hk in Hw.
Qed.

(** ** Files *)

Lemma write_file_spec (fs : RamFs) (file : nat) (data : list Z) : fs_wf fs →
  ∃ r fs', write_file fs file data = Done (r, fs') ∧ fs_wf fs' ∧ node_count fs' = node_count fs ∧ ramfs_root fs' = ramfs_root fs
  ∧ match at_node fs file with
    | None => r = inl NotFound ∧ fs' = fs
    | Some (VDir _) => r = inl IsDirectory ∧ fs' = fs
    | Some (VFile f) => let len := Nat.min (length data) FILE_MAX_SIZE in r = inr len
        ∧ ∃ f', at_node fs' file = Some (VFile f') ∧ f_size f' = len ∧ take len (f_data f') = take len data
          ∧ length (f_data f') = FILE_MAX_SIZE ∧ f_name f' = f_name f ∧ f_name_len f' = f_name_len f
          ∧ ∀ j, j ≠ file → at_node fs' j = at_node fs j
    end.
Proof.
  intros Hwf. unfold write_file. rewrite node_spec by done. cbn [mbind exec_bind].
  destruct (at_node fs file) as [[f|d]|] eqn:Hf; [|by eexists _, fs..].
  destruct (fw_node _ Hwf file _ Hf) as (Hu&Hnl&Hn&Hdl&Hsz).
  set (len := Nat.min (length data) FILE_MAX_SIZE). rewrite copy_prefix_Done by lia. cbn [mbind exec_bind].
  assert (Hlt : file < length (fs_pool fs)) by (rewrite (fw_len _ Hwf); apply (fw_dom _ Hwf file); by exists (VFile f)).
  unfold set_node. rewrite put_exec_Done by done. cbn [mbind exec_bind].
  set (f' := mk_file (f_name f) (f_name_len f) (take len data ++ drop len (f_data f)) len).
  set (fs' := mk_fs (<[file := Some (VFile f')]> (fs_pool fs)) (node_count fs) (ramfs_root fs)).
  exists (inr len), fs'. split; [done|].
  assert (Hat : ∀ j, at_node fs' j = if decide (j = file) then Some (VFile f') else at_node fs j) by (intros j; by apply at_set).
  assert (Hname : ∀ j, name_at fs' j = name_at fs j).
  { intros j. unfold name_at. rewrite Hat. case_decide; [|done]. subst j. by rewrite Hf. }
  assert (Hlive : ∀ j, is_Some (at_node fs' j) ↔ is_Some (at_node fs j)).
  { intros j. rewrite Hat. case_decide; [|done]. subst j. rewrite Hf. split; intros _; by eexists. }
  assert (Hch : ∀ i v k c, at_node fs' i = Some v → node_children v !! k = Some c → at_node fs i = Some v).
  { intros i v k c. rewrite Hat. case_decide; [|done]. intros [= <-]. done. }
  assert (Hlen : length (f_data f') = FILE_MAX_SIZE) by (unfold f'; cbn; rewrite length_copied by lia; done).
  split_and!; [|done|done|done|].
  - destruct Hwf as [H1 H2 H3 H4 H5 H6 H7]. split; [by cbn; rewrite length_insert|done| | | | |].
    + intros i. rewrite Hlive. apply H3.
    + intros i v. rewrite Hat. case_decide; [|apply H4]. intros [= <-]. split; [done|]. cbn. split_and!; [done|done|done|lia].
    + intros i v c Hi Hin. rewrite Hlive. pose proof Hin as Hin'. apply list_elem_of_lookup in Hin' as [k Hk]. eapply H5; eauto.
    + intros i j v w k l c Hi Hj Hk Hl. eapply (H6 i j v w); eauto.
    + intros i v k l c e Hi Hk Hl Hne. rewrite !Hname in Hne. eapply (H7 i v); eauto.
  - exists f'. rewrite Hat, decide_True by done. split_and!; try done.
    + unfold f'. cbn. apply take_copied. lia.
    + intros j Hj. by rewrite Hat, decide_False.
Qed.

Lemma read_file_spec (fs : RamFs) (file : nat) (buf : list Z) : fs_wf fs →
  read_file fs file buf = Done (match at_node fs file with
    | None => (inl NotFound, buf)
    | Some (VDir _) => (inl IsDirectory, buf)
    | Some (VFile f) => let len := Nat.min (f_size f) (length buf) in (inr len, take len (f_data f) ++ drop len buf)
    end).
Proof.
  intros Hwf. unfold read_file. rewrite node_spec by done. cbn [mbind exec_bind].
  destruct (at_node fs file) as [[f|d]|] eqn:Hf; [|done..].
  destruct (fw_node _ Hwf file _ Hf) as (Hu&Hnl&Hn&Hdl&Hsz). rewrite copy_prefix_Done by lia. done.
Qed.
