(* ===== verification/RamFsProps.v ===== *)
(** * What the RAM file system promises *)

From S2P Require Export Prelude.
From S2P Require Export RamFs.
From S2P Require Export RamFsTree.

#[local] Opaque NODE_POOL_CAP FILE_MAX_SIZE NAME_MAX DIR_MAX_ENTRIES.

(** ** Histories *)

Inductive FsOp : Type :=
  | OpInit
  | OpCreateFile (dir : nat) (name : str)
  | OpCreateDir (dir : nat) (name : str)
  | OpWrite (file : nat) (data : list Z)
  | OpRead (file : nat) (buf : list Z)
  | OpList (dir : nat)
  | OpResolve (path : str).

(** A name given as a [&str] is UTF-8. *)
Definition op_ok (op : FsOp) : Prop :=
  match op with OpCreateFile _ name | OpCreateDir _ name => utf8_valid name = true | _ => True end.

Definition run_op (fs : RamFs) (op : FsOp) : exec RamFs :=
  match op with
  | OpInit => init fs
  | OpCreateFile dir name => '(_, fs) ← create_file fs dir name; Done fs
  | OpCreateDir dir name => '(_, fs) ← create_dir fs dir name; Done fs
  | OpWrite file data => '(_, fs) ← write_file fs file data; Done fs
  | OpRead file buf => _ ← read_file fs file buf; Done fs
  | OpList dir => _ ← list_dir fs dir; Done fs
  | OpResolve path => _ ← resolve_path fs path; Done fs
  end.

Fixpoint run_ops (fs : RamFs) (ops : list FsOp) : exec RamFs :=
  match ops with [] => Done fs | op :: ops => fs ← run_op fs op; run_ops fs ops end.

Lemma created_rooted (fs fs' : RamFs) (dir : nat) (name : str) (ty : FileType) (r : FsError + nat) :
  created fs dir name ty fs' r → rooted fs → ramfs_root fs' = ramfs_root fs → rooted fs'.
Proof.
  intros Hc [Hr [d Hd]] Hr'. split; [congruence|].
  assert (Hs : is_Some (at_node fs 0)) by (rewrite Hd; by eexists).
  destruct Hc as [_ ->|_ ->|f _ ->|c _ ->|_ Hp|d' _ _ Hsame _|new Hl _]; try by exists d.
  - exists d. unfold at_node in *. by rewrite Hp.
  - exists d. by rewrite Hsame.
  - destruct (decide (0 = dir)) as [<-|Hne]; [destruct (ln_dir _ _ _ _ _ _ Hl) as (_&d'&_&_&Hd'); by exists d'|].
    exists d. rewrite (ln_other _ _ _ _ _ _ Hl); [done|done|]. intros <-. by rewrite (ln_new _ _ _ _ _ _ Hl) in Hd.
Qed.

Lemma boot_wf : fs_wf boot_fs.
Proof.
  assert (Hnone : ∀ i, at_node boot_fs i = None).
  { intros i. unfold at_node, boot_fs. cbn [fs_pool]. destruct (replicate NODE_POOL_CAP None !! i) as [v|] eqn:E; [|done].
    by apply lookup_replicate in E as [-> _]. }
  split; try (intros *; rewrite Hnone; done).
  - apply length_replicate.
  - done.
  - intros i. rewrite Hnone. cbn. split; [intros Hs; by apply is_Some_None in Hs|lia].
Qed.

(** The three directories [init] makes. *)
Lemma init_dirs (fs : RamFs) : fs_wf fs → rooted fs → (node_count fs <= 1)%Z → ∃ fs',
  ('(_, fs) ← create_dir fs 0 dev_name; '(_, fs) ← create_dir fs 0 proc_name; '(_, fs) ← create_dir fs 0 mnt_name; Done fs) = Done fs'
  ∧ fs_wf fs' ∧ rooted fs' ∧ (node_count fs' <= 4)%Z.
Proof.
  intros Hwf Hr Hc.
  destruct (create_dir_spec fs 0 dev_name Hwf eq_refl) as (r1&fs1&->&Hwf1&Hc1&Hn1&Hr1); [unfold USIZE_MAX; lia|]. cbn [mbind exec_bind].
  pose proof (created_rooted _ _ _ _ _ _ Hc1 Hr Hr1) as Hrt1.
  destruct (create_dir_spec fs1 0 proc_name Hwf1 eq_refl) as (r2&fs2&->&Hwf2&Hc2&Hn2&Hr2); [unfold USIZE_MAX; lia|]. cbn [mbind exec_bind].
  pose proof (created_rooted _ _ _ _ _ _ Hc2 Hrt1 Hr2) as Hrt2.
  destruct (create_dir_spec fs2 0 mnt_name Hwf2 eq_refl) as (r3&fs3&->&Hwf3&Hc3&Hn3&Hr3); [unfold USIZE_MAX; lia|]. cbn [mbind exec_bind].
  pose proof (created_rooted _ _ _ _ _ _ Hc3 Hrt2 Hr3) as Hrt3.
  exists fs3. split_and!; [done|done|done|lia].
Qed.

Lemma init_boot : ∃ fs, init boot_fs = Done fs ∧ fs_wf fs ∧ rooted fs ∧ (node_count fs <= 4)%Z.
Proof.
  unfold init. change (root boot_fs) with (@inl FsError nat NotFound). cbv iota beta.
  destruct (new_dir_spec [SLASH]) as (v&Hv&Hf&Hty); [apply Nat.ltb_lt; by vm_compute|done|]. rewrite Hv. cbn [mbind exec_bind].
  destruct (alloc_node_spec boot_fs v [SLASH] boot_wf Hf ltac:(done)) as (r&fs1&Ha&Hwf1&Hc1&Hr1&Hpost). rewrite Ha. cbn [mbind exec_bind].
  destruct r as [e|new]; [destruct Hpost as (_&Hfull&_); by vm_compute in Hfull|]. destruct Hpost as (Hnew&_&Hat&_).
  cbn [boot_fs node_count] in Hnew, Hc1. assert (new = 0) as -> by lia.
  set (fs2 := mk_fs (fs_pool fs1) (node_count fs1) (Z.of_nat 0)).
  destruct (init_dirs fs2) as (fs3&Heq&Hwf3&Hrt3&Hc3).
  - by destruct Hwf1 as [H1 H2 H3 H4 H5 H6 H7].
  - split; [done|]. destruct v as [f|d]; [done|]. exists d. exact (Hat 0).
  - cbn. lia.
  - exists fs3. done.
Qed.

Lemma init_again (fs : RamFs) : rooted fs → init fs = Done fs.
Proof. intros [Hr _]. unfold init, root. by rewrite Hr. Qed.

(** ** Listing *)

Definition entry_of (v : Vnode) : DirEntry :=
  match v with
  | VFile f => mk_entry (f_name f) (f_name_len f) File
  | VDir d => mk_entry (d_name d) (d_name_len d) Directory
  end.

Lemma list_children_spec (fs : RamFs) (children : list (option nat)) : fs_wf fs → (∀ c, Some c ∈ children → is_Some (at_node fs c)) →
  let es := omap (λ o : option nat, o ≫= λ c, entry_of <$> at_node fs c) children in
  list_children fs children = Done (inr (length es), es).
Proof.
  intros Hwf. induction children as [|[c|] children IH]; intros Hc; cbn [list_children]; [done| |].
  2: { apply IH. intros e He. apply Hc. by right. }
  destruct (Hc c ltac:(by left)) as [v Hv]. rewrite node_spec, Hv by done. cbn [mbind exec_bind].
  rewrite IH by (intros e He; apply Hc; by right). cbn [mbind exec_bind omap list_omap option_bind].
  rewrite Hv. cbn [fmap option_fmap option_map]. by destruct v.
Qed.

Lemma list_dir_spec (fs : RamFs) (dir : nat) : fs_wf fs →
  list_dir fs dir = Done (match at_node fs dir with
    | None => (inl NotFound, [])
    | Some (VFile _) => (inl NotDirectory, [])
    | Some (VDir d) => let es := omap (λ o : option nat, o ≫= λ c, entry_of <$> at_node fs c) (d_children d) in (inr (length es), es)
    end).
Proof.
  intros Hwf. unfold list_dir. rewrite node_spec by done. cbn [mbind exec_bind].
  destruct (at_node fs dir) as [[f|d]|] eqn:Hd; [done| |done].
  by apply list_children_spec, (dir_children_live fs dir (VDir d)).
Qed.

Lemma entry_name (v : Vnode) : node_wf v → name_str (entry_of v) = Done (raw_name v).
Proof.
  intros [Hu Hv]. unfold name_str, entry_of. destruct v as [f|d]; cbn [de_name de_name_len]; destruct Hv as (Hl&Hn&_);
    rewrite prefix_exec_Done by lia; cbn [mbind exec_bind]; unfold from_utf8_or_empty; cbn [raw_name] in *; by rewrite Hu.
Qed.

Lemma run_op_ok (fs : RamFs) (op : FsOp) : fs_wf fs → rooted fs → op_ok op → (node_count fs < USIZE_MAX)%Z →
  ∃ fs', run_op fs op = Done fs' ∧ fs_wf fs' ∧ rooted fs' ∧ (node_count fs' <= node_count fs + 1)%Z.
Proof.
  intros Hwf Hr Hok Hc. destruct op as [|dir name|dir name|file data|file buf|dir|path]; cbn [run_op op_ok] in *.
  - rewrite init_again by done. exists fs. split_and!; try done. lia.
  - destruct (create_file_spec fs dir name Hwf Hok Hc) as (r&fs'&->&Hwf'&Hcr&Hn&Hr'). cbn [mbind exec_bind].
    exists fs'. split_and!; [done|done|by eapply created_rooted|lia].
  - destruct (create_dir_spec fs dir name Hwf Hok Hc) as (r&fs'&->&Hwf'&Hcr&Hn&Hr'). cbn [mbind exec_bind].
    exists fs'. split_and!; [done|done|by eapply created_rooted|lia].
  - destruct (write_file_spec fs file data Hwf) as (r&fs'&->&Hwf'&Hn&Hr'&Hpost). cbn [mbind exec_bind].
    exists fs'. split_and!; [done|done| |lia]. destruct Hr as [Hr0 [d Hd]]. split; [congruence|]. exists d.
    destruct (at_node fs file) as [[f|d']|] eqn:Hf; [|by destruct Hpost as [_ ->]..].
    destruct Hpost as (_&f'&_&_&_&_&_&_&Ho). rewrite Ho; [done|]. intros <-. congruence.
  - rewrite read_file_spec by done. cbn [mbind exec_bind]. exists fs. split_and!; try done. lia.
  - rewrite list_dir_spec by done. cbn [mbind exec_bind]. exists fs. split_and!; try done. lia.
  - destruct (resolve_path_spec fs path Hwf (proj1 Hr)) as (r&->&_). exists fs. split_and!; try done. lia.
Qed.

Lemma history_wf (ops : list FsOp) : Forall op_ok ops → (Z.of_nat (length ops) < 2 ^ 63)%Z →
  ∃ fs, run_ops boot_fs (OpInit :: ops) = Done fs ∧ fs_wf fs ∧ rooted fs.
Proof.
  intros Hok Hlen. destruct init_boot as (fs0&Hi&Hwf&Hr&Hc). cbn [run_ops run_op]. rewrite Hi. cbn [mbind exec_bind].
  assert (Hb : (node_count fs0 + Z.of_nat (length ops) < USIZE_MAX)%Z) by (unfold USIZE_MAX; change (2 ^ 63)%Z with 9223372036854775808%Z in Hlen; lia).
  clear Hi Hc Hlen. revert fs0 Hwf Hr Hb. induction Hok as [|op ops Hop _ IH]; intros fs0 Hwf Hr Hb; cbn [run_ops]; [by exists fs0|].
  cbn [length] in Hb. destruct (run_op_ok fs0 op Hwf Hr Hop ltac:(lia)) as (fs1&->&Hwf1&Hr1&Hc1). cbn [mbind exec_bind].
  apply IH; [done|done|lia].
Qed.

(** ** File systems to try the properties on *)

Definition fs_of (ops : list FsOp) : RamFs := match run_ops boot_fs (OpInit :: ops) with Done fs => fs | Stuck => boot_fs end.

Lemma fs_of_wf (ops : list FsOp) : Forall op_ok ops → (Z.of_nat (length ops) < 2 ^ 63)%Z → fs_wf (fs_of ops) ∧ rooted (fs_of ops).
Proof. intros Hok Hlen. unfold fs_of. by destruct (history_wf ops Hok Hlen) as (fs&->&?&?). Qed.

(** [/dev/a] holds three bytes. *)
Definition demo_ops : list FsOp := [OpCreateFile 1 [97]; OpWrite 4 [1; 2; 3]]%Z.
(** [/dev] is full. *)
Definition full_ops : list FsOp := (λ i : nat, OpCreateFile 1 [Z.of_nat i]) <$> seq 97 16.

Lemma demo_fs_wf : fs_wf (fs_of demo_ops) ∧ rooted (fs_of demo_ops).
Proof. by apply fs_of_wf; [repeat constructor|]. Qed.
Lemma full_fs_wf : fs_wf (fs_of full_ops) ∧ rooted (fs_of full_ops).
Proof. by apply fs_of_wf; [repeat constructor|]. Qed.

Definition the_file (fs : RamFs) (i : nat) : FileNode := match at_node fs i with Some (VFile f) => f | _ => mk_file [] 0 [] 0 end.
Definition the_dir (fs : RamFs) (i : nat) : DirNode := match at_node fs i with Some (VDir d) => d | _ => mk_dir [] 0 [] end.

(** ** Properties *)

(** C18. From boot, every history of initialisations, creations, writes, reads,
    listings and path resolutions, on whatever node numbers, runs without a
    panic and without reading uninitialised memory, and keeps a tree: every node
    has at most one parent, children come after their directory, names are
    unique in a directory and valid UTF-8, and sizes stay in bounds. *)
Theorem ramfs_keeps_tree (ops : list FsOp) : Forall op_ok ops → (Z.of_nat (length ops) < 2 ^ 63)%Z →
  ∃ fs, run_ops boot_fs (OpInit :: ops) = Done fs ∧ fs_wf fs ∧ rooted fs.
Proof. apply history_wf. Qed.

Lemma ramfs_keeps_tree_witness : ∃ fs, run_ops boot_fs [OpInit; OpCreateFile 1 [97]%Z; OpWrite 4 [1; 2; 3]%Z; OpCreateDir 9 []] = Done fs ∧ fs_wf fs ∧ rooted fs.
Proof. apply (ramfs_keeps_tree [OpCreateFile 1 [97]%Z; OpWrite 4 [1; 2; 3]%Z; OpCreateDir 9 []]); [repeat constructor|reflexivity]. Defined.

(** C19. Creating a file: the result is the one of [created], by cause; when it
    succeeds, a path leads to a node afterwards exactly when it did before or it
    is the new name below a path of the directory. *)
Theorem create_file_adds_path (fs : RamFs) (dir : nat) (name : str) : fs_wf fs → rooted fs → utf8_valid name = true →
  (node_count fs < USIZE_MAX)%Z →
  ∃ r fs', create_file fs dir name = Done (r, fs') ∧ fs_wf fs' ∧ created fs dir name File fs' r ∧
    ∀ new path j, r = inr new →
      resolve_path fs' path = Done (inr j) ↔ resolve_path fs path = Done (inr j)
        ∨ (j = new ∧ ∃ q, components path = q ++ [name] ∧ walk fs 0 q = Some dir).
Proof.
  intros Hwf Hr Hu Hc. destruct (create_file_spec fs dir name Hwf Hu Hc) as (r&fs'&Heq&Hwf'&Hcr&Hn&Hr').
  exists r, fs'. split_and!; [done|done|done|]. intros new path j ->. inversion Hcr as [| | | | | |new' Hl Hfree]. subst new'.
  destruct (resolve_path_spec fs path Hwf (proj1 Hr)) as (r1&->&H1).
  destruct (resolve_path_spec fs' path Hwf') as (r2&->&H2); [by rewrite Hr'; apply Hr|].
  assert (Hne : 0 ≠ new).
  { destruct Hr as [_ [d Hd]]. intros <-. by rewrite (ln_new _ _ _ _ _ _ Hl) in Hd. }
  pose proof (walk_linked fs fs' dir new name File Hwf Hl Hfree (components path) 0 j Hne) as Hw.
  rewrite <- H2, <- H1 in Hw. destruct Hw as [Hw1 Hw2]. split.
  - intros [= ->]. destruct (Hw1 eq_refl) as [->|?]; [by left|by right].
  - intros [[= ->]|Hright]; [by rewrite Hw2 by (by left)|by rewrite Hw2 by (by right)].
Qed.

Lemma create_file_adds_path_witness : ∃ r fs',
  create_file (fs_of demo_ops) 1 [98]%Z = Done (r, fs') ∧ fs_wf fs' ∧ created (fs_of demo_ops) 1 [98]%Z File fs' r.
Proof.
  destruct demo_fs_wf as [Hwf Hr].
  destruct (create_file_adds_path (fs_of demo_ops) 1 [98]%Z Hwf Hr eq_refl) as (r&fs'&Heq&Hwf'&Hc&_); [vm_compute; reflexivity|].
  exists r, fs'. split; [exact Heq|]. split; [exact Hwf'|exact Hc].
Defined.

(** What is written to a file is what is read back, cut at the capacity of
    a file and at the buffer, whatever was there before; the other files read as
    before. *)
Theorem write_read_roundtrip (fs : RamFs) (file : nat) (f : FileNode) (data buf : list Z) : fs_wf fs → at_node fs file = Some (VFile f) →
  ∃ fs', write_file fs file data = Done (inr (Nat.min (length data) FILE_MAX_SIZE), fs') ∧ fs_wf fs'
  ∧ (let n := Nat.min (Nat.min (length data) FILE_MAX_SIZE) (length buf) in
     read_file fs' file buf = Done (inr n, take n data ++ drop n buf))
  ∧ ∀ other, other ≠ file → read_file fs' other buf = read_file fs other buf.
Proof.
  intros Hwf Hf. destruct (write_file_spec fs file data Hwf) as (r&fs'&Heq&Hwf'&_&_&Hpost). rewrite Hf in Hpost.
  destruct Hpost as (->&f'&Hf'&Hsz&Hdata&_&_&_&Ho). exists fs'. split_and!; [done|done| |].
  - rewrite read_file_spec, Hf', Hsz by done. cbv zeta. do 3 f_equal.
    set (n := Nat.min (Nat.min (length data) FILE_MAX_SIZE) (length buf)).
    assert (Hn : n ≤ Nat.min (length data) FILE_MAX_SIZE) by (unfold n; lia).
    apply (f_equal (take n)) in Hdata. rewrite !take_take, !(Nat.min_l n) in Hdata by done. done.
  - intros other Hne. rewrite !read_file_spec by done. by rewrite Ho.
Qed.

Lemma write_read_roundtrip_witness : ∃ fs', write_file (fs_of demo_ops) 4 [7; 8]%Z = Done (inr 2, fs')
  ∧ read_file fs' 4 [0; 0; 9]%Z = Done (inr 2, [7; 8; 9]%Z).
Proof.
  destruct demo_fs_wf as [Hwf Hr].
  destruct (write_read_roundtrip (fs_of demo_ops) 4 (the_file (fs_of demo_ops) 4) [7; 8]%Z [0; 0; 9]%Z Hwf) as (fs'&Hw&_&Hrd&_);
    [vm_compute; reflexivity|].
  exists fs'. split; [exact Hw|exact Hrd].
Defined.

(** A directory lists exactly the names that are found in it, with the type
    of their node, and counts them. *)
Theorem list_dir_lookup (fs : RamFs) (dir : nat) (d : DirNode) : fs_wf fs → at_node fs dir = Some (VDir d) →
  ∃ es, list_dir fs dir = Done (inr (length es), es)
  ∧ ∀ name ty, (∃ e, e ∈ es ∧ name_str e = Done name ∧ de_file_type e = ty)
      ↔ ∃ c, lookup fs dir name = Done (inr c) ∧ node_file_type fs c = Done (inr ty).
Proof.
  intros Hwf Hd. rewrite list_dir_spec, Hd by done. eexists. split; [done|]. intros name ty.
  assert (Hlk : ∀ c, lookup fs dir name = Done (inr c) ↔ find_name fs name (d_children d) = Some c).
  { intros c. rewrite lookup_spec, Hd by done. unfold child_named. rewrite Hd. cbn. destruct (find_name _ _ _); split; congruence. }
  assert (Hlive := dir_children_live fs dir (VDir d) Hwf Hd).
  assert (Hty : ∀ c v, at_node fs c = Some v → node_file_type fs c = Done (inr (file_type v))).
  { intros c v Hv. unfold node_file_type. by rewrite node_spec, Hv. }
  split.
  - intros (e&He&Hn&<-). apply list_elem_of_omap in He as (o&Ho&Hoe). destruct o as [c|]; [|done]. cbn in Hoe.
    destruct (at_node fs c) as [v|] eqn:Hv; [|done]. injection Hoe as <-. rewrite entry_name in Hn by (by eapply fw_node).
    injection Hn as <-. exists c. split; [|rewrite (Hty c v Hv); by destruct v]. apply Hlk.
    destruct (find_name fs (raw_name v) (d_children d)) as [c'|] eqn:E.
    + pose proof (find_name_in _ _ _ _ E) as [Hin Hn']. apply list_elem_of_lookup in Hin as [l Hl]. apply list_elem_of_lookup in Ho as [k Hk].
      assert (k = l) as ->; [|congruence]. apply (fw_names _ Hwf dir (VDir d) k l c c' Hd Hk Hl). rewrite Hn'. unfold name_at. by rewrite Hv.
    + apply find_name_None with (c := c) in E; [|done]. destruct E. unfold name_at. by rewrite Hv.
  - intros (c&Hc%Hlk&Ht). apply find_name_in in Hc as [Hin Hn]. destruct (Hlive c Hin) as [v Hv].
    rewrite (Hty c v Hv) in Ht. injection Ht as <-. exists (entry_of v).
    split_and!; [apply list_elem_of_omap; exists (Some c); split; [done|]; cbn; by rewrite Hv| |by destruct v].
    rewrite entry_name by (by eapply fw_node). unfold name_at in Hn. rewrite Hv in Hn. by injection Hn as ->.
Qed.

Lemma list_dir_lookup_witness : ∃ es, list_dir (fs_of demo_ops) 0 = Done (inr (length es), es)
  ∧ ∃ e, e ∈ es ∧ name_str e = Done dev_name ∧ de_file_type e = Directory.
Proof.
  destruct demo_fs_wf as [Hwf Hr].
  destruct (list_dir_lookup (fs_of demo_ops) 0 (the_dir (fs_of demo_ops) 0) Hwf) as (es&He&Hall); [vm_compute; reflexivity|].
  exists es. split; [exact He|]. apply Hall. exists 1. split; vm_compute; reflexivity.
Defined.

(** Creating a name in a directory that is full reports [NoSpace] and still
    uses up a node of the pool, so failing creations exhaust the pool. *)
Theorem full_directory_leaks (fs : RamFs) (dir : nat) (d : DirNode) (name : str) : fs_wf fs → utf8_valid name = true →
  (node_count fs < Z.of_nat NODE_POOL_CAP)%Z → at_node fs dir = Some (VDir d) → None ∉ d_children d →
  name ≠ [] → length name < NAME_MAX → child_named fs dir name = None →
  ∃ fs', create_file fs dir name = Done (inl NoSpace, fs') ∧ node_count fs' = (node_count fs + 1)%Z
    ∧ ∀ i, is_Some (at_node fs i) → at_node fs' i = at_node fs i.
Proof.
  intros Hwf Hu Hc Hd Hfull Hne Hlen Hfree.
  assert (Hcap : Z.of_nat NODE_POOL_CAP = 64%Z) by (by vm_compute).
  destruct (create_file_spec fs dir name Hwf Hu) as (r&fs'&Heq&_&Hcr&_&_); [unfold USIZE_MAX; lia|]. exists fs'.
  destruct Hcr as [[?|?]|?|f Hf|c Hx|Hp|d' Hd' _ Hs Hn|new Hl _]; try congruence; try lia.
  - done.
  - destruct (ln_dir _ _ _ _ _ _ Hl) as (d1&d2&Hd1&Hslot&_). simplify_eq. apply (fill_slot_None new) in Hfull. congruence.
Qed.

Lemma full_directory_leaks_witness : ∃ fs', create_file (fs_of full_ops) 1 [98; 98]%Z = Done (inl NoSpace, fs') ∧ node_count fs' = 21%Z.
Proof.
  destruct full_fs_wf as [Hwf Hr].
  destruct (full_directory_leaks (fs_of full_ops) 1 (the_dir (fs_of full_ops) 1) [98; 98]%Z Hwf eq_refl) as (fs'&Hc&Hn&_).
  - vm_compute. reflexivity.
  - vm_compute. reflexivity.
  - intros Hin. apply list_elem_of_lookup in Hin as [k Hk]. do 17 (destruct k as [|k]; [vm_compute in Hk; discriminate|]). vm_compute in Hk. destruct k; discriminate.
  - discriminate.
  - apply Nat.ltb_lt. vm_compute. reflexivity.
  - vm_compute. reflexivity.
  - exists fs'. split; [exact Hc|]. rewrite Hn. vm_compute. reflexivity.
Defined.
