(* ===== verification/Exfat.v ===== *)
(** * The exFAT reader, [kernel/src/fs/exfat.rs]

    The device is a function from sector numbers to the 512 bytes read, or a
    failure.  [CLUSTER_BUF] is the static buffer of cluster reads, threaded
    through the operations.  A loop over a cluster chain takes fuel: the chain
    is data of the device and may have no end. *)

From S2P Require Export Prelude.
From S2P Require Export Str.

Module Exfat.

Definition SECTOR_SIZE : nat := 512.
Definition CLUSTER_BUF_SIZE : nat := 4096.

Definition ENTRY_TYPE_UNUSED : Z := 0x00.
Definition ENTRY_TYPE_FILE : Z := 0x85.
Definition ENTRY_TYPE_STREAM : Z := 0xC0.
Definition ENTRY_TYPE_NAME : Z := 0xC1.
Definition ENTRY_TYPE_VOLUME_LABEL : Z := 0x83.
Definition STREAM_FLAG_NO_FAT_CHAIN : Z := 2.
Definition ATTR_READ_ONLY : Z := 0x01.
Definition ATTR_HIDDEN : Z := 0x02.
Definition ATTR_SYSTEM : Z := 0x04.
Definition ATTR_DIRECTORY : Z := 0x10.
Definition ATTR_ARCHIVE : Z := 0x20.

(** ** Little-endian fields *)

Definition le_u16 (buf : list Z) (off : nat) : exec Z := bs ← slice_exec buf off 2; Done (le_bytes bs).
Definition le_u32 (buf : list Z) (off : nat) : exec Z := bs ← slice_exec buf off 4; Done (le_bytes bs).
Definition le_u64 (buf : list Z) (off : nat) : exec Z := bs ← slice_exec buf off 8; Done (le_bytes bs).

Record BootSector : Type := mk_boot {
  oem : list Z;
  volume_length : Z;
  b_fat_offset : Z;
  fat_length : Z;
  b_cluster_heap_offset : Z;
  b_cluster_count : Z;
  b_root_dir_first_cluster : Z;
  bytes_per_sector_shift : Z;
  sectors_per_cluster_shift : Z;
  number_of_fats : Z;
  boot_signature : Z;
}.

Definition boot_parse (sector : list Z) : exec BootSector :=
  oem ← slice_exec sector 3 8;
  vl ← le_u64 sector 72;
  fo ← le_u32 sector 80;
  fl ← le_u32 sector 84;
  ho ← le_u32 sector 88;
  cc ← le_u32 sector 92;
  rc ← le_u32 sector 96;
  bs ← get_exec (sector !! 108);
  sc ← get_exec (sector !! 109);
  nf ← get_exec (sector !! 110);
  sig ← le_u16 sector 510;
  Done (mk_boot oem vl fo fl ho cc rc bs sc nf sig).

(** ** Directory records *)

Record DirEntry : Type := mk_record { entry_type : Z; data : list Z }.

Definition record_parse (buf : list Z) (idx : nat) : exec (option DirEntry) :=
  let start := idx * 32 in
  if length buf <? start + 32 then Done None else
  t ← get_exec (buf !! start);
  d ← slice_exec buf (start + 1) 31;
  Done (Some (mk_record t d)).

Definition u16_at (e : DirEntry) (offset : nat) : exec Z := le_u16 (data e) (offset - 1).
Definition u32_at (e : DirEntry) (offset : nat) : exec Z := le_u32 (data e) (offset - 1).
Definition u64_at (e : DirEntry) (offset : nat) : exec Z := le_u64 (data e) (offset - 1).

Record ExfatEntry : Type := mk_exfat_entry {
  name : list Z;
  name_len : nat;
  first_cluster : Z;
  data_length : Z;
  is_dir : bool;
  attributes : Z;
  no_fat_chain : bool;
}.

Definition has_attr (e : ExfatEntry) (a : Z) : bool := negb (Z.land (attributes e) a =? 0)%Z.
Definition is_read_only (e : ExfatEntry) : bool := has_attr e ATTR_READ_ONLY.
Definition is_hidden (e : ExfatEntry) : bool := has_attr e ATTR_HIDDEN.
Definition is_system (e : ExfatEntry) : bool := has_attr e ATTR_SYSTEM.
Definition is_archive (e : ExfatEntry) : bool := has_attr e ATTR_ARCHIVE.

Record ExfatFs : Type := mk_exfat {
  bytes_per_sector : Z;
  sectors_per_cluster : Z;
  cluster_heap_offset : Z;
  fat_offset : Z;
  root_dir_first_cluster : Z;
  cluster_count : Z;
}.

Definition fs_new : ExfatFs := mk_exfat 0 0 0 0 0 0.
Definition root_cluster (fs : ExfatFs) : Z := root_dir_first_cluster fs.

(** An entry made for a directory of which only the cluster is known. *)
Definition dir_at (first : Z) : ExfatEntry :=
  mk_exfat_entry (replicate 256 0%Z) 0 first 0 true ATTR_DIRECTORY false.

(** ** Arithmetic *)

Definition div_exec (x y : Z) : exec Z := if (y =? 0)%Z then Stuck else Done (x / y)%Z.
Definition mod_exec (x y : Z) : exec Z := if (y =? 0)%Z then Stuck else Done (x `mod` y)%Z.
Definition div_ceil (x y : Z) : exec Z := q ← div_exec x y; Done (if (x `mod` y =? 0)%Z then q else q + 1)%Z.
(** [1u32.checked_shl(n)]. *)
Definition checked_shl (n : Z) : option Z := if (n <? 32)%Z then Some (Z.shiftl 1 n) else None.

Section device.
Context (read_sector : Z → option (list Z)).

(** ** Mounting *)

Definition mount (fs : ExfatFs) : exec (option unit * ExfatFs) :=
  match read_sector 0 with
  | None => Done (None, fs)
  | Some sector0 =>
      boot ← boot_parse sector0;
      if bool_decide (oem boot ≠ [69; 88; 70; 65; 84; 32; 32; 32]%Z) then Done (None, fs) else
      if negb (boot_signature boot =? 0xAA55)%Z then Done (None, fs) else
      if negb ((9 <=? bytes_per_sector_shift boot)%Z && (bytes_per_sector_shift boot <=? 12)%Z)
         || (25 <? sectors_per_cluster_shift boot)%Z then Done (None, fs) else
      match checked_shl (bytes_per_sector_shift boot), checked_shl (sectors_per_cluster_shift boot) with
      | Some bps, Some spc =>
          if negb (bps =? 512)%Z || (spc =? 0)%Z || (4096 <? Z.min (bps * spc) U32_MAX)%Z then Done (None, fs) else
          if (volume_length boot =? 0)%Z || (number_of_fats boot =? 0)%Z || (b_fat_offset boot =? 0)%Z || (fat_length boot =? 0)%Z
             || (b_cluster_heap_offset boot =? 0)%Z || (b_cluster_count boot =? 0)%Z || (b_root_dir_first_cluster boot <? 2)%Z
          then Done (None, fs) else
          limit ← add_w 32 (b_cluster_count boot) 2;
          if (limit <=? b_root_dir_first_cluster boot)%Z then Done (None, fs) else
          Done (Some (), mk_exfat bps spc (b_cluster_heap_offset boot) (b_fat_offset boot) (b_root_dir_first_cluster boot) (b_cluster_count boot))
      | _, _ => Done (None, fs)
      end
  end.

(** ** Clusters *)

Section mounted.
Context (fs : ExfatFs).

Definition cluster_to_sector (cluster : Z) : exec Z :=
  if (cluster <? 2)%Z then Done 0%Z else
  o ← mul_w 64 (cluster - 2) (sectors_per_cluster fs); add_w 64 (cluster_heap_offset fs) o.

(** The sectors [i..i + n]; [buf] is the whole buffer. *)
Fixpoint read_sectors (start : Z) (i n : nat) (buf : list Z) : exec (bool * list Z) :=
  match n with
  | O => Done (true, buf)
  | S n =>
      sector ← add_w 64 start (Z.of_nat i);
      let offset := i * Z.to_nat (bytes_per_sector fs) in
      if length buf <? offset + Z.to_nat (bytes_per_sector fs) then Done (true, buf) else
      match read_sector sector with
      | None => Done (false, buf)
      | Some d => read_sectors start (S i) n (take offset buf ++ d ++ drop (offset + Z.to_nat (bytes_per_sector fs)) buf)
      end
  end.

Definition read_cluster (cluster : Z) (buf : list Z) : exec (bool * list Z) :=
  start ← cluster_to_sector cluster;
  read_sectors start 0 (Z.to_nat (sectors_per_cluster fs)) buf.

Definition next_cluster (cluster : Z) : exec (option Z) :=
  let per := (bytes_per_sector fs / 4)%Z in
  q ← div_exec cluster per;
  fat_sector ← add_w 32 (fat_offset fs) q;
  fat_index ← mod_exec cluster per;
  match read_sector fat_sector with
  | None => Done None
  | Some sector_buf =>
      next ← le_u32 sector_buf (Z.to_nat (fat_index * 4));
      Done (Some (if (0xFFFFFFF8 <=? next)%Z then 0%Z else next))
  end.

Definition next_cluster_for_entry (entry : ExfatEntry) (cluster : Z) : exec (option Z) :=
  if no_fat_chain entry then
    bytes_per_cluster ← mul_w 32 (bytes_per_sector fs) (sectors_per_cluster fs);
    c ← div_ceil (data_length entry) bytes_per_cluster;
    let clusters := Z.max c 1 in
    let offset := saturating_sub cluster (first_cluster entry) in
    if (clusters <=? offset + 1)%Z then Done (Some 0%Z) else n ← add_w 32 cluster 1; Done (Some n)
  else next_cluster cluster.

(** The prefix of [CLUSTER_BUF] that a read fills, and the whole after it. *)
Definition read_into (cluster : Z) (n : nat) (cb : list Z) : exec (bool * list Z * list Z) :=
  let m := Nat.min n CLUSTER_BUF_SIZE in
  buf ← prefix_exec cb m;
  '(ok, buf) ← read_cluster cluster buf;
  Done (ok, buf, buf ++ drop m cb).

(** ** Directories *)

(** The name of 15 characters of a name record, from [k] on. *)
Fixpoint name_chars (rec : DirEntry) (ks : list nat) (name_len : nat) (name : list Z) (pos : nat) : exec (list Z * nat) :=
  match ks with
  | [] => Done (name, pos)
  | k :: ks =>
      let off := 2 + k * 2 in
      if off <=? 30 then
        ch ← u16_at rec off;
        if negb (ch =? 0)%Z && (pos <? name_len) then
          name ← put_exec name pos (if (ch <? 128)%Z then ch else 63%Z);
          name_chars rec ks name_len name (S pos)
        else name_chars rec ks name_len name pos
      else name_chars rec ks name_len name pos
  end.

(** The name records from [j] on: the new [j], the name and its length. *)
Fixpoint name_loop (fuel : nat) (buf : list Z) (num_entries : nat) (j name_len : nat) (name : list Z) (pos : nat)
    : exec (nat * list Z * nat) :=
  match fuel with
  | O => Stuck
  | S fuel =>
      if (j <? num_entries) && (pos <? name_len) then
        r ← record_parse buf j;
        match r with
        | None => Done (j, name, pos)
        | Some rec =>
            if negb (entry_type rec =? ENTRY_TYPE_NAME)%Z then Done (j, name, pos) else
            '(name, pos) ← name_chars rec (seq 0 15) name_len name pos;
            name_loop fuel buf num_entries (S j) name_len name pos
        end
      else Done (j, name, pos)
  end.

(** The entries of one cluster, in the order of the callback. *)
Fixpoint cluster_entries (fuel : nat) (buf : list Z) (num_entries i : nat) : exec (list ExfatEntry) :=
  match fuel with
  | O => Stuck
  | S fuel =>
      if i <? num_entries then
        r ← record_parse buf i;
        match r with
        | None => Done []
        | Some file_entry =>
            if (entry_type file_entry =? ENTRY_TYPE_UNUSED)%Z then Done [] else
            if (entry_type file_entry =? ENTRY_TYPE_VOLUME_LABEL)%Z then cluster_entries fuel buf num_entries (S i) else
            if (entry_type file_entry =? ENTRY_TYPE_FILE)%Z then
              file_attrs ← u16_at file_entry 4;
              if S i <? num_entries then
                r ← record_parse buf (S i);
                match r with
                | None => Done []
                | Some stream =>
                    if negb (entry_type stream =? ENTRY_TYPE_STREAM)%Z then cluster_entries fuel buf num_entries (S i) else
                    flags ← get_exec (data stream !! 0);
                    nl ← get_exec (data stream !! 2);
                    first ← u32_at stream 20;
                    dl ← u64_at stream 24;
                    '(j, nm, pos) ← name_loop (S num_entries) buf num_entries (i + 2) (Z.to_nat nl) (replicate 256 0%Z) 0;
                    let entry := mk_exfat_entry nm (Nat.min pos (Z.to_nat nl)) first dl
                                   (negb (Z.land file_attrs ATTR_DIRECTORY =? 0)%Z) file_attrs
                                   (negb (Z.land flags STREAM_FLAG_NO_FAT_CHAIN =? 0)%Z) in
                    es ← cluster_entries fuel buf num_entries j;
                    Done (entry :: es)
                end
              else cluster_entries fuel buf num_entries (S i)
            else cluster_entries fuel buf num_entries (S i)
        end
      else Done []
  end.

(** The clusters of a directory: the entries passed to the callback, and
    whether the walk came to its end without a read failure. *)
Fixpoint dir_loop (fuel : nat) (dir : ExfatEntry) (bytes_per_cluster cluster : Z) (cb : list Z)
    : exec (list ExfatEntry * bool * list Z) :=
  match fuel with
  | O => Stuck
  | S fuel =>
      if (cluster =? 0)%Z then Done ([], true, cb) else
      '(ok, buf, cb) ← read_into cluster (Z.to_nat bytes_per_cluster) cb;
      if negb ok then Done ([], false, cb) else
      let num_entries := Z.to_nat bytes_per_cluster / 32 in
      es ← cluster_entries (S num_entries) buf num_entries 0;
      r ← next_cluster_for_entry dir cluster;
      match r with
      | None => Done (es, false, cb)
      | Some next => '(rest, ok, cb) ← dir_loop fuel dir bytes_per_cluster next cb; Done (es ++ rest, ok, cb)
      end
  end.

Definition list_entry_dir (fuel : nat) (dir : ExfatEntry) (cb : list Z) : exec (list ExfatEntry * bool * list Z) :=
  bytes_per_cluster ← mul_w 32 (bytes_per_sector fs) (sectors_per_cluster fs);
  dir_loop fuel dir bytes_per_cluster (first_cluster dir) cb.

Definition list_dir (fuel : nat) (start_cluster : Z) (cb : list Z) : exec (list ExfatEntry * bool * list Z) :=
  list_entry_dir fuel (dir_at start_cluster) cb.

(** ** Paths *)

Definition entry_name (e : ExfatEntry) : exec str :=
  bs ← prefix_exec (name e) (Nat.min (name_len e) 255); Done (from_utf8_or_empty bs).

(** The last entry of that name. *)
Fixpoint last_named (component : str) (es : list ExfatEntry) (found : option ExfatEntry) : exec (option ExfatEntry) :=
  match es with
  | [] => Done found
  | e :: es => n ← entry_name e; last_named component es (if bool_decide (n = component) then Some e else found)
  end.

(** [parts]: at most eight components are kept. *)
Fixpoint collect_parts (pieces : list str) (n : nat) : list str :=
  match pieces with
  | [] => []
  | part :: pieces => if bool_decide (part ≠ []) && (0 <? n) then part :: collect_parts pieces (n - 1) else collect_parts pieces n
  end.

Fixpoint trim_end (c : Z) (l : str) : str :=
  match l with
  | [] => []
  | x :: r => match trim_end c r with [] => if (x =? c)%Z then [] else [x] | r => x :: r end
  end.

Fixpoint find_parts (fuel : nat) (current : ExfatEntry) (parts : list str) (cb : list Z) : exec (option ExfatEntry * list Z) :=
  match parts with
  | [] => Done (Some current, cb)
  | component :: parts =>
      '(es, _, cb) ← list_entry_dir fuel current cb;
      found ← last_named component es None;
      match found with
      | None => Done (None, cb)
      | Some entry => if is_dir entry then find_parts fuel entry parts cb else Done (Some entry, cb)
      end
  end.

Definition find_entry (fuel : nat) (path : str) (cb : list Z) : exec (option ExfatEntry * list Z) :=
  let path := trim_end SLASH (trim_start SLASH path) in
  if bool_decide (path = []) then Done (Some (dir_at (root_dir_first_cluster fs)), cb) else
  find_parts fuel (dir_at (root_dir_first_cluster fs)) (collect_parts (split_on SLASH path) 8) cb.

(** ** Files *)

(** The loop of [read_file] from [offset]: the offset reached, or a failed read. *)
Fixpoint read_loop (fuel : nat) (chain_entry : ExfatEntry) (bytes_per_cluster cluster : Z) (offset target_len : nat) (buf cb : list Z)
    : exec (option nat * list Z * list Z) :=
  match fuel with
  | O => Stuck
  | S fuel =>
      if negb (cluster =? 0)%Z && (offset <? target_len) then
        let read_len := Nat.min (Z.to_nat bytes_per_cluster) (target_len - offset) in
        '(ok, cl_buf, cb) ← read_into cluster (Z.to_nat bytes_per_cluster) cb;
        if negb ok then Done (None, buf, cb) else
        src ← prefix_exec cl_buf read_len;
        if length buf <? offset + read_len then Stuck else
        let buf := take offset buf ++ src ++ drop (offset + read_len) buf in
        r ← next_cluster_for_entry chain_entry cluster;
        match r with
        | None => Done (None, buf, cb)
        | Some next => read_loop fuel chain_entry bytes_per_cluster next (offset + read_len) target_len buf cb
        end
      else Done (Some offset, buf, cb)
  end.

Definition read_file (start_cluster data_length : Z) (no_fat_chain : bool) (buf cb : list Z)
    : exec (option nat * list Z * list Z) :=
  bytes_per_cluster ← mul_w 32 (bytes_per_sector fs) (sectors_per_cluster fs);
  let target_len := Z.to_nat (Z.min data_length (Z.of_nat (length buf))) in
  let chain_entry := mk_exfat_entry (replicate 256 0%Z) 0 start_cluster data_length false 0 no_fat_chain in
  read_loop (S target_len) chain_entry bytes_per_cluster start_cluster 0 target_len buf cb.
End mounted.
End device.
End Exfat.
