(* ===== verification/ExfatRead.v ===== *)
(** * Reading an exFAT volume

    What the cluster reads and the chain steps of [Exfat] return on a mounted
    volume, in terms of the sectors of the device. *)

From S2P Require Export Prelude.
From S2P Require Export Exfat.

Import Exfat.

Section device.
Context (read_sector : Z → option (list Z)).

(** A block device fills the buffer of a sector. *)
Definition dev_ok : Prop := ∀ s d, read_sector s = Some d → length d = SECTOR_SIZE ∧ byte_list d.

(** The geometry [mount] accepts. *)
Record mounted (fs : ExfatFs) : Prop := {
  mt_bps : bytes_per_sector fs = 512%Z;
  mt_spc : (1 <= sectors_per_cluster fs <= 8)%Z;
  mt_fat : (0 < fat_offset fs < 2 ^ 32)%Z;
  mt_heap : (0 < cluster_heap_offset fs < 2 ^ 32)%Z;
  mt_root : (2 <= root_dir_first_cluster fs < cluster_count fs + 2)%Z;
  mt_count : (cluster_count fs + 2 < 2 ^ 32)%Z;
}.

Lemma le_u32_Done (l : list Z) (off : nat) : byte_list l → off + 4 ≤ length l →
  le_u32 l off = Done (le_bytes (take 4 (drop off l))) ∧ in_width 32 (le_bytes (take 4 (drop off l))).
Proof.
  intros Hb Hl. unfold le_u32. rewrite slice_Done by done. split; [done|].
  pose proof (le_bytes_range _ (byte_list_slice l off 4 Hb)) as Hr. rewrite length_take, length_drop in Hr.
  replace (Nat.min 4 (length l - off)) with 4 in Hr by lia. exact Hr.
Qed.

(** ** Clusters *)

Section mounted.
Context (fs : ExfatFs) (Hm : mounted fs) (Hdev : dev_ok).

Definition bpc : nat := Z.to_nat (512 * sectors_per_cluster fs).

Lemma bpc_range : 512 ≤ bpc ≤ CLUSTER_BUF_SIZE ∧ Z.of_nat bpc = (512 * sectors_per_cluster fs)%Z.
Proof. destruct Hm as [_ Hs _ _ _ _]. unfold bpc, CLUSTER_BUF_SIZE. rewrite Z2Nat.id by lia. split; [|done]. change 4096 with (Z.to_nat 4096). lia. Qed.

Definition first_sector (cluster : Z) : Z :=
  if (cluster <? 2)%Z then 0%Z else (cluster_heap_offset fs + (cluster - 2) * sectors_per_cluster fs)%Z.

Lemma cluster_to_sector_Done (cluster : Z) : in_width 32 cluster →
  cluster_to_sector fs cluster = Done (first_sector cluster) ∧ (0 <= first_sector cluster < 2 ^ 36)%Z.
Proof.
  intros Hc. destruct Hm as [_ Hs _ Hh _ _]. unfold cluster_to_sector, first_sector, in_width in *.
  change (2 ^ 36)%Z with 68719476736%Z. change (2 ^ 32)%Z with 4294967296%Z in *.
  destruct (Z.ltb_spec cluster 2); [split; [done|lia]|]. unfold mul_w.
  assert (Hmul : (0 <= (cluster - 2) * sectors_per_cluster fs <= 34359738368)%Z) by nia.
  rewrite (proj2 (Z.ltb_lt _ _)) by (change (2 ^ 64)%Z with 18446744073709551616%Z; lia). cbn [mbind exec_bind].
  rewrite add_w_Done by (change (2 ^ 64)%Z with 18446744073709551616%Z; lia). split; [done|lia].
Qed.

(** The sectors of a run, and the bytes of a cluster. *)
Fixpoint run_data (start : Z) (n : nat) : option (list Z) :=
  match n with
  | O => Some []
  | S n => d ← read_sector start; rest ← run_data (start + 1)%Z n; Some (d ++ rest)
  end.
Definition cluster_data (cluster : Z) : option (list Z) := run_data (first_sector cluster) (Z.to_nat (sectors_per_cluster fs)).

Lemma run_data_length (n : nat) : ∀ start d, run_data start n = Some d → length d = n * SECTOR_SIZE ∧ byte_list d.
Proof.
  induction n as [|n IH]; intros start d; cbn [run_data]; [intros [= <-]; by split; [|constructor]|].
  destruct (read_sector start) as [d1|] eqn:E; [|done]. cbn. destruct (run_data (start + 1) n) as [rest|] eqn:E2; [|done].
  cbn. intros [= <-]. destruct (Hdev _ _ E) as [Hl Hb], (IH _ _ E2) as [Hl2 Hb2]. rewrite length_app, Hl, Hl2.
  split; [unfold SECTOR_SIZE; lia|]. by apply Forall_app.
Qed.

Lemma read_sectors_spec (start : Z) (n : nat) : (0 <= start < 2 ^ 40)%Z → ∀ i buf, length buf = (i + n) * 512 → i + n ≤ 8 →
  ∃ ok buf', read_sectors read_sector fs start i n buf = Done (ok, buf') ∧ length buf' = length buf ∧
    match run_data (start + Z.of_nat i) n with
    | Some d => ok = true ∧ buf' = take (i * 512) buf ++ d
    | None => ok = false
    end.
Proof.
  intros Hs. change (2 ^ 40)%Z with 1099511627776%Z in Hs. induction n as [|n IH]; intros i buf Hl Hi; cbn [read_sectors run_data].
  { eexists _, _. split; [done|]. split; [done|]. split; [done|]. rewrite app_nil_r, take_ge; [done|lia]. }
  rewrite add_w_Done by (change (2 ^ 64)%Z with 18446744073709551616%Z; lia). cbn [mbind exec_bind].
  rewrite (mt_bps _ Hm). change (Z.to_nat 512) with 512. rewrite (proj2 (Nat.ltb_ge _ _)) by lia.
  destruct (read_sector (start + Z.of_nat i)) as [d|] eqn:E; [|by eexists _, _].
  destruct (Hdev _ _ E) as [Hd _]. unfold SECTOR_SIZE in Hd.
  destruct (IH (S i) (take (i * 512) buf ++ d ++ drop (i * 512 + 512) buf)) as (ok&buf'&Heq&Hlen&Hpost).
  { rewrite !length_app, length_take, length_drop, Hd. lia. }
  { lia. }
  exists ok, buf'. split; [done|]. split; [rewrite Hlen, !length_app, length_take, length_drop, Hd; lia|].
  replace (start + Z.of_nat i + 1)%Z with (start + Z.of_nat (S i))%Z by lia. cbn [mbind option_bind].
  destruct (run_data (start + Z.of_nat (S i)) n) as [rest|]; [|done]. cbn. destruct Hpost as [-> ->]. split; [done|].
  rewrite (app_assoc (take _ _) d), take_app_le by (rewrite length_app, length_take, Hd; lia).
  rewrite take_ge by (rewrite length_app, length_take, Hd; lia). by rewrite <- app_assoc.
Qed.

(** The static buffer has its size, whatever it holds. *)
Definition buf_ok (cb : list Z) : Prop := length cb = CLUSTER_BUF_SIZE.

Lemma read_into_spec (cluster : Z) (cb : list Z) : in_width 32 cluster → buf_ok cb →
  ∃ ok buf cb', read_into read_sector fs cluster bpc cb = Done (ok, buf, cb') ∧ buf_ok cb' ∧ length buf = bpc ∧
    match cluster_data cluster with Some d => ok = true ∧ buf = d ∧ byte_list d | None => ok = false end.
Proof.
  intros Hc Hcb. destruct bpc_range as [Hb Hz]. destruct (cluster_to_sector_Done cluster Hc) as [Hcs Hfs].
  unfold read_into, read_cluster, buf_ok in *. rewrite Nat.min_l by lia.
  unfold prefix_exec. rewrite (proj2 (Nat.leb_le _ _)) by lia. cbn [mbind exec_bind]. rewrite Hcs. cbn [mbind exec_bind].
  assert (Hspc : bpc = Z.to_nat (sectors_per_cluster fs) * 512) by (unfold bpc; destruct Hm; lia).
  destruct (read_sectors_spec (first_sector cluster) (Z.to_nat (sectors_per_cluster fs))) with (i := 0) (buf := take bpc cb)
    as (ok&buf&Heq&Hlen&Hpost).
  { change (2 ^ 36)%Z with 68719476736%Z in Hfs. change (2 ^ 40)%Z with 1099511627776%Z. lia. }
  { rewrite length_take. cbn [Nat.add]. lia. }
  { destruct Hm. lia. }
  rewrite Heq. cbn [mbind exec_bind]. rewrite length_take in Hlen. eexists _, _, _. split; [done|].
  split; [rewrite length_app, length_drop; lia|]. split; [lia|].
  rewrite Z.add_0_r in Hpost. fold (cluster_data cluster) in Hpost.
  destruct (cluster_data cluster) as [d|] eqn:E; [|done]. destruct Hpost as [-> ->]. by destruct (run_data_length _ _ _ E).
Qed.

Lemma cluster_data_length (cluster : Z) (d : list Z) : cluster_data cluster = Some d → length d = bpc.
Proof. intros Hd. destruct (run_data_length _ _ _ Hd) as [-> _]. unfold bpc, SECTOR_SIZE. destruct Hm. lia. Qed.

Lemma bytes_per_cluster_Done : mul_w 32 (bytes_per_sector fs) (sectors_per_cluster fs) = Done (Z.of_nat bpc).
Proof.
  destruct bpc_range as [_ Hz]. rewrite Hz, (mt_bps _ Hm). unfold mul_w. rewrite (proj2 (Z.ltb_lt _ _)); [done|].
  destruct Hm. change (2 ^ 32)%Z with 4294967296%Z. lia.
Qed.

(** ** Chains *)

(** The next cluster by the FAT: the entry of [cluster], an end mark as 0. *)
Definition fat_next (cluster : Z) : option Z :=
  s ← read_sector (fat_offset fs + cluster / 128)%Z;
  let next := le_bytes (take 4 (drop (Z.to_nat (cluster `mod` 128 * 4)) s)) in
  Some (if (0xFFFFFFF8 <=? next)%Z then 0%Z else next).

(** The clusters of a contiguous stream. *)
Definition stream_clusters (e : ExfatEntry) : Z := Z.max 1 ((data_length e + Z.of_nat bpc - 1) / Z.of_nat bpc).

Definition chain_next (e : ExfatEntry) (cluster : Z) : option Z :=
  if no_fat_chain e then Some (if (stream_clusters e <=? cluster - first_cluster e + 1)%Z then 0%Z else (cluster + 1)%Z)
  else fat_next cluster.

(** The chain of an entry stays within 32-bit arithmetic. *)
Definition chain_bounds (e : ExfatEntry) : Prop :=
  (0 <= data_length e)%Z ∧
  if no_fat_chain e then (0 <= first_cluster e)%Z ∧ (first_cluster e + stream_clusters e <= 2 ^ 32)%Z
  else (fat_offset fs + 2 ^ 25 <= 2 ^ 32)%Z.

Lemma div_ceil_Done (x : Z) : (0 <= x)%Z → div_ceil x (Z.of_nat bpc) = Done ((x + Z.of_nat bpc - 1) / Z.of_nat bpc)%Z.
Proof.
  intros Hx. destruct bpc_range as [Hb _]. unfold div_ceil, div_exec.
  rewrite (proj2 (Z.eqb_neq (Z.of_nat bpc) 0)) by lia. cbn [mbind exec_bind].
  f_equal. set (b := Z.of_nat bpc). assert (Hbz : (1 <= b)%Z) by (unfold b; lia).
  pose proof (Z.div_mod x b ltac:(lia)) as Hdm. pose proof (Z.mod_pos_bound x b ltac:(lia)) as Hmb.
  destruct (Z.eqb_spec (x `mod` b) 0) as [Hz|Hnz].
  - apply (Z.div_unique (x + b - 1) b _ (b - 1)); [left; lia|]. lia.
  - apply (Z.div_unique (x + b - 1) b _ (x `mod` b - 1)); [left; lia|]. lia.
Qed.

Lemma chain_next_Done (e : ExfatEntry) (cluster : Z) : chain_bounds e → in_width 32 cluster →
  (no_fat_chain e = true → (first_cluster e <= cluster < first_cluster e + stream_clusters e)%Z) →
  next_cluster_for_entry read_sector fs e cluster = Done (chain_next e cluster)
  ∧ ∀ n, chain_next e cluster = Some n → in_width 32 n ∧ (n ≠ 0%Z → no_fat_chain e = true → (n = cluster + 1 ∧ n < first_cluster e + stream_clusters e)%Z).
Proof.
  intros [Hdl Hcb] Hc Hin. unfold next_cluster_for_entry, chain_next. destruct (no_fat_chain e).
  - specialize (Hin eq_refl). rewrite bytes_per_cluster_Done. cbn [mbind exec_bind]. rewrite div_ceil_Done by done. cbn [mbind exec_bind].
    rewrite Z.max_comm. fold (stream_clusters e). unfold saturating_sub, in_width in *.
    rewrite (proj2 (Z.ltb_ge _ _)) by lia. destruct (Z.leb_spec (stream_clusters e) (cluster - first_cluster e + 1)).
    + split; [done|]. intros n [= <-]. by split.
    + rewrite add_w_Done by lia. split; [done|]. intros n [= <-]. split; [lia|]. intros _ _. lia.
  - unfold next_cluster, fat_next. rewrite (mt_bps _ Hm). change (512 / 4)%Z with 128%Z. unfold div_exec, mod_exec. cbn [Z.eqb mbind exec_bind].
    unfold in_width in Hc. change (2 ^ 32)%Z with 4294967296%Z in *. change (2 ^ 25)%Z with 33554432%Z in Hcb.
    rewrite add_w_Done by (change (2 ^ 32)%Z with 4294967296%Z; divmod). cbn [mbind exec_bind].
    destruct (read_sector (fat_offset fs + cluster / 128)) as [s|] eqn:E; [|done]. cbn [mbind option_bind].
    destruct (Hdev _ _ E) as [Hl Hb]. unfold SECTOR_SIZE in Hl.
    assert (Hidx : Z.to_nat (cluster `mod` 128 * 4) + 4 ≤ length s).
    { rewrite Hl. assert (0 <= cluster `mod` 128 * 4 <= 508)%Z by divmod. change 512 with (Z.to_nat 508 + 4). lia. }
    destruct (le_u32_Done s _ Hb Hidx) as [Hle Hr]. rewrite Hle. cbn [mbind exec_bind]. split; [done|]. intros n [= <-]. split; [|done].
    case_bool; [by vm_compute|done].
Qed.

(** The clusters of a chain up to its end. *)
Inductive chain (e : ExfatEntry) : Z → list Z → Prop :=
  | chain_end : chain e 0 []
  | chain_link cluster next cs : cluster ≠ 0%Z → chain_next e cluster = Some next → chain e next cs → chain e cluster (cluster :: cs).

Lemma chain_inv (e : ExfatEntry) (cluster : Z) (cs : list Z) : chain e cluster cs → cluster ≠ 0%Z →
  ∃ next cs', cs = cluster :: cs' ∧ chain_next e cluster = Some next ∧ chain e next cs'.
Proof. intros Hch Hnz. destruct Hch as [|c next cs' _ Hn Hch]; [done|]. by exists next, cs'. Qed.

(** ** Reading a file *)

Definition in_chain (e : ExfatEntry) (cluster : Z) : Prop :=
  cluster ≠ 0%Z → no_fat_chain e = true → (first_cluster e <= cluster < first_cluster e + stream_clusters e)%Z.

Lemma chain_next_in (e : ExfatEntry) (cluster : Z) : chain_bounds e → in_width 32 cluster → cluster ≠ 0%Z → in_chain e cluster →
  next_cluster_for_entry read_sector fs e cluster = Done (chain_next e cluster)
  ∧ ∀ n, chain_next e cluster = Some n → in_width 32 n ∧ in_chain e n.
Proof.
  intros Hcb Hc Hnz Hin. destruct (chain_next_Done e cluster Hcb Hc (Hin Hnz)) as [H1 H2]. split; [done|].
  intros n Hn. destruct (H2 n Hn) as [Hw Hr]. split; [done|]. intros Hn0 Hf. specialize (Hr Hn0 Hf). specialize (Hin Hnz Hf). lia.
Qed.

Fixpoint chain_data (cs : list Z) : option (list Z) :=
  match cs with
  | [] => Some []
  | c :: cs => d ← cluster_data c; rest ← chain_data cs; Some (d ++ rest)
  end.

(** The buffer after [n] bytes of which those from [offset] on are new. *)
Definition filled (buf : list Z) (offset n : nat) (d : list Z) : list Z := take offset buf ++ take (n - offset) d ++ drop n buf.

Lemma length_filled (buf d : list Z) (offset n : nat) : offset ≤ n → n ≤ length buf → n - offset ≤ length d →
  length (filled buf offset n d) = length buf.
Proof. intros. unfold filled. rewrite !length_app, !length_take, length_drop. lia. Qed.

Lemma filled_step (buf d rest : list Z) (offset k n : nat) : offset + k ≤ n → n ≤ length buf → k ≤ length d →
  (k < length d → n = offset + k) →
  filled (take offset buf ++ take k d ++ drop (offset + k) buf) (offset + k) n rest = filled buf offset n (d ++ rest).
Proof.
  intros Hn Hb Hd Hk. unfold filled.
  assert (Hl : length (take offset buf ++ take k d) = offset + k) by (rewrite length_app, !length_take; lia).
  rewrite (app_assoc (take offset buf)). rewrite take_app_le, take_ge by lia.
  rewrite drop_app_ge, drop_drop, Hl by lia. replace (offset + k + (n - (offset + k))) with n by lia.
  rewrite <- !app_assoc. f_equal. rewrite !app_assoc. f_equal. destruct (decide (k < length d)) as [Hlt|Hge].
  - rewrite Hk by done. replace (offset + k - (offset + k)) with 0 by lia. replace (offset + k - offset) with k by lia.
    rewrite take_0, app_nil_r, take_app_le by lia. done.
  - assert (Hke : k = length d) by lia. rewrite (take_ge d k) by lia. rewrite take_app_ge by lia. do 2 f_equal. lia.
Qed.

Lemma read_loop_spec (e : ExfatEntry) (target : nat) (Hcb : chain_bounds e) (fuel : nat) : ∀ cluster offset buf cb,
  in_width 32 cluster → in_chain e cluster → offset ≤ target → target ≤ length buf → buf_ok cb → target - offset < fuel →
  ∃ r buf' cb', read_loop read_sector fs fuel e (Z.of_nat bpc) cluster offset target buf cb = Done (r, buf', cb')
  ∧ buf_ok cb' ∧ length buf' = length buf ∧ (∀ n, r = Some n → offset ≤ n ≤ target)
  ∧ ∀ cs d, chain e cluster cs → chain_data cs = Some d →
      let n := Nat.min target (offset + length d) in r = Some n ∧ buf' = filled buf offset n d.
Proof.
  destruct bpc_range as [Hb _]. induction fuel as [|fuel IH]; intros cluster offset buf cb Hc Hin Ho Ht Hbuf Hf; [lia|].
  cbn [read_loop]. rewrite Nat2Z.id. destruct (Z.eqb_spec cluster 0) as [->|Hnz]; cbn [negb andb].
  { exists (Some offset), buf, cb. split_and!; try done; [by intros n [= <-]|]. intros cs d Hch Hd. inversion Hch; [subst|done].
    injection Hd as <-. cbn [length]. rewrite Nat.add_0_r, Nat.min_r by done. split; [done|].
    unfold filled. rewrite take_nil, app_nil_l. by rewrite take_drop. }
  destruct (Nat.ltb_spec offset target) as [Hlt|Hge].
  2: { assert (offset = target) as -> by lia. exists (Some target), buf, cb. split_and!; try done; [by intros n [= <-]|]. intros cs d _ _.
       rewrite Nat.min_l by lia. split; [done|]. unfold filled. rewrite Nat.sub_diag, take_0, app_nil_l. by rewrite take_drop. }
  destruct (read_into_spec cluster cb Hc Hbuf) as (ok&clb&cb1&Hri&Hcb1&Hlen&Hpost). rewrite Hri. cbn [mbind exec_bind].
  destruct ok; cbn [negb].
  2: { exists None, buf, cb1. split_and!; try done. intros cs d Hch Hd. destruct (chain_inv _ _ _ Hch Hnz) as (next&cs'&->&_&_).
       cbn [chain_data] in Hd. destruct (cluster_data cluster); [by destruct Hpost as [? _]|done]. }
  set (k := Nat.min bpc (target - offset)). unfold prefix_exec. rewrite (proj2 (Nat.leb_le _ _)) by lia. cbn [mbind exec_bind].
  rewrite (proj2 (Nat.ltb_ge _ _)) by lia.
  destruct (chain_next_in e cluster Hcb Hc Hnz Hin) as [Hnext Hnw]. rewrite Hnext. cbn [mbind exec_bind].
  set (buf1 := take offset buf ++ take k clb ++ drop (offset + k) buf).
  assert (Hlb : length buf1 = length buf) by (unfold buf1; rewrite !length_app, !length_take, length_drop; lia).
  destruct (chain_next e cluster) as [next|] eqn:Hcn.
  2: { exists None, buf1, cb1. split_and!; try done. intros cs d Hch _. destruct (chain_inv _ _ _ Hch Hnz) as (next&cs'&_&Hn&_). congruence. }
  destruct (Hnw next eq_refl) as [Hw Hi].
  destruct (IH next (offset + k) buf1 cb1 Hw Hi) as (r&buf'&cb'&Heq&Hcb'&Hlen'&Hr&Hdata); [lia|lia|done|lia|].
  exists r, buf', cb'. split_and!; [done|done|lia|intros n Hn; specialize (Hr n Hn); lia|].
  intros cs d Hch Hd. destruct (chain_inv _ _ _ Hch Hnz) as (next'&cs'&->&Hn'&Hch'). rewrite Hcn in Hn'. injection Hn' as <-.
  cbn [chain_data] in Hd. destruct (cluster_data cluster) as [d1|] eqn:Hd1; [|done]. destruct Hpost as (_&->&_).
  cbn [mbind option_bind] in Hd. destruct (chain_data cs') as [rest|] eqn:Hrest; [|done]. injection Hd as <-.
  destruct (Hdata cs' rest Hch' Hrest) as [-> ->]. rewrite length_app.
  assert (Hn : Nat.min target (offset + k + length rest) = Nat.min target (offset + (length d1 + length rest))) by lia.
  split; [by rewrite Hn|]. rewrite Hn. apply filled_step; lia.
Qed.

(** ** Listing a directory *)

Lemma record_parse_Done (buf : list Z) (idx : nat) : byte_list buf →
  ∃ r, record_parse buf idx = Done r ∧ match r with
    | Some rec => idx * 32 + 32 ≤ length buf ∧ length (data rec) = 31 ∧ byte_list (data rec) ∧ (0 <= entry_type rec < 256)%Z
        ∧ buf !! (idx * 32) = Some (entry_type rec) ∧ data rec = take 31 (drop (idx * 32 + 1) buf)
    | None => length buf < idx * 32 + 32 end.
Proof.
  intros Hbl. unfold record_parse. destruct (Nat.ltb_spec (length buf) (idx * 32 + 32)); [by exists None|].
  destruct (buf !! (idx * 32)) as [t|] eqn:Ht; [|apply lookup_ge_None_1 in Ht; lia]. cbn [get_exec mbind exec_bind].
  rewrite slice_Done by lia. cbn [mbind exec_bind]. eexists. split; [done|]. cbn [entry_type data].
  split_and!; try done; [rewrite length_take, length_drop; lia|by apply byte_list_slice|..];
    by apply (proj1 (Forall_lookup _ _) Hbl _ _ Ht).
Qed.
End mounted.
End device.
