(* ===== verification/ExfatDir.v ===== *)
(** * Directories of an exFAT volume

    Listing never panics on the bytes of a cluster, and finds exactly the
    entry sets that were encoded into it. *)

From S2P Require Export Prelude.
From S2P Require Export Exfat.
From S2P Require Export ExfatRead.

Import Exfat.

(** ** Any cluster can be listed *)

(** What a listed entry holds. *)
Record entry_ok (e : ExfatEntry) : Prop := {
  eo_name : length (name e) = 256;
  eo_len : name_len e ≤ 255;
  eo_first : in_width 32 (first_cluster e);
  eo_data : in_width 64 (data_length e);
}.

Lemma byte_at (l : list Z) (i : nat) : byte_list l → i < length l → ∃ b, l !! i = Some b ∧ (0 <= b < 256)%Z.
Proof.
  intros Hb Hi. apply lookup_lt_is_Some in Hi as [b Hl]. exists b. split; [done|]. by apply (proj1 (Forall_lookup _ _) Hb i b).
Qed.

Lemma le_Done (l : list Z) (off n : nat) : byte_list l → off + n ≤ length l →
  ∃ x, (bs ← slice_exec l off n; Done (le_bytes bs)) = Done x ∧ in_width (8 * Z.of_nat n) x.
Proof.
  intros Hb Hl. rewrite slice_Done by done. eexists. split; [done|].
  pose proof (le_bytes_range _ (byte_list_slice l off n Hb)) as Hr. rewrite length_take, length_drop in Hr.
  by replace (Nat.min n (length l - off)) with n in Hr by lia.
Qed.

Lemma name_chars_total (rec : DirEntry) (nl : nat) : byte_list (data rec) → length (data rec) = 31 → nl ≤ 255 →
  ∀ ks nm pos, Forall (λ k, k < 15) ks → length nm = 256 → pos ≤ nl →
  ∃ nm' pos', name_chars rec ks nl nm pos = Done (nm', pos') ∧ length nm' = 256 ∧ pos' ≤ nl.
Proof.
  intros Hb Hl Hn. induction ks as [|k ks IH]; intros nm pos Hks Hnm Hpos; cbn [name_chars]; [by eexists _, _|].
  apply Forall_cons in Hks as [Hk Hks]. rewrite (proj2 (Nat.leb_le _ _)) by lia.
  unfold u16_at, le_u16. destruct (le_Done (data rec) (2 + k * 2 - 1) 2 Hb) as (ch&->&_); [lia|]. cbn [mbind exec_bind].
  destruct (negb (ch =? 0)%Z && (pos <? nl)) eqn:E; [|by apply IH].
  apply andb_true_iff in E as [_ Hlt%Nat.ltb_lt]. rewrite put_exec_Done by lia. cbn [mbind exec_bind].
  apply IH; [done|by rewrite length_insert|lia].
Qed.

Lemma name_loop_total (buf : list Z) (n nl : nat) : byte_list buf → nl ≤ 255 → ∀ fuel j nm pos,
  n - j < fuel → length nm = 256 → pos ≤ nl →
  ∃ j' nm' pos', name_loop fuel buf n j nl nm pos = Done (j', nm', pos') ∧ j ≤ j' ∧ length nm' = 256 ∧ pos' ≤ nl.
Proof.
  intros Hb Hn. induction fuel as [|fuel IH]; intros j nm pos Hf Hnm Hpos; [lia|]. cbn [name_loop].
  destruct ((j <? n) && (pos <? nl)) eqn:E; [|by eexists _, _, _].
  apply andb_true_iff in E as [Hj%Nat.ltb_lt _].
  destruct (record_parse_Done buf j Hb) as ([rec|]&->&Hrec); cbn [mbind exec_bind]; [|by eexists _, _, _].
  destruct Hrec as (_&Hl&Hbr&_). destruct (negb _); [by eexists _, _, _|].
  destruct (name_chars_total rec nl Hbr Hl Hn (seq 0 15) nm pos) as (nm1&pos1&->&Hnm1&Hpos1); [|done|done|].
  { apply Forall_seq. lia. }
  cbn [mbind exec_bind]. destruct (IH (S j) nm1 pos1) as (j'&nm'&pos'&->&Hj'&?&?); [lia|done|done|].
  eexists _, _, _. split; [done|]. split; [lia|done].
Qed.

Lemma cluster_entries_total (buf : list Z) (n : nat) : byte_list buf → ∀ fuel i, n - i < fuel →
  ∃ es, cluster_entries fuel buf n i = Done es ∧ Forall entry_ok es.
Proof.
  intros Hb. induction fuel as [|fuel IH]; intros i Hf; [lia|]. cbn [cluster_entries].
  destruct (Nat.ltb_spec i n) as [Hi|Hi]; [|by exists []; split; [|constructor]].
  assert (Hnext := IH (S i) ltac:(lia)).
  destruct (record_parse_Done buf i Hb) as ([rec|]&->&Hrec); cbn [mbind exec_bind]; [|by exists []; split; [|constructor]].
  destruct Hrec as (_&Hl&Hbr&_). destruct (_ =? ENTRY_TYPE_UNUSED)%Z; [by exists []; split; [|constructor]|].
  destruct (_ =? ENTRY_TYPE_VOLUME_LABEL)%Z; [done|]. destruct (_ =? ENTRY_TYPE_FILE)%Z; [|done].
  unfold u16_at, le_u16. destruct (le_Done (data rec) (4 - 1) 2 Hbr) as (attrs&->&_); [lia|]. cbn [mbind exec_bind].
  destruct (Nat.ltb_spec (S i) n) as [Hsi|Hsi]; [|done].
  destruct (record_parse_Done buf (S i) Hb) as ([st|]&->&Hst); cbn [mbind exec_bind]; [|by exists []; split; [|constructor]].
  destruct Hst as (_&Hls&Hbs&_). destruct (negb _); [done|].
  destruct (byte_at (data st) 0 Hbs) as (flags&->&_); [lia|]. destruct (byte_at (data st) 2 Hbs) as (nl&->&Hnl); [lia|].
  cbn [get_exec mbind exec_bind]. unfold u32_at, le_u32, u64_at, le_u64.
  destruct (le_Done (data st) (20 - 1) 4 Hbs) as (first&->&Hfirst); [lia|]. cbn [mbind exec_bind].
  destruct (le_Done (data st) (24 - 1) 8 Hbs) as (dl&->&Hdl); [lia|]. cbn [mbind exec_bind].
  destruct (name_loop_total buf n (Z.to_nat nl) Hb ltac:(lia) (S n) (i + 2) (replicate 256 0%Z) 0) as (j&nm&pos&->&Hj&Hnm&Hpos);
    [lia|by rewrite length_replicate|lia|]. cbn [mbind exec_bind].
  destruct (IH j ltac:(lia)) as (es&->&Hes). cbn [mbind exec_bind]. eexists. split; [done|]. constructor; [|done].
  split; cbn [name name_len first_cluster data_length]; [done|lia|done|done].
Qed.

(** ** The entry sets of a directory *)

(** A file entry, its stream extension and its name records. *)
Record EntrySet : Type := mk_set {
  es_attrs : Z;
  es_flags : Z;
  es_first : Z;
  es_length : Z;
  es_chunks : list (list Z);
}.

Definition es_name (s : EntrySet) : str := concat (es_chunks s).

Definition pad32 (l : list Z) : list Z := l ++ replicate (32 - length l) 0%Z.

Definition file_record (s : EntrySet) : list Z := pad32 ([ENTRY_TYPE_FILE; 0; 0; 0]%Z ++ to_le 2 (es_attrs s)).
Definition stream_record (s : EntrySet) : list Z :=
  [ENTRY_TYPE_STREAM; es_flags s; 0; Z.of_nat (length (es_name s))]%Z ++ replicate 16 0%Z ++ to_le 4 (es_first s) ++ to_le 8 (es_length s).
Definition name_record (chunk : list Z) : list Z := pad32 ([ENTRY_TYPE_NAME; 0]%Z ++ concat ((λ ch, [ch; 0%Z]) <$> chunk)).

Definition encode_set (s : EntrySet) : list (list Z) := file_record s :: stream_record s :: (name_record <$> es_chunks s).

(** ASCII names of at most 255 characters, 15 to a record. *)
Record set_wf (s : EntrySet) : Prop := {
  sw_attrs : in_width 16 (es_attrs s);
  sw_flags : in_width 8 (es_flags s);
  sw_first : in_width 32 (es_first s);
  sw_length : in_width 64 (es_length s);
  sw_chunks : Forall (λ c, c ≠ [] ∧ length c ≤ 15 ∧ Forall (λ ch, 0 < ch < 128)%Z c) (es_chunks s);
  sw_name : length (es_name s) ≤ 255;
}.

(** The entry a reader is to see. *)
Definition decoded (s : EntrySet) : ExfatEntry :=
  mk_exfat_entry (es_name s ++ replicate (256 - length (es_name s)) 0%Z) (length (es_name s)) (es_first s) (es_length s)
    (negb (Z.land (es_attrs s) ATTR_DIRECTORY =? 0)%Z) (es_attrs s) (negb (Z.land (es_flags s) STREAM_FLAG_NO_FAT_CHAIN =? 0)%Z).

(** ** Records *)

Lemma length_records (recs : list (list Z)) : Forall (λ r, length r = 32) recs → length (concat recs) = length recs * 32.
Proof. induction 1 as [|r l Hr _ IH]; [done|]. cbn [concat]. rewrite length_app, IH, Hr. cbn [length]. lia. Qed.

Lemma record_at (recs : list (list Z)) (i : nat) (t : Z) (d : list Z) : Forall (λ r, length r = 32) recs →
  recs !! i = Some (t :: d) → record_parse (concat recs) i = Done (Some (mk_record t d)).
Proof.
  intros Hl Hi. apply list_elem_of_split_length in Hi as (l1&l2&->&Hlen).
  apply Forall_app in Hl as [Hl1 [Hd Hl2]%Forall_cons].
  assert (Hc : length (concat l1) = i * 32).
  { subst i. by apply length_records. }
  unfold record_parse. rewrite concat_app. cbn [concat]. cbn [length] in Hd.
  rewrite (proj2 (Nat.ltb_ge _ _)) by (rewrite !length_app; cbn [length]; lia).
  rewrite lookup_app_r by lia. rewrite Hc, Nat.sub_diag. cbn [app lookup list_lookup get_exec mbind exec_bind].
  rewrite slice_Done by (rewrite !length_app; cbn [length]; rewrite ?length_app; lia). cbn [mbind exec_bind].
  rewrite drop_app_ge by lia. rewrite Hc. replace (i * 32 + 1 - i * 32) with 1 by lia. rewrite skipn_cons, drop_0.
  rewrite take_app_le by lia. by rewrite take_ge by lia.
Qed.

(** A character of a name record. *)
Lemma name_char (chunk : list Z) (k : nat) : length chunk ≤ 15 → Forall (λ ch, 0 < ch < 128)%Z chunk → k < 15 →
  u16_at (mk_record ENTRY_TYPE_NAME (tl (name_record chunk))) (2 + k * 2) = Done (nth k chunk 0%Z).
Proof.
  intros Hl Hc Hk. unfold u16_at, le_u16. cbn [data]. unfold name_record, pad32. cbn [app tl length].
  assert (Hlen : length (concat ((λ ch, [ch; 0%Z]) <$> chunk)) = 2 * length chunk).
  { clear. induction chunk as [|c chunk IH]; [done|]. cbn. rewrite IH. lia. }
  rewrite slice_Done by (cbn [length]; rewrite length_app, Hlen, length_replicate; lia). cbn [mbind exec_bind].
  replace (2 + k * 2 - 1) with (S (k * 2)) by lia. cbn [drop]. f_equal. rewrite Hlen. clear Hlen.
  assert (Hgen : ∀ (ch : list Z) k m, 2 * k + 2 ≤ 2 * length ch + m →
    le_bytes (take 2 (drop (k * 2) (concat ((λ c, [c; 0%Z]) <$> ch) ++ replicate m 0%Z))) = nth k ch 0%Z).
  { clear. intros ch. induction ch as [|c ch IH]; intros k m Hm; cbn [fmap list_fmap concat app].
    - rewrite drop_replicate, take_replicate. replace (Nat.min 2 (m - k * 2)) with 2 by (cbn [length] in Hm; lia). by destruct k.
    - cbn [length] in Hm. destruct k as [|k]; cbn [Nat.mul drop nth]; [unfold le_bytes; simpl; lia|].
      cbn [Nat.add drop app]. apply IH. lia. }
  apply Hgen. lia.
Qed.

(** The name buffer with [pre] written. *)
Definition name_buf (pre : list Z) : list Z := pre ++ replicate (256 - length pre) 0%Z.

Lemma name_buf_put (pre : list Z) (ch : Z) : length pre < 256 → put_exec (name_buf pre) (length pre) ch = Done (name_buf (pre ++ [ch])).
Proof.
  intros Hl. unfold name_buf. rewrite put_exec_Done by (rewrite length_app, length_replicate; lia). f_equal.
  rewrite length_app. cbn [length]. replace (256 - length pre) with (S (256 - (length pre + 1))) by lia. cbn [replicate].
  rewrite <- app_assoc. replace (length pre) with (length pre + 0) at 1 by lia. by rewrite insert_app_r.
Qed.

Lemma name_chars_record (chunk : list Z) (nl : nat) : length chunk ≤ 15 → Forall (λ ch, 0 < ch < 128)%Z chunk → nl ≤ 255 →
  ∀ m k pre, k + m = 15 → length pre + (length chunk - k) ≤ nl →
  name_chars (mk_record ENTRY_TYPE_NAME (tl (name_record chunk))) (seq k m) nl (name_buf pre) (length pre)
  = Done (name_buf (pre ++ drop k chunk), length (pre ++ drop k chunk)).
Proof.
  intros Hl Hc Hnl. induction m as [|m IH]; intros k pre Hk Hpos; cbn [seq name_chars].
  { rewrite drop_ge by lia. by rewrite app_nil_r. }
  rewrite (proj2 (Nat.leb_le _ _)) by lia. rewrite name_char by (done || lia). cbn [mbind exec_bind].
  destruct (decide (k < length chunk)) as [Hlt|Hge].
  - destruct (lookup_lt_is_Some_2 chunk k Hlt) as [ch Hch]. pose proof (proj1 (Forall_lookup _ _) Hc k ch Hch) as Hr. cbn in Hr.
    rewrite (nth_lookup_Some chunk k 0%Z ch Hch). rewrite (proj2 (Z.eqb_neq ch 0)) by lia.
    rewrite (proj2 (Nat.ltb_lt (length pre) nl)) by lia. cbn [negb andb]. rewrite (proj2 (Z.ltb_lt ch 128)) by lia.
    rewrite name_buf_put by lia. cbn [mbind exec_bind]. replace (S (length pre)) with (length (pre ++ [ch])) by (rewrite length_app; cbn; lia).
    rewrite IH by (rewrite ?length_app; cbn [length]; lia). rewrite (drop_S chunk ch k Hch), <- app_assoc. done.
  - rewrite nth_overflow by lia. cbn [Z.eqb negb andb]. rewrite IH by lia. by rewrite !drop_ge by lia.
Qed.

Lemma length_name_record (chunk : list Z) : length chunk ≤ 15 → length (name_record chunk) = 32.
Proof.
  intros Hl. unfold name_record, pad32. rewrite !length_app, length_replicate. cbn [length].
  assert (Hlen : length (concat ((λ ch, [ch; 0%Z]) <$> chunk)) = 2 * length chunk).
  { clear. induction chunk as [|c chunk IH]; [done|]. cbn. rewrite IH. lia. }
  lia.
Qed.

Lemma name_record_cons (chunk : list Z) : name_record chunk = ENTRY_TYPE_NAME :: tl (name_record chunk).
Proof. done. Qed.

(** The name records of a set are read to the end of the name. *)
Lemma name_loop_records (recs : list (list Z)) (n nl : nat) : Forall (λ r, length r = 32) recs → n ≤ length recs → nl ≤ 255 →
  ∀ chunks fuel j pre, n - j < fuel → (∀ t c, chunks !! t = Some c → j + t < n ∧ recs !! (j + t) = Some (name_record c)) →
  Forall (λ c, c ≠ [] ∧ length c ≤ 15 ∧ Forall (λ ch, 0 < ch < 128)%Z c) chunks → length pre + length (concat chunks) = nl →
  name_loop fuel (concat recs) n j nl (name_buf pre) (length pre)
  = Done (j + length chunks, name_buf (pre ++ concat chunks), nl).
Proof.
  intros Hrl Hn Hnl. induction chunks as [|c chunks IH]; intros fuel j pre Hf Hat Hc Hlen; cbn [concat] in *.
  - destruct fuel as [|fuel]; [lia|]. cbn [name_loop]. cbn [length] in *. rewrite (proj2 (Nat.ltb_ge (length pre) nl)) by lia.
    rewrite andb_false_r, app_nil_r. do 2 f_equal; [f_equal|]; lia.
  - apply Forall_cons in Hc as [(Hne&Hl&Hch) Hc]. destruct (Hat 0 c eq_refl) as [Hj Hr]. rewrite Nat.add_0_r in *.
    destruct fuel as [|fuel]; [lia|]. cbn [name_loop]. rewrite (proj2 (Nat.ltb_lt j n)) by lia.
    assert (Hcl : 0 < length c) by (destruct c; [done|cbn; lia]). rewrite length_app in Hlen.
    rewrite (proj2 (Nat.ltb_lt (length pre) nl)) by lia. cbn [andb].
    rewrite name_record_cons in Hr. rewrite (record_at recs j _ _ Hrl Hr). cbn [mbind exec_bind entry_type]. rewrite Z.eqb_refl. cbn [negb].
    rewrite name_chars_record by (done || lia). cbn [mbind exec_bind]. rewrite drop_0.
    rewrite IH; [|lia| |done|rewrite length_app; lia].
    + rewrite <- app_assoc. do 3 f_equal. cbn [length]. lia.
    + intros t c' Ht. destruct (Hat (S t) c' Ht) as [H1 H2]. replace (S j + t) with (j + S t) by lia. done.
Qed.

Definition zero_record : list Z := replicate 32 0%Z.

Lemma u16_file (s : EntrySet) : set_wf s → u16_at (mk_record ENTRY_TYPE_FILE (tl (file_record s))) 4 = Done (es_attrs s).
Proof.
  intros [Ha _ _ _ _ _]. unfold u16_at, le_u16. cbn [data]. unfold file_record, pad32. rewrite length_app, length_to_le. cbn [length Nat.add Nat.sub app tl].
  rewrite slice_Done by (cbn [length]; rewrite length_app, length_to_le, length_replicate; lia). cbn [mbind exec_bind drop].
  rewrite drop_0, take_app_le by (by rewrite length_to_le). rewrite take_ge by (by rewrite length_to_le). by rewrite to_le_bytes.
Qed.

Lemma length_stream (s : EntrySet) : length (stream_record s) = 32.
Proof. unfold stream_record. rewrite !length_app, !length_to_le. done. Qed.

Lemma stream_fields (s : EntrySet) (st := mk_record ENTRY_TYPE_STREAM (tl (stream_record s))) : set_wf s →
  data st !! 0 = Some (es_flags s) ∧ data st !! 2 = Some (Z.of_nat (length (es_name s)))
  ∧ u32_at st 20 = Done (es_first s) ∧ u64_at st 24 = Done (es_length s).
Proof.
  intros [_ _ Hf Hl _ _]. unfold u32_at, u64_at, le_u32, le_u64, st. cbn [data].
  pose proof (length_stream s) as Hlen. unfold stream_record in *. cbn [app tl replicate] in *. cbn [length] in Hlen.
  split_and!; [done|done| |].
  - rewrite slice_Done by (cbn [length]; lia). cbn [Nat.sub mbind exec_bind drop].
    rewrite drop_0, take_app_le by (by rewrite length_to_le). rewrite take_ge by (by rewrite length_to_le). by rewrite to_le_bytes.
  - rewrite slice_Done by (cbn [length]; lia). cbn [Nat.sub mbind exec_bind drop].
    rewrite drop_app_ge by (by rewrite length_to_le). rewrite length_to_le. cbn [Nat.sub]. rewrite drop_0.
    rewrite take_ge by (by rewrite length_to_le). by rewrite to_le_bytes.
Qed.

(** The records of all sets, and the rest of the cluster unused. *)
Definition encode_records (sets : list EntrySet) : list (list Z) := concat (encode_set <$> sets).

Lemma records_32 (sets : list EntrySet) : Forall set_wf sets → Forall (λ r, length r = 32) (encode_records sets).
Proof.
  induction 1 as [|s sets Hs _ IH]; [constructor|]. unfold encode_records. cbn [fmap list_fmap concat]. apply Forall_app. split; [|done].
  constructor; [done|]. constructor; [apply length_stream|]. apply Forall_fmap.
  eapply Forall_impl; [apply (sw_chunks _ Hs)|]. intros c (_&Hc&_). by apply length_name_record.
Qed.

(** Listing from record [i] on, where the encoding of [sets] starts. *)
Lemma cluster_entries_records (zeros : nat) : ∀ (sets : list EntrySet) (pre : list (list Z)) (fuel : nat),
  let recs := pre ++ encode_records sets ++ replicate zeros zero_record in
  Forall (λ r, length r = 32) recs → Forall set_wf sets → length recs - length pre < fuel →
  cluster_entries fuel (concat recs) (length recs) (length pre) = Done (decoded <$> sets).
Proof.
  induction sets as [|s sets IH]; intros pre fuel recs Hrl Hwf Hf; destruct fuel as [|fuel]; try lia; cbn [cluster_entries].
  - destruct (Nat.ltb_spec (length pre) (length recs)) as [Hlt|]; [|done]. destruct zeros as [|zeros].
    { unfold recs in Hlt. rewrite !length_app in Hlt. cbn in Hlt. lia. }
    assert (Hat : recs !! length pre = Some zero_record) by (unfold recs; change (encode_records []) with (@nil (list Z)); cbn [replicate app]; by rewrite list_lookup_middle).
    rewrite (record_at recs (length pre) 0 (replicate 31 0%Z) Hrl Hat). done.
  - apply Forall_cons in Hwf as [Hs Hwf].
    assert (Hrecs : recs = pre ++ file_record s :: stream_record s :: (name_record <$> es_chunks s) ++ encode_records sets ++ replicate zeros zero_record).
    { unfold recs, encode_records. cbn [fmap list_fmap concat]. unfold encode_set at 1. by rewrite <- !app_assoc. }
    assert (Hlen : length recs = length pre + 2 + length (es_chunks s) + length (encode_records sets) + zeros).
    { rewrite Hrecs, length_app. cbn [length]. rewrite !length_app, length_fmap, length_replicate. lia. }
    assert (H0 : recs !! length pre = Some (file_record s)) by (rewrite Hrecs; by rewrite list_lookup_middle).
    assert (H1 : recs !! S (length pre) = Some (stream_record s)).
    { rewrite Hrecs, lookup_app_r by lia. by replace (S (length pre) - length pre) with 1 by lia. }
    assert (H2 : ∀ t c, es_chunks s !! t = Some c → length pre + 2 + t < length recs ∧ recs !! (length pre + 2 + t) = Some (name_record c)).
    { intros t c Ht. pose proof (lookup_lt_Some _ _ _ Ht). split; [lia|]. rewrite Hrecs, lookup_app_r by lia.
      replace (length pre + 2 + t - length pre) with (S (S t)) by lia.
      match goal with |- (_ :: _ :: ?l) !! _ = _ => change (l !! t = Some (name_record c)) end.
      rewrite lookup_app_l by (rewrite length_fmap; lia). by rewrite list_lookup_fmap, Ht. }
    rewrite (proj2 (Nat.ltb_lt (length pre) (length recs))) by lia.
    rewrite (record_at recs (length pre) ENTRY_TYPE_FILE (tl (file_record s)) Hrl) by (by rewrite H0). cbn [mbind exec_bind entry_type].
    change (ENTRY_TYPE_FILE =? ENTRY_TYPE_UNUSED)%Z with false. change (ENTRY_TYPE_FILE =? ENTRY_TYPE_VOLUME_LABEL)%Z with false.
    change (ENTRY_TYPE_FILE =? ENTRY_TYPE_FILE)%Z with true. cbv iota. rewrite u16_file by done. cbn [mbind exec_bind].
    rewrite (proj2 (Nat.ltb_lt (S (length pre)) (length recs))) by lia.
    rewrite (record_at recs (S (length pre)) ENTRY_TYPE_STREAM (tl (stream_record s)) Hrl) by (by rewrite H1). cbn [mbind exec_bind entry_type].
    change (ENTRY_TYPE_STREAM =? ENTRY_TYPE_STREAM)%Z with true. cbn [negb].
    destruct (stream_fields s Hs) as (-> & -> & -> & ->). cbn [get_exec mbind exec_bind]. rewrite Nat2Z.id.
    pose proof (sw_name _ Hs) as Hnm.
    assert (Hloop : name_loop (S (length recs)) (concat recs) (length recs) (length pre + 2) (length (es_name s)) (replicate 256 0%Z) 0
      = Done (length pre + 2 + length (es_chunks s), name_buf (es_name s), length (es_name s))).
    { apply (name_loop_records recs (length recs) (length (es_name s)) Hrl (le_n _) Hnm (es_chunks s) _ _ []); [lia|exact H2|apply Hs|done]. }
    rewrite Hloop.
    cbn [mbind exec_bind app]. specialize (IH (pre ++ encode_set s) fuel).
    assert (Hpre : length (pre ++ encode_set s) = length pre + 2 + length (es_chunks s)).
    { rewrite length_app. unfold encode_set. cbn [length]. rewrite length_fmap. lia. }
    assert (Hrecs' : (pre ++ encode_set s) ++ encode_records sets ++ replicate zeros zero_record = recs).
    { unfold recs, encode_records. cbn [fmap list_fmap concat]. by rewrite <- !app_assoc. }
    rewrite Hrecs', Hpre in IH. rewrite IH by (done || lia). cbn [mbind exec_bind fmap list_fmap].
    f_equal. f_equal. unfold decoded, name_buf. cbn [app]. by rewrite Nat.min_id.
Qed.
