(* ===== verification/ExfatProps.v ===== *)
(** * What the exFAT reader promises *)

From S2P Require Export Prelude.
From S2P Require Export Exfat.
From S2P Require Export ExfatRead.
From S2P Require Export ExfatDir.

Import Exfat.

(** ** Paths *)

Lemma split_on_snoc (c : Z) (l : str) : split_on c (l ++ [c]) = split_on c l ++ [[]].
Proof.
  induction l as [|x l IH]; cbn [app split_on]; [by rewrite Z.eqb_refl|].
  destruct (x =? c)%Z; [by rewrite IH|]. rewrite IH. by destruct (split_on_cons c l) as (h&t&->).
Qed.

Lemma components_snoc (l : str) : components (l ++ [SLASH]) = components l.
Proof.
  unfold components. rewrite split_on_snoc, filter_app, (filter_cons_False _ []), filter_nil by (intros Hn; by apply Hn).
  apply app_nil_r.
Qed.

Lemma trim_end_app (c : Z) (l : str) : ∃ k, l = trim_end c l ++ replicate k c.
Proof.
  induction l as [|x l [k IH]]; cbn [trim_end]; [by exists 0|]. destruct (trim_end c l) as [|y r] eqn:E.
  - destruct (Z.eqb_spec x c) as [->|Hne]; [exists (S k); cbn in *; by rewrite <- IH|exists k; cbn in *; by rewrite <- IH].
  - exists k. cbn [app] in *. by rewrite IH at 1.
Qed.

Lemma components_trim_end (l : str) : components (trim_end SLASH l) = components l.
Proof.
  destruct (trim_end_app SLASH l) as [k Hk]. rewrite Hk at 2. clear Hk. induction k as [|k IH]; [by rewrite app_nil_r|].
  rewrite replicate_S_end, app_assoc. by rewrite components_snoc.
Qed.

Lemma collect_parts_take (pieces : list str) : ∀ n, collect_parts pieces n = take n (filter (λ c, c ≠ []) pieces).
Proof.
  induction pieces as [|p pieces IH]; intros n; cbn [collect_parts]; [by destruct n|].
  case_bool_decide as Hp.
  - rewrite filter_cons_True by done. destruct n as [|n]; [change (0 <? 0) with false; cbn [andb]; by rewrite IH|].
    change (0 <? S n) with true. cbn [andb take]. rewrite IH. by replace (S n - 1) with n by lia.
  - rewrite filter_cons_False by (intros Hn; by apply Hn). apply IH.
Qed.

Lemma components_one (l : str) : SLASH ∉ l → l ≠ [] → components l = [l].
Proof. intros Hs Hn. unfold components. rewrite split_on_none by done. by rewrite filter_cons_True. Qed.

Lemma trim_nil (path : str) : trim_end SLASH (trim_start SLASH path) = [] → components path = [].
Proof. intros Ht. by rewrite <- components_trim, <- components_trim_end, Ht. Qed.

Section device.
Context (read_sector : Z → option (list Z)) (fs : ExfatFs) (Hdev : dev_ok read_sector) (Hm : mounted fs).

Lemma find_entry_parts (fuel : nat) (path : str) (cb : list Z) : components path ≠ [] →
  find_entry read_sector fs fuel path cb
  = find_parts read_sector fs fuel (dir_at (root_dir_first_cluster fs)) (take 8 (components path)) cb.
Proof.
  intros Hne. unfold find_entry. rewrite bool_decide_false by (intros Ht; by apply Hne, trim_nil).
  rewrite collect_parts_take. fold (components (trim_end SLASH (trim_start SLASH path))).
  by rewrite components_trim_end, components_trim.
Qed.

(** ** Directories *)

Definition cluster_holds (cluster : Z) (sets : list EntrySet) : Prop := Forall set_wf sets ∧
  ∃ zeros, cluster_data read_sector fs cluster = Some (concat (encode_records sets ++ replicate zeros zero_record)).

(** The clusters of a directory hold the given sets, in order. *)
Definition dir_holds (dir : ExfatEntry) (setss : list (list EntrySet)) : Prop := chain_bounds fs dir ∧ in_width 32 (first_cluster dir)
  ∧ in_chain fs dir (first_cluster dir) ∧ ∃ cs, chain read_sector fs dir (first_cluster dir) cs ∧ Forall2 cluster_holds cs setss.

Lemma dir_loop_spec (dir : ExfatEntry) : chain_bounds fs dir → ∀ fuel cluster cs setss cb, in_width 32 cluster → in_chain fs dir cluster →
  chain read_sector fs dir cluster cs → Forall2 cluster_holds cs setss → length cs < fuel → buf_ok cb →
  ∃ cb', dir_loop read_sector fs fuel dir (Z.of_nat (bpc fs)) cluster cb = Done (decoded <$> concat setss, true, cb') ∧ buf_ok cb'.
Proof.
  intros Hcb. induction fuel as [|fuel IH]; intros cluster cs setss cb Hc Hin Hch Hh Hf Hb; [lia|]. cbn [dir_loop].
  destruct (Z.eqb_spec cluster 0) as [->|Hnz].
  { inversion Hch; [subst|done]. inversion Hh; subst. by exists cb. }
  destruct (chain_inv read_sector fs dir cluster cs Hch Hnz) as (next&cs'&->&Hnext&Hch').
  inversion Hh as [|? sets ? setss' [Hwf [zeros Hd]] Hh']; subst. rewrite Nat2Z.id.
  destruct (read_into_spec read_sector fs Hm Hdev cluster cb Hc Hb) as (ok&buf&cb1&Hri&Hcb1&Hlen&Hpost). rewrite Hri. cbn [mbind exec_bind].
  rewrite Hd in Hpost. destruct Hpost as (->&->&_). cbn [negb].
  set (recs := encode_records sets ++ replicate zeros zero_record) in *.
  assert (H32 : Forall (λ r, length r = 32) recs).
  { apply Forall_app. split; [by apply records_32|]. by apply Forall_replicate. }
  assert (Hn : bpc fs / 32 = length recs).
  { rewrite <- Hlen, (length_records recs H32). by apply Nat.div_mul. }
  rewrite Hn. pose proof (cluster_entries_records zeros sets [] (S (length recs)) H32 Hwf ltac:(apply Nat.lt_succ_r, Nat.le_sub_l)) as Hce.
  change (cluster_entries (S (length recs)) (concat recs) (length recs) 0 = Done (decoded <$> sets)) in Hce.
  rewrite Hce. cbn [mbind exec_bind].
  destruct (chain_next_in read_sector fs Hm Hdev dir cluster Hcb Hc Hnz Hin) as [Hnx Hnw]. rewrite Hnx, Hnext. cbn [mbind exec_bind].
  destruct (Hnw next Hnext) as [Hw Hi]. cbn [length] in Hf.
  destruct (IH next cs' setss' cb1 Hw Hi Hch' Hh' ltac:(lia) Hcb1) as (cb'&->&Hcb'). cbn [mbind exec_bind].
  exists cb'. split; [|done]. cbn [concat]. by rewrite fmap_app.
Qed.

Lemma list_entry_dir_spec (dir : ExfatEntry) (setss : list (list EntrySet)) (fuel : nat) (cb : list Z) : dir_holds dir setss →
  length setss < fuel → buf_ok cb →
  ∃ cb', list_entry_dir read_sector fs fuel dir cb = Done (decoded <$> concat setss, true, cb') ∧ buf_ok cb'.
Proof.
  intros (Hcb&Hw&Hin&cs&Hch&Hh) Hf Hb. unfold list_entry_dir. rewrite bytes_per_cluster_Done by done. cbn [mbind exec_bind].
  eapply dir_loop_spec; try done. by rewrite (Forall2_length _ _ _ Hh).
Qed.

Lemma ascii_valid (l : str) : Forall (λ ch, 0 < ch < 128)%Z l → utf8_valid l = true.
Proof.
  induction 1 as [|c l Hc _ IH]; [done|]. cbn [utf8_valid]. unfold in_range at 1.
  rewrite (proj2 (Z.leb_le 0 c)), (proj2 (Z.leb_le c 127)) by lia. done.
Qed.

Lemma set_name_ascii (s : EntrySet) : set_wf s → Forall (λ ch, 0 < ch < 128)%Z (es_name s).
Proof.
  intros Hs. unfold es_name. pose proof (sw_chunks _ Hs) as Hc. induction Hc as [|c cs (_&_&Hc) _ IH]; [constructor|].
  cbn [concat]. by apply Forall_app.
Qed.

Lemma entry_name_decoded (s : EntrySet) : set_wf s → entry_name (decoded s) = Done (es_name s).
Proof.
  intros Hs. pose proof (sw_name _ Hs) as Hl. unfold entry_name, decoded. cbn [name name_len].
  unfold prefix_exec. rewrite (proj2 (Nat.leb_le _ _)) by (rewrite length_app; lia). cbn [mbind exec_bind].
  rewrite Nat.min_l, take_app_le, take_ge by lia. unfold from_utf8_or_empty. by rewrite ascii_valid by (by apply set_name_ascii).
Qed.

Lemma last_named_spec (component : str) (sets : list EntrySet) : Forall set_wf sets → ∀ found,
  last_named component (decoded <$> sets) found
  = Done (match last (filter (λ s, es_name s = component) sets) with Some s => Some (decoded s) | None => found end).
Proof.
  induction 1 as [|s sets Hs _ IH]; intros found; [done|]. cbn [fmap list_fmap last_named]. rewrite entry_name_decoded by done.
  cbn [mbind exec_bind]. rewrite IH. case_bool_decide as Hn.
  - rewrite filter_cons_True by done. rewrite last_cons. by destruct (last _).
  - rewrite filter_cons_False by done. done.
Qed.

(** ** Files *)

Definition file_entry (start length : Z) (nofat : bool) : ExfatEntry := mk_exfat_entry (replicate 256 0%Z) 0 start length false 0 nofat.

Lemma read_chain_spec (start len : Z) (nofat : bool) (buf cb : list Z) : let e := file_entry start len nofat in
  chain_bounds fs e → in_width 32 start → in_chain fs e start → buf_ok cb →
  ∃ r buf' cb', read_file read_sector fs start len nofat buf cb = Done (r, buf', cb')
  ∧ buf_ok cb' ∧ length buf' = length buf ∧ (∀ n, r = Some n → Z.of_nat n <= len)%Z ∧ (∀ n, r = Some n → n ≤ length buf)
  ∧ ∀ cs d, chain read_sector fs e start cs → chain_data read_sector fs cs = Some d →
      let n := Nat.min (Nat.min (Z.to_nat len) (length buf)) (length d) in r = Some n ∧ buf' = take n d ++ drop n buf.
Proof.
  intros e Hcb Hw Hin Hb. unfold read_file. rewrite bytes_per_cluster_Done by done. cbn [mbind exec_bind]. fold (file_entry start len nofat). fold e.
  pose proof (proj1 Hcb) as Hl. cbn [e file_entry data_length] in Hl.
  assert (Ht : Z.to_nat (Z.min len (Z.of_nat (length buf))) = Nat.min (Z.to_nat len) (length buf)) by lia. rewrite Ht.
  destruct (read_loop_spec read_sector fs Hm Hdev e (Nat.min (Z.to_nat len) (length buf)) Hcb (S (Nat.min (Z.to_nat len) (length buf)))
              start 0 buf cb Hw Hin) as (r&buf'&cb'&Heq&Hcb'&Hlen&Hr&Hdata); [lia|lia|done|lia|].
  exists r, buf', cb'. split_and!; [done|done|done|intros n Hn; specialize (Hr n Hn); lia|intros n Hn; specialize (Hr n Hn); lia|].
  intros cs d Hch Hd. destruct (Hdata cs d Hch Hd) as [-> ->]. cbn [Nat.add]. split; [done|].
  unfold filled. by rewrite take_0, Nat.sub_0_r.
Qed.
(** ** Sound volumes

    Every directory and file that can be reached from the root has a chain
    within the 32-bit arithmetic, and the chain of a directory comes to its end,
    or to a sector that cannot be read, within [fuel] clusters. *)

(** The walk along a chain with fuel, as the loop over a directory does it. *)
Fixpoint chain_stops (fuel : nat) (e : ExfatEntry) (cluster : Z) : bool :=
  match fuel with
  | O => false
  | S fuel =>
      if (cluster =? 0)%Z then true else
      match chain_next read_sector fs e cluster with None => true | Some next => chain_stops fuel e next end
  end.

Inductive on_chain (e : ExfatEntry) : Z → Prop :=
  | oc_first : on_chain e (first_cluster e)
  | oc_next c n : on_chain e c → c ≠ 0%Z → chain_next read_sector fs e c = Some n → on_chain e n.

(** [e'] is an entry in a cluster of the directory [e]. *)
Definition in_dir (e e' : ExfatEntry) : Prop := ∃ c d es, on_chain e c ∧ c ≠ 0%Z ∧ cluster_data read_sector fs c = Some d
  ∧ cluster_entries (S (bpc fs / 32)) d (bpc fs / 32) 0 = Done es ∧ e' ∈ es.

Inductive reachable : ExfatEntry → Prop :=
  | re_root : reachable (dir_at (root_dir_first_cluster fs))
  | re_entry e e' : reachable e → is_dir e = true → in_dir e e' → reachable e'.

Record volume_sound (fuel : nat) : Prop := {
  vs_bounds : ∀ e, reachable e → chain_bounds fs e;
  vs_stops : ∀ e, reachable e → is_dir e = true → chain_stops fuel e (first_cluster e) = true;
}.

Lemma first_in_chain (e : ExfatEntry) : in_chain fs e (first_cluster e).
Proof. intros _ _. unfold stream_clusters. lia. Qed.

Lemma dir_loop_total (dir : ExfatEntry) : reachable dir → is_dir dir = true → chain_bounds fs dir → ∀ fuel cluster cb, in_width 32 cluster →
  in_chain fs dir cluster → on_chain dir cluster → chain_stops fuel dir cluster = true → buf_ok cb →
  ∃ es ok cb', dir_loop read_sector fs fuel dir (Z.of_nat (bpc fs)) cluster cb = Done (es, ok, cb') ∧ buf_ok cb'
    ∧ Forall (λ e, reachable e ∧ entry_ok e) es.
Proof.
  intros Hre Hd Hcb. induction fuel as [|fuel IH]; intros cluster cb Hc Hin Hon Hst Hb; cbn [chain_stops] in Hst; [done|]. cbn [dir_loop].
  destruct (Z.eqb_spec cluster 0) as [->|Hnz]; [by exists [], true, cb|]. rewrite Nat2Z.id.
  destruct (read_into_spec read_sector fs Hm Hdev cluster cb Hc Hb) as (ok&buf&cb1&->&Hcb1&Hlen&Hpost). cbn [mbind exec_bind].
  destruct ok; cbn [negb]; [|by exists [], false, cb1]. destruct (cluster_data read_sector fs cluster) as [d|] eqn:Hcd; [|done]. destruct Hpost as (_&->&Hbl).
  destruct (cluster_entries_total d (bpc fs / 32) Hbl (S (bpc fs / 32)) 0) as (es&Hes&Hok); [lia|]. rewrite Hes. cbn [mbind exec_bind].
  assert (Hall : Forall (λ e, reachable e ∧ entry_ok e) es).
  { apply Forall_forall. intros e He. split; [|by apply (proj1 (Forall_forall _ _) Hok)]. eapply re_entry; [done|done|]. by exists cluster, d, es. }
  destruct (chain_next_in read_sector fs Hm Hdev dir cluster Hcb Hc Hnz Hin) as [-> Hnw]. cbn [mbind exec_bind].
  destruct (chain_next read_sector fs dir cluster) as [next|] eqn:Hn; [|by exists es, false, cb1].
  destruct (Hnw next eq_refl) as [Hw Hi]. destruct (IH next cb1 Hw Hi) as (rest&ok&cb2&->&Hcb2&Hrest); [by eapply oc_next|done|done|].
  cbn [mbind exec_bind]. exists (es ++ rest), ok, cb2. split; [done|]. split; [done|]. by apply Forall_app.
Qed.

Lemma list_dir_total (fuel : nat) (dir : ExfatEntry) (cb : list Z) : volume_sound fuel → reachable dir → is_dir dir = true → in_width 32 (first_cluster dir) →
  buf_ok cb → ∃ es ok cb', list_entry_dir read_sector fs fuel dir cb = Done (es, ok, cb') ∧ buf_ok cb' ∧ Forall (λ e, reachable e ∧ entry_ok e) es.
Proof.
  intros Hs Hre Hd Hw Hb. unfold list_entry_dir. rewrite bytes_per_cluster_Done by done. cbn [mbind exec_bind].
  apply dir_loop_total; [done|done|by apply (vs_bounds _ Hs)|done|apply first_in_chain|apply oc_first|by apply (vs_stops _ Hs)|done].
Qed.

Lemma last_named_total (P : ExfatEntry → Prop) (component : str) (es : list ExfatEntry) : Forall (λ e, P e ∧ entry_ok e) es → ∀ found,
  (∀ e, found = Some e → P e ∧ entry_ok e) →
  ∃ r, last_named component es found = Done r ∧ ∀ e, r = Some e → P e ∧ entry_ok e.
Proof.
  induction 1 as [|e es [He Hok] _ IH]; intros found Hf; cbn [last_named]; [by exists found|].
  unfold entry_name. destruct Hok as [Hn Hl Hfc Hdl]. rewrite prefix_exec_Done by lia. cbn [mbind exec_bind].
  apply IH. intros e'. case_bool_decide; [|by apply Hf]. intros [= <-]. by split.
Qed.

Lemma root_entry_ok : entry_ok (dir_at (root_dir_first_cluster fs)).
Proof. destruct Hm as [_ _ _ _ [? ?] ?]. split; [apply length_replicate|cbn; lia|unfold in_width; cbn [dir_at first_cluster]; lia|done]. Qed.

Lemma find_parts_total (fuel : nat) (parts : list str) : volume_sound fuel → ∀ current cb, reachable current → entry_ok current → is_dir current = true →
  buf_ok cb → ∃ r cb', find_parts read_sector fs fuel current parts cb = Done (r, cb') ∧ buf_ok cb' ∧ ∀ e, r = Some e → reachable e ∧ entry_ok e.
Proof.
  intros Hs. induction parts as [|part parts IH]; intros current cb Hre Hok Hd Hb; cbn [find_parts].
  - exists (Some current), cb. split; [done|]. split; [done|]. by intros e [= <-].
  - destruct (list_dir_total fuel current cb Hs Hre Hd (eo_first _ Hok) Hb) as (es&ok&cb1&->&Hcb1&Hes). cbn [mbind exec_bind].
    destruct (last_named_total reachable part es Hes None ltac:(done)) as (r&->&Hr). cbn [mbind exec_bind].
    destruct r as [e|]; [|by exists None, cb1]. destruct (Hr e eq_refl) as [Hre' Hok'].
    destruct (is_dir e) eqn:Hde; [by apply IH|]. exists (Some e), cb1. split; [done|]. split; [done|]. by intros e' [= <-].
Qed.

(** Looking a path up comes back, with an entry of the volume if any. *)
Lemma find_entry_total (fuel : nat) (path : str) (cb : list Z) : volume_sound fuel → buf_ok cb →
  ∃ r cb', find_entry read_sector fs fuel path cb = Done (r, cb') ∧ buf_ok cb' ∧ ∀ e, r = Some e → reachable e ∧ entry_ok e.
Proof.
  intros Hs Hb. unfold find_entry. case_bool_decide.
  - eexists _, cb. split; [done|]. split; [done|]. intros e [= <-]. split; [apply re_root|apply root_entry_ok].
  - apply find_parts_total; [done|apply re_root|apply root_entry_ok|done|done].
Qed.

Lemma read_file_total (fuel : nat) (e : ExfatEntry) (buf cb : list Z) : volume_sound fuel → reachable e → entry_ok e → buf_ok cb →
  ∃ r buf' cb', read_file read_sector fs (first_cluster e) (data_length e) (no_fat_chain e) buf cb = Done (r, buf', cb')
  ∧ buf_ok cb' ∧ length buf' = length buf ∧ ∀ n, r = Some n → n ≤ length buf.
Proof.
  intros Hs Hre Hok Hb. pose proof (vs_bounds _ Hs e Hre) as Hcb.
  destruct (read_chain_spec (first_cluster e) (data_length e) (no_fat_chain e) buf cb Hcb (eo_first _ Hok) (first_in_chain e) Hb)
    as (r&buf'&cb'&Heq&Hcb'&Hl&_&Hn&_). by exists r, buf', cb'.
Qed.
End device.

(** ** Mounting *)

(** A field of the boot sector. *)
Definition field (s0 : list Z) (off n : nat) : Z := le_bytes (take n (drop off s0)).
Definition byte (s0 : list Z) (off : nat) : Z := nth off s0 0%Z.

(** The boot sectors of volumes with sectors of 512 bytes and clusters of at
    most 4096; the bound of the root cluster apart. *)
Definition valid_fields (s0 : list Z) : bool :=
  bool_decide (take 8 (drop 3 s0) = [69; 88; 70; 65; 84; 32; 32; 32]%Z) && (field s0 510 2 =? 0xAA55)%Z
  && (byte s0 108 =? 9)%Z && (byte s0 109 <=? 3)%Z
  && negb (field s0 72 8 =? 0)%Z && negb (byte s0 110 =? 0)%Z && negb (field s0 80 4 =? 0)%Z && negb (field s0 84 4 =? 0)%Z
  && negb (field s0 88 4 =? 0)%Z && negb (field s0 92 4 =? 0)%Z && (2 <=? field s0 96 4)%Z.

Definition geometry (s0 : list Z) : ExfatFs :=
  mk_exfat 512 (Z.shiftl 1 (byte s0 109)) (field s0 88 4) (field s0 80 4) (field s0 96 4) (field s0 92 4).

Lemma boot_parse_Done (s0 : list Z) : byte_list s0 → length s0 = SECTOR_SIZE →
  boot_parse s0 = Done (mk_boot (take 8 (drop 3 s0)) (field s0 72 8) (field s0 80 4) (field s0 84 4) (field s0 88 4) (field s0 92 4)
    (field s0 96 4) (byte s0 108) (byte s0 109) (byte s0 110) (field s0 510 2)).
Proof.
  intros Hb Hl. unfold SECTOR_SIZE in Hl. unfold boot_parse, le_u64, le_u32, le_u16.
  assert (Hget : ∀ i, i < 512 → get_exec (s0 !! i) = Done (byte s0 i)).
  { intros i Hi. destruct (lookup_lt_is_Some_2 s0 i) as [b Hlk]; [lia|]. unfold byte. rewrite Hlk. by rewrite (nth_lookup_Some s0 i 0%Z b Hlk). }
  rewrite !slice_Done by lia. rewrite !Hget by lia. done.
Qed.

Lemma shift_cases (bs sc : Z) : (0 <= bs)%Z → (0 <= sc)%Z →
  (if negb ((9 <=? bs)%Z && (bs <=? 12)%Z) || (25 <? sc)%Z then None else
   match checked_shl bs, checked_shl sc with
   | Some bps, Some spc => if negb (bps =? 512)%Z || (spc =? 0)%Z || (4096 <? Z.min (bps * spc) U32_MAX)%Z then None else Some (bps, spc)
   | _, _ => None
   end) = if (bs =? 9)%Z && (sc <=? 3)%Z then Some (512%Z, Z.shiftl 1 sc) else None.
Proof.
  intros Hb Hs. destruct (decide (9 <= bs <= 12)%Z) as [Hbs|Hbs].
  2: { destruct (Z.leb_spec 9 bs), (Z.leb_spec bs 12); try lia; cbn [negb andb orb]; by rewrite (proj2 (Z.eqb_neq bs 9)) by lia. }
  destruct (decide (sc <= 25)%Z) as [Hsc|Hsc].
  2: { rewrite (proj2 (Z.ltb_lt 25 sc)) by lia. rewrite orb_true_r. rewrite (proj2 (Z.leb_gt sc 3)) by lia. by rewrite andb_false_r. }
  assert (Hin : ∀ (n : nat) (x : Z), (0 <= x < Z.of_nat n)%Z → x ∈ Z.of_nat <$> seq 0 n).
  { intros n x Hx. apply list_elem_of_fmap. exists (Z.to_nat x). split; [lia|]. apply elem_of_seq. lia. }
  pose proof (Hin 13 bs ltac:(lia)) as H1. pose proof (Hin 26 sc ltac:(lia)) as H2. clear Hin Hs Hb.
  assert (Hall : Forall (λ bs, (9 <= bs)%Z → Forall (λ sc,
    (if negb ((9 <=? bs)%Z && (bs <=? 12)%Z) || (25 <? sc)%Z then None else
     match checked_shl bs, checked_shl sc with
     | Some bps, Some spc => if negb (bps =? 512)%Z || (spc =? 0)%Z || (4096 <? Z.min (bps * spc) U32_MAX)%Z then None else Some (bps, spc)
     | _, _ => None
     end) = if (bs =? 9)%Z && (sc <=? 3)%Z then Some (512%Z, Z.shiftl 1 sc) else None) (Z.of_nat <$> seq 0 26)) (Z.of_nat <$> seq 0 13)).
  { apply (bool_decide_unpack _). by vm_compute. }
  exact (proj1 (Forall_forall _ _) (proj1 (Forall_forall _ _) Hall bs H1 ltac:(lia)) sc H2).
Qed.

Lemma byte_range (s0 : list Z) (i : nat) : byte_list s0 → (0 <= byte s0 i < 256)%Z.
Proof.
  intros Hb. unfold byte. destruct (decide (i < length s0)) as [Hi|Hi]; [|rewrite nth_overflow by lia; lia].
  destruct (lookup_lt_is_Some_2 s0 i Hi) as [b Hlk]. rewrite (nth_lookup_Some s0 i 0%Z b Hlk). by apply (proj1 (Forall_lookup _ _) Hb i b).
Qed.

Lemma field_range (s0 : list Z) (off n : nat) : byte_list s0 → off + n ≤ length s0 → in_width (8 * Z.of_nat n) (field s0 off n).
Proof.
  intros Hb Hl. pose proof (le_bytes_range _ (byte_list_slice s0 off n Hb)) as Hr. rewrite length_take, length_drop in Hr.
  by replace (Nat.min n (length s0 - off)) with n in Hr by lia.
Qed.

Lemma geometry_mounted (s0 : list Z) : byte_list s0 → length s0 = SECTOR_SIZE → valid_fields s0 = true →
  (field s0 92 4 + 2 < 2 ^ 32)%Z → (field s0 96 4 < field s0 92 4 + 2)%Z → mounted (geometry s0).
Proof.
  intros Hb Hl Hv Hc Hr. unfold SECTOR_SIZE in Hl. unfold valid_fields in Hv. rewrite !andb_true_iff, !negb_true_iff, !Z.eqb_neq, !Z.leb_le in Hv.
  destruct Hv as ((((((((((_&_)&_)&Hsc)&_)&_)&Hfo)&_)&Hho)&_)&Hroot).
  pose proof (field_range s0 80 4 Hb ltac:(lia)) as H80. pose proof (field_range s0 88 4 Hb ltac:(lia)) as H88.
  pose proof (byte_range s0 109 Hb) as H109. unfold in_width in *. change (2 ^ (8 * Z.of_nat 4))%Z with (2 ^ 32)%Z in *.
  assert (Hspc : (byte s0 109 = 0 ∨ byte s0 109 = 1 ∨ byte s0 109 = 2 ∨ byte s0 109 = 3)%Z) by lia.
  split; cbn [geometry bytes_per_sector sectors_per_cluster fat_offset cluster_heap_offset root_dir_first_cluster cluster_count]; try lia.
  by destruct Hspc as [-> | [-> | [-> | ->]]].
Qed.

(** ** Opening and reading *)

Lemma open_and_read_spec (read_sector : Z → option (list Z)) (fs : ExfatFs) (setss : list (list EntrySet)) (s : EntrySet)
    (path : str) (fuel : nat) (buf cb : list Z) (cs : list Z) (d : list Z) :
  let e := file_entry (es_first s) (es_length s) (no_fat_chain (decoded s)) in
  dev_ok read_sector → mounted fs → dir_holds read_sector fs (dir_at (root_dir_first_cluster fs)) setss → length setss < fuel → buf_ok cb →
  s ∈ concat setss → (∀ s', s' ∈ concat setss → es_name s' = es_name s → s' = s) → is_dir (decoded s) = false →
  components path = [es_name s] →
  chain_bounds fs e → in_chain fs e (es_first s) → chain read_sector fs e (es_first s) cs → chain_data read_sector fs cs = Some d →
  ∃ cb1 cb2, find_entry read_sector fs fuel path cb = Done (Some (decoded s), cb1) ∧
    let n := Nat.min (Nat.min (Z.to_nat (es_length s)) (length buf)) (length d) in
    read_file read_sector fs (first_cluster (decoded s)) (data_length (decoded s)) (no_fat_chain (decoded s)) buf cb1
    = Done (Some n, take n d ++ drop n buf, cb2).
Proof.
  intros e Hdev Hm Hdir Hf Hb Hin Huniq Hfile Hpath Hcb Hch0 Hch Hd.
  destruct (list_entry_dir_spec read_sector fs Hdev Hm _ setss fuel cb Hdir Hf Hb) as (cb1&Hls&Hb1).
  assert (Hwf : Forall set_wf (concat setss)).
  { destruct Hdir as (_&_&_&cs'&_&Hh). clear -Hh. induction Hh as [|c sets cs' setss [Hw _] _ IH]; [constructor|]. cbn. by apply Forall_app. }
  assert (Hs : set_wf s) by by apply (proj1 (Forall_forall _ _) Hwf).
  rewrite find_entry_parts by (by rewrite Hpath). rewrite Hpath. cbn [take find_parts]. rewrite Hls. cbn [mbind exec_bind].
  rewrite last_named_spec by done. cbn [mbind exec_bind].
  destruct (last (filter (λ s', es_name s' = es_name s) (concat setss))) as [s'|] eqn:El.
  2: { apply last_None in El. assert (Hx : s ∈ filter (λ s', es_name s' = es_name s) (concat setss)) by by apply list_elem_of_filter.
       rewrite El in Hx. by apply not_elem_of_nil in Hx. }
  apply last_Some_elem_of, list_elem_of_filter in El as [Hn Hin']. rewrite (Huniq s' Hin' Hn), Hfile.
  destruct (read_chain_spec read_sector fs Hdev Hm (es_first s) (es_length s) (no_fat_chain (decoded s)) buf cb1 Hcb (sw_first _ Hs) Hch0 Hb1)
    as (r&buf'&cb2&Heq&_&_&_&_&Hdata).
  exists cb1, cb2. split; [done|]. destruct (Hdata cs d Hch Hd) as [-> ->]. exact Heq.
Qed.

(** ** A volume to try the properties on *)

(** Two sectors per cluster; the FAT holds end marks, the root directory is
    cluster 2 and holds the file [a], three bytes in cluster 3. *)
Definition demo_fs : ExfatFs := mk_exfat 512 2 4 2 2 10.
Definition demo_set : EntrySet := mk_set 0x20 2 3 3 [[97]]%Z.
Definition demo_dir : list Z := concat (encode_records [demo_set] ++ replicate 29 zero_record).
Definition demo_data : list Z := [7; 8; 9]%Z ++ replicate 1021 0%Z.
Definition demo_dev (s : Z) : option (list Z) :=
  if (s =? 2)%Z then Some (replicate 512 255%Z) else
  if (s =? 4)%Z then Some (take 512 demo_dir) else if (s =? 5)%Z then Some (drop 512 demo_dir) else
  if (s =? 6)%Z then Some (take 512 demo_data) else if (s =? 7)%Z then Some (drop 512 demo_data) else None.

Lemma demo_dev_ok : dev_ok demo_dev.
Proof.
  intros s d. unfold demo_dev. repeat case_match; intros [= <-]; (split; [by vm_compute|]); apply (bool_decide_unpack _); by vm_compute.
Qed.

Lemma demo_mounted : mounted demo_fs.
Proof. by split. Qed.

Lemma demo_set_wf : set_wf demo_set.
Proof.
  split; try by vm_compute.
  - constructor; [|constructor]. split_and!; [done|cbn; lia|]. constructor; [lia|constructor].
  - cbn. lia.
Qed.

Lemma demo_buf : buf_ok (replicate 4096 0%Z).
Proof. apply length_replicate. Qed.

Lemma demo_exfat_root : dir_holds demo_dev demo_fs (dir_at 2) [[demo_set]].
Proof.
  split_and!; [by vm_compute|by vm_compute|by intros _|].
  exists [2%Z]. split.
  - eapply chain_link; [done|by vm_compute|constructor].
  - constructor; [|constructor]. split; [constructor; [apply demo_set_wf|constructor]|]. exists 29. by vm_compute.
Qed.

Lemma demo_chain (e := file_entry 3 3 true) : chain_bounds demo_fs e ∧ in_chain demo_fs e 3 ∧ chain demo_dev demo_fs e 3 [3%Z].
Proof.
  split_and!; [by vm_compute|by intros _ _; vm_compute|]. eapply chain_link; [done|by vm_compute|constructor].
Qed.

(** A volume with that root directory in one cluster, and one file in it, is
    sound. *)
Section demo_sound.
Context (dev : Z → option (list Z)).
Hypothesis dev_next : chain_next dev demo_fs (dir_at 2) 2 = Some 0%Z.
Hypothesis dev_root : cluster_data dev demo_fs 2 = Some demo_dir.

Lemma demo_root_chain (c : Z) : on_chain dev demo_fs (dir_at 2) c → c = 2%Z ∨ c = 0%Z.
Proof. induction 1 as [|c n _ [-> | ->] Hc Hn]; [by left| |done]. right. rewrite dev_next in Hn. by injection Hn. Qed.

Lemma demo_reachable (e : ExfatEntry) : reachable dev demo_fs e → e = dir_at 2 ∨ e = decoded demo_set.
Proof.
  induction 1 as [|e e' _ [-> | ->] Hd Hin]; [by left| |done]. right. destruct Hin as (c&d&es&[-> | ->]%demo_root_chain&Hc&Hcd&Hes&Hin); [|done].
  rewrite dev_root in Hcd. injection Hcd as <-.
  assert (He2 : cluster_entries (S (bpc demo_fs / 32)) demo_dir (bpc demo_fs / 32) 0 = Done [decoded demo_set]) by (vm_compute; reflexivity).
  rewrite He2 in Hes. injection Hes as <-. by apply list_elem_of_singleton in Hin.
Qed.

Lemma demo_sound (fuel : nat) : 2 ≤ fuel → volume_sound dev demo_fs fuel.
Proof.
  intros Hf. split.
  - intros e [-> | ->]%demo_reachable; by vm_compute.
  - intros e [-> | ->]%demo_reachable Hd; [|done]. destruct fuel as [|[|fuel]]; [lia|lia|]. cbn [chain_stops dir_at first_cluster Z.eqb].
    fold (dir_at 2). by rewrite dev_next.
Qed.
End demo_sound.

(** Outside [chain_bounds] the code overflows: the FAT of this volume is at the
    last sector that the field can hold, and this file claims clusters beyond
    the last number of a cluster. *)
Example fat_offset_overflow (read_sector : Z → option (list Z)) :
  next_cluster read_sector (mk_exfat 512 2 4 (2 ^ 32 - 1) 2 10) 128 = Stuck.
Proof. reflexivity. Qed.

Example contiguous_overflow (read_sector : Z → option (list Z)) (e := file_entry (2 ^ 32 - 1) 1025 true) :
  next_cluster_for_entry read_sector demo_fs e (first_cluster e) = Stuck.
Proof. reflexivity. Qed.

(** ** Properties *)

(** C22. Reading a file of a mounted volume whose chain stays within 32-bit
    arithmetic comes to an end without a panic, also when a sector cannot be
    read and when the FAT runs in a circle, and reports at most the length of
    the file and of the buffer; when the clusters of the chain can be read, it
    reports and stores exactly their bytes, cut at both lengths, and leaves the
    rest of the buffer.  The conditions are about what the device holds, and
    mounting does not check them: for a chain in the FAT, the FAT begins at
    least 2^25 sectors below 2^32; for a contiguous file, its first cluster plus
    the number of its clusters is at most 2^32 ([chain_bounds]).  Outside them the code overflows: see
    [fat_offset_overflow] and [contiguous_overflow]. *)
Theorem exfat_read_file (read_sector : Z → option (list Z)) (fs : ExfatFs) (start len : Z) (nofat : bool) (buf cb : list Z) :
  let e := file_entry start len nofat in
  dev_ok read_sector → mounted fs → chain_bounds fs e → in_width 32 start → buf_ok cb →
  ∃ r buf' cb', read_file read_sector fs start len nofat buf cb = Done (r, buf', cb') ∧ length buf' = length buf
  ∧ (∀ n, r = Some n → (Z.of_nat n <= len)%Z ∧ n ≤ length buf)
  ∧ ∀ cs d, chain read_sector fs e start cs → chain_data read_sector fs cs = Some d →
      let n := Nat.min (Nat.min (Z.to_nat len) (length buf)) (length d) in r = Some n ∧ buf' = take n d ++ drop n buf.
Proof.
  intros e Hdev Hm Hcb Hw Hb. assert (Hin : in_chain fs e start).
  { intros _ Hf. destruct Hcb as [_ Hc]. rewrite Hf in Hc. cbn [e file_entry first_cluster] in *.
    unfold stream_clusters. cbn [data_length]. lia. }
  destruct (read_chain_spec read_sector fs Hdev Hm start len nofat buf cb Hcb Hw Hin Hb) as (r&buf'&cb'&Heq&_&Hl&H1&H2&H3).
  exists r, buf', cb'. split_and!; [done|done| |done]. intros n Hn. split; [by apply H1|by apply H2].
Qed.

Lemma exfat_read_file_witness : ∃ r buf' cb',
  read_file demo_dev demo_fs 3 3 true [0; 0; 0; 4]%Z (replicate 4096 0%Z) = Done (r, buf', cb') ∧ r = Some 3 ∧ buf' = [7; 8; 9; 4]%Z.
Proof.
  destruct demo_chain as (Hcb&_&Hch).
  destruct (exfat_read_file demo_dev demo_fs 3 3 true [0; 0; 0; 4]%Z (replicate 4096 0%Z) demo_dev_ok demo_mounted Hcb)
    as (r&buf'&cb'&Heq&_&_&Hd); [split; [lia|reflexivity]|exact demo_buf|].
  exists r, buf', cb'. split; [exact Heq|]. exact (Hd _ demo_data Hch eq_refl).
Defined.

(** C23. Listing a directory whose clusters hold encoded entry sets, with names
    of at most 255 ASCII characters in records of 15, returns exactly the
    entries encoded, in their order over all clusters of the chain: name,
    attributes, first cluster, length and the contiguity flag. *)
Theorem exfat_dir_roundtrip (read_sector : Z → option (list Z)) (fs : ExfatFs) (dir : ExfatEntry) (setss : list (list EntrySet))
    (fuel : nat) (cb : list Z) :
  dev_ok read_sector → mounted fs → dir_holds read_sector fs dir setss → length setss < fuel → buf_ok cb →
  ∃ cb', list_entry_dir read_sector fs fuel dir cb = Done (decoded <$> concat setss, true, cb').
Proof. intros Hdev Hm Hd Hf Hb. by destruct (list_entry_dir_spec read_sector fs Hdev Hm dir setss fuel cb Hd Hf Hb) as (cb'&?&_); exists cb'. Qed.

Lemma exfat_dir_roundtrip_witness : ∃ cb',
  list_entry_dir demo_dev demo_fs 2 (dir_at 2) (replicate 4096 0%Z) = Done ([decoded demo_set], true, cb').
Proof.
  exact (exfat_dir_roundtrip demo_dev demo_fs (dir_at 2) [[demo_set]] 2 _ demo_dev_ok demo_mounted demo_exfat_root (le_n 2) demo_buf).
Defined.

(** A file of the root directory is found by its name, any slashes around
    it ignored, and reading the entry found stores the bytes of its clusters. *)
Theorem exfat_open_and_read (read_sector : Z → option (list Z)) (fs : ExfatFs) (setss : list (list EntrySet)) (s : EntrySet)
    (path : str) (fuel : nat) (buf cb : list Z) (cs : list Z) (d : list Z) :
  let e := file_entry (es_first s) (es_length s) (no_fat_chain (decoded s)) in
  dev_ok read_sector → mounted fs → dir_holds read_sector fs (dir_at (root_dir_first_cluster fs)) setss → length setss < fuel → buf_ok cb →
  s ∈ concat setss → (∀ s', s' ∈ concat setss → es_name s' = es_name s → s' = s) → is_dir (decoded s) = false →
  components path = [es_name s] →
  chain_bounds fs e → in_chain fs e (es_first s) → chain read_sector fs e (es_first s) cs → chain_data read_sector fs cs = Some d →
  ∃ cb1 cb2, find_entry read_sector fs fuel path cb = Done (Some (decoded s), cb1) ∧
    let n := Nat.min (Nat.min (Z.to_nat (es_length s)) (length buf)) (length d) in
    read_file read_sector fs (first_cluster (decoded s)) (data_length (decoded s)) (no_fat_chain (decoded s)) buf cb1
    = Done (Some n, take n d ++ drop n buf, cb2).
Proof. exact (open_and_read_spec read_sector fs setss s path fuel buf cb cs d). Qed.

Lemma exfat_open_and_read_witness : ∃ cb1 cb2,
  find_entry demo_dev demo_fs 2 [47; 97; 47]%Z (replicate 4096 0%Z) = Done (Some (decoded demo_set), cb1)
  ∧ read_file demo_dev demo_fs 3 3 true [0; 0]%Z cb1 = Done (Some 2, [7; 8]%Z, cb2).
Proof.
  destruct demo_chain as (Hcb&Hin&Hch).
  exact (exfat_open_and_read demo_dev demo_fs [[demo_set]] demo_set [47; 97; 47]%Z 2 [0; 0]%Z _ _ demo_data demo_dev_ok demo_mounted demo_exfat_root
    (le_n 2) demo_buf (list_elem_of_here _ _) (λ s' Hs' _, proj1 (list_elem_of_singleton _ _) Hs') eq_refl eq_refl Hcb Hin Hch eq_refl).
Defined.

(** Only the first eight components of a path count: two paths that agree
    on them, a longer one with whatever follows, find the same entry. *)
Theorem exfat_path_depth (read_sector : Z → option (list Z)) (fs : ExfatFs) (fuel : nat) (p q : str) (cb : list Z) :
  components p ≠ [] → components q ≠ [] → take 8 (components p) = take 8 (components q) →
  find_entry read_sector fs fuel p cb = find_entry read_sector fs fuel q cb.
Proof. intros Hp Hq Hpq. by rewrite !find_entry_parts, Hpq. Qed.

Lemma exfat_path_depth_witness : let comp := [97; SLASH]%Z in
  find_entry (λ _, None) fs_new 1 (concat (replicate 8 comp)) [] = find_entry (λ _, None) fs_new 1 (concat (replicate 9 comp)) [].
Proof. apply exfat_path_depth; [discriminate|discriminate|reflexivity]. Defined.

Lemma mount_decides (read_sector : Z → option (list Z)) (fs : ExfatFs) (s0 : list Z) : dev_ok read_sector → read_sector 0%Z = Some s0 →
  mount read_sector fs =
    (if valid_fields s0 then
       if (2 ^ 32 <=? field s0 92 4 + 2)%Z then Stuck else
       if (field s0 96 4 <? field s0 92 4 + 2)%Z then Done (Some (), geometry s0) else Done (None, fs)
     else Done (None, fs)).
Proof.
  intros Hdev H0. destruct (Hdev _ _ H0) as [Hl Hb].
  unfold mount, valid_fields. rewrite H0, boot_parse_Done by done. cbn [mbind exec_bind oem boot_signature bytes_per_sector_shift
    sectors_per_cluster_shift volume_length number_of_fats b_fat_offset fat_length b_cluster_heap_offset b_cluster_count b_root_dir_first_cluster].
  case_bool_decide as Hoem; [rewrite bool_decide_false by done; done|]. rewrite bool_decide_true by exact Hoem. cbn [andb].
  destruct (field s0 510 2 =? 0xAA55)%Z; cbn [negb andb]; [|done].
  pose proof (shift_cases (byte s0 108) (byte s0 109) (proj1 (byte_range s0 108 Hb)) (proj1 (byte_range s0 109 Hb))) as Hsh.
  destruct (negb _ || _); [destruct (_ && _); [done|by cbn [andb]]|].
  destruct (checked_shl (byte s0 108)) as [bps|], (checked_shl (byte s0 109)) as [spc|]; try (destruct (_ && _); [done|by cbn [andb]]).
  destruct (negb _ || _ || _); [destruct (_ && _); [done|by cbn [andb]]|].
  destruct ((byte s0 108 =? 9)%Z && (byte s0 109 <=? 3)%Z); [|done]. injection Hsh as -> ->. cbn [andb].
  destruct (field s0 72 8 =? 0)%Z; [done|]. destruct (byte s0 110 =? 0)%Z; [done|]. destruct (field s0 80 4 =? 0)%Z; [done|].
  destruct (field s0 84 4 =? 0)%Z; [done|]. destruct (field s0 88 4 =? 0)%Z; [done|]. destruct (field s0 92 4 =? 0)%Z; [done|].
  cbn [orb negb andb]. rewrite Z.ltb_antisym. destruct (2 <=? field s0 96 4)%Z; cbn [negb]; [|done].
  unfold add_w. rewrite Z.leb_antisym. destruct (field s0 92 4 + 2 <? 2 ^ 32)%Z; cbn [negb mbind exec_bind]; [|done].
  rewrite (Z.ltb_antisym (field s0 92 4 + 2)). by destruct (field s0 92 4 + 2 <=? field s0 96 4)%Z.
Qed.

Lemma mount_mounted (read_sector : Z → option (list Z)) (fs fs' : ExfatFs) (s0 : list Z) : dev_ok read_sector → read_sector 0%Z = Some s0 →
  mount read_sector fs = Done (Some (), fs') → mounted fs'.
Proof.
  intros Hdev H0. destruct (Hdev _ _ H0) as [Hl Hb]. rewrite (mount_decides _ fs s0 Hdev H0). destruct (valid_fields s0) eqn:Hv; [|done].
  destruct (Z.leb_spec (2 ^ 32) (field s0 92 4 + 2)); [done|]. destruct (Z.ltb_spec (field s0 96 4) (field s0 92 4 + 2)); [|done].
  intros [= <-]. by apply geometry_mounted.
Qed.

(** Mounting reads the boot sector and decides exactly by its fields: it
    sets the geometry, which is then one on which reading is safe, or leaves the
    file system as it was; a cluster count of 2^32 - 2 or more overflows the
    bound of the root cluster and panics. *)
Theorem exfat_mount (read_sector : Z → option (list Z)) (fs : ExfatFs) (s0 : list Z) : dev_ok read_sector → read_sector 0%Z = Some s0 →
  mount read_sector fs =
    (if valid_fields s0 then
       if (2 ^ 32 <=? field s0 92 4 + 2)%Z then Stuck else
       if (field s0 96 4 <? field s0 92 4 + 2)%Z then Done (Some (), geometry s0) else Done (None, fs)
     else Done (None, fs))
  ∧ ∀ fs', mount read_sector fs = Done (Some (), fs') → mounted fs'.
Proof. intros Hdev H0. split; [by apply mount_decides|]. intros fs'. by eapply mount_mounted. Qed.

(** The boot sector of a small volume, with the given cluster count. *)
Definition demo_boot (count : list Z) : list Z :=
  [0xEB; 0x76; 0x90; 69; 88; 70; 65; 84; 32; 32; 32]%Z ++ replicate 61 0%Z ++ [100; 0; 0; 0; 0; 0; 0; 0]%Z ++ [2; 0; 0; 0; 1; 0; 0; 0; 4; 0; 0; 0]%Z
  ++ count ++ [2; 0; 0; 0]%Z ++ replicate 8 0%Z ++ [9; 0; 1]%Z ++ replicate 399 0%Z ++ [0x55; 0xAA]%Z.

Lemma exfat_mount_witness :
  mount (λ s, if (s =? 0)%Z then Some (demo_boot [10; 0; 0; 0]%Z) else None) fs_new = Done (Some (), mk_exfat 512 1 4 2 2 10)
  ∧ mount (λ s, if (s =? 0)%Z then Some (demo_boot [255; 255; 255; 255]%Z) else None) fs_new = Stuck.
Proof.
  assert (Hdev : ∀ c, length c = 4 → byte_list c → dev_ok (λ s, if (s =? 0)%Z then Some (demo_boot c) else None)).
  { intros c Hl Hc s d. destruct (s =? 0)%Z; [|discriminate]. intros [= <-]. unfold demo_boot. split.
    - rewrite !length_app, !length_replicate, Hl. reflexivity.
    - apply Forall_app. split; [apply (bool_decide_unpack _); vm_compute; exact I|].
      apply Forall_app. split; [apply (bool_decide_unpack _); vm_compute; exact I|].
      apply Forall_app. split; [apply (bool_decide_unpack _); vm_compute; exact I|].
      apply Forall_app. split; [apply (bool_decide_unpack _); vm_compute; exact I|].
      apply Forall_app. split; [exact Hc|apply (bool_decide_unpack _); vm_compute; exact I]. }
  split.
  - rewrite (proj1 (exfat_mount _ fs_new (demo_boot [10; 0; 0; 0]%Z) (Hdev [10; 0; 0; 0]%Z eq_refl ltac:(apply (bool_decide_unpack _); vm_compute; exact I)) eq_refl)).
    vm_compute. reflexivity.
  - rewrite (proj1 (exfat_mount _ fs_new (demo_boot [255; 255; 255; 255]%Z) (Hdev [255; 255; 255; 255]%Z eq_refl ltac:(apply (bool_decide_unpack _); vm_compute; exact I)) eq_refl)).
    vm_compute. reflexivity.
Defined.
