(* ===== verification/Fdt.v ===== *)
(** * The device tree parser, [kernel/src/fdt.rs]

    The memory from [dtb_addr] on is a list of bytes; the parser reads it
    through raw pointers, and a read past the end of the list is undefined
    behaviour, [Stuck].  A position is a distance from [dtb_addr].  Slices of
    the blob are the lists of their bytes, and [usize] has 64 bits. *)

From S2P Require Export Prelude.
From S2P Require Export Str.

Module Fdt.

Definition FDT_MAGIC : Z := 0xd00dfeed.
Definition FDT_BEGIN_NODE : Z := 0x00000001.
Definition FDT_END_NODE : Z := 0x00000002.
Definition FDT_PROP : Z := 0x00000003.
Definition FDT_NOP : Z := 0x00000004.
Definition FDT_END : Z := 0x00000009.
Definition MAX_DEPTH : nat := 16.
Definition DEFAULT_ADDRESS_CELLS : Z := 2.
Definition DEFAULT_SIZE_CELLS : Z := 1.

Record FdtReg : Type := mk_reg { base : Z; size : Z }.

Record FdtNode : Type := mk_node {
  name : str;
  f_compatible : option (list Z);
  f_model : option (list Z);
  f_reg : option (list Z);
  f_interrupt : option Z;
  f_interrupts_extended : option (list Z);
  f_timebase_frequency : option Z;
  f_device_type : option (list Z);
  f_riscv_isa : option (list Z);
  f_status : option (list Z);
  f_stdout_path : option (list Z);
  f_reg_shift : option Z;
  f_reg_io_width : option Z;
  f_clock_frequency : option Z;
  f_current_speed : option Z;
  f_riscv_ndev : option Z;
  f_riscv_numints : option Z;
  f_address_cells : Z;
  f_size_cells : Z;
  f_child_address_cells : Z;
  f_child_size_cells : Z;
}.

(** ** Big-endian reads *)

Definition be_bytes (bs : list Z) : Z := foldl (λ acc b, acc * 256 + b)%Z 0%Z bs.

Definition read_be32_slice (data : list Z) : exec Z := bs ← slice_exec data 0 4; Done (be_bytes bs).
Definition read_be64_slice (data : list Z) : exec Z := bs ← slice_exec data 0 8; Done (be_bytes bs).
Definition read_be32_ptr (mem : list Z) (pos : nat) : exec Z := bs ← slice_exec mem pos 4; Done (be_bytes bs).

Fixpoint read_cells_loop (data : list Z) (idx : list nat) (value : Z) : exec Z :=
  match idx with
  | [] => Done value
  | i :: idx =>
      c ← slice_exec data (i * 4) 4;
      v ← read_be32_slice c;
      read_cells_loop data idx (Z.lor (wrap 64 (Z.shiftl value 32)) v)
  end.

Definition read_cells (data : list Z) (cells : nat) : exec (option Z) :=
  if cells =? 0 then Done (Some 0%Z) else
  if (2 <? cells) || (length data <? cells * 4) then Done None else
  v ← read_cells_loop data (seq 0 cells) 0; Done (Some v).

(** ** Strings *)

(** The place of the first zero byte. *)
Fixpoint nul_position (data : list Z) : option nat :=
  match data with [] => None | b :: data => if (b =? 0)%Z then Some 0 else S <$> nul_position data end.

Definition first_nul_string (data : list Z) : option (list Z) :=
  let end_ := match nul_position data with Some i => i | None => length data end in
  if end_ =? 0 then None else Some (take end_ data).

(** [NulStringIter]: the items up to the end of the data. *)
Fixpoint nul_strings (fuel : nat) (data : list Z) : list (list Z) :=
  match fuel with
  | O => []
  | S fuel =>
      if bool_decide (data = []) then [] else
      let end_ := match nul_position data with Some i => i | None => length data end in
      let item := take end_ data in
      let data := if end_ <? length data then drop (S end_) data else [] in
      if bool_decide (item ≠ []) then item :: nul_strings fuel data else nul_strings fuel data
  end.

Definition from_utf8_ok (bs : list Z) : option str := if utf8_valid bs then Some bs else None.
Definition str_of (data : option (list Z)) : option str := d ← data; s ← first_nul_string d; from_utf8_ok s.

(** A string in memory, up to its zero byte. *)
Fixpoint strlen (l : list Z) : exec nat :=
  match l with [] => Stuck | b :: l => if (b =? 0)%Z then Done 0 else n ← strlen l; Done (S n) end.

Definition fdt_string (mem : list Z) (pos : nat) : exec str :=
  len ← strlen (drop pos mem); slice_exec mem pos len.

(** ** What a node tells *)

Definition first_compatible (n : FdtNode) : option str := str_of (f_compatible n).
Definition model (n : FdtNode) : option str := str_of (f_model n).
Definition device_type (n : FdtNode) : option str := str_of (f_device_type n).
Definition riscv_isa (n : FdtNode) : option str := str_of (f_riscv_isa n).
Definition stdout_path (n : FdtNode) : option str := str_of (f_stdout_path n).

Definition compatible_matches (n : FdtNode) (expected : str) : bool :=
  match f_compatible n with
  | None => false
  | Some data => existsb (λ item, bool_decide (item = expected)) (nul_strings (S (length data)) data)
  end.

Definition first_reg (n : FdtNode) : exec (option FdtReg) :=
  match f_reg n with
  | None => Done None
  | Some reg =>
      let address_cells := Z.to_nat (f_address_cells n) in
      let size_cells := Z.to_nat (f_size_cells n) in
      let entry_len := (address_cells + size_cells) * 4 in
      if (entry_len =? 0) || (length reg <? entry_len) then Done None else
      a ← prefix_exec reg (address_cells * 4);
      base ← read_cells a address_cells;
      match base with
      | None => Done None
      | Some base =>
          let size_start := address_cells * 4 in
          size ← (if size_cells =? 0 then Done (Some 0%Z)
                  else s ← slice_exec reg size_start (size_cells * 4); read_cells s size_cells);
          Done (match size with Some size => Some (mk_reg base size) | None => None end)
      end
  end.

Definition interrupts_extended_irq (n : FdtNode) : exec (option Z) :=
  match f_interrupts_extended n with
  | None => Done None
  | Some data =>
      if (length data <? 8) || negb (length data `mod` 4 =? 0) then Done None else
      let cells := length data / 4 in
      d ← slice_exec data ((cells - 1) * 4) 4; v ← read_be32_slice d; Done (Some v)
  end.

Definition interrupt_or_zero (n : FdtNode) : exec Z :=
  match f_interrupt n with
  | Some i => Done i
  | None => r ← interrupts_extended_irq n; Done (match r with Some i => i | None => 0%Z end)
  end.

Definition is_available (n : FdtNode) : bool :=
  match str_of (f_status n) with
  | Some s => negb (bool_decide (s = bytes "disabled") || bool_decide (s = bytes "reserved") || bool_decide (s = bytes "fail"))
  | None => true
  end.

Definition prop_u32 (n : FdtNode) (name : str) : option Z :=
  if bool_decide (name = bytes "reg-shift") then f_reg_shift n else
  if bool_decide (name = bytes "reg-io-width") then f_reg_io_width n else
  if bool_decide (name = bytes "clock-frequency") then f_clock_frequency n else
  if bool_decide (name = bytes "current-speed") then f_current_speed n else
  if bool_decide (name = bytes "riscv,ndev") then f_riscv_ndev n else
  if bool_decide (name = bytes "riscv,numints") || bool_decide (name = bytes "riscv,num-interrupts") then f_riscv_numints n else None.

(** ** Walking the structure block *)

Definition new_node (name : str) (address_cells size_cells : Z) : FdtNode :=
  mk_node name None None None None None None None None None None None None None None None None
    address_cells size_cells DEFAULT_ADDRESS_CELLS DEFAULT_SIZE_CELLS.

(** The first cell of the data, where there is one; else the old value. *)
Definition first_cell (data : list Z) (old : option Z) : exec (option Z) :=
  if 4 <=? length data then v ← read_be32_slice data; Done (Some v) else Done old.
(** Saturated at [u8::MAX]. *)
Definition first_cell_u8 (data : list Z) (old : Z) : exec Z :=
  if 4 <=? length data then v ← read_be32_slice data; Done (Z.min v 255) else Done old.

Definition node_prop (node : FdtNode) (prop_name : str) (data : list Z) : exec FdtNode :=
  let 'mk_node nm co mo rg it ie tf dt isa st so rs rw cf cs nd ni ac sc cac csc := node in
  let named (s : string) := bool_decide (prop_name = bytes s) in
  if named "compatible" then Done (mk_node nm (Some data) mo rg it ie tf dt isa st so rs rw cf cs nd ni ac sc cac csc) else
  if named "model" then Done (mk_node nm co (Some data) rg it ie tf dt isa st so rs rw cf cs nd ni ac sc cac csc) else
  if named "reg" then Done (mk_node nm co mo (Some data) it ie tf dt isa st so rs rw cf cs nd ni ac sc cac csc) else
  if named "interrupts" then it ← first_cell data it; Done (mk_node nm co mo rg it ie tf dt isa st so rs rw cf cs nd ni ac sc cac csc) else
  if named "interrupts-extended" then Done (mk_node nm co mo rg it (Some data) tf dt isa st so rs rw cf cs nd ni ac sc cac csc) else
  if named "timebase-frequency" then tf ← first_cell data tf; Done (mk_node nm co mo rg it ie tf dt isa st so rs rw cf cs nd ni ac sc cac csc) else
  if named "device_type" then Done (mk_node nm co mo rg it ie tf (Some data) isa st so rs rw cf cs nd ni ac sc cac csc) else
  if named "riscv,isa" then Done (mk_node nm co mo rg it ie tf dt (Some data) st so rs rw cf cs nd ni ac sc cac csc) else
  if named "status" then Done (mk_node nm co mo rg it ie tf dt isa (Some data) so rs rw cf cs nd ni ac sc cac csc) else
  if named "stdout-path" then Done (mk_node nm co mo rg it ie tf dt isa st (Some data) rs rw cf cs nd ni ac sc cac csc) else
  if named "reg-shift" then rs ← first_cell data rs; Done (mk_node nm co mo rg it ie tf dt isa st so rs rw cf cs nd ni ac sc cac csc) else
  if named "reg-io-width" then rw ← first_cell data rw; Done (mk_node nm co mo rg it ie tf dt isa st so rs rw cf cs nd ni ac sc cac csc) else
  if named "clock-frequency" then cf ← first_cell data cf; Done (mk_node nm co mo rg it ie tf dt isa st so rs rw cf cs nd ni ac sc cac csc) else
  if named "current-speed" then cs ← first_cell data cs; Done (mk_node nm co mo rg it ie tf dt isa st so rs rw cf cs nd ni ac sc cac csc) else
  if named "riscv,ndev" then nd ← first_cell data nd; Done (mk_node nm co mo rg it ie tf dt isa st so rs rw cf cs nd ni ac sc cac csc) else
  if named "riscv,numints" || named "riscv,num-interrupts" then
    ni ← first_cell data ni; Done (mk_node nm co mo rg it ie tf dt isa st so rs rw cf cs nd ni ac sc cac csc) else
  if named "#address-cells" then cac ← first_cell_u8 data cac; Done (mk_node nm co mo rg it ie tf dt isa st so rs rw cf cs nd ni ac sc cac csc) else
  if named "#size-cells" then csc ← first_cell_u8 data csc; Done (mk_node nm co mo rg it ie tf dt isa st so rs rw cf cs nd ni ac sc cac csc) else
  Done node.

(** [n & !3]. *)
Definition and_not3 (n : nat) : nat := n - n `mod` 4.

Section walk.
Context {A : Type} (callback : A → FdtNode → exec A) (mem : list Z).

(** [FDT_BEGIN_NODE]: the node is opened where the stack has a slot for it. *)
Definition open_node (nodes : list (option FdtNode)) (depth : nat) (name : str) : exec (list (option FdtNode)) :=
  if depth <? MAX_DEPTH then
    '(address_cells, size_cells) ← (if depth =? 0 then Done (DEFAULT_ADDRESS_CELLS, DEFAULT_SIZE_CELLS) else
      parent ← get_exec (nodes !! (depth - 1));
      Done (match parent with
            | Some parent => (f_child_address_cells parent, f_child_size_cells parent)
            | None => (DEFAULT_ADDRESS_CELLS, DEFAULT_SIZE_CELLS)
            end));
    put_exec nodes depth (Some (new_node name address_cells size_cells))
  else Done nodes.

(** [FDT_END_NODE]: the callback gets the node. *)
Definition close_node (nodes : list (option FdtNode)) (depth : nat) (a : A) : exec (nat * list (option FdtNode) * A) :=
  if 0 <? depth then
    let depth := depth - 1 in
    if depth <? MAX_DEPTH then
      node ← get_exec (nodes !! depth);
      match node with
      | Some node => a ← callback a node; nodes ← put_exec nodes depth None; Done (depth, nodes, a)
      | None => Done (depth, nodes, a)
      end
    else Done (depth, nodes, a)
  else Done (depth, nodes, a).

(** [FDT_PROP]: the position after the property, and the nodes. *)
Definition read_prop (strings_base pos depth : nat) (nodes : list (option FdtNode)) : exec (nat * list (option FdtNode)) :=
  len ← read_be32_ptr mem pos;
  let len := Z.to_nat len in
  let skip := pos + (8 + and_not3 (len + 3)) in
  if depth =? 0 then Done (skip, nodes) else
  let node_slot := depth - 1 in
  if MAX_DEPTH <=? node_slot then Done (skip, nodes) else
  slot ← get_exec (nodes !! node_slot);
  match slot with
  | None => Done (skip, nodes)
  | Some node =>
      nameoff ← read_be32_ptr mem (pos + 4);
      let pos := pos + 8 in
      prop_name ← fdt_string mem (strings_base + Z.to_nat nameoff);
      data ← slice_exec mem pos len;
      node ← node_prop node prop_name data;
      nodes ← put_exec nodes node_slot (Some node);
      Done (pos + and_not3 (len + 3), nodes)
  end.

Fixpoint walk_loop (fuel : nat) (strings_base end_ pos depth : nat) (nodes : list (option FdtNode)) (a : A) : exec A :=
  match fuel with
  | O => Stuck
  | S fuel =>
      if pos <? end_ then
        token ← read_be32_ptr mem pos;
        let pos := pos + 4 in
        if (token =? FDT_BEGIN_NODE)%Z then
          name ← fdt_string mem pos;
          nodes ← open_node nodes depth name;
          walk_loop fuel strings_base end_ (pos + and_not3 (length name + 4)) (S depth) nodes a
        else if (token =? FDT_END_NODE)%Z then
          '(depth, nodes, a) ← close_node nodes depth a;
          walk_loop fuel strings_base end_ pos depth nodes a
        else if (token =? FDT_PROP)%Z then
          '(pos, nodes) ← read_prop strings_base pos depth nodes;
          walk_loop fuel strings_base end_ pos depth nodes a
        else if (token =? FDT_END)%Z then Done a
        else if (token =? FDT_NOP)%Z then walk_loop fuel strings_base end_ pos depth nodes a
        else Done a
      else Done a
  end.

(** Every step moves the position forward: the size bounds their number. *)
Definition walk_nodes (a : A) : exec A :=
  magic ← read_be32_ptr mem 0;
  if negb (magic =? FDT_MAGIC)%Z then Done a else
  totalsize ← read_be32_ptr mem 4;
  off_struct ← read_be32_ptr mem 8;
  off_strings ← read_be32_ptr mem 12;
  walk_loop (S (Z.to_nat totalsize)) (Z.to_nat off_strings) (Z.to_nat totalsize) (Z.to_nat off_struct) 0 (replicate MAX_DEPTH None) a.
End walk.

(** The callback of [parse] and [parse_with], with the name, the first
    compatible string, the [reg] data and the interrupt of the node. *)
Definition device_callback {A} (callback : A → str → str → list Z → Z → exec A) (a : A) (node : FdtNode) : exec A :=
  match first_compatible node, f_reg node with
  | Some compatible, Some reg => i ← interrupt_or_zero node; callback a (name node) compatible reg i
  | _, _ => Done a
  end.
Definition parse_with {A} (callback : A → str → str → list Z → Z → exec A) (mem : list Z) (a : A) : exec A :=
  walk_nodes (device_callback callback) mem a.
Definition parse {A} (callback : A → str → str → list Z → Z → exec A) (mem : list Z) (a : A) : exec A :=
  walk_nodes (device_callback callback) mem a.
End Fdt.
