(* ===== verification/FdtWalk.v ===== *)
(** * Walking the blob of a device tree

    [flatten] writes a tree the way a device tree compiler does; [visit] is
    what a walk over the tree does with it, and the parser does the same. *)

From S2P Require Export Prelude.
From S2P Require Export Str.
From S2P Require Export Fdt.

Import Fdt.

(** ** Memory *)

Definition at_pos (mem : list Z) (pos : nat) (l : list Z) : Prop := pos + length l ≤ length mem ∧ take (length l) (drop pos mem) = l.

Lemma at_app (mem : list Z) (pos : nat) (l1 l2 : list Z) : at_pos mem pos (l1 ++ l2) →
  at_pos mem pos l1 ∧ at_pos mem (pos + length l1) l2.
Proof.
  intros [Hl Ht]. rewrite length_app in *.
  assert (H1 : take (length l1) (drop pos mem) = l1).
  { apply (f_equal (take (length l1))) in Ht. rewrite take_take, take_app_length, Nat.min_l in Ht by lia. done. }
  split; split; [lia|done|lia|]. apply (f_equal (drop (length l1))) in Ht.
  rewrite <- take_drop_commute, drop_drop, drop_app_length in Ht. done.
Qed.

Lemma at_slice (mem : list Z) (pos : nat) (l : list Z) : at_pos mem pos l → slice_exec mem pos (length l) = Done l.
Proof. intros [Hl Ht]. rewrite slice_Done by done. by rewrite Ht. Qed.

Lemma strlen_app (l rest : list Z) : 0%Z ∉ l → strlen (l ++ 0%Z :: rest) = Done (length l).
Proof.
  induction l as [|b l IH]; intros Hl; cbn [app strlen]; [done|]. apply not_elem_of_cons in Hl as [Hb Hl].
  rewrite (proj2 (Z.eqb_neq b 0)) by congruence. by rewrite IH.
Qed.

Lemma at_string (mem : list Z) (pos : nat) (s : str) (rest : list Z) : 0%Z ∉ s → at_pos mem pos (s ++ 0%Z :: rest) → fdt_string mem pos = Done s.
Proof.
  intros Hs Hat. destruct (at_app _ _ _ _ Hat) as [H1 _]. destruct Hat as [Hl Ht]. unfold fdt_string.
  rewrite <- (take_drop (length (s ++ 0%Z :: rest)) (drop pos mem)), Ht, <- app_assoc. cbn [app].
  rewrite strlen_app by done. cbn [mbind exec_bind]. by apply at_slice.
Qed.

(** ** Numbers *)

Definition be32 (x : Z) : list Z := [(x / 2 ^ 24) `mod` 256; (x / 2 ^ 16) `mod` 256; (x / 2 ^ 8) `mod` 256; x `mod` 256]%Z.

Lemma be32_bytes (x : Z) : in_width 32 x → be_bytes (be32 x) = x.
Proof.
  unfold in_width. intros Hx. change (2 ^ 32)%Z with 4294967296%Z in Hx. unfold be32, be_bytes. cbn [foldl].
  change (2 ^ 24)%Z with 16777216%Z. change (2 ^ 16)%Z with 65536%Z. change (2 ^ 8)%Z with 256%Z. Z.div_mod_to_equations. lia.
Qed.

Lemma at_be32 (mem : list Z) (pos : nat) (x : Z) : in_width 32 x → at_pos mem pos (be32 x) → read_be32_ptr mem pos = Done x.
Proof.
  intros Hx Hat. unfold read_be32_ptr. change 4 with (length (be32 x)). rewrite (at_slice _ _ _ Hat). cbn [mbind exec_bind]. by rewrite be32_bytes.
Qed.

Lemma token_width (t : Z) : (0 <= t < 16)%Z → in_width 32 t.
Proof. unfold in_width. change (2 ^ 32)%Z with 4294967296%Z. lia. Qed.

Lemma and_not3_le (n : nat) : and_not3 n ≤ n ∧ n < and_not3 n + 4.
Proof. unfold and_not3. pose proof (Nat.mod_upper_bound n 4). pose proof (Nat.Div0.mod_le n 4). lia. Qed.

(** ** Trees *)

Definition prop_t : Type := str * list Z.

Inductive dtree : Type := DNode (nm : str) (props : list prop_t) (children : dforest)
with dforest : Type := DNil | DCons (t : dtree) (ts : dforest).

Scheme dtree_ind2 := Induction for dtree Sort Prop with dforest_ind2 := Induction for dforest Sort Prop.
Combined Scheme dtree_dforest_ind from dtree_ind2, dforest_ind2.

Section encode.
Context (off : str → Z).

(** The name, its zero byte, and zeros up to a multiple of four. *)
Definition name_field (nm : str) : list Z := nm ++ replicate (and_not3 (length nm + 4) - length nm) 0%Z.
Definition prop_field (p : prop_t) : list Z :=
  be32 FDT_PROP ++ be32 (Z.of_nat (length p.2)) ++ be32 (off p.1) ++ p.2 ++ replicate (and_not3 (length p.2 + 3) - length p.2) 0%Z.

Fixpoint props_field (props : list prop_t) : list Z :=
  match props with [] => [] | p :: props => prop_field p ++ props_field props end.

Fixpoint flatten (t : dtree) : list Z :=
  match t with DNode nm props ts => be32 FDT_BEGIN_NODE ++ name_field nm ++ props_field props ++ flatten_all ts ++ be32 FDT_END_NODE end
with flatten_all (ts : dforest) : list Z := match ts with DNil => [] | DCons t ts => flatten t ++ flatten_all ts end.
End encode.

Fixpoint tokens (t : dtree) : nat := match t with DNode _ props ts => S (length props + (tokens_all ts + 1)) end
with tokens_all (ts : dforest) : nat := match ts with DNil => 0 | DCons t ts => tokens t + tokens_all ts end.

(** ** What a walk does *)

Fixpoint props_of (node : FdtNode) (props : list prop_t) : exec FdtNode :=
  match props with [] => Done node | p :: props => node ← node_prop node p.1 p.2; props_of node props end.

Section visit.
Context {A : Type} (callback : A → FdtNode → exec A).

(** A node gets the cell counts its parent gives its children, two and one
    where there is no parent; the callback gets it after its children, and
    nothing below the sixteenth level. *)
Fixpoint visit (depth : nat) (cells : Z * Z) (t : dtree) (a : A) : exec A :=
  match t with
  | DNode nm props ts =>
      if depth <? MAX_DEPTH then
        node ← props_of (new_node nm cells.1 cells.2) props;
        a ← visit_all (S depth) (f_child_address_cells node, f_child_size_cells node) ts a;
        callback a node
      else Done a
  end
with visit_all (depth : nat) (cells : Z * Z) (ts : dforest) (a : A) : exec A :=
  match ts with DNil => Done a | DCons t ts => a ← visit depth cells t a; visit_all depth cells ts a end.
End visit.

(** The names can be written, and the string block holds those of the properties. *)
Section ok.
Context (mem : list Z) (strings_base : nat) (off : str → Z).

Definition prop_ok (p : prop_t) : Prop :=
  (Z.of_nat (length p.2) < 2 ^ 32)%Z ∧ in_width 32 (off p.1) ∧ (0%Z ∉ p.1)
  ∧ at_pos mem (strings_base + Z.to_nat (off p.1)) (p.1 ++ [0%Z]).

Fixpoint tree_ok (t : dtree) : Prop := match t with DNode nm props ts => (0%Z ∉ nm) ∧ Forall prop_ok props ∧ forest_ok ts end
with forest_ok (ts : dforest) : Prop := match ts with DNil => True | DCons t ts => tree_ok t ∧ forest_ok ts end.
End ok.

Lemma tokens_length (off : str → Z) : (∀ t, tokens t ≤ length (flatten off t)) ∧ (∀ ts, tokens_all ts ≤ length (flatten_all off ts)).
Proof.
  assert (Hp : ∀ props, length props ≤ length (props_field off props)).
  { induction props as [|p props IH]; cbn [props_field length]; [done|]. rewrite length_app. unfold prop_field. rewrite length_app. cbn [be32 length]. lia. }
  apply dtree_dforest_ind; cbn [tokens tokens_all flatten flatten_all length]; [|done|].
  - intros nm props ts IH. specialize (Hp props). rewrite !length_app. cbn [be32 length]. lia.
  - intros t IHt ts IHts. rewrite length_app. lia.
Qed.

(** ** Properties never fail *)

Lemma first_cell_Done (data : list Z) (old : option Z) : ∃ v, first_cell data old = Done v.
Proof.
  unfold first_cell, read_be32_slice. destruct (Nat.leb_spec 4 (length data)); [|by eexists]. rewrite slice_Done by lia. by eexists.
Qed.

Lemma first_cell_u8_Done (data : list Z) (old : Z) : ∃ v, first_cell_u8 data old = Done v.
Proof.
  unfold first_cell_u8, read_be32_slice. destruct (Nat.leb_spec 4 (length data)); [|by eexists]. rewrite slice_Done by lia. by eexists.
Qed.

Lemma node_prop_Done (node : FdtNode) (nm : str) (data : list Z) : ∃ node', node_prop node nm data = Done node' ∧ name node' = name node.
Proof.
  destruct node. unfold node_prop. cbn [name].
  repeat match goal with |- context [if ?b then _ else _] => destruct b end; try (by eexists);
    match goal with
    | |- context [first_cell ?d ?o] => destruct (first_cell_Done d o) as [? ->]
    | |- context [first_cell_u8 ?d ?o] => destruct (first_cell_u8_Done d o) as [? ->]
    end; by eexists.
Qed.

Lemma props_of_Done (props : list prop_t) : ∀ node, ∃ node', props_of node props = Done node'.
Proof.
  induction props as [|p props IH]; intros node; cbn [props_of]; [by eexists|].
  destruct (node_prop_Done node p.1 p.2) as (node1&->&_). apply IH.
Qed.

(** ** The walk *)

Section walk.
Context {A : Type} (callback : A → FdtNode → exec A) (mem : list Z) (off : str → Z) (strings_base end_ : nat).

Abbreviation loop := (walk_loop callback mem).

(** The open nodes, the root first. *)
Definition slots (stack : list FdtNode) : list (option FdtNode) := (Some <$> stack) ++ replicate (MAX_DEPTH - length stack) None.

Definition child_cells (stack : list FdtNode) : Z * Z :=
  match last stack with
  | Some p => (f_child_address_cells p, f_child_size_cells p)
  | None => (DEFAULT_ADDRESS_CELLS, DEFAULT_SIZE_CELLS)
  end.

Lemma slots_top (stack : list FdtNode) (node : FdtNode) : slots (stack ++ [node]) !! length stack = Some (Some node).
Proof. unfold slots. rewrite fmap_app, <- app_assoc, lookup_app_r by (rewrite length_fmap; lia). by rewrite length_fmap, Nat.sub_diag. Qed.

Lemma put_slot (stack : list FdtNode) (o : option FdtNode) (l : list (option FdtNode)) (node : FdtNode) :
  put_exec ((Some <$> stack) ++ o :: l) (length stack) (Some node) = Done ((Some <$> (stack ++ [node])) ++ l).
Proof.
  rewrite put_exec_Done by (rewrite length_app, length_fmap; cbn [length]; lia). f_equal.
  rewrite fmap_app, <- app_assoc. rewrite insert_app_r_alt by (rewrite length_fmap; lia). by rewrite length_fmap, Nat.sub_diag.
Qed.

Lemma slots_cons (stack : list FdtNode) : length stack < MAX_DEPTH →
  slots stack = (Some <$> stack) ++ None :: replicate (MAX_DEPTH - length stack - 1) None.
Proof. intros Hl. unfold slots. destruct (MAX_DEPTH - length stack) as [|k] eqn:E; [lia|]. by replace (S k - 1) with k by lia. Qed.

Lemma slots_snoc (stack : list FdtNode) (node : FdtNode) :
  slots (stack ++ [node]) = (Some <$> stack) ++ Some node :: replicate (MAX_DEPTH - length stack - 1) None.
Proof. unfold slots. rewrite fmap_app, <- app_assoc, length_app. cbn. do 3 f_equal. lia. Qed.

Lemma open_slot (stack : list FdtNode) (nm : str) : length stack < MAX_DEPTH →
  open_node (slots stack) (length stack) nm = Done (slots (stack ++ [new_node nm (child_cells stack).1 (child_cells stack).2])).
Proof.
  intros Hl. unfold open_node. rewrite (proj2 (Nat.ltb_lt _ _) Hl).
  assert (Hc : (if length stack =? 0 then Done (DEFAULT_ADDRESS_CELLS, DEFAULT_SIZE_CELLS) else
      parent ← get_exec (slots stack !! (length stack - 1));
      Done (match parent with Some p => (f_child_address_cells p, f_child_size_cells p) | None => (DEFAULT_ADDRESS_CELLS, DEFAULT_SIZE_CELLS) end))
    = Done (child_cells stack)).
  { destruct stack as [|x stack] using rev_ind; [done|]. rewrite length_app. cbn [length].
    destruct (Nat.eqb_spec (length stack + 1) 0); [lia|]. replace (length stack + 1 - 1) with (length stack) by lia.
    rewrite slots_top. unfold child_cells. by rewrite last_snoc. }
  rewrite Hc. cbn [mbind exec_bind]. destruct (child_cells stack) as [ac sc]. rewrite slots_cons, put_slot by done.
  f_equal. unfold slots. rewrite length_app. cbn [length fst snd]. do 2 f_equal. lia.
Qed.

Lemma close_slot (stack : list FdtNode) (node : FdtNode) (a : A) : length stack < MAX_DEPTH →
  close_node callback (slots (stack ++ [node])) (S (length stack)) a = a ← callback a node; Done (length stack, slots stack, a).
Proof.
  intros Hl. unfold close_node. change (0 <? S (length stack)) with true. cbv iota. replace (S (length stack) - 1) with (length stack) by lia.
  rewrite (proj2 (Nat.ltb_lt _ _) Hl), slots_top. cbn [get_exec mbind exec_bind]. destruct (callback a node) as [a'|]; [|done].
  cbn [exec_bind]. rewrite slots_snoc, slots_cons by done. rewrite put_exec_Done by (rewrite length_app, length_fmap; cbn [length]; lia).
  cbn [mbind exec_bind]. rewrite insert_app_r_alt by (rewrite length_fmap; lia). by rewrite length_fmap, Nat.sub_diag.
Qed.

(** One property in an open node. *)
Lemma read_prop_spec (stack : list FdtNode) (node : FdtNode) (p : prop_t) (pos : nat) : length stack < MAX_DEPTH → prop_ok mem strings_base off p →
  at_pos mem pos (prop_field off p) →
  ∃ node', node_prop node p.1 p.2 = Done node' ∧ read_be32_ptr mem pos = Done FDT_PROP ∧
    read_prop mem strings_base (pos + 4) (S (length stack)) (slots (stack ++ [node]))
    = Done (pos + length (prop_field off p), slots (stack ++ [node'])).
Proof.
  intros Hl (Hlen&Hoff&Hn&Hs) Hat. destruct p as [nm data]. cbn [fst snd] in *. unfold prop_field in Hat. cbn [fst snd] in Hat.
  destruct (at_app _ _ _ _ Hat) as [H1 [H2 [H3 [H4 _]%at_app]%at_app]%at_app]. cbn [be32 length] in H2, H3, H4.
  destruct (node_prop_Done node nm data) as (node'&Hnp&_). exists node'. split; [done|]. split; [by apply at_be32|].
  unfold read_prop. rewrite (at_be32 mem (pos + 4) _ (conj (Nat2Z.is_nonneg _) Hlen) H2). cbn [mbind exec_bind]. rewrite Nat2Z.id.
  change (S (length stack) =? 0) with false. cbv iota. replace (S (length stack) - 1) with (length stack) by lia.
  destruct (Nat.leb_spec MAX_DEPTH (length stack)); [lia|]. rewrite slots_top. cbn [get_exec mbind exec_bind].
  rewrite (at_be32 mem (pos + 4 + 4) _ Hoff H3). cbn [mbind exec_bind]. rewrite (at_string mem _ nm [] Hn Hs). cbn [mbind exec_bind].
  replace (pos + 4 + 8) with (pos + 4 + 4 + 4) by lia. rewrite (at_slice _ _ _ H4). cbn [mbind exec_bind]. rewrite Hnp. cbn [mbind exec_bind].
  rewrite slots_snoc, put_slot. cbn [mbind exec_bind]. f_equal. f_equal.
  - unfold prop_field. cbn [fst snd]. rewrite !length_app, length_replicate. cbn [be32 length]. pose proof (and_not3_le (length data + 3)). lia.
  - unfold slots. rewrite length_app. cbn [length]. do 2 f_equal. lia.
Qed.

Lemma walk_props (stack : list FdtNode) : length stack < MAX_DEPTH → ∀ props node fuel pos a,
  Forall (prop_ok mem strings_base off) props → at_pos mem pos (props_field off props) → pos + length (props_field off props) ≤ end_ →
  loop (length props + fuel) strings_base end_ pos (S (length stack)) (slots (stack ++ [node])) a
  = node ← props_of node props; loop fuel strings_base end_ (pos + length (props_field off props)) (S (length stack)) (slots (stack ++ [node])) a.
Proof.
  intros Hl. induction props as [|p props IH]; intros node fuel pos a Hok Hat He; cbn [props_field length Nat.add props_of mbind exec_bind].
  { by rewrite Nat.add_0_r. }
  apply Forall_cons in Hok as [Hp Hok]. cbn [props_field] in Hat, He. destruct (at_app _ _ _ _ Hat) as [H1 H2]. rewrite length_app in *.
  destruct (read_prop_spec stack node p pos Hl Hp H1) as (node'&->&Htok&Hread). cbn [walk_loop].
  destruct (Nat.ltb_spec pos end_); [|unfold prop_field in He; rewrite length_app in He; cbn [be32 length] in He; lia].
  rewrite Htok. cbn [mbind exec_bind]. change (FDT_PROP =? FDT_BEGIN_NODE)%Z with false. change (FDT_PROP =? FDT_END_NODE)%Z with false.
  change (FDT_PROP =? FDT_PROP)%Z with true. cbv iota. rewrite Hread. cbn [mbind exec_bind]. rewrite IH by (done || lia).
  by rewrite Nat.add_assoc.
Qed.

(** Below the sixteenth level the properties are skipped. *)
Lemma skip_props (depth : nat) (nodes : list (option FdtNode)) : MAX_DEPTH < depth → ∀ props fuel pos a,
  Forall (prop_ok mem strings_base off) props → at_pos mem pos (props_field off props) → pos + length (props_field off props) ≤ end_ →
  loop (length props + fuel) strings_base end_ pos depth nodes a
  = loop fuel strings_base end_ (pos + length (props_field off props)) depth nodes a.
Proof.
  intros Hd. induction props as [|p props IH]; intros fuel pos a Hok Hat He; cbn [props_field length Nat.add].
  { by rewrite Nat.add_0_r. }
  apply Forall_cons in Hok as [Hp Hok]. cbn [props_field] in Hat, He. destruct (at_app _ _ _ _ Hat) as [H1 H2]. rewrite length_app in *.
  assert (Hlen : length (prop_field off p) = 12 + and_not3 (length p.2 + 3)).
  { unfold prop_field. rewrite !length_app, length_replicate. cbn [be32 length]. pose proof (and_not3_le (length p.2 + 3)). lia. }
  unfold prop_field in H1. destruct (at_app _ _ _ _ H1) as [Ht [Hn _]%at_app]. cbn [be32 length] in Hn. cbn [walk_loop].
  destruct (Nat.ltb_spec pos end_); [|lia]. rewrite (at_be32 mem pos FDT_PROP (token_width FDT_PROP ltac:(unfold FDT_PROP; lia)) Ht). cbn [mbind exec_bind].
  change (FDT_PROP =? FDT_BEGIN_NODE)%Z with false. change (FDT_PROP =? FDT_END_NODE)%Z with false.
  change (FDT_PROP =? FDT_PROP)%Z with true. cbv iota. unfold read_prop.
  rewrite (at_be32 mem (pos + 4) _ (conj (Nat2Z.is_nonneg _) (proj1 Hp)) Hn). cbn [mbind exec_bind]. rewrite Nat2Z.id.
  destruct (Nat.eqb_spec depth 0); [lia|]. destruct (Nat.leb_spec MAX_DEPTH (depth - 1)); [|lia]. cbn [mbind exec_bind].
  replace (pos + 4 + (8 + and_not3 (length p.2 + 3))) with (pos + length (prop_field off p)) by lia.
  rewrite IH by (done || lia). by rewrite Nat.add_assoc.
Qed.

(** ** Trees *)

Lemma walk_begin (nm : str) (rest : list Z) (fuel pos depth : nat) (nodes : list (option FdtNode)) (a : A) : 0%Z ∉ nm →
  at_pos mem pos (be32 FDT_BEGIN_NODE ++ name_field nm ++ rest) → pos < end_ →
  loop (S fuel) strings_base end_ pos depth nodes a
  = nodes ← open_node nodes depth nm; loop fuel strings_base end_ (pos + 4 + length (name_field nm)) (S depth) nodes a.
Proof.
  intros Hn Hat He. destruct (at_app _ _ _ _ Hat) as [H1 [H2 _]%at_app]. cbn [be32 length] in H2. cbn [walk_loop].
  rewrite (proj2 (Nat.ltb_lt _ _) He). rewrite (at_be32 mem pos FDT_BEGIN_NODE (token_width FDT_BEGIN_NODE ltac:(unfold FDT_BEGIN_NODE; lia)) H1).
  cbn [mbind exec_bind]. change (FDT_BEGIN_NODE =? FDT_BEGIN_NODE)%Z with true. cbv iota.
  pose proof (and_not3_le (length nm + 4)) as Hr. unfold name_field in H2.
  destruct (and_not3 (length nm + 4) - length nm) as [|k] eqn:Ek; [lia|]. cbn [replicate] in H2.
  rewrite (at_string mem (pos + 4) nm _ Hn H2). cbn [mbind exec_bind].
  replace (length (name_field nm)) with (and_not3 (length nm + 4)); [done|].
  unfold name_field. rewrite length_app, length_replicate. lia.
Qed.

Lemma walk_end (fuel pos depth : nat) (nodes : list (option FdtNode)) (a : A) : at_pos mem pos (be32 FDT_END_NODE) → pos < end_ →
  loop (S fuel) strings_base end_ pos depth nodes a
  = '(depth, nodes, a) ← close_node callback nodes depth a; loop fuel strings_base end_ (pos + 4) depth nodes a.
Proof.
  intros Hat He. cbn [walk_loop]. rewrite (proj2 (Nat.ltb_lt _ _) He).
  rewrite (at_be32 mem pos FDT_END_NODE (token_width FDT_END_NODE ltac:(unfold FDT_END_NODE; lia)) Hat). cbn [mbind exec_bind].
  change (FDT_END_NODE =? FDT_BEGIN_NODE)%Z with false. change (FDT_END_NODE =? FDT_END_NODE)%Z with true. done.
Qed.

(** Deeper than the stack: nothing happens but the moves of the position. *)
Lemma walk_deep :
  (∀ t depth nodes fuel pos a, MAX_DEPTH ≤ depth → tree_ok mem strings_base off t → at_pos mem pos (flatten off t) → pos + length (flatten off t) ≤ end_ →
    loop (tokens t + fuel) strings_base end_ pos depth nodes a = loop fuel strings_base end_ (pos + length (flatten off t)) depth nodes a) ∧
  (∀ ts depth nodes fuel pos a, MAX_DEPTH ≤ depth → forest_ok mem strings_base off ts → at_pos mem pos (flatten_all off ts) →
    pos + length (flatten_all off ts) ≤ end_ →
    loop (tokens_all ts + fuel) strings_base end_ pos depth nodes a = loop fuel strings_base end_ (pos + length (flatten_all off ts)) depth nodes a).
Proof.
  apply dtree_dforest_ind; cbn [tokens tokens_all flatten flatten_all tree_ok forest_ok].
  - intros nm props ts IH depth nodes fuel pos a Hd (Hn&Hp&Hok) Hat He. rewrite !length_app in *. cbn [be32 length Nat.add] in He.
    destruct (at_app _ _ _ _ Hat) as [_ [_ [H3 [H4 H5]%at_app]%at_app]%at_app]. cbn [be32 length] in *.
    change (S ?x + fuel) with (S (x + fuel)). rewrite (walk_begin nm _ _ pos depth nodes a Hn Hat) by lia.
    unfold open_node. destruct (Nat.ltb_spec depth MAX_DEPTH); [lia|]. cbn [mbind exec_bind].
    replace (length props + (tokens_all ts + 1) + fuel) with (length props + (tokens_all ts + S fuel)) by lia.
    rewrite skip_props by (done || lia). rewrite IH by (done || lia). rewrite walk_end by (done || lia).
    unfold close_node. change (0 <? S depth) with true. cbv iota. replace (S depth - 1) with depth by lia.
    destruct (Nat.ltb_spec depth MAX_DEPTH); [lia|]. cbn [mbind exec_bind]. f_equal. cbn [be32 length]. lia.
  - intros depth nodes fuel pos a _ _ _ _. by rewrite Nat.add_0_r.
  - intros t IHt ts IHts depth nodes fuel pos a Hd (Hok&Hoks) Hat He. rewrite length_app in *. destruct (at_app _ _ _ _ Hat) as [H1 H2].
    rewrite <- Nat.add_assoc, IHt by (done || lia). rewrite IHts by (done || lia). by rewrite Nat.add_assoc.
Qed.

Lemma visit_deep (depth : nat) (cells : Z * Z) (t : dtree) (a : A) : MAX_DEPTH ≤ depth → visit callback depth cells t a = Done a.
Proof. intros Hd. destruct t as [nm props ts]. cbn [visit]. by destruct (Nat.ltb_spec depth MAX_DEPTH); [lia|]. Qed.

Lemma visit_node (depth : nat) (cells : Z * Z) (nm : str) (props : list prop_t) (ts : dforest) (a : A) : depth < MAX_DEPTH →
  visit callback depth cells (DNode nm props ts) a =
    node ← props_of (new_node nm cells.1 cells.2) props;
    a ← visit_all callback (S depth) (f_child_address_cells node, f_child_size_cells node) ts a;
    callback a node.
Proof. intros Hd. cbn [visit]. by rewrite (proj2 (Nat.ltb_lt _ _) Hd). Qed.

Lemma visit_cons (depth : nat) (cells : Z * Z) (t : dtree) (ts : dforest) (a : A) :
  visit_all callback depth cells (DCons t ts) a = a ← visit callback depth cells t a; visit_all callback depth cells ts a.
Proof. done. Qed.

Lemma walk_tree :
  (∀ t stack fuel pos a, length stack ≤ MAX_DEPTH → tree_ok mem strings_base off t → at_pos mem pos (flatten off t) → pos + length (flatten off t) ≤ end_ →
    loop (tokens t + fuel) strings_base end_ pos (length stack) (slots stack) a
    = a ← visit callback (length stack) (child_cells stack) t a;
      loop fuel strings_base end_ (pos + length (flatten off t)) (length stack) (slots stack) a) ∧
  (∀ ts stack fuel pos a, length stack ≤ MAX_DEPTH → forest_ok mem strings_base off ts → at_pos mem pos (flatten_all off ts) →
    pos + length (flatten_all off ts) ≤ end_ →
    loop (tokens_all ts + fuel) strings_base end_ pos (length stack) (slots stack) a
    = a ← visit_all callback (length stack) (child_cells stack) ts a;
      loop fuel strings_base end_ (pos + length (flatten_all off ts)) (length stack) (slots stack) a).
Proof.
  apply dtree_dforest_ind; cbn [tokens tokens_all flatten flatten_all tree_ok forest_ok].
  - intros nm props ts IH stack fuel pos a Hd (Hn&Hp&Hok) Hat He. destruct (Nat.ltb_spec (length stack) MAX_DEPTH) as [Hl|Hl].
    2: { rewrite visit_deep by done. exact (proj1 walk_deep (DNode nm props ts) _ _ fuel pos a Hl (conj Hn (conj Hp Hok)) Hat He). }
    rewrite !length_app in *. cbn [be32 length] in He.
    destruct (at_app _ _ _ _ Hat) as [_ [_ [H3 [H4 H5]%at_app]%at_app]%at_app]. cbn [be32 length] in *.
    change (S ?x + fuel) with (S (x + fuel)). rewrite (walk_begin nm _ _ pos (length stack) _ a Hn Hat) by lia.
    rewrite open_slot by done. cbn [mbind exec_bind]. rewrite visit_node by done.
    replace (length props + (tokens_all ts + 1) + fuel) with (length props + (tokens_all ts + S fuel)) by lia.
    rewrite walk_props by (done || lia). destruct (props_of_Done props (new_node nm (child_cells stack).1 (child_cells stack).2)) as [node ->].
    cbn [mbind exec_bind].
    specialize (IH (stack ++ [node]) (S fuel)). assert (Hsn : length (stack ++ [node]) = S (length stack)) by (rewrite length_app, Nat.add_comm; done). rewrite Hsn in IH. rewrite IH by (done || lia).
    assert (Hcc : child_cells (stack ++ [node]) = (f_child_address_cells node, f_child_size_cells node)) by (unfold child_cells; by rewrite last_snoc).
    rewrite Hcc. destruct (visit_all callback (S (length stack)) _ ts a) as [a1|]; [|done]. cbn [mbind exec_bind].
    rewrite walk_end by (done || lia). rewrite close_slot by done. destruct (callback a1 node) as [a2|]; [|done]. cbn [mbind exec_bind].
    f_equal. cbn [be32 length]. lia.
  - intros stack fuel pos a _ _ _ _. cbn [visit_all length mbind exec_bind Nat.add]. by rewrite Nat.add_0_r.
  - intros t IHt ts IHts stack fuel pos a Hd (Hok&Hoks) Hat He. rewrite length_app in *. destruct (at_app _ _ _ _ Hat) as [H1 H2].
    rewrite <- Nat.add_assoc, IHt by (done || lia). rewrite visit_cons. destruct (visit callback _ _ t a) as [a1|]; [|done]. cbn [mbind exec_bind].
    rewrite IHts by (done || lia). by rewrite Nat.add_assoc.
Qed.
End walk.

(** A blob: the header, the tree followed by the end token somewhere, the
    strings somewhere. *)
Record blob (mem : list Z) (b_total b_struct b_strings : Z) (off : str → Z) (t : dtree) : Prop := {
  b_header : at_pos mem 0 (be32 FDT_MAGIC ++ be32 b_total ++ be32 b_struct ++ be32 b_strings);
  b_widths : in_width 32 b_total ∧ in_width 32 b_struct ∧ in_width 32 b_strings;
  b_tree : at_pos mem (Z.to_nat b_struct) (flatten off t ++ be32 FDT_END);
  b_inside : (b_struct + Z.of_nat (length (flatten off t)) + 4 <= b_total)%Z;
  b_ok : tree_ok mem (Z.to_nat b_strings) off t;
}.

Lemma walk_blob {A} (callback : A → FdtNode → exec A) (mem : list Z) (total struct strings : Z) (off : str → Z) (t : dtree) (a : A) :
  blob mem total struct strings off t →
  walk_nodes callback mem a = visit callback 0 (DEFAULT_ADDRESS_CELLS, DEFAULT_SIZE_CELLS) t a.
Proof.
  intros [Hh (Hw1&Hw2&Hw3) Ht Hi Hok]. destruct (at_app _ _ _ _ Hh) as [H0 [H4 [H8 H12]%at_app]%at_app]. cbn [be32 length] in *.
  unfold walk_nodes. assert (Hm : in_width 32 FDT_MAGIC) by (unfold in_width, FDT_MAGIC; change (2 ^ 32)%Z with 4294967296%Z; lia).
  rewrite (at_be32 mem 0 FDT_MAGIC Hm H0). cbn [mbind exec_bind]. rewrite Z.eqb_refl. cbn [negb].
  rewrite (at_be32 mem 4 total Hw1 H4), (at_be32 mem 8 struct Hw2 H8), (at_be32 mem 12 strings Hw3 H12). cbn [mbind exec_bind].
  destruct (at_app _ _ _ _ Ht) as [Ht1 Hend]. pose proof (proj1 (tokens_length off) t) as Htok. unfold in_width in *.
  assert (Hf : S (Z.to_nat total) = tokens t + S (Z.to_nat total - tokens t)) by lia. rewrite Hf.
  pose proof (proj1 (walk_tree callback mem off (Z.to_nat strings) (Z.to_nat total)) t [] (S (Z.to_nat total - tokens t)) (Z.to_nat struct) a) as Hwt.
  cbn [length] in Hwt. change (slots []) with (replicate MAX_DEPTH (None : option FdtNode)) in Hwt. rewrite Hwt by (done || lia).
  change (child_cells []) with (DEFAULT_ADDRESS_CELLS, DEFAULT_SIZE_CELLS). destruct (visit _ _ _ t a) as [a'|]; [|done].
  cbn [mbind exec_bind walk_loop]. destruct (Nat.ltb_spec (Z.to_nat struct + length (flatten off t)) (Z.to_nat total)); [|lia].
  rewrite (at_be32 _ _ FDT_END (token_width FDT_END ltac:(unfold FDT_END; lia)) Hend). done.
Qed.

(** ** The nodes of a walk *)

Fixpoint exec_fold {A B} (f : A → B → exec A) (a : A) (l : list B) : exec A :=
  match l with [] => Done a | b :: l => a ← f a b; exec_fold f a l end.

Lemma exec_fold_app {A B} (f : A → B → exec A) (l1 l2 : list B) : ∀ a, exec_fold f a (l1 ++ l2) = a ← exec_fold f a l1; exec_fold f a l2.
Proof. induction l1 as [|b l1 IH]; intros a; cbn [exec_fold app]; [done|]. destruct (f a b); cbn [mbind exec_bind]; [apply IH|done]. Qed.

(** The nodes a callback gets, in their order. *)
Definition nodes_of (t : dtree) : exec (list FdtNode) :=
  visit (λ ns n, Done (ns ++ [n])) 0 (DEFAULT_ADDRESS_CELLS, DEFAULT_SIZE_CELLS) t [].

Lemma visit_DNode {A} (callback : A → FdtNode → exec A) (depth : nat) (cells : Z * Z) (nm : str) (props : list prop_t) (ts : dforest) (a : A) :
  visit callback depth cells (DNode nm props ts) a =
    if depth <? MAX_DEPTH then
      node ← props_of (new_node nm cells.1 cells.2) props;
      a ← visit_all callback (S depth) (f_child_address_cells node, f_child_size_cells node) ts a;
      callback a node
    else Done a.
Proof. done. Qed.

Lemma visit_nodes :
  (∀ t depth cells, ∃ ns, ∀ A (callback : A → FdtNode → exec A) a, visit callback depth cells t a = exec_fold callback a ns) ∧
  (∀ ts depth cells, ∃ ns, ∀ A (callback : A → FdtNode → exec A) a, visit_all callback depth cells ts a = exec_fold callback a ns).
Proof.
  apply dtree_dforest_ind.
  - intros nm props ts IH depth cells. destruct (depth <? MAX_DEPTH) eqn:Hd; [|exists []; intros A cb a; by rewrite visit_DNode, Hd].
    destruct (props_of_Done props (new_node nm cells.1 cells.2)) as (node&Hnode).
    destruct (IH (S depth) (f_child_address_cells node, f_child_size_cells node)) as (ns&Hns). exists (ns ++ [node]). intros A cb a.
    rewrite visit_DNode, Hd, Hnode. cbn [mbind exec_bind]. rewrite Hns, exec_fold_app. destruct (exec_fold cb a ns) as [a'|]; [|done]. cbn. by destruct (cb a' node).
  - intros depth cells. by exists [].
  - intros t IHt ts IHts depth cells. destruct (IHt depth cells) as (ns1&H1). destruct (IHts depth cells) as (ns2&H2).
    exists (ns1 ++ ns2). intros A cb a. rewrite visit_cons, H1, exec_fold_app. destruct (exec_fold cb a ns1) as [a'|]; [|done]. cbn [mbind exec_bind]. apply H2.
Qed.

Lemma visit_nodes_of (t : dtree) : ∃ ns, nodes_of t = Done ns ∧
  ∀ A (callback : A → FdtNode → exec A) a, visit callback 0 (DEFAULT_ADDRESS_CELLS, DEFAULT_SIZE_CELLS) t a = exec_fold callback a ns.
Proof.
  destruct (proj1 visit_nodes t 0 (DEFAULT_ADDRESS_CELLS, DEFAULT_SIZE_CELLS)) as (ns&Hns). exists ns. split; [|done].
  unfold nodes_of. rewrite Hns. assert (Hf : ∀ acc, exec_fold (λ ns n, Done (ns ++ [n])) acc ns = Done (acc ++ ns)); [|apply Hf].
  clear Hns. induction ns as [|n ns IH]; intros acc; cbn [exec_fold mbind exec_bind]; [by rewrite app_nil_r|]. by rewrite IH, <- app_assoc.
Qed.

(** Reading a register never panics. *)
Lemma read_cells_total (data : list Z) (cells : nat) : ∃ r, read_cells data cells = Done r.
Proof.
  unfold read_cells. destruct (cells =? 0); [by eexists|]. destruct (_ || _) eqn:E; [by eexists|].
  apply orb_false_iff in E as [_ E]. apply Nat.ltb_ge in E.
  assert (Hl : ∀ idx value, Forall (λ i, i < cells) idx → ∃ v, read_cells_loop data idx value = Done v).
  { induction idx as [|i idx IH]; intros value Hi; cbn [read_cells_loop]; [by eexists|]. apply Forall_cons in Hi as [Hi Hidx].
    rewrite slice_Done by lia. cbn [mbind exec_bind]. unfold read_be32_slice. rewrite slice_Done; [cbn [mbind exec_bind]; by apply IH|].
    rewrite length_take, length_drop. lia. }
  destruct (Hl (seq 0 cells) 0%Z) as [v ->]; [|by eexists]. apply Forall_forall. intros i Hi%elem_of_seq. lia.
Qed.

Lemma first_reg_total (n : FdtNode) : ∃ r, first_reg n = Done r.
Proof.
  unfold first_reg. destruct (f_reg n) as [reg|]; [|by eexists]. destruct (_ || _) eqn:E; [by eexists|].
  apply orb_false_iff in E as [_ E]. apply Nat.ltb_ge in E.
  rewrite prefix_exec_Done by lia. cbn [mbind exec_bind].
  destruct (read_cells_total (take (Z.to_nat (f_address_cells n) * 4) reg) (Z.to_nat (f_address_cells n))) as [[b|] ->]; cbn [mbind exec_bind]; [|by eexists].
  destruct (_ =? 0); cbn [mbind exec_bind]; [by eexists|]. rewrite slice_Done by lia. cbn [mbind exec_bind].
  destruct (read_cells_total (take (Z.to_nat (f_size_cells n) * 4) (drop (Z.to_nat (f_address_cells n) * 4) reg)) (Z.to_nat (f_size_cells n))) as [r ->].
  by eexists.
Qed.
