(* ===== verification/FdtProps.v ===== *)
(** * What the device tree parser promises *)

From S2P Require Export Prelude.
From S2P Require Export Str.
From S2P Require Export Fdt.
From S2P Require Export FdtWalk.

Import Fdt.

(** ** Cells *)

(** A number in [n] cells of 32 bits, most significant first. *)
Definition cells_of (n : nat) (x : Z) : list Z :=
  match n with O => [] | S O => be32 x | _ => be32 (x / 2 ^ 32) ++ be32 (x `mod` 2 ^ 32) end.

Definition fits_cells (n : nat) (x : Z) : Prop := n ≤ 2 ∧ in_width (32 * Z.of_nat n) x.

Lemma length_cells (n : nat) (x : Z) : n ≤ 2 → length (cells_of n x) = n * 4.
Proof. intros Hn. destruct n as [|[|[|n]]]; [done|done|done|lia]. Qed.

Lemma read_be32_Done (x : Z) : in_width 32 x → read_be32_slice (be32 x) = Done x.
Proof. intros Hx. unfold read_be32_slice. rewrite slice_Done by (cbn; lia). cbn [mbind exec_bind]. rewrite drop_0, take_ge by (cbn; lia). by rewrite be32_bytes. Qed.

Lemma lor_shift (hi lo : Z) : in_width 32 lo → Z.lor (Z.shiftl hi 32) lo = (hi * 2 ^ 32 + lo)%Z.
Proof.
  intros [Hl Hh]. rewrite Z.shiftl_mul_pow2 by lia. rewrite <- Z.lxor_lor, <- Z.add_nocarry_lxor; try done;
    (apply Z.bits_inj'; intros i Hi; rewrite Z.land_spec, Z.bits_0, <- Z.shiftl_mul_pow2 by lia;
     destruct (Z.ltb_spec i 32); [by rewrite Z.shiftl_spec_low|];
     rewrite (Z.bits_above_log2 lo i), andb_false_r; [done|done|];
     destruct (decide (lo = 0%Z)) as [->|]; [cbn; lia|apply (Z.lt_le_trans _ 32); [apply Z.log2_lt_pow2; lia|done]]).
Qed.

Lemma read_cells_Done (n : nat) (x : Z) : fits_cells n x → read_cells (cells_of n x) n = Done (Some x).
Proof.
  intros [Hn Hx]. unfold in_width in Hx. destruct n as [|[|[|n]]]; [|  | |lia].
  - unfold read_cells. cbn [Nat.eqb]. change (2 ^ (32 * Z.of_nat 0))%Z with 1%Z in Hx. do 2 f_equal. lia.
  - change (2 ^ (32 * Z.of_nat 1))%Z with (2 ^ 32)%Z in Hx.
    unfold read_cells. change (1 =? 0) with false. change ((2 <? 1) || (length (cells_of 1 x) <? 1 * 4)) with false. cbv iota.
    cbn [cells_of seq read_cells_loop]. rewrite slice_Done by (cbn; lia). cbn [mbind exec_bind].
    change (drop (0 * 4) (be32 x)) with (be32 x). change (take 4 (be32 x)) with (be32 x). rewrite read_be32_Done by done. done.
  - change (2 ^ (32 * Z.of_nat 2))%Z with (2 ^ 64)%Z in Hx.
    unfold read_cells. change (2 =? 0) with false. change ((2 <? 2) || (length (cells_of 2 x) <? 2 * 4)) with false. cbv iota.
    cbn [cells_of seq read_cells_loop]. rewrite !slice_Done by (cbn; lia). cbn [mbind exec_bind].
    change (2 ^ 64)%Z with (2 ^ 32 * 2 ^ 32)%Z in Hx. set (hi := (x / 2 ^ 32)%Z). set (lo := (x `mod` 2 ^ 32)%Z).
    assert (Hlo : in_width 32 lo) by (apply Z.mod_pos_bound; done).
    assert (Hhi : in_width 32 hi) by (split; [apply Z.div_pos; lia|apply Z.div_lt_upper_bound; lia]).
    change (take 4 (drop (0 * 4) (be32 hi ++ be32 lo))) with (be32 hi). change (take 4 (drop (1 * 4) (be32 hi ++ be32 lo))) with (be32 lo).
    rewrite !read_be32_Done by done. cbn [mbind exec_bind]. do 2 f_equal.
    change (wrap 64 (Z.shiftl 0 32)) with 0%Z. rewrite Z.lor_0_l. unfold wrap.
    rewrite Z.mod_small by (rewrite Z.shiftl_mul_pow2 by lia; unfold in_width in Hhi; change (2 ^ 64)%Z with (2 ^ 32 * 2 ^ 32)%Z; lia).
    rewrite lor_shift by done. unfold hi, lo. rewrite Z.mul_comm. symmetry. apply Z.div_mod. done.
Qed.

Lemma first_reg_Done (n : FdtNode) (b s : Z) (rest : list Z) (ac := Z.to_nat (f_address_cells n)) (sc := Z.to_nat (f_size_cells n)) :
  f_reg n = Some (cells_of ac b ++ cells_of sc s ++ rest) → 0 < ac + sc → fits_cells ac b → fits_cells sc s →
  first_reg n = Done (Some (mk_reg b s)).
Proof.
  intros Hr Hpos Hb Hs. unfold first_reg. rewrite Hr. fold ac sc. pose proof (length_cells ac b (proj1 Hb)) as Hlb. pose proof (length_cells sc s (proj1 Hs)) as Hls.
  destruct (Nat.eqb_spec ((ac + sc) * 4) 0); [lia|]. rewrite !length_app, Hlb, Hls.
  destruct (Nat.ltb_spec (ac * 4 + (sc * 4 + length rest)) ((ac + sc) * 4)); [lia|]. cbn [orb].
  rewrite prefix_exec_Done by (rewrite length_app; lia). cbn [mbind exec_bind].
  rewrite take_app_le, take_ge by lia. rewrite read_cells_Done by done. cbn [mbind exec_bind].
  destruct (Nat.eqb_spec sc 0) as [H0|H0].
  - cbn [mbind exec_bind]. destruct Hs as [_ Hs]. rewrite H0 in Hs. unfold in_width in Hs. cbn in Hs. do 3 f_equal. lia.
  - rewrite slice_Done by (rewrite !length_app; lia). cbn [mbind exec_bind]. rewrite <- Hlb at 1. rewrite drop_app_length, take_app_le, take_ge by lia.
    rewrite read_cells_Done by done. done.
Qed.

(** ** Lists of strings *)

Definition strings_of (items : list str) : list Z := concat ((λ s, s ++ [0%Z]) <$> items).

Lemma nul_position_app (s rest : list Z) : 0%Z ∉ s → nul_position (s ++ 0%Z :: rest) = Some (length s).
Proof.
  induction s as [|b s IH]; intros Hs; cbn [app nul_position]; [done|]. apply not_elem_of_cons in Hs as [Hb Hs].
  rewrite (proj2 (Z.eqb_neq b 0)) by congruence. by rewrite IH.
Qed.

Lemma nul_strings_of (items : list str) : Forall (λ s, s ≠ [] ∧ 0%Z ∉ s) items → ∀ fuel, length items < fuel →
  nul_strings fuel (strings_of items) = items.
Proof.
  induction 1 as [|s items [Hne Hn] _ IH]; intros fuel Hf; (destruct fuel as [|fuel]; [cbn in Hf; lia|]); [done|].
  unfold strings_of. cbn [fmap list_fmap concat nul_strings]. rewrite <- app_assoc. cbn [app]. fold (strings_of items).
  rewrite bool_decide_false by (by destruct s). rewrite nul_position_app by done.
  rewrite take_app_length. rewrite bool_decide_true by done.
  destruct (Nat.ltb_spec (length s) (length (s ++ 0%Z :: strings_of items))) as [_|Hl]; [|rewrite length_app in Hl; cbn in Hl; lia].
  f_equal. assert (Hd : drop (S (length s)) (s ++ 0%Z :: strings_of items) = strings_of items).
  { rewrite drop_app_ge by lia. by replace (S (length s) - length s) with 1 by lia. }
  rewrite Hd. apply IH. cbn in Hf. lia.
Qed.

Lemma compatible_matches_spec (n : FdtNode) (items : list str) (s : str) : f_compatible n = Some (strings_of items) →
  Forall (λ s, s ≠ [] ∧ 0%Z ∉ s) items → compatible_matches n s = true ↔ s ∈ items.
Proof.
  intros Hc Hi. unfold compatible_matches. rewrite Hc, nul_strings_of; [|done|].
  - rewrite existsb_exists. setoid_rewrite <- list_elem_of_In. split; [intros (x&Hx&->%bool_decide_eq_true); done|].
    intros Hs. exists s. split; [done|]. by apply bool_decide_eq_true.
  - clear Hc. unfold strings_of. induction Hi as [|x items [Hx _] _ IH]; [cbn; lia|]. cbn [fmap list_fmap concat length].
    rewrite !length_app. destruct x; [done|]. cbn [length] in *. lia.
Qed.

(** ** A tree to walk *)

Definition demo_names : list string := ["compatible"; "reg"; "interrupts"; "#address-cells"; "#size-cells"; "device_type"; "stdout-path"]%string.
Definition demo_strings : list Z := strings_of (bytes <$> demo_names).

Fixpoint offset_in (names : list string) (s : str) (pos : Z) : Z :=
  match names with
  | [] => pos
  | n :: names => if bool_decide (bytes n = s) then pos else offset_in names s (pos + Z.of_nat (length (bytes n)) + 1)
  end.
Definition demo_off (s : str) : Z := offset_in demo_names s 0.

Definition demo_prop (name : string) (data : list Z) : prop_t := (bytes name, data).
Definition demo_uart : dtree := DNode (bytes "uart@10")
  [demo_prop "compatible" (strings_of [bytes "ns16550a"; bytes "uart"]); demo_prop "reg" (be32 16 ++ be32 256); demo_prop "interrupts" (be32 5)] DNil.
Definition demo_tree : dtree := DNode [] [demo_prop "#address-cells" (be32 1); demo_prop "#size-cells" (be32 1)] (DCons demo_uart DNil).

(** The header, the tree and the names, one after the other. *)
Definition blob_struct (t : dtree) : list Z := flatten demo_off t ++ be32 FDT_END.
Definition blob_total (t : dtree) : Z := 16 + Z.of_nat (length (blob_struct t)) + Z.of_nat (length demo_strings).
Definition blob_of (t : dtree) : list Z :=
  (be32 FDT_MAGIC ++ be32 (blob_total t) ++ be32 16 ++ be32 (16 + Z.of_nat (length (blob_struct t)))) ++ blob_struct t ++ demo_strings.
Definition demo_struct : list Z := blob_struct demo_tree.
Definition demo_total : Z := blob_total demo_tree.
Definition demo_blob : list Z := blob_of demo_tree.

#[export] Instance at_pos_dec (mem : list Z) (pos : nat) (l : list Z) : Decision (at_pos mem pos l).
Proof. unfold at_pos. apply _. Defined.
#[export] Instance in_width_dec (w x : Z) : Decision (in_width w x).
Proof. unfold in_width. apply _. Defined.
#[export] Instance prop_ok_dec (mem : list Z) (sb : nat) (off : str → Z) (p : prop_t) : Decision (prop_ok mem sb off p).
Proof. unfold prop_ok. apply _. Defined.

Lemma demo_blob_ok : blob demo_blob demo_total 16 (16 + Z.of_nat (length demo_struct)) demo_off demo_tree.
Proof.
  split.
  - apply (bool_decide_unpack _). vm_compute. exact I.
  - split_and!; apply (bool_decide_unpack _); vm_compute; exact I.
  - apply (bool_decide_unpack _). vm_compute. exact I.
  - vm_compute. congruence.
  - cbn [tree_ok forest_ok demo_tree demo_uart]. split_and!; try exact I; apply (bool_decide_unpack _); vm_compute; exact I.
Qed.

(** Names and registers of the nodes, in the order of the callbacks. *)
Definition demo_callback (acc : list (str * option FdtReg)) (n : FdtNode) : exec (list (str * option FdtReg)) :=
  r ← first_reg n; Done (acc ++ [(name n, r)]).

(** ** Properties *)

(** C36. Walking a blob that holds a tree calls back exactly the nodes of the
    first sixteen levels, every node after its children and with its own
    properties and the cell counts its parent sets for it; deeper nodes are
    left out.  The walk ends and reads no byte outside the blob. *)
Theorem fdt_walk_tree {A} (callback : A → FdtNode → exec A) (mem : list Z) (total struct strings : Z) (off : str → Z) (t : dtree) (a : A) :
  blob mem total struct strings off t → walk_nodes callback mem a = visit callback 0 (DEFAULT_ADDRESS_CELLS, DEFAULT_SIZE_CELLS) t a.
Proof. apply walk_blob. Qed.

Lemma fdt_walk_tree_witness : walk_nodes demo_callback demo_blob [] = Done [(bytes "uart@10", Some (mk_reg 16 256)); ([], None)].
Proof. rewrite (fdt_walk_tree demo_callback demo_blob _ _ _ demo_off demo_tree [] demo_blob_ok). vm_compute. reflexivity. Defined.

(** A base and a size written in the cells of a node are read back, one
    or two cells each, and a node matches exactly the strings of its
    [compatible] list. *)
Theorem fdt_node_roundtrip (n : FdtNode) (b s : Z) (rest : list Z) (items : list str) :
  let ac := Z.to_nat (f_address_cells n) in let sc := Z.to_nat (f_size_cells n) in
  f_reg n = Some (cells_of ac b ++ cells_of sc s ++ rest) → 0 < ac + sc → fits_cells ac b → fits_cells sc s →
  f_compatible n = Some (strings_of items) → Forall (λ i, i ≠ [] ∧ 0%Z ∉ i) items →
  first_reg n = Done (Some (mk_reg b s)) ∧ ∀ expected, compatible_matches n expected = true ↔ expected ∈ items.
Proof.
  intros ac sc Hr Hpos Hb Hs Hc Hi. split; [by apply (first_reg_Done n b s rest)|]. intros x. by apply compatible_matches_spec.
Qed.

Lemma fdt_node_roundtrip_witness : ∃ n, props_of (new_node [] 2 1)
    [demo_prop "reg" (be32 1 ++ be32 16 ++ be32 256); demo_prop "compatible" (strings_of [bytes "ns16550a"; bytes "uart"])] = Done n
  ∧ first_reg n = Done (Some (mk_reg (2 ^ 32 + 16) 256)) ∧ (compatible_matches n (bytes "uart") = true ↔ bytes "uart" ∈ [bytes "ns16550a"; bytes "uart"]).
Proof.
  eexists. split; [vm_compute; reflexivity|].
  match goal with |- first_reg ?n = _ ∧ _ =>
    destruct (fdt_node_roundtrip n (2 ^ 32 + 16) 256 [] [bytes "ns16550a"; bytes "uart"]) as [H1 H2] end.
  - reflexivity.
  - apply Nat.ltb_lt. reflexivity.
  - split; [apply Nat.leb_le; reflexivity|vm_compute; split; congruence].
  - split; [apply Nat.leb_le; reflexivity|vm_compute; split; congruence].
  - reflexivity.
  - repeat (apply Forall_cons; split; [split; [discriminate|apply (bool_decide_unpack _); vm_compute; exact I]|]). apply Forall_nil; exact I.
  - split; [exact H1|apply H2].
Defined.
