(* ===== verification/BootMap.v ===== *)
(** * Setting up memory at boot

    From the blob of the device tree to the page table in use:
    [discover_dtb_info] and [config] of
    [platform/riscv-generic/src/main.rs], [mm::init] of [kernel/src/mm/mod.rs]
    and [init_identity_map_impl] of [platform/riscv-generic/src/mmu.rs], run in
    the order of [boot] in [kernel/src/lib.rs].  The blob is kept apart from
    the frames: the model assumes that no frame handed out holds a part of it. *)

From S2P Require Export Prelude.
From S2P Require Export Str.
From S2P Require Export FrameAlloc.
From S2P Require Export Sv39.
From S2P Require Export IdentityMap.
From S2P Require Export MmuProps.
From S2P Require Export Fdt.
From S2P Require Export FdtWalk.

(** ** The platform *)

Definition FALLBACK_CPU_FREQ_HZ : Z := 10000000.
Definition FALLBACK_MEMORY_BASE : Z := 0x80000000.
Definition FALLBACK_MEMORY_SIZE : Z := 128 * 1024 * 1024.
Definition FALLBACK_EXTERNAL_IRQ_COUNT : Z := 64.

Record RiscvDtbInfo : Type := mk_info {
  cpu_freq_hz : Z;
  memory_base : Z;
  memory_size : Z;
  plic_base : Z;
  plic_irq_sources : Z;
  clic_base : Z;
  clic_irq_sources : Z;
  clint_base : Z;
}.

Definition info_fallback : RiscvDtbInfo :=
  mk_info FALLBACK_CPU_FREQ_HZ FALLBACK_MEMORY_BASE FALLBACK_MEMORY_SIZE 0 (Z.max (FALLBACK_EXTERNAL_IRQ_COUNT - 1) 0) 0 0 0.

Definition info_external_irq_count (info : RiscvDtbInfo) : Z :=
  saturating_add (Z.max (plic_irq_sources info) (clic_irq_sources info)) 1.

Definition matches_any (node : Fdt.FdtNode) (names : list string) : bool := existsb (λ s, Fdt.compatible_matches node (bytes s)) names.
Definition is_memory (node : Fdt.FdtNode) : bool := bool_decide (Fdt.device_type node = Some (bytes "memory")).
Definition or_else (o1 o2 : option Z) : option Z := match o1 with Some x => Some x | None => o2 end.

Definition info_memory (info : RiscvDtbInfo) (node : Fdt.FdtNode) : exec RiscvDtbInfo :=
  if is_memory node then
    reg ← Fdt.first_reg node;
    match reg with
    | Some reg => Done (mk_info (cpu_freq_hz info) (Fdt.base reg) (Fdt.size reg) (plic_base info) (plic_irq_sources info)
        (clic_base info) (clic_irq_sources info) (clint_base info))
    | None => Done info
    end
  else Done info.

Definition info_freq (info : RiscvDtbInfo) (node : Fdt.FdtNode) : RiscvDtbInfo :=
  match Fdt.f_timebase_frequency node with
  | Some freq => mk_info freq (memory_base info) (memory_size info) (plic_base info) (plic_irq_sources info) (clic_base info)
      (clic_irq_sources info) (clint_base info)
  | None => info
  end.

(** The base of the first register, where there is one. *)
Definition base_or (node : Fdt.FdtNode) (old : Z) : exec Z :=
  reg ← Fdt.first_reg node; Done (match reg with Some reg => Fdt.base reg | None => old end).

Definition info_plic (info : RiscvDtbInfo) (node : Fdt.FdtNode) : exec RiscvDtbInfo :=
  if matches_any node ["riscv,plic0"; "sifive,plic-1.0.0"]%string then
    base ← base_or node (plic_base info);
    let sources := match Fdt.prop_u32 node (bytes "riscv,ndev") with Some ndev => ndev | None => plic_irq_sources info end in
    Done (mk_info (cpu_freq_hz info) (memory_base info) (memory_size info) base sources (clic_base info) (clic_irq_sources info) (clint_base info))
  else Done info.

Definition info_clic (info : RiscvDtbInfo) (node : Fdt.FdtNode) : exec RiscvDtbInfo :=
  if matches_any node ["riscv,clic0"; "sifive,clic-1.0.0"]%string then
    base ← base_or node (clic_base info);
    let numints := or_else (or_else (Fdt.prop_u32 node (bytes "riscv,numints")) (Fdt.prop_u32 node (bytes "riscv,num-interrupts")))
                     (Fdt.prop_u32 node (bytes "riscv,ndev")) in
    let sources := match numints with Some n => n | None => clic_irq_sources info end in
    Done (mk_info (cpu_freq_hz info) (memory_base info) (memory_size info) (plic_base info) (plic_irq_sources info) base sources (clint_base info))
  else Done info.

Definition info_clint (info : RiscvDtbInfo) (node : Fdt.FdtNode) : exec RiscvDtbInfo :=
  if matches_any node ["riscv,clint0"; "sifive,clint0"]%string then
    base ← base_or node (clint_base info);
    Done (mk_info (cpu_freq_hz info) (memory_base info) (memory_size info) (plic_base info) (plic_irq_sources info) (clic_base info)
      (clic_irq_sources info) base)
  else Done info.

Definition info_callback (info : RiscvDtbInfo) (node : Fdt.FdtNode) : exec RiscvDtbInfo :=
  if negb (Fdt.is_available node) then Done info else
  info ← info_memory info node;
  let info := info_freq info node in
  info ← info_plic info node;
  info ← info_clic info node;
  info_clint info node.

(** [dtb]: the address of the blob, when it is not 0, and its bytes. *)
Definition discover_dtb_info (dtb : option (Z * list Z)) : exec RiscvDtbInfo :=
  match dtb with
  | None => Done info_fallback
  | Some (_, mem) => Fdt.walk_nodes info_callback mem info_fallback
  end.

Record PlatformConfig : Type := mk_config {
  c_cpu_freq_hz : Z;
  c_systick_hz : Z;
  c_external_irq_count : Z;
  c_memory_base : Z;
  c_memory_size : Z;
  c_kernel_end : Z;
}.

(** What the linker and the generated configuration give. *)
Record BootEnv : Type := mk_env {
  e_systick_hz : Z;
  e_kernel_end : Z;
  e_s_mode : bool;
  e_sv39_mmu : bool;
  e_sections : KernelSections;
  e_stack_guards : list Z;
}.

Definition config (env : BootEnv) (dtb : option (Z * list Z)) : exec PlatformConfig :=
  info ← discover_dtb_info dtb;
  Done (mk_config (cpu_freq_hz info) (e_systick_hz env) (info_external_irq_count info) (memory_base info) (memory_size info) (e_kernel_end env)).

(** ** Memory *)

Record Mm (A : Type) : Type := mk_mm {
  pages : pmem;
  frames : A;
  initialized : bool;
  translation_enabled : bool;
  satp : Z;
}.
Arguments mk_mm {A} _ _ _ _ _.
Arguments pages {A} _.
Arguments frames {A} _.
Arguments initialized {A} _.
Arguments translation_enabled {A} _.
Arguments satp {A} _.

Definition mm_boot : Mm FrameAllocator := mk_mm ∅ new false false 0.

(** [mm::init]; the heap is left out. *)
Definition mm_init (cfg : PlatformConfig) (mm : Mm FrameAllocator) : exec (Mm FrameAllocator) :=
  if initialized mm then Done mm else
  frame_start ← align_up (c_kernel_end cfg) PAGE_SIZE;
  let mem_end := saturating_add (c_memory_base cfg) (c_memory_size cfg) in
  let fa := if (frame_start <? mem_end)%Z then init frame_start (mem_end - frame_start) else frames mm in
  Done (mk_mm (pages mm) fa true (translation_enabled mm) (satp mm)).

Definition DTB_FALLBACK_MAP_SIZE : Z := 64 * 1024.

Section identity.
Context `{!RiscvPageTable} `{!PageSource A}.

(** The closures of the two walks. *)
Definition map_memory_node (env : BootEnv) (root : PhysAddr) (st : bool * pmem * A) (node : Fdt.FdtNode) : exec (bool * pmem * A) :=
  let '(mapped_memory, m, a) := st in
  if negb (Fdt.is_available node) then Done st else
  if is_memory node then
    reg ← Fdt.first_reg node;
    match reg with
    | Some reg =>
        '(any, m, a) ← map_memory_region (e_stack_guards env) (e_sections env) m a root (Fdt.base reg) (Fdt.size reg);
        Done (if any : bool then true else mapped_memory, m, a)
    | None => Done st
    end
  else Done st.

Definition map_device_node (root : PhysAddr) (st : pmem * A) (node : Fdt.FdtNode) : exec (pmem * A) :=
  let '(m, a) := st in
  if negb (Fdt.is_available node) || is_memory node then Done st else
  reg ← Fdt.first_reg node;
  match reg with
  | Some reg => '(_, m, a) ← map_identity_region m a root (Fdt.base reg) (Fdt.size reg) (Z.lor PERM_READ PERM_WRITE); Done (m, a)
  | None => Done st
  end.

(** The memory that the platform configuration names, when the device tree named none. *)
Definition map_fallback (env : BootEnv) (cfg : PlatformConfig) (root : PhysAddr) (mapped_memory : bool) (m : pmem) (a : A) : exec (pmem * A) :=
  if mapped_memory then Done (m, a) else
  '(_, m, a) ← map_memory_region (e_stack_guards env) (e_sections env) m a root (c_memory_base cfg) (c_memory_size cfg); Done (m, a).

Definition map_dtb (dtb : option (Z * list Z)) (root : PhysAddr) (m : pmem) (a : A) : exec (pmem * A) :=
  match dtb with
  | None => Done (m, a)
  | Some (addr, _) =>
      '(_, m, a) ← map_identity_region m a root (align_down addr PAGE_SIZE) DTB_FALLBACK_MAP_SIZE (Z.lor PERM_READ PERM_WRITE); Done (m, a)
  end.

Definition map_all (env : BootEnv) (cfg : PlatformConfig) (dtb : option (Z * list Z)) (root : PhysAddr) (m : pmem) (a : A) : exec (pmem * A) :=
  '(mapped_memory, m, a) ← (match dtb with
    | Some (_, mem) => Fdt.walk_nodes (map_memory_node env root) mem (false, m, a)
    | None => Done (false, m, a)
    end);
  '(m, a) ← map_fallback env cfg root mapped_memory m a;
  '(m, a) ← map_dtb dtb root m a;
  match dtb with
  | Some (_, mem) => Fdt.walk_nodes (map_device_node root) mem (m, a)
  | None => Done (m, a)
  end.

Definition init_identity_map_impl (env : BootEnv) (cfg : PlatformConfig) (dtb : option (Z * list Z)) (mm : Mm A) : exec (Mm A) :=
  if negb (e_s_mode env) then Done mm else
  '(root, a) ← ps_alloc (frames mm);
  match root with
  | None => Done (mk_mm (pages mm) a (initialized mm) (translation_enabled mm) (satp mm))
  | Some root =>
      '(m, a) ← map_all env cfg dtb root (<[root := zero_table rpt_entries]> (pages mm)) a;
      Done (mk_mm m a (initialized mm) true (rpt_satp_value root))
  end.
End identity.

(** The 64-bit build. *)
Definition init_identity_map (env : BootEnv) (cfg : PlatformConfig) (dtb : option (Z * list Z)) (mm : Mm FrameAllocator) : exec (Mm FrameAllocator) :=
  if e_sv39_mmu env then init_identity_map_impl (H := sv39_table) env cfg dtb mm else Done mm.

(** The steps of [boot] that concern memory. *)
Definition boot_memory (env : BootEnv) (dtb : option (Z * list Z)) (mm : Mm FrameAllocator) : exec (Mm FrameAllocator) :=
  cfg ← config env dtb;
  mm ← mm_init cfg mm;
  init_identity_map env cfg dtb mm.
