(* ===== verification/BootProps.v ===== *)
(** * The page table after boot *)

From S2P Require Export Prelude.
From S2P Require Export FrameAlloc.
From S2P Require Export IdentityMap.
From S2P Require Export MmuProps.
From S2P Require Export Fdt.
From S2P Require Export FdtWalk.
From S2P Require Export FdtProps.
From S2P Require Export BootMap.

(** ** What is to be mapped *)

(** The register of an available node, as the walks find it. *)
Definition node_reg (node : Fdt.FdtNode) : option Fdt.FdtReg :=
  if Fdt.is_available node then match Fdt.first_reg node with Done r => r | Stuck => None end else None.

Definition in_node (w : Z) (node : Fdt.FdtNode) : Prop :=
  match node_reg node with Some reg => in_region (Fdt.base reg) (Fdt.size reg) w | None => False end.

(** Memory of the device tree, memory of the configuration, and the rest: the
    window of the blob and the devices. *)
Definition memory_target (env : BootEnv) (ns : list Fdt.FdtNode) (w : Z) : Prop :=
  guarded (e_stack_guards env) w = false ∧ ∃ n, n ∈ ns ∧ is_memory n = true ∧ in_node w n.
Definition fallback_target (env : BootEnv) (cfg : PlatformConfig) (w : Z) : Prop :=
  guarded (e_stack_guards env) w = false ∧ in_region (c_memory_base cfg) (c_memory_size cfg) w.
Definition device_target (ns : list Fdt.FdtNode) (w : Z) : Prop := ∃ n, n ∈ ns ∧ is_memory n = false ∧ in_node w n.
Definition dtb_target (addr w : Z) : Prop := in_region (align_down addr PAGE_SIZE) DTB_FALLBACK_MAP_SIZE w.

(** The registers lie below [lim]. *)
Definition region_fits (lim base size : Z) : Prop := (0 <= base ∧ 0 <= size ∧ region_stop base size <= lim)%Z.
Definition node_fits (lim : Z) (node : Fdt.FdtNode) : Prop :=
  match node_reg node with Some reg => region_fits lim (Fdt.base reg) (Fdt.size reg) | None => True end.

#[export] Instance region_fits_dec (lim base size : Z) : Decision (region_fits lim base size).
Proof. unfold region_fits. apply _. Defined.
#[export] Instance node_fits_dec (lim : Z) (node : Fdt.FdtNode) : Decision (node_fits lim node).
Proof. unfold node_fits. destruct (node_reg node); apply _. Defined.

Section boot.
Context `{!RiscvPageTable} `{!PageSource A} (lim : Z) `{!RiscvPageTableLaws A lim} `{!PageSourceSpent A, !RiscvPageTableSpent A}.
Context (env : BootEnv) (root : PhysAddr) (sections : sections_ok (e_sections env)).

(** The addresses that translate are those of [T], each to itself, all of them
    as long as memory has not run out; [P] is a time when it had. *)
Record boot_inv (P : Prop) (T : Z → Prop) (m : pmem) (a : A) : Prop := {
  bi_wf : rl_wf m a root;
  bi_identity : identity_only lim root m;
  bi_sound : ∀ w, (0 <= w < lim)%Z → rpt_translate m root w = Done (Some w) → T w;
  bi_spent : P → ps_spent a;
  bi_full : ps_spent a ∨ ∀ w, (0 <= w < lim)%Z → T w → rpt_translate m root w = Done (Some w);
}.

Lemma boot_inv_ext (P : Prop) (T T' : Z → Prop) (m : pmem) (a : A) : (∀ w, (0 <= w < lim)%Z → T w ↔ T' w) → boot_inv P T m a → boot_inv P T' m a.
Proof.
  intros HT [Hwf Hid Hs Hsp Hf]. split; [done|done|intros w Hw Ht; by apply HT, Hs|done|]. destruct Hf as [|Hf]; [by left|right]. intros w Hw Ht. by apply Hf, HT.
Qed.

Lemma region_inv (perms_for : Z → exec (option Z)) (pf : Z → option Z) (use : bool) (P : Prop) (T : Z → Prop) (base size : Z) (m : pmem) (a : A) :
  (∀ v, perms_for v = Done (pf v)) → (∀ v p, pf v = Some p → some_perms p = true) → boot_inv P T m a → region_fits lim base size →
  ∃ b m' a', map_identity_region_with m a root base size use perms_for = Done (b, m', a')
    ∧ boot_inv P (λ w, T w ∨ in_region base size w ∧ pf (w / PAGE_SIZE * PAGE_SIZE)%Z ≠ None) m' a'
    ∧ (b = true → ∃ v, (0 <= v < lim)%Z ∧ in_region base size v ∧ pf (v / PAGE_SIZE * PAGE_SIZE)%Z ≠ None)
    ∧ (b = false → (∀ w, (0 <= w < lim)%Z → rpt_translate m' root w = rpt_translate m root w)).
Proof.
  intros Hpf Hps [Hwf Hid Hs HP Hf] (Hb&Hsz&Hst).
  destruct (region_mapped lim perms_for pf root base size use m a Hpf Hps Hwf Hid Hb Hsz Hst) as (b&m'&a'&Heq&Hwf'&Hid'&Hsp&[Hn Hk Hb1 Hb0]&Hfull).
  exists b, m', a'. split; [done|]. split; [|split; [|done]].
  2: { intros H1. destruct (Hb1 H1) as (v&[Hne Hv]&Hm&Hp). exists v. pose proof (region_bounds base size Hb ltac:(lia)).
       assert (Hvv : (v / PAGE_SIZE * PAGE_SIZE)%Z = v) by (unfold PAGE_SIZE in *; divmod).
       rewrite Hvv. split; [lia|]. split; [split; [done|lia]|done]. }
  split; [done|done| |by intros ?%HP%Hsp|].
  - intros w Hw Ht. destruct (Hn w Hw) as [Hsame|(Hr&Hp&_)]; [|by right]. left. apply Hs; [done|]. by rewrite <- Hsame.
  - destruct Hfull as [|Hfull]; [by left|]. destruct Hf as [Hf|Hf]; [left; by apply Hsp|right]. intros w Hw [Ht|[Hr Hp]]; [by apply Hk, Hf|by apply Hfull].
Qed.

Lemma memory_region_inv (P : Prop) (T : Z → Prop) (base size : Z) (m : pmem) (a : A) : boot_inv P T m a → region_fits lim base size →
  ∃ b m' a', map_memory_region (e_stack_guards env) (e_sections env) m a root base size = Done (b, m', a')
    ∧ boot_inv P (λ w, T w ∨ guarded (e_stack_guards env) w = false ∧ in_region base size w) m' a'
    ∧ (b = true → ∃ v, (0 <= v < lim)%Z ∧ guarded (e_stack_guards env) v = false ∧ in_region base size v)
    ∧ (b = false → (∀ w, (0 <= w < lim)%Z → rpt_translate m' root w = rpt_translate m root w)).
Proof.
  intros Hinv Hfit. destruct (memory_perms_spec (e_stack_guards env) (e_sections env) sections) as (Hpf&Hps&Hgd).
  destruct (region_inv _ _ true P T base size m a Hpf Hps Hinv Hfit) as (b&m'&a'&Heq&Hinv'&Hb1&Hb0). exists b, m', a'. split; [exact Heq|].
  split; [|split; [|done]].
  - eapply boot_inv_ext; [|exact Hinv']. intros w _. rewrite <- (Hgd w). tauto.
  - intros (v&Hv&Hr&Hp)%Hb1. exists v. split; [done|]. by rewrite <- (Hgd v).
Qed.

Lemma identity_region_inv (P : Prop) (T : Z → Prop) (base size : Z) (m : pmem) (a : A) : boot_inv P T m a → region_fits lim base size →
  ∃ b m' a', map_identity_region m a root base size (Z.lor PERM_READ PERM_WRITE) = Done (b, m', a')
    ∧ boot_inv P (λ w, T w ∨ in_region base size w) m' a'.
Proof.
  intros Hinv Hfit. destruct (region_inv (λ _, Done (Some (Z.lor PERM_READ PERM_WRITE))) (λ _, Some (Z.lor PERM_READ PERM_WRITE)) false P T base size m a)
    as (b&m'&a'&Heq&Hinv'&_); [done|by intros v p [= <-]|done|done|].
  exists b, m', a'. split; [exact Heq|]. eapply boot_inv_ext; [|exact Hinv']. intros w _. intuition done.
Qed.

Lemma memory_target_cons (n : Fdt.FdtNode) (ns : list Fdt.FdtNode) (w : Z) :
  memory_target env (n :: ns) w ↔ (guarded (e_stack_guards env) w = false ∧ is_memory n = true ∧ in_node w n) ∨ memory_target env ns w.
Proof.
  unfold memory_target. setoid_rewrite elem_of_cons. split.
  - intros (Hg&x&[->|Hx]&Hm&Hw); [by left|right]. split; [done|]. by exists x.
  - intros [(Hg&Hm&Hw)|(Hg&x&Hx&Hm&Hw)]; (split; [done|]); [exists n|exists x]; tauto.
Qed.

Lemma device_target_cons (n : Fdt.FdtNode) (ns : list Fdt.FdtNode) (w : Z) :
  device_target (n :: ns) w ↔ (is_memory n = false ∧ in_node w n) ∨ device_target ns w.
Proof.
  unfold device_target. setoid_rewrite elem_of_cons. split.
  - intros (x&[->|Hx]&Hm&Hw); [by left|right; by exists x].
  - intros [(Hm&Hw)|(x&Hx&Hm&Hw)]; [exists n|exists x]; tauto.
Qed.

(** What a node adds: nothing, or its register. *)
Lemma memory_node_inv (P : Prop) (T : Z → Prop) (n : Fdt.FdtNode) (mapped : bool) (m : pmem) (a : A) : boot_inv P T m a → node_fits lim n →
  ∃ b m' a', map_memory_node env root (mapped, m, a) n = Done (if b : bool then true else mapped, m', a')
    ∧ boot_inv P (λ w, T w ∨ guarded (e_stack_guards env) w = false ∧ is_memory n = true ∧ in_node w n) m' a'
    ∧ (b = true → ∃ v, (0 <= v < lim)%Z ∧ guarded (e_stack_guards env) v = false ∧ is_memory n = true ∧ in_node v n)
    ∧ (b = false → (∀ w, (0 <= w < lim)%Z → rpt_translate m' root w = rpt_translate m root w)).
Proof.
  intros Hinv Hfit. unfold map_memory_node, node_fits, in_node, node_reg in *.
  assert (Hskip : ∀ Q : Z → Prop, (∀ w, ¬ Q w) → ∃ b m' a', Done (mapped, m, a) = Done (if b : bool then true else mapped, m', a')
    ∧ boot_inv P (λ w, T w ∨ Q w) m' a' ∧ (b = true → ∃ v, (0 <= v < lim)%Z ∧ Q v)
    ∧ (b = false → (∀ w, (0 <= w < lim)%Z → rpt_translate m' root w = rpt_translate m root w))).
  { intros Q HQ. exists false, m, a. split_and!; [done| |done|done]. eapply boot_inv_ext; [|exact Hinv]. intros w _. specialize (HQ w). tauto. }
  destruct (Fdt.is_available n); cbn [negb]; [|apply Hskip; tauto]. destruct (is_memory n); [|apply Hskip; by intros w (_&?&_)].
  destruct (first_reg_total n) as (r&Hr). rewrite Hr in *. cbn [mbind exec_bind]. destruct r as [reg|]; [|apply Hskip; tauto].
  destruct (memory_region_inv P T (Fdt.base reg) (Fdt.size reg) m a Hinv Hfit) as (b&m'&a'&->&Hinv'&Hb1&Hb0). cbn [mbind exec_bind].
  exists b, m', a'. split_and!; [done| | |done].
  - eapply boot_inv_ext; [|exact Hinv']. intros w _. tauto.
  - intros (v&Hv)%Hb1. exists v. tauto.
Qed.

Lemma memory_nodes_inv (ns : list Fdt.FdtNode) : ∀ (P : Prop) (T : Z → Prop) (mapped : bool) (m : pmem) (a : A), boot_inv P T m a → Forall (node_fits lim) ns →
  ∃ mapped' m' a', exec_fold (map_memory_node env root) (mapped, m, a) ns = Done (mapped', m', a')
    ∧ boot_inv P (λ w, T w ∨ memory_target env ns w) m' a'
    ∧ (mapped' = true → mapped = true ∨ ∃ v, (0 <= v < lim)%Z ∧ memory_target env ns v)
    ∧ (mapped' = false → mapped = false ∧ (∀ w, (0 <= w < lim)%Z → rpt_translate m' root w = rpt_translate m root w)).
Proof.
  induction ns as [|n ns IH]; intros P T mapped m a Hinv Hfit; cbn [exec_fold].
  { exists mapped, m, a. split_and!; [done| |by left|done]. eapply boot_inv_ext; [|exact Hinv].
    intros w _. split; [by left|]. by intros [?|(_&n&?%not_elem_of_nil&_)]. }
  apply Forall_cons in Hfit as [Hn Hns]. destruct (memory_node_inv P T n mapped m a Hinv Hn) as (b&m1&a1&->&Hinv1&Hb1&Hb0). cbn [mbind exec_bind].
  destruct (IH P _ (if b then true else mapped) m1 a1 Hinv1 Hns) as (mapped'&m'&a'&->&Hinv'&Hm1&Hm0). exists mapped', m', a'. split_and!; [done| | |].
  - eapply boot_inv_ext; [|exact Hinv']. intros w _. rewrite memory_target_cons. tauto.
  - intros Hm. setoid_rewrite memory_target_cons. destruct (Hm1 Hm) as [Ho|(v&Hv&Ht)]; [|right; exists v; tauto].
    destruct b; [right; destruct (Hb1 eq_refl) as (v&Hv&Ht); exists v; tauto|by left].
  - intros Hm. destruct (Hm0 Hm) as [Ho Hsame]. destruct b; [done|]. split; [done|]. intros w Hw. by rewrite Hsame, Hb0 by done.
Qed.

Lemma device_nodes_inv (ns : list Fdt.FdtNode) : ∀ (P : Prop) (T : Z → Prop) (m : pmem) (a : A), boot_inv P T m a → Forall (node_fits lim) ns →
  ∃ m' a', exec_fold (map_device_node root) (m, a) ns = Done (m', a') ∧ boot_inv P (λ w, T w ∨ device_target ns w) m' a'.
Proof.
  induction ns as [|n ns IH]; intros P T m a Hinv Hfit; cbn [exec_fold].
  { exists m, a. split; [done|]. eapply boot_inv_ext; [|exact Hinv].
    intros w _. split; [by left|]. by intros [?|(n&?%not_elem_of_nil&_)]. }
  apply Forall_cons in Hfit as [Hn Hns].
  assert (Hstep : ∃ m1 a1, map_device_node root (m, a) n = Done (m1, a1) ∧ boot_inv P (λ w, T w ∨ is_memory n = false ∧ in_node w n) m1 a1).
  { unfold map_device_node, node_fits, in_node, node_reg in *.
    assert (Hskip : ∀ Q : Z → Prop, (∀ w, ¬ Q w) → ∃ m1 a1, Done (m, a) = Done (m1, a1) ∧ boot_inv P (λ w, T w ∨ Q w) m1 a1).
    { intros Q HQ. exists m, a. split; [done|]. eapply boot_inv_ext; [|exact Hinv]. intros w _. specialize (HQ w). tauto. }
    destruct (Fdt.is_available n); cbn [negb orb]; [|apply Hskip; tauto]. destruct (is_memory n); [apply Hskip; intros ? [? _]; done|].
    destruct (first_reg_total n) as (r&Hr). rewrite Hr in *. cbn [mbind exec_bind]. destruct r as [reg|]; [|apply Hskip; tauto].
    destruct (identity_region_inv P T (Fdt.base reg) (Fdt.size reg) m a Hinv Hn) as (b&m1&a1&->&Hinv'). cbn [mbind exec_bind].
    exists m1, a1. split; [done|]. eapply boot_inv_ext; [|exact Hinv']. intros w _. tauto. }
  destruct Hstep as (m1&a1&->&Hinv1). cbn [mbind exec_bind]. destruct (IH P _ m1 a1 Hinv1 Hns) as (m'&a'&->&Hinv'). exists m', a'. split; [done|].
  eapply boot_inv_ext; [|exact Hinv']. intros w _. rewrite device_target_cons. tauto.
Qed.

(** The whole map: [fallback] says whether the configuration's memory was used. *)
Definition boot_target (cfg : PlatformConfig) (dtb : option (Z * list Z)) (ns : list Fdt.FdtNode) (fallback : bool) (w : Z) : Prop :=
  memory_target env ns w ∨ fallback = true ∧ fallback_target env cfg w ∨ match dtb with Some (addr, _) => dtb_target addr w | None => False end
  ∨ device_target ns w.

Lemma fallback_inv (P : Prop) (T : Z → Prop) (cfg : PlatformConfig) (mapped : bool) (m : pmem) (a : A) :
  boot_inv P T m a → region_fits lim (c_memory_base cfg) (c_memory_size cfg) →
  ∃ m' a', map_fallback env cfg root mapped m a = Done (m', a') ∧ boot_inv P (λ w, T w ∨ negb mapped = true ∧ fallback_target env cfg w) m' a'.
Proof.
  intros Hinv Hfit. unfold map_fallback, fallback_target. destruct mapped.
  { exists m, a. split; [done|]. eapply boot_inv_ext; [|exact Hinv]. intros w _. split; [by left|]. by intros [?|[? _]]. }
  destruct (memory_region_inv P T _ _ m a Hinv Hfit) as (b&m'&a'&->&Hinv'&_). cbn [mbind exec_bind]. exists m', a'. split; [done|].
  eapply boot_inv_ext; [|exact Hinv']. intros w _. split; [intros [?|?]; [by left|by right]|intros [?|[_ ?]]; [by left|by right]].
Qed.

Lemma dtb_inv (P : Prop) (T : Z → Prop) (dtb : option (Z * list Z)) (m : pmem) (a : A) : boot_inv P T m a →
  match dtb with Some (addr, _) => region_fits lim (align_down addr PAGE_SIZE) DTB_FALLBACK_MAP_SIZE | None => True end →
  ∃ m' a', map_dtb dtb root m a = Done (m', a')
    ∧ boot_inv P (λ w, T w ∨ match dtb with Some (addr, _) => dtb_target addr w | None => False end) m' a'.
Proof.
  intros Hinv Hfit. unfold map_dtb. destruct dtb as [[addr mem]|].
  - destruct (identity_region_inv P T _ _ m a Hinv Hfit) as (b&m'&a'&->&Hinv'). cbn [mbind exec_bind]. by exists m', a'.
  - exists m, a. split; [done|]. eapply boot_inv_ext; [|exact Hinv]. intros w _. tauto.
Qed.

Lemma map_all_inv (cfg : PlatformConfig) (dtb : option (Z * list Z)) (ns : list Fdt.FdtNode) (m : pmem) (a : A) :
  boot_inv False (λ _, False) m a →
  match dtb with
  | Some (addr, mem) => region_fits lim (align_down addr PAGE_SIZE) DTB_FALLBACK_MAP_SIZE
      ∧ ∀ B (cb : B → Fdt.FdtNode → exec B) b, Fdt.walk_nodes cb mem b = exec_fold cb b ns
  | None => ns = []
  end →
  Forall (node_fits lim) ns → region_fits lim (c_memory_base cfg) (c_memory_size cfg) →
  ∃ fallback m' a', map_all env cfg dtb root m a = Done (m', a') ∧ boot_inv False (boot_target cfg dtb ns fallback) m' a'
    ∧ (fallback = false → ∃ v, (0 <= v < lim)%Z ∧ memory_target env ns v)
    ∧ (fallback = true → ps_spent a' ∨ ∀ v, (0 <= v < lim)%Z → ¬ memory_target env ns v).
Proof.
  intros Hinv Hdtb Hns Hcfg. destruct (memory_nodes_inv ns _ _ false m a Hinv Hns) as (mapped&m1&a1&Hm&[Hwf1 Hid1 Hs1 _ Hf1]&Hm1&Hm0).
  destruct (fallback_inv (ps_spent a1) (λ w, False ∨ memory_target env ns w) cfg mapped m1 a1) as (m2&a2&Hf&Hinv2); [by split|done|].
  destruct (dtb_inv _ _ dtb m2 a2 Hinv2) as (m3&a3&Hd&Hinv3); [by destruct dtb as [[addr mem]|]; [apply Hdtb|]|].
  destruct (device_nodes_inv ns _ _ m3 a3 Hinv3 Hns) as (m4&a4&Hv&[Hwf4 Hid4 Hs4 Hsp4 Hf4]).
  exists (negb mapped), m4, a4. split_and!.
  - unfold map_all. destruct dtb as [[addr mem]|].
    + destruct Hdtb as [_ Hw]. rewrite Hw, Hm. cbn [mbind exec_bind]. rewrite Hf. cbn [mbind exec_bind]. rewrite Hd. cbn [mbind exec_bind]. by rewrite Hw.
    + subst ns. cbn [exec_fold] in Hm, Hv. injection Hm as <- <- <-. cbn [mbind exec_bind]. rewrite Hf. cbn [mbind exec_bind]. rewrite Hd.
      cbn [mbind exec_bind]. exact Hv.
  - eapply (boot_inv_ext _ (λ w, (((False ∨ memory_target env ns w) ∨ negb mapped = true ∧ fallback_target env cfg w)
        ∨ match dtb with Some (addr, _) => dtb_target addr w | None => False end) ∨ device_target ns w)); [|by split].
    intros w _. unfold boot_target. tauto.
  - destruct mapped; [|done]. intros _. destruct (Hm1 eq_refl) as [?|(v&Hv'&Ht)]; [done|by exists v].
  - destruct mapped; [done|]. intros _. destruct Hf1 as [Hsp|Hfull]; [left; by apply Hsp4|right]. intros v Hr Ht.
    destruct (Hm0 eq_refl) as [_ Hsame]. apply (bi_sound _ _ _ _ Hinv v Hr). rewrite <- Hsame by done. apply Hfull; [done|by right].
Qed.
End boot.

(** ** The configuration *)

Lemma base_or_total (n : Fdt.FdtNode) (old : Z) : ∃ b, base_or n old = Done b.
Proof. unfold base_or. destruct (first_reg_total n) as [r ->]. by eexists. Qed.

(** The memory of the configuration is that of a node, or the fallback. *)
Lemma info_callback_fits (lim : Z) (info : RiscvDtbInfo) (n : Fdt.FdtNode) : node_fits lim n → region_fits lim (memory_base info) (memory_size info) →
  ∃ info', info_callback info n = Done info' ∧ region_fits lim (memory_base info') (memory_size info').
Proof.
  intros Hn Hfit. unfold info_callback. unfold node_fits, node_reg in Hn. destruct (Fdt.is_available n); cbn [negb]; [|by exists info].
  assert (Hm : ∃ info1, info_memory info n = Done info1 ∧ region_fits lim (memory_base info1) (memory_size info1)).
  { unfold info_memory. destruct (is_memory n); [|by exists info]. destruct (first_reg_total n) as [r Hr]. rewrite Hr in *. cbn [mbind exec_bind].
    destruct r as [reg|]; by eexists. }
  destruct Hm as (info1&->&H1). cbn [mbind exec_bind].
  assert (H2 : region_fits lim (memory_base (info_freq info1 n)) (memory_size (info_freq info1 n))).
  { unfold info_freq. by destruct (Fdt.f_timebase_frequency n). }
  revert H2. generalize (info_freq info1 n) as info2. intros info2 H2. unfold info_plic, info_clic, info_clint.
  repeat match goal with
  | |- context [base_or n ?old] => destruct (base_or_total n old) as [? ->]; cbn [mbind exec_bind]
  | |- context [if matches_any n ?l then _ else _] => destruct (matches_any n l); cbn [mbind exec_bind]
  end; by eexists.
Qed.

Lemma info_fold_fits (lim : Z) (ns : list Fdt.FdtNode) : Forall (node_fits lim) ns → ∀ info, region_fits lim (memory_base info) (memory_size info) →
  ∃ info', exec_fold info_callback info ns = Done info' ∧ region_fits lim (memory_base info') (memory_size info').
Proof.
  induction 1 as [|n ns Hn _ IH]; intros info Hfit; cbn [exec_fold]; [by exists info|].
  destruct (info_callback_fits lim info n Hn Hfit) as (info1&->&H1). cbn [mbind exec_bind]. by apply IH.
Qed.

(** A device tree at a place that can be mapped, with the nodes of a walk. *)
Definition dtb_ok (dtb : option (Z * list Z)) (ns : list Fdt.FdtNode) : Prop :=
  match dtb with
  | Some (addr, mem) => region_fits (2 ^ 39) (align_down addr PAGE_SIZE) DTB_FALLBACK_MAP_SIZE
      ∧ ∃ total struct strings off t, blob mem total struct strings off t ∧ nodes_of t = Done ns
  | None => ns = []
  end.

Lemma dtb_walk (addr : Z) (mem : list Z) (ns : list Fdt.FdtNode) : dtb_ok (Some (addr, mem)) ns →
  ∀ B (cb : B → Fdt.FdtNode → exec B) b, Fdt.walk_nodes cb mem b = exec_fold cb b ns.
Proof.
  intros (_&total&struct&strings&off&t&Hblob&Hns) B cb b. rewrite (walk_blob cb mem _ _ _ _ t b Hblob).
  destruct (visit_nodes_of t) as (ns'&Hns'&Hv). rewrite Hns in Hns'. injection Hns' as <-. apply Hv.
Qed.

Lemma config_fits (env : BootEnv) (dtb : option (Z * list Z)) (ns : list Fdt.FdtNode) : dtb_ok dtb ns → Forall (node_fits (2 ^ 39)) ns →
  ∃ cfg, config env dtb = Done cfg ∧ region_fits (2 ^ 39) (c_memory_base cfg) (c_memory_size cfg) ∧ c_kernel_end cfg = e_kernel_end env.
Proof.
  intros Hdtb Hns. assert (H0 : region_fits (2 ^ 39) (memory_base info_fallback) (memory_size info_fallback)) by (apply (bool_decide_unpack _); vm_compute; exact I).
  unfold config, discover_dtb_info. destruct dtb as [[addr mem]|].
  - rewrite (dtb_walk addr mem ns Hdtb). destruct (info_fold_fits _ ns Hns info_fallback H0) as (info&->&Hfit). cbn [mbind exec_bind]. by eexists.
  - cbn [mbind exec_bind]. by eexists.
Qed.

Lemma mm_init_frames (cfg : PlatformConfig) : (0 <= c_kernel_end cfg < 2 ^ 39)%Z → region_fits (2 ^ 39) (c_memory_base cfg) (c_memory_size cfg) →
  ∃ mm, mm_init cfg mm_boot = Done mm ∧ translation_enabled mm = false ∧ frames_inv (2 ^ 56) (frames mm) ∅.
Proof.
  change (2 ^ 39)%Z with 549755813888%Z. intros Hk (Hb&Hs&Hst). unfold mm_init. cbn [initialized mm_boot].
  rewrite align_up_spec by (unfold PAGE_SIZE; lia). cbn [mbind exec_bind]. eexists. split; [done|]. split; [done|]. cbn [frames pages mm_boot].
  set (start := ((c_kernel_end cfg + PAGE_SIZE - 1) / PAGE_SIZE * PAGE_SIZE)%Z).
  assert (Hend : (c_memory_base cfg + c_memory_size cfg <= 549755813888)%Z) by (unfold region_stop, PAGE_SIZE in Hst; divmod).
  assert (Hs0 : (0 <= start < 549755818000)%Z) by (unfold start, PAGE_SIZE; divmod).
  rewrite sat_add by (change (2 ^ 40)%Z with 1099511627776%Z; lia). destruct (Z.ltb_spec start (c_memory_base cfg + c_memory_size cfg)) as [Hlt|Hge].
  - set (size := (c_memory_base cfg + c_memory_size cfg - start)%Z). exists []. split; [apply owned_init; unfold in_width; lia|]. split; [set_solver|].
    rewrite init_total by (unfold in_width; lia). change (base_addr (init start size)) with (page_align start).
    rewrite page_align_mul by (unfold in_width; lia). rewrite Z2Nat.id by (apply Z.min_glb; [apply Z.div_pos; unfold PAGE_SIZE; lia|lia]).
    assert (Hq : (size / PAGE_SIZE * PAGE_SIZE <= size)%Z) by (unfold PAGE_SIZE; divmod).
    assert (Hr : (start / 4096 * 4096 <= start)%Z) by divmod.
    assert (Hm : (Z.min (size / PAGE_SIZE) (Z.of_nat MAX_PAGES) * PAGE_SIZE <= size / PAGE_SIZE * PAGE_SIZE)%Z) by (apply Z.mul_le_mono_nonneg_r; [unfold PAGE_SIZE; lia|apply Z.le_min_l]).
    change (2 ^ 56)%Z with 72057594037927936%Z. assert (Hsz : (size = c_memory_base cfg + c_memory_size cfg - start)%Z) by done. clearbody start size. lia.
  - exists []. split; [change new with (init 0 0); apply owned_init; unfold in_width; lia|]. split; [set_solver|vm_compute; congruence].
Qed.

(** ** Properties *)

(** A node of memory and a node of a device. *)
Definition demo_board : dtree := DNode [] [demo_prop "#address-cells" (be32 1); demo_prop "#size-cells" (be32 1)]
  (DCons (DNode (bytes "memory@80000000") [demo_prop "device_type" (bytes "memory" ++ [0%Z]); demo_prop "reg" (be32 2147483648 ++ be32 4194304)] DNil)
  (DCons demo_uart DNil)).
Definition demo_env : BootEnv := mk_env 100 2147520512 true true (mk_sections 2147483648 2147487744 2147487744 2147491840) [2147504128%Z].

Definition demo_dtb : option (Z * list Z) := Some (2147549184%Z, blob_of demo_board).

Lemma demo_board_ok : ∃ ns, dtb_ok demo_dtb ns ∧ Forall (node_fits (2 ^ 39)) ns ∧ ¬ device_target ns 2147504128.
Proof.
  assert (Hns : ∃ ns, nodes_of demo_board = Done ns ∧ bool_decide (Forall (node_fits (2 ^ 39)) ns) = true
    ∧ existsb (λ n, match node_reg n with Some reg => negb (is_memory n) && bool_decide (in_region (Fdt.base reg) (Fdt.size reg) 2147504128) | None => false end) ns = false).
  { eexists. split; [vm_compute; reflexivity|]. split; vm_compute; reflexivity. }
  destruct Hns as (ns&Hns&Hfit%bool_decide_eq_true&Hno). exists ns. split_and!; [|done|].
  - split; [apply (bool_decide_unpack _); vm_compute; exact I|].
    exists (blob_total demo_board), 16%Z, (16 + Z.of_nat (length (blob_struct demo_board)))%Z, demo_off, demo_board. split; [|done].
    split; [apply (bool_decide_unpack _); vm_compute; exact I| |apply (bool_decide_unpack _); vm_compute; exact I|vm_compute; congruence|].
    + split_and!; apply (bool_decide_unpack _); vm_compute; exact I.
    + cbn [tree_ok forest_ok demo_board demo_uart]. split_and!; try exact I; apply (bool_decide_unpack _); vm_compute; exact I.
  - intros (n&Hn&Hm&Hin). apply not_true_iff_false in Hno. apply Hno, existsb_exists. exists n. split; [by apply list_elem_of_In|].
    unfold in_node in Hin. destruct (node_reg n) as [reg|]; [|done]. rewrite Hm. by apply bool_decide_eq_true.
Qed.

(** Whether memory ran out. *)
Lemma spent_free (m : pmem) (fa : FrameAllocator) (root : PhysAddr) : table_wf m fa root → ps_spent fa → free_list fa = [].
Proof.
  intros (own&X&_&(owned&Ho&_)&_) Hs. pose proof (alloc_lowest 0 fa (ow_wf _ _ Ho)) as Hal. destruct (free_list fa) as [|i rest]; [done|].
  destruct Hal as (fa'&Heq&_). change (alloc 0 fa = Done (None, fa)) in Hs. by rewrite Hs in Heq.
Qed.

(** C35. Booting from a device tree, or without one, with Sv39 in supervisor
    mode, when the first register of every node ([node_fits]), the window of the
    blob and the end of the kernel lie below 2^39.  (The code does not check
    this: what a tree places above is mapped at the low addresses with the same
    39 bits, see [sv39_high_aliases] of MmuProps.v.)  The steps that set up the
    frames and the page table end.  Either no frame is left for the root and
    the MMU stays off, or the MMU runs on a tree of tables in which an address
    below 2^39 has no translation other than itself, and has one only if it is
    memory of the tree that is not on a stack guard page, memory of the
    platform configuration likewise, the window of the blob, or a device's.
    Unless the frames run out, all of these translate; the configuration's
    memory is used exactly when the tree has none to map. *)
Theorem boot_identity_map (env : BootEnv) (dtb : option (Z * list Z)) (ns : list Fdt.FdtNode) :
  dtb_ok dtb ns → Forall (node_fits (2 ^ 39)) ns → sections_ok (e_sections env) → (0 <= e_kernel_end env < 2 ^ 39)%Z →
  e_s_mode env = true → e_sv39_mmu env = true →
  ∃ cfg mm, config env dtb = Done cfg ∧ boot_memory env dtb mm_boot = Done mm
  ∧ (translation_enabled mm = false ∧ free_list (frames mm) = []
     ∨ ∃ root fallback, translation_enabled mm = true ∧ satp mm = Sv39.satp_value root ∧ table_wf (pages mm) (frames mm) root
       ∧ (∀ w, (0 <= w < 2 ^ 39)%Z → Sv39.translate (pages mm) root w = Done None
            ∨ Sv39.translate (pages mm) root w = Done (Some w) ∧ boot_target env cfg dtb ns fallback w)
       ∧ (free_list (frames mm) ≠ [] → (∀ w, (0 <= w < 2 ^ 39)%Z → boot_target env cfg dtb ns fallback w → Sv39.translate (pages mm) root w = Done (Some w))
            ∧ (fallback = true ↔ ¬ ∃ w, (0 <= w < 2 ^ 39)%Z ∧ memory_target env ns w))).
Proof.
  intros Hdtb Hns Hsec Hk Hsm Hmmu. destruct (config_fits env dtb ns Hdtb Hns) as (cfg&Hcfg&Hfit&Hke). exists cfg.
  destruct (mm_init_frames cfg) as (mm0&Hmm0&Hoff&Hfr); [by rewrite Hke|done|].
  unfold boot_memory, init_identity_map, init_identity_map_impl. rewrite Hcfg. cbn [mbind exec_bind]. rewrite Hmm0. cbn [mbind exec_bind].
  rewrite Hsm, Hmmu. cbn [negb]. pose proof (Hfr : ps_inv (mask := Sv39.PPN_MASK) (usize_bits := 64) (frames mm0) ∅) as Hready.
  destruct (ps_alloc_ok (frames mm0) ∅ Hready) as (r&fa1&Hal&_). rewrite Hal. cbn [mbind exec_bind].
  destruct r as [root|].
  - destruct (sv39_new (pages mm0) (frames mm0) root fa1 Hready Hal) as [Hwf Hnew].
    destruct (map_all_inv (H := sv39_table) (2 ^ 39) (RiscvPageTableLaws0 := sv39_laws) env root Hsec cfg dtb ns (<[root := zero_table PT_ENTRIES]> (pages mm0)) fa1) as (fallback&m&fa&Hmap&Hinv&Hf0&Hf1).
    { split; [exact Hwf|intros w Hw; left; by apply Hnew| |done|by right].
      intros w Hw Ht. change (rpt_translate (RiscvPageTable := sv39_table)) with Sv39.translate in *. by rewrite Hnew in Ht. }
    { destruct dtb as [[addr mem]|]; [|done]. split; [apply Hdtb|by apply (dtb_walk addr)]. }
    { done. }
    { done. }
    destruct Hinv as [Hwf' Hid Hs _ Hfull]. change (@rpt_entries sv39_table) with PT_ENTRIES. rewrite Hmap. cbn [mbind exec_bind]. eexists. split; [done|]. split; [done|]. right. exists root, fallback.
    cbn [translation_enabled satp pages frames]. split_and!; [done|done|exact Hwf'| |].
    + intros w Hw. destruct (Hid w Hw) as [|Ht]; [by left|right]. split; [exact Ht|by apply Hs].
    + intros Hfree. assert (Hns' : ¬ ps_spent fa) by (intros Hsp; by apply Hfree, (spent_free m fa root Hwf')).
      split; [destruct Hfull as [|Hfull]; [done|exact Hfull]|]. split; [intros Hft (w&Hw&Ht); destruct (Hf1 Hft) as [|Hn]; [done|by apply (Hn w)]|].
      intros Hn. destruct fallback; [done|]. destruct (Hf0 eq_refl) as (w&Hw). exfalso. apply Hn. by exists w.
  - eexists. split; [done|]. split; [done|]. left. split; [exact Hoff|]. cbn [frames].
    destruct Hfr as (owned&Ho&_). pose proof (alloc_none _ _ Hal) as ->. pose proof (alloc_lowest 0 (frames mm0) (ow_wf _ _ Ho)) as Hl.
    destruct (free_list (frames mm0)) as [|i rest]; [done|]. destruct Hl as (fa'&Heq&_). change (alloc 0 (frames mm0) = Done (None, frames mm0)) in Hal.
    by rewrite Hal in Heq.
Qed.

Lemma boot_identity_map_witness : ∃ mm, boot_memory demo_env demo_dtb mm_boot = Done mm
  ∧ (translation_enabled mm = true → ∃ root, satp mm = Sv39.satp_value root ∧ Sv39.translate (pages mm) root 2147504128 = Done None).
Proof.
  destruct demo_board_ok as (ns&Hdtb&Hns&Hno).
  destruct (boot_identity_map demo_env demo_dtb ns Hdtb Hns) as (cfg&mm&_&Hb&Hcase);
    [vm_compute; split_and!; congruence|vm_compute; split; congruence|reflexivity|reflexivity|].
  exists mm. split; [exact Hb|]. intros He. destruct Hcase as [[Hf _]|(root&fallback&_&Hsatp&_&Hmap&_)]; [congruence|].
  exists root. split; [exact Hsatp|]. destruct (Hmap 2147504128%Z) as [Hn|[_ Ht]]; [vm_compute; split; congruence|exact Hn|].
  exfalso. destruct Ht as [[Hg _]|[[_ [Hg _]]|[Hd|Hd]]]; [vm_compute in Hg; congruence|vm_compute in Hg; congruence| |exact (Hno Hd)].
  destruct Hd as [_ [Hd _]]. vm_compute in Hd. congruence.
Defined.
