(* ===== verification/Drivers.v ===== *)
(** * The driver registry and interrupts, [kernel/src/driver/manager.rs] and [irq/mod.rs]

    A driver is an element of [D], compared as its address is; what the trait
    [AnyDriver] promises of it is a class, and so is [DriverFactory].  [W] is
    the state of the devices, which interrupt handlers, initialisation and
    probing change.  The static tables and counters of the module are the
    record [Registry].  Every table has a lock of its own, which is released
    before a driver's code runs, so the operations are sequential steps. *)

From stdpp Require Export functions.
From S2P Require Export Prelude.
From S2P Require Export Str.
From S2P Require Export Fdt.

Inductive DriverErr : Type := InitFailed | Timeout | InvalidConfig | HardwareFault | DriverBusy | NotSupported | RegistryFull | DriverNotFound | Custom.

Record DeviceResource : Type := mk_resource { r_base_addr : Z; r_size : Z; r_irq : Z }.
#[export] Instance DeviceResource_eq_dec : EqDecision DeviceResource.
Proof. solve_decision. Defined.

(** [DeviceClass]: a set of kinds, one bit each. *)
Inductive DeviceKind : Type := BLOCK | CHAR | TERMINAL | GPIO | FRAMEBUFFER | NET | RNG.
#[export] Instance DeviceKind_eq_dec : EqDecision DeviceKind.
Proof. solve_decision. Defined.

Definition kinds : list DeviceKind := [BLOCK; CHAR; TERMINAL; GPIO; FRAMEBUFFER; NET; RNG].
Definition class_bit (k : DeviceKind) : Z :=
  match k with
  | BLOCK => Z.shiftl 1 0 | CHAR => Z.shiftl 1 1 | TERMINAL => Z.shiftl 1 2 | GPIO => Z.shiftl 1 3
  | FRAMEBUFFER => Z.shiftl 1 4 | NET => Z.shiftl 1 5 | RNG => Z.shiftl 1 6
  end.
Definition class_contains (class : Z) (k : DeviceKind) : bool := (Z.land class (class_bit k) =? class_bit k)%Z.

Record DriverIdentity : Type := mk_identity { i_class : str; i_base_addr : Z; i_irq : Z }.
#[export] Instance DriverIdentity_eq_dec : EqDecision DriverIdentity.
Proof. solve_decision. Defined.

(** What the registry uses of a driver. *)
Class AnyDriver (D W : Type) : Type := {
  drv_name : D → str;
  drv_resource : D → DeviceResource;
  as_device : D → DeviceKind → bool;
  drv_handle_irq : D → Z → W → bool * W;
  auto_init : D → W → (DriverErr + unit) * W;
}.

(** What it uses of a factory. *)
Class DriverFactory (D W F : Type) : Type := {
  fac_compatible : F → list str;
  probe_fdt : F → DeviceResource → Fdt.FdtNode → W → option D * W;
}.

Definition MAX_DRIVERS : nat := 32.
Definition MAX_FACTORIES : nat := 16.
Definition MAX_EXTERNAL_IRQS : nat := OPENION_EXTERNAL_IRQ_COUNT.

(** The atomic counters. *)
Inductive Counter : Type :=
  | PROBE_MATCHES | PROBE_SUCCESSES | PROBE_FAILURES
  | IRQ_DISPATCHES | IRQ_DRIVER_HITS | IRQ_DRIVER_MISSES
  | IRQ_FAST_HITS | IRQ_FAST_FALLBACKS | IRQ_FAST_CONFLICTS
  | REGISTERED_DRIVERS | REGISTERED_FACTORIES | REGISTERED_DEVICES (k : DeviceKind).
#[export] Instance Counter_eq_dec : EqDecision Counter.
Proof. solve_decision. Defined.

Section registry.
Context {D W F : Type} `{!EqDecision D} `{!EqDecision F} `{!AnyDriver D W} `{!DriverFactory D W F}.

Record Registry : Type := mk_registry {
  DRIVERS : list (option D);
  BUCKETS : DeviceKind → list (option D);
  FACTORIES : list (option F);
  IRQ_DRIVERS : list (option D);
  COUNTS : Counter → Z;
}.

Definition registry_boot : Registry :=
  mk_registry (replicate MAX_DRIVERS None) (λ _, replicate MAX_DRIVERS None) (replicate MAX_FACTORIES None)
    (replicate MAX_EXTERNAL_IRQS None) (λ _, 0%Z).

Definition set_drivers (r : Registry) (l : list (option D)) : Registry := mk_registry l (BUCKETS r) (FACTORIES r) (IRQ_DRIVERS r) (COUNTS r).
Definition set_bucket (r : Registry) (k : DeviceKind) (l : list (option D)) : Registry :=
  mk_registry (DRIVERS r) (<[k := l]> (BUCKETS r)) (FACTORIES r) (IRQ_DRIVERS r) (COUNTS r).
Definition set_factories (r : Registry) (l : list (option F)) : Registry := mk_registry (DRIVERS r) (BUCKETS r) l (IRQ_DRIVERS r) (COUNTS r).
Definition set_irq_drivers (r : Registry) (l : list (option D)) : Registry := mk_registry (DRIVERS r) (BUCKETS r) (FACTORIES r) l (COUNTS r).
Definition set_count (r : Registry) (c : Counter) (v : Z) : Registry :=
  mk_registry (DRIVERS r) (BUCKETS r) (FACTORIES r) (IRQ_DRIVERS r) (<[c := v]> (COUNTS r)).

Definition fetch_add (r : Registry) (c : Counter) : Registry := set_count r c (wrapping_add 32 (COUNTS r c) 1).
Definition fetch_sub (r : Registry) (c : Counter) : Registry := set_count r c (wrapping_sub 32 (COUNTS r c) 1).

(** ** Drivers *)

Definition identity (d : D) : DriverIdentity := mk_identity (drv_name d) (r_base_addr (drv_resource d)) (r_irq (drv_resource d)).

Definition device_class (d : D) : Z := foldl (λ class k, if as_device d k then Z.lor class (class_bit k) else class) 0%Z kinds.

Definition is_valid_driver_name (name : str) : bool :=
  if bool_decide (name = []) then false else
  forallb (λ b, in_range 97 122 b || in_range 48 57 b || (b =? 95)%Z) name.

(** ** Buckets *)

Definition bucket_has_space (l : list (option D)) : bool := existsb (λ slot, bool_decide (slot = None)) l.

Fixpoint push_slot {A} (l : list (option A)) (x : A) : list (option A) :=
  match l with [] => [] | None :: l => Some x :: l | Some y :: l => Some y :: push_slot l x end.
Definition push_bucket_slot (r : Registry) (k : DeviceKind) (d : D) : Registry := set_bucket r k (push_slot (BUCKETS r k) d).

Fixpoint remove_slot (l : list (option D)) (x : D) : list (option D) :=
  match l with
  | [] => []
  | Some y :: l => if bool_decide (y = x) then None :: l else Some y :: remove_slot l x
  | None :: l => None :: remove_slot l x
  end.
Definition remove_bucket_slot (r : Registry) (k : DeviceKind) (d : D) : Registry := set_bucket r k (remove_slot (BUCKETS r k) d).

Definition bump_registered_count (r : Registry) (c : Counter) (register : bool) : Registry := if register then fetch_add r c else fetch_sub r c.
Definition bump_registered_class_counts (r : Registry) (class : Z) (register : bool) : Registry :=
  foldl (λ r k, if class_contains class k then bump_registered_count r (REGISTERED_DEVICES k) register else r) r kinds.

(** ** The fast path of interrupts *)

Definition register_irq_fast_path (r : Registry) (d : D) : Registry :=
  let irq := Z.to_nat (r_irq (drv_resource d)) in
  if (irq =? 0) || (MAX_EXTERNAL_IRQS <=? irq) then r else
  match IRQ_DRIVERS r !! irq with
  | Some (Some existing) => if bool_decide (existing = d) then r else fetch_add r IRQ_FAST_CONFLICTS
  | _ => set_irq_drivers r (<[irq := Some d]> (IRQ_DRIVERS r))
  end.

Definition unregister_irq_fast_path (r : Registry) (d : D) : Registry :=
  let irq := Z.to_nat (r_irq (drv_resource d)) in
  if (irq =? 0) || (MAX_EXTERNAL_IRQS <=? irq) then r else
  match IRQ_DRIVERS r !! irq with
  | Some (Some existing) => if bool_decide (existing = d) then set_irq_drivers r (<[irq := None]> (IRQ_DRIVERS r)) else r
  | _ => r
  end.

Definition irq_fast_driver (r : Registry) (irq_id : Z) : option D :=
  let irq := Z.to_nat irq_id in
  if MAX_EXTERNAL_IRQS <=? irq then None else match IRQ_DRIVERS r !! irq with Some slot => slot | None => None end.

Definition irq_fast_slot_count (r : Registry) : nat := length (filter (λ slot, slot ≠ None) (IRQ_DRIVERS r)).

(** ** Statistics *)

Record DriverRegistryStats : Type := mk_stats {
  registered_drivers : Z;
  registered_factories : Z;
  registered_devices : DeviceKind → Z;
  probe_matches : Z;
  probe_successes : Z;
  probe_failures : Z;
  irq_dispatches : Z;
  irq_driver_hits : Z;
  irq_driver_misses : Z;
  irq_fast_slots : nat;
  irq_fast_hits : Z;
  irq_fast_fallbacks : Z;
  irq_fast_conflicts : Z;
}.

Definition registry_stats (r : Registry) : DriverRegistryStats :=
  mk_stats (COUNTS r REGISTERED_DRIVERS) (COUNTS r REGISTERED_FACTORIES) (λ k, COUNTS r (REGISTERED_DEVICES k))
    (COUNTS r PROBE_MATCHES) (COUNTS r PROBE_SUCCESSES) (COUNTS r PROBE_FAILURES)
    (COUNTS r IRQ_DISPATCHES) (COUNTS r IRQ_DRIVER_HITS) (COUNTS r IRQ_DRIVER_MISSES) (irq_fast_slot_count r)
    (COUNTS r IRQ_FAST_HITS) (COUNTS r IRQ_FAST_FALLBACKS) (COUNTS r IRQ_FAST_CONFLICTS).

(** ** Registration *)

Fixpoint first_empty {A} (l : list (option A)) : option nat :=
  match l with [] => None | None :: _ => Some 0 | Some _ :: l => S <$> first_empty l end.

Definition slot_is (i : DriverIdentity) (slot : option D) : bool :=
  match slot with Some e => bool_decide (identity e = i) | None => false end.

Definition register_driver (r : Registry) (d : D) : (DriverErr + unit) * Registry :=
  if negb (is_valid_driver_name (drv_name d)) then (inl InvalidConfig, r) else
  if existsb (slot_is (identity d)) (DRIVERS r) then (inl InvalidConfig, r) else
  match first_empty (DRIVERS r) with
  | None => (inl RegistryFull, r)
  | Some idx =>
      let class := device_class d in
      if existsb (λ k, class_contains class k && negb (bucket_has_space (BUCKETS r k))) kinds then (inl RegistryFull, r) else
      let r := set_drivers r (<[idx := Some d]> (DRIVERS r)) in
      let r := foldl (λ r k, if class_contains class k then push_bucket_slot r k d else r) r kinds in
      let r := fetch_add r REGISTERED_DRIVERS in
      let r := bump_registered_class_counts r class true in
      (inr (), register_irq_fast_path r d)
  end.

(** The end of both [unregister] functions: the slot of [d] is empty. *)
Definition unregistered (r : Registry) (d : D) : Registry :=
  let class := device_class d in
  let r := unregister_irq_fast_path r d in
  let r := foldl (λ r k, remove_bucket_slot r k d) r kinds in
  let r := fetch_sub r REGISTERED_DRIVERS in
  bump_registered_class_counts r class false.

(** The first slot that passes the test, and the table with that slot empty. *)
Fixpoint take_slot (test : D → bool) (l : list (option D)) : option (D * list (option D)) :=
  match l with
  | [] => None
  | Some d :: l => if test d then Some (d, None :: l) else '(x, l) ← take_slot test l; Some (x, Some d :: l)
  | None :: l => '(x, l) ← take_slot test l; Some (x, None :: l)
  end.

Definition unregister_where (r : Registry) (test : D → bool) : (DriverErr + unit) * Registry :=
  match take_slot test (DRIVERS r) with
  | Some (d, l) => (inr (), unregistered (set_drivers r l) d)
  | None => (inl DriverNotFound, r)
  end.
Definition unregister_driver (r : Registry) (name : str) : (DriverErr + unit) * Registry :=
  unregister_where r (λ d, bool_decide (drv_name d = name)).
Definition unregister_driver_by_identity (r : Registry) (i : DriverIdentity) : (DriverErr + unit) * Registry :=
  unregister_where r (λ d, bool_decide (identity d = i)).

Fixpoint find_slot (test : D → bool) (l : list (option D)) : option D :=
  match l with
  | [] => None
  | Some d :: l => if test d then Some d else find_slot test l
  | None :: l => find_slot test l
  end.
Definition get_driver (r : Registry) (name : str) : option D := find_slot (λ d, bool_decide (drv_name d = name)) (DRIVERS r).
Definition get_driver_by_identity (r : Registry) (i : DriverIdentity) : option D := find_slot (λ d, bool_decide (identity d = i)) (DRIVERS r).

(** What the callbacks of [for_each_driver] and [for_each_block_device] and its
    siblings are called with. *)
Definition for_each_driver (r : Registry) : list D := omap id (DRIVERS r).
Definition for_each_device (r : Registry) (k : DeviceKind) : list D := filter (λ d, as_device d k = true) (omap id (BUCKETS r k)).

Definition register_factory (r : Registry) (f : F) : (DriverErr + unit) * Registry :=
  if existsb (λ slot, bool_decide (slot = Some f)) (FACTORIES r) then (inl InvalidConfig, r) else
  match first_empty (FACTORIES r) with
  | Some idx => (inr (), set_factories r (<[idx := Some f]> (FACTORIES r)))
  | None => (inl RegistryFull, r)
  end.

(** ** Interrupts *)

Fixpoint ask_drivers (ds : list D) (irq_id : Z) (w : W) : bool * W :=
  match ds with
  | [] => (false, w)
  | d :: ds => let '(handled, w) := drv_handle_irq d irq_id w in if handled : bool then (true, w) else ask_drivers ds irq_id w
  end.

Definition dispatch_irq (r : Registry) (irq_id : Z) (w : W) : bool * Registry * W :=
  let r := fetch_add r IRQ_DISPATCHES in
  let slow (r : Registry) (w : W) :=
    let '(handled, w) := ask_drivers (omap id (DRIVERS r)) irq_id w in
    if handled : bool then (true, fetch_add r IRQ_DRIVER_HITS, w) else (false, fetch_add r IRQ_DRIVER_MISSES, w) in
  match irq_fast_driver r irq_id with
  | Some d =>
      let '(handled, w) := drv_handle_irq d irq_id w in
      if handled : bool then (true, fetch_add (fetch_add r IRQ_FAST_HITS) IRQ_DRIVER_HITS, w)
      else slow (fetch_add r IRQ_FAST_FALLBACKS) w
  | None => slow r w
  end.

(** ** Probing the device tree *)

(** A match of a factory with a node; the flag is [probed]. *)
Definition probe_match (r : Registry) (f : F) (resource : DeviceResource) (node : Fdt.FdtNode) (w : W) : bool * Registry * W :=
  let r := fetch_add r PROBE_MATCHES in
  let '(driver, w) := probe_fdt f resource node w in
  match driver with
  | None => (false, fetch_add r PROBE_FAILURES, w)
  | Some d =>
      let '(res, r) := register_driver r d in
      match res with
      | inl _ => (false, fetch_add r PROBE_FAILURES, w)
      | inr _ =>
          let '(res, w) := auto_init d w in
          match res with
          | inr _ => (true, fetch_add r PROBE_SUCCESSES, w)
          | inl _ => (false, fetch_add r PROBE_FAILURES, w)
          end
      end
  end.

Fixpoint probe_strings (cs : list str) (f : F) (resource : DeviceResource) (node : Fdt.FdtNode) (r : Registry) (w : W) : bool * Registry * W :=
  match cs with
  | [] => (false, r, w)
  | c :: cs =>
      if Fdt.compatible_matches node c then
        let '(probed, r, w) := probe_match r f resource node w in
        if probed : bool then (true, r, w) else probe_strings cs f resource node r w
      else probe_strings cs f resource node r w
  end.

Fixpoint probe_factories (fs : list (option F)) (resource : DeviceResource) (node : Fdt.FdtNode) (r : Registry) (w : W) : bool * Registry * W :=
  match fs with
  | [] => (false, r, w)
  | None :: fs => probe_factories fs resource node r w
  | Some f :: fs =>
      let '(probed, r, w) := probe_strings (fac_compatible f) f resource node r w in
      if probed : bool then (true, r, w) else probe_factories fs resource node r w
  end.

Definition probe_node (factories : list (option F)) (st : nat * Registry * W) (node : Fdt.FdtNode) : exec (nat * Registry * W) :=
  let '(count, r, w) := st in
  if negb (Fdt.is_available node) then Done (count, r, w) else
  reg ← Fdt.first_reg node;
  match reg with
  | None => Done (count, r, w)
  | Some reg =>
      irq ← Fdt.interrupt_or_zero node;
      let resource := mk_resource (Fdt.base reg) (Fdt.size reg) irq in
      let '(probed, r, w) := probe_factories factories resource node r w in
      Done (if probed : bool then S count else count, r, w)
  end.

(** [dtb] is the blob at the address of the platform, where there is one. *)
Definition auto_probe_fdt (r : Registry) (dtb : option (list Z)) (w : W) : exec (nat * Registry * W) :=
  match dtb with
  | None => Done (0, r, w)
  | Some mem => Fdt.walk_nodes (probe_node (FACTORIES r)) mem (0, r, w)
  end.
End registry.

#[global] Arguments Registry : clear implicits.
