(* ===== verification/Irq.v ===== *)
(** * External interrupts, [kernel/src/irq/mod.rs]

    The table of handlers in front of the driver registry.  A handler is an
    element of [H] that changes the devices; an interrupt without a handler
    goes to the drivers. *)

From S2P Require Export Prelude.
From S2P Require Export Drivers.

Section irq.
Context {D W F H : Type} `{!EqDecision D} `{!EqDecision F} `{!AnyDriver D W} `{!DriverFactory D W F} (run_handler : H → W → W).

Record IrqState : Type := mk_irq_state { irq_count : nat; irq_table : list (option H) }.

(** [IRQ_STATE] and the counters next to it. *)
Record IrqModule : Type := mk_irqs {
  IRQ_STATE : IrqState;
  HANDLED_IRQS : Z;
  UNHANDLED_IRQS : Z;
  OUT_OF_RANGE_IRQS : Z;
  LAST_IRQ : Z;
  LAST_UNHANDLED_IRQ : Z;
}.

Definition irqs_boot : IrqModule := mk_irqs (mk_irq_state 0 (replicate MAX_EXTERNAL_IRQS None)) 0 0 0 U32_MAX U32_MAX.

Definition irq_init (count : nat) (m : IrqModule) : IrqModule :=
  mk_irqs (mk_irq_state (Nat.min count MAX_EXTERNAL_IRQS) ((λ _, None) <$> irq_table (IRQ_STATE m))) 0 0 0 U32_MAX U32_MAX.

Definition set_irq_state (m : IrqModule) (s : IrqState) : IrqModule :=
  mk_irqs s (HANDLED_IRQS m) (UNHANDLED_IRQS m) (OUT_OF_RANGE_IRQS m) (LAST_IRQ m) (LAST_UNHANDLED_IRQ m).

Definition add_irq_handler (m : IrqModule) (irqn : nat) (handler : H) : exec (bool * IrqModule) :=
  let state := IRQ_STATE m in
  if irqn <? irq_count state then
    table ← put_exec (irq_table state) irqn (Some handler);
    Done (true, set_irq_state m (mk_irq_state (irq_count state) table))
  else Done (false, m).

Definition remove_irq_handler (m : IrqModule) (irqn : nat) : exec (bool * IrqModule) :=
  let state := IRQ_STATE m in
  if irqn <? irq_count state then
    table ← put_exec (irq_table state) irqn None;
    Done (true, set_irq_state m (mk_irq_state (irq_count state) table))
  else Done (false, m).

Definition handle_irq (m : IrqModule) (r : Registry D F) (irqn : nat) (w : W) : exec (bool * IrqModule * Registry D F * W) :=
  let n := wrap 32 (Z.of_nat irqn) in
  let m := mk_irqs (IRQ_STATE m) (HANDLED_IRQS m) (UNHANDLED_IRQS m) (OUT_OF_RANGE_IRQS m) n (LAST_UNHANDLED_IRQ m) in
  if irq_count (IRQ_STATE m) <=? irqn then
    Done (false, mk_irqs (IRQ_STATE m) (HANDLED_IRQS m) (UNHANDLED_IRQS m) (wrapping_add 32 (OUT_OF_RANGE_IRQS m) 1) n n, r, w)
  else
    handler ← get_exec (irq_table (IRQ_STATE m) !! irqn);
    let '(handled, r, w) := match handler with
                            | Some handler => (true, r, run_handler handler w)
                            | None => dispatch_irq r n w
                            end in
    if handled : bool then
      Done (true, mk_irqs (IRQ_STATE m) (wrapping_add 32 (HANDLED_IRQS m) 1) (UNHANDLED_IRQS m) (OUT_OF_RANGE_IRQS m) n (LAST_UNHANDLED_IRQ m), r, w)
    else
      Done (false, mk_irqs (IRQ_STATE m) (HANDLED_IRQS m) (wrapping_add 32 (UNHANDLED_IRQS m) 1) (OUT_OF_RANGE_IRQS m) n n, r, w).

Record IrqStats : Type := mk_irq_stats {
  configured_count : nat;
  registered_handlers : nat;
  handled : Z;
  unhandled : Z;
  out_of_range : Z;
  last_irq : Z;
  last_unhandled_irq : Z;
}.

Definition irq_stats (m : IrqModule) : IrqStats :=
  mk_irq_stats (irq_count (IRQ_STATE m)) (length (filter (λ h, bool_decide (is_Some h) = true) (take (irq_count (IRQ_STATE m)) (irq_table (IRQ_STATE m)))))
    (HANDLED_IRQS m) (UNHANDLED_IRQS m) (OUT_OF_RANGE_IRQS m) (LAST_IRQ m) (LAST_UNHANDLED_IRQ m).
End irq.

#[global] Arguments IrqModule : clear implicits.
#[global] Arguments IrqState : clear implicits.
