(* ===== verification/DriverInv.v ===== *)
(** * The invariant of the driver registry

    Every operation keeps [reg_wf]; the tables are compared by their occupied
    slots, up to their order. *)

From S2P Require Export Prelude.
From S2P Require Export Str.
From S2P Require Export Fdt.
From S2P Require Export FdtWalk.
From S2P Require Export FdtProps.
From S2P Require Export Drivers.

(** ** Tables of slots *)

(** The occupied slots, in order. *)
Definition live {A} (l : list (option A)) : list A := omap id l.

Lemma elem_of_live {A} (l : list (option A)) (x : A) : x ∈ live l ↔ Some x ∈ l.
Proof. unfold live. rewrite list_elem_of_omap. split; [intros (y&Hy&Hx); cbn in Hx; by subst|intros Hx; by exists (Some x)]. Qed.

Lemma first_empty_Some {A} (l : list (option A)) (i : nat) : first_empty l = Some i → l !! i = Some None.
Proof.
  revert i. induction l as [|[x|] l IH]; intros i; cbn [first_empty]; [done| |intros [= <-]; done].
  destruct (first_empty l) as [j|]; [|done]. intros [= <-]. by apply IH.
Qed.

Lemma first_empty_None {A} (l : list (option A)) : first_empty l = None → length (live l) = length l.
Proof.
  unfold live. induction l as [|[x|] l IH]; cbn [first_empty]; [done| |done]. destruct (first_empty l); [done|]. intros _. cbn. by rewrite IH.
Qed.

Lemma live_insert {A} (l : list (option A)) (i : nat) (x : A) : l !! i = Some None → live (<[i := Some x]> l) ≡ₚ x :: live l.
Proof.
  revert i. unfold live. induction l as [|y l IH]; intros i; [done|]. destruct i as [|i]; cbn; [by intros [= ->]|].
  intros Hi. destruct y as [y|]; cbn; rewrite (IH i Hi); [|done]. apply Permutation_swap.
Qed.

Lemma live_length {A} (l : list (option A)) : length (live l) ≤ length l.
Proof. unfold live. induction l as [|[x|] l IH]; cbn; lia. Qed.

Lemma push_slot_live {A} (l : list (option A)) (x : A) : length (live l) < length l → live (push_slot l x) ≡ₚ x :: live l.
Proof.
  unfold live. induction l as [|[y|] l IH]; cbn; [lia| |done]. intros Hl. rewrite IH by lia. apply Permutation_swap.
Qed.

Lemma push_slot_length {A} (l : list (option A)) (x : A) : length (push_slot l x) = length l.
Proof. induction l as [|[y|] l IH]; cbn; [done|by rewrite IH|done]. Qed.

Section slots.
Context {D : Type} `{!EqDecision D}.

Lemma remove_slot_length (l : list (option D)) (x : D) : length (remove_slot l x) = length l.
Proof. induction l as [|[y|] l IH]; cbn; [done| |by rewrite IH]. case_bool_decide; cbn; [done|by rewrite IH]. Qed.

Lemma remove_slot_live (l : list (option D)) (x : D) : x ∈ live l → live l ≡ₚ x :: live (remove_slot l x).
Proof.
  unfold live. induction l as [|[y|] l IH]; cbn; [by intros ?%not_elem_of_nil| |done]. intros [->|Hx]%elem_of_cons.
  - case_bool_decide; [done|congruence].
  - case_bool_decide as Hy; [by subst|]. cbn. rewrite (IH Hx) at 1. apply Permutation_swap.
Qed.

Lemma remove_slot_absent (l : list (option D)) (x : D) : x ∉ live l → remove_slot l x = l.
Proof.
  unfold live. induction l as [|[y|] l IH]; cbn; [done| |intros Hx; by rewrite IH]. intros [Hn Hx]%not_elem_of_cons.
  rewrite bool_decide_false by congruence. by rewrite IH.
Qed.

Lemma bucket_space (l : list (option D)) : bucket_has_space l = true ↔ length (live l) < length l.
Proof.
  unfold bucket_has_space, live. induction l as [|[y|] l IH]; cbn; [split; [done|lia]| |].
  - rewrite IH. lia.
  - split; [intros _|done]. pose proof (live_length l). unfold live in *. lia.
Qed.

Lemma take_slot_Some (test : D → bool) (l l' : list (option D)) (d : D) : take_slot test l = Some (d, l') →
  live l ≡ₚ d :: live l' ∧ test d = true ∧ length l' = length l.
Proof.
  revert l'. unfold live. induction l as [|[y|] l IH]; intros l'; cbn [take_slot]; [done| |].
  - destruct (test y) eqn:Ht; [intros [= -> <-]; by split_and!|]. destruct (take_slot test l) as [[x l1]|]; [|done]. cbn. intros [= -> <-].
    destruct (IH l1 eq_refl) as (Hp&Hx&Hl). cbn. split_and!; [rewrite Hp; apply Permutation_swap|done|by rewrite Hl].
  - destruct (take_slot test l) as [[x l1]|]; [|done]. cbn. intros [= -> <-]. destruct (IH l1 eq_refl) as (Hp&Hx&Hl). cbn.
    split_and!; [done|done|by rewrite Hl].
Qed.

Lemma take_slot_None (test : D → bool) (l : list (option D)) : take_slot test l = None ↔ ∀ d, d ∈ live l → test d = false.
Proof.
  unfold live. induction l as [|[y|] l IH]; cbn [take_slot omap list_omap id]; [split; [intros _ d ?%not_elem_of_nil; done|done]| |].
  - destruct (test y) eqn:Ht.
    + split; [done|]. intros Hd. specialize (Hd y ltac:(by left)). congruence.
    + destruct (take_slot test l) as [[x l1]|]; cbn.
      * split; [done|]. intros Hd. assert (Hx : Some (x, l1) = None) by (apply IH; intros d Hd'; apply Hd; by right). done.
      * split; [|done]. intros _ d [->|Hd]%elem_of_cons; [done|]. by apply (proj1 IH eq_refl).
  - destruct (take_slot test l) as [[x l1]|]; cbn; [split; [done|]; intros Hd; assert (Hx : Some (x, l1) = None) by (by apply IH); done|]. by rewrite <- IH.
Qed.
End slots.

(** ** The registry *)

Section registry.
Context {D W F : Type} `{!EqDecision D} `{!EqDecision F} `{!AnyDriver D W} `{!DriverFactory D W F}.

Abbreviation reg := (Registry D F).

Lemma class_contains_spec (d : D) (k : DeviceKind) : class_contains (device_class d) k = as_device d k.
Proof.
  unfold device_class. cbn [foldl kinds].
  destruct k; destruct (as_device d BLOCK), (as_device d CHAR), (as_device d TERMINAL), (as_device d GPIO), (as_device d FRAMEBUFFER),
    (as_device d NET), (as_device d RNG); vm_compute; reflexivity.
Qed.

Lemma kinds_all (k : DeviceKind) : k ∈ kinds.
Proof. destruct k; apply (bool_decide_unpack _); vm_compute; exact I. Qed.

Lemma kinds_NoDup : NoDup kinds.
Proof. apply (bool_decide_unpack _). vm_compute. exact I. Qed.

Definition same_tables (r r' : reg) : Prop := DRIVERS r' = DRIVERS r ∧ FACTORIES r' = FACTORIES r ∧ IRQ_DRIVERS r' = IRQ_DRIVERS r.

(** A step for a kind changes its bucket and its counter only. *)
Definition step_for (step : reg → DeviceKind → reg) (gb : DeviceKind → list (option D) → list (option D)) (gc : DeviceKind → Z → Z) : Prop :=
  ∀ r k, same_tables r (step r k) ∧ (∀ k', BUCKETS (step r k) k' = if decide (k' = k) then gb k (BUCKETS r k) else BUCKETS r k')
    ∧ ∀ c, COUNTS (step r k) c = if decide (c = REGISTERED_DEVICES k) then gc k (COUNTS r c) else COUNTS r c.

Lemma fold_kinds step gb gc : step_for step gb gc → ∀ ks r, NoDup ks →
  same_tables r (foldl step r ks) ∧ (∀ k, BUCKETS (foldl step r ks) k = if decide (k ∈ ks) then gb k (BUCKETS r k) else BUCKETS r k)
  ∧ (∀ k, COUNTS (foldl step r ks) (REGISTERED_DEVICES k)
          = if decide (k ∈ ks) then gc k (COUNTS r (REGISTERED_DEVICES k)) else COUNTS r (REGISTERED_DEVICES k))
  ∧ ∀ c, (∀ k, c ≠ REGISTERED_DEVICES k) → COUNTS (foldl step r ks) c = COUNTS r c.
Proof.
  intros Hs. induction ks as [|k ks IH]; intros r Hnd; cbn [foldl].
  { split; [done|]. split; [intros k; by rewrite decide_False by apply not_elem_of_nil|].
    split; [intros k; by rewrite decide_False by apply not_elem_of_nil|done]. }
  apply NoDup_cons in Hnd as [Hk Hnd]. destruct (IH (step r k) Hnd) as ((Hd&Hf&Hi)&Hb&Hc&Ho), (Hs r k) as ((Hd1&Hf1&Hi1)&Hb1&Hc1).
  split; [split_and!; congruence|]. split; [|split].
  - intros k'. rewrite Hb. destruct (decide (k' = k)) as [->|Hne].
    + rewrite (decide_False (P := k ∈ ks)) by done. rewrite Hb1, (decide_True (P := k = k)) by done. by rewrite (decide_True (P := k ∈ k :: ks)) by by left.
    + rewrite Hb1, (decide_False (P := k' = k)) by done. destruct (decide (k' ∈ ks)); [by rewrite (decide_True (P := k' ∈ k :: ks)) by by right|].
      by rewrite (decide_False (P := k' ∈ k :: ks)) by (by apply not_elem_of_cons).
  - intros k'. rewrite Hc. destruct (decide (k' = k)) as [->|Hne].
    + rewrite (decide_False (P := k ∈ ks)) by done. rewrite Hc1, (decide_True (P := REGISTERED_DEVICES k = REGISTERED_DEVICES k)) by done.
      by rewrite (decide_True (P := k ∈ k :: ks)) by by left.
    + rewrite Hc1, (decide_False (P := REGISTERED_DEVICES k' = REGISTERED_DEVICES k)) by congruence. destruct (decide (k' ∈ ks)); [by rewrite (decide_True (P := k' ∈ k :: ks)) by by right|].
      by rewrite (decide_False (P := k' ∈ k :: ks)) by (by apply not_elem_of_cons).
  - intros c Hne. rewrite Ho by done. rewrite Hc1. by rewrite decide_False by done.
Qed.

Lemma fold_all_kinds step gb gc (r : reg) : step_for step gb gc →
  same_tables r (foldl step r kinds) ∧ (∀ k, BUCKETS (foldl step r kinds) k = gb k (BUCKETS r k))
  ∧ (∀ k, COUNTS (foldl step r kinds) (REGISTERED_DEVICES k) = gc k (COUNTS r (REGISTERED_DEVICES k)))
  ∧ ∀ c, (∀ k, c ≠ REGISTERED_DEVICES k) → COUNTS (foldl step r kinds) c = COUNTS r c.
Proof.
  intros Hs. destruct (fold_kinds step gb gc Hs kinds r kinds_NoDup) as (Ht&Hb&Hc&Ho). split; [done|]. split; [|split; [|done]].
  - intros k. by rewrite Hb, decide_True by apply kinds_all.
  - intros k. by rewrite Hc, decide_True by apply kinds_all.
Qed.

Lemma set_bucket_at (r : reg) (k k' : DeviceKind) (l : list (option D)) :
  BUCKETS (set_bucket r k l) k' = if decide (k' = k) then l else BUCKETS r k'.
Proof. cbn. case_decide as Hk; [subst; apply fn_lookup_insert|by apply fn_lookup_insert_ne]. Qed.

Lemma set_count_at (r : reg) (c c' : Counter) (v : Z) : COUNTS (set_count r c v) c' = if decide (c' = c) then v else COUNTS r c'.
Proof. cbn. case_decide as Hk; [subst; apply fn_lookup_insert|by apply fn_lookup_insert_ne]. Qed.

Lemma push_step (d : D) : step_for (λ r k, if class_contains (device_class d) k then push_bucket_slot r k d else r)
  (λ k l, if as_device d k then push_slot l d else l) (λ _ z, z).
Proof.
  intros r k. rewrite class_contains_spec. destruct (as_device d k); (split; [done|]); split.
  - intros k'. apply set_bucket_at.
  - intros c. by case_decide.
  - intros k'. case_decide; by subst.
  - intros c. by case_decide.
Qed.

Lemma remove_step (d : D) : step_for (λ r k, remove_bucket_slot r k d) (λ _ l, remove_slot l d) (λ _ z, z).
Proof. intros r k. split; [done|]. split; [intros k'; apply set_bucket_at|]. intros c. by case_decide. Qed.

Lemma bump_step (d : D) (b : bool) : step_for (λ r k, if class_contains (device_class d) k then bump_registered_count r (REGISTERED_DEVICES k) b else r)
  (λ _ l, l) (λ k z, if as_device d k then (if b then wrapping_add 32 z 1 else wrapping_sub 32 z 1) else z).
Proof.
  intros r k. rewrite class_contains_spec. destruct (as_device d k); (split; [by destruct b|]); split.
  - intros k'. by destruct b; case_decide; subst.
  - intros c. destruct b; cbn [bump_registered_count]; unfold fetch_add, fetch_sub; rewrite set_count_at; case_decide; by subst.
  - intros k'. case_decide; by subst.
  - intros c. by case_decide.
Qed.

Record reg_wf (r : reg) : Prop := {
  rw_drivers : length (DRIVERS r) = MAX_DRIVERS;
  rw_buckets : ∀ k, length (BUCKETS r k) = MAX_DRIVERS;
  rw_factories : length (FACTORIES r) = MAX_FACTORIES;
  rw_irqs : length (IRQ_DRIVERS r) = MAX_EXTERNAL_IRQS;
  (** every driver has an identity of its own and a valid name; *)
  rw_distinct : NoDup (identity <$> live (DRIVERS r));
  rw_names : ∀ d, d ∈ live (DRIVERS r) → is_valid_driver_name (drv_name d) = true;
  (** a bucket holds the drivers of its kind, each once; *)
  rw_kind : ∀ k, live (BUCKETS r k) ≡ₚ filter (λ d, as_device d k = true) (live (DRIVERS r));
  (** an entry of the fast path is a registered driver with that interrupt; *)
  rw_fast : ∀ i d, IRQ_DRIVERS r !! i = Some (Some d) → d ∈ live (DRIVERS r) ∧ Z.to_nat (r_irq (drv_resource d)) = i ∧ i ≠ 0;
  (** the counters count. *)
  rw_count : COUNTS r REGISTERED_DRIVERS = Z.of_nat (length (live (DRIVERS r)));
  rw_counts : ∀ k, COUNTS r (REGISTERED_DEVICES k) = Z.of_nat (length (live (BUCKETS r k)));
}.

Lemma live_replicate {A} (n : nat) : live (replicate n (None : option A)) = [].
Proof. unfold live. by induction n. Qed.

Lemma boot_reg_wf : reg_wf registry_boot.
Proof.
  split; cbn [registry_boot DRIVERS BUCKETS FACTORIES IRQ_DRIVERS COUNTS]; intros; rewrite ?length_replicate, ?live_replicate; try done.
  - constructor.
  - by rewrite live_replicate in *; apply not_elem_of_nil in H.
  - apply list_elem_of_lookup_2, elem_of_replicate in H. by destruct H.
Qed.

Lemma count_small (n : nat) : n ≤ MAX_DRIVERS → wrapping_add 32 (Z.of_nat n) 1 = Z.of_nat (S n) ∧ wrapping_sub 32 (Z.of_nat (S n)) 1 = Z.of_nat n.
Proof.
  unfold MAX_DRIVERS. intros Hn. unfold wrapping_add, wrapping_sub.
  rewrite !wrap_small by (unfold in_width; change (2 ^ 32)%Z with 4294967296%Z; lia). lia.
Qed.

(** ** Registering *)

Lemma slot_is_spec (i : DriverIdentity) (l : list (option D)) : existsb (slot_is i) l = true ↔ i ∈ identity <$> live l.
Proof.
  rewrite existsb_exists, list_elem_of_fmap. split.
  - intros ([e|]&Hin&He); [|done]. cbn in He. apply bool_decide_eq_true in He. exists e. split; [done|]. by apply elem_of_live, list_elem_of_In.
  - intros (e&->&Hin%elem_of_live). exists (Some e). split; [by apply list_elem_of_In|]. cbn. by apply bool_decide_eq_true.
Qed.

(** Where the driver table has room, so has every bucket. *)
Lemma buckets_space (r : reg) : reg_wf r → length (live (DRIVERS r)) < MAX_DRIVERS → ∀ k, length (live (BUCKETS r k)) < length (BUCKETS r k).
Proof. intros Hwf Hl k. rewrite (rw_buckets _ Hwf), (rw_kind _ Hwf). eapply Nat.le_lt_trans; [apply length_filter|done]. Qed.

Lemma bump_wf_kind (r : reg) (d : D) (k : DeviceKind) : reg_wf r → length (live (DRIVERS r)) < MAX_DRIVERS →
  live (if as_device d k then push_slot (BUCKETS r k) d else BUCKETS r k) ≡ₚ filter (λ d, as_device d k = true) (d :: live (DRIVERS r)).
Proof.
  intros Hwf Hl. destruct (as_device d k) eqn:Hk.
  - rewrite filter_cons_True by done. rewrite push_slot_live by (by apply buckets_space). by rewrite (rw_kind _ Hwf).
  - rewrite filter_cons_False by congruence. apply (rw_kind _ Hwf).
Qed.

Lemma fast_path_wf (r : reg) (d : D) : reg_wf r → d ∈ live (DRIVERS r) →
  reg_wf (register_irq_fast_path r d) ∧ DRIVERS (register_irq_fast_path r d) = DRIVERS r.
Proof.
  intros Hwf Hd. unfold register_irq_fast_path. set (irq := Z.to_nat _). destruct (Nat.eqb_spec irq 0); [done|].
  destruct (Nat.leb_spec MAX_EXTERNAL_IRQS irq); [done|]. cbn [orb].
  assert (Hset : reg_wf (set_irq_drivers r (<[irq := Some d]> (IRQ_DRIVERS r)))).
  { destruct Hwf as [H1 H2 H3 H4 H5 H6 H7 H8 H9 H10]. split; try done; [by cbn; rewrite length_insert|].
    cbn. intros i x. rewrite list_lookup_insert_Some. intros [(<-&[= <-]&_)|[_ Hi]]; [by split_and!|by apply H8]. }
  destruct (IRQ_DRIVERS r !! irq) as [[e|]|]; [|done|done]. case_bool_decide; [done|]. split; [|done].
  destruct Hwf as [H1 H2 H3 H4 H5 H6 H7 H8 H9 H10]. split; try done; intros; unfold fetch_add; rewrite set_count_at; by rewrite decide_False by done.
Qed.

Lemma register_driver_spec (r : reg) (d : D) : reg_wf r → ∃ res r', register_driver r d = (res, r') ∧ reg_wf r' ∧
  match res with
  | inr _ => live (DRIVERS r') ≡ₚ d :: live (DRIVERS r) ∧ FACTORIES r' = FACTORIES r
  | inl e => r' = r ∧ (e = InvalidConfig ∧ (is_valid_driver_name (drv_name d) = false ∨ identity d ∈ identity <$> live (DRIVERS r))
                       ∨ e = RegistryFull ∧ length (live (DRIVERS r)) = MAX_DRIVERS)
  end.
Proof.
  intros Hwf. unfold register_driver. destruct (is_valid_driver_name (drv_name d)) eqn:Hname; cbn [negb].
  2: { eexists _, _. split; [done|]. split; [done|]. split; [done|]. left. split; [done|by left]. }
  destruct (existsb (slot_is (identity d)) (DRIVERS r)) eqn:Hid.
  { eexists _, _. split; [done|]. split; [done|]. split; [done|]. left. split; [done|]. right. by apply slot_is_spec. }
  destruct (first_empty (DRIVERS r)) as [idx|] eqn:Hidx.
  2: { eexists _, _. split; [done|]. split; [done|]. split; [done|]. right. split; [done|]. by rewrite (first_empty_None _ Hidx), (rw_drivers _ Hwf). }
  pose proof (first_empty_Some _ _ Hidx) as Hslot. pose proof (live_insert _ _ d Hslot) as Hlive.
  assert (Hroom : length (live (DRIVERS r)) < MAX_DRIVERS).
  { pose proof (live_length (<[idx := Some d]> (DRIVERS r))) as Hl. rewrite Hlive, length_insert, (rw_drivers _ Hwf) in Hl. exact Hl. }
  assert (Hfull : existsb (λ k, class_contains (device_class d) k && negb (bucket_has_space (BUCKETS r k))) kinds = false).
  { apply not_true_iff_false. rewrite existsb_exists. intros (k&_&[_ Hk]%andb_true_iff).
    by rewrite (proj2 (bucket_space (BUCKETS r k)) (buckets_space r Hwf Hroom k)) in Hk. }
  rewrite Hfull. set (r1 := set_drivers r (<[idx := Some d]> (DRIVERS r))).
  pose proof (fold_all_kinds _ _ _ r1 (push_step d)) as ((Ht1&Ht2&Ht3)&Hb&Hc1&Hc2).
  set (r2 := foldl (λ r k, if class_contains (device_class d) k then push_bucket_slot r k d else r) r1 kinds) in *.
  change (DRIVERS r1) with (<[idx := Some d]> (DRIVERS r)) in Ht1. change (FACTORIES r1) with (FACTORIES r) in Ht2.
  change (IRQ_DRIVERS r1) with (IRQ_DRIVERS r) in Ht3. change (BUCKETS r1) with (BUCKETS r) in Hb.
  change (COUNTS r1) with (COUNTS r) in Hc1, Hc2. clearbody r2.
  set (r3 := fetch_add r2 REGISTERED_DRIVERS).
  pose proof (fold_all_kinds _ _ _ r3 (bump_step d true)) as ((Hu1&Hu2&Hu3)&Hub&Huc&Hud).
  set (r4 := foldl (λ r k, if class_contains (device_class d) k then bump_registered_count r (REGISTERED_DEVICES k) true else r) r3 kinds) in *.
  change (bump_registered_class_counts r3 (device_class d) true) with r4.
  change (DRIVERS r3) with (DRIVERS r2) in Hu1. change (FACTORIES r3) with (FACTORIES r2) in Hu2.
  change (IRQ_DRIVERS r3) with (IRQ_DRIVERS r2) in Hu3. change (BUCKETS r3) with (BUCKETS r2) in Hub.
  assert (Hd4 : DRIVERS r4 = <[idx := Some d]> (DRIVERS r)) by (by rewrite Hu1, Ht1).
  assert (Hb4 : ∀ k, BUCKETS r4 k = if as_device d k then push_slot (BUCKETS r k) d else BUCKETS r k).
  { intros k. by rewrite Hub, Hb. }
  assert (Hwf4 : reg_wf r4).
  { split.
    - by rewrite Hd4, length_insert, (rw_drivers _ Hwf).
    - intros k. rewrite Hb4. destruct (as_device d k); [rewrite push_slot_length|]; apply (rw_buckets _ Hwf).
    - rewrite Hu2, Ht2. apply (rw_factories _ Hwf).
    - rewrite Hu3, Ht3. apply (rw_irqs _ Hwf).
    - rewrite Hd4, Hlive. cbn. apply NoDup_cons. split; [|apply (rw_distinct _ Hwf)]. rewrite <- slot_is_spec. by rewrite Hid.
    - intros x. rewrite Hd4, Hlive. intros [->|Hx]%elem_of_cons; [done|by apply (rw_names _ Hwf)].
    - intros k. rewrite Hb4, Hd4, Hlive. by apply bump_wf_kind.
    - intros i x. rewrite Hu3, Ht3. intros Hx. destruct (rw_fast _ Hwf i x Hx) as (H1&H2). split; [|done].
      rewrite Hd4, Hlive. by right.
    - rewrite Hud by done. unfold r3, fetch_add. rewrite set_count_at, decide_True, Hc2 by done.
      rewrite (rw_count _ Hwf), Hd4, Hlive. cbn. apply count_small. lia.
    - intros k. rewrite Huc. unfold r3, fetch_add. rewrite set_count_at, decide_False, Hc1 by done.
      rewrite Hb4, (rw_counts _ Hwf). destruct (as_device d k); [|done]. pose proof (buckets_space r Hwf Hroom k) as Hk.
      rewrite push_slot_live by done. cbn. apply count_small. rewrite (rw_buckets _ Hwf) in Hk. lia. }
  assert (Hin : d ∈ live (DRIVERS r4)) by (rewrite Hd4, Hlive; by left).
  destruct (fast_path_wf r4 d Hwf4 Hin) as [Hwf5 Hd5]. eexists _, _. split; [done|]. split; [done|]. split; [by rewrite Hd5, Hd4, Hlive|].
  assert (Hff : ∀ r : reg, FACTORIES (register_irq_fast_path r d) = FACTORIES r) by (intros x; unfold register_irq_fast_path; by repeat case_match).
  by rewrite Hff, Hu2, Ht2.
Qed.

(** ** Unregistering *)

Lemma unregister_fast (r : reg) (d : D) : length (IRQ_DRIVERS r) = MAX_EXTERNAL_IRQS →
  (∀ i x, IRQ_DRIVERS r !! i = Some (Some x) → Z.to_nat (r_irq (drv_resource x)) = i ∧ i ≠ 0) → let r' := unregister_irq_fast_path r d in
  DRIVERS r' = DRIVERS r ∧ FACTORIES r' = FACTORIES r ∧ BUCKETS r' = BUCKETS r ∧ COUNTS r' = COUNTS r
  ∧ length (IRQ_DRIVERS r') = MAX_EXTERNAL_IRQS
  ∧ ∀ i x, IRQ_DRIVERS r' !! i = Some (Some x) → IRQ_DRIVERS r !! i = Some (Some x) ∧ x ≠ d.
Proof.
  intros Hlen Hirq. unfold unregister_irq_fast_path. set (irq := Z.to_nat (r_irq (drv_resource d))).
  assert (Hno : (irq = 0 ∨ MAX_EXTERNAL_IRQS ≤ irq ∨ IRQ_DRIVERS r !! irq ≠ Some (Some d)) →
    ∀ i x, IRQ_DRIVERS r !! i = Some (Some x) → IRQ_DRIVERS r !! i = Some (Some x) ∧ x ≠ d).
  { intros Hor i x Hi. split; [done|]. intros ->. destruct (Hirq i d Hi) as [Hd Hnz]. fold irq in Hd. subst i.
    apply lookup_lt_Some in Hi as Hlt. rewrite Hlen in Hlt. destruct Hor as [?|[?|?]]; [done|lia|done]. }
  destruct (Nat.eqb_spec irq 0); [split_and!; try done; apply Hno; by left|].
  destruct (Nat.leb_spec MAX_EXTERNAL_IRQS irq); [split_and!; try done; apply Hno; by right; left|]. cbn [orb].
  destruct (IRQ_DRIVERS r !! irq) as [[e|]|] eqn:He.
  - case_bool_decide as Hed; [|split_and!; try done; apply Hno; right; right; congruence]. subst e. split_and!; try done.
    + cbn. by rewrite length_insert.
    + cbn. intros i x. rewrite list_lookup_insert_Some. intros [(_&?&_)|[Hne Hi]]; [done|]. split; [done|]. intros ->.
      destruct (Hirq i d Hi) as [Hd _]. done.
  - split_and!; try done. apply Hno. right. right. congruence.
  - split_and!; try done. apply Hno. right. right. congruence.
Qed.

Lemma removed_kind (r : reg) (d : D) (l : list (option D)) (k : DeviceKind) : reg_wf r → live (DRIVERS r) ≡ₚ d :: live l → d ∉ live l →
  live (remove_slot (BUCKETS r k) d) ≡ₚ filter (λ d, as_device d k = true) (live l)
  ∧ length (live (BUCKETS r k)) = (if as_device d k then 1 else 0) + length (live (remove_slot (BUCKETS r k) d)).
Proof.
  intros Hwf Hp Hd. pose proof (rw_kind _ Hwf k) as Hk. rewrite Hp in Hk. destruct (as_device d k) eqn:Ha.
  - rewrite filter_cons_True in Hk by done. assert (Hin : d ∈ live (BUCKETS r k)) by (rewrite Hk; by left).
    pose proof (remove_slot_live _ _ Hin) as Hr. split; [|by rewrite Hr at 1]. rewrite Hr in Hk. by apply Permutation_cons_inv in Hk.
  - rewrite filter_cons_False in Hk by congruence. rewrite remove_slot_absent; [done|]. rewrite Hk. by intros [_ ?]%list_elem_of_filter.
Qed.

Lemma unregister_spec (r : reg) (test : D → bool) : reg_wf r → ∃ res r', unregister_where r test = (res, r') ∧ reg_wf r' ∧ FACTORIES r' = FACTORIES r ∧
  match res with
  | inr _ => ∃ d, test d = true ∧ live (DRIVERS r) ≡ₚ d :: live (DRIVERS r')
  | inl e => r' = r ∧ e = DriverNotFound ∧ ∀ d, d ∈ live (DRIVERS r) → test d = false
  end.
Proof.
  intros Hwf. unfold unregister_where. destruct (take_slot test (DRIVERS r)) as [[d l]|] eqn:Ht.
  2: { eexists _, _. split; [done|]. split; [done|]. split; [done|]. split; [done|]. split; [done|]. by apply take_slot_None. }
  destruct (take_slot_Some _ _ _ _ Ht) as (Hp&Htest&Hlen).
  assert (Hd : d ∉ live l).
  { pose proof (rw_distinct _ Hwf) as Hnd. rewrite Hp in Hnd. cbn in Hnd. apply NoDup_cons in Hnd as [Hn _]. intros Hin. apply Hn. by apply list_elem_of_fmap_2. }
  set (r1 := set_drivers r l). unfold unregistered.
  destruct (unregister_fast r1 d (rw_irqs _ Hwf) (λ i x Hi, proj2 (rw_fast _ Hwf i x Hi))) as (Hv1&Hv2&Hv3&Hv4&Hv5&Hv6).
  set (r2 := unregister_irq_fast_path r1 d) in *. clearbody r2.
  pose proof (fold_all_kinds _ _ _ r2 (remove_step d)) as ((Ht1&Ht2&Ht3)&Hb&Hc1&Hc2).
  set (r3 := foldl (λ r k, remove_bucket_slot r k d) r2 kinds) in *. clearbody r3.
  set (r4 := fetch_sub r3 REGISTERED_DRIVERS).
  pose proof (fold_all_kinds _ _ _ r4 (bump_step d false)) as ((Hu1&Hu2&Hu3)&Hub&Huc&Hud).
  set (r5 := bump_registered_class_counts r4 (device_class d) false).
  change (foldl _ r4 kinds) with r5 in Hu1, Hu2, Hu3, Hub, Huc, Hud.
  change (DRIVERS r4) with (DRIVERS r3) in Hu1. change (FACTORIES r4) with (FACTORIES r3) in Hu2.
  change (IRQ_DRIVERS r4) with (IRQ_DRIVERS r3) in Hu3. change (BUCKETS r4) with (BUCKETS r3) in Hub.
  assert (Hd5 : DRIVERS r5 = l) by (by rewrite Hu1, Ht1, Hv1).
  assert (Hb5 : ∀ k, BUCKETS r5 k = remove_slot (BUCKETS r k) d) by (intros k; by rewrite Hub, Hb, Hv3).
  assert (Hf5 : FACTORIES r5 = FACTORIES r) by (by rewrite Hu2, Ht2, Hv2).
  assert (Hsmall : length (live l) ≤ MAX_DRIVERS) by (rewrite <- (rw_drivers _ Hwf), <- Hlen; apply live_length).
  eexists _, r5. split; [done|]. split; [|split; [done|exists d; by rewrite Hd5]]. split.
  - by rewrite Hd5, Hlen, (rw_drivers _ Hwf).
  - intros k. rewrite Hb5, remove_slot_length. apply (rw_buckets _ Hwf).
  - rewrite Hf5. apply (rw_factories _ Hwf).
  - by rewrite Hu3, Ht3.
  - pose proof (rw_distinct _ Hwf) as Hnd. rewrite Hp in Hnd. cbn in Hnd. apply NoDup_cons in Hnd as [_ Hnd]. by rewrite Hd5.
  - intros x. rewrite Hd5. intros Hx. apply (rw_names _ Hwf). rewrite Hp. by right.
  - intros k. rewrite Hb5, Hd5. by apply removed_kind.
  - intros i x. rewrite Hu3, Ht3. intros Hx. destruct (Hv6 i x Hx) as [Hold Hne]. destruct (rw_fast _ Hwf i x Hold) as [Hin Hirq].
    split; [|done]. rewrite Hd5. rewrite Hp in Hin. by apply elem_of_cons in Hin as [?|?].
  - rewrite Hud by done. unfold r4, fetch_sub. rewrite set_count_at, decide_True, Hc2, Hv4 by done. change (COUNTS r1) with (COUNTS r).
    rewrite (rw_count _ Hwf), Hd5, Hp. cbn [length]. by apply count_small.
  - intros k. rewrite Huc. unfold r4, fetch_sub. rewrite set_count_at, decide_False, Hc1, Hv4 by done. change (COUNTS r1) with (COUNTS r).
    rewrite Hb5, (rw_counts _ Hwf). destruct (removed_kind r d l k Hwf Hp Hd) as [_ ->]. destruct (as_device d k); [|done].
    cbn [Nat.add]. apply count_small. rewrite <- (rw_buckets _ Hwf k), <- (remove_slot_length _ d). apply live_length.
Qed.

(** ** The other operations keep the invariant *)

(** The counters of interrupts and probes are free. *)
Lemma set_count_wf (r : reg) (c : Counter) (v : Z) : c ≠ REGISTERED_DRIVERS → (∀ k, c ≠ REGISTERED_DEVICES k) → reg_wf r → reg_wf (set_count r c v).
Proof.
  intros Hn Hk [H1 H2 H3 H4 H5 H6 H7 H8 H9 H10]. split; try done; [|intros k]; by rewrite set_count_at, decide_False.
Qed.

Lemma register_factory_wf (r : reg) (f : F) : reg_wf r → reg_wf (register_factory r f).2 ∧ DRIVERS (register_factory r f).2 = DRIVERS r.
Proof.
  intros Hwf. unfold register_factory. destruct (existsb _ _); [done|]. destruct (first_empty _); [|done]. split; [|done].
  destruct Hwf. split; try done. cbn. by rewrite length_insert.
Qed.

Lemma dispatch_wf (r : reg) (irq : Z) (w : W) : reg_wf r → ∃ b r' w', dispatch_irq r irq w = (b, r', w') ∧ reg_wf r' ∧ DRIVERS r' = DRIVERS r ∧ FACTORIES r' = FACTORIES r.
Proof.
  intros Hwf. unfold dispatch_irq. cbv zeta. set (r0 := fetch_add r IRQ_DISPATCHES).
  assert (H0 : reg_wf r0) by (by apply set_count_wf). destruct (irq_fast_driver r0 irq) as [d|].
  - destruct (drv_handle_irq d irq w) as [[] w1].
    + eexists _, _, _. split; [done|]. split; [|done]. by repeat apply set_count_wf.
    + destruct (ask_drivers _ irq w1) as [[] w2]; (eexists _, _, _; split; [done|]; split; [|done]); by repeat apply set_count_wf.
  - destruct (ask_drivers _ irq w) as [[] w2]; (eexists _, _, _; split; [done|]; split; [|done]); by repeat apply set_count_wf.
Qed.

(** ** Lookups *)

Lemma find_slot_Some (test : D → bool) (l : list (option D)) (d : D) : find_slot test l = Some d → d ∈ live l ∧ test d = true.
Proof.
  unfold live. induction l as [|[y|] l IH]; cbn [find_slot omap list_omap id]; [done| |done]. destruct (test y) eqn:Ht.
  - intros [= <-]. split; [by left|done].
  - intros Hd. destruct (IH Hd). split; [by right|done].
Qed.

Lemma find_slot_None (test : D → bool) (l : list (option D)) : find_slot test l = None ↔ ∀ d, d ∈ live l → test d = false.
Proof.
  unfold live. induction l as [|[y|] l IH]; cbn [find_slot omap list_omap id]; [split; [intros _ d ?%not_elem_of_nil; done|done]| |done].
  destruct (test y) eqn:Ht.
  - split; [done|]. intros Hd. specialize (Hd y ltac:(by left)). congruence.
  - rewrite IH. split; [intros Hd d [->|?]%elem_of_cons; [done|by apply Hd]|intros Hd d ?; apply Hd; by right].
Qed.

Lemma identity_inj (r : reg) (d e : D) : reg_wf r → d ∈ live (DRIVERS r) → e ∈ live (DRIVERS r) → identity d = identity e → d = e.
Proof.
  intros Hwf Hd He Hi. pose proof (rw_distinct _ Hwf) as Hnd. apply list_elem_of_lookup in Hd as [i Hd], He as [j He].
  assert (Hij : i = j).
  { eapply (NoDup_lookup _ i j (identity d) Hnd); rewrite list_lookup_fmap; [by rewrite Hd|by rewrite He, Hi]. }
  subst j. rewrite Hd in He. by injection He.
Qed.

Lemma get_by_identity (r : reg) (d : D) : reg_wf r → get_driver_by_identity r (identity d) = Some d ↔ d ∈ live (DRIVERS r).
Proof.
  intros Hwf. unfold get_driver_by_identity. split; [intros Hd; by destruct (find_slot_Some _ _ _ Hd)|]. intros Hd.
  destruct (find_slot _ _) as [e|] eqn:He.
  - destruct (find_slot_Some _ _ _ He) as [Hin Ht%bool_decide_eq_true]. f_equal. by eapply identity_inj.
  - pose proof (proj1 (find_slot_None _ _) He d Hd) as Ht. cbn in Ht. by apply bool_decide_eq_false in Ht.
Qed.

(** ** Interrupts *)

Lemma ask_drivers_claims (claims : D → bool) (irq : Z) : (∀ d w, (drv_handle_irq d irq w).1 = claims d) →
  ∀ ds w, (ask_drivers ds irq w).1 = existsb claims ds.
Proof.
  intros Hc. induction ds as [|d ds IH]; intros w; cbn [ask_drivers existsb]; [done|]. specialize (Hc d w).
  destruct (drv_handle_irq d irq w) as [[] w1]; cbn in Hc; rewrite <- Hc; [done|]. cbn. apply IH.
Qed.

Lemma dispatch_irq_spec (claims : D → bool) (r : reg) (irq : Z) (w : W) : reg_wf r → (∀ d w, (drv_handle_irq d irq w).1 = claims d) →
  ∃ r' w', dispatch_irq r irq w = (existsb claims (live (DRIVERS r)), r', w') ∧ reg_wf r'.
Proof.
  intros Hwf Hc. destruct (dispatch_wf r irq w Hwf) as (b&r'&w'&Hdis&Hwf'&_). exists r', w'. split; [|done]. rewrite Hdis. do 2 f_equal.
  revert Hdis. unfold dispatch_irq. cbv zeta. set (r0 := fetch_add r IRQ_DISPATCHES).
  pose proof (ask_drivers_claims claims irq Hc (live (DRIVERS r))) as Hask.
  destruct (irq_fast_driver r0 irq) as [d|] eqn:Hf.
  - assert (Hd : d ∈ live (DRIVERS r)).
    { unfold irq_fast_driver in Hf. destruct (_ <=? _); [done|]. destruct (IRQ_DRIVERS r0 !! Z.to_nat irq) as [slot|] eqn:Hi; [|done]. subst slot.
      by destruct (rw_fast _ Hwf _ _ Hi). }
    specialize (Hc d w). destruct (drv_handle_irq d irq w) as [[] w1]; cbn in Hc.
    + intros [= <- _ _]. symmetry. apply existsb_exists. exists d. split; [by apply list_elem_of_In|done].
    + change (omap id (DRIVERS (fetch_add r0 IRQ_FAST_FALLBACKS))) with (live (DRIVERS r)). specialize (Hask w1).
      destruct (ask_drivers _ irq w1) as [[] w2]; cbn in Hask; intros [= <- _ _]; done.
  - change (omap id (DRIVERS r0)) with (live (DRIVERS r)). specialize (Hask w).
    destruct (ask_drivers _ irq w) as [[] w2]; cbn in Hask; intros [= <- _ _]; done.
Qed.

(** A driver that leaves the devices alone when an interrupt is not its own. *)
Lemma dispatch_single (r : reg) (d : D) (irq : Z) (x : W) :
  reg_wf r → live (DRIVERS r) = [d] → (∀ x, (drv_handle_irq d irq x).1 = false → (drv_handle_irq d irq x).2 = x) →
  ∃ r', dispatch_irq r irq x = ((drv_handle_irq d irq x).1, r', (drv_handle_irq d irq x).2) ∧ reg_wf r' ∧ DRIVERS r' = DRIVERS r.
Proof.
  intros Hwf Hl Hno. destruct (dispatch_wf r irq x Hwf) as (b&r'&x'&Hdis&Hwf'&Hd&_). exists r'. split; [|done]. rewrite Hdis.
  revert Hdis. unfold dispatch_irq. cbv zeta. set (r0 := fetch_add r IRQ_DISPATCHES). specialize (Hno x).
  destruct (irq_fast_driver r0 irq) as [d'|] eqn:Hf.
  - assert (Hd' : d' ∈ live (DRIVERS r)).
    { unfold irq_fast_driver in Hf. destruct (_ <=? _); [done|]. destruct (IRQ_DRIVERS r0 !! Z.to_nat irq) as [slot|] eqn:Hi; [|done]. subst slot.
      by destruct (rw_fast _ Hwf _ _ Hi). }
    rewrite Hl in Hd'. apply list_elem_of_singleton in Hd' as ->. change (omap id (DRIVERS (fetch_add r0 IRQ_FAST_FALLBACKS))) with (live (DRIVERS r)).
    rewrite Hl. cbn [ask_drivers]. destruct (drv_handle_irq d irq x) as [[] x1] eqn:E; cbn [fst snd] in *; [by intros [= <- _ <-]|].
    pose proof (Hno eq_refl) as ->. rewrite E. by intros [= <- _ <-].
  - change (omap id (DRIVERS r0)) with (live (DRIVERS r)). rewrite Hl. cbn [ask_drivers].
    destruct (drv_handle_irq d irq x) as [[] x1]; cbn [fst snd]; by intros [= <- _ <-].
Qed.

(** ** Probing *)

Definition probe_counter (c : Counter) : Prop := c = PROBE_MATCHES ∨ c = PROBE_SUCCESSES ∨ c = PROBE_FAILURES.

Lemma register_probe_counts (r : reg) (d : D) (c : Counter) : probe_counter c → COUNTS (register_driver r d).2 c = COUNTS r c.
Proof.
  intros Hc. assert (Hk : ∀ k, c ≠ REGISTERED_DEVICES k) by (intros k; by destruct Hc as [->|[->| ->]]).
  assert (Hr : c ≠ REGISTERED_DRIVERS) by (by destruct Hc as [->|[->| ->]]). assert (Hf : c ≠ IRQ_FAST_CONFLICTS) by (by destruct Hc as [->|[->| ->]]).
  unfold register_driver. destruct (negb _); [done|]. destruct (existsb _ _); [done|]. destruct (first_empty _) as [i|]; [|done].
  destruct (existsb _ _); [done|]. cbn [snd].
  assert (Hfast : ∀ r : reg, COUNTS (register_irq_fast_path r d) c = COUNTS r c).
  { intros x. unfold register_irq_fast_path. destruct (_ || _); [done|]. destruct (IRQ_DRIVERS x !! _) as [[e|]|]; [|done|done].
    case_bool_decide; [done|]. unfold fetch_add. by rewrite set_count_at, decide_False. }
  rewrite Hfast. unfold bump_registered_class_counts.
  rewrite (proj2 (proj2 (proj2 (fold_all_kinds _ _ _ _ (bump_step d true)))) c Hk). unfold fetch_add.
  rewrite set_count_at, decide_False by done. by rewrite (proj2 (proj2 (proj2 (fold_all_kinds _ _ _ _ (push_step d)))) c Hk).
Qed.

(** The drivers [new] were added, [n] of them report success, and every match
    so far is a success or a failure. *)
Definition balanced (r : reg) : Prop := COUNTS r PROBE_MATCHES = wrap 32 (COUNTS r PROBE_SUCCESSES + COUNTS r PROBE_FAILURES).

Definition probe_inv (r0 : reg) (n : nat) (r : reg) : Prop := reg_wf r ∧ balanced r
  ∧ COUNTS r PROBE_SUCCESSES = wrap 32 (COUNTS r0 PROBE_SUCCESSES + Z.of_nat n)
  ∧ ∃ new, live (DRIVERS r) ≡ₚ new ++ live (DRIVERS r0) ∧ n ≤ length new.

Lemma wrap_add (x y : Z) : wrap 32 (wrap 32 x + y) = wrap 32 (x + y).
Proof. unfold wrap. by rewrite Zplus_mod_idemp_l. Qed.

Lemma fetch_add_at (r : reg) (c c' : Counter) : COUNTS (fetch_add r c) c' = if decide (c' = c) then wrap 32 (COUNTS r c + 1) else COUNTS r c'.
Proof. apply set_count_at. Qed.

Lemma balance_failure (m s f : Z) : m = wrap 32 (s + f) → wrap 32 (m + 1) = wrap 32 (s + wrap 32 (f + 1)).
Proof. intros ->. rewrite wrap_add, (Z.add_comm s (wrap _ _)), wrap_add. f_equal. lia. Qed.

Lemma balance_success (m s f : Z) : m = wrap 32 (s + f) → wrap 32 (m + 1) = wrap 32 (wrap 32 (s + 1) + f).
Proof. intros ->. rewrite !wrap_add. f_equal. lia. Qed.

(** After a match was counted and the driver registered, or not. *)
Lemma failure_inv (r0 r r2 : reg) (n : nat) : probe_inv r0 n r → reg_wf r2 → (∃ l, live (DRIVERS r2) ≡ₚ l ++ live (DRIVERS r)) →
  (∀ c, probe_counter c → COUNTS r2 c = COUNTS (fetch_add r PROBE_MATCHES) c) → probe_inv r0 n (fetch_add r2 PROBE_FAILURES).
Proof.
  intros (_&Hb&Hs&new&Hp&Hn) Hwf (l&Hl) Hc. split; [by apply set_count_wf|].
  assert (HM : COUNTS r2 PROBE_MATCHES = wrap 32 (COUNTS r PROBE_MATCHES + 1)) by (rewrite Hc, fetch_add_at by (by left); by case_decide).
  assert (HS : COUNTS r2 PROBE_SUCCESSES = COUNTS r PROBE_SUCCESSES) by (rewrite Hc, fetch_add_at by (by right; left); by case_decide).
  assert (HF : COUNTS r2 PROBE_FAILURES = COUNTS r PROBE_FAILURES) by (rewrite Hc, fetch_add_at by (by right; right); by case_decide).
  split; [|split].
  - unfold balanced. rewrite !fetch_add_at, !HM, !HS, !HF. repeat (case_decide; [done|]). case_decide; [|done]. by apply balance_failure.
  - rewrite fetch_add_at, HS. by case_decide.
  - exists (l ++ new). change (DRIVERS (fetch_add r2 PROBE_FAILURES)) with (DRIVERS r2). rewrite Hl, Hp, length_app. split; [by rewrite app_assoc|lia].
Qed.

Lemma success_inv (r0 r r2 : reg) (n : nat) (d : D) : probe_inv r0 n r → reg_wf r2 → live (DRIVERS r2) ≡ₚ d :: live (DRIVERS r) →
  (∀ c, probe_counter c → COUNTS r2 c = COUNTS (fetch_add r PROBE_MATCHES) c) → probe_inv r0 (S n) (fetch_add r2 PROBE_SUCCESSES).
Proof.
  intros (_&Hb&Hs&new&Hp&Hn) Hwf Hl Hc. split; [by apply set_count_wf|].
  assert (HM : COUNTS r2 PROBE_MATCHES = wrap 32 (COUNTS r PROBE_MATCHES + 1)) by (rewrite Hc, fetch_add_at by (by left); by case_decide).
  assert (HS : COUNTS r2 PROBE_SUCCESSES = COUNTS r PROBE_SUCCESSES) by (rewrite Hc, fetch_add_at by (by right; left); by case_decide).
  assert (HF : COUNTS r2 PROBE_FAILURES = COUNTS r PROBE_FAILURES) by (rewrite Hc, fetch_add_at by (by right; right); by case_decide).
  split; [|split].
  - unfold balanced. rewrite !fetch_add_at, !HM, !HS, !HF. case_decide; [done|]. case_decide; [|done]. case_decide; [done|]. by apply balance_success.
  - rewrite fetch_add_at, HS. case_decide; [|done]. rewrite Hs, wrap_add. f_equal. lia.
  - exists (d :: new). change (DRIVERS (fetch_add r2 PROBE_SUCCESSES)) with (DRIVERS r2). rewrite Hl, Hp. split; [done|cbn; lia].
Qed.

Lemma probe_match_inv (r0 r : reg) (n : nat) (f : F) (res : DeviceResource) (node : Fdt.FdtNode) (w : W) : probe_inv r0 n r →
  ∃ b r' w', probe_match r f res node w = (b, r', w') ∧ probe_inv r0 (if b : bool then S n else n) r'.
Proof.
  intros Hinv. unfold probe_match. destruct (probe_fdt f res node w) as [[d|] w1].
  2: { eexists _, _, _. split; [done|]. eapply failure_inv; [done|by apply set_count_wf; try apply Hinv|by exists []|done]. }
  set (r1 := fetch_add r PROBE_MATCHES). assert (Hwf1 : reg_wf r1) by (apply set_count_wf; [done|done|apply Hinv]).
  destruct (register_driver_spec r1 d Hwf1) as (rr&r2&Heq&Hwf2&Hpost). rewrite Heq.
  assert (Hc : ∀ c, probe_counter c → COUNTS r2 c = COUNTS r1 c).
  { intros c Hc. pose proof (register_probe_counts r1 d c Hc) as Hp. by rewrite Heq in Hp. }
  destruct rr as [e|[]].
  - destruct Hpost as [-> _]. eexists _, _, _. split; [done|]. eapply failure_inv; [done|done|by exists []|done].
  - destruct Hpost as [Hl _]. change (DRIVERS r1) with (DRIVERS r) in Hl.
    destruct (auto_init d w1) as [[e|[]] w2]; (eexists _, _, _; split; [done|]).
    + eapply failure_inv; [done|done|by exists [d]|done].
    + by eapply success_inv.
Qed.

Lemma probe_strings_inv (r0 : reg) (f : F) (res : DeviceResource) (node : Fdt.FdtNode) (cs : list str) : ∀ r n w, probe_inv r0 n r →
  ∃ b r' w', probe_strings cs f res node r w = (b, r', w') ∧ probe_inv r0 (if b : bool then S n else n) r'.
Proof.
  induction cs as [|c cs IH]; intros r n w Hinv; cbn [probe_strings]; [by exists false, r, w|].
  destruct (Fdt.compatible_matches node c); [|by apply IH].
  destruct (probe_match_inv r0 r n f res node w Hinv) as (b&r1&w1&->&Hinv1). destruct b; [by exists true, r1, w1|]. by apply IH.
Qed.

Lemma probe_factories_inv (r0 : reg) (res : DeviceResource) (node : Fdt.FdtNode) (fs : list (option F)) : ∀ r n w, probe_inv r0 n r →
  ∃ b r' w', probe_factories fs res node r w = (b, r', w') ∧ probe_inv r0 (if b : bool then S n else n) r'.
Proof.
  induction fs as [|[f|] fs IH]; intros r n w Hinv; cbn [probe_factories]; [by exists false, r, w| |by apply IH].
  destruct (probe_strings_inv r0 f res node (fac_compatible f) r n w Hinv) as (b&r1&w1&->&Hinv1). destruct b; [by exists true, r1, w1|]. by apply IH.
Qed.

Lemma interrupt_total (node : Fdt.FdtNode) : ∃ x, Fdt.interrupt_or_zero node = Done x.
Proof.
  unfold Fdt.interrupt_or_zero, Fdt.interrupts_extended_irq. destruct (Fdt.f_interrupt node); [by eexists|].
  destruct (Fdt.f_interrupts_extended node) as [data|]; [|by eexists]. destruct (Nat.ltb_spec (length data) 8); [by eexists|].
  destruct (Nat.eqb_spec (length data `mod` 4) 0) as [Hm|]; [|by eexists]. cbn [orb negb].
  pose proof (Nat.div_mod_eq (length data) 4). rewrite slice_Done by lia. cbn [mbind exec_bind].
  unfold Fdt.read_be32_slice. rewrite slice_Done by (rewrite length_take, length_drop; lia). by eexists.
Qed.

Lemma probe_node_inv (r0 : reg) (fs : list (option F)) (node : Fdt.FdtNode) (n : nat) (r : reg) (w : W) : probe_inv r0 n r →
  ∃ st, probe_node fs (n, r, w) node = Done st ∧ probe_inv r0 st.1.1 st.1.2.
Proof.
  intros Hinv. unfold probe_node. destruct (Fdt.is_available node); cbn [negb]; [|by eexists].
  destruct (first_reg_total node) as [rg ->]. cbn [mbind exec_bind]. destruct rg as [rg|]; [|by eexists].
  destruct (interrupt_total node) as [i ->]. cbn [mbind exec_bind].
  destruct (probe_factories_inv r0 (mk_resource (Fdt.base rg) (Fdt.size rg) i) node fs r n w Hinv) as (b&r1&w1&->&Hinv1).
  eexists. split; [done|]. by destruct b.
Qed.
End registry.

(** A property of the state that the callback keeps is kept by the walk. *)
Lemma visit_inv {A} (callback : A → Fdt.FdtNode → exec A) (I : A → Prop) : (∀ a node, I a → ∃ a', callback a node = Done a' ∧ I a') →
  (∀ t depth cells a, I a → ∃ a', visit callback depth cells t a = Done a' ∧ I a') ∧
  (∀ ts depth cells a, I a → ∃ a', visit_all callback depth cells ts a = Done a' ∧ I a').
Proof.
  intros Hcb. apply dtree_dforest_ind.
  - intros nm props ts IH depth cells a Ha. destruct (Nat.lt_ge_cases depth Fdt.MAX_DEPTH) as [Hd|Hd].
    + rewrite visit_node by done. destruct (props_of_Done props (Fdt.new_node nm cells.1 cells.2)) as [node ->]. cbn [mbind exec_bind].
      destruct (IH (S depth) (Fdt.f_child_address_cells node, Fdt.f_child_size_cells node) a Ha) as (a1&->&Ha1). by apply Hcb.
    + rewrite visit_deep by done. by exists a.
  - intros depth cells a Ha. by exists a.
  - intros t IHt ts IHts depth cells a Ha. rewrite visit_cons. destruct (IHt depth cells a Ha) as (a1&->&Ha1). by apply IHts.
Qed.

(** ** Histories *)

Section history.
Context {D W F : Type} `{!EqDecision D} `{!EqDecision F} `{!AnyDriver D W} `{!DriverFactory D W F}.

Inductive RegistryOp : Type :=
  | RegDriver (d : D)
  | UnregDriver (name : str)
  | UnregIdentity (i : DriverIdentity)
  | RegFactory (f : F)
  | DispatchIrq (irq : Z).

Definition run_rop (r : Registry D F) (w : W) (op : RegistryOp) : Registry D F * W :=
  match op with
  | RegDriver d => ((register_driver r d).2, w)
  | UnregDriver name => ((unregister_driver r name).2, w)
  | UnregIdentity i => ((unregister_driver_by_identity r i).2, w)
  | RegFactory f => ((register_factory r f).2, w)
  | DispatchIrq irq => let '(_, r, w) := dispatch_irq r irq w in (r, w)
  end.

Definition run_rops (ops : list RegistryOp) (r : Registry D F) (w : W) : Registry D F * W := foldl (λ st op, run_rop st.1 st.2 op) (r, w) ops.

Lemma run_rops_wf (ops : list RegistryOp) : ∀ r w, reg_wf r → reg_wf (run_rops ops r w).1.
Proof.
  induction ops as [|op ops IH]; intros r w Hwf; [done|]. unfold run_rops. cbn [foldl fst snd].
  assert (Hop : reg_wf (run_rop r w op).1).
  { destruct op as [d|name|i|f|irq]; cbn [run_rop fst].
    - by destruct (register_driver_spec r d Hwf) as (res&r'&->&?&_).
    - unfold unregister_driver. by destruct (unregister_spec r (λ d, bool_decide (drv_name d = name)) Hwf) as (res&r'&->&?&_).
    - unfold unregister_driver_by_identity. by destruct (unregister_spec r (λ d, bool_decide (identity d = i)) Hwf) as (res&r'&->&?&_).
    - by apply register_factory_wf.
    - by destruct (dispatch_wf r irq w Hwf) as (b&r'&w'&->&?&_). }
  destruct (run_rop r w op) as [r1 w1]. by apply IH.
Qed.
End history.
