(* ===== verification/DriverProps.v ===== *)
(** * What the driver registry and the interrupt table promise *)

From S2P Require Export Prelude.
From S2P Require Export Str.
From S2P Require Export Fdt.
From S2P Require Export FdtWalk.
From S2P Require Export FdtProps.
From S2P Require Export Drivers.
From S2P Require Export DriverInv.
From S2P Require Export Irq.

(** ** Two drivers to try the properties on *)

(** Driver 0 is a serial port with interrupt 5, driver 1 a disk with
    interrupt 6; both are named after their number, and claim their interrupt. *)
#[local] Instance demo_driver : AnyDriver nat unit := {
  drv_name d := [97 + Z.of_nat d]%Z;
  drv_resource d := mk_resource (16 * (Z.of_nat d + 1)) 256 (Z.of_nat d + 5);
  as_device d k := if d =? 0 then bool_decide (k = CHAR) else bool_decide (k = BLOCK);
  drv_handle_irq d irq w := ((irq =? Z.of_nat d + 5)%Z, w);
  auto_init d w := (inr (), w);
}.

(** A factory for the serial port. *)
#[local] Instance demo_factory : DriverFactory nat unit unit := {
  fac_compatible _ := [bytes "ns16550"; bytes "ns16550a"];
  probe_fdt _ resource _ w := (if (r_base_addr resource =? 16)%Z then Some 0 else None, w);
}.

Definition demo_registry : Registry nat unit := (run_rops [RegFactory (); RegDriver 1] registry_boot ()).1.

Lemma demo_registry_wf : reg_wf demo_registry ∧ balanced demo_registry.
Proof. split; [apply run_rops_wf, boot_reg_wf|vm_compute; reflexivity]. Qed.

(** ** The interrupt table *)

Section irq.
Context {D W F H : Type} `{!EqDecision D} `{!EqDecision F} `{!AnyDriver D W} `{!DriverFactory D W F} (run_handler : H → W → W).

Definition irq_wf (m : IrqModule H) : Prop :=
  length (irq_table (IRQ_STATE m)) = MAX_EXTERNAL_IRQS ∧ irq_count (IRQ_STATE m) ≤ MAX_EXTERNAL_IRQS.

(** A handler was registered, or a driver claims the interrupt. *)
Definition delivered (claims : D → bool) (m : IrqModule H) (r : Registry D F) (irqn : nat) : Prop :=
  irqn < irq_count (IRQ_STATE m) ∧ ((∃ h, irq_table (IRQ_STATE m) !! irqn = Some (Some h)) ∨ ∃ d, d ∈ live (DRIVERS r) ∧ claims d = true).

Lemma handle_irq_spec (claims : D → bool) (m : IrqModule H) (r : Registry D F) (irqn : nat) (w : W) : irq_wf m → reg_wf r →
  (∀ d w, (drv_handle_irq d (Z.of_nat irqn) w).1 = claims d) →
  ∃ b m' r' w', handle_irq run_handler m r irqn w = Done (b, m', r', w') ∧ irq_wf m' ∧ reg_wf r' ∧ (b = true ↔ delivered claims m r irqn) ∧
    let n := wrap 32 (Z.of_nat irqn) in
    LAST_IRQ m' = n ∧ LAST_UNHANDLED_IRQ m' = (if b then LAST_UNHANDLED_IRQ m else n) ∧
    HANDLED_IRQS m' = (if b then wrapping_add 32 (HANDLED_IRQS m) 1 else HANDLED_IRQS m) ∧
    UNHANDLED_IRQS m' = (if negb b && (irqn <? irq_count (IRQ_STATE m)) then wrapping_add 32 (UNHANDLED_IRQS m) 1 else UNHANDLED_IRQS m) ∧
    OUT_OF_RANGE_IRQS m' = (if irq_count (IRQ_STATE m) <=? irqn then wrapping_add 32 (OUT_OF_RANGE_IRQS m) 1 else OUT_OF_RANGE_IRQS m).
Proof.
  intros [Hlen Hcnt] Hwf Hcl. unfold handle_irq, delivered. cbn [IRQ_STATE].
  destruct (Nat.leb_spec (irq_count (IRQ_STATE m)) irqn) as [Hr|Hr].
  { eexists false, _, r, w. split; [done|]. split; [done|]. split; [done|]. split; [split; [done|lia]|].
    cbn. split_and!; try done. by rewrite (proj2 (Nat.ltb_ge _ _) Hr). }
  destruct (irq_table (IRQ_STATE m) !! irqn) as [handler|] eqn:Hh; [|apply lookup_ge_None in Hh; lia]. cbn [get_exec mbind exec_bind].
  destruct handler as [h|].
  { eexists true, _, r, _. split; [done|]. split; [done|]. split; [done|]. split; [split; [|done]|by cbn].
    intros _. split; [done|]. left. by exists h. }
  assert (Hw : wrap 32 (Z.of_nat irqn) = Z.of_nat irqn).
  { apply wrap_small. unfold in_width, MAX_EXTERNAL_IRQS, OPENION_EXTERNAL_IRQ_COUNT in *. change (2 ^ 32)%Z with 4294967296%Z. lia. }
  rewrite Hw. destruct (dispatch_irq_spec claims r (Z.of_nat irqn) w Hwf Hcl) as (r'&w'&->&Hwf').
  assert (Hb : existsb claims (live (DRIVERS r)) = true ↔
    irqn < irq_count (IRQ_STATE m) ∧ ((∃ h : H, Some None = Some (Some h)) ∨ ∃ d, d ∈ live (DRIVERS r) ∧ claims d = true)).
  { rewrite existsb_exists. setoid_rewrite <- list_elem_of_In. split; [intros Hd; split; [done|by right]|intros [_ [[h ?]|Hd]]; done]. }
  destruct (existsb claims (live (DRIVERS r))).
  - eexists true, _, r', w'. split; [done|]. split; [done|]. split; [done|]. split; [exact Hb|by cbn].
  - eexists false, _, r', w'. split; [done|]. split; [done|]. split; [done|]. split; [exact Hb|]. cbn. rewrite (proj2 (Nat.ltb_lt _ _) Hr). by split_and!.
Qed.
End irq.

(** ** Properties *)

(** C28. After any history of registrations, removals and interrupts, the
    registered drivers have valid names and identities of their own, every
    bucket holds exactly the drivers of its kind, the counters count both, and
    the fast path of an interrupt holds a registered driver of that interrupt. *)
Theorem registry_invariant {D W F : Type} `{!EqDecision D} `{!EqDecision F} `{!AnyDriver D W} `{!DriverFactory D W F}
    (ops : list (RegistryOp (D := D) (F := F))) (w : W) : reg_wf (run_rops ops registry_boot w).1.
Proof. apply run_rops_wf, boot_reg_wf. Qed.

(** Registration fails exactly for an invalid name, an identity in use or
    a full table, and changes nothing then; otherwise lookups and the lists of
    its kinds find the driver besides the old ones, and removing it by its
    identity brings the old ones back. *)
Theorem register_then_find {D W F : Type} `{!EqDecision D} `{!EqDecision F} `{!AnyDriver D W} `{!DriverFactory D W F} (r : Registry D F) (d : D) :
  reg_wf r → ∃ res r', register_driver r d = (res, r') ∧
  match res with
  | inl e => r' = r ∧ (e = InvalidConfig ∧ (is_valid_driver_name (drv_name d) = false ∨ identity d ∈ identity <$> live (DRIVERS r))
                       ∨ e = RegistryFull ∧ length (live (DRIVERS r)) = MAX_DRIVERS)
  | inr _ => (∀ x, get_driver_by_identity r' (identity x) = Some x ↔ x = d ∨ get_driver_by_identity r (identity x) = Some x)
      ∧ (∀ k, for_each_device r' k ≡ₚ filter (λ x, as_device x k = true) (d :: for_each_driver r))
      ∧ ∃ r'', unregister_driver_by_identity r' (identity d) = (inr (), r'') ∧ for_each_driver r'' ≡ₚ for_each_driver r
          ∧ get_driver_by_identity r'' (identity d) ≠ Some d
  end.
Proof.
  intros Hwf. destruct (register_driver_spec r d Hwf) as (res&r'&Heq&Hwf'&Hpost). exists res, r'. split; [done|].
  destruct res as [e|[]]; [done|]. destruct Hpost as [Hl _]. split; [|split].
  - intros x. rewrite !get_by_identity, Hl, elem_of_cons by done. done.
  - intros k. unfold for_each_device, for_each_driver. fold (live (BUCKETS r' k)) (live (DRIVERS r)).
    rewrite (rw_kind _ Hwf' k), Hl. by rewrite list_filter_filter_l by done.
  - unfold unregister_driver_by_identity.
    destruct (unregister_spec r' (λ x, bool_decide (identity x = identity d)) Hwf') as (res&r''&->&Hwf''&_&Hr).
    assert (Hd : d ∈ live (DRIVERS r')) by (rewrite Hl; by left). destruct res as [e|[]].
    + destruct Hr as (_&_&Hno). specialize (Hno d Hd). cbn in Hno. by apply bool_decide_eq_false in Hno.
    + destruct Hr as (x&Hx%bool_decide_eq_true&Hp). assert (Hxd : x = d).
      { apply (identity_inj r'); [done| |done|done]. rewrite Hp. by left. }
      subst x. exists r''. split; [done|]. rewrite Hl in Hp. apply Permutation_cons_inv in Hp. unfold for_each_driver.
      fold (live (DRIVERS r'')) (live (DRIVERS r)). split; [done|]. rewrite get_by_identity, <- Hp by done.
      pose proof (rw_distinct _ Hwf') as Hnd. rewrite Hl in Hnd. apply NoDup_cons in Hnd as [Hn _].
      intros Hin. apply Hn. by apply list_elem_of_fmap_2.
Qed.

Lemma register_then_find_witness : ∃ r', register_driver demo_registry 0 = (inr (), r') ∧ get_driver_by_identity r' (identity 0) = Some 0
  ∧ ∃ r'', unregister_driver_by_identity r' (identity 0) = (inr (), r'') ∧ for_each_driver r'' ≡ₚ [1].
Proof.
  destruct (register_then_find demo_registry 0 (proj1 demo_registry_wf)) as (res&r'&Heq&Hpost).
  assert (Hres : (register_driver demo_registry 0).1 = inr ()) by (vm_compute; reflexivity). rewrite Heq in Hres. cbn in Hres. subst res.
  exists r'. split; [exact Heq|]. destruct Hpost as (Hg&_&r''&Hu&Hp&_). split; [apply Hg; by left|]. exists r''. split; [exact Hu|exact Hp].
Defined.

(** An interrupt is delivered exactly when it is in range and has a
    handler or a registered driver that claims it, whether or not the fast
    path knows that driver; it is counted once, as handled, unhandled or out
    of range. *)
Theorem irq_delivered {D W F H : Type} `{!EqDecision D} `{!EqDecision F} `{!AnyDriver D W} `{!DriverFactory D W F} (run_handler : H → W → W)
    (claims : D → bool) (m : IrqModule H) (r : Registry D F) (irqn : nat) (w : W) : irq_wf m → reg_wf r →
  (∀ d w, (drv_handle_irq d (Z.of_nat irqn) w).1 = claims d) →
  ∃ b m' r' w', handle_irq run_handler m r irqn w = Done (b, m', r', w') ∧ irq_wf m' ∧ reg_wf r' ∧ (b = true ↔ delivered claims m r irqn) ∧
    let n := wrap 32 (Z.of_nat irqn) in
    LAST_IRQ m' = n ∧ LAST_UNHANDLED_IRQ m' = (if b then LAST_UNHANDLED_IRQ m else n) ∧
    HANDLED_IRQS m' = (if b then wrapping_add 32 (HANDLED_IRQS m) 1 else HANDLED_IRQS m) ∧
    UNHANDLED_IRQS m' = (if negb b && (irqn <? irq_count (IRQ_STATE m)) then wrapping_add 32 (UNHANDLED_IRQS m) 1 else UNHANDLED_IRQS m) ∧
    OUT_OF_RANGE_IRQS m' = (if irq_count (IRQ_STATE m) <=? irqn then wrapping_add 32 (OUT_OF_RANGE_IRQS m) 1 else OUT_OF_RANGE_IRQS m).
Proof. apply handle_irq_spec. Qed.

Lemma irq_delivered_witness : ∃ m' r' w', handle_irq (λ _ w, w) (irq_init 16 (irqs_boot (H := unit))) demo_registry 6 tt = Done (true, m', r', w')
  ∧ HANDLED_IRQS m' = 1%Z.
Proof.
  destruct (irq_delivered (λ (_ : unit) w, w) (λ d, (6 =? Z.of_nat d + 5)%Z) (irq_init 16 irqs_boot) demo_registry 6 tt)
    as (b&m'&r'&w'&Heq&_&_&Hb&_&_&Hh&_); [by split; vm_compute; [|repeat constructor]|apply demo_registry_wf|intros d w'; reflexivity|].
  assert (Ht : b = true).
  { apply Hb. split; [by apply Nat.ltb_lt|]. right. exists 1. split; [|reflexivity]. apply (bool_decide_unpack _). vm_compute. exact I. }
  subst b. exists m', r', w'. split; [exact Heq|]. exact Hh.
Defined.

(** C30. Probing a device tree ends without a panic and keeps the invariant of
    the registry: it does to the registry what a walk over the tree does, adds
    drivers and removes none, counts at most one success a node, each with a
    driver of its own, and every match of a factory is counted as one success
    or one failure. *)
Theorem auto_probe_registers {D W F : Type} `{!EqDecision D} `{!EqDecision F} `{!AnyDriver D W} `{!DriverFactory D W F} (r : Registry D F) (w : W)
    (mem : list Z) (total struct strings : Z) (off : str → Z) (t : dtree) :
  reg_wf r → balanced r → in_width 32 (COUNTS r PROBE_SUCCESSES) → blob mem total struct strings off t →
  ∃ n r' w', auto_probe_fdt r (Some mem) w = Done (n, r', w')
  ∧ visit (probe_node (FACTORIES r)) 0 (Fdt.DEFAULT_ADDRESS_CELLS, Fdt.DEFAULT_SIZE_CELLS) t (0, r, w) = Done (n, r', w')
  ∧ reg_wf r' ∧ balanced r' ∧ COUNTS r' PROBE_SUCCESSES = wrap 32 (COUNTS r PROBE_SUCCESSES + Z.of_nat n)
  ∧ ∃ new, for_each_driver r' ≡ₚ new ++ for_each_driver r ∧ n ≤ length new.
Proof.
  intros Hwf Hbal Hs0 Hblob. unfold auto_probe_fdt. rewrite (walk_blob _ _ _ _ _ _ t _ Hblob).
  assert (Hinv : probe_inv r 0 r) by (split; [done|split; [done|split; [|by exists []]]]; rewrite Z.add_0_r; symmetry; by apply wrap_small).
  destruct (proj1 (visit_inv (probe_node (FACTORIES r)) (λ st, probe_inv r st.1.1 st.1.2)
    (λ a node Ha, match a as a return probe_inv r a.1.1 a.1.2 → _ with (n, r', w') => probe_node_inv r (FACTORIES r) node n r' w' end Ha))
    t 0 (Fdt.DEFAULT_ADDRESS_CELLS, Fdt.DEFAULT_SIZE_CELLS) (0, r, w) Hinv) as ([[n r'] w']&->&Hwf'&Hb'&Hs&Hnew).
  exists n, r', w'. split; [done|]. by split_and!.
Qed.

Lemma auto_probe_registers_witness : ∃ r' w', auto_probe_fdt demo_registry (Some demo_blob) tt = Done (1, r', w')
  ∧ reg_wf r' ∧ COUNTS r' PROBE_MATCHES = 1%Z ∧ get_driver_by_identity r' (identity 0) = Some 0.
Proof.
  destruct (auto_probe_registers demo_registry tt demo_blob demo_total 16 (16 + Z.of_nat (length demo_struct)) demo_off demo_tree (proj1 demo_registry_wf) (proj2 demo_registry_wf))
    as (n&r'&w'&Heq&Hv&Hwf&Hb&_&_); [apply (bool_decide_unpack _); vm_compute; exact I|exact demo_blob_ok|].
  assert (Hres : ∃ st, visit (probe_node (FACTORIES demo_registry)) 0 (Fdt.DEFAULT_ADDRESS_CELLS, Fdt.DEFAULT_SIZE_CELLS) demo_tree (0, demo_registry, tt)
    = Done st ∧ st.1.1 = 1 ∧ COUNTS st.1.2 PROBE_MATCHES = 1%Z ∧ get_driver_by_identity st.1.2 (identity 0) = Some 0).
  { eexists. split; [vm_compute; reflexivity|]. vm_compute. split_and!; reflexivity. }
  destruct Hres as ([[n1 r1] w1]&Hv1&Hn&Hm&Hg). rewrite Hv in Hv1. injection Hv1 as -> -> ->. cbn in Hn, Hm, Hg. subst n1.
  exists r1, w1. split; [exact Heq|]. split; [exact Hwf|]. split; [exact Hm|exact Hg].
Defined.
