(* ===== verification/Virtio.v ===== *)
(** * VirtIO: the MMIO transport and the block and entropy drivers,
    [drivers/virtio_common], [drivers/virtio_blk], [drivers/virtio_rng] and
    [kernel/src/driver/pool.rs]

    A device is a state [S] with 32-bit registers that can be read and written;
    it shares the memory of a queue with the driver, and [tick] is what it does
    to that memory between two accesses of the driver.  The device itself is
    a parameter: see [VirtioProps] for what it promises. *)

From S2P Require Export Prelude.
From S2P Require Export Drivers.

(** ** The transport *)

Definition MMIO_MAGIC_VALUE : Z := 0x74726976.
Definition MMIO_VERSION_LEGACY : Z := 1.
Definition MMIO_VERSION_MODERN : Z := 2.
Definition DEVICE_ID_BLOCK : Z := 2.
Definition DEVICE_ID_RNG : Z := 4.

(** [mod status]. *)
Definition ACKNOWLEDGE : Z := 1.
Definition DRIVER : Z := 2.
Definition DRIVER_OK : Z := 4.
Definition FEATURES_OK : Z := 8.
Definition FAILED : Z := 128.

(** [mod desc_flags]. *)
Definition NEXT : Z := 1.
Definition WRITE : Z := 2.

(** [mod regs]. *)
Definition MAGIC : Z := 0x000.
Definition VERSION : Z := 0x004.
Definition DEVICE_ID : Z := 0x008.
Definition DEVICE_FEATURES : Z := 0x010.
Definition DEVICE_FEATURES_SEL : Z := 0x014.
Definition DRIVER_FEATURES : Z := 0x020.
Definition DRIVER_FEATURES_SEL : Z := 0x024.
Definition QUEUE_SEL : Z := 0x030.
Definition QUEUE_NUM_MAX : Z := 0x034.
Definition QUEUE_NUM : Z := 0x038.
Definition QUEUE_READY : Z := 0x044.
Definition QUEUE_NOTIFY : Z := 0x050.
Definition INTERRUPT_STATUS : Z := 0x060.
Definition INTERRUPT_ACK : Z := 0x064.
Definition STATUS : Z := 0x070.
Definition QUEUE_DESC_LOW : Z := 0x080.
Definition QUEUE_DRIVER_LOW : Z := 0x090.
Definition QUEUE_DEVICE_LOW : Z := 0x0a0.

Inductive VirtioError : Type :=
  BadMagic | UnsupportedVersion | WrongDevice | LegacyDisabled | MissingModernFeature | FeaturesRejected | QueueUnavailable | VTimeout | DeviceError.

Record FeatureSet : Type := mk_features { fe_lo : Z; fe_hi : Z }.
Definition features_empty : FeatureSet := mk_features 0 0.
Definition with_modern : FeatureSet := mk_features 0 (Z.shiftl 1 (32 - 32)).

(** The registers of a device. *)
Class MmioDevice (S : Type) : Type := {
  read32 : S → Z → Z;
  write32 : S → Z → Z → S;
}.

Section transport.
Context {S : Type} `{!MmioDevice S}.

Definition write64_pair (s : S) (offset value : Z) : S :=
  let s := write32 s offset (wrap 32 value) in write32 s (offset + 4) (Z.shiftr value 32).

Definition read_config64 (s : S) (offset : Z) : Z :=
  let lo := read32 s (0x100 + offset) in
  let hi := read32 s (0x100 + offset + 4) in
  Z.lor (Z.shiftl hi 32) lo.

Definition validate_device (s : S) (expected_device_id : Z) (allow_legacy : bool) : VirtioError + Z :=
  if negb (read32 s MAGIC =? MMIO_MAGIC_VALUE)%Z then inl BadMagic else
  let version := read32 s VERSION in
  if negb (version =? MMIO_VERSION_LEGACY)%Z && negb (version =? MMIO_VERSION_MODERN)%Z then inl UnsupportedVersion else
  if (version =? MMIO_VERSION_LEGACY)%Z && negb allow_legacy then inl LegacyDisabled else
  if negb (read32 s DEVICE_ID =? expected_device_id)%Z then inl WrongDevice else inr version.

Definition reset (s : S) : S := write32 s STATUS 0.

Definition set_status_bits (s : S) (bits : Z) : S := let status := read32 s STATUS in write32 s STATUS (Z.lor status bits).

Definition fail (s : S) : S := set_status_bits s FAILED.

Definition device_features (s : S) : FeatureSet * S :=
  let s := write32 s DEVICE_FEATURES_SEL 0 in
  let lo := read32 s DEVICE_FEATURES in
  let s := write32 s DEVICE_FEATURES_SEL 1 in
  let hi := read32 s DEVICE_FEATURES in
  (mk_features lo hi, s).

Definition write_driver_features (s : S) (f : FeatureSet) : S :=
  let s := write32 s DRIVER_FEATURES_SEL 0 in
  let s := write32 s DRIVER_FEATURES (fe_lo f) in
  let s := write32 s DRIVER_FEATURES_SEL 1 in
  write32 s DRIVER_FEATURES (fe_hi f).

Definition negotiate_features (s : S) (version : Z) (requested : FeatureSet) : (VirtioError + FeatureSet) * S :=
  let '(device, s) := device_features s in
  let selected := mk_features (Z.land (fe_lo device) (fe_lo requested)) (Z.land (fe_hi device) (fe_hi requested)) in
  let modern := fe_hi with_modern in
  if (version =? MMIO_VERSION_MODERN)%Z && (Z.land (fe_hi device) modern =? 0)%Z then (inl MissingModernFeature, s) else
  let selected := if (version =? MMIO_VERSION_MODERN)%Z then mk_features (fe_lo selected) (Z.lor (fe_hi selected) modern) else selected in
  let s := write_driver_features s selected in
  let s := set_status_bits s FEATURES_OK in
  if (Z.land (read32 s STATUS) FEATURES_OK =? 0)%Z then (inl FeaturesRejected, s) else (inr selected, s).

Definition select_queue (s : S) (queue : Z) : S := write32 s QUEUE_SEL queue.

Definition transport_setup_queue (s : S) (queue queue_size desc_addr avail_addr used_addr : Z) : (VirtioError + unit) * S :=
  let s := select_queue s queue in
  let max := read32 s QUEUE_NUM_MAX in
  if (max =? 0)%Z || (max <? queue_size)%Z then (inl QueueUnavailable, s) else
  let s := write32 s QUEUE_NUM queue_size in
  let s := write64_pair s QUEUE_DESC_LOW desc_addr in
  let s := write64_pair s QUEUE_DRIVER_LOW avail_addr in
  let s := write64_pair s QUEUE_DEVICE_LOW used_addr in
  (inr (), write32 s QUEUE_READY 1).

Definition notify_queue (s : S) (queue : Z) : S := write32 s QUEUE_NOTIFY queue.

Definition ack_interrupts (s : S) : Z * S :=
  let status := read32 s INTERRUPT_STATUS in
  (status, if negb (status =? 0)%Z then write32 s INTERRUPT_ACK status else s).

(** The status bits and the features of [init_hw]: the part that the two
    drivers share. *)
Definition handshake (s : S) (expected_device_id : Z) (allow_legacy : bool) : (DriverErr + Z) * S :=
  match validate_device s expected_device_id allow_legacy with
  | inl (LegacyDisabled | MissingModernFeature | FeaturesRejected) => (inl InvalidConfig, s)
  | inl _ => (inl InitFailed, s)
  | inr ver =>
      let s := reset s in
      let s := set_status_bits s ACKNOWLEDGE in
      let s := set_status_bits s DRIVER in
      let '(r, s) := negotiate_features s ver features_empty in
      match r with inl _ => (inl InvalidConfig, fail s) | inr _ => (inr ver, s) end
  end.
End transport.

(** ** Queues *)

Record VirtqDesc : Type := mk_desc { d_addr : Z; d_len : Z; d_flags : Z; d_next : Z }.
Definition desc_zero : VirtqDesc := mk_desc 0 0 0 0.

Record VirtqAvail : Type := mk_avail { av_flags : Z; av_idx : Z; av_ring : list Z }.
Record VirtqUsedElem : Type := mk_used_elem { ue_id : Z; ue_len : Z }.
Record VirtqUsed : Type := mk_used { us_flags : Z; us_idx : Z; us_ring : list VirtqUsedElem }.

(** What the drivers do with the available ring: descriptor 0 is offered. *)
Definition offer (queue_size : nat) (a : VirtqAvail) : exec VirtqAvail :=
  let idx := Z.to_nat (av_idx a) `mod` queue_size in
  ring ← put_exec (av_ring a) idx 0%Z;
  Done (mk_avail (av_flags a) (wrapping_add 16 (av_idx a) 1) ring).

(** [(x + 4095) & !4095] and [(x + 7) & !7] of an address. *)
Definition align_up (w n x : Z) : Z := Z.land (x + n) (lnot_w w n).

(** ** The block driver *)

Definition VIRTIO_BLK_T_IN : Z := 0.
Definition BLK_QUEUE_SIZE : nat := 16.
Definition QUEUE_INDEX : Z := 0.

Record BlkRequest : Type := mk_request { rq_type : Z; rq_reserved : Z; rq_sector : Z; rq_data : list Z; rq_status : Z }.

(** The memory the driver shares with the device. *)
Record BlkQueue : Type := mk_bq { bq_desc : list VirtqDesc; bq_avail : VirtqAvail; bq_used : VirtqUsed; bq_request : BlkRequest }.
Definition bq_zero : BlkQueue :=
  mk_bq (replicate BLK_QUEUE_SIZE desc_zero) (mk_avail 0 0 (replicate BLK_QUEUE_SIZE 0%Z))
    (mk_used 0 0 (replicate BLK_QUEUE_SIZE (mk_used_elem 0 0))) (mk_request 0 0 0 (replicate 512 0%Z) 0).

(** Where the parts lie: the addresses that [setup_queue] computes. *)
Record BlkLayout : Type := mk_layout { la_desc : Z; la_avail : Z; la_used : Z; la_request : Z }.
Definition SIZEOF_BLK_USED : Z := 4 + 8 * Z.of_nat BLK_QUEUE_SIZE.
Definition blk_layout (w base : Z) : BlkLayout :=
  let aligned := align_up w 4095 base in
  let request_off := align_up w 7 SIZEOF_BLK_USED in
  mk_layout aligned (aligned + Z.of_nat BLK_QUEUE_SIZE * 16) (aligned + 4096) (aligned + 4096 + request_off).

Record VirtioBlk : Type := mk_blk { b_capacity : Z; b_layout : BlkLayout; b_free_head : Z; b_last_used_idx : Z; b_io_busy : bool }.
Definition blk_new : VirtioBlk := mk_blk 0 (mk_layout 0 0 0 0) 0 0 false.

Definition blk_chain (la : BlkLayout) (descs : list VirtqDesc) : list VirtqDesc :=
  <[0 := mk_desc (la_request la) 16 NEXT 1]>
  (<[1 := mk_desc (la_request la + 16) 512 (Z.lor NEXT WRITE) 2]>
  (<[2 := mk_desc (la_request la + 16 + 512) 1 WRITE (d_next (nth 2 descs desc_zero))]> descs)).

(** The device with the memory of its queue. *)
Class BlkBus (S : Type) `{!MmioDevice S} : Type := {
  bus_queue : S → BlkQueue;
  set_queue : S → BlkQueue → S;
  tick : S → S;
}.

Section blk.
Context {S : Type} `{!MmioDevice S} `{!BlkBus S}.
(** The width of an address, that of the static memory of the queue, and the
    configuration. *)
Context (w queue_mem : Z) (allow_legacy : bool) (poll_limit : nat).

Definition blk_setup_queue (d : VirtioBlk) (s : S) : bool * VirtioBlk * S :=
  let la := blk_layout w queue_mem in
  let s := set_queue s bq_zero in
  let d := mk_blk (b_capacity d) la (b_free_head d) (b_last_used_idx d) (b_io_busy d) in
  let '(r, s) := transport_setup_queue s QUEUE_INDEX (Z.of_nat BLK_QUEUE_SIZE) (la_desc la) (la_avail la) (la_used la) in
  match r with
  | inl _ => (false, d, s)
  | inr _ =>
      let q := bus_queue s in
      let s := set_queue s (mk_bq (blk_chain la (bq_desc q)) (bq_avail q) (bq_used q) (bq_request q)) in
      (true, mk_blk (b_capacity d) la 0 0 (b_io_busy d), s)
  end.

Definition blk_read_capacity (d : VirtioBlk) (s : S) : VirtioBlk :=
  mk_blk (read_config64 s 0) (b_layout d) (b_free_head d) (b_last_used_idx d) (b_io_busy d).

Definition blk_init_hw (d : VirtioBlk) (s : S) : (DriverErr + unit) * VirtioBlk * S :=
  let '(r, s) := handshake s DEVICE_ID_BLOCK allow_legacy in
  match r with
  | inl e => (inl e, d, s)
  | inr _ =>
      let '(ok, d, s) := blk_setup_queue d s in
      if negb ok then (inl InitFailed, d, s) else
      let s := set_status_bits s DRIVER_OK in
      (inr (), blk_read_capacity d s, s)
  end.

(** The polling loop: whether the used index moved, and to what. *)
Fixpoint blk_poll (n : nat) (last : Z) (s : S) : option Z * S :=
  match n with
  | O => (None, s)
  | Datatypes.S n =>
      let s := tick s in
      let used_idx := us_idx (bq_used (bus_queue s)) in
      if negb (used_idx =? last)%Z then (Some used_idx, s) else blk_poll n last s
  end.

(** The header and the available ring. *)
Definition blk_submit (sector : Z) (s : S) : exec S :=
  let q := bus_queue s in
  let rq := mk_request VIRTIO_BLK_T_IN 0 sector (rq_data (bq_request q)) 0xFF in
  let s := set_queue s (mk_bq (bq_desc q) (bq_avail q) (bq_used q) rq) in
  let q := bus_queue s in
  avail ← offer BLK_QUEUE_SIZE (bq_avail q);
  Done (set_queue s (mk_bq (bq_desc q) avail (bq_used q) (bq_request q))).

Definition set_last (d : VirtioBlk) (last : Z) : VirtioBlk := mk_blk (b_capacity d) (b_layout d) (b_free_head d) last (b_io_busy d).
Definition set_busy (d : VirtioBlk) (busy : bool) : VirtioBlk := mk_blk (b_capacity d) (b_layout d) (b_free_head d) (b_last_used_idx d) busy.

Definition read_sector_locked (d : VirtioBlk) (s : S) (sector : Z) (buf : list Z) : exec (bool * list Z * VirtioBlk * S) :=
  s ← blk_submit sector s;
  let s := notify_queue s QUEUE_INDEX in
  let '(r, s) := blk_poll poll_limit (b_last_used_idx d) s in
  match r with
  | None => Done (false, buf, d, s)
  | Some used_idx =>
      let d := set_last d used_idx in
      let '(_, s) := ack_interrupts s in
      let rq := bq_request (bus_queue s) in
      if (rq_status rq =? 0)%Z then
        if bool_decide (length buf = length (rq_data rq)) then Done (true, rq_data rq, d, s) else Stuck
      else Done (false, buf, d, s)
  end.

Definition read_sector (d : VirtioBlk) (s : S) (sector : Z) (buf : list Z) : exec (bool * list Z * VirtioBlk * S) :=
  if b_io_busy d then Done (false, buf, set_busy d true, s) else
  '(result, buf, d, s) ← read_sector_locked (set_busy d true) s sector buf;
  Done (result, buf, set_busy d false, s).

Definition blk_handle_irq (irq_num : Z) (s : S) (irq_id : Z) : bool * S :=
  if negb (irq_id =? irq_num)%Z then (false, s) else let '(_, s) := ack_interrupts s in (true, s).

(** [block_count as usize]. *)
Definition block_count (d : VirtioBlk) : Z := wrap w (b_capacity d).

Definition read_block (d : VirtioBlk) (s : S) (block_id : Z) (buf : list Z) : exec ((DriverErr + unit) * list Z * VirtioBlk * S) :=
  '(ok, sector_buf, d, s) ← read_sector d s block_id (replicate 512 0%Z);
  if negb ok then Done (inl HardwareFault, buf, d, s) else
  let copy_len := Nat.min (length buf) 512 in
  buf ← copy_prefix buf sector_buf copy_len;
  Done (inr (), buf, d, s).

Definition write_block (block_id : Z) (buf : list Z) : DriverErr + unit := inl NotSupported.
End blk.

(** ** The entropy driver *)

Definition RNG_QUEUE_SIZE : nat := 8.
Definition RNG_BUF_SIZE : nat := 256.
(** The static memory of its queue. *)
Definition RNG_QUEUE_MEM : Z := 8192.

Record RngQueue : Type := mk_rq { gq_desc : list VirtqDesc; gq_avail : VirtqAvail; gq_used : VirtqUsed; gq_entropy : list Z }.
Definition rq_zero : RngQueue :=
  mk_rq (replicate RNG_QUEUE_SIZE desc_zero) (mk_avail 0 0 (replicate RNG_QUEUE_SIZE 0%Z)) (mk_used 0 0 (replicate RNG_QUEUE_SIZE (mk_used_elem 0 0)))
    (replicate RNG_BUF_SIZE 0%Z).

Record RngLayout : Type := mk_rng_layout { ra_desc : Z; ra_avail : Z; ra_used : Z; ra_entropy : Z }.
Definition SIZEOF_RNG_USED : Z := 4 + 8 * Z.of_nat RNG_QUEUE_SIZE.
Definition rng_layout (w base : Z) : RngLayout :=
  let aligned := align_up w 4095 base in
  let entropy_off := align_up w 7 SIZEOF_RNG_USED in
  mk_rng_layout aligned (aligned + Z.of_nat RNG_QUEUE_SIZE * 16) (aligned + 4096) (aligned + 4096 + entropy_off).
(** How far the memory is cleared, and used. *)
Definition rng_end (w base : Z) : Z := ra_entropy (rng_layout w base) + Z.of_nat RNG_BUF_SIZE.

Class RngBus (S : Type) `{!MmioDevice S} : Type := {
  rng_queue : S → RngQueue;
  set_rng_queue : S → RngQueue → S;
  rng_tick : S → S;
}.

Record VirtioRng : Type := mk_rng { g_layout : RngLayout; g_last_used_idx : Z; g_io_busy : bool }.
Definition rng_new : VirtioRng := mk_rng (mk_rng_layout 0 0 0 0) 0 false.

Section rng.
Context {S : Type} `{!MmioDevice S} `{!RngBus S}.
Context (w queue_mem : Z) (allow_legacy : bool) (poll_limit : nat).

Definition rng_setup_queue (d : VirtioRng) (s : S) : bool * VirtioRng * S :=
  let la := rng_layout w queue_mem in
  let s := set_rng_queue s rq_zero in
  let '(r, s) := transport_setup_queue s QUEUE_INDEX (Z.of_nat RNG_QUEUE_SIZE) (ra_desc la) (ra_avail la) (ra_used la) in
  match r with
  | inl _ => (false, mk_rng la (g_last_used_idx d) (g_io_busy d), s)
  | inr _ =>
      let q := rng_queue s in
      let desc := mk_desc (ra_entropy la) (Z.of_nat RNG_BUF_SIZE) WRITE 0 in
      let s := set_rng_queue s (mk_rq (<[0 := desc]> (gq_desc q)) (gq_avail q) (gq_used q) (gq_entropy q)) in
      (true, mk_rng la 0 (g_io_busy d), s)
  end.

Definition rng_init_hw (d : VirtioRng) (s : S) : (DriverErr + unit) * VirtioRng * S :=
  let '(r, s) := handshake s DEVICE_ID_RNG allow_legacy in
  match r with
  | inl e => (inl e, d, s)
  | inr _ =>
      let '(ok, d, s) := rng_setup_queue d s in
      if negb ok then (inl InitFailed, d, s) else (inr (), d, set_status_bits s DRIVER_OK)
  end.

(** The polling loop: the used index and the length of the element used. *)
Fixpoint rng_poll (n : nat) (last : Z) (s : S) : exec (option (Z * Z) * S) :=
  match n with
  | O => Done (None, s)
  | Datatypes.S n =>
      let s := rng_tick s in
      let used := gq_used (rng_queue s) in
      if negb (us_idx used =? last)%Z then
        e ← get_exec (us_ring used !! (Z.to_nat last `mod` RNG_QUEUE_SIZE)); Done (Some (us_idx used, ue_len e), s)
      else rng_poll n last s
  end.

Definition rng_submit (want : nat) (s : S) : exec S :=
  let q := rng_queue s in
  let d0 := nth 0 (gq_desc q) desc_zero in
  let desc := <[0 := mk_desc (d_addr d0) (Z.of_nat want) (d_flags d0) (d_next d0)]> (gq_desc q) in
  avail ← offer RNG_QUEUE_SIZE (gq_avail q);
  Done (set_rng_queue s (mk_rq desc avail (gq_used q) (replicate RNG_BUF_SIZE 0%Z))).

Definition fill_bytes_locked (d : VirtioRng) (s : S) (buf : list Z) : exec ((DriverErr + nat) * list Z * VirtioRng * S) :=
  let want := Nat.min (length buf) RNG_BUF_SIZE in
  s ← rng_submit want s;
  let s := notify_queue s QUEUE_INDEX in
  '(r, s) ← rng_poll poll_limit (g_last_used_idx d) s;
  match r with
  | None => Done (inl Timeout, buf, d, s)
  | Some (used_idx, used_len) =>
      let d := mk_rng (g_layout d) used_idx (g_io_busy d) in
      let '(_, s) := ack_interrupts s in
      let n := Nat.min (Z.to_nat used_len) want in
      buf ← copy_prefix buf (gq_entropy (rng_queue s)) n;
      Done (inr n, buf, d, s)
  end.

Definition fill_bytes (d : VirtioRng) (s : S) (buf : list Z) : exec ((DriverErr + nat) * list Z * VirtioRng * S) :=
  if bool_decide (buf = []) then Done (inr 0, buf, d, s) else
  let busy d b := mk_rng (g_layout d) (g_last_used_idx d) b in
  if g_io_busy d then Done (inl DriverBusy, buf, busy d true, s) else
  '(result, buf, d, s) ← fill_bytes_locked (busy d true) s buf;
  Done (result, buf, busy d false, s).
End rng.

(** ** Static pools of drivers *)

Record StaticDriverPool (T : Type) : Type := mk_pool { pool_slots : list (option T); pool_next : Z }.
Arguments mk_pool {T}. Arguments pool_slots {T}. Arguments pool_next {T}.
Definition pool_new {T} (n : nat) : StaticDriverPool T := mk_pool (replicate n None) 0.

(** The index of the slot that the value got. *)
Definition pool_alloc {T} (p : StaticDriverPool T) (value : T) : exec (option nat * StaticDriverPool T) :=
  let idx := pool_next p in
  let next := wrapping_add 64 idx 1 in
  if (Z.of_nat (length (pool_slots p)) <=? idx)%Z then Done (None, mk_pool (pool_slots p) next) else
  slots ← put_exec (pool_slots p) (Z.to_nat idx) (Some value);
  Done (Some (Z.to_nat idx), mk_pool slots next).

Section probe.
Context {S : Type} `{!MmioDevice S} `{!BlkBus S} `{!RngBus S}.
Context (w queue_mem : Z) (allow_legacy : bool).

(** [VirtioBlkFactory::probe]: the slot of the driver when it is found. *)
Definition blk_probe (pool : StaticDriverPool VirtioBlk) (s : S) : exec (option nat * StaticDriverPool VirtioBlk * S) :=
  if negb (read32 s DEVICE_ID =? DEVICE_ID_BLOCK)%Z then Done (None, pool, s) else
  '(slot, pool) ← pool_alloc pool blk_new;
  match slot with
  | None => Done (None, pool, s)
  | Some i =>
      let '(r, d, s) := blk_init_hw w queue_mem allow_legacy blk_new s in
      slots ← put_exec (pool_slots pool) i (Some d);
      Done (match r with inr _ => Some i | inl _ => None end, mk_pool slots (pool_next pool), s)
  end.

Definition rng_probe (pool : StaticDriverPool VirtioRng) (s : S) : exec (option nat * StaticDriverPool VirtioRng * S) :=
  if negb (read32 s DEVICE_ID =? DEVICE_ID_RNG)%Z then Done (None, pool, s) else
  '(slot, pool) ← pool_alloc pool rng_new;
  match slot with
  | None => Done (None, pool, s)
  | Some i =>
      let '(r, d, s) := rng_init_hw w queue_mem allow_legacy rng_new s in
      slots ← put_exec (pool_slots pool) i (Some d);
      Done (match r with inr _ => Some i | inl _ => None end, mk_pool slots (pool_next pool), s)
  end.
End probe.
