(* ===== verification/VirtioProps.v ===== *)
(** * What the VirtIO drivers promise *)

From S2P Require Export Prelude.
From S2P Require Export Str.
From S2P Require Export Drivers.
From S2P Require Export Virtio.

(** ** A conforming block device *)

Definition chain_ok (la : BlkLayout) (descs : list VirtqDesc) : Prop :=
  descs !! 0 = Some (mk_desc (la_request la) 16 NEXT 1)
  ∧ descs !! 1 = Some (mk_desc (la_request la + 16) 512 (Z.lor NEXT WRITE) 2)
  ∧ ∃ n, descs !! 2 = Some (mk_desc (la_request la + 16 + 512) 1 WRITE n).

(** The request was served: data and status were written before the used index
    moved by one. *)
Record completed_for (disk : Z → option (list Z)) (sector : Z) (q q' : BlkQueue) : Prop := {
  cf_desc : bq_desc q' = bq_desc q;
  cf_avail : bq_avail q' = bq_avail q;
  cf_used : us_idx (bq_used q') = wrapping_add 16 (us_idx (bq_used q)) 1;
  cf_len : length (rq_data (bq_request q')) = 512;
  cf_data : rq_status (bq_request q') = 0%Z → disk sector = Some (rq_data (bq_request q'));
}.

Section laws.
Context {S : Type} `{!MmioDevice S} `{!BlkBus S}.
Context (disk : Z → option (list Z)) (la : BlkLayout) (idle : S → Prop) (serving : Z → S → Prop).

(** What the specification says of a device that read the queue set up at
    [la]: nothing happens to the memory while it is idle; a chain that is
    offered is served with the sector that the header named then, after any
    number of steps. *)
Record BlkDeviceLaws : Prop := {
  bl_set : ∀ s q, bus_queue (set_queue s q) = q;
  bl_idle : ∀ s, idle s → idle (tick s) ∧ bus_queue (tick s) = bus_queue s;
  bl_header : ∀ s rq, idle s → let q := bus_queue s in idle (set_queue s (mk_bq (bq_desc q) (bq_avail q) (bq_used q) rq));
  bl_offer : ∀ s a, idle s → let q := bus_queue s in chain_ok la (bq_desc q) → offer BLK_QUEUE_SIZE (bq_avail q) = Done a →
    rq_type (bq_request q) = VIRTIO_BLK_T_IN → serving (rq_sector (bq_request q)) (set_queue s (mk_bq (bq_desc q) a (bq_used q) (bq_request q)));
  bl_notify : ∀ x s, serving x s → serving x (write32 s QUEUE_NOTIFY QUEUE_INDEX) ∧ bus_queue (write32 s QUEUE_NOTIFY QUEUE_INDEX) = bus_queue s;
  bl_serve : ∀ x s, serving x s →
    (serving x (tick s) ∧ let q := bus_queue s in let q' := bus_queue (tick s) in bq_desc q' = bq_desc q ∧ bq_avail q' = bq_avail q ∧ bq_used q' = bq_used q)
    ∨ idle (tick s) ∧ completed_for disk x (bus_queue s) (bus_queue (tick s));
  bl_ack : ∀ s v, idle s → idle (write32 s INTERRUPT_ACK v) ∧ bus_queue (write32 s INTERRUPT_ACK v) = bus_queue s;
}.

(** Driver and device agree: the device is idle, the driver knows its index. *)
Record blk_ready (d : VirtioBlk) (s : S) : Prop := {
  br_idle : idle s;
  br_chain : chain_ok la (bq_desc (bus_queue s));
  br_ring : length (av_ring (bq_avail (bus_queue s))) = BLK_QUEUE_SIZE;
  br_used : in_width 16 (us_idx (bq_used (bus_queue s)));
  br_last : b_last_used_idx d = us_idx (bq_used (bus_queue s));
  br_free : b_io_busy d = false;
}.

Context (laws : BlkDeviceLaws).

Lemma next_used (x : Z) : in_width 16 x → wrapping_add 16 x 1 ≠ x ∧ in_width 16 (wrapping_add 16 x 1).
Proof.
  intros Hx. split; [|by apply wrap_range]. unfold wrapping_add, wrap, in_width in *. intros Heq.
  destruct (decide (x + 1 < 2 ^ 16)%Z) as [Hlt|Hge]; [rewrite Z.mod_small in Heq by lia; lia|].
  assert (x + 1 = 2 ^ 16)%Z as Hx1 by lia. rewrite Hx1, Z_mod_same_full in Heq. lia.
Qed.

Lemma blk_poll_spec (sector : Z) (n : nat) : ∀ s last, serving sector s → in_width 16 last → last = us_idx (bq_used (bus_queue s)) →
  (∃ s', blk_poll n last s = (None, s') ∧ serving sector s')
  ∨ ∃ s0 s', blk_poll n last s = (Some (wrapping_add 16 last 1), s') ∧ idle s' ∧ completed_for disk sector (bus_queue s0) (bus_queue s')
    ∧ bq_desc (bus_queue s0) = bq_desc (bus_queue s) ∧ bq_avail (bus_queue s0) = bq_avail (bus_queue s) ∧ bq_used (bus_queue s0) = bq_used (bus_queue s).
Proof.
  induction n as [|n IH]; intros s last Hs Hw Hl; cbn [blk_poll]; [left; by exists s|].
  destruct (bl_serve laws sector s Hs) as [(Hs'&Hd&Ha&Hu)|[Hi Hc]].
  - rewrite Hu, <- Hl, Z.eqb_refl. cbn [negb]. destruct (IH (tick s) last Hs' Hw ltac:(by rewrite Hu)) as [?|(s0&s'&?&?&?&?&?&?)]; [by left|right].
    exists s0, s'. split_and!; congruence || done.
  - right. exists s, (tick s). rewrite (cf_used _ _ _ _ Hc), <- Hl. destruct (next_used last Hw) as [Hne _].
    destruct (Z.eqb_spec (wrapping_add 16 last 1) last); [done|]. by split_and!.
Qed.

Lemma submit_spec (d : VirtioBlk) (s : S) (sector : Z) : blk_ready d s →
  ∃ s', blk_submit sector s = Done s' ∧ serving sector s' ∧ bq_desc (bus_queue s') = bq_desc (bus_queue s)
    ∧ bq_used (bus_queue s') = bq_used (bus_queue s) ∧ length (av_ring (bq_avail (bus_queue s'))) = BLK_QUEUE_SIZE.
Proof.
  intros [Hi Hc Hr Hu Hl Hf]. unfold blk_submit. set (q := bus_queue s) in *. set (rq := mk_request _ _ _ _ _).
  set (s1 := set_queue s (mk_bq (bq_desc q) (bq_avail q) (bq_used q) rq)).
  assert (Hq1 : bus_queue s1 = mk_bq (bq_desc q) (bq_avail q) (bq_used q) rq) by apply (bl_set laws).
  assert (Hi1 : idle s1) by by apply (bl_header laws).
  assert (Hoff : ∃ a, offer BLK_QUEUE_SIZE (bq_avail q) = Done a ∧ length (av_ring a) = BLK_QUEUE_SIZE).
  { unfold offer. rewrite put_exec_Done by (rewrite Hr; apply Nat.mod_upper_bound; done). cbn [mbind exec_bind]. eexists. split; [done|].
    cbn [av_ring]. by rewrite length_insert. }
  destruct Hoff as (a&Ha&Hla). rewrite Hq1. cbn [bq_desc bq_avail bq_used bq_request]. rewrite Ha. cbn [mbind exec_bind]. eexists. split; [done|].
  rewrite (bl_set laws). cbn [bq_desc bq_avail bq_used]. split_and!; try done.
  pose proof (bl_offer laws s1 a Hi1) as Hof. rewrite Hq1 in Hof. cbn [bq_desc bq_avail bq_used bq_request] in Hof. by apply (Hof Hc Ha).
Qed.

Lemma ack_spec (s : S) : idle s → ∃ v s', ack_interrupts s = (v, s') ∧ idle s' ∧ bus_queue s' = bus_queue s.
Proof.
  intros Hi. unfold ack_interrupts. destruct (negb _); [|by eexists _, s]. eexists _, _. split; [done|]. by apply (bl_ack laws).
Qed.

(** A read, on every outcome. *)
Lemma read_sector_spec (poll_limit : nat) (d : VirtioBlk) (s : S) (sector : Z) (buf : list Z) : blk_ready d s → length buf = 512 →
  ∃ ok buf' d' s', read_sector poll_limit d s sector buf = Done (ok, buf', d', s') ∧
    if ok : bool then disk sector = Some buf' ∧ length buf' = 512 ∧ blk_ready d' s'
    else buf' = buf ∧ (blk_ready d' s' ∨ serving sector s' ∧ b_last_used_idx d' = b_last_used_idx d ∧ b_io_busy d' = false).
Proof.
  intros Hr Hb. destruct (submit_spec d s sector Hr) as (s1&Hsub&Hsv&Hd1&Hu1&Hring). pose proof Hr as [Hi Hc Hrl Hu Hl Hf]. unfold read_sector. rewrite Hf.
  unfold read_sector_locked. rewrite Hsub. cbn [mbind exec_bind]. unfold notify_queue. destruct (bl_notify laws sector s1 Hsv) as [Hsv2 Hq2].
  set (s2 := write32 s1 QUEUE_NOTIFY QUEUE_INDEX) in *. cbn [set_busy b_last_used_idx].
  assert (Hl2 : b_last_used_idx d = us_idx (bq_used (bus_queue s2))) by (rewrite Hq2, Hu1; exact Hl).
  destruct (blk_poll_spec sector poll_limit s2 (b_last_used_idx d) Hsv2 ltac:(by rewrite Hl) Hl2) as [(s3&->&Hsv3)|(s0&s3&->&Hi3&Hcf&Hd0&Ha0&Hu0)].
  { cbn [mbind exec_bind]. eexists false, buf, _, s3. split; [done|]. split; [done|right]. by split_and!. }
  destruct (ack_spec s3 Hi3) as (v&s4&->&Hi4&Hq4). rewrite Hq4. destruct Hcf as [Hcd Hca Hcu Hcl Hdata].
  assert (Hready : blk_ready (set_busy (set_last (set_busy d true) (wrapping_add 16 (b_last_used_idx d) 1)) false) s4).
  { split; rewrite ?Hq4; try done.
    - rewrite Hcd, Hd0, Hq2, Hd1. exact Hc.
    - rewrite Hca, Ha0, Hq2. exact Hring.
    - rewrite Hcu. by apply next_used; rewrite Hu0, Hq2, Hu1.
    - rewrite Hcu, Hu0, Hq2, Hu1. cbn. by rewrite Hl. }
  destruct (Z.eqb_spec (rq_status (bq_request (bus_queue s3))) 0) as [Hst|Hst].
  - rewrite bool_decide_true by (by rewrite Hb, Hcl). cbn [mbind exec_bind]. eexists true, _, _, s4. split; [done|]. split; [by apply Hdata|]. by split.
  - cbn [mbind exec_bind]. eexists false, buf, _, s4. split; [done|]. split; [done|]. by left.
Qed.
End laws.

(** ** The registers *)

Section regs.
Context {S : Type} `{!MmioDevice S}.

Definition writes (s : S) (l : list (Z * Z)) : S := fold_left (λ s '(off, v), write32 s off v) l s.

(** What the specification says of the registers the drivers use: the
    identification does not change, the features are read by halves, and the
    status reads back as it was written, without [FEATURES_OK] when the device
    does not accept the features. *)
Record RegisterLaws (version device_id lo hi num_max : Z) (accepts : bool) : Prop := {
  rl_magic : ∀ s, read32 s MAGIC = MMIO_MAGIC_VALUE;
  rl_version : ∀ s, read32 s VERSION = version;
  rl_device : ∀ s, read32 s DEVICE_ID = device_id;
  rl_lo : ∀ s, read32 (write32 s DEVICE_FEATURES_SEL 0) DEVICE_FEATURES = lo;
  rl_hi : ∀ s, read32 (write32 s DEVICE_FEATURES_SEL 1) DEVICE_FEATURES = hi;
  rl_num : ∀ s, read32 s QUEUE_NUM_MAX = num_max;
  rl_status : ∀ s v, read32 (write32 s STATUS v) STATUS = if accepts then v else Z.land v (lnot_w 32 FEATURES_OK);
  rl_other : ∀ s off v, off ≠ STATUS → read32 (write32 s off v) STATUS = read32 s STATUS;
}.

(** The writes of a handshake: up to the features, and when they are agreed. *)
Definition begin_writes : list (Z * Z) := [(STATUS, 0); (STATUS, 1); (STATUS, 3); (DEVICE_FEATURES_SEL, 0); (DEVICE_FEATURES_SEL, 1)]%Z.
Definition feature_writes (hi : Z) : list (Z * Z) :=
  [(DRIVER_FEATURES_SEL, 0); (DRIVER_FEATURES, 0); (DRIVER_FEATURES_SEL, 1); (DRIVER_FEATURES, hi); (STATUS, 11)]%Z.

Definition device_refused (version device_id expected : Z) (allow_legacy : bool) : option DriverErr :=
  if (version =? 1)%Z then (if negb allow_legacy then Some InvalidConfig else if (device_id =? expected)%Z then None else Some InitFailed)
  else if (version =? 2)%Z && (device_id =? expected)%Z then None else Some InitFailed.

(** The test of [FEATURES_OK] in a status that is known. *)
Ltac accepted_bit :=
  match goal with |- context [(Z.land ?a FEATURES_OK =? 0)%Z] =>
    let c := constr:((Z.land a FEATURES_OK =? 0)%Z) in let b := eval vm_compute in c in change c with b; cbn beta iota
  end.

Lemma handshake_spec (version device_id lo hi num_max expected : Z) (accepts allow_legacy : bool) (s : S) :
  RegisterLaws version device_id lo hi num_max accepts →
  handshake s expected allow_legacy = match device_refused version device_id expected allow_legacy with
    | Some e => (inl e, s)
    | None =>
        if (version =? 2)%Z && (Z.land hi 1 =? 0)%Z then (inl InvalidConfig, writes s (begin_writes ++ [(STATUS, 131%Z)]))
        else let s := writes s (begin_writes ++ feature_writes (if (version =? 2)%Z then 1 else 0)%Z) in
             if accepts then (inr version, s) else (inl InvalidConfig, writes s [(STATUS, 131%Z)])
    end.
Proof.
  intros [Hm Hv Hd Hlo Hhi _ Hst Ho]. unfold handshake, validate_device, device_refused. rewrite Hm, Hv, Hd. change (MMIO_MAGIC_VALUE =? MMIO_MAGIC_VALUE)%Z with true. cbn [negb].
  unfold MMIO_VERSION_LEGACY, MMIO_VERSION_MODERN.
  assert (Hgo : ∀ ver, (ver = 1 ∨ ver = 2)%Z →
    (let s0 := reset s in let s1 := set_status_bits s0 ACKNOWLEDGE in let s2 := set_status_bits s1 DRIVER in
     let '(r, s3) := negotiate_features s2 ver features_empty in match r with inl _ => (inl InvalidConfig, fail s3) | inr _ => (inr ver, s3) end)
    = if (ver =? 2)%Z && (Z.land hi 1 =? 0)%Z then (@inl DriverErr Z InvalidConfig, writes s (begin_writes ++ [(STATUS, 131%Z)]))
      else let s := writes s (begin_writes ++ feature_writes (if (ver =? 2)%Z then 1 else 0)%Z) in
           if accepts then (inr ver, s) else (inl InvalidConfig, writes s [(STATUS, 131%Z)])).
  { intros ver Hver. unfold reset. cbv zeta.
    assert (H1 : set_status_bits (write32 s STATUS 0) ACKNOWLEDGE = write32 (write32 s STATUS 0) STATUS 1).
    { unfold set_status_bits. rewrite Hst. by destruct accepts. }
    rewrite H1. assert (H2 : set_status_bits (write32 (write32 s STATUS 0) STATUS 1) DRIVER = write32 (write32 (write32 s STATUS 0) STATUS 1) STATUS 3).
    { unfold set_status_bits. rewrite Hst. by destruct accepts. }
    rewrite H2. set (s1 := write32 (write32 (write32 s STATUS 0) STATUS 1) STATUS 3).
    assert (Hs1 : read32 s1 STATUS = 3%Z) by (unfold s1; rewrite Hst; by destruct accepts).
    unfold negotiate_features, device_features, write_driver_features, set_status_bits. rewrite Hlo, Hhi. cbv zeta beta iota.
    unfold features_empty, with_modern, fail, set_status_bits, MMIO_VERSION_MODERN. cbn [fe_lo fe_hi]. rewrite !Z.land_0_r, Z.lor_0_l. change (Z.shiftl 1 (32 - 32)) with 1%Z.
    rewrite !Hst, !Ho, Hs1 by done. destruct Hver as [-> | ->]; cbn [Z.eqb Pos.eqb andb].
    - destruct accepts; accepted_bit; rewrite ?Hst; reflexivity.
    - destruct (Z.land hi 1 =? 0)%Z; [cbn beta iota; by rewrite !Ho, Hs1 by done|]. destruct accepts; accepted_bit; rewrite ?Hst; reflexivity. }
  destruct (Z.eqb_spec version 1) as [->|H1]; cbn [negb andb].
  - destruct allow_legacy; cbn [negb]; [|done]. destruct (device_id =? expected)%Z; cbn [negb]; [|done]. apply Hgo. by left.
  - destruct (Z.eqb_spec version 2) as [->|H2]; cbn [negb andb]; [|done]. destruct (device_id =? expected)%Z; cbn [negb]; [|done]. apply Hgo. by right.
Qed.
End regs.

(** ** Memory *)

Lemma align_up_pow2 (k n : nat) (w x : Z) : n = 2 ^ k - 1 → (0 <= x)%Z → (x + 2 ^ Z.of_nat k <= 2 ^ w)%Z → (Z.of_nat k <= w)%Z →
  let a := align_up w (2 ^ Z.of_nat k - 1) x in (x <= a < x + 2 ^ Z.of_nat k)%Z ∧ (a mod 2 ^ Z.of_nat k = 0)%Z.
Proof.
  intros _ Hx Hw Hk. set (p := (2 ^ Z.of_nat k)%Z) in *. assert (Hp : (0 < p)%Z) by (apply Z.pow_pos_nonneg; lia). unfold align_up.
  assert (Ha : Z.land (x + (p - 1)) (lnot_w w (p - 1)) = ((x + (p - 1)) / p * p)%Z).
  { assert (Hin : in_width w (x + (p - 1))) by (unfold in_width; lia).
    assert (Hdiv : ((x + (p - 1)) / p * p)%Z = Z.shiftl (Z.shiftr (x + (p - 1)) (Z.of_nat k)) (Z.of_nat k)).
    { by rewrite Z.shiftl_mul_pow2, Z.shiftr_div_pow2 by lia. }
    rewrite Hdiv. set (y := (x + (p - 1))%Z) in *. assert (Hones : (p - 1)%Z = Z.ones (Z.of_nat k)) by (rewrite Z.ones_equiv; subst p; lia).
    rewrite Hones. apply Z.bits_inj'. intros i Hi. rewrite Z.land_spec, testbit_lnot_w by lia.
    destruct (decide (i < Z.of_nat k)%Z) as [Hlt|Hge].
    - rewrite (Z.shiftl_spec_low _ _ _ Hlt), Z.ones_spec_low by lia. by rewrite !andb_false_r.
    - rewrite Z.shiftl_spec, Z.shiftr_spec by lia. replace (i - Z.of_nat k + Z.of_nat k)%Z with i by lia. rewrite Z.ones_spec_high by lia.
      cbn [negb]. rewrite andb_true_r. case_bool_decide; [by rewrite andb_true_r|]. rewrite andb_false_r. symmetry. apply (testbit_high w); [done|lia]. }
  rewrite Ha. split; [|apply Z_mod_mult]. pose proof (Z.div_mod (x + (p - 1)) p ltac:(lia)) as Hd. pose proof (Z.mod_pos_bound (x + (p - 1)) p Hp) as Hm. lia.
Qed.

Lemma align_4096 (w x : Z) : (0 <= x)%Z → (x + 4096 <= 2 ^ w)%Z → (12 <= w)%Z →
  let a := align_up w 4095 x in (x <= a < x + 4096)%Z ∧ (a mod 4096 = 0)%Z.
Proof. intros Hx Hw Hk. apply (align_up_pow2 12 4095 w x); [by vm_compute|done|exact Hw|exact Hk]. Qed.

Lemma align_8 (w : Z) : (8 <= w)%Z → align_up w 7 SIZEOF_BLK_USED = 136%Z ∧ align_up w 7 SIZEOF_RNG_USED = 72%Z.
Proof.
  intros Hw. assert (Hp : (2 ^ 8 <= 2 ^ w)%Z) by (apply Z.pow_le_mono_r; lia). change (2 ^ 8)%Z with 256%Z in Hp.
  destruct (align_up_pow2 3 7 w 132 ltac:(done) ltac:(lia) ltac:(cbn; lia) ltac:(lia)) as [H1 H2].
  destruct (align_up_pow2 3 7 w 68 ltac:(done) ltac:(lia) ltac:(cbn; lia) ltac:(lia)) as [H3 H4].
  change (2 ^ Z.of_nat 3)%Z with 8%Z in *. change (8 - 1)%Z with 7%Z in *. unfold SIZEOF_BLK_USED, SIZEOF_RNG_USED, BLK_QUEUE_SIZE, RNG_QUEUE_SIZE.
  change (4 + 8 * Z.of_nat 16)%Z with 132%Z. change (4 + 8 * Z.of_nat 8)%Z with 68%Z. split; divmod.
Qed.

(** ** Setting up *)

Lemma blk_chain_ok (la : BlkLayout) (descs : list VirtqDesc) : length descs = BLK_QUEUE_SIZE → chain_ok la (blk_chain la descs).
Proof.
  intros Hl. unfold blk_chain, chain_ok. change BLK_QUEUE_SIZE with 16 in Hl. split_and!.
  - by rewrite list_lookup_insert_eq by (rewrite !length_insert; lia).
  - rewrite list_lookup_insert_ne by done. by rewrite list_lookup_insert_eq by (rewrite !length_insert; lia).
  - eexists. rewrite !list_lookup_insert_ne by done. by rewrite list_lookup_insert_eq by lia.
Qed.

(** ** A device to try the properties on

    It serves a request [latency] steps after it saw it. *)

Record DemoDevice : Type := mk_demo_dev {
  dd_status : Z;
  dd_sel : Z;
  dd_queue : BlkQueue;
  dd_seen : Z;
  dd_pending : option (nat * Z);
}.

Definition demo_data_of (sector : Z) : list Z := replicate 512 (sector mod 256)%Z.
Definition demo_sectors (sector : Z) : option (list Z) := if (0 <=? sector)%Z && (sector <? 8)%Z then Some (demo_data_of sector) else None.

Section demo.
Context (latency : nat).

#[local] Instance demo_mmio : MmioDevice DemoDevice := {
  read32 s off :=
    if (off =? MAGIC)%Z then MMIO_MAGIC_VALUE else if (off =? VERSION)%Z then 2%Z else if (off =? DEVICE_ID)%Z then DEVICE_ID_BLOCK else
    if (off =? DEVICE_FEATURES)%Z then dd_sel s else if (off =? QUEUE_NUM_MAX)%Z then 64%Z else if (off =? STATUS)%Z then dd_status s else
    if (off =? 0x100)%Z then 8%Z else 0%Z;
  write32 s off v :=
    if (off =? STATUS)%Z then mk_demo_dev v (dd_sel s) (dd_queue s) (dd_seen s) (dd_pending s) else
    if (off =? DEVICE_FEATURES_SEL)%Z then mk_demo_dev (dd_status s) v (dd_queue s) (dd_seen s) (dd_pending s) else s;
}.

(** The device writes the data and the status, then the used index. *)
Definition demo_finish (q : BlkQueue) (sector : Z) : BlkQueue :=
  let rq := bq_request q in
  let rq := match demo_sectors sector with
    | Some d => mk_request (rq_type rq) (rq_reserved rq) (rq_sector rq) d 0
    | None => mk_request (rq_type rq) (rq_reserved rq) (rq_sector rq) (replicate 512 0%Z) 1
    end in
  mk_bq (bq_desc q) (bq_avail q) (mk_used (us_flags (bq_used q)) (wrapping_add 16 (us_idx (bq_used q)) 1) (us_ring (bq_used q))) rq.

#[local] Instance demo_bus : BlkBus DemoDevice := {
  bus_queue := dd_queue;
  set_queue s q := mk_demo_dev (dd_status s) (dd_sel s) q (dd_seen s) (dd_pending s);
  tick s :=
    match dd_pending s with
    | Some (Datatypes.S n, x) => mk_demo_dev (dd_status s) (dd_sel s) (dd_queue s) (dd_seen s) (Some (n, x))
    | Some (O, x) => mk_demo_dev (dd_status s) (dd_sel s) (demo_finish (dd_queue s) x) (dd_seen s) None
    | None =>
        if (dd_seen s =? av_idx (bq_avail (dd_queue s)))%Z then s else
        mk_demo_dev (dd_status s) (dd_sel s) (dd_queue s) (wrapping_add 16 (dd_seen s) 1) (Some (latency, rq_sector (bq_request (dd_queue s))))
    end;
}.

Definition demo_idle (s : DemoDevice) : Prop := dd_pending s = None ∧ dd_seen s = av_idx (bq_avail (dd_queue s)) ∧ in_width 16 (dd_seen s).
Definition demo_serving (x : Z) (s : DemoDevice) : Prop := in_width 16 (dd_seen s) ∧
  match dd_pending s with
  | Some (_, y) => y = x ∧ dd_seen s = av_idx (bq_avail (dd_queue s))
  | None => av_idx (bq_avail (dd_queue s)) = wrapping_add 16 (dd_seen s) 1 ∧ rq_sector (bq_request (dd_queue s)) = x
  end.

Lemma demo_laws (la : BlkLayout) : BlkDeviceLaws demo_sectors la demo_idle demo_serving.
Proof.
  split; cbn [bus_queue set_queue tick write32 demo_bus demo_mmio]; try done.
  - intros s (Hp&Hs&Hw). rewrite Hp, Hs, Z.eqb_refl. by split.
  - intros s a (Hp&Hs&Hw) _ Hof _. unfold offer in Hof. destruct (put_exec _ _ _); [|done]. cbn in Hof. injection Hof as <-.
    split; [done|]. cbn [dd_pending dd_queue dd_seen bq_avail bq_request av_idx]. rewrite Hp. split; [|done]. rewrite Hs. done.
  - intros x s (Hw&Hs). destruct (dd_pending s) as [[[|n] y]|] eqn:Hp.
    + right. destruct Hs as [-> Hs]. split; [done|]. unfold demo_finish. split; cbn [dd_queue bq_desc bq_avail bq_used us_idx bq_request]; try done.
      * destruct (demo_sectors x) as [d|] eqn:Hd; cbn [rq_data]; [|by rewrite length_replicate]. unfold demo_sectors in Hd. destruct (_ && _); [|done].
        injection Hd as <-. apply length_replicate.
      * destruct (demo_sectors x) as [d|]; [done|]. cbn. lia.
    + left. destruct Hs as [-> Hs]. by split.
    + left. destruct Hs as [Hs Hx]. destruct (next_used (dd_seen s) Hw) as [Hne Hw']. rewrite Hs.
      destruct (Z.eqb_spec (dd_seen s) (wrapping_add 16 (dd_seen s) 1)); [congruence|]. split; [|done]. split; [done|].
      cbn [dd_pending dd_queue dd_seen]. by split.
Qed.

Definition demo_la : BlkLayout := blk_layout 64 0x80001000.
Definition demo_start : DemoDevice :=
  mk_demo_dev 15 1 (mk_bq (blk_chain demo_la (bq_desc bq_zero)) (bq_avail bq_zero) (bq_used bq_zero) (bq_request bq_zero)) 0 None.
Definition demo_driver : VirtioBlk := mk_blk 8 demo_la 0 0 false.

Lemma demo_start_ready : blk_ready demo_la demo_idle demo_driver demo_start.
Proof.
  assert (Hw : in_width 16 0) by (unfold in_width; lia).
  split; [by split|by apply (blk_chain_ok demo_la (replicate BLK_QUEUE_SIZE desc_zero))|..]; done.
Qed.

Lemma demo_regs : RegisterLaws 2 DEVICE_ID_BLOCK 0 1 64 true.
Proof. split; try done. intros s off v Hne. cbn. destruct (Z.eqb_spec off STATUS); [done|]. by destruct (off =? DEVICE_FEATURES_SEL)%Z. Qed.
End demo.

(** The device counts down to the request it works on. *)
Lemma demo_countdown (latency k : nat) (s : DemoDevice) (x last : Z) : ∀ n, k ≤ n → dd_pending s = Some (n, x) → us_idx (bq_used (dd_queue s)) = last →
  blk_poll (BlkBus0 := demo_bus latency) k last s = (None, mk_demo_dev (dd_status s) (dd_sel s) (dd_queue s) (dd_seen s) (Some (n - k, x))).
Proof.
  revert s. induction k as [|k IH]; intros s n Hn Hp Hl; cbn [blk_poll].
  - rewrite Nat.sub_0_r, <- Hp. by destruct s.
  - cbn [tick demo_bus bus_queue]. rewrite Hp. destruct n as [|n]; [lia|]. cbn [dd_queue]. rewrite Hl, Z.eqb_refl. cbn [negb].
    rewrite (IH _ n) by (done || lia). done.
Qed.

(** ** A request that is answered too late *)

Lemma demo_submit (latency : nat) (s : DemoDevice) (x : Z) : length (av_ring (bq_avail (dd_queue s))) = BLK_QUEUE_SIZE →
  ∃ ring, length ring = BLK_QUEUE_SIZE ∧ let q := dd_queue s in
  blk_submit (BlkBus0 := demo_bus latency) x s = Done (mk_demo_dev (dd_status s) (dd_sel s)
    (mk_bq (bq_desc q) (mk_avail (av_flags (bq_avail q)) (wrapping_add 16 (av_idx (bq_avail q)) 1) ring) (bq_used q)
      (mk_request VIRTIO_BLK_T_IN 0 x (rq_data (bq_request q)) 0xFF)) (dd_seen s) (dd_pending s)).
Proof.
  intros Hl. unfold blk_submit, offer. cbn [bus_queue set_queue demo_bus dd_queue bq_avail bq_desc bq_used bq_request].
  rewrite put_exec_Done by (rewrite Hl; apply Nat.mod_upper_bound; done). cbn [mbind exec_bind]. eexists. split; [|done]. by rewrite length_insert.
Qed.

(** After the polls the device still works on the request; its next step
    answers it. *)
Lemma demo_times_out (k : nat) (x : Z) (buf : list Z) : ∃ d q,
  us_idx (bq_used q) = 0%Z ∧ length (av_ring (bq_avail q)) = BLK_QUEUE_SIZE ∧ b_last_used_idx d = 0%Z ∧ b_io_busy d = false ∧
  read_sector (BlkBus0 := demo_bus k) (S k) demo_driver demo_start x buf = Done (false, buf, d, mk_demo_dev 15 1 q 1 (Some (0, x))).
Proof.
  unfold read_sector. cbn [b_io_busy demo_driver]. unfold read_sector_locked. destruct (demo_submit k demo_start x eq_refl) as (ring&Hring&->).
  cbn [mbind exec_bind]. unfold notify_queue. cbn [blk_poll tick demo_bus bus_queue write32 demo_mmio].
  change (QUEUE_NOTIFY =? STATUS)%Z with false. change (QUEUE_NOTIFY =? DEVICE_FEATURES_SEL)%Z with false. cbn beta iota.
  cbn [dd_pending demo_start dd_seen dd_queue bq_avail av_idx]. change (wrapping_add 16 (av_idx (bq_avail bq_zero)) 1) with 1%Z. cbn [Z.eqb].
  cbn [dd_queue bq_used bq_zero us_idx bq_request rq_sector negb set_busy b_last_used_idx Z.eqb dd_status dd_sel].
  rewrite (demo_countdown k k _ x 0 k) by done. cbn [mbind exec_bind dd_status dd_sel dd_queue dd_seen]. rewrite Nat.sub_diag.
  eexists _, _. split; [|split; [|split; [|split; [|reflexivity]]]]; done.
Qed.

Lemma demo_late_answer (k : nat) (x y st sel : Z) (q : BlkQueue) (buf data : list Z) (d : VirtioBlk) :
  us_idx (bq_used q) = 0%Z → length (av_ring (bq_avail q)) = BLK_QUEUE_SIZE → b_last_used_idx d = 0%Z → b_io_busy d = false →
  demo_sectors x = Some data → length data = 512 → length buf = 512 →
  ∃ d2 s2, read_sector (BlkBus0 := demo_bus k) (S k) d (mk_demo_dev st sel q 1 (Some (0, x))) y buf = Done (true, data, d2, s2).
Proof.
  intros Hu Hr Hl Hf Hx Hlen Hb. unfold read_sector. rewrite Hf. unfold read_sector_locked.
  destruct (demo_submit k (mk_demo_dev st sel q 1 (Some (0, x))) y Hr) as (ring&Hring&->). cbn [mbind exec_bind]. unfold notify_queue.
  cbn [blk_poll tick demo_bus bus_queue write32 demo_mmio]. change (QUEUE_NOTIFY =? STATUS)%Z with false. change (QUEUE_NOTIFY =? DEVICE_FEATURES_SEL)%Z with false.
  cbn beta iota. cbn [dd_pending dd_queue]. unfold demo_finish at 1. cbn [bq_used us_idx set_busy b_last_used_idx]. rewrite Hl, Hu.
  change (wrapping_add 16 0 1) with 1%Z. cbn [Z.eqb negb]. unfold ack_interrupts. cbn [read32 demo_mmio].
  change (INTERRUPT_STATUS =? MAGIC)%Z with false. cbn. rewrite Hx. cbn. rewrite bool_decide_true by congruence. cbn. by eexists _, _.
Qed.

(** ** Setting up the block device *)

(** The registers and the memory do not disturb each other. *)
Record BusLaws {S : Type} `{!MmioDevice S} `{!BlkBus S} : Prop := {
  bu_set : ∀ s q, bus_queue (set_queue s q) = q;
  bu_read : ∀ s q off, read32 (set_queue s q) off = read32 s off;
  bu_write : ∀ s off v, bus_queue (write32 s off v) = bus_queue s;
}.
#[global] Arguments BusLaws S {_ _}.

Definition queue_writes (la : BlkLayout) : list (Z * Z) :=
  [(QUEUE_SEL, 0); (QUEUE_NUM, 16); (QUEUE_DESC_LOW, wrap 32 (la_desc la)); (QUEUE_DESC_LOW + 4, Z.shiftr (la_desc la) 32);
   (QUEUE_DRIVER_LOW, wrap 32 (la_avail la)); (QUEUE_DRIVER_LOW + 4, Z.shiftr (la_avail la) 32);
   (QUEUE_DEVICE_LOW, wrap 32 (la_used la)); (QUEUE_DEVICE_LOW + 4, Z.shiftr (la_used la) 32); (QUEUE_READY, 1)]%Z.

Lemma writes_queue {S : Type} `{!MmioDevice S} `{!BlkBus S} (l : list (Z * Z)) : BusLaws S → ∀ s, bus_queue (writes s l) = bus_queue s.
Proof. intros Hb. induction l as [|[off v] l IH]; intros s; cbn; [done|]. unfold writes in IH. rewrite IH. apply (bu_write Hb). Qed.

Lemma writes_status {S : Type} `{!MmioDevice S} (v id lo hi n : Z) (acc : bool) (l : list (Z * Z)) : RegisterLaws v id lo hi n acc →
  Forall (λ p, p.1 ≠ STATUS) l → ∀ s, read32 (writes s l) STATUS = read32 s STATUS.
Proof.
  intros Hr. induction 1 as [|[off x] l Hx _ IH]; intros s; cbn; [done|]. unfold writes in IH. rewrite IH. by apply (rl_other _ _ _ _ _ _ Hr).
Qed.

Lemma setup_queue_spec {S : Type} `{!MmioDevice S} `{!BlkBus S} (w queue_mem v id lo hi num : Z) (acc : bool) (d : VirtioBlk) (s : S) :
  RegisterLaws v id lo hi num acc → BusLaws S → let la := blk_layout w queue_mem in
  let s1 := set_queue s bq_zero in
  blk_setup_queue w queue_mem d s =
    if (num =? 0)%Z || (num <? 16)%Z then (false, mk_blk (b_capacity d) la (b_free_head d) (b_last_used_idx d) (b_io_busy d), writes s1 [(QUEUE_SEL, 0%Z)])
    else (true, mk_blk (b_capacity d) la 0 0 (b_io_busy d), set_queue (writes s1 (queue_writes la))
      (mk_bq (blk_chain la (bq_desc bq_zero)) (bq_avail bq_zero) (bq_used bq_zero) (bq_request bq_zero))).
Proof.
  intros Hr Hb la s1. unfold blk_setup_queue. cbv zeta. fold la. fold s1. unfold transport_setup_queue, select_queue. rewrite (rl_num _ _ _ _ _ _ Hr).
  change (Z.of_nat BLK_QUEUE_SIZE) with 16%Z. destruct ((num =? 0)%Z || (num <? 16)%Z); [done|].
  change (write32 (write64_pair (write64_pair (write64_pair (write32 (write32 s1 QUEUE_SEL QUEUE_INDEX) QUEUE_NUM 16) QUEUE_DESC_LOW (la_desc la))
    QUEUE_DRIVER_LOW (la_avail la)) QUEUE_DEVICE_LOW (la_used la)) QUEUE_READY 1) with (writes s1 (queue_writes la)).
  rewrite (writes_queue (queue_writes la) Hb s1). unfold s1. by rewrite (bu_set Hb).
Qed.

Lemma demo_bus_laws (latency : nat) : @BusLaws DemoDevice demo_mmio (demo_bus latency).
Proof. split; try done. intros s off v. cbn. by repeat case_match. Qed.

(** What [init_hw] returns. *)
Definition init_result (version device_id hi num_max : Z) (accepts allow_legacy : bool) : DriverErr + unit :=
  match device_refused version device_id DEVICE_ID_BLOCK allow_legacy with
  | Some e => inl e
  | None =>
      if ((version =? 2)%Z && (Z.land hi 1 =? 0)%Z) || negb accepts then inl InvalidConfig else
      if (num_max =? 0)%Z || (num_max <? 16)%Z then inl InitFailed else inr ()
  end.

(** The steps of a successful [init_hw]. *)
Definition init_steps {S : Type} `{!MmioDevice S} `{!BlkBus S} (version : Z) (la : BlkLayout) (s : S) : S :=
  let s := writes s (begin_writes ++ feature_writes (if (version =? 2)%Z then 1 else 0)%Z) in
  let s := writes (set_queue s bq_zero) (queue_writes la) in
  let s := set_queue s (mk_bq (blk_chain la (bq_desc bq_zero)) (bq_avail bq_zero) (bq_used bq_zero) (bq_request bq_zero)) in
  write32 s STATUS 15.

Lemma init_hw_spec {S : Type} `{!MmioDevice S} `{!BlkBus S} (w queue_mem version device_id lo hi num_max : Z) (accepts allow_legacy : bool) (d : VirtioBlk) (s : S) :
  RegisterLaws version device_id lo hi num_max accepts → BusLaws S →
  let la := blk_layout w queue_mem in
  let '(r, d', s') := blk_init_hw w queue_mem allow_legacy d s in
  r = init_result version device_id hi num_max accepts allow_legacy
  ∧ (r = inr () → s' = init_steps version la s ∧ d' = mk_blk (read_config64 s' 0) la 0 0 (b_io_busy d)).
Proof.
  intros Hr Hb la. unfold blk_init_hw, init_result. rewrite (handshake_spec _ _ _ _ _ DEVICE_ID_BLOCK _ allow_legacy s Hr).
  destruct (device_refused version device_id DEVICE_ID_BLOCK allow_legacy) as [e|]; [by split|].
  destruct ((version =? 2)%Z && (Z.land hi 1 =? 0)%Z); [by split|]. cbv zeta. destruct accepts; [|by split]. cbn [orb negb].
  rewrite (setup_queue_spec w queue_mem _ _ _ _ _ _ d _ Hr Hb). cbv zeta. destruct ((num_max =? 0)%Z || (num_max <? 16)%Z); [by split|].
  cbn [negb]. split; [done|]. intros _. unfold set_status_bits. rewrite (bu_read Hb).
  rewrite (writes_status _ _ _ _ _ _ (queue_writes _) Hr) by (repeat constructor; done). rewrite (bu_read Hb).
  assert (H11 : read32 (writes s (begin_writes ++ feature_writes (if (version =? 2)%Z then 1 else 0)%Z)) STATUS = 11%Z) by apply (rl_status _ _ _ _ _ _ Hr).
  rewrite H11. by split.
Qed.

(** ** Properties *)

(** Over a conforming device that is idle after it, the initialisation of
    the block driver returns what [init_result] says for the device's version,
    type, features and queue size; when it succeeds it has written, in order,
    the status bits, the empty features (with the modern bit for version 2),
    the cleared queue with its sizes and addresses, the chain of three
    descriptors and the final status, and the driver is ready to read. *)
Theorem blk_init_ready {S : Type} `{!MmioDevice S} `{!BlkBus S} (idle : S → Prop) (w queue_mem version device_id lo hi num_max : Z) (accepts allow_legacy : bool) (s : S) :
  RegisterLaws version device_id lo hi num_max accepts → BusLaws S →
  let la := blk_layout w queue_mem in
  let '(r, d, s') := blk_init_hw w queue_mem allow_legacy blk_new s in
  r = init_result version device_id hi num_max accepts allow_legacy
  ∧ (r = inr () → s' = init_steps version la s ∧ b_capacity d = read_config64 s' 0 ∧ (idle s' → blk_ready la idle d s')).
Proof.
  intros Hr Hb la. pose proof (init_hw_spec w queue_mem _ _ _ _ _ _ allow_legacy blk_new s Hr Hb) as Hi.
  destruct (blk_init_hw w queue_mem allow_legacy blk_new s) as [[r d] s']. destruct Hi as [-> Hok]. split; [done|]. intros Hr'.
  destruct (Hok Hr') as [Hs Hd]. split; [done|]. split; [by rewrite Hd|]. intros Hidle.
  assert (Hq : bus_queue s' = mk_bq (blk_chain la (bq_desc bq_zero)) (bq_avail bq_zero) (bq_used bq_zero) (bq_request bq_zero)).
  { rewrite Hs. unfold init_steps. cbv zeta. by rewrite (bu_write Hb), (bu_set Hb). }
  split; rewrite ?Hq, ?Hd; try done. by apply blk_chain_ok.
Qed.

Lemma blk_init_ready_witness :
  let '(r, d, s') := blk_init_hw (BlkBus0 := demo_bus 3) 64 0x80000004 false blk_new (mk_demo_dev 0 0 bq_zero 0 None) in
  r = inr () ∧ (r = inr () → s' = init_steps (BlkBus0 := demo_bus 3) 2 (blk_layout 64 0x80000004) (mk_demo_dev 0 0 bq_zero 0 None)
    ∧ b_capacity d = read_config64 (MmioDevice0 := demo_mmio) s' 0 ∧ (demo_idle s' → blk_ready (BlkBus0 := demo_bus 3) (blk_layout 64 0x80000004) demo_idle d s')).
Proof.
  exact (blk_init_ready (BlkBus0 := demo_bus 3) demo_idle 64 0x80000004 2 DEVICE_ID_BLOCK 0 1 64 true false (mk_demo_dev 0 0 bq_zero 0 None)
    demo_regs (demo_bus_laws 3)).
Defined.

(** C29. Over a conforming device that is idle, a read of a sector that returns
    true has filled the buffer with that sector; one that returns false leaves
    the buffer alone, and either the device reported an error or it still had
    not answered after all polls.  Unless it timed out, the driver and the
    device agree afterwards, ready for the next read. *)
Theorem blk_read_correct {S : Type} `{!MmioDevice S} `{!BlkBus S} (disk : Z → option (list Z)) (la : BlkLayout) (idle : S → Prop) (serving : Z → S → Prop)
    (poll_limit : nat) (d : VirtioBlk) (s : S) (sector : Z) (buf : list Z) :
  BlkDeviceLaws disk la idle serving → blk_ready la idle d s → length buf = 512 →
  ∃ ok buf' d' s', read_sector poll_limit d s sector buf = Done (ok, buf', d', s') ∧
    if ok : bool then disk sector = Some buf' ∧ blk_ready la idle d' s'
    else buf' = buf ∧ (blk_ready la idle d' s' ∨ serving sector s' ∧ b_last_used_idx d' = b_last_used_idx d).
Proof.
  intros Hlaws Hr Hb. destruct (read_sector_spec disk la idle serving Hlaws poll_limit d s sector buf Hr Hb) as (ok&buf'&d'&s'&->&Hpost).
  exists ok, buf', d', s'. split; [done|]. destruct ok; tauto.
Qed.

Lemma blk_read_correct_witness : ∃ ok buf' d' s', read_sector (BlkBus0 := demo_bus 3) 10 demo_driver demo_start 5 (replicate 512 0%Z) = Done (ok, buf', d', s')
  ∧ if ok : bool then demo_sectors 5 = Some buf' ∧ blk_ready demo_la demo_idle (BlkBus0 := demo_bus 3) d' s'
    else buf' = replicate 512 0%Z ∧ (blk_ready demo_la demo_idle (BlkBus0 := demo_bus 3) d' s' ∨ demo_serving 5 s' ∧ b_last_used_idx d' = 0%Z).
Proof.
  exact (blk_read_correct (BlkBus0 := demo_bus 3) demo_sectors demo_la demo_idle demo_serving 10 demo_driver demo_start 5 (replicate 512 0%Z)
    (demo_laws 3 demo_la) (demo_start_ready 3) eq_refl).
Defined.

(** A read that timed out is completed later, and the driver takes that
    completion for its next read: over a conforming device that needs as many
    steps as the driver polls, a read of one sector fails, and the next read,
    of another sector, returns true with the contents of the first. *)
Theorem blk_read_after_timeout (poll_limit : nat) (x y : Z) (buf data : list Z) : 0 < poll_limit → length buf = 512 → demo_sectors x = Some data →
  let bus := demo_bus (poll_limit - 1) in
  BlkDeviceLaws (BlkBus0 := bus) demo_sectors demo_la demo_idle demo_serving
  ∧ ∃ d1 s1 d2 s2, read_sector (BlkBus0 := bus) poll_limit demo_driver demo_start x buf = Done (false, buf, d1, s1)
    ∧ read_sector (BlkBus0 := bus) poll_limit d1 s1 y buf = Done (true, data, d2, s2).
Proof.
  intros Hpos Hb Hx bus. split; [apply demo_laws|]. destruct poll_limit as [|k]; [lia|]. clear Hpos. subst bus. cbn [Nat.sub]. rewrite Nat.sub_0_r.
  assert (Hlen : length data = 512) by (unfold demo_sectors in Hx; destruct (_ && _); [|done]; injection Hx as <-; apply length_replicate).
  destruct (demo_times_out k x buf) as (d1&q&Hu&Hring&Hl&Hf&Hread). destruct (demo_late_answer k x y 15 1 q buf data d1 Hu Hring Hl Hf Hx Hlen Hb) as (d2&s2&Hlate).
  by exists d1, (mk_demo_dev 15 1 q 1 (Some (0, x))), d2, s2.
Qed.

Lemma blk_read_after_timeout_witness : ∃ d1 s1 d2 s2, read_sector (BlkBus0 := demo_bus 2) 3 demo_driver demo_start 1 (replicate 512 0%Z) = Done (false, replicate 512 0%Z, d1, s1)
  ∧ read_sector (BlkBus0 := demo_bus 2) 3 d1 s1 7 (replicate 512 0%Z) = Done (true, demo_data_of 1, d2, s2).
Proof. exact (proj2 (blk_read_after_timeout 3 1 7 (replicate 512 0%Z) (demo_data_of 1) ltac:(lia) eq_refl eq_refl)). Defined.

(** The memory of the queues.  From any start, the block driver's
    descriptors, available ring, used ring and request lie in this order
    without overlap, the tables on pages as the device needs them, and all of
    it, and what it clears, inside the 16384 bytes of its static.  The entropy driver computes the
    same layout in a static of 8192 bytes: its last byte is outside exactly
    when the page alignment skips more than 3768 bytes, which the alignment of
    a byte array does not exclude. *)
Theorem queue_memory_layout (w base : Z) : (13 <= w)%Z → (0 <= base)%Z → (base + 16384 <= 2 ^ w)%Z →
  let la := blk_layout w base in let ra := rng_layout w base in
  ((base <= la_desc la ∧ la_desc la + 16 * 16 <= la_avail la ∧ la_avail la + (4 + 2 * 16) <= la_used la ∧ la_used la + (4 + 8 * 16) <= la_request la
    ∧ la_request la + 529 <= base + 16384 ∧ la_desc la + 12288 <= base + 16384 ∧ la_desc la mod 4096 = 0 ∧ la_used la mod 4096 = 0 ∧ la_request la mod 8 = 0)
  ∧ (base <= ra_desc ra ∧ ra_desc ra + 8 * 16 <= ra_avail ra ∧ ra_avail ra + (4 + 2 * 8) <= ra_used ra ∧ ra_used ra + (4 + 8 * 8) <= ra_entropy ra
    ∧ (base + RNG_QUEUE_MEM < rng_end w base ↔ 3768 < (- base) mod 4096)))%Z.
Proof.
  intros Hw Hb Ht la ra. destruct (align_4096 w base Hb ltac:(lia) ltac:(lia)) as [Ha Hm]. destruct (align_8 w ltac:(lia)) as [H8b H8r].
  unfold la, ra, rng_end, rng_layout, blk_layout. cbn [la_desc la_avail la_used la_request ra_desc ra_avail ra_used ra_entropy]. rewrite H8b, H8r.
  set (a := align_up w 4095 base) in *. unfold BLK_QUEUE_SIZE, RNG_QUEUE_SIZE, RNG_BUF_SIZE, RNG_QUEUE_MEM.
  assert (Hpad : ((- base) mod 4096 = a - base)%Z) by (symmetry; apply (Z.mod_unique_pos _ _ (- (a / 4096))); [lia|]; pose proof (Z.div_mod a 4096); lia).
  rewrite Hpad. split; [split_and!; try lia; divmod|split_and!; lia].
Qed.

Lemma queue_memory_layout_witness : (RNG_QUEUE_MEM + 0x80200010 < rng_end 64 0x80200010)%Z.
Proof. destruct (queue_memory_layout 64 0x80200010 ltac:(lia) ltac:(lia) ltac:(lia)) as (_&_&_&_&_&H). rewrite Z.add_comm. apply H. reflexivity. Defined.

(** A request for random bytes that timed out and was answered before the
    next request makes that next request return zeros: the driver clears the
    buffer, offers the chain, finds the used index already moved and hands the
    cleared buffer out as [want] random bytes, if the device has written
    nothing new by the first poll. *)
Theorem fill_bytes_after_timeout {S : Type} `{!MmioDevice S} `{!RngBus S} (poll_limit : nat) (d : VirtioRng) (s : S) (buf : list Z) :
  (∀ s q, rng_queue (set_rng_queue s q) = q) → (∀ s off v, rng_queue (write32 s off v) = rng_queue s) →
  (∀ q, rng_queue (rng_tick (write32 (set_rng_queue s q) QUEUE_NOTIFY QUEUE_INDEX)) = q) →
  let q := rng_queue s in let want := Nat.min (length buf) RNG_BUF_SIZE in
  length (av_ring (gq_avail q)) = RNG_QUEUE_SIZE → g_io_busy d = false → buf ≠ [] → 0 < poll_limit →
  us_idx (gq_used q) ≠ g_last_used_idx d →
  (∃ e, us_ring (gq_used q) !! (Z.to_nat (g_last_used_idx d) `mod` RNG_QUEUE_SIZE) = Some e ∧ (Z.of_nat want <= ue_len e)%Z) →
  ∃ d' s', fill_bytes poll_limit d s buf = Done (inr want, replicate want 0%Z ++ drop want buf, d', s').
Proof.
  intros Hset Hwr Htick q want Hring Hf Hne Hpos Hidx (e&He&Hlen). unfold fill_bytes. rewrite bool_decide_false, Hf by done.
  unfold fill_bytes_locked, rng_submit, offer. fold q. rewrite put_exec_Done by (rewrite Hring; apply Nat.mod_upper_bound; done).
  cbn [mbind exec_bind]. destruct poll_limit as [|k]; [lia|]. unfold notify_queue. cbn [rng_poll g_last_used_idx]. rewrite Htick. cbn [gq_used].
  destruct (Z.eqb_spec (us_idx (gq_used q)) (g_last_used_idx d)); [done|]. cbn [negb]. rewrite He. cbn [get_exec mbind exec_bind].
  destruct (ack_interrupts _) as [v s2] eqn:Hack. fold want.
  assert (Hent : gq_entropy (rng_queue s2) = replicate RNG_BUF_SIZE 0%Z).
  { unfold ack_interrupts in Hack. destruct (negb _); injection Hack as _ <-; by rewrite ?Hwr, Htick. }
  rewrite Hent. replace (Nat.min (Z.to_nat (ue_len e)) want) with want by lia.
  rewrite copy_prefix_Done by (rewrite ?length_replicate; lia). cbn [mbind exec_bind].
  rewrite take_replicate, Nat.min_l by lia. by eexists _, _.
Qed.

(** The entropy device, after a request it answered late. *)
#[local] Instance slow_mmio : MmioDevice RngQueue := { read32 q off := 0%Z; write32 q off v := q }.
#[local] Instance slow_rng : RngBus RngQueue := { rng_queue q := q; set_rng_queue _ q := q; rng_tick q := q }.

Lemma fill_bytes_after_timeout_witness : ∃ d' s', fill_bytes 100 rng_new
    (mk_rq (gq_desc rq_zero) (mk_avail 0 1 (replicate 8 0%Z)) (mk_used 0 1 (replicate 8 (mk_used_elem 0 256))) (replicate 256 7%Z)) (replicate 32 1%Z)
  = Done (inr 32, replicate 32 0%Z, d', s').
Proof.
  apply (fill_bytes_after_timeout 100 rng_new (mk_rq (gq_desc rq_zero) (mk_avail 0 1 (replicate 8 0%Z)) (mk_used 0 1 (replicate 8 (mk_used_elem 0 256)))
    (replicate 256 7%Z)) (replicate 32 1%Z)); try done; [lia|].
  by exists (mk_used_elem 0 256).
Defined.
