(* ===== verification/Mounts.v ===== *)
(** * Detection and the mount table, [kernel/src/fs/detect.rs] and [fs/mod.rs]

    Four slots of mounted volumes next to the RAM file system, looked up by
    the longest path prefix.  A block device is an element of [D] read by
    [read_block]; [devs] are the registered ones in their order. *)

From S2P Require Export Prelude.
From S2P Require Export Str.
From S2P Require Export RamFs.
From S2P Require Export Exfat.

(** ** Detection *)

Inductive FsType : Type := FsExfat | FsUnknown.
#[export] Instance FsType_eq_dec : EqDecision FsType.
Proof. solve_decision. Defined.

Record DetectResult : Type := mk_detect { fs_type : FsType; sector0 : list Z; sector0_valid : bool }.

Definition try_detect_exfat (sector0 : list Z) : exec bool :=
  b510 ← get_exec (sector0 !! 510);
  b511 ← get_exec (sector0 !! 511);
  if negb (b510 =? 0x55)%Z || negb (b511 =? 0xAA)%Z then Done false else
  oem ← slice_exec sector0 3 8;
  if bool_decide (oem = [69; 88; 70; 65; 84; 32; 32; 32]%Z) then
    b108 ← get_exec (sector0 !! 108);
    b109 ← get_exec (sector0 !! 109);
    Done (negb (b108 =? 0)%Z && negb (b109 =? 0)%Z)
  else Done false.

Definition detect_fs (read_sector : Z → option (list Z)) : exec DetectResult :=
  match read_sector 0%Z with
  | None => Done (mk_detect FsUnknown (replicate 512 0%Z) false)
  | Some s => found ← try_detect_exfat s; Done (mk_detect (if found : bool then FsExfat else FsUnknown) s true)
  end.

(** ** The table *)

Definition MOUNT_SLOTS : nat := 4.
Definition PATH_BUF : nat := 64.

Inductive MountError : Type := InvalidSource | InvalidTarget | TargetBusy | NoBlockDevice | UnsupportedFs | IoTimeout | MountNoSpace.

Section mounts.
Context {D : Type} (read_block : D → Z → option (list Z)) (devs : list D).

Record MountInfo : Type := mk_mount {
  m_source : list Z;
  m_source_len : nat;
  m_path : list Z;
  m_path_len : nat;
  m_fs : Exfat.ExfatFs;
  m_dev : D;
}.

Abbreviation table := (list (option MountInfo)).

Record MountEntry : Type := mk_mount_entry { me_source : list Z; me_source_len : nat; me_path : list Z; me_path_len : nat; me_fs_type : str }.

Definition source_str (e : MountEntry) : exec str := bs ← prefix_exec (me_source e) (me_source_len e); Done (from_utf8_or_empty bs).
Definition path_str (e : MountEntry) : exec str := bs ← prefix_exec (me_path e) (me_path_len e); Done (from_utf8_or_empty bs).

Definition mount_path_of (m : MountInfo) : exec str := bs ← prefix_exec (m_path m) (m_path_len m); Done (from_utf8_or_empty bs).

(** A string cut to 63 bytes in a buffer of 64. *)
Definition path_buffer (s : str) : exec (list Z * nat) :=
  let len := Nat.min (length s) (PATH_BUF - 1) in
  buf ← copy_prefix (replicate PATH_BUF 0%Z) s len; Done (buf, len).

Fixpoint target_busy (mounts : table) (mount_path : str) : exec bool :=
  match mounts with
  | [] => Done false
  | None :: mounts => target_busy mounts mount_path
  | Some m :: mounts => mp ← mount_path_of m; if bool_decide (mp = mount_path) then Done true else target_busy mounts mount_path
  end.

Fixpoint fill_mount (m : MountInfo) (mounts : table) : option table :=
  match mounts with
  | [] => None
  | None :: mounts => Some (Some m :: mounts)
  | Some x :: mounts => (Some x ::.) <$> fill_mount m mounts
  end.

Definition register_mount (mounts : table) (dev_path mount_path : str) (fs : Exfat.ExfatFs) (dev : D)
    : exec ((MountError + unit) * table) :=
  '(source, source_len) ← path_buffer dev_path;
  '(mnt_path, len) ← path_buffer mount_path;
  busy ← target_busy mounts mount_path;
  if busy : bool then Done (inl TargetBusy, mounts) else
  match fill_mount (mk_mount source source_len mnt_path len fs dev) mounts with
  | Some mounts => Done (inr (), mounts)
  | None => Done (inl MountNoSpace, mounts)
  end.

(** ** Mounting *)

Definition valid_mount_target (ram : RamFs) (path : str) : exec bool :=
  if bool_decide (path = [SLASH]) || ends_with_byte path SLASH then Done false else
  match rfind SLASH path with
  | None => Done false
  | Some slash =>
      let name := drop (S slash) path in
      if bool_decide (name = []) || (NAME_MAX <=? length name) || bool_decide (SLASH ∈ name) then Done false else
      let parent := if slash =? 0 then [SLASH] else take slash path in
      r ← resolve_path ram parent;
      match r with
      | inl _ => Done false
      | inr node => t ← node_file_type ram node; Done (bool_decide (t = inr Directory))
      end
  end.

Definition is_ascii_digit (b : Z) : bool := in_range 48 57 b.
Definition checked_mul (x y : Z) : option Z := if (x * y <=? USIZE_MAX)%Z then Some (x * y)%Z else None.
Definition checked_add (x y : Z) : option Z := if (x + y <=? USIZE_MAX)%Z then Some (x + y)%Z else None.

Fixpoint parse_digits (value : Z) (digits : str) : option Z :=
  match digits with
  | [] => Some value
  | b :: digits => if is_ascii_digit b then v ← checked_mul value 10; v ← checked_add v (b - 48); parse_digits v digits else None
  end.

Definition parse_blk_name (name : str) : option Z :=
  digits ← strip_prefix name [98; 108; 107]%Z;
  if bool_decide (digits = []) then None else parse_digits 0 digits.

Definition find_block_device (dev_path : str) : option D :=
  dev_name ← strip_prefix dev_path [47; 100; 101; 118; 47]%Z;
  wanted_idx ← parse_blk_name dev_name;
  if (wanted_idx <? Z.of_nat (length devs))%Z then devs !! Z.to_nat wanted_idx else None.

Definition try_mount_exfat (dev : D) : exec (option Exfat.ExfatFs) :=
  '(r, fs) ← Exfat.mount (read_block dev) Exfat.fs_new; Done (match r with Some _ => Some fs | None => None end).

Definition mount_fs (ram : RamFs) (mounts : table) (dev_path mount_path : str) : exec ((MountError + unit) * table) :=
  if bool_decide (mount_path = []) || negb (starts_with mount_path [SLASH]) || (PATH_BUF <=? length mount_path)
  then Done (inl InvalidTarget, mounts) else
  ok ← valid_mount_target ram mount_path;
  if negb ok then Done (inl InvalidTarget, mounts) else
  match find_block_device dev_path with
  | None => Done (inl NoBlockDevice, mounts)
  | Some dev =>
      detected ← detect_fs (read_block dev);
      if negb (sector0_valid detected) then Done (inl IoTimeout, mounts) else
      if bool_decide (fs_type detected ≠ FsExfat) then Done (inl UnsupportedFs, mounts) else
      r ← try_mount_exfat dev;
      match r with
      | None => Done (inl UnsupportedFs, mounts)
      | Some fs => register_mount mounts dev_path mount_path fs dev
      end
  end.

Fixpoint unmount (mounts : table) (path : str) : exec (bool * table) :=
  match mounts with
  | [] => Done (false, [])
  | None :: mounts => '(r, mounts) ← unmount mounts path; Done (r, None :: mounts)
  | Some m :: mounts =>
      mp ← mount_path_of m;
      if bool_decide (mp = path) then Done (true, None :: mounts) else
      '(r, mounts) ← unmount mounts path; Done (r, Some m :: mounts)
  end.

(** ** Lookup *)

Record MountLookup : Type := mk_lookup { l_fs : Exfat.ExfatFs; prefix_len : nat; l_dev : D }.

(** [mp] is [path] or a prefix of it that ends at a slash. *)
Definition covers (mp path : str) : bool :=
  bool_decide (path = mp) || (starts_with path mp && bool_decide (path !! length mp = Some SLASH)).

Fixpoint best_mount (mounts : table) (path : str) (best : option MountLookup) (best_len : nat) : exec (option MountLookup) :=
  match mounts with
  | [] => Done best
  | None :: mounts => best_mount mounts path best best_len
  | Some m :: mounts =>
      mp ← mount_path_of m;
      if covers mp path && (best_len <? length mp)
      then best_mount mounts path (Some (mk_lookup (m_fs m) (length mp) (m_dev m))) (length mp)
      else best_mount mounts path best best_len
  end.

Definition find_mount_for_path (mounts : table) (path : str) : exec (option MountLookup) := best_mount mounts path None 0.

(** "exFAT" *)
Definition EXFAT : str := [101; 120; 70; 65; 84]%Z.

Definition mount_entries (mounts : table) : list (option MountEntry) :=
  (λ o : option MountInfo, (λ m, mk_mount_entry (m_source m) (m_source_len m) (m_path m) (m_path_len m) EXFAT) <$> o) <$> mounts.

(** What the callback is called with. *)
Fixpoint list_entries (entries : list (option MountEntry)) : exec (list (str * str * str)) :=
  match entries with
  | [] => Done []
  | None :: entries => list_entries entries
  | Some e :: entries => s ← source_str e; p ← path_str e; rest ← list_entries entries; Done ((s, p, me_fs_type e) :: rest)
  end.
Definition list_mounts (mounts : table) : exec (list (str * str * str)) := list_entries (mount_entries mounts).

(** ** Directories and files of a mounted volume *)

(** An entry for the callback, its name cut to 31 bytes. *)
Definition cut_entry (e : Exfat.ExfatEntry) (ty : FileType) : exec DirEntry :=
  let cl := Nat.min (Exfat.name_len e) (NAME_MAX - 1) in
  nm ← copy_prefix (replicate NAME_MAX 0%Z) (Exfat.name e) cl; Done (mk_entry nm cl ty).

Fixpoint cut_entries (es : list Exfat.ExfatEntry) : exec (list DirEntry) :=
  match es with
  | [] => Done []
  | e :: es => d ← cut_entry e (if Exfat.is_dir e then Directory else File); rest ← cut_entries es; Done (d :: rest)
  end.

Definition rel_path (path : str) (m : MountLookup) : exec str :=
  if prefix_len m <=? length path then Done (trim_start SLASH (drop (prefix_len m) path)) else Stuck.

(** The entries passed to the callback and the count, with the cluster buffer. *)
Definition list_path (fuel : nat) (mounts : table) (path : str) (cb : list Z) : exec (option nat * list DirEntry * list Z) :=
  m ← find_mount_for_path mounts path;
  match m with
  | None => Done (None, [], cb)
  | Some m =>
      rel ← rel_path path m;
      '(e, cb) ← Exfat.find_entry (read_block (l_dev m)) (l_fs m) fuel rel cb;
      match e with
      | None => Done (None, [], cb)
      | Some entry =>
          if negb (Exfat.is_dir entry) then d ← cut_entry entry File; Done (Some 1, [d], cb) else
          '(es, _, cb) ← Exfat.list_entry_dir (read_block (l_dev m)) (l_fs m) fuel entry cb;
          ds ← cut_entries es;
          Done (Some (length ds), ds, cb)
      end
  end.

Definition mount_file_type (fuel : nat) (mounts : table) (path : str) (cb : list Z) : exec (option FileType * list Z) :=
  m ← find_mount_for_path mounts path;
  match m with
  | None => Done (None, cb)
  | Some m =>
      rel ← rel_path path m;
      '(e, cb) ← Exfat.find_entry (read_block (l_dev m)) (l_fs m) fuel rel cb;
      Done (match e with Some e => Some (if Exfat.is_dir e then Directory else File) | None => None end, cb)
  end.

Definition path_file_type (fuel : nat) (ram : RamFs) (mounts : table) (path : str) (cb : list Z) : exec (option FileType * list Z) :=
  r ← resolve_path ram path;
  match r with
  | inr node => t ← node_file_type ram node; Done (match t with inr t => Some t | inl _ => None end, cb)
  | inl _ => mount_file_type fuel mounts path cb
  end.

(** The whole name is copied into the first [cl] bytes: the lengths must agree. *)
Definition child_entry (name : str) : exec DirEntry :=
  let cl := Nat.min (length name) (NAME_MAX - 1) in
  if length name =? cl then Done (mk_entry (name ++ drop cl (replicate NAME_MAX 0%Z)) cl Directory) else Stuck.

Fixpoint mount_children (entries : list (option MountEntry)) (parent_path : str) : exec (list DirEntry) :=
  match entries with
  | [] => Done []
  | None :: entries => mount_children entries parent_path
  | Some e :: entries =>
      mp ← path_str e;
      match rfind SLASH mp with
      | None => mount_children entries parent_path
      | Some slash =>
          let mp_parent := if slash =? 0 then [SLASH] else take slash mp in
          if bool_decide (mp_parent = parent_path) then
            d ← child_entry (drop (S slash) mp); rest ← mount_children entries parent_path; Done (d :: rest)
          else mount_children entries parent_path
      end
  end.
Definition list_mount_children (mounts : table) (parent_path : str) : exec (nat * list DirEntry) :=
  ds ← mount_children (mount_entries mounts) parent_path; Done (length ds, ds).

Definition read_mount_file (fuel : nat) (mounts : table) (path : str) (buf cb : list Z) : exec (nat * list Z * list Z) :=
  m ← find_mount_for_path mounts path;
  match m with
  | None => Done (0, buf, cb)
  | Some m =>
      rel ← rel_path path m;
      if bool_decide (rel = []) then Done (0, buf, cb) else
      '(e, cb) ← Exfat.find_entry (read_block (l_dev m)) (l_fs m) fuel rel cb;
      match e with
      | Some entry =>
          if Exfat.is_dir entry then Done (0, buf, cb) else
          '(r, buf, cb) ← Exfat.read_file (read_block (l_dev m)) (l_fs m) (Exfat.first_cluster entry) (Exfat.data_length entry)
            (Exfat.no_fat_chain entry) buf cb;
          Done (match r with Some n => n | None => 0 end, buf, cb)
      | None => Done (0, buf, cb)
      end
  end.
End mounts.
