(* ===== verification/MountProps.v ===== *)
(** * What the mount table promises *)

From S2P Require Export Prelude.
From S2P Require Export Str.
From S2P Require Export RamFs.
From S2P Require Export RamFsTree.
From S2P Require Export RamFsProps.
From S2P Require Export Exfat.
From S2P Require Export ExfatRead.
From S2P Require Export ExfatProps.
From S2P Require Export Mounts.

#[local] Opaque NAME_MAX NODE_POOL_CAP FILE_MAX_SIZE DIR_MAX_ENTRIES.

Section mounts.
Context {D : Type} (read_block : D → Z → option (list Z)) (devs : list D).

Abbreviation table := (list (option (MountInfo (D := D)))).

(** A target: an absolute path that ends in a name of at most 31 bytes. *)
Definition target_ok (p : str) : Prop := utf8_valid p = true ∧ length p < PATH_BUF
  ∧ ∃ dir name, p = dir ++ SLASH :: name ∧ (SLASH ∉ name) ∧ name ≠ [] ∧ length name < NAME_MAX.

(** A device whose reads fill the buffer and whose boot sector does not
    overflow the bound of the root cluster. *)
Definition device_ok (d : D) : Prop := dev_ok (read_block d) ∧ ∀ s0, read_block d 0%Z = Some s0 → (field s0 92 4 + 2 < 2 ^ 32)%Z.

(** The slot holds a volume mounted at [p]. *)
Record slot_at (m : MountInfo (D := D)) (p : str) : Prop := {
  sa_path : length (m_path m) = PATH_BUF;
  sa_len : m_path_len m = length p;
  sa_take : take (length p) (m_path m) = p;
  sa_ok : target_ok p;
  sa_source : length (m_source m) = PATH_BUF ∧ m_source_len m < PATH_BUF;
  sa_fs : mounted (m_fs m);
  sa_dev : device_ok (m_dev m);
}.

Record mounts_wf (mounts : table) : Prop := {
  mw_len : length mounts = MOUNT_SLOTS;
  mw_slot : ∀ m, Some m ∈ mounts → ∃ p, slot_at m p;
  mw_distinct : ∀ i j m m' p, mounts !! i = Some (Some m) → mounts !! j = Some (Some m') → slot_at m p → slot_at m' p → i = j;
}.

Lemma slot_path (m : MountInfo (D := D)) (p : str) : slot_at m p → mount_path_of m = Done p.
Proof.
  intros [Hl Hn Ht (Hu&Hp&_) _ _ _]. unfold mount_path_of. rewrite prefix_exec_Done by (rewrite Hn, Hl; lia). cbn [mbind exec_bind].
  rewrite Hn, Ht. unfold from_utf8_or_empty. by rewrite Hu.
Qed.

Lemma slot_inj (m : MountInfo (D := D)) (p q : str) : slot_at m p → slot_at m q → p = q.
Proof. intros Hp Hq. pose proof (slot_path m p Hp) as H1. rewrite (slot_path m q Hq) in H1. by injection H1. Qed.

Lemma covers_iff (mp path : str) : covers mp path = true ↔ path = mp ∨ ∃ rest, path = mp ++ SLASH :: rest.
Proof.
  unfold covers. rewrite orb_true_iff, andb_true_iff, !bool_decide_eq_true, starts_with_app. split.
  - intros [->|[[rest ->] Hs]]; [by left|right]. rewrite lookup_app_r, Nat.sub_diag in Hs by lia.
    destruct rest as [|x rest]; [done|]. injection Hs as ->. by exists rest.
  - intros [->|[rest ->]]; [by left|right]. split; [by eexists|]. by rewrite list_lookup_middle.
Qed.

(** ** Lookup *)

Lemma best_mount_spec (path : str) (ms : table) : (∀ m, Some m ∈ ms → ∃ p, slot_at m p) → ∀ best best_len,
  ∃ r, best_mount ms path best best_len = Done r ∧
    (r = best ∧ (∀ m p, Some m ∈ ms → slot_at m p → covers p path = true → length p ≤ best_len)
     ∨ ∃ m p, Some m ∈ ms ∧ slot_at m p ∧ covers p path = true ∧ best_len < length p ∧ r = Some (mk_lookup (m_fs m) (length p) (m_dev m))
         ∧ ∀ m' p', Some m' ∈ ms → slot_at m' p' → covers p' path = true → length p' ≤ length p).
Proof.
  induction ms as [|[m|] ms IH]; intros Hs best best_len; cbn [best_mount].
  - exists best. split; [done|]. left. split; [done|]. intros m p Hin. by apply not_elem_of_nil in Hin.
  - assert (Hs' : ∀ m, Some m ∈ ms → ∃ p, slot_at m p) by (intros m' Hm'; apply Hs; by right).
    destruct (Hs m ltac:(by left)) as [p Hp]. rewrite (slot_path m p Hp). cbn [mbind exec_bind].
    assert (Hcons : ∀ m' p' n, Some m' ∈ Some m :: ms → slot_at m' p' → covers p' path = true →
      (covers p path = true → length p ≤ n) → (∀ m'' p'', Some m'' ∈ ms → slot_at m'' p'' → covers p'' path = true → length p'' ≤ n) → length p' ≤ n).
    { intros m' p' n Hin Hsl Hc H1 H2. apply elem_of_cons in Hin as [[= ->]|Hin]; [rewrite (slot_inj m p' p Hsl Hp) in *; by apply H1|by eapply H2]. }
    destruct (covers p path && (best_len <? length p)) eqn:E.
    + apply andb_true_iff in E as [Hc Hl%Nat.ltb_lt].
      destruct (IH Hs' (Some (mk_lookup (m_fs m) (length p) (m_dev m))) (length p)) as (r&->&[[-> Hmax]|(m1&p1&Hin&Hsl&Hc1&Hlt&->&Hmax)]);
        (eexists; split; [done|]; right).
      * exists m, p. split_and!; [by left|done|done|done|done|]. intros m' p' Hin Hsl Hc'. by eapply Hcons.
      * exists m1, p1. split_and!; [by right|done|done|lia|done|]. intros m' p' Hin' Hsl' Hc'. eapply Hcons; eauto. intros _. lia.
    + assert (Hle : covers p path = true → length p ≤ best_len).
      { intros Hc. rewrite Hc in E. cbn in E. by apply Nat.ltb_ge in E. }
      destruct (IH Hs' best best_len) as (r&->&[[-> Hmax]|(m1&p1&Hin&Hsl&Hc1&Hlt&->&Hmax)]); (eexists; split; [done|]).
      * left. split; [done|]. intros m' p' Hin Hsl Hc'. by eapply Hcons.
      * right. exists m1, p1. split_and!; [by right|done|done|lia|done|]. intros m' p' Hin' Hsl' Hc'. eapply Hcons; eauto.
        intros Hc. specialize (Hle Hc). lia.
  - destruct (IH ltac:(intros m Hm; apply Hs; by right) best best_len) as (r&->&[[-> Hmax]|(m1&p1&Hin&Hsl&Hc1&Hlt&->&Hmax)]);
      (eexists; split; [done|]); [left|right].
    + split; [done|]. intros m p Hin. apply elem_of_cons in Hin as [?|Hin]; [done|by apply Hmax].
    + exists m1, p1. split_and!; [by right|done|done|lia|done|]. intros m' p' Hin'. apply elem_of_cons in Hin' as [?|Hin']; [done|by apply Hmax].
Qed.

(** ** The table *)

Lemma path_buffer_spec (s : str) : ∃ buf, path_buffer s = Done (buf, Nat.min (length s) (PATH_BUF - 1)) ∧ length buf = PATH_BUF
  ∧ take (Nat.min (length s) (PATH_BUF - 1)) buf = take (Nat.min (length s) (PATH_BUF - 1)) s.
Proof.
  unfold path_buffer. assert (Hm : Nat.min (length s) (PATH_BUF - 1) ≤ PATH_BUF) by lia. set (len := Nat.min _ _) in *.
  rewrite copy_prefix_Done by (rewrite ?length_replicate; lia). cbn [mbind exec_bind]. eexists. split; [done|]. split.
  - rewrite length_copied by (rewrite ?length_replicate; lia). apply length_replicate.
  - apply take_copied. lia.
Qed.

Lemma target_busy_spec (ms : table) (p : str) : (∀ m, Some m ∈ ms → ∃ p, slot_at m p) →
  ∃ b, target_busy ms p = Done b ∧ (b = true ↔ ∃ m, Some m ∈ ms ∧ slot_at m p).
Proof.
  induction ms as [|[m|] ms IH]; intros Hs; cbn [target_busy].
  - exists false. split; [done|]. split; [done|]. intros (m&Hm&_). by apply not_elem_of_nil in Hm.
  - destruct (Hs m ltac:(by left)) as [q Hq]. rewrite (slot_path m q Hq). cbn [mbind exec_bind]. case_bool_decide as Hqp.
    + subst q. exists true. split; [done|]. split; [|done]. intros _. exists m. split; [by left|done].
    + destruct (IH ltac:(intros m' Hm'; apply Hs; by right)) as (b&->&Hb). exists b. split; [done|]. rewrite Hb. split.
      * intros (m'&Hin&Hsl). exists m'. split; [by right|done].
      * intros (m'&Hin&Hsl). apply elem_of_cons in Hin as [[= ->]|Hin]; [by destruct (slot_inj m q p Hq Hsl)|by exists m'].
  - destruct (IH ltac:(intros m' Hm'; apply Hs; by right)) as (b&->&Hb). exists b. split; [done|]. rewrite Hb. split.
    + intros (m'&Hin&Hsl). exists m'. split; [by right|done].
    + intros (m'&Hin&Hsl). apply elem_of_cons in Hin as [?|Hin]; [done|by exists m'].
Qed.

Lemma fill_mount_Some (m : MountInfo (D := D)) (ms ms' : table) : fill_mount m ms = Some ms' →
  ∃ k, ms !! k = Some None ∧ ms' = <[k := Some m]> ms.
Proof.
  revert ms'. induction ms as [|[x|] ms IH]; intros ms'; cbn [fill_mount]; [done| |intros [= <-]; by exists 0].
  destruct (fill_mount m ms) as [l|]; [|done]. intros [= <-]. destruct (IH l eq_refl) as (k&Hk&->). by exists (S k).
Qed.

Lemma register_mount_spec (ms : table) (dev_path p : str) (fs : Exfat.ExfatFs) (dev : D) :
  mounts_wf ms → target_ok p → mounted fs → device_ok dev →
  ∃ r ms', register_mount ms dev_path p fs dev = Done (r, ms') ∧ mounts_wf ms' ∧
    match r with
    | inl e => (e = TargetBusy ∧ (∃ m, Some m ∈ ms ∧ slot_at m p) ∨ e = MountNoSpace) ∧ ms' = ms
    | inr _ => ∃ k m, ms !! k = Some None ∧ ms' = <[k := Some m]> ms ∧ slot_at m p ∧ m_fs m = fs ∧ m_dev m = dev
    end.
Proof.
  intros Hwf Hp Hfs Hdev. unfold register_mount. destruct (path_buffer_spec dev_path) as (src&->&Hsl&_). cbn [mbind exec_bind].
  destruct (path_buffer_spec p) as (buf&Hb&Hbl&Htk). rewrite Hb. cbn [mbind exec_bind].
  assert (Hmin : Nat.min (length p) (PATH_BUF - 1) = length p) by (destruct Hp as (_&?&_); lia). rewrite Hmin in *.
  destruct (target_busy_spec ms p (mw_slot _ Hwf)) as (b&->&Hbusy). cbn [mbind exec_bind].
  destruct b; [eexists _, ms; split; [done|]; split; [done|]; split; [left; split; [done|by apply Hbusy]|done]|].
  set (m := mk_mount src (Nat.min (length dev_path) (PATH_BUF - 1)) buf (length p) fs dev).
  assert (Hm : slot_at m p).
  { split; cbn [m m_path m_path_len m_source m_source_len]; try done; [by rewrite Htk, take_ge by lia|split; [done|unfold PATH_BUF; lia]]. }
  destruct (fill_mount m ms) as [ms'|] eqn:Hf; [|eexists _, ms; split; [done|]; split; [done|]; split; [by right|done]].
  destruct (fill_mount_Some _ _ _ Hf) as (k&Hk&->). eexists _, _. split; [done|]. split; [|by exists k, m].
  assert (Hfree : ∀ i m', ms !! i = Some (Some m') → ¬ slot_at m' p).
  { intros i m' Hi Hsl'. apply list_elem_of_lookup_2 in Hi.
    assert (Hx : false = true) by (apply Hbusy; by exists m'). discriminate. }
  destruct Hwf as [Hl Hs Hd]. split.
  - by rewrite length_insert.
  - intros m' Hin. apply list_elem_of_lookup in Hin as [i Hi]. apply list_lookup_insert_Some in Hi as [(_&[= <-]&_)|[_ Hi]].
    + by exists p.
    + apply Hs. by eapply list_elem_of_lookup_2.
  - intros i j m1 m2 q Hi Hj H1 H2.
    destruct (decide (i = k)) as [->|Hik], (decide (j = k)) as [->|Hjk]; [done| | |].
    + rewrite list_lookup_insert_ne in Hj by done. rewrite list_lookup_insert_eq in Hi by (by eapply lookup_lt_Some). injection Hi as <-.
      rewrite (slot_inj m q p H1 Hm) in H2. by destruct (Hfree j m2 Hj).
    + rewrite list_lookup_insert_ne in Hi by done. rewrite list_lookup_insert_eq in Hj by (by eapply lookup_lt_Some). injection Hj as <-.
      rewrite (slot_inj m q p H2 Hm) in H1. by destruct (Hfree i m1 Hi).
    + rewrite list_lookup_insert_ne in Hi, Hj by done. by eapply Hd.
Qed.

Lemma unmount_spec (ms : table) (p : str) : (∀ m, Some m ∈ ms → ∃ p, slot_at m p) →
  ∃ r ms', unmount ms p = Done (r, ms') ∧
    if r : bool then ∃ k m, ms !! k = Some (Some m) ∧ slot_at m p ∧ ms' = <[k := None]> ms
    else ms' = ms ∧ ∀ m, Some m ∈ ms → ¬ slot_at m p.
Proof.
  induction ms as [|[m|] ms IH]; intros Hs; cbn [unmount].
  - exists false, []. split; [done|]. split; [done|]. intros m Hm. by apply not_elem_of_nil in Hm.
  - destruct (Hs m ltac:(by left)) as [q Hq]. rewrite (slot_path m q Hq). cbn [mbind exec_bind]. case_bool_decide as Hqp.
    + subst q. exists true, (None :: ms). split; [done|]. by exists 0, m.
    + destruct (IH ltac:(intros m' Hm'; apply Hs; by right)) as (r&ms'&->&Hr). cbn [mbind exec_bind].
      exists r, (Some m :: ms'). split; [done|]. destruct r.
      * destruct Hr as (k&m'&Hk&Hsl&->). by exists (S k), m'.
      * destruct Hr as [-> Hno]. split; [done|]. intros m' Hin Hsl. apply elem_of_cons in Hin as [[= ->]|Hin]; [|by eapply Hno].
        by destruct (slot_inj m q p Hq Hsl).
  - destruct (IH ltac:(intros m' Hm'; apply Hs; by right)) as (r&ms'&->&Hr). cbn [mbind exec_bind].
    exists r, (None :: ms'). split; [done|]. destruct r.
    + destruct Hr as (k&m'&Hk&Hsl&->). by exists (S k), m'.
    + destruct Hr as [-> Hno]. split; [done|]. intros m' Hin. apply elem_of_cons in Hin as [?|Hin]; [done|by apply Hno].
Qed.

Lemma unmount_wf (ms : table) (k : nat) : mounts_wf ms → mounts_wf (<[k := None]> ms).
Proof.
  intros [Hl Hs Hd].
  assert (Hold : ∀ i m, <[k := None]> ms !! i = Some (Some m) → ms !! i = Some (Some m)).
  { intros i m Hi. apply list_lookup_insert_Some in Hi as [(_&?&_)|[_ ?]]; done. }
  split.
  - by rewrite length_insert.
  - intros m Hin. apply list_elem_of_lookup in Hin as [i Hi]. eapply Hs, list_elem_of_lookup_2. by apply Hold.
  - intros i j m m' p Hi Hj. eapply Hd; by apply Hold.
Qed.

(** ** Listing *)

Lemma entry_path (m : MountInfo (D := D)) (p : str) : slot_at m p →
  path_str (mk_mount_entry (m_source m) (m_source_len m) (m_path m) (m_path_len m) EXFAT) = Done p.
Proof. apply slot_path. Qed.

Lemma target_split (p : str) : target_ok p → ∃ slash, rfind SLASH p = Some slash ∧ length (drop (S slash) p) < NAME_MAX.
Proof.
  intros (_&_&dir&name&->&Hno&_&Hl). exists (length dir). split; [apply rfind_Some; by exists dir, name|].
  rewrite drop_app_ge by lia. by replace (S (length dir) - length dir) with 1 by lia.
Qed.

(** An entry with a name that fits the buffers of its readers. *)
Definition entry_fits (e : DirEntry) : Prop := ∃ n, name_str e = Done n ∧ length n ≤ 32.

Lemma name_max : NAME_MAX = 32.
Proof. reflexivity. Qed.

Lemma fits_prefix (nm : list Z) (n : nat) (ty : FileType) : n ≤ length nm → n ≤ 32 → entry_fits (mk_entry nm n ty).
Proof.
  intros Hl Hn. unfold entry_fits, name_str. cbn [de_name de_name_len]. rewrite prefix_exec_Done by done. cbn [mbind exec_bind]. eexists. split; [done|].
  unfold from_utf8_or_empty. destruct (utf8_valid _); [rewrite length_take; lia|cbn; lia].
Qed.

Lemma mount_children_spec (ms : table) (parent : str) : (∀ m, Some m ∈ ms → ∃ p, slot_at m p) →
  ∃ ds, mount_children (mount_entries ms) parent = Done ds ∧ Forall entry_fits ds.
Proof.
  induction ms as [|[m|] ms IH]; intros Hs; cbn [mount_entries fmap list_fmap option_fmap option_map mount_children]; [by exists []| |].
  - destruct (Hs m ltac:(by left)) as [p Hp]. rewrite (entry_path m p Hp). cbn [mbind exec_bind].
    destruct (IH ltac:(intros m' Hm'; apply Hs; by right)) as (ds&Hds&Hfit). unfold mount_entries in Hds.
    destruct (target_split p (sa_ok _ _ Hp)) as (slash&->&Hlen). case_bool_decide; [|by exists ds].
    unfold child_entry. rewrite Nat.min_l by lia. rewrite Nat.eqb_refl. cbn [mbind exec_bind]. rewrite Hds. eexists. split; [done|].
    constructor; [|done]. apply fits_prefix; [rewrite length_app; lia|rewrite name_max in *; lia].
  - apply IH. intros m' Hm'. apply Hs. by right.
Qed.

(** ** Mounting *)

Lemma ends_with_app (l : str) (c : Z) : ends_with_byte (l ++ [c]) c = true.
Proof. unfold ends_with_byte. rewrite last_snoc. apply Z.eqb_refl. Qed.

Lemma valid_target_spec (ram : RamFs) (p : str) : fs_wf ram → rooted ram → utf8_valid p = true → length p < PATH_BUF →
  ∃ b, valid_mount_target ram p = Done b ∧ (b = true → target_ok p).
Proof.
  intros Hwf Hr Hu Hl. unfold valid_mount_target. destruct (_ || _); [by exists false|].
  destruct (rfind SLASH p) as [slash|] eqn:Hs; [|by exists false].
  destruct (bool_decide (drop (S slash) p = []) || (NAME_MAX <=? length (drop (S slash) p)) || bool_decide (SLASH ∈ drop (S slash) p)) eqn:E; [by exists false|].
  apply orb_false_iff in E as [[Hne%bool_decide_eq_false Hlen%Nat.leb_gt]%orb_false_iff _].
  destruct (resolve_path_spec ram (if slash =? 0 then [SLASH] else take slash p) Hwf (proj1 Hr)) as (r&->&_). cbn [mbind exec_bind].
  destruct r as [e|i]; [by exists false|].
  assert (Hty : ∃ t, node_file_type ram i = Done t) by (unfold node_file_type; rewrite node_spec by done; by eexists).
  destruct Hty as [t ->]. cbn [mbind exec_bind]. eexists. split; [done|]. intros _. split; [done|]. split; [done|].
  apply rfind_Some in Hs as (a&b&->&<-&Hno). exists a, b.
  assert (Hd : drop (S (length a)) (a ++ SLASH :: b) = b).
  { rewrite drop_app_ge by lia. by replace (S (length a) - length a) with 1 by lia. }
  rewrite Hd in *. done.
Qed.

Lemma detect_spec (d : D) : device_ok d → ∃ r, detect_fs (read_block d) = Done r.
Proof.
  intros [Hd _]. unfold detect_fs. destruct (read_block d 0%Z) as [s|] eqn:E; [|by eexists].
  destruct (Hd _ _ E) as [Hl Hb]. unfold Exfat.SECTOR_SIZE in Hl. unfold try_detect_exfat.
  assert (Hget : ∀ i, i < 512 → ∃ b, s !! i = Some b) by (intros i Hi; apply lookup_lt_is_Some_2; lia).
  destruct (Hget 510 ltac:(lia)) as [b1 ->], (Hget 511 ltac:(lia)) as [b2 ->]. cbn [get_exec mbind exec_bind].
  destruct (_ || _); cbn [mbind exec_bind]; [by eexists|]. rewrite slice_Done by lia. cbn [mbind exec_bind].
  case_bool_decide; cbn [mbind exec_bind]; [|by eexists].
  destruct (Hget 108 ltac:(lia)) as [b3 ->], (Hget 109 ltac:(lia)) as [b4 ->]. cbn [get_exec mbind exec_bind]. by eexists.
Qed.

Lemma find_block_device_in (path : str) (d : D) : find_block_device devs path = Some d → d ∈ devs.
Proof.
  unfold find_block_device. destruct (strip_prefix path _); [|done]. cbn. destruct (parse_blk_name _) as [i|]; [|done]. cbn.
  destruct (i <? Z.of_nat (length devs))%Z; [|done]. intros Hi. by eapply list_elem_of_lookup_2.
Qed.

Lemma try_mount_spec (d : D) (s0 : list Z) : device_ok d → read_block d 0%Z = Some s0 →
  ∃ r, try_mount_exfat read_block d = Done r ∧ ∀ fs, r = Some fs → mounted fs ∧ Exfat.mount (read_block d) Exfat.fs_new = Done (Some (), fs).
Proof.
  intros [Hd Hc] H0. unfold try_mount_exfat. pose proof (mount_decides _ Exfat.fs_new s0 Hd H0) as Hm.
  assert (Hmt : ∀ fs, Exfat.mount (read_block d) Exfat.fs_new = Done (Some (), fs) → mounted fs).
  { intros fs. by eapply mount_mounted. }
  specialize (Hc _ H0). rewrite Hm in *. destruct (valid_fields s0); [|eexists; split; [done|]; intros fs; discriminate].
  destruct (Z.leb_spec (2 ^ 32) (field s0 92 4 + 2)); [lia|].
  destruct (_ <? _)%Z; cbn [mbind exec_bind] in *; eexists; (split; [done|]); intros fs [= <-]. split; [by apply Hmt|done].
Qed.

Lemma mount_fs_spec (ram : RamFs) (ms : table) (dev_path p : str) : fs_wf ram → rooted ram → Forall device_ok devs →
  mounts_wf ms → utf8_valid p = true →
  ∃ r ms', mount_fs read_block devs ram ms dev_path p = Done (r, ms') ∧ mounts_wf ms' ∧
    match r with
    | inl _ => ms' = ms
    | inr _ => ∃ k m, ms !! k = Some None ∧ ms' = <[k := Some m]> ms ∧ slot_at m p ∧ find_block_device devs dev_path = Some (m_dev m)
        ∧ Exfat.mount (read_block (m_dev m)) Exfat.fs_new = Done (Some (), m_fs m)
    end.
Proof.
  intros Hfs Hr Hdevs Hwf Hu. unfold mount_fs.
  destruct (bool_decide (p = []) || negb (starts_with p [SLASH]) || (PATH_BUF <=? length p)) eqn:Ep; [by eexists _, _|].
  apply orb_false_iff in Ep as [_ Hl%Nat.leb_gt].
  destruct (valid_target_spec ram p Hfs Hr Hu Hl) as (b&->&Hok). cbn [mbind exec_bind]. destruct b; cbn [negb]; [|by eexists _, _].
  destruct (find_block_device devs dev_path) as [d|] eqn:Hd; [|by eexists _, _].
  pose proof (proj1 (Forall_forall _ _) Hdevs d (find_block_device_in _ _ Hd)) as Hdev.
  unfold detect_fs. destruct (read_block d 0%Z) as [s0|] eqn:H0; [|cbn [mbind exec_bind sector0_valid negb]; by eexists _, _].
  destruct (detect_spec d Hdev) as [r Hdet]. unfold detect_fs in Hdet. rewrite H0 in Hdet.
  destruct (try_detect_exfat s0) as [found|]; cbn [mbind exec_bind] in Hdet |- *; [|done]. cbn [sector0_valid fs_type negb].
  case_bool_decide; [by eexists _, _|]. destruct (try_mount_spec d s0 Hdev H0) as (rm&->&Hmt). cbn [mbind exec_bind].
  destruct rm as [fs|]; [|by eexists _, _].
  destruct (register_mount_spec ms dev_path p fs d Hwf (Hok eq_refl) (proj1 (Hmt _ eq_refl)) Hdev) as (r'&ms'&->&Hwf'&Hres).
  exists r', ms'. split; [done|]. split; [done|]. destruct r' as [e|[]]; [tauto|].
  destruct Hres as (k&m&Hk&->&Hm&Hmf&Hmd). exists k, m. rewrite Hmd, Hmf. split_and!; try done. by apply Hmt.
Qed.

(** ** Listing the mounts *)

Lemma list_mounts_spec (ms : table) : (∀ m, Some m ∈ ms → ∃ p, slot_at m p) → ∃ l, list_mounts ms = Done l.
Proof.
  unfold list_mounts. induction ms as [|[m|] ms IH]; intros Hs; cbn [mount_entries fmap list_fmap option_fmap option_map list_entries].
  - by eexists.
  - destruct (Hs m ltac:(by left)) as [p Hp]. rewrite (entry_path m p Hp). unfold source_str. cbn [me_source me_source_len].
    destruct (sa_source _ _ Hp) as [Hl Hn]. rewrite prefix_exec_Done by lia. cbn [mbind exec_bind].
    destruct (IH ltac:(intros m' Hm'; apply Hs; by right)) as (l&Hls). unfold mount_entries in Hls. rewrite Hls. by eexists.
  - apply IH. intros m' Hm'. apply Hs. by right.
Qed.

(** ** Histories *)

Inductive MountOp : Type :=
  | MMount (dev_path target : str)
  | MUnmount (path : str)
  | MFind (path : str)
  | MChildren (parent : str)
  | MList.

Definition run_mop (ram : RamFs) (ms : table) (op : MountOp) : exec table :=
  match op with
  | MMount dev target => '(_, ms) ← mount_fs read_block devs ram ms dev target; Done ms
  | MUnmount path => '(_, ms) ← unmount ms path; Done ms
  | MFind path => _ ← find_mount_for_path ms path; Done ms
  | MChildren parent => _ ← list_mount_children ms parent; Done ms
  | MList => _ ← list_mounts ms; Done ms
  end.

Fixpoint run_mops (ram : RamFs) (ms : table) (ops : list MountOp) : exec table :=
  match ops with [] => Done ms | op :: ops => ms ← run_mop ram ms op; run_mops ram ms ops end.

Definition mop_ok (op : MountOp) : Prop := match op with MMount _ target => utf8_valid target = true | _ => True end.

Lemma run_mop_spec (ram : RamFs) (ms : table) (op : MountOp) : fs_wf ram → rooted ram → Forall device_ok devs → mounts_wf ms → mop_ok op →
  ∃ ms', run_mop ram ms op = Done ms' ∧ mounts_wf ms'.
Proof.
  intros Hfs Hr Hd Hwf Hop. pose proof (mw_slot _ Hwf) as Hs. destruct op as [dev target|path|path|parent|]; cbn [run_mop mop_ok] in *.
  - destruct (mount_fs_spec ram ms dev target Hfs Hr Hd Hwf Hop) as (r&ms'&->&Hwf'&_). by exists ms'.
  - destruct (unmount_spec ms path Hs) as (r&ms'&->&Hr'). cbn [mbind exec_bind]. exists ms'. split; [done|].
    destruct r; [destruct Hr' as (k&m&_&_&->); by apply unmount_wf|by destruct Hr' as [-> _]].
  - unfold find_mount_for_path. destruct (best_mount_spec path ms Hs None 0) as (r&->&_). by exists ms.
  - unfold list_mount_children. destruct (mount_children_spec ms parent Hs) as (ds&->&_). by exists ms.
  - destruct (list_mounts_spec ms Hs) as (l&->). by exists ms.
Qed.

Lemma empty_table : mounts_wf (replicate MOUNT_SLOTS None).
Proof.
  assert (Hno : ∀ m, Some m ∉ replicate MOUNT_SLOTS (None : option (MountInfo (D := D)))).
  { intros m Hm%elem_of_replicate. by destruct Hm. }
  split; [by rewrite length_replicate|intros m Hm; by apply Hno in Hm|].
  intros i j m m' p Hi. apply list_elem_of_lookup_2, Hno in Hi. done.
Qed.

Lemma run_mops_spec (ram : RamFs) (ops : list MountOp) : fs_wf ram → rooted ram → Forall device_ok devs → Forall mop_ok ops →
  ∀ ms, mounts_wf ms → ∃ ms', run_mops ram ms ops = Done ms' ∧ mounts_wf ms'.
Proof.
  intros Hfs Hr Hd. induction 1 as [|op ops Hop _ IH]; intros ms Hwf; cbn [run_mops]; [by exists ms|].
  destruct (run_mop_spec ram ms op Hfs Hr Hd Hwf Hop) as (ms1&->&Hwf1). cbn [mbind exec_bind]. by apply IH.
Qed.

(** ** Reading through the table *)

(** [path] is [p] or below it. *)
Definition under (p path : str) : Prop := path = p ∨ ∃ rest, path = p ++ SLASH :: rest.

Lemma under_same (p q path : str) : under p path → under q path → length p = length q → p = q.
Proof.
  assert (Ht : ∀ p, under p path → take (length p) path = p).
  { intros r [->|[rest ->]]; [by apply take_ge|by rewrite take_app_le, take_ge by lia]. }
  intros Hp Hq Hl. by rewrite <- (Ht p Hp), Hl, (Ht q Hq).
Qed.

Lemma find_mount_spec (ms : table) (path : str) : mounts_wf ms → ∃ r, find_mount_for_path ms path = Done r ∧
  match r with
  | None => ∀ m p, Some m ∈ ms → slot_at m p → ¬ under p path
  | Some l => ∃ m p, Some m ∈ ms ∧ slot_at m p ∧ under p path ∧ l = mk_lookup (m_fs m) (length p) (m_dev m) ∧
      ∀ m' p', Some m' ∈ ms → slot_at m' p' → under p' path → m' = m ∨ length p' < length p
  end.
Proof.
  intros Hwf. unfold find_mount_for_path.
  destruct (best_mount_spec path ms (mw_slot _ Hwf) None 0) as (r&->&[[-> Hno]|(m&p&Hin&Hsl&Hc&_&->&Hmax)]); eexists; (split; [done|]).
  - intros m p Hin Hsl Hu%covers_iff. specialize (Hno m p Hin Hsl Hu). destruct (sa_ok _ _ Hsl) as (_&_&d&n&->&_).
    rewrite length_app in Hno. cbn in Hno. lia.
  - exists m, p. split; [done|]. split; [done|]. split; [by apply covers_iff|]. split; [done|]. intros m' p' Hin' Hsl' Hu.
    pose proof (Hmax m' p' Hin' Hsl' (proj2 (covers_iff _ _) Hu)) as Hle. destruct (decide (length p' = length p)) as [He|]; [left|right; lia].
    pose proof (under_same p' p path Hu (proj1 (covers_iff _ _) Hc) He) as ->.
    apply list_elem_of_lookup in Hin as [i Hi], Hin' as [j Hj]. pose proof (mw_distinct _ Hwf i j m m' p Hi Hj Hsl Hsl') as ->.
    rewrite Hi in Hj. by injection Hj.
Qed.

(** ** Mounted volumes are sound

    A medium is sound when its volume, if it can be mounted, is. *)

Definition media_sound (fuel : nat) : Prop := Forall device_ok devs ∧
  ∀ d fs, d ∈ devs → Exfat.mount (read_block d) Exfat.fs_new = Done (Some (), fs) → volume_sound (read_block d) fs fuel.

Definition volumes_sound (fuel : nat) (ms : table) : Prop := ∀ m, Some m ∈ ms → volume_sound (read_block (m_dev m)) (m_fs m) fuel.

Lemma volumes_insert (fuel : nat) (ms : table) (k : nat) (o : option MountInfo) : volumes_sound fuel ms →
  (∀ m, o = Some m → volume_sound (read_block (m_dev m)) (m_fs m) fuel) → volumes_sound fuel (<[k := o]> ms).
Proof.
  intros Hv Ho m Hin. apply list_elem_of_lookup in Hin as [i Hi]. apply list_lookup_insert_Some in Hi as [(_&->&_)|[_ Hi]]; [by apply Ho|].
  eapply Hv, list_elem_of_lookup_2, Hi.
Qed.

Lemma mount_fs_sound (fuel : nat) (ram : RamFs) (ms : table) (dev_path p : str) : fs_wf ram → rooted ram → media_sound fuel →
  mounts_wf ms → volumes_sound fuel ms → utf8_valid p = true →
  ∃ r ms', mount_fs read_block devs ram ms dev_path p = Done (r, ms') ∧ mounts_wf ms' ∧ volumes_sound fuel ms'.
Proof.
  intros Hfs Hr [Hd Hs] Hwf Hv Hu. destruct (mount_fs_spec ram ms dev_path p Hfs Hr Hd Hwf Hu) as (r&ms'&Heq&Hwf'&Hres).
  exists r, ms'. split; [done|]. split; [done|]. destruct r as [e|[]]; [by subst|]. destruct Hres as (k&m&_&->&_&Hf&Hmt).
  apply volumes_insert; [done|]. intros m' [= <-]. eapply Hs; [by eapply find_block_device_in|done].
Qed.

Lemma unmount_sound (fuel : nat) (ms : table) (p : str) : mounts_wf ms → volumes_sound fuel ms →
  ∃ r ms', unmount ms p = Done (r, ms') ∧ mounts_wf ms' ∧ volumes_sound fuel ms'.
Proof.
  intros Hwf Hv. destruct (unmount_spec ms p (mw_slot _ Hwf)) as (r&ms'&Heq&Hr). exists r, ms'. split; [done|].
  destruct r; [|by destruct Hr as [-> _]]. destruct Hr as (k&m&_&_&->). split; [by apply unmount_wf|]. by apply volumes_insert.
Qed.

(** What a lookup finds can be read. *)
Lemma lookup_sound (fuel : nat) (ms : table) (path : str) : mounts_wf ms → volumes_sound fuel ms →
  ∃ r, find_mount_for_path ms path = Done r ∧ ∀ l, r = Some l → mounted (l_fs l) ∧ dev_ok (read_block (l_dev l))
    ∧ volume_sound (read_block (l_dev l)) (l_fs l) fuel ∧ ∃ rel, rel_path path l = Done rel.
Proof.
  intros Hwf Hv. destruct (find_mount_spec ms path Hwf) as (r&Hr&Hl). exists r. split; [done|]. intros l ->.
  destruct Hl as (m&p&Hin&Hsl&Hu&->&_). cbn [l_fs l_dev]. split_and!; [apply Hsl|apply (sa_dev _ _ Hsl)|by apply Hv|].
  unfold rel_path. cbn [prefix_len]. destruct Hu as [->|[rest ->]]; rewrite (proj2 (Nat.leb_le _ _)) by (rewrite ?length_app; lia); by eexists.
Qed.

Lemma cut_entry_fits (e : Exfat.ExfatEntry) (ty : FileType) : entry_ok e → ∃ d, cut_entry e ty = Done d ∧ entry_fits d.
Proof.
  intros [Hn Hl _ _]. unfold cut_entry. rewrite copy_prefix_Done by (rewrite ?length_replicate, ?Hn, ?name_max; lia). cbn [mbind exec_bind].
  eexists. split; [done|]. apply fits_prefix; rewrite ?name_max; [|lia]. rewrite length_copied by (rewrite ?length_replicate, ?Hn; lia).
  rewrite length_replicate. lia.
Qed.

Lemma cut_entries_fit (es : list Exfat.ExfatEntry) : Forall entry_ok es → ∃ ds, cut_entries es = Done ds ∧ Forall entry_fits ds.
Proof.
  induction 1 as [|e es He _ (ds&IH&Hds)]; cbn [cut_entries]; [by exists []|].
  destruct (cut_entry_fits e (if Exfat.is_dir e then Directory else File) He) as (d&->&Hd). cbn [mbind exec_bind]. rewrite IH. cbn [mbind exec_bind].
  exists (d :: ds). by split; [|constructor].
Qed.

Lemma list_path_sound (fuel : nat) (ms : table) (path : str) (cb : list Z) : mounts_wf ms → volumes_sound fuel ms → buf_ok cb →
  ∃ r ds cb', list_path read_block fuel ms path cb = Done (r, ds, cb') ∧ Forall entry_fits ds ∧ buf_ok cb'.
Proof.
  intros Hwf Hv Hb. unfold list_path. destruct (lookup_sound fuel ms path Hwf Hv) as (r&->&Hr). cbn [mbind exec_bind].
  destruct r as [l|]; [|by eexists _, [], cb]. destruct (Hr l eq_refl) as (Hm&Hdev&Hs&rel&->). cbn [mbind exec_bind].
  destruct (find_entry_total _ _ Hdev Hm fuel rel cb Hs Hb) as (o&cb1&->&Hb1&Ho). cbn [mbind exec_bind]. destruct o as [e|]; [|by eexists _, [], cb1].
  destruct (Ho e eq_refl) as [Hre Hok]. destruct (Exfat.is_dir e) eqn:Hd; cbn [negb].
  - destruct (list_dir_total _ _ Hdev Hm fuel e cb1 Hs Hre Hd (eo_first _ Hok) Hb1) as (es&ok&cb2&->&Hb2&Hes). cbn [mbind exec_bind].
    destruct (cut_entries_fit es) as (ds&->&Hds); [eapply Forall_impl; [exact Hes|by intros ? [_ ?]]|]. cbn [mbind exec_bind]. by eexists _, ds, cb2.
  - destruct (cut_entry_fits e File Hok) as (d&->&Hd'). cbn [mbind exec_bind]. eexists _, [d], cb1. by split; [|split; [constructor|]].
Qed.

Lemma mount_file_type_sound (fuel : nat) (ms : table) (path : str) (cb : list Z) : mounts_wf ms → volumes_sound fuel ms → buf_ok cb →
  ∃ r cb', mount_file_type read_block fuel ms path cb = Done (r, cb') ∧ buf_ok cb'.
Proof.
  intros Hwf Hv Hb. unfold mount_file_type. destruct (lookup_sound fuel ms path Hwf Hv) as (r&->&Hr). cbn [mbind exec_bind].
  destruct r as [l|]; [|by eexists _, cb]. destruct (Hr l eq_refl) as (Hm&Hdev&Hs&rel&->). cbn [mbind exec_bind].
  destruct (find_entry_total _ _ Hdev Hm fuel rel cb Hs Hb) as (o&cb1&->&Hb1&_). cbn [mbind exec_bind]. by eexists _, cb1.
Qed.

Lemma read_mount_file_sound (fuel : nat) (ms : table) (path : str) (buf cb : list Z) : mounts_wf ms → volumes_sound fuel ms → buf_ok cb →
  ∃ n buf' cb', read_mount_file read_block fuel ms path buf cb = Done (n, buf', cb') ∧ n ≤ length buf' ∧ buf_ok cb'.
Proof.
  intros Hwf Hv Hb. unfold read_mount_file. destruct (lookup_sound fuel ms path Hwf Hv) as (r&->&Hr). cbn [mbind exec_bind].
  assert (Hnone : ∀ cb', buf_ok cb' → ∃ n buf' cb'', Done (0, buf, cb') = Done (n, buf', cb'') ∧ n ≤ length buf' ∧ buf_ok cb'').
  { intros cb' Hcb'. exists 0, buf, cb'. split; [done|]. split; [lia|done]. }
  destruct r as [l|]; [|by apply Hnone]. destruct (Hr l eq_refl) as (Hm&Hdev&Hs&rel&->). cbn [mbind exec_bind].
  case_bool_decide; [by apply Hnone|].
  destruct (find_entry_total _ _ Hdev Hm fuel rel cb Hs Hb) as (o&cb1&->&Hb1&Ho). cbn [mbind exec_bind]. destruct o as [e|]; [|by apply Hnone].
  destruct (Ho e eq_refl) as [Hre Hok]. destruct (Exfat.is_dir e); [by apply Hnone|].
  destruct (read_file_total _ _ Hdev Hm fuel e buf cb1 Hs Hre Hok Hb1) as (o&buf'&cb2&->&Hb2&Hl&Hn). cbn [mbind exec_bind].
  eexists _, buf', cb2. split; [done|]. split; [|done]. destruct o as [n|]; [|lia]. specialize (Hn n eq_refl). lia.
Qed.

Lemma rel_path_spec (p rest : str) (fs : Exfat.ExfatFs) (d : D) :
  rel_path (p ++ SLASH :: rest) (mk_lookup fs (length p) d) = Done (trim_start SLASH rest).
Proof.
  unfold rel_path. cbn [prefix_len]. rewrite (proj2 (Nat.leb_le _ _)) by (rewrite length_app; lia).
  rewrite drop_app_length. done.
Qed.
End mounts.

(** ** A volume to mount *)

Definition demo_sector : list Z :=
  [0xEB; 0x76; 0x90; 69; 88; 70; 65; 84; 32; 32; 32]%Z ++ replicate 61 0%Z ++ [100; 0; 0; 0; 0; 0; 0; 0]%Z
  ++ [2; 0; 0; 0; 1; 0; 0; 0; 4; 0; 0; 0]%Z ++ [10; 0; 0; 0; 2; 0; 0; 0]%Z ++ replicate 8 0%Z ++ [9; 1; 1]%Z ++ replicate 399 0%Z ++ [0x55; 0xAA]%Z.

Definition demo_disk (d : unit) (s : Z) : option (list Z) := if (s =? 0)%Z then Some demo_sector else demo_dev s.

Lemma demo_disk_ok : device_ok demo_disk tt.
Proof.
  split; [|by intros s0 [= <-]; vm_compute]. intros s d. unfold demo_disk. destruct (s =? 0)%Z; [|apply demo_dev_ok].
  intros [= <-]. split; [by vm_compute|]. apply (bool_decide_unpack _). by vm_compute.
Qed.

(** "/dev/blk0", "/m" and "/m/a" *)
Definition demo_source : str := [47; 100; 101; 118; 47; 98; 108; 107; 48]%Z.
Definition demo_target : str := [47; 109]%Z.
Definition demo_file : str := [47; 109; 47; 97]%Z.

Definition demo_slot : MountInfo (D := unit) :=
  mk_mount (demo_source ++ replicate 55 0%Z) 9 (demo_target ++ replicate 62 0%Z) 2 demo_fs tt.
Definition demo_table : list (option (MountInfo (D := unit))) := [Some demo_slot; None; None; None].

Lemma demo_target_ok : target_ok demo_target.
Proof.
  split; [done|]. split; [by unfold PATH_BUF; cbn; lia|]. exists [], [109%Z]. split; [done|]. split; [|split; [done|]].
  - intros Hx%list_elem_of_singleton. done.
  - apply Nat.ltb_lt. vm_compute. reflexivity.
Qed.

Lemma demo_slot_at : slot_at demo_disk demo_slot demo_target.
Proof.
  split; [reflexivity|reflexivity|reflexivity|apply demo_target_ok| |apply demo_mounted|apply demo_disk_ok].
  split; [reflexivity|]. unfold PATH_BUF. cbn. lia.
Qed.

Lemma demo_table_in (m : MountInfo (D := unit)) : Some m ∈ demo_table → m = demo_slot.
Proof. unfold demo_table. rewrite !elem_of_cons, elem_of_nil. intros [[= ->]|[?|[?|[?|[]]]]]; done. Qed.

Lemma demo_table_wf : mounts_wf demo_disk demo_table.
Proof.
  split; [done| |].
  - intros m ->%demo_table_in. exists demo_target. apply demo_slot_at.
  - intros i j m m' p Hi Hj _ _. destruct i as [|[|[|[|i]]]]; try done. by destruct j as [|[|[|[|j]]]].
Qed.

Lemma demo_disk_chain (e := file_entry 3 3 true) : chain_bounds demo_fs e ∧ in_chain demo_fs e 3 ∧ chain (demo_disk tt) demo_fs e 3 [3%Z]
  ∧ dir_holds (demo_disk tt) demo_fs (Exfat.dir_at 2) [[demo_set]].
Proof.
  destruct demo_chain as (Hcb&Hin&_), demo_exfat_root as (Hb&Hw&Hi&_). split; [done|]. split; [done|]. split.
  - eapply chain_link; [done|by vm_compute|constructor].
  - split; [done|]. split; [done|]. split; [done|]. exists [2%Z]. split.
    + eapply chain_link; [done|by vm_compute|constructor].
    + constructor; [|constructor]. split; [constructor; [apply demo_set_wf|constructor]|]. exists 29. by vm_compute.
Qed.

Lemma demo_media_sound (fuel : nat) : 2 ≤ fuel → media_sound demo_disk [tt] fuel.
Proof.
  intros Hf. split; [by constructor; [apply demo_disk_ok|]|]. intros [] fs _ Hmt.
  assert (E : Exfat.mount (demo_disk tt) Exfat.fs_new = Done (Some (), demo_fs)) by (vm_compute; reflexivity).
  rewrite E in Hmt. injection Hmt as <-. by apply demo_sound; [vm_compute; reflexivity..|].
Qed.

(** ** Properties *)

(** C24. From the empty table, over block devices whose sectors are full and
    whose volumes pass the bound of the root cluster, no sequence of mounts,
    unmounts, lookups and listings panics, and afterwards every occupied slot
    holds a valid absolute path of its own, below an existing name, with a
    volume of a readable geometry. *)
Theorem mount_table_safe {D : Type} (read_block : D → Z → option (list Z)) (devs : list D) (ram : RamFs) (ops : list MountOp) :
  fs_wf ram → rooted ram → Forall (device_ok read_block) devs → Forall mop_ok ops →
  ∃ ms, run_mops read_block devs ram (replicate MOUNT_SLOTS None) ops = Done ms ∧ mounts_wf read_block ms.
Proof. intros Hfs Hr Hd Hops. exact (run_mops_spec read_block devs ram ops Hfs Hr Hd Hops _ (empty_table read_block)). Qed.

Lemma mount_table_safe_witness : ∃ ms,
  run_mops demo_disk [tt] (fs_of demo_ops) (replicate MOUNT_SLOTS None)
    [MMount demo_source demo_target; MMount demo_source demo_target; MFind demo_file; MChildren [SLASH]; MList; MUnmount demo_target] = Done ms
  ∧ mounts_wf demo_disk ms.
Proof.
  apply mount_table_safe; [apply demo_fs_wf|apply demo_fs_wf|by constructor; [apply demo_disk_ok|]|].
  repeat (constructor; [by vm_compute|]). constructor.
Defined.

(** C25. A lookup finds the mounted volume with the longest path that is the
    path looked up or a parent of it, and none when there is no such volume;
    a path that only shares characters with a mount path is not below it. *)
Theorem mount_longest_prefix {D : Type} (read_block : D → Z → option (list Z)) (ms : list (option (MountInfo (D := D)))) (path : str) :
  mounts_wf read_block ms → ∃ r, find_mount_for_path ms path = Done r ∧
  match r with
  | None => ∀ m p, Some m ∈ ms → slot_at read_block m p → ¬ under p path
  | Some l => ∃ m p, Some m ∈ ms ∧ slot_at read_block m p ∧ under p path ∧ l = mk_lookup (m_fs m) (length p) (m_dev m) ∧
      ∀ m' p', Some m' ∈ ms → slot_at read_block m' p' → under p' path → m' = m ∨ length p' < length p
  end.
Proof. apply find_mount_spec. Qed.

Lemma mount_longest_prefix_witness : ∃ r, find_mount_for_path demo_table demo_file = Done r ∧ r = Some (mk_lookup demo_fs 2 tt).
Proof.
  destruct (mount_longest_prefix demo_disk demo_table demo_file demo_table_wf) as (r&Hr&Hl). exists r. split; [exact Hr|].
  destruct r as [l|].
  - destruct Hl as (m&p&Hin&Hsl&_&->&_). rewrite (demo_table_in m Hin) in *. by rewrite (slot_inj demo_disk demo_slot _ _ Hsl demo_slot_at).
  - destruct (Hl demo_slot demo_target); [by left|exact demo_slot_at|]. right. by exists [97%Z].
Defined.

(** A path below a mount point, with no deeper mount point on it, reads
    the file of that name in the root directory of the mounted volume: the
    bytes of its clusters, cut at its length and at the buffer. *)
Theorem mount_reads_volume {D : Type} (read_block : D → Z → option (list Z)) (ms : list (option (MountInfo (D := D)))) (m : MountInfo)
    (p rest : str) (setss : list (list EntrySet)) (s : EntrySet) (fuel : nat) (buf cb cs d : list Z) :
  let dev := read_block (m_dev m) in let fs := m_fs m in
  let e := file_entry (es_first s) (es_length s) (Exfat.no_fat_chain (decoded s)) in
  mounts_wf read_block ms → Some m ∈ ms → slot_at read_block m p →
  (∀ m' p', Some m' ∈ ms → slot_at read_block m' p' → under p' (p ++ SLASH :: rest) → length p' ≤ length p) →
  dir_holds dev fs (Exfat.dir_at (Exfat.root_dir_first_cluster fs)) setss → length setss < fuel → buf_ok cb →
  s ∈ concat setss → (∀ s', s' ∈ concat setss → es_name s' = es_name s → s' = s) → Exfat.is_dir (decoded s) = false →
  components rest = [es_name s] →
  chain_bounds fs e → in_chain fs e (es_first s) → chain dev fs e (es_first s) cs → chain_data dev fs cs = Some d →
  ∃ cb', let n := Nat.min (Nat.min (Z.to_nat (es_length s)) (length buf)) (length d) in
  read_mount_file read_block fuel ms (p ++ SLASH :: rest) buf cb = Done (n, take n d ++ drop n buf, cb').
Proof.
  intros dev fs e Hwf Hin Hsl Hdeep Hdir Hf Hb Hs Huniq Hfile Hrest Hcb Hch0 Hch Hd.
  destruct (find_mount_spec read_block ms (p ++ SLASH :: rest) Hwf) as (r&Hr&Hl).
  assert (Hu : under p (p ++ SLASH :: rest)) by (right; by eexists).
  destruct r as [l|]; [|by destruct (Hl m p Hin Hsl)]. destruct Hl as (m1&p1&Hin1&Hsl1&Hu1&->&Hmax).
  pose proof (Hdeep m1 p1 Hin1 Hsl1 Hu1) as Hle. destruct (Hmax m p Hin Hsl Hu) as [<-|?]; [|lia].
  pose proof (slot_inj read_block m p p1 Hsl Hsl1) as <-.
  unfold read_mount_file. rewrite Hr. cbn [mbind exec_bind]. rewrite rel_path_spec. cbn [mbind exec_bind l_fs l_dev].
  rewrite bool_decide_false by (intros Hn; rewrite <- components_trim, Hn in Hrest; done).
  destruct (open_and_read_spec dev fs setss s (trim_start SLASH rest) fuel buf cb cs d (proj1 (sa_dev _ _ _ Hsl)) (sa_fs _ _ _ Hsl) Hdir Hf Hb Hs
    Huniq Hfile ltac:(by rewrite components_trim) Hcb Hch0 Hch Hd) as (cb1&cb2&Hfe&Hrf). fold dev fs. rewrite Hfe. cbn [mbind exec_bind].
  rewrite Hfile, Hrf. cbn [mbind exec_bind]. by exists cb2.
Qed.

Lemma mount_reads_volume_witness : ∃ cb',
  read_mount_file demo_disk 2 demo_table demo_file [0; 0; 0; 0; 5]%Z (replicate 4096 0%Z) = Done (3, [7; 8; 9; 0; 5]%Z, cb').
Proof.
  destruct demo_disk_chain as (Hcb&Hin&Hch&Hroot).
  refine (mount_reads_volume demo_disk demo_table demo_slot demo_target [97%Z] [[demo_set]] demo_set 2 [0; 0; 0; 0; 5]%Z (replicate 4096 0%Z) [3%Z]
    demo_data demo_table_wf (list_elem_of_here _ _) demo_slot_at _ Hroot (le_n 2) demo_buf (list_elem_of_here _ _)
    (λ s' Hs' _, proj1 (list_elem_of_singleton _ _) Hs') eq_refl eq_refl Hcb Hin Hch eq_refl).
  intros m' p' ->%demo_table_in Hsl _. by rewrite (slot_inj demo_disk demo_slot _ _ Hsl demo_slot_at).
Defined.
