(* ===== verification/Shell.v ===== *)
(** * The shell: paths and the input line, [kernel/src/shell.rs]

    The state of the shell is its working directory and the last command; the
    input line is a buffer of 128 bytes with a cursor and a parser of escape
    sequences, changed by one received byte at a time.  Paths are normalised
    into a buffer of 256 bytes.  What [as_str] makes of the buffers is the
    bytes when they are valid text. *)

From S2P Require Export Prelude.
From S2P Require Export Str.
From S2P Require Export Text.
From S2P Require Export ExfatProps.

Definition CWD_CAP : nat := 256.
Definition LINE_CAP : nat := 128.

Record ShellState : Type := mk_shell { cwd : list Z; cwd_len : nat; last_cmd : list Z; last_cmd_len : nat }.

Definition shell_new : ShellState := mk_shell (SLASH :: replicate (CWD_CAP - 1) 0%Z) 1 (replicate LINE_CAP 0%Z) 0.

Definition cwd_str (st : ShellState) : exec str := bs ← prefix_exec (cwd st) (cwd_len st); Done (utf8_or [SLASH] bs).

Definition remember_cmd (st : ShellState) (cmd : str) : exec ShellState :=
  let len := Nat.min (length cmd) (length (last_cmd st)) in
  buf ← copy_prefix (last_cmd st) cmd len; Done (mk_shell (cwd st) (cwd_len st) buf len).

Definition set_cwd (st : ShellState) (path : str) : exec (bool * ShellState) :=
  if bool_decide (path = []) || (length (cwd st) <? length path) then Done (false, st) else
  buf ← copy_prefix (cwd st) path (length path); Done (true, mk_shell buf (length path) (last_cmd st) (last_cmd_len st)).

(** ** Paths *)

Record ShellPath : Type := mk_path { p_buf : list Z; p_len : nat }.
Definition path_root : ShellPath := mk_path (SLASH :: replicate (CWD_CAP - 1) 0%Z) 1.

Definition as_str (p : ShellPath) : exec str := bs ← prefix_exec (p_buf p) (p_len p); Done (utf8_or [SLASH] bs).

(** The loop of [pop_component]. *)
Fixpoint pop_bytes (buf : list Z) (len : nat) : exec nat :=
  match len with
  | S (S _ as l) => x ← get_exec (buf !! l); if (x =? SLASH)%Z then Done len else pop_bytes buf l
  | _ => Done len
  end.
Definition pop_component (p : ShellPath) : exec ShellPath :=
  len ← pop_bytes (p_buf p) (p_len p); Done (mk_path (p_buf p) (if 1 <? len then len - 1 else len)).

Definition push_component (p : ShellPath) (component : str) : exec (bool * ShellPath) :=
  if bool_decide (component = []) || bool_decide (component = bytes ".") then Done (true, p) else
  if bool_decide (component = bytes "..") then p ← pop_component p; Done (true, p) else
  let extra_slash := if 1 <? p_len p then 1 else 0 in
  if length (p_buf p) <? p_len p + extra_slash + length component then Done (false, p) else
  p ← (if extra_slash =? 1 then buf ← put_exec (p_buf p) (p_len p) SLASH; Done (mk_path buf (p_len p + 1)) else Done p);
  buf ← put_slice (p_buf p) (p_len p) component;
  Done (true, mk_path buf (p_len p + length component)).

(** The loops of [normalize_path]. *)
Fixpoint push_components (p : ShellPath) (components : list str) : exec (option ShellPath) :=
  match components with
  | [] => Done (Some p)
  | c :: components => '(ok, p) ← push_component p c; if ok : bool then push_components p components else Done None
  end.

Definition normalize_path (st : ShellState) (path : str) : exec (option ShellPath) :=
  input ← (if bool_decide (path = []) then cwd_str st else Done path);
  out ← (if negb (starts_with input [SLASH]) then c ← cwd_str st; push_components path_root (split_on SLASH c) else Done (Some path_root));
  match out with None => Done None | Some out => push_components out (split_on SLASH input) end.

Definition split_completion_path (path : str) : str * str * nat :=
  match rfind SLASH path with
  | Some pos => (take (if pos =? 0 then 1 else pos) path, drop (pos + 1) path, pos + 1)
  | None => ([], path, 0)
  end.

Definition split_parent_child (st : ShellState) (path : str) : exec (option (ShellPath * str)) :=
  let '(parent_arg, child) :=
    match rfind SLASH path with
    | Some 0 => ([SLASH], drop 1 path)
    | Some pos => (take pos path, drop (pos + 1) path)
    | None => ([], path)
    end in
  if bool_decide (child = []) || bool_decide (SLASH ∈ child) then Done None else
  p ← normalize_path st parent_arg;
  Done (match p with Some p => Some (p, child) | None => None end).

(** ** The input line *)

Inductive EscState : Type := Normal | SawEsc | SawBracket | Saw3.
#[export] Instance EscState_eq_dec : EqDecision EscState.
Proof. solve_decision. Defined.

Record Editor : Type := mk_editor { input_buf : list Z; cursor_pos : nat; cursor_end : nat; esc_state : EscState }.
Definition editor_new : Editor := mk_editor (replicate LINE_CAP 0%Z) 0 0 Normal.

Definition set_esc (ed : Editor) (e : EscState) : Editor := mk_editor (input_buf ed) (cursor_pos ed) (cursor_end ed) e.
Definition set_pos (ed : Editor) (pos : nat) : Editor := mk_editor (input_buf ed) pos (cursor_end ed) (esc_state ed).

(** [for i in lo..lo + n { buf[i] = buf[i + 1] }] *)
Fixpoint shift_left (buf : list Z) (lo n : nat) : exec (list Z) :=
  match n with
  | O => Done buf
  | S n => x ← get_exec (buf !! S lo); buf ← put_exec buf lo x; shift_left buf (S lo) n
  end.
(** [for i in (lo..lo + n).rev() { buf[i + 1] = buf[i] }] *)
Fixpoint shift_right (buf : list Z) (lo n : nat) : exec (list Z) :=
  match n with
  | O => Done buf
  | S n => x ← get_exec (buf !! (lo + n)); buf ← put_exec buf (S (lo + n)) x; shift_right buf lo n
  end.

(** What the byte does besides: the line is redrawn, entered or completed. *)
Inductive KeyEffect : Type := NoEffect | Redraw | Enter | Complete.

(** The byte after an escape sequence began. *)
Definition bracket_key (st : ShellState) (ed : Editor) (c : Z) : exec (KeyEffect * Editor) :=
  let ed := set_esc ed Normal in
  if (c =? 65)%Z then
    let last_len := last_cmd_len st in
    if (0 <? last_len) && (last_len <? length (input_buf ed)) then
      src ← prefix_exec (last_cmd st) last_len;
      buf ← put_slice (input_buf ed) 0 src;
      Done (Redraw, mk_editor buf last_len last_len (esc_state ed))
    else Done (NoEffect, ed)
  else if (c =? 67)%Z then
    if cursor_pos ed <? cursor_end ed then Done (Redraw, set_pos ed (cursor_pos ed + 1)) else Done (NoEffect, ed)
  else if (c =? 68)%Z then
    if 0 <? cursor_pos ed then Done (Redraw, set_pos ed (cursor_pos ed - 1)) else Done (NoEffect, ed)
  else if (c =? 72)%Z then Done (Redraw, set_pos ed 0)
  else if (c =? 70)%Z then Done (Redraw, set_pos ed (cursor_end ed))
  else if (c =? 51)%Z then Done (NoEffect, set_esc ed Saw3)
  else Done (NoEffect, ed).

Definition delete_key (ed : Editor) (c : Z) : exec (KeyEffect * Editor) :=
  let ed := set_esc ed Normal in
  if (c =? 126)%Z && (cursor_pos ed <? cursor_end ed) then
    buf ← shift_left (input_buf ed) (cursor_pos ed) (cursor_end ed - 1 - cursor_pos ed);
    Done (Redraw, mk_editor buf (cursor_pos ed) (cursor_end ed - 1) (esc_state ed))
  else Done (NoEffect, ed).

Definition backspace (ed : Editor) : exec (KeyEffect * Editor) :=
  if 0 <? cursor_pos ed then
    buf ← shift_left (input_buf ed) (cursor_pos ed - 1) (cursor_end ed - cursor_pos ed);
    Done (Redraw, mk_editor buf (cursor_pos ed - 1) (cursor_end ed - 1) (esc_state ed))
  else Done (NoEffect, ed).

Definition insert_key (ed : Editor) (c : Z) : exec (KeyEffect * Editor) :=
  if cursor_end ed <? length (input_buf ed) then
    buf ← shift_right (input_buf ed) (cursor_pos ed) (cursor_end ed - cursor_pos ed);
    buf ← put_exec buf (cursor_pos ed) c;
    Done (Redraw, mk_editor buf (cursor_pos ed + 1) (cursor_end ed + 1) (esc_state ed))
  else Done (NoEffect, ed).

(** The editing of the loop of [shell_main]: one byte. *)
Definition edit_key (st : ShellState) (ed : Editor) (c : Z) : exec (KeyEffect * Editor) :=
  match esc_state ed with
  | SawBracket => bracket_key st ed c
  | Saw3 => delete_key ed c
  | SawEsc => Done (NoEffect, set_esc ed (if (c =? 91)%Z then SawBracket else Normal))
  | Normal =>
      if (c =? 27)%Z then Done (NoEffect, set_esc ed SawEsc) else
      if (c =? 13)%Z || (c =? 10)%Z then Done (Enter, ed) else
      if (c =? 8)%Z || (c =? 127)%Z then backspace ed else
      if (c =? 9)%Z then Done (Complete, ed) else
      if (0x20 <=? c)%Z && (c <? 0x7f)%Z then insert_key ed c else
      Done (NoEffect, ed)
  end.

(** The command of the line, cut from the buffer; the zero is written behind it. *)
Definition take_line (ed : Editor) : exec (str * Editor) :=
  buf ← put_exec (input_buf ed) (cursor_end ed) 0%Z;
  bs ← prefix_exec buf (cursor_end ed);
  Done (utf8_or [] bs, mk_editor buf (cursor_pos ed) (cursor_end ed) (esc_state ed)).

(** ** Paths

    A normalised path as the list of its components, what pushing a component
    does to the list, and [normalize_path] as a fold over the pieces. *)

#[global] Opaque CWD_CAP LINE_CAP.

Lemma cwd_cap : CWD_CAP = 256.
Proof. done. Qed.
Lemma line_cap : LINE_CAP = 128.
Proof. done. Qed.

(** *** Components *)

Definition good (c : str) : Prop := c ≠ [] ∧ (SLASH ∉ c) ∧ c ≠ bytes "." ∧ c ≠ bytes ".." ∧ utf8_valid c = true.

Definition render (cs : list str) : str := match cs with [] => [SLASH] | _ => concat (cons SLASH <$> cs) end.

(** What a piece of a path does to the components before it. *)
Definition pushed (cs : list str) (c : str) : list str :=
  if bool_decide (c = []) || bool_decide (c = bytes ".") then cs else
  if bool_decide (c = bytes "..") then take (length cs - 1) cs else cs ++ [c].

Lemma render_snoc (cs : list str) (c : str) : render (cs ++ [c]) = (match cs with [] => [] | _ => render cs end) ++ SLASH :: c.
Proof. destruct cs as [|x cs]; cbn [render app fmap list_fmap concat]; [by rewrite app_nil_r|]. rewrite fmap_app, concat_app. cbn. by rewrite !app_nil_r, <- app_assoc. Qed.

Lemma length_render (cs : list str) : 1 ≤ length (render cs) ∧ (cs ≠ [] → Forall good cs → 2 ≤ length (render cs)).
Proof.
  destruct cs as [|c cs]; cbn [render]; [cbn; split; [lia|done]|]. cbn [fmap list_fmap concat app length]. rewrite length_app. split; [lia|].
  intros _ [(Hc&_) _]%Forall_cons. destruct c; [done|]. cbn. lia.
Qed.

Lemma slash_valid : utf8_valid [SLASH] = true.
Proof. done. Qed.

Lemma render_valid (cs : list str) : Forall good cs → utf8_valid (render cs) = true.
Proof.
  intros Hg. destruct cs as [|c cs]; [done|]. unfold render. apply valid_concat, Forall_fmap. eapply Forall_impl; [exact Hg|].
  intros x (_&_&_&_&Hx). apply (valid_app_true [SLASH] x slash_valid Hx).
Qed.

Lemma split_render (cs : list str) : Forall good cs → split_on SLASH (render cs) = [] :: match cs with [] => [[]] | _ => cs end.
Proof.
  destruct cs as [|c cs]; intros Hg; [done|]. cbn [render fmap list_fmap concat app]. cbn [split_on]. rewrite Z.eqb_refl. f_equal.
  revert c Hg. induction cs as [|d cs IH]; intros c [(Hne&Hs&_) Hg]%Forall_cons; cbn [fmap list_fmap concat].
  - rewrite app_nil_r. by rewrite split_on_none.
  - cbn [app]. rewrite split_on_app by done. f_equal. by apply IH.
Qed.

Lemma pushed_good (cs : list str) (c : str) : Forall good cs → SLASH ∉ c → utf8_valid c = true → Forall good (pushed cs c).
Proof.
  intros Hg Hs Hv. unfold pushed. repeat case_bool_decide; cbn [orb]; try done; [by apply Forall_take|].
  apply Forall_app. split; [done|]. by apply Forall_singleton.
Qed.

(** The pieces of a valid path are valid and without slashes. *)
Lemma split_pieces (l : str) : utf8_valid l = true → Forall (λ c, (SLASH ∉ c) ∧ utf8_valid c = true) (split_on SLASH l).
Proof.
  remember (length l) as n eqn:Hn. revert l Hn. induction n as [n IH] using lt_wf_ind. intros l -> Hv.
  destruct (find_byte SLASH l) as [i|] eqn:Hf.
  - apply find_byte_Some in Hf as (a&b&->&_&Ha). apply valid_split in Hv as [Hva Hvb]; [|done]. rewrite split_on_app by done. constructor; [done|].
    apply (IH (length b)); [rewrite length_app; cbn; lia|done|done].
  - assert (Hno : SLASH ∉ l).
    { clear -Hf. induction l as [|x l IH]; cbn in Hf; [apply not_elem_of_nil|]. destruct (Z.eqb_spec x SLASH); [done|].
      destruct (find_byte SLASH l); [done|]. rewrite not_elem_of_cons. split; [congruence|by apply IH]. }
    rewrite split_on_none by done. by constructor.
Qed.

(** *** Buffers *)

(** The first [n] bytes of a buffer of 256 are the path of these components. *)
Record holds (buf : list Z) (n : nat) (cs : list str) : Prop := {
  ho_cap : length buf = CWD_CAP;
  ho_len : n = length (render cs);
  ho_fits : length (render cs) ≤ CWD_CAP;
  ho_take : take n buf = render cs;
  ho_good : Forall good cs;
}.

Lemma holds_str (buf : list Z) (n : nat) (cs : list str) : holds buf n cs →
  (bs ← prefix_exec buf n; Done (utf8_or [SLASH] bs)) = Done (render cs).
Proof.
  intros [Hc Hn Hf Ht Hg]. rewrite prefix_exec_Done by lia. cbn [mbind exec_bind]. rewrite Ht, utf8_or_valid; [done|]. by apply render_valid.
Qed.

Lemma holds_root : holds (SLASH :: replicate (CWD_CAP - 1) 0%Z) 1 [].
Proof.
  split; [|done| |done|constructor]; [cbn [length]; rewrite length_replicate|cbn [render length]]; rewrite cwd_cap; lia.
Qed.

Lemma pop_bytes_spec (buf pre c : list Z) : take (length pre + length c) buf = pre ++ c → length pre + length c ≤ length buf →
  (SLASH ∉ c) → (∃ q, pre = q ++ [SLASH]) → pop_bytes buf (length pre + length c) = Done (length pre).
Proof.
  intros Ht Hl Hs (q&->). revert Ht Hl. induction c as [|x c IH] using rev_ind; intros Ht Hl.
  - rewrite Nat.add_0_r in *. rewrite length_app in *. cbn [length] in *. rewrite Nat.add_1_r in *. cbn [pop_bytes].
    destruct (length q) as [|l] eqn:Hq; [done|]. rewrite <- Hq.
    assert (Hx : buf !! length q = Some SLASH).
    { rewrite <- (lookup_take_lt buf (S (length q))) by lia. rewrite Hq. rewrite Ht, app_nil_r. rewrite <- Hq. by apply list_lookup_middle. }
    rewrite Hx. cbn [get_exec mbind exec_bind]. by rewrite Z.eqb_refl.
  - set (k := length (q ++ [SLASH]) + length c).
    assert (Hn : length (q ++ [SLASH]) + length (c ++ [x]) = S k) by (rewrite (length_app c); cbn [length]; lia). rewrite Hn in *.
    assert (Hk : k = S (k - 1)) by (subst k; rewrite length_app; cbn; lia).
    assert (Hx : buf !! k = Some x).
    { rewrite <- (lookup_take_lt buf (S k)) by lia. rewrite Ht, app_assoc. subst k. rewrite <- length_app. by apply list_lookup_middle. }
    cbn [pop_bytes]. rewrite Hk. rewrite <- Hk. rewrite Hx. cbn [get_exec mbind exec_bind].
    destruct (Z.eqb_spec x SLASH) as [->|_]; [destruct Hs; apply elem_of_app; right; by left|].
    apply IH; [intros Hin; apply Hs, elem_of_app; by left| |lia]. fold k.
    assert (Htk : take k (take (S k) buf) = take k buf) by (rewrite take_take; f_equal; lia).
    rewrite <- Htk, Ht, app_assoc. subst k. rewrite <- length_app. by rewrite take_app_length.
Qed.

Lemma pop_component_spec (p : ShellPath) (cs : list str) : holds (p_buf p) (p_len p) cs →
  ∃ p', pop_component p = Done p' ∧ holds (p_buf p') (p_len p') (take (length cs - 1) cs).
Proof.
  intros [Hc Hn Hf Ht Hg]. unfold pop_component. destruct cs as [|c cs _] using rev_ind.
  - destruct p as [buf n]. cbn in Hc, Hn, Ht. subst n. exists (mk_path buf 1). split; [done|]. by split.
  - rewrite length_app. cbn [length]. rewrite Nat.add_sub, take_app_length.
    apply Forall_app in Hg as [Hg (_&Hs&_)%Forall_singleton]. rewrite render_snoc in Hn, Hf, Ht.
    set (q := match cs with [] => [] | _ => render cs end) in *.
    assert (Hq : length (q ++ [SLASH]) + length c = p_len p) by (rewrite Hn, !length_app; cbn; lia).
    rewrite <- Hq. rewrite (pop_bytes_spec (p_buf p) (q ++ [SLASH]) c); [|by rewrite Hq, Ht, <- app_assoc| |done|by exists q].
    2: { rewrite Hq, Hn, Hc. done. }
    cbn [mbind exec_bind]. eexists. split; [done|]. cbn [p_buf p_len]. rewrite length_app. cbn [length]. rewrite Nat.add_1_r.
    assert (Htq : ∀ k, k ≤ S (length q) → take k (p_buf p) = take k (q ++ [SLASH])).
    { intros k Hk. assert (Hkk : take k (take (p_len p) (p_buf p)) = take k (p_buf p)) by (rewrite take_take; f_equal; rewrite Hn, length_app; cbn; lia).
      rewrite <- Hkk, Ht. change (SLASH :: c) with ([SLASH] ++ c). rewrite app_assoc. rewrite take_app_le; [done|]. rewrite length_app. cbn. lia. }
    destruct cs as [|d cs].
    + change (length q) with 0 in *. split; cbn [render length]; try done; [rewrite cwd_cap; lia|]. by rewrite Htq.
    + change q with (render (d :: cs)) in *. destruct (length_render (d :: cs)) as [_ H2]. specialize (H2 ltac:(done) Hg).
      destruct (Nat.ltb_spec 1 (S (length (render (d :: cs))))); [|lia]. rewrite Nat.sub_succ, Nat.sub_0_r.
      split; [done|done|rewrite length_app in Hf; lia| |done]. rewrite Htq by lia. by rewrite take_app_length.
Qed.

Lemma push_component_spec (p : ShellPath) (cs : list str) (c : str) : holds (p_buf p) (p_len p) cs → (SLASH ∉ c) → utf8_valid c = true →
  (CWD_CAP < length (render (pushed cs c)) ∧ push_component p c = Done (false, p))
  ∨ ∃ p', push_component p c = Done (true, p') ∧ holds (p_buf p') (p_len p') (pushed cs c).
Proof.
  intros Hp Hs Hv. pose proof Hp as [Hc Hn Hf Ht Hg]. pose proof (pushed_good cs c Hg Hs Hv) as Hg'. unfold push_component. unfold pushed in *.
  destruct (bool_decide (c = []) || bool_decide (c = bytes ".")) eqn:E1; [right; by exists p|].
  case_bool_decide as E2; [right; destruct (pop_component_spec p cs Hp) as (p'&->&Hp'); by exists p'|].
  rewrite render_snoc in *. set (extra := if 1 <? p_len p then 1 else 0).
  set (q := match cs with [] => [] | _ => render cs end) in *.
  assert (Hex : p_len p + extra = length q + 1).
  { subst extra q. rewrite Hn. destruct cs as [|d cs]; [done|]. destruct (length_render (d :: cs)) as [_ H2]. specialize (H2 ltac:(done) Hg).
    destruct (Nat.ltb_spec 1 (length (render (d :: cs)))); lia. }
  assert (Hlen : length (q ++ SLASH :: c) = p_len p + extra + length c) by (rewrite length_app; cbn; lia).
  rewrite Hc. destruct (Nat.ltb_spec CWD_CAP (p_len p + extra + length c)) as [Hbig|Hfit]; [left; split; [lia|done]|right].
  assert (Hp1 : ∃ p1, (if extra =? 1 then buf ← put_exec (p_buf p) (p_len p) SLASH; Done (mk_path buf (p_len p + 1)) else Done p) = Done p1
    ∧ length (p_buf p1) = CWD_CAP ∧ p_len p1 = length q + 1 ∧ take (length q + 1) (p_buf p1) = q ++ [SLASH]).
  { subst extra q. destruct cs as [|d cs].
    - cbn in Hn, Ht. rewrite Hn in Ht |- *. exists p. by split_and!.
    - destruct (length_render (d :: cs)) as [_ H2]. specialize (H2 ltac:(done) Hg). rewrite Hn in *.
      destruct (Nat.ltb_spec 1 (length (render (d :: cs)))); [|lia]. rewrite Nat.eqb_refl, put_exec_Done by lia. cbn [mbind exec_bind].
      eexists. split; [done|]. cbn [p_buf p_len]. rewrite length_insert. split_and!; [done|done|].
      rewrite Nat.add_1_r. erewrite take_S_r by (apply list_lookup_insert_eq; lia). by rewrite take_insert_ge, Ht by done. }
  destruct Hp1 as (p1&->&Hl1&Hn1&Ht1). cbn [mbind exec_bind].
  assert (Hfit1 : length q + 1 + length c ≤ length (p_buf p1)) by lia.
  rewrite Hn1. rewrite put_slice_Done by done. cbn [mbind exec_bind]. eexists. split; [done|]. cbn [p_buf p_len].
  split; [by rewrite length_put_slice|rewrite render_snoc; fold q; rewrite length_app; cbn; lia|rewrite render_snoc; fold q; lia| |done].
  rewrite render_snoc. fold q. rewrite take_put_slice by lia. rewrite Ht1. by rewrite <- app_assoc.
Qed.

(** *** Normalisation *)

(** The components after each piece fit the buffer. *)
Fixpoint fits (cs : list str) (pieces : list str) : Prop :=
  match pieces with [] => True | c :: pieces => length (render (pushed cs c)) ≤ CWD_CAP ∧ fits (pushed cs c) pieces end.
#[export] Instance fits_dec (pieces : list str) : ∀ cs, Decision (fits cs pieces).
Proof. induction pieces as [|c pieces IH]; intros cs; cbn [fits]; apply _. Defined.

Lemma push_components_spec (pieces : list str) : Forall (λ c, (SLASH ∉ c) ∧ utf8_valid c = true) pieces → ∀ p cs, holds (p_buf p) (p_len p) cs →
  ∃ r, push_components p pieces = Done r ∧
    match r with
    | Some p' => holds (p_buf p') (p_len p') (fold_left pushed pieces cs) ∧ fits cs pieces
    | None => ¬ fits cs pieces
    end.
Proof.
  induction 1 as [|c pieces [Hs Hv] _ IH]; intros p cs Hp; cbn [push_components fold_left fits]; [by exists (Some p)|].
  destruct (push_component_spec p cs c Hp Hs Hv) as [[Hbig ->]|(p'&->&Hp')]; cbn [mbind exec_bind].
  - exists None. split; [done|]. intros [? _]. lia.
  - destruct (IH p' _ Hp') as (r&->&Hr). exists r. split; [done|]. destruct r as [p1|]; [|by intros [_ ?]].
    destruct Hr as [Hh Hf]. split; [done|]. split; [|done]. apply (ho_fits _ _ _ Hp').
Qed.

Lemma fold_pushed_good (pieces : list str) : Forall (λ c, (SLASH ∉ c) ∧ utf8_valid c = true) pieces → ∀ cs, Forall good cs →
  Forall good (fold_left pushed pieces cs).
Proof. induction 1 as [|c pieces [Hs Hv] _ IH]; intros cs Hg; cbn [fold_left]; [done|]. by apply IH, pushed_good. Qed.

Lemma pushed_nil (cs : list str) : pushed cs [] = cs.
Proof. done. Qed.

Lemma pushed_snoc (cs : list str) (c : str) : good c → pushed cs c = cs ++ [c].
Proof.
  intros (H1&_&H2&H3&_). unfold pushed. rewrite (bool_decide_false (c = [])), (bool_decide_false (c = bytes ".")), bool_decide_false by done. done.
Qed.

Lemma render_mono (cs ds : list str) : length (render cs) ≤ length (render (cs ++ ds)).
Proof.
  destruct cs as [|c cs]; [apply length_render|]. cbn [app render fmap list_fmap concat length]. rewrite !length_app, fmap_app, concat_app, length_app. lia.
Qed.

(** Pushing the components of a path gives the path. *)
Lemma push_good (ds : list str) : Forall good ds → ∀ cs, fold_left pushed ds cs = cs ++ ds ∧ (length (render (cs ++ ds)) ≤ CWD_CAP → fits cs ds).
Proof.
  induction 1 as [|d ds Hd _ IH]; intros cs; cbn [fold_left fits]; [by rewrite app_nil_r|]. rewrite pushed_snoc by done.
  destruct (IH (cs ++ [d])) as [H1 H2]. rewrite H1, <- app_assoc. split; [done|]. intros Hl. rewrite <- app_assoc in H2. split; [|by apply H2].
  pose proof (render_mono (cs ++ [d]) ds) as Hm. rewrite <- app_assoc in Hm. cbn in Hm. lia.
Qed.

Lemma push_render (ds : list str) : Forall good ds → length (render ds) ≤ CWD_CAP → ∀ cs, cs = [] →
  fold_left pushed (split_on SLASH (render ds)) cs = ds ∧ fits cs (split_on SLASH (render ds)).
Proof.
  intros Hg Hl cs ->. rewrite split_render by done. destruct ds as [|d ds].
  - cbn [fold_left fits]. rewrite !pushed_nil. cbn [render length]. rewrite cwd_cap. split; [done|]. split; [lia|]. split; [lia|done].
  - destruct (push_good (d :: ds) Hg []) as [H1 H2]. cbn [fold_left fits]. rewrite pushed_nil. split; [exact H1|].
    split; [cbn [render length]; rewrite cwd_cap; lia|]. by apply H2.
Qed.

(** The state of the shell: the working directory holds its components. *)
Record shell_wf (st : ShellState) (cs : list str) : Prop := {
  sw_cwd : holds (cwd st) (cwd_len st) cs;
  sw_last : length (last_cmd st) = LINE_CAP ∧ last_cmd_len st ≤ LINE_CAP;
}.

Lemma shell_new_wf : shell_wf shell_new [].
Proof. split; [exact holds_root|]. cbn. rewrite line_cap. split; [apply length_replicate|lia]. Qed.

Lemma cwd_str_spec (st : ShellState) (cs : list str) : shell_wf st cs → cwd_str st = Done (render cs).
Proof. intros Hw. apply holds_str, Hw. Qed.

(** Where a path starts: at the root, or in the working directory. *)
Definition base (cs : list str) (path : str) : list str := if starts_with path [SLASH] then [] else cs.

Lemma render_slash (cs : list str) : starts_with (render cs) [SLASH] = true.
Proof. by destruct cs. Qed.

Lemma normalize_path_spec (st : ShellState) (cs : list str) (path : str) : shell_wf st cs → utf8_valid path = true →
  ∃ r, normalize_path st path = Done r ∧
    match r with
    | Some p => holds (p_buf p) (p_len p) (fold_left pushed (split_on SLASH path) (base cs path)) ∧ fits (base cs path) (split_on SLASH path)
    | None => ¬ fits (base cs path) (split_on SLASH path)
    end.
Proof.
  intros Hw Hv. pose proof (cwd_str_spec st cs Hw) as Hcwd. pose proof (sw_cwd _ _ Hw) as Hh. unfold normalize_path. rewrite Hcwd.
  destruct (push_render cs (ho_good _ _ _ Hh) (ho_fits _ _ _ Hh) [] eq_refl) as [Hpr Hfr].
  assert (Hcw : ∃ p, push_components path_root (split_on SLASH (render cs)) = Done (Some p) ∧ holds (p_buf p) (p_len p) cs).
  { destruct (push_components_spec (split_on SLASH (render cs)) (split_pieces _ (render_valid cs (ho_good _ _ _ Hh))) path_root [] holds_root) as (r&Hr&Hspec).
    destruct r as [p|]; [|done]. exists p. split; [done|]. destruct Hspec as [Hp _]. by rewrite Hpr in Hp. }
  destruct Hcw as (pc&Hpc&Hhc).
  case_bool_decide as He.
  - subst path. cbn [mbind exec_bind]. rewrite render_slash. cbn [negb mbind exec_bind]. rewrite Hpc. eexists. split; [done|].
    cbn [split_on fold_left fits base starts_with]. unfold base. cbn [starts_with]. rewrite !pushed_nil. split; [done|]. split; [apply Hh|done].
  - cbn [mbind exec_bind]. unfold base. destruct (starts_with path [SLASH]); cbn [negb mbind exec_bind].
    + apply push_components_spec; [by apply split_pieces|exact holds_root].
    + rewrite Hpc. cbn [mbind exec_bind]. apply push_components_spec; [by apply split_pieces|done].
Qed.

Lemma as_str_spec (p : ShellPath) (cs : list str) : holds (p_buf p) (p_len p) cs → as_str p = Done (render cs).
Proof. apply holds_str. Qed.

(** *** Splitting off the last name *)

Lemma take_valid (l : str) (c : Z) (i : nat) : (0 <= c < 0x80)%Z → l !! i = Some c → utf8_valid l = true →
  utf8_valid (take i l) = true ∧ utf8_valid (drop (S i) l) = true.
Proof. intros Hc Hi Hv. rewrite <- (take_drop_middle l i c Hi) in Hv. by apply valid_split in Hv. Qed.

Lemma rfind_lookup (l : str) (i : nat) : rfind SLASH l = Some i → l !! i = Some SLASH ∧ (SLASH ∉ drop (S i) l).
Proof.
  intros (a&b&->&<-&Hb)%rfind_Some. split; [by apply list_lookup_middle|].
  destruct (split_at SLASH a b) as [_ ->]. done.
Qed.

(** The directory part of an operand and its last name. *)
Definition parent_arg (path : str) : str := match rfind SLASH path with Some 0 => [SLASH] | Some pos => take pos path | None => [] end.
Definition last_name (path : str) : str := match rfind SLASH path with Some pos => drop (S pos) path | None => path end.

Lemma split_on_slash (a b : str) : split_on SLASH (a ++ SLASH :: b) = split_on SLASH a ++ split_on SLASH b.
Proof.
  induction a as [|x a IH]; cbn [app split_on]; [by rewrite Z.eqb_refl|]. destruct (Z.eqb_spec x SLASH); [by rewrite IH|].
  rewrite IH. destruct (split_on_cons SLASH a) as (h&t&->). done.
Qed.

Lemma fits_app (l k : list str) : ∀ cs, fits cs (l ++ k) ↔ fits cs l ∧ fits (fold_left pushed l cs) k.
Proof. induction l as [|c l IH]; intros cs; cbn [app fits fold_left]; [tauto|]. rewrite IH. tauto. Qed.

Lemma parent_valid (path : str) : utf8_valid path = true → utf8_valid (parent_arg path) = true ∧ utf8_valid (last_name path) = true ∧ (SLASH ∉ last_name path).
Proof.
  intros Hv. unfold parent_arg, last_name. destruct (rfind SLASH path) as [i|] eqn:Hr; [|split_and!; [done|done|by apply rfind_None]].
  destruct (rfind_lookup path i Hr) as [Hi Hno]. destruct (take_valid path SLASH i ltac:(unfold SLASH; lia) Hi Hv) as [Ht Hd]. by destruct i.
Qed.

(** The path is its directory part with the last name pushed. *)
Lemma path_last (cs : list str) (path : str) :
  fold_left pushed (split_on SLASH path) (base cs path)
    = pushed (fold_left pushed (split_on SLASH (parent_arg path)) (base cs (parent_arg path))) (last_name path)
  ∧ (length (render cs) ≤ CWD_CAP → fits (base cs path) (split_on SLASH path) ↔ fits (base cs (parent_arg path)) (split_on SLASH (parent_arg path))
      ∧ length (render (pushed (fold_left pushed (split_on SLASH (parent_arg path)) (base cs (parent_arg path))) (last_name path))) ≤ CWD_CAP).
Proof.
  unfold parent_arg, last_name. destruct (rfind SLASH path) as [i|] eqn:Hr.
  - pose proof Hr as (a&b&->&<-&Hb)%rfind_Some. destruct (split_at SLASH a b) as [Ht Hd]. rewrite Hd, split_on_slash, (split_on_none SLASH b Hb).
    destruct a as [|x a].
    + cbn [length app split_on base starts_with fold_left fits]. unfold base, starts_with. rewrite Z.eqb_refl. cbn [andb fold_left].
      rewrite !pushed_nil. split; [done|]. intros _. cbn [fits fold_left]. rewrite !pushed_nil. cbn [render length]. rewrite cwd_cap. tauto.
    + change (match length (x :: a) with 0 => [SLASH] | S _ => take (length (x :: a)) ((x :: a) ++ SLASH :: b) end)
        with (take (length (x :: a)) ((x :: a) ++ SLASH :: b)). rewrite Ht.
      assert (Hbase : base cs ((x :: a) ++ SLASH :: b) = base cs (x :: a)) by (unfold base; cbn; by destruct (x =? SLASH)%Z).
      rewrite Hbase, fold_left_app, fits_app. cbn [fold_left fits]. split; [done|]. tauto.
  - apply rfind_None in Hr. rewrite (split_on_none SLASH path Hr).
    assert (Hbase : base cs path = cs).
    { unfold base. destruct path as [|x path]; [done|]. cbn. destruct (Z.eqb_spec x SLASH) as [->|]; [destruct Hr; by left|]. done. }
    rewrite Hbase. unfold base. cbn [starts_with split_on fold_left fits]. rewrite pushed_nil. tauto.
Qed.

Lemma split_parent_child_spec (st : ShellState) (cs : list str) (path : str) : shell_wf st cs → utf8_valid path = true →
  ∃ r, split_parent_child st path = Done r ∧
    match r with
    | Some (p, child) => child = last_name path ∧ child ≠ []
        ∧ holds (p_buf p) (p_len p) (fold_left pushed (split_on SLASH (parent_arg path)) (base cs (parent_arg path)))
        ∧ fits (base cs (parent_arg path)) (split_on SLASH (parent_arg path))
    | None => last_name path = [] ∨ ¬ fits (base cs (parent_arg path)) (split_on SLASH (parent_arg path))
    end.
Proof.
  intros Hw Hv. destruct (parent_valid path Hv) as (Hvp&_&Hno). unfold split_parent_child.
  assert (Hpair : (match rfind SLASH path with Some 0 => ([SLASH], drop 1 path) | Some pos => (take pos path, drop (pos + 1) path) | None => ([], path) end)
    = (parent_arg path, last_name path)).
  { unfold parent_arg, last_name. destruct (rfind SLASH path) as [[|i]|]; [done| |done]. by rewrite Nat.add_1_r. }
  rewrite Hpair. rewrite (bool_decide_false (SLASH ∈ last_name path)) by done. rewrite orb_false_r.
  case_bool_decide as He; [exists None; split; [done|by left]|].
  destruct (normalize_path_spec st cs (parent_arg path) Hw Hvp) as (r&->&Hr). cbn [mbind exec_bind].
  destruct r as [p|]; (eexists; split; [done|]); [done|by right].
Qed.
