(* ===== verification/ShellEdit.v ===== *)
(** * The input line of the shell: refinement

    The abstract line is the text before and after the cursor with the state of
    the escape parser; the buffer of 128 bytes with its two indices refines it
    for every byte. *)

From S2P Require Export Prelude.
From S2P Require Export Str.
From S2P Require Export Text.
From S2P Require Export Shell.

Record Line : Type := mk_line { l_before : str; l_after : str; l_esc : EscState }.
Definition line_empty : Line := mk_line [] [] Normal.
Definition line_text (l : Line) : str := l_before l ++ l_after l.

(** The last character before the cursor, taken away. *)
Definition shrink (s : str) : str := take (length s - 1) s.

(** What the keys mean. *)
Definition line_bracket (last : str) (l : Line) (c : Z) : KeyEffect * Line :=
  let b := l_before l in let a := l_after l in
  if (c =? 65)%Z then (if (0 <? length last) && (length last <? LINE_CAP) then (Redraw, mk_line last [] Normal) else (NoEffect, mk_line b a Normal))
  else if (c =? 67)%Z then match a with x :: a => (Redraw, mk_line (b ++ [x]) a Normal) | [] => (NoEffect, mk_line b a Normal) end
  else if (c =? 68)%Z then (if bool_decide (b = []) then (NoEffect, mk_line b a Normal) else (Redraw, mk_line (shrink b) (drop (length b - 1) b ++ a) Normal))
  else if (c =? 72)%Z then (Redraw, mk_line [] (b ++ a) Normal)
  else if (c =? 70)%Z then (Redraw, mk_line (b ++ a) [] Normal)
  else if (c =? 51)%Z then (NoEffect, mk_line b a Saw3)
  else (NoEffect, mk_line b a Normal).

Definition line_key (last : str) (l : Line) (c : Z) : KeyEffect * Line :=
  let b := l_before l in let a := l_after l in
  match l_esc l with
  | SawBracket => line_bracket last l c
  | Saw3 => match a with x :: a' => if (c =? 126)%Z then (Redraw, mk_line b a' Normal) else (NoEffect, mk_line b a Normal) | [] => (NoEffect, mk_line b a Normal) end
  | SawEsc => (NoEffect, mk_line b a (if (c =? 91)%Z then SawBracket else Normal))
  | Normal =>
      if (c =? 27)%Z then (NoEffect, mk_line b a SawEsc) else
      if (c =? 13)%Z || (c =? 10)%Z then (Enter, l) else
      if (c =? 8)%Z || (c =? 127)%Z then (if bool_decide (b = []) then (NoEffect, l) else (Redraw, mk_line (shrink b) a Normal)) else
      if (c =? 9)%Z then (Complete, l) else
      if (0x20 <=? c)%Z && (c <? 0x7f)%Z then
        (if length (line_text l) <? LINE_CAP then (Redraw, mk_line (b ++ [c]) a Normal) else (NoEffect, l))
      else (NoEffect, l)
  end.

(** The editor shows the line. *)
Record ed_is (ed : Editor) (l : Line) : Prop := {
  ei_buf : ∃ rest, input_buf ed = l_before l ++ l_after l ++ rest ∧ length (l_before l) + length (l_after l) + length rest = LINE_CAP;
  ei_pos : cursor_pos ed = length (l_before l);
  ei_end : cursor_end ed = length (l_before l) + length (l_after l);
  ei_esc : esc_state ed = l_esc l;
}.

Lemma ed_is_cap (ed : Editor) (l : Line) : ed_is ed l → length (input_buf ed) = LINE_CAP ∧ length (line_text l) ≤ LINE_CAP ∧ cursor_end ed = length (line_text l).
Proof. intros [(rest&Hb&Hl) _ He _]. unfold line_text. rewrite Hb, He, !length_app. lia. Qed.

Lemma ed_is_take (ed : Editor) (l : Line) : ed_is ed l → take (cursor_end ed) (input_buf ed) = line_text l.
Proof. intros [(rest&Hb&Hl) _ He _]. rewrite Hb, He, app_assoc, <- length_app. apply take_app_length. Qed.

(** The four facts of [ed_is]; the buffer is left. *)
Ltac ed_split :=
  split; cbn [set_pos set_esc l_before l_after l_esc input_buf cursor_pos cursor_end esc_state]; rewrite ?length_app; cbn [length]; try done; try lia.

(** ** Moving bytes *)

Lemma edit_shift_left_spec (mid post : list Z) : ∀ pre x, ∃ y,
  shift_left (pre ++ x :: mid ++ post) (length pre) (length mid) = Done (pre ++ mid ++ y :: post).
Proof.
  induction mid as [|m mid IH]; intros pre x; cbn [app length shift_left]; [by exists x|].
  assert (H1 : (pre ++ x :: m :: mid ++ post) !! S (length pre) = Some m).
  { rewrite lookup_app_r by lia. by replace (S (length pre) - length pre) with 1 by lia. }
  rewrite H1. cbn [get_exec mbind exec_bind]. rewrite put_exec_Done by (rewrite length_app; cbn; lia). cbn [mbind exec_bind].
  rewrite insert_app_r_alt, Nat.sub_diag by lia. cbn [insert list_insert]. destruct (IH (pre ++ [m]) m) as [y Hy]. exists y.
  rewrite length_app in Hy. cbn [length] in Hy. rewrite Nat.add_1_r, <- !app_assoc in Hy. exact Hy.
Qed.

Lemma edit_shift_right_spec (pre mid : list Z) : ∀ x post, ∃ y,
  shift_right (pre ++ mid ++ x :: post) (length pre) (length mid) = Done (pre ++ (y :: mid) ++ post).
Proof.
  induction mid as [|m mid IH] using rev_ind; intros x post; [by exists x|]. rewrite length_app. cbn [length]. rewrite Nat.add_1_r. cbn [shift_right].
  rewrite <- app_assoc. cbn [app].
  assert (H1 : (pre ++ mid ++ m :: x :: post) !! (length pre + length mid) = Some m).
  { rewrite app_assoc, <- length_app. by apply list_lookup_middle. }
  rewrite H1. cbn [get_exec mbind exec_bind]. rewrite put_exec_Done by (rewrite !length_app; cbn; lia). cbn [mbind exec_bind].
  assert (H2 : <[S (length pre + length mid) := m]> (pre ++ mid ++ m :: x :: post) = pre ++ mid ++ m :: m :: post).
  { rewrite !app_assoc. rewrite insert_app_r_alt by (rewrite length_app; lia). rewrite length_app.
    by replace (S (length pre + length mid) - (length pre + length mid)) with 1 by lia. }
  rewrite H2. destruct (IH m (m :: post)) as [y Hy]. exists y. rewrite Hy. by rewrite <- app_assoc.
Qed.

(** ** One key *)

Definition last_str (st : ShellState) : str := take (last_cmd_len st) (last_cmd st).

Lemma length_last (st : ShellState) (cs : list str) : shell_wf st cs → length (last_str st) = last_cmd_len st.
Proof. intros [_ [Hl Hn]]. unfold last_str. rewrite length_take. lia. Qed.

Lemma ed_is_esc (ed : Editor) (l : Line) (e : EscState) : ed_is ed l → ed_is (set_esc ed e) (mk_line (l_before l) (l_after l) e).
Proof. intros [Hb Hp He Hs]. by split. Qed.

(** The result of an editing step, next to that of the abstract line. *)
Definition refines (m : exec (KeyEffect * Editor)) (r : KeyEffect * Line) : Prop := ∃ ed, m = Done (r.1, ed) ∧ ed_is ed r.2.

Lemma refines_done (eff : KeyEffect) (ed : Editor) (l : Line) : ed_is ed l → refines (Done (eff, ed)) (eff, l).
Proof. intros H. by exists ed. Qed.

Lemma bracket_key_spec (st : ShellState) (cs : list str) (ed : Editor) (l : Line) (c : Z) : shell_wf st cs → ed_is ed l →
  refines (bracket_key st ed c) (line_bracket (last_str st) l c).
Proof.
  intros Hw Hed. pose proof (ed_is_cap ed l Hed) as (Hcap&_&_). pose proof (length_last st cs Hw) as Hll. destruct (sw_last _ _ Hw) as [Hlc Hln].
  unfold bracket_key, line_bracket. destruct ed as [buf pos cend esc], l as [b a e]. cbn [input_buf] in Hcap.
  destruct Hed as [(rest&Hb&Hl) Hp He Hs]. cbn [l_before l_after l_esc input_buf cursor_pos cursor_end esc_state set_esc set_pos] in *. subst pos cend e.
  destruct (Z.eqb_spec c 65).
  { rewrite Hcap, Hll. destruct ((0 <? last_cmd_len st) && (last_cmd_len st <? LINE_CAP)) eqn:E; [|apply refines_done; ed_split; by exists rest].
    apply andb_true_iff in E as [_ E%Nat.ltb_lt]. rewrite prefix_exec_Done by lia. cbn [mbind exec_bind]. fold (last_str st).
    rewrite put_slice_Done by lia. cbn [mbind exec_bind]. apply refines_done. ed_split.
    exists (drop (length (last_str st)) buf). split; [done|]. rewrite length_drop. cbn [length]; lia. }
  destruct (Z.eqb_spec c 67).
  { destruct a as [|x a]; cbn [length] in *.
    - rewrite Nat.add_0_r. rewrite (proj2 (Nat.ltb_ge _ _)) by lia. apply refines_done. ed_split. by exists rest.
    - rewrite (proj2 (Nat.ltb_lt _ _)) by lia. apply refines_done. ed_split.
      exists rest. rewrite <- app_assoc. split; [done|]. rewrite ?length_app; cbn [length]; lia. }
  destruct (Z.eqb_spec c 68).
  { case_bool_decide as Hnil.
    - subst b. cbn [length]. apply refines_done. ed_split. by exists rest.
    - assert (0 < length b) by (destruct b; [done|cbn; lia]). rewrite (proj2 (Nat.ltb_lt _ _)) by done. apply refines_done.
      assert (Hsh : length (shrink b) = length b - 1) by (unfold shrink; rewrite length_take; lia).
      ed_split; rewrite ?length_drop, ?Hsh; try lia.
      exists rest. unfold shrink. split; [by rewrite <- app_assoc, (app_assoc (take _ b)), take_drop|]. rewrite ?length_app, ?length_take, ?length_drop. lia. }
  destruct (Z.eqb_spec c 72).
  { apply refines_done. ed_split.
    exists rest. split; [by rewrite <- app_assoc|]. cbn [length]. rewrite ?length_app. lia. }
  destruct (Z.eqb_spec c 70).
  { apply refines_done. ed_split.
    exists rest. split; [by rewrite <- app_assoc|]. rewrite ?length_app; cbn [length]; lia. }
  destruct (Z.eqb_spec c 51); apply refines_done; ed_split; by exists rest.
Qed.

Lemma delete_key_spec (ed : Editor) (l : Line) (c : Z) : ed_is ed l → l_esc l = Saw3 → refines (delete_key ed c)
  (match l_after l with x :: a' => if (c =? 126)%Z then (Redraw, mk_line (l_before l) a' Normal) else (NoEffect, mk_line (l_before l) (l_after l) Normal)
   | [] => (NoEffect, mk_line (l_before l) (l_after l) Normal) end).
Proof.
  intros Hed _. unfold delete_key. destruct ed as [buf pos cend esc], l as [b a e]. destruct Hed as [(rest&Hb&Hl) Hp He Hs].
  cbn [l_before l_after l_esc input_buf cursor_pos cursor_end esc_state set_esc] in *. subst pos cend e buf.
  destruct a as [|x a]; cbn [length] in *.
  - rewrite Nat.add_0_r. rewrite (proj2 (Nat.ltb_ge _ _)), andb_false_r by lia. apply refines_done. ed_split. by exists rest.
  - rewrite (proj2 (Nat.ltb_lt _ _)), andb_true_r by lia. destruct (Z.eqb_spec c 126); [|apply refines_done; ed_split; by exists rest].
    destruct (edit_shift_left_spec a rest b x) as [y Hy]. replace (length b + S (length a) - 1 - length b) with (length a) by lia.
    cbn [app]. rewrite Hy. cbn [mbind exec_bind]. apply refines_done.
    ed_split. exists (y :: rest). split; [done|]. cbn [length]. lia.
Qed.

Lemma backspace_spec (ed : Editor) (l : Line) : ed_is ed l → l_esc l = Normal →
  refines (backspace ed) (if bool_decide (l_before l = []) then (NoEffect, l) else (Redraw, mk_line (shrink (l_before l)) (l_after l) Normal)).
Proof.
  intros Hed Hn. unfold backspace. case_bool_decide as Hnil.
  { rewrite (ei_pos _ _ Hed), Hnil. cbn [length]. by apply refines_done. }
  destruct ed as [buf pos cend esc], l as [b a e]. destruct Hed as [(rest&Hb&Hl) Hp He Hs].
  cbn [l_before l_after l_esc input_buf cursor_pos cursor_end esc_state] in *. subst pos cend e buf. rewrite Hn in *.
  destruct b as [|x b _] using rev_ind; [done|]. unfold shrink. rewrite length_app in *. cbn [length] in *. rewrite Nat.add_sub, take_app_length.
  rewrite (proj2 (Nat.ltb_lt _ _)) by lia. replace (length b + 1 + length a - (length b + 1)) with (length a) by lia.
  rewrite <- app_assoc. cbn [app]. destruct (edit_shift_left_spec a rest b x) as [y Hy]. rewrite Hy. cbn [mbind exec_bind]. apply refines_done.
  ed_split. exists (y :: rest). split; [done|]. cbn [length]. lia.
Qed.

Lemma insert_key_spec (ed : Editor) (l : Line) (c : Z) : ed_is ed l → l_esc l = Normal →
  refines (insert_key ed c) (if length (line_text l) <? LINE_CAP then (Redraw, mk_line (l_before l ++ [c]) (l_after l) Normal) else (NoEffect, l)).
Proof.
  intros Hed Hn. pose proof (ed_is_cap ed l Hed) as (Hcap&Hle&Hend). unfold insert_key. rewrite Hcap, Hend.
  destruct (Nat.ltb_spec (length (line_text l)) LINE_CAP) as [Hlt|]; [|by apply refines_done]. rewrite <- Hend.
  destruct ed as [buf pos cend esc], l as [b a e]. destruct Hed as [(rest&Hb&Hl) Hp He Hs]. unfold line_text in *.
  cbn [l_before l_after l_esc input_buf cursor_pos cursor_end esc_state] in *. subst pos cend e buf. rewrite Hn in *. rewrite length_app in Hlt.
  destruct rest as [|x rest]; cbn [length] in Hl; [lia|]. replace (length b + length a - length b) with (length a) by lia.
  destruct (edit_shift_right_spec b a x rest) as [y Hy]. rewrite Hy. cbn [mbind exec_bind].
  rewrite put_exec_Done by (rewrite !length_app; cbn; lia). cbn [mbind exec_bind]. rewrite insert_app_r_alt, Nat.sub_diag by lia. cbn [app insert list_insert].
  apply refines_done. ed_split.
  exists rest. split; [by rewrite <- app_assoc|]. rewrite ?length_app. cbn [length]. lia.
Qed.

Lemma edit_key_spec (st : ShellState) (cs : list str) (ed : Editor) (l : Line) (c : Z) : shell_wf st cs → ed_is ed l →
  refines (edit_key st ed c) (line_key (last_str st) l c).
Proof.
  intros Hw Hed. unfold edit_key, line_key. rewrite (ei_esc _ _ Hed). destruct (l_esc l) eqn:Hs.
  - destruct (c =? 27)%Z; [by apply refines_done, ed_is_esc|]. destruct (_ || _); [by apply refines_done|].
    destruct (_ || _); [by apply backspace_spec|]. destruct (c =? 9)%Z; [by apply refines_done|].
    destruct (_ && _); [by apply insert_key_spec|by apply refines_done].
  - by apply refines_done, ed_is_esc.
  - by eapply bracket_key_spec.
  - by apply delete_key_spec.
Qed.

(** ** Entering the line *)

Lemma take_line_spec (ed : Editor) (l : Line) : ed_is ed l →
  take_line ed = if length (line_text l) <? LINE_CAP
    then Done (utf8_or [] (line_text l), mk_editor (<[length (line_text l) := 0%Z]> (input_buf ed)) (cursor_pos ed) (cursor_end ed) (esc_state ed))
    else Stuck.
Proof.
  intros Hed. pose proof (ed_is_cap ed l Hed) as (Hcap&Hle&Hend). unfold take_line, put_exec. rewrite Hcap, Hend.
  destruct (Nat.ltb_spec (length (line_text l)) LINE_CAP) as [Hlt|]; [|done]. cbn [mbind exec_bind].
  rewrite prefix_exec_Done by (rewrite length_insert; lia). cbn [mbind exec_bind]. rewrite take_insert_ge by done. by rewrite <- Hend, (ed_is_take ed l Hed).
Qed.

Lemma ed_is_cleared (buf : list Z) (esc : EscState) : length buf = LINE_CAP → ed_is (mk_editor buf 0 0 esc) (mk_line [] [] esc).
Proof. intros Hl. split; try done. by exists buf. Qed.

Lemma editor_new_is : ed_is editor_new line_empty.
Proof. apply ed_is_cleared, length_replicate. Qed.
