(* ===== verification/Rx.v ===== *)
(** * The receive buffer of the console, [kernel/src/driver/char.rs]

    A ring of 128 bytes between one producer, the interrupt handler of the
    serial port, and one consumer.  [push] and [pop] are the functions run
    without interruption; the two programs of atomic actions below them are
    what runs when the producer and the consumer interleave.  The release and
    acquire accesses of the two indices order the data accesses, so that an
    interleaving of the actions is what another core can see too. *)

From S2P Require Export Prelude.
From S2P Require Export Str.
From S2P Require Export Critical.

Definition BUF_SIZE : nat := 128.

Record RxBuffer : Type := mk_rx { rx_data : list Z; rx_head : nat; rx_tail : nat }.
Definition rx_new : RxBuffer := mk_rx (replicate BUF_SIZE 0%Z) 0 0.

Definition rx_push (b : RxBuffer) (val : Z) : exec (bool * RxBuffer) :=
  let head := rx_head b in
  let next_head := (head + 1) `mod` BUF_SIZE in
  if next_head =? rx_tail b then Done (false, b) else
  data ← put_exec (rx_data b) head val;
  Done (true, mk_rx data next_head (rx_tail b)).

Definition rx_pop (b : RxBuffer) : exec (option Z * RxBuffer) :=
  let tail := rx_tail b in
  if tail =? rx_head b then Done (None, b) else
  val ← get_exec (rx_data b !! tail);
  Done (Some val, mk_rx (rx_data b) (rx_head b) ((tail + 1) `mod` BUF_SIZE)).

(** ** The console *)

(** [pop_from_rx_buf]: the poll function runs with interrupts masked.  It works
    on the ring and on [x], the devices it reads. *)
Definition pop_from_rx_buf `{!SmpConfig} {X : Type} (poll_fn : option (RxBuffer → X → exec (option Z * RxBuffer * X)))
    (b : RxBuffer) (x : X) (m : machine) : exec (option Z * RxBuffer * X * machine) :=
  '(byte, b) ← rx_pop b;
  match byte with
  | Some byte => Done (Some byte, b, x, m)
  | None =>
      match poll_fn with
      | None => Done (None, b, x, m)
      | Some poll =>
          let m := disable_irq m in
          '(byte, b, x) ← poll b x;
          let m := enable_irq m in
          match byte with
          | Some byte => Done (Some byte, b, x, m)
          | None => '(byte, b) ← rx_pop b; Done (byte, b, x, m)
          end
      end
  end.

(** The poll functions of the platforms read the serial port and leave the ring. *)
Definition port_poll {X : Type} (getc : X → exec (option Z * X)) (b : RxBuffer) (x : X) : exec (option Z * RxBuffer * X) :=
  '(byte, x) ← getc x; Done (byte, b, x).

(** ** Interleaving *)

(** Where [push] stands: between the reads of the two indices, before the write
    of the byte, before the store of the head. *)
Inductive producer : Type :=
  | PIdle
  | PHead (val : Z) (head : nat)
  | PRoom (val : Z) (head : nat)
  | PWritten (val : Z) (head : nat).

Inductive consumer : Type :=
  | CIdle
  | CTail (tail : nat)
  | CSome (tail : nat)
  | CRead (tail : nat) (val : Z).

(** The buffer, the two programs, and what they returned so far: the bytes
    accepted, the bytes given out, and the number of bytes refused. *)
Record rx_sys : Type := mk_sys {
  ring : RxBuffer;
  prod : producer;
  cons : consumer;
  accepted : list Z;
  given : list Z;
  refused : nat;
}.
Definition rx_boot : rx_sys := mk_sys rx_new PIdle CIdle [] [] 0.

(** The next action of the producer; [val] is the byte of a new call. *)
Definition producer_step (val : Z) (s : rx_sys) : exec rx_sys :=
  let b := ring s in
  match prod s with
  | PIdle => Done (mk_sys b (PHead val (rx_head b)) (cons s) (accepted s) (given s) (refused s))
  | PHead v head =>
      if (head + 1) `mod` BUF_SIZE =? rx_tail b then Done (mk_sys b PIdle (cons s) (accepted s) (given s) (S (refused s)))
      else Done (mk_sys b (PRoom v head) (cons s) (accepted s) (given s) (refused s))
  | PRoom v head =>
      data ← put_exec (rx_data b) head v;
      Done (mk_sys (mk_rx data (rx_head b) (rx_tail b)) (PWritten v head) (cons s) (accepted s) (given s) (refused s))
  | PWritten v head =>
      Done (mk_sys (mk_rx (rx_data b) ((head + 1) `mod` BUF_SIZE) (rx_tail b)) PIdle (cons s) (accepted s ++ [v]) (given s) (refused s))
  end.

Definition consumer_step (s : rx_sys) : exec rx_sys :=
  let b := ring s in
  match cons s with
  | CIdle => Done (mk_sys b (prod s) (CTail (rx_tail b)) (accepted s) (given s) (refused s))
  | CTail tail =>
      if tail =? rx_head b then Done (mk_sys b (prod s) CIdle (accepted s) (given s) (refused s))
      else Done (mk_sys b (prod s) (CSome tail) (accepted s) (given s) (refused s))
  | CSome tail =>
      val ← get_exec (rx_data b !! tail);
      Done (mk_sys b (prod s) (CRead tail val) (accepted s) (given s) (refused s))
  | CRead tail val =>
      Done (mk_sys (mk_rx (rx_data b) (rx_head b) ((tail + 1) `mod` BUF_SIZE)) (prod s) CIdle (accepted s) (given s ++ [val]) (refused s))
  end.

(** A schedule says which of the two moves next. *)
Inductive turn : Type := Produce (val : Z) | Consume.
Definition take_turn (s : rx_sys) (t : turn) : exec rx_sys := match t with Produce val => producer_step val s | Consume => consumer_step s end.
Fixpoint run_turns (s : rx_sys) (ts : list turn) : exec rx_sys := match ts with [] => Done s | t :: ts => s ← take_turn s t; run_turns s ts end.

(** ** The queue in the ring *)

Definition rx_count (b : RxBuffer) : nat := (rx_head b + BUF_SIZE - rx_tail b) `mod` BUF_SIZE.
Definition rx_bytes (b : RxBuffer) : list Z := (λ i, nth ((rx_tail b + i) `mod` BUF_SIZE) (rx_data b) 0%Z) <$> seq 0 (rx_count b).

Record ring_wf (b : RxBuffer) : Prop := {
  rg_data : length (rx_data b) = BUF_SIZE;
  rg_head : rx_head b < BUF_SIZE;
  rg_tail : rx_tail b < BUF_SIZE;
}.

Lemma count_head (b : RxBuffer) : ring_wf b → (rx_tail b + rx_count b) `mod` BUF_SIZE = rx_head b ∧ rx_count b < BUF_SIZE.
Proof.
  intros [_ Hh Ht]. unfold rx_count, BUF_SIZE in *. split; [|by apply Nat.mod_upper_bound].
  rewrite Nat.Div0.add_mod_idemp_r. replace (rx_tail b + (rx_head b + 128 - rx_tail b)) with (rx_head b + 1 * 128) by lia.
  rewrite Nat.Div0.mod_add. by apply Nat.mod_small.
Qed.

Lemma count_unique (b : RxBuffer) (n : nat) : ring_wf b → n < BUF_SIZE → (rx_tail b + n) `mod` BUF_SIZE = rx_head b → rx_count b = n.
Proof.
  intros [_ Hh Ht] Hn Heq. unfold rx_count, BUF_SIZE in *. rewrite <- Heq. destruct (Nat.lt_ge_cases (rx_tail b + n) 128).
  - rewrite (Nat.mod_small (rx_tail b + n)) by done. replace (rx_tail b + n + 128 - rx_tail b) with (n + 1 * 128) by lia.
    rewrite Nat.Div0.mod_add. by apply Nat.mod_small.
  - assert (Hm : (rx_tail b + n) `mod` 128 = rx_tail b + n - 128) by (symmetry; apply (Nat.mod_unique _ _ 1); lia).
    rewrite Hm. replace (rx_tail b + n - 128 + 128 - rx_tail b) with n by lia. by apply Nat.mod_small.
Qed.

Lemma ring_distinct (t i j : nat) : i < BUF_SIZE → j < BUF_SIZE → (t + i) `mod` BUF_SIZE = (t + j) `mod` BUF_SIZE → i = j.
Proof.
  unfold BUF_SIZE. intros Hi Hj Heq. pose proof (Nat.div_mod_eq (t + i) 128). pose proof (Nat.div_mod_eq (t + j) 128).
  pose proof (Nat.mod_upper_bound (t + i) 128). lia.
Qed.

(** Writing at the head does not touch the queue; storing the next head adds
    the byte there. *)
Lemma bytes_write (b : RxBuffer) (v : Z) : ring_wf b → rx_bytes (mk_rx (<[rx_head b := v]> (rx_data b)) (rx_head b) (rx_tail b)) = rx_bytes b.
Proof.
  intros Hwf. destruct (count_head b Hwf) as [Hh Hc]. unfold rx_bytes. cbn [rx_tail rx_data]. change (rx_count (mk_rx _ (rx_head b) (rx_tail b))) with (rx_count b).
  apply list_fmap_ext. intros k i Hi. apply lookup_seq in Hi as [-> Hi]. cbn [Nat.add]. rewrite !nth_lookup, list_lookup_insert_ne; [done|].
  intros Heq. rewrite <- Hh in Heq. pose proof (ring_distinct (rx_tail b) (rx_count b) k Hc (Nat.lt_trans _ _ _ Hi Hc) Heq). lia.
Qed.

Lemma bytes_push (b : RxBuffer) (v : Z) : ring_wf b → rx_data b !! rx_head b = Some v → (rx_head b + 1) `mod` BUF_SIZE ≠ rx_tail b →
  let b' := mk_rx (rx_data b) ((rx_head b + 1) `mod` BUF_SIZE) (rx_tail b) in ring_wf b' ∧ rx_bytes b' = rx_bytes b ++ [v] ∧ rx_count b' = S (rx_count b).
Proof.
  intros Hwf Hv Hne b'. destruct (count_head b Hwf) as [Hh Hc].
  assert (Hwf' : ring_wf b') by (destruct Hwf; split; [done|by apply Nat.mod_upper_bound|done]).
  assert (Hlt : S (rx_count b) < BUF_SIZE).
  { destruct (decide (S (rx_count b) = BUF_SIZE)) as [Hf|]; [|lia]. destruct Hne. rewrite <- Hh, Nat.Div0.add_mod_idemp_l.
    replace (rx_tail b + rx_count b + 1) with (rx_tail b + 1 * BUF_SIZE) by lia. rewrite Nat.Div0.mod_add. apply Nat.mod_small, Hwf. }
  assert (Hcount : rx_count b' = S (rx_count b)).
  { apply count_unique; [done|done|]. unfold b'. cbn [rx_tail rx_head]. rewrite <- Hh, Nat.Div0.add_mod_idemp_l. f_equal. lia. }
  split; [done|]. split; [|done]. unfold rx_bytes. rewrite Hcount, seq_S, fmap_app. f_equal. cbn [fmap list_fmap Nat.add]. f_equal.
  change (rx_tail b') with (rx_tail b). change (rx_data b') with (rx_data b). rewrite Hh. by rewrite nth_lookup, Hv.
Qed.

Lemma bytes_pop (b : RxBuffer) : ring_wf b → rx_tail b ≠ rx_head b → ∃ v rest, rx_data b !! rx_tail b = Some v ∧ rx_bytes b = v :: rest ∧
  let b' := mk_rx (rx_data b) (rx_head b) ((rx_tail b + 1) `mod` BUF_SIZE) in ring_wf b' ∧ rx_bytes b' = rest ∧ S (rx_count b') = rx_count b.
Proof.
  intros Hwf Hne. destruct (count_head b Hwf) as [Hh Hc]. pose proof (rg_tail _ Hwf) as Ht.
  destruct (lookup_lt_is_Some_2 (rx_data b) (rx_tail b)) as [v Hv]; [by rewrite (rg_data _ Hwf)|].
  destruct (rx_count b) as [|n] eqn:Hn.
  { destruct Hne. rewrite <- Hh, Nat.add_0_r. symmetry. by apply Nat.mod_small. }
  set (b' := mk_rx (rx_data b) (rx_head b) ((rx_tail b + 1) `mod` BUF_SIZE)).
  assert (Hwf' : ring_wf b') by (destruct Hwf; split; [done|done|by apply Nat.mod_upper_bound]).
  assert (Hcount : rx_count b' = n).
  { apply count_unique; [done|lia|]. unfold b'. cbn [rx_tail rx_head]. rewrite Nat.Div0.add_mod_idemp_l. rewrite <- Hh. f_equal. lia. }
  exists v, (rx_bytes b'). split; [done|]. split; [|split; [done|split; [done|by rewrite Hcount]]].
  unfold rx_bytes. rewrite Hn, Hcount. cbn [seq fmap list_fmap]. f_equal.
  - rewrite Nat.add_0_r, Nat.mod_small by done. by rewrite nth_lookup, Hv.
  - rewrite <- fmap_S_seq, <- list_fmap_compose. apply list_fmap_ext. intros k i _. unfold b'. cbn [compose rx_tail rx_data]. rewrite Nat.Div0.add_mod_idemp_l.
    do 2 f_equal. lia.
Qed.

Lemma length_bytes (b : RxBuffer) : length (rx_bytes b) = rx_count b.
Proof. unfold rx_bytes. by rewrite length_fmap, length_seq. Qed.

Lemma full_iff (b : RxBuffer) : ring_wf b → (rx_head b + 1) `mod` BUF_SIZE = rx_tail b ↔ S (rx_count b) = BUF_SIZE.
Proof.
  intros Hwf. destruct (count_head b Hwf) as [Hh Hc]. pose proof (rg_tail _ Hwf) as Ht. rewrite <- Hh, Nat.Div0.add_mod_idemp_l. split.
  - intros Heq. destruct (decide (S (rx_count b) = BUF_SIZE)) as [|Hne]; [done|exfalso].
    assert (Hz : S (rx_count b) = 0); [|done].
    apply (ring_distinct (rx_tail b)); [lia|unfold BUF_SIZE; lia|]. rewrite Nat.add_0_r, (Nat.mod_small (rx_tail b)) by done. rewrite <- Heq. f_equal. lia.
  - intros Hf. replace (rx_tail b + rx_count b + 1) with (rx_tail b + 1 * BUF_SIZE) by lia. rewrite Nat.Div0.mod_add. by apply Nat.mod_small.
Qed.

Lemma empty_iff (b : RxBuffer) : ring_wf b → rx_tail b = rx_head b ↔ rx_count b = 0.
Proof.
  intros Hwf. destruct (count_head b Hwf) as [Hh Hc]. pose proof (rg_tail _ Hwf) as Ht. split.
  - intros Heq. apply (ring_distinct (rx_tail b)); [done|unfold BUF_SIZE; lia|]. rewrite Hh, Nat.add_0_r, Nat.mod_small by done. done.
  - intros H0. rewrite <- Hh, H0, Nat.add_0_r. symmetry. by apply Nat.mod_small.
Qed.

(** ** The invariant of every interleaving *)

Definition producer_ok (b : RxBuffer) (p : producer) : Prop :=
  match p with
  | PIdle => True
  | PHead _ h => h = rx_head b
  | PRoom _ h => h = rx_head b ∧ S (rx_count b) < BUF_SIZE
  | PWritten v h => h = rx_head b ∧ S (rx_count b) < BUF_SIZE ∧ rx_data b !! h = Some v
  end.

Definition consumer_ok (b : RxBuffer) (c : consumer) : Prop :=
  match c with
  | CIdle => True
  | CTail t => t = rx_tail b
  | CSome t => t = rx_tail b ∧ rx_count b ≠ 0
  | CRead t v => t = rx_tail b ∧ rx_count b ≠ 0 ∧ rx_data b !! t = Some v
  end.

Record rx_inv (s : rx_sys) : Prop := {
  ri_ring : ring_wf (ring s);
  ri_queue : accepted s = given s ++ rx_bytes (ring s);
  ri_prod : producer_ok (ring s) (prod s);
  ri_cons : consumer_ok (ring s) (cons s);
}.

Lemma rx_boot_inv : rx_inv rx_boot.
Proof. split; [|done|done|done]. split; [apply length_replicate|unfold BUF_SIZE; cbn; lia|unfold BUF_SIZE; cbn; lia]. Qed.

Lemma producer_step_inv (val : Z) (s : rx_sys) : rx_inv s → ∃ s', producer_step val s = Done s' ∧ rx_inv s'.
Proof.
  intros [Hr Hq Hp Hc]. unfold producer_step. destruct (count_head _ Hr) as [Hh Hlt]. destruct (prod s) as [|v h|v h|v h] eqn:Hps; cbn [producer_ok] in Hp.
  - eexists. split; [done|]. by split.
  - subst h. destruct (Nat.eqb_spec ((rx_head (ring s) + 1) `mod` BUF_SIZE) (rx_tail (ring s))) as [Hf|Hf]; (eexists; split; [done|]); [by split|].
    split; try done. split; [done|]. rewrite full_iff in Hf by done. cbn [ring]. lia.
  - destruct Hp as [-> Hroom]. rewrite put_exec_Done by (rewrite (rg_data _ Hr); apply Hr). cbn [mbind exec_bind]. eexists. split; [done|].
    split; cbn [ring accepted given prod cons].
    + destruct Hr. split; [by cbn; rewrite length_insert|done|done].
    + by rewrite bytes_write.
    + split; [done|]. split; [exact Hroom|]. cbn. apply list_lookup_insert_eq. rewrite (rg_data _ Hr). apply Hr.
    + destruct (cons s) as [|t|t|t w]; cbn [consumer_ok] in *; [done|done|done|]. destruct Hc as (Ht&Hn&Hd). split; [done|]. split; [exact Hn|].
      cbn. rewrite list_lookup_insert_ne; [done|]. intros He. apply Hn, empty_iff; [done|]. by rewrite <- Ht.
  - destruct Hp as (->&Hroom&Hd). eexists. split; [done|].
    destruct (bytes_push (ring s) v Hr Hd) as (Hr'&Hb'&Hc'); [rewrite full_iff by done; lia|].
    split; cbn [ring accepted given prod cons]; [done|by rewrite Hb', Hq, app_assoc|done|].
    destruct (cons s) as [|t|t|t w]; cbn [consumer_ok] in *; [done|done| |]; [destruct Hc as (Ht&Hn)|destruct Hc as (Ht&Hn&Hdt)]; rewrite Hc'; by split_and!.
Qed.

Lemma consumer_step_inv (s : rx_sys) : rx_inv s → ∃ s', consumer_step s = Done s' ∧ rx_inv s'.
Proof.
  intros [Hr Hq Hp Hc]. unfold consumer_step. destruct (cons s) as [|t|t|t v] eqn:Hcs; cbn [consumer_ok] in Hc.
  - eexists. split; [done|]. by split.
  - subst t. destruct (Nat.eqb_spec (rx_tail (ring s)) (rx_head (ring s))) as [He|He]; (eexists; split; [done|]); [by split|].
    split; try done. split; [done|]. by rewrite <- empty_iff.
  - destruct Hc as [-> Hn]. destruct (bytes_pop (ring s) Hr) as (v&rest&Hv&_); [by rewrite empty_iff|]. rewrite Hv. cbn [get_exec mbind exec_bind].
    eexists. split; [done|]. by split.
  - destruct Hc as (->&Hn&Hv). destruct (bytes_pop (ring s) Hr) as (v'&rest&Hv'&Hb&Hr'&Hb'&Hc'); [by rewrite empty_iff|].
    rewrite Hv in Hv'. injection Hv' as <-. eexists. split; [done|]. split; cbn [ring accepted given prod cons]; [done| | |done].
    + by rewrite Hq, Hb, Hb', <- app_assoc.
    + destruct (prod s) as [|w h|w h|w h]; cbn [producer_ok] in *; [done|done| |]; [destruct Hp as (Hh&Hroom)|destruct Hp as (Hh&Hroom&Hd)];
        split_and!; try done; lia.
Qed.

Lemma run_turns_inv (ts : list turn) : ∀ s, rx_inv s → ∃ s', run_turns s ts = Done s' ∧ rx_inv s'.
Proof.
  induction ts as [|t ts IH]; intros s Hs; cbn [run_turns]; [by exists s|].
  destruct t as [v|]; cbn [take_turn]; [destruct (producer_step_inv v s Hs) as (s'&->&Hs')|destruct (consumer_step_inv s Hs) as (s'&->&Hs')]; by apply IH.
Qed.

(** Runs a program as far as its tests are known. *)
Ltac run_program := cbn [replicate run_turns take_turn producer_step consumer_step prod ring mbind exec_bind cons accepted given refused rx_data rx_head rx_tail get_exec].

(** Uninterrupted, the programs are the functions. *)
Lemma push_program (s : rx_sys) (v : Z) : prod s = PIdle →
  match rx_push (ring s) v with
  | Done (true, b) => run_turns s (replicate 4 (Produce v)) = Done (mk_sys b PIdle (cons s) (accepted s ++ [v]) (given s) (refused s))
  | Done (false, b) => run_turns s (replicate 2 (Produce v)) = Done (mk_sys b PIdle (cons s) (accepted s) (given s) (S (refused s)))
  | Stuck => run_turns s (replicate 3 (Produce v)) = Stuck
  end.
Proof.
  destruct s as [b p c acc giv ref]. cbn [prod ring cons accepted given refused]. intros ->. unfold rx_push.
  destruct ((rx_head b + 1) `mod` BUF_SIZE =? rx_tail b) eqn:E.
  - run_program. by rewrite E.
  - unfold put_exec. destruct (rx_head b <? length (rx_data b)) eqn:E2; run_program; rewrite E; run_program; unfold put_exec; rewrite E2; by run_program.
Qed.

Lemma pop_program (s : rx_sys) : cons s = CIdle →
  match rx_pop (ring s) with
  | Done (Some v, b) => run_turns s (replicate 4 Consume) = Done (mk_sys b (prod s) CIdle (accepted s) (given s ++ [v]) (refused s))
  | Done (None, b) => run_turns s (replicate 2 Consume) = Done (mk_sys b (prod s) CIdle (accepted s) (given s) (refused s))
  | Stuck => run_turns s (replicate 3 Consume) = Stuck
  end.
Proof.
  destruct s as [b p c acc giv ref]. cbn [prod ring cons accepted given refused]. intros ->. unfold rx_pop.
  destruct (rx_tail b =? rx_head b) eqn:E.
  - run_program. by rewrite E.
  - destruct (rx_data b !! rx_tail b) as [v|] eqn:E2; run_program; rewrite E; run_program; rewrite E2; by run_program.
Qed.

(** Uninterrupted, [pop] takes the oldest byte. *)
Lemma rx_pop_spec (b : RxBuffer) : ring_wf b → ∃ b', ring_wf b' ∧ rx_bytes b' = tail (rx_bytes b) ∧ rx_pop b = Done (head (rx_bytes b), b').
Proof.
  intros Hwf. unfold rx_pop. destruct (Nat.eqb_spec (rx_tail b) (rx_head b)) as [He|Hne].
  - exists b. apply empty_iff in He as H0; [|done]. unfold rx_bytes at 2 3. rewrite H0. split; [done|]. split; [|done]. unfold rx_bytes. by rewrite H0.
  - destruct (bytes_pop b Hwf Hne) as (v&rest&Hv&Hb&Hwf'&Hr&_). rewrite Hv. cbn [get_exec mbind exec_bind]. rewrite Hb. eexists. split; [exact Hwf'|]. by split.
Qed.

(** ** Properties *)

(** C31. However the producer and the consumer interleave, one atomic action at
    a time, no access leaves the ring and it behaves as a queue of at most 127
    bytes: the bytes given out, followed by those in the ring, are exactly the
    bytes accepted, in their order.  The test of the producer refuses a byte
    exactly when 127 are queued, and that of the consumer comes back empty
    exactly when none is. *)
Theorem rx_buffer_fifo (ts : list turn) : ∃ s, run_turns rx_boot ts = Done s ∧ accepted s = given s ++ rx_bytes (ring s)
  ∧ length (rx_bytes (ring s)) ≤ 127
  ∧ (∀ v h val, prod s = PHead v h → ∃ s', producer_step val s = Done s'
       ∧ if length (rx_bytes (ring s)) =? 127 then prod s' = PIdle ∧ refused s' = S (refused s) else prod s' = PRoom v h ∧ refused s' = refused s)
  ∧ (∀ t, cons s = CTail t → ∃ s', consumer_step s = Done s' ∧ cons s' = if length (rx_bytes (ring s)) =? 0 then CIdle else CSome t).
Proof.
  destruct (run_turns_inv ts rx_boot rx_boot_inv) as (s&Hs&[Hr Hq Hp Hc]). exists s. split; [done|]. split; [done|]. rewrite length_bytes.
  split; [destruct (count_head _ Hr); unfold BUF_SIZE in *; lia|]. split.
  - intros v h val Hps. rewrite Hps in Hp. cbn in Hp. subst h. pose proof (full_iff _ Hr) as Hf. unfold producer_step. rewrite Hps. unfold BUF_SIZE in *.
    destruct (Nat.eqb_spec ((rx_head (ring s) + 1) `mod` 128) (rx_tail (ring s))), (Nat.eqb_spec (rx_count (ring s)) 127);
      try (eexists; split; [done|]; by split); lia.
  - intros t Hcs. rewrite Hcs in Hc. cbn in Hc. subst t. pose proof (empty_iff _ Hr) as He. unfold consumer_step. rewrite Hcs.
    destruct (Nat.eqb_spec (rx_tail (ring s)) (rx_head (ring s))), (Nat.eqb_spec (rx_count (ring s)) 0); try (by eexists); lia.
Qed.
