(* ===== verification/Hv.v ===== *)
(** * The table of guests, [kernel/src/hv.rs]

    Four slots of guests and the memory of each, the state of the hypervisor
    and the counters of the exits.  The statics of the module are the record
    [Hypervisor]; [VM_TABLE] and [GUEST_MEMORY] have their own locks, and the
    operations are sequential steps.  Names are their bytes. *)

From S2P Require Export Prelude.
From S2P Require Export Str.

Module Hv.

Definition VM_NAME_MAX : nat := 24.
Definition MAX_VMS : nat := 4.
Definition MAX_VCPUS_PER_VM : Z := 1.
Definition GUEST_MEM_SIZE : nat := 4096.
Definition DEMO_GUEST_BASE : Z := 0.
Definition DEMO_GUEST_ENTRY : Z := DEMO_GUEST_BASE.
Definition DEMO_GUEST_IMAGE : list Z := [0x93; 0x08; 0x10; 0x00; 0x13; 0x05; 0x80; 0x04; 0x73; 0x00; 0x00; 0x00]%Z.

Record GuestImage : Type := mk_image { img_entry : Z; img_bytes : list Z }.

Inductive HvState : Type := Disabled | Compiled | Unsupported | Ready | Faulted.
Definition state_as_u32 (s : HvState) : Z := match s with Disabled => 0 | Compiled => 1 | Unsupported => 2 | Ready => 3 | Faulted => 4 end.
Definition state_from_u32 (v : Z) : HvState :=
  match v with 1 => Compiled | 2 => Unsupported | 3 => Ready | 4 => Faulted | _ => Disabled end%Z.

Inductive HvExitKind : Type := ExitNone | ExitInterrupt | ExitEcall | ExitPageFault | ExitIllegalInstruction | ExitUnsupported | ExitFatal.
Definition exit_as_u32 (k : HvExitKind) : Z :=
  match k with
  | ExitNone => 0 | ExitInterrupt => 1 | ExitEcall => 2 | ExitPageFault => 3 | ExitIllegalInstruction => 4 | ExitUnsupported => 5 | ExitFatal => 6
  end.
Definition exit_from_u32 (v : Z) : HvExitKind :=
  match v with
  | 1 => ExitInterrupt | 2 => ExitEcall | 3 => ExitPageFault | 4 => ExitIllegalInstruction | 5 => ExitUnsupported | 6 => ExitFatal | _ => ExitNone
  end%Z.

Inductive VmState : Type := VmEmpty | VmCreated | VmReady | VmRunning | VmStopped | VmFaulted.
#[export] Instance VmState_eq_dec : EqDecision VmState.
Proof. solve_decision. Defined.

Inductive HvError : Type := ErrDisabled | ErrUnsupported | NoSpace | AlreadyExists | NotFound | InvalidName | ImageTooLarge | NotReady.

Record VmInfo : Type := mk_vm {
  vm_id : Z;
  vm_name : list Z;
  vm_name_len : nat;
  vm_state : VmState;
  vm_vcpu_count : Z;
  vm_guest_base : Z;
  vm_guest_size : Z;
  vm_host_base : Z;
  vm_entry : Z;
}.
Definition vm_empty : VmInfo := mk_vm 0 (replicate VM_NAME_MAX 0%Z) 0 VmEmpty 0 0 0 0 0.
Definition name_str (vm : VmInfo) : exec str := bs ← prefix_exec (vm_name vm) (vm_name_len vm); Done (from_utf8_or_empty bs).

Record Hypervisor : Type := mk_hv {
  ENABLED : bool;
  STATE : Z;
  H_EXTENSION : bool;
  VM_COUNT : Z;
  VCPU_COUNT : Z;
  EXITS : Z;
  LAST_EXIT : Z;
  LAST_CAUSE : Z;
  LAST_STVAL : Z;
  slots : list VmInfo;
  next_id : Z;
  GUEST_MEMORY : list (list Z);
}.
Definition hv_boot : Hypervisor :=
  mk_hv false (state_as_u32 Disabled) false 0 0 0 (exit_as_u32 ExitNone) 0 0 (replicate MAX_VMS vm_empty) 1 (replicate MAX_VMS (replicate GUEST_MEM_SIZE 0%Z)).

Definition set_slots (hv : Hypervisor) (l : list VmInfo) : Hypervisor :=
  mk_hv (ENABLED hv) (STATE hv) (H_EXTENSION hv) (VM_COUNT hv) (VCPU_COUNT hv) (EXITS hv) (LAST_EXIT hv) (LAST_CAUSE hv) (LAST_STVAL hv)
    l (next_id hv) (GUEST_MEMORY hv).
Definition set_memory (hv : Hypervisor) (mem : list (list Z)) : Hypervisor :=
  mk_hv (ENABLED hv) (STATE hv) (H_EXTENSION hv) (VM_COUNT hv) (VCPU_COUNT hv) (EXITS hv) (LAST_EXIT hv) (LAST_CAUSE hv) (LAST_STVAL hv)
    (slots hv) (next_id hv) mem.

Definition init (compiled h_extension : bool) (hv : Hypervisor) : Hypervisor :=
  let state := if negb compiled then Disabled else if h_extension then Ready else Unsupported in
  mk_hv (compiled && h_extension) (state_as_u32 state) h_extension (VM_COUNT hv) (VCPU_COUNT hv) (EXITS hv) (LAST_EXIT hv) (LAST_CAUSE hv)
    (LAST_STVAL hv) (slots hv) (next_id hv) (GUEST_MEMORY hv).

Definition state (hv : Hypervisor) : HvState := state_from_u32 (STATE hv).

Definition record_exit (kind : HvExitKind) (cause stval : Z) (hv : Hypervisor) : Hypervisor :=
  mk_hv (ENABLED hv) (STATE hv) (H_EXTENSION hv) (VM_COUNT hv) (VCPU_COUNT hv) (wrapping_add 32 (EXITS hv) 1) (exit_as_u32 kind) cause stval
    (slots hv) (next_id hv) (GUEST_MEMORY hv).

Definition set_faulted (cause stval : Z) (hv : Hypervisor) : Hypervisor :=
  let hv := mk_hv (ENABLED hv) (state_as_u32 Faulted) (H_EXTENSION hv) (VM_COUNT hv) (VCPU_COUNT hv) (EXITS hv) (LAST_EXIT hv) (LAST_CAUSE hv)
    (LAST_STVAL hv) (slots hv) (next_id hv) (GUEST_MEMORY hv) in
  record_exit ExitFatal cause stval hv.

(** The slots in use under the name, the first one found. *)
Definition has_name (name : str) (vm : VmInfo) : exec bool :=
  if bool_decide (vm_state vm ≠ VmEmpty) then n ← name_str vm; Done (bool_decide (n = name)) else Done false.

Fixpoint position_named (name : str) (l : list VmInfo) : exec (option nat) :=
  match l with
  | [] => Done None
  | vm :: l => b ← has_name name vm; if b : bool then Done (Some 0) else r ← position_named name l; Done (option_map S r)
  end.

Fixpoint position_empty (l : list VmInfo) : option nat :=
  match l with [] => None | vm :: l => if bool_decide (vm_state vm = VmEmpty) then Some 0 else S <$> position_empty l end.

Section hv.
(** The feature [hypervisor], and where its guest memory lies. *)
Context (hypervisor : bool) (guest_memory_addr : Z).

(** The tests on the state of the hypervisor. *)
Definition create_allowed (hv : Hypervisor) : option HvError :=
  match state hv with
  | Disabled => Some ErrDisabled
  | Unsupported => if hypervisor then None else Some ErrUnsupported
  | Compiled => Some ErrUnsupported
  | Faulted => Some NotReady
  | Ready => None
  end.

Definition create_vm (name : str) (hv : Hypervisor) : exec ((HvError + Z) * Hypervisor) :=
  match create_allowed hv with
  | Some err => Done (inl err, hv)
  | None =>
      if bool_decide (name = []) || (VM_NAME_MAX <? length name) then Done (inl InvalidName, hv) else
      dup ← position_named name (slots hv);
      match dup with
      | Some _ => Done (inl AlreadyExists, hv)
      | None =>
          match position_empty (slots hv) with
          | None => Done (inl NoSpace, hv)
          | Some slot_idx =>
              let id := next_id hv in
              let next := Z.max (wrapping_add 32 id 1) 1 in
              name_buf ← copy_prefix (replicate VM_NAME_MAX 0%Z) name (length name);
              l ← put_exec (slots hv) slot_idx (mk_vm id name_buf (length name) VmCreated MAX_VCPUS_PER_VM 0 0 0 0);
              Done (inr id, mk_hv (ENABLED hv) (STATE hv) (H_EXTENSION hv) (wrapping_add 32 (VM_COUNT hv) 1)
                (wrapping_add 32 (VCPU_COUNT hv) MAX_VCPUS_PER_VM) (EXITS hv) (LAST_EXIT hv) (LAST_CAUSE hv) (LAST_STVAL hv)
                l next (GUEST_MEMORY hv))
          end
      end
  end.

Definition find_vm (name : str) (hv : Hypervisor) : exec (HvError + VmInfo) :=
  i ← position_named name (slots hv);
  match i with Some i => vm ← get_exec (slots hv !! i); Done (inr vm) | None => Done (inl NotFound) end.

Definition load_guest_memory (slot_idx : nat) (bs : list Z) (hv : Hypervisor) : exec (Z * Hypervisor) :=
  if hypervisor then
    let host_base := (guest_memory_addr + Z.of_nat (slot_idx * GUEST_MEM_SIZE))%Z in
    mem ← get_exec (GUEST_MEMORY hv !! slot_idx);
    mem ← copy_prefix (replicate (length mem) 0%Z) bs (length bs);
    all ← put_exec (GUEST_MEMORY hv) slot_idx mem;
    Done (host_base, set_memory hv all)
  else Done (0%Z, hv).

Definition load_image (name : str) (image : GuestImage) (hv : Hypervisor) : exec ((HvError + unit) * Hypervisor) :=
  if GUEST_MEM_SIZE <? length (img_bytes image) then Done (inl ImageTooLarge, hv) else
  i ← position_named name (slots hv);
  match i with
  | None => Done (inl NotFound, hv)
  | Some i =>
      vm ← get_exec (slots hv !! i);
      if bool_decide (vm_state vm = VmRunning) then Done (inl NotReady, hv) else
      '(host_base, hv) ← load_guest_memory i (img_bytes image) hv;
      l ← put_exec (slots hv) i (mk_vm (vm_id vm) (vm_name vm) (vm_name_len vm) VmReady (vm_vcpu_count vm) DEMO_GUEST_BASE (Z.of_nat GUEST_MEM_SIZE)
        host_base (img_entry image));
      Done (inr (), set_slots hv l)
  end.

Definition load_demo (name : str) (hv : Hypervisor) : exec ((HvError + unit) * Hypervisor) :=
  load_image name (mk_image DEMO_GUEST_ENTRY DEMO_GUEST_IMAGE) hv.

(** The guests in use, in the order of their slots, and their number. *)
Definition list_vms (hv : Hypervisor) : list (option VmInfo) * nat :=
  let vms := filter (λ vm, vm_state vm ≠ VmEmpty) (slots hv) in
  ((Some <$> take MAX_VMS vms) ++ replicate (MAX_VMS - length vms) None, length vms).

Definition mark_vm_faulted (name : str) (cause stval : Z) (hv : Hypervisor) : exec ((HvError + unit) * Hypervisor) :=
  i ← position_named name (slots hv);
  match i with
  | None => Done (inl NotFound, hv)
  | Some i =>
      vm ← get_exec (slots hv !! i);
      l ← put_exec (slots hv) i (mk_vm (vm_id vm) (vm_name vm) (vm_name_len vm) VmFaulted (vm_vcpu_count vm) (vm_guest_base vm) (vm_guest_size vm)
        (vm_host_base vm) (vm_entry vm));
      Done (inr (), set_faulted cause stval (set_slots hv l))
  end.

Record HvStats : Type := mk_stats {
  st_compiled : bool; st_enabled : bool; st_state : HvState; st_h_extension : bool; st_vm_count : Z; st_vcpu_count : Z;
  st_exits : Z; st_last_exit : HvExitKind; st_last_cause : Z; st_last_stval : Z;
}.
Definition stats (hv : Hypervisor) : HvStats :=
  mk_stats hypervisor (ENABLED hv) (state hv) (H_EXTENSION hv) (VM_COUNT hv) (VCPU_COUNT hv) (EXITS hv)
    (exit_from_u32 (LAST_EXIT hv)) (LAST_CAUSE hv) (LAST_STVAL hv).

(** Everything the rest of the kernel does with the table. *)
Inductive hv_op : Type :=
  | OpInit (compiled h_extension : bool)
  | OpCreate (name : str)
  | OpLoad (name : str) (image : GuestImage)
  | OpFault (name : str) (cause stval : Z)
  | OpSetFaulted (cause stval : Z)
  | OpExit (kind : HvExitKind) (cause stval : Z).

Definition hv_step (hv : Hypervisor) (op : hv_op) : exec Hypervisor :=
  match op with
  | OpInit c h => Done (init c h hv)
  | OpCreate name => '(_, hv) ← create_vm name hv; Done hv
  | OpLoad name image => '(_, hv) ← load_image name image hv; Done hv
  | OpFault name c s => '(_, hv) ← mark_vm_faulted name c s hv; Done hv
  | OpSetFaulted c s => Done (set_faulted c s hv)
  | OpExit k c s => Done (record_exit k c s hv)
  end.

Fixpoint hv_run (hv : Hypervisor) (ops : list hv_op) : exec Hypervisor :=
  match ops with [] => Done hv | op :: ops => hv ← hv_step hv op; hv_run hv ops end.
End hv.
End Hv.
