(* ===== verification/HvProps.v ===== *)
(** * What the table of guests promises *)

From S2P Require Export Prelude.
From S2P Require Export Str.
From S2P Require Export Hv.

Import Hv.

(** ** Guests *)

Definition vm_label (vm : VmInfo) : str := take (vm_name_len vm) (vm_name vm).

Record vm_ok (vm : VmInfo) : Prop := {
  vo_used : vm_state vm ≠ VmEmpty;
  vo_idle : vm_state vm ≠ VmRunning;
  vo_name : length (vm_name vm) = VM_NAME_MAX ∧ vm_name_len vm ≤ VM_NAME_MAX;
  vo_label : vm_label vm ≠ [] ∧ utf8_valid (vm_label vm) = true;
}.

(** The guests [vms] fill the first slots; nothing empties a slot. *)
Record hv_wf (hv : Hypervisor) (vms : list VmInfo) : Prop := {
  hw_slots : slots hv = vms ++ replicate (MAX_VMS - length vms) vm_empty;
  hw_max : length vms ≤ MAX_VMS;
  hw_vms : Forall vm_ok vms;
  hw_names : NoDup (vm_label <$> vms);
  hw_ids : vm_id <$> vms = Z.of_nat <$> seq 1 (length vms);
  hw_next : next_id hv = Z.of_nat (S (length vms));
  hw_counts : VM_COUNT hv = Z.of_nat (length vms) ∧ VCPU_COUNT hv = Z.of_nat (length vms);
  hw_memory : length (GUEST_MEMORY hv) = MAX_VMS ∧ Forall (λ m, length m = GUEST_MEM_SIZE) (GUEST_MEMORY hv);
}.

Lemma hv_boot_wf : hv_wf hv_boot [].
Proof.
  split; [done|cbn; lia|constructor|constructor|done|done|done|]. split; [apply length_replicate|]. apply Forall_replicate, length_replicate.
Qed.

Lemma name_str_ok (vm : VmInfo) : vm_ok vm → name_str vm = Done (vm_label vm).
Proof.
  intros [_ _ [Hl Hn] [_ Hu]]. unfold name_str. rewrite prefix_exec_Done by lia. cbn [mbind exec_bind]. unfold from_utf8_or_empty. fold (vm_label vm).
  by rewrite Hu.
Qed.

Lemma has_name_ok (name : str) (vm : VmInfo) : vm_ok vm → has_name name vm = Done (bool_decide (vm_label vm = name)).
Proof. intros Hok. unfold has_name. rewrite bool_decide_true by apply Hok. by rewrite name_str_ok. Qed.

Lemma has_name_empty (name : str) : has_name name vm_empty = Done false.
Proof. done. Qed.

Lemma position_named_empty (name : str) (n : nat) : position_named name (replicate n vm_empty) = Done None.
Proof. induction n as [|n IH]; cbn [replicate position_named]; [done|]. rewrite has_name_empty. cbn [mbind exec_bind]. by rewrite IH. Qed.

Lemma position_named_spec (name : str) (vms : list VmInfo) (n : nat) : Forall vm_ok vms →
  (∃ i vm, position_named name (vms ++ replicate n vm_empty) = Done (Some i) ∧ vms !! i = Some vm ∧ vm_label vm = name)
  ∨ position_named name (vms ++ replicate n vm_empty) = Done None ∧ name ∉ vm_label <$> vms.
Proof.
  induction 1 as [|vm vms Hvm Hvms IH]; cbn [app position_named fmap list_fmap].
  { right. split; [apply position_named_empty|by intros ?%not_elem_of_nil]. }
  rewrite has_name_ok by done. cbn [mbind exec_bind]. case_bool_decide as Hn; [left; by exists 0, vm|].
  destruct IH as [(i&v&Hp&Hi&Hl)|[Hp Hl]]; rewrite Hp; cbn [mbind exec_bind option_map].
  - left. by exists (S i), v.
  - right. split; [done|]. apply not_elem_of_cons. by split.
Qed.

Lemma position_empty_spec (vms : list VmInfo) (n : nat) : Forall vm_ok vms →
  position_empty (vms ++ replicate n vm_empty) = if n =? 0 then None else Some (length vms).
Proof.
  induction 1 as [|vm vms Hvm Hvms IH]; cbn [app position_empty length].
  - destruct n as [|n]; cbn [replicate position_empty]; [done|]. by rewrite bool_decide_true.
  - rewrite bool_decide_false by apply Hvm. rewrite IH. by destruct (n =? 0).
Qed.

Lemma vm_ok_relabel (vm : VmInfo) (s : VmState) (gb gs hb e : Z) : vm_ok vm → s ≠ VmEmpty → s ≠ VmRunning →
  vm_ok (mk_vm (vm_id vm) (vm_name vm) (vm_name_len vm) s (vm_vcpu_count vm) gb gs hb e).
Proof. intros [_ _ Hn Hl] Hs Hr. by split. Qed.

(** Changing a guest in place. *)
Lemma wf_update (hv : Hypervisor) (vms : list VmInfo) (i : nat) (vm vm' : VmInfo) : hv_wf hv vms → vms !! i = Some vm → vm_ok vm' →
  vm_label vm' = vm_label vm → vm_id vm' = vm_id vm →
  put_exec (slots hv) i vm' = Done (<[i := vm']> (slots hv)) ∧ hv_wf (set_slots hv (<[i := vm']> (slots hv))) (<[i := vm']> vms).
Proof.
  intros [Hs Hm Hv Hn Hid Hnx Hc Hme] Hi Hok Hl Hd. pose proof (lookup_lt_Some _ _ _ Hi) as Hlt. split.
  { apply put_exec_Done. rewrite Hs, length_app. lia. }
  split; cbn [slots set_slots next_id VM_COUNT VCPU_COUNT GUEST_MEMORY]; rewrite ?length_insert; try done.
  - rewrite Hs. by rewrite insert_app_l.
  - by apply Forall_insert.
  - rewrite list_fmap_insert, Hl, list_insert_id; [done|]. rewrite list_lookup_fmap, Hi. done.
  - rewrite list_fmap_insert, Hd, list_insert_id; [done|]. rewrite list_lookup_fmap, Hi. done.
Qed.

(** ** Operations *)

Section ops.
Context (hypervisor : bool) (guest_memory_addr : Z).

Lemma wf_globals (hv hv' : Hypervisor) (vms : list VmInfo) : hv_wf hv vms → slots hv' = slots hv → next_id hv' = next_id hv →
  VM_COUNT hv' = VM_COUNT hv → VCPU_COUNT hv' = VCPU_COUNT hv → GUEST_MEMORY hv' = GUEST_MEMORY hv → hv_wf hv' vms.
Proof. intros [Hs Hm Hv Hn Hid Hnx Hc Hme] E1 E2 E3 E4 E5. split; by rewrite ?E1, ?E2, ?E3, ?E4, ?E5. Qed.

(** What [create_vm] returns, by the tests of the code. *)
Definition create_result (hv : Hypervisor) (vms : list VmInfo) (name : str) : HvError + Z :=
  match create_allowed hypervisor hv with
  | Some err => inl err
  | None =>
      if bool_decide (name = []) || (VM_NAME_MAX <? length name) then inl InvalidName else
      if bool_decide (name ∈ vm_label <$> vms) then inl AlreadyExists else
      if length vms =? MAX_VMS then inl NoSpace else inr (Z.of_nat (S (length vms)))
  end.

Definition new_vm (id : Z) (name : str) : VmInfo :=
  mk_vm id (name ++ replicate (VM_NAME_MAX - length name) 0%Z) (length name) VmCreated MAX_VCPUS_PER_VM 0 0 0 0.

Lemma new_vm_label (id : Z) (name : str) : vm_label (new_vm id name) = name.
Proof. unfold vm_label. cbn. by rewrite take_app_length. Qed.

Lemma wf_snoc (hv hv' : Hypervisor) (vms : list VmInfo) (vm : VmInfo) : hv_wf hv vms → length vms < MAX_VMS → vm_ok vm →
  vm_label vm ∉ vm_label <$> vms → vm_id vm = Z.of_nat (S (length vms)) →
  slots hv' = <[length vms := vm]> (slots hv) → next_id hv' = Z.of_nat (S (S (length vms))) →
  VM_COUNT hv' = Z.of_nat (S (length vms)) → VCPU_COUNT hv' = Z.of_nat (S (length vms)) → GUEST_MEMORY hv' = GUEST_MEMORY hv →
  hv_wf hv' (vms ++ [vm]).
Proof.
  intros [Hs Hm Hv Hn Hid Hnx Hc Hme] Hlt Hok Hnew Hvid Hs' Hnx' Hvc Hcc Hmem.
  split; rewrite ?length_app; cbn [length]; rewrite ?Nat.add_1_r; try done.
  - rewrite Hs', Hs, insert_app_r_alt, Nat.sub_diag by lia. destruct (MAX_VMS - length vms) as [|k] eqn:E; [lia|]. cbn [replicate].
    rewrite <- app_assoc. cbn [app]. assert (k = MAX_VMS - S (length vms)) as -> by lia. done.
  - apply Forall_app. split; [done|]. by apply Forall_singleton.
  - rewrite fmap_app. apply NoDup_app. split_and!; [done| |apply NoDup_singleton]. intros x Hx. cbn. intros ->%list_elem_of_singleton. done.
  - rewrite fmap_app, Hid, seq_S, fmap_app. cbn. by rewrite Hvid.
  - by rewrite Hmem.
Qed.

Lemma create_vm_spec (hv : Hypervisor) (vms : list VmInfo) (name : str) : hv_wf hv vms → utf8_valid name = true →
  ∃ hv', create_vm hypervisor name hv = Done (create_result hv vms name, hv') ∧
    match create_result hv vms name with inl _ => hv' = hv | inr id => hv_wf hv' (vms ++ [new_vm id name]) ∧ GUEST_MEMORY hv' = GUEST_MEMORY hv end.
Proof.
  intros Hwf Hu. pose proof Hwf as [Hs Hm Hv Hn Hid Hnx [Hc1 Hc2] Hme]. unfold create_vm, create_result.
  destruct (create_allowed hypervisor hv); [by exists hv|]. destruct (bool_decide (name = []) || (VM_NAME_MAX <? length name)) eqn:Hname; [by exists hv|].
  apply orb_false_iff in Hname as [Hne%bool_decide_eq_false Hlen%Nat.ltb_ge]. rewrite Hs.
  destruct (position_named_spec name vms (MAX_VMS - length vms) Hv) as [(i&vm&->&Hi&Hl)|[-> Hno]]; cbn [mbind exec_bind].
  { exists hv. rewrite (bool_decide_true (name ∈ _)); [done|]. subst name. apply list_elem_of_fmap. exists vm. split; [done|]. by apply list_elem_of_lookup_2 in Hi. }
  rewrite (bool_decide_false (name ∈ _)) by done. rewrite position_empty_spec by done.
  destruct (Nat.eqb_spec (length vms) MAX_VMS) as [->|Hlt]; [by exists hv|].
  destruct (Nat.eqb_spec (MAX_VMS - length vms) 0); [lia|]. rewrite copy_prefix_Done by (rewrite ?length_replicate; lia). cbn [mbind exec_bind].
  rewrite take_ge by done. rewrite drop_replicate. rewrite Hnx. fold (new_vm (Z.of_nat (S (length vms))) name).
  rewrite put_exec_Done by (rewrite length_app, length_replicate; lia). cbn [mbind exec_bind]. eexists. split; [done|]. split; [|done].
  rewrite <- Hs. assert (Hmv : length vms < 4) by (unfold MAX_VMS in *; lia).
  eapply (wf_snoc hv); cbn [slots next_id VM_COUNT VCPU_COUNT GUEST_MEMORY]; try done; try (by rewrite new_vm_label).
  - split; rewrite ?new_vm_label; try done. cbn [new_vm vm_name vm_name_len]. split; [rewrite length_app, length_replicate; lia|done].
  - unfold wrapping_add. rewrite wrap_small by (unfold in_width; lia). lia.
  - unfold wrapping_add. rewrite Hc1, wrap_small by (unfold in_width; lia). lia.
  - unfold wrapping_add. unfold MAX_VCPUS_PER_VM. rewrite Hc2, wrap_small by (unfold in_width; lia). lia.
Qed.

Lemma label_unique (vms : list VmInfo) (i j : nat) (vm vm' : VmInfo) : NoDup (vm_label <$> vms) → vms !! i = Some vm → vms !! j = Some vm' →
  vm_label vm = vm_label vm' → i = j.
Proof. intros Hn Hi Hj Hl. eapply (NoDup_lookup (vm_label <$> vms)); [done| |]; rewrite list_lookup_fmap, ?Hi, ?Hj; [done|cbn; by rewrite Hl]. Qed.

Lemma position_here (hv : Hypervisor) (vms : list VmInfo) (i : nat) (vm : VmInfo) : hv_wf hv vms → vms !! i = Some vm →
  position_named (vm_label vm) (slots hv) = Done (Some i).
Proof.
  intros Hwf Hi. rewrite (hw_slots _ _ Hwf). destruct (position_named_spec (vm_label vm) vms (MAX_VMS - length vms) (hw_vms _ _ Hwf)) as [(j&vm'&->&Hj&Hl)|[_ Hno]].
  - do 2 f_equal. by eapply (label_unique vms); [apply Hwf| | |].
  - destruct Hno. apply list_elem_of_fmap. exists vm. split; [done|]. by apply list_elem_of_lookup_2 in Hi.
Qed.

Lemma slot_here (hv : Hypervisor) (vms : list VmInfo) (i : nat) (vm : VmInfo) : hv_wf hv vms → vms !! i = Some vm → slots hv !! i = Some vm.
Proof. intros Hwf Hi. by rewrite (hw_slots _ _ Hwf), lookup_app_l by (by eapply lookup_lt_Some). Qed.

Lemma position_none (hv : Hypervisor) (vms : list VmInfo) (name : str) : hv_wf hv vms → name ∉ vm_label <$> vms → position_named name (slots hv) = Done None.
Proof.
  intros Hwf Hno. rewrite (hw_slots _ _ Hwf). destruct (position_named_spec name vms (MAX_VMS - length vms) (hw_vms _ _ Hwf)) as [(j&vm&_&Hj&Hl)|[-> _]]; [|done].
  destruct Hno. apply list_elem_of_fmap. exists vm. split; [done|]. by apply list_elem_of_lookup_2 in Hj.
Qed.

Lemma find_vm_spec (hv : Hypervisor) (vms : list VmInfo) (name : str) : hv_wf hv vms →
  find_vm name hv = Done (match list_find (λ vm, vm_label vm = name) vms with Some (_, vm) => inr vm | None => inl NotFound end).
Proof.
  intros Hwf. unfold find_vm. destruct (list_find (λ vm, vm_label vm = name) vms) as [[i vm]|] eqn:Hf.
  - apply list_find_Some in Hf as (Hi&<-&_). rewrite (position_here hv vms i vm Hwf Hi). cbn [mbind exec_bind].
    by rewrite (slot_here hv vms i vm Hwf Hi).
  - rewrite (position_none hv vms name Hwf); [done|]. apply list_find_None in Hf. intros (vm&->&Hin)%list_elem_of_fmap.
    rewrite Forall_forall in Hf. by apply (Hf vm).
Qed.

Lemma label_cases (vms : list VmInfo) (name : str) : (∃ i vm, vms !! i = Some vm ∧ vm_label vm = name) ∨ name ∉ vm_label <$> vms.
Proof.
  destruct (decide (name ∈ vm_label <$> vms)) as [Hin|]; [left|by right]. apply list_elem_of_fmap in Hin as (vm&->&[i Hi]%list_elem_of_lookup).
  by exists i, vm.
Qed.

(** The guest after an image was loaded into its slot. *)
Definition loaded (i : nat) (vm : VmInfo) (image : GuestImage) : VmInfo :=
  mk_vm (vm_id vm) (vm_name vm) (vm_name_len vm) VmReady (vm_vcpu_count vm) DEMO_GUEST_BASE (Z.of_nat GUEST_MEM_SIZE)
    (if hypervisor then guest_memory_addr + Z.of_nat (i * GUEST_MEM_SIZE) else 0)%Z (img_entry image).
Definition padded (bs : list Z) : list Z := bs ++ replicate (GUEST_MEM_SIZE - length bs) 0%Z.

Lemma load_image_spec (hv : Hypervisor) (vms : list VmInfo) (name : str) (image : GuestImage) : hv_wf hv vms →
  if GUEST_MEM_SIZE <? length (img_bytes image) then load_image hypervisor guest_memory_addr name image hv = Done (inl ImageTooLarge, hv) else
  (((name ∉ vm_label <$> vms) ∧ load_image hypervisor guest_memory_addr name image hv = Done (inl NotFound, hv))
  ∨ ∃ i vm hv', vms !! i = Some vm ∧ vm_label vm = name ∧ load_image hypervisor guest_memory_addr name image hv = Done (inr (), hv')
    ∧ hv_wf hv' (<[i := loaded i vm image]> vms)
    ∧ GUEST_MEMORY hv' = (if hypervisor then <[i := padded (img_bytes image)]> (GUEST_MEMORY hv) else GUEST_MEMORY hv)).
Proof.
  intros Hwf. unfold load_image. destruct (Nat.ltb_spec GUEST_MEM_SIZE (length (img_bytes image))) as [|Hlen]; [done|].
  destruct (label_cases vms name) as [(i&vm&Hi&Hl)|Hno]; [right|left; by rewrite (position_none hv vms name Hwf Hno)].
  pose proof (Forall_lookup_1 _ _ _ _ (hw_vms _ _ Hwf) Hi) as Hok. pose proof (lookup_lt_Some _ _ _ Hi) as Hlt.
  rewrite <- Hl. rewrite (position_here hv vms i vm Hwf Hi). cbn [mbind exec_bind]. rewrite (slot_here hv vms i vm Hwf Hi).
  cbn [get_exec mbind exec_bind]. rewrite bool_decide_false by apply Hok.
  destruct (hw_memory _ _ Hwf) as [Hml Hm]. pose proof (hw_max _ _ Hwf) as Hmax.
  assert (Hld : ∃ hv1, load_guest_memory hypervisor guest_memory_addr i (img_bytes image) hv
      = Done ((if hypervisor then guest_memory_addr + Z.of_nat (i * GUEST_MEM_SIZE) else 0)%Z, hv1) ∧ hv_wf hv1 vms ∧ slots hv1 = slots hv
      ∧ GUEST_MEMORY hv1 = (if hypervisor then <[i := padded (img_bytes image)]> (GUEST_MEMORY hv) else GUEST_MEMORY hv)).
  { unfold load_guest_memory. destruct hypervisor; [|by exists hv].
    destruct (lookup_lt_is_Some_2 (GUEST_MEMORY hv) i) as [mem Hmem]; [lia|]. rewrite Hmem. cbn [get_exec mbind exec_bind].
    pose proof (Forall_lookup_1 _ _ _ _ Hm Hmem) as Hsz. cbn beta in Hsz. rewrite Hsz.
    rewrite copy_prefix_Done by (rewrite ?length_replicate; lia). cbn [mbind exec_bind]. rewrite take_ge, drop_replicate by done. fold (padded (img_bytes image)).
    rewrite put_exec_Done by lia. cbn [mbind exec_bind]. eexists. split; [done|]. split; [|done].
    destruct Hwf as [Hs Hmx Hv Hn Hid Hnx Hc _]. split; try done. cbn [GUEST_MEMORY set_memory]. split; [by rewrite length_insert|].
    apply Forall_insert; [done|]. unfold padded. rewrite length_app, length_replicate. lia. }
  destruct Hld as (hv1&->&Hwf1&Hs1&Hmem1). cbn [mbind exec_bind]. fold (loaded i vm image).
  destruct (wf_update hv1 vms i vm (loaded i vm image) Hwf1 Hi) as [Hput Hwf2]; [by apply vm_ok_relabel|done|done|].
  rewrite Hput. cbn [mbind exec_bind]. exists i, vm. eexists. split; [done|]. split; [done|]. split; [done|]. split; [done|]. exact Hmem1.
Qed.

Lemma mark_faulted_spec (hv : Hypervisor) (vms : list VmInfo) (name : str) (cause stval : Z) : hv_wf hv vms →
  ∃ r hv' vms', mark_vm_faulted name cause stval hv = Done (r, hv') ∧ hv_wf hv' vms' ∧ length vms' = length vms
    ∧ match r with inr _ => state hv' = Faulted | inl _ => hv' = hv end.
Proof.
  intros Hwf. unfold mark_vm_faulted. destruct (label_cases vms name) as [(i&vm&Hi&<-)|Hno].
  2: { rewrite (position_none hv vms name Hwf Hno). by exists (inl NotFound), hv, vms. }
  pose proof (Forall_lookup_1 _ _ _ _ (hw_vms _ _ Hwf) Hi) as Hok. rewrite (position_here hv vms i vm Hwf Hi). cbn [mbind exec_bind].
  rewrite (slot_here hv vms i vm Hwf Hi). cbn [get_exec mbind exec_bind].
  match goal with |- context [put_exec _ _ ?v] => destruct (wf_update hv vms i vm v Hwf Hi) as [Hput Hwf2]; [by apply vm_ok_relabel|done|done|] end.
  rewrite Hput. cbn [mbind exec_bind]. eexists _, _, _. split; [done|]. split; [|split; [|done]].
  - by eapply wf_globals; [exact Hwf2|..].
  - by rewrite length_insert.
Qed.

Definition op_name_ok (op : hv_op) : Prop := match op with OpCreate name => utf8_valid name = true | _ => True end.

Lemma hv_step_wf (hv : Hypervisor) (vms : list VmInfo) (op : hv_op) : hv_wf hv vms → op_name_ok op →
  ∃ hv' vms', hv_step hypervisor guest_memory_addr hv op = Done hv' ∧ hv_wf hv' vms'.
Proof.
  intros Hwf Hop. destruct op as [c h|name|name image|name cause stval|cause stval|k cause stval]; cbn [hv_step op_name_ok] in *.
  - eexists _, vms. split; [done|]. by eapply wf_globals; [exact Hwf|..].
  - destruct (create_vm_spec hv vms name Hwf Hop) as (hv'&->&Hr). cbn [mbind exec_bind]. destruct (create_result hv vms name).
    + rewrite Hr. by exists hv, vms.
    + destruct Hr as [Hwf' _]. by eexists _, _.
  - pose proof (load_image_spec hv vms name image Hwf) as Hl. destruct (GUEST_MEM_SIZE <? length (img_bytes image)); [rewrite Hl; by exists hv, vms|].
    destruct Hl as [[_ ->]|(i&vm&hv'&_&_&->&Hwf'&_)]; cbn [mbind exec_bind]; [by exists hv, vms|by eexists _, _].
  - destruct (mark_faulted_spec hv vms name cause stval Hwf) as (r&hv'&vms'&->&Hwf'&_). by exists hv', vms'.
  - eexists _, vms. split; [done|]. by eapply wf_globals; [exact Hwf|..].
  - eexists _, vms. split; [done|]. by eapply wf_globals; [exact Hwf|..].
Qed.

Lemma hv_run_wf (ops : list hv_op) : ∀ hv vms, hv_wf hv vms → Forall op_name_ok ops →
  ∃ hv' vms', hv_run hypervisor guest_memory_addr hv ops = Done hv' ∧ hv_wf hv' vms'.
Proof.
  induction ops as [|op ops IH]; intros hv vms Hwf Hops; cbn [hv_run]; [by exists hv, vms|]. apply Forall_cons in Hops as [Hop Hops].
  destruct (hv_step_wf hv vms op Hwf Hop) as (hv1&vms1&->&Hwf1). by apply (IH hv1 vms1).
Qed.
End ops.

(** ** Properties *)

(** C32. From start-up, whatever the rest of the kernel does with the table of
    guests, no operation panics, and: the guests fill the first slots, at most
    four, with the numbers 1, 2, ... and different names; both counters hold
    their number; every guest has its own memory of 4096 bytes; and a new
    guest is refused exactly for the state of the hypervisor, a bad or used
    name or a full table, and is otherwise the next one. *)
Theorem hv_table_invariant (hypervisor : bool) (guest_memory_addr : Z) (ops : list hv_op) : Forall op_name_ok ops →
  ∃ hv vms, hv_run hypervisor guest_memory_addr hv_boot ops = Done hv ∧ hv_wf hv vms
  ∧ ∀ name, utf8_valid name = true → ∃ hv', create_vm hypervisor name hv = Done (create_result hypervisor hv vms name, hv')
    ∧ match create_result hypervisor hv vms name with
      | inl _ => hv' = hv
      | inr id => hv_wf hv' (vms ++ [new_vm id name]) ∧ GUEST_MEMORY hv' = GUEST_MEMORY hv
      end.
Proof.
  intros Hops. destruct (hv_run_wf hypervisor guest_memory_addr ops hv_boot [] hv_boot_wf Hops) as (hv&vms&Hr&Hwf). exists hv, vms.
  split; [done|]. split; [done|]. intros name Hu. by apply create_vm_spec.
Qed.

Definition demo_hv_ops : list hv_op := [OpInit true true; OpCreate (bytes "one"); OpCreate (bytes "two"); OpCreate (bytes "one"); OpExit ExitEcall 8 0].

Lemma hv_table_invariant_witness : ∃ hv vms, hv_run true 0 hv_boot demo_hv_ops = Done hv ∧ hv_wf hv vms.
Proof.
  destruct (hv_table_invariant true 0 demo_hv_ops) as (hv&vms&Hr&Hwf&_); [repeat (apply Forall_cons; split; [vm_compute; try reflexivity; exact I|]); apply Forall_nil; exact I|].
  exists hv, vms. split; [exact Hr|exact Hwf].
Defined.

(** Loading an image into a guest: it fails, changing nothing, exactly when
    the image is larger than the memory of a guest or no guest has the name;
    otherwise the memory of the guest is the image followed by zeros, the guest
    is ready at the entry of the image with its own part of the host's memory,
    and the other guests and their memories are what they were. *)
Theorem guest_image_loaded (guest_memory_addr : Z) (hv : Hypervisor) (vms : list VmInfo) (name : str) (image : GuestImage) : hv_wf hv vms →
  ∃ r hv', load_image true guest_memory_addr name image hv = Done (r, hv') ∧
    match r with
    | inl err => hv' = hv ∧ (err = ImageTooLarge ∧ GUEST_MEM_SIZE < length (img_bytes image) ∨ err = NotFound ∧ find_vm name hv = Done (inl NotFound))
    | inr _ => ∃ i vm, length (img_bytes image) ≤ GUEST_MEM_SIZE ∧ find_vm name hv = Done (inr vm)
        ∧ find_vm name hv' = Done (inr (loaded true guest_memory_addr i vm image))
        ∧ (∀ other, other ≠ name → find_vm other hv' = find_vm other hv)
        ∧ ∀ j, GUEST_MEMORY hv' !! j = (if bool_decide (j = i) then Some (padded (img_bytes image)) else GUEST_MEMORY hv !! j)
    end.
Proof.
  intros Hwf. pose proof (load_image_spec true guest_memory_addr hv vms name image Hwf) as Hl.
  destruct (Nat.ltb_spec GUEST_MEM_SIZE (length (img_bytes image))) as [Hbig|Hlen]; [rewrite Hl; eexists _, _; split; [done|]; split; [done|by left]|].
  destruct Hl as [[Hno ->]|(i&vm&hv'&Hi&Hlab&->&Hwf'&Hmem)]; eexists _, _; (split; [done|]); cbn beta iota.
  { split; [done|right]. split; [done|]. unfold find_vm. by rewrite (position_none hv vms name Hwf Hno). }
  pose proof (lookup_lt_Some _ _ _ Hi) as Hlt. exists i, vm. split; [done|].
  assert (Hfind : ∀ h l j v, hv_wf h l → l !! j = Some v → find_vm (vm_label v) h = Done (inr v)).
  { intros h l j v Hw Hj. unfold find_vm. rewrite (position_here h l j v Hw Hj). cbn [mbind exec_bind]. by rewrite (slot_here h l j v Hw Hj). }
  assert (Hi' : <[i := loaded true guest_memory_addr i vm image]> vms !! i = Some (loaded true guest_memory_addr i vm image)) by by apply list_lookup_insert_eq.
  split_and!.
  - rewrite <- Hlab. by eapply Hfind.
  - rewrite <- Hlab. by apply (Hfind _ _ i _ Hwf' Hi').
  - intros other Hne. destruct (label_cases vms other) as [(j&v&Hj&<-)|Hno].
    + rewrite (Hfind hv vms j v Hwf Hj). apply (Hfind _ _ j v Hwf'). rewrite list_lookup_insert_ne; [done|]. intros ->. congruence.
    + unfold find_vm. rewrite (position_none hv vms other Hwf Hno), (position_none _ _ other Hwf'); [done|].
      rewrite list_fmap_insert, list_insert_id; [done|]. by rewrite list_lookup_fmap, Hi.
  - intros j. rewrite Hmem. destruct (hw_memory _ _ Hwf) as [Hml _]. pose proof (hw_max _ _ Hwf). case_bool_decide as Hj.
    + subst j. apply list_lookup_insert_eq. lia.
    + by apply list_lookup_insert_ne.
Qed.

Lemma guest_image_loaded_witness : ∃ hv hv' i vm, hv_run true 0 hv_boot demo_hv_ops = Done hv
  ∧ load_image true 4096 (bytes "two") (mk_image 0 DEMO_GUEST_IMAGE) hv = Done (inr (), hv')
  ∧ find_vm (bytes "two") hv' = Done (inr (loaded true 4096 i vm (mk_image 0 DEMO_GUEST_IMAGE))).
Proof.
  destruct (hv_run_wf true 0 demo_hv_ops hv_boot [] hv_boot_wf) as (hv&vms&Hr&Hwf);
    [repeat (apply Forall_cons; split; [vm_compute; try reflexivity; exact I|]); apply Forall_nil; exact I|].
  destruct (guest_image_loaded 4096 hv vms (bytes "two") (mk_image 0 DEMO_GUEST_IMAGE) Hwf) as (r&hv'&Hl&Hcase).
  assert (Hf : ∃ vm, find_vm (bytes "two") hv = Done (inr vm)).
  { assert (Hv : ∃ h vm, hv_run true 0 hv_boot demo_hv_ops = Done h ∧ find_vm (bytes "two") h = Done (inr vm)) by (eexists _, _; split; vm_compute; reflexivity).
    destruct Hv as (h&vm&Hh&Hv). rewrite Hr in Hh. injection Hh as <-. by exists vm. }
  destruct Hf as [vm0 Hf]. destruct r as [err|[]].
  - exfalso. destruct Hcase as [_ [[_ Hb]|[_ Hn]]]; [|congruence]. vm_compute in Hb. lia.
  - destruct Hcase as (i&vm&_&_&Hfind&_). exists hv, hv', i, vm. split; [exact Hr|]. split; [exact Hl|exact Hfind].
Defined.
