(* ===== verification/ShellCmds.v ===== *)
(** * The shell: commands, completion and the loop, [kernel/src/shell.rs]

    The commands over the RAM file system, the mount table and the table of
    guests; what they print is part of the state of the console.  The commands
    that only print the state of other components leave a mark in the output,
    whose text is [report_text] in [Reports]. *)

From S2P Require Export Prelude.
From S2P Require Export Str.
From S2P Require Export Text.
From S2P Require Export RamFs.
From S2P Require Export Exfat.
From S2P Require Export Mounts.
From S2P Require Export Hv.
From S2P Require Export Shell.

#[local] Existing Instance Hv.VmState_eq_dec.

Definition LS_BUF_CAP : nat := 32.

(** What the console shows: bytes, and the reports of [Reports]. *)
Inductive Out : Type := Text (bs : list Z) | Report (cmd : str).

Section shell.
Context {D : Type} (read_block : D → Z → option (list Z)) (devs : list D).
(** A bound on the clusters of a directory, the feature [hypervisor], and
    where the memory of the guests lies. *)
Context (fuel : nat) (hypervisor : bool) (guest_memory_addr : Z).

Record World : Type := mk_world {
  w_ram : RamFs;
  w_mounts : list (option (MountInfo (D := D)));
  w_cb : list Z;
  w_hv : Hv.Hypervisor;
  w_out : list Out;
}.

Definition kp (w : World) (s : str) : World := mk_world (w_ram w) (w_mounts w) (w_cb w) (w_hv w) (w_out w ++ [Text (write_str s)]).
Definition kpln (w : World) (s : str) : World := kp w (s ++ [10%Z]).
Definition report (w : World) (cmd : str) : World := mk_world (w_ram w) (w_mounts w) (w_cb w) (w_hv w) (w_out w ++ [Report cmd]).
Definition set_ram (w : World) (ram : RamFs) : World := mk_world ram (w_mounts w) (w_cb w) (w_hv w) (w_out w).
Definition set_mounts (w : World) (ms : list (option MountInfo)) : World := mk_world (w_ram w) ms (w_cb w) (w_hv w) (w_out w).
Definition set_cb (w : World) (cb : list Z) : World := mk_world (w_ram w) (w_mounts w) cb (w_hv w) (w_out w).
Definition set_hv (w : World) (hv : Hv.Hypervisor) : World := mk_world (w_ram w) (w_mounts w) (w_cb w) hv (w_out w).

(** ** The prompt *)

Definition shell_prompt (w : World) (st : ShellState) : exec World := c ← cwd_str st; Done (kp w (c ++ bytes " $ ")).

(** [for i in 0..n { kp!("{}", buf[i] as char) }] *)
Definition print_bytes (w : World) (buf : list Z) (n : nat) : exec World :=
  bs ← prefix_exec buf n; Done (fold_left (λ w b, kp w (char_bytes b)) bs w).

Definition redraw_input (w : World) (st : ShellState) (buf : list Z) (pos cend : nat) : exec World :=
  c ← cwd_str st;
  let w := kp w ([13; 27]%Z ++ bytes "[K" ++ c ++ bytes " $ ") in
  w ← print_bytes w buf cend;
  if pos <? cend then print_bytes (kp w ([13%Z] ++ c ++ bytes " $ ")) buf pos else Done w.

(** ** Files *)

Definition cmd_cd (w : World) (st : ShellState) (path_arg : str) : exec (World * ShellState) :=
  let target := if bool_decide (path_arg = []) then [SLASH] else path_arg in
  let no_dir := bytes "cd: '" ++ target ++ bytes "': No such directory" in
  p ← normalize_path st target;
  match p with
  | None => Done (kpln w no_dir, st)
  | Some p =>
      path ← as_str p;
      '(t, cb) ← path_file_type read_block fuel (w_ram w) (w_mounts w) path (w_cb w);
      let w := set_cb w cb in
      match t with
      | Some Directory =>
          '(ok, st) ← set_cwd st path;
          Done (if ok : bool then w else kpln w (bytes "cd: '" ++ target ++ bytes "': path too long"), st)
      | Some File => Done (kpln w (bytes "cd: '" ++ target ++ bytes "': Not a directory"), st)
      | None => Done (kpln w no_dir, st)
      end
  end.

(** The operand of [mkdir], [touch] and a redirection: the directory it names
    and the last name. *)
Definition parent_child (w : World) (st : ShellState) (name : str) : exec (option (nat * str)) :=
  v ← split_parent_child st name;
  match v with
  | None => Done None
  | Some (parent_path, child_name) =>
      path ← as_str parent_path;
      r ← resolve_path (w_ram w) path;
      Done (match r with inr parent => Some (parent, child_name) | inl _ => None end)
  end.

Definition cmd_mkdir (w : World) (st : ShellState) (name : str) : exec World :=
  if bool_decide (name = []) then Done (kpln w (bytes "mkdir: missing operand")) else
  let failed := bytes "mkdir: cannot create directory '" ++ name ++ bytes "'" in
  v ← parent_child w st name;
  match v with
  | None => Done (kpln w failed)
  | Some (parent, child_name) =>
      '(r, ram) ← create_dir (w_ram w) parent child_name;
      let w := set_ram w ram in
      Done (match r with inr _ => w | inl _ => kpln w failed end)
  end.

Definition cmd_touch (w : World) (st : ShellState) (name : str) : exec World :=
  if bool_decide (name = []) then Done (kpln w (bytes "touch: missing operand")) else
  let failed := bytes "touch: cannot create file '" ++ name ++ bytes "'" in
  v ← parent_child w st name;
  match v with
  | None => Done (kpln w failed)
  | Some (parent, child_name) =>
      '(r, ram) ← create_file (w_ram w) parent child_name;
      let w := set_ram w ram in
      Done (match r with inr _ => w | inl _ => kpln w failed end)
  end.

(** The file of a redirection, created when it is not there. *)
Definition open_or_create (w : World) (parent : nat) (child_name : str) : exec (option nat * World) :=
  r ← RamFs.lookup (w_ram w) parent child_name;
  match r with
  | inr n => Done (Some n, w)
  | inl _ =>
      '(r, ram) ← create_file (w_ram w) parent child_name;
      Done (match r with inr n => Some n | inl _ => None end, set_ram w ram)
  end.

Definition cmd_echo (w : World) (st : ShellState) (args : str) : exec World :=
  match find_byte 62 args with
  | Some redir_pos =>
      let text := trim (take redir_pos args) in
      let filename := trim (drop (redir_pos + 1) args) in
      if bool_decide (filename = []) then Done (kpln w (bytes "echo: missing filename after '>'")) else
      let failed := bytes "echo: cannot create '" ++ filename ++ bytes "'" in
      v ← parent_child w st filename;
      match v with
      | None => Done (kpln w failed)
      | Some (parent, child_name) =>
          '(node, w) ← open_or_create w parent child_name;
          match node with
          | None => Done (kpln w failed)
          | Some node => '(_, ram) ← write_file (w_ram w) node text; Done (set_ram w ram)
          end
      end
  | None => Done (kpln w args)
  end.

(** What [cat] prints of the [n] bytes it read. *)
Definition print_contents (w : World) (buf : list Z) (n : nat) : exec World :=
  bs ← prefix_exec buf n;
  Done (if utf8_valid bs then kpln w bs else kpln w (bytes "(binary, " ++ dec (Z.of_nat n) ++ bytes " bytes)")).

Definition cmd_cat (w : World) (st : ShellState) (path_arg : str) : exec World :=
  if bool_decide (path_arg = []) then Done (kpln w (bytes "cat: missing file operand")) else
  let no_file := bytes "cat: '" ++ path_arg ++ bytes "': No such file" in
  p ← normalize_path st path_arg;
  match p with
  | None => Done (kpln w no_file)
  | Some p =>
      path ← as_str p;
      r ← resolve_path (w_ram w) path;
      match r with
      | inr node =>
          t ← node_file_type (w_ram w) node;
          if negb (bool_decide (t = inr File)) then Done (kpln w (bytes "cat: '" ++ path_arg ++ bytes "': Is a directory")) else
          '(r, buf) ← read_file (w_ram w) node (replicate FILE_MAX_SIZE 0%Z);
          let n := match r with inr n => n | inl _ => 0 end in
          if 0 <? n then print_contents w buf n else Done (kpln w (bytes "(empty file)"))
      | inl _ =>
          '(n, buf, cb) ← read_mount_file read_block fuel (w_mounts w) path (replicate 4096 0%Z) (w_cb w);
          let w := set_cb w cb in
          if 0 <? n then print_contents w buf n else Done (kpln w no_file)
      end
  end.

(** ** Listings *)

(** The entries of a node of the RAM file system, with the mount points below
    its path; those of a directory of a mounted volume. *)
Definition list_node (w : World) (path : str) (node : nat) : exec (nat * list DirEntry) :=
  '(_, es) ← RamFs.list_dir (w_ram w) node;
  '(n, ms) ← list_mount_children (w_mounts w) path;
  Done (length es + n, es ++ ms).
Definition list_volume (w : World) (path : str) : exec (option nat * list DirEntry * World) :=
  '(r, es, cb) ← list_path read_block fuel (w_mounts w) path (w_cb w); Done (r, es, set_cb w cb).

Definition list_directory_entries (w : World) (path : str) : exec (option nat * list DirEntry * World) :=
  r ← resolve_path (w_ram w) path;
  match r with
  | inr node => '(n, es) ← list_node w path node; Done (Some n, es, w)
  | inl _ => list_volume w path
  end.

(** The entries kept by [push_dir_entry], and their count. *)
Definition push_dir_entry (acc : list DirEntry * nat) (e : DirEntry) : list DirEntry * nat :=
  (if acc.2 <? LS_BUF_CAP then acc.1 ++ [e] else acc.1, S acc.2).

Fixpoint print_each (w : World) (file_suffix dir_suffix : str) (es : list DirEntry) : exec World :=
  match es with
  | [] => Done w
  | e :: es =>
      n ← name_str e;
      print_each (kp w (n ++ match de_file_type e with Directory => dir_suffix | File => file_suffix end)) file_suffix dir_suffix es
  end.

Definition print_dir_entries (w : World) (entries : list DirEntry) (count : nat) : exec World :=
  let shown := Nat.min count LS_BUF_CAP in
  w ← print_each w (bytes "  ") (bytes "/  ") (take shown entries);
  let w := if shown <? count then kp w (bytes "... ") else w in
  Done (if 0 <? count then kpln w [] else w).

Definition cmd_ls (w : World) (st : ShellState) (path_arg : str) : exec World :=
  display_path ← (if bool_decide (path_arg = []) then cwd_str st else Done path_arg);
  let missing := bytes "ls: '" ++ display_path ++ bytes "': No such file or directory" in
  p ← normalize_path st path_arg;
  match p with
  | None => Done (kpln w missing)
  | Some p =>
      path ← as_str p;
      r ← resolve_path (w_ram w) path;
      match r with
      | inr n =>
          t ← node_file_type (w_ram w) n;
          if bool_decide (t = inr File) then
            nm ← node_name (w_ram w) n; Done (kpln w (match nm with inr s => s | inl _ => path end))
          else
            '(_, es) ← list_node w path n;
            let '(entries, count) := fold_left push_dir_entry es ([], 0) in
            print_dir_entries w entries count
      | inl _ =>
          '(r, es, w) ← list_volume w path;
          match r with
          | Some _ => let '(entries, count) := fold_left push_dir_entry es ([], 0) in print_dir_entries w entries count
          | None => Done (kpln w missing)
          end
      end
  end.

(** ** Mounts and guests *)

(** "-u" and the messages of the errors. *)
Definition mount_message (e : MountError) : str :=
  match e with
  | InvalidSource => bytes "invalid source device"
  | InvalidTarget => bytes "invalid mount target"
  | TargetBusy => bytes "target is already mounted"
  | NoBlockDevice => bytes "block device not found"
  | UnsupportedFs => bytes "unsupported or invalid filesystem"
  | IoTimeout => bytes "block device I/O timed out"
  | MountNoSpace => bytes "mount table is full"
  end.

Definition mount_usage (w : World) : World := kpln w (bytes "usage: mount <source> <target>").

(** The first three words are kept; more are noticed. *)
Definition cmd_mount (w : World) (args : str) : exec World :=
  let all := split_whitespace args in
  let too_many := 3 <? length all in
  match take 3 all with
  | [] =>
      let w := kpln w (bytes "  / on / type ramfs") in
      ms ← list_mounts (w_mounts w);
      Done (fold_left (λ w '(source, path, ty), kpln w (bytes "  " ++ source ++ bytes " on " ++ path ++ bytes " type " ++ ty)) ms w)
  | src :: rest =>
      if bool_decide (src = bytes "-u") then
        match rest with
        | [] => Done (kpln w (bytes "mount: missing path after -u"))
        | [path] =>
            if too_many then Done (kpln w (bytes "usage: mount -u <target>")) else
            '(ok, ms) ← unmount (w_mounts w) path;
            let w := set_mounts w ms in
            Done (if ok : bool then kpln w (bytes "unmounted " ++ path) else kpln w (bytes "mount: '" ++ path ++ bytes "' not found"))
        | _ => Done (kpln w (bytes "usage: mount -u <target>"))
        end
      else
        match rest with
        | [] => Done (mount_usage (kpln w (bytes "mount: missing target")))
        | [dst] =>
            if too_many then Done (mount_usage w) else
            '(r, ms) ← mount_fs read_block devs (w_ram w) (w_mounts w) src dst;
            let w := set_mounts w ms in
            Done (match r with
              | inr _ => kpln w (bytes "mounted " ++ src ++ bytes " at " ++ dst)
              | inl err => kpln w (bytes "mount: failed to mount " ++ src ++ bytes " at " ++ dst ++ bytes ": " ++ mount_message err)
              end)
        | _ => Done (mount_usage w)
        end
  end.

Definition hv_message (e : Hv.HvError) : str :=
  match e with
  | Hv.ErrDisabled => bytes "hypervisor disabled"
  | Hv.ErrUnsupported => bytes "hypervisor unsupported"
  | Hv.NoSpace => bytes "no VM slot available"
  | Hv.AlreadyExists => bytes "VM already exists"
  | Hv.NotFound => bytes "VM not found"
  | Hv.InvalidName => bytes "invalid VM name"
  | Hv.ImageTooLarge => bytes "guest image too large"
  | Hv.NotReady => bytes "VM not ready"
  end.
Definition vm_state_str (s : Hv.VmState) : str :=
  match s with
  | Hv.VmEmpty => bytes "empty"
  | Hv.VmCreated => bytes "created"
  | Hv.VmReady => bytes "ready"
  | Hv.VmRunning => bytes "running"
  | Hv.VmStopped => bytes "stopped"
  | Hv.VmFaulted => bytes "faulted"
  end.

(** One line of [vm list]. *)
Definition print_vm (w : World) (vm : Hv.VmInfo) : exec World :=
  n ← Hv.name_str vm;
  Done (kpln w (bytes "  " ++ n ++ bytes "#" ++ dec (Hv.vm_id vm) ++ bytes " state=" ++ vm_state_str (Hv.vm_state vm)
    ++ bytes " vcpus=" ++ dec (Hv.vm_vcpu_count vm) ++ bytes " guest=" ++ hex (Hv.vm_guest_base vm) ++ bytes "+" ++ hex (Hv.vm_guest_size vm)
    ++ bytes " host=" ++ hex (Hv.vm_host_base vm) ++ bytes " entry=" ++ hex (Hv.vm_entry vm))).
Fixpoint print_vms (w : World) (vms : list (option Hv.VmInfo)) : exec World :=
  match vms with
  | [] => Done w
  | None :: vms => print_vms w vms
  | Some vm :: vms => w ← print_vm w vm; print_vms w vms
  end.

Definition vm_failed (w : World) (err : Hv.HvError) : World := kpln w (bytes "vm: " ++ hv_message err).

Definition cmd_vm (w : World) (args : str) : exec World :=
  let '(subcmd, subargs) :=
    match find_byte 32 args with
    | Some pos => (take pos args, trim (drop (pos + 1) args))
    | None => (args, [])
    end in
  if bool_decide (subcmd = []) || bool_decide (subcmd = bytes "status") then Done (report w (bytes "vm status")) else
  if bool_decide (subcmd = bytes "create") then
    if bool_decide (subargs = []) then Done (kpln w (bytes "vm create <name>")) else
    '(r, hv) ← Hv.create_vm hypervisor subargs (w_hv w);
    let w := set_hv w hv in
    Done (match r with
      | inr id => kpln w (bytes "VM '" ++ subargs ++ bytes "' created id=" ++ dec id)
      | inl err => vm_failed w err
      end)
  else if bool_decide (subcmd = bytes "list") then
    let '(vms, count) := Hv.list_vms (w_hv w) in
    print_vms (kpln w (bytes "VMs: " ++ dec (Z.of_nat count))) vms
  else if bool_decide (subcmd = bytes "load-demo") then
    if bool_decide (subargs = []) then Done (kpln w (bytes "vm load-demo <name>")) else
    '(r, hv) ← Hv.load_demo hypervisor guest_memory_addr subargs (w_hv w);
    let w := set_hv w hv in
    Done (match r with inr _ => kpln w (bytes "VM '" ++ subargs ++ bytes "' demo guest ready") | inl err => vm_failed w err end)
  else if bool_decide (subcmd = bytes "run") then
    if bool_decide (subargs = []) then Done (kpln w (bytes "vm run <name>")) else
    r ← Hv.find_vm subargs (w_hv w);
    Done (match r with
      | inr vm =>
          if negb (bool_decide (Hv.vm_state vm = Hv.VmReady))
          then kpln w (bytes "vm: '" ++ subargs ++ bytes "' is " ++ vm_state_str (Hv.vm_state vm))
          else kpln w (bytes "vm: guest execution is not wired to a loader yet")
      | inl err => vm_failed w err
      end)
  else if bool_decide (subcmd = bytes "stop") then Done (kpln w (bytes "vm: stop is not wired yet"))
  else Done (kpln w (bytes "vm: unknown subcommand '" ++ subcmd ++ bytes "'")).

(** ** Completion *)

Definition COMMANDS : list str :=
  bytes <$> ["help"; "version"; "ver"; "clear"; "uptime"; "ls"; "cd"; "cat"; "mkdir"; "touch"; "echo"; "vm"; "mount"; "mem"; "top"; "cpuinfo";
    "smp"; "tasks"; "ps"; "drivers"; "term"; "gpio"; "irq"]%string.

(** The prompt and the line again, after a list of candidates. *)
Definition show_line (w : World) (st : ShellState) (ed : Editor) : exec World :=
  w ← shell_prompt (kpln w []) st; print_bytes w (input_buf ed) (cursor_end ed).

Definition complete_command (w : World) (st : ShellState) (ed : Editor) : exec (World * Editor) :=
  bs ← prefix_exec (input_buf ed) (cursor_end ed);
  let input := utf8_or [] bs in
  match filter (λ cmd, starts_with cmd input = true) COMMANDS with
  | [] => Done (w, ed)
  | [cmd] =>
      let len := Nat.min (length cmd) 127 in
      buf ← copy_prefix (input_buf ed) cmd len;
      if len =? length cmd then Done (w, mk_editor buf len len (esc_state ed)) else Stuck
  | cmds =>
      let w := fold_left (λ w cmd, kp w (cmd ++ [32%Z])) cmds (kpln w []) in
      w ← show_line w st ed; Done (w, ed)
  end.

(** What the closure [collect] gathers. *)
Record Found : Type := mk_found { found_name : list Z; found_len : nat; found_is_dir : bool; match_count : nat }.
Definition found_none : Found := mk_found (replicate 64 0%Z) 0 false 0.

Definition collect (name_prefix : str) (f : Found) (entry : DirEntry) : exec Found :=
  name ← name_str entry;
  if starts_with name name_prefix then
    if match_count f =? 0 then
      let len := Nat.min (length name) 63 in
      if len =? length name then
        buf ← copy_prefix (found_name f) name len;
        Done (mk_found buf len (bool_decide (de_file_type entry = Directory)) (S (match_count f)))
      else Stuck
    else Done (mk_found (found_name f) (found_len f) (found_is_dir f) (S (match_count f)))
  else Done f.

Fixpoint collect_all (name_prefix : str) (f : Found) (es : list DirEntry) : exec Found :=
  match es with [] => Done f | e :: es => f ← collect name_prefix f e; collect_all name_prefix f es end.

(** The candidates that begin with the prefix, shown. *)
Fixpoint show_candidates (w : World) (name_prefix : str) (es : list DirEntry) : exec World :=
  match es with
  | [] => Done w
  | e :: es =>
      name ← name_str e;
      let w := if starts_with name name_prefix
               then kp w (name ++ match de_file_type e with Directory => bytes "/ " | File => bytes " " end) else w in
      show_candidates w name_prefix es
  end.

(** The only match replaces the line from [replace_pos] on. *)
Definition replace_name (ed : Editor) (f : Found) (replace_pos : nat) : exec Editor :=
  let total_len := found_len f + (if found_is_dir f then 1 else 0) in
  if 128 <? replace_pos then Stuck else
  let copy_len := Nat.min total_len (128 - replace_pos) in
  if 0 <? copy_len then
    bs ← prefix_exec (found_name f) (found_len f);
    let name_slice := utf8_or [] bs in
    buf ← put_slice (input_buf ed) replace_pos (take copy_len name_slice);
    buf ← (if found_is_dir f && (found_len f <? copy_len) then put_exec buf (replace_pos + found_len f) SLASH else Done buf);
    Done (mk_editor buf (replace_pos + copy_len) (replace_pos + copy_len) (esc_state ed))
  else Done ed.

Definition complete_filename (w : World) (st : ShellState) (ed : Editor) (prefix_start prefix_len : nat) : exec (World * Editor) :=
  bs ← slice_exec (input_buf ed) prefix_start prefix_len;
  let '(dir_part, name_prefix, replace_start) := split_completion_path (utf8_or [] bs) in
  p ← normalize_path st dir_part;
  match p with
  | None => Done (w, ed)
  | Some p =>
      dir ← as_str p;
      '(_, es, w) ← list_directory_entries w dir;
      f ← collect_all name_prefix found_none es;
      if match_count f =? 0 then Done (w, ed) else
      if match_count f =? 1 then ed ← replace_name ed f (prefix_start + replace_start); Done (w, ed) else
      '(_, es, w) ← list_directory_entries (kpln w []) dir;
      w ← show_candidates w name_prefix es;
      w ← show_line w st ed;
      Done (w, ed)
  end.

(** The byte after the last space before the cursor. *)
Fixpoint arg_start (buf : list Z) (i n : nat) (found : option nat) : exec (option nat) :=
  match n with
  | O => Done found
  | S n => x ← get_exec (buf !! i); arg_start buf (S i) n (if (x =? 32)%Z then Some (S i) else found)
  end.

Definition handle_tab_completion (w : World) (st : ShellState) (ed : Editor) : exec (World * Editor) :=
  if cursor_end ed =? 0 then Done (w, ed) else
  start ← arg_start (input_buf ed) 0 (cursor_pos ed) None;
  '(w, ed) ← match start with
    | Some start => if start <=? cursor_pos ed then complete_filename w st ed start (cursor_pos ed - start) else Done (w, ed)
    | None => complete_command w st ed
    end;
  w ← redraw_input w st (input_buf ed) (cursor_pos ed) (cursor_end ed);
  Done (w, ed).

(** ** The loop *)

Definition REPORTS : list str :=
  bytes <$> ["help"; "version"; "ver"; "uptime"; "mem"; "cpuinfo"; "smp"; "tasks"; "ps"; "top"; "drivers"; "term"; "gpio"; "irq"]%string.

Definition keep (st : ShellState) (w : exec World) : exec (World * ShellState) := w ← w; Done (w, st).

Definition execute_command (w : World) (st : ShellState) (input : str) : exec (World * ShellState) :=
  if bool_decide (input = []) then Done (w, st) else
  let '(cmd, args) :=
    match find_byte 32 input with
    | Some pos => (take pos input, trim (drop (pos + 1) input))
    | None => (input, [])
    end in
  let named (s : string) := bool_decide (cmd = bytes s) in
  if bool_decide (cmd ∈ REPORTS) then Done (report w cmd, st) else
  if named "clear" then Done (kp w ([27%Z] ++ bytes "[2J" ++ [27%Z] ++ bytes "[H"), st) else
  if named "ls" then keep st (cmd_ls w st args) else
  if named "cd" then cmd_cd w st args else
  if named "cat" then keep st (cmd_cat w st args) else
  if named "mkdir" then keep st (cmd_mkdir w st args) else
  if named "touch" then keep st (cmd_touch w st args) else
  if named "echo" then keep st (cmd_echo w st args) else
  if named "vm" then keep st (cmd_vm w args) else
  if named "mount" then keep st (cmd_mount w args) else
  Done (kpln w (cmd ++ bytes ": command not found"), st).

(** The line was entered: it is remembered, trimmed and executed. *)
Definition enter_line (w : World) (st : ShellState) (ed : Editor) : exec (World * ShellState * Editor) :=
  let w := kpln w [] in
  '(w, st, ed) ← (if 0 <? cursor_end ed then
      '(cmd_str, ed) ← take_line ed;
      st ← remember_cmd st cmd_str;
      '(w, st) ← execute_command w st (trim cmd_str);
      Done (w, st, ed)
    else Done (w, st, ed));
  w ← shell_prompt w st;
  Done (w, st, mk_editor (input_buf ed) 0 0 (esc_state ed)).

(** One received byte. *)
Definition shell_step (w : World) (st : ShellState) (ed : Editor) (c : Z) : exec (World * ShellState * Editor) :=
  '(eff, ed) ← edit_key st ed c;
  match eff with
  | NoEffect => Done (w, st, ed)
  | Redraw => w ← redraw_input w st (input_buf ed) (cursor_pos ed) (cursor_end ed); Done (w, st, ed)
  | Enter => enter_line w st ed
  | Complete => '(w, ed) ← handle_tab_completion w st ed; Done (w, st, ed)
  end.

Fixpoint shell_run (w : World) (st : ShellState) (ed : Editor) (input : list Z) : exec (World * ShellState * Editor) :=
  match input with
  | [] => Done (w, st, ed)
  | c :: input => '(w, st, ed) ← shell_step w st ed c; shell_run w st ed input
  end.

(** The banner and the first prompt. *)
Definition shell_start (w : World) : exec World :=
  let line := bytes "===================================" in
  let w := kpln (kpln (kpln (kpln w line) (bytes " OpenIon Shell v0.1.0 ")) (bytes " Type 'help' for commands ")) line in
  shell_prompt w shell_new.
End shell.
