(* ===== verification/ShellSafe.v ===== *)
(** * The shell does not panic: lemmas

    Every command of the shell, over a well-formed RAM file system, mount table
    and table of guests, with sound volumes mounted and to mount, returns and
    keeps them well-formed. *)

From S2P Require Export Prelude.
From S2P Require Export Str.
From S2P Require Export Text.
From S2P Require Export RamFsProps.
From S2P Require Export MountProps.
From S2P Require Export HvProps.
From S2P Require Export ShellEdit.
From S2P Require Export ShellCmds.

#[local] Opaque NAME_MAX NODE_POOL_CAP FILE_MAX_SIZE DIR_MAX_ENTRIES.

(** ** Computations that return *)

Definition safe {A} (m : exec A) (P : A → Prop) : Prop := ∃ a, m = Done a ∧ P a.

Lemma safe_ret {A} (a : A) (P : A → Prop) : P a → safe (Done a) P.
Proof. intros H. by exists a. Qed.

Lemma safe_bind {A B} (m : exec A) (f : A → exec B) (P : A → Prop) (Q : B → Prop) : safe m P → (∀ a, P a → safe (f a) Q) → safe (m ≫= f) Q.
Proof. intros (a&->&Ha) Hf. cbn [mbind exec_bind]. by apply Hf. Qed.

Lemma safe_mono {A} (m : exec A) (P Q : A → Prop) : safe m P → (∀ a, P a → Q a) → safe m Q.
Proof. intros (a&->&Ha) Hq. exists a. auto. Qed.

Lemma safe_eq {A} (m : exec A) (a : A) : m = Done a → safe m (λ x, x = a).
Proof. intros ->. by apply safe_ret. Qed.

(** The next step of the computation is [H]. *)
Ltac step H := eapply safe_bind; [exact H|].

Section safe.
Context {D : Type} (read_block : D → Z → option (list Z)) (devs : list D).
Context (fuel : nat) (hypervisor : bool) (guest_memory_addr : Z).

Abbreviation World := (World (D := D)).

(** At most [k] nodes were taken. *)
Record ram_ok (k : Z) (w : World) : Prop := {
  wo_ram : fs_wf (w_ram w) ∧ rooted (w_ram w);
  wo_count : (node_count (w_ram w) <= k)%Z;
}.

Record world_ok (k : Z) (w : World) : Prop := {
  wo_fs :> ram_ok k w;
  wo_mounts : mounts_wf read_block (w_mounts w) ∧ volumes_sound read_block fuel (w_mounts w);
  wo_cb : buf_ok (w_cb w);
  wo_hv : ∃ vms, hv_wf (w_hv w) vms;
}.

Lemma ram_mono (k k' : Z) (w : World) : ram_ok k w → (k <= k')%Z → ram_ok k' w.
Proof. intros [H1 H2] Hk. split; [done|lia]. Qed.

Lemma ok_mono (k k' : Z) (w : World) : world_ok k w → (k <= k')%Z → world_ok k' w.
Proof. intros [H1 H2 H3 H4] Hk. split; try done. by eapply ram_mono. Qed.

(** Nothing but the console or the cluster buffer changed. *)
Definition same_but_out (w w' : World) : Prop := w_ram w' = w_ram w ∧ w_mounts w' = w_mounts w ∧ w_hv w' = w_hv w ∧ (buf_ok (w_cb w) → buf_ok (w_cb w')).

Lemma same_ok (k : Z) (w w' : World) : world_ok k w → same_but_out w w' → world_ok k w'.
Proof. intros [[H1 H2] H3 H4 H5] (E1&E2&E3&E4). split; [split|..]; rewrite ?E1, ?E2, ?E3; auto. Qed.

Lemma same_refl (w : World) : same_but_out w w.
Proof. done. Qed.
Lemma same_trans (w1 w2 w3 : World) : same_but_out w1 w2 → same_but_out w2 w3 → same_but_out w1 w3.
Proof. intros (?&?&?&?) (?&?&?&?). split_and!; [congruence..|auto]. Qed.
Lemma same_kp (w : World) (s : str) : same_but_out w (kp w s).
Proof. done. Qed.

Lemma same_folds {B} (f : World → B → World) (l : list B) : (∀ w b, same_but_out w (f w b)) → ∀ w, same_but_out w (fold_left f l w).
Proof. intros Hf. induction l as [|b l IH]; intros w; cbn [fold_left]; [done|]. eapply same_trans; [apply Hf|apply IH]. Qed.

Lemma same_fold (l : list Z) : ∀ w : World, same_but_out w (fold_left (λ w b, kp w (char_bytes b)) l w).
Proof. by apply same_folds. Qed.

Lemma ok_kpln (k : Z) (w : World) (s : str) : world_ok k w → world_ok k (kpln w s).
Proof. intros Hok. by apply (same_ok k w). Qed.
Lemma same_set_cb (w : World) (cb : list Z) : buf_ok cb → same_but_out w (set_cb w cb).
Proof. done. Qed.
Lemma ram_set_ram (k : Z) (w : World) (ram : RamFs) : ram_ok k w → fs_wf ram → rooted ram → (node_count ram <= node_count (w_ram w) + 1)%Z →
  ram_ok (k + 1) (set_ram w ram).
Proof. intros [? ?] ? ? ?. split; [done|cbn; lia]. Qed.
Lemma ok_set_ram (k : Z) (w : World) (ram : RamFs) : world_ok k w → fs_wf ram → rooted ram → (node_count ram <= node_count (w_ram w) + 1)%Z →
  world_ok (k + 1) (set_ram w ram).
Proof. intros [? ? ? ?] ? ? ?. split; try done. by apply ram_set_ram. Qed.

(** ** The mounted volumes *)

Lemma file_type_safe (w : World) (k : Z) (path : str) : world_ok k w →
  safe (path_file_type read_block fuel (w_ram w) (w_mounts w) path (w_cb w)) (λ r, buf_ok r.2).
Proof.
  intros Hok. destruct (wo_ram _ _ Hok) as [Hwf [Hr _]], (wo_mounts _ _ Hok) as [Hm Hv]. unfold path_file_type.
  destruct (resolve_path_spec (w_ram w) path Hwf Hr) as (r&->&_). cbn [mbind exec_bind]. destruct r as [e|node].
  - destruct (mount_file_type_sound read_block fuel (w_mounts w) path (w_cb w) Hm Hv (wo_cb _ _ Hok)) as (r&cb&->&Hcb). by apply safe_ret.
  - unfold node_file_type. rewrite node_spec by done. apply safe_ret, Hok.
Qed.

(** ** Names in listings *)

Lemma node_entry_fits (v : Vnode) : node_wf v → entry_fits (entry_of v).
Proof.
  intros Hv. exists (raw_name v). split; [by apply entry_name|]. destruct Hv as [_ Hv]. destruct v as [f|d]; cbn [raw_name]; destruct Hv as (Hl&Hn&_);
    rewrite length_take; change NAME_MAX with 32 in *; lia.
Qed.

Lemma list_dir_fits (ram : RamFs) (node : nat) : fs_wf ram → safe (RamFs.list_dir ram node) (λ r, Forall entry_fits r.2).
Proof.
  intros Hwf. rewrite list_dir_spec by done. apply safe_ret. destruct (at_node ram node) as [[f|d]|]; cbn [snd]; try constructor.
  apply Forall_forall. intros e (o&_&Ho)%list_elem_of_omap. destruct o as [c|]; [|done]. cbn in Ho.
  destruct (at_node ram c) as [v|] eqn:Hc; [|done]. cbn in Ho. injection Ho as <-. eapply node_entry_fits, (fw_node _ Hwf c v Hc).
Qed.

Lemma list_node_safe (w : World) (k : Z) (path : str) (node : nat) : world_ok k w → safe (list_node w path node) (λ r, Forall entry_fits r.2).
Proof.
  intros Hok. unfold list_node. step (list_dir_fits (w_ram w) node (proj1 (wo_ram _ _ Hok))). intros [r es] Hes. cbn [snd] in Hes.
  unfold list_mount_children. destruct (mount_children_spec read_block (w_mounts w) path (mw_slot _ _ (proj1 (wo_mounts _ _ Hok)))) as (ds&->&Hds).
  cbn [mbind exec_bind]. apply safe_ret. cbn [snd]. by apply Forall_app.
Qed.

Lemma list_volume_safe (w : World) (k : Z) (path : str) : world_ok k w →
  safe (list_volume read_block fuel w path) (λ r, Forall entry_fits r.1.2 ∧ same_but_out w r.2).
Proof.
  intros Hok. destruct (wo_mounts _ _ Hok) as [Hm Hv]. unfold list_volume.
  destruct (list_path_sound read_block fuel (w_mounts w) path (w_cb w) Hm Hv (wo_cb _ _ Hok)) as (r&ds&cb&->&Hds&Hcb). apply safe_ret.
  split; [done|by apply same_set_cb].
Qed.

Lemma list_entries_safe (w : World) (k : Z) (path : str) : world_ok k w →
  safe (list_directory_entries read_block fuel w path) (λ r, Forall entry_fits r.1.2 ∧ same_but_out w r.2).
Proof.
  intros Hok. destruct (wo_ram _ _ Hok) as [Hwf [Hr _]]. unfold list_directory_entries.
  destruct (resolve_path_spec (w_ram w) path Hwf Hr) as (r&->&_). cbn [mbind exec_bind]. destruct r as [e|node].
  - by eapply list_volume_safe.
  - step (list_node_safe w k path node Hok). intros [n es] Hes. by apply safe_ret.
Qed.

Lemma print_each_safe (es : list DirEntry) (s1 s2 : str) : Forall entry_fits es → ∀ w : World, safe (print_each w s1 s2 es) (same_but_out w).
Proof.
  induction 1 as [|e es (n&Hn&_) _ IH]; intros w; cbn [print_each]; [by apply safe_ret|]. rewrite Hn. cbn [mbind exec_bind].
  eapply safe_mono; [apply IH|]. intros w' Hw'. by eapply same_trans; [apply same_kp|].
Qed.

Lemma push_fits (es : list DirEntry) : Forall entry_fits es → ∀ acc, Forall entry_fits acc.1 → Forall entry_fits (fold_left push_dir_entry es acc).1.
Proof.
  induction 1 as [|e es He _ IH]; intros acc Hacc; cbn [fold_left]; [done|]. apply IH. unfold push_dir_entry. destruct (_ <? _); [|done].
  apply Forall_app. by split; [|apply Forall_singleton].
Qed.

Lemma print_dir_safe (w : World) (es : list DirEntry) : Forall entry_fits es →
  safe (let '(entries, count) := fold_left push_dir_entry es ([], 0) in print_dir_entries w entries count) (same_but_out w).
Proof.
  intros Hes. pose proof (push_fits es Hes ([], 0) (Forall_nil_2 _)) as Hp. destruct (fold_left push_dir_entry es ([], 0)) as [entries count].
  unfold print_dir_entries. step (print_each_safe (take (Nat.min count LS_BUF_CAP) entries) (bytes "  ") (bytes "/  ") (Forall_take _ _ _ Hp) w).
  intros w' Hw'. apply safe_ret. by repeat match goal with |- context [if ?b then _ else _] => destruct b end.
Qed.

(** ** Operands *)

Lemma resolve_safe (w : World) (k : Z) (path : str) : ram_ok k w →
  safe (resolve_path (w_ram w) path) (λ r, ∀ j, r = inr j ↔ walk (w_ram w) 0 (components path) = Some j).
Proof. intros Hok. destruct (wo_ram _ _ Hok) as [Hwf [Hr _]]. apply (resolve_path_spec (w_ram w) path Hwf Hr). Qed.

(** What a normalised path gives. *)
Lemma normalize_safe (st : ShellState) (cs : list str) (path : str) : shell_wf st cs → utf8_valid path = true →
  safe (normalize_path st path) (λ r, match r with
    | Some p => ∃ ds, holds (p_buf p) (p_len p) ds ∧ as_str p = Done (render ds) ∧ ds = fold_left pushed (split_on SLASH path) (base cs path)
    | None => ¬ fits (base cs path) (split_on SLASH path) end).
Proof.
  intros Hw Hv. destruct (normalize_path_spec st cs path Hw Hv) as (r&Hr&Hspec). exists r. split; [done|]. destruct r as [p|]; [|done].
  eexists. split; [apply Hspec|]. split; [|done]. apply as_str_spec, Hspec.
Qed.

Lemma parent_child_safe (w : World) (k : Z) (st : ShellState) (cs : list str) (name : str) : world_ok k w → shell_wf st cs → utf8_valid name = true →
  safe (parent_child w st name) (λ r, match r with Some (_, child) => utf8_valid child = true | None => True end).
Proof.
  intros Hok Hw Hv. unfold parent_child. destruct (split_parent_child_spec st cs name Hw Hv) as (r&->&Hr). cbn [mbind exec_bind].
  destruct r as [[p child]|]; [|by apply safe_ret]. destruct Hr as (->&_&Hh&_). rewrite (as_str_spec _ _ Hh). cbn [mbind exec_bind].
  match goal with |- context [resolve_path _ ?p] => step (resolve_safe w k p Hok) end. intros [e|parent] _; apply safe_ret; [done|].
  by apply parent_valid.
Qed.

(** ** File commands *)

(** What a command keeps: at most one node is taken. *)
Definition cmd_ok (k : Z) (r : World) : Prop := world_ok (k + 1) r.

Lemma ok_cmd (k : Z) (w : World) : world_ok k w → cmd_ok k w.
Proof. intros Hok. eapply ok_mono; [done|lia]. Qed.

Lemma same_cmd (k : Z) (w w' : World) : world_ok k w → same_but_out w w' → cmd_ok k w'.
Proof. intros Hok Hs. eapply ok_cmd, same_ok; eauto. Qed.

Lemma create_safe (create : RamFs → nat → str → exec ((FsError + nat) * RamFs)) (ty : FileType) (k : Z) (w : World) (parent : nat) (child : str) :
  (∀ fs dir name, fs_wf fs → utf8_valid name = true → (node_count fs < USIZE_MAX)%Z →
    ∃ r fs', create fs dir name = Done (r, fs') ∧ fs_wf fs' ∧ created fs dir name ty fs' r ∧ (node_count fs <= node_count fs' <= node_count fs + 1)%Z
      ∧ ramfs_root fs' = ramfs_root fs) →
  world_ok k w → utf8_valid child = true → (k < USIZE_MAX)%Z → safe (create (w_ram w) parent child) (λ r, cmd_ok k (set_ram w r.2)).
Proof.
  intros Hc Hok Hv Hk. destruct (wo_ram _ _ Hok) as [Hwf Hr]. pose proof (wo_count _ _ Hok) as Hn.
  destruct (Hc (w_ram w) parent child Hwf Hv ltac:(lia)) as (r&fs'&->&Hwf'&Hcr&Hcount&Hroot). apply safe_ret. cbn [snd].
  eapply ok_set_ram; [exact Hok|exact Hwf'|eapply created_rooted; eauto|lia].
Qed.

Lemma create_cmd_safe (create : RamFs → nat → str → exec ((FsError + nat) * RamFs)) (ty : FileType) (missing failed : str)
    (k : Z) (w : World) (st : ShellState) (cs : list str) (name : str) :
  (∀ fs dir name, fs_wf fs → utf8_valid name = true → (node_count fs < USIZE_MAX)%Z →
    ∃ r fs', create fs dir name = Done (r, fs') ∧ fs_wf fs' ∧ created fs dir name ty fs' r ∧ (node_count fs <= node_count fs' <= node_count fs + 1)%Z
      ∧ ramfs_root fs' = ramfs_root fs) →
  world_ok k w → shell_wf st cs → utf8_valid name = true → (k < USIZE_MAX)%Z →
  safe (if bool_decide (name = []) then Done (kpln w missing) else
    v ← parent_child w st name;
    match v with
    | None => Done (kpln w failed)
    | Some (parent, child_name) =>
        '(r, ram) ← create (w_ram w) parent child_name;
        let w := set_ram w ram in Done (match r with inr _ => w | inl _ => kpln w failed end)
    end) (cmd_ok k).
Proof.
  intros Hc Hok Hw Hv Hk. case_bool_decide; [apply safe_ret; by eapply same_cmd|].
  step (parent_child_safe w k st cs name Hok Hw Hv). intros [[parent child]|] Hch; [|apply safe_ret; by eapply same_cmd].
  step (create_safe create ty k w parent child Hc Hok Hch Hk). intros [r ram] Hram. cbn [snd] in Hram. apply safe_ret.
  destruct r; [by eapply same_ok|done].
Qed.

Lemma cmd_mkdir_safe (k : Z) (w : World) (st : ShellState) (cs : list str) (name : str) : world_ok k w → shell_wf st cs → utf8_valid name = true →
  (k < USIZE_MAX)%Z → safe (cmd_mkdir w st name) (cmd_ok k).
Proof. intros. unfold cmd_mkdir. eapply (create_cmd_safe create_dir Directory); try done. intros. by apply create_dir_spec. Qed.

Lemma cmd_touch_safe (k : Z) (w : World) (st : ShellState) (cs : list str) (name : str) : world_ok k w → shell_wf st cs → utf8_valid name = true →
  (k < USIZE_MAX)%Z → safe (cmd_touch w st name) (cmd_ok k).
Proof. intros. unfold cmd_touch. eapply (create_cmd_safe create_file File); try done. intros. by apply create_file_spec. Qed.

Lemma write_rooted (fs fs' : RamFs) (node : nat) (text : str) (r : FsError + nat) : fs_wf fs → rooted fs → write_file fs node text = Done (r, fs') → 
  fs_wf fs' ∧ rooted fs' ∧ node_count fs' = node_count fs.
Proof.
  intros Hwf [Hr0 [d Hd]] Heq. destruct (write_file_spec fs node text Hwf) as (r1&fs1&Hw&Hwf'&Hn&Hr'&Hpost). rewrite Hw in Heq. injection Heq as -> ->.
  split_and!; [done| |done]. split; [congruence|]. exists d.
  destruct (at_node fs node) as [[f|d']|] eqn:Hf; [|by destruct Hpost as [_ ->]..].
  destruct Hpost as (_&f'&_&_&_&_&_&_&Ho). rewrite Ho; [done|]. intros <-. congruence.
Qed.

Lemma write_safe (k : Z) (w : World) (node : nat) (text : str) : world_ok k w → safe (write_file (w_ram w) node text) (λ r, world_ok k (set_ram w r.2)).
Proof.
  intros Hok. destruct (wo_ram _ _ Hok) as [Hwf Hr]. destruct (write_file_spec (w_ram w) node text Hwf) as (r&fs'&Hw&_).
  destruct (write_rooted _ _ _ _ _ Hwf Hr Hw) as (Hwf'&Hr'&Hn). rewrite Hw. apply safe_ret. cbn [snd].
  destruct Hok as [[_ Hc] Hm Hb Hh]. split; try done. split; [done|]. cbn. by rewrite Hn.
Qed.

Lemma open_safe (k : Z) (w : World) (parent : nat) (child : str) : world_ok k w → utf8_valid child = true → (k < USIZE_MAX)%Z →
  safe (open_or_create w parent child) (λ r, cmd_ok k r.2).
Proof.
  intros Hok Hv Hk. unfold open_or_create. rewrite lookup_spec by apply (wo_ram _ _ Hok). cbn [mbind exec_bind].
  set (found := match at_node (w_ram w) parent with Some (VFile _) => _ | _ => _ end). destruct found as [e|n]; [|apply safe_ret; by apply ok_cmd].
  step (create_safe create_file File k w parent child (λ fs dir name, create_file_spec fs dir name) Hok Hv Hk). intros [r ram] Hram. by apply safe_ret.
Qed.

Lemma cmd_echo_safe (k : Z) (w : World) (st : ShellState) (cs : list str) (args : str) : world_ok k w → shell_wf st cs → utf8_valid args = true →
  (k < USIZE_MAX)%Z → safe (cmd_echo w st args) (cmd_ok k).
Proof.
  intros Hok Hw Hv Hk. unfold cmd_echo. destruct (find_byte 62 args) as [pos|] eqn:Hf; [|apply safe_ret; by eapply same_cmd].
  apply find_byte_Some in Hf as (a&b&->&<-&_). destruct (valid_split 62 a b ltac:(lia) Hv) as [Hva Hvb].
  rewrite Nat.add_1_r. destruct (split_at 62 a b) as [-> ->].
  case_bool_decide; [apply safe_ret; by eapply same_cmd|].
  step (parent_child_safe w k st cs (trim b) Hok Hw (trim_valid b Hvb)). intros [[parent child]|] Hch; [|apply safe_ret; by eapply same_cmd].
  step (open_safe k w parent child Hok Hch Hk). intros [[node|] w1] Hok1; cbn [snd] in Hok1; [|apply safe_ret; by eapply same_ok].
  step (write_safe (k + 1) w1 node (trim a) Hok1). intros [r ram] Hram. by apply safe_ret.
Qed.

Lemma print_contents_safe (w : World) (buf : list Z) (n : nat) : n ≤ length buf → safe (print_contents w buf n) (same_but_out w).
Proof. intros Hn. unfold print_contents. rewrite prefix_exec_Done by done. cbn [mbind exec_bind]. apply safe_ret. by destruct (utf8_valid _). Qed.

Lemma cmd_cat_safe (k : Z) (w : World) (st : ShellState) (cs : list str) (path : str) : world_ok k w → shell_wf st cs → utf8_valid path = true →
  safe (cmd_cat read_block fuel w st path) (cmd_ok k).
Proof.
  intros Hok Hw Hv. unfold cmd_cat. case_bool_decide; [apply safe_ret; by eapply same_cmd|].
  step (normalize_safe st cs path Hw Hv). intros [p|] Hp; [|apply safe_ret; by eapply same_cmd]. destruct Hp as (ds&_&->&_). cbn [mbind exec_bind].
  step (resolve_safe w k (render ds) Hok). intros [e|node] _.
  - destruct (wo_mounts _ _ Hok) as [Hm Hvs].
    destruct (read_mount_file_sound read_block fuel (w_mounts w) (render ds) (replicate 4096 0%Z) (w_cb w) Hm Hvs (wo_cb _ _ Hok)) as (n&buf&cb&->&Hn&Hcb).
    cbn [mbind exec_bind]. destruct (0 <? n); [|apply safe_ret; by eapply same_cmd].
    eapply safe_mono; [by apply print_contents_safe|]. intros w' Hw'. eapply same_cmd; [exact Hok|]. by eapply same_trans; [by apply same_set_cb|].
  - destruct (wo_ram _ _ Hok) as [Hwf _]. unfold node_file_type. rewrite node_spec by done. cbn [mbind exec_bind].
    destruct (negb _); [apply safe_ret; by eapply same_cmd|]. rewrite read_file_spec by done. cbn [mbind exec_bind].
    destruct (at_node (w_ram w) node) as [[f|d]|] eqn:Hn; [|apply safe_ret; by eapply same_cmd..].
    destruct (fw_node _ Hwf node _ Hn) as (_&_&_&Hdl&Hsz). rewrite length_replicate.
    destruct (0 <? _); [|apply safe_ret; by eapply same_cmd].
    eapply safe_mono; [apply print_contents_safe|intros w' Hw'; by eapply same_cmd].
    rewrite length_app, length_take, length_drop, length_replicate. lia.
Qed.

Lemma cmd_ls_safe (k : Z) (w : World) (st : ShellState) (cs : list str) (path : str) : world_ok k w → shell_wf st cs → utf8_valid path = true →
  safe (cmd_ls read_block fuel w st path) (cmd_ok k).
Proof.
  intros Hok Hw Hv. unfold cmd_ls. pose proof (cwd_str_spec st cs Hw) as Hcwd. rewrite Hcwd.
  eapply (safe_bind _ _ (λ _, True)); [case_bool_decide; by apply safe_ret|]. intros shown _.
  step (normalize_safe st cs path Hw Hv). intros [p|] Hp; [|apply safe_ret; by eapply same_cmd]. destruct Hp as (ds&_&->&_). cbn [mbind exec_bind].
  step (resolve_safe w k (render ds) Hok). intros [e|node] _.
  - step (list_volume_safe w k (render ds) Hok). intros [[r es] w1] [Hes Hw1]. cbn [fst snd] in *.
    destruct r; [|apply safe_ret; eapply same_cmd; [exact Hok|]; by eapply same_trans; [exact Hw1|]].
    eapply safe_mono; [by apply print_dir_safe|]. intros w' Hw'. eapply same_cmd; [exact Hok|]. by eapply same_trans.
  - destruct (wo_ram _ _ Hok) as [Hwf _]. unfold node_file_type. rewrite node_spec by done. cbn [mbind exec_bind]. case_bool_decide as Ht.
    + unfold node_name. rewrite node_spec by done. cbn [mbind exec_bind]. destruct (at_node (w_ram w) node) as [v|] eqn:Hn; [|done].
      rewrite vnode_name_spec by (by eapply fw_node). apply safe_ret. by eapply same_cmd.
    + step (list_node_safe w k (render ds) node Hok). intros [n es] Hes. eapply safe_mono; [by apply print_dir_safe|]. intros w' Hw'. by eapply same_cmd.
Qed.

Lemma set_cwd_spec (st : ShellState) (cs ds : list str) (buf : list Z) (n : nat) : shell_wf st cs → holds buf n ds →
  safe (set_cwd st (render ds)) (λ r, r.1 = true ∧ shell_wf r.2 ds).
Proof.
  intros Hw Hh. pose proof (ho_cap _ _ _ (sw_cwd _ _ Hw)) as Hcap. unfold set_cwd.
  destruct (length_render ds) as [H1 _]. rewrite bool_decide_false by (intros Hn; rewrite Hn in H1; cbn in H1; lia).
  pose proof (ho_fits _ _ _ Hh) as Hfit. rewrite Hcap. rewrite (proj2 (Nat.ltb_ge _ _)) by done. cbn [orb].
  rewrite copy_prefix_Done by lia. cbn [mbind exec_bind]. apply safe_ret. cbn [fst snd]. split; [done|].
  split; [|apply Hw]. cbn [cwd cwd_len]. split; [by rewrite length_copied by lia|done|done| |apply Hh].
  rewrite take_copied by done. by apply take_ge.
Qed.

Lemma cmd_cd_safe (k : Z) (w : World) (st : ShellState) (cs : list str) (path : str) : world_ok k w → shell_wf st cs → utf8_valid path = true →
  safe (cmd_cd read_block fuel w st path) (λ r, cmd_ok k r.1 ∧ ∃ ds, shell_wf r.2 ds).
Proof.
  intros Hok Hw Hv. unfold cmd_cd.
  assert (Hvt : utf8_valid (if bool_decide (path = []) then [SLASH] else path) = true) by by case_bool_decide.
  set (target := if bool_decide (path = []) then [SLASH] else path) in *.
  step (normalize_safe st cs target Hw Hvt). intros [p|] Hp.
  2: { apply safe_ret. split; [by eapply same_cmd|by exists cs]. }
  destruct Hp as (ds&Hh&->&_). cbn [mbind exec_bind]. step (file_type_safe w k (render ds) Hok). intros [t cb] Hcb. cbn [snd] in Hcb.
  destruct t as [[|]|]; [apply safe_ret; split; [by eapply same_cmd|by exists cs]| |apply safe_ret; split; [by eapply same_cmd|by exists cs]].
  step (set_cwd_spec st cs ds _ _ Hw Hh). intros [ok st'] [Hok' Hw']. cbn [fst snd] in *. subst ok. apply safe_ret. split; [by eapply same_cmd|by exists ds].
Qed.

(** ** Mounts and guests *)

Lemma ok_set_mounts (k : Z) (w w' : World) (ms : list (option MountInfo)) : world_ok k w → mounts_wf read_block ms → volumes_sound read_block fuel ms →
  same_but_out (set_mounts w ms) w' → cmd_ok k w'.
Proof. intros [[? ?] ? ? ?] ? ? Hs. apply ok_cmd. eapply same_ok; [|exact Hs]. by split; [split|..]. Qed.

Lemma cmd_mount_safe (k : Z) (w : World) (args : str) : media_sound read_block devs fuel → world_ok k w → utf8_valid args = true →
  safe (cmd_mount read_block devs w args) (cmd_ok k).
Proof.
  intros Hmed Hok Hv. destruct (wo_mounts _ _ Hok) as [Hm Hvs]. destruct (wo_ram _ _ Hok) as [Hwf Hr].
  unfold cmd_mount. pose proof (Forall_take (λ w, utf8_valid w = true) 3 _ (split_whitespace_valid args Hv)) as Hws.
  destruct (take 3 (split_whitespace args)) as [|src rest].
  - cbn [w_mounts kpln kp]. destruct (list_mounts_spec read_block (w_mounts w) (mw_slot _ _ Hm)) as (l&->). cbn [mbind exec_bind]. apply safe_ret.
    eapply same_cmd; [exact Hok|]. eapply same_trans; [apply (same_kp w (bytes "  / on / type ramfs" ++ [10%Z]))|].
    apply (same_folds (λ w '(source, path, fs_type), _)). by intros w1 [[so pa] ty].
  - apply Forall_cons in Hws as [_ Hrest]. case_bool_decide.
    + destruct rest as [|path [|]]; [apply safe_ret; by eapply same_cmd| |apply safe_ret; by eapply same_cmd].
      destruct (3 <? _); [apply safe_ret; by eapply same_cmd|].
      destruct (unmount_sound read_block fuel (w_mounts w) path Hm Hvs) as (ok&ms&->&Hm'&Hv'). cbn [mbind exec_bind]. apply safe_ret.
      eapply ok_set_mounts; [exact Hok|exact Hm'|exact Hv'|]. by destruct ok.
    + destruct rest as [|dst [|]]; [apply safe_ret; by eapply same_cmd| |apply safe_ret; by eapply same_cmd].
      destruct (3 <? _); [apply safe_ret; by eapply same_cmd|]. apply Forall_cons in Hrest as [Hrest _].
      destruct (mount_fs_sound read_block devs fuel (w_ram w) (w_mounts w) src dst Hwf Hr Hmed Hm Hvs Hrest) as (r&ms&->&Hm'&Hv').
      cbn [mbind exec_bind]. apply safe_ret. eapply ok_set_mounts; [exact Hok|exact Hm'|exact Hv'|]. by destruct r.
Qed.

Lemma ok_set_hv (k : Z) (w w' : World) (hv : Hv.Hypervisor) (vms : list Hv.VmInfo) : world_ok k w → hv_wf hv vms →
  w_ram w' = w_ram w → w_mounts w' = w_mounts w → w_cb w' = w_cb w → w_hv w' = hv → cmd_ok k w'.
Proof. intros [[? ?] ? ? _] Hh H1 H2 H3 H4. apply ok_cmd. split; [split|..]; rewrite ?H1, ?H2, ?H3, ?H4; try done. by exists vms. Qed.

Lemma print_vms_safe (vms : list (option Hv.VmInfo)) : Forall (λ o, match o with Some vm => vm_ok vm | None => True end) vms →
  ∀ w : World, safe (print_vms w vms) (same_but_out w).
Proof.
  induction 1 as [|[vm|] vms Hvm _ IH]; intros w; cbn [print_vms]; [by apply safe_ret| |apply IH].
  unfold print_vm. rewrite name_str_ok by done. cbn [mbind exec_bind]. eapply safe_mono; [apply IH|]. intros w' Hw'. by eapply same_trans.
Qed.

Lemma list_vms_ok (hv : Hv.Hypervisor) (vms : list Hv.VmInfo) : hv_wf hv vms →
  Forall (λ o, match o with Some vm => vm_ok vm | None => True end) (Hv.list_vms hv).1.
Proof.
  intros Hwf. unfold Hv.list_vms. cbn [fst]. apply Forall_app. split; [|by apply Forall_replicate].
  apply Forall_fmap, Forall_take, Forall_forall. intros vm [Hne Hin]%list_elem_of_filter. rewrite (hw_slots _ _ Hwf) in Hin.
  apply elem_of_app in Hin as [Hin|[-> _]%elem_of_replicate]; [|done]. exact (proj1 (Forall_forall _ _) (hw_vms _ _ Hwf) vm Hin).
Qed.

(** A command line cut at the first space. *)
Lemma cut_args (args : str) : utf8_valid args = true →
  ∃ sub arg, match find_byte 32 args with Some pos => (take pos args, trim (drop (pos + 1) args)) | None => (args, []) end = (sub, arg)
    ∧ utf8_valid arg = true.
Proof.
  intros Hv. destruct (find_byte 32 args) as [pos|] eqn:Hf; [|by exists args, []]. apply find_byte_Some in Hf as (a&b&->&<-&_).
  destruct (valid_split 32 a b ltac:(lia) Hv) as [_ Hvb]. rewrite Nat.add_1_r. destruct (split_at 32 a b) as [-> ->].
  eexists _, _. split; [done|]. by apply trim_valid.
Qed.

Lemma cmd_vm_safe (k : Z) (w : World) (args : str) : world_ok k w → utf8_valid args = true →
  safe (cmd_vm hypervisor guest_memory_addr w args) (cmd_ok k).
Proof.
  intros Hok Hv. destruct (wo_hv _ _ Hok) as [vms Hwf]. unfold cmd_vm.
  destruct (cut_args args Hv) as (sub&arg&->&Hva). destruct (_ || _); [apply safe_ret; by eapply same_cmd|].
  repeat case_bool_decide; try (apply safe_ret; by eapply same_cmd).
  - destruct (create_vm_spec hypervisor (w_hv w) vms arg Hwf Hva) as (hv'&->&Hr). cbn [mbind exec_bind]. apply safe_ret.
    destruct (create_result hypervisor (w_hv w) vms arg); [subst hv'; by eapply same_cmd|]. destruct Hr as [Hwf' _]. by eapply ok_set_hv.
  - pose proof (list_vms_ok (w_hv w) vms Hwf) as Hl. destruct (Hv.list_vms (w_hv w)) as [l count]. cbn [fst] in Hl.
    eapply safe_mono; [by apply print_vms_safe|]. intros w' Hw'. by eapply same_cmd.
  - pose proof (load_image_spec hypervisor guest_memory_addr (w_hv w) vms arg (Hv.mk_image Hv.DEMO_GUEST_ENTRY Hv.DEMO_GUEST_IMAGE) Hwf) as Hl.
    unfold Hv.load_demo. destruct (_ <? _) eqn:E; [by vm_compute in E|].
    destruct Hl as [[_ ->]|(i&vm&hv'&_&_&->&Hwf'&_)]; cbn [mbind exec_bind]; apply safe_ret; [by eapply same_cmd|by eapply ok_set_hv].
  - rewrite (find_vm_spec (w_hv w) vms arg Hwf). cbn [mbind exec_bind]. apply safe_ret.
    destruct (list_find _ vms) as [[_ vm]|]; [|by eapply same_cmd]. destruct (negb _); by eapply same_cmd.
Qed.

(** ** Any command *)

Lemma keep_safe (k : Z) (st : ShellState) (cs : list str) (m : exec World) : shell_wf st cs → safe m (cmd_ok k) →
  safe (keep st m) (λ r, cmd_ok k r.1 ∧ ∃ ds, shell_wf r.2 ds).
Proof. intros Hw Hm. unfold keep. step Hm. intros w Hok. apply safe_ret. split; [done|by exists cs]. Qed.

Lemma execute_safe (k : Z) (w : World) (st : ShellState) (cs : list str) (input : str) : media_sound read_block devs fuel → world_ok k w → shell_wf st cs →
  utf8_valid input = true → (k < USIZE_MAX)%Z →
  safe (execute_command read_block devs fuel hypervisor guest_memory_addr w st input) (λ r, cmd_ok k r.1 ∧ ∃ ds, shell_wf r.2 ds).
Proof.
  intros Hmed Hok Hw Hv Hk. unfold execute_command.
  assert (Hstay : ∀ w', same_but_out w w' → safe (Done (w', st)) (λ r, cmd_ok k r.1 ∧ ∃ ds, shell_wf r.2 ds)).
  { intros w' Hs. apply safe_ret. split; [by eapply same_cmd|by exists cs]. }
  case_bool_decide; [by apply Hstay|].
  destruct (cut_args input Hv) as (cmd&arg&->&Hva). cbn beta iota zeta.
  repeat (case_bool_decide; [first [by apply Hstay | by eapply cmd_cd_safe | eapply keep_safe; [done|];
    eauto using cmd_ls_safe, cmd_cat_safe, cmd_mkdir_safe, cmd_touch_safe, cmd_echo_safe, cmd_vm_safe, cmd_mount_safe]|]).
  by apply Hstay.
Qed.

(** ** The prompt *)

Lemma prompt_safe (w : World) (st : ShellState) (cs : list str) : shell_wf st cs → safe (shell_prompt w st) (same_but_out w).
Proof. intros Hw. unfold shell_prompt. rewrite (cwd_str_spec st cs Hw). by apply safe_ret. Qed.

Lemma print_bytes_safe (w : World) (buf : list Z) (n : nat) : n ≤ length buf → safe (print_bytes w buf n) (same_but_out w).
Proof. intros Hn. unfold print_bytes. rewrite prefix_exec_Done by done. cbn [mbind exec_bind]. apply safe_ret, same_fold. Qed.

Lemma redraw_safe (w : World) (st : ShellState) (cs : list str) (ed : Editor) (l : Line) : shell_wf st cs → ed_is ed l →
  safe (redraw_input w st (input_buf ed) (cursor_pos ed) (cursor_end ed)) (same_but_out w).
Proof.
  intros Hw Hed. pose proof (ed_is_cap ed l Hed) as (Hcap&Hle&Hend). pose proof (ei_pos _ _ Hed) as Hp. unfold line_text in *. rewrite length_app in *.
  unfold redraw_input. rewrite (cwd_str_spec st cs Hw). cbn [mbind exec_bind].
  eapply safe_bind; [apply print_bytes_safe; lia|]. intros w1 Hw1. assert (H1 : same_but_out w w1) by by eapply same_trans.
  destruct (_ <? _); [|by apply safe_ret]. eapply safe_mono; [apply print_bytes_safe; lia|]. intros w2 Hw2. by eapply same_trans.
Qed.

Lemma show_line_safe (w : World) (st : ShellState) (cs : list str) (ed : Editor) (l : Line) : shell_wf st cs → ed_is ed l → safe (show_line w st ed) (same_but_out w).
Proof.
  intros Hw Hed. pose proof (ed_is_cap ed l Hed) as (Hcap&Hle&Hend). unfold show_line. step (prompt_safe (kpln w []) st cs Hw). intros w1 Hw1.
  eapply safe_mono; [apply print_bytes_safe; lia|]. intros w2 Hw2. by eapply same_trans.
Qed.

(** ** Completion *)

(** An editor with its indices in range shows some line. *)
Lemma ed_is_any (buf : list Z) (pos cend : nat) (esc : EscState) : length buf = LINE_CAP → pos ≤ cend → cend ≤ LINE_CAP →
  ed_is (mk_editor buf pos cend esc) (mk_line (take pos buf) (take (cend - pos) (drop pos buf)) esc).
Proof.
  intros Hl Hp He. ed_split; rewrite ?length_take, ?length_drop; try lia. exists (drop cend buf). rewrite length_drop. split; [|lia].
  rewrite <- (take_drop pos buf) at 1. f_equal. rewrite <- (take_drop (cend - pos) (drop pos buf)) at 1. f_equal.
  rewrite drop_drop. f_equal. lia.
Qed.

(** What completion keeps: the console may change, the line is some line. *)
Definition completed (w : World) (esc : EscState) (r : World * Editor) : Prop := same_but_out w r.1 ∧ ∃ l, ed_is r.2 l ∧ l_esc l = esc.

Lemma completed_same (w w' : World) (ed : Editor) (l : Line) : ed_is ed l → same_but_out w w' → completed w (l_esc l) (w', ed).
Proof. intros Hed Hs. split; [done|]. by exists l. Qed.

Lemma commands_short : Forall (λ cmd, length cmd ≤ 7) COMMANDS.
Proof. apply (bool_decide_unpack _). by vm_compute. Qed.

Lemma complete_command_safe (w : World) (st : ShellState) (cs : list str) (ed : Editor) (l : Line) : shell_wf st cs → ed_is ed l →
  safe (complete_command w st ed) (completed w (l_esc l)).
Proof.
  intros Hw Hed. pose proof (ed_is_cap ed l Hed) as (Hcap&Hle&Hend). unfold complete_command.
  rewrite prefix_exec_Done by lia. cbn [mbind exec_bind]. set (input := utf8_or [] _).
  destruct (filter (λ cmd, starts_with cmd input = true) COMMANDS) as [|cmd [|cmd2 cmds]] eqn:Hf.
  - apply safe_ret. by apply completed_same.
  - assert (Hin : cmd ∈ COMMANDS).
    { assert (Hin : cmd ∈ filter (λ cmd, starts_with cmd input = true) COMMANDS) by (rewrite Hf; by left). by apply list_elem_of_filter in Hin as [_ ?]. }
    pose proof (proj1 (Forall_forall _ _) commands_short cmd Hin) as Hc. cbn beta in Hc.
    rewrite line_cap in Hcap. rewrite Nat.min_l by lia. rewrite copy_prefix_Done by lia. cbn [mbind exec_bind]. rewrite Nat.eqb_refl.
    apply safe_ret. split; [done|]. eexists. split; [apply ed_is_any; rewrite ?length_copied, ?line_cap by lia; lia|]. apply (ei_esc _ _ Hed).
  - eapply safe_bind; [eapply show_line_safe; eauto|]. intros w1 Hw1. apply safe_ret, completed_same; [done|].
    eapply same_trans; [|exact Hw1]. by eapply same_trans; [|apply (same_folds (λ w c, kp w (c ++ [32%Z])))].
Qed.

Definition found_ok (f : Found) : Prop := length (found_name f) = 64 ∧ found_len f ≤ 63.

Lemma collect_safe (name_prefix : str) (es : list DirEntry) : Forall entry_fits es → ∀ f, found_ok f → safe (collect_all name_prefix f es) found_ok.
Proof.
  induction 1 as [|e es (n&Hn&Hlen) _ IH]; intros f Hf; cbn [collect_all]; [by apply safe_ret|].
  apply (safe_bind _ _ found_ok); [|intros f' Hf'; by apply IH]. unfold collect. rewrite Hn. cbn [mbind exec_bind]. destruct Hf as [Hl Hk].
  destruct (starts_with n name_prefix); [|by apply safe_ret]. destruct (_ =? 0); [|by apply safe_ret].
  rewrite Nat.min_l by lia. rewrite Nat.eqb_refl, copy_prefix_Done by lia. cbn [mbind exec_bind]. apply safe_ret.
  split; cbn [found_name found_len]; [by rewrite length_copied by lia|lia].
Qed.

Lemma candidates_safe (name_prefix : str) (es : list DirEntry) : Forall entry_fits es → ∀ w : World, safe (show_candidates w name_prefix es) (same_but_out w).
Proof.
  induction 1 as [|e es (n&Hn&_) _ IH]; intros w; cbn [show_candidates]; [by apply safe_ret|]. rewrite Hn. cbn [mbind exec_bind].
  eapply safe_mono; [apply IH|]. intros w' Hw'. destruct (starts_with n name_prefix); [by eapply same_trans|done].
Qed.

Lemma replace_name_safe (ed : Editor) (l : Line) (f : Found) (pos : nat) : ed_is ed l → found_ok f → pos ≤ 128 →
  safe (replace_name ed f pos) (λ ed', ∃ l', ed_is ed' l' ∧ l_esc l' = l_esc l).
Proof.
  intros Hed [Hfl Hfk] Hpos. pose proof (ed_is_cap ed l Hed) as (Hcap&Hle&Hend). rewrite line_cap in Hcap. unfold replace_name.
  rewrite (proj2 (Nat.ltb_ge _ _)) by done. set (copy_len := Nat.min _ _). assert (Hcl : pos + copy_len ≤ 128) by lia.
  destruct (0 <? copy_len); [|apply safe_ret; by exists l]. rewrite prefix_exec_Done by lia. cbn [mbind exec_bind].
  set (name := utf8_or [] (take (found_len f) (found_name f))).
  assert (Hput : pos + length (take copy_len name) ≤ length (input_buf ed)) by (rewrite length_take; lia).
  rewrite put_slice_Done by done. cbn [mbind exec_bind].
  apply (safe_bind _ _ (λ buf, length buf = 128)).
  - destruct (found_is_dir f && (found_len f <? copy_len)) eqn:E; [|apply safe_ret; by rewrite length_put_slice].
    apply andb_true_iff in E as [_ E%Nat.ltb_lt]. rewrite put_exec_Done by (rewrite length_put_slice by done; lia). apply safe_ret.
    by rewrite length_insert, length_put_slice.
  - intros buf Hb. apply safe_ret. eexists. split; [apply ed_is_any; rewrite ?line_cap; [done|lia|lia]|]. apply (ei_esc _ _ Hed).
Qed.

Lemma split_completion_spec (path : str) : utf8_valid path = true →
  let '(dir, prefix, start) := split_completion_path path in utf8_valid dir = true ∧ start ≤ length path.
Proof.
  intros Hv. unfold split_completion_path. destruct (rfind SLASH path) as [i|] eqn:Hr; [|split; [done|lia]].
  destruct (rfind_lookup path i Hr) as [Hi _]. pose proof (lookup_lt_Some _ _ _ Hi) as Hlt. split; [|lia].
  destruct (take_valid path SLASH i ltac:(unfold SLASH; lia) Hi Hv) as [Ht _]. destruct i as [|i]; [|done]. cbn [Nat.eqb].
  destruct path as [|x path]; [done|]. injection Hi as ->. by destruct path.
Qed.

Lemma complete_filename_safe (k : Z) (w : World) (st : ShellState) (cs : list str) (ed : Editor) (l : Line) (start n : nat) :
  world_ok k w → shell_wf st cs → ed_is ed l → start + n ≤ 128 →
  safe (complete_filename read_block fuel w st ed start n) (completed w (l_esc l)).
Proof.
  intros Hok Hw Hed Hsn. pose proof (ed_is_cap ed l Hed) as (Hcap&Hle&Hend). rewrite line_cap in Hcap. unfold complete_filename.
  rewrite slice_Done by lia. cbn [mbind exec_bind]. set (text := utf8_or [] _).
  assert (Ht : utf8_valid text = true ∧ length text ≤ n).
  { unfold text, utf8_or. destruct (utf8_valid (take n (drop start (input_buf ed)))) eqn:E; [|split; [done|cbn; lia]].
    split; [done|]. rewrite length_take. lia. }
  destruct Ht as [Htv Htl]. pose proof (split_completion_spec text Htv) as Hsp. destruct (split_completion_path text) as [[dir prefix] rstart].
  destruct Hsp as [Hdv Hrs]. step (normalize_safe st cs dir Hw Hdv). intros [p|] Hp; [|apply safe_ret; by apply completed_same].
  destruct Hp as (ds&_&->&_). cbn [mbind exec_bind]. step (list_entries_safe w k (render ds) Hok).
  intros [[r es] w1] [Hes Hw1]. cbn [fst snd] in Hes, Hw1.
  assert (Hf0 : found_ok found_none) by (split; [apply length_replicate|cbn; lia]).
  step (collect_safe prefix es Hes found_none Hf0). intros f Hf. destruct (match_count f =? 0); [apply safe_ret; by apply completed_same|].
  destruct (match_count f =? 1).
  { step (replace_name_safe ed l f (start + rstart) Hed Hf ltac:(lia)). intros ed' Hed'. by apply safe_ret. }
  assert (Hok1 : world_ok k (kpln w1 [])) by (eapply same_ok; [exact Hok|]; by eapply same_trans; [exact Hw1|]).
  step (list_entries_safe (kpln w1 []) k (render ds) Hok1). intros [[r2 es2] w2] [Hes2 Hw2]. cbn [fst snd] in Hes2, Hw2.
  step (candidates_safe prefix es2 Hes2 w2). intros w3 Hw3. step (show_line_safe w3 st cs ed l Hw Hed). intros w4 Hw4. apply safe_ret.
  apply completed_same; [done|]. eapply same_trans; [exact Hw1|]. eapply same_trans; [apply (same_kp w1 ([] ++ [10%Z]))|].
  eapply same_trans; [exact Hw2|]. by eapply same_trans.
Qed.

Lemma arg_start_safe (buf : list Z) (n : nat) : ∀ i found, i + n ≤ length buf → (∀ s, found = Some s → s ≤ i) →
  safe (arg_start buf i n found) (λ r, ∀ s, r = Some s → s ≤ i + n).
Proof.
  induction n as [|n IH]; intros i found Hl Hs; cbn [arg_start]; [apply safe_ret; intros s ->; specialize (Hs s eq_refl); lia|].
  destruct (lookup_lt_is_Some_2 buf i) as [x Hx]; [lia|]. rewrite Hx. cbn [get_exec mbind exec_bind].
  eapply safe_mono; [apply IH; [lia|]|].
  - intros s. destruct (x =? 32)%Z; [intros [= <-]; lia|]. intros ->. specialize (Hs s eq_refl). lia.
  - intros r Hr s ->. specialize (Hr s eq_refl). lia.
Qed.

Lemma tab_safe (k : Z) (w : World) (st : ShellState) (cs : list str) (ed : Editor) (l : Line) : world_ok k w → shell_wf st cs → ed_is ed l →
  safe (handle_tab_completion read_block fuel w st ed) (completed w (l_esc l)).
Proof.
  intros Hok Hw Hed. pose proof (ed_is_cap ed l Hed) as (Hcap&Hle&Hend). pose proof (ei_pos _ _ Hed) as Hp. unfold line_text in *. rewrite length_app in *.
  rewrite line_cap in *. unfold handle_tab_completion. destruct (cursor_end ed =? 0); [apply safe_ret; by apply completed_same|].
  eapply safe_bind; [apply arg_start_safe; [lia|done]|]. intros start Hstart.
  apply (safe_bind _ _ (completed w (l_esc l))).
  - destruct start as [start|]; [|by apply (complete_command_safe w st cs)]. specialize (Hstart start eq_refl).
    rewrite (proj2 (Nat.leb_le _ _)) by lia. apply (complete_filename_safe k w st cs ed l); [done|done|done|lia].
  - intros [w1 ed1] [Hs (l1&Hed1&Hesc)]. cbn [fst snd] in *. step (redraw_safe w1 st cs ed1 l1 Hw Hed1). intros w2 Hw2. apply safe_ret.
    split; [by eapply same_trans|by exists l1].
Qed.
End safe.
