(* ===== verification/ShellProps.v ===== *)
(** * What the shell promises *)

From S2P Require Export Prelude.
From S2P Require Export Str.
From S2P Require Export Text.
From S2P Require Export RamFsProps.
From S2P Require Export ShellEdit.
From S2P Require Export ShellCmds.
From S2P Require Export ShellSafe.

#[local] Opaque NAME_MAX NODE_POOL_CAP FILE_MAX_SIZE DIR_MAX_ENTRIES.

(** ** Entering a line *)

Lemma remember_spec (st : ShellState) (cs : list str) (t : str) : shell_wf st cs → length t ≤ LINE_CAP →
  ∃ st', remember_cmd st t = Done st' ∧ shell_wf st' cs ∧ last_str st' = t ∧ cwd st' = cwd st ∧ cwd_len st' = cwd_len st.
Proof.
  intros [Hc [Hl Hn]] Ht. unfold remember_cmd. rewrite Hl, Nat.min_l by done. rewrite copy_prefix_Done by lia. cbn [mbind exec_bind].
  eexists. split; [done|]. split; [split; [done|]|split; [|done]].
  - cbn [last_cmd last_cmd_len]. by rewrite length_copied by lia.
  - unfold last_str. cbn [last_cmd last_cmd_len]. rewrite take_copied by done. by apply take_ge.
Qed.

Lemma utf8_or_nil (t : str) : utf8_valid (utf8_or [] t) = true ∧ length (utf8_or [] t) ≤ length t.
Proof. unfold utf8_or. destruct (utf8_valid t) eqn:E; [done|]. split; [done|cbn; lia]. Qed.

Section shell.
Context {D : Type} (read_block : D → Z → option (list Z)) (devs : list D).
Context (fuel : nat) (hypervisor : bool) (guest_memory_addr : Z).

Abbreviation World := (World (D := D)).
Abbreviation step := (shell_step read_block devs fuel hypervisor guest_memory_addr).
Abbreviation run := (shell_run read_block devs fuel hypervisor guest_memory_addr).
Abbreviation execute := (execute_command read_block devs fuel hypervisor guest_memory_addr).

(** What Enter does to a line that fits. *)
Lemma enter_line_spec (w : World) (st : ShellState) (cs : list str) (ed : Editor) (l : Line) : shell_wf st cs → ed_is ed l → l_esc l = Normal →
  length (line_text l) < LINE_CAP → let t := utf8_or [] (line_text l) in
  ∃ st1 ed', remember_cmd st t = Done st1 ∧ shell_wf st1 cs ∧ last_str st1 = t ∧ ed_is ed' line_empty ∧
  enter_line read_block devs fuel hypervisor guest_memory_addr w st ed
    = ('(w2, st2) ← (if bool_decide (line_text l = []) then Done (kpln w [], st) else execute (kpln w []) st1 (trim t));
       w3 ← shell_prompt w2 st2; Done (w3, st2, ed')).
Proof.
  intros Hw Hed Hn Hlt t. pose proof (ed_is_cap ed l Hed) as (Hcap&Hle&Hend). destruct (utf8_or_nil (line_text l)) as [Htv Htl]. fold t in Htv, Htl.
  destruct (remember_spec st cs t Hw ltac:(lia)) as (st1&Hrem&Hw1&Hlast&_). unfold enter_line. rewrite Hend.
  case_bool_decide as Hnil.
  - rewrite Hnil. cbn [length]. exists st1. eexists. split_and!; [exact Hrem|done|done| |reflexivity]. unfold line_empty. rewrite <- Hn, <- (ei_esc _ _ Hed). by apply ed_is_cleared.
  - assert (0 < length (line_text l)) by (destruct (line_text l); [done|cbn; lia]). rewrite (proj2 (Nat.ltb_lt _ _)) by done.
    rewrite (take_line_spec ed l Hed), (proj2 (Nat.ltb_lt _ _)) by done. fold t. cbn [mbind exec_bind]. rewrite Hrem. cbn [mbind exec_bind].
    set (ed1 := mk_editor (<[length (line_text l) := 0%Z]> (input_buf ed)) (cursor_pos ed) (cursor_end ed) (esc_state ed)).
    exists st1, (mk_editor (input_buf ed1) 0 0 (esc_state ed1)). split_and!; [done|done|done| |].
    + unfold line_empty. rewrite <- Hn, <- (ei_esc _ _ Hed). apply ed_is_cleared. cbn. by rewrite length_insert.
    + destruct (execute (kpln w []) st1 (trim t)) as [[w2 st2]|]; [|done]. done.
Qed.

Lemma enter_line_full (w : World) (st : ShellState) (ed : Editor) (l : Line) : ed_is ed l → length (line_text l) = LINE_CAP →
  enter_line read_block devs fuel hypervisor guest_memory_addr w st ed = Stuck.
Proof.
  intros Hed Hl. pose proof (ed_is_cap ed l Hed) as (Hcap&Hle&Hend). unfold enter_line. rewrite Hend, Hl, line_cap. change (0 <? 128) with true.
  cbn beta iota. by rewrite (take_line_spec ed l Hed), Hl, Nat.ltb_irrefl.
Qed.

(** ** Histories of bytes *)

(** The state between two bytes. *)
Record running (k : Z) (w : World) (st : ShellState) (ed : Editor) : Prop := {
  ru_world : world_ok read_block fuel k w;
  ru_shell : ∃ cs, shell_wf st cs;
  ru_line : ∃ l, ed_is ed l;
}.

(** The one byte that panics: Enter on a line of 128 characters. *)
Definition full_enter (ed : Editor) (c : Z) : Prop := esc_state ed = Normal ∧ (c = 13 ∨ c = 10)%Z ∧ cursor_end ed = 128.

Lemma edit_enter (st : ShellState) (cs : list str) (ed ed' : Editor) (l : Line) (c : Z) : shell_wf st cs → ed_is ed l →
  edit_key st ed c = Done (Enter, ed') → ed' = ed ∧ l_esc l = Normal ∧ (c = 13 ∨ c = 10)%Z ∧ line_key (last_str st) l c = (Enter, l).
Proof.
  intros Hw Hed He. destruct (edit_key_spec st cs ed l c Hw Hed) as (ed1&Hd&_). rewrite He in Hd. injection Hd as Heff _.
  revert Heff. unfold edit_key in He. unfold line_key, line_bracket in *. rewrite (ei_esc _ _ Hed) in He.
  destruct (l_esc l) eqn:Hs.
  - destruct (c =? 27)%Z; [done|]. destruct ((c =? 13)%Z || (c =? 10)%Z) eqn:Hc.
    + intros _. injection He as <-. apply orb_true_iff in Hc as [?%Z.eqb_eq|?%Z.eqb_eq]; tauto.
    + clear He. intros Heff. repeat case_match; cbn [fst] in Heff; discriminate.
  - done.
  - repeat (destruct (_ =? _)%Z); try done; [by destruct (_ && _)|by destruct (l_after l)|by case_bool_decide].
  - destruct (l_after l); [done|]. by destruct (c =? 126)%Z.
Qed.

Lemma step_safe (k : Z) (w : World) (st : ShellState) (ed : Editor) (c : Z) : media_sound read_block devs fuel → (k < USIZE_MAX)%Z → running k w st ed →
  (step w st ed c = Stuck ∧ full_enter ed c) ∨ safe (step w st ed c) (λ r, running (k + 1) r.1.1 r.1.2 r.2).
Proof.
  intros Hmed Hk [Hok [cs Hw] [l Hed]]. destruct (edit_key_spec st cs ed l c Hw Hed) as (ed1&He&Hed1). unfold shell_step. rewrite He. cbn [mbind exec_bind].
  destruct (line_key (last_str st) l c) as [eff l1] eqn:Hlk. cbn [fst snd] in *. assert (Hok1 : world_ok read_block fuel (k + 1) w) by by apply ok_cmd.
  destruct eff.
  - right. apply safe_ret. split; [done|by exists cs|by exists l1].
  - right. eapply safe_bind; [exact (redraw_safe w st cs ed1 l1 Hw Hed1)|]. intros w1 Hw1. apply safe_ret. split; [by eapply same_ok|by exists cs|by exists l1].
  - destruct (edit_enter st cs ed ed1 l c Hw Hed He) as (->&Hn&Hc&Hlk'). rewrite Hlk in Hlk'. injection Hlk' as ->.
    pose proof (ed_is_cap ed l Hed) as (Hcap&Hle&Hend). destruct (decide (length (line_text l) = LINE_CAP)) as [Hfull|Hne].
    + left. split; [by eapply enter_line_full|]. split; [by rewrite (ei_esc _ _ Hed)|]. split; [done|]. by rewrite Hend, Hfull.
    + right. destruct (enter_line_spec w st cs ed l Hw Hed Hn ltac:(lia)) as (st1&ed'&_&Hw1&_&Hed'&->).
      apply (safe_bind _ _ (λ r, cmd_ok read_block fuel k r.1 ∧ ∃ ds, shell_wf r.2 ds)).
      * case_bool_decide; [apply safe_ret; split; [by apply ok_cmd, ok_kpln|by exists cs]|].
        eapply execute_safe; [done|by apply ok_kpln|exact Hw1|apply trim_valid, utf8_or_nil|done].
      * intros [w2 st2] [Hok2 [ds Hw2]]. cbn [fst snd] in *. eapply safe_bind; [exact (prompt_safe w2 st2 ds Hw2)|]. intros w3 Hw3. apply safe_ret.
        split; [by eapply same_ok|by exists ds|by exists line_empty].
  - right. eapply safe_bind; [exact (tab_safe read_block fuel k w st cs ed1 l1 Hok Hw Hed1)|]. intros [w2 ed2] [Hs (l2&Hed2&_)]. cbn [fst snd] in *.
    apply safe_ret. split; [by eapply same_ok|by exists cs|by exists l2].
Qed.

Lemma run_app (a b : list Z) : ∀ (w : World) st ed, run w st ed (a ++ b) = ('(w, st, ed) ← run w st ed a; run w st ed b).
Proof.
  induction a as [|c a IH]; intros w st ed; cbn [app shell_run]; [done|]. destruct (step w st ed c) as [[[w1 st1] ed1]|]; [|done]. apply IH.
Qed.

Lemma run_safe (input : list Z) : media_sound read_block devs fuel → ∀ (k : Z) (w : World) (st : ShellState) (ed : Editor),
  running k w st ed → (k + Z.of_nat (length input) < USIZE_MAX)%Z →
  safe (run w st ed input) (λ r, running (k + Z.of_nat (length input)) r.1.1 r.1.2 r.2)
  ∨ ∃ pre c post w1 st1 ed1, input = pre ++ c :: post ∧ run w st ed pre = Done (w1, st1, ed1) ∧ full_enter ed1 c ∧ step w1 st1 ed1 c = Stuck.
Proof.
  intros Hmed. induction input as [|c input IH]; intros k w st ed Hr Hk; cbn [length shell_run] in *.
  { left. apply safe_ret. by rewrite Z.add_0_r. }
  destruct (step_safe k w st ed c Hmed ltac:(lia) Hr) as [[Hs Hf]|([[w1 st1] ed1]&Hs&Hr1)]; cbn [fst snd] in *.
  - right. exists [], c, input, w, st, ed. done.
  - rewrite Hs. cbn [mbind exec_bind]. destruct (IH (k + 1)%Z w1 st1 ed1 Hr1 ltac:(lia)) as [Hsafe|(pre&c'&post&w2&st2&ed2&->&Hrun&Hf&Hstk)].
    + left. eapply safe_mono; [exact Hsafe|]. intros r [Hw Hst Hl]. split; try done. eapply ok_mono; [exact Hw|]. lia.
    + right. exists (c :: pre), c', post, w2, st2, ed2. split; [done|]. split; [|done]. cbn [shell_run]. by rewrite Hs.
Qed.

(** ** A line that is typed *)

(** The line after keys that neither enter nor complete it. *)
Fixpoint line_keys (last : str) (l : Line) (ks : list Z) : option Line :=
  match ks with
  | [] => Some l
  | c :: ks => match line_key last l c with (Enter, _) | (Complete, _) => None | (_, l) => line_keys last l ks end
  end.

Lemma keys_run (st : ShellState) (cs : list str) (ks : list Z) : shell_wf st cs → ∀ (w : World) (ed : Editor) (l l' : Line), ed_is ed l →
  line_keys (last_str st) l ks = Some l' → ∃ w' ed', run w st ed ks = Done (w', st, ed') ∧ same_but_out w w' ∧ ed_is ed' l'.
Proof.
  intros Hw. induction ks as [|c ks IH]; intros w ed l l' Hed Hk; cbn [line_keys shell_run] in *; [simplify_eq; by exists w, ed|].
  destruct (edit_key_spec st cs ed l c Hw Hed) as (ed1&He&Hed1). unfold shell_step. rewrite He.
  destruct (line_key (last_str st) l c) as [eff l1]. cbn [fst snd mbind exec_bind] in *. destruct eff; try done.
  - by apply (IH w ed1 l1 l').
  - destruct (redraw_safe w st cs ed1 l1 Hw Hed1) as (w1&->&Hs). cbn [mbind exec_bind].
    destruct (IH w1 ed1 l1 l' Hed1 Hk) as (w'&ed'&->&Hs'&Hed'). exists w', ed'. split; [done|]. split; [by eapply same_trans|done].
Qed.
End shell.

(** ** Paths in the RAM file system *)

Lemma walk_app (fs : RamFs) (p q : list str) : ∀ i, walk fs i (p ++ q) = walk fs i p ≫= λ j, walk fs j q.
Proof. induction p as [|c p IH]; intros i; cbn [app walk]; [done|]. destruct (child_named fs i c) as [j|]; [apply IH|done]. Qed.

Lemma walk_live (fs : RamFs) (p : list str) : fs_wf fs → ∀ i j, is_Some (at_node fs i) → walk fs i p = Some j → is_Some (at_node fs j).
Proof.
  intros Hwf. induction p as [|c p IH]; intros i j Hi; cbn [walk]; [by intros [= <-]|]. destruct (child_named fs i c) as [k|] eqn:Hc; [|done]. cbn.
  apply IH. unfold child_named in Hc. destruct (at_node fs i) as [v|] eqn:Hv; [|done]. apply find_name_in in Hc as [Hin _]. by eapply dir_children_live.
Qed.

Lemma walk_same (fs fs' : RamFs) (p : list str) : (∀ i x, child_named fs' i x = child_named fs i x) → ∀ i, walk fs' i p = walk fs i p.
Proof. intros Hs. induction p as [|c p IH]; intros i; cbn [walk]; [done|]. rewrite Hs. destruct (child_named fs i c); [apply IH|done]. Qed.

(** Writing a file moves nothing. *)
Lemma write_same (fs fs' : RamFs) (node : nat) (text : str) (r : FsError + nat) : fs_wf fs → write_file fs node text = Done (r, fs') →
  ∀ i x, child_named fs' i x = child_named fs i x.
Proof.
  intros Hwf Hw. destruct (write_file_spec fs node text Hwf) as (r1&fs1&Hw1&_&_&_&Hpost). rewrite Hw in Hw1. injection Hw1 as -> ->.
  destruct (at_node fs node) as [[f|d]|] eqn:Hn; [|by destruct Hpost as [_ ->]..]. destruct Hpost as (_&f'&Hf'&_&_&_&Hnm&Hnl&Ho).
  assert (Hname : ∀ c, name_at fs1 c = name_at fs c).
  { intros c. unfold name_at. destruct (decide (c = node)) as [->|Hne]; [|by rewrite Ho]. rewrite Hf', Hn. cbn. by rewrite Hnm, Hnl. }
  intros i x. unfold child_named. destruct (decide (i = node)) as [->|Hne]; [by rewrite Hf', Hn|]. rewrite Ho by done.
  destruct (at_node fs i) as [v|]; [|done]. cbn. apply find_name_ext. intros c _. apply Hname.
Qed.

Lemma good_not_nil (ds : list str) : Forall good ds → filter (λ c, c ≠ []) ds = ds.
Proof. induction 1 as [|d ds (Hd&_) _ IH]; [done|]. rewrite filter_cons_True by done. by rewrite IH. Qed.

Lemma components_render (ds : list str) : Forall good ds → components (render ds) = ds.
Proof.
  intros Hg. unfold components. rewrite split_render by done. rewrite filter_cons_False by (intros Hn; by apply Hn). destruct ds as [|d ds]; [done|].
  by apply good_not_nil.
Qed.

(** ** Redirections *)

Section echo.
Context {D : Type} (read_block : D → Z → option (list Z)) (fuel : nat).
Abbreviation World := (World (D := D)).

Definition is_dir_at (fs : RamFs) (i : option nat) : bool := match i ≫= at_node fs with Some (VDir _) => true | _ => false end.

Lemma open_spec (k : Z) (w : World) (ps : list str) (p : nat) (child : str) : ram_ok k w → utf8_valid child = true → (k < USIZE_MAX)%Z →
  walk (w_ram w) 0 ps = Some p →
  ∃ r w1, open_or_create w p child = Done (r, w1) ∧ w_out w1 = w_out w ∧ ram_ok (k + 1) w1 ∧
    match r with
    | Some n => walk (w_ram w1) 0 (ps ++ [child]) = Some n ∧ is_dir_at (w_ram w1) (Some n) = is_dir_at (w_ram w) (walk (w_ram w) 0 (ps ++ [child]))
    | None => True
    end.
Proof.
  intros Hok Hv Hk Hp. destruct (wo_ram _ _ Hok) as [Hwf Hr]. unfold open_or_create. rewrite lookup_spec by done. cbn [mbind exec_bind].
  assert (Hw : walk (w_ram w) 0 (ps ++ [child]) = child_named (w_ram w) p child).
  { rewrite walk_app, Hp. cbn. by destruct (child_named (w_ram w) p child). }
  rewrite Hw. assert (Hfound : match at_node (w_ram w) p with None => inl NotFound | Some (VFile _) => inl NotDirectory
      | Some (VDir _) => match child_named (w_ram w) p child with Some c => inr c | None => inl NotFound end end
    = match child_named (w_ram w) p child with Some c => inr c | None => match at_node (w_ram w) p with Some (VFile _) => inl NotDirectory | _ => inl NotFound end end).
  { destruct (at_node (w_ram w) p) as [[f|d]|] eqn:Hn; [by rewrite (child_of_file _ _ f)|by destruct (child_named _ _ _)|unfold child_named; by rewrite Hn]. }
  rewrite Hfound. destruct (child_named (w_ram w) p child) as [n|] eqn:Hc.
  { exists (Some n), w. split; [done|]. split; [done|]. split; [apply (ram_mono k); [done|lia]|]. by rewrite Hw. }
  assert (Hd : is_dir_at (w_ram w) None = false) by done. rewrite Hd.
  pose proof (wo_count _ _ Hok) as Hcnt.
  destruct (create_file_spec (w_ram w) p child Hwf Hv ltac:(lia)) as (r&fs'&Hcf&Hwf'&Hcr&Hcount&Hroot).
  exists (match r with inr n => Some n | inl _ => None end), (set_ram w fs'). split_and!; [|done| |].
  - destruct (at_node (w_ram w) p) as [[]|]; by rewrite Hcf.
  - eapply ram_set_ram; [exact Hok|exact Hwf'|by eapply created_rooted|lia].
  - destruct r as [e|n]; [done|]. inversion Hcr as [| | | | | |n' Hl Hfree]; subst n'. cbn [w_ram set_ram].
    assert (Hn0 : 0 ≠ n) by (intros <-; destruct Hr as [_ [d Hd0]]; rewrite (ln_new _ _ _ _ _ _ Hl) in Hd0; done).
    destruct (ln_node _ _ _ _ _ _ Hl) as (v&Hv'&Hty&_&_). split.
    + rewrite walk_app. rewrite (proj2 (walk_linked _ _ _ _ _ _ Hwf Hl Hfree ps 0 p Hn0) (or_introl Hp)). cbn.
      rewrite (ln_child _ _ _ _ _ _ Hl), decide_True by done. done.
    + unfold is_dir_at. cbn. rewrite Hv'. by destruct v.
Qed.

(** What [cat] shows of a path. *)
Definition shown (f : str) (dir : bool) (t : str) : str :=
  if dir then bytes "cat: '" ++ f ++ bytes "': Is a directory" else
  if bool_decide (t = []) then bytes "(empty file)" else
  if utf8_valid t then t else bytes "(binary, " ++ dec (Z.of_nat (length t)) ++ bytes " bytes)".

Lemma cat_spec (k : Z) (w : World) (st : ShellState) (cs : list str) (f : str) (n : nat) (v : Vnode) : ram_ok k w → shell_wf st cs →
  utf8_valid f = true → f ≠ [] → fits (base cs f) (split_on SLASH f) →
  walk (w_ram w) 0 (fold_left pushed (split_on SLASH f) (base cs f)) = Some n → at_node (w_ram w) n = Some v →
  cmd_cat read_block fuel w st f
    = Done (kpln w (shown f (match v with VDir _ => true | _ => false end) (match v with VFile fl => take (f_size fl) (f_data fl) | _ => [] end))).
Proof.
  intros Hok Hw Hv Hne Hfit Hwalk Hn. destruct (wo_ram _ _ Hok) as [Hwf [Hr _]]. unfold cmd_cat. rewrite bool_decide_false by done.
  destruct (normalize_path_spec st cs f Hw Hv) as (r&->&Hspec). cbn [mbind exec_bind]. destruct r as [p|]; [|done]. destruct Hspec as [Hh _].
  rewrite (as_str_spec _ _ Hh). cbn [mbind exec_bind]. set (path := fold_left _ _ _) in *.
  destruct (resolve_path_spec (w_ram w) (render path) Hwf Hr) as (r&->&Hres). cbn [mbind exec_bind].
  rewrite (components_render path (ho_good _ _ _ Hh)) in Hres. rewrite (proj2 (Hres n) Hwalk). cbn [mbind exec_bind].
  unfold node_file_type. rewrite node_spec, Hn by done. cbn [mbind exec_bind]. destruct v as [fl|d]; cbn [file_type]; [|done].
  rewrite bool_decide_true by done. cbn [negb]. rewrite read_file_spec, Hn by done. cbn [mbind exec_bind]. rewrite length_replicate.
  destruct (fw_node _ Hwf n _ Hn) as (_&_&_&Hdl&Hsz). rewrite Nat.min_l by done. unfold shown. case_bool_decide as Hnil.
  - assert (H0 : f_size fl = 0) by (apply (f_equal length) in Hnil; rewrite length_take in Hnil; cbn in Hnil; lia). by rewrite H0.
  - destruct (Nat.ltb_spec 0 (f_size fl)) as [Hpos|Hz]; [|destruct Hnil; by replace (f_size fl) with 0 by lia].
    assert (Hlen : length (take (f_size fl) (f_data fl)) = f_size fl) by (rewrite length_take; lia).
    unfold print_contents. rewrite prefix_exec_Done by (rewrite length_app, Hlen; lia). cbn [mbind exec_bind].
    rewrite take_app_le by lia. rewrite (take_ge (take (f_size fl) (f_data fl))) by lia. rewrite Hlen.
    by destruct (utf8_valid (take (f_size fl) (f_data fl))).
Qed.
End echo.

(** ** A shell to try the properties on *)

Definition demo_world : World (D := unit) := mk_world (fs_of []) (replicate MOUNT_SLOTS None) (replicate 4096 0%Z) Hv.hv_boot [].

Lemma demo_ram_ok : ram_ok 4 demo_world.
Proof. split; [apply (fs_of_wf []); [constructor|done]|by vm_compute]. Qed.

Lemma demo_world_ok (fuel : nat) : world_ok demo_disk fuel 4 demo_world.
Proof.
  split; [apply demo_ram_ok| |by apply length_replicate|exists []; apply hv_boot_wf]. split; [apply empty_table|].
  by intros m [? _]%elem_of_replicate.
Qed.

(** A session over a device that holds the volume of [demo_fs]: the volume is
    mounted, its root directory listed with the name completed by Tab, and its
    file read. *)
Definition demo_session : str := bytes "mount /dev/blk0 /m" ++ [13%Z] ++ bytes "ls /m" ++ [13%Z] ++ bytes "cat /m/" ++ [9; 13]%Z.

Definition said (w : World (D := unit)) : list str := omap (λ o, match o with Text s => Some s | Report _ => None end) (w_out w).

Example demo_session_shows : match shell_run demo_disk [tt] 2 true 0 demo_world shell_new editor_new demo_session with
  | Done (w, _, _) => Forall (λ s, write_str s ∈ said w) [bytes "mounted /dev/blk0 at /m" ++ [10%Z]; bytes "a  "; [7; 8; 9; 10]%Z]
  | Stuck => False end.
Proof.
  destruct (shell_run _ _ _ _ _ _ _ _ _) as [[[w st] ed]|] eqn:E; [|exfalso; revert E; vm_compute; discriminate].
  assert (Hw : said w = said (match shell_run demo_disk [tt] 2 true 0 demo_world shell_new editor_new demo_session with Done (w, _, _) => w | Stuck => demo_world end))
    by by rewrite E.
  rewrite Hw. apply (bool_decide_unpack _). vm_compute. exact I.
Qed.

(** ** Properties *)

(** C11. The input line is a text with a cursor: for every byte, the buffer of
    128 bytes and its indices do what the key means for the text before and
    after the cursor; Enter takes exactly the text, and panics when the text
    has 128 characters. *)
Theorem line_editor_refines (st : ShellState) (cs : list str) (ed : Editor) (l : Line) (c : Z) : shell_wf st cs → ed_is ed l →
  (∃ ed', edit_key st ed c = Done ((line_key (last_str st) l c).1, ed') ∧ ed_is ed' (line_key (last_str st) l c).2)
  ∧ take_line ed = (if length (line_text l) <? 128
      then Done (utf8_or [] (line_text l), mk_editor (<[length (line_text l) := 0%Z]> (input_buf ed)) (cursor_pos ed) (cursor_end ed) (esc_state ed))
      else Stuck).
Proof. intros Hw Hed. split; [by eapply edit_key_spec|]. rewrite <- line_cap. by apply take_line_spec. Qed.

Lemma line_editor_refines_witness : ∃ ed', edit_key shell_new editor_new 97 = Done (Redraw, ed') ∧ ed_is ed' (mk_line [97%Z] [] Normal).
Proof. exact (proj1 (line_editor_refines shell_new [] editor_new line_empty 97 shell_new_wf editor_new_is)). Defined.

(** A line typed with any keys but Enter and Tab is executed as it stands
    when Enter is pressed: it is remembered, trimmed and given to the command
    interpreter, and the line is empty afterwards; an empty line executes
    nothing, and a line of 128 characters panics. *)
Theorem typed_line_executed {D : Type} (read_block : D → Z → option (list Z)) (devs : list D) (fuel : nat) (hypervisor : bool) (guest_memory_addr : Z)
    (w : World) (st : ShellState) (cs : list str) (ed : Editor) (l l' : Line) (ks : list Z) (c : Z) :
  shell_wf st cs → ed_is ed l → line_keys (last_str st) l ks = Some l' → l_esc l' = Normal → (c = 13 ∨ c = 10)%Z →
  let t := line_text l' in let run := shell_run read_block devs fuel hypervisor guest_memory_addr in
  if 128 <=? length t then run w st ed (ks ++ [c]) = Stuck
  else ∃ w1 st1 ed', same_but_out w w1 ∧ remember_cmd st (utf8_or [] t) = Done st1 ∧ last_str st1 = utf8_or [] t ∧ ed_is ed' line_empty
    ∧ run w st ed (ks ++ [c])
      = ('(w2, st2) ← (if bool_decide (t = []) then Done (w1, st)
                       else execute_command read_block devs fuel hypervisor guest_memory_addr w1 st1 (trim (utf8_or [] t)));
         w3 ← shell_prompt w2 st2; Done (w3, st2, ed')).
Proof.
  intros Hw Hed Hks Hn Hc t run. destruct (keys_run read_block devs fuel hypervisor guest_memory_addr st cs ks Hw w ed l l' Hed Hks) as (w1&ed1&Hrun&Hs&Hed1).
  assert (Hstep : ∀ m, enter_line read_block devs fuel hypervisor guest_memory_addr w1 st ed1 = m → run w st ed (ks ++ [c]) = m).
  { intros m <-. unfold run. rewrite run_app, Hrun. cbn [mbind exec_bind shell_run]. unfold shell_step, edit_key. rewrite (ei_esc _ _ Hed1), Hn.
    destruct Hc as [-> | ->]; cbn; by destruct (enter_line _ _ _ _ _ w1 st ed1) as [[[? ?] ?]|]. }
  pose proof (ed_is_cap ed1 l' Hed1) as (_&Hle&_). rewrite line_cap in Hle. fold t in Hle. destruct (Nat.leb_spec 128 (length t)) as [Hbig|Hlt].
  - apply Hstep. apply (enter_line_full _ _ _ _ _ w1 st ed1 l' Hed1). rewrite line_cap. fold t. lia.
  - destruct (enter_line_spec read_block devs fuel hypervisor guest_memory_addr w1 st cs ed1 l' Hw Hed1 Hn ltac:(rewrite line_cap; exact Hlt)) as (st1&ed'&Hrem&_&Hlast&He&Heq).
    exists (kpln w1 []), st1, ed'. split; [by eapply same_trans|]. split; [exact Hrem|]. split; [exact Hlast|]. split; [exact He|]. by apply Hstep.
Qed.

Lemma typed_line_executed_witness : shell_run (λ (_ : unit) _, None) [] 1 true 0 demo_world shell_new editor_new (replicate 128 97%Z ++ [13%Z]) = Stuck.
Proof.
  exact (typed_line_executed (λ (_ : unit) _, None) [] 1 true 0 demo_world shell_new [] editor_new line_empty (mk_line (replicate 128 97%Z) [] Normal)
    (replicate 128 97%Z) 13 shell_new_wf editor_new_is eq_refl eq_refl (or_introl eq_refl)).
Defined.



(** A path is normalised to the components that its pieces leave, applied
    one by one to those of the working directory, or of the root when the path
    begins with a slash: empty and "." leave them, ".." drops the last, a name
    is added.  The result has no such pieces, is the same again when it is
    normalised from anywhere, and fits 256 bytes; there is none exactly when
    the path after some piece does not fit. *)
Theorem shell_path_canonical (st : ShellState) (cs : list str) (path : str) : shell_wf st cs → utf8_valid path = true →
  let ds := fold_left pushed (split_on SLASH path) (base cs path) in
  ∃ r, normalize_path st path = Done r ∧
    match r with
    | Some p => as_str p = Done (render ds) ∧ Forall good ds ∧ length (render ds) ≤ 256 ∧ fits (base cs path) (split_on SLASH path)
        ∧ ∀ st' cs', shell_wf st' cs' → ∃ p', normalize_path st' (render ds) = Done (Some p') ∧ as_str p' = Done (render ds)
    | None => ¬ fits (base cs path) (split_on SLASH path)
    end.
Proof.
  intros Hw Hv ds. destruct (normalize_path_spec st cs path Hw Hv) as (r&Hr&Hspec). exists r. split; [done|]. destruct r as [p|]; [|done].
  destruct Hspec as [Hh Hfit]. fold ds in Hh. split; [by apply as_str_spec|]. split; [apply Hh|]. split; [rewrite <- cwd_cap; apply Hh|]. split; [done|].
  intros st' cs' Hw'. destruct (normalize_path_spec st' cs' (render ds) Hw' (render_valid ds (ho_good _ _ _ Hh))) as (r'&->&Hs').
  unfold base in Hs'. rewrite render_slash in Hs'.
  destruct (push_render ds (ho_good _ _ _ Hh) (ho_fits _ _ _ Hh) [] eq_refl) as [Hp Hf]. destruct r' as [p'|]; [|done].
  exists p'. split; [done|]. destruct Hs' as [Hh' _]. rewrite Hp in Hh'. by apply as_str_spec.
Qed.

Lemma shell_path_canonical_witness : ∃ p, normalize_path shell_new (bytes "a//b/./../c/") = Done (Some p) ∧ as_str p = Done (bytes "/a/c").
Proof.
  destruct (shell_path_canonical shell_new [] (bytes "a//b/./../c/") shell_new_wf eq_refl) as (r&Hr&Hs). destruct r as [p|].
  - exists p. split; [exact Hr|exact (proj1 Hs)].
  - destruct Hs. apply (bool_decide_unpack _). vm_compute. exact I.
Defined.


