(* ===== verification/Elf.v ===== *)
(** * The ELF loader, [kernel/src/process/elf.rs]

    The image is a list of bytes, the physical memory a function from
    addresses to bytes: the loader writes where the program headers say.
    A write that does not fit the address space is stuck. *)

From S2P Require Export Prelude.
From S2P Require Export Str.

Definition ram : Type := Z → Z.

(** [copy_nonoverlapping], and [write_bytes] with zeros up to [fin]. *)
Definition store (m : ram) (addr : Z) (bs : list Z) : ram := λ a,
  if (addr <=? a)%Z && (a <? addr + Z.of_nat (length bs))%Z then nth (Z.to_nat (a - addr)) bs 0%Z else m a.
Definition store_exec (w : Z) (m : ram) (addr : Z) (bs : list Z) : exec ram :=
  if (addr + Z.of_nat (length bs) <=? 2 ^ w)%Z then Done (store m addr bs) else Stuck.
Definition zero_exec (w : Z) (m : ram) (addr fin : Z) : exec ram :=
  if (fin <=? 2 ^ w)%Z then Done (λ a, if (addr <=? a)%Z && (a <? fin)%Z then 0%Z else m a) else Stuck.

(** ** Headers *)

Definition ELF_MAGIC : list Z := [0x7f; 69; 76; 70]%Z.
Definition PT_LOAD : Z := 1.
Definition ET_EXEC : Z := 2.

Record Elf64Ehdr : Type := mk_ehdr {
  e_ident : list Z; e_type : Z; e_machine : Z; e_version : Z; e_entry : Z; e_phoff : Z; e_shoff : Z;
  e_flags : Z; e_ehsize : Z; e_phentsize : Z; e_phnum : Z; e_shentsize : Z; e_shnum : Z; e_shstrndx : Z;
}.
Definition SIZEOF_EHDR : nat := 64.

Record Elf64Phdr : Type := mk_phdr {
  p_type : Z; p_flags : Z; p_offset : Z; p_vaddr : Z; p_paddr : Z; p_filesz : Z; p_memsz : Z; p_align : Z;
}.
Definition SIZEOF_PHDR : nat := 56.

(** A field of a packed structure. *)
Definition elf_field (data : list Z) (off n : nat) : Z := le_bytes (take n (drop off data)).

Definition read_ehdr (data : list Z) : Elf64Ehdr :=
  mk_ehdr (take 16 data) (elf_field data 16 2) (elf_field data 18 2) (elf_field data 20 4) (elf_field data 24 8) (elf_field data 32 8) (elf_field data 40 8)
    (elf_field data 48 4) (elf_field data 52 2) (elf_field data 54 2) (elf_field data 56 2) (elf_field data 58 2) (elf_field data 60 2) (elf_field data 62 2).

Definition read_phdr (data : list Z) (off : nat) : Elf64Phdr :=
  let d := drop off data in
  mk_phdr (elf_field d 0 4) (elf_field d 4 4) (elf_field d 8 8) (elf_field d 16 8) (elf_field d 24 8) (elf_field d 32 8) (elf_field d 40 8) (elf_field d 48 8).

(** The messages. *)
Inductive ElfError : Type :=
  TooSmall | BadElfMagic | NotElf64 | NotLittleEndian | NotExecutable | HeaderOutOfBounds | SegmentOutOfBounds | NoLoadSegments.

Record ElfLoadResult : Type := mk_load { entry_point : Z; load_base : Z; load_size : Z }.

Definition validate_elf (data : list Z) : ElfError + unit :=
  if length data <? SIZEOF_EHDR then inl TooSmall else
  if negb (bool_decide (take 4 data = ELF_MAGIC)) then inl BadElfMagic else
  if negb (nth 4 data 0 =? 2)%Z then inl NotElf64 else
  if negb (nth 5 data 0 =? 1)%Z then inl NotLittleEndian else inr ().

Section load.
(** The width of an address. *)
Context (w : Z).

(** The two writes of a segment. *)
Definition load_segment (data : list Z) (m : ram) (file_offset mem_addr file_size mem_size : Z) : exec ram :=
  m ← store_exec w m mem_addr (take (Z.to_nat file_size) (drop (Z.to_nat file_offset) data));
  if (file_size <? mem_size)%Z then zero_exec w m (mem_addr + file_size) (mem_addr + mem_size)
  else Done m.

(** The loop over the program headers, with the lowest and the highest address
    so far. *)
Fixpoint load_loop (data : list Z) (phoff phentsize : Z) (idxs : list nat) (base fin : Z) (m : ram) : exec ((ElfError + Z * Z) * ram) :=
  match idxs with
  | [] => Done (inr (base, fin), m)
  | i :: idxs =>
      offset ← add_w w phoff (Z.of_nat i * phentsize);
      hdr_end ← add_w w offset (Z.of_nat SIZEOF_PHDR);
      if (Z.of_nat (length data) <? hdr_end)%Z then Done (inl HeaderOutOfBounds, m) else
      let phdr := read_phdr data (Z.to_nat offset) in
      if negb (p_type phdr =? PT_LOAD)%Z then load_loop data phoff phentsize idxs base fin m else
      let file_offset := wrap w (p_offset phdr) in
      let mem_addr := wrap w (p_paddr phdr) in
      let file_size := wrap w (p_filesz phdr) in
      let mem_size := wrap w (p_memsz phdr) in
      seg_end ← add_w w file_offset file_size;
      if (Z.of_nat (length data) <? seg_end)%Z then Done (inl SegmentOutOfBounds, m) else
      m ← load_segment data m file_offset mem_addr file_size mem_size;
      let base := if (mem_addr <? base)%Z then mem_addr else base in
      mem_end ← add_w w mem_addr mem_size;
      let fin := if (fin <? mem_end)%Z then mem_end else fin in
      load_loop data phoff phentsize idxs base fin m
  end.

Definition load_elf (data : list Z) (m : ram) : exec ((ElfError + ElfLoadResult) * ram) :=
  match validate_elf data with
  | inl e => Done (inl e, m)
  | inr _ =>
      let ehdr := read_ehdr data in
      if negb (e_type ehdr =? ET_EXEC)%Z then Done (inl NotExecutable, m) else
      let entry := wrap w (e_entry ehdr) in
      '(r, m) ← load_loop data (wrap w (e_phoff ehdr)) (e_phentsize ehdr) (seq 0 (Z.to_nat (e_phnum ehdr))) (2 ^ w - 1) 0 m;
      match r with
      | inl e => Done (inl e, m)
      | inr (base, fin) => if (fin <=? base)%Z then Done (inl NoLoadSegments, m) else Done (inr (mk_load entry base (fin - base)), m)
      end
  end.
End load.

(** ** What the loader promises *)

(** *** A reference loader *)

Section reference.
Context (w : Z) (data : list Z).

Definition seg_addr (p : Elf64Phdr) : Z := wrap w (p_paddr p).
Definition seg_file (p : Elf64Phdr) : Z := wrap w (p_filesz p).
Definition seg_end (p : Elf64Phdr) : Z := (wrap w (p_paddr p) + wrap w (p_memsz p))%Z.

(** What a segment puts at an address. *)
Definition byte_at (p : Elf64Phdr) (a : Z) : option Z :=
  if (seg_addr p <=? a)%Z && (a <? seg_addr p + seg_file p)%Z then Some (nth (Z.to_nat (wrap w (p_offset p) + (a - seg_addr p))) data 0%Z)
  else if (seg_addr p + seg_file p <=? a)%Z && (a <? seg_end p)%Z then Some 0%Z else None.

(** Later segments cover earlier ones. *)
Definition loaded (ps : list Elf64Phdr) (m : ram) (a : Z) : Z := foldl (λ b p, default b (byte_at p a)) (m a) ps.

(** The segments up to the first header or segment that lies outside the file,
    and that error. *)
Fixpoint scan (phoff phentsize : Z) (idxs : list nat) : list Elf64Phdr * option ElfError :=
  match idxs with
  | [] => ([], None)
  | i :: idxs =>
      let off := (phoff + Z.of_nat i * phentsize)%Z in
      if (Z.of_nat (length data) <? off + 56)%Z then ([], Some HeaderOutOfBounds) else
      let p := read_phdr data (Z.to_nat off) in
      if negb (p_type p =? PT_LOAD)%Z then scan phoff phentsize idxs else
      if (Z.of_nat (length data) <? wrap w (p_offset p) + seg_file p)%Z then ([], Some SegmentOutOfBounds) else
      let '(ps, e) := scan phoff phentsize idxs in (p :: ps, e)
  end.

(** No sum of the loop leaves the width. *)
Definition sums_fit (phoff phentsize : Z) (idxs : list nat) : Prop := ∀ i, i ∈ idxs →
  let off := (phoff + Z.of_nat i * phentsize)%Z in (0 <= off ∧ off + 56 < 2 ^ w)%Z ∧
  ((off + 56 <= Z.of_nat (length data))%Z → let p := read_phdr data (Z.to_nat off) in p_type p = PT_LOAD →
   (wrap w (p_offset p) + seg_file p < 2 ^ w)%Z ∧ (seg_addr p + seg_file p < 2 ^ w)%Z ∧ (seg_end p < 2 ^ w)%Z).

Lemma load_segment_spec (p : Elf64Phdr) (m : ram) : (wrap w (p_offset p) + seg_file p <= Z.of_nat (length data))%Z →
  (seg_addr p + seg_file p < 2 ^ w)%Z → (seg_end p < 2 ^ w)%Z → (0 < w)%Z →
  ∃ m', load_segment w data m (wrap w (p_offset p)) (seg_addr p) (seg_file p) (wrap w (p_memsz p)) = Done m'
    ∧ ∀ a, m' a = default (m a) (byte_at p a).
Proof.
  intros Hin Hf He Hw. assert (Hp : ∀ x, in_width w (wrap w x)) by (intros x; apply wrap_range; lia).
  pose proof (Hp (p_offset p)) as Ho. pose proof (Hp (p_filesz p)) as Hfs. pose proof (Hp (p_paddr p)) as Hpa. pose proof (Hp (p_memsz p)) as Hms.
  unfold load_segment, store_exec, zero_exec, byte_at. unfold seg_file, seg_addr, seg_end, in_width in *.
  set (off := wrap w (p_offset p)) in *. set (fs := wrap w (p_filesz p)) in *. set (addr := wrap w (p_paddr p)) in *. set (ms := wrap w (p_memsz p)) in *.
  assert (Hl : Z.of_nat (length (take (Z.to_nat fs) (drop (Z.to_nat off) data))) = fs) by (rewrite length_take, length_drop; lia).
  assert (Hst : ∀ a, store m addr (take (Z.to_nat fs) (drop (Z.to_nat off) data)) a =
    if (addr <=? a)%Z && (a <? addr + fs)%Z then nth (Z.to_nat (off + (a - addr))) data 0%Z else m a).
  { intros a. unfold store. rewrite Hl. destruct (_ && _) eqn:Hc; [|done]. apply andb_true_iff in Hc as [H1 H2].
    rewrite !nth_lookup, lookup_take_lt, lookup_drop by lia. do 2 f_equal. lia. }
  rewrite Hl. rewrite (proj2 (Z.leb_le (addr + fs) _)) by lia. cbn [mbind exec_bind].
  destruct (Z.ltb_spec fs ms).
  - rewrite (proj2 (Z.leb_le (addr + ms) _)) by lia. eexists. split; [done|]. intros a. cbv beta. rewrite Hst. repeat case_bool; cbn [andb default]; lia || done.
  - eexists. split; [done|]. intros a. rewrite Hst. repeat case_bool; cbn [andb default]; try lia; try done.
Qed.

Lemma load_loop_spec (phoff phentsize : Z) (idxs : list nat) : (0 < w)%Z → ∀ base fin m, sums_fit phoff phentsize idxs →
  let '(ps, e) := scan phoff phentsize idxs in
  ∃ m', load_loop w data phoff phentsize idxs base fin m
      = Done (match e with Some e => inl e | None => inr (foldl Z.min base (seg_addr <$> ps), foldl Z.max fin (seg_end <$> ps)) end, m')
    ∧ ∀ a, m' a = loaded ps m a.
Proof.
  intros Hw. induction idxs as [|i idxs IH]; intros base fin m Hok; cbn [scan load_loop]; [by exists m|].
  destruct (Hok i (list_elem_of_here _ _)) as [[H0 Hoff] Hseg]. cbv zeta in H0, Hoff, Hseg.
  assert (Hok' : sums_fit phoff phentsize idxs) by (intros j Hj; apply Hok; by right).
  rewrite (add_w_Done w phoff (Z.of_nat i * phentsize)) by lia. cbn [mbind exec_bind]. set (off := (phoff + Z.of_nat i * phentsize)%Z) in *.
  change (Z.of_nat SIZEOF_PHDR) with 56%Z. rewrite (add_w_Done w off 56 Hoff). cbn [mbind exec_bind]. destruct (Z.ltb_spec (Z.of_nat (length data)) (off + 56)) as [?|Hin]; [by exists m|].
  set (p := read_phdr data (Z.to_nat off)) in *. destruct (Z.eqb_spec (p_type p) PT_LOAD) as [Hp|Hp]; cbn [negb]; [|by apply IH].
  destruct (Hseg Hin Hp) as (H1&H2&H3). change (wrap w (p_filesz p)) with (seg_file p). rewrite (add_w_Done w (wrap w (p_offset p)) (seg_file p)) by done. cbn [mbind exec_bind].
  destruct (Z.ltb_spec (Z.of_nat (length data)) (wrap w (p_offset p) + seg_file p)) as [?|Hfile]; [by exists m|].
  change (wrap w (p_paddr p)) with (seg_addr p). destruct (load_segment_spec p m Hfile H2 H3 Hw) as (m1&Hm1&Hat). rewrite Hm1. cbn [mbind exec_bind].
  rewrite add_w_Done by exact H3. cbn [mbind exec_bind]. change (seg_addr p + wrap w (p_memsz p))%Z with (seg_end p).
  replace (if (seg_addr p <? base)%Z then seg_addr p else base) with (Z.min base (seg_addr p)) by (case_bool; lia).
  replace (if (fin <? seg_end p)%Z then seg_end p else fin) with (Z.max fin (seg_end p)) by (case_bool; lia).
  specialize (IH (Z.min base (seg_addr p)) (Z.max fin (seg_end p)) m1 Hok'). destruct (scan phoff phentsize idxs) as [ps e].
  destruct IH as (m'&->&Hm'). exists m'. split; [done|]. intros a. rewrite Hm'. unfold loaded. cbn [foldl]. by rewrite Hat.
Qed.

Lemma scan_fits (phoff phentsize : Z) (idxs : list nat) : sums_fit phoff phentsize idxs → ∀ p, p ∈ (scan phoff phentsize idxs).1 → (seg_end p < 2 ^ w)%Z.
Proof.
  induction idxs as [|i idxs IH]; intros Hok p; cbn [scan]; [by intros ?%elem_of_nil|].
  destruct (Hok i (list_elem_of_here _ _)) as [_ Hseg]. cbv zeta in Hseg. specialize (IH ltac:(intros j Hj; apply Hok; by right)).
  set (off := (phoff + Z.of_nat i * phentsize)%Z) in *. destruct (Z.ltb_spec (Z.of_nat (length data)) (off + 56)) as [?|Hin]; [by intros ?%elem_of_nil|].
  destruct (Z.eqb_spec (p_type (read_phdr data (Z.to_nat off))) PT_LOAD) as [Hp|Hp]; cbn [negb]; [|by apply IH].
  destruct (_ <? _)%Z; [by intros ?%elem_of_nil|]. destruct (scan phoff phentsize idxs) as [ps e]. cbn [fst] in *. intros [->|Hps]%elem_of_cons; [|by apply IH].
  by apply Hseg.
Qed.
End reference.

(** The program headers of an image. *)
Definition elf_scan (w : Z) (data : list Z) : list Elf64Phdr * option ElfError :=
  let e := read_ehdr data in scan w data (wrap w (e_phoff e)) (e_phentsize e) (seq 0 (Z.to_nat (e_phnum e))).
Definition elf_sums_fit (w : Z) (data : list Z) : Prop :=
  let e := read_ehdr data in sums_fit w data (wrap w (e_phoff e)) (e_phentsize e) (seq 0 (Z.to_nat (e_phnum e))).

(** The first fault of the ELF header. *)
Definition header_fault (data : list Z) (e : ElfError) : Prop :=
  match e with
  | TooSmall => length data < 64
  | BadElfMagic => 64 ≤ length data ∧ take 4 data ≠ ELF_MAGIC
  | NotElf64 => 64 ≤ length data ∧ take 4 data = ELF_MAGIC ∧ nth 4 data 0%Z ≠ 2%Z
  | NotLittleEndian => 64 ≤ length data ∧ take 4 data = ELF_MAGIC ∧ nth 4 data 0%Z = 2%Z ∧ nth 5 data 0%Z ≠ 1%Z
  | NotExecutable => 64 ≤ length data ∧ take 5 data = ELF_MAGIC ++ [2%Z] ∧ nth 5 data 0%Z = 1%Z ∧ e_type (read_ehdr data) ≠ 2%Z
  | _ => False
  end.
Definition header_ok (data : list Z) : Prop :=
  64 ≤ length data ∧ take 4 data = ELF_MAGIC ∧ nth 4 data 0%Z = 2%Z ∧ nth 5 data 0%Z = 1%Z ∧ e_type (read_ehdr data) = 2%Z.

Lemma validate_ok (data : list Z) : header_ok data → validate_elf data = inr ().
Proof.
  intros (Hl&Hm&H4&H5&_). unfold validate_elf, SIZEOF_EHDR. rewrite (proj2 (Nat.ltb_ge _ _) Hl), bool_decide_true by done. by rewrite H4, H5.
Qed.

(** What [load_elf] returns when the header passes. *)
Definition elf_outcome (w : Z) (data : list Z) : ElfError + ElfLoadResult :=
  match elf_scan w data with
  | (_, Some e) => inl e
  | (ps, None) =>
      let base := foldl Z.min (2 ^ w - 1)%Z (seg_addr w <$> ps) in let fin := foldl Z.max 0%Z (seg_end w <$> ps) in
      if (fin <=? base)%Z then inl NoLoadSegments else inr (mk_load (wrap w (e_entry (read_ehdr data))) base (fin - base))
  end.

Lemma load_elf_spec (w : Z) (data : list Z) (m : ram) : (0 < w)%Z → header_ok data → elf_sums_fit w data →
  ∃ m', load_elf w data m = Done (elf_outcome w data, m') ∧ ∀ a, m' a = loaded w data (elf_scan w data).1 m a.
Proof.
  intros Hw Hh Hok. unfold load_elf, elf_outcome. rewrite (validate_ok _ Hh). destruct Hh as (_&_&_&_&Ht). rewrite Ht. cbn [negb Z.eqb Pos.eqb].
  change (2 =? ET_EXEC)%Z with true. cbn [negb]. pose proof (load_loop_spec w data _ _ _ Hw (2 ^ w - 1)%Z 0%Z m Hok) as Hspec.
  change (scan w data _ _ _) with (elf_scan w data) in Hspec. destruct (elf_scan w data) as [ps [e|]]; destruct Hspec as (m'&->&Hm'); cbn [mbind exec_bind].
  - by exists m'.
  - exists m'. split; [|done]. by destruct (_ <=? _)%Z.
Qed.

(** *** Bounds of the segments *)

Lemma foldl_min (l : list Z) : ∀ b, (foldl Z.min b l <= b)%Z ∧ (∀ x, x ∈ l → foldl Z.min b l <= x)%Z ∧ (foldl Z.min b l = b ∨ foldl Z.min b l ∈ l).
Proof.
  induction l as [|y l IH]; intros b; cbn [foldl]; [split; [lia|]; split; [|by left]; by intros x ?%elem_of_nil|].
  destruct (IH (Z.min b y)) as (H1&H2&H3). split; [lia|]. split.
  - intros x [->|Hx]%elem_of_cons; [lia|by apply H2].
  - destruct H3 as [H3|H3]; [|by right; right]. rewrite H3. destruct (Z.min_spec b y) as [[_ ->]|[_ ->]]; [by left|by right; left].
Qed.

Lemma foldl_max (l : list Z) : ∀ b, (b <= foldl Z.max b l)%Z ∧ (∀ x, x ∈ l → x <= foldl Z.max b l)%Z ∧ (foldl Z.max b l = b ∨ foldl Z.max b l ∈ l).
Proof.
  induction l as [|y l IH]; intros b; cbn [foldl]; [split; [lia|]; split; [|by left]; by intros x ?%elem_of_nil|].
  destruct (IH (Z.max b y)) as (H1&H2&H3). split; [lia|]. split.
  - intros x [->|Hx]%elem_of_cons; [lia|by apply H2].
  - destruct H3 as [H3|H3]; [|by right; right]. rewrite H3. destruct (Z.max_spec b y) as [[_ ->]|[_ ->]]; [by right; left|by left].
Qed.

Lemma loaded_outside (w : Z) (data : list Z) (ps : list Elf64Phdr) (m : ram) (a : Z) :
  (∀ p, p ∈ ps → byte_at w data p a = None) → loaded w data ps m a = m a.
Proof.
  unfold loaded. generalize (m a). induction ps as [|p ps IH]; intros b Hn; cbn [foldl]; [done|].
  rewrite (Hn p (list_elem_of_here _ _)). cbn [default]. apply IH. intros q Hq. apply Hn. by right.
Qed.

(** The only segment that covers an address decides its byte. *)
Lemma loaded_inside (w : Z) (data : list Z) (ps : list Elf64Phdr) (m : ram) (i : nat) (p : Elf64Phdr) (a x : Z) :
  ps !! i = Some p → byte_at w data p a = Some x → (∀ j q, j ≠ i → ps !! j = Some q → byte_at w data q a = None) → loaded w data ps m a = x.
Proof.
  intros Hi Hx Hn. rewrite <- (take_drop_middle ps i p Hi). unfold loaded. rewrite foldl_app. cbn [foldl]. rewrite Hx. cbn [default].
  assert (Hrest : ∀ q, q ∈ drop (S i) ps → byte_at w data q a = None).
  { intros q (j&Hj)%list_elem_of_lookup. rewrite lookup_drop in Hj. apply (Hn (S i + j)); [lia|done]. }
  exact (loaded_outside w data (drop (S i) ps) (λ _, x) a Hrest).
Qed.

(** *** Writing an image *)

(** Numbers of given sizes, one after the other. *)
Definition pack (l : list (nat * Z)) : list Z := concat ((λ '(n, x), to_le n x) <$> l).
Definition pack_size (l : list (nat * Z)) : nat := sum_list (fst <$> l).

Lemma length_pack (l : list (nat * Z)) : length (pack l) = pack_size l.
Proof. unfold pack, pack_size. induction l as [|[n x] l IH]; [done|]. cbn. by rewrite length_app, length_to_le, IH. Qed.

(** A field is read back. *)
Lemma pack_field (k : nat) (l : list (nat * Z)) (rest : list Z) (off n : nat) (x : Z) : l !! k = Some (n, x) → off = pack_size (take k l) →
  in_width (8 * Z.of_nat n) x → elf_field (pack l ++ rest) off n = x.
Proof.
  intros Hk -> Hx. unfold elf_field. rewrite <- (take_drop_middle l k _ Hk) at 2. unfold pack. rewrite fmap_app, concat_app. cbn [fmap list_fmap concat].
  rewrite <- !app_assoc. change (concat ((λ '(n, x), to_le n x) <$> take k l)) with (pack (take k l)).
  rewrite drop_app_length' by (by rewrite length_pack). rewrite take_app_length' by (by rewrite length_to_le). by apply to_le_bytes.
Qed.

Record Segment : Type := mk_segment { sg_flags : Z; sg_vaddr : Z; sg_paddr : Z; sg_bytes : list Z; sg_memsz : Z; sg_align : Z }.

Definition ehdr_fields (entry : Z) (phnum : nat) : list (nat * Z) :=
  zip [4; 1; 1; 1; 1; 8; 2; 2; 4; 8; 8; 8; 4; 2; 2; 2; 2; 2; 2] [0x464c457f; 2; 1; 1; 0; 0; 2; 243; 1; entry; 64; 0; 0; 64; 56; Z.of_nat phnum; 64; 0; 0]%Z.
Definition phdr_fields (off : nat) (s : Segment) : list (nat * Z) :=
  zip [4; 4; 8; 8; 8; 8; 8; 8] [1; sg_flags s; Z.of_nat off; sg_vaddr s; sg_paddr s; Z.of_nat (length (sg_bytes s)); sg_memsz s; sg_align s]%Z.

(** Where the bytes of the segments lie. *)
Fixpoint placed (off : nat) (segs : list Segment) : list (nat * Segment) :=
  match segs with [] => [] | s :: segs => (off, s) :: placed (off + length (sg_bytes s)) segs end.
Definition contents (segs : list Segment) : list Z := concat (sg_bytes <$> segs).
Definition elf_file (entry : Z) (segs : list Segment) : list Z :=
  pack (ehdr_fields entry (length segs)) ++ concat ((λ '(o, s), pack (phdr_fields o s)) <$> placed (64 + 56 * length segs) segs) ++ contents segs.

Definition segment_end (s : Segment) : Z := (sg_paddr s + sg_memsz s)%Z.
Record segment_ok (s : Segment) : Prop := {
  sk_flags : in_width 32 (sg_flags s);
  sk_vaddr : in_width 64 (sg_vaddr s);
  sk_align : in_width 64 (sg_align s);
  sk_paddr : (0 <= sg_paddr s)%Z;
  sk_memsz : (Z.of_nat (length (sg_bytes s)) <= sg_memsz s)%Z;
  sk_end : (segment_end s < 2 ^ 64)%Z;
}.
(** An image of segments that fit and do not overlap; a slice has fewer than
    2^63 bytes. *)
Record image_ok (entry : Z) (segs : list Segment) : Prop := {
  im_entry : in_width 64 entry;
  im_count : (Z.of_nat (length segs) < 65536)%Z;
  im_some : ∃ s, s ∈ segs ∧ (0 < sg_memsz s)%Z;
  im_segs : Forall segment_ok segs;
  im_disjoint : ∀ i j s t, i ≠ j → segs !! i = Some s → segs !! j = Some t → (segment_end s <= sg_paddr t ∨ segment_end t <= sg_paddr s)%Z;
  im_size : (Z.of_nat (length (elf_file entry segs)) < 2 ^ 63)%Z;
}.

Lemma length_placed (segs : list Segment) : ∀ off, length (placed off segs) = length segs.
Proof. induction segs as [|s segs IH]; intros off; cbn; [done|]. by rewrite IH. Qed.

Lemma placed_contents (segs : list Segment) : ∀ off i o s, placed off segs !! i = Some (o, s) →
  segs !! i = Some s ∧ off ≤ o ∧ o - off + length (sg_bytes s) ≤ length (contents segs) ∧ take (length (sg_bytes s)) (drop (o - off) (contents segs)) = sg_bytes s.
Proof.
  induction segs as [|t segs IH]; intros off i o s Hi; [done|]. cbn [placed] in Hi. unfold contents. cbn [fmap list_fmap concat].
  destruct i as [|i]; cbn [lookup list_lookup] in Hi |- *.
  - injection Hi as <- <-. rewrite Nat.sub_diag. split; [done|]. split; [lia|]. rewrite length_app. split; [lia|]. by rewrite drop_0, take_app_length.
  - destruct (IH _ _ _ _ Hi) as (H1&H2&H3&H4). split; [done|]. split; [lia|]. rewrite length_app. unfold contents in H3, H4. split; [lia|].
    rewrite drop_app_ge by lia. replace (o - off - length (sg_bytes t)) with (o - (off + length (sg_bytes t))) by lia. done.
Qed.

Lemma drop_rows {A} (n : nat) (rows : list (list A)) (rest : list A) : Forall (λ r, length r = n) rows → ∀ i r, rows !! i = Some r →
  ∃ rest', drop (i * n) (concat rows ++ rest) = r ++ rest'.
Proof.
  induction 1 as [|r0 rows H0 _ IH]; intros i r Hi; [done|]. destruct i as [|i]; cbn in Hi.
  - injection Hi as <-. cbn [concat]. rewrite <- app_assoc. by eexists.
  - cbn [concat]. rewrite <- app_assoc, drop_app_ge by (cbn; lia). replace (S i * n - length r0) with (i * n) by (cbn; lia). by apply IH.
Qed.

Section image.
Context (entry : Z) (segs : list Segment) (Hok : image_ok entry segs).

Definition phdr_of (o : nat) (s : Segment) : Elf64Phdr :=
  mk_phdr 1 (sg_flags s) (Z.of_nat o) (sg_vaddr s) (sg_paddr s) (Z.of_nat (length (sg_bytes s))) (sg_memsz s) (sg_align s).
Definition image_phdrs : list Elf64Phdr := (λ '(o, s), phdr_of o s) <$> placed (64 + 56 * length segs) segs.
Definition rows : list (list Z) := (λ '(o, s), pack (phdr_fields o s)) <$> placed (64 + 56 * length segs) segs.

Lemma rows_56 : Forall (λ r, length r = 56) rows.
Proof. unfold rows. apply Forall_fmap, Forall_forall. intros [o s] _. apply length_pack. Qed.

Lemma length_rows : length (concat rows) = 56 * length segs.
Proof.
  assert (H : ∀ l : list (list Z), Forall (λ r, length r = 56) l → length (concat l) = 56 * length l).
  { induction 1 as [|r l Hr _ IH]; [done|]. cbn [concat length]. rewrite length_app, IH, Hr. lia. }
  rewrite (H _ rows_56). unfold rows. by rewrite length_fmap, length_placed.
Qed.

Lemma length_elf_file : length (elf_file entry segs) = 64 + 56 * length segs + length (contents segs).
Proof. unfold elf_file. rewrite !length_app, length_pack. fold rows. rewrite length_rows. change (pack_size _) with 64. lia. Qed.

Lemma image_ehdr : let e := read_ehdr (elf_file entry segs) in
  e_type e = 2%Z ∧ e_entry e = entry ∧ e_phoff e = 64%Z ∧ e_phentsize e = 56%Z ∧ e_phnum e = Z.of_nat (length segs).
Proof.
  destruct Hok as [He Hc _ _ _ _]. unfold read_ehdr, elf_file. cbn [e_type e_entry e_phoff e_phentsize e_phnum].
  assert (Hw : ∀ k x, (0 <= x < 2 ^ (8 * Z.of_nat k))%Z → in_width (8 * Z.of_nat k) x) by done. split_and!.
  - apply (pack_field 6); [done|done|]. by apply Hw.
  - apply (pack_field 9); done.
  - apply (pack_field 10); [done|done|]. by apply Hw.
  - apply (pack_field 14); [done|done|]. by apply Hw.
  - apply (pack_field 15); [done|done|]. apply Hw. change (2 ^ (8 * Z.of_nat 2))%Z with 65536%Z. lia.
Qed.

Lemma image_header_ok : header_ok (elf_file entry segs).
Proof.
  destruct image_ehdr as [Ht _]. split; [rewrite length_elf_file; lia|]. split_and!; [reflexivity..|exact Ht].
Qed.

Lemma placed_segment (i o : nat) (s : Segment) : placed (64 + 56 * length segs) segs !! i = Some (o, s) →
  segment_ok s ∧ o + length (sg_bytes s) ≤ length (elf_file entry segs) ∧ take (length (sg_bytes s)) (drop o (elf_file entry segs)) = sg_bytes s
  ∧ read_phdr (elf_file entry segs) (64 + i * 56) = phdr_of o s.
Proof.
  intros Hi. destruct (placed_contents _ _ _ _ _ Hi) as (Hs&Ho&Hlen&Htake). rewrite length_elf_file.
  assert (Hsk : segment_ok s) by (pose proof (im_segs _ _ Hok) as Hf; rewrite Forall_lookup in Hf; by apply (Hf i)).
  split; [done|]. split; [lia|]. assert (Hhdr : length (pack (ehdr_fields entry (length segs))) = 64) by apply length_pack. split.
  - unfold elf_file. fold rows. rewrite drop_app_ge by lia. rewrite drop_app_ge by (rewrite length_rows; lia). rewrite Hhdr, length_rows.
    replace (o - 64 - 56 * length segs) with (o - (64 + 56 * length segs)) by lia. done.
  - unfold read_phdr, elf_file. fold rows. rewrite drop_app_ge by lia. rewrite Hhdr. replace (64 + i * 56 - 64) with (i * 56) by lia.
    destruct (drop_rows 56 rows (contents segs) rows_56 i (pack (phdr_fields o s))) as (rest'&->); [unfold rows; by rewrite list_lookup_fmap, Hi|].
    pose proof (im_size _ _ Hok) as Hsz. rewrite length_elf_file in Hsz. destruct Hsk as [Hfl Hva Hal Hpa Hms Hend]. unfold segment_end in Hend.
    assert (Hw : ∀ x, (0 <= x < 2 ^ 64)%Z → in_width (8 * Z.of_nat 8) x) by done.
    unfold phdr_of. f_equal.
    + by apply (pack_field 1).
    + apply (pack_field 2); [done|done|]. apply Hw. lia.
    + by apply (pack_field 3).
    + apply (pack_field 4); [done|done|]. apply Hw. lia.
    + apply (pack_field 5); [done|done|]. apply Hw. lia.
    + apply (pack_field 6); [done|done|]. apply Hw. lia.
    + by apply (pack_field 7).
Qed.

(** Nothing wraps in a segment that fits. *)
Lemma phdr_of_fields (o : nat) (s : Segment) : segment_ok s → (Z.of_nat o + Z.of_nat (length (sg_bytes s)) < 2 ^ 63)%Z →
  wrap 64 (p_offset (phdr_of o s)) = Z.of_nat o ∧ seg_addr 64 (phdr_of o s) = sg_paddr s
  ∧ seg_file 64 (phdr_of o s) = Z.of_nat (length (sg_bytes s)) ∧ seg_end 64 (phdr_of o s) = segment_end s.
Proof.
  intros [Hfl Hva Hal Hpa Hms Hend] Hsz. unfold segment_end in *. unfold seg_addr, seg_file, seg_end, phdr_of. cbn [p_offset p_paddr p_filesz p_memsz].
  rewrite !wrap_small by (unfold in_width; lia). done.
Qed.

Lemma image_sums_fit_at (i o : nat) (s : Segment) : placed (64 + 56 * length segs) segs !! i = Some (o, s) →
  (Z.of_nat o + Z.of_nat (length (sg_bytes s)) < 2 ^ 63)%Z.
Proof. intros Hi. destruct (placed_segment i o s Hi) as (_&Hl&_). pose proof (im_size _ _ Hok). lia. Qed.

Lemma image_scan_from (n : nat) : ∀ j, j + n = length segs →
  scan 64 (elf_file entry segs) 64 56 (seq j n) = (drop j image_phdrs, None).
Proof.
  induction n as [|n IH]; intros j Hj.
  { cbn [seq scan]. rewrite drop_ge; [done|]. unfold image_phdrs. rewrite length_fmap, length_placed. lia. }
  assert (Hlt : j < length (placed (64 + 56 * length segs) segs)) by (rewrite length_placed; lia).
  destruct (lookup_lt_is_Some_2 _ _ Hlt) as [[o s] Hi]. destruct (placed_segment j o s Hi) as (Hsk&Hl&_&Hread).
  destruct (phdr_of_fields o s Hsk (image_sums_fit_at j o s Hi)) as (Hof&Had&Hfi&Hen).
  rewrite (drop_S image_phdrs (phdr_of o s) j) by (unfold image_phdrs; by rewrite list_lookup_fmap, Hi).
  cbn [seq scan]. replace (Z.to_nat (64 + Z.of_nat j * 56)) with (64 + j * 56) by lia. rewrite Hread, Hof, Hfi, (IH (S j)) by lia.
  pose proof length_elf_file as Hlen. rewrite (proj2 (Z.ltb_ge _ (64 + Z.of_nat j * 56 + 56))) by lia. cbn [p_type phdr_of]. change (1 =? PT_LOAD)%Z with true. cbn [negb].
  by rewrite (proj2 (Z.ltb_ge _ (Z.of_nat o + Z.of_nat (length (sg_bytes s))))) by lia.
Qed.

Lemma image_scan : elf_scan 64 (elf_file entry segs) = (image_phdrs, None).
Proof.
  unfold elf_scan. destruct image_ehdr as (_&_&->&->&->). rewrite Nat2Z.id. change (wrap 64 64) with 64%Z. by rewrite image_scan_from.
Qed.

Lemma image_sums : elf_sums_fit 64 (elf_file entry segs).
Proof.
  unfold elf_sums_fit. destruct image_ehdr as (_&_&->&->&->). rewrite Nat2Z.id. change (wrap 64 64) with 64%Z. intros j Hi. apply elem_of_seq in Hi.
  assert (Hlt : j < length (placed (64 + 56 * length segs) segs)) by (rewrite length_placed; lia).
  destruct (lookup_lt_is_Some_2 _ _ Hlt) as [[o s] Hp]. destruct (placed_segment j o s Hp) as (Hsk&Hl&_&Hread). pose proof (image_sums_fit_at j o s Hp) as Hsz.
  destruct (phdr_of_fields o s Hsk Hsz) as (Hof&Had&Hfi&Hen). pose proof (im_count _ _ Hok). split; [lia|]. intros _. cbv zeta. intros _.
  replace (Z.to_nat (64 + Z.of_nat j * 56)) with (64 + j * 56) by lia. rewrite Hread, Hof, Had, Hfi, Hen. destruct Hsk. unfold segment_end in *. lia.
Qed.

Lemma image_byte (i o : nat) (s : Segment) (a : Z) : placed (64 + 56 * length segs) segs !! i = Some (o, s) →
  byte_at 64 (elf_file entry segs) (phdr_of o s) a =
    if (sg_paddr s <=? a)%Z && (a <? segment_end s)%Z then Some (nth (Z.to_nat (a - sg_paddr s)) (sg_bytes s) 0%Z) else None.
Proof.
  intros Hi. destruct (placed_segment i o s Hi) as (Hsk&_&Htake&_). destruct (phdr_of_fields o s Hsk (image_sums_fit_at i o s Hi)) as (Hof&Had&Hfi&Hen).
  unfold byte_at. rewrite Hof, Had, Hfi, Hen. destruct Hsk as [_ _ _ Hpa Hms Hend]. unfold segment_end in *.
  destruct (Z.leb_spec (sg_paddr s) a); cbn [andb]; [|by rewrite (proj2 (Z.leb_gt (sg_paddr s + _) a)) by lia].
  destruct (Z.ltb_spec a (sg_paddr s + Z.of_nat (length (sg_bytes s)))).
  - rewrite (proj2 (Z.ltb_lt a (sg_paddr s + sg_memsz s))) by lia. f_equal. rewrite <- Htake at 1. rewrite !nth_lookup, lookup_take_lt, lookup_drop by lia.
    do 2 f_equal. lia.
  - rewrite (proj2 (Z.leb_le (sg_paddr s + _) a)) by lia. cbn [andb]. destruct (_ <? _)%Z; [|done]. by rewrite nth_overflow by lia.
Qed.

Lemma image_phdr_at (i : nat) (p : Elf64Phdr) : image_phdrs !! i = Some p →
  ∃ o s, p = phdr_of o s ∧ segs !! i = Some s ∧ placed (64 + 56 * length segs) segs !! i = Some (o, s).
Proof.
  unfold image_phdrs. rewrite list_lookup_fmap. destruct (placed _ _ !! i) as [[o s]|] eqn:Hi; [|done]. intros [= <-]. exists o, s. split; [done|].
  split; [|done]. by apply (placed_contents _ _ _ _ _ Hi).
Qed.

Lemma image_segment_at (i : nat) (s : Segment) : segs !! i = Some s →
  ∃ o, image_phdrs !! i = Some (phdr_of o s) ∧ placed (64 + 56 * length segs) segs !! i = Some (o, s).
Proof.
  intros Hs. assert (Hlt : i < length (placed (64 + 56 * length segs) segs)) by (rewrite length_placed; by apply lookup_lt_Some in Hs).
  destruct (lookup_lt_is_Some_2 _ _ Hlt) as [[o t] Hi]. destruct (placed_contents _ _ _ _ _ Hi) as (Ht&_). simplify_eq. exists o. split; [|done].
  unfold image_phdrs. by rewrite list_lookup_fmap, Hi.
Qed.

Lemma image_range (f : Elf64Phdr → Z) (g : Segment → Z) : (∀ i o s, placed (64 + 56 * length segs) segs !! i = Some (o, s) → f (phdr_of o s) = g s) →
  ∀ x, x ∈ f <$> image_phdrs ↔ ∃ s, s ∈ segs ∧ x = g s.
Proof.
  intros Hfg x. rewrite list_elem_of_fmap. split.
  - intros (p&->&(i&Hi)%list_elem_of_lookup). destruct (image_phdr_at i p Hi) as (o&s&->&Hs&Hp). exists s. split; [by eapply list_elem_of_lookup_2|]. by apply (Hfg i).
  - intros (s&(i&Hs)%list_elem_of_lookup&->). destruct (image_segment_at i s Hs) as (o&Hp&Hi). exists (phdr_of o s). split; [by rewrite (Hfg i)|].
    by eapply list_elem_of_lookup_2.
Qed.

(** The range of the segments. *)
Lemma image_bounds : let base := foldl Z.min (2 ^ 64 - 1)%Z (seg_addr 64 <$> image_phdrs) in let fin := foldl Z.max 0%Z (seg_end 64 <$> image_phdrs) in
  (base < fin)%Z ∧ (∀ s, s ∈ segs → base <= sg_paddr s ∧ segment_end s <= fin)%Z ∧ (∃ s, s ∈ segs ∧ sg_paddr s = base) ∧ (∃ s, s ∈ segs ∧ segment_end s = fin).
Proof.
  intros base fin.
  assert (Ha : ∀ i o s, placed (64 + 56 * length segs) segs !! i = Some (o, s) → seg_addr 64 (phdr_of o s) = sg_paddr s).
  { intros i o s Hi. destruct (placed_segment i o s Hi) as (Hsk&_). by destruct (phdr_of_fields o s Hsk (image_sums_fit_at i o s Hi)) as (_&?&_). }
  assert (He : ∀ i o s, placed (64 + 56 * length segs) segs !! i = Some (o, s) → seg_end 64 (phdr_of o s) = segment_end s).
  { intros i o s Hi. destruct (placed_segment i o s Hi) as (Hsk&_). by destruct (phdr_of_fields o s Hsk (image_sums_fit_at i o s Hi)) as (_&_&_&?). }
  pose proof (image_range _ _ Ha) as Hra. pose proof (image_range _ _ He) as Hre.
  destruct (foldl_min (seg_addr 64 <$> image_phdrs) (2 ^ 64 - 1)%Z) as (_&Hb&Hbin). destruct (foldl_max (seg_end 64 <$> image_phdrs) 0%Z) as (_&Hf&Hfin).
  fold base in Hb, Hbin. fold fin in Hf, Hfin.
  assert (Hall : ∀ s, s ∈ segs → (base <= sg_paddr s ∧ segment_end s <= fin)%Z) by (intros s Hs; split; [apply Hb, Hra|apply Hf, Hre]; by exists s).
  destruct (im_some _ _ Hok) as (s0&Hs0&Hpos). pose proof (Hall s0 Hs0) as [Hb0 Hf0].
  assert (Hk0 : segment_ok s0) by (pose proof (im_segs _ _ Hok) as Hfa; rewrite Forall_forall in Hfa; by apply Hfa). destruct Hk0 as [_ _ _ Hpa _ Hend].
  unfold segment_end in Hf0, Hend. split; [lia|]. split; [done|]. split.
  - destruct Hbin as [Hbin|Hbin]; [exfalso; lia|]. apply Hra in Hbin as (s&Hs&->). by exists s.
  - destruct Hfin as [Hfin|Hfin]; [exfalso; lia|]. apply Hre in Hfin as (s&Hs&->). by exists s.
Qed.
End image.

(** *** Properties *)

(** C16. The loader agrees with the reference on every file.  A file whose
    header fails is refused with the first fault, nothing written.  Otherwise,
    when no sum leaves the address width, it returns what [elf_outcome] says
    (the first header or segment out of the file, no segment, or the entry and
    the range from the lowest start to the highest end of the segments), and
    memory holds, byte by byte, the segments before the first error in order. *)
Theorem load_elf_exact (w : Z) (data : list Z) (m : ram) : (0 < w)%Z →
  (header_ok data ∨ ∃ e, header_fault data e)
  ∧ (∀ e, header_fault data e → load_elf w data m = Done (inl e, m))
  ∧ (header_ok data → elf_sums_fit w data →
     ∃ m', load_elf w data m = Done (elf_outcome w data, m') ∧ ∀ a, m' a = loaded w data (elf_scan w data).1 m a).
Proof.
  intros Hw. assert (H5 : take 4 data = ELF_MAGIC → nth 4 data 0%Z = 2%Z → 64 ≤ length data → take 5 data = ELF_MAGIC ++ [2%Z]).
  { intros Hm H4 Hl. destruct data as [|b0 [|b1 [|b2 [|b3 [|b4 r]]]]]; cbn in Hl; try lia. cbn in Hm, H4 |- *. by rewrite H4; injection Hm as -> -> -> ->. }
  split; [|split; [|by apply load_elf_spec]].
  - unfold header_ok, header_fault. destruct (decide (64 ≤ length data)) as [Hl|]; [|right; exists TooSmall; lia].
    destruct (decide (take 4 data = ELF_MAGIC)) as [Hm|]; [|right; by exists BadElfMagic].
    destruct (decide (nth 4 data 0%Z = 2%Z)) as [H4|]; [|right; by exists NotElf64].
    destruct (decide (nth 5 data 0%Z = 1%Z)) as [Hle|]; [|right; by exists NotLittleEndian].
    destruct (decide (e_type (read_ehdr data) = 2%Z)) as [He|]; [left; by split_and!|right; exists NotExecutable; auto].
  - intros e He. unfold load_elf, validate_elf, SIZEOF_EHDR. destruct e; cbn [header_fault] in He; try done.
    + by rewrite (proj2 (Nat.ltb_lt _ _) He).
    + destruct He as [Hl Hm]. by rewrite (proj2 (Nat.ltb_ge _ _) Hl), bool_decide_false.
    + destruct He as (Hl&Hm&H4). rewrite (proj2 (Nat.ltb_ge _ _) Hl), bool_decide_true by done. cbn [negb]. by rewrite (proj2 (Z.eqb_neq _ _) H4).
    + destruct He as (Hl&Hm&H4&Hle). rewrite (proj2 (Nat.ltb_ge _ _) Hl), bool_decide_true by done. rewrite H4. cbn [negb]. change (2 =? 2)%Z with true. cbn [negb].
      by rewrite (proj2 (Z.eqb_neq _ _) Hle).
    + destruct He as (Hl&Hm&Hle&Ht). destruct data as [|b0 [|b1 [|b2 [|b3 [|b4 r]]]]]; cbn in Hl; try lia. cbn in Hm. injection Hm as -> -> -> -> ->.
      rewrite (proj2 (Nat.ltb_ge _ _)) by (cbn; lia). rewrite bool_decide_true by done. rewrite Hle. cbn [negb nth]. change (2 =? 2)%Z with true.
      change (1 =? 1)%Z with true. cbn [negb]. by rewrite (proj2 (Z.eqb_neq (e_type _) ET_EXEC) Ht).
Qed.

Definition demo_segments : list Segment :=
  [mk_segment 5 0x80400000 0x80400000 [1; 2; 3; 4]%Z 4 4096; mk_segment 6 0x80401000 0x80401000 [9; 8]%Z 16 4096].
Definition demo_elf : list Z := elf_file 0x80400000 demo_segments.

Lemma demo_image_ok : image_ok 0x80400000 demo_segments.
Proof.
  split; try by split.
  - exists (mk_segment 5 0x80400000 0x80400000 [1; 2; 3; 4]%Z 4 4096). split; [by left|done].
  - repeat constructor; done.
  - intros [|[|i]] [|[|j]] s t Hij Hs Ht; cbn in Hs, Ht; simplify_eq/=; unfold segment_end; cbn; lia.
Qed.

Lemma demo_outcome : elf_outcome 64 demo_elf = inr (mk_load 0x80400000 0x80400000 0x1010).
Proof. vm_compute. reflexivity. Qed.

Lemma load_elf_exact_witness : elf_outcome 64 demo_elf = inr (mk_load 0x80400000 0x80400000 0x1010) ∧
  ∃ m', load_elf 64 demo_elf (λ _, 7%Z) = Done (elf_outcome 64 demo_elf, m') ∧ ∀ a, m' a = loaded 64 demo_elf (elf_scan 64 demo_elf).1 (λ _, 7%Z) a.
Proof.
  split; [exact demo_outcome|]. destruct (load_elf_exact 64 demo_elf (λ _, 7%Z) eq_refl) as (_&_&H). apply H.
  - exact (image_header_ok _ _ demo_image_ok).
  - exact (image_sums _ _ demo_image_ok).
Defined.

(** Loading undoes writing: an image of segments that fit the address
    space and do not overlap is loaded with its entry and the range of its
    segments; memory holds the bytes of every segment where it asks for them,
    zeros up to its size in memory, and nothing else changes. *)
Theorem load_elf_roundtrip (entry : Z) (segs : list Segment) (m : ram) : image_ok entry segs →
  ∃ base fin m', load_elf 64 (elf_file entry segs) m = Done (inr (mk_load entry base (fin - base)), m')
    ∧ (∀ s, s ∈ segs → base <= sg_paddr s ∧ segment_end s <= fin)%Z
    ∧ (∃ s, s ∈ segs ∧ sg_paddr s = base) ∧ (∃ s, s ∈ segs ∧ segment_end s = fin)
    ∧ (∀ s k, s ∈ segs → (0 <= k < sg_memsz s)%Z → m' (sg_paddr s + k)%Z = nth (Z.to_nat k) (sg_bytes s) 0%Z)
    ∧ (∀ a, (∀ s, s ∈ segs → a < sg_paddr s ∨ segment_end s <= a)%Z → m' a = m a).
Proof.
  intros Hok. destruct (load_elf_spec 64 (elf_file entry segs) m eq_refl (image_header_ok _ _ Hok) (image_sums _ _ Hok)) as (m'&Hload&Hmem).
  unfold elf_outcome in Hload. rewrite (image_scan _ _ Hok) in Hload, Hmem. cbn [fst] in Hmem. destruct (image_ehdr _ _ Hok) as (_&He&_). rewrite He in Hload.
  destruct (image_bounds _ _ Hok) as (Hlt&Hall&Hbase&Hfin). rewrite (proj2 (Z.leb_gt _ _) Hlt), wrap_small in Hload by apply (im_entry _ _ Hok).
  eexists _, _, m'. split; [exact Hload|]. split; [exact Hall|]. split; [exact Hbase|]. split; [exact Hfin|]. split.
  - intros s k (i&Hs)%list_elem_of_lookup Hk. destruct (image_segment_at segs i s Hs) as (o&Hp&Hi). rewrite Hmem.
    apply (loaded_inside 64 (elf_file entry segs) (image_phdrs segs) m i (phdr_of o s)); [done|..].
    + rewrite (image_byte entry segs Hok i o s _ Hi). unfold segment_end. rewrite (proj2 (Z.leb_le _ _)), (proj2 (Z.ltb_lt _ _)) by lia. cbn [andb]. do 2 f_equal. lia.
    + intros j q Hj Hq. destruct (image_phdr_at segs j q Hq) as (o'&t&->&Ht&Hi'). rewrite (image_byte entry segs Hok j o' t _ Hi').
      pose proof (im_disjoint _ _ Hok i j s t ltac:(done) Hs Ht) as Hd. unfold segment_end in *. repeat case_bool; cbn [andb]; done || lia.
  - intros a Ha. rewrite Hmem. apply loaded_outside. intros p (i&Hp)%list_elem_of_lookup. destruct (image_phdr_at segs i p Hp) as (o&s&->&Hs&Hi).
    rewrite (image_byte entry segs Hok i o s a Hi). specialize (Ha s ltac:(by eapply list_elem_of_lookup_2)). repeat case_bool; cbn [andb]; done || lia.
Qed.

Lemma load_elf_roundtrip_witness : ∃ base fin m', load_elf 64 demo_elf (λ _, 7%Z) = Done (inr (mk_load 0x80400000 base (fin - base)), m')
  ∧ m' 0x80401001%Z = 8%Z ∧ m' 0x8040100f%Z = 0%Z ∧ m' 0x80401010%Z = 7%Z.
Proof.
  destruct (load_elf_roundtrip 0x80400000 demo_segments (λ _, 7%Z) demo_image_ok) as (base&fin&m'&Hl&_&_&_&Hin&Hout). exists base, fin, m'. split; [exact Hl|].
  assert (Hs : mk_segment 6 0x80401000 0x80401000 [9; 8]%Z 16 4096 ∈ demo_segments) by (right; left). split; [|split].
  - exact (Hin _ 1%Z Hs (conj (Z.le_0_1) eq_refl)).
  - exact (Hin _ 15%Z Hs (conj (Pos2Z.is_nonneg 15) eq_refl)).
  - apply Hout. intros s [->|[->|[]%elem_of_nil]%elem_of_cons]%elem_of_cons; right; done.
Defined.

(** When every segment is at least as large in memory as in the file, all
    that a successful load changes lies in the range it returns.  The loader
    does not check that: a segment with more bytes in the file than in memory
    is copied whole, past the range. *)
Theorem load_elf_confined (w : Z) (data : list Z) (m m' : ram) (r : ElfLoadResult) : (0 < w)%Z → header_ok data → elf_sums_fit w data →
  load_elf w data m = Done (inr r, m') → Forall (λ p, seg_file w p <= wrap w (p_memsz p))%Z (elf_scan w data).1 →
  (0 < load_size r)%Z ∧ (load_base r + load_size r < 2 ^ w)%Z ∧ ∀ a, (a < load_base r ∨ load_base r + load_size r <= a)%Z → m' a = m a.
Proof.
  intros Hw Hh Hs Hl Hsz. destruct (load_elf_spec w data m Hw Hh Hs) as (m1&Hl1&Hm1). rewrite Hl1 in Hl. injection Hl as Hr <-.
  pose proof (scan_fits w data _ _ _ Hs : ∀ p, p ∈ (elf_scan w data).1 → _) as Hfit. unfold elf_outcome in Hr.
  destruct (elf_scan w data) as [ps [e|]]; [done|]. cbn [fst] in *. destruct (Z.leb_spec (foldl Z.max 0%Z (seg_end w <$> ps)) (foldl Z.min (2 ^ w - 1)%Z (seg_addr w <$> ps))) as [?|Hlt]; [done|].
  injection Hr as <-. cbn [load_base load_size]. destruct (foldl_min (seg_addr w <$> ps) (2 ^ w - 1)%Z) as (_&Hb&_). destruct (foldl_max (seg_end w <$> ps) 0%Z) as (H0&Hf&Hfin).
  set (base := foldl Z.min _ _) in *. set (fin := foldl Z.max _ _) in *. split; [lia|]. split.
  - replace (base + (fin - base))%Z with fin by lia. destruct Hfin as [->|(p&->&Hp)%list_elem_of_fmap]; [lia|]. by apply Hfit.
  - intros a Ha. rewrite Hm1. apply loaded_outside. intros p Hp. specialize (Hb (seg_addr w p) ltac:(apply list_elem_of_fmap; by exists p)).
    specialize (Hf (seg_end w p) ltac:(apply list_elem_of_fmap; by exists p)). rewrite Forall_forall in Hsz. specialize (Hsz p Hp).
    unfold byte_at. unfold seg_end in *. fold (seg_addr w p) in *. assert (Hnn : (0 <= seg_file w p)%Z) by (apply (wrap_range w); lia). clearbody base fin. clear Hfin Hfit. repeat case_bool; cbn [andb]; first [done|exfalso; lia].
Qed.

Lemma load_elf_confined_witness : ∃ m', load_elf 64 demo_elf (λ _, 7%Z) = Done (inr (mk_load 0x80400000 0x80400000 0x1010), m')
  ∧ (0 < 0x1010)%Z ∧ (0x80400000 + 0x1010 < 2 ^ 64)%Z ∧ ∀ a, (a < 0x80400000 ∨ 0x80400000 + 0x1010 <= a)%Z → m' a = 7%Z.
Proof.
  destruct (load_elf_spec 64 demo_elf (λ _, 7%Z) eq_refl (image_header_ok _ _ demo_image_ok) (image_sums _ _ demo_image_ok)) as (m'&Hl&_).
  rewrite demo_outcome in Hl. exists m'. split; [exact Hl|].
  refine (load_elf_confined 64 demo_elf (λ _, 7%Z) m' _ eq_refl (image_header_ok _ _ demo_image_ok) (image_sums _ _ demo_image_ok) Hl _).
  change demo_elf with (elf_file 0x80400000 demo_segments). rewrite (image_scan _ _ demo_image_ok). repeat constructor; done.
Defined.

(** A segment of four bytes that asks for one byte of memory. *)
Example load_elf_overcopies :
  match load_elf 64 (elf_file 0x80400000 [mk_segment 5 0x80400000 0x80400000 [1; 2; 3; 4]%Z 1 4096]) (λ _, 7%Z) with
  | Done (inr r, m') => r = mk_load 0x80400000 0x80400000 1 ∧ m' 0x80400003%Z = 4%Z
  | _ => False
  end.
Proof. vm_compute. by split. Qed.
