(* ===== verification/Trap.v ===== *)
(** * System calls and traps, [kernel/src/syscall.rs] and
    [arch/src/riscv/trap.rs]

    The system is the kernel of [Sched] with the receive buffer of the
    console, the driver registry, the devices and the memory of the tasks.
    The cause that the [riscv] crate decodes is an input of the handler. *)

From S2P Require Export Prelude.
From S2P Require Export Sched.
From S2P Require Export Rx.
From S2P Require Export Drivers.
From S2P Require Export Elf.

(** ** System calls *)

Definition NR_WRITE : Z := 1.
Definition NR_READ : Z := 2.
Definition NR_EXIT : Z := 3.
Definition NR_YIELD : Z := 4.

Definition ENOENT : Z := 2.
Definition EIO : Z := 5.
Definition EBADF : Z := 9.
Definition EAGAIN : Z := 11.
Definition ENOMEM : Z := 12.
Definition EFAULT : Z := 14.
Definition EINVAL : Z := 22.
Definition ENOSYS : Z := 38.
Definition ENOTSUP : Z := 95.

Definition STDIN_FILENO : Z := 0.
Definition STDOUT_FILENO : Z := 1.
Definition STDERR_FILENO : Z := 2.

Record SyscallArgs : Type := mk_args { sc_nr : Z; sc_args : list Z }.
Record SyscallReturn : Type := mk_return { sr_value : Z; sr_schedule : bool }.
Definition return_value (v : Z) : SyscallReturn := mk_return v false.
Definition return_schedule (v : Z) : SyscallReturn := mk_return v true.

Definition err (errno : Z) : Z := - errno.

Definition driver_err (e : DriverErr) : Z :=
  match e with
  | Timeout | DriverBusy => err EAGAIN
  | InvalidConfig => err EINVAL
  | HardwareFault | InitFailed | Custom => err EIO
  | NotSupported => err ENOTSUP
  | RegistryFull => err ENOMEM
  | DriverNotFound => err ENOENT
  end.

(** [as isize]. *)
Definition to_isize (w x : Z) : Z := if (wrap w x <? 2 ^ (w - 1))%Z then wrap w x else (wrap w x - 2 ^ w)%Z.

(** The bytes of [user_slice], or the target of [user_slice_mut]: a range that
    is null or passes the end of the addresses is refused; a longer slice than
    [isize::MAX] is undefined. *)
Definition user_range (w addr len : Z) : exec (option nat) :=
  if (len =? 0)%Z then Done (Some 0) else
  if (addr =? 0)%Z || negb (addr + len <? 2 ^ w)%Z then Done None else
  if (2 ^ (w - 1) <=? len)%Z then Stuck else Done (Some (Z.to_nat len)).
Definition user_bytes (m : ram) (addr : Z) (n : nat) : list Z := (λ i, m (addr + Z.of_nat i)%Z) <$> seq 0 n.

Record system (D W F : Type) : Type := mk_system { y_kernel : kernel; y_rx : RxBuffer; y_drivers : Registry D F; y_world : W; y_ram : ram }.
Arguments mk_system {D W F}. Arguments y_kernel {D W F}. Arguments y_rx {D W F}. Arguments y_drivers {D W F}. Arguments y_world {D W F}. Arguments y_ram {D W F}.

Section syscalls.
Context `{!SmpConfig} {D W F : Type} `{!AnyDriver D W}.
(** The width of an address; the terminal drivers, the console and the poll
    function of the platform. *)
Context (w : Z) (write_buffer : D → list Z → W → (DriverErr + Z) * W) (console : option (W → Z → W)).
Context (poll_fn : option (RxBuffer → W → exec (option Z * RxBuffer * W))).

Definition with_kernel (s : system D W F) (k : kernel) : system D W F := mk_system k (y_rx s) (y_drivers s) (y_world s) (y_ram s).
Definition with_world (s : system D W F) (x : W) : system D W F := mk_system (y_kernel s) (y_rx s) (y_drivers s) x (y_ram s).

Definition putc_all (putc : W → Z → W) (buf : list Z) (x : W) : W :=
  foldl (λ x b, putc (if (b =? 10)%Z then putc x 13%Z else x) b) x buf.

(** The first terminal, else the console. *)
Definition write_console (buf : list Z) (s : system D W F) : Z * system D W F :=
  match for_each_device (y_drivers s) TERMINAL with
  | term :: _ =>
      let '(r, x) := write_buffer term buf (y_world s) in
      (match r with inr n => to_isize w n | inl e => driver_err e end, with_world s x)
  | [] =>
      match console with
      | Some putc => (to_isize w (Z.of_nat (length buf)), with_world s (putc_all putc buf (y_world s)))
      | None => (err EIO, s)
      end
  end.

Fixpoint read_bytes (n : nat) (b : RxBuffer) (y : W) (m : machine) : exec (list Z * RxBuffer * W * machine) :=
  match n with
  | O => Done ([], b, y, m)
  | S n =>
      '(byte, b, y, m) ← pop_from_rx_buf poll_fn b y m;
      match byte with
      | None => Done ([], b, y, m)
      | Some byte => '(bytes, b, y, m) ← read_bytes n b y m; Done (byte :: bytes, b, y, m)
      end
  end.

Definition read_console (addr : Z) (n : nat) (s : system D W F) : exec (Z * system D W F) :=
  if n =? 0 then Done (0%Z, s) else
  '(bytes, b, y, m) ← read_bytes n (y_rx s) (y_world s) (mach (y_kernel s));
  let s := mk_system (with_mach (y_kernel s) m) b (y_drivers s) y (store (y_ram s) addr bytes) in
  Done (if length bytes =? 0 then err EAGAIN else to_isize w (Z.of_nat (length bytes)), s).

Definition sys_write (fd addr len : Z) (s : system D W F) : exec (Z * system D W F) :=
  r ← user_range w addr len;
  match r with
  | None => Done (err EFAULT, s)
  | Some n =>
      if (fd =? STDOUT_FILENO)%Z || (fd =? STDERR_FILENO)%Z then Done (write_console (user_bytes (y_ram s) addr n) s) else Done (err EBADF, s)
  end.

Definition sys_read (fd addr len : Z) (s : system D W F) : exec (Z * system D W F) :=
  r ← user_range w addr len;
  match r with
  | None => Done (err EFAULT, s)
  | Some n => if (fd =? STDIN_FILENO)%Z then read_console addr n s else Done (err EBADF, s)
  end.

Definition sys_exit (s : system D W F) : exec (SyscallReturn * system D W F) :=
  '(_, k) ← terminate_current (y_kernel s); Done (return_schedule 0, with_kernel s k).

Definition sys_yield (s : system D W F) : exec (SyscallReturn * system D W F) :=
  '(_, k) ← schedule (y_kernel s); Done (return_schedule 0, with_kernel s k).

Definition dispatch (call : SyscallArgs) (s : system D W F) : exec (SyscallReturn * system D W F) :=
  let arg i := nth i (sc_args call) 0%Z in
  if (sc_nr call =? NR_WRITE)%Z then '(v, s) ← sys_write (arg 0) (arg 1) (arg 2) s; Done (return_value v, s) else
  if (sc_nr call =? NR_READ)%Z then '(v, s) ← sys_read (arg 0) (arg 1) (arg 2) s; Done (return_value v, s) else
  if (sc_nr call =? NR_EXIT)%Z then sys_exit s else
  if (sc_nr call =? NR_YIELD)%Z then sys_yield s else Done (return_value (err ENOSYS), s).

(** ** Traps *)

Record TrapFrame : Type := mk_frame { x : list Z; status : Z; epc : Z }.

Inductive Mode : Type := MMode | SMode.
#[local] Instance Mode_eq_dec : EqDecision Mode.
Proof. solve_decision. Defined.
(** What [mcause::read().cause()] and [scause::read().cause()] distinguish. *)
Inductive Cause : Type :=
  | MachineTimer | MachineExternal | SupervisorTimer | SupervisorExternal
  | Breakpoint | UserEnvCall | SupervisorEnvCall | MachineEnvCall
  | OtherCause.
#[local] Instance Cause_eq_dec : EqDecision Cause.
Proof. solve_decision. Defined.

(** Whether an address can be read: the handler reads the instruction at [epc]. *)
Context (mapped : Z → bool).

Definition read_half (m : ram) (a : Z) : exec Z := if mapped a && mapped (a + 1) then Done (m a + 256 * m (a + 1))%Z else Stuck.

Definition instruction_len (m : ram) (epc : Z) : exec Z :=
  halfword ← read_half m epc; Done (if (Z.land halfword 3 =? 3)%Z then 4 else 2)%Z.

Definition is_ebreak_instruction (m : ram) (epc : Z) : exec bool :=
  halfword ← read_half m epc;
  if (halfword =? 0x9002)%Z then Done true else
  if (Z.land halfword 3 =? 3)%Z then
    high ← read_half m (epc + 2); Done (halfword + 65536 * high =? 0x00100073)%Z
  else Done false.

Context (mode : Mode) (next_timer_tick : W → W).
Context (irq_id_handler : option (Z → system D W F → exec (system D W F))) (irq_handler : option (system D W F → exec (system D W F))).

(** The kinds of traps, in the order in which the handler asks. *)
Definition is_timer (cause : Cause) : bool := bool_decide (cause = match mode with MMode => MachineTimer | SMode => SupervisorTimer end).
Definition is_yield (m : ram) (cause : Cause) (epc : Z) : exec bool :=
  if bool_decide (cause = Breakpoint) then Done true else is_ebreak_instruction m epc.
Definition is_syscall (cause : Cause) : bool :=
  match cause with UserEnvCall | SupervisorEnvCall => true | MachineEnvCall => bool_decide (mode = MMode) | _ => false end.
Definition interrupt_id (raw_cause : Z) : Z := Z.land raw_cause (lnot_w w (2 ^ (w - 1))).
Definition is_interrupt (raw_cause : Z) : bool := negb (Z.land raw_cause (2 ^ (w - 1)) =? 0)%Z.
Definition is_external (raw_cause : Z) (cause : Cause) : bool :=
  match mode with
  | MMode => is_interrupt raw_cause && negb (interrupt_id raw_cause =? 3)%Z && (bool_decide (cause = MachineExternal) || negb (is_timer cause))
  | SMode =>
      bool_decide (cause = SupervisorExternal)
      || (bool_decide (is_Some irq_id_handler) && is_interrupt raw_cause && negb (interrupt_id raw_cause =? 1)%Z && negb (is_timer cause))
  end.

Definition enter_handler (s : system D W F) : system D W F := with_kernel s (with_mach (y_kernel s) (snd (enter_critical (mach (y_kernel s))))).
Definition leave_handler (s : system D W F) : system D W F := with_kernel s (with_mach (y_kernel s) (snd (exit_critical (mach (y_kernel s))))).

(** The state here has no executor: the call of [async_rt::tick_update] in the
    timer branch, under the feature of that name, reads the clock and wakes
    futures only; [AsyncTasks.timer_turn] has the branch with it. *)
Definition rust_trap_handler (raw_cause : Z) (cause : Cause) (tf : TrapFrame) (s : system D W F) : exec (TrapFrame * system D W F) :=
  let s := enter_handler s in
  yield ← is_yield (y_ram s) cause (epc tf);
  if is_timer cause then
    let k := y_kernel s in
    let k := mk_kernel (TCB_POOL k) (SCHEDULER k) (mach k) (tick (clock k)) (mem k) in
    let s := with_world s (next_timer_tick (y_world s)) in
    k ← tick_update k;
    '(_, k) ← schedule k;
    Done (tf, leave_handler (with_kernel s k))
  else if yield : bool then
    n ← instruction_len (y_ram s) (epc tf);
    pc ← add_w w (epc tf) n;
    '(_, k) ← schedule (y_kernel s);
    Done (mk_frame (x tf) (status tf) pc, leave_handler (with_kernel s k))
  else if is_syscall cause then
    let reg i := nth i (x tf) 0%Z in
    '(ret, s) ← dispatch (mk_args (reg 17) [reg 10; reg 11; reg 12; reg 13; reg 14; reg 15]) s;
    let regs := <[10 := wrap w (sr_value ret)]> (x tf) in
    pc ← add_w w (epc tf) 4;
    s ← (if negb (sr_schedule ret) then '(_, k) ← schedule_if_preempt_pending (y_kernel s); Done (with_kernel s k) else Done s);
    Done (mk_frame regs (status tf) pc, leave_handler s)
  else if is_external raw_cause cause then
    s ← match irq_id_handler with
        | Some handler => handler (wrap 32 (interrupt_id raw_cause)) s
        | None => match irq_handler with Some handler => handler s | None => Done s end
        end;
    '(_, k) ← schedule_if_preempt_pending (y_kernel s);
    Done (tf, leave_handler (with_kernel s k))
  else Stuck.

(** The vector around it: the hardware masks interrupts, the vector saves the
    frame, and afterwards switches stacks as in [Sched.trap]. *)
Definition trap_vector (raw_cause : Z) (cause : Cause) (tf : TrapFrame) (s : system D W F) : exec (TrapFrame * system D W F) :=
  let saved := irq_on (mach (y_kernel s)) in
  '(tf, s) ← rust_trap_handler raw_cause cause tf (with_kernel s (with_mach (y_kernel s) (set_irq (mach (y_kernel s)) false)));
  let k := y_kernel s in
  if bool_decide (CURRENT_TCB (mach k) = NEXT_TCB (mach k)) then Done (tf, with_kernel s (with_mach k (set_irq (mach k) saved))) else
  _ ← get_exec (CURRENT_TCB (mach k));
  _ ← get_exec (NEXT_TCB (mach k));
  Done (tf, with_kernel s (with_mach k (set_irq (context_switch (mach k)) true))).
End syscalls.
