(* ===== verification/TrapProps.v ===== *)
(** * What system calls and traps promise

    A trap is one operation of the kernel, and the registers of the processor,
    switched by the vector of [TaskStack], follow the kernel's current task. *)

From S2P Require Export Prelude.
From S2P Require Export Sched.
From S2P Require Export SchedKernel.
From S2P Require Export SchedProps.
From S2P Require Export Rx.
From S2P Require Export Drivers.
From S2P Require Export Elf.
From S2P Require Export Trap.

(** ** Masking inside a critical section *)

Section masking.
Context `{!SmpConfig}.

Lemma set_nest_set (m : machine) (a b : nat) : machine_ok m → set_critical_nest (set_critical_nest m a) b = set_critical_nest m b.
Proof.
  intros Hm. unfold set_critical_nest at 1. unfold current_cpu, cpu_data. cbn [set_critical_nest set_current_cpu per_cpu].
  rewrite list_lookup_insert_eq by (rewrite Hm; apply cpu_slot_lt). cbn [default current_tcb next_tcb pc_cpu_id].
  unfold set_critical_nest, set_current_cpu. cbn [per_cpu CURRENT_TCB NEXT_TCB irq_on]. by rewrite list_insert_insert_eq.
Qed.

Lemma set_nest_same (m : machine) : machine_ok m → set_critical_nest m (critical_nest m) = m.
Proof.
  intros Hm. unfold set_critical_nest, critical_nest, set_current_cpu, current_cpu, cpu_data. destruct m as [l c n i]. cbn [per_cpu CURRENT_TCB NEXT_TCB irq_on].
  destruct (lookup_lt_is_Some_2 l (cpu_slot this_cpu)) as [d Hd]; [unfold machine_ok in Hm; cbn in Hm; rewrite Hm; apply cpu_slot_lt|].
  rewrite Hd. cbn [default]. f_equal. rewrite list_insert_id; [done|]. rewrite Hd. by destruct d.
Qed.

(** Nested masking is undone. *)
Lemma masked_twice (m : machine) : machine_ok m → 0 < critical_nest m → enable_irq (disable_irq m) = m.
Proof.
  intros Hm Hn. unfold disable_irq. rewrite (proj2 (Nat.eqb_neq _ 0)) by lia. unfold enable_irq, exit_critical. rewrite critical_nest_set by done.
  rewrite set_nest_set by done. rewrite (proj2 (Nat.eqb_neq _ 0)) by lia. by apply set_nest_same.
Qed.
End masking.

(** ** Reading the console *)

Section reading.
Context `{!SmpConfig} {W : Type}.

Definition poll_ok (poll_fn : option (RxBuffer → W → exec (option Z * RxBuffer * W))) : Prop :=
  ∀ poll b y, poll_fn = Some poll → ring_wf b → ∃ r b' y', poll b y = Done (r, b', y') ∧ ring_wf b'.

Lemma pop_from_spec poll_fn (b : RxBuffer) (y : W) (m : machine) : poll_ok poll_fn → ring_wf b → machine_ok m → 0 < critical_nest m →
  ∃ r b' y', pop_from_rx_buf poll_fn b y m = Done (r, b', y', m) ∧ ring_wf b'.
Proof.
  intros Hp Hwf Hm Hn. unfold pop_from_rx_buf. destruct (rx_pop_spec b Hwf) as (b1&Hwf1&_&->). cbn [mbind exec_bind].
  destruct (head (rx_bytes b)) as [v|]; [by eexists _, b1, y|]. destruct poll_fn as [poll|]; [|by eexists _, b1, y].
  destruct (Hp poll b1 y eq_refl Hwf1) as (r&b2&y2&->&Hwf2). cbn [mbind exec_bind]. rewrite masked_twice by done.
  destruct r as [v|]; [by eexists _, b2, y2|]. destruct (rx_pop_spec b2 Hwf2) as (b3&Hwf3&_&->). by eexists _, b3, y2.
Qed.

Lemma read_bytes_spec poll_fn (n : nat) : ∀ b y m, poll_ok poll_fn → ring_wf b → machine_ok m → 0 < critical_nest m →
  ∃ bytes b' y', read_bytes poll_fn n b y m = Done (bytes, b', y', m) ∧ ring_wf b' ∧ length bytes ≤ n.
Proof.
  induction n as [|n IH]; intros b y m Hp Hwf Hm Hn; cbn [read_bytes]; [by exists [], b, y|].
  destruct (pop_from_spec poll_fn b y m Hp Hwf Hm Hn) as (r&b1&y1&->&Hwf1). cbn [mbind exec_bind].
  destruct r as [v|]; [|exists [], b1, y1; split; [done|split; [done|cbn; lia]]].
  destruct (IH b1 y1 m Hp Hwf1 Hm Hn) as (bytes&b2&y2&->&Hwf2&Hl). cbn [mbind exec_bind]. exists (v :: bytes), b2, y2.
  split; [done|]. split; [done|]. cbn. lia.
Qed.

(** What a poll function needs to be used in the handler of a trap: it reads
    the port, it returns, and interrupts are masked already. *)
Definition port_ok (getc : option (W → exec (option Z * W))) (m : machine) : Prop :=
  ∀ g, getc = Some g → (∀ y, ∃ r y', g y = Done (r, y')) ∧ machine_ok m ∧ 0 < critical_nest m.

(** The bytes of the port, asked for until it has none or [n] have come. *)
Fixpoint poll_bytes (getc : option (W → exec (option Z * W))) (n : nat) (y : W) : exec (list Z * W) :=
  match getc, n with
  | None, _ | _, O => Done ([], y)
  | Some g, S n =>
      '(byte, y) ← g y;
      match byte with None => Done ([], y) | Some byte => '(bs, y) ← poll_bytes getc n y; Done (byte :: bs, y) end
  end.

Lemma pop_queue (getc : option (W → exec (option Z * W))) (b : RxBuffer) (y : W) (m : machine) : port_ok getc m → ring_wf b →
  ∃ r b' y', pop_from_rx_buf (port_poll <$> getc) b y m = Done (r, b', y', m) ∧ ring_wf b' ∧ rx_bytes b' = tail (rx_bytes b)
  ∧ match rx_bytes b with
    | v :: _ => r = Some v ∧ y' = y
    | [] => match getc with Some g => g y = Done (r, y') | None => r = None ∧ y' = y end
    end.
Proof.
  intros Hg Hwf. destruct (rx_pop_spec b Hwf) as (b'&Hwf'&Hr&Hp). unfold pop_from_rx_buf. rewrite Hp. cbn [mbind exec_bind].
  destruct (rx_bytes b) as [|v rest] eqn:Hb; cbn [head tail] in *; [|by eexists _, b', y].
  destruct getc as [g|]; cbn [fmap option_fmap option_map]; [|by eexists _, b', y].
  destruct (Hg g eq_refl) as (Hret&Hm&Hn). destruct (Hret y) as (r&y1&Hgy). unfold port_poll. rewrite Hgy. cbn [mbind exec_bind].
  rewrite masked_twice by done. destruct r as [v|]; [by eexists _, b', y1|].
  destruct (rx_pop_spec b' Hwf') as (b2&Hwf2&Hr2&->). rewrite Hr in *. cbn [mbind exec_bind head tail] in *. by eexists _, b2, y1.
Qed.

(** The queued bytes come out first, in order, then those of the port. *)
Lemma read_bytes_queue (getc : option (W → exec (option Z * W))) (n : nat) (m : machine) : port_ok getc m → ∀ b y, ring_wf b →
  ∃ polled b' y', poll_bytes getc (n - length (rx_bytes b)) y = Done (polled, y')
  ∧ read_bytes (port_poll <$> getc) n b y m = Done (take n (rx_bytes b) ++ polled, b', y', m)
  ∧ ring_wf b' ∧ rx_bytes b' = drop n (rx_bytes b).
Proof.
  intros Hg. induction n as [|n IH]; intros b y Hwf; cbn [read_bytes].
  - exists [], b, y. rewrite drop_0. cbn [Nat.sub take]. by destruct getc.
  - destruct (pop_queue getc b y m Hg Hwf) as (r&b1&y1&->&Hwf1&Hr1&Hcase). cbn [mbind exec_bind].
    destruct (IH b1 y1 Hwf1) as (polled&b2&y2&Hpo&Hrd&Hwf2&Hr2). rewrite Hr1 in *. destruct (rx_bytes b) as [|v rest]; cbn [tail length] in *.
    + rewrite take_nil, Nat.sub_0_r in *. rewrite drop_nil in *. destruct getc as [g|]; cbn [poll_bytes].
      * rewrite Hcase. cbn [mbind exec_bind]. destruct r as [v|]; [|by exists [], b1, y1]. fold (poll_bytes (Some g)). rewrite Hpo, Hrd. cbn [mbind exec_bind]. by exists (v :: polled), b2, y2.
      * destruct Hcase as [-> ->]. by exists [], b1, y.
    + destruct Hcase as [-> ->]. rewrite Hrd. cbn [mbind exec_bind]. exists polled, b2, y2. by rewrite Nat.sub_succ.
Qed.

Lemma poll_bytes_length (getc : option (W → exec (option Z * W))) (n : nat) : ∀ y bs y', poll_bytes getc n y = Done (bs, y') → length bs ≤ n.
Proof.
  induction n as [|n IH]; intros y bs y'; cbn [poll_bytes]; destruct getc as [g|]; try (intros [= <- <-]; cbn; lia).
  destruct (g y) as [[[v|] y1]|]; cbn [mbind exec_bind]; [|intros [= <- <-]; cbn; lia|done].
  destruct (poll_bytes (Some g) n y1) as [[bs1 y2]|] eqn:Hp; cbn [mbind exec_bind]; [|done]. intros [= <- <-]. cbn. apply le_n_S. by eapply IH.
Qed.
End reading.

(** ** A trap is an operation of the kernel *)

Section traps.
Context `{!SmpConfig} {D W F : Type} `{!AnyDriver D W}.
Context (w : Z) (write_buffer : D → list Z → W → (DriverErr + Z) * W) (console : option (W → Z → W)).
Context (poll_fn : option (RxBuffer → W → exec (option Z * RxBuffer * W))) (mapped : Z → bool).
Context (mode : Mode) (next_timer_tick : W → W).
Context (irq_id_handler : option (Z → system D W F → exec (system D W F))) (irq_handler : option (system D W F → exec (system D W F))).

#[local] Abbreviation handle := (rust_trap_handler w write_buffer console poll_fn mapped mode next_timer_tick irq_id_handler irq_handler).
#[local] Abbreviation vector := (trap_vector w write_buffer console poll_fn mapped mode next_timer_tick irq_id_handler irq_handler).

(** The system when the handler starts its work. *)
Definition in_handler (s : system D W F) : system D W F := enter_handler (with_kernel s (with_mach (y_kernel s) (set_irq (mach (y_kernel s)) false))).

Lemma vector_trap (P : TrapFrame → Prop) raw cause tf (s : system D W F) (h : kernel → exec kernel) (k' : kernel) :
  trap (y_kernel s) h = Done k' →
  (∀ k1, h (y_kernel (in_handler s)) = Done k1 →
    ∃ tf' s1, handle raw cause tf (with_kernel s (with_mach (y_kernel s) (set_irq (mach (y_kernel s)) false))) = Done (tf', leave_handler s1)
      ∧ y_kernel s1 = k1 ∧ P tf') →
  ∃ tf' s', vector raw cause tf s = Done (tf', s') ∧ y_kernel s' = k' ∧ P tf'.
Proof.
  intros Ht Hh. unfold trap in Ht. apply exec_bind_inv in Ht as (k1&Hk1&Ht). destruct (Hh k1 Hk1) as (tf'&s1&He&Hs1&HP).
  exists tf'. unfold trap_vector. rewrite He. cbn [mbind exec_bind]. unfold leave_handler. cbn [y_kernel with_kernel]. rewrite Hs1. cbn [mach with_mach].
  destruct (bool_decide _).
  - injection Ht as <-. eexists. split; [done|]. by split.
  - apply exec_bind_inv in Ht as (c&->&Ht). apply exec_bind_inv in Ht as (n&->&Ht). cbn [mbind exec_bind]. injection Ht as <-.
    eexists. split; [done|]. by split.
Qed.

(** The classes of traps. *)
Inductive trap_class : Type := TTimer | TBreak | TExit | TYield | TCall | TExternal.
Definition syscall_class (tf : TrapFrame) : trap_class :=
  let nr := nth 17 (x tf) 0%Z in if (nr =? NR_EXIT)%Z then TExit else if (nr =? NR_YIELD)%Z then TYield else TCall.
Definition classify (raw : Z) (cause : Cause) (tf : TrapFrame) (s : system D W F) : option trap_class :=
  match is_yield mapped (y_ram s) cause (epc tf) with
  | Stuck => None
  | Done yield =>
      if is_timer mode cause then Some TTimer else if yield : bool then Some TBreak else if is_syscall mode cause then Some (syscall_class tf)
      else if is_external w mode irq_id_handler raw cause then Some TExternal else None
  end.

(** The operations of the kernel that a class stands for. *)
Definition class_op (c : trap_class) (op : kop) : Prop :=
  match c with
  | TTimer => op = OpTimer
  | TBreak | TYield => op = OpYield
  | TExit => op = OpExit
  | TCall => op = OpIrq []
  | TExternal => ∃ xs, op = OpIrq xs
  end.
Definition frame_after (c : trap_class) (tf tf' : TrapFrame) : Prop :=
  match c with
  | TTimer | TExternal => tf' = tf
  | TBreak => x tf' = x tf ∧ (epc tf' = epc tf + 2 ∨ epc tf' = epc tf + 4)%Z
  | TExit | TYield => x tf' = <[10 := 0%Z]> (x tf) ∧ (epc tf' = epc tf + 4)%Z
  | TCall => (∃ v, x tf' = <[10 := v]> (x tf)) ∧ (epc tf' = epc tf + 4)%Z
  end.

(** A handler of external interrupts that works on devices and wakes tasks. *)
Definition handler_ok (h : system D W F → exec (system D W F)) : Prop :=
  ∀ s, ∃ xs, (∀ y, y ∈ xs → is_Some (tcbs (y_kernel s) !! y)) ∧ ∀ k', wake_list (y_kernel s) xs = Done k' → ∃ s', h s = Done s' ∧ y_kernel s' = k'.

(** What the handler relies on: the instruction can be read, a buffer of a
    system call is no longer than a slice may be, and the idle task does not
    exit. *)
Record trap_ok (tf : TrapFrame) (s : system D W F) : Prop := {
  to_epc : (epc tf + 4 < 2 ^ w)%Z;
  to_mapped : ∀ i, (0 <= i < 4)%Z → mapped (epc tf + i) = true;
  to_len : (nth 12 (x tf) 0 < 2 ^ (w - 1))%Z;
  to_rx : ring_wf (y_rx s);
  to_exit : nth 17 (x tf) 0%Z = NR_EXIT → CURRENT_TCB (mach (y_kernel s)) ≠ Some 0;
}.

Lemma read_half_Done (m : ram) (a : Z) : mapped a = true → mapped (a + 1) = true → read_half mapped m a = Done (m a + 256 * m (a + 1))%Z.
Proof. intros H1 H2. unfold read_half. by rewrite H1, H2. Qed.

Lemma is_yield_Done (m : ram) (cause : Cause) (pc : Z) : (∀ i, (0 <= i < 4)%Z → mapped (pc + i) = true) → ∃ b, is_yield mapped m cause pc = Done b.
Proof.
  intros Hm. unfold is_yield, is_ebreak_instruction. destruct (bool_decide _); [by eexists|].
  pose proof (Hm 0%Z ltac:(lia)) as H0. rewrite Z.add_0_r in H0. rewrite (read_half_Done m pc) by (done || by apply Hm). cbn [mbind exec_bind].
  destruct (_ =? _)%Z; [by eexists|]. destruct (_ =? _)%Z; [|by eexists].
  assert (H3 : mapped (pc + 2 + 1) = true) by (rewrite <- Z.add_assoc; apply (Hm 3%Z); lia).
  rewrite (read_half_Done m (pc + 2)); [by eexists|apply Hm; lia|exact H3].
Qed.

Lemma instruction_len_Done (m : ram) (pc : Z) : (∀ i, (0 <= i < 4)%Z → mapped (pc + i) = true) → ∃ n, instruction_len mapped m pc = Done n ∧ (n = 2 ∨ n = 4)%Z.
Proof.
  intros Hm. unfold instruction_len. pose proof (Hm 0%Z ltac:(lia)) as H0. rewrite Z.add_0_r in H0. rewrite (read_half_Done m pc) by (done || by apply Hm).
  cbn [mbind exec_bind]. eexists. split; [done|]. destruct (_ =? _)%Z; auto.
Qed.

(** A read or write leaves the kernel as it is. *)
Lemma dispatch_call (call : SyscallArgs) (s : system D W F) : poll_ok poll_fn → ring_wf (y_rx s) → machine_ok (mach (y_kernel s)) →
  0 < critical_nest (mach (y_kernel s)) → (nth 2 (sc_args call) 0 < 2 ^ (w - 1))%Z → sc_nr call ≠ NR_EXIT → sc_nr call ≠ NR_YIELD →
  ∃ v s', dispatch w write_buffer console poll_fn call s = Done (return_value v, s') ∧ y_kernel s' = y_kernel s.
Proof.
  intros Hp Hrx Hm Hn Hlen Hne Hny. unfold dispatch. rewrite (proj2 (Z.eqb_neq _ _) Hne), (proj2 (Z.eqb_neq _ _) Hny).
  assert (Hr : ∃ r, user_range w (nth 1 (sc_args call) 0%Z) (nth 2 (sc_args call) 0%Z) = Done r).
  { unfold user_range. destruct (_ =? 0)%Z; [by eexists|]. destruct (_ || _); [by eexists|]. rewrite (proj2 (Z.leb_gt _ _) Hlen). by eexists. }
  destruct Hr as (r&Hr). destruct (sc_nr call =? NR_WRITE)%Z; [|destruct (sc_nr call =? NR_READ)%Z; [|by eexists _, s]].
  - unfold sys_write. rewrite Hr. cbn [mbind exec_bind]. destruct r as [n|]; [|by eexists _, s]. destruct (_ || _); [|by eexists _, s].
    unfold write_console. destruct (for_each_device (y_drivers s) TERMINAL) as [|d ds]; [destruct console; by eexists _, _|].
    destruct (write_buffer d _ _) as [res x']. cbn [mbind exec_bind]. by eexists _, _.
  - unfold sys_read. rewrite Hr. cbn [mbind exec_bind]. destruct r as [n|]; [|by eexists _, s]. destruct (_ =? _)%Z; [|by eexists _, s].
    unfold read_console. destruct (n =? 0); [by eexists _, s|]. destruct (read_bytes_spec poll_fn n (y_rx s) (y_world s) _ Hp Hrx Hm Hn) as (bs&b&y&->&_&_).
    cbn [mbind exec_bind]. eexists _, _. split; [done|]. cbn [y_kernel]. by destruct (y_kernel s).
Qed.

Lemma in_handler_machine (s : system D W F) : machine_ok (mach (y_kernel s)) →
  machine_ok (mach (y_kernel (in_handler s))) ∧ critical_nest (mach (y_kernel (in_handler s))) = S (critical_nest (mach (y_kernel s)))
  ∧ tcbs (y_kernel (in_handler s)) = tcbs (y_kernel s).
Proof.
  intros Hm. unfold in_handler, enter_handler, with_kernel, enter_critical. cbn [y_kernel with_mach mach snd]. split_and!; [by apply set_current_cpu_ok| |done].
  by rewrite critical_nest_set.
Qed.

Lemma classify_inv raw cause tf (s : system D W F) (c : trap_class) : classify raw cause tf s = Some c →
  ∃ b, is_yield mapped (y_ram s) cause (epc tf) = Done b ∧
    match c with
    | TTimer => is_timer mode cause = true
    | TBreak => is_timer mode cause = false ∧ b = true
    | TExit | TYield | TCall => is_timer mode cause = false ∧ b = false ∧ is_syscall mode cause = true ∧ syscall_class tf = c
    | TExternal => is_timer mode cause = false ∧ b = false ∧ is_syscall mode cause = false ∧ is_external w mode irq_id_handler raw cause = true
    end.
Proof.
  unfold classify. destruct (is_yield mapped _ cause _) as [b|]; [|done]. intros Hc. exists b. split; [done|].
  destruct (is_timer mode cause); [by injection Hc as <-|]. destruct b; [by injection Hc as <-|]. destruct (is_syscall mode cause).
  - injection Hc as Hc. destruct c; try done; unfold syscall_class in Hc; repeat case_match; done.
  - destruct (is_external _ _ _ _ _); [|done]. by injection Hc as <-.
Qed.

(** What the vector does, class by class, when the operation of the kernel
    returns. *)
Section classes.
Context (raw : Z) (cause : Cause) (tf : TrapFrame) (s : system D W F) (Hok : trap_ok tf s).

(** The start of the handler, whose tests are known. *)
#[local] Ltac into_handler Hc :=
  unfold rust_trap_handler; change (enter_handler _) with (in_handler s); change (y_ram (in_handler s)) with (y_ram s);
  destruct (classify_inv _ _ _ _ _ Hc) as (b&Hb&Hcl); rewrite Hb; cbn [mbind exec_bind]; clear Hb.

Lemma timer_class (k' : kernel) : classify raw cause tf s = Some TTimer → timer_trap (y_kernel s) = Done k' →
  ∃ tf' s', vector raw cause tf s = Done (tf', s') ∧ y_kernel s' = k' ∧ frame_after TTimer tf tf'.
Proof.
  intros Hc Hk. eapply vector_trap; [exact Hk|]. intros k1 Hk1. into_handler Hc. rewrite Hcl. cbn [y_kernel with_world].
  apply exec_bind_inv in Hk1 as (k2&->&Hk1). cbn [mbind exec_bind]. apply exec_bind_inv in Hk1 as ([r k3]&Hs&Hk1).
  injection Hk1 as <-. rewrite Hs. cbn [mbind exec_bind]. by eexists _, _.
Qed.

Lemma break_class (k' : kernel) : classify raw cause tf s = Some TBreak → yield_trap (y_kernel s) = Done k' →
  ∃ tf' s', vector raw cause tf s = Done (tf', s') ∧ y_kernel s' = k' ∧ frame_after TBreak tf tf'.
Proof.
  intros Hc Hk. eapply vector_trap; [exact Hk|]. intros k1 Hk1. into_handler Hc. destruct Hcl as [-> ->].
  destruct Hok as [Hpc Hmap _ _ _]. destruct (instruction_len_Done (y_ram s) (epc tf) Hmap) as (n&->&Hn). cbn [mbind exec_bind].
  rewrite add_w_Done by lia. cbn [mbind exec_bind]. apply exec_bind_inv in Hk1 as ([r k3]&Hs&Hk1). injection Hk1 as <-. rewrite Hs. cbn [mbind exec_bind].
  eexists _, _. split; [done|]. split; [done|]. cbn [frame_after x epc]. split; [done|]. destruct Hn as [-> | ->]; auto.
Qed.

Lemma exit_class (k' : kernel) : classify raw cause tf s = Some TExit → trap (y_kernel s) (λ k, '(_, k) ← terminate_current k; Done k) = Done k' →
  ∃ tf' s', vector raw cause tf s = Done (tf', s') ∧ y_kernel s' = k' ∧ frame_after TExit tf tf'.
Proof.
  intros Hc Hk. eapply vector_trap; [exact Hk|]. intros k1 Hk1. into_handler Hc. destruct Hcl as (->&->&->&Hnr). unfold syscall_class in Hnr.
  unfold dispatch. cbn [sc_nr sc_args]. destruct (Z.eqb_spec (nth 17 (x tf) 0%Z) NR_EXIT) as [->|]; [|by repeat case_match].
  change (NR_EXIT =? NR_WRITE)%Z with false. change (NR_EXIT =? NR_READ)%Z with false. change (NR_EXIT =? NR_EXIT)%Z with true. cbn [negb].
  unfold sys_exit. apply exec_bind_inv in Hk1 as ([r k3]&Hs&Hk1). injection Hk1 as <-. rewrite Hs. cbn [mbind exec_bind].
  rewrite add_w_Done by apply Hok. cbn [mbind exec_bind return_schedule sr_value sr_schedule negb]. eexists _, _. split; [done|]. split; [done|].
  cbn [frame_after x epc]. split; [|done]. unfold wrap. by rewrite Zmod_0_l.
Qed.

Lemma yield_class (k' : kernel) : classify raw cause tf s = Some TYield → yield_trap (y_kernel s) = Done k' →
  ∃ tf' s', vector raw cause tf s = Done (tf', s') ∧ y_kernel s' = k' ∧ frame_after TYield tf tf'.
Proof.
  intros Hc Hk. eapply vector_trap; [exact Hk|]. intros k1 Hk1. into_handler Hc. destruct Hcl as (->&->&->&Hnr). unfold syscall_class in Hnr.
  unfold dispatch. cbn [sc_nr sc_args]. destruct (Z.eqb_spec (nth 17 (x tf) 0%Z) NR_EXIT) as [|Hne]; [done|].
  destruct (Z.eqb_spec (nth 17 (x tf) 0%Z) NR_YIELD) as [->|]; [|done].
  change (NR_YIELD =? NR_WRITE)%Z with false. change (NR_YIELD =? NR_READ)%Z with false. change (NR_YIELD =? NR_EXIT)%Z with false.
  change (NR_YIELD =? NR_YIELD)%Z with true. cbn [negb].
  unfold sys_yield. apply exec_bind_inv in Hk1 as ([r k3]&Hs&Hk1). injection Hk1 as <-. rewrite Hs. cbn [mbind exec_bind].
  rewrite add_w_Done by apply Hok. cbn [mbind exec_bind return_schedule sr_value sr_schedule negb]. eexists _, _. split; [done|]. split; [done|].
  cbn [frame_after x epc]. split; [|done]. unfold wrap. by rewrite Zmod_0_l.
Qed.

Lemma call_class (k' : kernel) : poll_ok poll_fn → machine_ok (mach (y_kernel s)) → classify raw cause tf s = Some TCall →
  external_trap (y_kernel s) (λ k, wake_list k []) = Done k' →
  ∃ tf' s', vector raw cause tf s = Done (tf', s') ∧ y_kernel s' = k' ∧ frame_after TCall tf tf'.
Proof.
  intros Hp Hm Hc Hk. eapply vector_trap; [exact Hk|]. intros k1 Hk1. into_handler Hc. destruct Hcl as (->&->&->&Hnr). unfold syscall_class in Hnr.
  set (call := mk_args _ _). destruct (in_handler_machine s Hm) as (Hm'&Hn'&_).
  assert (Hne : sc_nr call ≠ NR_EXIT) by (intros He; cbn in He; rewrite He in Hnr; done).
  assert (Hny : sc_nr call ≠ NR_YIELD) by (intros He; cbn in He; rewrite He in Hnr; done).
  destruct (dispatch_call call (in_handler s) Hp (to_rx _ _ Hok) Hm' ltac:(lia) (to_len _ _ Hok) Hne Hny) as (v&s1&->&Hk1').
  cbn [mbind exec_bind]. rewrite add_w_Done by apply Hok. cbn [mbind exec_bind return_value sr_value sr_schedule negb]. rewrite Hk1'.
  cbn [wake_list mbind exec_bind] in Hk1. apply exec_bind_inv in Hk1 as ([r k3]&Hs&Hk1). injection Hk1 as <-. rewrite Hs. cbn [mbind exec_bind].
  eexists _, _. split; [done|]. split; [done|]. cbn [frame_after x epc]. split; [by eexists|done].
Qed.

Lemma external_class : (∀ h id, irq_id_handler = Some h → handler_ok (h id)) → (∀ h, irq_handler = Some h → handler_ok h) →
  classify raw cause tf s = Some TExternal → machine_ok (mach (y_kernel s)) →
  ∃ xs, (∀ y, y ∈ xs → is_Some (tcbs (y_kernel s) !! y)) ∧ ∀ k', external_trap (y_kernel s) (λ k, wake_list k xs) = Done k' →
    ∃ tf' s', vector raw cause tf s = Done (tf', s') ∧ y_kernel s' = k' ∧ frame_after TExternal tf tf'.
Proof.
  intros Hid Hirq Hc Hm. destruct (in_handler_machine s Hm) as (_&_&Htcbs).
  assert (Hh : ∃ xs, (∀ y, y ∈ xs → is_Some (tcbs (y_kernel s) !! y)) ∧ ∀ k', wake_list (y_kernel (in_handler s)) xs = Done k' →
    ∃ s', match irq_id_handler with
          | Some handler => handler (wrap 32 (interrupt_id w raw)) (in_handler s)
          | None => match irq_handler with Some handler => handler (in_handler s) | None => Done (in_handler s) end
          end = Done s' ∧ y_kernel s' = k').
  { destruct irq_id_handler as [h|]; [|destruct irq_handler as [h|]].
    - destruct (Hid h (wrap 32 (interrupt_id w raw)) eq_refl (in_handler s)) as (xs&Hxs&Hw). rewrite Htcbs in Hxs. by exists xs.
    - destruct (Hirq h eq_refl (in_handler s)) as (xs&Hxs&Hw). rewrite Htcbs in Hxs. by exists xs.
    - exists []. split; [by intros y ?%elem_of_nil|]. cbn [wake_list]. intros k' [= <-]. by eexists. }
  destruct Hh as (xs&Hxs&Hw). exists xs. split; [done|]. intros k' Hk. eapply vector_trap; [exact Hk|]. intros k1 Hk1. into_handler Hc.
  destruct Hcl as (->&->&->&->). apply exec_bind_inv in Hk1 as (k2&Hk2&Hk1). destruct (Hw k2 Hk2) as (s2&->&Hs2). cbn [mbind exec_bind]. rewrite Hs2.
  apply exec_bind_inv in Hk1 as ([r k3]&Hs&Hk1). injection Hk1 as <-. rewrite Hs. cbn [mbind exec_bind]. by eexists _, _.
Qed.
End classes.
End traps.

(** A trap that the handler knows is one operation of the kernel. *)
Lemma trap_step `{!SmpConfig} {D W F : Type} `{!AnyDriver D W} (w : Z) (write_buffer : D → list Z → W → (DriverErr + Z) * W)
    (console : option (W → Z → W)) (poll_fn : option (RxBuffer → W → exec (option Z * RxBuffer * W))) (mapped : Z → bool) (mode : Mode) (next_timer_tick : W → W)
    (irq_id_handler : option (Z → system D W F → exec (system D W F))) (irq_handler : option (system D W F → exec (system D W F)))
    (base step raw : Z) (cause : Cause) (tf : TrapFrame) (s : system D W F) (c : trap_class) :
  max_cpus = 1 → kernel_reach base step (y_kernel s) → poll_ok poll_fn →
  (∀ h id, irq_id_handler = Some h → handler_ok (h id)) → (∀ h, irq_handler = Some h → handler_ok h) →
  trap_ok w mapped tf s → classify w mapped mode irq_id_handler raw cause tf s = Some c →
  ∃ op tf' s', class_op c op ∧ run_kop base step (y_kernel s) op = Done (y_kernel s')
    ∧ trap_vector w write_buffer console poll_fn mapped mode next_timer_tick irq_id_handler irq_handler raw cause tf s = Done (tf', s')
    ∧ frame_after c tf tf' ∧ kernel_reach base step (y_kernel s').
Proof.
  intros Hone Hr Hp Hid Hirq Hok Hc. pose proof (reach_context base step _ Hone Hr) as Hctx.
  assert (Hm : machine_ok (mach (y_kernel s))) by (destruct Hctx as (cur&sc&qss&sl&fl&[]&_); done).
  assert (Hdo : ∀ op, kop_allowed 0 (y_kernel s) op →
    (∀ k', run_kop base step (y_kernel s) op = Done k' → ∃ tf' s',
      trap_vector w write_buffer console poll_fn mapped mode next_timer_tick irq_id_handler irq_handler raw cause tf s = Done (tf', s')
      ∧ y_kernel s' = k' ∧ frame_after c tf tf') → class_op c op →
    ∃ op tf' s', class_op c op ∧ run_kop base step (y_kernel s) op = Done (y_kernel s')
    ∧ trap_vector w write_buffer console poll_fn mapped mode next_timer_tick irq_id_handler irq_handler raw cause tf s = Done (tf', s')
    ∧ frame_after c tf tf' ∧ kernel_reach base step (y_kernel s')).
  { intros op Hop Hv Hcl. destruct (run_kop_ok 0 Hone base step (y_kernel s) op Hctx Hop (λ x _, not_elem_of_nil x)) as (k'&Hk'&_).
    destruct (Hv k' Hk') as (tf'&s'&Hvec&<-&Hf). exists op, tf', s'. split_and!; try done. by eapply kr_step. }
  destruct c.
  - apply (Hdo OpTimer); [done| |done]. intros k' Hk'. by eapply timer_class.
  - apply (Hdo OpYield); [done| |done]. intros k' Hk'. by eapply break_class.
  - apply (Hdo OpExit); [| |done].
    + cbn [kop_allowed]. apply (to_exit _ _ _ _ Hok). destruct (classify_inv _ _ _ _ _ _ _ _ _ Hc) as (b&_&_&_&_&Hnr). unfold syscall_class in Hnr.
      destruct (Z.eqb_spec (nth 17 (x tf) 0%Z) NR_EXIT); [done|]. by repeat case_match.
    + intros k' Hk'. by eapply exit_class.
  - apply (Hdo OpYield); [done| |done]. intros k' Hk'. by eapply yield_class.
  - apply (Hdo (OpIrq [])); [by intros y ?%elem_of_nil| |done]. intros k' Hk'. by eapply call_class.
  - destruct (external_class w write_buffer console poll_fn mapped mode next_timer_tick irq_id_handler irq_handler raw cause tf s Hid Hirq Hc Hm) as (xs&Hxs&Hv).
    apply (Hdo (OpIrq xs)); [exact Hxs|exact Hv|by exists xs].
Qed.

(** ** The trap vector of [TaskStack] around the handler

    A control block is at its slot of the pool.  The processor runs the vector,
    which calls the handler with the frame it has saved and switches to the
    task that the handler leaves in [NEXT_TCB]. *)

Import Switch.

(** [x0] and [x2] are what the stack holds in the slots that are not saved. *)
Definition frame_of (x0 x2 : Z) (r : Riscv.RvRegs) : TrapFrame :=
  mk_frame (x0 :: Riscv.rg_ra r :: x2 :: Riscv.rg_x3_x31 r) (Riscv.rg_status r) (Riscv.rg_epc r).
Definition regs_of (tf : TrapFrame) : Riscv.RvRegs := Riscv.mk_regs (nth 1 (x tf) 0%Z) (drop 3 (x tf)) (status tf) (epc tf).

(** The task that runs changes its registers and its stack, or there is a
    trap, whose handler writes [writes] to memory besides the frame. *)
Inductive Event : Type :=
  | ERun (x : Riscv.RvCtx) (writes : list (Z * Z))
  | ETrap (raw : Z) (cause : Cause) (x0 x2 : Z) (writes : list (Z * Z)).

Section registers.
#[local] Existing Instance Riscv.riscv_port.
#[local] Existing Instance Riscv.riscv_laws.
Context `{!SmpConfig} {D W F : Type} `{!AnyDriver D W}.
Context (w : Z) (write_buffer : D → list Z → W → (DriverErr + Z) * W) (console : option (W → Z → W)).
Context (poll_fn : option (RxBuffer → W → exec (option Z * RxBuffer * W))) (mapped : Z → bool).
Context (mode : Mode) (next_timer_tick : W → W).
Context (irq_id_handler : option (Z → system D W F → exec (system D W F))) (irq_handler : option (system D W F → exec (system D W F))).
Context (base step : Z) (lo hi : Z → Z).

#[local] Abbreviation handle := (rust_trap_handler w write_buffer console poll_fn mapped mode next_timer_tick irq_id_handler irq_handler).
#[local] Abbreviation vector := (trap_vector w write_buffer console poll_fn mapped mode next_timer_tick irq_id_handler irq_handler).
#[local] Abbreviation block := (slot_ptr base step).

Definition masked (s : system D W F) : system D W F := with_kernel s (with_mach (y_kernel s) (set_irq (mach (y_kernel s)) false)).

Definition cpu_event (p : system D W F * Riscv.RvCpu) (e : Event) : exec (system D W F * Riscv.RvCpu) :=
  let '(s, c) := p in
  match e with
  | ERun x writes => Done (s, p_run c x (write_all (p_mem c) writes))
  | ETrap raw cause x0 x2 writes =>
      let frame := frame_of x0 x2 (Riscv.rv_regs c) in
      '(tf, s1) ← handle raw cause frame (masked s);
      next ← get_exec (NEXT_TCB (mach (y_kernel s1)));
      c ← Riscv.trap_vector (Riscv.handler_of (Riscv.mk_trap writes (regs_of tf) (block next))) c;
      '(_, s) ← vector raw cause frame s;
      Done (s, c)
  end.
Fixpoint cpu_events (p : system D W F * Riscv.RvCpu) (es : list Event) : exec (system D W F * Riscv.RvCpu) :=
  match es with [] => Done p | e :: es => p ← cpu_event p e; cpu_events p es end.

(** The specification has the kernel, and a context for each task: a trap is
    one of the kernel's, on the context of the current task. *)
Definition kernel_event (p : system D W F * (Z → Riscv.RvCtx)) (e : Event) : exec (system D W F * (Z → Riscv.RvCtx)) :=
  let '(s, xs) := p in
  cur ← get_exec (CURRENT_TCB (mach (y_kernel s)));
  let ctx := xs (block cur) in
  match e with
  | ERun x _ => Done (s, upd_ctx xs (block cur) x)
  | ETrap raw cause x0 x2 _ =>
      '(tf, s) ← vector raw cause (frame_of x0 x2 (Riscv.cx_regs ctx)) s;
      Done (s, upd_ctx xs (block cur) (Riscv.mk_ctx (regs_of tf) (Riscv.cx_sp ctx)))
  end.
Fixpoint kernel_events (p : system D W F * (Z → Riscv.RvCtx)) (es : list Event) : exec (system D W F * (Z → Riscv.RvCtx)) :=
  match es with [] => Done p | e :: es => p ← kernel_event p e; kernel_events p es end.

(** The control blocks of the tasks. *)
Definition blocks (k : kernel) : list Z := block <$> filter (λ i, is_Some (tcbs k !! i)) (seq 0 TASK_CAP).

(** A task writes to its stack.  A trap is one the handler knows, which writes
    to no control block, no other stack, and not over the frame. *)
Definition event_ok (p : system D W F * (Z → Riscv.RvCtx)) (e : Event) : Prop :=
  let '(s, xs) := p in
  ∀ cur, CURRENT_TCB (mach (y_kernel s)) = Some cur →
  match e with
  | ERun x writes => fits lo hi (block cur) x ∧ Forall (λ kv, lo (block cur) <= kv.1 < hi (block cur))%Z writes
  | ETrap raw cause x0 x2 writes =>
      let ctx := xs (block cur) in let tf := frame_of x0 x2 (Riscv.cx_regs ctx) in
      trap_ok w mapped tf s ∧ is_Some (classify w mapped mode irq_id_handler raw cause tf s)
      ∧ ∀ k, k ∈ writes.*1 → ¬ in_frame ctx k ∧ ∀ u, u ∈ blocks (y_kernel s) → k ≠ u ∧ (u ≠ block cur → k < lo u ∨ hi u <= k)%Z
  end.
Fixpoint events_ok (p : system D W F * (Z → Riscv.RvCtx)) (es : list Event) : Prop :=
  match es with [] => True | e :: es => event_ok p e ∧ ∀ p', kernel_event p e = Done p' → events_ok p' es end.

(** The processor runs the current task, with its context. *)
Definition follows (s : system D W F) (c : Riscv.RvCpu) (xs : Z → Riscv.RvCtx) : Prop :=
  kernel_reach base step (y_kernel s) ∧ layout_ok (blocks (y_kernel s)) lo hi
  ∧ ∃ cur, CURRENT_TCB (mach (y_kernel s)) = Some cur ∧ turns (blocks (y_kernel s)) lo hi c (block cur, xs).

Lemma vector_next raw cause tf (s : system D W F) tf' s' : vector raw cause tf s = Done (tf', s') →
  ∃ s1, handle raw cause tf (masked s) = Done (tf', s1) ∧ CURRENT_TCB (mach (y_kernel s')) = NEXT_TCB (mach (y_kernel s1)).
Proof.
  unfold trap_vector. intros Hv. apply exec_bind_inv in Hv as ([tf1 s1]&Hh&Hv). exists s1.
  case_bool_decide as Hc; [|exec_inv; by split]. injection Hv as <- <-. by split.
Qed.

Lemma frame_after_length (c : trap_class) (tf tf' : TrapFrame) : frame_after c tf tf' → length (x tf') = length (x tf).
Proof.
  destruct c; cbn; intros Hf; [by subst| | | | |by subst].
  - by destruct Hf as [-> _].
  - destruct Hf as [-> _]. apply length_insert.
  - destruct Hf as [-> _]. apply length_insert.
  - destruct Hf as [[v ->] _]. apply length_insert.
Qed.

Lemma blocks_same (k k' : kernel) : same_dom (tcbs k) (tcbs k') → blocks k' = blocks k.
Proof. intros Hd. unfold blocks. f_equal. apply list_filter_iff. intros i. apply Hd. Qed.

Lemma context_block (k : kernel) : max_cpus = 1 → kernel_reach base step k →
  ∃ cur, CURRENT_TCB (mach k) = Some cur ∧ block cur ∈ blocks k.
Proof.
  intros Hone Hr. destruct (reach_context base step k Hone Hr) as (cur&sc&qss&sl&fl&[]&Hco&Hcur&_). exists cur. split; [done|].
  unfold blocks. apply list_elem_of_fmap_2, list_elem_of_filter. split; [done|]. apply elem_of_seq.
  apply (pc_dom _ _ _ _ _ (co_pcore _ _ _ _ _ _ _ Hco)) in Hcur. lia.
Qed.

Context (Hone : max_cpus = 1) (Hpoll : poll_ok poll_fn).
Context (Hid : ∀ h id, irq_id_handler = Some h → handler_ok (h id)) (Hirq : ∀ h, irq_handler = Some h → handler_ok h).

Lemma event_step (s : system D W F) (c : Riscv.RvCpu) (xs : Z → Riscv.RvCtx) (e : Event) : follows s c xs → event_ok (s, xs) e →
  ∃ s' xs' c', kernel_event (s, xs) e = Done (s', xs') ∧ cpu_event (s, c) e = Done (s', c') ∧ follows s' c' xs'.
Proof.
  intros (Hr&Hla&cur&Hcur&Ht) He. specialize (He cur Hcur). unfold kernel_event. rewrite Hcur. cbn [get_exec mbind exec_bind].
  destruct e as [x ws|raw cause x0 x2 ws]; cbn [cpu_event].
  - eexists _, _, _. split; [done|]. split; [done|]. split; [done|]. split; [done|]. exists cur. split; [done|]. by apply (run_ok _ _ _ Hla c (block cur, xs) x ws).
  - destruct He as (Hok&[cl Hcl]&Hwr). pose proof (tu_ctx _ _ _ _ _ Ht) as Hctx. cbn in Hctx.
    assert (Hregs : Riscv.rv_regs c = Riscv.cx_regs (xs (block cur))) by (by rewrite <- Hctx). rewrite Hregs.
    set (tf := frame_of x0 x2 _) in *.
    destruct (trap_step w write_buffer console poll_fn mapped mode next_timer_tick irq_id_handler irq_handler base step raw cause tf s cl Hone Hr Hpoll Hid Hirq Hok Hcl)
      as (op&tf'&s'&Hop&Hrun&Hv&Hf&Hr'). rewrite Hv. cbn [mbind exec_bind].
    destruct (vector_next _ _ _ _ _ _ Hv) as (s1&Hh&Hnext). rewrite Hh. cbn [mbind exec_bind]. rewrite <- Hnext.
    assert (Hb : blocks (y_kernel s') = blocks (y_kernel s)).
    { apply blocks_same. eapply (pool_kept_dom 0 []); [by eapply reach_context|by eapply reach_context|]. eapply trap_op_pool; [|exact Hrun].
      destruct cl; cbn [class_op] in Hop; subst; eauto. }
    destruct (context_block (y_kernel s') Hone Hr') as (cur'&Hcur'&Hin'). rewrite Hcur'. cbn [get_exec mbind exec_bind].
    destruct (switch_ok _ _ _ Hla c (block cur, xs) (Riscv.mk_trap ws (regs_of tf') (block cur')) Ht) as (c'&Hsw&Ht').
    { split_and!; [by rewrite <- Hb|..|exact Hwr]; [|done]. cbn. rewrite length_drop, (frame_after_length _ _ _ Hf). cbn.
      pose proof (fi_wf _ _ _ _ (tu_fits _ _ _ _ _ Ht _ (tu_in _ _ _ _ _ Ht))) as Hl. cbn in Hl. by rewrite Hl. }
    cbn [p_switch Riscv.riscv_port] in Hsw. rewrite Hsw. cbn [mbind exec_bind].
    eexists _, _, _. split; [done|]. split; [done|]. split; [done|]. rewrite Hb. split; [done|]. exists cur'. by split.
Qed.

Lemma events_follow (es : list Event) : ∀ (s : system D W F) (c : Riscv.RvCpu) (xs : Z → Riscv.RvCtx), follows s c xs → events_ok (s, xs) es →
  ∃ s' xs' c', kernel_events (s, xs) es = Done (s', xs') ∧ cpu_events (s, c) es = Done (s', c') ∧ follows s' c' xs'.
Proof.
  induction es as [|e es IH]; intros s c xs Hf He; cbn [kernel_events cpu_events]; [by eexists _, _, _|]. destruct He as [He Hes].
  destruct (event_step s c xs e Hf He) as (s1&xs1&c1&Hk&Hc&Hf1). rewrite Hk, Hc. cbn [mbind exec_bind]. apply IH; [done|]. by apply Hes.
Qed.
End registers.

(** ** Properties *)

#[local] Existing Instance Riscv.riscv_port.
#[local] Existing Instance Riscv.riscv_laws.


(** A machine with one dummy driver type, for the witnesses. *)
#[local] Existing Instance single_cpu.
#[local] Instance no_driver : AnyDriver unit (list Z) := {
  drv_name _ := []; drv_resource _ := mk_resource 0 0 0; as_device _ _ := false; drv_handle_irq _ _ x := (false, x); auto_init _ x := (inr (), x);
}.
Definition demo_write (d : unit) (buf x : list Z) : (DriverErr + Z) * list Z := (inr (Z.of_nat (length buf)), x ++ buf).
Definition demo_console : option (list Z → Z → list Z) := Some (λ x b, x ++ [b]).
Definition demo_system (k : kernel) : system unit (list Z) unit := mk_system k rx_new registry_boot [] (λ a, if (a =? 0x80010000)%Z then 72 else 10)%Z.
(** [write(1, 0x80010000, 2)]. *)
Definition demo_frame : TrapFrame := mk_frame (<[10 := 1%Z]> (<[11 := 0x80010000%Z]> (<[12 := 2%Z]> (<[17 := 1%Z]> (replicate 32 0%Z))))) 0 0x80000000.



(** The root task of a machine that has just booted exits. *)
Definition demo_kernel : kernel := match demo_boot with Done k => k | Stuck => kernel_boot end.
Definition demo_lo (u : Z) : Z := if (u =? 4096)%Z then 65536 else 131072.
Definition demo_hi (u : Z) : Z := if (u =? 4096)%Z then 69632 else 147456.
Definition demo_ctxs (u : Z) : Riscv.RvCtx := Riscv.initial_ctx (if (u =? 4096)%Z then 11 else 22) (demo_hi u).
Definition demo_cpu : Riscv.RvCpu :=
  Riscv.mk_rv (Riscv.mk_regs 0 [] 0 0) 0 (<[4096 := 69632 - 272]> (<[4224 := 147456 - 272]> (mem demo_kernel)))%Z 0 4224.
Definition demo_exit : Riscv.RvCtx := Riscv.mk_ctx (Riscv.mk_regs 22 (<[14 := NR_EXIT]> (replicate 29 7%Z)) 288 0x80000000) (147456 - 64).
Definition demo_events : list Event := [ERun demo_exit [(147456 - 8, 5)]; ETrap 8 UserEnvCall 0 0 [(140000, 1)]]%Z.

Example demo_resume : (c ← Riscv.load_first_task_and_start demo_cpu;
    '(s, c) ← cpu_events 64 demo_write demo_console None (λ _, true) SMode (λ y, y) None None 4096 128 (demo_system demo_kernel, c) demo_events;
    Done (CURRENT_TCB (mach (y_kernel s)), Riscv.RV_CURRENT_TCB c, p_ctx c)) = Done (Some 0, 4096%Z, demo_ctxs 4096).
Proof. by vm_compute. Qed.

Lemma demo_kernel_reach : kernel_reach 4096 128 demo_kernel.
Proof.
  assert (Hone : max_cpus = 1) by reflexivity.
  assert (Hi : stack_ok 65536 512) by (unfold stack_ok, REG_BYTES; lia).
  assert (Hr : stack_ok 131072 2048) by (unfold stack_ok, REG_BYTES; lia).
  destruct (boot_k 0 Hone 4096 128 11 65536 512 22 131072 2048 eq_refl Hi Hr) as (k&E0&_).
  unfold demo_kernel, demo_boot. rewrite E0. exact (kr_boot 4096 128 _ _ _ _ _ _ k Hi Hr E0).
Qed.

Lemma demo_blocks : blocks 4096 128 demo_kernel = [4096; 4224]%Z.
Proof. by vm_compute. Qed.


Definition crlf (buf : list Z) : list Z := concat ((λ b, if (b =? 10)%Z then [13; 10]%Z else [b]) <$> buf).

Lemma putc_all_crlf {W : Type} (putc : W → Z → W) (buf : list Z) : ∀ y, putc_all putc buf y = foldl putc y (crlf buf).
Proof.
  unfold putc_all, crlf. induction buf as [|b buf IH]; intros y; [done|]. cbn [foldl fmap list_fmap concat]. rewrite IH, foldl_app.
  destruct (Z.eqb_spec b 10) as [->|]; done.
Qed.

Lemma user_range_Done (w addr len : Z) : (0 <= len < 2 ^ (w - 1))%Z → addr ≠ 0%Z → (addr + len < 2 ^ w)%Z → user_range w addr len = Done (Some (Z.to_nat len)).
Proof.
  intros Hl Ha Hs. unfold user_range. destruct (Z.eqb_spec len 0) as [->|]; [done|]. rewrite (proj2 (Z.eqb_neq _ _) Ha), (proj2 (Z.ltb_lt _ _) Hs). cbn [orb negb].
  by rewrite (proj2 (Z.leb_gt _ _)) by lia.
Qed.

Lemma to_isize_small (w v : Z) : (0 < w)%Z → (0 <= v < 2 ^ (w - 1))%Z → to_isize w v = v.
Proof.
  intros Hw Hv. unfold to_isize. assert (Hp : (2 ^ w = 2 * 2 ^ (w - 1))%Z) by (rewrite <- Z.pow_succ_r by lia; f_equal; lia).
  rewrite wrap_small by (unfold in_width; lia). by rewrite (proj2 (Z.ltb_lt _ _)) by lia.
Qed.

Lemma user_bytes_stored (m : ram) (addr : Z) (bs : list Z) : user_bytes (store m addr bs) addr (length bs) = bs.
Proof.
  apply list_eq. intros i. unfold user_bytes. rewrite list_lookup_fmap. destruct (decide (i < length bs)) as [Hi|Hi].
  - rewrite lookup_seq_lt by done. cbn [fmap option_fmap option_map]. unfold store. rewrite (proj2 (Z.leb_le _ _)), (proj2 (Z.ltb_lt _ _)) by lia. cbn [andb].
    rewrite nth_lookup. replace (Z.to_nat (addr + Z.of_nat (0 + i) - addr)) with i by lia. destruct (lookup_lt_is_Some_2 bs i Hi) as [v Hv]. by rewrite Hv.
  - rewrite lookup_seq_ge by lia. symmetry. apply lookup_ge_None. lia.
Qed.

(** C12. A write system call to a valid buffer without a terminal driver puts
    the bytes on the console, a carriage return before each line feed, and
    returns their number; with a terminal it returns what the first one
    answers.  A read call takes the bytes queued in the receive ring, in order
    and as many as fit; if the console has a poll function that reads the port
    and returns (interrupts being masked already, as they are in the handler of
    a trap), it goes on with the bytes of the port, until that has none or the
    buffer is full.  It puts these bytes in the buffer and nothing else in
    memory, and returns their number, or -11 when there are none. *)
Theorem syscall_read_write `{!SmpConfig} {D W F : Type} `{!AnyDriver D W} (w : Z) (write_buffer : D → list Z → W → (DriverErr + Z) * W)
    (console : option (W → Z → W)) (getc : option (W → exec (option Z * W))) (s : system D W F) (fd addr len : Z) (rest : list Z) :
  let dispatch := dispatch w write_buffer console (port_poll <$> getc) in
  (8 < w)%Z → ring_wf (y_rx s) → port_ok getc (mach (y_kernel s)) → (0 < len < 2 ^ (w - 1))%Z → addr ≠ 0%Z → (addr + len < 2 ^ w)%Z →
  ((fd = 1 ∨ fd = 2)%Z → let buf := user_bytes (y_ram s) addr (Z.to_nat len) in
     dispatch (mk_args NR_WRITE (fd :: addr :: len :: rest)) s = Done (
       match for_each_device (y_drivers s) TERMINAL, console with
       | d :: _, _ =>
           let '(r, y) := write_buffer d buf (y_world s) in (return_value (match r with inr n => to_isize w n | inl e => driver_err e end), with_world s y)
       | [], Some putc => (return_value len, with_world s (foldl putc (y_world s) (crlf buf)))
       | [], None => (return_value (-5), s)
       end))
  ∧ ∃ polled y', poll_bytes getc (Z.to_nat len - length (rx_bytes (y_rx s))) (y_world s) = Done (polled, y')
    ∧ let got := take (Z.to_nat len) (rx_bytes (y_rx s)) ++ polled in
    ∃ s', dispatch (mk_args NR_READ (0%Z :: addr :: len :: rest)) s
        = Done (return_value (match got with [] => -11 | _ => Z.of_nat (length got) end)%Z, s')
      ∧ rx_bytes (y_rx s') = drop (Z.to_nat len) (rx_bytes (y_rx s)) ∧ ring_wf (y_rx s')
      ∧ user_bytes (y_ram s') addr (length got) = got ∧ (∀ a, (a < addr ∨ addr + Z.of_nat (length got) <= a)%Z → y_ram s' a = y_ram s a)
      ∧ y_kernel s' = y_kernel s ∧ y_world s' = y'.
Proof.
  intros call Hw Hrx Hg Hlen Ha Hs. subst call. pose proof (user_range_Done w addr len ltac:(lia) Ha Hs) as Hr. split.
  - intros Hfd buf. unfold dispatch. cbn [sc_nr sc_args nth]. change (NR_WRITE =? NR_WRITE)%Z with true. cbn iota. unfold sys_write. rewrite Hr. cbn [mbind exec_bind].
    assert (Hf : (fd =? STDOUT_FILENO)%Z || (fd =? STDERR_FILENO)%Z = true) by (destruct Hfd as [-> | ->]; done). rewrite Hf. fold buf. unfold write_console.
    destruct (for_each_device (y_drivers s) TERMINAL) as [|d ds].
    + destruct console as [putc|]; cbn [mbind exec_bind]; [|done]. rewrite putc_all_crlf. do 3 f_equal.
      unfold buf, user_bytes. rewrite length_fmap, length_seq, Z2Nat.id by lia. apply to_isize_small; lia.
    + by destruct (write_buffer d buf (y_world s)) as [r y].
  - destruct (read_bytes_queue getc (Z.to_nat len) (mach (y_kernel s)) Hg (y_rx s) (y_world s) Hrx) as (polled&b'&y'&Hpo&Hrd&Hwf'&Hb').
    exists polled, y'. split; [exact Hpo|]. intros got. pose proof (poll_bytes_length _ _ _ _ _ Hpo) as Hl.
    unfold dispatch. cbn [sc_nr sc_args nth]. change (NR_READ =? NR_WRITE)%Z with false. change (NR_READ =? NR_READ)%Z with true. cbn iota.
    unfold sys_read. rewrite Hr. cbn [mbind exec_bind]. change (0 =? STDIN_FILENO)%Z with true. cbn iota. unfold read_console.
    rewrite (proj2 (Nat.eqb_neq _ 0)) by lia. rewrite Hrd. cbn [mbind exec_bind]. fold got.
    exists (mk_system (with_mach (y_kernel s) (mach (y_kernel s))) b' (y_drivers s) y' (store (y_ram s) addr got)).
    split; [|split_and!; [exact Hb'|exact Hwf'|by apply user_bytes_stored| | |done]].
    + do 2 f_equal. assert (Hgl : (Z.of_nat (length got) < 2 ^ (w - 1))%Z).
      { unfold got. rewrite length_app, length_take. lia. }
      destruct got as [|g gs] eqn:Eg; [done|]. rewrite <- Eg in *. replace (length got =? 0) with false by (by rewrite Eg). f_equal. apply to_isize_small; lia.
    + intros a Hout. cbn [y_ram]. unfold store. repeat case_bool; cbn [andb]; done || (exfalso; lia).
    + cbn [y_kernel]. by destruct (y_kernel s).
Qed.

(** A byte in the ring and two at the port. *)
Definition demo_getc (y : list Z) : exec (option Z * list Z) := Done (head y, tail y).
Definition demo_reading `{!SmpConfig} : system unit (list Z) unit :=
  let s := enter_handler (demo_system kernel_boot) in
  mk_system (y_kernel s) (mk_rx (<[0 := 104%Z]> (replicate BUF_SIZE 0%Z)) 1 0) (y_drivers s) [105; 10]%Z (y_ram s).

Lemma syscall_read_write_witness : let c := single_cpu in
  ∃ s', dispatch 64 demo_write demo_console (port_poll <$> Some demo_getc) (mk_args NR_READ [0; 0x80010000; 4; 0; 0; 0]%Z) demo_reading = Done (return_value 3, s')
  ∧ user_bytes (y_ram s') 0x80010000 3 = [104; 105; 10]%Z.
Proof.
  intros c. destruct (syscall_read_write 64 demo_write demo_console (Some demo_getc) demo_reading 1 0x80010000 4 [0; 0; 0]%Z)
    as (_&polled&y'&Hpo&s'&He&_&_&Hu&_); [lia|split; vm_compute; lia| |lia|lia|lia|].
  - intros g Hg. injection Hg as <-. split; [intros y; by eexists _, _|]. split; [apply set_current_cpu_ok, machine_boot_ok|vm_compute; lia].
  - vm_compute in Hpo. injection Hpo as <- <-. exists s'. split; [exact He|exact Hu].
Defined.

(** C13. The errors of system calls, which change nothing: an unknown number, a
    buffer that is null or passes the end of the addresses, a descriptor that
    is not open for the call; reading into an empty buffer returns zero.  Every
    driver error is a negative number.  A length from half of the address
    space on is let through, where no slice may be that long. *)
Theorem syscall_errors `{!SmpConfig} {D W F : Type} `{!AnyDriver D W} (w : Z) (write_buffer : D → list Z → W → (DriverErr + Z) * W)
    (console : option (W → Z → W)) (poll_fn : option (RxBuffer → W → exec (option Z * RxBuffer * W))) (s : system D W F) (nr fd addr len : Z) (rest : list Z) :
  let call nr := dispatch w write_buffer console poll_fn (mk_args nr (fd :: addr :: len :: rest)) s in
  (nr ∉ [1; 2; 3; 4]%Z → call nr = Done (return_value (-38), s))
  ∧ (nr = 1 ∨ nr = 2 → len ≠ 0 → addr = 0 ∨ 2 ^ w <= addr + len → call nr = Done (return_value (-14), s))%Z
  ∧ (len = 0 ∨ addr ≠ 0 ∧ addr + len < 2 ^ w ∧ len < 2 ^ (w - 1) →
       (fd ≠ 1 → fd ≠ 2 → call 1 = Done (return_value (-9), s)) ∧ (fd ≠ 0 → call 2 = Done (return_value (-9), s)))%Z
  ∧ (len = 0 → fd = 0 → call 2 = Done (return_value 0, s))%Z
  ∧ (nr = 1 ∨ nr = 2 → addr ≠ 0 → addr + len < 2 ^ w → 2 ^ (w - 1) <= len → 0 < w → call nr = Stuck)%Z
  ∧ ∀ e, (driver_err e < 0)%Z.
Proof.
  intros call. unfold call, dispatch. cbn [sc_nr sc_args nth]. unfold NR_WRITE, NR_READ, NR_EXIT, NR_YIELD.
  assert (Hok : (len = 0 ∨ addr ≠ 0 ∧ addr + len < 2 ^ w ∧ len < 2 ^ (w - 1) → ∃ n, user_range w addr len = Done (Some n))%Z).
  { unfold user_range. intros [->|(Ha&Hs&Hl)]; [by eexists|]. destruct (len =? 0)%Z; [by eexists|].
    rewrite (proj2 (Z.eqb_neq _ _) Ha), (proj2 (Z.ltb_lt _ _) Hs), (proj2 (Z.leb_gt _ _) Hl). by eexists. }
  split_and!.
  - intros Hn. rewrite !not_elem_of_cons in Hn. destruct Hn as (?&?&?&?&_). by rewrite !(proj2 (Z.eqb_neq nr _)) by done.
  - intros Hnr Hl Ha. assert (Hr : user_range w addr len = Done None).
    { unfold user_range. rewrite (proj2 (Z.eqb_neq _ _) Hl). destruct Ha as [->|Ha]; [done|]. rewrite (proj2 (Z.ltb_ge _ _) Ha). by rewrite orb_true_r. }
    destruct Hnr as [-> | ->]; cbn [Z.eqb Pos.eqb]; unfold sys_write, sys_read; by rewrite Hr.
  - intros Hr. destruct (Hok Hr) as (n&Hn). unfold sys_write, sys_read. cbn [Z.eqb Pos.eqb]. rewrite Hn. cbn [mbind exec_bind]. split.
    + intros H1 H2. by rewrite (proj2 (Z.eqb_neq fd STDOUT_FILENO) H1), (proj2 (Z.eqb_neq fd STDERR_FILENO) H2).
    + intros H0. by rewrite (proj2 (Z.eqb_neq fd STDIN_FILENO) H0).
  - by intros -> ->.
  - intros Hnr Ha Hs Hl Hw. assert (Hp : (0 < 2 ^ (w - 1))%Z) by (apply Z.pow_pos_nonneg; lia). assert (Hr : user_range w addr len = Stuck).
    { unfold user_range. rewrite (proj2 (Z.eqb_neq len 0)) by lia. by rewrite (proj2 (Z.eqb_neq _ _) Ha), (proj2 (Z.ltb_lt _ _) Hs), (proj2 (Z.leb_le _ _) Hl). }
    destruct Hnr as [-> | ->]; cbn [Z.eqb Pos.eqb]; unfold sys_write, sys_read; by rewrite Hr.
  - by intros [].
Qed.

Lemma syscall_errors_witness : dispatch 64 demo_write demo_console None (mk_args 9 [1; 0; 4]%Z) (demo_system kernel_boot) = Done (return_value (-38), demo_system kernel_boot).
Proof.
  apply (syscall_errors 64 demo_write demo_console None (demo_system kernel_boot) 9 1 0 4 []).
  rewrite !not_elem_of_cons. split_and!; try lia. apply not_elem_of_nil.
Defined.
