(* ===== verification/Init.v ===== *)
(** * Start-up of the services, [kernel/src/process/init.rs],
    [kernel/src/process/root.rs] and the device files and drivers of
    [kernel/src/lib.rs]

    A service is what its start function does to the state of the system. *)

From S2P Require Export Prelude.
From S2P Require Export Str.
From S2P Require Export Sched.
From S2P Require Export Drivers.
From S2P Require Export RamFs.
From S2P Require Export Text.
From S2P Require Export SchedKernel.
From S2P Require Export SchedProps.
From S2P Require Export RamFsTree.
From S2P Require Export RamFsProps.

(** ** The init manager *)

Definition INIT_SERVICE_CAP : nat := 8.

Inductive InitError : Type := Disabled | NoSlots | StartFailed.

Section init.
Context {K : Type}.

Record InitService : Type := mk_service { sv_name : str; sv_required : bool; sv_start : K → exec ((InitError + unit) * K) }.
Record InitStats : Type := mk_init_stats { st_registered : nat; st_started : nat; st_skipped : nat; st_failed : nat }.
Record InitManager : Type := mk_manager { im_services : list (option InitService); im_len : nat }.

Definition manager_new : InitManager := mk_manager (replicate INIT_SERVICE_CAP None) 0.

Definition init_register (m : InitManager) (service : InitService) : exec ((InitError + unit) * InitManager) :=
  if length (im_services m) <=? im_len m then Done (inl NoSlots, m) else
  services ← put_exec (im_services m) (im_len m) (Some service);
  Done (inr (), mk_manager services (S (im_len m))).

(** The loop over the slots. *)
Fixpoint run_services (slots : list (option InitService)) (stats : InitStats) (k : K) : exec (InitStats * K) :=
  match slots with
  | [] => Done (stats, k)
  | None :: slots => run_services slots stats k
  | Some service :: slots =>
      '(r, k) ← sv_start service k;
      let stats := match r with
        | inr _ => mk_init_stats (st_registered stats) (S (st_started stats)) (st_skipped stats) (st_failed stats)
        | inl Disabled => mk_init_stats (st_registered stats) (st_started stats) (S (st_skipped stats)) (st_failed stats)
        | inl _ => mk_init_stats (st_registered stats) (st_started stats) (st_skipped stats) (S (st_failed stats))
        end in
      run_services slots stats k
  end.

Definition init_run (m : InitManager) (k : K) : exec (InitStats * K) :=
  run_services (take (im_len m) (im_services m)) (mk_init_stats (im_len m) 0 0 0) k.
End init.
Arguments InitService : clear implicits.
Arguments InitManager : clear implicits.

(** ** The root task, with the shell and without the asynchronous runtime *)

Section root.
Context `{!SmpConfig} (tcb_base tcb_step : Z).
(** The entry of the shell and its stack. *)
Context (shell_entry shell_stack shell_words : Z).

Definition start_builtin_shell (k : kernel) : exec ((InitError + unit) * kernel) :=
  '(id, k) ← create_task tcb_base tcb_step k shell_entry shell_stack shell_words 1 "SHELL"%string;
  if (id =? U32_MAX)%Z then Done (inl StartFailed, k) else Done (inr (), k).

Definition register_init_service {K} (m : InitManager K) (service : InitService K) : exec (InitManager K) :=
  '(_, m) ← init_register m service; Done m.

(** [root_task] up to its loop. *)
Definition root_start (k : kernel) : exec (InitStats * kernel) :=
  m ← register_init_service manager_new (mk_service (bytes "shell") true start_builtin_shell);
  init_run m k.

(** A turn of its loop. *)
Definition root_turn (k : kernel) : exec kernel := delay k 10000.
End root.

(** ** The drivers of the platform *)

Section drivers.
Context {D W F : Type} `{!EqDecision D} `{!AnyDriver D W}.

Fixpoint auto_drivers_init (drivers : list D) (r : Registry D F) (x : W) : Registry D F * W :=
  match drivers with
  | [] => (r, x)
  | d :: drivers =>
      let '(res, r) := register_driver r d in
      match res with
      | inl _ => auto_drivers_init drivers r x
      | inr _ => let '(_, x) := auto_init d x in auto_drivers_init drivers r x
      end
  end.
End drivers.

(** ** Device files *)

Fixpoint put_prefix (prefix : str) (buf : list Z) (pos : nat) : exec (list Z * nat) :=
  match prefix with
  | [] => Done (buf, pos)
  | b :: prefix =>
      if 15 <=? pos then Done (buf, pos) else
      buf ← put_exec buf pos b; put_prefix prefix buf (S pos)
  end.

(** The digits, the last one first; ten rounds end every 32-bit number. *)
Fixpoint put_digits (fuel : nat) (tmp : list Z) (len : nat) (n : Z) : exec (list Z * nat) :=
  match fuel with
  | O => Stuck
  | S fuel =>
      tmp ← put_exec tmp len (48 + n `mod` 10)%Z;
      let n := (n / 10)%Z in
      if (n =? 0)%Z then Done (tmp, S len) else put_digits fuel tmp (S len) n
  end.

(** The digits [tmp[len - 1]], ..., [tmp[0]]. *)
Fixpoint put_reversed (tmp : list Z) (len : nat) (buf : list Z) (pos : nat) : exec (list Z * nat) :=
  match len with
  | O => Done (buf, pos)
  | S i =>
      if 15 <=? pos then Done (buf, pos) else
      d ← get_exec (tmp !! i);
      buf ← put_exec buf pos d; put_reversed tmp i buf (S pos)
  end.

Definition format_dev_name (prefix : str) (idx : Z) : exec (list Z * nat) :=
  '(buf, pos) ← put_prefix prefix (replicate 16 0%Z) 0;
  '(tmp, len) ← put_digits 10 (replicate 10 0%Z) 0 idx;
  put_reversed tmp len buf pos.

(** The body of the four closures. *)
Definition dev_file (dev : nat) (prefix : str) (idx : Z) (fs : RamFs) : exec RamFs :=
  '(buf, len) ← format_dev_name prefix idx;
  bs ← prefix_exec buf len;
  let name_str := from_utf8_or_empty bs in
  r ← lookup fs dev name_str;
  match r with
  | inr _ => Done fs
  | inl _ => '(_, fs) ← create_file fs dev name_str; Done fs
  end.

Fixpoint dev_files (dev : nat) (prefix : str) (n : nat) (idx : Z) (fs : RamFs) : exec RamFs :=
  match n with
  | O => Done fs
  | S n => next ← add_w 32 idx 1; fs ← dev_file dev prefix idx fs; dev_files dev prefix n next fs
  end.

Definition register_dev_files {D W F : Type} `{!EqDecision D} `{!AnyDriver D W} (r : Registry D F) (fs : RamFs) : exec RamFs :=
  d ← resolve_path fs (bytes "/dev");
  match d with
  | inl _ => Done fs
  | inr dev =>
      fs ← dev_files dev (bytes "blk") (length (for_each_device r BLOCK)) 0 fs;
      fs ← dev_files dev (bytes "ttyS") (length (for_each_device r CHAR)) 0 fs;
      fs ← dev_files dev (bytes "gpio") (length (for_each_device r GPIO)) 0 fs;
      dev_files dev (bytes "eth") (length (for_each_device r NET)) 0 fs
  end.

(** ** What the start-up promises *)

(** *** Names of device files *)

Lemma take_put (buf : list Z) (pos : nat) (b : Z) : pos < length buf → take (S pos) (<[pos := b]> buf) = take pos buf ++ [b].
Proof.
  intros Hp. rewrite (take_S_r _ _ b) by (by rewrite list_lookup_insert_eq). by rewrite take_insert_ge by lia.
Qed.

Lemma put_prefix_spec (prefix : str) : ∀ buf pos, length buf = 16 → pos ≤ 15 →
  ∃ buf' pos', put_prefix prefix buf pos = Done (buf', pos') ∧ length buf' = 16 ∧ pos' ≤ 15 ∧ take pos' buf' = take 15 (take pos buf ++ prefix).
Proof.
  induction prefix as [|b prefix IH]; intros buf pos Hl Hp; cbn [put_prefix].
  - exists buf, pos. split_and!; try done. rewrite app_nil_r, take_take. f_equal. lia.
  - destruct (Nat.leb_spec 15 pos).
    + exists buf, pos. split_and!; try done. rewrite take_app_le by (rewrite length_take; lia). rewrite take_take. f_equal. lia.
    + rewrite put_exec_Done by lia. cbn [mbind exec_bind]. destruct (IH (<[pos := b]> buf) (S pos)) as (buf'&pos'&->&Hl'&Hp'&Ht); [by rewrite length_insert|lia|].
      exists buf', pos'. split_and!; try done. rewrite Ht, take_put by lia. by rewrite <- app_assoc.
Qed.

Lemma put_reversed_spec (tmp : list Z) (len : nat) : ∀ buf pos, len ≤ length tmp → length buf = 16 → pos ≤ 15 →
  ∃ buf' pos', put_reversed tmp len buf pos = Done (buf', pos') ∧ length buf' = 16 ∧ pos' ≤ 15
    ∧ take pos' buf' = take 15 (take pos buf ++ reverse (take len tmp)).
Proof.
  induction len as [|i IH]; intros buf pos Ht Hl Hp; cbn [put_reversed].
  - exists buf, pos. split_and!; try done. cbn. rewrite app_nil_r, take_take. f_equal. lia.
  - destruct (Nat.leb_spec 15 pos).
    + exists buf, pos. split_and!; try done. rewrite take_app_le by (rewrite length_take; lia). rewrite take_take. f_equal. lia.
    + destruct (lookup_lt_is_Some_2 tmp i) as [d Hd]; [lia|]. rewrite Hd. cbn [get_exec mbind exec_bind]. rewrite put_exec_Done by lia. cbn [mbind exec_bind].
      destruct (IH (<[pos := d]> buf) (S pos)) as (buf'&pos'&->&Hl'&Hp'&Hta); [lia|by rewrite length_insert|lia|].
      exists buf', pos'. split_and!; try done. rewrite Hta, take_put by lia. rewrite (take_S_r _ _ d Hd), reverse_app. cbn. by rewrite <- app_assoc.
Qed.

(** The digits do not depend on the fuel that suffices. *)
Lemma digits_fuel (f : nat) : ∀ g n, 0 < f → f ≤ g → (0 <= n < 10 ^ Z.of_nat f)%Z → digits g 10 n = digits f 10 n.
Proof.
  induction f as [|f IH]; intros g n Hf Hg Hn; [lia|]. destruct g as [|g]; [lia|]. cbn [digits]. destruct (Z.ltb_spec n 10); [done|].
  destruct f as [|f]; [change (10 ^ Z.of_nat 1)%Z with 10%Z in Hn; lia|]. rewrite (IH g); [done|lia|lia|]. split; [apply Z.div_pos; lia|].
  apply Z.div_lt_upper_bound; [lia|]. rewrite Nat2Z.inj_succ, Z.pow_succ_r in Hn by lia. lia.
Qed.

Lemma put_digits_spec (fuel : nat) : ∀ tmp len n, length tmp = 10 → len + fuel ≤ 10 → 0 < fuel → (0 <= n < 10 ^ Z.of_nat fuel)%Z →
  ∃ tmp' len', put_digits fuel tmp len n = Done (tmp', len') ∧ length tmp' = 10 ∧ len' ≤ 10 ∧ take len' tmp' = take len tmp ++ reverse (digits fuel 10 n).
Proof.
  induction fuel as [|fuel IH]; intros tmp len n Ht Hl Hf Hn; [lia|]. cbn [put_digits digits]. rewrite put_exec_Done by lia. cbn [mbind exec_bind].
  assert (Hd : (n mod 10 <? 10)%Z = true) by (apply Z.ltb_lt, Z.mod_pos_bound; lia). rewrite Hd, reverse_app. change (reverse [?x]) with [x].
  destruct (Z.eqb_spec (n / 10) 0) as [Hz|Hz].
  - exists (<[len := (48 + n mod 10)%Z]> tmp), (S len). rewrite length_insert. split_and!; [done|done|lia|]. rewrite take_put by lia.
    destruct (Z.ltb_spec n 10); [done|]. exfalso. pose proof (Z.div_le_mono 10 n 10 ltac:(lia) ltac:(lia)) as Hdm. rewrite Z.div_same in Hdm; lia.
  - destruct (Z.ltb_spec n 10); [rewrite Z.div_small in Hz by lia; done|].
    destruct fuel as [|fuel]; [change (10 ^ Z.of_nat 1)%Z with 10%Z in Hn; lia|].
    destruct (IH (<[len := (48 + n mod 10)%Z]> tmp) (S len) (n / 10)%Z) as (tmp'&len'&->&Hl'&Hle&Htk); [by rewrite length_insert|lia|lia| |].
    + split; [apply Z.div_pos; lia|]. apply Z.div_lt_upper_bound; [lia|]. rewrite Nat2Z.inj_succ, Z.pow_succ_r in Hn by lia. lia.
    + exists tmp', len'. split_and!; try done. rewrite Htk, take_put by lia. by rewrite <- app_assoc.
Qed.

Lemma format_dev_name_spec (prefix : str) (idx : Z) : in_width 32 idx →
  ∃ buf len, format_dev_name prefix idx = Done (buf, len) ∧ length buf = 16 ∧ len ≤ 15 ∧ take len buf = take 15 (prefix ++ dec idx).
Proof.
  intros Hi. unfold format_dev_name. destruct (put_prefix_spec prefix (replicate 16 0%Z) 0) as (b1&p1&->&Hl1&Hp1&Ht1); [done|lia|]. cbn [mbind exec_bind].
  assert (Hn : (0 <= idx < 10 ^ Z.of_nat 10)%Z) by (unfold in_width in Hi; change (2 ^ 32)%Z with 4294967296%Z in Hi; change (10 ^ Z.of_nat 10)%Z with 10000000000%Z; lia).
  destruct (put_digits_spec 10 (replicate 10 0%Z) 0 idx) as (t1&l1&->&Hlt&Hle&Htk); [done|lia|lia|done|]. cbn [mbind exec_bind].
  destruct (put_reversed_spec t1 l1 b1 p1) as (b2&p2&->&Hl2&Hp2&Ht2); [lia|done|done|]. exists b2, p2. split_and!; try done.
  rewrite Ht2, Ht1, Htk. change (take 0 (replicate 10 0%Z) ++ reverse (digits 10 10 idx)) with (reverse (digits 10 10 idx)). rewrite reverse_involutive. unfold dec. rewrite (digits_fuel 10 20) by (lia || exact Hn).
  change (take 0 (replicate 16 0%Z) ++ prefix) with prefix. destruct (decide (length prefix ≤ 15)) as [Hlp|Hlp].
  - by rewrite (take_ge prefix) by lia.
  - rewrite !take_app_le by (rewrite ?length_take; lia). rewrite take_take. done.
Qed.

(** *** Device files *)

(** The path of a device file. *)
Definition dev_path (name : str) : str := SLASH :: dev_name ++ SLASH :: name.

Lemma components_dev (name : str) : SLASH ∉ name → name ≠ [] → components (dev_path name) = [dev_name; name].
Proof.
  intros Hs Hn. unfold dev_path. rewrite components_slash. unfold components. rewrite split_on_app by (unfold dev_name; rewrite !not_elem_of_cons; split_and!; [done..|apply not_elem_of_nil]). rewrite (split_on_none _ _ Hs).
  rewrite !filter_cons_True by done. done.
Qed.

Definition alnum (b : Z) : Prop := (48 <= b < 128)%Z.

Lemma digits_alnum (f : nat) : ∀ n, (0 <= n)%Z → Forall alnum (digits f 10 n).
Proof.
  induction f as [|f IH]; intros n Hn; cbn [digits]; [constructor|]. apply Forall_app. split.
  - destruct (_ <? _)%Z; [constructor|]. apply IH. by apply Z.div_pos.
  - constructor; [|constructor]. pose proof (Z.mod_pos_bound n 10 ltac:(lia)). unfold alnum. rewrite (proj2 (Z.ltb_lt _ 10)) by lia. lia.
Qed.

Lemma digits_length (f : nat) : ∀ n, length (digits f 10 n) ≤ f ∧ (0 < f → digits f 10 n ≠ []).
Proof.
  induction f as [|f IH]; intros n; cbn [digits]; [split; [done|lia]|]. rewrite length_app. cbn [length]. split.
  - destruct (_ <? _)%Z; cbn [length]; [lia|]. destruct (IH (n / 10)%Z). lia.
  - intros _ He. by apply app_nil in He as [_ ?].
Qed.

(** A prefix of the four kinds. *)
Record prefix_ok (prefix : str) : Prop := {
  px_len : 0 < length prefix ≤ 4;
  px_alnum : Forall alnum prefix;
}.

Definition dev_file_name (prefix : str) (idx : Z) : str := prefix ++ dec idx.

Lemma dev_name_facts (prefix : str) (idx : Z) : prefix_ok prefix → in_width 32 idx → let name := dev_file_name prefix idx in
  (name ≠ []) ∧ length name ≤ 15 ∧ Forall alnum name ∧ utf8_valid name = true ∧ (SLASH ∉ name)
  ∧ ∃ buf len, format_dev_name prefix idx = Done (buf, len) ∧ prefix_exec buf len = Done name.
Proof.
  intros [Hl Ha] Hi name. pose proof Hi as Hi2. unfold in_width in Hi2. change (2 ^ 32)%Z with 4294967296%Z in Hi2.
  assert (Hd : dec idx = digits 10 10 idx) by (unfold dec; apply digits_fuel; [lia|lia|change (10 ^ Z.of_nat 10)%Z with 10000000000%Z; lia]).
  destruct (digits_length 10 idx) as [Hdl _]. assert (Hal : Forall alnum name) by (apply Forall_app; split; [done|rewrite Hd; apply digits_alnum; lia]).
  assert (Hlen : length name ≤ 15) by (unfold name, dev_file_name; rewrite length_app, Hd; lia).
  split_and!; [|exact Hlen|exact Hal| | |].
  - intros Hn. apply (f_equal length) in Hn. unfold name, dev_file_name in Hn. rewrite length_app in Hn. cbn in Hn. lia.
  - apply valid_ascii. eapply Forall_impl; [exact Hal|]. unfold alnum. intros b Hb. lia.
  - intros Hs. rewrite Forall_forall in Hal. specialize (Hal _ Hs). unfold alnum, SLASH in Hal. lia.
  - destruct (format_dev_name_spec prefix idx Hi) as (buf&len&->&Hb&Hln&Ht). exists buf, len. split; [done|]. rewrite prefix_exec_Done by lia.
    rewrite Ht. change (prefix ++ dec idx) with name. by rewrite take_ge by lia.
Qed.

Definition free_slots (fs : RamFs) (dir : nat) : nat :=
  match at_node fs dir with Some (VDir d) => length (filter (λ c, c = None) (d_children d)) | _ => 0 end.

(** [/dev] is there with room for [n] files. *)
Record dev_ready (dev n : nat) (fs : RamFs) : Prop := {
  dv_wf : fs_wf fs;
  dv_root : rooted fs;
  dv_dir : child_named fs 0 dev_name = Some dev;
  dv_slots : n ≤ free_slots fs dev;
  dv_pool : (node_count fs + Z.of_nat n <= Z.of_nat NODE_POOL_CAP)%Z;
}.

(** What was found is still found. *)
Definition keeps_names (fs fs' : RamFs) : Prop := ∀ i x c, child_named fs i x = Some c → child_named fs' i x = Some c.

Lemma keeps_walk (fs fs' : RamFs) (path : list str) : keeps_names fs fs' → ∀ i j, RamFsTree.walk fs i path = Some j → RamFsTree.walk fs' i path = Some j.
Proof.
  intros Hk. induction path as [|c path IH]; intros i j; cbn [RamFsTree.walk]; [done|]. destruct (child_named fs i c) as [k|] eqn:E; cbn; [|done].
  rewrite (Hk _ _ _ E). cbn. apply IH.
Qed.

Lemma filled_slots (new : nat) (l l' : list (option nat)) : fill_slot new l = Some l' →
  S (length (filter (λ c, c = None) l')) = length (filter (λ c, c = None) l).
Proof.
  revert l'. induction l as [|[c|] l IH]; intros l'; cbn [fill_slot]; [done| |].
  - destruct (fill_slot new l) as [l1|]; [|done]. intros [= <-]. rewrite !filter_cons_False by done. by apply IH.
  - intros [= <-]. by rewrite filter_cons_False, filter_cons_True by done.
Qed.

Lemma dev_file_spec (dev n : nat) (prefix : str) (idx : Z) (fs : RamFs) : prefix_ok prefix → in_width 32 idx → dev_ready dev (S n) fs →
  ∃ fs', dev_file dev prefix idx fs = Done fs' ∧ dev_ready dev n fs' ∧ keeps_names fs fs' ∧ is_Some (child_named fs' dev (dev_file_name prefix idx)).
Proof.
  intros Hpx Hi [Hwf Hrt Hdir Hsl Hpool]. destruct (dev_name_facts prefix idx Hpx Hi) as (Hne&Hlen&_&Hu&_&buf&len&Hf&Hp).
  set (name := dev_file_name prefix idx) in *. unfold dev_file. rewrite Hf. cbn [mbind exec_bind]. rewrite Hp. cbn [mbind exec_bind].
  unfold from_utf8_or_empty. rewrite Hu. rewrite lookup_spec by done.
  assert (Hd : ∃ d, at_node fs dev = Some (VDir d)).
  { unfold free_slots in Hsl. destruct (at_node fs dev) as [[f|d]|]; [lia|by exists d|lia]. }
  destruct Hd as [d Hd]. rewrite Hd. cbn [mbind exec_bind]. destruct (child_named fs dev name) as [c|] eqn:Hc.
  - exists fs. split; [done|]. split; [split; try done; lia|]. split; [by intros i x e|by rewrite Hc].
  - assert (Hcap : Z.of_nat NODE_POOL_CAP = 64%Z) by (by vm_compute).
    destruct (create_file_spec fs dev name Hwf Hu) as (r&fs'&->&Hwf'&Hcr&Hn&Hr'); [unfold USIZE_MAX; lia|]. cbn [mbind exec_bind]. exists fs'. split; [done|].
    pose proof (created_rooted _ _ _ _ _ _ Hcr Hrt Hr') as Hrt'. unfold free_slots in Hsl. rewrite Hd in Hsl.
    assert (Hslot : None ∈ d_children d).
    { destruct (filter (λ c, c = None) (d_children d)) as [|c cs] eqn:Efl; [cbn in Hsl; lia|]. assert (Hin : c ∈ filter (λ c, c = None) (d_children d)) by (rewrite Efl; by left).
      apply list_elem_of_filter in Hin as [-> Hin]. exact Hin. }
    destruct Hcr as [[?|Hl]|?|f Hff|c Hx|Hfull|d' Hd' Hno _ _|new Hl _]; try congruence.
    + change NAME_MAX with 32 in Hl. lia.
    + lia.
    + destruct (ln_dir _ _ _ _ _ _ Hl) as (d1&d2&Hd1&Hfill&Hd2). rewrite Hd in Hd1. injection Hd1 as <-.
      assert (Hkeep : keeps_names fs fs').
      { intros i x c' Hc'. rewrite (ln_child _ _ _ _ _ _ Hl). case_decide as Hix; [|done]. destruct Hix as [-> ->]. congruence. }
      split; [|split; [exact Hkeep|]].
      * split; [done|done|by apply Hkeep| |lia]. unfold free_slots. rewrite Hd2. pose proof (filled_slots _ _ _ Hfill). lia.
      * rewrite (ln_child _ _ _ _ _ _ Hl), decide_True by done. by eexists.
Qed.

Lemma dev_files_spec (dev m : nat) (prefix : str) (n : nat) : prefix_ok prefix → ∀ idx fs, (0 <= idx)%Z → (idx + Z.of_nat n < 2 ^ 32)%Z → dev_ready dev (n + m) fs →
  ∃ fs', dev_files dev prefix n idx fs = Done fs' ∧ dev_ready dev m fs' ∧ keeps_names fs fs'
    ∧ ∀ i, (idx <= i < idx + Z.of_nat n)%Z → is_Some (child_named fs' dev (dev_file_name prefix i)).
Proof.
  intros Hpx. induction n as [|n IH]; intros idx fs H0 Hi Hr; cbn [dev_files].
  - exists fs. split; [done|]. split; [done|]. split; [by intros i x c|]. intros i Hlt. lia.
  - rewrite add_w_Done by lia. cbn [mbind exec_bind]. destruct (dev_file_spec dev (n + m) prefix idx fs Hpx) as (fs1&->&Hr1&Hk1&Hc1); [unfold in_width; lia|done|].
    cbn [mbind exec_bind]. destruct (IH (idx + 1)%Z fs1) as (fs2&->&Hr2&Hk2&Hc2); [lia|lia|done|]. exists fs2. split; [done|]. split; [done|]. split.
    + intros i x c Hc. by apply Hk2, Hk1.
    + intros i Hlt. destruct (decide (i = idx)) as [->|Hne]; [|apply Hc2; lia]. destruct Hc1 as [c Hc]. exists c. by apply Hk2.
Qed.

(** *** Properties *)

Definition dev_kinds : list (DeviceKind * str) := [(BLOCK, bytes "blk"); (CHAR, bytes "ttyS"); (GPIO, bytes "gpio"); (NET, bytes "eth")].

(** The file system after boot has room for as many device files as a
    directory has slots. *)
Lemma boot_dev_ready : ∃ fs, init boot_fs = Done fs ∧ dev_ready 1 16 fs.
Proof.
  destruct init_boot as (fs&Hi&Hwf&Hr&Hc). exists fs. split; [exact Hi|]. assert (Hfs : fs = match init boot_fs with Done f => f | Stuck => boot_fs end) by (by rewrite Hi).
  split; [exact Hwf|exact Hr| | |].
  - rewrite Hfs. by vm_compute.
  - rewrite Hfs. apply Nat.leb_le. by vm_compute.
  - change (Z.of_nat NODE_POOL_CAP) with 64%Z. lia.
Qed.

(** C21. Booting with at most sixteen block, character, GPIO and network devices
    gives each device its file: after [init] and [register_dev_files] the path
    [/dev/<kind><number>] leads to a node for every device of the registry, and
    every path that led somewhere still leads there. *)
Theorem device_files_created {D W F : Type} `{!EqDecision D} `{!AnyDriver D W} (r : Registry D F) :
  sum_list ((λ '(k, _), length (for_each_device r k)) <$> dev_kinds) ≤ 16 →
  ∃ fs fs', init boot_fs = Done fs ∧ register_dev_files r fs = Done fs' ∧ fs_wf fs' ∧ rooted fs'
    ∧ (∀ kind prefix i, (kind, prefix) ∈ dev_kinds → i < length (for_each_device r kind) →
        ∃ id, resolve_path fs' (bytes "/dev/" ++ prefix ++ dec (Z.of_nat i)) = Done (inr id))
    ∧ (∀ path j, resolve_path fs path = Done (inr j) → resolve_path fs' path = Done (inr j)).
Proof.
  intros Hsum. destruct boot_dev_ready as (fs&Hi&Hr0). exists fs. pose proof Hr0 as [Hwf Hrt Hdir _ _].
  assert (Hdev : resolve_path fs (bytes "/dev") = Done (inr 1)).
  { destruct (resolve_path_spec fs (bytes "/dev") Hwf (proj1 Hrt)) as (r1&->&H1). f_equal. apply H1.
    change (components (bytes "/dev")) with [dev_name]. cbn [RamFsTree.walk]. by rewrite Hdir. }
  unfold register_dev_files. rewrite Hdev. cbn [mbind exec_bind]. cbn [fmap list_fmap dev_kinds sum_list] in Hsum.
  set (nb := length (for_each_device r BLOCK)) in *. set (nc := length (for_each_device r CHAR)) in *.
  set (ng := length (for_each_device r GPIO)) in *. set (nn := length (for_each_device r NET)) in *.
  change (nb + (nc + (ng + (nn + 0))) ≤ 16) in Hsum.
  assert (Hpx : ∀ p, p ∈ [bytes "blk"; bytes "ttyS"; bytes "gpio"; bytes "eth"] → prefix_ok p).
  { intros p Hp. rewrite !elem_of_cons in Hp. destruct Hp as [->|[->|[->|[->|[]%elem_of_nil]]]]; (split; [cbn; lia|repeat constructor; done]). }
  assert (Hle : ∀ a b, a ≤ b → dev_ready 1 b fs → dev_ready 1 a fs) by (intros a b Hab []; split; try done; lia).
  assert (Hbig : ∀ n, n ≤ 16 → (0 + Z.of_nat n < 2 ^ 32)%Z) by (intros n Hn; lia).
  destruct (dev_files_spec 1 (nc + (ng + nn)) (bytes "blk") nb (Hpx _ ltac:(by left)) 0 fs) as (f1&->&Hr1&Hk1&Hc1); [lia|apply Hbig; lia|apply (Hle _ 16); [lia|done]|].
  cbn [mbind exec_bind].
  destruct (dev_files_spec 1 (ng + nn) (bytes "ttyS") nc (Hpx _ ltac:(by right; left)) 0 f1) as (f2&->&Hr2&Hk2&Hc2); [lia|apply Hbig; lia|done|]. cbn [mbind exec_bind].
  destruct (dev_files_spec 1 nn (bytes "gpio") ng (Hpx _ ltac:(by right; right; left)) 0 f2) as (f3&->&Hr3&Hk3&Hc3); [lia|apply Hbig; lia|done|]. cbn [mbind exec_bind].
  destruct (dev_files_spec 1 0 (bytes "eth") nn (Hpx _ ltac:(by right; right; right; left)) 0 f3) as (f4&->&Hr4&Hk4&Hc4); [lia|apply Hbig; lia|by rewrite Nat.add_0_r|].
  exists f4. split; [done|]. split; [done|]. destruct Hr4 as [Hwf4 Hrt4 Hdir4 _ _]. split; [done|]. split; [done|].
  assert (Hall : keeps_names fs f4) by (intros i x c Hc; by apply Hk4, Hk3, Hk2, Hk1). split.
  - intros kind prefix i Hkp Hlt.
    assert (Hchild : is_Some (child_named f4 1 (dev_file_name prefix (Z.of_nat i))) ∧ prefix_ok prefix ∧ i < 16).
    { unfold dev_kinds in Hkp. rewrite !elem_of_cons in Hkp. destruct Hkp as [[= -> ->]|[[= -> ->]|[[= -> ->]|[[= -> ->]|[]%elem_of_nil]]]].
      - split; [|split; [apply Hpx; by left|fold nb in Hlt; lia]]. destruct (Hc1 (Z.of_nat i)) as [c Hc]; [fold nb in Hlt; lia|]. exists c. by apply Hk4, Hk3, Hk2.
      - split; [|split; [apply Hpx; by right; left|fold nc in Hlt; lia]]. destruct (Hc2 (Z.of_nat i)) as [c Hc]; [fold nc in Hlt; lia|]. exists c. by apply Hk4, Hk3.
      - split; [|split; [apply Hpx; by right; right; left|fold ng in Hlt; lia]]. destruct (Hc3 (Z.of_nat i)) as [c Hc]; [fold ng in Hlt; lia|]. exists c. by apply Hk4.
      - split; [|split; [apply Hpx; by right; right; right; left|fold nn in Hlt; lia]]. apply Hc4. fold nn in Hlt. lia. }
    destruct Hchild as ([c Hc]&Hp&Hi16). exists c. change (bytes "/dev/" ++ prefix ++ dec (Z.of_nat i)) with (dev_path (dev_file_name prefix (Z.of_nat i))).
    destruct (resolve_path_spec f4 (dev_path (dev_file_name prefix (Z.of_nat i))) Hwf4 (proj1 Hrt4)) as (r1&->&H1). f_equal. apply H1.
    destruct (dev_name_facts prefix (Z.of_nat i) Hp) as (Hne&_&_&_&Hs&_); [unfold in_width; lia|]. rewrite components_dev by done. cbn [RamFsTree.walk]. rewrite Hdir4. cbn. by rewrite Hc.
  - intros path j Hp. destruct (resolve_path_spec fs path Hwf (proj1 Hrt)) as (r1&Hr1'&H1). rewrite Hr1' in Hp. injection Hp as ->.
    destruct (resolve_path_spec f4 path Hwf4 (proj1 Hrt4)) as (r2&->&H2). f_equal. apply H2. eapply keeps_walk; [exact Hall|]. by apply H1.
Qed.

(** One serial port. *)
#[local] Instance one_port : AnyDriver unit unit := {
  drv_name _ := bytes "uart"; drv_resource _ := mk_resource 0x10000000 256 10; as_device _ k := bool_decide (k = CHAR);
  drv_handle_irq _ _ x := (false, x); auto_init _ x := (inr (), x);
}.
Definition port_registry : Registry unit unit := fst (auto_drivers_init [tt] registry_boot tt).

Lemma device_files_created_witness : ∃ fs fs', init boot_fs = Done fs ∧ register_dev_files port_registry fs = Done fs'
  ∧ ∃ id, resolve_path fs' (bytes "/dev/ttyS0") = Done (inr id).
Proof.
  destruct (device_files_created port_registry) as (fs&fs'&Hi&Hf&_&_&Hdev&_); [apply Nat.leb_le; vm_compute; reflexivity|].
  exists fs, fs'. split; [exact Hi|]. split; [exact Hf|]. apply (Hdev CHAR (bytes "ttyS") 0); [right; left|vm_compute; lia].
Defined.

(** Starting services one after the other. *)
Fixpoint outcomes {K : Type} (l : list (InitService K)) (k : K) : exec (list (InitError + unit) * K) :=
  match l with
  | [] => Done ([], k)
  | s :: l => '(r, k) ← sv_start s k; '(rs, k) ← outcomes l k; Done (r :: rs, k)
  end.
Fixpoint register_all {K : Type} (l : list (InitService K)) (m : InitManager K) : exec (InitManager K) :=
  match l with [] => Done m | s :: l => m ← register_init_service m s; register_all l m end.

Definition started (r : InitError + unit) : bool := match r with inr _ => true | _ => false end.
Definition skipped (r : InitError + unit) : bool := match r with inl Disabled => true | _ => false end.
Definition failed (r : InitError + unit) : bool := match r with inl Disabled | inr _ => false | _ => true end.
Definition count (f : InitError + unit → bool) (rs : list (InitError + unit)) : nat := length (filter (λ r, f r = true) rs).

Lemma count_cons (f : InitError + unit → bool) (r : InitError + unit) (rs : list (InitError + unit)) :
  count f (r :: rs) = (if f r then 1 else 0) + count f rs.
Proof. unfold count. rewrite filter_cons. destruct (f r) eqn:E; [by rewrite decide_True|by rewrite decide_False]. Qed.

Lemma run_services_spec {K : Type} (l : list (InitService K)) : ∀ stats k,
  run_services (Some <$> l) stats k = ('(rs, k) ← outcomes l k;
    Done (mk_init_stats (st_registered stats) (st_started stats + count started rs) (st_skipped stats + count skipped rs) (st_failed stats + count failed rs), k)).
Proof.
  induction l as [|s l IH]; intros stats k; cbn [fmap list_fmap run_services outcomes].
  - cbn [mbind exec_bind]. change (count _ []) with 0. rewrite !Nat.add_0_r. by destruct stats.
  - destruct (sv_start s k) as [[r k1]|]; [|done]. cbn [mbind exec_bind]. unfold fmap in IH. rewrite IH. destruct (outcomes l k1) as [[rs k2]|]; [|done].
    cbn [mbind exec_bind]. rewrite !count_cons. destruct r as [[]|u]; cbn [started skipped failed st_registered st_started st_skipped st_failed]; do 3 f_equal; lia.
Qed.

(** The slots after some registrations. *)
Definition slots_of {K : Type} (l : list (InitService K)) : list (option (InitService K)) := (Some <$> l) ++ replicate (INIT_SERVICE_CAP - length l) None.

Lemma register_spec {K : Type} (l : list (InitService K)) (s : InitService K) : length l < INIT_SERVICE_CAP →
  init_register (mk_manager (slots_of l) (length l)) s = Done (inr (), mk_manager (slots_of (l ++ [s])) (length (l ++ [s]))).
Proof.
  intros Hl. unfold init_register, slots_of. cbn [im_services im_len]. rewrite length_app, length_fmap, length_replicate.
  destruct (Nat.leb_spec (length l + (INIT_SERVICE_CAP - length l)) (length l)); [lia|]. rewrite put_exec_Done by (rewrite length_app, length_fmap, length_replicate; lia).
  cbn [mbind exec_bind]. rewrite insert_app_r_alt by (rewrite length_fmap; lia). rewrite length_fmap, Nat.sub_diag, length_app. cbn [length].
  destruct (INIT_SERVICE_CAP - length l) as [|n] eqn:En; [lia|]. cbn [replicate]. change (<[0 := Some s]> (None :: replicate n None)) with (Some s :: replicate n (@None (InitService K))).
  rewrite fmap_app, <- app_assoc. cbn [fmap list_fmap app]. do 3 f_equal; [|lia]. f_equal. f_equal. f_equal. lia.
Qed.

Lemma register_full {K : Type} (l : list (InitService K)) (s : InitService K) : length l = INIT_SERVICE_CAP →
  init_register (mk_manager (slots_of l) (length l)) s = Done (inl NoSlots, mk_manager (slots_of l) (length l)).
Proof.
  intros Hl. unfold init_register, slots_of. cbn [im_services im_len]. rewrite length_app, length_fmap, length_replicate, Hl. done.
Qed.

Lemma register_all_spec {K : Type} (l : list (InitService K)) : ∀ l0, length l0 ≤ INIT_SERVICE_CAP →
  register_all l (mk_manager (slots_of l0) (length l0)) = Done (mk_manager (slots_of (take INIT_SERVICE_CAP (l0 ++ l))) (length (take INIT_SERVICE_CAP (l0 ++ l)))).
Proof.
  induction l as [|s l IH]; intros l0 Hl; cbn [register_all]; [by rewrite app_nil_r, take_ge|]. unfold register_init_service.
  destruct (decide (length l0 < INIT_SERVICE_CAP)) as [Hlt|Hge].
  - rewrite register_spec by done. cbn [mbind exec_bind]. rewrite IH by (rewrite length_app; cbn; lia). by rewrite <- app_assoc.
  - rewrite register_full by lia. cbn [mbind exec_bind]. rewrite IH by done. by rewrite !take_app_le by lia.
Qed.

(** The init manager starts the first eight registered services in order of
    registration, each once, on the state the one before left; a service
    beyond the eighth is refused and changes nothing.  Its counts are those of
    the outcomes: started, disabled and failed add up to the registered. *)
Theorem init_starts_in_order {K : Type} (l : list (InitService K)) (k : K) :
  let l8 := take INIT_SERVICE_CAP l in
  (m ← register_all l manager_new; init_run m k)
  = ('(rs, k) ← outcomes l8 k; Done (mk_init_stats (length l8) (count started rs) (count skipped rs) (count failed rs), k))
  ∧ ∀ rs k', outcomes l8 k = Done (rs, k') → count started rs + count skipped rs + count failed rs = length l8.
Proof.
  intros l8. split.
  - pose proof (register_all_spec l [] (Nat.le_0_l _)) as Hr. change (mk_manager (slots_of []) (length [])) with (@manager_new K) in Hr. rewrite Hr.
    cbn [app mbind exec_bind]. fold l8. unfold init_run. cbn [im_len im_services]. unfold slots_of.
    rewrite take_app_le, take_ge by (rewrite length_fmap; lia). by rewrite run_services_spec.
  - clear. generalize l8. clear l8. intros l8. revert k. induction l8 as [|s l8 IH]; intros k rs k' Ho; cbn [outcomes] in Ho; [by injection Ho as <- _|].
    apply exec_bind_inv in Ho as ([r k1]&_&Ho). apply exec_bind_inv in Ho as ([rs1 k2]&Ho1&Ho). injection Ho as <- _. rewrite !count_cons. specialize (IH _ _ _ Ho1).
    destruct r as [[]|u]; cbn [started skipped failed length]; lia.
Qed.

(** The root task starts the shell: over a reachable kernel with a free
    control block it creates one task of priority 1 on the shell's stack, counts
    it as started, and leaves a reachable kernel; its sleeping loop is the
    delay operation. *)
Theorem root_starts_shell `{!SmpConfig} (base step entry stack words : Z) (k : kernel) :
  max_cpus = 1 → kernel_reach base step k → stack_ok stack words → free_head (TCB_POOL k) ≠ None →
  ∃ k', root_start base step entry stack words k = Done (mk_init_stats 1 1 0 0, k') ∧ kernel_reach base step k'
    ∧ run_kop base step k (OpCreate entry stack words 1 "SHELL" current_scheduler_cpu_id) = Done k'
    ∧ (CURRENT_TCB (mach k') ≠ Some 0 → ∃ k2, root_turn k' = Done k2 ∧ kernel_reach base step k2).
Proof.
  intros Hone Hr Hst Hfree. pose proof (reach_context base step k Hone Hr) as Hctx.
  assert (Hal : kop_allowed 0 k (OpCreate entry stack words 1 "SHELL" current_scheduler_cpu_id)) by done.
  destruct (run_kop_ok 0 Hone base step k _ Hctx Hal (λ x _, not_elem_of_nil x)) as (k'&Hk'&Hctx').
  assert (Hreach : kernel_reach base step k') by by eapply kr_step.
  assert (Hid : ∃ i, create_task base step k entry stack words 1 "SHELL" = Done (i, k') ∧ i ≠ U32_MAX).
  { destruct Hctx as (cur&s&qss&sl&fl&Hkst&Hco&Hcur&_).
    destruct (create_mid 0 Hone base step k true (Some cur) (Some cur) s qss sl fl entry stack words 1 current_scheduler_cpu_id "SHELL" Hkst (co_pcore _ _ _ _ _ _ _ Hco))
      as (x&fl'&k2&s'&qss'&Hfl&_&Heq&_&_&_); [by intros c [= <-]|done|].
    unfold create_task. cbn [run_kop] in Hk'. rewrite Heq in Hk' |- *. apply exec_bind_inv in Hk' as ([i k3]&Hk3&Hk'). injection Hk' as <-.
    exists i. split; [exact Hk3|]. apply exec_bind_inv in Hk3 as (k4&_&Hk3). injection Hk3 as <- _.
    destruct (pool_room Hone k s qss sl fl x (co_pcore _ _ _ _ _ _ _ Hco)) as [_ Hsz]; [rewrite Hfl; by left|].
    rewrite (pc_ids _ _ _ _ _ (co_pcore _ _ _ _ _ _ _ Hco)). assert (Hcap : TASK_CAP = 32) by reflexivity. unfold U32_MAX. lia. }
  destruct Hid as (i&Hi&Hne). exists k'. split; [|split; [done|split; [done|]]].
  - unfold root_start, register_init_service. change (init_register manager_new ?s) with (@Done ((InitError + unit) * InitManager kernel) (inr (), mk_manager (slots_of [s]) 1)).
    cbn [mbind exec_bind]. unfold init_run. cbn [im_len im_services]. change (take 1 (slots_of [?s])) with [Some s]. cbn [run_services sv_start]. unfold start_builtin_shell.
    rewrite Hi. cbn [mbind exec_bind]. rewrite (proj2 (Z.eqb_neq _ _) Hne). done.
  - intros Hcur. destruct (run_kop_ok 0 Hone base step k' (OpDelay 10000) Hctx' Hcur (λ x _, not_elem_of_nil x)) as (k2&Hk2&_).
    exists k2. split; [exact Hk2|]. exact (kr_step base step k' (OpDelay 10000) k2 Hreach Hcur Hk2).
Qed.

#[local] Existing Instance single_cpu.

Lemma root_starts_shell_witness : ∃ k k', demo_boot = Done k ∧ root_start 4096 128 77 262144 4096 k = Done (mk_init_stats 1 1 0 0, k').
Proof.
  assert (Hone : max_cpus = 1) by reflexivity.
  assert (Hi : stack_ok 65536 512) by (unfold stack_ok, REG_BYTES; lia).
  assert (Hr : stack_ok 131072 2048) by (unfold stack_ok, REG_BYTES; lia).
  assert (Hs : stack_ok 262144 4096) by (unfold stack_ok, REG_BYTES; lia).
  destruct (boot_k 0 Hone 4096 128 11 65536 512 22 131072 2048 eq_refl Hi Hr) as (k&E0&_). exists k.
  assert (Hfree : match demo_boot with Done k => free_head (TCB_POOL k) ≠ None | Stuck => False end) by (vm_compute; done).
  change (boot 4096 128 11 65536 512 22 131072 2048) with demo_boot in E0. pose proof E0 as E1. rewrite E0 in Hfree.
  destruct (root_starts_shell 4096 128 77 262144 4096 k Hone (kr_boot 4096 128 _ _ _ _ _ _ k Hi Hr E1) Hs Hfree) as (k'&Hk'&_). exists k'. split; [exact E0|exact Hk'].
Defined.

Lemma init_starts_in_order_witness : ∃ rs, outcomes [mk_service (bytes "a") true (λ k : nat, Done (inr (), S k)); mk_service (bytes "b") false (λ k : nat, Done (inl Disabled, S k))] 0 = Done (rs, 2)
  ∧ count started rs + count skipped rs + count failed rs = 2.
Proof.
  exists [inr (); inl Disabled]. split; [reflexivity|].
  exact (proj2 (init_starts_in_order [mk_service (bytes "a") true (λ k : nat, Done (inr (), S k)); mk_service (bytes "b") false (λ k : nat, Done (inl Disabled, S k))] 0)
    [inr (); inl Disabled] 2 eq_refl).
Defined.
