(* ===== verification/Vcpu.v ===== *)
(** * Guest exits, [arch/src/riscv/hypervisor/]

    The context of a virtual CPU ([mod.rs]), what an exit of the guest does
    ([entry.rs]) and the SBI calls of a guest ([sbi.rs]).  The control
    registers the handlers write are fields of the host; the assembly that
    enters a guest, and saves and loads its registers, is left out. *)

From S2P Require Export Prelude.
From S2P Require Export Str.
From S2P Require Export Critical.
From S2P Require Export Rx.
From S2P Require Export Hv.

Module Vcpu.

Record VCpuContext : Type := mk_vcpu {
  x : list Z;
  vsstatus : Z;
  vsepc : Z;
  vscause : Z;
  vstval : Z;
  vsatp : Z;
  hstatus : Z;
  hedeleg : Z;
  hideleg : Z;
  hgatp : Z;
  id : Z;
}.

Definition vcpu_new : VCpuContext := mk_vcpu (replicate 32 0%Z) 0 0 0 0 0 0 0 0 0 0.

Definition with_x (c : VCpuContext) (l : list Z) : VCpuContext :=
  mk_vcpu l (vsstatus c) (vsepc c) (vscause c) (vstval c) (vsatp c) (hstatus c) (hedeleg c) (hideleg c) (hgatp c) (id c).
Definition set_entry (c : VCpuContext) (entry : Z) : VCpuContext :=
  mk_vcpu (x c) (vsstatus c) entry (vscause c) (vstval c) (vsatp c) (hstatus c) (hedeleg c) (hideleg c) (hgatp c) (id c).
Definition set_sp (c : VCpuContext) (sp : Z) : exec VCpuContext := l ← put_exec (x c) 2 sp; Done (with_x c l).
Definition set_reg (c : VCpuContext) (reg : nat) (val : Z) : exec VCpuContext :=
  if (0 <? reg) && (reg <? 32) then l ← put_exec (x c) reg val; Done (with_x c l) else Done c.
Definition reg (c : VCpuContext) (reg : nat) : exec Z :=
  if reg =? 0 then Done 0%Z else if reg <? 32 then get_exec (x c !! reg) else Done 0%Z.
Definition setup_delegation (c : VCpuContext) : VCpuContext :=
  let hedeleg := foldl (λ acc b, Z.lor acc (Z.shiftl 1 b)) 0%Z [0; 1; 2; 3; 4; 5; 6; 7; 8; 12; 13; 15]%Z in
  mk_vcpu (x c) (vsstatus c) (vsepc c) (vscause c) (vstval c) (vsatp c) (hstatus c) hedeleg 0 (hgatp c) (id c).
Definition set_vstval (c : VCpuContext) (v : Z) : VCpuContext :=
  mk_vcpu (x c) (vsstatus c) (vsepc c) (vscause c) v (vsatp c) (hstatus c) (hedeleg c) (hideleg c) (hgatp c) (id c).

(** ** SBI calls *)

Definition SBI_EXT_CONSOLE_PUTCHAR : Z := 0x01.
Definition SBI_EXT_CONSOLE_GETCHAR : Z := 0x02.
Definition SBI_EXT_CLEAR_IPI : Z := 0x03.
Definition SBI_EXT_SEND_IPI : Z := 0x04.
Definition SBI_EXT_REMOTE_SFENCE_VMA : Z := 0x06.
Definition SBI_EXT_REMOTE_SFENCE_VMA_ASID : Z := 0x07.
Definition SBI_EXT_TIME : Z := 0x54494D45.
Definition SBI_EXT_IPI : Z := 0x735049.
Definition SBI_EXT_RFENCE : Z := 0x52464E43.
Definition SBI_EXT_HSM : Z := 0x48534D.
Definition SBI_EXT_SRST : Z := 0x53525354.
Definition SBI_EXT_DBCN : Z := 0x4442434E.
Definition SBI_EXT_PMU : Z := 0x504D55.
Definition SBI_SUCCESS : Z := 0.
Definition SBI_ERR_NOT_SUPPORTED : Z := USIZE_MAX.

(** What the handlers touch of the host: the table of guests with its exit
    counters, two control registers, the console with what was written to it,
    the receive ring, the interrupt state of the hart and the port that the
    poll function reads. *)
Record Host (X : Type) : Type := mk_host {
  hv : Hv.Hypervisor;
  hvip : Z;
  vstimecmp : Z;
  console : option (list Z);
  uart_rx : RxBuffer;
  hart : machine;
  port : X;
}.
Arguments mk_host {X}. Arguments hv {X}. Arguments hvip {X}. Arguments vstimecmp {X}. Arguments console {X}. Arguments uart_rx {X}.
Arguments hart {X}. Arguments port {X}.

Section exits.
Context `{!SmpConfig} {X : Type} (poll_fn : option (RxBuffer → X → exec (option Z * RxBuffer * X))).

(** The error in a0 and the value in a1. *)
Definition sbi_return (c : VCpuContext) (error value : Z) : exec VCpuContext := c ← set_reg c 10 error; set_reg c 11 value.

Definition putc (h : Host X) (ch : Z) : Host X :=
  mk_host (hv h) (hvip h) (vstimecmp h) (match console h with Some out => Some (out ++ [ch]) | None => None end) (uart_rx h) (hart h) (port h).

Definition handle_ecall (c : VCpuContext) (h : Host X) : exec (VCpuContext * Host X) :=
  eid ← reg c 17;
  fid ← reg c 16;
  a0 ← reg c 10;
  let called (l : list Z) := existsb (λ e, (eid =? e)%Z) l in
  if called [SBI_EXT_TIME] then
    c ← sbi_return c SBI_SUCCESS 0; Done (c, mk_host (hv h) (hvip h) a0 (console h) (uart_rx h) (hart h) (port h))
  else if called [SBI_EXT_CONSOLE_PUTCHAR; SBI_EXT_DBCN] then
    c ← sbi_return c SBI_SUCCESS 0; Done (c, putc h (wrap 8 a0))
  else if called [SBI_EXT_CONSOLE_GETCHAR] then
    '(ch, rx, y, m) ← pop_from_rx_buf poll_fn (uart_rx h) (port h) (hart h);
    let h := mk_host (hv h) (hvip h) (vstimecmp h) (console h) rx m y in
    match ch with
    | Some ch => c ← sbi_return c SBI_SUCCESS ch; Done (c, h)
    | None => c ← sbi_return c SBI_ERR_NOT_SUPPORTED 0; Done (c, h)
    end
  else if called [SBI_EXT_RFENCE; SBI_EXT_REMOTE_SFENCE_VMA; SBI_EXT_REMOTE_SFENCE_VMA_ASID] then
    c ← sbi_return c SBI_SUCCESS 0; Done (c, h)
  else if called [SBI_EXT_IPI; SBI_EXT_SEND_IPI; SBI_EXT_CLEAR_IPI] then
    c ← sbi_return c SBI_SUCCESS 0; Done (c, h)
  else if called [SBI_EXT_HSM] then
    if (fid =? 0)%Z || (fid =? 1)%Z then c ← sbi_return c SBI_SUCCESS 0; Done (c, h)
    else c ← sbi_return c SBI_ERR_NOT_SUPPORTED 0; Done (c, h)
  else if called [SBI_EXT_SRST] then c ← sbi_return c SBI_SUCCESS 0; Done (c, h)
  else if called [SBI_EXT_PMU] then c ← sbi_return c SBI_ERR_NOT_SUPPORTED 0; Done (c, h)
  else c ← sbi_return c SBI_ERR_NOT_SUPPORTED 0; Done (c, h).

(** ** Exits *)

(** [1 << (usize::BITS - 1)]. *)
Definition INTERRUPT_BIT : Z := Z.shiftl 1 63.

Definition exit_kind (scause : Z) : Hv.HvExitKind :=
  if negb (Z.land scause INTERRUPT_BIT =? 0)%Z then Hv.ExitInterrupt else
  match scause with
  | 8 => Hv.ExitEcall
  | 2 => Hv.ExitIllegalInstruction
  | 12 | 13 | 15 => Hv.ExitPageFault
  | _ => Hv.ExitUnsupported
  end%Z.

Definition set_hvip (h : Host X) (bit : Z) : Host X :=
  mk_host (hv h) (Z.lor (hvip h) (Z.shiftl 1 bit)) (vstimecmp h) (console h) (uart_rx h) (hart h) (port h).

Definition handle_interrupt (h : Host X) (irq : Z) : Z * Host X :=
  match irq with
  | 1 => (0, set_hvip h 2)
  | 5 => (0, set_hvip h 6)
  | 9 => (irq, h)
  | _ => (0, h)
  end%Z.

Definition handle_exception (c : VCpuContext) (h : Host X) (cause : Z) : exec (Z * VCpuContext * Host X) :=
  if (cause =? 8)%Z then
    '(c, h) ← handle_ecall c h;
    Done (0%Z, set_entry c (wrapping_add 64 (vsepc c) 4), h)
  else Done (cause, c, h).

(** 0 to resume the guest, or the reason to go back to the host. *)
Definition handle_vm_exit (c : VCpuContext) (h : Host X) (scause stval : Z) : exec (Z * VCpuContext * Host X) :=
  let c := set_vstval c stval in
  let h := mk_host (Hv.record_exit (exit_kind scause) scause stval (hv h)) (hvip h) (vstimecmp h) (console h) (uart_rx h) (hart h) (port h) in
  if negb (Z.land scause INTERRUPT_BIT =? 0)%Z then
    let '(r, h) := handle_interrupt h (Z.land scause (lnot_w 64 INTERRUPT_BIT)) in Done (r, c, h)
  else handle_exception c h scause.
End exits.
End Vcpu.

(** ** What a guest sees of its exits *)

Import Vcpu.

Definition vcpu_wf (c : VCpuContext) : Prop := length (x c) = 32 ∧ x c !! 0 = Some 0%Z.

Section exits.
Context `{!SmpConfig} {X : Type} (poll_fn : option (RxBuffer → X → exec (option Z * RxBuffer * X))).

(** The poll function of the console keeps the ring. *)
Hypothesis poll_ok : ∀ poll b y, poll_fn = Some poll → ring_wf b → ∃ o b' y', poll b y = Done (o, b', y') ∧ ring_wf b'.

Lemma rx_pop_total (b : RxBuffer) : ring_wf b → ∃ o b', rx_pop b = Done (o, b') ∧ ring_wf b'.
Proof. intros Hb. destruct (rx_pop_spec b Hb) as (b'&Hb'&_&Hp). by eexists _, b'. Qed.

Lemma pop_total (b : RxBuffer) (y : X) (m : machine) : ring_wf b → ∃ o b' y' m', pop_from_rx_buf poll_fn b y m = Done (o, b', y', m') ∧ ring_wf b'.
Proof.
  intros Hb. unfold pop_from_rx_buf. destruct (rx_pop_total b Hb) as (o&b1&->&Hb1). cbn [mbind exec_bind]. destruct o as [ch|]; [by eexists _, _, _, _|].
  destruct poll_fn as [poll|] eqn:Hp; [|by eexists _, _, _, _]. destruct (poll_ok poll b1 y eq_refl Hb1) as (o&b2&y2&->&Hb2). cbn [mbind exec_bind].
  destruct o as [ch|]; [by eexists _, _, _, _|]. destruct (rx_pop_total b2 Hb2) as (o&b3&->&Hb3). by eexists _, _, _, _.
Qed.

(** The two result registers change, and only they. *)
Definition answered (c c' : VCpuContext) (error value : Z) : Prop := c' = with_x c (<[11 := value]> (<[10 := error]> (x c))).

Lemma sbi_return_Done (c : VCpuContext) (error value : Z) : vcpu_wf c →
  ∃ c', sbi_return c error value = Done c' ∧ answered c c' error value.
Proof.
  intros [Hl _]. unfold sbi_return, set_reg. change ((0 <? 10) && (10 <? 32)) with true. change ((0 <? 11) && (11 <? 32)) with true. cbv iota.
  rewrite put_exec_Done by lia. cbn [mbind exec_bind]. rewrite put_exec_Done by (cbn; rewrite length_insert; lia). cbn [mbind exec_bind].
  eexists. split; [done|]. done.
Qed.

Lemma reg_Done (c : VCpuContext) (r : nat) : vcpu_wf c → r < 32 → ∃ v, reg c r = Done v ∧ x c !! r = Some v.
Proof.
  intros [Hl H0] Hr. unfold reg. destruct (Nat.eqb_spec r 0) as [->|]; [by exists 0%Z|]. rewrite (proj2 (Nat.ltb_lt r 32)) by done.
  destruct (lookup_lt_is_Some_2 (x c) r) as [v Hv]; [lia|]. rewrite Hv. by exists v.
Qed.

(** The extension and the function a guest calls, and the character. *)
Definition ext_of (c : VCpuContext) : Z := nth 17 (x c) 0%Z.
Definition arg_of (c : VCpuContext) : Z := nth 10 (x c) 0%Z.

Lemma handle_ecall_spec (c : VCpuContext) (h : Host X) : vcpu_wf c → ring_wf (uart_rx h) →
  ∃ c' h' error value, handle_ecall poll_fn c h = Done (c', h') ∧ answered c c' error value ∧ (error = SBI_SUCCESS ∨ error = SBI_ERR_NOT_SUPPORTED)
    ∧ ring_wf (uart_rx h') ∧ hv h' = hv h ∧ hvip h' = hvip h
    ∧ vstimecmp h' = (if (ext_of c =? SBI_EXT_TIME)%Z then arg_of c else vstimecmp h)
    ∧ console h' = (if (ext_of c =? SBI_EXT_CONSOLE_PUTCHAR)%Z || (ext_of c =? SBI_EXT_DBCN)%Z
                    then (λ out, out ++ [wrap 8 (arg_of c)]) <$> console h else console h).
Proof.
  intros Hc Hb. unfold handle_ecall, ext_of, arg_of.
  destruct (reg_Done c 17 Hc ltac:(lia)) as (eid&->&He). destruct (reg_Done c 16 Hc ltac:(lia)) as (fid&->&_). destruct (reg_Done c 10 Hc ltac:(lia)) as (a0&->&Ha).
  cbn [mbind exec_bind]. rewrite !nth_lookup, He, Ha. cbn [default existsb orb]. unfold Datatypes.id.
  assert (Hret : ∀ (h' : Host X) (e v : Z), (e = SBI_SUCCESS ∨ e = SBI_ERR_NOT_SUPPORTED) → ∃ c' e' v', (c ← sbi_return c e v; Done (c, h')) = Done (c', h') ∧ answered c c' e' v'
    ∧ (e' = SBI_SUCCESS ∨ e' = SBI_ERR_NOT_SUPPORTED)).
  { intros h' e v Hev. destruct (sbi_return_Done c e v Hc) as (c'&->&Hans). by exists c', e, v. }
  destruct (Z.eqb_spec eid SBI_EXT_TIME) as [->|Ht]; cbn [orb].
  { destruct (Hret (mk_host (hv h) (hvip h) a0 (console h) (uart_rx h) (hart h) (port h)) SBI_SUCCESS 0%Z (or_introl eq_refl)) as (c'&e&v&->&Hans&Hev).
    by eexists c', _, e, v. }
  destruct ((eid =? SBI_EXT_CONSOLE_PUTCHAR)%Z || (eid =? SBI_EXT_DBCN)%Z) eqn:Hput; rewrite orb_assoc, Hput; cbn [orb].
  { destruct (Hret (putc h (wrap 8 a0)) SBI_SUCCESS 0%Z (or_introl eq_refl)) as (c'&e&v&->&Hans&Hev). eexists c', _, e, v.
    split_and!; try done. }
  destruct ((eid =? SBI_EXT_CONSOLE_GETCHAR)%Z); cbn [orb].
  { destruct (pop_total (uart_rx h) (port h) (hart h) Hb) as (o&b'&y'&m'&->&Hb'). cbn [mbind exec_bind].
    destruct o as [ch|]; [destruct (Hret (mk_host (hv h) (hvip h) (vstimecmp h) (console h) b' m' y') SBI_SUCCESS ch (or_introl eq_refl)) as (c'&e&v&->&Hans&Hev)
      |destruct (Hret (mk_host (hv h) (hvip h) (vstimecmp h) (console h) b' m' y') SBI_ERR_NOT_SUPPORTED 0%Z (or_intror eq_refl)) as (c'&e&v&->&Hans&Hev)];
      by eexists c', _, e, v. }
  assert (Hrest : ∀ e v, (e = SBI_SUCCESS ∨ e = SBI_ERR_NOT_SUPPORTED) → ∃ c' h' error value, (c ← sbi_return c e v; Done (c, h)) = Done (c', h')
    ∧ answered c c' error value ∧ (error = SBI_SUCCESS ∨ error = SBI_ERR_NOT_SUPPORTED)
    ∧ ring_wf (uart_rx h') ∧ hv h' = hv h ∧ hvip h' = hvip h ∧ vstimecmp h' = vstimecmp h ∧ console h' = console h).
  { intros e v Hev. destruct (Hret h e v Hev) as (c'&e'&v'&->&Hans&Hev'). by eexists c', h, e', v'. }
  repeat match goal with |- context [if ?b then _ else _] => destruct b end; apply Hrest; (by left) || (by right).
Qed.

Lemma answered_wf (c c' : VCpuContext) (error value : Z) : vcpu_wf c → answered c c' error value → vcpu_wf c'.
Proof. intros [Hl H0] ->. split; cbn; [by rewrite !length_insert|]. by rewrite !list_lookup_insert_ne. Qed.

(** Whether an exit is an interrupt, and which. *)
Definition is_interrupt (scause : Z) : bool := negb (Z.land scause INTERRUPT_BIT =? 0)%Z.
Definition is_call (scause : Z) : bool := negb (is_interrupt scause) && (scause =? 8)%Z.
Definition irq_of (scause : Z) : Z := Z.land scause (lnot_w 64 INTERRUPT_BIT).

(** What an exit leaves of the guest: the program counter, and the result
    registers of a call, only. *)
Record exit_post (c : VCpuContext) (h : Host X) (scause stval : Z) (r : Z) (c' : VCpuContext) (h' : Host X) : Prop := {
  xp_wf : vcpu_wf c' ∧ ring_wf (uart_rx h');
  xp_regs : ∀ i, is_call scause = false ∨ i ≠ 10 ∧ i ≠ 11 → x c' !! i = x c !! i;
  xp_pc : vsepc c' = if is_call scause then wrapping_add 64 (vsepc c) 4 else vsepc c;
  xp_answer : is_call scause = true → ∃ e, x c' !! 10 = Some e ∧ (e = SBI_SUCCESS ∨ e = SBI_ERR_NOT_SUPPORTED);
  xp_timer : vstimecmp h' = if is_call scause && (ext_of c =? SBI_EXT_TIME)%Z then arg_of c else vstimecmp h;
  xp_console : console h' = if is_call scause && ((ext_of c =? SBI_EXT_CONSOLE_PUTCHAR)%Z || (ext_of c =? SBI_EXT_DBCN)%Z)
      then (λ out, out ++ [wrap 8 (arg_of c)]) <$> console h else console h;
  xp_recorded : hv h' = Hv.record_exit (exit_kind scause) scause stval (hv h);
  xp_reason : r = if is_interrupt scause then (if (irq_of scause =? 9)%Z then 9 else 0)%Z else if (scause =? 8)%Z then 0%Z else scause;
  xp_pending : hvip h' = if is_interrupt scause then
      (if (irq_of scause =? 1)%Z then Z.lor (hvip h) 4 else if (irq_of scause =? 5)%Z then Z.lor (hvip h) 64 else hvip h) else hvip h;
}.

Lemma handle_interrupt_spec (h : Host X) (irq : Z) :
  handle_interrupt h irq = (if irq =? 1 then (0, set_hvip h 2) else if irq =? 5 then (0, set_hvip h 6) else if irq =? 9 then (9, h) else (0, h))%Z.
Proof. destruct irq as [|p|p]; [done| |done]. do 4 (destruct p as [p|p|]; try done). Qed.

Lemma vm_exit_spec (c : VCpuContext) (h : Host X) (scause stval : Z) : vcpu_wf c → ring_wf (uart_rx h) →
  ∃ r c' h', handle_vm_exit poll_fn c h scause stval = Done (r, c', h') ∧ exit_post c h scause stval r c' h'.
Proof.
  intros Hc Hb. unfold handle_vm_exit. fold (irq_of scause). fold (is_interrupt scause). set (h1 := mk_host _ _ _ _ _ _ _).
  assert (Hc1 : vcpu_wf (set_vstval c stval)) by exact Hc.
  destruct (is_interrupt scause) eqn:Hi; cbn [negb andb].
  - rewrite handle_interrupt_spec. assert (Hcall : is_call scause = false) by (unfold is_call; by rewrite Hi).
    destruct (Z.eqb_spec (irq_of scause) 1) as [H1|H1]; [|destruct (Z.eqb_spec (irq_of scause) 5) as [H5|H5]; [|destruct (Z.eqb_spec (irq_of scause) 9) as [H9|H9]]];
      (eexists _, _, _; split; [done|]; split; rewrite ?Hi, ?Hcall; cbn [andb]; try done); rewrite ?H1, ?H5, ?H9; try done;
      rewrite ?(proj2 (Z.eqb_neq (irq_of scause) 1)) by done; rewrite ?(proj2 (Z.eqb_neq (irq_of scause) 5)) by done;
      rewrite ?(proj2 (Z.eqb_neq (irq_of scause) 9)) by done; done.
  - unfold handle_exception. assert (Hcall : is_call scause = (scause =? 8)%Z) by (unfold is_call; by rewrite Hi).
    destruct (Z.eqb_spec scause 8) as [H8|H8].
    + destruct (handle_ecall_spec (set_vstval c stval) h1 Hc1 Hb) as (c'&h'&e&v&->&Hans&He&Hrx&Hhv&Hip&Ht&Hco). cbn [mbind exec_bind].
      pose proof (answered_wf _ _ _ _ Hc1 Hans) as Hc'. unfold answered in Hans. eexists _, _, _. split; [done|].
      split; rewrite ?Hcall; rewrite ?Hi; cbn [andb]; try done.
      * intros i [?|[H10 H11]]; [done|]. rewrite Hans. cbn. by rewrite !list_lookup_insert_ne by congruence.
      * by rewrite Hans.
      * intros _. exists e. split; [|done]. rewrite Hans. cbn. rewrite list_lookup_insert_ne by done. apply list_lookup_insert_eq. destruct Hc. lia.
      * by rewrite H8.
    + eexists _, _, _. split; [done|]. split; rewrite ?Hcall, ?Hi; cbn [andb]; try done. by rewrite (proj2 (Z.eqb_neq scause 8)).
Qed.
End exits.

(** *** Properties *)

(** An exit of a guest never panics the host: it is recorded with its
    cause; a software or timer interrupt becomes pending for the guest and an
    external one goes to the host; a call is answered in a0 and a1, moves the
    guest past the instruction, and reaches the timer or the console exactly if
    it names them; any other exception goes to the host with its cause; and
    nothing else of the guest changes, so register x0 stays zero. *)
Theorem guest_exit_handled `{!SmpConfig} {X : Type} (poll_fn : option (RxBuffer → X → exec (option Z * RxBuffer * X))) (c : VCpuContext) (h : Host X) (scause stval : Z) :
  (∀ poll b y, poll_fn = Some poll → ring_wf b → ∃ o b' y', poll b y = Done (o, b', y') ∧ ring_wf b') → vcpu_wf c → ring_wf (uart_rx h) →
  ∃ r c' h', handle_vm_exit poll_fn c h scause stval = Done (r, c', h') ∧ exit_post c h scause stval r c' h'.
Proof. intros Hp. by apply vm_exit_spec. Qed.

(** The call the demo guest makes: the letter H to the console. *)
Definition demo_vcpu : VCpuContext := with_x (set_entry vcpu_new 8) (<[17 := 1%Z]> (<[10 := 72%Z]> (replicate 32 0%Z))).
Definition demo_host : Host unit := mk_host Hv.hv_boot 0 0 (Some []) rx_new (machine_boot (H := single_cpu)) tt.

Lemma guest_exit_handled_witness : ∃ c' h', handle_vm_exit (H := single_cpu) None demo_vcpu demo_host 8 0 = Done (0%Z, c', h')
  ∧ console h' = Some [72%Z] ∧ vsepc c' = 12%Z.
Proof.
  destruct (guest_exit_handled (H := single_cpu) None demo_vcpu demo_host 8 0) as (r&c'&h'&He&Hx).
  - discriminate.
  - split; reflexivity.
  - split; [reflexivity|apply Nat.ltb_lt; reflexivity|apply Nat.ltb_lt; reflexivity].
  - destruct Hx as [_ _ Hpc _ _ Hco _ Hr _]. cbn in Hr. subst r. exists c', h'. split; [exact He|]. split; [exact Hco|exact Hpc].
Defined.
