(* ===== verification/Pmp.v ===== *)
(** * Physical memory protection, [arch/src/riscv/pmp.rs]

    On a machine without translation the kernel restricts accesses with the
    PMP registers of the core: sixteen address registers, and one byte of
    configuration for each of them, four or eight to a register.  The manager
    counts the entries it has written; the entries themselves live in the
    registers, so that what it promises is about what they decode to.  [w] is
    the width of a register, 32 or 64. *)

From S2P Require Export Prelude.
From S2P Require Export Addr.
From S2P Require Export Paging.

Definition PMP_MAX_ENTRIES : nat := 16.
Definition PMPCFG_R : Z := Z.shiftl 1 0.
Definition PMPCFG_W : Z := Z.shiftl 1 1.
Definition PMPCFG_X : Z := Z.shiftl 1 2.
Definition PMPCFG_A_NAPOT : Z := Z.shiftl 3 3.

Definition perms_to_pmpcfg (perms : Z) : Z :=
  let cfg := PMPCFG_A_NAPOT in
  let cfg := if contains perms PERM_READ then Z.lor cfg PMPCFG_R else cfg in
  let cfg := if contains perms PERM_WRITE then Z.lor cfg PMPCFG_W else cfg in
  if contains perms PERM_EXECUTE then Z.lor cfg PMPCFG_X else cfg.

(** [usize::is_power_of_two]. *)
Definition is_power_of_two (x : Z) : bool := (0 <? x)%Z && (x =? 2 ^ Z.log2 x)%Z.

Definition napot_encode (base : PhysAddr) (size : Z) : MmError + Z :=
  if (size <? 16)%Z || negb (is_power_of_two size) then inl InvalidRegion else
  if negb (is_aligned base size) then inl InvalidAlignment else
  inr (Z.lor (Z.shiftr base 2) (Z.shiftr size 3 - 1)).

(** The registers [pmpaddr0] to [pmpaddr15] and [pmpcfg0] to [pmpcfg3], as
    values of the full width: no entry is locked, every bit of an address is
    implemented, and regions are no finer than the granularity of the core.
    The code assumes the same: it never reads an entry back. *)
Record PmpCsrs : Type := mk_csrs { pmpaddr : list Z; pmpcfg : list Z }.

Record PmpManager : Type := mk_pmp { pm_count : nat }.
Definition pmp_new : PmpManager := mk_pmp 0.
Definition used_entries (m : PmpManager) : nat := pm_count m.

Section pmp.
Context (w : Z).

(** Entries whose configuration one register holds. *)
Definition cfg_bytes : nat := Z.to_nat (w / 8).
(** The register that holds the configuration of [cfg_csr]: 64-bit cores only have the even ones. *)
Definition cfg_register (cfg_csr : nat) : option nat :=
  if (w =? 64)%Z then match cfg_csr with 0 => Some 0 | 1 => Some 2 | _ => None end
  else if cfg_csr <? 4 then Some cfg_csr else None.

Definition write_pmp_entry (s : PmpCsrs) (idx : nat) (addr_val cfg : Z) : PmpCsrs :=
  let s := mk_csrs (<[idx := addr_val]> (pmpaddr s)) (pmpcfg s) in
  let cfg_csr := idx / cfg_bytes in
  let cfg_byte := Z.of_nat (idx `mod` cfg_bytes) in
  match cfg_register cfg_csr with
  | None => s
  | Some c =>
      let current := nth c (pmpcfg s) 0%Z in
      let mask := Z.shiftl 0xFF (cfg_byte * 8) in
      let new_val := Z.lor (Z.land current (lnot_w w mask)) (Z.shiftl cfg (cfg_byte * 8)) in
      mk_csrs (pmpaddr s) (<[c := new_val]> (pmpcfg s))
  end.

Definition add_region (m : PmpManager) (s : PmpCsrs) (base : PhysAddr) (size perms : Z) : (MmError + unit) * PmpManager * PmpCsrs :=
  if PMP_MAX_ENTRIES <=? pm_count m then (inl OutOfMemory, m, s) else
  match napot_encode base size with
  | inl e => (inl e, m, s)
  | inr addr_val =>
      let cfg := perms_to_pmpcfg perms in
      let s := write_pmp_entry s (pm_count m) addr_val cfg in
      (inr (), mk_pmp (S (pm_count m)), s)
  end.

(** ** What the core does with an entry

    The privileged specification: the byte of configuration of an entry, and
    the range that a NAPOT address register stands for, which is given by its
    lowest clear bit. *)

Definition entry_cfg (s : PmpCsrs) (idx : nat) : Z :=
  match cfg_register (idx / cfg_bytes) with
  | None => 0
  | Some c => Z.land (Z.shiftr (nth c (pmpcfg s) 0%Z) (Z.of_nat (idx `mod` cfg_bytes) * 8)) 0xFF
  end.

Definition napot_range (addr_val : Z) : Z * Z :=
  let k := Z.of_nat (trailing_zeros (Z.to_nat w) (lnot_w w addr_val)) in
  (Z.shiftl (Z.land addr_val (lnot_w w (Z.ones (k + 1)))) 2, 2 ^ (k + 3))%Z.

Record region : Type := mk_region { rg_base : Z; rg_size : Z; rg_perms : Z }.

(** The region that an entry protects, with its permissions; none when the
    entry is off. *)
Definition entry_region (s : PmpCsrs) (idx : nat) : option region :=
  let cfg := entry_cfg s idx in
  if (Z.land cfg PMPCFG_A_NAPOT =? PMPCFG_A_NAPOT)%Z then
    let '(base, size) := napot_range (nth idx (pmpaddr s) 0%Z) in
    Some (mk_region base size (Z.land cfg 7))
  else None.

(** ** Lemmas *)

Lemma is_power_of_two_spec (x : Z) : is_power_of_two x = true ↔ ∃ k, (0 <= k)%Z ∧ x = (2 ^ k)%Z.
Proof.
  unfold is_power_of_two. rewrite andb_true_iff, Z.ltb_lt, Z.eqb_eq. split.
  - intros [Hx Heq]. exists (Z.log2 x). split; [apply Z.log2_nonneg|done].
  - intros (k&Hk&->). rewrite Z.log2_pow2 by done. split; [lia|done].
Qed.

Lemma napot_encode_spec (base size : Z) :
  napot_encode base size =
    if bool_decide (16 <= size)%Z && is_power_of_two size then
      if is_aligned base size then inr (Z.lor (Z.shiftr base 2) (Z.shiftr size 3 - 1)) else inl InvalidAlignment
    else inl InvalidRegion.
Proof. unfold napot_encode. destruct (Z.ltb_spec size 16); case_bool_decide; try lia; destruct (is_power_of_two size), (is_aligned base size); done. Qed.

(** The bits of an encoded address: ones below [k - 3], a zero there, and the
    page number of the base above. *)
Lemma encoded_bits (base k i : Z) : (4 <= k)%Z → (0 <= i)%Z → (base `mod` 2 ^ k = 0)%Z →
  Z.testbit (Z.lor (Z.shiftr base 2) (Z.shiftr (2 ^ k) 3 - 1)) i = bool_decide (i < k - 3)%Z || Z.testbit base (i + 2).
Proof.
  intros Hk Hi Hb. rewrite Z.lor_spec, Z.shiftr_spec by done. rewrite orb_comm. f_equal.
  rewrite Z.shiftr_div_pow2 by lia. rewrite <- Z.pow_sub_r by lia.
  replace (2 ^ (k - 3) - 1)%Z with (Z.ones (k - 3)) by (rewrite Z.ones_equiv; lia).
  case_bool_decide; [by apply Z.ones_spec_low|apply Z.ones_spec_high; lia].
Qed.

Lemma aligned_low_bits (base k i : Z) : (0 <= i < k)%Z → (base `mod` 2 ^ k = 0)%Z → Z.testbit base i = false.
Proof. intros Hi Hb. rewrite <- (Z.mod_pow2_bits_low base k i) by lia. by rewrite Hb, Z.testbit_0_l. Qed.

Lemma tz_unique (n k : nat) (x : Z) : k < n → Z.testbit x (Z.of_nat k) = true → (∀ j, j < k → Z.testbit x (Z.of_nat j) = false) → trailing_zeros n x = k.
Proof.
  intros Hk Hb Hlow. unfold trailing_zeros. destruct (tz_from_spec n 0 x) as [(H1&H2&_&H4)|[_ H2]].
  - destruct (Nat.lt_trichotomy (tz_from n 0 x) k) as [Hlt|[->|Hgt]]; [by rewrite Hlow in H2|done|].
    rewrite H4 in Hb by lia. done.
  - rewrite H2 in Hb by lia. done.
Qed.

(** Decoding gives the region back. *)
Lemma napot_roundtrip (base k : Z) : (w = 32 ∨ w = 64)%Z → (4 <= k < w)%Z → in_width w base → (base `mod` 2 ^ k = 0)%Z →
  napot_range (Z.lor (Z.shiftr base 2) (Z.shiftr (2 ^ k) 3 - 1)) = (base, 2 ^ k)%Z.
Proof.
  intros Hw Hk Hbase Hal. set (a := Z.lor _ _). unfold napot_range.
  assert (Ha : ∀ i, (0 <= i)%Z → Z.testbit a i = bool_decide (i < k - 3)%Z || Z.testbit base (i + 2)).
  { intros i Hi. by apply encoded_bits; [lia| |]. }
  assert (Htz : trailing_zeros (Z.to_nat w) (lnot_w w a) = Z.to_nat (k - 3)).
  { apply tz_unique; [lia| |].
    - rewrite testbit_lnot_w, Ha by lia. rewrite bool_decide_true, bool_decide_false by lia.
      by rewrite (aligned_low_bits base k) by (done || lia).
    - intros j Hj. rewrite testbit_lnot_w, Ha by lia. rewrite (bool_decide_true (Z.of_nat j < k - 3)%Z) by lia. by rewrite andb_false_r. }
  rewrite Htz, Z2Nat.id by lia. f_equal; [|f_equal; lia]. replace (k - 3 + 1)%Z with (k - 2)%Z by lia.
  apply Z.bits_inj'. intros i Hi. destruct (decide (i < 2)%Z).
  { rewrite Z.shiftl_spec_low by done. by rewrite (aligned_low_bits base k) by (done || lia). }
  rewrite Z.shiftl_spec, Z.land_spec, testbit_lnot_w, Ha by lia. replace (i - 2 + 2)%Z with i by lia.
  destruct (decide (i < k)%Z).
  { rewrite (aligned_low_bits base k i), Z.ones_spec_low by (done || lia). by rewrite !andb_false_r. }
  rewrite Z.ones_spec_high by lia. rewrite (bool_decide_false (i - 2 < k - 3)%Z) by lia. cbn [orb negb].
  case_bool_decide; [by rewrite !andb_true_r|]. by rewrite (testbit_high w base i) by (done || lia).
Qed.

(** Where the configuration of an entry lies. *)
Lemma cfg_place (idx : nat) : (w = 32 ∨ w = 64)%Z → idx < PMP_MAX_ENTRIES →
  ∃ c, cfg_register (idx / cfg_bytes) = Some c ∧ c < 4 ∧ (Z.of_nat (idx `mod` cfg_bytes) * 8 + 8 <= w)%Z
  ∧ ∀ j, j < PMP_MAX_ENTRIES → cfg_register (j / cfg_bytes) = Some c → j ≠ idx → j `mod` cfg_bytes ≠ idx `mod` cfg_bytes.
Proof.
  unfold PMP_MAX_ENTRIES, cfg_bytes, cfg_register. intros [->| ->] Hi.
  - change (Z.to_nat (32 / 8)) with 4. change (32 =? 64)%Z with false. pose proof (Nat.div_mod_eq idx 4). pose proof (Nat.mod_upper_bound idx 4).
    rewrite (proj2 (Nat.ltb_lt (idx / 4) 4)) by lia. exists (idx / 4). split; [done|]. split; [lia|]. split; [lia|].
    intros j Hj. pose proof (Nat.div_mod_eq j 4). pose proof (Nat.mod_upper_bound j 4).
    rewrite (proj2 (Nat.ltb_lt (j / 4) 4)) by lia. intros Heq Hne. apply (inj Some) in Heq. lia.
  - change (Z.to_nat (64 / 8)) with 8. change (64 =? 64)%Z with true. cbv iota. pose proof (Nat.div_mod_eq idx 8). pose proof (Nat.mod_upper_bound idx 8).
    destruct (idx / 8) as [|[|q]] eqn:Hq; [exists 0|exists 2|lia]; (split; [done|]; split; [lia|]; split; [lia|]); intros j Hj;
      pose proof (Nat.div_mod_eq j 8); pose proof (Nat.mod_upper_bound j 8); destruct (j / 8) as [|[|q']] eqn:Hq'; intros He Hne; try discriminate He; lia.
Qed.

Record csrs_wf (s : PmpCsrs) : Prop := {
  cw_addr : length (pmpaddr s) = PMP_MAX_ENTRIES;
  cw_cfg : length (pmpcfg s) = 4;
}.

Lemma byte_bits (x sh i : Z) : (0 <= sh)%Z → (0 <= i)%Z → Z.testbit (Z.land (Z.shiftr x sh) 0xFF) i = bool_decide (i < 8)%Z && Z.testbit x (i + sh).
Proof.
  intros Hs Hi. change 255%Z with (Z.ones 8). rewrite Z.land_spec, Z.shiftr_spec by done. rewrite andb_comm. f_equal.
  case_bool_decide; [by apply Z.ones_spec_low|apply Z.ones_spec_high; lia].
Qed.

(** Replacing one byte of a word. *)
Lemma testbit_replaced (x cfg sh i : Z) : (0 <= sh)%Z → (sh + 8 <= w)%Z → in_width 8 cfg → (0 <= i < w)%Z →
  Z.testbit (Z.lor (Z.land x (lnot_w w (Z.shiftl 0xFF sh))) (Z.shiftl cfg sh)) i =
    if bool_decide (sh <= i < sh + 8)%Z then Z.testbit cfg (i - sh) else Z.testbit x i.
Proof.
  intros Hs Hsw Hc Hi. change 255%Z with (Z.ones 8). rewrite Z.lor_spec, Z.land_spec, testbit_lnot_w, (bool_decide_true (i < w)%Z) by lia.
  destruct (decide (i < sh)%Z).
  { rewrite !Z.shiftl_spec_low by done. rewrite bool_decide_false by lia. by rewrite orb_false_r, andb_true_r. }
  rewrite !Z.shiftl_spec by lia. case_bool_decide.
  - rewrite Z.ones_spec_low by lia. by rewrite andb_false_r.
  - rewrite Z.ones_spec_high, (testbit_high 8 cfg) by (done || lia). by rewrite orb_false_r, andb_true_r.
Qed.

Lemma write_entry_spec (s : PmpCsrs) (idx : nat) (a cfg : Z) : (w = 32 ∨ w = 64)%Z → csrs_wf s → idx < PMP_MAX_ENTRIES → in_width 8 cfg →
  let s' := write_pmp_entry s idx a cfg in csrs_wf s' ∧ pmpaddr s' = <[idx := a]> (pmpaddr s)
  ∧ entry_cfg s' idx = cfg ∧ ∀ j, j < PMP_MAX_ENTRIES → j ≠ idx → entry_cfg s' j = entry_cfg s j.
Proof.
  intros Hw Hwf Hi Hc s'. destruct (cfg_place idx Hw Hi) as (c&Hcr&Hc4&Hsh&Hdiff).
  assert (Hlen : c < length (pmpcfg s)) by (rewrite (cw_cfg _ Hwf); done).
  unfold s', write_pmp_entry. cbn [pmpaddr pmpcfg]. rewrite Hcr. split; [|split; [done|]].
  { destruct Hwf. split; cbn; by rewrite length_insert. }
  set (sh := (Z.of_nat (idx `mod` cfg_bytes) * 8)%Z) in *. split.
  - unfold entry_cfg. cbn [pmpcfg]. rewrite Hcr, nth_lookup, list_lookup_insert_eq by done. cbn. fold sh. apply Z.bits_inj'. intros i Hib.
    rewrite byte_bits by lia. destruct (decide (i < 8)%Z).
    + rewrite testbit_replaced by (done || lia). rewrite !bool_decide_true by lia. cbn [andb]. f_equal. lia.
    + rewrite bool_decide_false by done. by rewrite (testbit_high 8 cfg) by (done || lia).
  - intros j Hj Hne. unfold entry_cfg. cbn [pmpcfg]. destruct (cfg_place j Hw Hj) as (c'&Hcr'&_&Hsh'&_). rewrite Hcr'.
    destruct (decide (c' = c)) as [->|Hcc]; [|by rewrite !nth_lookup, list_lookup_insert_ne].
    rewrite (nth_lookup (<[c := _]> _)), list_lookup_insert_eq by done. cbn [from_option id default].
    specialize (Hdiff j Hj Hcr' Hne). apply Z.bits_inj'. intros i Hib. rewrite !byte_bits by lia. case_bool_decide; [|done]. cbn [andb].
    rewrite testbit_replaced by (done || lia). by rewrite bool_decide_false by lia.
Qed.

Lemma cfg_of_perms (perms : Z) : in_width 3 perms → in_width 8 (perms_to_pmpcfg perms)
  ∧ Z.land (perms_to_pmpcfg perms) PMPCFG_A_NAPOT = PMPCFG_A_NAPOT ∧ Z.land (perms_to_pmpcfg perms) 7 = perms.
Proof.
  unfold in_width. change (2 ^ 3)%Z with 8%Z. change (2 ^ 8)%Z with 256%Z. intros Hp.
  assert (Hc : (perms = 0 ∨ perms = 1 ∨ perms = 2 ∨ perms = 3 ∨ perms = 4 ∨ perms = 5 ∨ perms = 6 ∨ perms = 7)%Z) by lia.
  repeat destruct Hc as [->|Hc]; [..|subst perms]; vm_compute; intuition discriminate.
Qed.

(** ** The specification: a list of at most sixteen regions *)

Definition region_add (rs : list region) (r : region) : (MmError + unit) * list region :=
  if PMP_MAX_ENTRIES <=? length rs then (inl OutOfMemory, rs) else
  if negb (bool_decide (16 <= rg_size r)%Z && is_power_of_two (rg_size r)) then (inl InvalidRegion, rs) else
  if negb (is_aligned (rg_base r) (rg_size r)) then (inl InvalidAlignment, rs) else (inr (), rs ++ [r]).

Fixpoint region_adds (reqs : list region) (rs : list region) : list (MmError + unit) * list region :=
  match reqs with
  | [] => ([], rs)
  | r :: reqs => let '(res, rs) := region_add rs r in let '(rest, rs) := region_adds reqs rs in (res :: rest, rs)
  end.

Fixpoint add_regions (reqs : list region) (m : PmpManager) (s : PmpCsrs) : list (MmError + unit) * PmpManager * PmpCsrs :=
  match reqs with
  | [] => ([], m, s)
  | r :: reqs =>
      let '(res, m, s) := add_region m s (rg_base r) (rg_size r) (rg_perms r) in
      let '(rest, m, s) := add_regions reqs m s in (res :: rest, m, s)
  end.

(** The registers hold [rs], and what [s0] held in the other entries. *)
Record pmp_holds (s0 : PmpCsrs) (rs : list region) (m : PmpManager) (s : PmpCsrs) : Prop := {
  ph_wf : csrs_wf s;
  ph_count : pm_count m = length rs;
  ph_max : length rs ≤ PMP_MAX_ENTRIES;
  ph_entries : ∀ i, i < PMP_MAX_ENTRIES → entry_region s i = match rs !! i with Some r => Some r | None => entry_region s0 i end;
}.

Definition request_ok (r : region) : Prop := in_width w (rg_base r) ∧ in_width w (rg_size r) ∧ in_width 3 (rg_perms r).

Lemma add_region_spec (s0 : PmpCsrs) (rs : list region) (m : PmpManager) (s : PmpCsrs) (r : region) : (w = 32 ∨ w = 64)%Z →
  pmp_holds s0 rs m s → request_ok r → ∃ m' s', add_region m s (rg_base r) (rg_size r) (rg_perms r) = ((region_add rs r).1, m', s')
  ∧ pmp_holds s0 (region_add rs r).2 m' s'.
Proof.
  intros Hw Hh (Hb&Hs&Hp). unfold add_region, region_add. rewrite (ph_count _ _ _ _ Hh).
  destruct (Nat.leb_spec PMP_MAX_ENTRIES (length rs)) as [|Hlt]; [by eexists _, _|]. rewrite napot_encode_spec.
  destruct (bool_decide (16 <= rg_size r)%Z && is_power_of_two (rg_size r)) eqn:Hv; cbn [negb]; [|by eexists _, _].
  destruct (is_aligned (rg_base r) (rg_size r)) eqn:Hal; cbn [negb]; [|by eexists _, _].
  apply andb_prop in Hv as [H16%bool_decide_eq_true (k&Hk&Hsk)%is_power_of_two_spec]. apply is_aligned_true in Hal. rewrite Hsk in *.
  assert (Hk4 : (4 <= k < w)%Z).
  { destruct Hs as [_ Hs]. apply Z.pow_lt_mono_r_iff in Hs; [|lia|lia]. split; [|done].
    apply (Z.pow_le_mono_r_iff 2); [lia|lia|]. by change (2 ^ 4)%Z with 16%Z. }
  destruct (cfg_of_perms (rg_perms r) Hp) as (Hc8&Hcn&Hc7).
  destruct (write_entry_spec s (length rs) (Z.lor (Z.shiftr (rg_base r) 2) (Z.shiftr (2 ^ k) 3 - 1)) _ Hw (ph_wf _ _ _ _ Hh) Hlt Hc8) as (Hwf'&Ha'&Hcfg&Hother).
  eexists _, _. split; [done|]. cbn [snd]. split; [done|cbn; rewrite length_app; cbn; lia|rewrite length_app; cbn; lia|].
  intros i Hi. unfold entry_region. destruct (decide (i = length rs)) as [->|Hne].
  - rewrite Hcfg, Hcn, Z.eqb_refl, Ha', nth_lookup, list_lookup_insert_eq by (rewrite (cw_addr _ (ph_wf _ _ _ _ Hh)); done).
    cbn [from_option default id]. rewrite napot_roundtrip by done. rewrite lookup_app_r, Nat.sub_diag by done. cbn. rewrite Hc7, <- Hsk. by destruct r.
  - rewrite Hother, Ha', nth_lookup, list_lookup_insert_ne, <- nth_lookup by done. fold (entry_region s i). rewrite (ph_entries _ _ _ _ Hh) by done.
    destruct (decide (i < length rs)); [by rewrite lookup_app_l|]. rewrite !lookup_ge_None_2 by (rewrite ?length_app; cbn; lia). done.
Qed.
End pmp.

(** ** Properties *)

(** C34. Whatever is asked of the manager, the entries of the protection unit
    decode to the regions that were accepted, in their order and with their
    ranges and permissions, and the other entries are as they were before;
    a request is refused exactly when sixteen were accepted, when its size is
    not a power of two of at least 16 bytes, or when its base is not
    a multiple of its size, and a refusal writes nothing. *)
Theorem pmp_entries_decode (w : Z) (reqs : list region) (s : PmpCsrs) : (w = 32 ∨ w = 64)%Z → csrs_wf s → Forall (request_ok w) reqs →
  let '(results, accepted) := region_adds reqs [] in
  ∃ m s', add_regions w reqs pmp_new s = (results, m, s') ∧ used_entries m = length accepted ∧ csrs_wf s'
  ∧ ∀ i, i < PMP_MAX_ENTRIES → entry_region w s' i = match accepted !! i with Some r => Some r | None => entry_region w s i end.
Proof.
  intros Hw Hs Hreqs.
  assert (H : ∀ rs m s1, pmp_holds w s rs m s1 → let '(results, accepted) := region_adds reqs rs in
    ∃ m' s', add_regions w reqs m s1 = (results, m', s') ∧ pmp_holds w s accepted m' s').
  { induction Hreqs as [|r reqs Hr Hreqs IH]; intros rs m s1 Hh; cbn [region_adds add_regions]; [by eexists _, _|].
    destruct (add_region_spec w s rs m s1 r Hw Hh Hr) as (m1&s2&->&Hh1). destruct (region_add rs r) as [res rs1]. cbn [fst snd] in *.
    specialize (IH rs1 m1 s2 Hh1). destruct (region_adds reqs rs1) as [rest acc]. destruct IH as (m'&s'&->&Hh'). by eexists _, _. }
  specialize (H [] pmp_new s). destruct (region_adds reqs []) as [results accepted]. destruct H as (m&s'&Heq&[Hwf Hn _ He]).
  { split; [done|done|unfold PMP_MAX_ENTRIES; cbn; lia|done]. }
  exists m, s'. unfold used_entries. rewrite Hn. by split_and!.
Qed.

Definition demo_csrs : PmpCsrs := mk_csrs (replicate 16 0%Z) (replicate 4 0%Z).

(** A kernel of 2 MiB that may be executed, a page of device registers, and
    two requests that are refused. *)
Definition demo_requests : list region :=
  [mk_region 0x80000000 0x200000 5; mk_region 0x10000000 24 3; mk_region 0x10000100 0x1000 3; mk_region 0x10000000 0x1000 3].

Lemma demo_requests_ok : Forall (request_ok 64) demo_requests.
Proof. repeat (constructor; [vm_compute; intuition discriminate|]). constructor. Qed.

Lemma pmp_entries_decode_witness : ∃ m s', add_regions 64 demo_requests pmp_new demo_csrs = ([inr (); inl InvalidRegion; inl InvalidAlignment; inr ()], m, s')
  ∧ entry_region 64 s' 1 = Some (mk_region 0x10000000 0x1000 3).
Proof.
  pose proof (pmp_entries_decode 64 demo_requests demo_csrs (or_intror eq_refl) ltac:(done) demo_requests_ok) as H.
  assert (Hr : region_adds demo_requests [] = ([inr (); inl InvalidRegion; inl InvalidAlignment; inr ()], [mk_region 0x80000000 0x200000 5; mk_region 0x10000000 0x1000 3])) by (vm_compute; reflexivity).
  rewrite Hr in H. destruct H as (m&s'&Heq&_&_&He). exists m, s'. split; [exact Heq|]. apply (He 1). unfold PMP_MAX_ENTRIES. lia.
Defined.
