(* ===== verification/Uart.v ===== *)
(** * Serial ports, [drivers/ns16550a], [drivers/cmsdk_uart] and the byte
    devices of [kernel/src/driver/char.rs] and [terminal.rs]

    A driver reads and writes device registers on a bus [W]; a read may
    change the device, since reading the receive register takes a byte out of
    it.  What a register does is up to the bus, see [UartProps].  The loops
    that wait for a device take their bound as [spin].  Log lines are left
    out. *)

From S2P Require Export Prelude.
From S2P Require Export Str.
From S2P Require Export Text.
From S2P Require Export Drivers.
From S2P Require Export Virtio.
From S2P Require Export Rx.

(** An access to a device register: the number of bytes, the address. *)
Class Bus (W : Type) : Type := {
  bus_read : Z → Z → W → Z * W;
  bus_write : Z → Z → Z → W → W;
}.

(** ** Byte devices: the provided methods of [CharDevice] and [TerminalDevice] *)

Section char_device.
Context {W : Type} (read_byte : W → exec ((DriverErr + Z) * W)) (write_byte : Z → W → exec ((DriverErr + unit) * W)).

(** The bytes stored at the front of [buf]; [n] is its length. *)
Fixpoint read_buffer (n : nat) (x : W) : exec (list Z * W) :=
  match n with
  | O => Done ([], x)
  | S n =>
      '(r, x) ← read_byte x;
      match r with
      | inr byte => '(rest, x) ← read_buffer n x; Done (byte :: rest, x)
      | inl _ => Done ([], x)
      end
  end.

Fixpoint write_buffer (buf : list Z) (x : W) : exec (nat * W) :=
  match buf with
  | [] => Done (0, x)
  | b :: buf =>
      '(r, x) ← write_byte b x;
      match r with
      | inr _ => '(count, x) ← write_buffer buf x; Done (S count, x)
      | inl _ => Done (0, x)
      end
  end.

(** The provided [size], [mode] and [set_mode]. *)
Definition terminal_size : Z * Z := (80, 25)%Z.
Inductive TerminalMode : Type := Raw | Cooked.
Definition terminal_mode : TerminalMode := Raw.
Definition set_mode (_ : TerminalMode) : DriverErr + unit := inl NotSupported.

Definition write_str (s : str) (x : W) : exec (nat * W) := write_buffer s x.

Definition write_line (s : str) (x : W) : exec (nat * W) :=
  '(written, x) ← write_str s x;
  '(r, x) ← write_byte 13 x;
  let written := match r with inr _ => S written | inl _ => written end in
  '(r, x) ← write_byte 10 x;
  let written := match r with inr _ => S written | inl _ => written end in
  Done (written, x).

Definition clear_screen (x : W) : exec (nat * W) := write_str ([27; 91; 50; 74; 27; 91; 72]%Z) x.
End char_device.

(** ** The interrupt handlers' loop *)

(** [push_to_rx_buf] without the executor of asynchronous tasks. *)
Definition push_to_rx_buf (byte : Z) (rx : RxBuffer) : exec RxBuffer := '(_, rx) ← rx_push rx byte; Done rx.

(** [while let Some(byte) = getc() { push_to_rx_buf(byte) }], and the number of bytes. *)
Fixpoint drain {W : Type} (getc : W → exec (option Z * W)) (fuel : nat) (rx : RxBuffer) (x : W) : exec (nat * RxBuffer * W) :=
  match fuel with
  | O => Stuck
  | S fuel =>
      '(byte, x) ← getc x;
      match byte with
      | None => Done (0, rx, x)
      | Some byte =>
          rx ← push_to_rx_buf byte rx;
          '(n, rx, x) ← drain getc fuel rx x;
          Done (S n, rx, x)
      end
  end.

(** ** The 16550 *)

Definition RBR : Z := 0.
Definition THR : Z := 0.
Definition IER : Z := 1.
Definition IIR : Z := 2.
Definition FCR : Z := 2.
Definition LCR : Z := 3.
Definition LSR : Z := 5.
Definition LSR_DR : Z := Z.shiftl 1 0.
Definition LSR_THRE : Z := Z.shiftl 1 5.
Definition IIR_NO_INT : Z := Z.shiftl 1 0.

Record Ns16550a : Type := mk_ns { ns_base_addr : Z; ns_irq_num : Z; reg_shift : Z; reg_io_width : Z }.
#[export] Instance Ns16550a_eq_dec : EqDecision Ns16550a.
Proof. solve_decision. Defined.

Definition with_layout (base_addr irq_num reg_shift reg_io_width : Z) : Ns16550a := mk_ns base_addr irq_num reg_shift reg_io_width.
Definition ns_new (base_addr irq_num : Z) : Ns16550a := with_layout base_addr irq_num 0 1.

Section ns16550a.
Context {W : Type} `{!Bus W} (w : Z) (spin : nat).

(** A shift by the width of an address or more panics. *)
Definition reg_addr (u : Ns16550a) (offset : Z) : exec Z :=
  if (w <=? reg_shift u)%Z then Stuck else add_w w (ns_base_addr u) (wrap w (Z.shiftl offset (reg_shift u))).

Definition access_width (u : Ns16550a) : Z := if (reg_io_width u =? 4)%Z then 4 else 1.

Definition read_reg (u : Ns16550a) (offset : Z) (x : W) : exec (Z * W) :=
  addr ← reg_addr u offset;
  let '(v, x) := bus_read (access_width u) addr x in Done (wrap 8 v, x).

Definition write_reg (u : Ns16550a) (offset value : Z) (x : W) : exec W :=
  addr ← reg_addr u offset; Done (bus_write (access_width u) addr value x).

Definition ns_init_hw (u : Ns16550a) (x : W) : exec W :=
  x ← write_reg u IER 0x00 x;
  x ← write_reg u LCR 0x80 x;
  x ← write_reg u 0 0x03 x;
  x ← write_reg u 1 0x00 x;
  x ← write_reg u LCR 0x03 x;
  x ← write_reg u FCR 0xC7 x;
  write_reg u IER 0x01 x.

(** [while self.read_reg(LSR) & LSR_THRE == 0 {}]. *)
Fixpoint wait_thre (fuel : nat) (u : Ns16550a) (x : W) : exec W :=
  match fuel with
  | O => Stuck
  | S fuel => '(lsr, x) ← read_reg u LSR x; if (Z.land lsr LSR_THRE =? 0)%Z then wait_thre fuel u x else Done x
  end.

Definition ns_putc (u : Ns16550a) (ch : Z) (x : W) : exec W := x ← wait_thre spin u x; write_reg u THR ch x.

Definition ns_getc (u : Ns16550a) (x : W) : exec (option Z * W) :=
  '(lsr, x) ← read_reg u LSR x;
  if negb (Z.land lsr LSR_DR =? 0)%Z then '(v, x) ← read_reg u RBR x; Done (Some v, x) else Done (None, x).

Definition irq_pending (u : Ns16550a) (x : W) : exec (bool * W) :=
  '(iir, x) ← read_reg u IIR x; Done ((Z.land iir IIR_NO_INT =? 0)%Z, x).

Definition ns_write_byte (u : Ns16550a) (byte : Z) (x : W) : exec ((DriverErr + unit) * W) := x ← ns_putc u byte x; Done (inr (), x).
Definition ns_read_byte (u : Ns16550a) (x : W) : exec ((DriverErr + Z) * W) :=
  '(b, x) ← ns_getc u x; Done (match b with Some b => inr b | None => inl DriverBusy end, x).

Definition ns_handle_irq (u : Ns16550a) (irq_id : Z) (rx : RxBuffer) (x : W) : exec (bool * RxBuffer * W) :=
  if negb (irq_id =? ns_irq_num u)%Z then Done (false, rx, x) else
  '(_, rx, x) ← drain (ns_getc u) spin rx x; Done (true, rx, x).
End ns16550a.

(** ** The CMSDK port: five registers of four bytes *)

Definition UART_DATA : Z := 0.
Definition UART_STATE : Z := 4.
Definition UART_CTRL : Z := 8.
Definition UART_INTSTATUS : Z := 12.
Definition TX_BF : Z := Z.shiftl 1 0.
Definition RX_BF : Z := Z.shiftl 1 1.
Definition TXEN : Z := Z.shiftl 1 0.
Definition RXEN : Z := Z.shiftl 1 1.
Definition RXIEN : Z := Z.shiftl 1 3.

Record CmsdkUart : Type := mk_cmsdk { cm_base_addr : Z; cm_irq_num : Z }.
Definition cm_new (base_addr irq_num : Z) : CmsdkUart := mk_cmsdk base_addr irq_num.

Section cmsdk.
Context {W : Type} `{!Bus W} (spin : nat).

(** [UartStatus::from_bits_truncate(state).contains(flag)]. *)
Definition cm_status (u : CmsdkUart) (flag : Z) (x : W) : bool * W :=
  let '(v, x) := bus_read 4 (cm_base_addr u + UART_STATE) x in ((Z.land (Z.land v 15) flag =? flag)%Z, x).

Definition cm_init (u : CmsdkUart) (x : W) : W := bus_write 4 (cm_base_addr u + UART_CTRL) (Z.lor (Z.lor TXEN RXEN) RXIEN) x.

(** The test and the read of the loop of [handle_irq]. *)
Definition cm_getc (u : CmsdkUart) (x : W) : exec (option Z * W) :=
  let '(ready, x) := cm_status u RX_BF x in
  if ready : bool then let '(v, x) := bus_read 4 (cm_base_addr u + UART_DATA) x in Done (Some (wrap 8 v), x) else Done (None, x).

Definition cm_handle_irq (u : CmsdkUart) (irq_id : Z) (rx : RxBuffer) (x : W) : exec (bool * RxBuffer * W) :=
  if (irq_id =? cm_irq_num u)%Z then
    '(_, rx, x) ← drain (cm_getc u) spin rx x;
    Done (true, rx, bus_write 4 (cm_base_addr u + UART_INTSTATUS) (Z.shiftl 1 1) x)
  else Done (false, rx, x).

Fixpoint wait_tx (fuel : nat) (u : CmsdkUart) (x : W) : exec W :=
  match fuel with
  | O => Stuck
  | S fuel => let '(full, x) := cm_status u TX_BF x in if full : bool then wait_tx fuel u x else Done x
  end.

Definition cm_write_byte (u : CmsdkUart) (byte : Z) (x : W) : exec ((DriverErr + unit) * W) :=
  x ← wait_tx spin u x; Done (inr (), bus_write 4 (cm_base_addr u + UART_DATA) byte x).

Definition cm_read_byte (u : CmsdkUart) (x : W) : exec ((DriverErr + Z) * W) :=
  '(b, x) ← cm_getc u x; Done (match b with Some b => inr b | None => inl DriverBusy end, x).
End cmsdk.
