(* ===== verification/Irqchip.v ===== *)
(** * Interrupt controllers and timers, [arch/src/riscv/{plic,clic,clint,timer}.rs]
    and their configuration, [platform/riscv-generic/src/{plic,clic,timer}.rs]

    A controller is its base address; its registers are behind the bus.  [w]
    is the width of an address: computing one beyond it panics.  The static
    variables of the three platform files are the records [PlicCfg],
    [ClicCfg] and the base of the CLINT. *)

From S2P Require Export Prelude.
From S2P Require Export Trap.
From S2P Require Export Uart.

(** [a + b + ...] as the code computes it, from the left. *)
Fixpoint add_all (w a : Z) (bs : list Z) : exec Z := match bs with [] => Done a | b :: bs => a ← add_w w a b; add_all w a bs end.

Section arch.
Context {W : Type} `{!Bus W} (w : Z).

(** ** The PLIC *)

Definition PRIORITY_OFFSET : Z := 0x0.
Definition ENABLE_OFFSET : Z := 0x2000.
Definition THRESHOLD_OFFSET : Z := 0x200000.
Definition CLAIM_OFFSET : Z := 0x200004.

Definition base_valid (base : Z) : bool := negb (base =? 0)%Z.

Definition plic_init_context (base context : Z) (x : W) : exec W :=
  if negb (base_valid base) then Done x else
  threshold_ptr ← add_all w base [THRESHOLD_OFFSET; context * 0x1000]%Z;
  Done (bus_write 4 threshold_ptr 0 x).

Definition plic_enable_irq (base context irq priority : Z) (x : W) : exec W :=
  if negb (base_valid base) || (irq =? 0)%Z then Done x else
  priority_ptr ← add_all w base [PRIORITY_OFFSET; irq * 4]%Z;
  let x := bus_write 4 priority_ptr priority x in
  enable_ptr ← add_all w base [ENABLE_OFFSET; context * 0x80; irq / 32 * 4]%Z;
  let '(val, x) := bus_read 4 enable_ptr x in
  let val := Z.lor val (Z.shiftl 1 (irq mod 32)) in
  Done (bus_write 4 enable_ptr val x).

Definition plic_claim (base context : Z) (x : W) : exec (Z * W) :=
  if negb (base_valid base) then Done (0%Z, x) else
  claim_ptr ← add_all w base [CLAIM_OFFSET; context * 0x1000]%Z;
  Done (bus_read 4 claim_ptr x).

Definition plic_complete (base context irq : Z) (x : W) : exec W :=
  if negb (base_valid base) || (irq =? 0)%Z then Done x else
  claim_ptr ← add_all w base [CLAIM_OFFSET; context * 0x1000]%Z;
  Done (bus_write 4 claim_ptr irq x).

(** ** The CLIC *)

Definition CLICCFG_OFFSET : Z := 0x0000.
Definition CLICINT_BASE : Z := 0x1000.
Definition CLICINT_STRIDE : Z := 4.
Definition CLICINTIP : Z := 0.
Definition CLICINTIE : Z := 1.
Definition CLICINTATTR : Z := 2.
Definition CLICINTCTL : Z := 3.

Definition clic_set_config (base value : Z) (x : W) : exec W :=
  if negb (base_valid base) then Done x else
  addr ← add_w w base CLICCFG_OFFSET; Done (bus_write 1 addr value x).

(** The entry of an interrupt; the methods below read and write its bytes. *)
Definition clic_reg (base irq reg : Z) : exec Z := add_all w base [CLICINT_BASE; irq * CLICINT_STRIDE; reg]%Z.

Definition clic_read (reg base irq : Z) (x : W) : exec (bool * W) :=
  if negb (base_valid base) || (irq =? 0)%Z then Done (false, x) else
  addr ← clic_reg base irq reg;
  let '(v, x) := bus_read 1 addr x in Done (negb (v =? 0)%Z, x).
Definition clic_write (reg base irq value : Z) (x : W) : exec W :=
  if negb (base_valid base) || (irq =? 0)%Z then Done x else
  addr ← clic_reg base irq reg; Done (bus_write 1 addr value x).

Definition clic_is_pending := clic_read CLICINTIP.
Definition clic_is_enabled := clic_read CLICINTIE.
Definition clic_clear_pending (base irq : Z) (x : W) : exec W := clic_write CLICINTIP base irq 0 x.
Definition clic_set_enable (base irq : Z) (enabled : bool) (x : W) : exec W := clic_write CLICINTIE base irq (if enabled then 1 else 0) x.
Definition clic_set_attr := clic_write CLICINTATTR.
Definition clic_set_ctl := clic_write CLICINTCTL.

Definition clic_init_irq (base irq : Z) (x : W) : exec W :=
  x ← clic_set_attr base irq 0 x;
  x ← clic_set_ctl base irq 0xff x;
  clic_set_enable base irq true x.

(** ** The CLINT *)

Definition MTIMECMP_OFFSET : Z := 0x4000.
Definition MTIME_OFFSET : Z := 0xbff8.

Definition clint_mtime (base : Z) (x : W) : exec (Z * W) :=
  if negb (base_valid base) then Done (0%Z, x) else
  addr ← add_w w base MTIME_OFFSET; Done (bus_read 8 addr x).

Definition set_mtimecmp (base hartid deadline : Z) (x : W) : exec W :=
  if negb (base_valid base) then Done x else
  addr ← add_all w base [MTIMECMP_OFFSET; hartid * 8]%Z; Done (bus_write 8 addr deadline x).
End arch.

(** ** The platform's configuration of them *)

Record PlicCfg : Type := mk_plic { PLIC_BASE : Z; PLIC_IRQ_COUNT : Z }.
Record ClicCfg : Type := mk_clic { CLIC_BASE : Z; CLIC_IRQ_COUNT : Z }.
Definition PLIC_BASE_ALIGN : Z := 0x1000.
Definition CLIC_BASE_ALIGN : Z := 4.

Definition plic_configure (base irq_count : Z) : PlicCfg :=
  if negb (base =? 0)%Z && negb (base mod PLIC_BASE_ALIGN =? 0)%Z then mk_plic 0 0 else mk_plic base irq_count.
Definition clic_configure (base irq_count : Z) : ClicCfg :=
  if negb (base =? 0)%Z && negb (base mod CLIC_BASE_ALIGN =? 0)%Z then mk_clic 0 0 else mk_clic base irq_count.
Definition plic_configured (p : PlicCfg) : bool := negb (PLIC_BASE p =? 0)%Z.
Definition clic_configured (c : ClicCfg) : bool := negb (CLIC_BASE c =? 0)%Z.

Definition context_id (mode : Mode) : Z := match mode with MMode => 0 | SMode => 1 end.

(** What the platform uses of the core and of its firmware: the instructions
    that read the time, the calls of the SBI. *)
Class Firmware (W : Type) : Type := {
  rdtime : W → Z * W;
  rdtimeh : W → Z * W;
  set_sbi_timer : Z → W → W;
  enable_timer_interrupts : W → W;
  hart_start : Z → W → Z * W;
}.

Section platform.
Context {W : Type} `{!Bus W} `{!Firmware W} (w : Z) (mode : Mode) (attempts : nat).

(** [for irq in first .. first + n]. *)
Fixpoint for_irqs (f : Z → W → exec W) (n : nat) (first : Z) (x : W) : exec W :=
  match n with O => Done x | S n => x ← f first x; for_irqs f n (first + 1) x end.

Definition plic_init (p : PlicCfg) (x : W) : exec W :=
  if negb (plic_configured p) then Done x else
  x ← plic_init_context w (PLIC_BASE p) (context_id mode) x;
  let irq_count := Z.min (PLIC_IRQ_COUNT p) U32_MAX in
  for_irqs (λ irq, plic_enable_irq w (PLIC_BASE p) (context_id mode) irq 1) (Z.to_nat irq_count) 1 x.

Definition plic_enable (p : PlicCfg) (irq priority : Z) (x : W) : exec W :=
  if plic_configured p then plic_enable_irq w (PLIC_BASE p) (context_id mode) irq priority x else Done x.
Definition plic_disable (p : PlicCfg) (irq : Z) (x : W) : exec W := plic_enable p irq 0 x.
Definition claim (p : PlicCfg) (x : W) : exec (Z * W) :=
  if plic_configured p then plic_claim w (PLIC_BASE p) (context_id mode) x else Done (0%Z, x).
Definition complete (p : PlicCfg) (irq : Z) (x : W) : exec W :=
  if plic_configured p then plic_complete w (PLIC_BASE p) (context_id mode) irq x else Done x.

Definition clic_init (c : ClicCfg) (x : W) : exec W :=
  if negb (clic_configured c) then Done x else
  match mode with
  | SMode => Done x
  | MMode =>
      x ← clic_set_config w (CLIC_BASE c) 0 x;
      let irq_count := Z.min (CLIC_IRQ_COUNT c) U32_MAX in
      for_irqs (clic_init_irq w (CLIC_BASE c)) (Z.to_nat (irq_count - 1)) 1 x
  end.

(** A 32-bit core reads the time in halves, again if the upper one changed;
    [fuel] bounds the attempts. *)
Fixpoint read_halves (fuel : nat) (x : W) : exec (Z * W) :=
  match fuel with
  | O => Stuck
  | S fuel =>
      let '(hi0, x) := rdtimeh x in
      let '(lo, x) := rdtime x in
      let '(hi1, x) := rdtimeh x in
      if (hi0 =? hi1)%Z then Done (Z.lor (Z.shiftl hi0 32) lo, x) else read_halves fuel x
  end.
Definition read_time (x : W) : exec (Z * W) := if (w =? 64)%Z then Done (rdtime x) else read_halves attempts x.

(** The timer: the next tick is a whole number of cycles away. *)
Definition set_next_tick (clint_base cpu_freq_hz systick_hz : Z) (x : W) : exec W :=
  if (systick_hz =? 0)%Z then Stuck else
  let increment := (cpu_freq_hz / systick_hz)%Z in
  '(now, x) ← read_time x;
  let deadline := wrapping_add 64 now increment in
  match mode with
  | MMode => if negb (clint_base =? 0)%Z then set_mtimecmp w clint_base 0 deadline x else Done x
  | SMode => Done (set_sbi_timer deadline x)
  end.

Definition init_timer (clint_base cpu_freq_hz systick_hz : Z) (clic : bool) (x : W) : exec W :=
  x ← set_next_tick clint_base cpu_freq_hz systick_hz x;
  match mode with
  | SMode => if clic then Done x else Done (enable_timer_interrupts x)
  | MMode => Done (enable_timer_interrupts x)
  end.
End platform.
