(* ===== verification/Board.v ===== *)
(** * The generic RISC-V platform, [platform/riscv-generic/src/main.rs]

    The devices of the board are the bus, the receive ring of the console and
    the statics of the serial driver ([Devices]); around them are the interrupt
    table, the driver registry and the controllers ([Board]).  The registry
    sees the serial driver through its traits; a driver call that panics or
    hangs leaves the devices [Stuck]. *)

From S2P Require Export Prelude.
From S2P Require Export Uart.
From S2P Require Export Irq.
From S2P Require Export Irqchip.
From S2P Require Export BootMap.

(** The consoles and the poll functions that the platform and the driver install. *)
Inductive ConsoleFn : Type := SbiConsole | Ns16550aConsole.
Inductive PollFn : Type := ActiveUartGetc.

(** A driver is compared as its slot in the pool is; its fields do not change. *)
Record UartDriver : Type := mk_ud { ud_slot : nat; ud_port : Ns16550a }.
#[export] Instance UartDriver_eq_dec : EqDecision UartDriver.
Proof. solve_decision. Defined.

Inductive UartFactory : Type := Ns16550aFactory.
#[export] Instance UartFactory_eq_dec : EqDecision UartFactory.
Proof. solve_decision. Defined.

Definition MAX_NS16550A : nat := 4.

Record Devices (W : Type) : Type := mk_devs {
  dv_bus : W;
  UART_RX_BUF : RxBuffer;
  ACTIVE_UART : option Ns16550a;
  CONSOLE : option ConsoleFn;
  RX_POLL_FN : option PollFn;
  DRIVER_POOL : StaticDriverPool Ns16550a;
}.
Arguments mk_devs {W}. Arguments dv_bus {W}. Arguments UART_RX_BUF {W}. Arguments ACTIVE_UART {W}.
Arguments CONSOLE {W}. Arguments RX_POLL_FN {W}. Arguments DRIVER_POOL {W}.

Section devices.
Context {W : Type} `{!Bus W} (w : Z) (spin : nat).

Definition with_bus (d : Devices W) (x : W) : Devices W := mk_devs x (UART_RX_BUF d) (ACTIVE_UART d) (CONSOLE d) (RX_POLL_FN d) (DRIVER_POOL d).
Definition with_rx (d : Devices W) (rx : RxBuffer) : Devices W := mk_devs (dv_bus d) rx (ACTIVE_UART d) (CONSOLE d) (RX_POLL_FN d) (DRIVER_POOL d).
Definition with_pool (d : Devices W) (p : StaticDriverPool Ns16550a) : Devices W := mk_devs (dv_bus d) (UART_RX_BUF d) (ACTIVE_UART d) (CONSOLE d) (RX_POLL_FN d) p.

Definition set_active (u : Ns16550a) (d : Devices W) : Devices W :=
  mk_devs (dv_bus d) (UART_RX_BUF d) (Some u) (Some Ns16550aConsole) (Some ActiveUartGetc) (DRIVER_POOL d).

Definition ns_init (u : Ns16550a) (d : Devices W) : exec ((DriverErr + unit) * Devices W) :=
  x ← ns_init_hw w u (dv_bus d);
  Done (inr (), set_active u (with_bus d x)).

Definition active_uart_getc (d : Devices W) : exec (option Z * Devices W) :=
  match ACTIVE_UART d with
  | None => Done (None, d)
  | Some u => '(b, x) ← ns_getc w u (dv_bus d); Done (b, with_bus d x)
  end.

(** [Ns16550aConsole::putc]. *)
Definition console_putc (ch : Z) (d : Devices W) : exec (Devices W) :=
  match ACTIVE_UART d with
  | None => Done d
  | Some u => x ← ns_putc w spin u ch (dv_bus d); Done (with_bus d x)
  end.

(** [pop_from_rx_buf] without interruption: interrupts are masked around the poll
    function. *)
Definition pop_byte `{!SmpConfig} (d : Devices W) (m : machine) : exec (option Z * Devices W * machine) :=
  '(byte, rx) ← rx_pop (UART_RX_BUF d);
  match byte with
  | Some byte => Done (Some byte, with_rx d rx, m)
  | None =>
      match RX_POLL_FN d with
      | None => Done (None, d, m)
      | Some ActiveUartGetc =>
          let m := disable_irq m in
          '(byte, d) ← active_uart_getc d;
          let m := enable_irq m in
          match byte with
          | Some byte => Done (Some byte, d, m)
          | None => '(byte, rx) ← rx_pop (UART_RX_BUF d); Done (byte, with_rx d rx, m)
          end
      end
  end.

(** The same read as the three pieces that nothing on the hart can interrupt:
    the test of the ring, the masked poll, the second test.  Interrupts and
    other tasks may come between them. *)
Inductive reader : Type := RIdle | RMissed | RPolled.
Definition reader_step `{!SmpConfig} (r : reader) (d : Devices W) (m : machine) : exec (reader * option Z * Devices W * machine) :=
  match r with
  | RIdle =>
      '(byte, rx) ← rx_pop (UART_RX_BUF d);
      Done (match byte with Some _ => RIdle | None => RMissed end, byte, with_rx d rx, m)
  | RMissed =>
      match RX_POLL_FN d with
      | None => Done (RIdle, None, d, m)
      | Some ActiveUartGetc =>
          let m := disable_irq m in
          '(byte, d) ← active_uart_getc d;
          let m := enable_irq m in
          Done (match byte with Some _ => RIdle | None => RPolled end, byte, d, m)
      end
  | RPolled => '(byte, rx) ← rx_pop (UART_RX_BUF d); Done (RIdle, byte, with_rx d rx, m)
  end.

Definition ud_handle_irq (u : Ns16550a) (irq_id : Z) (d : Devices W) : exec (bool * Devices W) :=
  '(b, rx, x) ← ns_handle_irq w spin u irq_id (UART_RX_BUF d) (dv_bus d); Done (b, with_bus (with_rx d rx) x).

(** [Ns16550aFactory::probe_fdt]. *)
Definition ns_probe_fdt (resource : DeviceResource) (node : Fdt.FdtNode) (d : Devices W) : exec (option UartDriver * Devices W) :=
  let shift := Z.min (default 0%Z (Fdt.prop_u32 node (bytes "reg-shift"))) 255 in
  let io_width := if (default 1%Z (Fdt.prop_u32 node (bytes "reg-io-width")) =? 4)%Z then 4%Z else 1%Z in
  let u := with_layout (r_base_addr resource) (r_irq resource) shift io_width in
  '(slot, pool) ← pool_alloc (DRIVER_POOL d) u;
  Done (match slot with Some i => Some (mk_ud i u) | None => None end, with_pool d pool).

(** Lifts a call to devices that may be stuck already; [a] stands for the
    answer that never comes. *)
Definition lift_call {A} (a : A) (f : Devices W → exec (A * Devices W)) (d : exec (Devices W)) : A * exec (Devices W) :=
  match d with
  | Stuck => (a, Stuck)
  | Done d => match f d with Stuck => (a, Stuck) | Done (a, d) => (a, Done d) end
  end.

#[export] Instance uart_driver : AnyDriver UartDriver (exec (Devices W)) := {
  drv_name _ := bytes "ns16550a_uart";
  drv_resource u := mk_resource (ns_base_addr (ud_port u)) 0 (ns_irq_num (ud_port u));
  as_device _ k := bool_decide (k = CHAR) || bool_decide (k = TERMINAL);
  drv_handle_irq u irq_id := lift_call (irq_id =? ns_irq_num (ud_port u))%Z (ud_handle_irq (ud_port u) irq_id);
  auto_init u := lift_call (inr ()) (ns_init (ud_port u));
}.

#[export] Instance uart_factory : DriverFactory UartDriver (exec (Devices W)) UartFactory := {
  fac_compatible _ := [bytes "ns16550a"; bytes "ns16550"; bytes "ns16550a-uart"; bytes "snps,dw-apb-uart"];
  probe_fdt _ resource node := lift_call None (ns_probe_fdt resource node);
}.
End devices.

(** ** The harts: [SmpStatus] and the masks behind it *)

Record Harts : Type := mk_harts {
  ONLINE_HART_MASK : Z;
  PARKED_HART_MASK : Z;
  SMP_START_ATTEMPTS : Z;
  SMP_START_FAILURES : Z;
  BOOT_HART : Z;
}.
Definition harts_boot : Harts := mk_harts 0 0 0 0 0.

Record SmpStatus : Type := mk_smp {
  enabled : bool;
  possible_cpus : Z;
  online_cpus : nat;
  active_cpus : nat;
  parked_cpus : nat;
  boot_cpu : Z;
  current_cpu : Z;
  online_mask : Z;
  active_mask : Z;
  parked_mask : Z;
  start_attempts : Z;
  start_failures : Z;
}.

(** [usize::count_ones]. *)
Definition count_ones (w x : Z) : nat := length (filter (λ i, Z.testbit x (Z.of_nat i) = true) (seq 0 (Z.to_nat w))).

Section harts.
Context {W : Type} `{!Firmware W} (w : Z) (smp : bool) (smp_max_cpus : nat).

Definition hart_bit (hartid : Z) : option Z := if (hartid <? w)%Z then Some (Z.shiftl 1 hartid) else None.

Definition mark_hart_online (hartid : Z) (parked : bool) (h : Harts) : Harts :=
  match hart_bit hartid with
  | None => h
  | Some bit =>
      mk_harts (Z.lor (ONLINE_HART_MASK h) bit) (if parked then Z.lor (PARKED_HART_MASK h) bit else Z.land (PARKED_HART_MASK h) (lnot_w w bit))
        (SMP_START_ATTEMPTS h) (SMP_START_FAILURES h) (BOOT_HART h)
  end.

Definition riscv_smp_status (current : Z) (h : Harts) : SmpStatus :=
  let online_mask := ONLINE_HART_MASK h in
  let parked_mask := PARKED_HART_MASK h in
  let active_mask := Z.land online_mask (lnot_w w parked_mask) in
  mk_smp smp (if smp then Z.of_nat smp_max_cpus else 1) (count_ones w online_mask) (count_ones w active_mask) (count_ones w parked_mask)
    (BOOT_HART h) current online_mask active_mask parked_mask (SMP_START_ATTEMPTS h) (SMP_START_FAILURES h).

Definition init_boot_hart (hartid : Z) (h : Harts) : Harts :=
  mark_hart_online hartid false (mk_harts (ONLINE_HART_MASK h) (PARKED_HART_MASK h) (SMP_START_ATTEMPTS h) (SMP_START_FAILURES h) (wrap 32 hartid)).
Definition init_secondary_hart (hartid : Z) (h : Harts) : Harts := mark_hart_online hartid true h.

Definition start_hart (boot_hart : Z) (h : Harts) (x : W) (hartid : nat) : Harts * W :=
  if (Z.of_nat hartid =? boot_hart)%Z then (h, x) else
  let '(error, x) := hart_start (Z.of_nat hartid) x in
  (mk_harts (ONLINE_HART_MASK h) (PARKED_HART_MASK h) (wrapping_add 32 (SMP_START_ATTEMPTS h) 1)
     (if negb (error =? 0)%Z then wrapping_add 32 (SMP_START_FAILURES h) 1 else SMP_START_FAILURES h) (BOOT_HART h), x).
Definition start_secondary_harts (boot_hart : Z) (h : Harts) (x : W) : Harts * W :=
  if negb smp then (h, x) else foldl (λ '(h, x) hartid, start_hart boot_hart h x hartid) (h, x) (seq 0 smp_max_cpus).
End harts.

(** ** External interrupts and start-up *)

(** The handlers that the trap handler may call. *)
Record Board (H W : Type) : Type := mk_board {
  bd_plic : PlicCfg;
  bd_clic : ClicCfg;
  CLINT_BASE : Z;
  bd_irqs : IrqModule H;
  bd_registry : Registry UartDriver UartFactory;
  bd_devices : exec (Devices W);
  has_irq_handler : bool;
  has_irq_id_handler : bool;
  external_enabled : bool;
  clic_vector : bool;
}.
Arguments mk_board {H W}. Arguments bd_plic {H W}. Arguments bd_clic {H W}. Arguments CLINT_BASE {H W}. Arguments bd_irqs {H W}.
Arguments bd_registry {H W}. Arguments bd_devices {H W}. Arguments has_irq_handler {H W}. Arguments has_irq_id_handler {H W}.
Arguments external_enabled {H W}. Arguments clic_vector {H W}.

Section board.
Context {H W : Type} `{!Bus W} `{!Firmware W} (w : Z) (mode : Mode) (spin : nat) (run_handler : H → exec (Devices W) → exec (Devices W)).
#[local] Existing Instance uart_driver.
#[local] Existing Instance uart_factory.

Definition with_devices (b : Board H W) (d : Devices W) : Board H W :=
  mk_board (bd_plic b) (bd_clic b) (CLINT_BASE b) (bd_irqs b) (bd_registry b) (Done d) (has_irq_handler b) (has_irq_id_handler b) (external_enabled b) (clic_vector b).

(** A call of [kernel::irq::handle_irq]. *)
Definition board_handle_irq (irq : Z) (b : Board H W) : exec (bool * Board H W) :=
  '(handled, m, r, d) ← handle_irq (W := exec (Devices W)) (AnyDriver0 := uart_driver w spin) run_handler (bd_irqs b) (bd_registry b) (Z.to_nat irq) (bd_devices b);
  d ← d;
  Done (handled, mk_board (bd_plic b) (bd_clic b) (CLINT_BASE b) m r (Done d) (has_irq_handler b) (has_irq_id_handler b) (external_enabled b) (clic_vector b)).

Definition external_irq_handler (b : Board H W) : exec (Board H W) :=
  d ← bd_devices b;
  '(irq, x) ← claim w mode (bd_plic b) (dv_bus d);
  let b := with_devices b (with_bus d x) in
  if (irq =? 0)%Z then Done b else
  '(_, b) ← board_handle_irq irq b;
  d ← bd_devices b;
  x ← complete w mode (bd_plic b) irq (dv_bus d);
  Done (with_devices b (with_bus d x)).

(** [clic::handle_irq]. *)
Definition external_irq_id_handler (irq : Z) (b : Board H W) : exec (Board H W) :=
  if (irq =? 0)%Z then Done b else
  '(_, b) ← board_handle_irq irq b;
  match mode with
  | SMode => Done b
  | MMode =>
      if clic_configured (bd_clic b) then
        d ← bd_devices b;
        x ← clic_clear_pending w (CLIC_BASE (bd_clic b)) irq (dv_bus d);
        Done (with_devices b (with_bus d x))
      else Done b
  end.

Definition init_irqs (info : RiscvDtbInfo) (b : Board H W) : exec (Board H W) :=
  d ← bd_devices b;
  let clic := if negb (clic_base info =? 0)%Z then clic_configure (clic_base info) (clic_irq_sources info) else bd_clic b in
  x ← (if negb (clic_base info =? 0)%Z then clic_init w mode clic (dv_bus d) else Done (dv_bus d));
  let id_handler := negb (clic_base info =? 0)%Z && clic_configured clic in
  let b := mk_board (bd_plic b) clic (CLINT_BASE b) (bd_irqs b) (bd_registry b) (Done (with_bus d x)) (has_irq_handler b)
             (has_irq_id_handler b || id_handler) (external_enabled b) (clic_vector b || id_handler) in
  if clic_configured clic then Done b else
  let plic := plic_configure (plic_base info) (plic_irq_sources info) in
  x ← plic_init w mode plic x;
  let ready := plic_configured plic in
  Done (mk_board plic clic (CLINT_BASE b) (bd_irqs b) (bd_registry b) (Done (with_bus d x)) (has_irq_handler b || ready)
          (has_irq_id_handler b) (external_enabled b || ready) (clic_vector b)).
End board.
