(* ===== verification/UartProps.v ===== *)
(** * What the serial ports promise

    The laws of a device say what its registers do, for a driver that follows
    them: bytes arrive on the line at any access, in their order; the receive
    register gives the oldest one; the transmitter is busy for a while and
    then takes a byte.  The two drivers are proved against one interface,
    [serial_laws], which the laws of each device imply. *)

From S2P Require Export Prelude.
From S2P Require Export Uart.

(** ** The view of the devices on a bus *)

(** The bytes received and not yet read, those still to come, those sent, how
    long the transmitter will stay busy, the interrupts claimed and not
    completed, and whether the port is set up. *)
Record View (W : Type) : Type := mk_view {
  v_fifo : W → list Z;
  v_line : W → list Z;
  v_sent : W → list Z;
  v_busy : W → nat;
  v_service : W → list Z;
  v_ready : W → Prop;
}.
Arguments mk_view {W}. Arguments v_fifo {W}. Arguments v_line {W}. Arguments v_sent {W}. Arguments v_busy {W}. Arguments v_service {W}. Arguments v_ready {W}.

Section view.
Context {W : Type} (V : View W).

Definition stream (x : W) : list Z := v_fifo V x ++ v_line V x.

(** Bytes may have arrived; nothing else happened that the view shows. *)
Record quiet (x x' : W) : Prop := {
  q_arrives : ∃ new, v_fifo V x' = v_fifo V x ++ new ∧ v_line V x = new ++ v_line V x';
  q_sent : v_sent V x' = v_sent V x;
  q_service : v_service V x' = v_service V x;
  q_ready : v_ready V x → v_ready V x';
}.

#[export] Instance quiet_preorder : PreOrder quiet.
Proof.
  split.
  - intros x. split; try done. exists []. by rewrite app_nil_r.
  - intros x y z [(n1&Hf1&Hl1) Hs1 Hv1 Hr1] [(n2&Hf2&Hl2) Hs2 Hv2 Hr2]. split; [|by rewrite Hs2|by rewrite Hv2|by auto].
    exists (n1 ++ n2). split; [by rewrite Hf2, Hf1, app_assoc|by rewrite Hl1, Hl2, app_assoc].
Qed.

Lemma quiet_stream (x x' : W) : quiet x x' → stream x' = stream x.
Proof. intros [(new&Hf&Hl) _ _ _]. unfold stream. by rewrite Hf, Hl, app_assoc. Qed.

(** The bytes [p] were taken from the front. *)
Record taken (p : list Z) (x x' : W) : Prop := {
  t_stream : ∃ new, v_line V x = new ++ v_line V x' ∧ v_fifo V x ++ new = p ++ v_fifo V x';
  t_sent : v_sent V x' = v_sent V x;
  t_service : v_service V x' = v_service V x;
  t_ready : v_ready V x → v_ready V x';
}.

Lemma quiet_taken (x x' : W) : quiet x x' → taken [] x x'.
Proof. intros [(new&Hf&Hl) ? ? ?]. split; try done. by exists new. Qed.

Lemma taken_app (p q : list Z) (x y z : W) : taken p x y → taken q y z → taken (p ++ q) x z.
Proof.
  intros [(n1&Hl1&Hf1) ? ? ?] [(n2&Hl2&Hf2) ? ? ?]. split; [|congruence|congruence|auto].
  exists (n1 ++ n2). split; [by rewrite Hl1, Hl2, app_assoc|]. by rewrite app_assoc, Hf1, <- !app_assoc, Hf2.
Qed.

Lemma taken_total (p : list Z) (x x' : W) : taken p x x' → stream x = p ++ stream x'.
Proof. intros [(new&Hl&Hf) _ _ _]. unfold stream. by rewrite Hl, app_assoc, Hf, <- app_assoc. Qed.

(** ** The interface of a port *)

Record serial_laws (getc : W → exec (option Z * W)) (putc : Z → W → exec W) : Prop := {
  sl_getc : ∀ x, v_ready V x → ∃ o x', getc x = Done (o, x') ∧
    match o with Some b => taken [b] x x' | None => v_fifo V x = [] ∧ quiet x x' end;
  sl_putc : ∀ b x, v_ready V x → ∃ x' x1, putc b x = Done x' ∧ quiet x x1 ∧ v_sent V x' = v_sent V x1 ++ [b]
    ∧ v_service V x' = v_service V x1 ∧ v_ready V x' ∧ ∃ new, v_fifo V x' = v_fifo V x1 ++ new ∧ v_line V x1 = new ++ v_line V x';
}.

Context (getc : W → exec (option Z * W)) (putc : Z → W → exec W) (Hport : serial_laws getc putc).

Lemma push_to_rx_spec (rx : RxBuffer) (b : Z) : ring_wf rx → ∃ rx', push_to_rx_buf b rx = Done rx' ∧ ring_wf rx' ∧ rx_bytes rx' = take 127 (rx_bytes rx ++ [b]).
Proof.
  intros Hwf. unfold push_to_rx_buf, rx_push. destruct (count_head rx Hwf) as [_ Hc]. pose proof (full_iff rx Hwf) as Hfull.
  destruct (Nat.eqb_spec ((rx_head rx + 1) `mod` BUF_SIZE) (rx_tail rx)) as [Hf|Hf]; cbn [mbind exec_bind].
  - exists rx. split; [done|]. split; [done|]. apply Hfull in Hf. unfold BUF_SIZE in *. rewrite take_app_le by (rewrite length_bytes; lia).
    by rewrite take_ge by (rewrite length_bytes; lia).
  - rewrite put_exec_Done by (rewrite (rg_data _ Hwf); apply Hwf). cbn [mbind exec_bind]. eexists. split; [done|].
    set (rx1 := mk_rx (<[rx_head rx := b]> (rx_data rx)) (rx_head rx) (rx_tail rx)).
    assert (Hwf1 : ring_wf rx1) by (destruct Hwf; split; [by cbn; rewrite length_insert|done|done]).
    destruct (bytes_push rx1 b Hwf1) as (Hwf2&Hb2&Hn2); [cbn; apply list_lookup_insert_eq; rewrite (rg_data _ Hwf); apply Hwf|done|].
    split; [exact Hwf2|]. etransitivity; [exact Hb2|]. unfold rx1. rewrite bytes_write by done. rewrite take_ge; [done|]. rewrite length_app, length_bytes. change (length [b]) with 1.
    destruct (decide (S (rx_count rx) = BUF_SIZE)) as [E|E]; [by apply Hfull in E|]. unfold BUF_SIZE in *. lia.
Qed.

Lemma take_take_app (l : list Z) (b : Z) (p : list Z) : take 127 (take 127 (l ++ [b]) ++ p) = take 127 (l ++ b :: p).
Proof.
  destruct (decide (length l < 127)).
  - rewrite (take_ge (l ++ [b])) by (rewrite length_app; change (length [b]) with 1; lia). by rewrite <- app_assoc.
  - rewrite (take_app_le l [b]), (take_app_le l (b :: p)) by lia. rewrite take_app_le by (rewrite length_take; lia). by rewrite take_take.
Qed.

(** The loop of an interrupt handler takes what is there, and maybe bytes that
    arrive meanwhile; it ends when there are fewer bytes to come than [fuel]. *)
Lemma drain_spec (fuel : nat) : ∀ rx x, length (stream x) < fuel → ring_wf rx → v_ready V x →
  ∃ p rx' x', drain getc fuel rx x = Done (length p, rx', x') ∧ taken p x x' ∧ (∃ more, p = v_fifo V x ++ more)
  ∧ ring_wf rx' ∧ rx_bytes rx' = take 127 (rx_bytes rx ++ p).
Proof.
  induction fuel as [|fuel IH]; intros rx x Hlt Hwf Hr; [lia|]. cbn [drain].
  destruct (sl_getc _ _ Hport x Hr) as (o&x1&->&Ho). cbn [mbind exec_bind]. destruct o as [b|].
  - destruct (push_to_rx_spec rx b Hwf) as (rx1&->&Hwf1&Hb1). cbn [mbind exec_bind].
    pose proof (taken_total _ _ _ Ho) as Htot. destruct (IH rx1 x1) as (p&rx'&x'&->&Ht&(more&Hp)&Hwf'&Hb'); [rewrite Htot in Hlt; cbn in Hlt; lia|done|by apply Ho|].
    cbn [mbind exec_bind]. exists (b :: p), rx', x'. split; [done|]. split; [by apply (taken_app [b] p _ x1)|]. split; [|split; [done|]].
    + destruct (t_stream _ _ _ Ho) as (new&_&Hf). exists (new ++ more). by rewrite Hp, app_assoc, Hf, <- app_comm_cons.
    + by rewrite Hb', Hb1, take_take_app.
  - destruct Ho as [Hf Hq]. exists [], rx, x1. split; [done|]. split; [by apply quiet_taken|]. split; [exists []; by rewrite Hf|]. split; [done|].
    rewrite app_nil_r, take_ge; [done|]. destruct (count_head rx Hwf). rewrite length_bytes. unfold BUF_SIZE in *. lia.
Qed.

Lemma write_buffer_spec (buf : list Z) : ∀ x, v_ready V x →
  ∃ x', write_buffer (λ b x, x ← putc b x; Done (inr (), x)) buf x = Done (length buf, x') ∧ v_sent V x' = v_sent V x ++ buf
  ∧ stream x' = stream x ∧ v_service V x' = v_service V x ∧ v_ready V x'.
Proof.
  induction buf as [|b buf IH]; intros x Hr; cbn [write_buffer]; [exists x; by rewrite app_nil_r|].
  destruct (sl_putc _ _ Hport b x Hr) as (x1&x0&->&Hq&Hs&Hv&Hr1&new&Hf&Hl). cbn [mbind exec_bind].
  destruct (IH x1 Hr1) as (x'&->&Hs'&Hst'&Hv'&Hr'). cbn [mbind exec_bind length]. exists x'. split; [done|].
  split; [by rewrite Hs', Hs, (q_sent _ _ Hq), <- app_assoc|]. split; [|split; [by rewrite Hv', Hv, (q_service _ _ Hq)|done]].
  rewrite Hst', <- (quiet_stream _ _ Hq). unfold stream. by rewrite Hf, Hl, app_assoc.
Qed.
End view.

(** ** The 16550 and the CMSDK port have these laws *)

(** Testing one bit of a byte. *)
Lemma land_bit (x b : Z) : (0 <= b)%Z → Z.land x (Z.shiftl 1 b) = if Z.testbit x b then Z.shiftl 1 b else 0%Z.
Proof.
  intros Hb. apply Z.bits_inj'. intros i Hi. rewrite Z.land_spec, testbit_pow2 by done.
  case_bool_decide as Hib; [subst i|]; destruct (Z.testbit x b) eqn:E; rewrite ?andb_true_r, ?andb_false_r, ?Z.testbit_0_l, ?E, ?testbit_pow2 by done; [|done| |done].
  - by rewrite bool_decide_true.
  - by rewrite bool_decide_false.
Qed.

Lemma byte_bit_clear (v b : Z) : (0 <= b < 8)%Z → (Z.land (wrap 8 v) (Z.shiftl 1 b) =? 0)%Z = negb (Z.testbit v b).
Proof.
  intros Hb. rewrite land_bit by lia. unfold wrap. rewrite Z.mod_pow2_bits_low by lia. destruct (Z.testbit v b); [|done].
  rewrite Z.shiftl_1_l. apply Z.eqb_neq. pose proof (Z.pow_pos_nonneg 2 b). lia.
Qed.

Section ns16550a.
Context {W : Type} `{!Bus W} (V : View W) (w : Z) (spin : nat) (u : Ns16550a).

(** The registers lie below the end of the address space. *)
Definition ns_fits : Prop := (0 <= reg_shift u < w ∧ 0 <= ns_base_addr u ∧ ns_base_addr u + 7 * 2 ^ reg_shift u < 2 ^ w)%Z.
Definition ns_addr (offset : Z) : Z := (ns_base_addr u + Z.shiftl offset (reg_shift u))%Z.

Record ns_device : Prop := {
  nd_fits : ns_fits;
  nd_busy : ∀ x, v_busy V x < spin;
  nd_lsr : ∀ x, v_ready V x → let '(v, x') := bus_read (access_width u) (ns_addr LSR) x in
    quiet V x x' ∧ Z.testbit v 0 = bool_decide (v_fifo V x ≠ []) ∧ if Z.testbit v 5 then v_busy V x' = 0 else v_busy V x' < v_busy V x;
  nd_rbr : ∀ x b rest, v_ready V x → v_fifo V x = b :: rest → let '(v, x') := bus_read (access_width u) (ns_addr RBR) x in
    wrap 8 v = b ∧ taken V [b] x x';
  nd_thr : ∀ b x, v_ready V x → v_busy V x = 0 → let x' := bus_write (access_width u) (ns_addr THR) b x in
    v_sent V x' = v_sent V x ++ [b] ∧ v_service V x' = v_service V x ∧ v_ready V x' ∧ ∃ new, v_fifo V x' = v_fifo V x ++ new ∧ v_line V x = new ++ v_line V x';
}.

Lemma reg_addr_ok (offset : Z) : ns_fits → (0 <= offset <= 7)%Z → reg_addr w u offset = Done (ns_addr offset).
Proof.
  intros (Hs&Hb&Hw) Ho. unfold reg_addr, ns_addr. rewrite (proj2 (Z.leb_gt _ _)) by lia. rewrite Z.shiftl_mul_pow2 by lia.
  pose proof (Z.pow_pos_nonneg 2 (reg_shift u)). rewrite wrap_small by (split; nia). apply add_w_Done. nia.
Qed.

Lemma ns_getc_spec (x : W) : ns_device → v_ready V x → ∃ o x', ns_getc w u x = Done (o, x') ∧
  match o with Some b => taken V [b] x x' | None => v_fifo V x = [] ∧ quiet V x x' end.
Proof.
  intros Hd Hr. unfold ns_getc, read_reg. rewrite (reg_addr_ok LSR), (reg_addr_ok RBR) by (apply Hd || done). cbn [mbind exec_bind].
  pose proof (nd_lsr Hd x Hr) as Hl. destruct (bus_read _ _ x) as [v x1]. destruct Hl as (Hq&Hdr&_). cbn [mbind exec_bind].
  unfold LSR_DR. rewrite byte_bit_clear, negb_involutive, Hdr by lia. case_bool_decide as Hf.
  - destruct (v_fifo V x) as [|b rest] eqn:E; [done|]. destruct (q_arrives _ _ _ Hq) as (new&Hnew&_). rewrite E in Hnew.
    pose proof (nd_rbr Hd x1 b _ (q_ready _ _ _ Hq Hr) Hnew) as Hb. destruct (bus_read _ _ x1) as [v1 x2]. destruct Hb as [Hv Ht].
    exists (Some b), x2. cbn [mbind exec_bind]. rewrite Hv. split; [done|]. by apply (taken_app V [] [b] x x1 x2 (quiet_taken _ _ _ Hq)).
  - exists None, x1. split; [done|]. split; [|done]. destruct (v_fifo V x); [done|]. by destruct Hf.
Qed.

Lemma wait_thre_spec (fuel : nat) : ns_device → ∀ x, v_ready V x → v_busy V x < fuel →
  ∃ x', wait_thre w fuel u x = Done x' ∧ quiet V x x' ∧ v_busy V x' = 0.
Proof.
  intros Hd. induction fuel as [|fuel IH]; intros x Hr Hlt; [lia|]. cbn [wait_thre]. unfold read_reg. rewrite reg_addr_ok by (apply Hd || done). cbn [mbind exec_bind].
  pose proof (nd_lsr Hd x Hr) as Hl. destruct (bus_read _ _ x) as [v x1]. destruct Hl as (Hq&_&Hthre). cbn [mbind exec_bind].
  unfold LSR_THRE. rewrite byte_bit_clear by lia. destruct (Z.testbit v 5); cbn [negb]; [by exists x1|].
  destruct (IH x1) as (x'&->&Hq'&Hb'); [by apply Hq|lia|]. exists x'. split; [done|]. split; [by etransitivity|done].
Qed.

Lemma ns_serial : ns_device → serial_laws V (ns_getc w u) (ns_putc w spin u).
Proof.
  intros Hd. split; [intros x; by apply ns_getc_spec|]. intros b x Hr. unfold ns_putc.
  destruct (wait_thre_spec spin Hd x Hr (nd_busy Hd x)) as (x1&->&Hq&Hb). cbn [mbind exec_bind]. unfold write_reg. rewrite reg_addr_ok by (apply Hd || done).
  cbn [mbind exec_bind]. eexists _, x1. split; [done|]. split; [done|]. exact (nd_thr Hd b x1 (q_ready _ _ _ Hq Hr) Hb).
Qed.
End ns16550a.

Section cmsdk.
Context {W : Type} `{!Bus W} (V : View W) (spin : nat) (u : CmsdkUart).

Record cm_device : Prop := {
  cd_busy : ∀ x, v_busy V x < spin;
  cd_state : ∀ x, v_ready V x → let '(v, x') := bus_read 4 (cm_base_addr u + UART_STATE) x in
    quiet V x x' ∧ Z.testbit v 1 = bool_decide (v_fifo V x ≠ []) ∧ if Z.testbit v 0 then v_busy V x' < v_busy V x else v_busy V x' = 0;
  cd_data : ∀ x b rest, v_ready V x → v_fifo V x = b :: rest → let '(v, x') := bus_read 4 (cm_base_addr u + UART_DATA) x in
    wrap 8 v = b ∧ taken V [b] x x';
  cd_write : ∀ b x, v_ready V x → v_busy V x = 0 → let x' := bus_write 4 (cm_base_addr u + UART_DATA) b x in
    v_sent V x' = v_sent V x ++ [b] ∧ v_service V x' = v_service V x ∧ v_ready V x' ∧ ∃ new, v_fifo V x' = v_fifo V x ++ new ∧ v_line V x = new ++ v_line V x';
  cd_clear : ∀ x, quiet V x (bus_write 4 (cm_base_addr u + UART_INTSTATUS) (Z.shiftl 1 1) x);
}.

Lemma status_bit (v b : Z) : (0 <= b < 4)%Z → (Z.land (Z.land v 15) (Z.shiftl 1 b) =? Z.shiftl 1 b)%Z = Z.testbit v b.
Proof.
  intros Hb. change 15%Z with (Z.ones 4). rewrite Z.land_ones by lia. rewrite land_bit, Z.mod_pow2_bits_low by lia. destruct (Z.testbit v b); [apply Z.eqb_refl|].
  rewrite Z.shiftl_1_l. apply Z.eqb_neq. pose proof (Z.pow_pos_nonneg 2 b). lia.
Qed.

Lemma wait_tx_spec (fuel : nat) : cm_device → ∀ x, v_ready V x → v_busy V x < fuel → ∃ x', wait_tx fuel u x = Done x' ∧ quiet V x x' ∧ v_busy V x' = 0.
Proof.
  intros Hd. induction fuel as [|fuel IH]; intros x Hr Hlt; [lia|]. cbn [wait_tx]. unfold cm_status.
  pose proof (cd_state Hd x Hr) as Hl. destruct (bus_read _ _ x) as [v x1]. destruct Hl as (Hq&_&Hb).
  unfold TX_BF. rewrite status_bit by lia. destruct (Z.testbit v 0); [|by exists x1].
  destruct (IH x1) as (x'&->&Hq'&Hb'); [by apply Hq|lia|]. exists x'. split; [done|]. split; [by etransitivity|done].
Qed.

Lemma cm_serial : cm_device → serial_laws V (cm_getc u) (λ b x, x ← wait_tx spin u x; Done (bus_write 4 (cm_base_addr u + UART_DATA) b x)).
Proof.
  intros Hd. split.
  - intros x Hr. unfold cm_getc, cm_status. pose proof (cd_state Hd x Hr) as Hl. destruct (bus_read _ _ x) as [v x1]. destruct Hl as (Hq&Hrx&_).
    unfold RX_BF. rewrite status_bit, Hrx by lia. case_bool_decide as Hf.
    + destruct (v_fifo V x) as [|b rest] eqn:E; [done|]. destruct (q_arrives _ _ _ Hq) as (new&Hnew&_). rewrite E in Hnew.
      pose proof (cd_data Hd x1 b _ (q_ready _ _ _ Hq Hr) Hnew) as Hb. destruct (bus_read _ _ x1) as [v1 x2]. destruct Hb as [Hv Ht].
      exists (Some b), x2. rewrite Hv. split; [done|]. by apply (taken_app V [] [b] x x1 x2 (quiet_taken _ _ _ Hq)).
    + exists None, x1. split; [done|]. split; [|done]. destruct (v_fifo V x); [done|]. by destruct Hf.
  - intros b x Hr. destruct (wait_tx_spec spin Hd x Hr (cd_busy Hd x)) as (x1&->&Hq&Hb). cbn [mbind exec_bind].
    eexists _, x1. split; [done|]. split; [done|]. exact (cd_write Hd b x1 (q_ready _ _ _ Hq Hr) Hb).
Qed.
End cmsdk.
