(* ===== verification/BoardProps.v ===== *)
(** * The console of the board, from the wire to the reader *)

From S2P Require Export Prelude.
From S2P Require Export UartProps.
From S2P Require Export Board.
From S2P Require Export DriverInv.
From S2P Require Export DriverProps.

Section board.
Context {H W : Type} `{!Bus W} `{!Firmware W} `{!SmpConfig} (V : View W) (w : Z) (mode : Mode) (spin : nat) (run_handler : H → exec (Devices W) → exec (Devices W)).
Context (u : Ns16550a) (slot : nat).
#[local] Instance the_driver : AnyDriver UartDriver (exec (Devices W)) := uart_driver w spin.
#[local] Instance the_factory : DriverFactory UartDriver (exec (Devices W)) UartFactory := uart_factory.

(** The PLIC: a claim takes the interrupt in service, its completion ends it. *)
Record plic_device (p : PlicCfg) : Prop := {
  pd_base : (0 < PLIC_BASE p ∧ PLIC_BASE p + CLAIM_OFFSET + context_id mode * 0x1000 < 2 ^ w)%Z;
  pd_claim : ∀ x, let '(n, x') := bus_read 4 (PLIC_BASE p + CLAIM_OFFSET + context_id mode * 0x1000) x in
    (0 <= n)%Z ∧ if (n =? 0)%Z then quiet V x x' else
    (∃ new, v_fifo V x' = v_fifo V x ++ new ∧ v_line V x = new ++ v_line V x') ∧ v_sent V x' = v_sent V x ∧ (v_ready V x → v_ready V x')
    ∧ (n ∉ v_service V x) ∧ v_service V x' = n :: v_service V x;
  pd_complete : ∀ n x, let x' := bus_write 4 (PLIC_BASE p + CLAIM_OFFSET + context_id mode * 0x1000) n x in
    (∃ new, v_fifo V x' = v_fifo V x ++ new ∧ v_line V x = new ++ v_line V x') ∧ v_sent V x' = v_sent V x ∧ (v_ready V x → v_ready V x')
    ∧ v_service V x' = filter (λ i, i ≠ n) (v_service V x);
}.

(** One port is registered, alone; no handler was installed for its interrupt. *)
Record board_ok (d : Devices W) (b : Board H W) : Prop := {
  bk_devices : bd_devices b = Done d;
  bk_plic : plic_device (bd_plic b);
  bk_irqs : irq_wf (bd_irqs b);
  bk_registry : reg_wf (bd_registry b);
  bk_driver : live (DRIVERS (bd_registry b)) = [mk_ud slot u];
  bk_free : irq_table (IRQ_STATE (bd_irqs b)) !! Z.to_nat (ns_irq_num u) = Some None;
  bk_irq : (0 < ns_irq_num u)%Z ∧ Z.to_nat (ns_irq_num u) < irq_count (IRQ_STATE (bd_irqs b));
  bk_active : ACTIVE_UART d = Some u;
  bk_poll : RX_POLL_FN d = Some ActiveUartGetc;
  bk_rx : ring_wf (UART_RX_BUF d);
  bk_ready : v_ready V (dv_bus d);
}.

(** What the devices do meanwhile: bytes [p] went from the port into the ring. *)
Record moved (p : list Z) (d d' : Devices W) : Prop := {
  mv_bus : taken V p (dv_bus d) (dv_bus d');
  mv_wf : ring_wf (UART_RX_BUF d');
  mv_ring : rx_bytes (UART_RX_BUF d') = take 127 (rx_bytes (UART_RX_BUF d) ++ p);
  mv_active : ACTIVE_UART d' = ACTIVE_UART d;
  mv_poll : RX_POLL_FN d' = RX_POLL_FN d;
}.

(** Other handlers do not touch the port. *)
Context (Hns : ns_device V w spin u) (Hother : ∀ h d, ∃ x, run_handler h (Done d) = Done (with_bus d x) ∧ quiet V (dv_bus d) x).

Lemma rx_small (rx : RxBuffer) : ring_wf rx → take 127 (rx_bytes rx) = rx_bytes rx.
Proof. intros Hwf. destruct (count_head rx Hwf). apply take_ge. rewrite length_bytes. unfold BUF_SIZE in *. lia. Qed.

Lemma moved_bus (d : Devices W) (x : W) : ring_wf (UART_RX_BUF d) → quiet V (dv_bus d) x → moved [] d (with_bus d x).
Proof. intros Hwf Hq. split; [by apply quiet_taken|exact Hwf| |done|done]. rewrite app_nil_r. symmetry. by apply rx_small. Qed.

Lemma call_spec (irq : Z) (d : Devices W) : ring_wf (UART_RX_BUF d) → v_ready V (dv_bus d) → length (stream V (dv_bus d)) < spin →
  ∃ p d', drv_handle_irq (mk_ud slot u) irq (Done d) = ((irq =? ns_irq_num u)%Z, Done d') ∧ moved p d d'
  ∧ if (irq =? ns_irq_num u)%Z then ∃ more, p = v_fifo V (dv_bus d) ++ more else d' = d.
Proof.
  intros Hwf Hr Hlt. cbn [drv_handle_irq the_driver uart_driver lift_call ud_port]. unfold ud_handle_irq, ns_handle_irq.
  destruct (irq =? ns_irq_num u)%Z eqn:E; cbn [negb].
  - destruct (drain_spec V _ _ (ns_serial V w spin u Hns) spin (UART_RX_BUF d) (dv_bus d) Hlt Hwf Hr) as (p&rx'&x'&->&Ht&Hp&Hwf'&Hb).
    cbn [mbind exec_bind]. exists p, (with_bus (with_rx d rx') x'). split; [done|]. by split.
  - cbn [mbind exec_bind]. exists [], d. assert (Hsame : with_bus (with_rx d (UART_RX_BUF d)) (dv_bus d) = d) by (by destruct d). rewrite Hsame. split; [done|]. split; [|done].
    split; [apply quiet_taken; reflexivity|exact Hwf| |done|done]. rewrite app_nil_r. symmetry. by apply rx_small.
Qed.

Lemma call_false (irq : Z) (x : exec (Devices W)) : (drv_handle_irq (mk_ud slot u) irq x).1 = false → (drv_handle_irq (mk_ud slot u) irq x).2 = x.
Proof.
  cbn [drv_handle_irq the_driver uart_driver ud_port]. destruct x as [d|]; cbn [lift_call]; [|done]. unfold ud_handle_irq, ns_handle_irq.
  destruct (irq =? ns_irq_num u)%Z; cbn [negb mbind exec_bind fst snd]; [|intros _; by destruct d].
  destruct (drain _ spin _ _) as [[[n rx] x]|]; cbn [mbind exec_bind fst snd]; done.
Qed.
(** What the interrupt table and the registry keep. *)
Lemma board_ok_with (d d' : Devices W) (b b' : Board H W) (p : list Z) : board_ok d b → moved p d d' → bd_devices b' = Done d' → bd_plic b' = bd_plic b →
  IRQ_STATE (bd_irqs b') = IRQ_STATE (bd_irqs b) → reg_wf (bd_registry b') → DRIVERS (bd_registry b') = DRIVERS (bd_registry b) → board_ok d' b'.
Proof.
  intros [_ Hp Hi _ Hd Hf Hn Ha Hpo _ Hrd] [Hb Hwf _ Ha' Hp'] Hd' Hp2 Hi2 Hr2 Hdr.
  split; [done|by rewrite Hp2| |done|by rewrite Hdr|by rewrite Hi2|by rewrite Hi2|by rewrite Ha'|by rewrite Hp'|done|by apply Hb].
  unfold irq_wf. by rewrite Hi2.
Qed.

Lemma board_handle (n : Z) (d : Devices W) (b : Board H W) : board_ok d b → (0 <= n)%Z → length (stream V (dv_bus d)) < spin →
  ∃ hd b' d' p, board_handle_irq w spin run_handler n b = Done (hd, b') ∧ board_ok d' b' ∧ moved p d d' ∧ bd_plic b' = bd_plic b
  ∧ (n = ns_irq_num u → hd = true ∧ ∃ more, p = v_fifo V (dv_bus d) ++ more).
Proof.
  intros Hok Hn Hlt. unfold board_handle_irq. rewrite (bk_devices _ _ Hok). destruct (bk_irqs _ _ Hok) as [Hlen Hcnt]. unfold handle_irq. cbn [IRQ_STATE].
  pose proof (moved_bus d (dv_bus d) (bk_rx _ _ Hok) ltac:(reflexivity)) as Hsame. assert (Hd : with_bus d (dv_bus d) = d) by (by destruct d). rewrite Hd in Hsame.
  destruct (Nat.leb_spec (irq_count (IRQ_STATE (bd_irqs b))) (Z.to_nat n)) as [Hr|Hr].
  { cbn [mbind exec_bind]. eexists false, _, d, []. split; [done|]. split; [by eapply board_ok_with; [done|exact Hsame|..]; try done; apply Hok|].
    split; [done|]. split; [done|]. intros ->. destruct (bk_irq _ _ Hok). lia. }
  destruct (irq_table (IRQ_STATE (bd_irqs b)) !! Z.to_nat n) as [handler|] eqn:Hh; [|apply lookup_ge_None in Hh; lia]. cbn [get_exec mbind exec_bind].
  destruct handler as [h|].
  - destruct (Hother h d) as (x&Hx&Hq). rewrite Hx. cbn [mbind exec_bind]. eexists true, _, _, []. split; [done|].
    pose proof (moved_bus d x (bk_rx _ _ Hok) Hq) as Hm. split; [by eapply board_ok_with; [done|exact Hm|..]; try done; apply Hok|].
    split; [done|]. split; [done|]. intros ->. by rewrite (bk_free _ _ Hok) in Hh.
  - assert (Hw : wrap 32 (Z.of_nat (Z.to_nat n)) = n).
    { rewrite Z2Nat.id by done. apply wrap_small. unfold in_width, MAX_EXTERNAL_IRQS, OPENION_EXTERNAL_IRQ_COUNT in *. change (2 ^ 32)%Z with 4294967296%Z. lia. }
    rewrite Hw. destruct (dispatch_single (bd_registry b) _ n (Done d) (bk_registry _ _ Hok) (bk_driver _ _ Hok) (call_false n)) as (r'&Heq&Hwf'&Hdr).
    change (uart_driver w spin) with the_driver. rewrite Heq. clear Heq.
    destruct (call_spec n d (bk_rx _ _ Hok) (bk_ready _ _ Hok) Hlt) as (p&d'&->&Hm&Hp). cbn [fst snd].
    destruct (n =? ns_irq_num u)%Z eqn:E; cbn [mbind exec_bind].
    + eexists true, _, d', p. split; [done|]. split; [by eapply board_ok_with; [done|exact Hm|..]|]. split; [done|]. split; [done|]. intros _. by split.
    + eexists false, _, d', p. split; [done|]. split; [by eapply board_ok_with; [done|exact Hm|..]|]. split; [done|]. split; [done|]. intros ->.
      by rewrite Z.eqb_refl in E.
Qed.
(** As [taken], whatever interrupts are in service. *)
Record kept (p : list Z) (x x' : W) : Prop := {
  kp_stream : ∃ new, v_line V x = new ++ v_line V x' ∧ v_fifo V x ++ new = p ++ v_fifo V x';
  kp_sent : v_sent V x' = v_sent V x;
  kp_ready : v_ready V x → v_ready V x';
}.

Lemma kept_app (p q : list Z) (x y z : W) : kept p x y → kept q y z → kept (p ++ q) x z.
Proof.
  intros [(n1&Hl1&Hf1) ? ?] [(n2&Hl2&Hf2) ? ?]. split; [|congruence|auto].
  exists (n1 ++ n2). split; [by rewrite Hl1, Hl2, app_assoc|]. by rewrite app_assoc, Hf1, <- !app_assoc, Hf2.
Qed.

Lemma taken_kept (p : list Z) (x x' : W) : taken V p x x' ↔ kept p x x' ∧ v_service V x' = v_service V x.
Proof. split; [intros [? ? ? ?]; by repeat split|intros [[? ? ?] ?]; by split]. Qed.

Lemma arrived_kept (x x' : W) : (∃ new, v_fifo V x' = v_fifo V x ++ new ∧ v_line V x = new ++ v_line V x') →
  v_sent V x' = v_sent V x → (v_ready V x → v_ready V x') → kept [] x x'.
Proof. intros (new&Hf&Hl) ? ?. split; [by exists new|done|done]. Qed.

Lemma filter_absent (n : Z) (l : list Z) : n ∉ l → filter (λ i, i ≠ n) l = l.
Proof.
  induction l as [|i l IH]; intros Hn; [done|]. apply not_elem_of_cons in Hn as [Hi Hn]. rewrite filter_cons_True by congruence. by rewrite IH.
Qed.

Definition claim_addr (p : PlicCfg) : Z := (PLIC_BASE p + CLAIM_OFFSET + context_id mode * 0x1000)%Z.

Lemma claim_ptr (p : PlicCfg) : plic_device p → plic_configured p = true ∧ base_valid (PLIC_BASE p) = true
  ∧ add_all w (PLIC_BASE p) [CLAIM_OFFSET; context_id mode * 0x1000]%Z = Done (claim_addr p).
Proof.
  intros Hp. destruct (pd_base _ Hp) as [Hpos Hend]. unfold plic_configured, base_valid. rewrite (proj2 (Z.eqb_neq (PLIC_BASE p) 0)) by lia. split; [done|]. split; [done|].
  cbn [add_all]. assert (0 <= context_id mode)%Z by (by destruct mode). rewrite add_w_Done by lia. cbn [mbind exec_bind]. by rewrite add_w_Done by lia.
Qed.

Lemma external_spec (d : Devices W) (b : Board H W) : board_ok d b → length (stream V (dv_bus d)) < spin →
  ∃ b' d' p, external_irq_handler w mode spin run_handler b = Done b' ∧ board_ok d' b' ∧ moved p d d' ∧ bd_plic b' = bd_plic b
  ∧ ((bus_read 4 (claim_addr (bd_plic b)) (dv_bus d)).1 = ns_irq_num u → ∃ more, p = v_fifo V (dv_bus d) ++ more).
Proof.
  intros Hok Hlt. unfold external_irq_handler. rewrite (bk_devices _ _ Hok). cbn [mbind exec_bind].
  pose proof (bk_plic _ _ Hok) as Hp. destruct (claim_ptr _ Hp) as (Hc&Hv&Hptr). unfold claim, complete, plic_claim, plic_complete. rewrite Hc, Hv.
  cbn [negb]. rewrite Hptr. cbn [mbind exec_bind]. pose proof (pd_claim _ Hp (dv_bus d)) as Hcl. fold (claim_addr (bd_plic b)) in Hcl.
  destruct (bus_read 4 (claim_addr (bd_plic b)) (dv_bus d)) as [n x1]. destruct Hcl as (Hn&Hcl). cbn [fst]. destruct (Z.eqb_spec n 0) as [->|Hn0].
  { pose proof (moved_bus d x1 (bk_rx _ _ Hok) Hcl) as Hm. exists (with_devices b (with_bus d x1)), (with_bus d x1), []. split; [done|].
    split; [by eapply board_ok_with; [done|exact Hm|..]; try done; apply Hok|]. split; [done|]. split; [done|]. intros Hz. destruct (bk_irq _ _ Hok). lia. }
  destruct Hcl as (Harr&Hs1&Hr1&Hnin&Hsv1). set (d1 := with_bus d x1). set (b1 := with_devices b d1).
  assert (Hstream1 : stream V x1 = stream V (dv_bus d)).
  { destruct Harr as (new&Hf&Hl). unfold stream. by rewrite Hf, Hl, app_assoc. }
  assert (Hok1 : board_ok d1 b1) by (destruct Hok as [? ? ? ? ? ? ? ? ? ? ?]; split; try done; by apply Hr1).
  destruct (board_handle n d1 b1 Hok1 Hn) as (hd&b2&d2&p&->&Hok2&Hm&Hp2&Hirq); [cbn; by rewrite Hstream1|]. cbn [mbind exec_bind].
  rewrite (bk_devices _ _ Hok2). cbn [mbind exec_bind]. rewrite Hp2. change (bd_plic b1) with (bd_plic b). rewrite Hc, Hv. cbn [negb orb].
  rewrite Hptr. cbn [mbind exec_bind]. pose proof (pd_complete _ Hp n (dv_bus d2)) as Hco. fold (claim_addr (bd_plic b)) in Hco.
  set (x3 := bus_write 4 (claim_addr (bd_plic b)) n (dv_bus d2)) in *. destruct Hco as (Harr3&Hs3&Hr3&Hsv3).
  assert (Hmv : moved p d (with_bus d2 x3)).
  { destruct Hm as [Hb Hwf Hring Ha Hpo]. split; [|done|done|done|done]. apply taken_kept. apply taken_kept in Hb as [Hb Hsv2]. split.
    - apply (kept_app [] p _ x1); [by apply arrived_kept|]. rewrite <- (app_nil_r p). apply (kept_app p [] _ (dv_bus d2)); [exact Hb|by apply arrived_kept].
    - cbn. rewrite Hsv3, Hsv2. cbn [dv_bus with_bus d1]. rewrite Hsv1. rewrite filter_cons_False by tauto. by apply filter_absent. }
  exists (with_devices b2 (with_bus d2 x3)), (with_bus d2 x3), p. split; [done|]. split; [|split; [exact Hmv|split; [done|]]].
  - destruct Hok2. split; try done. by apply Hr3.
  - intros ->. destruct (Hirq eq_refl) as (_&more&->). destruct Harr as (new&Hf&_). exists (new ++ more). cbn. by rewrite Hf, app_assoc.
Qed.
(** ** Histories of the console

    An external interrupt, the next piece of a read by the task that reads, a
    write through the first terminal of the registry. *)
Inductive console_op : Type := CIrq | CRead | CWrite (buf : list Z).

(** The board, the interrupt state of the core, what was read so far and where
    the reader stands; [cn_split] notes that an interrupt came when the reader
    had missed the ring and not yet polled the port. *)
Record console : Type := mk_console { cn_board : Board H W; cn_mach : machine; cn_got : list Z; cn_reader : reader; cn_split : bool }.

Definition missed (r : reader) : bool := match r with RMissed => true | _ => false end.

Definition terminal_write (buf : list Z) (b : Board H W) : exec (Board H W) :=
  d ← bd_devices b;
  match for_each_device (bd_registry b) TERMINAL with
  | ud :: _ => '(_, x) ← write_buffer (ns_write_byte w spin (ud_port ud)) buf (dv_bus d); Done (with_devices b (with_bus d x))
  | [] => Done b
  end.

Definition console_step (c : console) (op : console_op) : exec console :=
  match op with
  | CIrq =>
      b ← external_irq_handler w mode spin run_handler (cn_board c);
      Done (mk_console b (cn_mach c) (cn_got c) (cn_reader c) (cn_split c || missed (cn_reader c)))
  | CRead =>
      d ← bd_devices (cn_board c);
      '(r, byte, d, m) ← reader_step w (cn_reader c) d (cn_mach c);
      Done (mk_console (with_devices (cn_board c) d) m (cn_got c ++ match byte with Some byte => [byte] | None => [] end) r (cn_split c))
  | CWrite buf => b ← terminal_write buf (cn_board c); Done (mk_console b (cn_mach c) (cn_got c) (cn_reader c) (cn_split c))
  end.

Fixpoint run_console (c : console) (ops : list console_op) : exec console :=
  match ops with [] => Done c | op :: ops => c ← console_step c op; run_console c ops end.

Definition written (ops : list console_op) : list Z := ops ≫= λ op, match op with CWrite buf => buf | _ => [] end.

(** The bytes [all] that were read, are queued and are at the port, against the
    bytes [total] that the port ever receives: none is made up, none is lost
    when all of them fit, and they are in order unless a read was split. *)
Record in_order (total : list Z) (split : bool) (all : list Z) : Prop := {
  io_subset : all ⊆+ total;
  io_perm : length total ≤ 127 → all ≡ₚ total;
  io_order : split = false → all `sublist_of` total;
  io_exact : split = false → length total ≤ 127 → all = total;
}.

Lemma in_order_start (total : list Z) : in_order total false total.
Proof. by split. Qed.

Lemma in_order_dropped (total all all' : list Z) (split : bool) : in_order total split all → all' `sublist_of` all → (length all ≤ 127 → all' = all) →
  in_order total split all'.
Proof.
  intros [H1 H2 H3 H4] Hs He. pose proof (submseteq_length _ _ H1). split.
  - etransitivity; [by apply sublist_submseteq|done].
  - intros Hl. rewrite He by lia. by apply H2.
  - intros Hn. etransitivity; [done|by apply H3].
  - intros Hn Hl. rewrite He by lia. by apply H4.
Qed.

Lemma in_order_permuted (total all all' : list Z) (split : bool) : in_order total split all → all' ≡ₚ all → (split = false → all' = all) →
  in_order total split all'.
Proof. intros [H1 H2 H3 H4] Hp He. split; rewrite ?Hp; try done; intros Hn; rewrite He by done; auto. Qed.

Lemma in_order_split (total all : list Z) (split : bool) (b : bool) : in_order total split all → in_order total (split || b) all.
Proof. intros [H1 H2 H3 H4]. split; try done; by intros [Hn _]%orb_false_iff; auto. Qed.

Record console_inv (total sent : list Z) (d : Devices W) (c : console) : Prop := {
  ci_ok : board_ok d (cn_board c);
  ci_order : in_order total (cn_split c) (cn_got c ++ rx_bytes (UART_RX_BUF d) ++ stream V (dv_bus d));
  ci_missed : cn_reader c = RMissed → cn_split c = false → rx_bytes (UART_RX_BUF d) = [];
  ci_sent : v_sent V (dv_bus d) = sent;
  ci_service : v_service V (dv_bus d) = [];
}.

Lemma inv_stream (total sent : list Z) (d : Devices W) (c : console) : length total < spin → console_inv total sent d c → length (stream V (dv_bus d)) < spin.
Proof. intros Ht Hi. pose proof (submseteq_length _ _ (io_subset _ _ _ (ci_order _ _ _ _ Hi))) as Hl. rewrite !length_app in Hl. lia. Qed.

(** Moving bytes into the ring. *)
Lemma moved_order (got p : list Z) (d d' : Devices W) : moved p d d' →
  let all := got ++ rx_bytes (UART_RX_BUF d) ++ stream V (dv_bus d) in
  let all' := got ++ rx_bytes (UART_RX_BUF d') ++ stream V (dv_bus d') in
  all' `sublist_of` all ∧ (length all ≤ 127 → all' = all).
Proof.
  intros [Hb _ Hr _ _] all all'. unfold all', all. rewrite Hr. rewrite (taken_total _ _ _ _ Hb) in *. split.
  - apply sublist_app; [done|]. rewrite app_assoc. apply sublist_app; [|done]. apply sublist_take.
  - intros Hlen. rewrite take_ge, <- app_assoc; [done|]. rewrite !length_app in *. lia.
Qed.

Lemma ns_getc_active (d : Devices W) : ACTIVE_UART d = Some u → v_ready V (dv_bus d) → ∃ o x', active_uart_getc w d = Done (o, with_bus d x') ∧
  match o with Some b => taken V [b] (dv_bus d) x' | None => v_fifo V (dv_bus d) = [] ∧ quiet V (dv_bus d) x' end.
Proof.
  intros Ha Hr. unfold active_uart_getc. rewrite Ha. destruct (sl_getc _ _ _ (ns_serial V w spin u Hns) (dv_bus d) Hr) as (o&x'&->&Ho).
  cbn [mbind exec_bind]. by exists o, x'.
Qed.

(** A read takes the oldest byte, and finds none only when none was received. *)
Lemma pop_byte_spec (d : Devices W) (b : Board H W) (m : machine) : board_ok d b → ∃ o d' m', pop_byte w d m = Done (o, d', m')
  ∧ ring_wf (UART_RX_BUF d') ∧ ACTIVE_UART d' = ACTIVE_UART d ∧ RX_POLL_FN d' = RX_POLL_FN d
  ∧ match o with
    | Some byte => rx_bytes (UART_RX_BUF d) ++ stream V (dv_bus d) = byte :: rx_bytes (UART_RX_BUF d') ++ stream V (dv_bus d')
    | None => rx_bytes (UART_RX_BUF d) = [] ∧ v_fifo V (dv_bus d) = []
        ∧ rx_bytes (UART_RX_BUF d') ++ stream V (dv_bus d') = rx_bytes (UART_RX_BUF d) ++ stream V (dv_bus d)
    end
  ∧ v_sent V (dv_bus d') = v_sent V (dv_bus d) ∧ v_service V (dv_bus d') = v_service V (dv_bus d) ∧ v_ready V (dv_bus d').
Proof.
  intros Hok. pose proof (bk_rx _ _ Hok) as Hwf. pose proof (bk_ready _ _ Hok) as Hrd. unfold pop_byte.
  destruct (rx_pop_spec _ Hwf) as (rx'&Hwf'&Hb'&Heq). rewrite Heq. cbn [mbind exec_bind]. destruct (rx_bytes (UART_RX_BUF d)) as [|v rest] eqn:E; cbn [head tail] in *.
  - rewrite (bk_poll _ _ Hok). destruct (ns_getc_active d (bk_active _ _ Hok) Hrd) as (o&x'&->&Ho). cbn [mbind exec_bind]. destruct o as [byte|].
    + eexists _, _, _. split; [done|]. cbn [with_bus with_rx dv_bus UART_RX_BUF ACTIVE_UART RX_POLL_FN]. split; [done|]. split; [done|]. split; [exact (bk_poll _ _ Hok)|]. rewrite E. cbn [app]. split; [by rewrite (taken_total _ _ _ _ Ho)|].
      destruct Ho. by auto.
    + destruct Ho as [Hf Hq]. cbn [UART_RX_BUF with_bus]. rewrite Heq. cbn [mbind exec_bind]. eexists _, _, _. split; [done|]. cbn [with_bus with_rx dv_bus UART_RX_BUF ACTIVE_UART RX_POLL_FN]. split; [done|]. split; [done|]. split; [exact (bk_poll _ _ Hok)|].
      rewrite Hb'. cbn [app]. split; [by rewrite (quiet_stream _ _ _ Hq)|]. destruct Hq. by auto.
  - eexists _, _, _. split; [done|]. cbn [with_bus with_rx dv_bus UART_RX_BUF ACTIVE_UART RX_POLL_FN]. rewrite Hb'. by auto 10.
Qed.

(** A piece of a read: the bytes stay, and stay in order unless the port is
    polled while bytes are queued. *)
Definition got_of (o : option Z) : list Z := match o with Some byte => [byte] | None => [] end.

Record read_post (r : reader) (d : Devices W) (r' : reader) (o : option Z) (d' : Devices W) : Prop := {
  rp_rx : ring_wf (UART_RX_BUF d');
  rp_active : ACTIVE_UART d' = ACTIVE_UART d;
  rp_poll : RX_POLL_FN d' = RX_POLL_FN d;
  rp_kept : got_of o ++ rx_bytes (UART_RX_BUF d') ++ stream V (dv_bus d') ≡ₚ rx_bytes (UART_RX_BUF d) ++ stream V (dv_bus d);
  rp_order : (r = RMissed → rx_bytes (UART_RX_BUF d) = []) →
    got_of o ++ rx_bytes (UART_RX_BUF d') ++ stream V (dv_bus d') = rx_bytes (UART_RX_BUF d) ++ stream V (dv_bus d);
  rp_missed : r' = RMissed → rx_bytes (UART_RX_BUF d') = [];
  rp_sent : v_sent V (dv_bus d') = v_sent V (dv_bus d);
  rp_service : v_service V (dv_bus d') = v_service V (dv_bus d);
  rp_ready : v_ready V (dv_bus d');
}.

Lemma pop_post (r r' : reader) (d : Devices W) : ring_wf (UART_RX_BUF d) → v_ready V (dv_bus d) →
  (r' = RMissed → head (rx_bytes (UART_RX_BUF d)) = None) →
  ∃ rx, rx_pop (UART_RX_BUF d) = Done (head (rx_bytes (UART_RX_BUF d)), rx) ∧ read_post r d r' (head (rx_bytes (UART_RX_BUF d))) (with_rx d rx).
Proof.
  intros Hwf Hrd Hm. destruct (rx_pop_spec _ Hwf) as (rx&Hwf'&Hb&Heq). exists rx. split; [done|]. cbn [with_rx dv_bus UART_RX_BUF ACTIVE_UART RX_POLL_FN].
  destruct (rx_bytes (UART_RX_BUF d)) as [|v rest] eqn:E; cbn [head tail] in *; (split; cbn [with_rx dv_bus UART_RX_BUF ACTIVE_UART RX_POLL_FN got_of app]; rewrite ?Hb, ?E; try done).
  intros Hr. by specialize (Hm Hr).
Qed.

Lemma reader_step_spec (r : reader) (d : Devices W) (b : Board H W) (m : machine) : board_ok d b →
  ∃ r' o d' m', reader_step w r d m = Done (r', o, d', m') ∧ read_post r d r' o d'.
Proof.
  intros Hok. pose proof (bk_rx _ _ Hok) as Hwf. pose proof (bk_ready _ _ Hok) as Hrd. destruct r; cbn [reader_step].
  - destruct (pop_post RIdle (match head (rx_bytes (UART_RX_BUF d)) with Some _ => RIdle | None => RMissed end) d Hwf Hrd) as (rx&->&Hp); [by destruct (head _)|].
    cbn [mbind exec_bind]. by eexists _, _, _, _.
  - rewrite (bk_poll _ _ Hok). destruct (ns_getc_active d (bk_active _ _ Hok) Hrd) as (o&x'&->&Ho). cbn [mbind exec_bind]. eexists _, _, _, _. split; [done|].
    destruct o as [byte|].
    + pose proof (taken_total _ _ _ _ Ho) as Ht. cbn [app] in Ht. destruct Ho.
      split; cbn [with_bus dv_bus UART_RX_BUF ACTIVE_UART RX_POLL_FN got_of app]; auto; try done.
      * rewrite Ht. apply Permutation_middle.
      * intros He. by rewrite He, Ht.
    + destruct Ho as [_ Hq]. pose proof (quiet_stream _ _ _ Hq) as Ht. destruct Hq.
      split; cbn [with_bus dv_bus UART_RX_BUF ACTIVE_UART RX_POLL_FN got_of app]; rewrite ?Ht; auto; done.
  - destruct (pop_post RPolled RIdle d Hwf Hrd) as (rx&->&Hp); [done|]. cbn [mbind exec_bind]. by eexists _, _, _, _.
Qed.

Lemma run_read (b : Board H W) (d d' : Devices W) (m m' : machine) (got : list Z) (split : bool) (r r' : reader) (o : option Z) (ops : list console_op) :
  bd_devices b = Done d → reader_step w r d m = Done (r', o, d', m') →
  run_console (mk_console b m got r split) (CRead :: ops) = run_console (mk_console (with_devices b d') m' (got ++ got_of o) r' split) ops.
Proof. intros Hd Hr. cbn [run_console console_step cn_board cn_mach cn_reader cn_got cn_split]. rewrite Hd. cbn [mbind exec_bind]. by rewrite Hr. Qed.

(** Without interruption the pieces make up [pop_byte]. *)
Lemma pop_byte_pieces (d d' : Devices W) (b : Board H W) (m m' : machine) (got : list Z) (split : bool) (o : option Z) :
  bd_devices b = Done d → pop_byte w d m = Done (o, d', m') →
  ∃ n b', run_console (mk_console b m got RIdle split) (replicate n CRead) = Done (mk_console b' m' (got ++ got_of o) RIdle split) ∧ bd_devices b' = Done d'.
Proof.
  intros Hd. unfold pop_byte. destruct (rx_pop (UART_RX_BUF d)) as [[[v|] rx]|] eqn:Hp; cbn [mbind exec_bind]; [| |done].
  - intros [= <- <- <-]. exists 1, (with_devices b (with_rx d rx)). split; [|done]. cbn [replicate].
    rewrite (run_read b d (with_rx d rx) m m got split RIdle RIdle (Some v)); [done|done|]. cbn [reader_step]. by rewrite Hp.
  - assert (Hrx : with_rx d rx = d).
    { unfold rx_pop in Hp. destruct (_ =? _); [|by destruct (_ !! _)]. injection Hp as <-. by destruct d. }
    assert (H1 : ∀ ops, run_console (mk_console b m got RIdle split) (CRead :: ops) = run_console (mk_console (with_devices b d) m got RMissed split) ops).
    { intros ops. rewrite (run_read b d d m m got split RIdle RMissed None); [by rewrite app_nil_r|done|]. cbn [reader_step]. rewrite Hp. cbn [mbind exec_bind]. by rewrite Hrx. }
    destruct (RX_POLL_FN d) as [[]|] eqn:Hf.
    + destruct (active_uart_getc w d) as [[[v|] d1]|] eqn:Hg; cbn [mbind exec_bind]; [| |done].
      * intros [= <- <- <-]. exists 2, (with_devices (with_devices b d) d1). split; [|done]. cbn [replicate]. rewrite H1.
        rewrite (run_read _ d d1 m (enable_irq (disable_irq m)) got split RMissed RIdle (Some v)); [done|done|]. cbn [reader_step]. by rewrite Hf, Hg.
      * destruct (rx_pop (UART_RX_BUF d1)) as [[o1 rx1]|] eqn:Hp1; cbn [mbind exec_bind]; [|done]. intros [= <- <- <-].
        exists 3, (with_devices (with_devices (with_devices b d) d1) (with_rx d1 rx1)). split; [|done]. cbn [replicate]. rewrite H1.
        rewrite (run_read _ d d1 m (enable_irq (disable_irq m)) got split RMissed RPolled None); [|done|cbn [reader_step]; by rewrite Hf, Hg]. rewrite app_nil_r.
        rewrite (run_read _ d1 (with_rx d1 rx1) (enable_irq (disable_irq m)) (enable_irq (disable_irq m)) got split RPolled RIdle o1); [done|done|].
        cbn [reader_step]. by rewrite Hp1.
    + intros [= <- <- <-]. exists 2, (with_devices (with_devices b d) d). split; [|done]. cbn [replicate]. rewrite H1.
      rewrite (run_read _ d d m m got split RMissed RIdle None); [done|done|]. cbn [reader_step]. by rewrite Hf.
Qed.

Lemma the_terminal (d : Devices W) (b : Board H W) : board_ok d b → for_each_device (bd_registry b) TERMINAL = [mk_ud slot u].
Proof.
  intros Hok. unfold for_each_device. pose proof (rw_kind _ (bk_registry _ _ Hok) TERMINAL) as Hk. rewrite (bk_driver _ _ Hok) in Hk. cbn in Hk.
  fold (live (BUCKETS (bd_registry b) TERMINAL)). apply Permutation_singleton_r in Hk. by rewrite Hk.
Qed.

Lemma terminal_spec (buf : list Z) (d : Devices W) (b : Board H W) : board_ok d b → ∃ x', terminal_write buf b = Done (with_devices b (with_bus d x'))
  ∧ v_sent V x' = v_sent V (dv_bus d) ++ buf ∧ stream V x' = stream V (dv_bus d) ∧ v_service V x' = v_service V (dv_bus d) ∧ v_ready V x'.
Proof.
  intros Hok. unfold terminal_write. rewrite (bk_devices _ _ Hok). cbn [mbind exec_bind]. rewrite (the_terminal d b Hok). cbn [ud_port].
  destruct (write_buffer_spec V _ _ (ns_serial V w spin u Hns) buf (dv_bus d) (bk_ready _ _ Hok)) as (x'&Hx&Hrest). exists x'.
  change (ns_write_byte w spin u) with (λ b x, x ← ns_putc w spin u b x; Done (inr () : DriverErr + unit, x)). rewrite Hx. by cbn [mbind exec_bind].
Qed.

Lemma step_inv (total sent : list Z) (d : Devices W) (c : console) (op : console_op) : length total < spin → console_inv total sent d c →
  ∃ d' c', console_step c op = Done c' ∧ console_inv total (sent ++ written [op]) d' c'.
Proof.
  intros Ht Hi. pose proof (inv_stream total sent d c Ht Hi) as Hlt. destruct Hi as [Hok Hord Hmi Hsent Hsv]. destruct op as [| |buf]; cbn [console_step].
  - destruct (external_spec d (cn_board c) Hok Hlt) as (b'&d'&p&->&Hok'&Hm&_). cbn [mbind exec_bind]. eexists d', _. split; [done|].
    destruct (moved_order (cn_got c) p d d' Hm) as [Hsub Hex]. split; cbn [cn_board cn_got cn_reader cn_split]; [done| | | |].
    + apply in_order_split. by eapply in_order_dropped.
    + intros -> [_ Hn]%orb_false_iff. done.
    + rewrite (t_sent _ _ _ _ (mv_bus _ _ _ Hm)). cbn. by rewrite app_nil_r.
    + by rewrite (t_service _ _ _ _ (mv_bus _ _ _ Hm)).
  - rewrite (bk_devices _ _ Hok). cbn [mbind exec_bind]. destruct (reader_step_spec (cn_reader c) d (cn_board c) (cn_mach c) Hok) as (r'&o&d'&m'&->&Hp).
    cbn [mbind exec_bind]. destruct Hp as [Hwf' Ha' Hp' Hkept Horder Hmiss Hs' Hv' Hr']. eexists d', _. split; [done|]. fold (got_of o).
    split; cbn [cn_board cn_got cn_reader cn_split]; [destruct Hok; split; try done; by rewrite ?Ha', ?Hp'| |by intros Hr _; apply Hmiss| |congruence].
    + rewrite <- app_assoc. eapply in_order_permuted; [exact Hord|by rewrite Hkept|]. intros Hn. f_equal. apply Horder. intros Hr. by apply Hmi.
    + rewrite Hs', Hsent. cbn. by rewrite app_nil_r.
  - destruct (terminal_spec buf d (cn_board c) Hok) as (x'&->&Hs'&Hst'&Hv'&Hr'). cbn [mbind exec_bind]. eexists (with_bus d x'), _. split; [done|].
    split; cbn [cn_board cn_got cn_reader cn_split with_bus UART_RX_BUF dv_bus]; [by destruct Hok|by rewrite Hst'|done| |by rewrite Hv'].
    rewrite Hs', Hsent. cbn. by rewrite app_nil_r.
Qed.

Lemma run_inv (total : list Z) (ops : list console_op) : length total < spin → ∀ sent d c, console_inv total sent d c →
  ∃ d' c', run_console c ops = Done c' ∧ console_inv total (sent ++ written ops) d' c'.
Proof.
  intros Ht. induction ops as [|op ops IH]; intros sent d c Hi; cbn [run_console]; [exists d, c; by rewrite app_nil_r|].
  destruct (step_inv total sent d c op Ht Hi) as (d1&c1&->&Hi1). cbn [mbind exec_bind]. destruct (IH _ d1 c1 Hi1) as (d'&c'&->&Hi').
  exists d', c'. split; [done|]. rewrite <- app_assoc in Hi'. cbn [written mbind list_bind] in Hi'. by rewrite app_nil_r in Hi'.
Qed.

(** C33. Whatever order interrupts, writes and the pieces of reads come in, the
    console of the board neither hangs nor panics, and no byte is made up or
    read twice: the bytes read, those queued and those the port still has are
    among those of the wire, and all of them when they fit the ring.  They are
    in the order of the wire as long as no interrupt comes between the piece of
    a read that finds the ring empty and the one that masks interrupts and
    polls the port (there the code lets a byte overtake the queued ones).
    What is written is sent in its order; every interrupt that is claimed is
    completed.  A read that is not interrupted comes back empty only when no
    byte was received, and an interrupt of the port moves every byte received
    into the ring, as far as it has room. *)
Theorem console_in_order (ops : list console_op) (d : Devices W) (b : Board H W) (m : machine) : board_ok d b → v_service V (dv_bus d) = [] →
  let total := rx_bytes (UART_RX_BUF d) ++ stream V (dv_bus d) in
  length total < spin →
  ∃ d' c', run_console (mk_console b m [] RIdle false) ops = Done c' ∧ bd_devices (cn_board c') = Done d'
  ∧ (let all := cn_got c' ++ rx_bytes (UART_RX_BUF d') ++ stream V (dv_bus d') in
     all ⊆+ total ∧ (length total ≤ 127 → all ≡ₚ total)
     ∧ (cn_split c' = false → all `sublist_of` total ∧ (length total ≤ 127 → all = total)))
  ∧ v_sent V (dv_bus d') = v_sent V (dv_bus d) ++ written ops ∧ v_service V (dv_bus d') = []
  ∧ (∀ d'' m', pop_byte w d' (cn_mach c') = Done (None, d'', m') → rx_bytes (UART_RX_BUF d') = [] ∧ v_fifo V (dv_bus d') = [])
  ∧ ((bus_read 4 (claim_addr (bd_plic (cn_board c'))) (dv_bus d')).1 = ns_irq_num u →
       ∃ c'' d'' more, console_step c' CIrq = Done c'' ∧ bd_devices (cn_board c'') = Done d''
       ∧ rx_bytes (UART_RX_BUF d'') = take 127 (rx_bytes (UART_RX_BUF d') ++ v_fifo V (dv_bus d') ++ more)).
Proof.
  intros Hok Hsv total Ht.
  destruct (run_inv total ops Ht (v_sent V (dv_bus d)) d (mk_console b m [] RIdle false)) as (d'&c'&Hrun&Hi); [split; [done|by apply in_order_start|done|done|done]|].
  pose proof (inv_stream _ _ _ _ Ht Hi) as Hlt. destruct Hi as [Hok' [Hsub Hperm Hord Hex] _ Hs Hv]. exists d', c'. split; [done|]. split; [apply Hok'|].
  split; [split; [done|split; [done|by auto]]|]. split; [done|]. split; [done|]. split.
  - intros d'' m' Hpop. destruct (pop_byte_spec d' (cn_board c') (cn_mach c') Hok') as (o&d1&m1&Heq&_&_&_&Ho&_). rewrite Hpop in Heq.
    injection Heq as <- _ _. by destruct Ho as (?&?&_).
  - intros Hirq. cbn [console_step]. destruct (external_spec d' (cn_board c') Hok' Hlt) as (b2&d2&p&->&Hok2&Hm&_&Hp). cbn [mbind exec_bind].
    destruct (Hp Hirq) as (more&->). eexists _, d2, more. split; [done|]. split; [apply Hok2|]. by rewrite (mv_ring _ _ _ Hm).
Qed.
End board.

(** ** A board to try it on

    A port at [0x10000000] with interrupt 10 and a PLIC at [0xc000000], run in
    supervisor mode.  Each access lets the next batch of bytes arrive; the
    transmitter stays busy for two looks at its status. *)

Record DemoBus : Type := mk_demo { db_fifo : list Z; db_batches : list (list Z); db_sent : list Z; db_busy : nat; db_service : list Z }.
Definition arrive (x : DemoBus) : DemoBus :=
  mk_demo (db_fifo x ++ default [] (head (db_batches x))) (tail (db_batches x)) (db_sent x) (db_busy x) (db_service x).

Definition demo_claim : Z := 0x0c201004.
#[local] Instance demo_bus : Bus DemoBus := {
  bus_read _ a x :=
    if (a =? 0x10000005)%Z then
      (((if bool_decide (db_fifo x = []) then 0 else 1) + (if (db_busy x =? 0)%nat then 32 else 0))%Z,
       arrive (mk_demo (db_fifo x) (db_batches x) (db_sent x) (pred (Nat.min (db_busy x) 2)) (db_service x)))
    else if (a =? 0x10000000)%Z then
      (default 0%Z (head (db_fifo x)), arrive (mk_demo (tail (db_fifo x)) (db_batches x) (db_sent x) (db_busy x) (db_service x)))
    else if (a =? demo_claim)%Z && negb (bool_decide (db_fifo x = [])) && negb (bool_decide (10%Z ∈ db_service x)) then
      (10%Z, arrive (mk_demo (db_fifo x) (db_batches x) (db_sent x) (db_busy x) (10%Z :: db_service x)))
    else (0%Z, arrive x);
  bus_write _ a v x :=
    if (a =? 0x10000000)%Z then arrive (mk_demo (db_fifo x) (db_batches x) (db_sent x ++ [v]) 2 (db_service x))
    else if (a =? demo_claim)%Z then arrive (mk_demo (db_fifo x) (db_batches x) (db_sent x) (db_busy x) (filter (λ i, i ≠ v) (db_service x)))
    else arrive x;
}.

Definition demo_view : View DemoBus :=
  mk_view (λ x, wrap 8 <$> db_fifo x) (λ x, wrap 8 <$> concat (db_batches x)) db_sent (λ x, Nat.min (db_busy x) 2) db_service (λ _, True).

Definition demo_port : Ns16550a := ns_new 0x10000000 10.

Lemma arrive_view (x : DemoBus) : ∃ new, v_fifo demo_view (arrive x) = v_fifo demo_view x ++ new ∧ v_line demo_view x = new ++ v_line demo_view (arrive x).
Proof.
  destruct x as [f bs s n sv]. exists (wrap 8 <$> default [] (head bs)). cbn. rewrite fmap_app. split; [done|].
  destruct bs as [|b bs]; cbn; [done|]. by rewrite fmap_app.
Qed.

Lemma demo_port_laws (spin : nat) : 2 < spin → ns_device demo_view 64 spin demo_port.
Proof.
  intros Hspin. split.
  - unfold ns_fits. vm_compute. intuition discriminate.
  - intros x. cbn. lia.
  - intros [f bs s n sv] _. change (ns_addr demo_port LSR) with 0x10000005%Z. cbn [bus_read demo_bus Z.eqb Pos.eqb]. split; [|split].
    + split; try done. apply (arrive_view (mk_demo f bs s (pred (Nat.min n 2)) sv)).
    + cbn [db_fifo db_busy]. change (v_fifo demo_view _) with (wrap 8 <$> f). destruct f, n; reflexivity.
    + cbn [db_fifo db_busy]. destruct f, n as [|n]; match goal with |- if ?c then _ else _ => let v := eval vm_compute in c in change c with v end;
        cbn [v_busy demo_view db_busy arrive]; lia.
  - intros [f bs s n sv] b rest _ Hf. change (ns_addr demo_port RBR) with 0x10000000%Z. cbn [bus_read demo_bus Z.eqb Pos.eqb].
    cbn in Hf. destruct f as [|c f]; [done|]. injection Hf as <- <-. cbn [db_fifo head tail default from_option id]. split; [done|].
    destruct (arrive_view (mk_demo f bs s n sv)) as (new&Ha&Hl). split; try done. exists new. split; [exact Hl|].
    change (wrap 8 c :: (v_fifo demo_view (mk_demo f bs s n sv) ++ new) = wrap 8 c :: v_fifo demo_view (arrive (mk_demo f bs s n sv))). by rewrite Ha.
  - intros b [f bs s n sv] _ _. change (ns_addr demo_port THR) with 0x10000000%Z. cbn [bus_write demo_bus Z.eqb Pos.eqb].
    split; [done|]. split; [done|]. split; [done|]. apply (arrive_view (mk_demo f bs (s ++ [b]) 2 sv)).
Qed.

Definition demo_plic : PlicCfg := mk_plic 0x0c000000 31.

Lemma demo_plic_laws : plic_device demo_view 64 SMode demo_plic.
Proof.
  split.
  - vm_compute. intuition discriminate.
  - intros [f bs s n sv]. change (PLIC_BASE demo_plic + CLAIM_OFFSET + context_id SMode * 0x1000)%Z with demo_claim. cbn [bus_read demo_bus Z.eqb Pos.eqb demo_claim].
    cbn [db_fifo db_service]. destruct (_ && _) eqn:E.
    + apply andb_prop in E as [_ Hn%negb_true_iff%bool_decide_eq_false]. split; [done|]. cbn [Z.eqb]. split; [apply (arrive_view (mk_demo f bs s n (10%Z :: sv)))|].
      split; [done|]. split; [done|]. split; [exact Hn|done].
    + split; [done|]. cbn [Z.eqb]. split; try done. apply arrive_view.
  - intros v [f bs s n sv]. change (PLIC_BASE demo_plic + CLAIM_OFFSET + context_id SMode * 0x1000)%Z with demo_claim. cbn [bus_write demo_bus Z.eqb Pos.eqb demo_claim].
    split; [apply (arrive_view (mk_demo f bs s n (filter (λ i, i ≠ v) sv)))|done].
Qed.

Definition demo_driver_of_port : UartDriver := mk_ud 0 demo_port.
Definition demo_boards_registry : Registry UartDriver UartFactory :=
  (@register_driver UartDriver (exec (Devices DemoBus)) UartFactory _ (uart_driver 64 100) registry_boot demo_driver_of_port).2.

(** [f] has been received, the batches [bs] arrive later. *)
Definition demo_devices (f : list Z) (bs : list (list Z)) : Devices DemoBus :=
  mk_devs (mk_demo f bs [] 0 []) rx_new (Some demo_port) (Some Ns16550aConsole) (Some ActiveUartGetc) (pool_new MAX_NS16550A).
Definition demo_board (d : Devices DemoBus) : Board unit DemoBus :=
  mk_board demo_plic (mk_clic 0 0) 0 (irq_init 16 irqs_boot) demo_boards_registry (Done d) true false true false.

Lemma console_board_ok (f : list Z) (bs : list (list Z)) : board_ok demo_view 64 SMode 100 demo_port 0 (demo_devices f bs) (demo_board (demo_devices f bs)).
Proof.
  split; try done.
  - apply demo_plic_laws.
  - split; vm_compute; [done|repeat constructor].
  - destruct (register_driver_spec (W := exec (Devices DemoBus)) (F := UartFactory) (AnyDriver0 := uart_driver 64 100) registry_boot demo_driver_of_port (boot_reg_wf (AnyDriver0 := uart_driver 64 100)))
      as (res&r'&Heq&Hwf&_). unfold demo_board, demo_boards_registry. cbn [bd_registry]. by rewrite Heq.
  - split; [done|]. vm_compute. repeat constructor.
  - exact (ri_ring _ rx_boot_inv).
Qed.

(** Two bytes come by the interrupt, a third by the poll of the last read. *)
Definition demo_ops : list console_op := [CIrq; CRead; CWrite [79; 75]%Z; CRead; CRead; CRead].
Definition demo_start : Devices DemoBus := demo_devices [104]%Z [[]; [105]; []; []; []; []; [33]]%Z.
Definition demo_run_of (d : Devices DemoBus) (ops : list console_op) : exec (console (H := unit)) :=
  run_console (H0 := single_cpu) 64 SMode 100 (λ _ d, d) (mk_console (demo_board d) (machine_boot (H := single_cpu)) [] RIdle false) ops.
Definition demo_run : exec (console (H := unit)) := demo_run_of demo_start demo_ops.

Lemma demo_unsplit (c : console) : demo_run = Done c → cn_split c = false.
Proof.
  assert (Hn : match demo_run with Done c => cn_split c | Stuck => true end = false) by (vm_compute; reflexivity).
  intros Hc. rewrite Hc in Hn. exact Hn.
Qed.

Lemma console_in_order_witness : ∃ d' c', demo_run = Done c' ∧ bd_devices (cn_board c') = Done d'
  ∧ cn_got c' ++ rx_bytes (UART_RX_BUF d') ++ stream demo_view (dv_bus d') = [104; 105; 33]%Z ∧ v_sent demo_view (dv_bus d') = [79; 75]%Z.
Proof.
  destruct (console_in_order (H0 := single_cpu) demo_view 64 SMode 100 (λ (_ : unit) d, d) demo_port 0 (demo_port_laws 100 ltac:(lia))
    ltac:(intros h d; exists (dv_bus d); split; [by destruct d|reflexivity]) demo_ops demo_start (demo_board demo_start) (machine_boot (H := single_cpu)) (console_board_ok _ _))
    as (d'&c'&Hrun&Hd&(_&_&Hex)&Hs&_); [done|vm_compute; lia|].
  exists d', c'. split; [exact Hrun|]. split; [exact Hd|]. split; [|exact Hs]. apply Hex; [|vm_compute; lia].
  exact (demo_unsplit c' Hrun).
Defined.

(** Every byte was read, in the order of the wire. *)
Example demo_got : match demo_run with Done c => cn_got c | Stuck => [] end = [104; 105; 33]%Z.
Proof. vm_compute. reflexivity. Qed.

(** A task that found the ring empty, and is interrupted before it masks
    interrupts and polls the port, takes the byte that arrived last, while the
    earlier one waits in the ring for the next read. *)
Example pop_byte_overtakes :
  match demo_run_of (demo_devices [65]%Z [[]; []; []; []; [66]]%Z) [CRead; CIrq; CRead; CRead] with
  | Done c => cn_got c = [66; 65]%Z ∧ cn_split c = true
  | Stuck => False
  end.
Proof. vm_compute. intuition reflexivity. Qed.
