(* ===== verification/IrqchipProps.v ===== *)
(** * Interrupt controllers, timers and harts: what the platform sets up *)

From S2P Require Export Prelude.
From S2P Require Export Irqchip.
From S2P Require Export Board.
From S2P Require Export DriverProps.

(** ** Reading the time in halves *)

Section time.
Context {W : Type} `{!Bus W} `{!Firmware W} (now : W → Z) (step : Z).

(** The counter only runs forward, at most [step] ticks per instruction. *)
Record clock_laws : Prop := {
  ck_step : (0 <= step ∧ 6 * step < 2 ^ 32)%Z;
  ck_range : ∀ x, (0 <= now x)%Z;
  ck_lo : ∀ x, let '(v, x') := rdtime x in v = (now x `mod` 2 ^ 32)%Z ∧ (now x <= now x' <= now x + step)%Z;
  ck_hi : ∀ x, let '(v, x') := rdtimeh x in v = (now x / 2 ^ 32)%Z ∧ (now x <= now x' <= now x + step)%Z;
}.

Lemma halves_lor (t : Z) : (0 <= t)%Z → Z.lor (Z.shiftl (t / 2 ^ 32) 32) (t `mod` 2 ^ 32) = t.
Proof.
  intros Ht. rewrite <- Z.shiftr_div_pow2, <- Z.land_ones by lia. apply Z.bits_inj'. intros i Hi. rewrite Z.lor_spec, Z.land_spec.
  destruct (decide (i < 32)%Z).
  - rewrite Z.shiftl_spec_low, Z.ones_spec_low by lia. by rewrite andb_true_r.
  - rewrite Z.shiftl_spec, Z.shiftr_spec, Z.ones_spec_high by lia. replace (i - 32 + 32)%Z with i by lia. by rewrite andb_false_r, orb_false_r.
Qed.

(** One attempt gives the time of the read of the lower half, or the upper half
    has changed, and then the next attempt is just past the change. *)
Lemma attempt (x : W) : clock_laws →
  let '(hi0, x1) := rdtimeh x in let '(lo, x2) := rdtime x1 in let '(hi1, x3) := rdtimeh x2 in
  (now x <= now x1 ∧ now x1 <= now x3 <= now x + 3 * step)%Z
  ∧ if (hi0 =? hi1)%Z then Z.lor (Z.shiftl hi0 32) lo = now x1 else (now x3 `mod` 2 ^ 32 <= 3 * step)%Z.
Proof.
  intros Hc. pose proof (ck_hi Hc x) as H0. destruct (rdtimeh x) as [hi0 x1]. pose proof (ck_lo Hc x1) as H1. destruct (rdtime x1) as [lo x2].
  pose proof (ck_hi Hc x2) as H2. destruct (rdtimeh x2) as [hi1 x3]. destruct H0 as [-> H0], H1 as [-> H1], H2 as [-> H2].
  destruct (ck_step Hc) as [Hs0 Hs]. split; [lia|]. pose proof (ck_range Hc x). change (2 ^ 32)%Z with 4294967296%Z in *. destruct (Z.eqb_spec (now x / 4294967296) (now x2 / 4294967296)) as [Heq|Hne].
  - assert (Hx1 : (now x / 4294967296 = now x1 / 4294967296)%Z) by (Z.div_mod_to_equations; lia). rewrite Hx1. apply (halves_lor (now x1)). lia.
  - Z.div_mod_to_equations; lia.
Qed.
End time.

(** ** Setting up the PLIC *)

Section plic.
Context {W : Type} `{!Bus W} (w : Z) (mode : Mode) (word : W → Z → Z).

(** The registers for priorities, thresholds and enables are words that keep what is written. *)
Definition word_laws : Prop := ∀ a x, bus_read 4 a x = (word x a, x) ∧ ∀ v a', word (bus_write 4 a v x) a' = if (a' =? a)%Z then v else word x a'.

Context (Hw : word_laws) (base : Z).
Definition enable_addr (irq : Z) : Z := (base + ENABLE_OFFSET + context_id mode * 0x80 + irq / 32 * 4)%Z.
Definition irq_enabled (x : W) (irq : Z) : bool := Z.testbit (word x (enable_addr irq)) (irq mod 32).
Definition priority_of (x : W) (irq : Z) : Z := word x (base + PRIORITY_OFFSET + irq * 4)%Z.
Definition threshold (x : W) : Z := word x (base + THRESHOLD_OFFSET + context_id mode * 0x1000)%Z.

Lemma add_all3 (a b c : Z) : (0 <= a)%Z → (0 <= b)%Z → (0 <= c)%Z → (a + b + c < 2 ^ w)%Z → add_all w a [b; c] = Done (a + b + c)%Z.
Proof. intros. cbn [add_all]. rewrite add_w_Done by lia. cbn [mbind exec_bind]. by rewrite add_w_Done by lia. Qed.

Lemma add_all4 (a b c d : Z) : (0 <= a)%Z → (0 <= b)%Z → (0 <= c)%Z → (0 <= d)%Z → (a + b + c + d < 2 ^ w)%Z → add_all w a [b; c; d] = Done (a + b + c + d)%Z.
Proof.
  intros. cbn [add_all]. rewrite add_w_Done by lia. cbn [mbind exec_bind]. rewrite add_w_Done by lia. cbn [mbind exec_bind]. by rewrite add_w_Done by lia.
Qed.

(** Enabling one source. *)
Lemma enable_spec (x : W) (irq : Z) : (0 < base)%Z → (base + 0x400000 < 2 ^ w)%Z → (0 < irq < 1024)%Z →
  ∃ x', plic_enable_irq w base (context_id mode) irq 1 x = Done x' ∧ threshold x' = threshold x
  ∧ ∀ i, (0 < i < 1024)%Z → irq_enabled x' i = irq_enabled x i || bool_decide (i = irq) ∧ priority_of x' i = if (i =? irq)%Z then 1%Z else priority_of x i.
Proof.
  intros Hb Hend Hi. unfold plic_enable_irq, base_valid. rewrite (proj2 (Z.eqb_neq base 0)), (proj2 (Z.eqb_neq irq 0)) by lia. cbn [negb orb].
  assert (Hctx : (0 <= context_id mode <= 1)%Z) by (destruct mode; cbn; lia). unfold PRIORITY_OFFSET, ENABLE_OFFSET, THRESHOLD_OFFSET in *.
  rewrite add_all3 by lia. cbn [mbind exec_bind]. rewrite add_all4 by (Z.div_mod_to_equations; lia). cbn [mbind exec_bind].
  set (pa := (base + 0x0 + irq * 4)%Z). set (ea := (base + 0x2000 + context_id mode * 0x80 + irq / 32 * 4)%Z). set (x1 := bus_write 4 pa 1 x).
  rewrite (proj1 (Hw ea x1)). eexists. split; [done|]. set (v := Z.lor _ _).
  assert (Hword : ∀ a, word (bus_write 4 ea v x1) a = if (a =? ea)%Z then v else if (a =? pa)%Z then 1%Z else word x a).
  { intros a. rewrite (proj2 (Hw ea x1)). case_bool; [done|]. unfold x1. by rewrite (proj2 (Hw pa x)). }
  assert (Hne : ea ≠ pa) by (unfold ea, pa; Z.div_mod_to_equations; lia).
  assert (Hv : v = Z.lor (word x ea) (Z.shiftl 1 (irq mod 32))).
  { unfold v, x1. rewrite (proj2 (Hw pa x)). by rewrite (proj2 (Z.eqb_neq ea pa) Hne). }
  split.
  { unfold threshold, THRESHOLD_OFFSET. rewrite Hword. rewrite !(proj2 (Z.eqb_neq _ _)); [done|unfold pa; lia|unfold ea; Z.div_mod_to_equations; lia]. }
  intros i Hi'. split.
  - unfold irq_enabled. assert (Ha : enable_addr i = ea ↔ (i / 32 = irq / 32)%Z) by (unfold enable_addr, ea, ENABLE_OFFSET; lia).
    rewrite Hword. destruct (Z.eqb_spec (enable_addr i) ea) as [E|E].
    + rewrite Hv, testbit_set by (Z.div_mod_to_equations; lia). rewrite E. f_equal. apply bool_decide_ext. apply Ha in E. Z.div_mod_to_equations; lia.
    + rewrite (proj2 (Z.eqb_neq (enable_addr i) pa)) by (unfold enable_addr, ENABLE_OFFSET, pa; Z.div_mod_to_equations; lia).
      rewrite bool_decide_false, orb_false_r; [done|]. intros ->. by apply E, Ha.
  - unfold priority_of, PRIORITY_OFFSET. rewrite Hword. rewrite (proj2 (Z.eqb_neq _ ea)) by (unfold ea; Z.div_mod_to_equations; lia).
    unfold pa. repeat case_bool; try done; lia.
Qed.

Lemma for_irqs_spec (n : nat) : (0 < base)%Z → (base + 0x400000 < 2 ^ w)%Z → ∀ first x, (0 < first)%Z → (first + Z.of_nat n <= 1024)%Z →
  ∃ x', for_irqs (λ irq, plic_enable_irq w base (context_id mode) irq 1) n first x = Done x' ∧ threshold x' = threshold x
  ∧ ∀ i, (0 < i < 1024)%Z → irq_enabled x' i = irq_enabled x i || bool_decide (first <= i < first + Z.of_nat n)%Z
    ∧ priority_of x' i = if bool_decide (first <= i < first + Z.of_nat n)%Z then 1%Z else priority_of x i.
Proof.
  intros Hb Hend. induction n as [|n IH]; intros first x Hf Hn; cbn [for_irqs].
  - exists x. split; [done|]. split; [done|]. intros i Hi. rewrite bool_decide_false by lia. by rewrite orb_false_r.
  - destruct (enable_spec x first Hb Hend ltac:(lia)) as (x1&->&Ht1&H1). cbn [mbind exec_bind].
    destruct (IH (first + 1)%Z x1 ltac:(lia) ltac:(lia)) as (x'&->&Ht'&H'). exists x'. split; [done|]. split; [by rewrite Ht'|]. intros i Hi.
    destruct (H1 i Hi) as [He1 Hp1], (H' i Hi) as [He' Hp']. rewrite He', Hp', He1, Hp1. repeat case_bool_decide; try lia; rewrite ?orb_true_r, ?orb_false_r; split; try done.
    all: destruct (Z.eqb_spec i first); done || lia.
Qed.
End plic.

(** ** The masks of the harts *)

(** The harts marked so far; [true] for a parked one. *)
Definition mark_all (w : Z) (marks : list (Z * bool)) (h : Harts) : Harts := foldl (λ h '(hartid, parked), mark_hart_online w hartid parked h) h marks.
Definition last_mark (marks : list (Z * bool)) (i : Z) : option bool := snd <$> last (filter (λ m, m.1 = i) marks).

Lemma mark_bits (w : Z) (marks : list (Z * bool)) : (0 < w)%Z → Forall (λ m, (0 <= m.1)%Z) marks → ∀ i, (0 <= i < w)%Z →
  Z.testbit (ONLINE_HART_MASK (mark_all w marks harts_boot)) i = bool_decide (is_Some (last_mark marks i))
  ∧ Z.testbit (PARKED_HART_MASK (mark_all w marks harts_boot)) i = bool_decide (last_mark marks i = Some true).
Proof.
  intros Hw. induction marks as [|[j p] marks IH] using rev_ind; intros Hall i Hi.
  { split; by rewrite Z.testbit_0_l. }
  apply Forall_app in Hall as [Hall [Hj _]%Forall_cons]. cbn [fst] in Hj. unfold mark_all. rewrite foldl_snoc. fold (mark_all w marks harts_boot).
  destruct (IH Hall i Hi) as [Ho Hp]. unfold mark_hart_online, hart_bit.
  assert (Hlast : last_mark (marks ++ [(j, p)]) i = if decide (i = j) then Some p else last_mark marks i).
  { unfold last_mark. rewrite filter_app, filter_cons, filter_nil. cbn [fst]. destruct (decide (j = i)) as [->|]; [rewrite decide_True by done|rewrite decide_False by done].
    - by rewrite last_snoc.
    - by rewrite app_nil_r. }
  rewrite Hlast. destruct (Z.ltb_spec j w); cbn [ONLINE_HART_MASK PARKED_HART_MASK]; [|by rewrite decide_False by lia].
  rewrite testbit_set, Ho by done. split.
  - destruct (decide (i = j)) as [->|]; [by rewrite (bool_decide_true (j = j)), orb_true_r, (bool_decide_true (is_Some (Some p))) by eauto|].
    by rewrite (bool_decide_false (i = j)), orb_false_r by done.
  - destruct p; [rewrite testbit_set, Hp by lia|rewrite testbit_clear, Hp by lia]; destruct (decide (i = j)) as [->|Hne].
    + by rewrite (bool_decide_true (j = j)), orb_true_r, bool_decide_true by done.
    + by rewrite (bool_decide_false (i = j)), orb_false_r by done.
    + rewrite (bool_decide_true (j = j)) by done. cbn [negb]. by rewrite andb_false_r, bool_decide_false by done.
    + rewrite (bool_decide_false (i = j)) by done. by rewrite andb_true_r.
Qed.

Lemma filter_split_count (P Q R : nat → bool) (l : list nat) : (∀ i, i ∈ l → P i = xorb (Q i) (R i) ∧ Q i && R i = false) →
  length (filter (λ i, P i = true) l) = length (filter (λ i, Q i = true) l) + length (filter (λ i, R i = true) l).
Proof.
  induction l as [|i l IH]; intros H; [done|]. rewrite !filter_cons. pose proof (H i ltac:(by left)) as [HP HQR].
  specialize (IH ltac:(intros j Hj; apply H; by right)). rewrite HP. destruct (Q i), (R i); try done; repeat case_decide; try done; cbn [length]; lia.
Qed.

(** ** Properties *)

(** A 32-bit core reads the time in at most two attempts, and gets a time
    between the call and the return, although the two halves are read one
    after the other; the next tick is set to that time and a period more. *)
Theorem read_time_consistent {W : Type} `{!Bus W} `{!Firmware W} (now : W → Z) (step : Z) (attempts : nat) (clint cpu_freq_hz systick_hz : Z) (x : W) :
  clock_laws now step → 2 ≤ attempts → systick_hz ≠ 0%Z →
  ∃ t x', read_time 32 attempts x = Done (t, x') ∧ (now x <= t <= now x')%Z
  ∧ set_next_tick 32 SMode attempts clint cpu_freq_hz systick_hz x = Done (set_sbi_timer (wrapping_add 64 t (cpu_freq_hz / systick_hz)) x').
Proof.
  intros Hc Ha Hhz.
  assert (Hr : ∃ t x', read_time 32 attempts x = Done (t, x') ∧ (now x <= t <= now x')%Z).
  { unfold read_time. change (32 =? 64)%Z with false. cbv iota. destruct attempts as [|[|attempts]]; [lia|lia|]. cbn [read_halves].
    pose proof (attempt now step x Hc) as H1. destruct (rdtimeh x) as [hi0 x1], (rdtime x1) as [lo x2], (rdtimeh x2) as [hi1 x3]. destruct H1 as [Hb H1].
    destruct (hi0 =? hi1)%Z; [exists (now x1), x3; rewrite H1; split; [done|lia]|].
    pose proof (attempt now step x3 Hc) as H2. destruct (rdtimeh x3) as [hi2 x4] eqn:E4. destruct (rdtime x4) as [lo' x5] eqn:E5. destruct (rdtimeh x5) as [hi3 x6] eqn:E6.
    destruct H2 as [Hb2 H2]. destruct (hi2 =? hi3)%Z eqn:E; [exists (now x4), x6; rewrite H2; split; [done|lia]|]. exfalso.
    pose proof (ck_hi now step Hc x3) as L1. rewrite E4 in L1. pose proof (ck_lo now step Hc x4) as L2. rewrite E5 in L2.
    pose proof (ck_hi now step Hc x5) as L3. rewrite E6 in L3. destruct L1 as [-> L1], L2 as [_ L2], L3 as [-> L3]. apply Z.eqb_neq in E. apply E.
    destruct (ck_step now step Hc). pose proof (ck_range now step Hc x3). change (2 ^ 32)%Z with 4294967296%Z in *. Z.div_mod_to_equations; lia. }
  destruct Hr as (t&x'&Hr&Ht). exists t, x'. split; [done|]. split; [done|]. unfold set_next_tick. rewrite (proj2 (Z.eqb_neq systick_hz 0) Hhz), Hr. done.
Qed.

(** The PLIC is set up to deliver exactly the sources that the device tree
    counts, each with priority 1 and none below the threshold, besides what was
    enabled before; and the interrupt table, whose size the platform derives
    from the same tree, has an entry for a source unless its number reaches
    the size the kernel was built with. *)
Theorem plic_sources_have_entries {H W : Type} `{!Bus W} (w : Z) (mode : Mode) (word : W → Z → Z) (info : RiscvDtbInfo) (m : IrqModule H) (x : W) :
  word_laws word → (0 < plic_base info)%Z → (plic_base info mod PLIC_BASE_ALIGN = 0)%Z → (plic_base info + 0x400000 < 2 ^ w)%Z →
  (0 <= plic_irq_sources info < 1024)%Z → (0 <= clic_irq_sources info)%Z →
  let base := plic_base info in
  let m' := irq_init (Z.to_nat (info_external_irq_count info)) m in
  ∃ x', plic_init w mode (plic_configure base (plic_irq_sources info)) x = Done x' ∧ threshold mode word base x' = 0%Z
  ∧ ∀ i, (0 < i < 1024)%Z →
    irq_enabled mode word base x' i = irq_enabled mode word base x i || bool_decide (i <= plic_irq_sources info)%Z
    ∧ ((i <= plic_irq_sources info)%Z → priority_of word base x' i = 1%Z ∧ (Z.to_nat i < irq_count (IRQ_STATE m') ↔ Z.to_nat i < MAX_EXTERNAL_IRQS)).
Proof.
  intros Hw Hb Hal Hend Hn Hcl base m'. unfold plic_configure. fold base in Hal. rewrite Hal, (proj2 (Z.eqb_neq base 0)) by (unfold base; lia).
  cbn [negb andb Z.eqb]. unfold plic_init, plic_configured. cbn [PLIC_BASE PLIC_IRQ_COUNT]. rewrite (proj2 (Z.eqb_neq base 0)) by (unfold base; lia). cbn [negb].
  assert (Hctx : (0 <= context_id mode <= 1)%Z) by (destruct mode; cbn; lia).
  unfold plic_init_context, base_valid. rewrite (proj2 (Z.eqb_neq base 0)) by (unfold base; lia). cbn [negb].
  rewrite (add_all3 w base THRESHOLD_OFFSET) by (unfold THRESHOLD_OFFSET, base in *; lia). cbn [mbind exec_bind].
  set (x1 := bus_write 4 _ 0 x). rewrite (Z.min_l (plic_irq_sources info)) by (unfold U32_MAX; lia).
  destruct (for_irqs_spec w mode word Hw base (Z.to_nat (plic_irq_sources info)) Hb Hend 1 x1 ltac:(lia) ltac:(lia)) as (x'&->&Ht'&H'). exists x'. split; [done|]. split.
  { rewrite Ht'. unfold threshold, x1. rewrite (proj2 (Hw _ x)). by rewrite Z.eqb_refl. }
  assert (Hx1 : ∀ i, (0 < i < 1024)%Z → irq_enabled mode word base x1 i = irq_enabled mode word base x i).
  { intros i Hi. unfold irq_enabled, x1. rewrite (proj2 (Hw _ x)). rewrite (proj2 (Z.eqb_neq _ _)); [done|].
    unfold enable_addr, ENABLE_OFFSET, THRESHOLD_OFFSET. Z.div_mod_to_equations; lia. }
  intros i Hi. destruct (H' i Hi) as [He Hp]. split.
  - rewrite He, (Hx1 i Hi). f_equal. apply bool_decide_ext. lia.
  - intros Hle. rewrite Hp, bool_decide_true by lia. split; [done|]. unfold m', irq_init. cbn [IRQ_STATE irq_count]. unfold info_external_irq_count, saturating_add, USIZE_MAX. lia.
Qed.

(** Whatever harts come up, in any order and more than once, the status
    counts each hart once: the hart that booted is active, the others are
    parked, and the numbers of active and of parked harts add up to the number
    of those online. *)
Theorem smp_status_counts (w : Z) (smp : bool) (max : nat) (current boot : Z) (others : list Z) : (0 < w)%Z → (0 <= boot < w)%Z →
  Forall (λ i, 0 <= i)%Z others → boot ∉ others →
  let h := foldl (λ h i, init_secondary_hart w i h) (init_boot_hart w boot harts_boot) others in
  let st := riscv_smp_status w smp max current h in
  online_cpus st = active_cpus st + parked_cpus st
  ∧ ∀ i, (0 <= i < w)%Z → Z.testbit (Board.active_mask st) i = bool_decide (i = boot) ∧ Z.testbit (parked_mask st) i = bool_decide (i ∈ others).
Proof.
  intros Hw Hboot Hoth Hnin h st.
  set (marks := (boot, false) :: ((λ i, (i, true)) <$> others)).
  assert (Hmasks : ONLINE_HART_MASK h = ONLINE_HART_MASK (mark_all w marks harts_boot) ∧ PARKED_HART_MASK h = PARKED_HART_MASK (mark_all w marks harts_boot)).
  { unfold h, marks, mark_all. cbn [foldl]. unfold init_boot_hart, init_secondary_hart.
    assert (Hgen : ∀ l a b, ONLINE_HART_MASK a = ONLINE_HART_MASK b → PARKED_HART_MASK a = PARKED_HART_MASK b →
      let f := foldl (λ h i, mark_hart_online w i true h) a l in let g := foldl (λ h '(hartid, parked), mark_hart_online w hartid parked h) b ((λ i, (i, true)) <$> l) in
      ONLINE_HART_MASK f = ONLINE_HART_MASK g ∧ PARKED_HART_MASK f = PARKED_HART_MASK g).
    { induction l as [|i l IH]; intros a b Ho Hp; [done|]. cbn [foldl fmap list_fmap]. apply IH; unfold mark_hart_online, hart_bit; destruct (_ <? _)%Z; cbn; by rewrite ?Ho, ?Hp. }
    apply Hgen; unfold mark_hart_online, hart_bit; by destruct (_ <? _)%Z. }
  destruct Hmasks as [HO HP].
  assert (Hlast : ∀ i, last_mark marks i = if decide (i = boot) then Some false else if decide (i ∈ others) then Some true else None).
  { intros i. unfold last_mark, marks. rewrite filter_cons. cbn [fst].
    assert (Hsnd : ∀ l, snd <$> last (filter (λ m : Z * bool, m.1 = i) ((λ j, (j, true)) <$> l)) = if decide (i ∈ l) then Some true else None).
    { induction l as [|j l IH] using rev_ind; [by rewrite decide_False by apply not_elem_of_nil|]. rewrite fmap_app, filter_app. cbn [fmap list_fmap]. rewrite filter_cons, filter_nil. cbn [fst].
      destruct (decide (j = i)) as [->|Hne]; [rewrite last_snoc, decide_True by (apply elem_of_app; right; by left); done|].
      rewrite app_nil_r, IH. apply decide_ext. rewrite elem_of_app, list_elem_of_singleton. intuition congruence. }
    destruct (decide (boot = i)) as [->|Hne].
    - rewrite (decide_True (P := i = i)) by done. rewrite last_cons. specialize (Hsnd others). rewrite decide_False in Hsnd by done.
      destruct (last (filter _ _)); [done|]. done.
    - rewrite (decide_False (P := i = boot)) by congruence. apply Hsnd. }
  assert (Hall : Forall (λ m : Z * bool, (0 <= m.1)%Z) marks).
  { unfold marks. constructor; [cbn; lia|]. apply Forall_fmap. eapply Forall_impl; [exact Hoth|]. done. }
  assert (Hact : ∀ i, (0 <= i < w)%Z → Z.testbit (Board.active_mask st) i = bool_decide (i = boot) ∧ Z.testbit (parked_mask st) i = bool_decide (i ∈ others)
    ∧ Z.testbit (online_mask st) i = bool_decide (i = boot) || bool_decide (i ∈ others)).
  { intros i Hi. destruct (mark_bits w marks Hw Hall i Hi) as [Ho Hp]. cbn [st riscv_smp_status Board.active_mask parked_mask online_mask].
    rewrite Z.land_spec, testbit_lnot_w, (bool_decide_true (i < w)%Z), HO, HP, Ho, Hp, Hlast by lia.
    destruct (decide (i = boot)) as [->|]; [|destruct (decide (i ∈ others))]; repeat case_bool_decide; try done; exfalso; eauto. }
  split; [|intros i Hi; by destruct (Hact i Hi) as (?&?&_)].
  cbn [st riscv_smp_status online_cpus active_cpus parked_cpus]. unfold count_ones.
  apply filter_split_count. intros i Hi%elem_of_seq. destruct (Hact (Z.of_nat i) ltac:(lia)) as (Ha&Hp&Ho).
  cbn [st riscv_smp_status Board.active_mask parked_mask online_mask] in Ha, Hp, Ho. rewrite Ha, Hp, Ho. repeat case_bool_decide; try done. by subst.
Qed.

(** ** Witnesses: a clock that ticks at every instruction, words that keep what is written *)

#[local] Instance demo_clock_bus : Bus N := { bus_read _ _ x := (0%Z, x); bus_write _ _ _ x := x }.
#[local] Instance demo_clock : Firmware N := {
  rdtime t := ((Z.of_N t `mod` 2 ^ 32)%Z, (t + 1)%N);
  rdtimeh t := ((Z.of_N t / 2 ^ 32)%Z, (t + 1)%N);
  set_sbi_timer d _ := Z.to_N d;
  enable_timer_interrupts t := t;
  hart_start _ t := (0%Z, t);
}.

Lemma demo_clock_laws : clock_laws Z.of_N 1.
Proof. split; [lia|intros x; lia|intros x; cbn [rdtime demo_clock]; split; [done|lia]|intros x; cbn [rdtimeh demo_clock]; split; [done|lia]]. Qed.

(** The read starts one tick before the lower half wraps around. *)
Lemma read_time_consistent_witness : ∃ t x', read_time 32 2 4294967295%N = Done (t, x') ∧ (4294967295 <= t <= Z.of_N x')%Z.
Proof.
  destruct (read_time_consistent Z.of_N 1 2 0 10000000 1000 4294967295%N demo_clock_laws ltac:(lia) ltac:(lia)) as (t&x'&Hr&Ht&_).
  exists t, x'. split; [exact Hr|exact Ht].
Defined.

#[local] Instance demo_words : Bus (Z → Z) := { bus_read _ a x := (x a, x); bus_write _ a v x := λ a', if (a' =? a)%Z then v else x a' }.

Definition demo_info : RiscvDtbInfo := mk_info 10000000 0x80000000 0x8000000 0x0c000000 31 0 0 0.

Lemma plic_sources_have_entries_witness : ∃ x', plic_init 64 SMode (plic_configure 0x0c000000 31) (λ _, 0%Z) = Done x'
  ∧ irq_enabled SMode (λ x, x) 0x0c000000 x' 10 = true ∧ irq_enabled SMode (λ x, x) 0x0c000000 x' 32 = false.
Proof.
  destruct (plic_sources_have_entries (H := unit) 64 SMode (λ x, x) demo_info irqs_boot (λ _, 0%Z)) as (x'&Hx&_&H);
    [intros a x; split; reflexivity|done|done|done|cbn; lia|cbn; lia|].
  exists x'. split; [exact Hx|]. split; [exact (proj1 (H 10%Z ltac:(lia)))|exact (proj1 (H 32%Z ltac:(lia)))].
Defined.

Lemma smp_status_counts_witness : online_cpus (riscv_smp_status 64 true 4 0 (foldl (λ h i, init_secondary_hart 64 i h) (init_boot_hart 64 0 harts_boot) [2; 1; 2]%Z)) = 3.
Proof.
  pose proof (smp_status_counts 64 true 4 0 0 [2; 1; 2]%Z ltac:(lia) ltac:(lia) ltac:(repeat constructor; lia) ltac:(apply (bool_decide_unpack _); vm_compute; exact I)) as [H _].
  rewrite H. vm_compute. reflexivity.
Defined.
