(* ===== verification/IonSoc.v ===== *)
(** * The simulated board, [platform/ionsoc-verilator/src]

    The board is found in the device tree: [discover_from_fdt] walks it for the
    path of the console, for the devices, and once more for a port when the
    path named none.  The statics of [main.rs], [plic.rs] and [timer.rs] are
    the record [IonSoc]; the port is driven directly before, and when, no
    driver is there.  [w] is the width of an address, [spin] bounds the loops
    that wait for the port. *)

From S2P Require Export Prelude.
From S2P Require Export Text.
From S2P Require Export Uart.
From S2P Require Export Irq.
From S2P Require Export Irqchip.
From S2P Require Export BootMap.
From S2P Require Export FdtWalk.
From S2P Require Export FdtProps.
From S2P Require Export DriverInv.

(** ** The path of the console *)

Definition MAX_STDOUT_PATH : nat := 96.
Record StdoutPath : Type := mk_stdout { sp_bytes : list Z; sp_len : nat }.
Definition stdout_new : StdoutPath := mk_stdout (replicate MAX_STDOUT_PATH 0%Z) 0.

Definition stdout_set (p : StdoutPath) (path : str) : StdoutPath :=
  let len := Nat.min (length path) MAX_STDOUT_PATH in
  mk_stdout (take len path ++ drop len (sp_bytes p)) len.

(** [position(|&b| b == c)] from the right. *)
Definition rposition (c : Z) (l : list Z) : option nat := match find_byte c (reverse l) with Some i => Some (length l - 1 - i) | None => None end.

Definition strip_stdout_options (path : list Z) : list Z := match find_byte 58 path with Some idx => take idx path | None => path end.
Definition last_path_component (path : list Z) : option (list Z) :=
  let start := match rposition 47 path with Some idx => idx + 1 | None => 0 end in
  if length path <=? start then None else Some (drop start path).

Definition stdout_matches (p : StdoutPath) (node_name : str) : bool :=
  if sp_len p =? 0 then false else
  let path := strip_stdout_options (take (sp_len p) (sp_bytes p)) in
  match last_path_component path with Some last => bool_decide (last = node_name) | None => false end.
Definition stdout_configured (p : StdoutPath) : bool := negb (sp_len p =? 0).

(** ** Discovery *)

Record IonSoc : Type := mk_ion {
  ION_CPU_FREQ_HZ : Z;
  ION_MEMORY_BASE : Z;
  ION_MEMORY_SIZE : Z;
  UART0_BASE : Z;
  UART0_IRQ : Z;
  STDOUT_PATH : StdoutPath;
  ION_PLIC_BASE : Z;
  ION_CLINT_BASE : Z;
}.
Definition ion_boot : IonSoc := mk_ion 10000000 0x40100000 (15 * 1024 * 1024) 0 0 stdout_new 0 0.

Definition ion_set_stdout (s : IonSoc) (p : StdoutPath) : IonSoc :=
  mk_ion (ION_CPU_FREQ_HZ s) (ION_MEMORY_BASE s) (ION_MEMORY_SIZE s) (UART0_BASE s) (UART0_IRQ s) p (ION_PLIC_BASE s) (ION_CLINT_BASE s).
Definition ion_set_freq (s : IonSoc) (f : Z) : IonSoc :=
  mk_ion f (ION_MEMORY_BASE s) (ION_MEMORY_SIZE s) (UART0_BASE s) (UART0_IRQ s) (STDOUT_PATH s) (ION_PLIC_BASE s) (ION_CLINT_BASE s).
Definition ion_set_memory (s : IonSoc) (b n : Z) : IonSoc :=
  mk_ion (ION_CPU_FREQ_HZ s) b n (UART0_BASE s) (UART0_IRQ s) (STDOUT_PATH s) (ION_PLIC_BASE s) (ION_CLINT_BASE s).
Definition ion_set_uart (s : IonSoc) (b i : Z) : IonSoc :=
  mk_ion (ION_CPU_FREQ_HZ s) (ION_MEMORY_BASE s) (ION_MEMORY_SIZE s) b i (STDOUT_PATH s) (ION_PLIC_BASE s) (ION_CLINT_BASE s).
Definition ion_set_plic (s : IonSoc) (b : Z) : IonSoc :=
  mk_ion (ION_CPU_FREQ_HZ s) (ION_MEMORY_BASE s) (ION_MEMORY_SIZE s) (UART0_BASE s) (UART0_IRQ s) (STDOUT_PATH s) b (ION_CLINT_BASE s).
Definition ion_set_clint (s : IonSoc) (b : Z) : IonSoc :=
  mk_ion (ION_CPU_FREQ_HZ s) (ION_MEMORY_BASE s) (ION_MEMORY_SIZE s) (UART0_BASE s) (UART0_IRQ s) (STDOUT_PATH s) (ION_PLIC_BASE s) b.

Definition should_select_uart (s : IonSoc) (node : Fdt.FdtNode) : bool :=
  if stdout_configured (STDOUT_PATH s) then stdout_matches (STDOUT_PATH s) (Fdt.name node) else (UART0_BASE s =? 0)%Z.
Definition is_memory_node (node : Fdt.FdtNode) : bool := is_memory node || starts_with (Fdt.name node) (bytes "memory@").
Definition is_uart_node (node : Fdt.FdtNode) : bool := matches_any node ["ns16550a"; "ns16550"; "ns16550a-uart"; "snps,dw-apb-uart"]%string.
Definition is_plic_node (node : Fdt.FdtNode) : bool := matches_any node ["riscv,plic0"; "sifive,plic-1.0.0"; "thead,c900-plic"]%string.
Definition is_clint_node (node : Fdt.FdtNode) : bool := matches_any node ["riscv,clint0"; "sifive,clint0"; "sifive,clint-1.0.0"]%string.

(** The three closures. *)
Definition stdout_callback (s : IonSoc) (node : Fdt.FdtNode) : exec IonSoc :=
  Done (match Fdt.stdout_path node with Some path => ion_set_stdout s (stdout_set (STDOUT_PATH s) path) | None => s end).

Definition device_callback (s : IonSoc) (node : Fdt.FdtNode) : exec IonSoc :=
  let s := match Fdt.f_timebase_frequency node with Some freq => ion_set_freq s freq | None => s end in
  reg ← Fdt.first_reg node;
  match reg with
  | None => Done s
  | Some reg =>
      if is_memory_node node then Done (ion_set_memory s (Fdt.base reg) (Fdt.size reg))
      else if is_uart_node node && should_select_uart s node then
        irq ← Fdt.interrupt_or_zero node; Done (ion_set_uart s (Fdt.base reg) irq)
      else if is_plic_node node then Done (ion_set_plic s (Fdt.base reg))
      else if is_clint_node node then Done (ion_set_clint s (Fdt.base reg))
      else Done s
  end.

Definition fallback_callback (s : IonSoc) (node : Fdt.FdtNode) : exec IonSoc :=
  reg ← Fdt.first_reg node;
  match reg with
  | None => Done s
  | Some reg =>
      if is_uart_node node && (UART0_BASE s =? 0)%Z then irq ← Fdt.interrupt_or_zero node; Done (ion_set_uart s (Fdt.base reg) irq)
      else Done s
  end.

Definition discover_from_fdt (dtb : option (list Z)) (s : IonSoc) : exec IonSoc :=
  match dtb with
  | None => Done s
  | Some mem =>
      s ← Fdt.walk_nodes stdout_callback mem s;
      s ← Fdt.walk_nodes device_callback mem s;
      if (UART0_BASE s =? 0)%Z && stdout_configured (STDOUT_PATH s) then Fdt.walk_nodes fallback_callback mem s else Done s
  end.

Definition ion_config (systick_hz kernel_end : Z) (s : IonSoc) : PlatformConfig :=
  mk_config (ION_CPU_FREQ_HZ s) systick_hz (Z.of_nat OPENION_EXTERNAL_IRQ_COUNT) (ION_MEMORY_BASE s) (ION_MEMORY_SIZE s) kernel_end.

(** ** The port without a driver *)

Section early.
Context {W : Type} `{!Bus W} `{!Firmware W} (w : Z) (mode : Mode) (attempts spin : nat).

Definition early_read (s : IonSoc) (offset : Z) (x : W) : exec (Z * W) :=
  a ← add_w w (UART0_BASE s) offset; let '(v, x) := bus_read 1 a x in Done (wrap 8 v, x).
Definition early_write (s : IonSoc) (offset v : Z) (x : W) : exec W := a ← add_w w (UART0_BASE s) offset; Done (bus_write 1 a v x).

Fixpoint early_wait (fuel : nat) (s : IonSoc) (x : W) : exec W :=
  match fuel with
  | O => Stuck
  | S fuel => '(lsr, x) ← early_read s LSR x; if (Z.land lsr LSR_THRE =? 0)%Z then early_wait fuel s x else Done x
  end.
Definition early_uart_putc (s : IonSoc) (ch : Z) (x : W) : exec W :=
  if (UART0_BASE s =? 0)%Z then Done x else x ← early_wait spin s x; early_write s THR ch x.

Definition early_uart_init (s : IonSoc) (x : W) : exec W :=
  if (UART0_BASE s =? 0)%Z then Done x else
  x ← early_write s IER 0x00 x;
  x ← early_write s LCR 0x80 x;
  x ← early_write s 0 0x03 x;
  x ← early_write s 1 0x00 x;
  x ← early_write s LCR 0x03 x;
  x ← early_write s FCR 0xc7 x;
  early_write s IER 0x01 x.

Definition early_uart_getc (s : IonSoc) (x : W) : exec (option Z * W) :=
  if (UART0_BASE s =? 0)%Z then Done (None, x) else
  '(lsr, x) ← early_read s LSR x;
  if negb (Z.land lsr LSR_DR =? 0)%Z then '(v, x) ← early_read s RBR x; Done (Some v, x) else Done (None, x).

Definition early_uart_irq_pending (s : IonSoc) (x : W) : exec (bool * W) :=
  if (UART0_BASE s =? 0)%Z then Done (false, x) else
  '(iir, x) ← early_read s IIR x; Done ((Z.land iir IIR_NO_INT =? 0)%Z, x).

Definition drain_platform_uart_rx (s : IonSoc) (rx : RxBuffer) (x : W) : exec (bool * RxBuffer * W) :=
  '(n, rx, x) ← drain (early_uart_getc s) spin rx x; Done (negb (n =? 0), rx, x).

(** [plic::claim] and [plic::complete] have the controller check its base. *)
Context {K : Type} (kernel_handle_irq : Z → RxBuffer → W → K → exec (bool * RxBuffer * W * K)).

Definition ion_external_irq_handler (s : IonSoc) (rx : RxBuffer) (x : W) (k : K) : exec (RxBuffer * W * K) :=
  '(irq, x) ← plic_claim w (ION_PLIC_BASE s) (context_id mode) x;
  if (irq =? 0)%Z then Done (rx, x, k) else
  '(handled, rx, x, k) ← kernel_handle_irq irq rx x k;
  '(rx, x) ← (if (irq =? UART0_IRQ s)%Z && negb handled then
                '(_, rx, x) ← drain_platform_uart_rx s rx x;
                '(_, x) ← early_uart_irq_pending s x; Done (rx, x)
              else Done (rx, x));
  x ← plic_complete w (ION_PLIC_BASE s) (context_id mode) irq x;
  Done (rx, x, k).

(** Whether the external handler was installed. *)
Definition setup_irqs (s : IonSoc) (x : W) : exec (bool * W) :=
  if negb (ION_PLIC_BASE s =? 0)%Z then
    x ← plic_init_context w (ION_PLIC_BASE s) (context_id mode) x;
    let irq := UART0_IRQ s in
    x ← (if negb (irq =? 0)%Z then plic_enable_irq w (ION_PLIC_BASE s) (context_id mode) irq 1 x else Done x);
    Done (true, x)
  else Done (false, x).

(** The deadline is a checked sum. *)
Definition ion_set_next_tick (cpu_freq_hz systick_hz : Z) (s : IonSoc) (x : W) : exec W :=
  if (ION_CLINT_BASE s =? 0)%Z then Done x else
  if (systick_hz =? 0)%Z then Stuck else
  let increment := (cpu_freq_hz / systick_hz)%Z in
  '(now, x) ← clint_mtime w (ION_CLINT_BASE s) x;
  deadline ← add_w 64 now increment;
  match mode with
  | MMode => set_mtimecmp w (ION_CLINT_BASE s) 0 deadline x
  | SMode => Done (set_sbi_timer deadline x)
  end.

Definition ion_init_timer (cpu_freq_hz systick_hz : Z) (s : IonSoc) (x : W) : exec W :=
  if (ION_CLINT_BASE s =? 0)%Z then Done x else
  x ← ion_set_next_tick cpu_freq_hz systick_hz s x; Done (enable_timer_interrupts x).
End early.

(** ** What the board finds in its device tree *)

(** *** The nodes, as data *)

Definition reg_of (n : Fdt.FdtNode) : option Fdt.FdtReg := match Fdt.first_reg n with Done r => r | Stuck => None end.
Definition irq_of (n : Fdt.FdtNode) : Z := match Fdt.interrupt_or_zero n with Done i => i | Stuck => 0%Z end.

Lemma first_reg_of (n : Fdt.FdtNode) : Fdt.first_reg n = Done (reg_of n).
Proof. unfold reg_of. by destruct (first_reg_total n) as [r ->]. Qed.

Lemma interrupt_of (n : Fdt.FdtNode) : Fdt.interrupt_or_zero n = Done (irq_of n).
Proof. unfold irq_of. by destruct (interrupt_total n) as [r ->]. Qed.

(** *** The reference: what each static is set to

    The memory, the controllers and the clock are the last ones in the order of
    the walk; [uarts] are the ports that have registers. *)

Definition last_some {A B} (f : A → option B) (l : list A) (d : B) : B := default d (last (omap f l)).

Definition as_memory (n : Fdt.FdtNode) : option (Z * Z) := r ← reg_of n; if is_memory_node n then Some (Fdt.base r, Fdt.size r) else None.
Definition as_uart (n : Fdt.FdtNode) : option (Z * Z) := r ← reg_of n; if negb (is_memory_node n) && is_uart_node n then Some (Fdt.base r, irq_of n) else None.
Definition uarts (ns : list Fdt.FdtNode) : list (Z * Z) := omap as_uart ns.
Definition uarts_named (name : str) (ns : list Fdt.FdtNode) : list (Z * Z) := omap (λ n, if bool_decide (Fdt.name n = name) then as_uart n else None) ns.

(** The name that a path asks for. *)
Definition console_name (p : StdoutPath) : option str :=
  if sp_len p =? 0 then None else last_path_component (strip_stdout_options (take (sp_len p) (sp_bytes p))).

(** The console: the last port of that name, else the first port. *)
Definition console_port (p : StdoutPath) (ns : list Fdt.FdtNode) : Z * Z :=
  match console_name p with
  | Some name => default (default (0, 0)%Z (head (uarts ns))) (last (uarts_named name ns))
  | None => default (0, 0)%Z (head (uarts ns))
  end.

Lemma stdout_matches_name (p : StdoutPath) (name : str) : stdout_matches p name = bool_decide (console_name p = Some name).
Proof.
  unfold stdout_matches, console_name. destruct (sp_len p =? 0); [by rewrite bool_decide_false|].
  destruct (last_path_component _) as [l|]; [|by rewrite bool_decide_false]. apply bool_decide_ext. split; [by intros ->|by intros [=]].
Qed.

(** *** The walks as folds *)

Definition path_of (ns : list Fdt.FdtNode) (p : StdoutPath) : StdoutPath :=
  foldl (λ p n, match Fdt.stdout_path n with Some path => stdout_set p path | None => p end) p ns.

Lemma stdout_fold (ns : list Fdt.FdtNode) : ∀ s, exec_fold stdout_callback s ns = Done (ion_set_stdout s (path_of ns (STDOUT_PATH s))).
Proof.
  induction ns as [|n ns IH]; intros s; [by destruct s|]. cbn [exec_fold].
  change (stdout_callback s n) with (Done (match Fdt.stdout_path n with Some path => ion_set_stdout s (stdout_set (STDOUT_PATH s) path) | None => s end)). cbn [mbind exec_bind].
  rewrite IH. unfold path_of. cbn [foldl]. by destruct (Fdt.stdout_path n).
Qed.

(** The other devices, for a tree where no node is two of them. *)
Definition as_plic (n : Fdt.FdtNode) : option Z :=
  r ← reg_of n; if negb (is_memory_node n) && negb (is_uart_node n) && is_plic_node n then Some (Fdt.base r) else None.
Definition as_clint (n : Fdt.FdtNode) : option Z :=
  r ← reg_of n; if negb (is_memory_node n) && negb (is_uart_node n) && negb (is_plic_node n) && is_clint_node n then Some (Fdt.base r) else None.
Definition plain (n : Fdt.FdtNode) : Prop := is_uart_node n = true → is_memory_node n = false ∧ is_plic_node n = false ∧ is_clint_node n = false.

(** What the device walk does to the port, given the path. *)
Definition selects (p : StdoutPath) (u : Z * Z) (n : Fdt.FdtNode) : bool := if stdout_configured p then stdout_matches p (Fdt.name n) else (u.1 =? 0)%Z.
Definition pick (p : StdoutPath) (u : Z * Z) (n : Fdt.FdtNode) : Z * Z :=
  match as_uart n with Some u' => if selects p u n then u' else u | None => u end.

Definition found (s : IonSoc) (u : Z * Z) (ns : list Fdt.FdtNode) : IonSoc :=
  mk_ion (last_some Fdt.f_timebase_frequency ns (ION_CPU_FREQ_HZ s))
    (last_some as_memory ns (ION_MEMORY_BASE s, ION_MEMORY_SIZE s)).1 (last_some as_memory ns (ION_MEMORY_BASE s, ION_MEMORY_SIZE s)).2
    u.1 u.2 (STDOUT_PATH s) (last_some as_plic ns (ION_PLIC_BASE s)) (last_some as_clint ns (ION_CLINT_BASE s)).

Lemma last_some_snoc {A B} (f : A → option B) (l : list A) (x : A) (d : B) : last_some f (l ++ [x]) d = default (last_some f l d) (f x).
Proof. unfold last_some. rewrite omap_app. cbn. destruct (f x); [by rewrite last_snoc|by rewrite app_nil_r]. Qed.

Lemma device_step (s : IonSoc) (n : Fdt.FdtNode) : plain n →
  device_callback s n = Done (found s (pick (STDOUT_PATH s) (UART0_BASE s, UART0_IRQ s) n) [n]).
Proof.
  intros Hp. unfold device_callback. set (s1 := match Fdt.f_timebase_frequency n with Some freq => ion_set_freq s freq | None => s end).
  assert (Hs1 : s1 = ion_set_freq s (last_some Fdt.f_timebase_frequency [n] (ION_CPU_FREQ_HZ s))).
  { unfold s1, last_some. cbn. destruct (Fdt.f_timebase_frequency n); [done|]. by destruct s. }
  rewrite Hs1. rewrite first_reg_of. cbn [mbind exec_bind]. unfold found, pick, as_uart.
  change (should_select_uart (ion_set_freq s _) n) with (selects (STDOUT_PATH s) (UART0_BASE s, UART0_IRQ s) n).
  assert (Hm : ∀ (f : Fdt.FdtNode → option (Z * Z)) d, last_some f [n] d = default d (f n)) by (intros f d; apply (last_some_snoc f [] n d)).
  assert (Hz : ∀ (f : Fdt.FdtNode → option Z) d, last_some f [n] d = default d (f n)) by (intros f d; apply (last_some_snoc f [] n d)).
  rewrite Hm, !Hz. unfold as_memory, as_plic, as_clint. destruct (reg_of n) as [r|]; cbn [mbind option_bind]; [|by destruct s].
  destruct (is_memory_node n) eqn:Em; cbn [negb andb]; [by destruct s|].
  destruct (is_uart_node n) eqn:Eu; cbn [negb andb].
  - destruct (Hp Eu) as (_&Epl&Ecl). rewrite Epl, Ecl, interrupt_of. destruct (selects _ _ n); cbn [mbind exec_bind]; by destruct s.
  - destruct (is_plic_node n); cbn [negb andb]; [by destruct s|]. destruct (is_clint_node n); by destruct s.
Qed.

Lemma device_fold (s : IonSoc) (ns : list Fdt.FdtNode) : Forall plain ns →
  exec_fold device_callback s ns = Done (found s (foldl (pick (STDOUT_PATH s)) (UART0_BASE s, UART0_IRQ s) ns) ns).
Proof.
  induction ns as [|n ns IH] using rev_ind; intros Hp; [by destruct s|]. apply Forall_app in Hp as [Hp [Hn _]%Forall_cons].
  rewrite exec_fold_app, IH by done. cbn [mbind exec_bind exec_fold]. rewrite device_step by done. cbn [mbind exec_bind]. f_equal. unfold found.
  rewrite foldl_snoc. rewrite !(last_some_snoc _ ns n). cbn [ION_CPU_FREQ_HZ ION_MEMORY_BASE ION_MEMORY_SIZE UART0_BASE UART0_IRQ STDOUT_PATH ION_PLIC_BASE ION_CLINT_BASE].
  rewrite <- !surjective_pairing.
  assert (Hm : ∀ (f : Fdt.FdtNode → option (Z * Z)) d, last_some f [n] d = default d (f n)) by (intros f d; apply (last_some_snoc f [] n d)).
  assert (Hz : ∀ (f : Fdt.FdtNode → option Z) d, last_some f [n] d = default d (f n)) by (intros f d; apply (last_some_snoc f [] n d)).
  by rewrite Hm, !Hz.
Qed.

(** *** The port *)

Lemma uarts_snoc (ns : list Fdt.FdtNode) (n : Fdt.FdtNode) : uarts (ns ++ [n]) = uarts ns ++ match as_uart n with Some u => [u] | None => [] end.
Proof. unfold uarts. rewrite omap_app. cbn. by destruct (as_uart n). Qed.

Lemma pick_first (p : StdoutPath) (ns : list Fdt.FdtNode) : stdout_configured p = false → Forall (λ u, u.1 ≠ 0%Z) (uarts ns) →
  foldl (pick p) (0, 0)%Z ns = default (0, 0)%Z (head (uarts ns)).
Proof.
  intros Hp. induction ns as [|n ns IH] using rev_ind; intros Hall; [done|]. rewrite uarts_snoc in *. apply Forall_app in Hall as [Hall Hn].
  rewrite foldl_snoc, IH by done. unfold pick, selects. rewrite Hp. destruct (as_uart n) as [u|]; [|by rewrite app_nil_r].
  destruct (uarts ns) as [|u0 us]; cbn; [done|]. apply Forall_cons in Hall as [H0 _]. by rewrite (proj2 (Z.eqb_neq _ _) H0).
Qed.

Lemma pick_named (p : StdoutPath) (ns : list Fdt.FdtNode) : stdout_configured p = true →
  foldl (pick p) (0, 0)%Z ns = match console_name p with Some name => default (0, 0)%Z (last (uarts_named name ns)) | None => (0, 0)%Z end.
Proof.
  intros Hp. induction ns as [|n ns IH] using rev_ind; [by destruct (console_name p)|]. rewrite foldl_snoc, IH. unfold pick, selects. rewrite Hp, stdout_matches_name.
  destruct (console_name p) as [name|]; [|by destruct (as_uart n); [rewrite bool_decide_false|]]. unfold uarts_named. rewrite omap_app. cbn.
  case_bool_decide as Hn; case_bool_decide as Hm; try congruence.
  - destruct (as_uart n); [by rewrite last_snoc|by rewrite app_nil_r].
  - rewrite app_nil_r. by destruct (as_uart n).
Qed.

Lemma fallback_fold (ns : list Fdt.FdtNode) : Forall plain ns → Forall (λ u, u.1 ≠ 0%Z) (uarts ns) → ∀ s, exec_fold fallback_callback s ns =
  Done (if (UART0_BASE s =? 0)%Z then match head (uarts ns) with Some u => ion_set_uart s u.1 u.2 | None => s end else s).
Proof.
  induction ns as [|n ns IH] using rev_ind; intros Hp Hall s; [cbn; by case_match|]. apply Forall_app in Hp as [Hp [Hn _]%Forall_cons].
  rewrite uarts_snoc in *. apply Forall_app in Hall as [Hall Hnz]. rewrite exec_fold_app, IH by done. cbn [mbind exec_bind exec_fold].
  set (s1 := if (UART0_BASE s =? 0)%Z then _ else s). unfold fallback_callback. rewrite first_reg_of, interrupt_of. cbn [mbind exec_bind].
  unfold as_uart in *. destruct (reg_of n) as [r|]; cbn [mbind option_bind mbind exec_bind] in *; [|by rewrite app_nil_r].
  destruct (is_uart_node n) eqn:Eu; [|rewrite andb_false_r, app_nil_r; done]. destruct (Hn Eu) as (Em&_&_). rewrite Em in *. cbn [negb andb] in *.
  unfold s1. destruct (UART0_BASE s =? 0)%Z eqn:E0; [|by rewrite E0]. destruct (uarts ns) as [|u us]; cbn [head app]; [by rewrite E0|].
  apply Forall_cons in Hall as [Hu _]. cbn [ion_set_uart UART0_BASE]. by rewrite (proj2 (Z.eqb_neq _ _) Hu).
Qed.

(** *** The name in a path *)

Lemma find_byte_absent (c : Z) (l : str) : c ∉ l → find_byte c l = None.
Proof.
  induction l as [|x l IH]; intros Hn; [done|]. apply not_elem_of_cons in Hn as [Hx Hn]. cbn [find_byte].
  rewrite (proj2 (Z.eqb_neq x c)) by congruence. by rewrite IH.
Qed.

Lemma component_of (pre name : str) : 47%Z ∉ name → name ≠ [] → last_path_component (pre ++ 47%Z :: name) = Some name.
Proof.
  intros Hn Hne. unfold last_path_component, rposition. rewrite reverse_app, reverse_cons, <- app_assoc. cbn [app].
  rewrite find_byte_app by (by rewrite elem_of_reverse). rewrite length_reverse, length_app. cbn [length].
  destruct name as [|c name]; [done|]. cbn [length].
  replace (length pre + S (S (length name)) - 1 - S (length name) + 1) with (length pre + 1) by lia.
  destruct (Nat.leb_spec (length pre + S (S (length name))) (length pre + 1)); [lia|]. f_equal.
  rewrite drop_app_ge by lia. by replace (length pre + 1 - length pre) with 1 by lia.
Qed.

(** A path of at most 96 bytes, with or without options after a colon. *)
Lemma name_of_path (p : StdoutPath) (pre name opts : str) : length (sp_bytes p) = MAX_STDOUT_PATH →
  58%Z ∉ pre → 58%Z ∉ name → 47%Z ∉ name → name ≠ [] → opts = [] ∨ head opts = Some 58%Z → length (pre ++ 47%Z :: name ++ opts) ≤ MAX_STDOUT_PATH →
  console_name (stdout_set p (pre ++ 47%Z :: name ++ opts)) = Some name.
Proof.
  intros Hlen Hpre Hname Hslash Hne Hopts Hmax. unfold console_name, stdout_set. cbn [sp_len sp_bytes]. rewrite Nat.min_l by done.
  rewrite (proj2 (Nat.eqb_neq _ 0)) by (rewrite length_app; cbn; lia). rewrite take_app_length', take_ge by (rewrite ?length_take; lia).
  unfold strip_stdout_options.
  assert (Hs : match find_byte 58 (pre ++ 47%Z :: name ++ opts) with Some idx => take idx (pre ++ 47%Z :: name ++ opts) | None => pre ++ 47%Z :: name ++ opts end = pre ++ 47%Z :: name).
  { assert (Hbody : 58%Z ∉ pre ++ 47%Z :: name) by (rewrite elem_of_app, elem_of_cons; intuition congruence). destruct Hopts as [->|Ho].
    - rewrite app_nil_r. by rewrite find_byte_absent.
    - destruct opts as [|o opts]; [done|]. injection Ho as ->. replace (pre ++ 47%Z :: name ++ 58%Z :: opts) with ((pre ++ 47%Z :: name) ++ 58%Z :: opts) by (by rewrite <- app_assoc).
      rewrite find_byte_app by done. by rewrite take_app_length. }
  rewrite Hs. by apply component_of.
Qed.

Lemma path_of_length (ns : list Fdt.FdtNode) : ∀ p, length (sp_bytes p) = MAX_STDOUT_PATH → length (sp_bytes (path_of ns p)) = MAX_STDOUT_PATH.
Proof.
  induction ns as [|n ns IH]; intros p Hp; [done|]. unfold path_of. cbn [foldl]. apply IH. destruct (Fdt.stdout_path n) as [path|]; [|done].
  cbn [stdout_set sp_bytes]. rewrite length_app, length_take, length_drop. lia.
Qed.

(** *** Properties *)

(** In a tree where no node is two kinds of device, the board takes the
    last memory, clock and controllers of the walk, and as its console the
    last port with the name that the last [stdout-path] ends in, or else the
    first port; the name is the last component of the path, without the
    options after a colon, for a path of at most 96 bytes. *)
Theorem ion_console_found (mem : list Z) (total struct strings : Z) (off : str → Z) (t : dtree) :
  blob mem total struct strings off t → ∃ ns, nodes_of t = Done ns ∧
  (Forall plain ns → Forall (λ u, u.1 ≠ 0%Z) (uarts ns) →
     let p := path_of ns stdout_new in
     discover_from_fdt (Some mem) ion_boot = Done (found (ion_set_stdout ion_boot p) (console_port p ns) ns))
  ∧ ∀ ns1 n ns2 pre name opts, ns = ns1 ++ n :: ns2 → Forall (λ n, Fdt.stdout_path n = None) ns2 →
     Fdt.stdout_path n = Some (pre ++ 47%Z :: name ++ opts) →
     58%Z ∉ pre → 58%Z ∉ name → 47%Z ∉ name → name ≠ [] → opts = [] ∨ head opts = Some 58%Z → length (pre ++ 47%Z :: name ++ opts) ≤ MAX_STDOUT_PATH →
     console_name (path_of ns stdout_new) = Some name.
Proof.
  intros Hblob. destruct (visit_nodes_of t) as (ns&Hns&Hv). exists ns. split; [done|]. split.
  - intros Hplain Hnz p. unfold discover_from_fdt. rewrite !(walk_blob _ _ _ _ _ _ _ _ Hblob), Hv, stdout_fold. cbn [mbind exec_bind].
    change (STDOUT_PATH ion_boot) with stdout_new. fold p. rewrite (walk_blob _ _ _ _ _ _ _ _ Hblob), Hv, device_fold by done. cbn [mbind exec_bind].
    change (STDOUT_PATH (ion_set_stdout ion_boot p)) with p. change (UART0_BASE (ion_set_stdout ion_boot p), UART0_IRQ (ion_set_stdout ion_boot p)) with (0, 0)%Z.
    set (u := foldl (pick p) (0, 0)%Z ns). change (UART0_BASE (found _ u ns)) with u.1. change (STDOUT_PATH (found _ u ns)) with p.
    destruct (stdout_configured p) eqn:Hc.
    + rewrite andb_true_r, (walk_blob _ _ _ _ _ _ _ _ Hblob), Hv, fallback_fold by done. change (UART0_BASE (found _ u ns)) with u.1.
      assert (Hu : u = match console_name p with Some name => default (0, 0)%Z (last (uarts_named name ns)) | None => (0, 0)%Z end) by (by apply pick_named).
      assert (Hnamed : ∀ name u', last (uarts_named name ns) = Some u' → u'.1 ≠ 0%Z).
      { intros name u' Hl. apply last_Some_elem_of in Hl. unfold uarts_named in Hl. apply list_elem_of_omap in Hl as (n&Hn&Heq). case_bool_decide; [|done].
        eapply Forall_forall in Hnz; [exact Hnz|]. apply list_elem_of_omap. by exists n. }
      assert (Hport : console_port p ns = if (u.1 =? 0)%Z then default (0, 0)%Z (head (uarts ns)) else u).
      { unfold console_port. rewrite Hu. destruct (console_name p) as [name|]; [|done]. destruct (last (uarts_named name ns)) as [u'|] eqn:El; cbn [default from_option Datatypes.id]; [|done].
        by rewrite (proj2 (Z.eqb_neq _ _) (Hnamed name u' El)). }
      rewrite Hport. destruct (u.1 =? 0)%Z eqn:E0; [|done]. destruct (head (uarts ns)) as [u'|]; [by cbn|]. cbn [default from_option].
      assert (Hu0 : u = (0, 0)%Z); [|by rewrite Hu0].
      rewrite Hu in *. destruct (console_name p) as [name|]; [|done]. destruct (last (uarts_named name ns)) as [u'|] eqn:El; [|done]. cbn in E0.
      apply Z.eqb_eq in E0. by destruct (Hnamed name u' El).
    + rewrite andb_false_r. do 2 f_equal. unfold u. rewrite pick_first by done. unfold console_port, console_name.
      unfold stdout_configured in Hc. apply negb_false_iff in Hc. by rewrite Hc.
  - intros ns1 n ns2 pre name opts -> Hnone Hn Hpre Hname Hslash Hne Hopts Hmax.
    assert (Hlast : ∀ p, path_of (ns1 ++ n :: ns2) p = stdout_set (path_of ns1 p) (pre ++ 47%Z :: name ++ opts)).
    { intros p. unfold path_of. rewrite foldl_app. cbn [foldl]. rewrite Hn. generalize (stdout_set (foldl (λ p n, match Fdt.stdout_path n with Some path => stdout_set p path | None => p end) p ns1) (pre ++ 47%Z :: name ++ opts)).
      clear - Hnone. induction ns2 as [|n2 ns2 IH]; intros q; [done|]. apply Forall_cons in Hnone as [H2 Hnone]. cbn [foldl]. rewrite H2. by apply IH. }
    rewrite Hlast. apply name_of_path; try done. by apply path_of_length.
Qed.

(** Two ports; the path names the second. *)
Definition demo_port_node (name : string) (base irq : Z) : dtree := DNode (bytes name)
  [demo_prop "compatible" (strings_of [bytes "ns16550a"]); demo_prop "reg" (be32 base ++ be32 256); demo_prop "interrupts" (be32 irq)] DNil.
Definition demo_soc : dtree := DNode [] [demo_prop "#address-cells" (be32 1); demo_prop "#size-cells" (be32 1)]
  (DCons (demo_port_node "uart@10" 16 5) (DCons (demo_port_node "uart@20" 32 6)
  (DCons (DNode (bytes "chosen") [demo_prop "stdout-path" (bytes "/soc/uart@20:115200" ++ [0%Z])] DNil) DNil))).

Lemma demo_soc_blob : blob (blob_of demo_soc) (blob_total demo_soc) 16 (16 + Z.of_nat (length (blob_struct demo_soc))) demo_off demo_soc.
Proof.
  split; [apply (bool_decide_unpack _); vm_compute; exact I| |apply (bool_decide_unpack _); vm_compute; exact I|vm_compute; congruence|].
  - split_and!; apply (bool_decide_unpack _); vm_compute; exact I.
  - cbn [tree_ok forest_ok demo_soc demo_port_node]. split_and!; try exact I; apply (bool_decide_unpack _); vm_compute; exact I.
Qed.

#[local] Instance plain_dec (n : Fdt.FdtNode) : Decision (plain n).
Proof. unfold plain. apply _. Defined.

Lemma ion_console_found_witness : ∃ s, discover_from_fdt (Some (blob_of demo_soc)) ion_boot = Done s ∧ UART0_BASE s = 32%Z ∧ UART0_IRQ s = 6%Z.
Proof.
  destruct (ion_console_found _ _ _ _ _ _ demo_soc_blob) as (ns&Hns&Hfound&_).
  assert (Hc : match nodes_of demo_soc with
    | Done ns => bool_decide (Forall plain ns) && bool_decide (Forall (λ u, u.1 ≠ 0%Z) (uarts ns)) && bool_decide (console_port (path_of ns stdout_new) ns = (32, 6)%Z)
    | Stuck => false end = true) by (vm_compute; reflexivity).
  rewrite Hns in Hc. apply andb_prop in Hc as [[Hp%bool_decide_eq_true Hu%bool_decide_eq_true]%andb_prop Hport%bool_decide_eq_true].
  specialize (Hfound Hp Hu). eexists. split; [exact Hfound|]. cbn [found UART0_BASE UART0_IRQ]. rewrite Hport. split; reflexivity.
Defined.
