(* ===== verification/Xtask.v ===== *)
(** * The build tool's configuration, [xtask/src/main.rs]

    From the values of a configuration file and a platform name the tool makes
    the configuration it builds: it loads the values, derives the target,
    applies the constraints of the platform, validates the result, and turns it
    into features and compiler flags.  The boolean fields of [BuildConfig] are
    kept by their configuration key.  The reader of the files is in another
    package; [values] is what it returns.  The messages of the tool are left
    out, and so are the processes it starts. *)

From S2P Require Export Prelude.
From S2P Require Export Text.
From stdpp Require Export strings.

Definition RISCV64IMA_TARGET_PATH : string := "config/targets/riscv64ima-unknown-none-elf.json".
Definition RISCV32IMA_TARGET_PATH : string := "config/targets/riscv32ima-unknown-none-elf.json".
Definition RISCV64IMAC_TARGET : string := "riscv64imac-unknown-none-elf".
Definition RISCV32IMAC_TARGET : string := "riscv32imac-unknown-none-elf".

Inductive ArchKind : Type := Riscv | Arm.
#[export] Instance ArchKind_eq_dec : EqDecision ArchKind.
Proof. solve_decision. Defined.

Record PlatformSpec : Type := mk_spec {
  sp_name : string;
  package : string;
  default_target : string;
  linker_script : string;
  sp_arch : ArchKind;
  supports_qemu_run : bool;
  supports_riscv_s_mode : bool;
  supports_riscv_m_mode : bool;
  default_riscv_s_mode : bool;
  supports_async_rt : bool;
  supports_hypervisor : bool;
  supports_ns16550a : bool;
  supports_cmsdk_uart : bool;
  supports_virtio_blk : bool;
  supports_virtio_gpu : bool;
  supports_virtio_rng : bool;
  supports_lan9118 : bool;
  supports_mcu_profile : bool;
}.

Definition PLATFORMS : list PlatformSpec := [
  mk_spec "riscv-generic" "riscv-generic" RISCV64IMAC_TARGET "platform/riscv-generic/linker.ld" Riscv
    true true true true true true true false true true true false false;
  mk_spec "qemu-virt-riscv" "riscv-generic" RISCV64IMAC_TARGET "platform/riscv-generic/linker.ld" Riscv
    true true true true true true true false true true true false false;
  mk_spec "ionsoc-verilator" "ionsoc-verilator" RISCV64IMAC_TARGET "platform/ionsoc-verilator/linker.ld" Riscv
    false true false true true false true false false false false false false;
  mk_spec "stm32f103-bluepill" "stm32f103-bluepill" "thumbv7m-none-eabi" "platform/stm32f103-bluepill/linker.ld" Arm
    false false false false false false false false false false false false true;
  mk_spec "qemu-an521" "an521" "thumbv8m.main-none-eabihf" "platform/qemu-an521/linker.ld" Arm
    true false false false true false false true false false false true false
]%string.

(** The boolean fields of [BuildConfig]. *)
Inductive Key : Type :=
  | riscv_xlen_64 | riscv_xlen_32 | riscv_s_mode | riscv_m_mode
  | riscv_ext_m | riscv_ext_a | riscv_ext_c | riscv_ext_f | riscv_ext_d | riscv_ext_b | riscv_ext_v | riscv_ext_zicsr | riscv_ext_zifencei
  | riscv_hypervisor | async_rt | builtin_shell
  | driver_ns16550a | driver_cmsdk_uart | driver_virtio_blk | driver_virtio_gpu | driver_virtio_rng | driver_lan9118.
#[export] Instance Key_eq_dec : EqDecision Key.
Proof. solve_decision. Defined.

Definition key_name (k : Key) : string := match k with
  | riscv_xlen_64 => "OPENION_RISCV_XLEN_64" | riscv_xlen_32 => "OPENION_RISCV_XLEN_32"
  | riscv_s_mode => "OPENION_RISCV_S_MODE" | riscv_m_mode => "OPENION_RISCV_M_MODE"
  | riscv_ext_m => "OPENION_RISCV_EXT_M" | riscv_ext_a => "OPENION_RISCV_EXT_A" | riscv_ext_c => "OPENION_RISCV_EXT_C"
  | riscv_ext_f => "OPENION_RISCV_EXT_F" | riscv_ext_d => "OPENION_RISCV_EXT_D" | riscv_ext_b => "OPENION_RISCV_EXT_B"
  | riscv_ext_v => "OPENION_RISCV_EXT_V" | riscv_ext_zicsr => "OPENION_RISCV_EXT_ZICSR" | riscv_ext_zifencei => "OPENION_RISCV_EXT_ZIFENCEI"
  | riscv_hypervisor => "OPENION_RISCV_HYPERVISOR" | async_rt => "OPENION_ASYNC_RT" | builtin_shell => "OPENION_BUILTIN_SHELL"
  | driver_ns16550a => "OPENION_DRIVER_NS16550A" | driver_cmsdk_uart => "OPENION_DRIVER_CMSDK_UART"
  | driver_virtio_blk => "OPENION_DRIVER_VIRTIO_BLK" | driver_virtio_gpu => "OPENION_DRIVER_VIRTIO_GPU"
  | driver_virtio_rng => "OPENION_DRIVER_VIRTIO_RNG" | driver_lan9118 => "OPENION_DRIVER_LAN9118"
  end.

(** In the order in which they are loaded. *)
Definition keys : list Key :=
  [riscv_xlen_64; riscv_xlen_32; riscv_s_mode; riscv_m_mode; riscv_ext_m; riscv_ext_a; riscv_ext_c; riscv_ext_f; riscv_ext_d; riscv_ext_b; riscv_ext_v;
   riscv_ext_zicsr; riscv_ext_zifencei; riscv_hypervisor; async_rt; builtin_shell; driver_ns16550a; driver_cmsdk_uart; driver_virtio_blk; driver_virtio_gpu;
   driver_virtio_rng; driver_lan9118].

Record BuildConfig : Type := mk_build {
  platform : string;
  target : string;
  net_backend : string;
  riscv_kernel_base : Z;
  flag : Key → bool;
}.

Inductive CfgValue : Type := VString (s : string) | VBool (b : bool) | VInt (i : Z).

Inductive BuildError : Type :=
  | UnsupportedPlatform (name : string)
  | MissingString (key : string) | MissingBool (key : string) | MissingUsize (key : string)
  | WrongTarget (platform expected got : string)
  | NeedsOneMode | NeedsOneXlen | HypervisorNeedsRv64 | DNeedsF
  | UnsupportedBackend (name : string)
  | NoRunCommand (name : string).

(** [?] on a [Result]. *)
Definition bind_result {A B} (m : BuildError + A) (f : A → BuildError + B) : BuildError + B := match m with inl e => inl e | inr a => f a end.
Notation "x ←? m ; f" := (bind_result m (λ x, f)) (at level 20, m at level 100, f at level 200, only parsing).

Definition platform_spec (name : string) : BuildError + PlatformSpec :=
  match list_find (λ spec, sp_name spec = name) PLATFORMS with Some (_, spec) => inr spec | None => inl (UnsupportedPlatform name) end.

(** ** Loading *)

Section load.
Context (values : string → option CfgValue).

Definition get_str (key : string) : BuildError + string := match values key with Some (VString s) => inr s | _ => inl (MissingString key) end.
Definition get_bool (key : string) : BuildError + bool := match values key with Some (VBool b) => inr b | _ => inl (MissingBool key) end.
(** An integer that is a [usize] of the host. *)
Definition get_usize (key : string) : BuildError + Z :=
  match values key with Some (VInt i) => if ((0 <=? i) && (i <=? USIZE_MAX))%Z then inr i else inl (MissingUsize key) | _ => inl (MissingUsize key) end.

Fixpoint get_bools (ks : list Key) (f : Key → bool) : BuildError + (Key → bool) :=
  match ks with
  | [] => inr f
  | k :: ks => b ←? get_bool (key_name k); get_bools ks (λ j, if decide (j = k) then b else f j)
  end.

(** The fields are read in their order, the base of the kernel after the first two. *)
Definition load_build_config : BuildError + BuildConfig :=
  backend ←? get_str "OPENION_NET_BACKEND";
  f ←? get_bools [riscv_xlen_64; riscv_xlen_32] (λ _, false);
  base ←? get_usize "OPENION_RISCV_KERNEL_BASE";
  f ←? get_bools (drop 2 keys) f;
  inr (mk_build "" "" backend base f).
End load.

(** ** Constraints and validation *)

Definition constrain_bool (k : Key) (required : bool) (cfg : BuildConfig) : BuildConfig :=
  mk_build (platform cfg) (target cfg) (net_backend cfg) (riscv_kernel_base cfg) (λ j, if decide (j = k) then required else flag cfg j).

(** [if b { cfg }]. *)
Definition when (b : bool) (f : BuildConfig → BuildConfig) (cfg : BuildConfig) : BuildConfig := if b then f cfg else cfg.

Definition is_riscv (spec : PlatformSpec) : bool := bool_decide (sp_arch spec = Riscv).

Definition constrain_modes (spec : PlatformSpec) (cfg : BuildConfig) : BuildConfig :=
  if is_riscv spec then
    let cfg := when (bool_decide (flag cfg riscv_xlen_32 = flag cfg riscv_xlen_64))
                 (λ cfg, constrain_bool riscv_xlen_32 false (constrain_bool riscv_xlen_64 true cfg)) cfg in
    let cfg := when (negb (supports_riscv_s_mode spec)) (constrain_bool riscv_s_mode false) cfg in
    when (negb (supports_riscv_m_mode spec))
      (λ cfg, let cfg := constrain_bool riscv_m_mode false cfg in
              when (negb (flag cfg riscv_s_mode)) (constrain_bool riscv_s_mode (default_riscv_s_mode spec)) cfg) cfg
  else
    let cfg := constrain_bool riscv_xlen_64 false cfg in
    let cfg := constrain_bool riscv_xlen_32 false cfg in
    let cfg := constrain_bool riscv_s_mode false cfg in
    constrain_bool riscv_m_mode false cfg.

Definition apply_platform_constraints (spec : PlatformSpec) (cfg : BuildConfig) : BuildConfig :=
  let cfg := constrain_modes spec cfg in
  let cfg := when (is_riscv spec && flag cfg riscv_xlen_32 && flag cfg riscv_hypervisor) (constrain_bool riscv_hypervisor false) cfg in
  let cfg := when (is_riscv spec && bool_decide (flag cfg riscv_s_mode = flag cfg riscv_m_mode))
               (λ cfg, if default_riscv_s_mode spec then constrain_bool riscv_m_mode false (constrain_bool riscv_s_mode true cfg)
                       else constrain_bool riscv_m_mode true (constrain_bool riscv_s_mode false cfg)) cfg in
  let cfg := when (supports_mcu_profile spec) (constrain_bool builtin_shell false) cfg in
  let cfg := when (negb (supports_async_rt spec)) (constrain_bool async_rt false) cfg in
  let cfg := when (negb (supports_hypervisor spec)) (constrain_bool riscv_hypervisor false) cfg in
  let cfg := when (negb (supports_ns16550a spec)) (constrain_bool driver_ns16550a false) cfg in
  let cfg := when (negb (supports_cmsdk_uart spec)) (constrain_bool driver_cmsdk_uart false) cfg in
  let cfg := when (negb (supports_virtio_blk spec)) (constrain_bool driver_virtio_blk false) cfg in
  let cfg := when (negb (supports_virtio_gpu spec)) (constrain_bool driver_virtio_gpu false) cfg in
  let cfg := when (negb (supports_virtio_rng spec)) (constrain_bool driver_virtio_rng false) cfg in
  when (negb (supports_lan9118 spec)) (constrain_bool driver_lan9118 false) cfg.

Definition target_for_config (spec : PlatformSpec) (cfg : BuildConfig) : string :=
  if negb (is_riscv spec) then default_target spec else
  match flag cfg riscv_xlen_32, flag cfg riscv_ext_c with
  | true, true => RISCV32IMAC_TARGET
  | true, false => RISCV32IMA_TARGET_PATH
  | false, true => RISCV64IMAC_TARGET
  | false, false => RISCV64IMA_TARGET_PATH
  end.

Definition validate_build_config (cfg : BuildConfig) : BuildError + unit :=
  spec ←? platform_spec (platform cfg);
  let expected_target := target_for_config spec cfg in
  if negb (bool_decide (target cfg = expected_target)) then inl (WrongTarget (platform cfg) expected_target (target cfg)) else
  if is_riscv spec && bool_decide (flag cfg riscv_s_mode = flag cfg riscv_m_mode) then inl NeedsOneMode else
  if is_riscv spec && bool_decide (flag cfg riscv_xlen_32 = flag cfg riscv_xlen_64) then inl NeedsOneXlen else
  if is_riscv spec && flag cfg riscv_xlen_32 && flag cfg riscv_hypervisor then inl HypervisorNeedsRv64 else
  if is_riscv spec && flag cfg riscv_ext_d && negb (flag cfg riscv_ext_f) then inl DNeedsF else
  if bool_decide (net_backend cfg = "ionnet") || bool_decide (net_backend cfg = "smoltcp") then inr () else inl (UnsupportedBackend (net_backend cfg)).

(** [prepare_build], after [generate_config] succeeded. *)
Definition prepare_build (platform_override : option string) (values : string → option CfgValue) : BuildError + BuildConfig :=
  let name := default "riscv-generic" platform_override in
  spec ←? platform_spec name;
  cfg ←? load_build_config values;
  let cfg := mk_build (sp_name spec) (target cfg) (net_backend cfg) (riscv_kernel_base cfg) (flag cfg) in
  let cfg := mk_build (platform cfg) (target_for_config spec cfg) (net_backend cfg) (riscv_kernel_base cfg) (flag cfg) in
  let cfg := apply_platform_constraints spec cfg in
  _ ←? validate_build_config cfg;
  inr cfg.

(** ** What cargo gets *)

Definition push (b : bool) (feature : string) : list string := if b then [feature] else [].

Definition collect_features (spec : PlatformSpec) (cfg : BuildConfig) : list string :=
  (if is_riscv spec then
     (if flag cfg riscv_m_mode then ["m-mode"] else ["s-mode"])
     ++ push (bool_decide (package spec = "riscv-generic") && flag cfg riscv_hypervisor) "hypervisor" else [])
  ++ push (flag cfg builtin_shell) "builtin_shell"
  ++ push (flag cfg async_rt) "async_rt"
  ++ push (supports_mcu_profile spec) "kernel/mcu_profile"
  ++ (if is_riscv spec then push (flag cfg driver_ns16550a) "driver_ns16550a" else [])
  ++ (if bool_decide (package spec = "riscv-generic") then
        push (flag cfg driver_virtio_blk) "driver_virtio_blk" ++ push (flag cfg driver_virtio_gpu) "driver_virtio_gpu" ++ push (flag cfg driver_virtio_rng) "driver_virtio_rng"
      else [])
  ++ (if bool_decide (package spec = "an521") then
        push (flag cfg driver_cmsdk_uart) "driver_cmsdk_uart" ++ push (flag cfg driver_lan9118) "driver_lan9118" else [])
  ++ (if negb (supports_mcu_profile spec) then
        if bool_decide (net_backend cfg = "smoltcp") then ["kernel/use_smoltcp"] else if bool_decide (net_backend cfg = "ionnet") then ["kernel/use_ionnet"] else []
      else []).

Definition riscv_target_features (cfg : BuildConfig) : list string :=
  (if flag cfg riscv_ext_c then
     push (negb (flag cfg riscv_ext_m)) "-m" ++ push (negb (flag cfg riscv_ext_a)) "-a" ++ push (negb (flag cfg riscv_ext_c)) "-c"
     ++ push (negb (flag cfg riscv_ext_zicsr)) "-zicsr" ++ push (negb (flag cfg riscv_ext_zifencei)) "-zifencei"
   else
     push (negb (flag cfg riscv_ext_m)) "-m" ++ push (negb (flag cfg riscv_ext_a)) "-a"
     ++ push (flag cfg riscv_ext_zicsr) "+zicsr" ++ push (flag cfg riscv_ext_zifencei) "+zifencei")
  ++ push (flag cfg riscv_ext_f) "+f" ++ push (flag cfg riscv_ext_d) "+d" ++ push (flag cfg riscv_ext_b) "+b" ++ push (flag cfg riscv_ext_v) "+v".

(** [join]. *)
Definition join (sep : string) (l : list string) : string := String.concat sep l.

Definition cargo_rustflags (cfg : BuildConfig) : BuildError + list str :=
  spec ←? platform_spec (platform cfg);
  inr ((if is_riscv spec then
          let target_features := riscv_target_features cfg in
          (if bool_decide (target_features = []) then [] else [bytes "-C"; bytes ("target-feature=" +:+ join "," target_features)])
          ++ [bytes "-C"; bytes "link-arg=--defsym=BASE_ADDRESS=" ++ hex (riscv_kernel_base cfg)]
        else []) ++ [bytes "-C"; bytes ("link-arg=-T" +:+ linker_script spec)]).

(** ** The commands

    [Path::file_stem] on a host whose separator is the slash. *)
Definition file_stem (path : str) : option str :=
  match last (filter (λ c, c ≠ bytes ".") (components path)) with
  | None => None
  | Some name =>
      if bool_decide (name = bytes "..") then None else
      match rfind 46 name with Some (S pos) => Some (take (S pos) name) | _ => Some name end
  end.

Definition target_output_dir (target : string) : str := default (bytes target) (file_stem (bytes target)).

Definition build_profile (release : bool) : str := if release then bytes "release" else bytes "debug".

(** The program and its arguments. *)
Definition Command : Type := string * list str.

Definition qemu_command (cfg : BuildConfig) (release : bool) : BuildError + Command :=
  spec ←? platform_spec (platform cfg);
  if negb (supports_qemu_run spec) then inl (NoRunCommand (sp_name spec)) else
  let kernel := bytes "target/" ++ target_output_dir (target cfg) ++ [SLASH] ++ build_profile release ++ [SLASH] ++ bytes (package spec) in
  if bool_decide (sp_name spec ∈ ["riscv-generic"; "qemu-virt-riscv"]%string) then
    inr ((if flag cfg riscv_xlen_32 then "qemu-system-riscv32" else "qemu-system-riscv64")%string,
         (bytes <$> ["-machine"; "virt"; "-smp"; "1"; "-bios"; "default"; "-kernel"]%string) ++ [kernel]
         ++ (bytes <$> ["-smp"; "1"; "-global"; "virtio-mmio.force-legacy=false"; "-device"; "virtio-blk-device,drive=hd0";
                        "-drive"; "if=none,file=sd.img,format=raw,id=hd0"; "-serial"; "mon:stdio"; "-s"; "-nographic"]%string))
  else if bool_decide (sp_name spec = "qemu-an521"%string) then
    inr ("qemu-system-arm"%string, (bytes <$> ["-M"; "mps2-an521"; "-nographic"; "-kernel"]%string) ++ [kernel])
  else inl (UnsupportedPlatform (sp_name spec)).

(** [cargo_build]: the command and the flags that it puts into the environment. *)
Definition cargo_command (cfg : BuildConfig) (release : bool) : BuildError + (Command * list str) :=
  spec ←? platform_spec (platform cfg);
  rustflags ←? cargo_rustflags cfg;
  let features := collect_features spec cfg in
  let json := bool_decide (drop (length (bytes (target cfg)) - 5) (bytes (target cfg)) = bytes ".json") in
  inr (("cargo"%string, [bytes "build"]
          ++ (if json then [bytes "-Zjson-target-spec"; bytes "-Zbuild-std=core,alloc"] else [])
          ++ (bytes <$> ["-p"; package spec; "--target"; target cfg]%string)
          ++ (if release then [bytes "--release"] else [])
          ++ [bytes "--no-default-features"]
          ++ (if bool_decide (features = []) then [] else [bytes "--features"; bytes (join "," features)])),
       rustflags).

(** ** What the build tool accepts, and what it makes of it *)

(** The features that the packages declare: [platform/*/Cargo.toml] and [kernel/Cargo.toml]. *)
Definition package_features (package : string) : list string :=
  (if bool_decide (package = "riscv-generic") then
     ["async_rt"; "builtin_shell"; "hypervisor"; "driver_ns16550a"; "driver_virtio_blk"; "driver_virtio_gpu"; "driver_virtio_rng"; "m-mode"; "s-mode"]
   else if bool_decide (package = "ionsoc-verilator") then ["async_rt"; "builtin_shell"; "driver_ns16550a"; "m-mode"; "s-mode"]
   else if bool_decide (package = "an521") then ["async_rt"; "builtin_shell"; "driver_cmsdk_uart"; "driver_lan9118"]
   else if bool_decide (package = "stm32f103-bluepill") then ["async_rt"; "builtin_shell"; "st_hal_bridge"]
   else [])%string ++ ["kernel/mcu_profile"; "kernel/use_smoltcp"; "kernel/use_ionnet"]%string.

(** A configuration that fits its platform. *)
Record built_ok (spec : PlatformSpec) (cfg : BuildConfig) : Prop := {
  bo_platform : platform cfg = sp_name spec;
  bo_target : target cfg = target_for_config spec cfg;
  (** one width and one mode on RISC-V, a mode the platform has; neither elsewhere; *)
  bo_xlen : if is_riscv spec then flag cfg riscv_xlen_32 = negb (flag cfg riscv_xlen_64) else flag cfg riscv_xlen_32 = false ∧ flag cfg riscv_xlen_64 = false;
  bo_mode : if is_riscv spec then flag cfg riscv_s_mode = negb (flag cfg riscv_m_mode) else flag cfg riscv_s_mode = false ∧ flag cfg riscv_m_mode = false;
  bo_s : flag cfg riscv_s_mode = true → supports_riscv_s_mode spec = true;
  bo_m : flag cfg riscv_m_mode = true → supports_riscv_m_mode spec = true;
  bo_hypervisor : flag cfg riscv_hypervisor = true → supports_hypervisor spec = true ∧ flag cfg riscv_xlen_64 = true;
  (** drivers and parts that the platform has; *)
  bo_drivers : Forall (λ '(k, s), flag cfg k = true → s = true)
    [(driver_ns16550a, supports_ns16550a spec); (driver_cmsdk_uart, supports_cmsdk_uart spec); (driver_virtio_blk, supports_virtio_blk spec);
     (driver_virtio_gpu, supports_virtio_gpu spec); (driver_virtio_rng, supports_virtio_rng spec); (driver_lan9118, supports_lan9118 spec);
     (async_rt, supports_async_rt spec); (builtin_shell, negb (supports_mcu_profile spec))];
  (** floating point and network as far as they are checked. *)
  bo_float : is_riscv spec = true → flag cfg riscv_ext_d = true → flag cfg riscv_ext_f = true;
  bo_backend : net_backend cfg = "ionnet"%string ∨ net_backend cfg = "smoltcp"%string;
}.

(** The constrained flags, in closed form. *)
Definition constrained (spec : PlatformSpec) (f : Key → bool) (k : Key) : bool :=
  let m := f riscv_m_mode && supports_riscv_m_mode spec in
  let s := f riscv_s_mode && supports_riscv_s_mode spec in
  let s := if negb (supports_riscv_m_mode spec) && negb s then default_riscv_s_mode spec else s in
  match k with
  | riscv_xlen_64 => is_riscv spec && (bool_decide (f riscv_xlen_32 = f riscv_xlen_64) || f riscv_xlen_64)
  | riscv_xlen_32 => is_riscv spec && negb (bool_decide (f riscv_xlen_32 = f riscv_xlen_64)) && f riscv_xlen_32
  | riscv_s_mode => is_riscv spec && (if bool_decide (s = m) then default_riscv_s_mode spec else s)
  | riscv_m_mode => is_riscv spec && (if bool_decide (s = m) then negb (default_riscv_s_mode spec) else m)
  | riscv_hypervisor => f k && supports_hypervisor spec && negb (is_riscv spec && f riscv_xlen_32 && negb (f riscv_xlen_64))
  | driver_ns16550a => f k && supports_ns16550a spec
  | driver_cmsdk_uart => f k && supports_cmsdk_uart spec
  | driver_virtio_blk => f k && supports_virtio_blk spec
  | driver_virtio_gpu => f k && supports_virtio_gpu spec
  | driver_virtio_rng => f k && supports_virtio_rng spec
  | driver_lan9118 => f k && supports_lan9118 spec
  | async_rt => f k && supports_async_rt spec
  | builtin_shell => f k && negb (supports_mcu_profile spec)
  | k => f k
  end.

Lemma flag_when (b : bool) (k : Key) (r : bool) (cfg : BuildConfig) (j : Key) :
  flag (when b (constrain_bool k r) cfg) j = if b && bool_decide (j = k) then r else flag cfg j.
Proof. destruct b; [|done]. cbn. by destruct (decide (j = k)); [rewrite bool_decide_true|rewrite bool_decide_false]. Qed.

Lemma modes_spec (spec : PlatformSpec) (cfg : BuildConfig) (k : Key) : flag (constrain_modes spec cfg) k =
  let f := flag cfg in
  let s := f riscv_s_mode && supports_riscv_s_mode spec in
  match k with
  | riscv_xlen_64 => is_riscv spec && (bool_decide (f riscv_xlen_32 = f riscv_xlen_64) || f riscv_xlen_64)
  | riscv_xlen_32 => is_riscv spec && negb (bool_decide (f riscv_xlen_32 = f riscv_xlen_64)) && f riscv_xlen_32
  | riscv_s_mode => is_riscv spec && (if negb (supports_riscv_m_mode spec) && negb s then default_riscv_s_mode spec else s)
  | riscv_m_mode => is_riscv spec && (f riscv_m_mode && supports_riscv_m_mode spec)
  | k => f k
  end.
Proof.
  destruct cfg as [p t n b f]. unfold constrain_modes. cbn [flag]. destruct (is_riscv spec); [|by destruct k].
  destruct (bool_decide _); destruct (supports_riscv_s_mode spec), (supports_riscv_m_mode spec); cbn;
    destruct (f riscv_s_mode) eqn:Es; cbn; destruct k; cbn; rewrite ?Es, ?andb_true_r, ?andb_false_r; done.
Qed.

Lemma apply_spec (spec : PlatformSpec) (cfg : BuildConfig) (k : Key) : flag (apply_platform_constraints spec cfg) k = constrained spec (flag cfg) k.
Proof.
  unfold apply_platform_constraints. cbv zeta. set (cfg1 := constrain_modes spec cfg).
  set (cfg2 := when (is_riscv spec && flag cfg1 riscv_xlen_32 && flag cfg1 riscv_hypervisor) (constrain_bool riscv_hypervisor false) cfg1).
  assert (H2 : ∀ j, flag cfg2 j = if bool_decide (j = riscv_hypervisor) then flag cfg1 riscv_hypervisor && negb (is_riscv spec && flag cfg1 riscv_xlen_32) else flag cfg1 j).
  { intros j. unfold cfg2. rewrite flag_when. case_bool_decide as Hj; [subst j|by rewrite andb_false_r].
    by destruct (is_riscv spec), (flag cfg1 riscv_xlen_32), (flag cfg1 riscv_hypervisor). }
  set (both := is_riscv spec && bool_decide (flag cfg2 riscv_s_mode = flag cfg2 riscv_m_mode)).
  set (cfg3 := when both (λ cfg, if default_riscv_s_mode spec then constrain_bool riscv_m_mode false (constrain_bool riscv_s_mode true cfg)
                            else constrain_bool riscv_m_mode true (constrain_bool riscv_s_mode false cfg)) cfg2).
  assert (H3 : ∀ j, flag cfg3 j = match j with
    | riscv_s_mode => if both then default_riscv_s_mode spec else flag cfg2 j
    | riscv_m_mode => if both then negb (default_riscv_s_mode spec) else flag cfg2 j
    | j => flag cfg2 j end).
  { intros j. unfold cfg3, when. destruct both; [|by destruct j]. destruct (default_riscv_s_mode spec); by destruct j. }
  rewrite !flag_when, !H3, !H2. unfold both. rewrite !H2. unfold cfg1. rewrite !modes_spec. cbv zeta. unfold constrained.
  destruct k; cbn [andb]; repeat (rewrite bool_decide_false by discriminate || rewrite bool_decide_true by reflexivity); rewrite ?andb_false_r, ?andb_true_r.
  all: try done.
  all: cbn [andb]; repeat match goal with
    | |- context [flag ?c ?k] => destruct (flag c k)
    | |- context [is_riscv ?s] => destruct (is_riscv s)
    | |- context [negb (?f ?s)] => match type of s with PlatformSpec => destruct (f s) end
    | |- context [supports_riscv_s_mode ?s] => destruct (supports_riscv_s_mode s)
    | |- context [default_riscv_s_mode ?s] => destruct (default_riscv_s_mode s)
    | |- context [supports_hypervisor ?s] => destruct (supports_hypervisor s)
    end; reflexivity.
Qed.

(** *** Loading *)

(** A file that sets every key. *)
Record loads (values : string → option CfgValue) (backend : string) (base : Z) (f : Key → bool) : Prop := {
  ld_backend : values "OPENION_NET_BACKEND"%string = Some (VString backend);
  ld_base : values "OPENION_RISCV_KERNEL_BASE"%string = Some (VInt base) ∧ (0 <= base <= USIZE_MAX)%Z;
  ld_flags : ∀ k, values (key_name k) = Some (VBool (f k));
}.

Lemma get_bools_spec (values : string → option CfgValue) (f : Key → bool) (ks : list Key) : (∀ k, values (key_name k) = Some (VBool (f k))) →
  ∀ g, ∃ g', get_bools values ks g = inr g' ∧ ∀ k, g' k = if bool_decide (k ∈ ks) then f k else g k.
Proof.
  intros Hf. induction ks as [|k ks IH]; intros g; cbn [get_bools]; [exists g; split; [done|]; intros k; by rewrite bool_decide_false by apply not_elem_of_nil|].
  unfold get_bool. rewrite Hf. cbn [bind_result]. destruct (IH (λ j, if decide (j = k) then f k else g j)) as (g'&->&Hg'). exists g'. split; [done|].
  intros j. rewrite Hg'. destruct (decide (j ∈ ks)) as [Hj|Hj]; [rewrite !bool_decide_true by (done || by right); done|]. rewrite (bool_decide_false (j ∈ ks)) by done.
  destruct (decide (j = k)) as [->|Hne]; [by rewrite bool_decide_true by left|]. rewrite bool_decide_false; [done|]. rewrite elem_of_cons. tauto.
Qed.

Lemma keys_all (k : Key) : k ∈ [riscv_xlen_64; riscv_xlen_32] ∨ k ∈ drop 2 keys.
Proof. destruct k; ((left; apply (bool_decide_unpack _); vm_compute; exact I) || (right; apply (bool_decide_unpack _); vm_compute; exact I)). Qed.

Lemma load_spec (values : string → option CfgValue) (backend : string) (base : Z) (f : Key → bool) : loads values backend base f →
  ∃ g, load_build_config values = inr (mk_build "" "" backend base g) ∧ ∀ k, g k = f k.
Proof.
  intros [Hb [Hbase [H0 Hm]] Hf]. unfold load_build_config, get_str, get_usize. rewrite Hb, Hbase. cbn [bind_result].
  destruct (get_bools_spec values f [riscv_xlen_64; riscv_xlen_32] Hf (λ _, false)) as (g1&->&H1). cbn [bind_result].
  rewrite (proj2 (Z.leb_le 0 base)), (proj2 (Z.leb_le base USIZE_MAX)) by done. cbn [andb bind_result].
  destruct (get_bools_spec values f (drop 2 keys) Hf g1) as (g2&->&H2). exists g2. split; [done|].
  intros k. rewrite H2. case_bool_decide as Hk; [done|]. rewrite H1, bool_decide_true; [done|]. by destruct (keys_all k).
Qed.

Lemma platform_found (spec : PlatformSpec) : spec ∈ PLATFORMS → platform_spec (sp_name spec) = inr spec.
Proof. intros Hs. repeat (apply elem_of_cons in Hs as [->|Hs]; [reflexivity|]). by apply not_elem_of_nil in Hs. Qed.

(** *** Features *)

Definition declared (spec : PlatformSpec) (features : list string) : bool := forallb (λ x, bool_decide (x ∈ package_features (package spec))) features.

Lemma declared_app (spec : PlatformSpec) (l1 l2 : list string) : declared spec l1 = true → declared spec l2 = true → declared spec (l1 ++ l2) = true.
Proof. unfold declared. intros H1 H2. by rewrite forallb_app, H1, H2. Qed.

Lemma declared_push (spec : PlatformSpec) (b : bool) (x : string) : b = false ∨ declared spec [x] = true → declared spec (push b x) = true.
Proof. by intros [-> | H]; [|destruct b]. Qed.

Lemma declared_if (spec : PlatformSpec) (b : bool) (l1 l2 : list string) : b = false ∨ declared spec l1 = true → declared spec l2 = true →
  declared spec (if b then l1 else l2) = true.
Proof. by intros [-> | H] H2; [|destruct b]. Qed.

(** Every feature is one that the package declares. *)
Lemma features_declared (spec : PlatformSpec) (cfg : BuildConfig) : spec ∈ PLATFORMS → declared spec (collect_features spec cfg) = true.
Proof.
  intros Hs. repeat (apply elem_of_cons in Hs as [->|Hs]); [..|by apply not_elem_of_nil in Hs]; unfold collect_features;
    repeat first [apply declared_app|apply declared_push; (left; reflexivity) || (right; vm_compute; reflexivity)
                 |apply declared_if; [left; reflexivity|vm_compute; reflexivity] | apply declared_if; [right|]|vm_compute; reflexivity].
Qed.

(** *** The whole preparation *)

Lemma when_fields (b : bool) (f : BuildConfig → BuildConfig) (cfg : BuildConfig) :
  (∀ c, (platform (f c), target (f c), net_backend (f c), riscv_kernel_base (f c)) = (platform c, target c, net_backend c, riscv_kernel_base c)) →
  (platform (when b f cfg), target (when b f cfg), net_backend (when b f cfg), riscv_kernel_base (when b f cfg))
    = (platform cfg, target cfg, net_backend cfg, riscv_kernel_base cfg).
Proof. intros Hf. by destruct b; [apply Hf|]. Qed.

(** The constraints change only the flags. *)
Lemma apply_fields (spec : PlatformSpec) (cfg : BuildConfig) : let c := apply_platform_constraints spec cfg in
  (platform c, target c, net_backend c, riscv_kernel_base c) = (platform cfg, target cfg, net_backend cfg, riscv_kernel_base cfg).
Proof.
  unfold apply_platform_constraints, constrain_modes. cbv zeta.
  repeat (rewrite when_fields; [|intros c; try reflexivity]); [|by destruct (default_riscv_s_mode spec)..].
  destruct (is_riscv spec); [|reflexivity]. repeat (rewrite when_fields; [|intros c; try reflexivity]); [reflexivity|].
  destruct (flag _ riscv_s_mode) eqn:E; unfold when; by rewrite ?E.
Qed.

(** The target depends on two flags. *)
Lemma target_ext (spec : PlatformSpec) (c1 c2 : BuildConfig) : flag c1 riscv_xlen_32 = flag c2 riscv_xlen_32 → flag c1 riscv_ext_c = flag c2 riscv_ext_c →
  target_for_config spec c1 = target_for_config spec c2.
Proof. unfold target_for_config. by intros -> ->. Qed.

Definition both_widths (spec : PlatformSpec) (f : Key → bool) : bool := is_riscv spec && f riscv_xlen_32 && f riscv_xlen_64.

(** The target that the values give and the one that the constrained flags give. *)
Lemma target_kept (spec : PlatformSpec) (c1 c2 : BuildConfig) : (∀ k, flag c2 k = constrained spec (flag c1) k) →
  bool_decide (target_for_config spec c1 = target_for_config spec c2) = negb (both_widths spec (flag c1)).
Proof.
  intros H. unfold target_for_config, both_widths. rewrite !H. cbn [constrained].
  destruct (is_riscv spec); cbn; [|by apply bool_decide_true].
  destruct (flag c1 riscv_xlen_32), (flag c1 riscv_xlen_64), (flag c1 riscv_ext_c); reflexivity.
Qed.

(** One mode and one width, whatever the values say. *)
Lemma constrained_modes (spec : PlatformSpec) (f : Key → bool) : is_riscv spec = true →
  constrained spec f riscv_xlen_32 = negb (constrained spec f riscv_xlen_64) ∧ constrained spec f riscv_s_mode = negb (constrained spec f riscv_m_mode).
Proof.
  intros Hr. unfold constrained. rewrite Hr. cbn [andb]. split; [by destruct (f riscv_xlen_32), (f riscv_xlen_64)|].
  match goal with |- context [bool_decide (?s = ?m)] => destruct s, m end; by destruct (default_riscv_s_mode spec).
Qed.

Ltac split_flags f := repeat match goal with |- context [f ?k] => destruct (f k) end.

(** The facts of the platforms that the flags need. *)
Lemma constrained_limits (spec : PlatformSpec) (f : Key → bool) : spec ∈ PLATFORMS →
  (constrained spec f riscv_s_mode = true → supports_riscv_s_mode spec = true) ∧ (constrained spec f riscv_m_mode = true → supports_riscv_m_mode spec = true) ∧
  (constrained spec f riscv_hypervisor = true → supports_hypervisor spec = true ∧ constrained spec f riscv_xlen_64 = true) ∧
  (is_riscv spec = false → constrained spec f riscv_xlen_32 = false ∧ constrained spec f riscv_xlen_64 = false ∧
    constrained spec f riscv_s_mode = false ∧ constrained spec f riscv_m_mode = false).
Proof.
  intros Hs. repeat (apply elem_of_cons in Hs as [->|Hs]); [..|by apply not_elem_of_nil in Hs]; cbn; split_flags f; cbn; intuition congruence.
Qed.

Lemma constrained_ok (spec : PlatformSpec) (cfg : BuildConfig) (f : Key → bool) : spec ∈ PLATFORMS → (∀ k, flag cfg k = constrained spec f k) →
  platform cfg = sp_name spec → target cfg = target_for_config spec cfg → (is_riscv spec = true → f riscv_ext_d = true → f riscv_ext_f = true) →
  net_backend cfg = "ionnet"%string ∨ net_backend cfg = "smoltcp"%string → built_ok spec cfg.
Proof.
  intros Hs H Hp Ht Hd Hb. destruct (constrained_limits spec f Hs) as (HS&HM&HH&Ha). pose proof (constrained_modes spec f) as Hr.
  split; try done; rewrite ?H; try done.
  - destruct (is_riscv spec); [by apply Hr|]. by destruct (Ha eq_refl) as (?&?&?).
  - destruct (is_riscv spec); [by apply Hr|]. by destruct (Ha eq_refl) as (?&?&?&?).
  - repeat (apply Forall_cons; split; [rewrite H; cbn [constrained]; by intros [_ ?]%andb_prop|]). by apply Forall_nil.
Qed.

(** What [validate_build_config] decides on constrained flags. *)
Definition verdict (spec : PlatformSpec) (backend : string) (f : Key → bool) (r : BuildError + unit) : Prop :=
  match r with
  | inr _ => both_widths spec f = false ∧ (is_riscv spec = true → f riscv_ext_d = true → f riscv_ext_f = true)
             ∧ (backend = "ionnet"%string ∨ backend = "smoltcp"%string)
  | inl (WrongTarget _ _ _) => both_widths spec f = true
  | inl DNeedsF => is_riscv spec = true ∧ f riscv_ext_d = true ∧ f riscv_ext_f = false
  | inl (UnsupportedBackend name) => name = backend ∧ backend ≠ "ionnet"%string ∧ backend ≠ "smoltcp"%string
  | inl _ => False
  end.

Lemma negb_same (b : bool) : bool_decide (negb b = b) = false.
Proof. by destruct b. Qed.

Lemma validate_spec (spec : PlatformSpec) (cfg : BuildConfig) (c0 : BuildConfig) : spec ∈ PLATFORMS → platform cfg = sp_name spec →
  (∀ k, flag cfg k = constrained spec (flag c0) k) → target cfg = target_for_config spec c0 →
  verdict spec (net_backend cfg) (flag c0) (validate_build_config cfg) ∧
  (validate_build_config cfg = inr () → target cfg = target_for_config spec cfg).
Proof.
  intros Hs Hp H Ht. unfold validate_build_config. rewrite Hp, platform_found by done. cbn [bind_result]. rewrite Ht, (target_kept spec c0 cfg H), negb_involutive.
  pose proof (target_kept spec c0 cfg H) as Hk. destruct (both_widths spec (flag c0)) eqn:Hb; [by split|]. apply bool_decide_eq_true in Hk.
  split; [|done]. rewrite !H. destruct (constrained_limits spec (flag c0) Hs) as (_&_&HH&_). pose proof (constrained_modes spec (flag c0)) as Hr.
  destruct (is_riscv spec) eqn:Er; cbn [andb].
  - destruct Hr as [Hx Hm]; [done|]. rewrite Hx, Hm, !negb_same.
    destruct (constrained spec (flag c0) riscv_hypervisor); [destruct HH as [_ ->]; [done|]|rewrite andb_false_r]; cbn [negb andb];
      cbn [constrained]; destruct (flag c0 riscv_ext_d) eqn:Ed, (flag c0 riscv_ext_f) eqn:Ef; cbn [negb andb]; try (cbn; by rewrite Er);
      repeat case_bool_decide; cbn; rewrite ?Er, ?Ed, ?Ef; tauto.
  - repeat case_bool_decide; cbn; rewrite ?Er; intuition discriminate.
Qed.

(** C38. Preparing a build for a platform that exists from a configuration that sets every key has one of four outcomes, and the values decide which: a RISC-V
    configuration with both widths is refused for its target, [D] without [F] and an unknown network are refused, and every other configuration comes out
    with the flags that the platform allows, in the order the tool settles them, fitting the platform in every respect that [built_ok] lists, and with
    features that the platform's package declares. *)
Theorem prepare_build_result (spec : PlatformSpec) (values : string → option CfgValue) (backend : string) (base : Z) (f : Key → bool) :
  spec ∈ PLATFORMS → loads values backend base f →
  verdict spec backend f (match prepare_build (Some (sp_name spec)) values with inl e => inl e | inr _ => inr () end) ∧
  ∀ cfg, prepare_build (Some (sp_name spec)) values = inr cfg →
    built_ok spec cfg ∧ (∀ k, flag cfg k = constrained spec f k) ∧ riscv_kernel_base cfg = base ∧ declared spec (collect_features spec cfg) = true.
Proof.
  intros Hs Hl. unfold prepare_build. cbv zeta. cbn [from_option]. unfold Datatypes.id. rewrite platform_found by done. destruct (load_spec _ _ _ _ Hl) as (g&->&Hg). cbn [bind_result].
  set (c0 := mk_build _ (target_for_config _ _) _ _ _). set (c := apply_platform_constraints spec c0).
  pose proof (apply_fields spec c0) as Hf. cbv zeta in Hf. fold c in Hf. injection Hf as Hp Ht Hb Hk. cbn in Hb, Hk.
  assert (Hc : ∀ k, flag c k = constrained spec g k) by (intros k; apply apply_spec).
  assert (Hx : ∀ k, constrained spec g k = constrained spec f k) by (intros k; unfold constrained; by rewrite !Hg; destruct k; rewrite ?Hg).
  destruct (validate_spec spec c c0) as [Hv Ht']; [done|done|done|by rewrite Ht; apply target_ext|]. 
  assert (Hv' : verdict spec backend f (validate_build_config c)).
  { rewrite Hb in Hv. revert Hv. unfold verdict, both_widths. cbn [flag c0]. by rewrite !Hg. }
  destruct (validate_build_config c) as [e|[]] eqn:E; cbn [bind_result]; [done|]. split; [done|]. intros cfg [= <-].
  destruct Hv' as (_&Hd&Hn). split; [|split; [|split; [done|by apply features_declared]]].
  - apply (constrained_ok spec c f); try done; [intros k; by rewrite Hc, Hx|by apply Ht'|by rewrite Hb].
  - intros k. by rewrite Hc, Hx.
Qed.

(** A configuration with the hypervisor and the GPU for the SoC on Verilator, which has neither. *)
Definition demo_flags (k : Key) : bool :=
  bool_decide (k ∈ [riscv_xlen_64; riscv_s_mode; riscv_ext_m; riscv_ext_a; riscv_ext_c; riscv_hypervisor; builtin_shell; driver_ns16550a; driver_virtio_gpu]).
Definition demo_values (key : string) : option CfgValue :=
  if bool_decide (key = "OPENION_NET_BACKEND"%string) then Some (VString "ionnet")
  else if bool_decide (key = "OPENION_RISCV_KERNEL_BASE"%string) then Some (VInt 2149580800)
  else match list_find (λ k, key_name k = key) keys with Some (_, k) => Some (VBool (demo_flags k)) | None => None end.

Lemma demo_loads : loads demo_values "ionnet" 2149580800 demo_flags.
Proof. split; [reflexivity|by split|intros k; by destruct k]. Qed.

Lemma prepare_build_result_witness : ∃ spec cfg, sp_name spec = "ionsoc-verilator"%string ∧ prepare_build (Some (sp_name spec)) demo_values = inr cfg ∧
  built_ok spec cfg ∧ flag cfg riscv_hypervisor = false ∧ collect_features spec cfg = ["s-mode"; "builtin_shell"; "driver_ns16550a"; "kernel/use_ionnet"]%string.
Proof.
  destruct (PLATFORMS !! 2%nat) as [spec|] eqn:E; [|discriminate].
  destruct (prepare_build_result spec demo_values "ionnet" 2149580800 demo_flags (list_elem_of_lookup_2 _ _ _ E) demo_loads) as [_ H].
  injection E as <-. destruct (prepare_build _ demo_values) as [e|cfg] eqn:Ep; [vm_compute in Ep; discriminate|].
  destruct (H cfg eq_refl) as (Hok&Hf&_). eexists _, cfg. split; [|split; [exact Ep|split; [exact Hok|split]]]; [reflexivity|by rewrite Hf|].
  vm_compute in Ep. injection Ep as <-. reflexivity.
Defined.

(** With both widths the target is derived before the widths are settled, and the build is refused for it. *)
Example both_widths_refused : let values key := if bool_decide (key = "OPENION_RISCV_XLEN_32"%string) then Some (VBool true) else demo_values key in
  prepare_build (Some "riscv-generic"%string) values = inl (WrongTarget "riscv-generic" RISCV64IMAC_TARGET RISCV32IMAC_TARGET).
Proof. vm_compute. reflexivity. Qed.

(** *** The commands *)

(** A prepared build is given to cargo, and is run exactly on the platforms that say so. *)
Lemma commands_total (spec : PlatformSpec) (cfg : BuildConfig) (release : bool) : spec ∈ PLATFORMS → platform cfg = sp_name spec →
  (∃ cmd, cargo_command cfg release = inr cmd) ∧
  if supports_qemu_run spec then ∃ cmd, qemu_command cfg release = inr cmd else qemu_command cfg release = inl (NoRunCommand (sp_name spec)).
Proof.
  intros Hs Hp. unfold cargo_command, qemu_command, cargo_rustflags. rewrite Hp, platform_found by done. cbn [bind_result]. split; [by eexists|].
  repeat (apply elem_of_cons in Hs as [->|Hs]); [..|by apply not_elem_of_nil in Hs]; cbn [supports_qemu_run negb]; try done; by eexists.
Qed.

(** The kernel that is run lies where cargo puts it: the name of the target, or of its file without the extension. *)
Example output_dirs : target_output_dir RISCV64IMAC_TARGET = bytes RISCV64IMAC_TARGET ∧
  target_output_dir RISCV32IMA_TARGET_PATH = bytes "riscv32ima-unknown-none-elf" ∧ target_output_dir "thumbv8m.main-none-eabihf" = bytes "thumbv8m".
Proof. vm_compute. done. Qed.
