(* ===== verification/Gpu.v ===== *)
(** * The VirtIO display, [drivers/virtio_gpu/src/lib.rs]

    The driver sends commands through a queue of two descriptors, a request
    and a response, and draws into a framebuffer that the device copies from.
    The queue and the framebuffer are memory that the device shares
    ([GpuMem]); commands are the bytes of the [repr(C)] structures. *)

From S2P Require Export Prelude.
From S2P Require Export Str.
From S2P Require Export Drivers.
From S2P Require Export Virtio.

Definition DEVICE_ID_GPU : Z := 16.
Definition CONTROL_QUEUE_SIZE : nat := 8.
Definition CONTROL_QUEUE_INDEX : Z := 0.
Definition RESOURCE_ID : Z := 1.
Definition BYTES_PER_PIXEL : Z := 4.
Definition MAX_WIDTH : Z := 1024.
Definition MAX_HEIGHT : Z := 768.
Definition FRAMEBUFFER_SIZE : Z := MAX_WIDTH * MAX_HEIGHT * 4.

Definition CMD_GET_DISPLAY_INFO : Z := 0x0100.
Definition CMD_RESOURCE_CREATE_2D : Z := 0x0101.
Definition CMD_SET_SCANOUT : Z := 0x0103.
Definition CMD_RESOURCE_FLUSH : Z := 0x0104.
Definition CMD_TRANSFER_TO_HOST_2D : Z := 0x0105.
Definition CMD_RESOURCE_ATTACH_BACKING : Z := 0x0106.
Definition RESP_OK_NODATA : Z := 0x1100.
Definition RESP_OK_DISPLAY_INFO : Z := 0x1101.
Definition GPU_FORMAT_B8G8R8A8_UNORM : Z := 1.

(** ** The structures, as bytes *)

(** Type, flags, fence, context, ring index and padding. *)
Definition gpu_ctrl_hdr (type_ : Z) : list Z := to_le 4 type_ ++ to_le 4 0 ++ to_le 8 0 ++ to_le 4 0 ++ [0%Z] ++ replicate 3 0%Z.
Definition SIZEOF_HDR : nat := 24.

Record GpuRect : Type := mk_rect { r_x : Z; r_y : Z; r_width : Z; r_height : Z }.
Definition rect_bytes (r : GpuRect) : list Z := to_le 4 (r_x r) ++ to_le 4 (r_y r) ++ to_le 4 (r_width r) ++ to_le 4 (r_height r).

(** The commands of the driver: the structure that it sends for each. *)
Inductive GpuCommand : Type :=
  | GetDisplayInfo
  | ResourceCreate2d (resource_id format width height : Z)
  | ResourceAttachBacking (resource_id nr_entries addr length : Z)
  | SetScanout (r : GpuRect) (scanout_id resource_id : Z)
  | TransferToHost2d (r : GpuRect) (offset resource_id : Z)
  | ResourceFlush (r : GpuRect) (resource_id : Z).

Definition command_bytes (c : GpuCommand) : list Z :=
  match c with
  | GetDisplayInfo => gpu_ctrl_hdr CMD_GET_DISPLAY_INFO
  | ResourceCreate2d id format width height => gpu_ctrl_hdr CMD_RESOURCE_CREATE_2D ++ to_le 4 id ++ to_le 4 format ++ to_le 4 width ++ to_le 4 height
  | ResourceAttachBacking id n addr len => gpu_ctrl_hdr CMD_RESOURCE_ATTACH_BACKING ++ to_le 4 id ++ to_le 4 n ++ to_le 8 addr ++ to_le 4 len ++ to_le 4 0
  | SetScanout r scanout id => gpu_ctrl_hdr CMD_SET_SCANOUT ++ rect_bytes r ++ to_le 4 scanout ++ to_le 4 id
  | TransferToHost2d r offset id => gpu_ctrl_hdr CMD_TRANSFER_TO_HOST_2D ++ rect_bytes r ++ to_le 8 offset ++ to_le 4 id ++ to_le 4 0
  | ResourceFlush r id => gpu_ctrl_hdr CMD_RESOURCE_FLUSH ++ rect_bytes r ++ to_le 4 id ++ to_le 4 0
  end.

(** [GpuDisplayInfo]: the header and sixteen modes. *)
Record GpuDisplayOne : Type := mk_mode { dm_rect : GpuRect; dm_enabled : Z }.
Definition RESP_SIZE : nat := 408.

Definition u32_at (l : list Z) (off : nat) : Z := le_bytes (take 4 (drop off l)).
Definition response_type (resp : list Z) : Z := u32_at resp 0.
Definition display_mode (resp : list Z) (i : nat) : GpuDisplayOne :=
  let off := SIZEOF_HDR + 24 * i in
  mk_mode (mk_rect (u32_at resp off) (u32_at resp (off + 4)) (u32_at resp (off + 8)) (u32_at resp (off + 12))) (u32_at resp (off + 16)).

(** ** The device *)

Record GpuMem : Type := mk_gm {
  gm_desc : list VirtqDesc;
  gm_avail : VirtqAvail;
  gm_used : VirtqUsed;
  gm_request : list Z;
  gm_response : list Z;
  gm_framebuffer : Z → Z;
}.
Definition gm_zero : GpuMem :=
  mk_gm (replicate CONTROL_QUEUE_SIZE desc_zero) (mk_avail 0 0 (replicate CONTROL_QUEUE_SIZE 0%Z)) (mk_used 0 0 (replicate CONTROL_QUEUE_SIZE (mk_used_elem 0 0)))
    (replicate 256 0%Z) (replicate RESP_SIZE 0%Z) (λ _, 0%Z).

Class GpuBus (S : Type) `{!MmioDevice S} : Type := {
  gpu_mem : S → GpuMem;
  set_gpu_mem : S → GpuMem → S;
  gpu_tick : S → S;
}.

Record GpuLayout : Type := mk_gpu_layout { ga_desc : Z; ga_avail : Z; ga_used : Z; ga_request : Z; ga_response : Z; ga_framebuffer : Z }.
Definition gpu_layout (w base fb : Z) : GpuLayout :=
  let aligned := align_up w 4095 base in
  mk_gpu_layout aligned (aligned + Z.of_nat CONTROL_QUEUE_SIZE * 16) (aligned + 4096) (aligned + 8192) (aligned + 8192 + 256) fb.
(** The static memory of the queue, and how far it is cleared. *)
Definition GPU_QUEUE_MEM : Z := 12288.
Definition gpu_cleared_end (w base : Z) : Z := align_up w 4095 base + 12288.

Record VirtioGpu : Type := mk_gpu { u_layout : GpuLayout; u_last_used_idx : Z; u_io_busy : bool; u_width : Z; u_height : Z; u_scanout_id : Z }.
Definition gpu_new : VirtioGpu := mk_gpu (mk_gpu_layout 0 0 0 0 0 0) 0 false 0 0 0.

Definition gpu_set_layout (d : VirtioGpu) (la : GpuLayout) (last : Z) : VirtioGpu := mk_gpu la last (u_io_busy d) (u_width d) (u_height d) (u_scanout_id d).
Definition gpu_set_last (d : VirtioGpu) (last : Z) : VirtioGpu := mk_gpu (u_layout d) last (u_io_busy d) (u_width d) (u_height d) (u_scanout_id d).
Definition gpu_set_busy (d : VirtioGpu) (b : bool) : VirtioGpu := mk_gpu (u_layout d) (u_last_used_idx d) b (u_width d) (u_height d) (u_scanout_id d).
Definition gpu_set_mode (d : VirtioGpu) (scanout width height : Z) : VirtioGpu := mk_gpu (u_layout d) (u_last_used_idx d) (u_io_busy d) width height scanout.

Definition framebuffer_len (d : VirtioGpu) : Z := u_width d * u_height d * BYTES_PER_PIXEL.
Definition full_rect (d : VirtioGpu) : GpuRect := mk_rect 0 0 (u_width d) (u_height d).

(** The bytes [l] at [off] of the framebuffer; a slice past its end panics. *)
Definition fb_put (fb : Z → Z) (off : Z) (l : list Z) : exec (Z → Z) :=
  if (off + Z.of_nat (length l) <=? FRAMEBUFFER_SIZE)%Z
  then Done (λ a, if (off <=? a)%Z && (a <? off + Z.of_nat (length l))%Z then nth (Z.to_nat (a - off)) l 0%Z else fb a) else Stuck.

(** The columns [px], ..., [px + n - 1] of the row at [row], and the rows. *)
Fixpoint fill_columns (n : nat) (row px : Z) (color : list Z) (fb : Z → Z) : exec (Z → Z) :=
  match n with O => Done fb | S n => fb ← fb_put fb (row + px * 4) color; fill_columns n row (px + 1) color fb end.
Fixpoint fill_rows (n : nat) (py x end_x stride : Z) (color : list Z) (fb : Z → Z) : exec (Z → Z) :=
  match n with O => Done fb | S n => fb ← fill_columns (Z.to_nat (end_x - x)) (py * stride) x color fb; fill_rows n (py + 1) x end_x stride color fb end.

Section gpu.
Context {S : Type} `{!MmioDevice S} `{!GpuBus S}.
Context (w queue_mem fb_mem : Z) (allow_legacy : bool) (poll_limit : nat).

Definition gpu_setup_queue (d : VirtioGpu) (s : S) : bool * VirtioGpu * S :=
  let la := gpu_layout w queue_mem fb_mem in
  let d := gpu_set_layout d la 0 in
  let s := set_gpu_mem s gm_zero in
  let '(r, s) := transport_setup_queue s CONTROL_QUEUE_INDEX (Z.of_nat CONTROL_QUEUE_SIZE) (ga_desc la) (ga_avail la) (ga_used la) in
  (match r with inl _ => false | inr _ => true end, d, s).

Fixpoint gpu_poll (n : nat) (last : Z) (s : S) : option Z * S :=
  match n with
  | O => (None, s)
  | Datatypes.S n =>
      let s := gpu_tick s in
      let used_idx := us_idx (gm_used (gpu_mem s)) in
      if negb (used_idx =? last)%Z then (Some used_idx, s) else gpu_poll n last s
  end.

(** The request, the two descriptors and the available ring. *)
Definition gpu_submit (d : VirtioGpu) (cmd : list Z) (response_len : nat) (s : S) : exec S :=
  let m := gpu_mem s in
  let desc := <[1 := mk_desc (ga_response (u_layout d)) (Z.of_nat response_len) WRITE 0]>
    (<[0 := mk_desc (ga_request (u_layout d)) (Z.of_nat (length cmd)) NEXT 1]> (gm_desc m)) in
  let s := set_gpu_mem s (mk_gm desc (gm_avail m) (gm_used m) (cmd ++ replicate (256 - length cmd) 0%Z) (replicate RESP_SIZE 0%Z) (gm_framebuffer m)) in
  let m := gpu_mem s in
  avail ← offer CONTROL_QUEUE_SIZE (gm_avail m);
  Done (set_gpu_mem s (mk_gm (gm_desc m) avail (gm_used m) (gm_request m) (gm_response m) (gm_framebuffer m))).

Definition send_command_locked (d : VirtioGpu) (s : S) (c : GpuCommand) (expected_type : Z) (response_len : nat) : exec ((DriverErr + unit) * VirtioGpu * S) :=
  let cmd := command_bytes c in
  if (256 <? length cmd) || (RESP_SIZE <? response_len) then Done (inl InvalidConfig, d, s) else
  s ← gpu_submit d cmd response_len s;
  let s := notify_queue s CONTROL_QUEUE_INDEX in
  let '(r, s) := gpu_poll poll_limit (u_last_used_idx d) s in
  match r with
  | None => Done (inl Timeout, d, s)
  | Some used_idx =>
      let d := gpu_set_last d used_idx in
      let '(_, s) := ack_interrupts s in
      if (response_type (gm_response (gpu_mem s)) =? expected_type)%Z then Done (inr (), d, s) else Done (inl HardwareFault, d, s)
  end.

Definition send_command (d : VirtioGpu) (s : S) (c : GpuCommand) (expected_type : Z) (response_len : nat) : exec ((DriverErr + unit) * VirtioGpu * S) :=
  if u_io_busy d then Done (inl DriverBusy, gpu_set_busy d true, s) else
  '(result, d, s) ← send_command_locked (gpu_set_busy d true) s c expected_type response_len;
  Done (result, gpu_set_busy d false, s).

(** [send_command(...)?] and the rest. *)
Definition sent (d : VirtioGpu) (s : S) (c : GpuCommand) (k : VirtioGpu → S → exec ((DriverErr + unit) * VirtioGpu * S)) : exec ((DriverErr + unit) * VirtioGpu * S) :=
  '(r, d, s) ← send_command d s c RESP_OK_NODATA SIZEOF_HDR;
  match r with inl e => Done (inl e, d, s) | inr _ => k d s end.

(** The first mode of [n] from [i] that can be used. *)
Fixpoint find_mode (n i : nat) (resp : list Z) : Z * Z * Z :=
  match n with
  | O => (0, MAX_WIDTH, MAX_HEIGHT)%Z
  | Datatypes.S n =>
      let mode := display_mode resp i in
      let r := dm_rect mode in
      if negb (dm_enabled mode =? 0)%Z && negb (r_width r =? 0)%Z && negb (r_height r =? 0)%Z then (Z.of_nat i, r_width r, r_height r)
      else find_mode n (i + 1) resp
  end.

Definition read_display_info (d : VirtioGpu) (s : S) : exec ((DriverErr + Z * Z * Z) * VirtioGpu * S) :=
  '(r, d, s) ← send_command d s GetDisplayInfo RESP_OK_DISPLAY_INFO RESP_SIZE;
  match r with
  | inl e => Done (inl e, d, s)
  | inr _ => Done (inr (find_mode 16 0 (gm_response (gpu_mem s))), d, s)
  end.

Definition flush_rect (d : VirtioGpu) (s : S) (rect : GpuRect) : exec ((DriverErr + unit) * VirtioGpu * S) :=
  sent d s (TransferToHost2d rect 0 RESOURCE_ID) (λ d s,
  send_command d s (ResourceFlush rect RESOURCE_ID) RESP_OK_NODATA SIZEOF_HDR).

Definition create_framebuffer_resource (d : VirtioGpu) (s : S) : exec ((DriverErr + unit) * VirtioGpu * S) :=
  let rect := full_rect d in
  sent d s (ResourceCreate2d RESOURCE_ID GPU_FORMAT_B8G8R8A8_UNORM (u_width d) (u_height d)) (λ d s,
  sent d s (ResourceAttachBacking RESOURCE_ID 1 (ga_framebuffer (u_layout d)) (wrap 32 (framebuffer_len d))) (λ d s,
  sent d s (SetScanout rect (u_scanout_id d) RESOURCE_ID) (λ d s, flush_rect d s rect))).

Definition fill_rect (d : VirtioGpu) (s : S) (x y width height bgra : Z) : exec ((DriverErr + unit) * VirtioGpu * S) :=
  if (u_width d <=? x)%Z || (u_height d <=? y)%Z then Done (inl InvalidConfig, d, s) else
  let end_x := Z.min (Z.min (x + width) U32_MAX) (u_width d) in
  let end_y := Z.min (Z.min (y + height) U32_MAX) (u_height d) in
  let color := to_le 4 bgra in
  stride ← (if (u_width d * BYTES_PER_PIXEL <? 2 ^ 32)%Z then Done (u_width d * BYTES_PER_PIXEL)%Z else Stuck);
  let m := gpu_mem s in
  fb ← fill_rows (Z.to_nat (end_y - y)) y x end_x stride color (gm_framebuffer m);
  let s := set_gpu_mem s (mk_gm (gm_desc m) (gm_avail m) (gm_used m) (gm_request m) (gm_response m) fb) in
  flush_rect d s (mk_rect x y (end_x - x) (end_y - y)).

Definition clear (d : VirtioGpu) (s : S) (bgra : Z) : exec ((DriverErr + unit) * VirtioGpu * S) := fill_rect d s 0 0 (u_width d) (u_height d) bgra.

Definition flush (d : VirtioGpu) (s : S) : exec ((DriverErr + unit) * VirtioGpu * S) := flush_rect d s (full_rect d).

Definition write_framebuffer (d : VirtioGpu) (s : S) (offset : Z) (data : list Z) : exec ((DriverErr + Z) * S) :=
  let len := framebuffer_len d in
  if (len <=? offset)%Z then Done (inl InvalidConfig, s) else
  let n := Z.min (Z.of_nat (length data)) (len - offset) in
  let m := gpu_mem s in
  fb ← fb_put (gm_framebuffer m) offset (take (Z.to_nat n) data);
  Done (inr n, set_gpu_mem s (mk_gm (gm_desc m) (gm_avail m) (gm_used m) (gm_request m) (gm_response m) fb)).

(** [FramebufferInfo]: width, height and stride; the format is always the same. *)
Definition info (d : VirtioGpu) : exec (option (Z * Z * Z)) :=
  if (u_width d =? 0)%Z || (u_height d =? 0)%Z then Done None else
  if (u_width d * BYTES_PER_PIXEL <? 2 ^ 32)%Z then Done (Some (u_width d, u_height d, u_width d * BYTES_PER_PIXEL)%Z) else Stuck.

Definition gpu_init_hw (d : VirtioGpu) (s : S) : exec ((DriverErr + unit) * VirtioGpu * S) :=
  let '(r, s) := handshake s DEVICE_ID_GPU allow_legacy in
  match r with
  | inl e => Done (inl e, d, s)
  | inr _ =>
      let '(ok, d, s) := gpu_setup_queue d s in
      if negb ok then Done (inl InitFailed, d, fail s) else
      '(r, d, s) ← read_display_info d s;
      match r with
      | inl e => Done (inl e, d, s)
      | inr (scanout_id, width, height) =>
          let d := gpu_set_mode d scanout_id (Z.min width MAX_WIDTH) (Z.min height MAX_HEIGHT) in
          if (u_width d =? 0)%Z || (u_height d =? 0)%Z then Done (inl InvalidConfig, d, fail s) else
          '(r, d, s) ← create_framebuffer_resource d s;
          match r with
          | inl e => Done (inl e, d, s)
          | inr _ =>
              let s := set_status_bits s DRIVER_OK in
              clear d s 0xff000000
          end
      end
  end.

Definition gpu_handle_irq (irq_num : Z) (s : S) (irq_id : Z) : bool * S :=
  if negb (irq_id =? irq_num)%Z then (false, s) else let '(_, s) := ack_interrupts s in (true, s).

(** [VirtioGpuFactory::probe]. *)
Definition gpu_probe (pool : StaticDriverPool VirtioGpu) (s : S) : exec (option nat * StaticDriverPool VirtioGpu * S) :=
  if negb (read32 s DEVICE_ID =? DEVICE_ID_GPU)%Z then Done (None, pool, s) else
  '(slot, pool) ← pool_alloc pool gpu_new;
  match slot with
  | None => Done (None, pool, s)
  | Some i =>
      '(r, d, s) ← gpu_init_hw gpu_new s;
      slots ← put_exec (pool_slots pool) i (Some d);
      Done (match r with inr _ => Some i | inl _ => None end, mk_pool slots (pool_next pool), s)
  end.
End gpu.
