(* ===== verification/GpuProps.v ===== *)
(** * What the display driver promises *)

From S2P Require Export Prelude.
From S2P Require Export Virtio.
From S2P Require Export VirtioProps.
From S2P Require Export Gpu.

(** ** Drawing *)

(** The bytes of a pixel, by its number in the framebuffer. *)
Definition cell (fb : Z → Z) (k : Z) : list Z := [fb (4 * k); fb (4 * k + 1); fb (4 * k + 2); fb (4 * k + 3)]%Z.
Definition pixel (fb : Z → Z) (width x y : Z) : list Z := cell fb (y * width + x).

Definition in_rect (r : GpuRect) (x y : Z) : bool :=
  ((r_x r <=? x) && (x <? r_x r + r_width r) && (r_y r <=? y) && (y <? r_y r + r_height r))%Z.

Lemma in_rect_spec (r : GpuRect) (x y : Z) : in_rect r x y = true ↔ (r_x r <= x < r_x r + r_width r ∧ r_y r <= y < r_y r + r_height r)%Z.
Proof. unfold in_rect. rewrite !andb_true_iff, !Z.leb_le, !Z.ltb_lt. tauto. Qed.

Lemma fb_put_cell (fb : Z → Z) (k : Z) (color : list Z) : length color = 4 → (4 * k + 4 <= FRAMEBUFFER_SIZE)%Z →
  ∃ fb', fb_put fb (4 * k) color = Done fb' ∧ ∀ j, cell fb' j = if (j =? k)%Z then color else cell fb j.
Proof.
  intros Hc Hk. unfold fb_put. rewrite Hc. rewrite (proj2 (Z.leb_le _ _)) by lia. eexists. split; [done|]. intros j.
  destruct color as [|c0 [|c1 [|c2 [|c3 [|]]]]]; try done. unfold cell.
  destruct (Z.eqb_spec j k) as [->|Hne].
  - repeat match goal with |- context [((4 * k <=? ?a) && (?a <? 4 * k + Z.of_nat 4))%Z] =>
      rewrite (proj2 (Z.leb_le (4 * k) a)), (proj2 (Z.ltb_lt a (4 * k + Z.of_nat 4))) by lia end. cbn [andb].
    replace (4 * k - 4 * k)%Z with 0%Z by lia. replace (4 * k + 1 - 4 * k)%Z with 1%Z by lia.
    replace (4 * k + 2 - 4 * k)%Z with 2%Z by lia. replace (4 * k + 3 - 4 * k)%Z with 3%Z by lia. done.
  - assert (Hout : ∀ i, (0 <= i < 4)%Z → ((4 * k <=? 4 * j + i) && (4 * j + i <? 4 * k + Z.of_nat 4))%Z = false).
    { intros i Hi. apply andb_false_iff. rewrite Z.leb_gt, Z.ltb_ge. lia. }
    pose proof (Hout 0%Z ltac:(lia)) as H0. rewrite Z.add_0_r in H0. by rewrite H0, !Hout by lia.
Qed.

Lemma fill_columns_spec (row k : Z) (color : list Z) (n : nat) : length color = 4 → ∀ px fb, row = (4 * k)%Z → (4 * (k + px + Z.of_nat n) <= FRAMEBUFFER_SIZE)%Z →
  ∃ fb', fill_columns n row px color fb = Done fb' ∧
    ∀ j, cell fb' j = if ((k + px <=? j) && (j <? k + px + Z.of_nat n))%Z then color else cell fb j.
Proof.
  intros Hc. induction n as [|n IH]; intros px fb Hrow Hb; cbn [fill_columns].
  - exists fb. split; [done|]. intros j. destruct (_ && _) eqn:E; [|done]. apply andb_true_iff in E. rewrite Z.leb_le, Z.ltb_lt in E. lia.
  - replace (row + px * 4)%Z with (4 * (k + px))%Z by lia. destruct (fb_put_cell fb (k + px) color Hc ltac:(lia)) as (fb1&->&H1). cbn [mbind exec_bind].
    destruct (IH (px + 1)%Z fb1 Hrow ltac:(lia)) as (fb2&->&H2). exists fb2. split; [done|]. intros j. rewrite H2, H1.
    destruct (Z.eqb_spec j (k + px)), (Z.leb_spec (k + (px + 1)) j), (Z.leb_spec (k + px) j), (Z.ltb_spec j (k + (px + 1) + Z.of_nat n)),
      (Z.ltb_spec j (k + px + Z.of_nat (S n))); cbn [andb]; try done; lia.
Qed.

Lemma fill_rows_spec (width x end_x : Z) (color : list Z) (n : nat) : length color = 4 → (0 <= x <= end_x)%Z → (end_x <= width)%Z → ∀ py fb, (0 <= py)%Z →
  (4 * ((py + Z.of_nat n) * width) <= FRAMEBUFFER_SIZE)%Z →
  ∃ fb', fill_rows n py x end_x (width * 4) color fb = Done fb' ∧
    ∀ px' py', (0 <= px' < width)%Z → pixel fb' width px' py' =
      if ((x <=? px') && (px' <? end_x) && (py <=? py') && (py' <? py + Z.of_nat n))%Z then color else pixel fb width px' py'.
Proof.
  intros Hc Hx He. induction n as [|n IH]; intros py fb Hpy Hb; cbn [fill_rows].
  - exists fb. split; [done|]. intros px' py' _. destruct (_ && (py' <? _)%Z) eqn:E; [|done]. rewrite !andb_true_iff, !Z.leb_le, !Z.ltb_lt in E. lia.
  - destruct (fill_columns_spec (py * (width * 4)) (py * width) color (Z.to_nat (end_x - x)) Hc x fb) as (fb1&->&H1); [lia|nia|]. cbn [mbind exec_bind].
    destruct (IH (py + 1)%Z fb1 ltac:(lia) ltac:(nia)) as (fb2&->&H2). exists fb2. split; [done|]. intros px' py' Hp. rewrite H2 by done.
    unfold pixel at 1. rewrite H1. fold (pixel fb width px' py').
    assert (Hiff : ((py * width + x <=? py' * width + px') && (py' * width + px' <? py * width + x + Z.of_nat (Z.to_nat (end_x - x))))%Z
      = ((py' =? py) && (x <=? px') && (px' <? end_x))%Z).
    { apply eq_true_iff_eq. rewrite !andb_true_iff, !Z.leb_le, !Z.ltb_lt, Z.eqb_eq. split; [|lia]. intros [Hlo Hhi].
      assert (py' = py) as -> by nia. lia. }
    rewrite Hiff. destruct (Z.eqb_spec py' py), (Z.leb_spec x px'), (Z.ltb_spec px' end_x), (Z.leb_spec (py + 1) py'), (Z.leb_spec py py'),
      (Z.ltb_spec py' (py + 1 + Z.of_nat n)), (Z.ltb_spec py' (py + Z.of_nat (S n))); cbn [andb]; try done; lia.
Qed.

(** ** A conforming display *)

(** The image, its backing, what is scanned out, and what the screen shows. *)
Record GpuState : Type := mk_gs {
  gs_size : option (Z * Z);
  gs_image : Z → Z → list Z;
  gs_backing : option (Z * Z);
  gs_scanout : option (Z * GpuRect);
  gs_screen : Z → Z → list Z;
}.
Definition gs_empty : GpuState := mk_gs None (λ _ _, []) None None (λ _ _, []).

(** What the commands do, by the specification: a transfer copies a rectangle
    of the image out of its backing, from [offset] on, with the rows of the
    image; a flush shows a rectangle of the image.  [fb] is the memory that
    backs the image. *)
Definition gpu_effect (fb : Z → Z) (c : GpuCommand) (g : GpuState) : GpuState :=
  match c with
  | GetDisplayInfo => g
  | ResourceCreate2d id _ width height =>
      if (id =? RESOURCE_ID)%Z then mk_gs (Some (width, height)) (λ _ _, replicate 4 0%Z) None (gs_scanout g) (gs_screen g) else g
  | ResourceAttachBacking id _ addr len => if (id =? RESOURCE_ID)%Z then mk_gs (gs_size g) (gs_image g) (Some (addr, len)) (gs_scanout g) (gs_screen g) else g
  | SetScanout r scanout _ => mk_gs (gs_size g) (gs_image g) (gs_backing g) (Some (scanout, r)) (gs_screen g)
  | TransferToHost2d r offset _ =>
      match gs_size g with
      | None => g
      | Some (width, _) =>
          let from x y := map (λ i, fb (offset + ((y - r_y r) * width + (x - r_x r)) * 4 + i))%Z [0; 1; 2; 3]%Z in
          mk_gs (gs_size g) (λ x y, if in_rect r x y then from x y else gs_image g x y) (gs_backing g) (gs_scanout g) (gs_screen g)
      end
  | ResourceFlush r _ => mk_gs (gs_size g) (gs_image g) (gs_backing g) (gs_scanout g) (λ x y, if in_rect r x y then gs_image g x y else gs_screen g x y)
  end.

Definition ok_type (c : GpuCommand) : Z := match c with GetDisplayInfo => RESP_OK_DISPLAY_INFO | _ => RESP_OK_NODATA end.

(** The fields fit the structures. *)
Definition rect_ok (r : GpuRect) : Prop := in_width 32 (r_x r) ∧ in_width 32 (r_y r) ∧ in_width 32 (r_width r) ∧ in_width 32 (r_height r).
Definition command_ok (c : GpuCommand) : Prop :=
  match c with
  | GetDisplayInfo => True
  | ResourceCreate2d id format width height => in_width 32 id ∧ in_width 32 format ∧ in_width 32 width ∧ in_width 32 height
  | ResourceAttachBacking id n addr len => in_width 32 id ∧ in_width 32 n ∧ in_width 64 addr ∧ in_width 32 len
  | SetScanout r scanout id => rect_ok r ∧ in_width 32 scanout ∧ in_width 32 id
  | TransferToHost2d r offset id => rect_ok r ∧ in_width 64 offset ∧ in_width 32 id
  | ResourceFlush r id => rect_ok r ∧ in_width 32 id
  end.

Definition gpu_chain_ok (la : GpuLayout) (c : GpuCommand) (m : GpuMem) : Prop :=
  gm_desc m !! 0 = Some (mk_desc (ga_request la) (Z.of_nat (length (command_bytes c))) NEXT 1)
  ∧ (∃ n, gm_desc m !! 1 = Some (mk_desc (ga_response la) n WRITE 0))
  ∧ take (length (command_bytes c)) (gm_request m) = command_bytes c.

(** The command was answered: the response was written before the used index
    moved by one, and the command took effect if it was accepted. *)
Record answered (c : GpuCommand) (g g' : GpuState) (m m' : GpuMem) : Prop := {
  an_desc : gm_desc m' = gm_desc m;
  an_avail : gm_avail m' = gm_avail m;
  an_used : us_idx (gm_used m') = wrapping_add 16 (us_idx (gm_used m)) 1;
  an_fb : gm_framebuffer m' = gm_framebuffer m;
  an_resp : byte_list (gm_response m');
  an_effect : g' = if (response_type (gm_response m') =? ok_type c)%Z then gpu_effect (gm_framebuffer m) c g else g;
}.

Definition gpu_queue_writes (la : GpuLayout) : list (Z * Z) :=
  [(QUEUE_SEL, 0); (QUEUE_NUM, 8); (QUEUE_DESC_LOW, wrap 32 (ga_desc la)); (QUEUE_DESC_LOW + 4, Z.shiftr (ga_desc la) 32);
   (QUEUE_DRIVER_LOW, wrap 32 (ga_avail la)); (QUEUE_DRIVER_LOW + 4, Z.shiftr (ga_avail la) 32);
   (QUEUE_DEVICE_LOW, wrap 32 (ga_used la)); (QUEUE_DEVICE_LOW + 4, Z.shiftr (ga_used la) 32); (QUEUE_READY, 1)]%Z.

Section laws.
Context {S : Type} `{!MmioDevice S} `{!GpuBus S}.
Context (la : GpuLayout) (idle : GpuState → S → Prop) (serving : GpuCommand → GpuState → S → Prop).

(** The device serves its queue from [QUEUE_READY] on.  While it is idle the
    driver may write the memory, but for the rings. *)
Record GpuLaws : Prop := {
  gp_set : ∀ s m, gpu_mem (set_gpu_mem s m) = m;
  gp_write : ∀ s off v, gpu_mem (write32 s off v) = gpu_mem s;
  gp_read : ∀ s m off, read32 (set_gpu_mem s m) off = read32 s off;
  gp_memory : ∀ g s m, idle g s → gm_avail m = gm_avail (gpu_mem s) → gm_used m = gm_used (gpu_mem s) → idle g (set_gpu_mem s m);
  gp_offer : ∀ c g s a, idle g s → command_ok c → let m := gpu_mem s in gpu_chain_ok la c m → offer CONTROL_QUEUE_SIZE (gm_avail m) = Done a →
    serving c g (set_gpu_mem s (mk_gm (gm_desc m) a (gm_used m) (gm_request m) (gm_response m) (gm_framebuffer m)));
  gp_notify : ∀ c g s, serving c g s → serving c g (write32 s QUEUE_NOTIFY CONTROL_QUEUE_INDEX);
  gp_serve : ∀ c g s, serving c g s →
    (serving c g (gpu_tick s) ∧ gpu_mem (gpu_tick s) = gpu_mem s) ∨ ∃ g', idle g' (gpu_tick s) ∧ answered c g g' (gpu_mem s) (gpu_mem (gpu_tick s));
  gp_ack : ∀ g s v, idle g s → idle g (write32 s INTERRUPT_ACK v);
  gp_status : ∀ g s v, idle g s → v ≠ 0%Z → idle g (write32 s STATUS v);
  gp_start : ∀ s hi, idle gs_empty (writes (set_gpu_mem (writes s (begin_writes ++ feature_writes hi)) gm_zero) (gpu_queue_writes la));
}.

(** Driver and device agree. *)
Record gpu_ready (g : GpuState) (d : VirtioGpu) (s : S) : Prop := {
  gr_idle : idle g s;
  gr_desc : length (gm_desc (gpu_mem s)) = CONTROL_QUEUE_SIZE;
  gr_ring : length (av_ring (gm_avail (gpu_mem s))) = CONTROL_QUEUE_SIZE;
  gr_used : in_width 16 (us_idx (gm_used (gpu_mem s)));
  gr_last : u_last_used_idx d = us_idx (gm_used (gpu_mem s));
  gr_free : u_io_busy d = false;
  gr_layout : u_layout d = la;
}.

(** What a driver call may change of the driver. *)
Definition same_mode (d d' : VirtioGpu) : Prop :=
  u_layout d' = u_layout d ∧ u_width d' = u_width d ∧ u_height d' = u_height d ∧ u_scanout_id d' = u_scanout_id d.

#[local] Instance same_mode_preorder : PreOrder same_mode.
Proof. split; unfold same_mode; [by intros d|intros d1 d2 d3 (?&?&?&?) (?&?&?&?); split_and!; congruence]. Qed.

Context (laws : GpuLaws).

Lemma gpu_poll_spec (c : GpuCommand) (g : GpuState) (n : nat) : ∀ s last, serving c g s → in_width 16 last → last = us_idx (gm_used (gpu_mem s)) →
  (∃ s', gpu_poll n last s = (None, s') ∧ gpu_mem s' = gpu_mem s)
  ∨ ∃ g' s', gpu_poll n last s = (Some (wrapping_add 16 last 1), s') ∧ idle g' s' ∧ answered c g g' (gpu_mem s) (gpu_mem s').
Proof.
  induction n as [|n IH]; intros s last Hs Hw Hl; cbn [gpu_poll]; [left; by exists s|].
  destruct (gp_serve laws c g s Hs) as [[Hs' Hm]|(g'&Hi&Ha)].
  - rewrite Hm, <- Hl, Z.eqb_refl. cbn [negb]. destruct (IH (gpu_tick s) last Hs' Hw ltac:(by rewrite Hm)) as [(s'&?&?)|(g'&s'&?&?&Ha)].
    + left. exists s'. split; [done|congruence].
    + right. exists g', s'. rewrite Hm in Ha. by split_and!.
  - right. exists g', (gpu_tick s). rewrite (an_used _ _ _ _ _ Ha), <- Hl. destruct (next_used last Hw) as [Hne _].
    destruct (Z.eqb_spec (wrapping_add 16 last 1) last); [done|]. by split_and!.
Qed.

Lemma gpu_submit_spec (g : GpuState) (d : VirtioGpu) (s : S) (c : GpuCommand) (n : nat) : gpu_ready g d s → command_ok c → length (command_bytes c) ≤ 256 →
  ∃ s', gpu_submit d (command_bytes c) n s = Done s' ∧ serving c g s' ∧ length (gm_desc (gpu_mem s')) = CONTROL_QUEUE_SIZE
    ∧ length (av_ring (gm_avail (gpu_mem s'))) = CONTROL_QUEUE_SIZE ∧ gm_used (gpu_mem s') = gm_used (gpu_mem s) ∧ gm_framebuffer (gpu_mem s') = gm_framebuffer (gpu_mem s).
Proof.
  intros [Hi Hd Hr Hu Hl Hf Hla] Hok Hc. unfold gpu_submit. set (m := gpu_mem s) in *. set (desc := <[1:=_]> _). set (m1 := mk_gm desc _ _ _ _ _).
  assert (Hm1 : gpu_mem (set_gpu_mem s m1) = m1) by apply (gp_set laws). rewrite Hm1.
  assert (Hoff : ∃ a, offer CONTROL_QUEUE_SIZE (gm_avail m) = Done a ∧ length (av_ring a) = CONTROL_QUEUE_SIZE).
  { unfold offer. rewrite put_exec_Done by (rewrite Hr; apply Nat.mod_upper_bound; done). cbn [mbind exec_bind]. eexists. split; [done|].
    cbn [av_ring]. by rewrite length_insert. }
  destruct Hoff as (a&Ha&Hla'). cbn [m1 gm_avail]. rewrite Ha. cbn [mbind exec_bind]. eexists. split; [done|]. rewrite (gp_set laws). cbn [gm_desc gm_avail gm_used gm_framebuffer].
  assert (Hdesc : length desc = CONTROL_QUEUE_SIZE) by (unfold desc; by rewrite !length_insert).
  split_and!; try done. pose proof (gp_offer laws c g (set_gpu_mem s m1) a) as Hof. rewrite Hm1 in Hof. cbn [m1 gm_desc gm_avail gm_used gm_request gm_response gm_framebuffer] in Hof.
  apply Hof; [by apply (gp_memory laws)|done| |done]. unfold gpu_chain_ok, m1, desc. cbn [gm_desc gm_request]. change CONTROL_QUEUE_SIZE with 8 in Hd.
  rewrite Hla. split_and!; [|eexists|by rewrite take_app_length].
  - rewrite list_lookup_insert_ne by done. by rewrite list_lookup_insert_eq by lia.
  - by rewrite list_lookup_insert_eq by (rewrite length_insert; lia).
Qed.

Lemma gpu_ack_spec (g : GpuState) (s : S) : idle g s → ∃ v s', ack_interrupts s = (v, s') ∧ idle g s' ∧ gpu_mem s' = gpu_mem s.
Proof.
  intros Hi. unfold ack_interrupts. destruct (negb _); [|by eexists _, s]. eexists _, _. split; [done|]. split; [by apply (gp_ack laws)|apply (gp_write laws)].
Qed.

(** How a command, or a sequence of them, may end: [Q] of the device when it
    was accepted, and otherwise a timeout or an error of the device. *)
Definition ends (d : VirtioGpu) (s : S) (Q : VirtioGpu → S → Prop) (r : exec ((DriverErr + unit) * VirtioGpu * S)) : Prop :=
  ∃ o d' s', r = Done (o, d', s') ∧ same_mode d d' ∧ gm_framebuffer (gpu_mem s') = gm_framebuffer (gpu_mem s) ∧
    match o with inr _ => Q d' s' | inl e => e = Timeout ∨ e = HardwareFault end.

Lemma command_fits (c : GpuCommand) : length (command_bytes c) ≤ 256.
Proof. destruct c; unfold command_bytes, gpu_ctrl_hdr, rect_bytes; rewrite ?length_app, ?length_to_le; simpl; lia. Qed.

Lemma send_command_spec (poll_limit : nat) (g : GpuState) (d : VirtioGpu) (s : S) (c : GpuCommand) (n : nat) : gpu_ready g d s → command_ok c → n ≤ RESP_SIZE →
  ends d s (λ d' s', gpu_ready (gpu_effect (gm_framebuffer (gpu_mem s)) c g) d' s' ∧ byte_list (gm_response (gpu_mem s'))) (send_command poll_limit d s c (ok_type c) n).
Proof.
  intros Hr Hok Hn. destruct (gpu_submit_spec g d s c n Hr Hok (command_fits c)) as (s1&Hsub&Hsv&Hd1&Hr1&Hu1&Hf1). pose proof Hr as [Hi Hd Hrl Hu Hl Hf Hla].
  unfold send_command, ends. rewrite Hf. unfold send_command_locked. pose proof (command_fits c) as Hc.
  rewrite (proj2 (Nat.ltb_ge _ _) Hc), (proj2 (Nat.ltb_ge _ _) Hn). cbn [orb].
  replace (gpu_submit (gpu_set_busy d true) (command_bytes c) n s) with (gpu_submit d (command_bytes c) n s) by done. rewrite Hsub. cbn [mbind exec_bind].
  pose proof (gp_notify laws c g s1 Hsv) as Hsv2. pose proof (gp_write laws s1 QUEUE_NOTIFY CONTROL_QUEUE_INDEX) as Hq2. unfold notify_queue.
  set (s2 := write32 s1 QUEUE_NOTIFY CONTROL_QUEUE_INDEX) in *. cbn [gpu_set_busy u_last_used_idx].
  destruct (gpu_poll_spec c g poll_limit s2 (u_last_used_idx d) Hsv2 ltac:(by rewrite Hl) ltac:(by rewrite Hq2, Hu1)) as [(s3&->&Hm3)|(g'&s3&->&Hi3&Han)].
  { cbn [mbind exec_bind]. eexists _, _, s3. split; [done|]. split; [done|]. split; [by rewrite Hm3, Hq2|by left]. }
  destruct (gpu_ack_spec g' s3 Hi3) as (v&s4&->&Hi4&Hq4). rewrite Hq2 in Han. destruct Han as [Had Haa Hau Haf Har Hae]. rewrite Hq4.
  assert (Hready : gpu_ready g' (gpu_set_busy (gpu_set_last (gpu_set_busy d true) (wrapping_add 16 (u_last_used_idx d) 1)) false) s4).
  { split; rewrite ?Hq4; try done.
    - by rewrite Had.
    - by rewrite Haa.
    - rewrite Hau. by apply next_used; rewrite Hu1.
    - rewrite Hau, Hu1. cbn. by rewrite Hl. }
  destruct (Z.eqb_spec (response_type (gm_response (gpu_mem s3))) (ok_type c)) as [Ht|Ht]; cbn [mbind exec_bind]; eexists _, _, s4.
  - split; [done|]. split; [done|]. rewrite Hq4. split; [by rewrite Haf|]. rewrite <- Hf1, <- Hae. by split.
  - split; [done|]. split; [done|]. rewrite Hq4. split; [by rewrite Haf|by right].
Qed.

Lemma sent_spec (poll_limit : nat) (g : GpuState) (d : VirtioGpu) (s : S) (c : GpuCommand) (Q : VirtioGpu → S → Prop) k :
  gpu_ready g d s → command_ok c → ok_type c = RESP_OK_NODATA →
  (∀ d' s', gpu_ready (gpu_effect (gm_framebuffer (gpu_mem s)) c g) d' s' → same_mode d d' → gm_framebuffer (gpu_mem s') = gm_framebuffer (gpu_mem s) → ends d' s' Q (k d' s')) →
  ends d s Q (sent poll_limit d s c k).
Proof.
  intros Hr Hok Ht Hk. unfold sent. rewrite <- Ht. destruct (send_command_spec poll_limit g d s c SIZEOF_HDR Hr Hok ltac:(by vm_compute; lia)) as (o&d1&s1&->&Hm&Hf&Hq).
  cbn [mbind exec_bind]. destruct o as [e|[]]; [by exists (inl e), d1, s1|]. destruct (Hk d1 s1 (proj1 Hq) Hm Hf) as (o&d2&s2&->&Hm2&Hf2&Hq2).
  exists o, d2, s2. split; [done|]. split; [by trans d1|]. split; [congruence|done].
Qed.

Lemma flush_ok (rect : GpuRect) : rect_ok rect → command_ok (TransferToHost2d rect 0 RESOURCE_ID) ∧ command_ok (ResourceFlush rect RESOURCE_ID).
Proof. intros Hr. cbn [command_ok]. split_and!; try done; unfold in_width, RESOURCE_ID; lia. Qed.

(** What a flush of [rect] makes the screen show. *)
Definition shown (fb : Z → Z) (rect : GpuRect) (g : GpuState) : GpuState := gpu_effect fb (ResourceFlush rect RESOURCE_ID) (gpu_effect fb (TransferToHost2d rect 0 RESOURCE_ID) g).

Lemma flush_rect_spec (poll_limit : nat) (g : GpuState) (d : VirtioGpu) (s : S) (rect : GpuRect) : gpu_ready g d s → rect_ok rect →
  ends d s (λ d' s', gpu_ready (shown (gm_framebuffer (gpu_mem s)) rect g) d' s') (flush_rect poll_limit d s rect).
Proof.
  intros Hr Hok. unfold flush_rect. destruct (flush_ok rect Hok). apply (sent_spec _ g); [done..|]. intros d1 s1 Hr1 Hm1 Hf1.
  destruct (send_command_spec poll_limit _ d1 s1 (ResourceFlush rect RESOURCE_ID) SIZEOF_HDR Hr1 ltac:(done) ltac:(by vm_compute; lia)) as (o&d2&s2&E&Hm&Hf&Hq).
  exists o, d2, s2. split; [done|]. split; [done|]. split; [done|]. destruct o; [done|]. unfold shown. rewrite Hf1 in Hq. by destruct Hq.
Qed.

(** The image is the framebuffer, and it is scanned out. *)
Record drawable (g : GpuState) (d : VirtioGpu) : Prop := {
  dw_size : gs_size g = Some (u_width d, u_height d);
  dw_backing : gs_backing g = Some (ga_framebuffer la, framebuffer_len d);
  dw_scanout : gs_scanout g = Some (u_scanout_id d, full_rect d);
  dw_width : (0 < u_width d <= MAX_WIDTH)%Z;
  dw_height : (0 < u_height d <= MAX_HEIGHT)%Z;
}.

Lemma drawable_mode (g : GpuState) (d d' : VirtioGpu) : same_mode d d' → drawable g d → drawable g d'.
Proof. intros (Hl&Hw&Hh&Hs) [H1 H2 H3 H4 H5]. split; unfold framebuffer_len, full_rect in *; by rewrite ?Hl, ?Hw, ?Hh, ?Hs. Qed.

Lemma drawable_shown (g : GpuState) (d : VirtioGpu) (fb : Z → Z) (rect : GpuRect) : drawable g d →
  drawable (shown fb rect g) d ∧
  ∀ x y, gs_screen (shown fb rect g) x y = if in_rect rect x y then pixel fb (u_width d) (x - r_x rect) (y - r_y rect) else gs_screen g x y.
Proof.
  intros [H1 H2 H3 H4 H5]. unfold shown. cbn [gpu_effect]. rewrite H1. split; [by split|]. intros x y. cbn [gs_screen gs_image].
  destruct (in_rect rect x y); [|done]. unfold pixel, cell. cbn [map]. do 2 f_equal; try (f_equal; lia).
  all: repeat (apply (f_equal2 cons); [f_equal; lia|]); done.
Qed.

(** ** The calls *)

Definition rect_in (d : VirtioGpu) (x y width height : Z) : GpuRect :=
  mk_rect x y (Z.min (Z.min (x + width) U32_MAX) (u_width d) - x) (Z.min (Z.min (y + height) U32_MAX) (u_height d) - y).

Lemma fill_rect_spec (poll_limit : nat) (g : GpuState) (d : VirtioGpu) (s : S) (x y width height bgra : Z) : gpu_ready g d s → drawable g d →
  (0 <= x < u_width d)%Z → (0 <= y < u_height d)%Z → (0 <= width)%Z → (0 <= height)%Z → let rect := rect_in d x y width height in
  ∃ o d' s', fill_rect poll_limit d s x y width height bgra = Done (o, d', s') ∧ same_mode d d' ∧
    (∀ px py, (0 <= px < u_width d)%Z → pixel (gm_framebuffer (gpu_mem s')) (u_width d) px py =
       if in_rect rect px py then to_le 4 bgra else pixel (gm_framebuffer (gpu_mem s)) (u_width d) px py) ∧
    match o with inr _ => gpu_ready (shown (gm_framebuffer (gpu_mem s')) rect g) d' s' | inl e => e = Timeout ∨ e = HardwareFault end.
Proof.
  intros Hr Hd Hx Hy Hw Hh rect. pose proof Hd as [_ _ _ Hdw Hdh]. unfold fill_rect. rewrite (proj2 (Z.leb_gt _ _)), (proj2 (Z.leb_gt _ _)) by lia. cbn [orb].
  unfold BYTES_PER_PIXEL. change MAX_WIDTH with 1024%Z in Hdw. change MAX_HEIGHT with 768%Z in Hdh.
  rewrite (proj2 (Z.ltb_lt _ _)) by (change (2 ^ 32)%Z with 4294967296%Z; lia). cbn [mbind exec_bind].
  set (end_x := Z.min (Z.min (x + width) U32_MAX) (u_width d)). set (end_y := Z.min (Z.min (y + height) U32_MAX) (u_height d)).
  assert (Hu : U32_MAX = 4294967295%Z) by done.
  destruct (fill_rows_spec (u_width d) x end_x (to_le 4 bgra) (Z.to_nat (end_y - y)) (length_to_le 4 bgra) ltac:(lia) ltac:(lia) y (gm_framebuffer (gpu_mem s)) ltac:(lia))
    as (fb&->&Hfb).
  { assert (y + Z.of_nat (Z.to_nat (end_y - y)) <= 768)%Z by lia. unfold FRAMEBUFFER_SIZE, MAX_WIDTH, MAX_HEIGHT. nia. }
  cbn [mbind exec_bind]. set (m := gpu_mem s) in *. set (m' := mk_gm _ _ _ _ _ fb).
  assert (Hm' : gpu_mem (set_gpu_mem s m') = m') by apply (gp_set laws).
  assert (Hr' : gpu_ready g d (set_gpu_mem s m')).
  { destruct Hr as [Hi Hd1 Hr1 Hu1 Hl Hf Hla]. split; rewrite ?Hm'; try done. by apply (gp_memory laws). }
  change (mk_rect x y (end_x - x) (end_y - y)) with rect.
  assert (Hok : rect_ok rect).
  { unfold rect_ok, in_width, rect, rect_in. cbn [r_x r_y r_width r_height]. fold end_x end_y. change (2 ^ 32)%Z with 4294967296%Z. lia. }
  destruct (flush_rect_spec poll_limit g d (set_gpu_mem s m') rect Hr' Hok) as (o&d2&s2&->&Hm2&Hf2&Hq). rewrite Hm' in Hf2, Hq. cbn [m' gm_framebuffer] in Hf2, Hq.
  exists o, d2, s2. split; [done|]. split; [done|]. rewrite Hf2. split; [|done]. intros px py Hp. rewrite Hfb by done.
  assert (Hsame : ((x <=? px) && (px <? end_x) && (y <=? py) && (py <? y + Z.of_nat (Z.to_nat (end_y - y))))%Z = in_rect rect px py).
  { apply eq_true_iff_eq. rewrite in_rect_spec, !andb_true_iff, !Z.leb_le, !Z.ltb_lt. unfold rect, rect_in. cbn [r_x r_y r_width r_height]. fold end_x end_y. lia. }
  by rewrite Hsame.
Qed.

(** ** Starting *)

(** The modes are words. *)
Lemma u32_at_nonneg (l : list Z) (off : nat) : byte_list l → (0 <= u32_at l off)%Z.
Proof. intros Hl. unfold u32_at. by apply le_bytes_range, byte_list_slice. Qed.

Lemma find_mode_pos (resp : list Z) (n : nat) : byte_list resp → ∀ i, let '(scanout, width, height) := find_mode n i resp in
  (0 <= scanout <= Z.of_nat (i + n) ∧ 0 < width ∧ 0 < height)%Z.
Proof.
  intros Hb. induction n as [|n IH]; intros i; cbn [find_mode]; [change MAX_WIDTH with 1024%Z; change MAX_HEIGHT with 768%Z; lia|].
  destruct (negb _ && _ && _) eqn:E; [|specialize (IH (i + 1)); destruct (find_mode _ _ _) as [[??]?]; lia].
  rewrite !andb_true_iff, !negb_true_iff, !Z.eqb_neq in E. destruct E as [[_ H1] H2]. cbn [display_mode dm_rect r_width r_height] in *.
  pose proof (u32_at_nonneg resp (SIZEOF_HDR + 24 * i + 8) Hb). pose proof (u32_at_nonneg resp (SIZEOF_HDR + 24 * i + 12) Hb). lia.
Qed.

Lemma create_framebuffer_spec (poll_limit : nat) (g : GpuState) (d : VirtioGpu) (s : S) : gpu_ready g d s → in_width 64 (ga_framebuffer la) → in_width 32 (u_scanout_id d) →
  (0 < u_width d <= MAX_WIDTH)%Z → (0 < u_height d <= MAX_HEIGHT)%Z →
  ends d s (λ d' s', ∃ g', gpu_ready g' d' s' ∧ drawable g' d') (create_framebuffer_resource poll_limit d s).
Proof.
  intros Hr Hfb Hsc Hw Hh. change MAX_WIDTH with 1024%Z in Hw. change MAX_HEIGHT with 768%Z in Hh. unfold create_framebuffer_resource.
  assert (Hfull : rect_ok (full_rect d)) by (unfold rect_ok, in_width, full_rect; cbn; change (2 ^ 32)%Z with 4294967296%Z; lia).
  pose proof Hfull as (?&?&?&?). apply (sent_spec _ g); [done|by split_and!|done|]. intros d1 s1 Hr1 Hm1 Hf1.
  eapply sent_spec; [exact Hr1| |done|].
  { split_and!; try done; [by rewrite (gr_layout _ _ _ Hr1)|by apply wrap_range]. }
  intros d2 s2 Hr2 Hm2 Hf2. assert (Hmd2 : same_mode d d2) by (by trans d1).
  eapply sent_spec; [exact Hr2| |done|]. { split_and!; try done. by rewrite (proj2 (proj2 (proj2 Hmd2))). }
  intros d3 s3 Hr3 Hm3 Hf3. destruct (flush_rect_spec poll_limit _ d3 s3 (full_rect d) Hr3 ltac:(by split_and!)) as (o&d4&s4&E&Hm4&Hf4&Hq). exists o, d4, s4. split; [done|]. split; [done|]. split; [done|].
  destruct o as [e|[]]; [done|]. eexists. split; [exact Hq|].
  assert (Hmd3 : same_mode d d3) by (by trans d2). apply (drawable_mode _ d3 d4 Hm4). apply drawable_shown.
  destruct Hm1 as (Hl1&Hw1&Hh1&Hs1), Hmd2 as (Hl2&Hw2&Hh2&Hs2), Hmd3 as (Hl3&Hw3&Hh3&Hs3).
  assert (Hlen : wrap 32 (framebuffer_len d1) = framebuffer_len d3).
  { unfold framebuffer_len, BYTES_PER_PIXEL. rewrite Hw1, Hh1, Hw3, Hh3. apply wrap_small. unfold in_width. change (2 ^ 32)%Z with 4294967296%Z. nia. }
  split; cbn [gpu_effect gs_size gs_backing gs_scanout Z.eqb RESOURCE_ID Pos.eqb]; rewrite ?Hw3, ?Hh3; try done.
  - by rewrite Hlen, Hl1, (gr_layout _ _ _ Hr).
  - unfold full_rect. by rewrite Hs3, Hs2, Hw3, Hh3.
Qed.

(** Why a device is refused before any command. *)
Definition gpu_refused (version device_id hi num_max : Z) (accepts allow_legacy : bool) : option DriverErr :=
  match device_refused version device_id DEVICE_ID_GPU allow_legacy with
  | Some e => Some e
  | None =>
      if ((version =? 2)%Z && (Z.land hi 1 =? 0)%Z) || negb accepts then Some InvalidConfig else
      if (num_max =? 0)%Z || (num_max <? 8)%Z then Some InitFailed else None
  end.
End laws.

(** What [init_hw] does up to its first command. *)
Lemma gpu_setup_spec {S : Type} `{!MmioDevice S} `{!GpuBus S} (la : GpuLayout) idle serving (w queue_mem fb_mem v id lo hi num : Z) (acc : bool) (d : VirtioGpu) (s : S) :
  RegisterLaws v id lo hi num acc → GpuLaws (S := S) la idle serving → la = gpu_layout w queue_mem fb_mem →
  let s1 := set_gpu_mem s gm_zero in
  ∃ s', gpu_setup_queue w queue_mem fb_mem d s = (negb ((num =? 0)%Z || (num <? 8)%Z), gpu_set_layout d la 0, s') ∧
    ((num =? 0)%Z || (num <? 8)%Z = false → s' = writes s1 (gpu_queue_writes la)).
Proof.
  intros Hr Hg -> s1. unfold gpu_setup_queue. cbv zeta. fold s1. unfold transport_setup_queue, select_queue. rewrite (rl_num _ _ _ _ _ _ Hr).
  change (Z.of_nat CONTROL_QUEUE_SIZE) with 8%Z. destruct ((num =? 0)%Z || (num <? 8)%Z); eexists; by split.
Qed.

(** Over a conforming display, the initialisation never panics: it fails for the reasons of [gpu_refused], or because a command timed out or was refused,
    and otherwise driver and device are ready, the whole framebuffer backs the scanned-out image, whose size is that of the mode of the display cut to
    1024 by 768, and the screen is black. *)
Theorem gpu_init_black {S : Type} `{!MmioDevice S} `{!GpuBus S} (la : GpuLayout) (idle : GpuState → S → Prop) (serving : GpuCommand → GpuState → S → Prop)
    (w queue_mem fb_mem version device_id lo hi num_max : Z) (accepts allow_legacy : bool) (poll_limit : nat) (s : S) :
  RegisterLaws version device_id lo hi num_max accepts → GpuLaws la idle serving → la = gpu_layout w queue_mem fb_mem → in_width 64 fb_mem →
  let refused := gpu_refused version device_id hi num_max accepts allow_legacy in
  ∃ r d s', gpu_init_hw w queue_mem fb_mem allow_legacy poll_limit gpu_new s = Done (r, d, s') ∧
    match r with
    | inl e => refused = Some e ∨ refused = None ∧ (e = Timeout ∨ e = HardwareFault)
    | inr _ => refused = None ∧ ∃ g, gpu_ready la idle g d s' ∧ drawable la g d ∧
        ∀ x y, (0 <= x < u_width d)%Z → (0 <= y < u_height d)%Z → gs_screen g x y = [0; 0; 0; 255]%Z
    end.
Proof.
  intros Hr Hg Hla Hfbm refused. unfold gpu_init_hw, refused, gpu_refused. rewrite (handshake_spec _ _ _ _ _ DEVICE_ID_GPU _ allow_legacy s Hr).
  destruct (device_refused version device_id DEVICE_ID_GPU allow_legacy) as [e|]; [eexists _, _, _; split; [done|by left]|].
  destruct ((version =? 2)%Z && (Z.land hi 1 =? 0)%Z); [eexists _, _, _; split; [done|by left]|]. cbv zeta. set (hi' := if (version =? 2)%Z then 1%Z else 0%Z).
  destruct accepts; [|eexists _, _, _; split; [done|by left]]. cbn [orb negb]. set (s0 := writes s (begin_writes ++ feature_writes hi')).
  destruct (gpu_setup_spec la idle serving w queue_mem fb_mem _ _ _ _ _ _ gpu_new s0 Hr Hg Hla) as (s1&->&Hs1).
  destruct ((num_max =? 0)%Z || (num_max <? 8)%Z); cbn [negb]; [eexists _, _, _; split; [done|by left]|]. rewrite (Hs1 eq_refl). clear Hs1 s1.
  set (s1 := writes _ _). set (d0 := gpu_set_layout gpu_new la 0).
  assert (Hm1 : gpu_mem s1 = gm_zero).
  { unfold s1. cbn [gpu_queue_writes writes fold_left]. by rewrite !(gp_write _ _ _ Hg), (gp_set _ _ _ Hg). }
  assert (Hr0 : gpu_ready la idle gs_empty d0 s1) by (split; rewrite ?Hm1; try done; apply (gp_start _ _ _ Hg)).
  unfold read_display_info. change RESP_OK_DISPLAY_INFO with (ok_type GetDisplayInfo).
  destruct (send_command_spec la idle serving Hg poll_limit _ d0 s1 GetDisplayInfo RESP_SIZE Hr0 I ltac:(done)) as (o&d1&s2&->&Hmd&_&Hq).
  cbn [mbind exec_bind]. destruct o as [e|[]]; cbn [mbind exec_bind]; [eexists _, _, _; split; [done|by right]|]. destruct Hq as [Hr1 Hb].
  pose proof (find_mode_pos (gm_response (gpu_mem s2)) 16 Hb 0) as Hpos. destruct (find_mode 16 0 _) as [[scanout width] height]. destruct Hpos as (Hps&Hpw&Hph).
  set (d2 := gpu_set_mode d1 scanout (Z.min width MAX_WIDTH) (Z.min height MAX_HEIGHT)).
  assert (Hw2 : (0 < u_width d2 <= MAX_WIDTH)%Z) by (cbn; change MAX_WIDTH with 1024%Z; lia).
  assert (Hh2 : (0 < u_height d2 <= MAX_HEIGHT)%Z) by (cbn; change MAX_HEIGHT with 768%Z; lia).
  rewrite (proj2 (Z.eqb_neq _ 0)), (proj2 (Z.eqb_neq _ 0)) by lia. cbn [orb].
  assert (Hs2 : in_width 32 (u_scanout_id d2)) by (unfold in_width; cbn; change (2 ^ 32)%Z with 4294967296%Z; lia).
  assert (Hr2 : gpu_ready la idle gs_empty d2 s2) by (destruct Hr1; by split).
  destruct (create_framebuffer_spec la idle serving Hg poll_limit _ d2 s2 Hr2 ltac:(by rewrite Hla) Hs2 Hw2 Hh2) as (o&d3&s3&->&Hmd3&_&Hq). cbn [mbind exec_bind].
  destruct o as [e|[]]; [eexists _, _, _; split; [done|by right]|]. destruct Hq as (g&Hr3&Hd3). set (s4 := set_status_bits s3 DRIVER_OK).
  assert (Hr4 : gpu_ready la idle g d3 s4).
  { unfold s4, set_status_bits. destruct Hr3 as [Hi ??????]. split; rewrite ?(gp_write _ _ _ Hg); try done. apply (gp_status _ _ _ Hg); [done|].
    intros Hz. apply Z.lor_eq_0_iff in Hz as [_ Hz]. discriminate. }
  unfold clear. pose proof Hd3 as [_ _ _ Hw3 Hh3].
  destruct (fill_rect_spec la idle serving Hg poll_limit g d3 s4 0 0 (u_width d3) (u_height d3) 0xff000000 Hr4 Hd3) as (o&d5&s5&->&Hmd5&Hfb&Hq); [lia..|].
  exists o, d5, s5. split; [done|]. destruct o as [e|[]]; [by right|]. split; [done|]. eexists. split; [exact Hq|].
  destruct (drawable_shown la g d3 (gm_framebuffer (gpu_mem s5)) (rect_in d3 0 0 (u_width d3) (u_height d3)) Hd3) as [Hdw Hscr].
  split; [by apply (drawable_mode la _ d3)|]. intros x y Hx Hy. destruct Hmd5 as (_&Ew&Eh&_). rewrite Ew in Hx. rewrite Eh in Hy. rewrite Hscr.
  assert (Hin : in_rect (rect_in d3 0 0 (u_width d3) (u_height d3)) x y = true).
  { apply in_rect_spec. cbn. change MAX_WIDTH with 1024%Z in Hw3. change MAX_HEIGHT with 768%Z in Hh3. change U32_MAX with 4294967295%Z. lia. }
  rewrite Hin. cbn [rect_in r_x r_y]. rewrite !Z.sub_0_r, Hfb, Hin by done. reflexivity.
Qed.

(** C20. Over a conforming display that is ready and scans out the framebuffer, drawing never panics, and when it succeeds: a flush makes the screen show the
    framebuffer; a rectangle is cut to the screen, filled in the framebuffer, which is otherwise left alone, and the screen shows inside of it what the
    framebuffer has relative to its corner, so that a rectangle at the origin appears as it was filled, and one elsewhere shows the pixels of the
    framebuffer's corner.  A rectangle that starts outside is refused, and other errors are timeouts and refusals of the device. *)
Theorem gpu_drawing_shown {S : Type} `{!MmioDevice S} `{!GpuBus S} (la : GpuLayout) (idle : GpuState → S → Prop) (serving : GpuCommand → GpuState → S → Prop)
    (poll_limit : nat) (g : GpuState) (d : VirtioGpu) (s : S) :
  GpuLaws la idle serving → gpu_ready la idle g d s → drawable la g d → let fb := gm_framebuffer (gpu_mem s) in
  (∃ r d' s', flush poll_limit d s = Done (r, d', s') ∧ match r with
    | inl e => e = Timeout ∨ e = HardwareFault
    | inr _ => ∃ g', gpu_ready la idle g' d' s' ∧ drawable la g' d' ∧
        ∀ px py, (0 <= px < u_width d)%Z → (0 <= py < u_height d)%Z → gs_screen g' px py = pixel fb (u_width d) px py
    end) ∧
  ∀ x y width height bgra, (0 <= x)%Z → (0 <= y)%Z → (0 <= width)%Z → (0 <= height)%Z →
  if (u_width d <=? x)%Z || (u_height d <=? y)%Z then fill_rect poll_limit d s x y width height bgra = Done (inl InvalidConfig, d, s) else
  let rect := rect_in d x y width height in
  ∃ r d' s', fill_rect poll_limit d s x y width height bgra = Done (r, d', s') ∧ let fb' := gm_framebuffer (gpu_mem s') in
    (∀ px py, (0 <= px < u_width d)%Z → pixel fb' (u_width d) px py = if in_rect rect px py then to_le 4 bgra else pixel fb (u_width d) px py) ∧
    match r with
    | inl e => e = Timeout ∨ e = HardwareFault
    | inr _ => ∃ g', gpu_ready la idle g' d' s' ∧ drawable la g' d' ∧
        ∀ px py, gs_screen g' px py = if in_rect rect px py then pixel fb' (u_width d) (px - x) (py - y) else gs_screen g px py
    end.
Proof.
  intros Hg Hr Hd fb. split.
  - pose proof Hd as [_ _ _ Hw Hh]. change MAX_WIDTH with 1024%Z in Hw. change MAX_HEIGHT with 768%Z in Hh.
    assert (Hfull : rect_ok (full_rect d)) by (unfold rect_ok, in_width, full_rect; cbn; change (2 ^ 32)%Z with 4294967296%Z; lia).
    destruct (flush_rect_spec la idle serving Hg poll_limit g d s (full_rect d) Hr Hfull) as (o&d1&s1&E&Hm&Hf&Hq).
    exists o, d1, s1. split; [done|]. destruct o as [e|[]]; [done|]. eexists. split; [exact Hq|].
    destruct (drawable_shown la g d (gm_framebuffer (gpu_mem s)) (full_rect d) Hd) as [Hdw Hscr]. split; [by apply (drawable_mode la _ d)|].
    intros px py Hx Hy. rewrite Hscr. assert (Hin : in_rect (full_rect d) px py = true) by (apply in_rect_spec; cbn; lia).
    rewrite Hin. cbn [full_rect r_x r_y]. by rewrite !Z.sub_0_r.
  - intros x y width height bgra Hx Hy Hw Hh. destruct ((u_width d <=? x)%Z || (u_height d <=? y)%Z) eqn:Eb; [by unfold fill_rect; rewrite Eb|].
    apply orb_false_iff in Eb as [E1%Z.leb_gt E2%Z.leb_gt].
    destruct (fill_rect_spec la idle serving Hg poll_limit g d s x y width height bgra Hr Hd ltac:(lia) ltac:(lia) Hw Hh) as (o&d1&s1&E&Hm&Hf&Hq).
    exists o, d1, s1. split; [done|]. split; [done|]. destruct o as [e|[]]; [done|]. eexists. split; [exact Hq|].
    destruct (drawable_shown la g d (gm_framebuffer (gpu_mem s1)) (rect_in d x y width height) Hd) as [Hdw Hscr]. split; [by apply (drawable_mode la _ d)|].
    intros px py. by rewrite Hscr.
Qed.

(** ** A display to try the properties on

    It answers a command at its next step. *)

Record DemoGpu : Type := mk_demo_gpu { dg_mem : GpuMem; dg_status : Z; dg_sel : Z; dg_seen : Z; dg_state : GpuState }.

Definition demo_rect (req : list Z) : GpuRect := mk_rect (u32_at req 24) (u32_at req 28) (u32_at req 32) (u32_at req 36).
Definition u64_at (l : list Z) (off : nat) : Z := le_bytes (take 8 (drop off l)).
Definition demo_decode (req : list Z) : option GpuCommand :=
  let t := u32_at req 0 in
  if (t =? CMD_GET_DISPLAY_INFO)%Z then Some GetDisplayInfo else
  if (t =? CMD_RESOURCE_CREATE_2D)%Z then Some (ResourceCreate2d (u32_at req 24) (u32_at req 28) (u32_at req 32) (u32_at req 36)) else
  if (t =? CMD_RESOURCE_ATTACH_BACKING)%Z then Some (ResourceAttachBacking (u32_at req 24) (u32_at req 28) (u64_at req 32) (u32_at req 40)) else
  if (t =? CMD_SET_SCANOUT)%Z then Some (SetScanout (demo_rect req) (u32_at req 40) (u32_at req 44)) else
  if (t =? CMD_TRANSFER_TO_HOST_2D)%Z then Some (TransferToHost2d (demo_rect req) (u64_at req 40) (u32_at req 48)) else
  if (t =? CMD_RESOURCE_FLUSH)%Z then Some (ResourceFlush (demo_rect req) (u32_at req 40)) else None.

Lemma demo_decode_bytes (c : GpuCommand) (rest : list Z) : command_ok c → demo_decode (command_bytes c ++ rest) = Some c.
Proof.
  intros Hok.
  assert (H32 : ∀ x, in_width 32 x → le_bytes (to_le 4 x) = x) by (intros x; apply (to_le_bytes 4)).
  assert (H64 : ∀ x, in_width 64 x → le_bytes (to_le 8 x) = x) by (intros x; apply (to_le_bytes 8)).
  destruct c as [|id f wd h|id n addr len|[x y wd h] sc id|[x y wd h] off id|[x y wd h] id]; cbn [command_ok] in Hok;
    unfold rect_ok in Hok; cbn [r_x r_y r_width r_height] in Hok; [reflexivity|..].
  - destruct Hok as (?&?&?&?). change (Some (ResourceCreate2d (le_bytes (to_le 4 id)) (le_bytes (to_le 4 f)) (le_bytes (to_le 4 wd)) (le_bytes (to_le 4 h)))
      = Some (ResourceCreate2d id f wd h)). by rewrite !H32.
  - destruct Hok as (?&?&?&?). change (Some (ResourceAttachBacking (le_bytes (to_le 4 id)) (le_bytes (to_le 4 n)) (le_bytes (to_le 8 addr)) (le_bytes (to_le 4 len)))
      = Some (ResourceAttachBacking id n addr len)). by rewrite H64, !H32.
  - destruct Hok as ((?&?&?&?)&?&?). change (Some (SetScanout (mk_rect (le_bytes (to_le 4 x)) (le_bytes (to_le 4 y)) (le_bytes (to_le 4 wd)) (le_bytes (to_le 4 h)))
      (le_bytes (to_le 4 sc)) (le_bytes (to_le 4 id))) = Some (SetScanout (mk_rect x y wd h) sc id)). by rewrite !H32.
  - destruct Hok as ((?&?&?&?)&?&?). change (Some (TransferToHost2d (mk_rect (le_bytes (to_le 4 x)) (le_bytes (to_le 4 y)) (le_bytes (to_le 4 wd)) (le_bytes (to_le 4 h)))
      (le_bytes (to_le 8 off)) (le_bytes (to_le 4 id))) = Some (TransferToHost2d (mk_rect x y wd h) off id)). by rewrite H64, !H32.
  - destruct Hok as ((?&?&?&?)&?). change (Some (ResourceFlush (mk_rect (le_bytes (to_le 4 x)) (le_bytes (to_le 4 y)) (le_bytes (to_le 4 wd)) (le_bytes (to_le 4 h)))
      (le_bytes (to_le 4 id))) = Some (ResourceFlush (mk_rect x y wd h) id)). by rewrite !H32.
Qed.

(** A display of two by two pixels. *)
Definition demo_response (c : GpuCommand) : list Z :=
  to_le 4 (ok_type c) ++ replicate 20 0%Z
  ++ match c with GetDisplayInfo => replicate 8 0%Z ++ to_le 4 2 ++ to_le 4 2 ++ to_le 4 1 ++ replicate 364 0%Z | _ => replicate 384 0%Z end.

#[local] Instance demo_gpu_mmio : MmioDevice DemoGpu := {
  read32 s off :=
    if (off =? MAGIC)%Z then MMIO_MAGIC_VALUE else if (off =? VERSION)%Z then 2%Z else if (off =? DEVICE_ID)%Z then DEVICE_ID_GPU else
    if (off =? DEVICE_FEATURES)%Z then dg_sel s else if (off =? QUEUE_NUM_MAX)%Z then 64%Z else if (off =? STATUS)%Z then dg_status s else 0%Z;
  write32 s off v :=
    if (off =? STATUS)%Z then if (v =? 0)%Z then mk_demo_gpu (dg_mem s) 0 (dg_sel s) 0 gs_empty else mk_demo_gpu (dg_mem s) v (dg_sel s) (dg_seen s) (dg_state s) else
    if (off =? DEVICE_FEATURES_SEL)%Z then mk_demo_gpu (dg_mem s) (dg_status s) v (dg_seen s) (dg_state s) else s;
}.

Definition demo_serve (c : GpuCommand) (s : DemoGpu) : DemoGpu :=
  let m := dg_mem s in
  mk_demo_gpu (mk_gm (gm_desc m) (gm_avail m) (mk_used (us_flags (gm_used m)) (wrapping_add 16 (us_idx (gm_used m)) 1) (us_ring (gm_used m))) (gm_request m)
      (demo_response c) (gm_framebuffer m))
    (dg_status s) (dg_sel s) (wrapping_add 16 (dg_seen s) 1) (gpu_effect (gm_framebuffer m) c (dg_state s)).

#[local] Instance demo_gpu_bus : GpuBus DemoGpu := {
  gpu_mem := dg_mem;
  set_gpu_mem s m := mk_demo_gpu m (dg_status s) (dg_sel s) (dg_seen s) (dg_state s);
  gpu_tick s :=
    if (dg_seen s =? av_idx (gm_avail (dg_mem s)))%Z then s else
    match demo_decode (gm_request (dg_mem s)) with Some c => demo_serve c s | None => s end;
}.

Definition demo_gpu_idle (g : GpuState) (s : DemoGpu) : Prop := dg_state s = g ∧ dg_seen s = av_idx (gm_avail (dg_mem s)) ∧ in_width 16 (dg_seen s).
Definition demo_gpu_serving (c : GpuCommand) (g : GpuState) (s : DemoGpu) : Prop :=
  dg_state s = g ∧ in_width 16 (dg_seen s) ∧ av_idx (gm_avail (dg_mem s)) = wrapping_add 16 (dg_seen s) 1 ∧ demo_decode (gm_request (dg_mem s)) = Some c.

Lemma demo_response_ok (c : GpuCommand) : byte_list (demo_response c) ∧ response_type (demo_response c) = ok_type c.
Proof.
  split; [|by destruct c]. unfold demo_response, byte_list. apply Forall_app. split; [apply to_le_byte_list|].
  assert (H0 : ∀ n, Forall (λ b, 0 <= b < 256)%Z (replicate n 0%Z)) by (intros n; by apply Forall_replicate).
  apply Forall_app. split; [apply H0|]. destruct c; try apply H0. repeat (apply Forall_app; split); (apply to_le_byte_list || apply H0).
Qed.

Lemma demo_gpu_laws (la : GpuLayout) : GpuLaws la demo_gpu_idle demo_gpu_serving.
Proof.
  split; cbn [gpu_mem set_gpu_mem gpu_tick write32 read32 demo_gpu_bus demo_gpu_mmio]; try done.
  - intros s off v. by repeat case_match.
  - intros g s m (Hg&Hs&Hw) Ha _. split; [done|]. cbn. by rewrite Ha.
  - intros c g s a (Hg&Hs&Hw) Hok (_&_&Hreq) Hof. unfold offer in Hof. destruct (put_exec _ _ _); [|done]. cbn in Hof. injection Hof as <-.
    split; [done|]. split; [done|]. cbn [dg_mem dg_seen gm_avail gm_request av_idx]. split; [by rewrite Hs|].
    rewrite <- (take_drop (length (command_bytes c)) (gm_request (dg_mem s))), Hreq. by apply demo_decode_bytes.
  - intros c g s (Hg&Hw&Ha&Hc). right. destruct (next_used (dg_seen s) Hw) as [Hne Hw']. rewrite Ha.
    destruct (Z.eqb_spec (dg_seen s) (wrapping_add 16 (dg_seen s) 1)); [congruence|]. rewrite Hc. eexists. split; [split; [reflexivity|by split]|].
    destruct (demo_response_ok c) as [Hb Ht]. split; try done. cbn [demo_serve dg_state dg_mem gm_response]. by rewrite Ht, Z.eqb_refl, Hg.
  - intros g s v (Hg&Hs&Hw) Hv. cbn. destruct (Z.eqb_spec v 0); [done|]. by split.
Qed.

Lemma demo_gpu_regs : RegisterLaws 2 DEVICE_ID_GPU 0 1 64 true.
Proof.
  split; try done.
  - intros s v. cbn. by destruct (Z.eqb_spec v 0) as [->|].
  - intros s off v Hne. cbn. destruct (Z.eqb_spec off STATUS); [done|]. by destruct (off =? DEVICE_FEATURES_SEL)%Z.
Qed.

Definition demo_gpu_off : DemoGpu := mk_demo_gpu gm_zero 0 0 0 gs_empty.

Lemma gpu_init_black_witness : ∃ d s', gpu_init_hw 64 0x80200000 0x80400000 false 3 gpu_new demo_gpu_off = Done (inr (), d, s') ∧
  ∃ g, gpu_ready (gpu_layout 64 0x80200000 0x80400000) demo_gpu_idle g d s' ∧ gs_screen g 1 1 = [0; 0; 0; 255]%Z.
Proof.
  assert (Hw : in_width 64 0x80400000) by (unfold in_width; lia).
  destruct (gpu_init_black (gpu_layout 64 0x80200000 0x80400000) demo_gpu_idle demo_gpu_serving 64 0x80200000 0x80400000 2 DEVICE_ID_GPU 0 1 64 true false 3
    demo_gpu_off demo_gpu_regs (demo_gpu_laws _) eq_refl Hw) as (r&d&s'&E&H).
  assert (Hr : match gpu_init_hw 64 0x80200000 0x80400000 false 3 gpu_new demo_gpu_off with Done (r, d, _) => r = inr () ∧ u_width d = 2%Z ∧ u_height d = 2%Z | Stuck => False end)
    by (vm_compute; by split_and!).
  rewrite E in Hr. destruct Hr as (->&Hwd&Hh). exists d, s'. split; [exact E|]. destruct H as (_&g&Hg&_&Hs). exists g. split; [done|]. apply Hs; lia.
Defined.

Definition demo_gpu_la : GpuLayout := gpu_layout 64 0x80200000 0x80400000.
Definition demo_gpu_driver : VirtioGpu := mk_gpu demo_gpu_la 0 false 2 2 0.
Definition demo_gpu_picture : GpuState :=
  mk_gs (Some (2, 2)%Z) (λ _ _, replicate 4 0%Z) (Some (0x80400000, 16)%Z) (Some (0%Z, mk_rect 0 0 2 2)) (λ _ _, replicate 4 0%Z).
Definition demo_gpu_on : DemoGpu := mk_demo_gpu gm_zero 15 1 0 demo_gpu_picture.

(** The pixel (1, 1) is drawn in the framebuffer, and the screen shows the pixel (0, 0) in its place. *)
Lemma gpu_drawing_shown_witness : ∃ d' s' g', fill_rect 3 demo_gpu_driver demo_gpu_on 1 1 1 1 0xffffffff = Done (inr (), d', s') ∧ gpu_ready demo_gpu_la demo_gpu_idle g' d' s' ∧
  pixel (gm_framebuffer (gpu_mem s')) 2 1 1 = replicate 4 255%Z ∧ gs_screen g' 1 1 = replicate 4 0%Z.
Proof.
  assert (Hr : gpu_ready demo_gpu_la demo_gpu_idle demo_gpu_picture demo_gpu_driver demo_gpu_on) by (by split).
  assert (Hd : drawable demo_gpu_la demo_gpu_picture demo_gpu_driver) by (by split).
  destruct (gpu_drawing_shown demo_gpu_la demo_gpu_idle demo_gpu_serving 3 demo_gpu_picture demo_gpu_driver demo_gpu_on (demo_gpu_laws _) Hr Hd) as [_ H].
  destruct (H 1%Z 1%Z 1%Z 1%Z 0xffffffff%Z ltac:(lia) ltac:(lia) ltac:(lia) ltac:(lia)) as (r&d'&s'&E&Hfb&Hq). cbn [u_width demo_gpu_driver] in *.
  assert (Hok : match fill_rect 3 demo_gpu_driver demo_gpu_on 1 1 1 1 0xffffffff with Done (r, _, _) => r = inr () | Stuck => False end) by (vm_compute; done).
  rewrite E in Hok. subst r. destruct Hq as (g'&Hg'&_&Hs). exists d', s', g'. split; [exact E|]. split; [exact Hg'|].
  split; [by rewrite Hfb by lia|]. rewrite Hs. change (in_rect _ 1 1) with true. cbn beta iota. rewrite Hfb by lia. reflexivity.
Defined.
