(* ===== verification/AsyncTasks.v ===== *)
(** * The tasks of the executor, [kernel/src/sched/async_rt.rs] and
    [kernel/src/driver/char.rs]

    The three futures that the root task spawns, the future of one received
    byte, the counters, and the executor next to the running kernel.  An
    [async] block is the future it waits for, [None] before its first poll; a
    loop of awaits goes round as often as the awaited futures are ready, and
    the fuel bounds that.  A poll that panics leaves the world [Stuck]. *)

From S2P Require Export Prelude.
From S2P Require Export Timer.
From S2P Require Export AsyncRt.
From S2P Require Export Wait.
From S2P Require Export Rx.

(** The statics next to the executor. *)
Record AsyncCounters : Type := mk_counters {
  HEARTBEAT_TICKS : Z;
  DEMO_EVENTS : Z;
  RX_BYTES : Z;
  RX_EVENTS : Z;
  LAST_RX_BYTE : Z;
}.
Definition counters_boot : AsyncCounters := mk_counters 0 0 0 0 0.
Definition count_heartbeat (c : AsyncCounters) : AsyncCounters :=
  mk_counters (wrapping_add 32 (HEARTBEAT_TICKS c) 1) (DEMO_EVENTS c) (RX_BYTES c) (RX_EVENTS c) (LAST_RX_BYTE c).
Definition count_demo (c : AsyncCounters) : AsyncCounters :=
  mk_counters (HEARTBEAT_TICKS c) (wrapping_add 32 (DEMO_EVENTS c) 1) (RX_BYTES c) (RX_EVENTS c) (LAST_RX_BYTE c).
Definition count_rx (c : AsyncCounters) : AsyncCounters :=
  mk_counters (HEARTBEAT_TICKS c) (DEMO_EVENTS c) (RX_BYTES c) (wrapping_add 32 (RX_EVENTS c) 1) (LAST_RX_BYTE c).
Definition note_rx_byte (byte : Z) (c : AsyncCounters) : AsyncCounters :=
  mk_counters (HEARTBEAT_TICKS c) (DEMO_EVENTS c) (wrapping_add 32 (RX_BYTES c) 1) (RX_EVENTS c) byte.

Record AsyncStats : Type := mk_async_stats {
  as_enabled : bool; as_slots : nat; as_active : nat; as_spawned : Z; as_completed : Z; as_polls : Z; as_wakes : Z; as_sleeping : nat;
  as_heartbeat_ticks : Z; as_demo_events : Z; as_rx_bytes : Z; as_rx_events : Z; as_last_rx_byte : Z;
}.
Definition async_stats {F} (e : Executor F) (c : AsyncCounters) : AsyncStats :=
  mk_async_stats OPENION_ASYNC_RT MAX_ASYNC_TASKS (active_count e) (spawned e) (completed e) (polls e) (wakes e) (sleeping_count e)
    (HEARTBEAT_TICKS c) (DEMO_EVENTS c) (RX_BYTES c) (RX_EVENTS c) (wrap 8 (LAST_RX_BYTE c)).

(** What the futures and the interrupts work on. *)
Record AsyncWorld : Type := mk_aworld {
  aw_kernel : kernel;
  aw_demo : Event;
  aw_rx : Event;
  aw_buf : RxBuffer;
  aw_counters : AsyncCounters;
}.
Definition set_counters (w : AsyncWorld) (c : AsyncCounters) : AsyncWorld := mk_aworld (aw_kernel w) (aw_demo w) (aw_rx w) (aw_buf w) c.
Definition now (w : AsyncWorld) : Z := ticks (clock (aw_kernel w)).

(** ** The futures *)

(** The event a task waits for. *)
Inductive Which : Type := DEMO_EVENT | RX_EVENT.
Definition event_of (v : Which) (w : AsyncWorld) : Event := match v with DEMO_EVENT => aw_demo w | RX_EVENT => aw_rx w end.
Definition set_event (v : Which) (w : AsyncWorld) (k : kernel) (x : Event) : AsyncWorld :=
  match v with
  | DEMO_EVENT => mk_aworld k x (aw_rx w) (aw_buf w) (aw_counters w)
  | RX_EVENT => mk_aworld k (aw_demo w) x (aw_buf w) (aw_counters w)
  end.
Definition count_event (v : Which) : AsyncCounters → AsyncCounters := match v with DEMO_EVENT => count_demo | RX_EVENT => count_rx end.

(** [heartbeat_task], and [demo_event_task] and [rx_counter_task]: the future
    of the current await, if the block has started. *)
Inductive TaskFuture : Type :=
  | Heartbeat (await : option SleepTicks)
  | EventTask (v : Which) (await : option (option nat)).
Definition heartbeat_task : TaskFuture := Heartbeat None.
Definition demo_event_task : TaskFuture := EventTask DEMO_EVENT None.
Definition rx_counter_task : TaskFuture := EventTask RX_EVENT None.

Section tasks.
Context `{!SmpConfig}.

Fixpoint heartbeat_loop (fuel : nat) (await : option SleepTicks) (e : Executor TaskFuture) (current : option nat) (w : AsyncWorld)
    : exec (SleepTicks * Executor TaskFuture * AsyncWorld) :=
  match fuel with
  | O => Stuck
  | S fuel =>
      let f := default (sleep_ticks (now w) 1000) await in
      let '(ready, f, e) := sleep_ticks_poll (now w) f e current in
      if ready : bool then heartbeat_loop fuel None e current (set_counters w (count_heartbeat (aw_counters w))) else Done (f, e, w)
  end.

(** The future is dropped at the end of its statement. *)
Fixpoint event_loop (v : Which) (fuel : nat) (await : option (option nat)) (current : option nat) (w : AsyncWorld)
    : exec (option nat * AsyncWorld) :=
  match fuel with
  | O => Stuck
  | S fuel =>
      let waiter := default wait_async await in
      '(ready, waiter, k, x) ← event_poll (aw_kernel w) current (event_of v w) waiter;
      if ready : bool then
        '(_, k, x) ← event_wait_drop k x waiter;
        let w := set_event v w k x in
        event_loop v fuel None current (set_counters w (count_event v (aw_counters w)))
      else Done (waiter, set_event v w k x)
  end.

(** How often a loop goes round in one poll: see [heartbeat_loop_spec] and
    [event_loop_spec]. *)
Definition ROUNDS : nat := 2.

Definition poll_future (f : TaskFuture) (e : Executor TaskFuture) (current : option nat) (w : AsyncWorld)
    : exec (TaskFuture * Executor TaskFuture * AsyncWorld) :=
  match f with
  | Heartbeat await => '(f, e, w) ← heartbeat_loop ROUNDS await e current w; Done (Heartbeat (Some f), e, w)
  | EventTask v await => '(waiter, w) ← event_loop v ROUNDS await current w; Done (EventTask v (Some waiter), e, w)
  end.

Abbreviation Runtime := (runtime TaskFuture (exec AsyncWorld)) (only parsing).

Definition poll_task (f : TaskFuture) (rt : Runtime) : bool * TaskFuture * Runtime :=
  match world rt with
  | Stuck => (false, f, rt)
  | Done w =>
      match poll_future f (executor rt) (current_poll rt) w with
      | Stuck => (false, f, AsyncRt.mk_rt (executor rt) (current_poll rt) Stuck)
      | Done (f, e, w) => (false, f, AsyncRt.mk_rt e (current_poll rt) (Done w))
      end
  end.

(** The spawns of [start_async_runtime]; their results are ignored. *)
Definition start_async_tasks (e : Executor TaskFuture) : Executor TaskFuture :=
  let e := (spawn e "heartbeat" heartbeat_task).2 in
  let e := (spawn e "demo-event" demo_event_task).2 in
  (spawn e "rx-counter" rx_counter_task).2.

(** ** What happens to the executor *)

Record AsyncSys : Type := mk_async { sys_executor : Executor TaskFuture; sys_world : AsyncWorld }.

(** The body of the loop of [executor_main], without the delay and without
    interruption.  [poll_slot] is the part of one task: interrupts may come
    between these parts (and, in the code, inside them: see
    [signal_inside_poll] in AsyncTasksProps.v). *)
Definition poll_slot (i : nat) (s : AsyncSys) : exec AsyncSys :=
  '(_, rt) ← poll_idx poll_task (AsyncRt.mk_rt (sys_executor s) None (Done (sys_world s))) i;
  w ← world rt;
  Done (mk_async (executor rt) w).

Definition executor_turn (s : AsyncSys) : exec AsyncSys :=
  '(_, rt) ← poll_once poll_task (AsyncRt.mk_rt (sys_executor s) None (Done (sys_world s)));
  w ← world rt;
  Done (mk_async (executor rt) w).

(** The timer interrupt.  [rust_trap_handler] updates the executor after the
    sleep queue and before it asks for a switch, which leaves the executor
    alone as the update leaves the kernel alone. *)
Definition timer_turn (s : AsyncSys) : exec AsyncSys :=
  let w := sys_world s in
  k ← timer_trap (aw_kernel w);
  e ← async_tick_update (ticks (clock k)) (sys_executor s);
  Done (mk_async e (mk_aworld k (aw_demo w) (aw_rx w) (aw_buf w) (aw_counters w))).

Definition signal_event (v : Which) (s : AsyncSys) : exec AsyncSys :=
  let w := sys_world s in
  '(_, k, ex, x) ← event_signal (aw_kernel w) (mk_mutex false (sys_executor s)) (event_of v w);
  Done (mk_async (value ex) (set_event v w k x)).
Definition signal_demo_event : AsyncSys → exec AsyncSys := signal_event DEMO_EVENT.

Definition push_to_rx_buf (byte : Z) (s : AsyncSys) : exec AsyncSys :=
  let w := sys_world s in
  '(ok, b) ← rx_push (aw_buf w) byte;
  let w := mk_aworld (aw_kernel w) (aw_demo w) (aw_rx w) b (aw_counters w) in
  if ok : bool then signal_event RX_EVENT (mk_async (sys_executor s) (set_counters w (note_rx_byte byte (aw_counters w))))
  else Done (mk_async (sys_executor s) w).

(** ** [ReadByte] *)

Definition read_byte_async : option nat := wait_async.

(** [pop_from_rx_buf] here: the poll function reads [y]. *)
Section read.
Context {X : Type} (poll_fn : option (RxBuffer → X → exec (option Z * RxBuffer * X))).

Definition pop_byte (y : X) (w : AsyncWorld) : exec (option Z * X * AsyncWorld) :=
  '(byte, b, y, m) ← pop_from_rx_buf poll_fn (aw_buf w) y (mach (aw_kernel w));
  Done (byte, y, mk_aworld (with_mach (aw_kernel w) m) (aw_demo w) (aw_rx w) b (aw_counters w)).

(** A byte, or the state of the wait. *)
Definition read_byte_poll (wait : option nat) (current : option nat) (y : X) (w : AsyncWorld) : exec (option Z * option nat * X * AsyncWorld) :=
  '(byte, y, w) ← pop_byte y w;
  match byte with
  | Some byte => Done (Some byte, wait, y, w)
  | None =>
      '(ready, wait, k, x) ← event_poll (aw_kernel w) current (aw_rx w) wait;
      let w := set_event RX_EVENT w k x in
      if ready : bool then
        '(byte, y, w) ← pop_byte y w;
        match byte with
        | Some byte => Done (Some byte, wait, y, w)
        | None =>
            '(_, k, x) ← event_wait_drop (aw_kernel w) (aw_rx w) wait;
            Done (None, wait_async, y, set_event RX_EVENT w k x)
        end
      else Done (None, wait, y, w)
  end.
End read.
End tasks.
