(* ===== verification/AsyncTasksProps.v ===== *)
(** * What the tasks of the executor promise

    The kernel's clock is moved by the timer alone; the executor with its three
    tasks refines a machine that counts. *)

From S2P Require Export Prelude.
From S2P Require Export SchedProps.
From S2P Require Export WaitProps.
From S2P Require Export AsyncTasks.

(** ** The clock *)

Section clock.
Context `{!SmpConfig} (base step : Z).

Definition keeps_clock {A} (f : kernel → exec (A * kernel)) : Prop := ∀ k a k', f k = Done (a, k') → clock k' = clock k.

Lemma locked_section_clock {A} (k k' : kernel) (a : A) f : locked_section k f = Done (a, k') → clock k' = clock k.
Proof. unfold locked_section, unlock. intros Hr. by exec_inv. Qed.

Lemma with_sched_clock {A} (k k' : kernel) (dflt a : A) f : with_sched k dflt f = Done (a, k') → clock k' = clock k.
Proof.
  unfold with_sched. intros Hr. exec_inv.
  match goal with Hs : locked_section _ _ = Done _ |- _ => apply locked_section_clock in Hs end. done.
Qed.

Lemma trap_clock (k k' : kernel) (handler : kernel → exec kernel) (f : timer → timer) :
  (∀ k k', handler k = Done k' → clock k' = f (clock k)) → trap k handler = Done k' → clock k' = f (clock k).
Proof.
  intros Hh. unfold trap. intros Hr. exec_inv;
    match goal with Hs : handler _ = Done _ |- _ => apply Hh in Hs end; done.
Qed.

Lemma schedule_clock (k k' : kernel) : ('(_, k) ← schedule k; Done k) = Done k' → clock k' = clock k.
Proof. intros Hr. exec_inv. by eapply with_sched_clock. Qed.

Lemma yield_clock (k k' : kernel) : yield_task k = Done k' → clock k' = clock k.
Proof. apply (trap_clock k k' _ (λ t, t)). apply schedule_clock. Qed.

Lemma yield_if_clock (k k' : kernel) : yield_if_preempt_pending k = Done k' → clock k' = clock k.
Proof.
  unfold yield_if_preempt_pending, sched_preempt_pending. intros Hr. exec_inv; try done;
    match goal with Hs : locked_section _ _ = Done _ |- _ => apply locked_section_clock in Hs; rewrite <- ?Hs end; try done.
  match goal with Hs : yield_task _ = Done _ |- _ => apply yield_clock in Hs; by rewrite Hs end.
Qed.

Lemma wake_blocked_clock (task : ptr) : keeps_clock (λ k, wake_blocked_task k task).
Proof.
  intros k b k'. destruct task as [x|]; cbn [wake_blocked_task]; [|by intros [= _ <-]]. intros Hr. exec_inv;
    repeat match goal with
    | Hs : with_sched _ _ _ = Done _ |- _ => apply with_sched_clock in Hs
    | Hs : yield_if_preempt_pending _ = Done _ |- _ => apply yield_if_clock in Hs
    end; cbn in *; congruence.
Qed.

Lemma wake_list_clock (xs : list nat) : ∀ k k', wake_list k xs = Done k' → clock k' = clock k.
Proof.
  induction xs as [|x xs IH]; intros k k'; cbn [wake_list]; [by intros [= <-]|]. intros Hr.
  destruct (exec_bind_inv _ _ _ Hr) as ([b k1]&Hw&Hl). apply wake_blocked_clock in Hw. by rewrite (IH _ _ Hl).
Qed.

#[local] Ltac clock_inv :=
  exec_inv; repeat match goal with
  | Hs : with_sched _ _ _ = Done _ |- _ => apply with_sched_clock in Hs
  | Hs : locked_section _ _ = Done _ |- _ => apply locked_section_clock in Hs
  | Hs : yield_task _ = Done _ |- _ => apply yield_clock in Hs
  | Hs : yield_if_preempt_pending _ = Done _ |- _ => apply yield_if_clock in Hs
  | Hs : wake_blocked_task _ _ = Done _ |- _ => apply wake_blocked_clock in Hs
  | Hs : wake_list _ _ = Done _ |- _ => apply wake_list_clock in Hs
  end; cbn in *; congruence.

(** Only the timer interrupt moves the clock. *)
Lemma run_kop_clock (k k' : kernel) (op : kop) : run_kop base step k op = Done k' →
  clock k' = match op with OpTimer => tick (clock k) | _ => clock k end.
Proof.
  destruct op; cbn [run_kop]; intros Hr.
  - revert Hr. apply (trap_clock k k' _ tick). intros k1 k2 Hk. unfold tick_update, schedule in Hk. clock_inv.
  - clock_inv.
  - unfold delay in Hr. clock_inv.
  - unfold block_and_yield, block_current_task_irq_disabled in Hr. clock_inv.
  - revert Hr. apply (trap_clock k k' _ (λ t, t)). intros k1 k2 Hk. unfold terminate_current in Hk. clock_inv.
  - clock_inv.
  - revert Hr. apply (trap_clock k k' _ (λ t, t)). intros k1 k2 Hk. unfold schedule_if_preempt_pending in Hk. clock_inv.
  - unfold create_task_on_cpu in Hr. clock_inv.
Qed.

Lemma create_clock (k k' : kernel) (entry stack words : Z) (prio : nat) (name : string) (cpu : nat) (i : Z) :
  create_task_on_cpu base step k entry stack words prio name cpu = Done (i, k') → clock k' = clock k.
Proof. intros Hr. apply (run_kop_clock k k' (OpCreate entry stack words prio name cpu)). cbn [run_kop]. by rewrite Hr. Qed.

Lemma idle_tasks_clock (entry stack words : Z) (cpus : list nat) : ∀ k k',
  init_idle_tasks base step k entry stack words cpus = Done k' → clock k' = clock k.
Proof.
  induction cpus as [|cpu cpus IH]; intros k k'; cbn [init_idle_tasks]; [by intros [= <-]|]. intros Hr.
  destruct (exec_bind_inv _ _ _ Hr) as ([i k1]&Hc&Hr1). destruct (exec_bind_inv _ _ _ Hr1) as ([u k2]&Hl&Hr2).
  rewrite (IH _ _ Hr2), (locked_section_clock _ _ _ _ Hl). by eapply create_clock.
Qed.

Lemma boot_clock (ie isp iw re rsp rw : Z) (k : kernel) : boot base step ie isp iw re rsp rw = Done k → clock k = timer_boot.
Proof.
  unfold boot, sched_init, init_system_tasks, create_task, start_first_task. intros Hr. exec_inv.
  repeat match goal with
  | Hs : schedule _ = Done _ |- _ => apply with_sched_clock in Hs
  | Hs : locked_section _ _ = Done _ |- _ => apply locked_section_clock in Hs
  | Hs : create_task_on_cpu _ _ _ _ _ _ _ _ _ = Done _ |- _ => apply create_clock in Hs
  | Hs : init_idle_tasks _ _ _ _ _ _ _ = Done _ |- _ => apply idle_tasks_clock in Hs
  end. cbn in *. congruence.
Qed.

Lemma with_lock_clock {A T} (k k' : kernel) (x x' : mutex T) (a : A) (f : kernel → T → exec (A * kernel * T)) :
  (∀ k v a k' v', f k v = Done (a, k', v') → clock k' = clock k) → with_lock k x f = Done (a, k', x') → clock k' = clock k.
Proof.
  intros Hf. unfold with_lock, unlock. intros Hr. exec_inv.
  match goal with Hs : f _ _ = Done _ |- _ => apply Hf in Hs; cbn in * end. done.
Qed.

Lemma wake_one_clock (k k' : kernel) (q q' : WaitQueue) (b : bool) : wake_one k q = Done (b, k', q') → clock k' = clock k.
Proof.
  unfold wake_one. intros Hr. exec_inv;
    repeat match goal with
    | Hs : with_lock _ _ _ = Done _ |- _ => apply with_lock_clock in Hs; [|intros ????? Hw; by exec_inv]
    | Hs : wake_blocked_task _ _ = Done _ |- _ => apply wake_blocked_clock in Hs
    end; cbn in *; congruence.
Qed.

Lemma event_signal_clock {F} (k k' : kernel) (ex ex' : mutex (Executor F)) (x x' : Event) (b : bool) :
  event_signal k ex x = Done (b, k', ex', x') → clock k' = clock k.
Proof.
  unfold event_signal. intros Hr. exec_inv.
  match goal with Hs : with_lock _ _ _ = Done _ |- _ => apply with_lock_clock in Hs end; [done|].
  clear. intros k v a k' v' Hr. exec_inv;
    repeat match goal with
    | Hs : wake_one _ _ = Done _ |- _ => apply wake_one_clock in Hs
    | Hs : with_lock _ _ _ = Done _ |- _ => apply with_lock_clock in Hs; [|intros ????? Hw; by exec_inv]
    end; cbn in *; congruence.
Qed.

Lemma event_poll_clock (k k' : kernel) (c : option nat) (x x' : Event) (w : option nat) (r : bool * option nat) :
  event_poll k c x w = Done (r, k', x') → clock k' = clock k.
Proof.
  unfold event_poll. intros Hr. exec_inv; try done;
    match goal with Hs : with_lock _ _ _ = Done _ |- _ => apply with_lock_clock in Hs; [|clear; intros ????? Hw; by exec_inv] end; done.
Qed.
End clock.

(** ** One event *)

Section event.
Context `{!SmpConfig} (N : nat).

Lemma event_poll_k (k : kernel) (x : Event) (sig : bool) (aw : option nat) (c : nat) (w : option nat) :
  task_context 0 [] k → event_ok N x sig aw [] → aw = None ∨ aw = Some c →
  ∃ k' x', event_poll k (Some c) x w = Done ((sig, if sig then None else Some c), k', x') ∧ task_context 0 [] k' ∧ clock k' = clock k
    ∧ event_ok N x' false (if sig then None else Some c) [].
Proof.
  intros [cur Hk] [Hx <- <- Hq] Haw. destruct (event_poll k (Some c) x w) as [[[r k'] x']|] eqn:Heq.
  - pose proof (event_poll_clock _ _ _ _ _ _ _ Heq) as Hcl. revert Heq. unfold event_poll.
    set (f := λ (k : kernel) (i : EventInner), if signaled i then _ else _).
    destruct (with_lock_spec 0 (B := []) (λ a B' h i, B' = [] ∧ a = (signaled (value x), if signaled (value x) then w else Some c)
        ∧ event_ok N (mk_mutex false i) false (if signaled (value x) then None else Some c) [])
      (k_disable_irq k) 1 false cur _ _ x f (kernel_at_disable _ _ _ _ _ _ _ Hk) ltac:(done) Hx) as (a&k1&i&B'&Heq&Hat&->&->&Hi).
    + intros k1 Hk1 _. unfold f. destruct (signaled (value x)) eqn:Hsig.
      * eexists _, k1, _, []. split; [done|]. split_and!; [done..|]. split; try done. cbn. case_bool_decide; [done|]. by destruct Haw.
      * rewrite bool_decide_true by done. eexists _, k1, _, []. split; [done|]. split_and!; [done..|]. by split.
    + rewrite Heq. cbn [mbind exec_bind fst snd]. apply kernel_at_enable in Hat. intros Hr. eexists _, _. split; [|split; [|split; [exact Hcl|]]].
      * destruct (signaled (value x)); by injection Hr as <- <- <-.
      * assert (k' = k_enable_irq k1) as -> by (destruct (signaled (value x)); by injection Hr as _ <- _). by exists cur.
      * by destruct (signaled (value x)); injection Hr as _ _ <-.
  - exfalso. destruct (event_poll_state (F := nat) N k (mutex_new executor_new) x (Some c) w) as (r&k'&x'&He&_); [|congruence].
    exists (signaled (value x)), (async_waiter (value x)), []. split_and!; [by exists cur|done|by split|done].
Qed.

Lemma event_signal_idle {F} (k : kernel) (x : Event) (e : Executor F) (sig : bool) (aw : option nat) :
  task_context 0 [] k → event_ok N x sig aw [] →
  ∃ b k' ex' x', event_signal k (mk_mutex false e) x = Done (b, k', ex', x') ∧ task_context 0 [] k' ∧ clock k' = clock k
    ∧ event_ok N x' true None [] ∧ value ex' = match aw with Some t => wake_task e t | None => e end.
Proof.
  intros [cur Hk] Hx. destruct (event_signal_k 0 N k x (mk_mutex false e) sig aw [] 0 true cur _ _ Hk ltac:(done) Hx eq_refl) as (k'&ex'&x'&Heq&Hat&_&Hx'&Hv).
  eexists _, k', ex', x'. split; [exact Heq|]. split; [by exists cur|]. split; [by eapply event_signal_clock|]. done.
Qed.
End event.

(** ** The clock in ticks since the start *)

Lemma passed_wrap (t0 t d : Z) : (d - 2 ^ 31 <= t < d + 2 ^ 31 - 1)%Z → passed (wrap 32 (t0 + t)) (wrap 32 (t0 + d)) = bool_decide (d <= t)%Z.
Proof.
  intros Ht. unfold passed, wrapping_sub, wrap. rewrite <- Zminus_mod. replace (t0 + t - (t0 + d))%Z with (t - d)%Z by lia.
  change (U32_MAX / 2)%Z with 2147483647%Z. case_bool_decide as Hd.
  - rewrite Z.mod_small by lia. apply Z.ltb_lt. lia.
  - apply Z.ltb_ge. replace ((t - d) mod 2 ^ 32)%Z with (t - d + 2 ^ 32)%Z; [lia|]. apply (Z.mod_unique _ _ (-1)); lia.
Qed.

Lemma wrap_add_l (w x y : Z) : wrapping_add w (wrap w x) y = wrap w (x + y).
Proof. unfold wrapping_add, wrap. apply Zplus_mod_idemp_l. Qed.

(** ** The machine that counts *)

(** A task that counts an event: whether it was polled, whether the event was
    signalled since, and the count. *)
Record Ev : Type := mk_ev { ev_started : bool; ev_pending : bool; ev_count : Z }.
Definition ev_signal (v : Ev) : Ev := mk_ev (ev_started v) true (ev_count v).
Definition ev_poll (v : Ev) : Ev := mk_ev true false (if ev_pending v then ev_count v + 1 else ev_count v)%Z.
Definition ev_ready (v : Ev) : bool := negb (ev_started v) || ev_pending v.

(** The ticks since the start, when the next heartbeat is due, the heartbeats,
    the events, and the bytes waiting, received and received last. *)
Record Spec : Type := mk_spec {
  sp_time : Z; sp_next : option Z; sp_beats : Z; sp_demo : Ev; sp_rx : Ev; sp_ring : list Z; sp_bytes : Z; sp_last : Z;
}.
Definition ev_boot : Ev := mk_ev false false 0.
Definition spec_boot : Spec := mk_spec 0 None 0 ev_boot ev_boot [] 0 0.

Definition beat_due (p : Spec) : bool := match sp_next p with None => true | Some d => (d <=? sp_time p)%Z end.
Definition spec_tick (p : Spec) : Spec := mk_spec (sp_time p + 1) (sp_next p) (sp_beats p) (sp_demo p) (sp_rx p) (sp_ring p) (sp_bytes p) (sp_last p).
Definition spec_beat (p : Spec) : Spec :=
  if beat_due p then
    mk_spec (sp_time p) (Some (sp_time p + 1000)%Z) (match sp_next p with Some _ => sp_beats p + 1 | None => sp_beats p end)%Z (sp_demo p) (sp_rx p) (sp_ring p) (sp_bytes p) (sp_last p)
  else p.
Definition spec_event (v : Which) (f : Ev → Ev) (p : Spec) : Spec :=
  match v with
  | DEMO_EVENT => mk_spec (sp_time p) (sp_next p) (sp_beats p) (f (sp_demo p)) (sp_rx p) (sp_ring p) (sp_bytes p) (sp_last p)
  | RX_EVENT => mk_spec (sp_time p) (sp_next p) (sp_beats p) (sp_demo p) (f (sp_rx p)) (sp_ring p) (sp_bytes p) (sp_last p)
  end.
(** The turn of one slot of the executor, and of all of them. *)
Definition spec_slot (i : nat) (p : Spec) : Spec :=
  match i with 0 => spec_beat p | 1 => spec_event DEMO_EVENT ev_poll p | 2 => spec_event RX_EVENT ev_poll p | _ => p end.
Definition spec_poll (p : Spec) : Spec := spec_event RX_EVENT ev_poll (spec_event DEMO_EVENT ev_poll (spec_beat p)).
Definition spec_byte (b : Z) (p : Spec) : Spec :=
  if length (sp_ring p) <? 127 then
    mk_spec (sp_time p) (sp_next p) (sp_beats p) (sp_demo p) (ev_signal (sp_rx p)) (sp_ring p ++ [b]) (sp_bytes p + 1) b
  else p.
Definition spec_read (p : Spec) : Spec := mk_spec (sp_time p) (sp_next p) (sp_beats p) (sp_demo p) (sp_rx p) (tail (sp_ring p)) (sp_bytes p) (sp_last p).

(** The executor turns before half of the clock has passed since the beat was due. *)
Definition timely (p : Spec) : Prop := ∀ d, sp_next p = Some d → (sp_time p < d + 2 ^ 31 - 1)%Z.

(** ** What the executor holds for a state of that machine *)

Definition task_of (v : Which) : nat := match v with DEMO_EVENT => 1 | RX_EVENT => 2 end.
Definition ev_of (v : Which) (p : Spec) : Ev := match v with DEMO_EVENT => sp_demo p | RX_EVENT => sp_rx p end.

Definition beat_slot (t0 : Z) (p : Spec) : AsyncSlot TaskFuture :=
  mk_aslot (Some (Heartbeat ((λ d, mk_sleep_ticks (wrap 32 (t0 + d)) true) <$> sp_next p))) "heartbeat" (beat_due p).
Definition await_of (v : Which) (p : Spec) : option (option nat) := if ev_started (ev_of v p) then Some (Some (task_of v)) else None.
Definition event_slot (v : Which) (p : Spec) : AsyncSlot TaskFuture :=
  mk_aslot (Some (EventTask v (await_of v p))) (match v with DEMO_EVENT => "demo-event" | RX_EVENT => "rx-counter" end)%string (ev_ready (ev_of v p)).
Definition spec_slots (t0 : Z) (p : Spec) : list (AsyncSlot TaskFuture) :=
  [beat_slot t0 p; event_slot DEMO_EVENT p; event_slot RX_EVENT p; aslot_empty; aslot_empty; aslot_empty; aslot_empty; aslot_empty].
Definition beat_sleep (t0 : Z) (p : Spec) : SleepSlot :=
  match sp_next p with Some d => if (sp_time p <? d)%Z then mk_sleep (Some 0) (wrap 32 (t0 + d)) true else sleep_empty | None => sleep_empty end.
Definition spec_sleeps (t0 : Z) (p : Spec) : list SleepSlot := beat_sleep t0 p :: replicate 7 sleep_empty.

Section refinement.
Context `{!SmpConfig} (t0 : Z).

(** The event of a task: its waiter is registered from a poll to the next
    signal. *)
Definition waiting_ok (v : Which) (x : Event) (e : Ev) : Prop :=
  event_ok 1 x (ev_pending e) (if ev_ready e then None else Some (task_of v)) [].

Record counters_ok (c : AsyncCounters) (p : Spec) : Prop := {
  cn_beats : HEARTBEAT_TICKS c = wrap 32 (sp_beats p);
  cn_demo : DEMO_EVENTS c = wrap 32 (ev_count (sp_demo p));
  cn_rx : RX_EVENTS c = wrap 32 (ev_count (sp_rx p));
  cn_bytes : RX_BYTES c = wrap 32 (sp_bytes p);
  cn_last : LAST_RX_BYTE c = sp_last p;
}.

Record world_ok (w : AsyncWorld) (p : Spec) : Prop := {
  wo_kernel : task_context 0 [] (aw_kernel w);
  wo_clock : now w = wrap 32 (t0 + sp_time p);
  wo_events : ∀ v, waiting_ok v (event_of v w) (ev_of v p);
  wo_ring : ring_wf (aw_buf w) ∧ rx_bytes (aw_buf w) = sp_ring p;
  wo_counters : counters_ok (aw_counters w) p;
}.

Record sys_ok (s : AsyncSys) (p : Spec) : Prop := {
  so_slots : slots (sys_executor s) = spec_slots t0 p;
  so_sleeps : sleep_slots (sys_executor s) = spec_sleeps t0 p;
  so_world : world_ok (sys_world s) p;
  so_next : ∀ d, sp_next p = Some d → (d <= sp_time p + 1000)%Z;
}.

(** ** One poll of each task *)

Lemma heartbeat_loop_spec (p : Spec) (e : Executor TaskFuture) (w : AsyncWorld) :
  world_ok w p → sleep_slots e = spec_sleeps t0 p → (∀ d, sp_next p = Some d → d <= sp_time p + 1000)%Z → timely p → beat_due p = true →
  ∃ e', poll_future (Heartbeat ((λ d, mk_sleep_ticks (wrap 32 (t0 + d)) true) <$> sp_next p)) e (Some 0) w
      = Done (Heartbeat (Some (mk_sleep_ticks (wrap 32 (t0 + (sp_time p + 1000))) true)), e',
              match sp_next p with Some _ => set_counters w (count_heartbeat (aw_counters w)) | None => w end)
    ∧ slots e' = slots e ∧ sleep_slots e' = spec_sleeps t0 (spec_poll p).
Proof.
  intros Hw Hsl Hnx Ht Hdue. pose proof (wo_clock _ _ Hw) as Hnow.
  assert (Hsl0 : sleep_slots e = replicate 8 sleep_empty).
  { rewrite Hsl. unfold spec_sleeps, beat_sleep. unfold beat_due in Hdue. destruct (sp_next p) as [d|]; [|done].
    apply Z.leb_le in Hdue. by rewrite (proj2 (Z.ltb_ge _ _)) by lia. }
  assert (Hnew : ∀ w2, now w2 = now w → heartbeat_loop 1 None e (Some 0) w2
      = Done (mk_sleep_ticks (wrap 32 (t0 + (sp_time p + 1000))) true,
              set_sleeps e (mk_sleep (Some 0) (wrap 32 (t0 + (sp_time p + 1000))) true :: replicate 7 sleep_empty), w2)).
  { intros w2 Hw2. cbn [heartbeat_loop from_option Datatypes.id]. unfold sleep_ticks_poll, sleep_ticks, deadline. cbn [st_wake_tick registered].
    rewrite Hw2, Hnow, wrap_add_l. replace (t0 + sp_time p + 1000)%Z with (t0 + (sp_time p + 1000))%Z by lia.
    rewrite passed_wrap by lia. rewrite bool_decide_false by lia. unfold register_sleep. by rewrite Hsl0. }
  exists (set_sleeps e (mk_sleep (Some 0) (wrap 32 (t0 + (sp_time p + 1000))) true :: replicate 7 sleep_empty)). split; [|split; [done|]].
  - cbn [poll_future ROUNDS]. unfold ROUNDS. destruct (sp_next p) as [d|] eqn:Hd; cbn [fmap option_fmap option_map].
    + unfold beat_due in Hdue. rewrite Hd in Hdue. apply Z.leb_le in Hdue. specialize (Ht d Hd). specialize (Hnx d eq_refl).
      change (heartbeat_loop 2 ?a ?e ?c ?w) with
        (let '(ready, f, e) := sleep_ticks_poll (now w) (default (sleep_ticks (now w) 1000) a) e c in
         if ready : bool then heartbeat_loop 1 None e c (set_counters w (count_heartbeat (aw_counters w))) else Done (f, e, w)).
      cbn [from_option Datatypes.id]. unfold sleep_ticks_poll. cbn [st_wake_tick]. rewrite Hnow, passed_wrap by lia. rewrite bool_decide_true by lia.
      by rewrite Hnew.
    + change (heartbeat_loop 2 ?a ?e ?c ?w) with
        (let '(ready, f, e) := sleep_ticks_poll (now w) (default (sleep_ticks (now w) 1000) a) e c in
         if ready : bool then heartbeat_loop 1 None e c (set_counters w (count_heartbeat (aw_counters w))) else Done (f, e, w)).
      specialize (Hnew w eq_refl). cbn [heartbeat_loop from_option Datatypes.id] in Hnew. cbn [from_option Datatypes.id].
      destruct (sleep_ticks_poll (now w) (sleep_ticks (now w) 1000) e (Some 0)) as [[[] f] e1]; [done|]. injection Hnew as -> ->. done.
  - unfold spec_poll, spec_beat. rewrite Hdue. unfold spec_sleeps, beat_sleep. cbn. by rewrite (proj2 (Z.ltb_lt _ _)) by lia.
Qed.

(** The world with the event and the counters of a task replaced. *)
Lemma world_event (w : AsyncWorld) (p : Spec) (v : Which) (k : kernel) (x : Event) (c : AsyncCounters) (f : Ev → Ev) :
  world_ok w p → task_context 0 [] k → clock k = clock (aw_kernel w) → waiting_ok v x (f (ev_of v p)) →
  counters_ok c (spec_event v f p) → world_ok (set_counters (set_event v w k x) c) (spec_event v f p).
Proof.
  intros [Hk Hcl Hev Hrg Hcn] Hk' Hc' Hx Hc. unfold now in *. split; [by destruct v| | |by destruct v|by destruct v].
  - unfold now. destruct v; cbn; by rewrite Hc'.
  - intros u. pose proof (Hev RX_EVENT). pose proof (Hev DEMO_EVENT). by destruct v, u.
Qed.

Lemma count_ok (c : AsyncCounters) (p : Spec) (v : Which) : counters_ok c p →
  counters_ok (if ev_pending (ev_of v p) then count_event v c else c) (spec_event v ev_poll p).
Proof.
  intros [H1 H2 H3 H4 H5]. destruct v; cbn [ev_of]; destruct (ev_pending _) eqn:Hp; split; cbn; rewrite ?Hp, ?H1, ?H2, ?H3; try done;
    apply wrap_add_l.
Qed.

Lemma event_loop_spec (p : Spec) (v : Which) (e : Executor TaskFuture) (w : AsyncWorld) : world_ok w p →
  ∃ w', poll_future (EventTask v (await_of v p)) e (Some (task_of v)) w = Done (EventTask v (Some (Some (task_of v))), e, w')
    ∧ world_ok w' (spec_event v ev_poll p).
Proof.
  intros Hw. pose proof (wo_events _ _ Hw v) as Hx. pose proof (count_ok _ _ v (wo_counters _ _ Hw)) as Hcn.
  assert (Haw : (if ev_ready (ev_of v p) then None else Some (task_of v)) = None ∨ (if ev_ready (ev_of v p) then None else Some (task_of v)) = Some (task_of v))
    by (destruct (ev_ready _); auto).
  destruct (event_poll_k 1 _ _ _ _ (task_of v) (default wait_async (await_of v p)) (wo_kernel _ _ Hw) Hx Haw) as (k1&x1&Heq1&Hk1&Hc1&Hx1).
  cbn [poll_future]. unfold ROUNDS. destruct (ev_pending (ev_of v p)) eqn:Hp.
  - destruct (event_poll_k 1 k1 x1 _ _ (task_of v) wait_async Hk1 Hx1 ltac:(by left)) as (k2&x2&Heq2&Hk2&Hc2&Hx2).
    exists (set_counters (set_event v w k2 x2) (count_event v (aw_counters w))). split.
    + cbn [event_loop]. rewrite Heq1. cbn [mbind exec_bind event_wait_drop from_option Datatypes.id].
      replace (aw_kernel (set_counters (set_event v w k1 x1) (count_event v (aw_counters (set_event v w k1 x1))))) with k1 by (by destruct v).
      replace (event_of v (set_counters (set_event v w k1 x1) (count_event v (aw_counters (set_event v w k1 x1))))) with x1 by (by destruct v).
      rewrite Heq2. cbn [mbind exec_bind]. by destruct v.
    + apply world_event; [done|done|congruence|exact Hx2|done].
  - exists (set_counters (set_event v w k1 x1) (aw_counters w)). split.
    + cbn [event_loop]. rewrite Heq1. cbn [mbind exec_bind]. by destruct v.
    + by apply world_event.
Qed.

Lemma world_beat (w : AsyncWorld) (p : Spec) : world_ok w p → beat_due p = true →
  world_ok (match sp_next p with Some _ => set_counters w (count_heartbeat (aw_counters w)) | None => w end) (spec_beat p).
Proof.
  intros [Hk Hcl Hev Hrg [C1 C2 C3 C4 C5]] Hdue. unfold spec_beat. rewrite Hdue.
  destruct (sp_next p); split; try done; split; try done. cbn. by rewrite C1, wrap_add_l.
Qed.

(** ** A turn of the executor *)

Abbreviation RT := (runtime TaskFuture (exec AsyncWorld)) (only parsing).

Lemma poll_idx_waits (rt : RT) (i : nat) (s : AsyncSlot TaskFuture) : slots (executor rt) !! i = Some s → ready s = false →
  poll_idx poll_task rt i = Done (0, rt).
Proof. intros Hs Hr. unfold poll_idx. by rewrite Hs, Hr. Qed.

Lemma poll_idx_runs (e e' : Executor TaskFuture) (c : option nat) (w w' : AsyncWorld) (i : nat) (f f' : TaskFuture) (nm : string) :
  slots e !! i = Some (mk_aslot (Some f) nm true) →
  poll_future f (set_slots e (<[i := mk_aslot None nm false]> (slots e))) (Some i) w = Done (f', e', w') →
  slots e' = <[i := mk_aslot None nm false]> (slots e) →
  ∃ e2, poll_idx poll_task (AsyncRt.mk_rt e c (Done w)) i = Done (1, AsyncRt.mk_rt e2 None (Done w'))
    ∧ slots e2 = <[i := mk_aslot (Some f') nm false]> (slots e) ∧ sleep_slots e2 = sleep_slots e'.
Proof.
  intros Hs Hp Hs'. pose proof (lookup_lt_Some _ _ _ Hs) as Hlt. unfold poll_idx. cbn [executor current_poll world]. rewrite Hs.
  cbn [ready negb future slot_name]. unfold poll_task. cbn [executor current_poll world]. rewrite Hp. cbn [executor current_poll world slots].
  rewrite Hs', list_lookup_insert_eq by done. cbn [get_exec mbind exec_bind future ready slot_name]. eexists. split; [done|]. cbn.
  by rewrite list_insert_insert_eq.
Qed.

(** Slot [i] before and after its turn. *)
Lemma poll_from_done (rt : RT) (l : list nat) : Forall (λ i, ∃ s, slots (executor rt) !! i = Some s ∧ ready s = false) l →
  poll_from poll_task rt l = Done (0, rt).
Proof.
  induction 1 as [|i l (s&Hs&Hr) _ IH]; [done|]. cbn [poll_from]. rewrite (poll_idx_waits rt i s Hs Hr). cbn [mbind exec_bind].
  by rewrite IH.
Qed.

Lemma poll_from_cons (rt rt' : RT) (i n : nat) (l : list nat) : poll_idx poll_task rt i = Done (n, rt') →
  poll_from poll_task rt (i :: l) = '(m, rt') ← poll_from poll_task rt' l; Done (n + m, rt').
Proof. intros Hp. cbn [poll_from]. by rewrite Hp. Qed.

(** The slot of a task that is ready is replaced, of another one kept. *)
Lemma beat_turn (p : Spec) (e : Executor TaskFuture) (c : option nat) (w : AsyncWorld) :
  sys_ok (mk_async e w) p → timely p →
  ∃ n e' w' c', poll_idx poll_task (AsyncRt.mk_rt e c (Done w)) 0 = Done (n, AsyncRt.mk_rt e' c' (Done w')) ∧ sys_ok (mk_async e' w') (spec_beat p).
Proof.
  intros [Hsl Hss Hw Hnx] Ht. cbn [sys_executor sys_world] in *. destruct (beat_due p) eqn:Hdue.
  - destruct (heartbeat_loop_spec p (set_slots e (<[0 := mk_aslot None "heartbeat" false]> (slots e))) w Hw Hss Hnx Ht Hdue) as (e1&Hp&He1&Hss1).
    assert (Hs : slots e !! 0 = Some (mk_aslot (future (beat_slot t0 p)) "heartbeat" true)) by (rewrite Hsl; unfold spec_slots, beat_slot; by rewrite Hdue).
    destruct (poll_idx_runs e e1 c w _ 0 _ _ _ Hs Hp He1) as (e2&Hi&He2&Hss2).
    eexists _, e2, _, _. split; [exact Hi|]. split; cbn [sys_executor sys_world].
    + rewrite He2, Hsl. unfold spec_beat, spec_slots, beat_slot, beat_due. unfold beat_due in Hdue. rewrite Hdue. cbn.
      by rewrite (proj2 (Z.leb_gt _ _)) by lia.
    + by rewrite Hss2, Hss1.
    + by apply world_beat.
    + unfold spec_beat. rewrite Hdue. cbn. intros d [= <-]. lia.
  - eexists _, e, w, _. split; [eapply poll_idx_waits; [cbn [executor]; by rewrite Hsl|exact Hdue]|]. unfold spec_beat. rewrite Hdue. by split.
Qed.

Lemma event_turn (p : Spec) (v : Which) (e : Executor TaskFuture) (c : option nat) (w : AsyncWorld) :
  sys_ok (mk_async e w) p →
  ∃ n e' w' c', poll_idx poll_task (AsyncRt.mk_rt e c (Done w)) (task_of v) = Done (n, AsyncRt.mk_rt e' c' (Done w'))
    ∧ sys_ok (mk_async e' w') (spec_event v ev_poll p).
Proof.
  intros [Hsl Hss Hw Hnx]. cbn [sys_executor sys_world] in *.
  assert (Hs : slots e !! task_of v = Some (event_slot v p)) by (rewrite Hsl; by destruct v).
  destruct (ev_ready (ev_of v p)) eqn:Hr.
  - set (nm := slot_name (event_slot v p)).
    destruct (event_loop_spec p v (set_slots e (<[task_of v := mk_aslot None nm false]> (slots e))) w Hw) as (w1&Hp&Hw1).
    unfold event_slot in Hs. rewrite Hr in Hs. destruct (poll_idx_runs e _ c w w1 (task_of v) _ _ nm Hs Hp eq_refl) as (e2&Hi&He2&Hss2).
    eexists _, e2, _, _. split; [exact Hi|]. split; cbn [sys_executor sys_world]; [|rewrite Hss2; cbn [sleep_slots set_slots]; rewrite Hss; by destruct v|done|by destruct v].
    rewrite He2, Hsl. by destruct v.
  - eexists _, e, w, _. split; [by eapply poll_idx_waits|].
    replace (spec_event v ev_poll p) with p; [by split|].
    unfold ev_ready in Hr. destruct p as [? ? ? [[] [] ?] [[] [] ?] ? ? ?], v; done.
Qed.

Lemma executor_turn_ok (s : AsyncSys) (p : Spec) : sys_ok s p → timely p → ∃ s', executor_turn s = Done s' ∧ sys_ok s' (spec_poll p).
Proof.
  intros Hs Ht. destruct s as [e w]. destruct (beat_turn p e None w Hs Ht) as (n0&e0&w0&c0&H0&Hs0).
  destruct (event_turn (spec_beat p) DEMO_EVENT e0 c0 w0 Hs0) as (n1&e1&w1&c1&H1&Hs1).
  destruct (event_turn _ RX_EVENT e1 c1 w1 Hs1) as (n2&e2&w2&c2&H2&Hs2).
  exists (mk_async e2 w2). split; [|exact Hs2]. unfold executor_turn, poll_once. cbn [sys_executor sys_world].
  change (seq 0 MAX_ASYNC_TASKS) with (0 :: task_of DEMO_EVENT :: task_of RX_EVENT :: seq 3 5).
  rewrite (poll_from_cons _ _ _ _ _ H0), (poll_from_cons _ _ _ _ _ H1), (poll_from_cons _ _ _ _ _ H2).
  rewrite poll_from_done; [done|]. cbn [executor]. pose proof (so_slots _ _ Hs2) as Hsl. cbn [sys_executor] in Hsl. rewrite Hsl.
  repeat (constructor; [by eexists|]). constructor.
Qed.

(** A slot on its own, whenever it comes. *)
Lemma poll_slot_ok (s : AsyncSys) (p : Spec) (i : nat) : sys_ok s p → (i = 0 → timely p) → ∃ s', poll_slot i s = Done s' ∧ sys_ok s' (spec_slot i p).
Proof.
  intros Hs Ht. destruct s as [e w]. unfold poll_slot. cbn [sys_executor sys_world].
  assert (Hrun : ∀ n e' c' w', poll_idx poll_task (AsyncRt.mk_rt e None (Done w)) i = Done (n, AsyncRt.mk_rt e' c' (Done w')) → sys_ok (mk_async e' w') (spec_slot i p) →
    ∃ s', ('(_, rt) ← poll_idx poll_task (AsyncRt.mk_rt e None (Done w)) i; w ← world rt; Done (mk_async (executor rt) w)) = Done s' ∧ sys_ok s' (spec_slot i p)).
  { intros n e' c' w' Heq Hok. rewrite Heq. cbn [mbind exec_bind world executor]. by eexists. }
  destruct i as [|[|[|i]]].
  - destruct (beat_turn p e None w Hs (Ht eq_refl)) as (n&e'&w'&c'&Heq&Hok). by eapply Hrun.
  - destruct (event_turn p DEMO_EVENT e None w Hs) as (n&e'&w'&c'&Heq&Hok). by eapply Hrun.
  - destruct (event_turn p RX_EVENT e None w Hs) as (n&e'&w'&c'&Heq&Hok). by eapply Hrun.
  - apply (Hrun 0 e None w); [|exact Hs]. pose proof (so_slots _ _ Hs) as Hsl. cbn [sys_executor] in Hsl. unfold poll_idx. cbn [executor]. rewrite Hsl.
    do 5 (destruct i as [|i]; [done|]). done.
Qed.

(** ** The interrupts *)

Lemma wake_sleepers_idle {F} (t : Z) (e : Executor F) (l : list nat) : Forall (λ i, sleep_slots e !! i = Some sleep_empty) l →
  wake_sleepers t e l = Done e.
Proof. induction 1 as [|i l Hi _ IH]; [done|]. cbn [wake_sleepers]. by rewrite Hi. Qed.

Lemma tick_one {F} (t : Z) (e : Executor F) (x : SleepSlot) : sleep_slots e = x :: replicate 7 sleep_empty →
  async_tick_update t e = Done (if active x && passed t (wake_tick x) then
      let e := set_sleeps e (replicate 8 sleep_empty) in match task_idx x with Some i => mark_ready e i | None => e end
    else e).
Proof.
  intros Hx. unfold async_tick_update. cbn [negb OPENION_ASYNC_RT]. rewrite Hx.
  change (seq 0 (length (x :: replicate 7 sleep_empty))) with (0 :: seq 1 7). cbn [wake_sleepers]. rewrite Hx.
  change ((x :: replicate 7 sleep_empty) !! 0) with (Some x). cbn [get_exec mbind exec_bind].
  assert (Hrest : ∀ (e1 : Executor F) s, sleep_slots e1 = s :: replicate 7 sleep_empty → wake_sleepers t e1 (seq 1 7) = Done e1).
  { intros e1 s Hs. apply wake_sleepers_idle. rewrite Hs. repeat (constructor; [done|]). constructor. }
  destruct (active x && passed t (wake_tick x)); [|by eapply Hrest].
  eapply Hrest. destruct (task_idx x); [rewrite mark_ready_sleeps|]; reflexivity.
Qed.

Lemma tick_executor (p : Spec) (e : Executor TaskFuture) : slots e = spec_slots t0 p → sleep_slots e = spec_sleeps t0 p →
  (∀ d, sp_next p = Some d → d <= sp_time p + 1000)%Z →
  ∃ e', async_tick_update (wrap 32 (t0 + (sp_time p + 1))) e = Done e' ∧ slots e' = spec_slots t0 (spec_tick p) ∧ sleep_slots e' = spec_sleeps t0 (spec_tick p).
Proof.
  intros Hsl Hss Hnx. rewrite (tick_one _ e (beat_sleep t0 p) Hss). eexists. split; [done|].
  unfold spec_slots, spec_sleeps, beat_slot, beat_sleep, beat_due in *. cbn [sp_next sp_time spec_tick ev_of]. destruct (sp_next p) as [d|] eqn:Hd; [|by split].
  specialize (Hnx d eq_refl). destruct (Z.ltb_spec (sp_time p) d) as [Hlt|Hge]; cbn [active sleep_empty andb wake_tick task_idx].
  - rewrite passed_wrap by lia. case_bool_decide as Hdue.
    + rewrite mark_ready_sleeps. unfold mark_ready. cbn [slots sleep_slots set_sleeps]. rewrite Hsl. cbn.
      by rewrite (proj2 (Z.leb_le _ _)), (proj2 (Z.ltb_ge _ _)) by lia.
    + rewrite Hsl, Hss. rewrite (proj2 (Z.ltb_lt _ _)), (proj2 (Z.leb_gt _ _)), (proj2 (Z.leb_gt _ _)) by lia. by split.
  - rewrite Hsl, Hss. rewrite (proj2 (Z.ltb_ge _ _)), (proj2 (Z.leb_le _ _)), (proj2 (Z.leb_le _ _)) by lia. by split.
Qed.

Lemma mark_event (p : Spec) (v : Which) (e : Executor TaskFuture) : slots e = spec_slots t0 p →
  slots (wake_task e (task_of v)) = spec_slots t0 (spec_event v ev_signal p) ∧ sleep_slots (wake_task e (task_of v)) = sleep_slots e.
Proof.
  intros Hsl. unfold wake_task. replace (task_of v <? MAX_ASYNC_TASKS) with true by (by destruct v). rewrite mark_ready_sleeps. split; [|done].
  unfold mark_ready. rewrite Hsl. destruct v; cbn [lookup list_lookup spec_slots task_of future event_slot slots];
    unfold spec_slots, event_slot, await_of, ev_ready; cbn; by rewrite orb_true_r.
Qed.

Lemma signal_ok (s : AsyncSys) (p : Spec) (v : Which) : sys_ok s p → ∃ s', signal_event v s = Done s' ∧ sys_ok s' (spec_event v ev_signal p).
Proof.
  intros [Hsl Hss Hw Hnx]. pose proof (wo_events _ _ Hw v) as Hx.
  destruct (event_signal_idle 1 _ _ (sys_executor s) _ _ (wo_kernel _ _ Hw) Hx) as (b&k&ex&x&Heq&Hk&Hc&Hx'&Hv).
  unfold signal_event. rewrite Heq. cbn [mbind exec_bind]. eexists. split; [done|].
  assert (Hcn : counters_ok (aw_counters (sys_world s)) (spec_event v ev_signal p)) by (destruct (wo_counters _ _ Hw); by destruct v).
  assert (Hx2 : waiting_ok v x (ev_signal (ev_of v p))) by (unfold waiting_ok, ev_ready; cbn; by rewrite orb_true_r).
  pose proof (world_event (sys_world s) p v k x _ ev_signal Hw Hk Hc Hx2 Hcn) as Hw'.
  replace (set_counters (set_event v (sys_world s) k x) (aw_counters (sys_world s))) with (set_event v (sys_world s) k x) in Hw' by (by destruct v).
  destruct (ev_ready (ev_of v p)) eqn:Hr; split; cbn [sys_executor sys_world]; rewrite ?Hv; try done; try (by destruct v).
  - rewrite Hsl. unfold spec_slots, event_slot, await_of. unfold ev_ready in *. destruct v; cbn [ev_of spec_event sp_demo sp_rx ev_signal ev_started ev_pending] in *; by rewrite Hr, orb_true_r.
  - by apply mark_event.
  - rewrite (proj2 (mark_event p v _ Hsl)), Hss. by destruct v.
Qed.

Lemma rx_push_spec (b : RxBuffer) (v : Z) : ring_wf b →
  ∃ b', rx_push b v = Done (length (rx_bytes b) <? 127, b') ∧ ring_wf b' ∧ rx_bytes b' = if length (rx_bytes b) <? 127 then rx_bytes b ++ [v] else rx_bytes b.
Proof.
  intros Hwf. unfold rx_push. destruct (count_head b Hwf) as [_ Hc]. pose proof (full_iff b Hwf) as Hfull. rewrite length_bytes.
  destruct (Nat.eqb_spec ((rx_head b + 1) `mod` BUF_SIZE) (rx_tail b)) as [Hf|Hf].
  - exists b. apply Hfull in Hf. unfold BUF_SIZE in *. rewrite (proj2 (Nat.ltb_ge _ _)) by lia. done.
  - rewrite put_exec_Done by (rewrite (rg_data _ Hwf); apply Hwf). cbn [mbind exec_bind].
    assert (rx_count b < 127) as Hlt.
    { destruct (decide (S (rx_count b) = BUF_SIZE)) as [E|E]; [by apply Hfull in E|]. unfold BUF_SIZE in *. lia. }
    rewrite (proj2 (Nat.ltb_lt _ _)) by done. eexists. split; [done|].
    set (b1 := mk_rx (<[rx_head b := v]> (rx_data b)) (rx_head b) (rx_tail b)).
    assert (Hwf1 : ring_wf b1) by (destruct Hwf; split; [by cbn; rewrite length_insert|done|done]).
    destruct (bytes_push b1 v Hwf1) as (Hwf2&Hb2&_); [cbn; apply list_lookup_insert_eq; rewrite (rg_data _ Hwf); apply Hwf|done|].
    split; [exact Hwf2|]. etransitivity; [exact Hb2|]. unfold b1. by rewrite bytes_write.
Qed.

Lemma byte_ok (s : AsyncSys) (p : Spec) (b : Z) : sys_ok s p → ∃ s', push_to_rx_buf b s = Done s' ∧ sys_ok s' (spec_byte b p).
Proof.
  intros [Hsl Hss [Hk Hcl Hev [Hwf Hrg] [C1 C2 C3 C4 C5]] Hnx]. unfold push_to_rx_buf, spec_byte.
  destruct (rx_push_spec (aw_buf (sys_world s)) b Hwf) as (b'&Heq&Hwf'&Hrg'). rewrite Heq. cbn [mbind exec_bind]. rewrite Hrg in *.
  destruct (length (sp_ring p) <? 127).
  - apply (signal_ok _ (mk_spec (sp_time p) (sp_next p) (sp_beats p) (sp_demo p) (sp_rx p) (sp_ring p ++ [b]) (sp_bytes p + 1) b) RX_EVENT).
    split; try done. split; try done. split; try done. cbn. by rewrite C4, wrap_add_l.
  - eexists. split; [done|]. split; try done.
Qed.

Lemma masked_context (k : kernel) : task_context 0 [] k → task_context 0 [] (with_mach k (enable_irq (disable_irq (mach k)))).
Proof.
  intros [cur Hk]. exists cur. change (with_mach k (enable_irq (disable_irq (mach k)))) with (k_enable_irq (k_disable_irq k)).
  by apply (kernel_at_enable _ _ 0 false cur), (kernel_at_disable _ _ 0 true cur).
Qed.

(** The byte a read takes when the console polls the port, if it does. *)
Definition read_result {X} (getc : option (X → exec (option Z * X))) (ring : list Z) (y : X) : exec (option Z * X) :=
  match ring, getc with
  | byte :: _, _ => Done (Some byte, y)
  | [], Some g => g y
  | [], None => Done (None, y)
  end.

Lemma read_ok {X} (getc : option (X → exec (option Z * X))) (y y' : X) (r : option Z) (s : AsyncSys) (p : Spec) : sys_ok s p →
  read_result getc (sp_ring p) y = Done (r, y') →
  ∃ w', pop_byte (port_poll <$> getc) y (sys_world s) = Done (r, y', w') ∧ sys_ok (mk_async (sys_executor s) w') (spec_read p).
Proof.
  intros [Hsl Hss [Hk Hcl Hev [Hwf Hrg] Hcn] Hnx] Hr. unfold pop_byte, pop_from_rx_buf.
  destruct (rx_pop_spec (aw_buf (sys_world s)) Hwf) as (b'&Hwf'&Hrg'&Heq). rewrite Heq. rewrite Hrg in *. cbn [mbind exec_bind].
  assert (Hm : with_mach (aw_kernel (sys_world s)) (mach (aw_kernel (sys_world s))) = aw_kernel (sys_world s)) by (by destruct (aw_kernel _)).
  assert (Hok : ∀ k b, task_context 0 [] k → clock k = clock (aw_kernel (sys_world s)) → ring_wf b → rx_bytes b = tail (sp_ring p) →
    sys_ok (mk_async (sys_executor s) (mk_aworld k (aw_demo (sys_world s)) (aw_rx (sys_world s)) b (aw_counters (sys_world s)))) (spec_read p)).
  { intros k b Hk' Hc' Hb Hb'. split; [done|done| |done]. split; [done| |done|done|by destruct Hcn]. unfold now in *. cbn. by rewrite Hc'. }
  unfold read_result in Hr. destruct (sp_ring p) as [|v rest] eqn:Hring; cbn [head tail] in *.
  - destruct getc as [g|]; cbn [fmap option_fmap option_map].
    + unfold port_poll. rewrite Hr. cbn [mbind exec_bind]. pose proof (masked_context _ Hk) as Hk'.
      destruct r as [v|]; cbn [mbind exec_bind]; [eexists; split; [done|]; by apply Hok|].
      destruct (rx_pop_spec b' Hwf') as (b2&Hwf2&Hr2&Hp2). rewrite Hrg' in *. rewrite Hp2. cbn [head tail mbind exec_bind] in *. eexists. split; [done|]. by apply Hok.
    + injection Hr as <- <-. cbn [mbind exec_bind]. rewrite Hm. eexists. split; [done|]. by apply Hok.
  - injection Hr as <- <-. cbn [mbind exec_bind]. rewrite Hm. eexists. split; [done|]. by apply Hok.
Qed.

Lemma kernel_ok (s : AsyncSys) (p : Spec) (k : kernel) : sys_ok s p → task_context 0 [] k → clock k = clock (aw_kernel (sys_world s)) →
  let w := sys_world s in sys_ok (mk_async (sys_executor s) (mk_aworld k (aw_demo w) (aw_rx w) (aw_buf w) (aw_counters w))) p.
Proof.
  intros [Hsl Hss [Hk Hcl Hev Hrg Hcn] Hnx] Hk' Hc w. split; try done. split; try done.
  unfold now in *. cbn. by rewrite Hc.
Qed.

Hypothesis one_cpu : max_cpus = 1.

Lemma tick_ok (s : AsyncSys) (p : Spec) : sys_ok s p → ∃ s', timer_turn s = Done s' ∧ sys_ok s' (spec_tick p).
Proof.
  intros [Hsl Hss [Hk Hcl Hev Hrg Hcn] Hnx]. unfold timer_turn.
  destruct (run_kop_ok 0 one_cpu 0 0 (aw_kernel (sys_world s)) OpTimer Hk I (λ x _, not_elem_of_nil x)) as (k&Heq&Hk').
  pose proof (run_kop_clock _ _ _ _ _ Heq) as Hc. cbn [run_kop] in Heq. rewrite Heq. cbn [mbind exec_bind].
  assert (Hnow : ticks (clock k) = wrap 32 (t0 + (sp_time p + 1))).
  { rewrite Hc. unfold now, ticks in *. unfold tick. cbn [TICKS]. rewrite Hcl, wrap_add_l. f_equal. lia. }
  destruct (tick_executor p (sys_executor s) Hsl Hss Hnx) as (e'&He&Hsl'&Hss'). rewrite Hnow, He. cbn [mbind exec_bind].
  eexists. split; [done|]. split; try done.
  - destruct Hcn. by split.
  - cbn. intros d Hd. specialize (Hnx d Hd). lia.
Qed.
End refinement.

(** ** Histories *)

Section histories.
Context `{!SmpConfig} {X : Type} (base step : Z).

(** The executor with its tasks on a running kernel, and everything that can
    happen next to what the machine [Spec] makes of it. *)
Definition boot_sys (k : kernel) : AsyncSys :=
  mk_async (start_async_tasks executor_new) (mk_aworld k (event_new 1) (event_new 1) rx_new counters_boot).

Definition with_kernel (s : AsyncSys) (k : kernel) : AsyncSys :=
  let w := sys_world s in mk_async (sys_executor s) (mk_aworld k (aw_demo w) (aw_rx w) (aw_buf w) (aw_counters w)).

Inductive async_reach : AsyncSys → Spec → Prop :=
  | ar_boot k : kernel_reach base step k → async_reach (boot_sys k) spec_boot
  | ar_tick s p s' : async_reach s p → timer_turn s = Done s' → async_reach s' (spec_tick p)
  | ar_poll s p s' : async_reach s p → timely p → executor_turn s = Done s' → async_reach s' (spec_poll p)
  | ar_slot i s p s' : async_reach s p → (i = 0 → timely p) → poll_slot i s = Done s' → async_reach s' (spec_slot i p)
  | ar_demo s p s' : async_reach s p → signal_demo_event s = Done s' → async_reach s' (spec_event DEMO_EVENT ev_signal p)
  | ar_byte b s p s' : async_reach s p → push_to_rx_buf b s = Done s' → async_reach s' (spec_byte b p)
  | ar_read (getc : option (X → exec (option Z * X))) y y' s p r w : async_reach s p → read_result getc (sp_ring p) y = Done (r, y') →
      pop_byte (port_poll <$> getc) y (sys_world s) = Done (r, y', w) → async_reach (mk_async (sys_executor s) w) (spec_read p)
  | ar_kernel op s p k : async_reach s p → kop_allowed 0 (aw_kernel (sys_world s)) op → op ≠ OpTimer →
      run_kop base step (aw_kernel (sys_world s)) op = Done k → async_reach (with_kernel s k) p.

Hypothesis one_cpu : max_cpus = 1.

Lemma reach_clock (k : kernel) : kernel_reach base step k → in_width 32 (ticks (clock k)).
Proof.
  induction 1 as [ie isp iw re rsp rw k _ _ Hb|k op k' _ IH _ Hrun].
  - by rewrite (boot_clock base step ie isp iw re rsp rw k Hb).
  - rewrite (run_kop_clock _ _ _ _ _ Hrun). destruct op; try done. by apply wrap_range.
Qed.

Lemma boot_ok (k : kernel) : kernel_reach base step k → sys_ok (ticks (clock k)) (boot_sys k) spec_boot.
Proof.
  intros Hr. pose proof (reach_context base step k one_cpu Hr) as Hk. apply reach_clock in Hr. split; try done. split; try done.
  - unfold now. cbn. rewrite Z.add_0_r. by rewrite wrap_small.
  - assert (He : event_ok 1 (event_new 1) false None []) by (split; try done; split; [done|apply wqi_new_rep]). by intros [].
  - split; [|done]. split; [apply length_replicate|unfold BUF_SIZE; cbn; lia|unfold BUF_SIZE; cbn; lia].
Qed.

Lemma reach_ok (s : AsyncSys) (p : Spec) : async_reach s p → ∃ t0, sys_ok t0 s p.
Proof.
  induction 1 as [k Hk|s p s' _ [t0 IH] Hs|s p s' _ [t0 IH] Ht Hs|i s p s' _ [t0 IH] Ht Hs|s p s' _ [t0 IH] Hs|b s p s' _ [t0 IH] Hs|getc y y' s p r w _ [t0 IH] Hr Hs|op s p k _ [t0 IH] Hop Hne Hs].
  - exists (ticks (clock k)). by apply boot_ok.
  - destruct (tick_ok t0 one_cpu s p IH) as (s2&Heq&?). exists t0. congruence.
  - destruct (executor_turn_ok t0 s p IH Ht) as (s2&Heq&?). exists t0. congruence.
  - destruct (poll_slot_ok t0 s p i IH Ht) as (s2&Heq&?). exists t0. congruence.
  - destruct (signal_ok t0 s p DEMO_EVENT IH) as (s2&Heq&?). exists t0. unfold signal_demo_event in Hs. congruence.
  - destruct (byte_ok t0 s p b IH) as (s2&Heq&?). exists t0. congruence.
  - destruct (read_ok t0 getc y y' r s p IH Hr) as (w2&Heq&?). exists t0. congruence.
  - exists t0. pose proof (so_world _ _ _ IH) as Hw.
    destruct (run_kop_ok 0 one_cpu base step _ op (wo_kernel _ _ _ Hw) Hop (λ x _, not_elem_of_nil x)) as (k2&Heq&Hk2).
    assert (k2 = k) as -> by congruence. apply kernel_ok; [done|done|]. rewrite (run_kop_clock _ _ _ _ _ Hs). by destruct op.
Qed.

(** [n] timer interrupts, each followed by a turn of the executor. *)
Fixpoint run_ticks (n : nat) (s : AsyncSys) : exec AsyncSys :=
  match n with O => executor_turn s | S n => s ← run_ticks n s; s ← timer_turn s; executor_turn s end.
Fixpoint spec_ticks (n : nat) (p : Spec) : Spec := match n with O => spec_poll p | S n => spec_poll (spec_tick (spec_ticks n p)) end.

Lemma spec_ticks_boot (n : nat) : let p := spec_ticks n spec_boot in
  sp_time p = Z.of_nat n ∧ sp_beats p = (Z.of_nat n / 1000)%Z ∧ sp_next p = Some ((Z.of_nat n / 1000 + 1) * 1000)%Z.
Proof.
  clear. induction n as [|n (H1&H2&H3)]; [done|]. cbn [spec_ticks]. unfold spec_poll, spec_beat, beat_due. cbn [sp_next sp_time spec_tick]. rewrite H3, H1.
  destruct (Z.leb_spec ((Z.of_nat n / 1000 + 1) * 1000) (Z.of_nat n + 1)) as [Hle|Hgt];
    cbn [sp_next sp_time sp_beats spec_event spec_tick]; rewrite ?H1, ?H2, ?H3, !Nat2Z.inj_succ; (split_and!; [lia|divmod|f_equal; divmod]).
Qed.

Lemma run_ticks_reach (n : nat) (k : kernel) : kernel_reach base step k → ∃ s, run_ticks n (boot_sys k) = Done s ∧ async_reach s (spec_ticks n spec_boot).
Proof.
  intros Hk. induction n as [|n (s&Heq&Hs)].
  - pose proof (ar_boot k Hk) as Hr. destruct (reach_ok _ _ Hr) as [t0 Hok]. destruct (executor_turn_ok t0 _ _ Hok) as (s&Heq&_); [done|].
    exists s. split; [done|]. by eapply ar_poll.
  - cbn [run_ticks]. rewrite Heq. cbn [mbind exec_bind]. destruct (reach_ok _ _ Hs) as [t0 Hok].
    destruct (tick_ok t0 one_cpu _ _ Hok) as (s1&Heq1&Hok1). rewrite Heq1. cbn [mbind exec_bind].
    destruct (spec_ticks_boot n) as (H1&_&H3).
    assert (Ht : timely (spec_tick (spec_ticks n spec_boot))).
    { intros d. cbn [sp_next sp_time spec_tick]. rewrite H3, H1. intros [= <-]. divmod. }
    destruct (executor_turn_ok t0 _ _ Hok1 Ht) as (s2&Heq2&_). exists s2. split; [done|]. eapply ar_poll; [by eapply ar_tick|done|done].
Qed.
End histories.

(** ** Properties *)

(** C40. The three tasks of the executor count what they are to count, whatever
    ticks, signals, received and read bytes and kernel operations come after
    boot, before, after and between the turns of the tasks: the heartbeat task
    is woken when it is due and beats at its next turn, and the signals since
    the last turn of a task that waits for them are counted once, so that none
    goes unnoticed; the next turn, tick, signal, byte and read return, and a
    read gives the oldest byte queued or else what the port has.  Two things are
    assumed of the history.  No signal or tick falls inside the turn of a task
    ([poll_slot] is one step; [signal_inside_poll] below proves what the code
    does then: the wake-up is lost and the task never turns again).  And the
    heartbeat task gets a turn before 2^31 - 1 ticks have passed since it was
    due ([timely]; after that the comparison of ticks takes its time for one to
    come).  With a turn after every tick there is one heartbeat in a thousand
    ticks. *)
Theorem async_tasks_refine `{!SmpConfig} {X : Type} (base step : Z) : max_cpus = 1 →
  (∀ s p, async_reach (X := X) base step s p →
     counters_ok (aw_counters (sys_world s)) p ∧ rx_bytes (aw_buf (sys_world s)) = sp_ring p
     ∧ (timely p → ∃ s', executor_turn s = Done s') ∧ (∀ i, (i = 0 → timely p) → ∃ s', poll_slot i s = Done s')
     ∧ (∃ s', timer_turn s = Done s') ∧ (∃ s', signal_demo_event s = Done s')
     ∧ (∀ b, ∃ s', push_to_rx_buf b s = Done s')
     ∧ ∀ (getc : option (X → exec (option Z * X))) y r y', read_result getc (sp_ring p) y = Done (r, y') →
         ∃ w, pop_byte (port_poll <$> getc) y (sys_world s) = Done (r, y', w))
  ∧ ∀ k n, kernel_reach base step k → ∃ s, run_ticks n (boot_sys k) = Done s
     ∧ HEARTBEAT_TICKS (aw_counters (sys_world s)) = wrap 32 (Z.of_nat n / 1000).
Proof.
  intros Hone. split.
  - intros s p Hr. destruct (reach_ok base step Hone s p Hr) as [t0 Hok]. pose proof (so_world _ _ _ Hok) as Hw.
    split_and!; [apply Hw|apply Hw| | | | | |].
    + intros Ht. destruct (executor_turn_ok t0 s p Hok Ht) as (s'&?&_). by exists s'.
    + intros i Ht. destruct (poll_slot_ok t0 s p i Hok Ht) as (s'&?&_). by exists s'.
    + destruct (tick_ok t0 Hone s p Hok) as (s'&?&_). by exists s'.
    + destruct (signal_ok t0 s p DEMO_EVENT Hok) as (s'&?&_). by exists s'.
    + intros b. destruct (byte_ok t0 s p b Hok) as (s'&?&_). by exists s'.
    + intros getc y r y' Hres. destruct (read_ok t0 getc y y' r s p Hok Hres) as (w&?&_). by exists w.
  - intros k n Hk. destruct (run_ticks_reach (X := X) base step Hone n k Hk) as (s&Heq&Hr). exists s. split; [done|].
    destruct (reach_ok base step Hone _ _ Hr) as [t0 Hok]. rewrite (cn_beats _ _ (wo_counters _ _ _ (so_world _ _ _ Hok))).
    by destruct (spec_ticks_boot n) as (_&->&_).
Qed.

Lemma async_tasks_refine_witness : let c := single_cpu in
  ∃ k s, kernel_reach 4096 128 k ∧ run_ticks 2500 (boot_sys k) = Done s ∧ HEARTBEAT_TICKS (aw_counters (sys_world s)) = 2%Z.
Proof.
  intros c. assert (Hone : max_cpus = 1) by reflexivity.
  assert (Hi : stack_ok 65536 512) by (unfold stack_ok, REG_BYTES; lia).
  assert (Hr : stack_ok 131072 2048) by (unfold stack_ok, REG_BYTES; lia).
  destruct (boot_k 0 Hone 4096 128 11 65536 512 22 131072 2048 eq_refl Hi Hr) as (k0&E0&C0).
  pose proof (kr_boot 4096 128 _ _ _ _ _ _ k0 Hi Hr E0) as R0.
  destruct (proj2 (async_tasks_refine (X := unit) 4096 128 Hone) k0 2500 R0) as (s&Hs&Hb).
  exists k0, s. split; [exact R0|]. split; [exact Hs|exact Hb].
Defined.

(** ** A signal inside a turn *)

(** A poll that is interrupted at its end, before the future is back in its
    slot. *)
Definition interrupted `{!SmpConfig} (irq : AsyncSys → exec AsyncSys) (f : TaskFuture) (rt : runtime TaskFuture (exec AsyncWorld))
    : bool * TaskFuture * runtime TaskFuture (exec AsyncWorld) :=
  let '(done, f, rt) := poll_task f rt in
  match (w ← world rt; irq (mk_async (executor rt) w)) with
  | Done s => (done, f, AsyncRt.mk_rt (sys_executor s) (current_poll rt) (Done (sys_world s)))
  | Stuck => (done, f, AsyncRt.mk_rt (executor rt) (current_poll rt) Stuck)
  end.

Lemma poll_idx_with {F W} (poll : F → runtime F W → bool * F * runtime F W) (e e' : Executor F) (c c' : option nat) (w w' : W) (i : nat) (f f' : F) (nm : string) :
  slots e !! i = Some (mk_aslot (Some f) nm true) →
  poll f (AsyncRt.mk_rt (set_slots e (<[i := mk_aslot None nm false]> (slots e))) (Some i) w) = (false, f', AsyncRt.mk_rt e' c' w') →
  slots e' !! i = Some (mk_aslot None nm false) →
  ∃ e2, poll_idx poll (AsyncRt.mk_rt e c w) i = Done (1, AsyncRt.mk_rt e2 None w') ∧ slots e2 !! i = Some (mk_aslot (Some f') nm false).
Proof.
  intros Hs Hp Hs'. pose proof (lookup_lt_Some _ _ _ Hs') as Hlt. unfold poll_idx. cbn [executor current_poll world]. rewrite Hs.
  cbn [ready negb future slot_name]. rewrite Hp. cbn [executor world slots]. rewrite Hs'. cbn [get_exec mbind exec_bind future slot_name ready].
  eexists. split; [done|]. cbn [slots set_slots]. by apply list_lookup_insert_eq.
Qed.

(** The wake-up is lost: the slot is not ready although the event is signalled,
    nobody waits for the event any more, and so no later signal wakes the task. *)
Theorem signal_inside_poll `{!SmpConfig} (t0 : Z) (e : Executor TaskFuture) (w : AsyncWorld) (p : Spec) (v : Which) :
  sys_ok t0 (mk_async e w) p → ev_ready (ev_of v p) = true →
  ∃ e' w', poll_idx (interrupted (signal_event v)) (AsyncRt.mk_rt e None (Done w)) (task_of v) = Done (1, AsyncRt.mk_rt e' None (Done w'))
    ∧ ready <$> slots e' !! task_of v = Some false ∧ event_ok 1 (event_of v w') true None []
    ∧ ∀ s, signal_event v (mk_async e' w') = Done s → sys_executor s = e' ∧ event_ok 1 (event_of v (sys_world s)) true None [].
Proof.
  intros [Hsl Hss Hw Hnx] Hr. cbn [sys_executor sys_world] in *.
  assert (Hs : slots e !! task_of v = Some (event_slot v p)) by (rewrite Hsl; by destruct v).
  set (nm := slot_name (event_slot v p)). set (e1 := set_slots e (<[task_of v := mk_aslot None nm false]> (slots e))).
  destruct (event_loop_spec t0 p v e1 w Hw) as (w1&Hp&Hw1).
  assert (Hx1 : event_ok 1 (event_of v w1) false (Some (task_of v)) []) by (pose proof (wo_events _ _ _ Hw1 v) as Hx; by destruct v).
  assert (Hlt : task_of v < length (slots e)) by (by eapply lookup_lt_Some).
  assert (Hwake : wake_task e1 (task_of v) = e1).
  { unfold wake_task, mark_ready. unfold e1 at 1. cbn [slots set_slots]. rewrite list_lookup_insert_eq by done. by destruct (_ <? _). }
  assert (Hsig : ∀ e2 w2 sig aw, task_context 0 [] (aw_kernel w2) → event_ok 1 (event_of v w2) sig aw [] →
    ∃ k x, signal_event v (mk_async e2 w2) = Done (mk_async (match aw with Some t => wake_task e2 t | None => e2 end) (set_event v w2 k x)) ∧ event_ok 1 x true None []
      ∧ task_context 0 [] k).
  { intros e2 w2 sig aw Hk Hx. destruct (event_signal_idle 1 _ _ e2 _ _ Hk Hx) as (b&k&ex&x&Heq&Hk'&_&Hx'&Hv).
    exists k, x. unfold signal_event. cbn [sys_executor sys_world]. rewrite Heq. cbn [mbind exec_bind]. by rewrite Hv. }
  destruct (Hsig e1 w1 false (Some (task_of v)) (wo_kernel _ _ _ Hw1) Hx1) as (k&x&Hsg&Hx&Hk). rewrite Hwake in Hsg.
  assert (Hev : ∀ w2 k2 x2, event_of v (set_event v w2 k2 x2) = x2) by (by destruct v).
  assert (Hke : ∀ w2 k2 x2, aw_kernel (set_event v w2 k2 x2) = k2) by (by destruct v).
  assert (Hint : interrupted (signal_event v) (EventTask v (await_of v p)) (AsyncRt.mk_rt e1 (Some (task_of v)) (Done w))
    = (false, EventTask v (Some (Some (task_of v))), AsyncRt.mk_rt e1 (Some (task_of v)) (Done (set_event v w1 k x)))).
  { unfold interrupted, poll_task. cbn [executor current_poll world]. rewrite Hp. cbn [executor current_poll world mbind exec_bind]. by rewrite Hsg. }
  assert (Hs3 : slots e !! task_of v = Some (mk_aslot (Some (EventTask v (await_of v p))) nm true)) by (rewrite Hs; unfold nm, event_slot; by rewrite Hr).
  destruct (poll_idx_with (interrupted (signal_event v)) e e1 None _ _ _ _ _ _ nm Hs3 Hint) as (e2&Hpi&Hsl2).
  { unfold e1. cbn [slots set_slots]. by apply list_lookup_insert_eq. }
  exists e2, (set_event v w1 k x). split; [exact Hpi|]. split; [by rewrite Hsl2|]. split; [by rewrite Hev|].
  intros s Hs2. destruct (Hsig e2 (set_event v w1 k x) true None) as (k2&x2&Heq&Hx2&_); [by rewrite Hke|by rewrite Hev|].
  rewrite Heq in Hs2. injection Hs2 as <-. cbn [sys_executor sys_world]. by rewrite Hev.
Qed.

(** ** Reading a byte *)

(** A byte that waits is read at once, and the signal that announced it stays. *)
Lemma read_byte_ready `{!SmpConfig} {X : Type} (poll_fn : option (RxBuffer → X → exec (option Z * RxBuffer * X))) (y : X)
    (w : AsyncWorld) (wait current : option nat) (b : Z) (rest : list Z) :
  ring_wf (aw_buf w) → rx_bytes (aw_buf w) = b :: rest →
  ∃ w', read_byte_poll poll_fn wait current y w = Done (Some b, wait, y, w') ∧ aw_rx w' = aw_rx w ∧ rx_bytes (aw_buf w') = rest.
Proof.
  intros Hwf Hb. unfold read_byte_poll, pop_byte, pop_from_rx_buf. destruct (rx_pop_spec (aw_buf w) Hwf) as (b'&_&Hb'&->).
  rewrite Hb in *. cbn [head mbind exec_bind]. by eexists.
Qed.

(** The next read takes the signal, finds no byte and waits for nothing: the
    event has no waiter to wake when the next byte comes.  The console has no
    poll function, or one that finds nothing. *)
Theorem read_byte_stalls `{!SmpConfig} {X : Type} (getc : option (X → exec (option Z * X))) (y : X) (w : AsyncWorld) (wait : option nat) (c : nat) :
  (∀ g, getc = Some g → g y = Done (None, y)) →
  task_context 0 [] (aw_kernel w) → event_ok 1 (aw_rx w) true None [] → ring_wf (aw_buf w) → rx_bytes (aw_buf w) = [] →
  ∃ w', read_byte_poll (port_poll <$> getc) wait (Some c) y w = Done (None, None, y, w') ∧ event_ok 1 (aw_rx w') false None [].
Proof.
  intros Hg Hk Hx Hwf Hb. unfold read_byte_poll.
  assert (Hpop : ∀ w, task_context 0 [] (aw_kernel w) → ring_wf (aw_buf w) → rx_bytes (aw_buf w) = [] →
    ∃ k b, pop_byte (port_poll <$> getc) y w = Done (None, y, mk_aworld k (aw_demo w) (aw_rx w) b (aw_counters w)) ∧ task_context 0 [] k ∧ ring_wf b ∧ rx_bytes b = []).
  { clear w Hk Hx Hwf Hb. intros w Hk Hwf Hb. unfold pop_byte, pop_from_rx_buf. destruct (rx_pop_spec (aw_buf w) Hwf) as (b'&Hwf'&Hb'&->). rewrite Hb in *.
    cbn [head tail mbind exec_bind] in *. destruct getc as [g|]; cbn [fmap option_fmap option_map].
    - unfold port_poll. rewrite (Hg g eq_refl). cbn [mbind exec_bind]. destruct (rx_pop_spec b' Hwf') as (b2&Hwf2&Hb2&->). rewrite Hb' in *. cbn [head tail mbind exec_bind] in *.
      eexists _, _. split; [done|]. split; [by apply masked_context|done].
    - cbn [mbind exec_bind]. eexists _, _. split; [done|]. split; [|done]. by destruct (aw_kernel w). }
  destruct (Hpop w Hk Hwf Hb) as (k0&b0&->&Hk0&Hwf0&Hb0). cbn [mbind exec_bind aw_kernel aw_rx aw_buf].
  destruct (event_poll_k 1 _ _ _ _ c wait Hk0 Hx ltac:(by left)) as (k1&x1&->&Hk1&_&Hx1). cbn [mbind exec_bind set_event aw_buf aw_kernel aw_demo aw_counters].
  destruct (Hpop (mk_aworld k1 (aw_demo w) x1 b0 (aw_counters w)) Hk1 Hwf0 Hb0) as (k2&b2&->&_). cbn [mbind exec_bind aw_kernel aw_rx event_wait_drop].
  eexists. split; [done|]. done.
Qed.
