(* ===== verification/Heap.v ===== *)
(** * The kernel heap, [kernel/src/mm/tlsf.rs]

    The allocator of the [rlsf] crate, whose code is not in the repository, is
    the class [Tlsf]; around it are the counters that the kernel keeps.  The
    laws of the class say what an allocator of blocks promises; a pointer is
    its address, 0 when null. *)

From S2P Require Export Prelude.

(** What the kernel uses of the crate. *)
Class Tlsf (T : Type) : Type := {
  tlsf_new : T;
  insert_free_block_ptr : Z → Z → T → T;
  tlsf_allocate : Z → Z → T → option Z * T;
  tlsf_deallocate : Z → Z → T → T;
}.

Record HeapStats : Type := mk_heap_stats {
  hs_initialized : bool;
  hs_start : Z;
  hs_size : Z;
  hs_used : Z;
  hs_allocations : Z;
  hs_failed_allocations : Z;
}.

Record Layout : Type := mk_layout { l_size : Z; l_align : Z }.
#[export] Instance Layout_eq_dec : EqDecision Layout.
Proof. solve_decision. Defined.

Section heap.
Context {T : Type} `{!Tlsf T}.

Record GlobalTlsfAlloc : Type := mk_tlsf {
  h_inner : option T;
  h_initialized : bool;
  h_start : Z;
  h_size : Z;
  h_used : Z;
  h_allocations : Z;
  h_failed_allocations : Z;
}.

Definition heap_new : GlobalTlsfAlloc := mk_tlsf None false 0 0 0 0 0.

(** The memory is its address and its length. *)
Definition heap_init (ptr len : Z) (g : GlobalTlsfAlloc) : GlobalTlsfAlloc :=
  match h_inner g with
  | Some _ => g
  | None => mk_tlsf (Some (insert_free_block_ptr ptr len tlsf_new)) true ptr len 0 0 0
  end.

Definition heap_stats (g : GlobalTlsfAlloc) : HeapStats :=
  mk_heap_stats (h_initialized g) (h_start g) (h_size g) (h_used g) (h_allocations g) (h_failed_allocations g).

Definition alloc (layout : Layout) (g : GlobalTlsfAlloc) : Z * GlobalTlsfAlloc :=
  let failed inner := (0%Z, mk_tlsf inner (h_initialized g) (h_start g) (h_size g) (h_used g) (h_allocations g)
                              (wrapping_add 64 (h_failed_allocations g) 1)) in
  match h_inner g with
  | Some tlsf =>
      match tlsf_allocate (l_size layout) (l_align layout) tlsf with
      | (Some ptr, tlsf) => (ptr, mk_tlsf (Some tlsf) (h_initialized g) (h_start g) (h_size g) (wrapping_add 64 (h_used g) (l_size layout))
                                    (wrapping_add 64 (h_allocations g) 1) (h_failed_allocations g))
      | (None, tlsf) => failed (Some tlsf)
      end
  | None => failed None
  end.

Definition dealloc (ptr : Z) (layout : Layout) (g : GlobalTlsfAlloc) : GlobalTlsfAlloc :=
  match h_inner g with
  | Some tlsf =>
      if (ptr =? 0)%Z then g else
      mk_tlsf (Some (tlsf_deallocate ptr (l_align layout) tlsf)) (h_initialized g) (h_start g) (h_size g)
        (wrapping_sub 64 (h_used g) (l_size layout)) (wrapping_sub 64 (h_allocations g) 1) (h_failed_allocations g)
  | None => g
  end.
End heap.
Arguments GlobalTlsfAlloc : clear implicits.
Arguments heap_new {T}.

(** What the crate documents: an allocated block is inside the memory given,
    aligned, apart from the blocks in use; freeing a block ends its use. *)
Class TlsfLaws (T : Type) `{!Tlsf T} : Type := {
  tlsf_live : T → gmap Z Layout;
  tlsf_memory : T → Z * Z;
  live_new ptr len : tlsf_live (insert_free_block_ptr ptr len tlsf_new) = ∅ ∧ tlsf_memory (insert_free_block_ptr ptr len tlsf_new) = (ptr, len);
  allocate_law size align t : let '(r, t') := tlsf_allocate size align t in
    tlsf_memory t' = tlsf_memory t ∧
    match r with
    | None => tlsf_live t' = tlsf_live t
    | Some p =>
        tlsf_live t' = <[p := mk_layout size align]> (tlsf_live t) ∧ tlsf_live t !! p = None ∧ p ≠ 0%Z
        ∧ (fst (tlsf_memory t) <= p ∧ p + size <= fst (tlsf_memory t) + snd (tlsf_memory t))%Z ∧ (align | p)%Z
        ∧ ∀ q l, tlsf_live t !! q = Some l → (q + l_size l <= p ∨ p + size <= q)%Z
    end;
  deallocate_law ptr l t : tlsf_live t !! ptr = Some l →
    tlsf_live (tlsf_deallocate ptr (l_align l) t) = delete ptr (tlsf_live t) ∧ tlsf_memory (tlsf_deallocate ptr (l_align l) t) = tlsf_memory t;
}.

Section laws.
Context {T : Type} `{!Tlsf T} `{!TlsfLaws T}.

Definition total_size (m : gmap Z Layout) : Z := map_fold (λ _ l s, (l_size l + s)%Z) 0%Z m.

Lemma total_insert (m : gmap Z Layout) (p : Z) (l : Layout) : m !! p = None → total_size (<[p := l]> m) = (l_size l + total_size m)%Z.
Proof. intros Hp. unfold total_size. rewrite map_fold_insert_L; [done|intros; lia|done]. Qed.

Lemma total_delete (m : gmap Z Layout) (p : Z) (l : Layout) : m !! p = Some l → total_size (delete p m) = (total_size m - l_size l)%Z.
Proof.
  intros Hp. rewrite <- (insert_delete_id m p l Hp) at 2. rewrite total_insert by apply lookup_delete_eq. lia.
Qed.

(** The layouts given out and not taken back, and the memory. *)
Record heap_ok (g : GlobalTlsfAlloc T) (owned : gmap Z Layout) (ptr len failed : Z) : Prop := {
  ho_live : ∃ t, h_inner g = Some t ∧ tlsf_live t = owned ∧ tlsf_memory t = (ptr, len);
  ho_init : h_initialized g = true ∧ h_start g = ptr ∧ h_size g = len;
  ho_used : h_used g = wrap 64 (total_size owned);
  ho_allocations : h_allocations g = wrap 64 (Z.of_nat (size owned));
  ho_failed : h_failed_allocations g = wrap 64 failed;
}.

(** Histories: what callers of the allocator own. *)
Inductive heap_reach (ptr len : Z) : GlobalTlsfAlloc T → gmap Z Layout → Z → Prop :=
  | hr_init g : h_inner g = None → heap_reach ptr len (heap_init ptr len g) ∅ 0
  | hr_again p l g owned failed : heap_reach ptr len g owned failed → heap_reach ptr len (heap_init p l g) owned failed
  | hr_alloc layout g owned failed p g' : heap_reach ptr len g owned failed → alloc layout g = (p, g') →
      heap_reach ptr len g' (if (p =? 0)%Z then owned else <[p := layout]> owned) (if (p =? 0)%Z then failed + 1 else failed)
  | hr_dealloc p layout g owned failed : heap_reach ptr len g owned failed → owned !! p = Some layout →
      heap_reach ptr len (dealloc p layout g) (delete p owned) failed.

(** What the owned blocks are: inside the memory, aligned, disjoint. *)
Definition blocks_ok (owned : gmap Z Layout) (ptr len : Z) : Prop :=
  (∀ p l, owned !! p = Some l → p ≠ 0 ∧ ptr <= p ∧ p + l_size l <= ptr + len ∧ (l_align l | p))%Z
  ∧ ∀ p q l l', owned !! p = Some l → owned !! q = Some l' → p ≠ q → (p + l_size l <= q ∨ q + l_size l' <= p)%Z.

Lemma wrap_add_wrap (w x y : Z) : wrapping_add w (wrap w x) y = wrap w (x + y).
Proof. unfold wrapping_add, wrap. apply Zplus_mod_idemp_l. Qed.
Lemma wrap_sub_wrap (w x y : Z) : wrapping_sub w (wrap w x) y = wrap w (x - y).
Proof. unfold wrapping_sub, wrap. apply Zminus_mod_idemp_l. Qed.

Lemma heap_init_ok (ptr len : Z) (g : GlobalTlsfAlloc T) : h_inner g = None → heap_ok (heap_init ptr len g) ∅ ptr len 0.
Proof.
  intros Hg. unfold heap_init. rewrite Hg. destruct (live_new ptr len) as [H1 H2]. split; try done. by eexists.
Qed.

Lemma alloc_ok (layout : Layout) (g : GlobalTlsfAlloc T) (owned : gmap Z Layout) (ptr len failed : Z) :
  heap_ok g owned ptr len failed → blocks_ok owned ptr len →
  let '(p, g') := alloc layout g in
  let owned' := if (p =? 0)%Z then owned else <[p := layout]> owned in
  heap_ok g' owned' ptr len (if (p =? 0)%Z then failed + 1 else failed)%Z ∧ blocks_ok owned' ptr len.
Proof.
  intros [(t&Ht&Hl&Hm) Hi Hu Ha Hf] [B1 B2]. unfold alloc. rewrite Ht. pose proof (allocate_law (l_size layout) (l_align layout) t) as Hlaw.
  destruct (tlsf_allocate (l_size layout) (l_align layout) t) as [[p|] t'].
  - destruct Hlaw as (Hm'&Hl'&Hnone&Hnz&Hrange&Halign&Hdis). rewrite Hl in Hnone. rewrite (proj2 (Z.eqb_neq _ _) Hnz).
    assert (Hlay : mk_layout (l_size layout) (l_align layout) = layout) by (by destruct layout). rewrite Hlay, Hl in Hl'. rewrite Hm in *. split.
    + split; cbn; [by eexists|done| | |done].
      * rewrite Hu, wrap_add_wrap, total_insert by done. f_equal. lia.
      * rewrite Ha, wrap_add_wrap, map_size_insert_None by done. f_equal. lia.
    + cbn [fst snd] in Hrange. split.
      * intros q l [[<- <-]|[_ Hq]]%lookup_insert_Some; [by destruct Hrange|by apply B1].
      * intros q1 q2 l1 l2 [[<- <-]|[Hn1 H1]]%lookup_insert_Some [[<- <-]|[Hn2 H2]]%lookup_insert_Some Hne; [done| | |by eapply B2].
        -- rewrite <- Hl in H2. specialize (Hdis q2 l2 H2). lia.
        -- rewrite <- Hl in H1. specialize (Hdis q1 l1 H1). lia.
  - destruct Hlaw as [Hm' Hl']. cbn. split; [|by split]. split; cbn; [exists t'; split_and!; congruence|done|done|done|]. by rewrite Hf, wrap_add_wrap.
Qed.

Lemma dealloc_ok (p : Z) (layout : Layout) (g : GlobalTlsfAlloc T) (owned : gmap Z Layout) (ptr len failed : Z) :
  heap_ok g owned ptr len failed → blocks_ok owned ptr len → owned !! p = Some layout →
  heap_ok (dealloc p layout g) (delete p owned) ptr len failed ∧ blocks_ok (delete p owned) ptr len.
Proof.
  intros [(t&Ht&Hl&Hm) Hi Hu Ha Hf] [B1 B2] Hp. unfold dealloc. rewrite Ht.
  destruct (B1 p layout Hp) as (Hnz&_). rewrite (proj2 (Z.eqb_neq _ _) Hnz). subst owned. destruct (deallocate_law p layout t Hp) as [D1 D2].
  split.
  - split; cbn; [eexists; split_and!; [done|done|congruence]|done| | |done].
    + rewrite Hu, wrap_sub_wrap, (total_delete _ _ _ Hp). done.
    + rewrite Ha, wrap_sub_wrap, map_size_delete_Some by (by eexists). f_equal.
      assert (size (tlsf_live t) ≠ 0) by (intros H0%map_size_empty_inv; rewrite H0 in Hp; discriminate Hp). lia.
  - split; [intros q l [_ Hq]%lookup_delete_Some; by apply B1|].
    intros q1 q2 l1 l2 [_ H1]%lookup_delete_Some [_ H2]%lookup_delete_Some. by apply B2.
Qed.

(** Every history of allocations and of frees of what was allocated keeps the
    blocks in use inside the memory, aligned and disjoint, and the statistics
    are those blocks: their number, their sizes, and the calls that failed. *)
Theorem heap_accounts (ptr len : Z) (g : GlobalTlsfAlloc T) (owned : gmap Z Layout) (failed : Z) :
  heap_reach ptr len g owned failed →
  blocks_ok owned ptr len
  ∧ heap_stats g = mk_heap_stats true ptr len (wrap 64 (total_size owned)) (wrap 64 (Z.of_nat (size owned))) (wrap 64 failed).
Proof.
  intros Hr. assert (Hok : heap_ok g owned ptr len failed ∧ blocks_ok owned ptr len).
  { induction Hr as [g Hg|p l g owned failed _ [IH HB]|layout g owned failed p g' _ [IH HB] Ha|p layout g owned failed _ [IH HB] Hp].
    - split; [by apply heap_init_ok|]. split; intros *; rewrite lookup_empty; done.
    - split; [|done]. unfold heap_init. by destruct (ho_live _ _ _ _ _ IH) as (t&->&_).
    - pose proof (alloc_ok layout g owned ptr len failed IH HB) as Hk. by rewrite Ha in Hk.
    - by apply dealloc_ok. }
  destruct Hok as [[_ (H1&H2&H3) H4 H5 H6] HB]. split; [done|]. unfold heap_stats. by rewrite H1, H2, H3, H4, H5, H6.
Qed.
End laws.

(** ** A small allocator

    Blocks from the bottom up; every condition of the laws is checked. *)

Record Bump : Type := mk_bump { b_memory : Z * Z; b_next : Z; b_live : gmap Z Layout }.

Definition apart (p size : Z) (q : Z) (l : Layout) : bool := (q + l_size l <=? p)%Z || (p + size <=? q)%Z.
Definition bump_fits (p size align : Z) (t : Bump) : bool :=
  bool_decide (b_live t !! p = None) && negb (p =? 0)%Z && (fst (b_memory t) <=? p)%Z && (p + size <=? fst (b_memory t) + snd (b_memory t))%Z
  && negb (align =? 0)%Z && (p mod align =? 0)%Z && forallb (λ ql, apart p size (fst ql) (snd ql)) (map_to_list (b_live t)).

#[local] Instance bump : Tlsf Bump := {
  tlsf_new := mk_bump (0, 0)%Z 0 ∅;
  insert_free_block_ptr ptr len t := mk_bump (ptr, len) ptr ∅;
  tlsf_allocate size align t :=
    let p := ((b_next t + align - 1) / align * align)%Z in
    if bump_fits p size align t then (Some p, mk_bump (b_memory t) (p + size) (<[p := mk_layout size align]> (b_live t))) else (None, t);
  tlsf_deallocate p align t := mk_bump (b_memory t) (b_next t) (delete p (b_live t));
}.

#[local] Instance bump_laws : TlsfLaws Bump.
Proof.
  refine {| tlsf_live := b_live; tlsf_memory := b_memory |}; [done| |done].
  intros size align t. cbn [tlsf_allocate bump]. set (p := ((b_next t + align - 1) / align * align)%Z).
  destruct (bump_fits p size align t) eqn:Hfit; [|done]. split; [done|]. split; [done|].
  unfold bump_fits in Hfit. rewrite !andb_true_iff, bool_decide_eq_true, !negb_true_iff, !Z.eqb_neq, !Z.leb_le, Z.eqb_eq, forallb_forall in Hfit.
  destruct Hfit as [[[[[[H1 H2] H3] H4] H5] H6] H7]. split_and!; [done|done|done|done|by apply Z.mod_divide|].
  intros q l Hq. specialize (H7 (q, l)). unfold apart in H7. rewrite orb_true_iff, !Z.leb_le in H7. apply H7.
  apply list_elem_of_In. by apply elem_of_map_to_list.
Defined.

Lemma heap_accounts_witness : ∃ g : GlobalTlsfAlloc Bump,
  heap_reach 4096 64 g {[ 4104%Z := mk_layout 32 8 ]} 1
  ∧ heap_stats g = mk_heap_stats true 4096 64 32 1 1.
Proof.
  pose (g0 := heap_init 4096 64 (heap_new (T := Bump))). pose (l0 := mk_layout 3 1). pose (l1 := mk_layout 32 8). pose (l2 := mk_layout 64 8).
  pose (g1 := snd (alloc l0 g0)). pose (g2 := snd (alloc l1 g1)). pose (g3 := snd (alloc l2 g2)). pose (g4 := dealloc 4096 l0 g3).
  assert (R0 : heap_reach 4096 64 g0 ∅ 0) by (by apply hr_init).
  pose proof (hr_alloc 4096 64 l0 g0 ∅ 0 4096 g1 R0 eq_refl) as R1.
  pose proof (hr_alloc 4096 64 l1 g1 _ _ 4104 g2 R1 eq_refl) as R2.
  pose proof (hr_alloc 4096 64 l2 g2 _ _ 0 g3 R2 eq_refl) as R3.
  pose proof (hr_dealloc 4096 64 4096 l0 g3 _ _ R3 eq_refl) as R4. fold g4 in R4.
  assert (Hm : delete 4096%Z (<[4104%Z := l1]> (<[4096%Z := l0]> (∅ : gmap Z Layout))) = {[ 4104%Z := l1 ]}) by (by vm_compute).
  change (heap_reach 4096 64 g4 (delete 4096%Z (<[4104%Z := l1]> (<[4096%Z := l0]> (∅ : gmap Z Layout)))) 1) in R4. rewrite Hm in R4.
  exists g4. split; [exact R4|]. exact (proj2 (heap_accounts 4096 64 g4 _ 1 R4)).
Defined.
