(* ===== verification/Reports.v ===== *)
(** * The reports of the shell, [kernel/src/shell.rs]

    The commands that print the state of the other components.  A report is
    the text given to the printing macros; the console adds the carriage
    returns ([write_str]).  The state of all components is the record
    [System].  Counting the frames that are free in bytes, and the end of the
    memory, are checked operations. *)

From S2P Require Export Prelude.
From S2P Require Export Str.
From S2P Require Export Text.
From S2P Require Export FrameAlloc.
From S2P Require Export Sched.
From S2P Require Export AsyncTasks.
From S2P Require Export Heap.
From S2P Require Export Fdt.
From S2P Require Export BootMap.
From S2P Require Export Drivers.
From S2P Require Export Irq.
From S2P Require Export Board.
From S2P Require Export Hv.

(** ** Numbers and columns *)

Definition line (parts : list str) : str := concat parts ++ [10%Z].
Definition dec_nat (n : nat) : str := dec (Z.of_nat n).
Definition bool_str (b : bool) : str := bytes (if b then "true" else "false").

(** [{:03}], [{:>n}], [{:<n}] and [{:02x}]. *)
Definition pad_left (c : Z) (n : nat) (s : str) : str := replicate (n - length s) c ++ s.
Definition pad_right (c : Z) (n : nat) (s : str) : str := s ++ replicate (n - length s) c.
Definition dec03 (n : Z) : str := pad_left 48 3 (dec n).
Definition rjust (n : nat) (s : str) : str := pad_left 32 n s.
Definition ljust (n : nat) (s : str) : str := pad_right 32 n s.
Definition hex02 (n : Z) : str := pad_left 48 2 (digits 16 16 n).

(** A line [  label : value]. *)
Definition field (label : string) (value : str) : str := line [bytes label; value].

(** ** What the reports are about *)

(** What the registry's users see of the state of a driver, a terminal and a
    controller of pins; a terminal or controller has the name and the state of
    its driver. *)
Inductive DeviceState : Type := Uninitialized | DevReady | DevBusy | DevError | DevSuspended.
Inductive TerminalMode : Type := Raw | Cooked.
Record TerminalSize : Type := mk_size { columns : Z; rows : Z }.
Class DriverView (D W : Type) : Type := {
  drv_state : D → W → DeviceState;
  term_size : D → W → TerminalSize;
  term_mode : D → W → TerminalMode;
  pin_count : D → W → Z;
}.

Section reports.
Context {D W F H : Type} `{!EqDecision D} `{!EqDecision F} `{!AnyDriver D W} `{!DriverFactory D W F} `{!DriverView D W}.
(** The features [hypervisor] and [async_rt]. *)
Context {Fut : Type} `{!SmpConfig} (hypervisor async_rt : bool).
(** The layout of the control blocks, where a CPU's pointers to them lie, and
    the version the build sets. *)
Context (tcb_base tcb_step : Z) (current_task_slot next_task_slot : Z) (VERSION : str).

(** The frames are [None] while the kernel has not set them up. *)
Record System : Type := mk_system {
  s_kernel : kernel;
  s_executor : Executor Fut;
  s_async : AsyncCounters;
  s_registry : Registry D F;
  s_irqs : IrqModule H;
  s_devices : W;
  s_heap : HeapStats;
  s_frames : FrameAllocator;
  s_translation : bool;
  s_config : PlatformConfig;
  s_dtb : option (Z * list Z);
  s_smp : option SmpStatus;
  s_cpu_id : option Z;
  s_hv : Hv.Hypervisor;
}.

Definition set_kernel (s : System) (k : kernel) : System :=
  mk_system k (s_executor s) (s_async s) (s_registry s) (s_irqs s) (s_devices s) (s_heap s) (s_frames s) (s_translation s) (s_config s)
    (s_dtb s) (s_smp s) (s_cpu_id s) (s_hv s).

(** [platform::smp_status]. *)
Definition smp_single_cpu : SmpStatus := mk_smp false 1 1 1 0 0 0 1 1 0 0 0.
Definition smp_status (s : System) : SmpStatus := default smp_single_cpu (s_smp s).

(** ** [help], [version] and [uptime] *)

Definition OS_NAME : str := bytes "OpenIon".

Definition HELP : list string :=
  ["Built-in commands:";
   "  help              Show this help";
   "  version           Show version";
   "  clear             Clear screen";
   "  uptime            Show system uptime";
   "  mem               Show memory info";
   "  top               Show system status overview";
   "  cpuinfo           Show CPU and ISA info";
   "  smp               Show SMP bring-up status";
   "  tasks / ps        List running tasks";
   "  drivers           List registered drivers";
   "  term              List terminal devices";
   "  gpio              List GPIO controllers";
   "  irq               Show IRQ statistics";
   "  async             Show async executor stats";
   "  ls [path]         List directory";
   "  cd [path]         Change current directory";
   "  cat <file>        Read file";
   "  echo <text> > <f> Write text to file";
   "  mkdir <name>      Create directory";
   "  touch <name>      Create empty file";
   "  mount [dev target] List or mount block device";
   "  mount -u <target> Unmount filesystem";
   "  vm create <name>  Create a VM";
   "  vm load-demo <name> Prepare demo guest metadata";
   "  vm list           List VMs";
   "  vm run <name>     Run a VM"]%string.

(** The line of the executor is there with the feature [async_rt] only. *)
Definition cmd_help : str :=
  concat ((λ l, line [bytes l]) <$> filter (λ l, async_rt = true ∨ l ≠ "  async             Show async executor stats"%string) HELP).
Definition cmd_version : str := line [OS_NAME; bytes " v"; VERSION].
Definition uptime (s : System) : str :=
  let t := ticks (clock (s_kernel s)) in bytes "Uptime: " ++ dec (t `div` 1000) ++ bytes "." ++ dec03 (t `mod` 1000) ++ bytes "s".
Definition cmd_uptime (s : System) : str := line [uptime s; bytes " ("; dec (ticks (clock (s_kernel s))); bytes " ticks)"].

(** ** [smp] and [mem] *)

Definition cmd_smp (s : System) : str :=
  let status := smp_status s in
  concat [line [bytes "SMP:"];
    field "  enabled         : " (bool_str (enabled status));
    field "  possible_cpus   : " (dec (possible_cpus status));
    field "  online_cpus     : " (dec_nat (online_cpus status));
    field "  active_cpus     : " (dec_nat (active_cpus status));
    field "  parked_cpus     : " (dec_nat (parked_cpus status));
    field "  online_mask     : " (hex (online_mask status));
    field "  active_mask     : " (hex (Board.active_mask status));
    field "  parked_mask     : " (hex (parked_mask status));
    field "  boot_cpu        : " (dec (boot_cpu status));
    field "  current_cpu     : " (dec (current_cpu status));
    field "  start_attempts  : " (dec (start_attempts status));
    field "  start_failures  : " (dec (start_failures status))].

(** [pages * PAGE_SIZE / 1024]. *)
Definition kib (pages : Z) : exec Z := if (pages * PAGE_SIZE <? 2 ^ 64)%Z then Done (pages * PAGE_SIZE / 1024)%Z else Stuck.

Definition cmd_mem (s : System) : exec str :=
  let heap := s_heap s in
  let fs := FrameAlloc.stats (s_frames s) in
  free ← kib (fs_free_pages fs);
  Done (concat [line [bytes "Memory:"];
    line [bytes "  heap: TLSF"; bytes (if hs_initialized heap then " " else " not initialized, "); dec (hs_used heap); bytes " bytes used, ";
      dec (hs_size heap); bytes " bytes total, "; dec (hs_allocations heap); bytes " live allocs, "; dec (hs_failed_allocations heap); bytes " failed"];
    line [bytes "  frames: Bitmap"; bytes (if fs_initialized fs then " " else " not initialized, "); bytes " base="; hex (fs_base fs); bytes ", free=";
      dec (fs_free_pages fs); bytes "/"; dec_nat (fs_total_pages fs); bytes " pages ("; dec free; bytes " KiB free)"];
    line [bytes "  object pools: Slab"]]).

(** ** [cpuinfo] *)

Record CpuIdentity : Type := mk_cpu_identity { root_model : option str; root_compatible : option str; fdt_isa : option str }.

Definition starts_with (prefix s : str) : bool := bool_decide (take (length prefix) s = prefix).
Fixpoint contains (needle s : str) : bool :=
  starts_with needle s || match s with [] => false | _ :: s => contains needle s end.

Definition vendor_from_compatible (value : str) : option str :=
  if starts_with (bytes "espressif,") value || starts_with (bytes "esp,") value then Some (bytes "Espressif") else None.
Definition model_from_string (value : str) : option str := if contains (bytes "esp32s31") value then Some (bytes "ESP32-S31") else None.

Definition or_else {A} (x y : option A) : option A := match x with Some a => Some a | None => y end.
Definition vendor_name (i : CpuIdentity) : str :=
  default (bytes "unknown") (or_else (root_compatible i ≫= vendor_from_compatible) (root_model i ≫= vendor_from_compatible)).
Definition model_name (i : CpuIdentity) : str :=
  default (bytes "unknown") (or_else (or_else (or_else (root_model i ≫= model_from_string) (root_compatible i ≫= model_from_string))
    (root_model i)) (root_compatible i)).

Definition identity_callback (i : CpuIdentity) (node : Fdt.FdtNode) : exec CpuIdentity :=
  if bool_decide (Fdt.name node = []) then Done (mk_cpu_identity (Fdt.model node) (Fdt.first_compatible node) (fdt_isa i)) else
  if bool_decide (fdt_isa i = None) && bool_decide (Fdt.device_type node = Some (bytes "cpu")) then
    Done (mk_cpu_identity (root_model i) (root_compatible i) (Fdt.riscv_isa node))
  else Done i.
Definition collect_cpu_identity (s : System) : exec CpuIdentity :=
  let none := mk_cpu_identity None None None in
  match s_dtb s with None => Done none | Some (_, mem) => Fdt.walk_nodes identity_callback mem none end.

(** The array of at most eight numbers and how many are there. *)
Definition cpu_callback (acc : list Z * nat) (node : Fdt.FdtNode) : exec (list Z * nat) :=
  let '(cpus, count) := acc in
  if (length cpus <=? count) || negb (Fdt.is_available node) then Done acc else
  if bool_decide (Fdt.device_type node ≠ Some (bytes "cpu")) then Done acc else
  reg ← Fdt.first_reg node;
  match reg with
  | Some reg => cpus ← put_exec cpus count (Fdt.base reg); Done (cpus, S count)
  | None => Done acc
  end.

Fixpoint comma_list (cpus : list Z) : str :=
  match cpus with [] => [] | [c] => dec c | c :: cpus => dec c ++ bytes "," ++ comma_list cpus end.

(** What is printed, and the number of processors. *)
Definition print_dtb_cpus (s : System) : exec (str * nat) :=
  match s_dtb s with
  | None => Done (line [bytes "  cpu list         : unknown"], 1)
  | Some (_, mem) =>
      '(cpus, count) ← Fdt.walk_nodes cpu_callback mem (replicate 8 0%Z, 0);
      Done (if count =? 0 then (bytes "  cpu list         : " ++ line [bytes "none"], 1)
            else (bytes "  cpu list         : " ++ comma_list (take count cpus) ++ line [bytes " ("; dec_nat count; bytes ")"], count))
  end.

Definition cmd_cpuinfo (s : System) : exec str :=
  let cfg := s_config s in
  identity ← collect_cpu_identity s;
  '(cpu_list, cpu_count) ← print_dtb_cpus s;
  memory_end ← add_w 64 (c_memory_base cfg) (c_memory_size cfg);
  let smp := smp_status s in
  let ext (b : bool) (name : string) := if b then bytes name else [] in
  Done (concat [line [bytes "CPU:"];
    field "  vendor           : " (vendor_name identity);
    field "  model            : " (model_name identity);
    field "  current cpu      : " (match s_cpu_id s with Some i => dec i | None => bytes "unknown" end);
    cpu_list;
    field "  possible cpus    : " (dec_nat cpu_count);
    field "  online cpus      : " (dec_nat (online_cpus smp));
    field "  active cpus      : " (dec_nat (active_cpus smp));
    field "  parked cpus      : " (dec_nat (parked_cpus smp));
    field "  online mask      : " (hex (online_mask smp));
    field "  active mask      : " (hex (Board.active_mask smp));
    field "  parked mask      : " (hex (parked_mask smp));
    field "  arch             : " (bytes (if OPENION_RISCV_XLEN_64 then "riscv64" else if OPENION_RISCV_XLEN_32 then "riscv32" else "unknown"));
    field "  privilege        : " (bytes (if OPENION_RISCV_S_MODE then "S-mode" else if OPENION_RISCV_M_MODE then "M-mode" else "unknown"));
    field "  mmu              : " (bytes (if s_translation s then "Sv32 identity active" else if OPENION_RISCV_SV32_MMU then "Sv32 requested, inactive" else "disabled"));
    bytes "  isa              : rv"; dec (if OPENION_RISCV_XLEN_64 then 64 else 32);
    ext OPENION_RISCV_EXT_M " m"; ext OPENION_RISCV_EXT_A " a"; ext OPENION_RISCV_EXT_C " c"; ext OPENION_RISCV_EXT_F " f"; ext OPENION_RISCV_EXT_D " d";
    ext OPENION_RISCV_EXT_B " b"; ext OPENION_RISCV_EXT_V " v"; ext OPENION_RISCV_EXT_ZICSR " zicsr"; ext OPENION_RISCV_EXT_ZIFENCEI " zifencei"; line [];
    match fdt_isa identity with Some isa => field "  fdt isa          : " isa | None => [] end;
    field "  cpu/timebase hz  : " (dec (c_cpu_freq_hz cfg));
    field "  systick hz       : " (dec (c_systick_hz cfg));
    field "  external irqs    : " (dec (c_external_irq_count cfg));
    line [bytes "  memory           : "; hex (c_memory_base cfg); bytes ".."; hex memory_end; bytes " ("; dec (c_memory_size cfg `div` 1024); bytes " KiB)"];
    field "  kernel end       : " (hex (c_kernel_end cfg));
    line [bytes "  supervisor csrs  : not probed"]])%string.

(** ** [drivers], [term], [gpio] and [irq] *)

Definition driver_state_name (st : DeviceState) : str :=
  bytes (match st with Uninitialized => "uninit" | DevReady => "ready" | DevBusy => "busy" | DevError => "error" | DevSuspended => "suspend" end).
Definition terminal_mode_name (m : TerminalMode) : str := bytes (match m with Raw => "raw" | Cooked => "cooked" end).
Definition device_class_name (d : D) : str :=
  let class := device_class d in
  bytes (if class_contains class BLOCK then "block" else if class_contains class CHAR then "char" else if class_contains class TERMINAL then "terminal"
    else if class_contains class GPIO then "gpio" else if class_contains class FRAMEBUFFER then "framebuffer" else if class_contains class NET then "net"
    else if class_contains class RNG then "rng" else "other").

(** The lines of a list of devices, [none] for an empty one. *)
Definition device_lines {A} (f : A → str) (l : list A) : str := if bool_decide (length l = 0) then line [bytes "  none"] else concat (f <$> l).

Definition cmd_drivers (s : System) : str :=
  let st := registry_stats (s_registry s) in
  let devices := registered_devices st in
  line [bytes "Drivers:"] ++
  line [bytes "  registry: drivers="; dec (registered_drivers st); bytes ", factories="; dec (registered_factories st); bytes ", block="; dec (devices BLOCK);
    bytes ", char="; dec (devices CHAR); bytes ", term="; dec (devices TERMINAL); bytes ", gpio="; dec (devices GPIO); bytes ", fb="; dec (devices FRAMEBUFFER);
    bytes ", net="; dec (devices NET); bytes ", rng="; dec (devices RNG); bytes ", probe_matches="; dec (probe_matches st); bytes ", probe_ok=";
    dec (probe_successes st); bytes ", probe_fail="; dec (probe_failures st)] ++
  line [bytes "  irq_dispatch: total="; dec (irq_dispatches st); bytes ", hits="; dec (irq_driver_hits st); bytes ", misses="; dec (irq_driver_misses st);
    bytes ", fast_slots="; dec_nat (irq_fast_slots st)] ++
  line [bytes "  irq_fast: hits="; dec (irq_fast_hits st); bytes ", fallbacks="; dec (irq_fast_fallbacks st); bytes ", conflicts="; dec (irq_fast_conflicts st)] ++
  device_lines (λ d, line [bytes "  "; drv_name d; bytes ": state="; driver_state_name (drv_state d (s_devices s)); bytes ", class="; device_class_name d])
    (for_each_driver (s_registry s)).

Definition cmd_term (s : System) : str :=
  line [bytes "Terminal devices:"] ++
  device_lines (λ d, let w := s_devices s in
      line [bytes "  "; drv_name d; bytes ": "; dec (columns (term_size d w)); bytes "x"; dec (rows (term_size d w)); bytes ", mode=";
        terminal_mode_name (term_mode d w); bytes ", state="; driver_state_name (drv_state d w)])
    (for_each_device (s_registry s) TERMINAL).

Definition cmd_gpio (s : System) : str :=
  line [bytes "GPIO controllers:"] ++
  device_lines (λ d, let w := s_devices s in
      line [bytes "  "; drv_name d; bytes ": "; dec (pin_count d w); bytes " pin(s), state="; driver_state_name (drv_state d w)])
    (for_each_device (s_registry s) GPIO).

Definition print_irq_value (irq : Z) : str := if (irq =? U32_MAX)%Z then bytes "none" else dec irq.

Definition cmd_irq (s : System) : str :=
  let st := irq_stats (s_irqs s) in
  let drv := registry_stats (s_registry s) in
  line [bytes "IRQs:"] ++
  line [bytes "  configured="; dec_nat (configured_count st); bytes ", registered_handlers="; dec_nat (registered_handlers st)] ++
  line [bytes "  handled="; dec (handled st); bytes ", unhandled="; dec (unhandled st); bytes ", out_of_range="; dec (out_of_range st)] ++
  line [bytes "  driver_dispatch="; dec (irq_dispatches drv); bytes ", driver_hits="; dec (irq_driver_hits drv); bytes ", driver_misses="; dec (irq_driver_misses drv)] ++
  line [bytes "  driver_fast_slots="; dec_nat (irq_fast_slots drv); bytes ", fast_hits="; dec (irq_fast_hits drv); bytes ", fast_fallbacks=";
    dec (irq_fast_fallbacks drv); bytes ", fast_conflicts="; dec (irq_fast_conflicts drv)] ++
  bytes "  last=" ++ print_irq_value (last_irq st) ++ bytes ", last_unhandled=" ++ print_irq_value (last_unhandled_irq st) ++ line [].

(** ** [tasks] and [top] *)

Definition task_state_name (st : TaskState) : str :=
  bytes (match st with Ready => "ready" | Running => "running" | Blocked => "blocked" | Suspended => "suspend" | Terminated => "term" | Sleeping => "sleep" end).

Definition task_line (t : TaskInfo) : str :=
  line [bytes "  "; dec (ti_id t); bytes (if ti_current t then "*" else " "); bytes "  "; dec_nat (ti_priority t); bytes "    ";
    task_state_name (ti_state t); bytes "  "; dec (ti_stack_size t); bytes "  "; dec (ti_wakeup_tick t); bytes " "; bytes (ti_name t)].
Definition top_line (t : TaskInfo) : str :=
  line [bytes "  "; rjust 4 (dec (ti_id t)); bytes " "; rjust 4 (dec_nat (ti_priority t)); bytes " "; ljust 8 (task_state_name (ti_state t)); bytes " ";
    rjust 6 (dec (ti_stack_size t)); bytes " "; ljust 8 (bytes (if ti_current t then "*" else " ")); bytes " "; bytes (ti_name t)].

(** [for task in tasks.iter().take(shown).flatten()] and the count of the rest. *)
Definition task_lines (f : TaskInfo → str) (snapshot : list (option TaskInfo)) (count : nat) : str :=
  let shown := count `min` length snapshot in
  concat (f <$> omap Datatypes.id (take shown snapshot)) ++
  (if shown <? count then line [bytes "  ... "; dec_nat (count - shown); bytes " more"] else []).

Definition cmd_tasks (s : System) : exec (str * System) :=
  '(st, k) ← Sched.stats (s_kernel s);
  '((tasks, count), k) ← task_snapshot k;
  Done (line [bytes "Tasks:"] ++
    line [bytes "  scheduler: cpu="; dec_nat (ss_current_cpu st); bytes ", active_mask="; hex (ss_active_cpu_mask st); bytes ", ready=";
      dec_nat (ss_ready_tasks st); bytes ", top_prio="; dec_nat (ss_highest_ready_priority st); bytes ", switches="; dec (ss_context_switches st);
      bytes ", preempts="; dec (ss_preemptions st); bytes ", pending="; bool_str (ss_preempt_pending st)] ++
    match ss_current_task st with
    | Some t => line [bytes "  current: "; bytes (ti_name t); bytes "#"; dec (ti_id t); bytes " prio="; dec_nat (ti_priority t)]
    | None => []
    end ++
    line [bytes "  id  prio state      stack  wakeup name"] ++ task_lines task_line tasks count, set_kernel s k).

(** [context_switch_abi_snapshot]; a null pointer is 0. *)
Record ContextSwitchAbiSnapshot : Type := mk_abi {
  current_abi : Z; next_abi : Z; current_shadow : Z; next_shadow : Z; current_slot : Z; next_slot : Z;
}.
Definition ptr_addr (p : ptr) : Z := match p with Some x => slot_ptr tcb_base tcb_step x | None => 0%Z end.
Definition context_switch_abi_snapshot (k : kernel) : ContextSwitchAbiSnapshot * kernel :=
  let current := CURRENT_TCB (mach k) in
  let m := sync_current (mach k) in
  (mk_abi (ptr_addr current) (ptr_addr (NEXT_TCB m)) (ptr_addr (percpu_current_task_ptr m)) (ptr_addr (percpu_next_task_ptr m))
     current_task_slot next_task_slot, with_mach k m).

Definition RULE : str := line [bytes "----------------------------------------"].

Definition cmd_top (s : System) : exec (str * System) :=
  '(st, k) ← Sched.stats (s_kernel s);
  let '(abi, k) := context_switch_abi_snapshot k in
  let fs := FrameAlloc.stats (s_frames s) in
  let heap := s_heap s in
  let irq := irq_stats (s_irqs s) in
  let smp := smp_status s in
  frame_free_kb ← kib (fs_free_pages fs);
  frame_total_kb ← kib (Z.of_nat (fs_total_pages fs));
  '((tasks, count), k) ← task_snapshot k;
  Done (concat [line [bytes "System Status:"];
    line [bytes "========================================"];
    line [uptime s];
    RULE; line [bytes "Scheduler:"];
    field "  current_cpu    : " (dec_nat (ss_current_cpu st));
    field "  active_mask    : " (hex (ss_active_cpu_mask st));
    field "  ready_tasks    : " (dec_nat (ss_ready_tasks st));
    field "  top_priority   : " (dec_nat (ss_highest_ready_priority st));
    field "  ctx_switches   : " (dec (ss_context_switches st));
    field "  preemptions    : " (dec (ss_preemptions st));
    field "  preempt_pending: " (bool_str (ss_preempt_pending st));
    field "  steal_attempts : " (dec (ss_steal_attempts st));
    field "  steal_successes: " (dec (ss_steal_successes st));
    field "  current_abi   : " (hex (current_abi abi));
    field "  next_abi      : " (hex (next_abi abi));
    field "  current_shadow: " (hex (current_shadow abi));
    field "  next_shadow   : " (hex (next_shadow abi));
    field "  current_slot  : " (hex (current_slot abi));
    field "  next_slot     : " (hex (next_slot abi));
    match ss_current_task st with
    | Some t => line [bytes "  current_task   : "; bytes (ti_name t); bytes "#"; dec (ti_id t); bytes " prio="; dec_nat (ti_priority t)]
    | None => []
    end;
    RULE; line [bytes "CPUs:"];
    field "  enabled        : " (bool_str (enabled smp));
    field "  possible       : " (dec (possible_cpus smp));
    field "  online         : " (dec_nat (online_cpus smp));
    field "  active         : " (dec_nat (active_cpus smp));
    field "  parked         : " (dec_nat (parked_cpus smp));
    field "  online_mask    : " (hex (online_mask smp));
    field "  active_mask    : " (hex (Board.active_mask smp));
    field "  parked_mask    : " (hex (parked_mask smp));
    field "  current_cpu    : " (dec (current_cpu smp));
    RULE; line [bytes "Memory:"];
    line [bytes "  heap_used      : "; dec (hs_used heap); bytes " bytes"];
    line [bytes "  heap_total     : "; dec (hs_size heap); bytes " bytes"];
    field "  heap_allocs    : " (dec (hs_allocations heap));
    field "  heap_failed    : " (dec (hs_failed_allocations heap));
    line [bytes "  frames_free    : "; dec (fs_free_pages fs); bytes " pages"];
    line [bytes "  frames_total   : "; dec_nat (fs_total_pages fs); bytes " pages"];
    line [bytes "  frames_free_kb : "; dec frame_free_kb; bytes " KiB / "; dec frame_total_kb; bytes " KiB"];
    RULE; line [bytes "IRQs:"];
    field "  handled        : " (dec (handled irq));
    field "  unhandled      : " (dec (unhandled irq));
    field "  out_of_range   : " (dec (out_of_range irq));
    RULE; line [bytes "Tasks:"];
    line [bytes "  "; rjust 4 (bytes "ID"); bytes " "; rjust 4 (bytes "PRI"); bytes " "; ljust 8 (bytes "STATE"); bytes " "; rjust 6 (bytes "STACK");
      bytes " "; ljust 8 (bytes "CPU"); bytes " "; bytes "NAME"];
    task_lines top_line tasks count], set_kernel s k).

(** ** [async] and [vm status] *)

Definition async_report (s : System) : str :=
  let st := async_stats (s_executor s) (s_async s) in
  line [bytes "Async runtime:"] ++
  line [bytes "  enabled="; bool_str (as_enabled st); bytes ", slots="; dec_nat (as_slots st); bytes ", active="; dec_nat (as_active st); bytes ", sleeping=";
    dec_nat (as_sleeping st); bytes ", spawned="; dec (as_spawned st); bytes ", completed="; dec (as_completed st)] ++
  line [bytes "  polls="; dec (as_polls st); bytes ", wakes="; dec (as_wakes st); bytes ", heartbeat="; dec (as_heartbeat_ticks st);
    bytes ", demo_events="; dec (as_demo_events st)] ++
  line [bytes "  rx_bytes="; dec (as_rx_bytes st); bytes ", rx_events="; dec (as_rx_events st); bytes ", last_rx=0x"; hex02 (as_last_rx_byte st)] ++
  line [bytes "  async wake        Signal demo async event"].

(** [HvState::as_str] and [HvExitKind::as_str]. *)
Definition hv_state_str (st : Hv.HvState) : str :=
  bytes (match st with Hv.Disabled => "disabled" | Hv.Compiled => "compiled" | Hv.Unsupported => "unsupported" | Hv.Ready => "ready" | Hv.Faulted => "faulted" end).
Definition hv_exit_str (e : Hv.HvExitKind) : str :=
  bytes (match e with
    | Hv.ExitNone => "none" | Hv.ExitInterrupt => "interrupt" | Hv.ExitEcall => "ecall" | Hv.ExitPageFault => "page_fault"
    | Hv.ExitIllegalInstruction => "illegal_instruction" | Hv.ExitUnsupported => "unsupported" | Hv.ExitFatal => "fatal"
    end).

Definition cmd_vm_status (s : System) : str :=
  let st := Hv.stats hypervisor (s_hv s) in
  line [bytes "Hypervisor:"] ++
  line [bytes "  compiled="; bool_str (Hv.st_compiled st); bytes ", enabled="; bool_str (Hv.st_enabled st); bytes ", state="; hv_state_str (Hv.st_state st);
    bytes ", h_extension="; bool_str (Hv.st_h_extension st)] ++
  line [bytes "  vms="; dec (Hv.st_vm_count st); bytes ", vcpus="; dec (Hv.st_vcpu_count st); bytes ", exits="; dec (Hv.st_exits st)] ++
  line [bytes "  last_exit="; hv_exit_str (Hv.st_last_exit st); bytes ", cause="; hex (Hv.st_last_cause st); bytes ", stval="; hex (Hv.st_last_stval st)].

(** ** The reports by the name of their command *)

(** What the console gets for a report of [ShellCmds], and the state of the
    system after it: the statistics are read under the locks. *)
Definition report_text (s : System) (cmd : str) : exec (str * System) :=
  let named (n : string) := bool_decide (cmd = bytes n) in
  let keep (t : str) := Done (t, s) in
  if named "help" then keep cmd_help else
  if named "version" || named "ver" then keep cmd_version else
  if named "uptime" then keep (cmd_uptime s) else
  if named "mem" then (t ← cmd_mem s; keep t) else
  if named "cpuinfo" then (t ← cmd_cpuinfo s; keep t) else
  if named "smp" then keep (cmd_smp s) else
  if named "tasks" || named "ps" then cmd_tasks s else
  if named "top" then cmd_top s else
  if named "drivers" then keep (cmd_drivers s) else
  if named "term" then keep (cmd_term s) else
  if named "gpio" then keep (cmd_gpio s) else
  if named "irq" then keep (cmd_irq s) else
  if named "vm status" then keep (cmd_vm_status s) else Stuck.
Definition report_bytes (s : System) (cmd : str) : exec (list Z * System) :=
  r ← report_text s cmd; Done (Text.write_str r.1, r.2).
End reports.
