(* ===== verification/ReportsProps.v ===== *)
(** * What the reports of the shell show *)

From S2P Require Export Prelude.
From S2P Require Export SchedProps.
From S2P Require Export AsyncTasksProps.
From S2P Require Export FdtWalk.
From S2P Require Export Mounts.
From S2P Require Export Reports.

(** ** Numbers *)

Lemma digits_S (fuel : nat) (base n : Z) : digits (S fuel) base n =
  (if (n <? base)%Z then [] else digits fuel base (n / base)) ++ [if (n mod base <? 10)%Z then 48 + n mod base else 87 + n mod base]%Z.
Proof. done. Qed.

Lemma parse_digits_app (l1 l2 : str) (v : Z) : parse_digits v (l1 ++ l2) = v1 ← parse_digits v l1; parse_digits v1 l2.
Proof.
  revert v. induction l1 as [|b l1 IH]; intros v; [done|]. cbn [parse_digits app]. destruct (is_ascii_digit b); [|done].
  destruct (checked_mul v 10) as [v1|]; [|done]. cbn [mbind option_bind]. destruct (checked_add v1 (b - 48)) as [v2|]; [|done]. apply IH.
Qed.

Lemma parse_digits_dec (fuel : nat) (n : Z) : (0 <= n < 10 ^ Z.of_nat fuel)%Z → (n <= USIZE_MAX)%Z → parse_digits 0 (digits fuel 10 n) = Some n.
Proof.
  revert n. induction fuel as [|fuel IH]; intros n Hn Hmax; [cbn in Hn; replace n with 0%Z by lia; done|].
  rewrite digits_S, parse_digits_app. rewrite Nat2Z.inj_succ, Z.pow_succ_r in Hn by lia.
  assert (Hd : (0 <= n mod 10 < 10)%Z) by (apply Z.mod_pos_bound; lia).
  assert (Hlead : parse_digits 0 (if (n <? 10)%Z then [] else digits fuel 10 (n / 10)) = Some (n / 10)%Z).
  { destruct (Z.ltb_spec n 10); [cbn; f_equal; divmod|]. apply IH; [|divmod]. split; [divmod|].
    apply Z.div_lt_upper_bound; lia. }
  rewrite Hlead. cbn [mbind option_bind parse_digits]. rewrite (proj2 (Z.ltb_lt _ _)) by lia.
  unfold is_ascii_digit. rewrite (proj2 (in_range_iff _ _ _)) by lia. unfold checked_mul, checked_add.
  rewrite (proj2 (Z.leb_le _ _)) by divmod. cbn [mbind option_bind]. rewrite (proj2 (Z.leb_le _ _)) by divmod. cbn. f_equal. divmod.
Qed.

(** A printed number is read back as the number. *)
Theorem dec_roundtrip (n : Z) : in_width 64 n → parse_digits 0 (dec n) = Some n.
Proof.
  intros [H0 H1]. apply parse_digits_dec; [|unfold USIZE_MAX; lia]. split; [done|]. etransitivity; [exact H1|]. by vm_compute.
Qed.

(** ** The snapshot of the tasks *)

Definition snap_of (l : list TaskInfo) : list (option TaskInfo) * nat := ((Some <$> l) ++ replicate (TASK_SNAPSHOT_CAP - length l) None, length l).

Lemma push_snap (l : list TaskInfo) (i : TaskInfo) : length l < TASK_SNAPSHOT_CAP →
  push_task_info (snap_of l).1 (snap_of l).2 i = snap_of (l ++ [i]).
Proof.
  intros Hl. unfold push_task_info, snap_of. cbn [fst snd]. rewrite length_app, length_fmap, length_replicate.
  rewrite (proj2 (Nat.ltb_lt _ _)) by lia. rewrite length_app. cbn [length]. f_equal; [|lia].
  rewrite fmap_app, <- app_assoc. replace (length l) with (length (Some <$> l) + 0) at 1 by (rewrite length_fmap; lia). rewrite insert_app_r. f_equal.
  replace (TASK_SNAPSHOT_CAP - length l) with (S (TASK_SNAPSHOT_CAP - (length l + 1))) by lia. done.
Qed.

Definition infos (h : heap) (l : list nat) : list TaskInfo := (λ t, task_info t false) <$> omap (λ x, h !! x) l.

Lemma push_infos_spec (h : heap) (l : list nat) : ∀ done, (∀ x, x ∈ l → is_Some (h !! x)) → length done + length l ≤ TASK_SNAPSHOT_CAP →
  push_infos h l (snap_of done) = Done (snap_of (done ++ infos h l)).
Proof.
  unfold push_infos. induction l as [|x l IH]; intros done Hl Hlen; [by rewrite app_nil_r|]. cbn [length] in Hlen.
  destruct (Hl x (list_elem_of_here _ _)) as [t Ht]. cbn [foldl mbind exec_bind].
  destruct (snap_of done) as [snap n] eqn:Hs. rewrite Ht. cbn [get_exec mbind exec_bind].
  pose proof (push_snap done (task_info t false)) as Hp. rewrite Hs in Hp. cbn [fst snd] in Hp. rewrite Hp by lia.
  rewrite IH; [|intros y Hy; by apply Hl, list_elem_of_further|rewrite length_app; cbn; lia].
  unfold infos. cbn [omap list_omap]. rewrite Ht. by rewrite <- app_assoc.
Qed.

Lemma length_infos (h : heap) (l : list nat) : length (infos h l) ≤ length l.
Proof. unfold infos. rewrite length_fmap. induction l as [|x l IH]; cbn; [done|]. destruct (h !! x); cbn; lia. Qed.

Lemma infos_app (h : heap) (l1 l2 : list nat) : infos h (l1 ++ l2) = infos h l1 ++ infos h l2.
Proof. unfold infos. by rewrite omap_app, fmap_app. Qed.

Lemma ready_infos_spec (h : heap) (cs : list CpuScheduler) (qss : list (list (list nat))) : ∀ done,
  Forall2 (λ c qs, rq_repr h (ready_queue c) qs) cs qss → length done + length (ready_of qss) ≤ TASK_SNAPSHOT_CAP →
  ready_infos h cs (snap_of done) = Done (snap_of (done ++ infos h (ready_of qss))).
Proof.
  intros done Hf. revert done. induction Hf as [|c qs cs qss Hr _ IH]; intros done Hlen; [by rewrite app_nil_r|].
  unfold ready_of in *. cbn [fmap list_fmap concat] in *. rewrite length_app in Hlen. cbn [ready_infos].
  rewrite (for_each_spec _ _ _ Hr). cbn [mbind exec_bind]. rewrite push_infos_spec; [| |lia].
  - cbn [mbind exec_bind]. rewrite IH; [by rewrite infos_app, app_assoc|]. rewrite length_app.
    pose proof (length_infos h (concat qs)). lia.
  - intros x (p&l&Hl&Hx)%elem_of_concat. destruct (rr_task _ _ _ Hr p l x Hl Hx) as (t&?&_). by eexists.
Qed.

Section kernel.
Context `{!SmpConfig} (idle : nat).

(** What the snapshot holds: the current task, then the ready ones, then the
    sleeping ones. *)
Definition listed (h : heap) (cur : nat) (ready sleeping : list nat) : list TaskInfo :=
  match h !! cur with Some t => [task_info t true] | None => [] end ++ infos h (ready ++ sleeping).

(** The tasks that are listed are those that run, are ready or sleep. *)
Definition lists_tasks (h : heap) (cur : nat) (ready sleeping : list nat) : Prop :=
  NoDup (cur :: ready ++ sleeping)
  ∧ (∀ x, x ∈ ready ↔ ∃ t, h !! x = Some t ∧ state t = Ready) ∧ (∀ x, x ∈ sleeping ↔ ∃ t, h !! x = Some t ∧ state t = Sleeping)
  ∧ ∀ x, x = cur ↔ ∃ t, h !! x = Some t ∧ state t = Running.

Lemma task_snapshot_k (k : kernel) : task_context idle [] k →
  ∃ k' cur ready sleeping, task_snapshot k = Done (snap_of (listed (tcbs k) cur ready sleeping), k') ∧ task_context idle [] k' ∧ tcbs k' = tcbs k ∧ clock k' = clock k
    ∧ CURRENT_TCB (mach k) = Some cur ∧ lists_tasks (tcbs k) cur ready sleeping ∧ length (listed (tcbs k) cur ready sleeping) ≤ TASK_SNAPSHOT_CAP.
Proof.
  intros [cur Hk]. pose proof Hk as (s&qss&sl&fl&Hkst&Hco&[t Ht]&Hrun). pose proof (co_wf _ _ _ _ _ _ Hco) as Hwf.
  assert (Hr : state t = Running) by (destruct (proj2 Hrun cur eq_refl) as (t'&Ht'&Hs); congruence).
  assert (Hlists : lists_tasks (tcbs k) cur (ready_of qss) sl).
  { split; [|split_and!].
    - apply NoDup_cons. split; [|apply (SchedInv.sw_nodup _ _ _ _ _ Hwf)]. eapply wf_unlisted; [done|exact Ht|by rewrite Hr|by rewrite Hr].
    - intros x. split; [intros Hx; destruct (wf_ready_state _ _ _ _ _ Hwf x Hx) as (tx&?&?&_); by exists tx|intros (tx&?&?); by eapply sw_ready].
    - intros x. split; [apply (sw_sleeping _ _ _ _ _ Hwf)|intros (tx&?&?); by eapply sw_slept].
    - intros x. split; [intros ->; by exists t|]. intros (tx&Htx&Hsx). pose proof (proj1 Hrun x tx Htx Hsx). congruence. }
  assert (Hlen : length (ready_of qss ++ sl) < TASK_SNAPSHOT_CAP).
  { assert (Hle : length (cur :: ready_of qss ++ sl) ≤ size (tcbs k)).
    { apply tasks_length; [apply Hlists|]. intros x [->|Hx]%elem_of_cons; [by eexists|]. destruct (wf_listed _ _ _ _ _ Hwf x Hx) as (tx&?&_). by eexists. }
    pose proof (SchedInv.sw_cap _ _ _ _ _ Hwf) as Hcap. change (S (length (ready_of qss ++ sl)) ≤ size (tcbs k)) in Hle. change TASK_SNAPSHOT_CAP with MAX_TASKS. lia. }
  destruct (kernel_locked k 0 true cur (Some cur) s Hkst (ltac:(by eexists))) as (M1&M2&M3&M4).
  set (m0 := disable_irq (disable_irq (mach k))) in *.
  assert (Hcur0 : CURRENT_TCB m0 = Some cur).
  { destruct (disable_irq_spec (mach k) (ks_ok _ _ _ _ _ _ Hkst)) as (D1&_&_&D4&_). destruct (disable_irq_spec _ D1) as (_&_&_&D5&_).
    unfold m0. rewrite D5, D4. apply Hkst. }
  destruct (with_sched_like idle (B := []) (B' := []) k 0 true cur (Some cur) (Some cur) s s qss qss sl sl fl
    (replicate TASK_SNAPSHOT_CAP None, 0) (snap_of (listed (tcbs k) cur (ready_of qss) sl))
    (λ h s m, '(cur, m) ← current_task_info h m;
      let acc := (replicate TASK_SNAPSHOT_CAP None, 0) in
      let acc := match cur with Some info => push_task_info acc.1 acc.2 info | None => acc end in
      acc ← ready_infos h (cpu_scheds s) acc; l ← walk TASK_CAP h (sleep_queue s); acc ← push_infos h l acc; Done (acc, h, s, m))
    (tcbs k) (sync_current m0)) as (k'&Heq&Hat&Htc&Hcl); try done.
  - unfold current_task_info. replace (CURRENT_TCB (sync_current m0)) with (Some cur).
    2:{ rewrite <- Hcur0. unfold sync_current, sync_current_task_shadow. by case_bool_decide. }
    rewrite Ht. cbn [get_exec mbind exec_bind].
    change (push_task_info (replicate TASK_SNAPSHOT_CAP None, 0).1 (replicate TASK_SNAPSHOT_CAP None, 0).2 (task_info t true))
      with (push_task_info (snap_of []).1 (snap_of []).2 (task_info t true)).
    rewrite push_snap by (unfold TASK_SNAPSHOT_CAP, TASK_CAP, OPENION_TASK_CAP; cbn; lia). rewrite length_app in Hlen.
    rewrite (ready_infos_spec _ _ qss).
    + cbn [mbind exec_bind]. rewrite (walk_chain (tcbs k) (sleep_queue s) sl TASK_CAP (sw_sleep _ _ _ _ _ Hwf)) by (unfold TASK_SNAPSHOT_CAP in *; lia).
      cbn [mbind exec_bind]. rewrite push_infos_spec.
      * cbn [mbind exec_bind]. unfold listed. rewrite Ht, infos_app. by rewrite <- app_assoc.
      * intros x Hx. destruct (sw_sleeping _ _ _ _ _ Hwf x Hx) as (tx&?&_). by eexists.
      * rewrite length_app. cbn [length app]. pose proof (length_infos (tcbs k) (ready_of qss)). lia.
    + apply Forall2_same_length_lookup. split; [by rewrite (SchedInv.sw_len _ _ _ _ _ Hwf), (sw_qlen _ _ _ _ _ Hwf)|].
      intros i c qs Hc Hq. by eapply sw_rq.
    + cbn [length app]. lia.
  - apply mach_like_sync.
  - apply Hco.
  - intros y Hy. by apply elem_of_nil in Hy.
  - exists k', cur, (ready_of qss), sl. split; [exact Heq|]. split; [by exists cur|]. split_and!; [done|done|apply Hkst|done|].
    unfold listed. rewrite Ht, length_app. pose proof (length_infos (tcbs k) (ready_of qss ++ sl)). cbn [length]. lia.
Qed.
End kernel.

Section kernel_stats.
Context `{!SmpConfig} (idle : nat).

(** The steal counters of all CPUs add up in 64 bits. *)
Definition steals_fit (k : kernel) : Prop := ∀ s, value (SCHEDULER k) = Some s →
  ∃ a b, sum_w64 (steal_attempts <$> cpu_scheds s) 0 = Done a ∧ sum_w64 (steal_successes <$> cpu_scheds s) 0 = Done b.

Lemma context_mach (k : kernel) : task_context idle [] k → task_context idle [] (with_mach k (sync_current (mach k))).
Proof.
  intros [cur Hk]. pose proof Hk as (s&qss&sl&fl&[K1 K2 K3 K4 K5 K6]&_). exists cur.
  destruct (sync_current_nest (mach k) K1) as (S1&S2&S3&S4&S5). eapply (kernel_at_mach idle); try done; try congruence.
  by destruct Hk as (?&?&?&?&_&_&?&_).
Qed.

Lemma stats_k (k : kernel) : task_context idle [] k → steals_fit k →
  ∃ st k' cur t, Sched.stats k = Done (st, k') ∧ task_context idle [] k' ∧ tcbs k' = tcbs k ∧ clock k' = clock k
    ∧ CURRENT_TCB (mach k) = Some cur ∧ tcbs k !! cur = Some t ∧ ss_current_task st = Some (task_info t true).
Proof.
  intros [cur Hk] Hfit. pose proof Hk as (s&qss&sl&fl&Hkst&Hco&[t Ht]&Hrun). pose proof (co_wf _ _ _ _ _ _ Hco) as Hwf.
  destruct (Hfit s (ltac:(by rewrite (ks_sched _ _ _ _ _ _ Hkst)))) as (a&b&Ha&Hb).
  destruct (disable_irq_spec (mach k) (ks_ok _ _ _ _ _ _ Hkst)) as (D1&_&_&D4&_).
  assert (Hcpu : current_scheduler_cpu_id < max_cpus).
  { unfold current_scheduler_cpu_id. pose proof max_cpus_pos. destruct (is_cpu_active _); [apply Nat.mod_upper_bound; lia|done]. }
  destruct (wf_lookup _ _ _ _ _ Hwf _ Hcpu) as (c&qs&Hc&_).
  assert (Hst : ∃ st k2, Sched.stats k = Done (st, k2) ∧ kst k2 0 true (Some cur) (Some cur) s ∧ TCB_POOL k2 = with_heap (TCB_POOL k) (tcbs k)
    ∧ ss_current_task st = Some (task_info t true)).
  { set (st := mk_sched_stats (len (ready_queue c)) (if ReadyQueue.is_empty (ready_queue c) then 0 else peek_highest_priority (ready_queue c))
      (Some (task_info t true)) (context_switches c) (preemptions c) (preempt_pending c) current_scheduler_cpu_id active_cpu_mask a b).
    exists st. unfold Sched.stats.
    match goal with |- context [locked_section k ?f] =>
      destruct (section_spec k 0 true (Some cur) (Some cur) s s st f (tcbs k) (sync_current (disable_irq (mach k))) Hkst) as (k2&Heq&Hk2&Hp) end;
      [|apply mach_like_sync|exists k2; split; [exact Heq|done]].
    rewrite Hc, Ha, Hb. cbn [get_exec mbind exec_bind]. unfold current_task_info.
    replace (CURRENT_TCB (sync_current (disable_irq (mach k)))) with (Some cur).
    2:{ destruct (sync_current_nest _ D1) as (_&_&_&->&_). by rewrite D4, (ks_cur _ _ _ _ _ _ Hkst). }
    rewrite Ht. reflexivity. }
  destruct Hst as (st&k2&Heq&Hkst2&Hp2&Hcur). exists st, k2, cur, t.
  assert (Htc : tcbs k2 = tcbs k) by (unfold tcbs; by rewrite Hp2).
  split_and!; try done; [|by eapply locked_section_clock|apply Hkst]. exists cur, s, qss, sl, fl. rewrite Htc. split_and!; [done| |by eexists|done].
  eapply core_step; try done; [apply Hco|]. intros y Hy. by apply elem_of_nil in Hy.
Qed.
End kernel_stats.

(** ** The list of processors *)

(** The number of a node that is an available processor with a register. *)
Definition cpu_number (n : Fdt.FdtNode) : option Z :=
  if Fdt.is_available n && bool_decide (Fdt.device_type n = Some (bytes "cpu")) then
    match Fdt.first_reg n with Done (Some r) => Some (Fdt.base r) | _ => None end
  else None.

Definition cpu_acc (l : list Z) : list Z * nat := (take 8 l ++ replicate (8 - length l) 0%Z, length l `min` 8).

Lemma cpu_callback_spec (l : list Z) (n : Fdt.FdtNode) : cpu_callback (cpu_acc l) n = Done (cpu_acc (l ++ match cpu_number n with Some c => [c] | None => [] end)).
Proof.
  unfold cpu_callback, cpu_acc, cpu_number. assert (Hlen : length (take 8 l ++ replicate (8 - length l) 0%Z) = 8) by (rewrite length_app, length_take, length_replicate; lia).
  rewrite Hlen. destruct (first_reg_total n) as [r Hr]. destruct (Nat.leb_spec 8 (length l `min` 8)) as [Hfull|Hroom]; cbn [orb].
  { do 2 f_equal; [|rewrite length_app; lia]. rewrite take_app_le by lia. rewrite length_app. by replace (8 - (length l + _)) with (8 - length l) by lia. }
  destruct (Fdt.is_available n); cbn [negb andb]; [|by rewrite app_nil_r].
  destruct (decide (Fdt.device_type n = Some (bytes "cpu"))) as [He|He]; [|by rewrite bool_decide_true, bool_decide_false, app_nil_r].
  rewrite bool_decide_false by (intros Hn; done). rewrite bool_decide_true by done. rewrite Hr. cbn [mbind exec_bind]. destruct r as [r|]; [|by rewrite app_nil_r].
  rewrite put_exec_Done by (rewrite Hlen; lia). cbn [mbind exec_bind]. do 2 f_equal; [|rewrite length_app; cbn [length]; lia].
  rewrite (take_ge l), (take_ge (l ++ _)) by (rewrite ?length_app; cbn [length]; lia). rewrite length_app. cbn [length].
  replace (length l `min` 8) with (length l + 0) by lia. rewrite insert_app_r. rewrite <- app_assoc. f_equal.
  replace (8 - length l) with (S (8 - (length l + 1))) by lia. done.
Qed.

Lemma cpu_fold (ns : list Fdt.FdtNode) : ∀ l, exec_fold cpu_callback (cpu_acc l) ns = Done (cpu_acc (l ++ omap cpu_number ns)).
Proof.
  induction ns as [|n ns IH]; intros l; cbn [exec_fold omap list_omap]; [by rewrite app_nil_r|]. rewrite cpu_callback_spec. cbn [mbind exec_bind].
  rewrite IH, <- app_assoc. by destruct (cpu_number n).
Qed.

Lemma take_cpu_acc (l : list Z) : take (cpu_acc l).2 (cpu_acc l).1 = take 8 l.
Proof.
  unfold cpu_acc. cbn [fst snd]. rewrite take_app_le by (rewrite length_take; lia). rewrite take_take.
  destruct (decide (length l ≤ 8)); [rewrite !take_ge; [done|lia|lia]|f_equal; lia].
Qed.

(** ** Properties *)

Lemma app_five {A} (a b c d e : list A) : a ++ b ++ c ++ d ++ e = (a ++ b ++ c ++ d) ++ e.
Proof. by rewrite <- !app_assoc. Qed.

Section properties.
Context {D W F H : Type} `{!EqDecision D} `{!EqDecision F} `{!AnyDriver D W} `{!DriverFactory D W F} `{!DriverView D W} `{!SmpConfig}.
Context (hypervisor async_rt : bool) (tcb_base tcb_step current_task_slot next_task_slot : Z) (VERSION : str).
Abbreviation Sys := (System (D := D) (W := W) (F := F) (H := H) (Fut := TaskFuture)) (only parsing).

Lemma task_lines_all (f : TaskInfo → str) (l : list TaskInfo) : length l ≤ TASK_SNAPSHOT_CAP → task_lines f (snap_of l).1 (snap_of l).2 = concat (f <$> l).
Proof.
  intros Hl. unfold task_lines, snap_of. cbn [fst snd]. rewrite length_app, length_fmap, length_replicate.
  replace (length l `min` (length l + (TASK_SNAPSHOT_CAP - length l))) with (length l) by lia. rewrite Nat.ltb_irrefl, app_nil_r.
  rewrite take_app_le by (rewrite length_fmap; lia). rewrite take_ge by (rewrite length_fmap; lia). do 2 f_equal.
  induction l as [|i l IH]; [done|]. cbn in *. f_equal. apply IH. lia.
Qed.

Lemma tasks_spec (s : Sys) : task_context 0 [] (s_kernel s) → steals_fit (s_kernel s) →
  ∃ header cur t ready sleeping k', let h := tcbs (s_kernel s) in
    cmd_tasks s = Done (header ++ task_line (task_info t true) ++ concat (task_line <$> infos h (ready ++ sleeping)), set_kernel s k')
    ∧ CURRENT_TCB (mach (s_kernel s)) = Some cur ∧ h !! cur = Some t
    ∧ lists_tasks h cur ready sleeping ∧ tcbs k' = h ∧ task_context 0 [] k'.
Proof.
  intros Hk Hfit. destruct (stats_k 0 (s_kernel s) Hk Hfit) as (st&k1&cur&t&Hst&Hk1&Ht1&_&Hcur&Ht&Hinfo).
  destruct (task_snapshot_k 0 k1 Hk1) as (k2&cur2&ready&sleeping&Hsn&Hk2&Ht2&_&Hcur2&Hlist&Hlen). rewrite Ht1 in *.
  assert (cur2 = cur) as ->.
  { destruct Hlist as (_&_&_&Hr). destruct Hk as (c&?&?&?&?&[]&_&_&[_ Hrun]). assert (c = cur) as -> by congruence.
    symmetry. apply Hr. apply (Hrun cur eq_refl). }
  unfold cmd_tasks. rewrite Hst. cbn [mbind exec_bind]. rewrite Hsn. cbn [mbind exec_bind].
  pose proof (task_lines_all task_line _ Hlen) as Hlines. destruct (snap_of (listed _ _ _ _)) as [snap n]. cbn [fst snd] in Hlines.
  cbn [mbind exec_bind]. rewrite Hlines. unfold listed. rewrite Ht. rewrite fmap_app, concat_app. cbn [fmap list_fmap concat]. rewrite app_nil_r.
  rewrite app_five. do 6 eexists. split; [reflexivity|]. rewrite Ht2. split_and!; try done; apply Hlist.
Qed.

(** The command [tasks] on a running kernel prints one line for the
    current task, marked with a star, then one for each ready and one for each
    sleeping task, all of them, and never cuts the list; it changes nothing.
    Blocked and terminated tasks are not listed. *)
Theorem tasks_lists_runnable (s : Sys) : task_context 0 [] (s_kernel s) → steals_fit (s_kernel s) →
  ∃ header cur t ready sleeping k', let h := tcbs (s_kernel s) in
    cmd_tasks s = Done (header ++ task_line (task_info t true) ++ concat (task_line <$> infos h (ready ++ sleeping)), set_kernel s k')
    ∧ CURRENT_TCB (mach (s_kernel s)) = Some cur ∧ h !! cur = Some t
    ∧ lists_tasks h cur ready sleeping ∧ tcbs k' = h ∧ task_context 0 [] k'.
Proof. apply tasks_spec. Qed.

(** The processors printed are the first eight available ones of the tree. *)
Theorem cpu_list_of_tree (s : Sys) (addr : Z) (mem : list Z) (total struct strings : Z) (off : str → Z) (t : dtree) :
  s_dtb s = Some (addr, mem) → blob mem total struct strings off t →
  ∃ ns, nodes_of t = Done ns ∧ let cpus := take 8 (omap cpu_number ns) in
    print_dtb_cpus s = Done (if decide (cpus = []) then (bytes "  cpu list         : " ++ line [bytes "none"], 1)
      else (bytes "  cpu list         : " ++ comma_list cpus ++ line [bytes " ("; dec_nat (length cpus); bytes ")"], length cpus)).
Proof.
  intros Hd Hb. destruct (visit_nodes_of t) as (ns&Hns&Hv). exists ns. split; [done|]. intros cpus.
  unfold print_dtb_cpus. rewrite Hd. rewrite (walk_blob _ _ _ _ _ _ _ _ Hb), Hv.
  change (replicate 8 0%Z, 0) with (cpu_acc []). rewrite cpu_fold. cbn [app mbind exec_bind].
  pose proof (take_cpu_acc (omap cpu_number ns)) as Htake. fold cpus in Htake.
  assert (Hn : (cpu_acc (omap cpu_number ns)).2 = length cpus) by (unfold cpu_acc, cpus; cbn [snd]; rewrite length_take; lia).
  destruct (cpu_acc (omap cpu_number ns)) as [l n]. cbn [fst snd] in *. subst n. rewrite Htake.
  destruct cpus; [by rewrite decide_True|]. by rewrite decide_False.
Qed.

(** What the reports rely on: the counts of the frames, the end of the memory,
    and a device tree that is a tree. *)
Record reportable (s : Sys) : Prop := {
  rp_kernel : task_context 0 [] (s_kernel s);
  rp_steals : steals_fit (s_kernel s);
  rp_frames : (fs_free_pages (FrameAlloc.stats (s_frames s)) <= 2 ^ 51)%Z ∧ total_pages (s_frames s) ≤ MAX_PAGES;
  rp_memory : (c_memory_base (s_config s) + c_memory_size (s_config s) < 2 ^ 64)%Z;
  rp_tree : s_dtb s = None ∨ ∃ addr mem total struct strings off t, s_dtb s = Some (addr, mem) ∧ blob mem total struct strings off t;
}.

Lemma kib_Done (n : Z) : (n <= 2 ^ 51)%Z → kib n = Done (n * PAGE_SIZE / 1024)%Z.
Proof. intros Hn. unfold kib. rewrite (proj2 (Z.ltb_lt _ _)); [done|]. unfold PAGE_SIZE. lia. Qed.

Lemma mem_total (s : Sys) : reportable s → ∃ t, cmd_mem s = Done t.
Proof. intros Hs. unfold cmd_mem. rewrite kib_Done by apply Hs. by eexists. Qed.

Lemma identity_total (s : Sys) : reportable s → ∃ i, collect_cpu_identity s = Done i.
Proof.
  intros Hs. unfold collect_cpu_identity. destruct (rp_tree _ Hs) as [->|(addr&mem&total&struct&strings&off&t&->&Hb)]; [by eexists|].
  rewrite (walk_blob _ _ _ _ _ _ _ _ Hb). destruct (visit_nodes_of t) as (ns&_&->). generalize (mk_cpu_identity None None None).
  induction ns as [|n ns IH]; intros i; cbn [exec_fold]; [by eexists|].
  assert (Hi : ∃ i', identity_callback i n = Done i') by (unfold identity_callback; repeat case_match; by eexists).
  destruct Hi as [i' ->]. apply IH.
Qed.

Lemma cpu_list_total (s : Sys) : reportable s → ∃ r, print_dtb_cpus s = Done r.
Proof.
  intros Hs. destruct (rp_tree _ Hs) as [Hd|(addr&mem&total&struct&strings&off&t&Hd&Hb)].
  - unfold print_dtb_cpus. rewrite Hd. by eexists.
  - unfold print_dtb_cpus. rewrite Hd, (walk_blob _ _ _ _ _ _ _ _ Hb). destruct (visit_nodes_of t) as (ns&_&->).
    change (replicate 8 0%Z, 0) with (cpu_acc []). rewrite cpu_fold. by destruct (cpu_acc _); eexists.
Qed.

Lemma cpuinfo_total (s : Sys) : reportable s → ∃ t, cmd_cpuinfo s = Done t.
Proof.
  intros Hs. unfold cmd_cpuinfo. destruct (identity_total s Hs) as [i ->]. destruct (cpu_list_total s Hs) as [[l n] ->]. cbn [mbind exec_bind].
  rewrite add_w_Done by apply Hs. by eexists.
Qed.

Lemma top_total (s : Sys) : reportable s →
  ∃ t k, cmd_top tcb_base tcb_step current_task_slot next_task_slot s = Done (t, set_kernel s k) ∧ task_context 0 [] k ∧ tcbs k = tcbs (s_kernel s).
Proof.
  intros Hs. destruct (stats_k 0 _ (rp_kernel _ Hs) (rp_steals _ Hs)) as (st&k1&cur&t&Hst&Hk1&Ht1&_).
  unfold cmd_top. rewrite Hst. cbn [mbind exec_bind]. unfold context_switch_abi_snapshot.
  destruct (rp_frames _ Hs) as [Hf Htp]. cbv zeta. rewrite (kib_Done (fs_free_pages (FrameAlloc.stats (s_frames s))) Hf). cbn [mbind exec_bind].
  assert (Z.of_nat (fs_total_pages (FrameAlloc.stats (s_frames s))) <= 2 ^ 51)%Z as Htot.
  { cbn [fs_total_pages FrameAlloc.stats]. assert (Z.of_nat MAX_PAGES = 32768%Z) by reflexivity. lia. }
  rewrite (kib_Done _ Htot). cbn [mbind exec_bind].
  destruct (task_snapshot_k 0 _ (context_mach 0 k1 Hk1)) as (k2&cur2&ready&sleeping&Hsn&Hk2&Ht2&_). rewrite Hsn.
  destruct (snap_of _) as [snap n]. cbn [mbind exec_bind]. do 2 eexists. split; [done|]. split; [done|]. rewrite Ht2. exact Ht1.
Qed.

Definition REPORT_COMMANDS : list string :=
  ["help"; "version"; "ver"; "uptime"; "mem"; "cpuinfo"; "smp"; "tasks"; "ps"; "top"; "drivers"; "term"; "gpio"; "irq"; "vm status"]%string.

(** Every report returns, and leaves the tasks and everything else as it was. *)
Theorem reports_total (s : Sys) (cmd : string) : reportable s → cmd ∈ REPORT_COMMANDS →
  ∃ t k, report_bytes hypervisor async_rt tcb_base tcb_step current_task_slot next_task_slot VERSION s (bytes cmd) = Done (t, set_kernel s k)
    ∧ task_context 0 [] k ∧ tcbs k = tcbs (s_kernel s).
Proof.
  intros Hs Hcmd. assert (Hself : set_kernel s (s_kernel s) = s) by (by destruct s).
  assert (Hr : ∃ t k, report_text hypervisor async_rt tcb_base tcb_step current_task_slot next_task_slot VERSION s (bytes cmd) = Done (t, set_kernel s k)
    ∧ task_context 0 [] k ∧ tcbs k = tcbs (s_kernel s)).
  { assert (Hkeep : ∀ t, ∃ t' k, Done (t, s) = Done (t' : str, set_kernel s k) ∧ task_context 0 [] k ∧ tcbs k = tcbs (s_kernel s))
      by (intros t; exists t, (s_kernel s); rewrite Hself; split_and!; [done|apply Hs|done]).
    assert (Htasks : ∃ t' k, cmd_tasks s = Done (t' : str, set_kernel s k) ∧ task_context 0 [] k ∧ tcbs k = tcbs (s_kernel s)).
    { destruct (tasks_spec s (rp_kernel _ Hs) (rp_steals _ Hs)) as (h&?&?&?&?&k&->&_&_&_&Ht&Hk). by exists (h ++ task_line (task_info x0 true) ++ concat (task_line <$> infos (tcbs (s_kernel s)) (x1 ++ x2))), k. }
    unfold REPORT_COMMANDS in Hcmd. rewrite !elem_of_cons, elem_of_nil in Hcmd.
    destruct Hcmd as [->|[->|[->|[->|[->|[->|[->|[->|[->|[->|[->|[->|[->|[->|[->|[]]]]]]]]]]]]]]]]; try exact (Hkeep _); try exact Htasks.
    - destruct (mem_total s Hs) as [t Ht]. change (∃ t' k, (t ← cmd_mem s; Done (t, s)) = Done (t' : str, set_kernel s k) ∧ task_context 0 [] k ∧ tcbs k = tcbs (s_kernel s)).
      rewrite Ht. apply Hkeep.
    - destruct (cpuinfo_total s Hs) as [t Ht]. change (∃ t' k, (t ← cmd_cpuinfo s; Done (t, s)) = Done (t' : str, set_kernel s k) ∧ task_context 0 [] k ∧ tcbs k = tcbs (s_kernel s)).
      rewrite Ht. apply Hkeep.
    - exact (top_total s Hs). }
  destruct Hr as (t&k&Heq&Hk). unfold report_bytes. rewrite Heq. by exists (Text.write_str t), k.
Qed.
End properties.

(** ** A concrete system *)

Section demo.
#[local] Instance unit_driver : AnyDriver unit unit := {
  drv_name _ := []; drv_resource _ := mk_resource 0 0 0; as_device _ _ := false; drv_handle_irq _ _ w := (false, w); auto_init _ w := (inr (), w);
}.
#[local] Instance unit_factory : DriverFactory unit unit unit := { fac_compatible _ := []; probe_fdt _ _ _ w := (None, w) }.
#[local] Existing Instance Critical.single_cpu.

Definition demo_kernel : kernel := match demo_boot with Done k => k | Stuck => kernel_boot end.
Definition demo_report_system : System (D := unit) (W := unit) (F := unit) (H := unit) (Fut := TaskFuture) :=
  mk_system demo_kernel (start_async_tasks executor_new) counters_boot registry_boot irqs_boot tt (mk_heap_stats true 4096 65536 0 0 0) FrameAlloc.new true
    (mk_config 10000000 1000 64 0x80000000 0x8000000 0x80200000) None None (Some 0%Z) Hv.hv_boot.

Lemma tasks_lists_runnable_witness : ∃ text k', cmd_tasks demo_report_system = Done (text, set_kernel demo_report_system k') ∧ task_context 0 [] k'.
Proof.
  assert (Hone : max_cpus = 1) by reflexivity.
  assert (Hi : stack_ok 65536 512) by (unfold stack_ok, REG_BYTES; lia).
  assert (Hr : stack_ok 131072 2048) by (unfold stack_ok, REG_BYTES; lia).
  destruct (boot_k 0 Hone 4096 128 11 65536 512 22 131072 2048 eq_refl Hi Hr) as (k0&E0&C0).
  assert (Hk : s_kernel demo_report_system = k0) by (change (demo_kernel = k0); unfold demo_kernel, demo_boot; by rewrite E0).
  assert (Hfit : steals_fit (s_kernel demo_report_system)).
  { intros s Hs. exists 0%Z, 0%Z. change (value (SCHEDULER demo_kernel) = Some s) in Hs. vm_compute in Hs. injection Hs as <-. split; reflexivity. }
  rewrite <- Hk in C0. destruct (tasks_lists_runnable demo_report_system C0 Hfit) as (h&cur&t&ready&sleeping&k'&Heq&_&_&_&_&Hk').
  eexists _, k'. split; [exact Heq|exact Hk'].
Defined.
End demo.
