(* ===== verification/Lan9118.v ===== *)
(** * The Ethernet controller, [drivers/lan9118/src/]

    The driver moves frames as words through two FIFOs of the controller and
    reaches the registers of its MAC through a command register.  The loops
    that wait for the controller take the bound [spin]; what the controller
    does is the record [lan_laws]. *)

From S2P Require Export Prelude.
From S2P Require Export Str.
From S2P Require Export Drivers.
From S2P Require Export Virtio.
From S2P Require Export Uart.
From S2P Require Export UartProps.

(** ** Registers, [register.rs] *)

Definition rx_data_fifo : Z := 0x00.
Definition tx_data_fifo : Z := 0x20.
Definition rx_status_fifo : Z := 0x40.
Definition id_rev : Z := 0x50.
Definition byte_test : Z := 0x64.
Definition rx_cfg : Z := 0x6c.
Definition tx_cfg : Z := 0x70.
Definition hw_cfg : Z := 0x74.
Definition rx_fifo_inf : Z := 0x7c.
Definition tx_fifo_inf : Z := 0x80.
Definition mac_csr_cmd : Z := 0xa4.
Definition mac_csr_data : Z := 0xa8.

Record Lan9118 : Type := mk_lan { lan_base : Z; lan_irq : Z }.

(** The words of a frame, the last one filled up with zeros. *)
Fixpoint le_words (buf : list Z) : list Z :=
  match buf with
  | a :: b :: c :: d :: rest => le_bytes [a; b; c; d] :: le_words rest
  | [] => []
  | rem => [le_bytes (rem ++ replicate (4 - length rem) 0%Z)]
  end.

Section driver.
Context {W : Type} `{!Bus W} (spin : nat) (u : Lan9118).

Definition reg_read (off : Z) (x : W) : Z * W := bus_read 4 (lan_base u + off) x.
Definition reg_write (off v : Z) (x : W) : W := bus_write 4 (lan_base u + off) v x.

(** [while busy(reg.read()) {}]. *)
Fixpoint wait_while (fuel : nat) (off : Z) (busy : Z → bool) (x : W) : exec W :=
  match fuel with
  | O => Stuck
  | S fuel => let '(v, x) := reg_read off x in if busy v then wait_while fuel off busy x else Done x
  end.

Definition mac_busy (v : Z) : bool := negb (Z.land v (Z.shiftl 1 31) =? 0)%Z.
Definition mac_csr_wait (x : W) : exec W := wait_while spin mac_csr_cmd mac_busy x.

Definition mac_write (reg val : Z) (x : W) : exec W :=
  x ← mac_csr_wait x;
  let x := reg_write mac_csr_data val x in
  let x := reg_write mac_csr_cmd (Z.lor (Z.shiftl 1 31) reg) x in
  mac_csr_wait x.

Definition mac_read (reg : Z) (x : W) : exec (Z * W) :=
  x ← mac_csr_wait x;
  let x := reg_write mac_csr_cmd (Z.lor (Z.lor (Z.shiftl 1 31) (Z.shiftl 1 30)) reg) x in
  x ← mac_csr_wait x;
  Done (reg_read mac_csr_data x).

Definition lan_init (x : W) : exec ((DriverErr + unit) * W) :=
  let '(id, x) := reg_read id_rev x in
  if negb (Z.shiftr id 16 =? 0x0118)%Z then Done (inl InitFailed, x) else
  let x := reg_write hw_cfg 0x00000001 x in
  x ← wait_while spin hw_cfg (λ v, negb (Z.land v 0x00000001 =? 0)%Z) x;
  let x := reg_write hw_cfg 0x00050000 x in
  x ← wait_while spin byte_test (λ v, negb (v =? 0x87654321)%Z) x;
  x ← wait_while spin hw_cfg (λ v, negb (Z.land v (Z.shiftl 1 27) =? 0)%Z) x;
  '(mac_cr, x) ← mac_read 1 x;
  x ← mac_write 1 (Z.lor (Z.lor mac_cr (Z.shiftl 1 3)) (Z.shiftl 1 2)) x;
  let x := reg_write tx_cfg (Z.shiftl 1 1) x in
  let x := reg_write rx_cfg 0 x in
  Done (inr (), x).

Definition mac_address (x : W) : exec (list Z * W) :=
  '(high, x) ← mac_read 2 x;
  '(low, x) ← mac_read 3 x;
  Done ([Z.land low 0xff; Z.land (Z.shiftr low 8) 0xff; Z.land (Z.shiftr low 16) 0xff; Z.land (Z.shiftr low 24) 0xff;
         Z.land high 0xff; Z.land (Z.shiftr high 8) 0xff], x).

Definition rx_used (rx_inf : Z) : Z := Z.land (Z.shiftr rx_inf 16) 0xff.

Definition has_rx_data (x : W) : bool * W := let '(rx_inf, x) := reg_read rx_fifo_inf x in ((0 <? rx_used rx_inf)%Z, x).

(** The loop over the chunks, and the remainder. *)
Definition write_words (ws : list Z) (x : W) : W := foldl (λ x v, reg_write tx_data_fifo v x) x ws.

Definition transmit (buf : list Z) (x : W) : exec ((DriverErr + unit) * W) :=
  let len := Z.of_nat (length buf) in
  let words := ((len + 3) / 4)%Z in
  required_space ← mul_w 32 (wrap 32 (words + 2)) 4;
  x ← wait_while spin tx_fifo_inf (λ v, (Z.land v 0xffff <? required_space)%Z) x;
  let cmd_a := Z.lor (Z.lor (Z.shiftl 1 13) (Z.shiftl 1 12)) (Z.land (wrap 32 len) 0x7ff) in
  let cmd_b := Z.land (wrap 32 len) 0x7ff in
  let x := reg_write tx_data_fifo cmd_a x in
  let x := reg_write tx_data_fifo cmd_b x in
  Done (inr (), write_words (le_words buf) x).

(** The bytes of a word go to the buffer from [read_len] on, as far as the
    packet and the buffer reach. *)
Fixpoint put_bytes (pkt_len : nat) (bs : list Z) (buf : list Z) (read_len : nat) : list Z * nat :=
  match bs with
  | [] => (buf, read_len)
  | b :: bs => put_bytes pkt_len bs (if (read_len <? pkt_len) && (read_len <? length buf) then <[read_len := b]> buf else buf) (S read_len)
  end.

Fixpoint read_words (words : nat) (error : bool) (pkt_len : nat) (buf : list Z) (read_len : nat) (x : W) : list Z * W :=
  match words with
  | O => (buf, x)
  | S words =>
      let '(val, x) := reg_read rx_data_fifo x in
      if error then read_words words error pkt_len buf read_len x else
      let '(buf, read_len) := put_bytes pkt_len (to_le 4 val) buf read_len in
      read_words words error pkt_len buf read_len x
  end.

(** The result, the buffer and the device. *)
Definition receive (buf : list Z) (x : W) : (DriverErr + nat) * list Z * W :=
  let '(rx_inf, x) := reg_read rx_fifo_inf x in
  if (rx_used rx_inf =? 0)%Z then (inr 0, buf, x) else
  let '(status, x) := reg_read rx_status_fifo x in
  let pkt_len := Z.land (Z.shiftr status 16) 0x3fff in
  let error := negb (Z.land status (Z.shiftl 1 15) =? 0)%Z in
  let pad_len := Z.land (pkt_len + 3) (lnot_w 64 3) in
  let words := (pad_len / 4)%Z in
  let '(buf, x) := read_words (Z.to_nat words) error (Z.to_nat pkt_len) buf 0 x in
  if error then (inl HardwareFault, buf, x) else
  (inr (Nat.min (Z.to_nat pkt_len) (length buf)), buf, x).
End driver.

(** [handle_irq]: the controller is polled. *)
Definition lan_handle_irq (irq_id : Z) : bool := false.

(** The factory: [compatible] and [probe] over the pool [ETH_POOL]. *)
Definition MAX_LAN9118 : nat := 2.
Definition lan_compatible : list str := [bytes "smsc,lan9118"].
Definition lan_probe (pool : StaticDriverPool Lan9118) (resource : DeviceResource) : exec (option Lan9118 * StaticDriverPool Lan9118) :=
  let u := mk_lan (r_base_addr resource) (r_irq resource) in
  '(slot, pool) ← pool_alloc pool u;
  Done (match slot with Some _ => Some u | None => None end, pool).

(** ** What the controller does

    A frame that has arrived: whether it is damaged, its length and the words
    that carry it. *)

Record RxFrame : Type := mk_frame { f_error : bool; f_len : nat; f_words : list Z }.
Definition f_bytes (f : RxFrame) : list Z := take (f_len f) (concat (to_le 4 <$> f_words f)).
Record frame_ok (f : RxFrame) : Prop := {
  fo_len : (Z.of_nat (f_len f) < 2 ^ 14)%Z;
  fo_words : length (f_words f) = (f_len f + 3) / 4;
}.

(** The registers of the MAC and the one for their data; whether no command is
    under way; the configuration registers; the words sent; the words of the
    frame being read; the frames that wait and those still to come; and how
    many more times a register that is polled may say no. *)
Record LanView (W : Type) : Type := mk_lan_view {
  lv_id : Z;
  lv_mac : W → Z → Z;
  lv_csr : W → Z;
  lv_idle : W → Prop;
  lv_cfg : W → Z → Z;
  lv_sent : W → list Z;
  lv_words : W → list Z;
  lv_frames : W → list RxFrame;
  lv_line : W → list RxFrame;
  lv_left : W → Z → nat;
}.
Arguments mk_lan_view {W}. Arguments lv_id {W}. Arguments lv_mac {W}. Arguments lv_csr {W}. Arguments lv_idle {W}. Arguments lv_cfg {W}.
Arguments lv_sent {W}. Arguments lv_words {W}. Arguments lv_frames {W}. Arguments lv_line {W}. Arguments lv_left {W}.

(** The room in the transmit FIFO when it is empty, with 5 KiB given to it. *)
Definition TX_ROOM : Z := 4608.

(** What a polled register says when the controller is ready. *)
Definition ready (off v : Z) : bool :=
  if (off =? mac_csr_cmd)%Z then negb (Z.testbit v 31)
  else if (off =? hw_cfg)%Z then negb (Z.testbit v 0) && negb (Z.testbit v 27)
  else if (off =? byte_test)%Z then (v =? 0x87654321)%Z
  else (TX_ROOM <=? Z.land v 0xffff)%Z.
Definition polled : list Z := [mac_csr_cmd; hw_cfg; byte_test; tx_fifo_inf].

(** Solves membership in [polled]. *)
Ltac polled_reg := unfold polled; repeat first [apply list_elem_of_here | apply list_elem_of_further].

Section laws.
Context {W : Type} `{!Bus W} (V : LanView W).

(** Frames may have arrived. *)
Definition arrives (x x' : W) : Prop := ∃ new, lv_frames V x' = lv_frames V x ++ new ∧ lv_line V x = new ++ lv_line V x'.

Record mac_kept (x x' : W) : Prop := {
  mk_mac : ∀ r, lv_mac V x' r = lv_mac V x r;
  mk_csr : lv_csr V x' = lv_csr V x;
  mk_idle : lv_idle V x → lv_idle V x';
}.

Record data_kept (x x' : W) : Prop := {
  dk_cfg : ∀ off, lv_cfg V x' off = lv_cfg V x off;
  dk_sent : lv_sent V x' = lv_sent V x;
  dk_words : lv_words V x' = lv_words V x;
  dk_arrives : arrives x x';
}.

Record lan_laws (spin : nat) (u : Lan9118) : Prop := {
  (** A polled register is ready in less than [spin] steps. *)
  ll_left : ∀ x off, lv_left V x off < spin;
  ll_poll : ∀ off x, off ∈ polled → let '(v, x') := reg_read u off x in
    data_kept x x' ∧ mac_kept x x' ∧ (ready off v = true ∨ lv_left V x' off < lv_left V x off);
  (** The MAC carries out one command at a time. *)
  ll_cmd : ∀ x, let '(v, x') := reg_read u mac_csr_cmd x in Z.testbit v 31 = false → lv_idle V x';
  ll_mac_write : ∀ r x, lv_idle V x → (0 <= r < 256)%Z → let x' := reg_write u mac_csr_cmd (Z.lor (Z.shiftl 1 31) r) x in
    data_kept x x' ∧ (∀ k, lv_mac V x' k = if (k =? r)%Z then lv_csr V x else lv_mac V x k);
  ll_mac_read : ∀ r x, lv_idle V x → (0 <= r < 256)%Z → let x' := reg_write u mac_csr_cmd (Z.lor (Z.lor (Z.shiftl 1 31) (Z.shiftl 1 30)) r) x in
    data_kept x x' ∧ lv_csr V x' = lv_mac V x r ∧ (∀ k, lv_mac V x' k = lv_mac V x k);
  ll_csr_write : ∀ v x, lv_idle V x → let x' := reg_write u mac_csr_data v x in
    data_kept x x' ∧ lv_csr V x' = v ∧ lv_idle V x' ∧ (∀ k, lv_mac V x' k = lv_mac V x k);
  ll_csr_read : ∀ x, lv_idle V x → let '(v, x') := reg_read u mac_csr_data x in v = lv_csr V x ∧ data_kept x x' ∧ mac_kept x x';
  (** Identification and configuration; a reset empties the FIFOs. *)
  ll_id : ∀ x, let '(v, x') := reg_read u id_rev x in v = lv_id V ∧ data_kept x x' ∧ mac_kept x x';
  ll_reset : ∀ x, let x' := reg_write u hw_cfg 1 x in lv_words V x' = [] ∧ lv_sent V x' = lv_sent V x;
  ll_cfg : ∀ off v x, (off = hw_cfg ∧ Z.testbit v 0 = false) ∨ off = tx_cfg ∨ off = rx_cfg → let x' := reg_write u off v x in
    mac_kept x x' ∧ (∀ o, lv_cfg V x' o = if (o =? off)%Z then v else lv_cfg V x o) ∧ lv_sent V x' = lv_sent V x ∧ lv_words V x' = lv_words V x ∧ arrives x x';
  (** The FIFOs. *)
  ll_tx : ∀ v x, let x' := reg_write u tx_data_fifo v x in
    mac_kept x x' ∧ (∀ o, lv_cfg V x' o = lv_cfg V x o) ∧ lv_sent V x' = lv_sent V x ++ [v] ∧ lv_words V x' = lv_words V x ∧ arrives x x';
  ll_frames : ∀ x, Forall frame_ok (lv_frames V x);
  ll_inf : ∀ x, let '(v, x') := reg_read u rx_fifo_inf x in
    data_kept x x' ∧ mac_kept x x' ∧ (rx_used v = 0%Z ↔ lv_frames V x = []);
  ll_status : ∀ x f fs, lv_words V x = [] → lv_frames V x = f :: fs → let '(v, x') := reg_read u rx_status_fifo x in
    mac_kept x x' ∧ (∀ o, lv_cfg V x' o = lv_cfg V x o) ∧ lv_sent V x' = lv_sent V x ∧ lv_words V x' = f_words f
    ∧ (∃ new, lv_frames V x' = fs ++ new ∧ lv_line V x = new ++ lv_line V x')
    ∧ Z.land (Z.shiftr v 16) 0x3fff = Z.of_nat (f_len f) ∧ Z.testbit v 15 = f_error f;
  ll_data : ∀ x w ws, lv_words V x = w :: ws → let '(v, x') := reg_read u rx_data_fifo x in
    v = w ∧ mac_kept x x' ∧ (∀ o, lv_cfg V x' o = lv_cfg V x o) ∧ lv_sent V x' = lv_sent V x ∧ lv_words V x' = ws ∧ arrives x x';
}.
End laws.

(** ** Words and bytes *)

Lemma le_to_le (bs : list Z) : byte_list bs → to_le (length bs) (le_bytes bs) = bs.
Proof.
  induction 1 as [|b bs Hb _ IH]; [done|]. cbn [length to_le le_bytes foldr]. fold (le_bytes bs).
  cbn beta in Hb. replace ((b + 256 * le_bytes bs) `mod` 256)%Z with b by divmod.
  replace ((b + 256 * le_bytes bs) / 256)%Z with (le_bytes bs) by divmod. by rewrite IH.
Qed.

Lemma chunks_ind (P : list Z → Prop) (Hr : ∀ rem, length rem < 4 → P rem)
  (Hc : ∀ a b c d rest, P rest → P (a :: b :: c :: d :: rest)) : ∀ buf, P buf.
Proof.
  assert (H : ∀ n buf, length buf < n → P buf).
  { induction n as [|n IH]; intros buf Hn; [lia|]. destruct buf as [|a [|b [|c [|d rest]]]]; try (apply Hr; cbn; lia).
    apply Hc, IH. cbn in Hn. lia. }
  intros buf. apply (H (S (length buf))). lia.
Qed.

Lemma le_words_small (rem : list Z) : length rem < 4 → le_words rem = if bool_decide (rem = []) then [] else [le_bytes (rem ++ replicate (4 - length rem) 0%Z)].
Proof. destruct rem as [|a [|b [|c [|d rest]]]]; intros H; try done. cbn in H. lia. Qed.

Lemma length_le_words (buf : list Z) : length (le_words buf) = (length buf + 3) / 4.
Proof.
  induction buf as [rem Hr|a b c d rest IH] using chunks_ind.
  - destruct rem as [|a [|b [|c [|d rest]]]]; [reflexivity..|cbn in Hr; lia].
  - cbn [le_words length]. rewrite IH. replace (S (S (S (S (length rest)))) + 3) with (length rest + 3 + 1 * 4) by lia. rewrite Nat.div_add by lia. lia.
Qed.

(** The words of a frame carry its bytes, and zeros after them. *)
Lemma le_words_bytes (buf : list Z) : byte_list buf → ∃ k, concat (to_le 4 <$> le_words buf) = buf ++ replicate k 0%Z.
Proof.
  induction buf as [rem Hr|a b c d rest IH] using chunks_ind; intros Hb.
  - rewrite le_words_small by done. case_bool_decide as E; [exists 0; by rewrite E|]. exists (4 - length rem). cbn [fmap list_fmap concat]. rewrite app_nil_r.
    assert (H4 : length (rem ++ replicate (4 - length rem) 0%Z) = 4) by (rewrite length_app, length_replicate; lia).
    rewrite <- H4 at 1. apply le_to_le, Forall_app. split; [done|]. by apply Forall_replicate.
  - assert (Hb4 : byte_list [a; b; c; d]) by (apply (Forall_take _ 4 _) in Hb; exact Hb).
    destruct IH as [k Hk]; [apply (Forall_drop _ 4 _) in Hb; exact Hb|]. exists k. cbn [le_words fmap list_fmap concat].
    pose proof (le_to_le [a; b; c; d] Hb4) as E. change (length [a; b; c; d]) with 4 in E. rewrite E. change (concat (list_fmap _ _ (to_le 4) (le_words rest))) with (concat (to_le 4 <$> le_words rest)). by rewrite Hk.
Qed.

Lemma bit_tested (v b : Z) : (0 <= b)%Z → negb (Z.land v (Z.shiftl 1 b) =? 0)%Z = Z.testbit v b.
Proof.
  intros Hb. rewrite land_bit by done. destruct (Z.testbit v b); [|done]. apply negb_true_iff, Z.eqb_neq.
  rewrite Z.shiftl_1_l. pose proof (Z.pow_pos_nonneg 2 b). lia.
Qed.

(** ** What the driver makes of it *)

Section props.
Context {W : Type} `{!Bus W} (V : LanView W) (spin : nat) (u : Lan9118) (Hl : lan_laws V spin u).

#[local] Instance arrives_preorder : PreOrder (arrives V).
Proof.
  split; [intros x; exists []; by rewrite app_nil_r|]. intros x y z (n1&Hf1&Hl1) (n2&Hf2&Hl2).
  exists (n1 ++ n2). split; [by rewrite Hf2, Hf1, app_assoc|by rewrite Hl1, Hl2, app_assoc].
Qed.

#[local] Instance mac_kept_preorder : PreOrder (mac_kept V).
Proof. split; [by intros x; split|]. intros x y z [m1 c1 i1] [m2 c2 i2]. split; [intros r; by rewrite m2|by rewrite c2|by auto]. Qed.

#[local] Instance data_kept_preorder : PreOrder (data_kept V).
Proof.
  split; [by intros x; split|]. intros x y z [c1 s1 w1 a1] [c2 s2 w2 a2].
  split; [intros o; by rewrite c2|by rewrite s2|by rewrite w2|by etransitivity].
Qed.

Definition lan_stream (x : W) : list RxFrame := lv_frames V x ++ lv_line V x.

Lemma arrives_stream (x x' : W) : arrives V x x' → lan_stream x' = lan_stream x.
Proof. intros (new&Hf&Hn). unfold lan_stream. by rewrite Hf, Hn, app_assoc. Qed.

(** A loop that waits until the controller is ready ends. *)
Lemma wait_while_spec (off : Z) (busy : Z → bool) : off ∈ polled → (∀ v, ready off v = true → busy v = false) →
  ∀ fuel x, lv_left V x off < fuel →
  ∃ x' x0 v, wait_while u fuel off busy x = Done x' ∧ data_kept V x x' ∧ mac_kept V x x' ∧ reg_read u off x0 = (v, x') ∧ busy v = false.
Proof.
  intros Hoff Hr. induction fuel as [|fuel IH]; intros x Hlt; [lia|]. cbn [wait_while].
  pose proof (ll_poll _ _ _ Hl off x Hoff) as Hp. destruct (reg_read u off x) as [v x1] eqn:E. destruct Hp as (Hd&Hm&Ho).
  destruct (busy v) eqn:Hb; [|by exists x1, x, v]. destruct Ho as [Ho|Ho]; [by rewrite (Hr v Ho) in Hb|].
  destruct (IH x1) as (x'&x0&v'&Hw&Hd'&Hm'&Hx); [lia|]. exists x', x0, v'. split_and!; [done|by etransitivity|by etransitivity|apply Hx..].
Qed.

Lemma mac_csr_wait_spec (x : W) : ∃ x', mac_csr_wait spin u x = Done x' ∧ data_kept V x x' ∧ mac_kept V x x' ∧ lv_idle V x'.
Proof.
  destruct (wait_while_spec mac_csr_cmd mac_busy) with (fuel := spin) (x := x) as (x'&x0&v&Hw&Hd&Hm&Hx&Hb).
  - polled_reg.
  - intros v Hv. unfold ready in Hv. cbn in Hv. unfold mac_busy. rewrite bit_tested by lia. by apply negb_true_iff.
  - apply (ll_left _ _ _ Hl).
  - exists x'. split_and!; [done..|]. pose proof (ll_cmd _ _ _ Hl x0) as Hc. rewrite Hx in Hc. apply Hc.
    unfold mac_busy in Hb. by rewrite bit_tested in Hb by lia.
Qed.

Lemma mac_read_spec (r : Z) (x : W) : (0 <= r < 256)%Z →
  ∃ x', mac_read spin u r x = Done (lv_mac V x r, x') ∧ data_kept V x x' ∧ (∀ k, lv_mac V x' k = lv_mac V x k).
Proof.
  intros Hr. unfold mac_read. destruct (mac_csr_wait_spec x) as (x1&->&Hd1&Hm1&Hi1). cbn [mbind exec_bind].
  destruct (ll_mac_read _ _ _ Hl r x1 Hi1 Hr) as (Hd2&Hc2&Hm2). set (x2 := reg_write u mac_csr_cmd _ x1) in *.
  destruct (mac_csr_wait_spec x2) as (x3&->&Hd3&Hm3&Hi3). cbn [mbind exec_bind].
  pose proof (ll_csr_read _ _ _ Hl x3 Hi3) as Hx. destruct (reg_read u mac_csr_data x3) as [v x4]. destruct Hx as (->&Hd4&Hm4).
  exists x4. split_and!; [|by transitivity x1; [|transitivity x2; [|transitivity x3]]|].
  - by rewrite (mk_csr _ _ _ Hm3), Hc2, (mk_mac _ _ _ Hm1).
  - intros k. by rewrite (mk_mac _ _ _ Hm4), (mk_mac _ _ _ Hm3), Hm2, (mk_mac _ _ _ Hm1).
Qed.

Lemma mac_write_spec (r val : Z) (x : W) : (0 <= r < 256)%Z →
  ∃ x', mac_write spin u r val x = Done x' ∧ data_kept V x x' ∧ (∀ k, lv_mac V x' k = if (k =? r)%Z then val else lv_mac V x k).
Proof.
  intros Hr. unfold mac_write. destruct (mac_csr_wait_spec x) as (x1&->&Hd1&Hm1&Hi1). cbn [mbind exec_bind].
  destruct (ll_csr_write _ _ _ Hl val x1 Hi1) as (Hd2&Hc2&Hi2&Hm2). set (x2 := reg_write u mac_csr_data val x1) in *.
  destruct (ll_mac_write _ _ _ Hl r x2 Hi2 Hr) as (Hd3&Hm3). set (x3 := reg_write u mac_csr_cmd _ x2) in *.
  destruct (mac_csr_wait_spec x3) as (x4&->&Hd4&Hm4&Hi4). exists x4. split_and!; [done|by transitivity x1; [|transitivity x2; [|transitivity x3]]|].
  intros k. by rewrite (mk_mac _ _ _ Hm4), Hm3, Hc2, Hm2, (mk_mac _ _ _ Hm1).
Qed.

(** The controller is set up: transmitter and receiver are on, frames are not
    shifted, and no frame is half read. *)
Record lan_up (x : W) : Prop := {
  lu_tx : Z.testbit (lv_mac V x 1) 3 = true;
  lu_rx : Z.testbit (lv_mac V x 1) 2 = true;
  lu_tx_on : lv_cfg V x tx_cfg = 2%Z;
  lu_rx_cfg : lv_cfg V x rx_cfg = 0%Z;
  lu_words : lv_words V x = [];
}.

Lemma lan_init_spec (x : W) :
  if (Z.shiftr (lv_id V) 16 =? 0x0118)%Z
  then ∃ x', lan_init spin u x = Done (inr (), x') ∧ lan_up x' ∧ lv_sent V x' = lv_sent V x
  else ∃ x', lan_init spin u x = Done (inl InitFailed, x') ∧ data_kept V x x' ∧ mac_kept V x x'.
Proof.
  unfold lan_init. pose proof (ll_id _ _ _ Hl x) as Hi. destruct (reg_read u id_rev x) as [id x1]. destruct Hi as (->&Hd1&Hm1).
  destruct (Z.shiftr (lv_id V) 16 =? 0x0118)%Z; cbn [negb]; [|by exists x1].
  destruct (ll_reset _ _ _ Hl x1) as [Hw2 Hs2]. set (x2 := reg_write u hw_cfg 1 x1) in *.
  destruct (wait_while_spec hw_cfg (λ v, negb (Z.land v 1 =? 0)%Z)) with (fuel := spin) (x := x2) as (x3&y1&v1&->&Hd3&_&_); [polled_reg| |apply (ll_left _ _ _ Hl)|].
  { intros v Hv. unfold ready in Hv. cbn in Hv. apply andb_prop in Hv as [Hv _]. change 1%Z with (Z.shiftl 1 0). rewrite bit_tested by lia. by apply negb_true_iff. }
  cbn [mbind exec_bind]. destruct (ll_cfg _ _ _ Hl hw_cfg 0x50000 x3) as (_&_&Hs4&Hw4&_); [by left|]. set (x4 := reg_write u hw_cfg 0x50000 x3) in *.
  destruct (wait_while_spec byte_test (λ v, negb (v =? 0x87654321)%Z)) with (fuel := spin) (x := x4) as (x5&y2&v2&->&Hd5&_&_); [polled_reg| |apply (ll_left _ _ _ Hl)|].
  { intros v Hv. unfold ready in Hv. cbn in Hv. by rewrite Hv. }
  cbn [mbind exec_bind].
  destruct (wait_while_spec hw_cfg (λ v, negb (Z.land v (Z.shiftl 1 27) =? 0)%Z)) with (fuel := spin) (x := x5) as (x6&y3&v3&->&Hd6&_&_); [polled_reg| |apply (ll_left _ _ _ Hl)|].
  { intros v Hv. unfold ready in Hv. cbn in Hv. apply andb_prop in Hv as [_ Hv]. rewrite bit_tested by lia. by apply negb_true_iff. }
  cbn [mbind exec_bind]. destruct (mac_read_spec 1 x6) as (x7&->&Hd7&_); [lia|]. cbn [mbind exec_bind]. set (cr := lv_mac V x6 1).
  destruct (mac_write_spec 1 (Z.lor (Z.lor cr (Z.shiftl 1 3)) (Z.shiftl 1 2)) x7) as (x8&->&Hd8&Hm8); [lia|]. cbn [mbind exec_bind].
  destruct (ll_cfg _ _ _ Hl tx_cfg (Z.shiftl 1 1) x8) as (Hm9&Hc9&Hs9&Hw9&_); [by right; left|]. set (x9 := reg_write u tx_cfg _ x8) in *.
  destruct (ll_cfg _ _ _ Hl rx_cfg 0 x9) as (Hm10&Hc10&Hs10&Hw10&_); [by right; right|]. set (x10 := reg_write u rx_cfg 0 x9) in *.
  exists x10. split; [done|]. split; [|by rewrite Hs10, Hs9, (dk_sent _ _ _ Hd8), (dk_sent _ _ _ Hd7), (dk_sent _ _ _ Hd6), (dk_sent _ _ _ Hd5), Hs4, (dk_sent _ _ _ Hd3), Hs2, (dk_sent _ _ _ Hd1)].
  split.
  - rewrite (mk_mac _ _ _ Hm10), (mk_mac _ _ _ Hm9), Hm8, Z.eqb_refl. rewrite !Z.lor_spec. change (Z.testbit (Z.shiftl 1 3) 3) with true. by rewrite orb_true_r.
  - rewrite (mk_mac _ _ _ Hm10), (mk_mac _ _ _ Hm9), Hm8, Z.eqb_refl. rewrite !Z.lor_spec. change (Z.testbit (Z.shiftl 1 2) 2) with true. by rewrite orb_true_r.
  - by rewrite Hc10, Hc9.
  - by rewrite Hc10.
  - by rewrite Hw10, Hw9, (dk_words _ _ _ Hd8), (dk_words _ _ _ Hd7), (dk_words _ _ _ Hd6), (dk_words _ _ _ Hd5), Hw4, (dk_words _ _ _ Hd3), Hw2.
Qed.

Lemma lan_up_kept (x x' : W) : data_kept V x x' → (∀ k, lv_mac V x' k = lv_mac V x k) → lan_up x → lan_up x'.
Proof. intros [c _ w _] m [? ? ? ? ?]. split; rewrite ?m, ?c, ?w; done. Qed.

Lemma mac_address_spec (x : W) : ∃ x', mac_address spin u x =
    Done ([Z.land (lv_mac V x 3) 0xff; Z.land (Z.shiftr (lv_mac V x 3) 8) 0xff; Z.land (Z.shiftr (lv_mac V x 3) 16) 0xff;
           Z.land (Z.shiftr (lv_mac V x 3) 24) 0xff; Z.land (lv_mac V x 2) 0xff; Z.land (Z.shiftr (lv_mac V x 2) 8) 0xff], x')
  ∧ data_kept V x x' ∧ (∀ k, lv_mac V x' k = lv_mac V x k).
Proof.
  unfold mac_address. destruct (mac_read_spec 2 x) as (x1&->&Hd1&Hm1); [lia|]. cbn [mbind exec_bind].
  destruct (mac_read_spec 3 x1) as (x2&->&Hd2&Hm2); [lia|]. cbn [mbind exec_bind]. rewrite Hm1.
  exists x2. split; [done|]. split; [by transitivity x1|]. intros k. by rewrite Hm2, Hm1.
Qed.

(** *** Sending *)

(** Words were sent. *)
Record sends (ws : list Z) (x x' : W) : Prop := {
  se_mac : ∀ k, lv_mac V x' k = lv_mac V x k;
  se_cfg : ∀ o, lv_cfg V x' o = lv_cfg V x o;
  se_sent : lv_sent V x' = lv_sent V x ++ ws;
  se_words : lv_words V x' = lv_words V x;
  se_arrives : arrives V x x';
}.

Lemma kept_sends (x x' : W) : data_kept V x x' → mac_kept V x x' → sends [] x x'.
Proof. intros [? ? ? ?] [? ? ?]. split; rewrite ?app_nil_r; done. Qed.

Lemma sends_app (ws ws' : list Z) (x y z : W) : sends ws x y → sends ws' y z → sends (ws ++ ws') x z.
Proof.
  intros [m1 c1 s1 w1 a1] [m2 c2 s2 w2 a2]. split; [intros k; by rewrite m2|intros o; by rewrite c2|by rewrite s2, s1, app_assoc|by rewrite w2|by transitivity y].
Qed.

Lemma word_sends (v : Z) (x : W) : sends [v] x (reg_write u tx_data_fifo v x).
Proof. destruct (ll_tx _ _ _ Hl v x) as ([? ? ?]&?&?&?&?). by split. Qed.

Lemma write_words_sends (ws : list Z) : ∀ x, sends ws x (write_words u ws x).
Proof.
  induction ws as [|v ws IH]; intros x; cbn [write_words foldl].
  - split; rewrite ?app_nil_r; done.
  - apply (sends_app [v] ws _ (reg_write u tx_data_fifo v x)); [apply word_sends|apply IH].
Qed.

Lemma lan_up_sends (ws : list Z) (x x' : W) : sends ws x x' → lan_up x → lan_up x'.
Proof. intros [m c _ w _] [? ? ? ? ?]. split; rewrite ?m, ?c, ?w; done. Qed.

(** The commands before a frame. *)
Definition cmd_word (len : nat) : Z := Z.lor (Z.lor (Z.shiftl 1 13) (Z.shiftl 1 12)) (Z.of_nat len).
Definition frame_words (buf : list Z) : list Z := cmd_word (length buf) :: Z.of_nat (length buf) :: le_words buf.

(** A frame that fits the FIFO is sent as its two commands and its words. *)
Lemma transmit_spec (buf : list Z) (x : W) : length buf < 2048 →
  ∃ x', transmit spin u buf x = Done (inr (), x') ∧ sends (frame_words buf) x x'.
Proof.
  intros Hlen. unfold transmit. set (n := Z.of_nat (length buf)). assert (Hn : (0 <= n < 2048)%Z) by lia.
  assert (Hw : (0 <= (n + 3) / 4 < 513)%Z) by divmod.
  assert (Hs : wrap 32 ((n + 3) / 4 + 2) = ((n + 3) / 4 + 2)%Z) by (apply wrap_small; unfold in_width; lia). rewrite Hs.
  rewrite mul_w_Done by lia. cbn [mbind exec_bind].
  destruct (wait_while_spec tx_fifo_inf (λ v, (Z.land v 0xffff <? ((n + 3) / 4 + 2) * 4)%Z)) with (fuel := spin) (x := x) as (x1&y1&v1&->&Hd1&Hm1&_); [polled_reg| |apply (ll_left _ _ _ Hl)|].
  { intros v Hv. unfold ready in Hv. cbn in Hv. apply Z.leb_le in Hv. apply Z.ltb_ge. unfold TX_ROOM in Hv. lia. }
  cbn [mbind exec_bind]. rewrite (wrap_small 32 n) by (unfold in_width; lia).
  assert (Hland : Z.land n 0x7ff = n) by (change 0x7ff%Z with (Z.ones 11); rewrite Z.land_ones by lia; apply Z.mod_small; lia). rewrite Hland.
  eexists. split; [done|]. change (frame_words buf) with ([] ++ [cmd_word (length buf)] ++ [n] ++ le_words buf).
  eapply sends_app; [by apply kept_sends|]. eapply sends_app; [apply word_sends|]. eapply sends_app; [apply word_sends|apply write_words_sends].
Qed.
End props.

(** *** What the controller reads from the words sent

    Two commands, whose lengths agree and which say that the frame is whole,
    and as many words as the length asks for. *)
Fixpoint decode_tx (fuel : nat) (ws : list Z) : option (list (list Z)) :=
  match fuel, ws with
  | _, [] => Some []
  | S fuel, a :: b :: ws =>
      let len := Z.to_nat (Z.land a 0x7ff) in
      let words := (len + 3) / 4 in
      if Z.testbit a 13 && Z.testbit a 12 && (Z.land b 0x7ff =? Z.land a 0x7ff)%Z && (words <=? length ws)
      then frames ← decode_tx fuel (drop words ws); Some (take len (concat (to_le 4 <$> take words ws)) :: frames)
      else None
  | _, _ => None
  end.

Lemma cmd_word_bits (n : nat) : n < 2048 →
  Z.land (cmd_word n) 0x7ff = Z.of_nat n ∧ Z.testbit (cmd_word n) 13 = true ∧ Z.testbit (cmd_word n) 12 = true.
Proof.
  intros Hn. unfold cmd_word. split; [|by rewrite !Z.lor_spec].
  rewrite !Z.land_lor_distr_l. change (Z.land (Z.shiftl 1 13) 0x7ff) with 0%Z. change (Z.land (Z.shiftl 1 12) 0x7ff) with 0%Z.
  rewrite Z.lor_0_l. change 0x7ff%Z with (Z.ones 11). rewrite Z.land_ones by lia. apply Z.mod_small. lia.
Qed.

Lemma decode_frames (frames : list (list Z)) : Forall (λ f, byte_list f ∧ length f < 2048) frames →
  ∀ fuel, length frames ≤ fuel → decode_tx fuel (concat (frame_words <$> frames)) = Some frames.
Proof.
  induction 1 as [|f frames [Hb Hlen] _ IH]; intros fuel Hfuel; [by destruct fuel|]. destruct fuel as [|fuel]; [cbn in Hfuel; lia|].
  cbn [fmap list_fmap concat frame_words app decode_tx]. destruct (cmd_word_bits _ Hlen) as (Hc&->&->). rewrite Hc, Nat2Z.id. cbn [andb].
  assert (Hland : Z.land (Z.of_nat (length f)) 0x7ff = Z.of_nat (length f)).
  { change 0x7ff%Z with (Z.ones 11). rewrite Z.land_ones by lia. apply Z.mod_small. lia. }
  rewrite Hland, Z.eqb_refl. cbn [andb]. rewrite <- length_le_words, take_app_length, drop_app_length, length_app.
  rewrite (proj2 (Nat.leb_le _ _)) by lia. change (concat (list_fmap _ _ frame_words frames)) with (concat (frame_words <$> frames)).
  rewrite IH by (cbn in Hfuel; lia). cbn [mbind option_bind]. destruct (le_words_bytes f Hb) as [k ->]. by rewrite take_app_length.
Qed.

(** *** Receiving *)

Lemma length_words_bytes (ws : list Z) : length (concat (to_le 4 <$> ws)) = 4 * length ws.
Proof.
  induction ws as [|w ws IH]; [done|]. cbn [fmap list_fmap concat length]. rewrite length_app, length_to_le.
  change (list_fmap _ _ (to_le 4) ws) with (to_le 4 <$> ws). rewrite IH. lia.
Qed.

Lemma frame_words_enough (f : RxFrame) : frame_ok f → f_len f <= 4 * length (f_words f).
Proof.
  intros [_ ->]. pose proof (Nat.div_mod (f_len f + 3) 4 ltac:(lia)). pose proof (Nat.mod_upper_bound (f_len f + 3) 4 ltac:(lia)). lia.
Qed.

Lemma length_f_bytes (f : RxFrame) : frame_ok f → length (f_bytes f) = f_len f.
Proof. intros Hok. pose proof (frame_words_enough f Hok). unfold f_bytes. rewrite length_take, length_words_bytes. lia. Qed.

(** The buffer when the bytes [ds] of a packet have come. *)
Definition filled (pkt_len : nat) (ds buf : list Z) : list Z :=
  let k := Nat.min (Nat.min (length ds) pkt_len) (length buf) in take k ds ++ drop k buf.

Lemma length_rx_filled (pkt_len : nat) (ds buf : list Z) : length (filled pkt_len ds buf) = length buf.
Proof. unfold filled. rewrite length_app, length_take, length_drop. lia. Qed.

Lemma filled_snoc (pkt_len : nat) (ds buf : list Z) (b : Z) :
  filled pkt_len (ds ++ [b]) buf =
  if (length ds <? pkt_len) && (length ds <? length buf) then <[length ds := b]> (filled pkt_len ds buf) else filled pkt_len ds buf.
Proof.
  unfold filled. rewrite length_app. cbn [length].
  destruct (Nat.ltb_spec (length ds) pkt_len) as [Hp|Hp], (Nat.ltb_spec (length ds) (length buf)) as [Hb|Hb]; cbn [andb].
  - replace (Nat.min (Nat.min (length ds + 1) pkt_len) (length buf)) with (S (length ds)) by lia.
    replace (Nat.min (Nat.min (length ds) pkt_len) (length buf)) with (length ds) by lia.
    rewrite (take_ge (ds ++ [b])) by (rewrite length_app; cbn; lia). rewrite (take_ge ds) by lia.
    destruct (drop (length ds) buf) as [|c rest] eqn:E.
    { apply (f_equal length) in E. rewrite length_drop in E. cbn in E. lia. }
    rewrite <- (Nat.add_0_r (length ds)) at 2. rewrite insert_app_r. cbn. rewrite <- app_assoc. f_equal. cbn. f_equal.
    replace (S (length ds)) with (length ds + 1) by lia. by rewrite <- drop_drop, E.
  - replace (Nat.min (Nat.min (length ds + 1) pkt_len) (length buf)) with (length buf) by lia.
    replace (Nat.min (Nat.min (length ds) pkt_len) (length buf)) with (length buf) by lia. by rewrite take_app_le by lia.
  - replace (Nat.min (Nat.min (length ds + 1) pkt_len) (length buf)) with (Nat.min pkt_len (length buf)) by lia.
    replace (Nat.min (Nat.min (length ds) pkt_len) (length buf)) with (Nat.min pkt_len (length buf)) by lia. by rewrite take_app_le by lia.
  - replace (Nat.min (Nat.min (length ds + 1) pkt_len) (length buf)) with (Nat.min (Nat.min (length ds) pkt_len) (length buf)) by lia.
    by rewrite take_app_le by lia.
Qed.

Lemma put_bytes_spec (pkt_len : nat) (buf : list Z) (bs : list Z) : ∀ ds,
  put_bytes pkt_len bs (filled pkt_len ds buf) (length ds) = (filled pkt_len (ds ++ bs) buf, length (ds ++ bs)).
Proof.
  induction bs as [|b bs IH]; intros ds; cbn [put_bytes]; [by rewrite app_nil_r|].
  rewrite length_rx_filled, <- filled_snoc. replace (S (length ds)) with (length (ds ++ [b])) by (rewrite length_app; cbn; lia).
  rewrite IH. by rewrite <- app_assoc.
Qed.

Section receive.
Context {W : Type} `{!Bus W} (V : LanView W) (spin : nat) (u : Lan9118) (Hl : lan_laws V spin u).

(** The frames [fs] were taken from the front. *)
Record takes (fs : list RxFrame) (x x' : W) : Prop := {
  tk_mac : ∀ k, lv_mac V x' k = lv_mac V x k;
  tk_cfg : ∀ o, lv_cfg V x' o = lv_cfg V x o;
  tk_sent : lv_sent V x' = lv_sent V x;
  tk_arrives : ∃ new, lv_frames V x ++ new = fs ++ lv_frames V x' ∧ lv_line V x = new ++ lv_line V x';
}.

Lemma kept_takes (x x' : W) : data_kept V x x' → mac_kept V x x' → takes [] x x'.
Proof. intros [? ? ? (new&?&?)] [? ? ?]. split; try done. by exists new. Qed.

Lemma takes_arrives (fs : list RxFrame) (x y z : W) : takes fs x y → (∀ k, lv_mac V z k = lv_mac V y k) → (∀ o, lv_cfg V z o = lv_cfg V y o) →
  lv_sent V z = lv_sent V y → arrives V y z → takes fs x z.
Proof.
  intros [m1 c1 s1 (n1&Hf1&Hl1)] m2 c2 s2 (n2&Hf2&Hl2). split; [intros k; by rewrite m2|intros o; by rewrite c2|by rewrite s2|].
  exists (n1 ++ n2). split; [by rewrite Hf2, !app_assoc, Hf1, <- !app_assoc|by rewrite Hl1, Hl2, app_assoc].
Qed.

Lemma takes_stream (fs : list RxFrame) (x x' : W) : takes fs x x' → lan_stream V x = fs ++ lan_stream V x'.
Proof. intros [_ _ _ (new&Hf&Hn)]. unfold lan_stream. by rewrite Hn, app_assoc, Hf, <- app_assoc. Qed.

Lemma read_words_spec (fs : list RxFrame) (x0 : W) (error : bool) (pkt_len : nat) (buf : list Z) (ws : list Z) : ∀ ds x,
  lv_words V x = ws → takes fs x0 x →
  ∃ x', read_words u (length ws) error pkt_len (if error then buf else filled pkt_len ds buf) (length ds) x =
    (if error then buf else filled pkt_len (ds ++ concat (to_le 4 <$> ws)) buf, x') ∧ takes fs x0 x' ∧ lv_words V x' = [].
Proof.
  induction ws as [|w ws IH]; intros ds x Hw Ht; cbn [read_words length].
  - exists x. split; [by destruct error; rewrite ?app_nil_r|done].
  - pose proof (ll_data _ _ _ Hl x w ws Hw) as Hd. destruct (reg_read u rx_data_fifo x) as [v x1]. destruct Hd as (->&[m _ _]&c&s&Hw1&a).
    assert (Ht1 : takes fs x0 x1) by (by eapply takes_arrives). destruct error.
    + destruct (IH ds x1 Hw1 Ht1) as (x'&Hx&?&?). by exists x'.
    + rewrite put_bytes_spec. destruct (IH (ds ++ to_le 4 w) x1 Hw1 Ht1) as (x'&Hx&?&?). exists x'. split; [|done]. rewrite Hx.
      by rewrite <- app_assoc.
Qed.

Definition outcome (buf : list Z) (f : RxFrame) : (DriverErr + nat) * list Z :=
  if f_error f then (inl HardwareFault, buf)
  else (inr (Nat.min (f_len f) (length buf)), let k := Nat.min (f_len f) (length buf) in take k (f_bytes f) ++ drop k buf).

Lemma words_of_len (n : nat) : (Z.of_nat n < 2 ^ 14)%Z → Z.to_nat (Z.land (Z.of_nat n + 3) (lnot_w 64 3) / 4) = (n + 3) / 4.
Proof.
  intros Hn. assert (H : Z.land (Z.of_nat n + 3) (lnot_w 64 3) = ((Z.of_nat n + 3) / 4 * 4)%Z).
  { apply Z.bits_inj'. intros i Hi. rewrite Z.land_spec. change 4%Z with (2 ^ 2)%Z. rewrite <- Z.shiftr_div_pow2, <- Z.shiftl_mul_pow2 by lia.
    destruct (Z.ltb_spec i 2).
    - rewrite Z.shiftl_spec_low by done. assert (i = 0 ∨ i = 1)%Z as [-> | ->] by lia; by rewrite andb_false_r.
    - rewrite Z.shiftl_spec_high, Z.shiftr_spec by lia. replace (i - 2 + 2)%Z with i by lia.
      destruct (Z.ltb_spec i 64).
      + rewrite testbit_lnot_w by lia. rewrite bool_decide_true by lia. rewrite (testbit_high 2 3) by (unfold in_width; lia). by rewrite andb_true_r.
      + rewrite (testbit_high 64 (Z.of_nat n + 3)) by (unfold in_width; lia). done. }
  rewrite H, Z.div_mul by lia. rewrite <- (Nat2Z.id ((n + 3) / 4)). f_equal. rewrite Nat2Z.inj_div. f_equal. lia.
Qed.

Lemma receive_spec (buf : list Z) (x : W) : lv_words V x = [] →
  match lv_frames V x with
  | [] => ∃ x', receive u buf x = (inr 0, buf, x') ∧ takes [] x x' ∧ lv_words V x' = []
  | f :: _ => ∃ x', receive u buf x = (outcome buf f, x') ∧ takes [f] x x' ∧ lv_words V x' = []
  end.
Proof.
  intros Hw. unfold receive. pose proof (ll_inf _ _ _ Hl x) as Hi. destruct (reg_read u rx_fifo_inf x) as [v x1]. destruct Hi as (Hd&Hm&Hiff).
  pose proof (kept_takes _ _ Hd Hm) as Ht0. pose proof (dk_words _ _ _ Hd) as Hw1. rewrite Hw in Hw1.
  destruct (lv_frames V x) as [|f fs] eqn:Hf.
  - rewrite (proj2 Hiff eq_refl). exists x1. done.
  - destruct (Z.eqb_spec (rx_used v) 0) as [E|_]; [by apply Hiff in E|].
    destruct (dk_arrives _ _ _ Hd) as (new&Hf1&_). rewrite Hf in Hf1. cbn [app] in Hf1.
    assert (Hok : frame_ok f) by (pose proof (ll_frames _ _ _ Hl x) as H; rewrite Hf in H; by apply Forall_inv in H). destruct Hok as [Hlen Hwords].
    pose proof (ll_status _ _ _ Hl x1 f (fs ++ new) Hw1 Hf1) as Hs. destruct (reg_read u rx_status_fifo x1) as [st x2].
    destruct Hs as ([m2 _ _]&c2&s2&Hw2&(new2&Hf2&Hl2)&Hlen2&Herr). rewrite Hlen2, Nat2Z.id, words_of_len by done. rewrite bit_tested, Herr by lia.
    assert (Ht2 : takes [f] x x2).
    { destruct Ht0 as [m0 c0 s0 (n0&Hf0&Hl0)]. split; [intros k; by rewrite m2|intros o; by rewrite c2|by rewrite s2|].
      exists (n0 ++ new2). split; [|by rewrite Hl0, Hl2, app_assoc]. rewrite app_assoc, Hf0. cbn [app]. by rewrite Hf1, Hf2. }
    rewrite <- Hwords. destruct (read_words_spec [f] x (f_error f) (f_len f) buf (f_words f) [] x2 Hw2 Ht2) as (x'&Hx&Ht&Hw').
    assert (Hfill : filled (f_len f) [] buf = buf) by done. rewrite Hfill in Hx. replace (if f_error f then buf else buf) with buf in Hx by (by destruct (f_error f)).
    cbn [length] in Hx. rewrite Hx. exists x'. split; [|done]. unfold outcome. destruct (f_error f); [done|]. cbn [app].
    pose proof (length_words_bytes (f_words f)) as Hl4. pose proof (frame_words_enough f (Build_frame_ok _ Hlen Hwords)).
    unfold filled. rewrite Hl4, length_app, length_take, length_drop, Hl4. rewrite (Nat.min_r (4 * length (f_words f)) (f_len f)) by lia.
    unfold f_bytes. rewrite take_take, (Nat.min_l (Nat.min (f_len f) (length buf)) (f_len f)) by lia. f_equal. f_equal. f_equal. lia.
Qed.

Lemma has_rx_data_spec (x : W) : ∃ x', has_rx_data u x = (negb (bool_decide (lv_frames V x = [])), x') ∧ data_kept V x x' ∧ mac_kept V x x'.
Proof.
  unfold has_rx_data. pose proof (ll_inf _ _ _ Hl x) as Hi. destruct (reg_read u rx_fifo_inf x) as [v x1]. destruct Hi as (Hd&Hm&Hiff).
  exists x1. split; [|done]. f_equal.
  assert (0 <= rx_used v)%Z by (unfold rx_used; apply Z.land_nonneg; right; lia).
  case_bool_decide as E; [by rewrite (proj2 Hiff E)|]. cbn [negb]. apply Z.ltb_lt. assert (rx_used v ≠ 0%Z) by (by intros ?%Hiff). lia.
Qed.
End receive.
