(* ===== verification/Net.v ===== *)
(** * The network, [kernel/src/net/] and [kernel/src/driver/net.rs]

    The adapter between a network device and the protocol stack
    ([smoltcp/device.rs]), start-up and polling with the DHCP client
    ([smoltcp/mod.rs]) and the sockets ([smoltcp/socket.rs], [posix.rs]).  The
    protocol stack is the crate [smoltcp], whose code is not in the
    repository: its interface, its set of sockets and its sockets are type
    classes, and their laws say what the crate's documentation promises.  A
    call runs as a whole; the log lines are left out. *)

From S2P Require Export Prelude.
From S2P Require Export Str.
From S2P Require Export Drivers.
From S2P Require Export Lan9118.

(** ** Network devices, [driver/net.rs] and [smoltcp/device.rs] *)

(** [NetDevice]: [receive] is given a buffer and returns it. *)
Class NetDevice (W : Type) : Type := {
  nd_mac_address : W → exec (list Z * W);
  nd_has_rx_data : W → exec (bool * W);
  nd_transmit : list Z → W → exec ((DriverErr + unit) * W);
  nd_receive : list Z → W → exec ((DriverErr + nat) * list Z * W);
}.

(** [Lan9118::as_net_device]. *)
#[export] Instance lan_net_device {W : Type} `{!Bus W} (spin : nat) (u : Lan9118) : NetDevice W | 10 := {
  nd_mac_address := mac_address spin u;
  nd_has_rx_data x := Done (has_rx_data u x);
  nd_transmit := transmit spin u;
  nd_receive buf x := Done (receive u buf x);
}.

Definition MTU : nat := 1514.

Record DeviceCapabilities : Type := mk_caps { max_transmission_unit : nat; max_burst_size : option nat; medium_ethernet : bool }.
Definition capabilities : DeviceCapabilities := mk_caps MTU (Some 1) true.

Section device.
Context {W : Type} `{!NetDevice W}.

(** [SmoltcpRxToken::consume]: [f] looks at the frame. *)
Definition rx_consume {R : Type} (f : list Z → R) (x : W) : exec (R * W) :=
  '(r, buf, x) ← nd_receive (replicate MTU 0%Z) x;
  let len := match r with inr len => len | inl _ => 0 end in
  frame ← prefix_exec buf len;
  Done (f frame, x).

(** [SmoltcpTxToken::consume]: [f] fills the slice it is given. *)
Definition tx_consume {R : Type} (len : nat) (f : list Z → R * list Z) (x : W) : exec (R * W) :=
  buf ← prefix_exec (replicate MTU 0%Z) len;
  let '(result, buf) := f buf in
  '(_, x) ← nd_transmit buf x;
  Done (result, x).

(** [SmoltcpDevice::receive] and [transmit]: whether there are tokens. *)
Definition device_receive (x : W) : exec (bool * W) := nd_has_rx_data x.
Definition device_transmit : bool := true.
End device.

(** ** [posix.rs] *)

Inductive PosixError : Type := EACCES | EAFNOSUPPORT | EINVAL | ENOMEM | EAGAIN | EWOULDBLOCK | ENOTCONN | ECONNREFUSED | EADDRINUSE | ENOBUFS | EBADF.
Inductive AddressFamily : Type := Inet | Inet6.
Inductive SocketType : Type := Stream | Dgram | RawSocket.
Inductive Protocol : Type := Tcp | Udp | Icmp | AnyProtocol.
Record SocketAddrV4 : Type := mk_addr { sa_ip : list Z; sa_port : Z }.
#[export] Instance AddressFamily_eq_dec : EqDecision AddressFamily.
Proof. solve_decision. Defined.

(** The methods of [SocketProvider]. *)
Inductive SocketCall : Type :=
  | CSocket (domain : AddressFamily) (ty : SocketType) (proto : Protocol)
  | CBind (fd : nat) (addr : SocketAddrV4)
  | CConnect (fd : nat) (addr : SocketAddrV4)
  | CListen (fd backlog : nat)
  | CAccept (fd : nat)
  | CSend (fd : nat) (buf : list Z)
  | CRecv (fd len : nat)
  | CSendTo (fd : nat) (buf : list Z) (addr : SocketAddrV4)
  | CRecvFrom (fd len : nat)
  | CClose (fd : nat).

(** What a call returns: a number, bytes received, or nothing. *)
Inductive Reply : Type := RNumber (n : nat) | RBytes (bs : list Z) | RFrom (bs : list Z) (addr : SocketAddrV4) | RUnit.

(** ** The protocol stack *)

(** A UDP socket: [None] and [false] are errors. *)
Class UdpStack (U : Type) : Type := {
  udp_new : U;
  udp_bind : Z → U → bool * U;
  udp_recv_slice : nat → U → option (list Z * SocketAddrV4) * U;
  udp_send_slice : list Z → SocketAddrV4 → U → bool * U;
}.

(** The client of DHCP, which reports what it was given or has lost. *)
Inductive DhcpEvent : Type := Configured (address : Z) (router : option Z) | Deconfigured.
Class DhcpStack (D : Type) : Type := {
  dhcp_new : D;
  dhcp_poll : D → option DhcpEvent * D;
}.

Inductive AnySocket (U D : Type) : Type := UdpSock (u : U) | DhcpSock (d : D).
Arguments UdpSock {U D}. Arguments DhcpSock {U D}.

(** A set of sockets: adding to a full one, and a handle without a socket,
    panic. *)
Class SocketSet (S H U D : Type) : Type := {
  ss_new : nat → S;
  ss_add : AnySocket U D → S → exec (H * S);
  ss_remove : H → S → exec S;
  ss_get : H → S → exec (AnySocket U D);
  ss_put : H → AnySocket U D → S → S;
}.

(** The interface; [if_poll] moves frames between the sockets and a device.  A
    table of routes without room is an error; an address that is not unicast
    panics. *)
Class NetIface (I S W : Type) `{!NetDevice W} : Type := {
  if_new : list Z → Z → W → I * W;
  if_poll : Z → I → S → W → exec (I * S * W);
  if_add_default_route : Z → I → option I;
  if_remove_default_route : I → I;
  if_update_ip_addrs : (list Z → list Z) → I → exec I;
}.
(** [IFACE_MAX_ADDR_COUNT], the capacity of the list of addresses. *)
Definition IFACE_MAX_ADDR_COUNT : nat := 2.
Definition heapless_push (a : Z) (l : list Z) : list Z := if length l <? IFACE_MAX_ADDR_COUNT then l ++ [a] else l.

Section net.
Context {S H U D I W : Type} `{!NetDevice W} `{!UdpStack U} `{!DhcpStack D} `{!SocketSet S H U D} `{!NetIface I S W}.

(** [get_mut::<UdpSocket>] and [get_mut::<DhcpSocket>] panic on a socket of
    the other kind. *)
Definition get_udp (h : H) (s : S) : exec U := a ← ss_get h s; match a with UdpSock u => Done u | DhcpSock _ => Stuck end.
Definition get_dhcp (h : H) (s : S) : exec D := a ← ss_get h s; match a with DhcpSock d => Done d | UdpSock _ => Stuck end.

(** ** [smoltcp/mod.rs] and the statics of [smoltcp/socket.rs] *)

Record NetStack : Type := mk_net {
  NETWORK_IFACE : option I;
  RX_TX_DEVICE : bool;
  NETWORK_SOCKETS : option S;
  DHCP_HANDLE : option H;
  UDP_IN_USE : bool;
  HANDLE_POOL : list (option H);
}.
Definition net_boot : NetStack := mk_net None false None None false (replicate 4 None).
Definition SOCKETS_STORAGE_LEN : nat := 8.

Definition set_sockets (st : NetStack) (s : S) : NetStack :=
  mk_net (NETWORK_IFACE st) (RX_TX_DEVICE st) (Some s) (DHCP_HANDLE st) (UDP_IN_USE st) (HANDLE_POOL st).
Definition set_in_use (st : NetStack) (b : bool) : NetStack :=
  mk_net (NETWORK_IFACE st) (RX_TX_DEVICE st) (NETWORK_SOCKETS st) (DHCP_HANDLE st) b (HANDLE_POOL st).
Definition set_pool (st : NetStack) (p : list (option H)) : NetStack :=
  mk_net (NETWORK_IFACE st) (RX_TX_DEVICE st) (NETWORK_SOCKETS st) (DHCP_HANDLE st) (UDP_IN_USE st) p.

(** [net::init], on a platform that has a network device or not. *)
Definition net_init (has_device : bool) (time_us : Z) (st : NetStack) (x : W) : exec (NetStack * W) :=
  if negb has_device then Done (st, x) else
  '(mac, x) ← nd_mac_address x;
  let '(iface, x) := if_new mac time_us x in
  '(handle, socket_set) ← ss_add (DhcpSock dhcp_new) (ss_new SOCKETS_STORAGE_LEN);
  Done (mk_net (Some iface) true (Some socket_set) (Some handle) (UDP_IN_USE st) (HANDLE_POOL st), x).

(** The arms of [match event]. *)
Definition handle_dhcp_event (event : DhcpEvent) (iface : I) : exec I :=
  match event with
  | Configured address router =>
      iface ← match router with Some router => get_exec (if_add_default_route router iface) | None => Done iface end;
      if_update_ip_addrs (λ ip_addrs, heapless_push address []) iface
  | Deconfigured =>
      iface ← if_update_ip_addrs (λ ip_addrs, []) iface;
      Done (if_remove_default_route iface)
  end.

Definition net_poll (time_us : Z) (st : NetStack) (x : W) : exec (NetStack * W) :=
  match NETWORK_IFACE st, RX_TX_DEVICE st, NETWORK_SOCKETS st with
  | Some iface, true, Some sockets =>
      '(iface, sockets, x) ← if_poll time_us iface sockets x;
      '(iface, sockets) ← match DHCP_HANDLE st with
        | Some handle =>
            dhcp_socket ← get_dhcp handle sockets;
            let '(event, dhcp_socket) := dhcp_poll dhcp_socket in
            let sockets := ss_put handle (DhcpSock dhcp_socket) sockets in
            iface ← match event with Some event => handle_dhcp_event event iface | None => Done iface end;
            Done (iface, sockets)
        | None => Done (iface, sockets)
        end;
      Done (mk_net (Some iface) true (Some sockets) (DHCP_HANDLE st) (UDP_IN_USE st) (HANDLE_POOL st), x)
  | _, _, _ => Done (st, x)
  end.

(** ** [smoltcp/socket.rs] *)

(** The first free slot; the loop of [allocate_fd]. *)
Fixpoint free_slot (i : nat) (pool : list (option H)) : option nat :=
  match pool with
  | [] => None
  | None :: _ => Some i
  | Some _ :: pool => free_slot (Datatypes.S i) pool
  end.

Definition allocate_fd (handle : H) (st : NetStack) : (PosixError + nat) * NetStack :=
  match free_slot 0 (HANDLE_POOL st) with
  | Some i => (inr i, set_pool st (<[i := Some handle]> (HANDLE_POOL st)))
  | None => (inl ENOMEM, st)
  end.

Definition get_handle (fd : nat) (st : NetStack) : PosixError + H :=
  match HANDLE_POOL st !! fd with Some (Some h) => inr h | _ => inl EBADF end.

Definition free_fd (fd : nat) (st : NetStack) : NetStack :=
  if fd <? length (HANDLE_POOL st) then set_pool st (<[fd := None]> (HANDLE_POOL st)) else st.

Definition net_socket (domain : AddressFamily) (ty : SocketType) (proto : Protocol) (st : NetStack) : exec ((PosixError + nat) * NetStack) :=
  if negb (bool_decide (domain = Inet)) then Done (inl EAFNOSUPPORT, st) else
  match ty, proto with
  | Dgram, Udp | Dgram, AnyProtocol =>
      if UDP_IN_USE st then Done (inl ENOBUFS, st) else
      let st := set_in_use st true in
      match NETWORK_SOCKETS st with
      | Some sockets =>
          '(handle, sockets) ← ss_add (UdpSock udp_new) sockets;
          let '(r, st) := allocate_fd handle (set_sockets st sockets) in
          match r with
          | inr fd => Done (inr fd, st)
          | inl e => sockets ← ss_remove handle sockets; Done (inl e, set_in_use (set_sockets st sockets) false)
          end
      | None => Done (inl ENOMEM, st)
      end
  | _, _ => Done (inl EAFNOSUPPORT, st)
  end.

(** A call on the socket behind a descriptor: [get_handle], the lock of the
    set, [get_mut]. *)
Definition with_udp (fd : nat) (st : NetStack) (f : U → (PosixError + Reply) * U) : exec ((PosixError + Reply) * NetStack) :=
  match get_handle fd st with
  | inl e => Done (inl e, st)
  | inr handle =>
      match NETWORK_SOCKETS st with
      | Some sockets =>
          socket ← get_udp handle sockets;
          let '(r, socket) := f socket in
          Done (r, set_sockets st (ss_put handle (UdpSock socket) sockets))
      | None => Done (inl ENOTCONN, st)
      end
  end.

Definition udp_do_bind (addr : SocketAddrV4) (u : U) : (PosixError + Reply) * U :=
  let '(ok, u) := udp_bind (sa_port addr) u in (if ok then inr RUnit else inl EINVAL, u).
Definition udp_do_recv (len : nat) (u : U) : (PosixError + Reply) * U :=
  let '(r, u) := udp_recv_slice len u in (match r with Some (bs, _) => inr (RBytes bs) | None => inl EAGAIN end, u).
Definition udp_do_send_to (buf : list Z) (addr : SocketAddrV4) (u : U) : (PosixError + Reply) * U :=
  let '(ok, u) := udp_send_slice buf addr u in (if ok then inr (RNumber (length buf)) else inl ENOBUFS, u).
Definition udp_do_recv_from (len : nat) (u : U) : (PosixError + Reply) * U :=
  let '(r, u) := udp_recv_slice len u in (match r with Some (bs, from) => inr (RFrom bs from) | None => inl EAGAIN end, u).

Definition net_bind (fd : nat) (addr : SocketAddrV4) (st : NetStack) := with_udp fd st (udp_do_bind addr).
Definition net_connect (_ : nat) (_ : SocketAddrV4) (st : NetStack) : exec ((PosixError + Reply) * NetStack) := Done (inr RUnit, st).
Definition net_listen (_ _ : nat) (st : NetStack) : exec ((PosixError + Reply) * NetStack) := Done (inl EINVAL, st).
Definition net_accept (_ : nat) (st : NetStack) : exec ((PosixError + Reply) * NetStack) := Done (inl EINVAL, st).
Definition net_send (_ : nat) (_ : list Z) (st : NetStack) : exec ((PosixError + Reply) * NetStack) := Done (inl ENOTCONN, st).
Definition net_recv (fd len : nat) (st : NetStack) := with_udp fd st (udp_do_recv len).
Definition net_send_to (fd : nat) (buf : list Z) (addr : SocketAddrV4) (st : NetStack) := with_udp fd st (udp_do_send_to buf addr).
Definition net_recv_from (fd len : nat) (st : NetStack) := with_udp fd st (udp_do_recv_from len).

Definition net_close (fd : nat) (st : NetStack) : exec ((PosixError + Reply) * NetStack) :=
  match get_handle fd st with
  | inl e => Done (inl e, st)
  | inr handle =>
      match NETWORK_SOCKETS st with
      | Some sockets =>
          sockets ← ss_remove handle sockets;
          Done (inr RUnit, set_in_use (free_fd fd (set_sockets st sockets)) false)
      | None => Done (inl ENOTCONN, st)
      end
  end.

Definition net_call (c : SocketCall) (st : NetStack) : exec ((PosixError + Reply) * NetStack) :=
  match c with
  | CSocket domain ty proto => '(r, st) ← net_socket domain ty proto st; Done (match r with inr fd => inr (RNumber fd) | inl e => inl e end, st)
  | CBind fd addr => net_bind fd addr st
  | CConnect fd addr => net_connect fd addr st
  | CListen fd backlog => net_listen fd backlog st
  | CAccept fd => net_accept fd st
  | CSend fd buf => net_send fd buf st
  | CRecv fd len => net_recv fd len st
  | CSendTo fd buf addr => net_send_to fd buf addr st
  | CRecvFrom fd len => net_recv_from fd len st
  | CClose fd => net_close fd st
  end.
End net.
