(* ===== verification/NetProps.v ===== *)
(** * What the network promises

    The adapter over the Ethernet controller of [Lan9118], and the sockets
    against a specification with one socket. *)

From S2P Require Export Prelude.
From S2P Require Export Str.
From S2P Require Export Lan9118.
From S2P Require Export Net.

(** ** Frames through the adapter *)

(** What the stack does with a device: send a frame, or take one if there is
    one. *)
Inductive PhyOp : Type := PSend (frame : list Z) | PRecv.

Section phy.
Context {W : Type} `{!NetDevice W}.

Definition phy_step (op : PhyOp) (x : W) : exec (list (option (list Z)) * W) :=
  match op with
  | PSend frame => '(_, x) ← tx_consume (length frame) (λ _, (tt, frame)) x; Done ([], x)
  | PRecv =>
      '(some, x) ← device_receive x;
      if (some : bool) then '(frame, x) ← rx_consume Datatypes.id x; Done ([Some frame], x) else Done ([None], x)
  end.

Fixpoint phy_run (ops : list PhyOp) (x : W) : exec (list (option (list Z)) * W) :=
  match ops with
  | [] => Done ([], x)
  | op :: ops => '(r, x) ← phy_step op x; '(rs, x) ← phy_run ops x; Done (r ++ rs, x)
  end.
End phy.

Definition frames_sent (ops : list PhyOp) : list (list Z) := omap (λ op, match op with PSend frame => Some frame | PRecv => None end) ops.

(** What the stack sees of a frame: a damaged one is empty. *)
Definition seen (f : RxFrame) : list Z := if f_error f then [] else take MTU (f_bytes f).

(** The answers while at least [w] frames wait: a frame is refused only when
    none waits, and the frames come in their order. *)
Inductive received : nat → list (option (list Z)) → list RxFrame → Prop :=
  | rc_nil w : received w [] []
  | rc_none rs fs : received 0 rs fs → received 0 (None :: rs) fs
  | rc_frame w rs f fs : received (pred w) rs fs → received w (Some (seen f) :: rs) (f :: fs)
  | rc_more w w' rs fs : w <= w' → received w' rs fs → received w rs fs.

Section lan.
Context {W : Type} `{!Bus W} (V : LanView W) (spin : nat) (u : Lan9118) (Hl : lan_laws V spin u).
#[local] Instance lan_dev : NetDevice W := lan_net_device spin u.

Definition frame_fits (frame : list Z) : Prop := byte_list frame ∧ length frame <= MTU.

Lemma send_step (frame : list Z) (x : W) : frame_fits frame →
  ∃ x', phy_step (PSend frame) x = Done ([], x') ∧ sends V (frame_words frame) x x'.
Proof.
  intros [_ Hlen]. cbn [phy_step]. unfold tx_consume, prefix_exec. rewrite length_replicate. unfold MTU in *.
  rewrite (proj2 (Nat.leb_le _ _)) by done. cbn [mbind exec_bind].
  destruct (transmit_spec V spin u Hl frame x) as (x'&Ht&Hs); [lia|]. cbn [nd_transmit lan_dev lan_net_device]. rewrite Ht. cbn [mbind exec_bind]. by exists x'.
Qed.

Lemma recv_step (x : W) : lv_words V x = [] →
  ∃ r fs x', phy_step PRecv x = Done ([r], x') ∧ takes V fs x x' ∧ lv_words V x' = []
  ∧ match r with None => lv_frames V x = [] ∧ fs = [] | Some frame => ∃ f, fs = [f] ∧ frame = seen f end.
Proof.
  intros Hw. cbn [phy_step]. unfold device_receive. cbn [nd_has_rx_data lan_dev lan_net_device mbind exec_bind].
  destruct (has_rx_data_spec V spin u Hl x) as (x1&->&Hd&Hm). pose proof (kept_takes V _ _ Hd Hm) as Ht. pose proof (dk_words _ _ _ Hd) as Hw1. rewrite Hw in Hw1.
  case_bool_decide as Hf; cbn [negb]; [by exists None, [], x1|].
  unfold rx_consume. cbn [nd_receive lan_dev lan_net_device mbind exec_bind].
  pose proof (receive_spec V spin u Hl (replicate MTU 0%Z) x1 Hw1) as Hr. destruct (dk_arrives _ _ _ Hd) as (new&Hf1&Hn).
  destruct (lv_frames V x) as [|f fs] eqn:E; [done|]. rewrite Hf1 in Hr. cbn [app] in Hr. destruct Hr as (x'&->&Ht'&Hw'). unfold outcome.
  assert (Htake : takes V [f] x x').
  { destruct Ht as [m c s _]. destruct Ht' as [m' c' s' (n'&Hf'&Hl')]. split; [intros k; by rewrite m'|intros o; by rewrite c'|by rewrite s'|].
    exists (new ++ n'). split; [by rewrite E, app_assoc, <- Hf1|by rewrite Hn, Hl', app_assoc]. }
  exists (Some (seen f)), [f], x'. split_and!; [|done|done|by exists f]. unfold seen. rewrite length_replicate.
  destruct (f_error f); cbn [mbind exec_bind]; [by rewrite prefix_exec_Done by (cbn; lia)|].
  assert (Hok : frame_ok f) by (pose proof (ll_frames _ _ _ Hl x) as H; rewrite E in H; by apply Forall_inv in H).
  pose proof (length_f_bytes f Hok) as Hlen. set (k := Nat.min (f_len f) MTU).
  assert (Hk : length (take k (f_bytes f)) = k) by (rewrite length_take; lia).
  rewrite prefix_exec_Done by (rewrite length_app; lia). cbn [mbind exec_bind]. rewrite take_app_le, take_take by lia. rewrite Nat.min_id.
  f_equal. f_equal. f_equal. f_equal. unfold Datatypes.id, k. destruct (Nat.min_spec (f_len f) MTU) as [[? ->]|[? ->]]; [|done].
  by rewrite !take_ge by lia.
Qed.

Lemma phy_run_spec (ops : list PhyOp) : Forall (λ op, match op with PSend frame => frame_fits frame | PRecv => True end) ops →
  ∀ x, lan_up V x → ∃ rs x' taken, phy_run ops x = Done (rs, x') ∧ lan_up V x'
  ∧ lv_sent V x' = lv_sent V x ++ concat (frame_words <$> frames_sent ops)
  ∧ lan_stream V x = taken ++ lan_stream V x' ∧ received (length (lv_frames V x)) rs taken.
Proof.
  induction 1 as [|op ops Hop _ IH]; intros x Hup.
  - exists [], x, []. cbn. rewrite app_nil_r. split_and!; [done..|constructor].
  - cbn [phy_run]. destruct op as [frame|].
    + destruct (send_step frame x Hop) as (x1&->&Hs). cbn [mbind exec_bind].
      destruct (IH x1 (lan_up_sends V _ _ _ Hs Hup)) as (rs&x'&taken&->&Hup'&Hsent&Hst&Hr). cbn [mbind exec_bind]. exists rs, x', taken.
      split_and!; [done..| | |].
      * rewrite Hsent, (se_sent _ _ _ _ Hs). by rewrite <- app_assoc.
      * by rewrite <- Hst, (arrives_stream V _ _ (se_arrives _ _ _ _ Hs)).
      * eapply rc_more; [|exact Hr]. destruct (se_arrives _ _ _ _ Hs) as (new&->&_). rewrite length_app. lia.
    + destruct (recv_step x (lu_words _ _ Hup)) as (r&fs&x1&->&Ht&Hw&Hcase). cbn [mbind exec_bind].
      assert (Hup1 : lan_up V x1) by (destruct Ht as [m c _ _], Hup; split; rewrite ?m, ?c; done).
      destruct (IH x1 Hup1) as (rs&x'&taken&->&Hup'&Hsent&Hst&Hr). cbn [mbind exec_bind].
      pose proof (takes_stream V _ _ _ Ht) as Hst1. exists (r :: rs), x', (fs ++ taken).
      split_and!; [done..|by rewrite Hsent, (tk_sent _ _ _ _ Ht)|by rewrite Hst1, Hst, app_assoc|].
      destruct (tk_arrives _ _ _ _ Ht) as (new&Hf&_). apply (f_equal length) in Hf. rewrite !length_app in Hf.
      destruct r as [frame|]; [destruct Hcase as (f&->&->)|destruct Hcase as [E ->]]; cbn [length app] in *.
      * apply rc_frame. eapply rc_more; [|exact Hr]. lia.
      * rewrite E. apply rc_none. eapply rc_more; [|exact Hr]. lia.
Qed.
End lan.

(** ** The sockets against one that is open or not *)

Section sockets.
Context {St Hd U D I W : Type} `{!NetDevice W} `{!UdpStack U} `{!DhcpStack D} `{!SocketSet St Hd U D} `{!NetIface I St W}.

Definition same_kind (a b : option (AnySocket U D)) : Prop :=
  match a, b with
  | None, None | Some (UdpSock _), Some (UdpSock _) | Some (DhcpSock _), Some (DhcpSock _) => True
  | _, _ => False
  end.

(** What the crate promises of a set with a capacity, and of the interface:
    polling keeps the sockets that are there, an address must be unicast, and
    the table of routes has room for the default route. *)
Record stack_laws (view : St → Hd → option (AnySocket U D)) (used cap : St → nat) (addrs : I → list Z) (route : I → option Z) (unicast : Z → Prop) : Prop := {
  sl_new : ∀ n, used (ss_new n) = 0 ∧ cap (ss_new n) = n;
  sl_add : ∀ a s, used s < cap s → ∃ h s', ss_add a s = Done (h, s') ∧ view s h = None ∧ view s' h = Some a
    ∧ (∀ h', h' ≠ h → view s' h' = view s h') ∧ used s' = S (used s) ∧ cap s' = cap s;
  sl_remove : ∀ h a s, view s h = Some a → ∃ s', ss_remove h s = Done s' ∧ view s' h = None
    ∧ (∀ h', h' ≠ h → view s' h' = view s h') ∧ used s = S (used s') ∧ cap s' = cap s;
  sl_get : ∀ h a s, view s h = Some a → ss_get h s = Done a;
  sl_put : ∀ h a b s, view s h = Some a → view (ss_put h b s) h = Some b
    ∧ (∀ h', h' ≠ h → view (ss_put h b s) h' = view s h') ∧ used (ss_put h b s) = used s ∧ cap (ss_put h b s) = cap s;
  sl_if_new : ∀ mac t x i x', if_new mac t x = (i, x') → addrs i = [] ∧ route i = None;
  sl_poll : ∀ t i s x, ∃ i' s' x', if_poll t i s x = Done (i', s', x') ∧ addrs i' = addrs i ∧ route i' = route i
    ∧ (∀ h, same_kind (view s h) (view s' h)) ∧ used s' = used s ∧ cap s' = cap s;
  sl_add_route : ∀ r i, ∃ i', if_add_default_route r i = Some i' ∧ addrs i' = addrs i ∧ route i' = Some r;
  sl_remove_route : ∀ i, addrs (if_remove_default_route i) = addrs i ∧ route (if_remove_default_route i) = None;
  sl_addrs : ∀ f i, Forall unicast (f (addrs i)) → ∃ i', if_update_ip_addrs f i = Done i' ∧ addrs i' = f (addrs i) ∧ route i' = route i;
  sl_dhcp : ∀ d a r d', dhcp_poll d = (Some (Configured a r), d') → unicast a;
}.

(** *** The specification: one socket, the addresses and the default route *)

Record NetSpec : Type := mk_spec { sp_udp : option U; sp_addrs : list Z; sp_route : option Z }.

Definition udp_kind (ty : SocketType) (proto : Protocol) : bool := match ty, proto with Dgram, Udp | Dgram, AnyProtocol => true | _, _ => false end.

Definition on_udp (fd : nat) (o : option U) (f : U → (PosixError + Reply) * U) : (PosixError + Reply) * option U :=
  match fd, o with
  | 0, Some u => let '(r, u) := f u in (r, Some u)
  | _, _ => (inl EBADF, o)
  end.

Definition spec_call (c : SocketCall) (o : option U) : (PosixError + Reply) * option U :=
  match c with
  | CSocket domain ty proto =>
      if negb (bool_decide (domain = Inet) && udp_kind ty proto) then (inl EAFNOSUPPORT, o)
      else match o with Some _ => (inl ENOBUFS, o) | None => (inr (RNumber 0), Some udp_new) end
  | CBind fd addr => on_udp fd o (udp_do_bind addr)
  | CConnect _ _ => (inr RUnit, o)
  | CListen _ _ | CAccept _ => (inl EINVAL, o)
  | CSend _ _ => (inl ENOTCONN, o)
  | CRecv fd len => on_udp fd o (udp_do_recv len)
  | CSendTo fd buf addr => on_udp fd o (udp_do_send_to buf addr)
  | CRecvFrom fd len => on_udp fd o (udp_do_recv_from len)
  | CClose fd => match fd, o with 0, Some _ => (inr RUnit, None) | _, _ => (inl EBADF, o) end
  end.

(** The lease that is in force after an event. *)
Definition lease (ev : option DhcpEvent) (l : list Z * option Z) : list Z * option Z :=
  match ev with
  | None => l
  | Some (Configured a (Some r)) => ([a], Some r)
  | Some (Configured a None) => ([a], l.2)
  | Some Deconfigured => ([], None)
  end.

Inductive NetOp : Type := OCall (c : SocketCall) | OPoll (time_us : Z).

(** A poll may bring data to an open socket, and an event of the client. *)
Inductive spec_run : list NetOp → NetSpec → list (PosixError + Reply) → NetSpec → Prop :=
  | sr_nil sp : spec_run [] sp [] sp
  | sr_call c ops sp r o rs sp' : spec_call c (sp_udp sp) = (r, o) → spec_run ops (mk_spec o (sp_addrs sp) (sp_route sp)) rs sp' →
      spec_run (OCall c :: ops) sp (r :: rs) sp'
  | sr_poll t ops sp o ev rs sp' : is_Some o ↔ is_Some (sp_udp sp) →
      spec_run ops (mk_spec o (lease ev (sp_addrs sp, sp_route sp)).1 (lease ev (sp_addrs sp, sp_route sp)).2) rs sp' →
      spec_run (OPoll t :: ops) sp rs sp'.

Fixpoint net_run (ops : list NetOp) (st : @NetStack St Hd I) (x : W) : exec (list (PosixError + Reply) * @NetStack St Hd I * W) :=
  match ops with
  | [] => Done ([], st, x)
  | OCall c :: ops => '(r, st) ← net_call (D := D) c st; '(rs, st, x) ← net_run ops st x; Done (r :: rs, st, x)
  | OPoll t :: ops => '(st, x) ← net_poll (U := U) (D := D) t st x; net_run ops st x
  end.

Context (view : St → Hd → option (AnySocket U D)) (used cap : St → nat) (addrs : I → list Z) (route : I → option Z) (unicast : Z → Prop)
  (Hlaws : stack_laws view used cap addrs route unicast).

(** The state is set up and stands for the specification's: the client of DHCP
    has its socket, and the flag, the descriptor and the set agree on ours. *)
Record refines (st : @NetStack St Hd I) (sp : NetSpec) : Prop := {
  rf_dev : RX_TX_DEVICE st = true;
  rf_iface : ∃ i, NETWORK_IFACE st = Some i ∧ addrs i = sp_addrs sp ∧ route i = sp_route sp;
  rf_sockets : ∃ s hd d, NETWORK_SOCKETS st = Some s ∧ DHCP_HANDLE st = Some hd ∧ view s hd = Some (DhcpSock d) ∧ cap s = SOCKETS_STORAGE_LEN
    ∧ match sp_udp sp with
      | None => UDP_IN_USE st = false ∧ HANDLE_POOL st = replicate 4 None ∧ used s = 1
      | Some u => UDP_IN_USE st = true ∧ ∃ h, HANDLE_POOL st = Some h :: replicate 3 None ∧ h ≠ hd ∧ view s h = Some (UdpSock u) ∧ used s = 2
      end;
}.

Lemma get_handle_spec (fd : nat) (st : @NetStack St Hd I) (sp : NetSpec) : refines st sp →
  match fd, sp_udp sp with
  | 0, Some u => ∃ h s, get_handle fd st = inr h ∧ NETWORK_SOCKETS st = Some s ∧ view s h = Some (UdpSock u)
  | _, _ => get_handle fd st = inl EBADF
  end.
Proof.
  intros [_ _ (s&hd&d&Hs&_&_&_&Hu)]. unfold get_handle. destruct (sp_udp sp) as [u|].
  - destruct Hu as (_&h&->&_&Hv&_). destruct fd as [|fd]; [by exists h, s|]. cbn. by destruct fd as [|[|[|]]].
  - destruct Hu as (_&->&_). by destruct fd as [|[|[|[|]]]].
Qed.

Lemma get_handle_other (fd : nat) (st : @NetStack St Hd I) (sp : NetSpec) : refines st sp → (fd ≠ 0 ∨ sp_udp sp = None) → get_handle fd st = inl EBADF.
Proof. intros Hr Hfd. pose proof (get_handle_spec fd st sp Hr) as Hg. destruct fd as [|fd]; [|done]. destruct Hfd as [?| E]; [done|]. by rewrite E in Hg. Qed.

Lemma on_udp_other (fd : nat) (o : option U) f : (fd ≠ 0 ∨ o = None) → on_udp fd o f = (inl EBADF, o).
Proof. intros [Hfd| ->]; [|by destruct fd]. by destruct fd. Qed.

Lemma with_udp_spec (fd : nat) (f : U → (PosixError + Reply) * U) (st : @NetStack St Hd I) (sp : NetSpec) : refines st sp →
  ∃ st', with_udp (D := D) fd st f = Done ((on_udp fd (sp_udp sp) f).1, st') ∧ refines st' (mk_spec (on_udp fd (sp_udp sp) f).2 (sp_addrs sp) (sp_route sp)).
Proof.
  intros Hr. unfold with_udp. destruct (decide (fd ≠ 0 ∨ sp_udp sp = None)) as [Hfd|Hfd].
  - rewrite (get_handle_other fd st sp Hr Hfd), (on_udp_other _ _ _ Hfd). exists st. split; [done|]. by destruct sp.
  - assert (fd = 0) as -> by (destruct fd; [done|]; exfalso; apply Hfd; by left). destruct Hr as [Hdev Hi (s&hd&d&Hs&Hh&Hv&Hc&Hu)].
    destruct (sp_udp sp) as [u|]; [|exfalso; apply Hfd; by right]. destruct Hu as (Hin&h&Hp&Hne&Hvu&Hus).
    unfold get_handle. rewrite Hp, Hs. cbn [lookup list_lookup]. unfold get_udp. rewrite (sl_get _ _ _ _ _ _ Hlaws _ _ _ Hvu). cbn [mbind exec_bind on_udp].
    destruct (f u) as [r u']. exists (set_sockets st (ss_put h (UdpSock u') s)). split; [done|].
    destruct (sl_put _ _ _ _ _ _ Hlaws h (UdpSock u) (UdpSock u') s Hvu) as (Hv1&Hv2&Hus'&Hc'). split; [done|done|].
    exists (ss_put h (UdpSock u') s), hd, d. split_and!; [done|done|by rewrite Hv2 by done|by rewrite Hc'|split; [done|]].
    exists h. split_and!; [done|done|done|by rewrite Hus'].
Qed.

Lemma net_socket_spec (ty : SocketType) (proto : Protocol) (domain : AddressFamily) (st : @NetStack St Hd I) (sp : NetSpec) : refines st sp →
  ∃ st', net_call (D := D) (CSocket domain ty proto) st = Done ((spec_call (CSocket domain ty proto) (sp_udp sp)).1, st')
  ∧ refines st' (mk_spec (spec_call (CSocket domain ty proto) (sp_udp sp)).2 (sp_addrs sp) (sp_route sp)).
Proof.
  intros Hr. cbn [net_call spec_call]. unfold net_socket.
  assert (Hsame : refines st (mk_spec (sp_udp sp) (sp_addrs sp) (sp_route sp))) by (by destruct sp).
  destruct (bool_decide (domain = Inet)); cbn [negb andb]; [|by exists st].
  assert (Hcase : udp_kind ty proto = true ∨ udp_kind ty proto = false) by (destruct (udp_kind ty proto); auto).
  destruct Hcase as [Hk|Hk]; rewrite Hk; cbn [negb]; [|destruct ty, proto; try done; by exists st].
  set (body := if UDP_IN_USE st then _ else _). replace (match ty with Stream => _ | Dgram => _ | RawSocket => _ end) with body by (by destruct ty, proto).
  subst body. pose proof Hr as [Hdev Hi (s&hd&d&Hs&Hh&Hv&Hc&Hu)]. destruct (sp_udp sp) as [u|] eqn:Eu.
  - destruct Hu as (->&_). exists st. split; [done|]. done.
  - destruct Hu as (->&Hp&Hus). destruct (sl_add _ _ _ _ _ _ Hlaws (UdpSock udp_new) s) as (h&s'&Hadd&Hn&Hv1&Hv2&Hus'&Hc'); [rewrite Hus, Hc; unfold SOCKETS_STORAGE_LEN; lia|].
    cbn [NETWORK_SOCKETS set_in_use]. rewrite Hs, Hadd. cbn [mbind exec_bind]. unfold allocate_fd. cbn [HANDLE_POOL set_sockets set_in_use]. rewrite Hp. cbn [free_slot replicate].
    eexists. split; [done|]. cbn [fst snd]. assert (Hne : h ≠ hd) by (intros ->; by rewrite Hv in Hn).
    split; [done|done|]. exists s', hd, d. split_and!; [done|done|by rewrite Hv2 by done|by rewrite Hc'|split; [done|]]. exists h. split_and!; [done..|by rewrite Hus', Hus].
Qed.

Lemma net_close_spec (fd : nat) (st : @NetStack St Hd I) (sp : NetSpec) : refines st sp →
  ∃ st', net_close (U := U) (D := D) fd st = Done ((spec_call (CClose fd) (sp_udp sp)).1, st')
  ∧ refines st' (mk_spec (spec_call (CClose fd) (sp_udp sp)).2 (sp_addrs sp) (sp_route sp)).
Proof.
  intros Hr. unfold net_close. destruct (decide (fd ≠ 0 ∨ sp_udp sp = None)) as [Hfd|Hfd].
  - rewrite (get_handle_other fd st sp Hr Hfd). exists st. cbn [spec_call].
    assert (E : (match fd, sp_udp sp with 0, Some _ => (inr RUnit, None) | _, _ => (inl EBADF, sp_udp sp) end) = (inl EBADF, sp_udp sp) :> (PosixError + Reply) * option U).
    { destruct Hfd as [Hfd|E]; [by destruct fd|rewrite E; by destruct fd]. }
    rewrite E. split; [done|]. by destruct sp.
  - assert (fd = 0) as -> by (destruct fd; [done|]; exfalso; apply Hfd; by left). destruct Hr as [Hdev Hi (s&hd&d&Hs&Hh&Hv&Hc&Hu)].
    destruct (sp_udp sp) as [u|]; [|exfalso; apply Hfd; by right]. destruct Hu as (Hin&h&Hp&Hne&Hvu&Hus).
    unfold get_handle. rewrite Hp, Hs. cbn [lookup list_lookup].
    destruct (sl_remove _ _ _ _ _ _ Hlaws h _ s Hvu) as (s'&->&Hv1&Hv2&Hus'&Hc'). cbn [mbind exec_bind]. eexists. split; [done|]. cbn [spec_call snd].
    unfold free_fd. cbn [HANDLE_POOL set_sockets]. rewrite Hp. cbn [length Nat.ltb Nat.leb]. split; [done|done|].
    exists s', hd, d. split_and!; [done|done|by rewrite Hv2 by done|by rewrite Hc'|split_and!; [done|done|lia]].
Qed.

Lemma net_call_spec (c : SocketCall) (st : @NetStack St Hd I) (sp : NetSpec) : refines st sp →
  ∃ st', net_call (D := D) c st = Done ((spec_call c (sp_udp sp)).1, st') ∧ refines st' (mk_spec (spec_call c (sp_udp sp)).2 (sp_addrs sp) (sp_route sp)).
Proof.
  intros Hr. destruct c; [by apply net_socket_spec|..|by apply net_close_spec]; cbn [net_call]; try (by apply with_udp_spec).
  all: exists st; by destruct sp.
Qed.

Lemma dhcp_event_spec (ev : DhcpEvent) (i : I) : (∀ a r, ev = Configured a r → unicast a) →
  ∃ i', handle_dhcp_event ev i = Done i' ∧ (addrs i', route i') = lease (Some ev) (addrs i, route i).
Proof.
  intros Ha. destruct ev as [a r|]; cbn [handle_dhcp_event].
  - assert (Hi1 : ∃ i1, match r with Some router => get_exec (if_add_default_route router i) | None => Done i end = Done i1
      ∧ route i1 = match r with Some r => Some r | None => route i end).
    { destruct r as [r|]; [|by exists i]. destruct (sl_add_route _ _ _ _ _ _ Hlaws r i) as (i1&->&_&Hr). by exists i1. }
    destruct Hi1 as (i1&->&Hr1). cbn [mbind exec_bind].
    destruct (sl_addrs _ _ _ _ _ _ Hlaws (λ _, heapless_push a []) i1) as (i'&->&Ha'&Hr'); [constructor; [by eapply Ha|done]|].
    exists i'. split; [done|]. rewrite Ha', Hr', Hr1. by destruct r.
  - destruct (sl_addrs _ _ _ _ _ _ Hlaws (λ _, []) i) as (i1&->&Ha1&Hr1); [constructor|]. cbn [mbind exec_bind]. eexists. split; [done|].
    destruct (sl_remove_route _ _ _ _ _ _ Hlaws i1) as [-> ->]. by rewrite Ha1.
Qed.

Lemma net_poll_spec (t : Z) (st : @NetStack St Hd I) (sp : NetSpec) (x : W) : refines st sp →
  ∃ st' x' o ev, net_poll (U := U) (D := D) t st x = Done (st', x') ∧ (is_Some o ↔ is_Some (sp_udp sp))
  ∧ refines st' (mk_spec o (lease ev (sp_addrs sp, sp_route sp)).1 (lease ev (sp_addrs sp, sp_route sp)).2).
Proof.
  intros [Hdev (i&Hi&Ha&Hro) (s&hd&d&Hs&Hh&Hv&Hc&Hu)]. unfold net_poll. rewrite Hi, Hdev, Hs, Hh.
  destruct (sl_poll _ _ _ _ _ _ Hlaws t i s x) as (i1&s1&x1&->&Ha1&Hr1&Hk&Hus1&Hc1). cbn [mbind exec_bind].
  pose proof (Hk hd) as Hkd. rewrite Hv in Hkd. destruct (view s1 hd) as [[|d1]|] eqn:Hv1; try done. clear Hkd.
  unfold get_dhcp. rewrite (sl_get _ _ _ _ _ _ Hlaws _ _ _ Hv1). cbn [mbind exec_bind].
  destruct (dhcp_poll d1) as [ev d2] eqn:Hdp.
  destruct (sl_put _ _ _ _ _ _ Hlaws hd (DhcpSock d1) (DhcpSock d2) s1 Hv1) as (Hp1&Hp2&Hp3&Hp4). set (s2 := ss_put hd (DhcpSock d2) s1) in *.
  assert (Hev : ∃ i2, match ev with Some event => handle_dhcp_event event i1 | None => Done i1 end = Done i2
    ∧ (addrs i2, route i2) = lease ev (sp_addrs sp, sp_route sp)).
  { rewrite <- Ha, <- Hro, <- Ha1, <- Hr1. destruct ev as [ev|]; [|by exists i1]. apply dhcp_event_spec. intros a r ->. by eapply (sl_dhcp _ _ _ _ _ _ Hlaws). }
  destruct Hev as (i2&->&Hl). cbn [mbind exec_bind].
  assert (Ho : ∃ o, (is_Some o ↔ is_Some (sp_udp sp)) ∧ match o with
      | None => UDP_IN_USE st = false ∧ HANDLE_POOL st = replicate 4 None ∧ used s2 = 1
      | Some u => UDP_IN_USE st = true ∧ ∃ h, HANDLE_POOL st = Some h :: replicate 3 None ∧ h ≠ hd ∧ view s2 h = Some (UdpSock u) ∧ used s2 = 2 end).
  { destruct (sp_udp sp) as [u|].
    - destruct Hu as (Hin&h&Hpool&Hne&Hvu&Hus). pose proof (Hk h) as Hku. rewrite Hvu in Hku. destruct (view s1 h) as [[u1|]|] eqn:Hvu1; try done.
      exists (Some u1). split; [by split; intros _|]. split; [done|]. exists h. split_and!; [done|done|by rewrite Hp2|by rewrite Hp3, Hus1].
    - exists None. split; [done|]. by rewrite Hp3, Hus1. }
  destruct Ho as (o&Hso&Ho). eexists _, x1, o, ev. split; [done|]. split; [done|]. rewrite <- Hl. split; [done|by exists i2|].
  exists s2, hd, d2. split_and!; [done..|by rewrite Hp4, Hc1|]. exact Ho.
Qed.

Lemma net_run_spec (ops : list NetOp) : ∀ st sp x, refines st sp →
  ∃ rs st' x' sp', net_run ops st x = Done (rs, st', x') ∧ spec_run ops sp rs sp' ∧ refines st' sp'.
Proof.
  induction ops as [|[c|t] ops IH]; intros st sp x Hr; cbn [net_run].
  - exists [], st, x, sp. by split_and!; [|constructor|].
  - destruct (net_call_spec c st sp Hr) as (st1&->&Hr1). cbn [mbind exec_bind].
    destruct (IH st1 _ x Hr1) as (rs&st'&x'&sp'&->&Hs&Hr'). cbn [mbind exec_bind]. eexists _, st', x', sp'. split; [done|]. split; [|done].
    econstructor; [apply surjective_pairing|done].
  - destruct (net_poll_spec t st sp x Hr) as (st1&x1&o&ev&->&Ho&Hr1). cbn [mbind exec_bind].
    destruct (IH st1 _ x1 Hr1) as (rs&st'&x'&sp'&->&Hs&Hr'). eexists _, st', x', sp'. split; [done|]. split; [|done]. by econstructor.
Qed.

Lemma net_init_spec (t : Z) (x : W) : (∃ mac x', nd_mac_address x = Done (mac, x')) →
  ∃ st x', net_init (D := D) (I := I) true t net_boot x = Done (st, x') ∧ refines st (mk_spec None [] None).
Proof.
  intros (mac&x1&Hm). unfold net_init. rewrite Hm. cbn [negb mbind exec_bind]. destruct (if_new mac t x1) as [i x2] eqn:Hi.
  destruct (sl_if_new _ _ _ _ _ _ Hlaws _ _ _ _ _ Hi) as [Ha Hr].
  destruct (sl_new _ _ _ _ _ _ Hlaws SOCKETS_STORAGE_LEN) as (Hu&Hc).
  destruct (sl_add _ _ _ _ _ _ Hlaws (DhcpSock dhcp_new) (ss_new SOCKETS_STORAGE_LEN)) as (h&s&->&_&Hv&_&Hu1&Hc1); [rewrite Hu, Hc; unfold SOCKETS_STORAGE_LEN; lia|].
  cbn [mbind exec_bind]. eexists _, x2. split; [done|]. split; [done|by exists i|].
  exists s, h, dhcp_new. split_and!; [done|done|done|by rewrite Hc1|split_and!; [done|done|by rewrite Hu1, Hu]].
Qed.

(** Before the start-up the flag is taken and never given back: afterwards no
    call changes anything, and none opens a socket. *)
Lemma net_call_lost (c : SocketCall) (st : @NetStack St Hd I) : UDP_IN_USE st = true → HANDLE_POOL st = replicate 4 None →
  ∃ r, net_call (D := D) c st = Done (r, st) ∧ ∀ fd, r ≠ inr (RNumber fd).
Proof.
  intros Hu Hp. assert (Hg : ∀ fd, get_handle fd st = inl EBADF) by (intros fd; unfold get_handle; rewrite Hp; by destruct fd as [|[|[|[|]]]]).
  destruct c; cbn [net_call]; unfold net_bind, net_recv, net_send_to, net_recv_from, with_udp, net_close; rewrite ?Hg; try by eexists.
  unfold net_socket. rewrite Hu. destruct (bool_decide (domain = Inet)); cbn [negb]; [destruct ty, proto|]; by eexists.
Qed.
End sockets.

(** ** Properties *)

(** C26. Frames through the adapter and the Ethernet controller, for every
    history of sends and receives: the controller reads from the words it was
    given exactly the frames sent, in their order; the protocol stack sees the
    frames that arrived, in their order, damaged ones as empty and long ones
    cut to the size of a frame; it is told that there is none only when none
    waits; and the driver ends every call with the controller set up. *)
Theorem phy_carries_frames {W : Type} `{!Bus W} (V : LanView W) (spin : nat) (u : Lan9118) (ops : list PhyOp) (x : W) :
  lan_laws V spin u → lan_up V x →
  Forall (λ op, match op with PSend frame => frame_fits frame | PRecv => True end) ops →
  ∃ rs x' ws taken, @phy_run W (lan_net_device spin u) ops x = Done (rs, x') ∧ lan_up V x'
  ∧ lv_sent V x' = lv_sent V x ++ ws ∧ decode_tx (length (frames_sent ops)) ws = Some (frames_sent ops)
  ∧ lan_stream V x = taken ++ lan_stream V x' ∧ received (length (lv_frames V x)) rs taken.
Proof.
  intros Hl Hup Hops. destruct (phy_run_spec V spin u Hl ops Hops x Hup) as (rs&x'&taken&Hrun&Hup'&Hsent&Hst&Hr).
  exists rs, x', (concat (frame_words <$> frames_sent ops)), taken. split_and!; try done.
  apply decode_frames; [|done]. clear -Hops. unfold frames_sent. induction Hops as [|[frame|] ops Hop _ IH]; cbn; [constructor| |done].
  constructor; [|done]. destruct Hop as [Hb Hlen]. unfold MTU in Hlen. split; [done|lia].
Qed.

(** C27. The sockets after start-up, for every history of calls and polls: no
    call panics, and the replies are those of a machine that has one UDP socket
    or none, under the descriptor 0; an open socket is kept by every poll; the
    addresses and the default route are those of the leases the DHCP client
    reported. *)
Theorem sockets_refine {St Hd U D I W : Type} `{!NetDevice W} `{!UdpStack U} `{!DhcpStack D} `{!SocketSet St Hd U D} `{!NetIface I St W}
  (view : St → Hd → option (AnySocket U D)) (used cap : St → nat) (addrs : I → list Z) (route : I → option Z) (unicast : Z → Prop)
  (ops : list NetOp) (t : Z) (x mac_x : W) (mac : list Z) :
  stack_laws view used cap addrs route unicast → nd_mac_address x = Done (mac, mac_x) →
  ∃ st0 x0 rs st x' sp, net_init (D := D) (I := I) true t net_boot x = Done (st0, x0)
  ∧ net_run (U := U) (D := D) ops st0 x0 = Done (rs, st, x') ∧ spec_run ops (mk_spec None [] None) rs sp
  ∧ refines view used cap addrs route st sp.
Proof.
  intros Hlaws Hmac. destruct (net_init_spec view used cap addrs route unicast Hlaws t x) as (st0&x0&Hinit&Hr); [by exists mac, mac_x|].
  destruct (net_run_spec view used cap addrs route unicast Hlaws ops st0 _ x0 Hr) as (rs&st&x'&sp&Hrun&Hs&Hr'). by exists st0, x0, rs, st, x', sp.
Qed.

(** A socket asked for before the start-up takes the flag for ever: after the
    start-up, no call opens a socket. *)
Theorem socket_before_init_lost {St Hd U D I W : Type} `{!NetDevice W} `{!UdpStack U} `{!DhcpStack D} `{!SocketSet St Hd U D} `{!NetIface I St W}
  (t : Z) (x : W) (st0 : @NetStack St Hd I) (x0 : W) :
  ∃ st1, net_socket (D := D) (I := I) Inet Dgram Udp net_boot = Done (inl ENOMEM, st1)
  ∧ (net_init (D := D) true t st1 x = Done (st0, x0) → ∀ c, ∃ r, net_call (D := D) c st0 = Done (r, st0) ∧ ∀ fd, r ≠ inr (RNumber fd)).
Proof.
  eexists. split; [done|]. intros Hinit c. unfold net_init in Hinit. cbn [negb] in Hinit.
  destruct (nd_mac_address x) as [[mac x1]|]; [|done]. cbn [mbind exec_bind] in Hinit. destruct (if_new mac t x1) as [i x2].
  destruct (ss_add (DhcpSock dhcp_new) (ss_new SOCKETS_STORAGE_LEN)) as [[h s]|]; [|done]. cbn [mbind exec_bind] in Hinit. injection Hinit as <- <-.
  by apply net_call_lost.
Qed.

(** ** A controller and a stack that keep the laws *)

(** Every frame is one word; one arrives whenever the driver looks. *)
Record DemoLan : Type := mk_demo_lan {
  dl_mac : list (Z * Z); dl_csr : Z; dl_cfg : list (Z * Z); dl_sent : list Z; dl_words : list Z; dl_frames : list (bool * Z); dl_line : list (bool * Z);
}.
Definition demo_frame (f : bool * Z) : RxFrame := mk_frame f.1 4 [f.2].
Fixpoint demo_reg (k : Z) (l : list (Z * Z)) : Z := match l with [] => 0%Z | (k', v) :: l => if (k =? k')%Z then v else demo_reg k l end.

#[local] Instance demo_lan_bus : Bus DemoLan := {
  bus_read _ off x :=
    if (off =? id_rev)%Z then (0x01180001%Z, x)
    else if (off =? byte_test)%Z then (0x87654321%Z, x)
    else if (off =? tx_fifo_inf)%Z then (TX_ROOM, x)
    else if (off =? mac_csr_data)%Z then (dl_csr x, x)
    else if (off =? rx_fifo_inf)%Z then
      (if bool_decide (dl_frames x = []) then 0%Z else Z.shiftl 1 16,
       mk_demo_lan (dl_mac x) (dl_csr x) (dl_cfg x) (dl_sent x) (dl_words x) (dl_frames x ++ take 1 (dl_line x)) (drop 1 (dl_line x)))
    else if (off =? rx_status_fifo)%Z then
      match dl_frames x with
      | f :: fs => ((if f.1 then 0x48000 else 0x40000)%Z, mk_demo_lan (dl_mac x) (dl_csr x) (dl_cfg x) (dl_sent x) [f.2] fs (dl_line x))
      | [] => (0%Z, x)
      end
    else if (off =? rx_data_fifo)%Z then
      match dl_words x with
      | w :: ws => (w, mk_demo_lan (dl_mac x) (dl_csr x) (dl_cfg x) (dl_sent x) ws (dl_frames x) (dl_line x))
      | [] => (0%Z, x)
      end
    else (0%Z, x);
  bus_write _ off v x :=
    if (off =? mac_csr_cmd)%Z then
      if Z.testbit v 30 then mk_demo_lan (dl_mac x) (demo_reg (Z.land v 255) (dl_mac x)) (dl_cfg x) (dl_sent x) (dl_words x) (dl_frames x) (dl_line x)
      else mk_demo_lan ((Z.land v 255, dl_csr x) :: dl_mac x) (dl_csr x) (dl_cfg x) (dl_sent x) (dl_words x) (dl_frames x) (dl_line x)
    else if (off =? mac_csr_data)%Z then mk_demo_lan (dl_mac x) v (dl_cfg x) (dl_sent x) (dl_words x) (dl_frames x) (dl_line x)
    else if (off =? tx_data_fifo)%Z then mk_demo_lan (dl_mac x) (dl_csr x) (dl_cfg x) (dl_sent x ++ [v]) (dl_words x) (dl_frames x) (dl_line x)
    else mk_demo_lan (dl_mac x) (dl_csr x) ((off, v) :: dl_cfg x) (dl_sent x) (if (off =? hw_cfg)%Z && Z.testbit v 0 then [] else dl_words x) (dl_frames x) (dl_line x);
}.

Definition demo_lan_view : LanView DemoLan :=
  mk_lan_view 0x01180001 (λ x r, demo_reg r (dl_mac x)) dl_csr (λ _, True) (λ x o, demo_reg o (dl_cfg x)) dl_sent dl_words
    (λ x, demo_frame <$> dl_frames x) (λ x, demo_frame <$> dl_line x) (λ _ _, 0).
Definition demo_lan : Lan9118 := mk_lan 0 48.

Lemma demo_command (r : Z) : (0 <= r < 256)%Z →
  Z.testbit (Z.lor (Z.shiftl 1 31) r) 30 = false ∧ Z.land (Z.lor (Z.shiftl 1 31) r) 255 = r
  ∧ Z.testbit (Z.lor (Z.lor (Z.shiftl 1 31) (Z.shiftl 1 30)) r) 30 = true ∧ Z.land (Z.lor (Z.lor (Z.shiftl 1 31) (Z.shiftl 1 30)) r) 255 = r.
Proof.
  intros Hr. assert (Hm : Z.land r 255 = r) by (change 255%Z with (Z.ones 8); rewrite Z.land_ones by lia; apply Z.mod_small; lia).
  rewrite !Z.land_lor_distr_l, !Z.lor_spec, Hm. rewrite (testbit_high 8 r) by (unfold in_width; lia). done.
Qed.

Ltac demo_kept := first [done | split; demo_kept | exists []; cbn; by rewrite app_nil_r].

Lemma demo_lan_laws : lan_laws demo_lan_view 1 demo_lan.
Proof.
  assert (Harr : ∀ x : DemoLan, arrives demo_lan_view x x) by (intros x; exists []; by rewrite app_nil_r).
  assert (Hd : ∀ x : DemoLan, data_kept demo_lan_view x x) by (by intros x; split).
  assert (Hm : ∀ x : DemoLan, mac_kept demo_lan_view x x) by (by intros x; split).
  split; unfold reg_read, reg_write; cbn [lan_base demo_lan bus_read bus_write demo_lan_bus Z.add].
  - intros. cbn. lia.
  - intros off x Hoff. unfold polled in Hoff. rewrite !elem_of_cons, elem_of_nil in Hoff. destruct Hoff as [->|[->|[->|[->|[]]]]]; split_and!; try done; by left.
  - done.
  - intros r x _ Hr. destruct (demo_command r Hr) as (E1&E2&_&_). rewrite Z.eqb_refl, E1, E2. cbn. split; [demo_kept|done].
  - intros r x _ Hr. destruct (demo_command r Hr) as (_&_&E1&E2). rewrite Z.eqb_refl, E1, E2. cbn. split_and!; [demo_kept|done|done].
  - intros v x _. cbn. split_and!; [demo_kept|done..].
  - intros x _. cbn. by split_and!.
  - intros x. cbn. by split_and!.
  - intros x. by cbn.
  - intros off v x [[-> Hv]|[->| ->]]; [cbn in Hv |- *; rewrite Hv|cbn..]; split_and!; demo_kept.
  - intros v x. cbn. split_and!; demo_kept.
  - intros x. cbn. apply Forall_forall. intros f (g&->&_)%list_elem_of_fmap. split; cbn; lia.
  - intros x. cbn. split; [|split; [demo_kept|]].
    + split; try done. exists (demo_frame <$> take 1 (dl_line x)). split; [apply fmap_app|]. cbn. by destruct (dl_line x).
    + destruct (dl_frames x); by cbn.
  - intros x f fs Hw Hf. cbn in *. destruct (dl_frames x) as [|g gs] eqn:E; [done|]. injection Hf as <- <-. split_and!; try demo_kept; by destruct g as [[] ?].
  - intros x w ws Hw. cbn in *. rewrite Hw. split_and!; demo_kept.
Qed.

Definition demo_lan_start : DemoLan :=
  mk_demo_lan [(1, 12)]%Z 0 [(tx_cfg, 2)]%Z [] [] [] [(false, 0x04030201%Z); (true, 7%Z); (false, 0xffffffff%Z)].
Definition demo_phy : list PhyOp := [PSend [1; 2; 3; 4; 5]%Z; PRecv; PRecv; PSend [9]%Z; PRecv; PRecv; PRecv; PRecv].

Example demo_phy_run : match @phy_run _ (lan_net_device 1 demo_lan) demo_phy demo_lan_start with
  | Done (rs, x') => rs = [None; Some [1; 2; 3; 4]%Z; Some []; Some [255; 255; 255; 255]%Z; None; None] ∧ dl_sent x' = [12293; 5; 67305985; 5; 12289; 1; 9]%Z
  | Stuck => False
  end.
Proof. vm_compute. by split. Qed.

Lemma phy_carries_frames_witness : ∃ rs x' ws taken, @phy_run _ (lan_net_device 1 demo_lan) demo_phy demo_lan_start = Done (rs, x') ∧ lan_up demo_lan_view x'
  ∧ dl_sent x' = [] ++ ws ∧ decode_tx 2 ws = Some [[1; 2; 3; 4; 5]; [9]]%Z
  ∧ lan_stream demo_lan_view demo_lan_start = taken ++ lan_stream demo_lan_view x' ∧ received 0 rs taken.
Proof.
  apply (phy_carries_frames demo_lan_view 1 demo_lan demo_phy demo_lan_start demo_lan_laws).
  - by split.
  - unfold demo_phy, frame_fits, byte_list. repeat constructor; cbn; unfold MTU; lia.
Defined.

(** A socket that hears itself, a client of DHCP with three events, and a set
    kept as a list. *)
Definition DemoUdp : Type := list (list Z * SocketAddrV4).
#[local] Instance demo_udp : UdpStack DemoUdp := {
  udp_new := [];
  udp_bind port u := (negb (port =? 0)%Z, u);
  udp_recv_slice n u := match u with [] => (None, []) | (bs, from) :: u => (Some (take n bs, from), u) end;
  udp_send_slice buf addr u := (true, u ++ [(buf, addr)]);
}.
#[local] Instance demo_dhcp : DhcpStack nat := {
  dhcp_new := 0;
  dhcp_poll d := (match d with 0 => Some (Configured 10 (Some 1%Z)) | 1 => Some (Configured 11 None) | 2 => Some Deconfigured | _ => None end, S d);
}.
Record DemoSet : Type := mk_demo_set { ds_cap : nat; ds_list : list (option (AnySocket DemoUdp nat)) }.
Definition ds_view (s : DemoSet) (h : nat) : option (AnySocket DemoUdp nat) := match ds_list s !! h with Some o => o | None => None end.
Definition ds_used (s : DemoSet) : nat := length (filter is_Some (ds_list s)).
#[local] Instance demo_set : SocketSet DemoSet nat DemoUdp nat := {
  ss_new n := mk_demo_set n [];
  ss_add a s := if ds_used s <? ds_cap s then Done (length (ds_list s), mk_demo_set (ds_cap s) (ds_list s ++ [Some a])) else Stuck;
  ss_remove h s := if bool_decide (is_Some (ds_view s h)) then Done (mk_demo_set (ds_cap s) (<[h := None]> (ds_list s))) else Stuck;
  ss_get h s := get_exec (ds_view s h);
  ss_put h a s := mk_demo_set (ds_cap s) (<[h := Some a]> (ds_list s));
}.
#[local] Instance demo_net_device : NetDevice DemoLan := lan_net_device 1 demo_lan.
#[local] Instance demo_iface : NetIface (list Z * option Z) DemoSet DemoLan := {
  if_new _ _ x := (([], None), x);
  if_poll _ i s x := Done (i, s, x);
  if_add_default_route r i := Some (i.1, Some r);
  if_remove_default_route i := (i.1, None);
  if_update_ip_addrs f i := if forallb (λ a, 0 <? a)%Z (f i.1) then Done (f i.1, i.2) else Stuck;
}.

Lemma ds_insert (l : list (option (AnySocket DemoUdp nat))) (h : nat) (a o : option (AnySocket DemoUdp nat)) : l !! h = Some o →
  length (filter is_Some (<[h := a]> l)) + (if bool_decide (is_Some o) then 1 else 0) = length (filter is_Some l) + (if bool_decide (is_Some a) then 1 else 0).
Proof.
  revert h. induction l as [|b l IH]; intros [|h] Hh; try done.
  - injection Hh as ->. cbn [insert list_insert]. rewrite !filter_cons. destruct (decide (is_Some a)), (decide (is_Some o)); case_bool_decide; try done; case_bool_decide; try done; cbn [length]; lia.
  - cbn [insert list_insert]. specialize (IH h Hh). rewrite !filter_cons. destruct (decide (is_Some b)); cbn [length]; unfold insert, list_insert in *; lia.
Qed.

Lemma demo_stack_laws : stack_laws ds_view ds_used ds_cap (λ i : list Z * option Z, i.1) (λ i, i.2) (λ a, 0 < a)%Z.
Proof.
  assert (Hview : ∀ s h a, ds_view s h = Some a → ds_list s !! h = Some (Some a)) by (intros s h a; unfold ds_view; by destruct (ds_list s !! h) as [[]|] eqn:E; intros [= ->]).
  assert (Hset : ∀ s h a b, ds_view s h = Some a → let s' := mk_demo_set (ds_cap s) (<[h := b]> (ds_list s)) in ds_view s' h = b ∧ (∀ h', h' ≠ h → ds_view s' h' = ds_view s h')).
  { intros s h a b Hh%Hview. unfold ds_view. cbn. split; [by rewrite list_lookup_insert_eq by (by eapply lookup_lt_Some)|intros h' Hne; by rewrite list_lookup_insert_ne by done]. }
  split.
  - done.
  - intros a s Hlt. cbn. rewrite (proj2 (Nat.ltb_lt _ _)) by done. eexists _, _. split; [done|]. unfold ds_view, ds_used. cbn [ds_list ds_cap].
    rewrite lookup_ge_None_2 by done. rewrite list_lookup_middle by done. split_and!; try done.
    + intros h' Hne. destruct (decide (h' < length (ds_list s))); [by rewrite lookup_app_l|]. rewrite !lookup_ge_None_2; [done|lia|rewrite length_app; cbn; lia].
    + rewrite filter_app, length_app, filter_cons, decide_True by (by eexists). cbn. lia.
  - intros h a s Hh. cbn. rewrite bool_decide_true by (rewrite Hh; by eexists). eexists. split; [done|]. destruct (Hset s h a None Hh) as [H1 H2]. split_and!; [done..| |done].
    pose proof (ds_insert (ds_list s) h None (Some a) (Hview _ _ _ Hh)) as E. rewrite bool_decide_true in E by (by eexists). rewrite bool_decide_false in E by (by intros []). cbv match in E. unfold ds_used. cbn [ds_list]. lia.
  - intros h a s Hh. cbn. by rewrite Hh.
  - intros h a b s Hh. cbn. destruct (Hset s h a (Some b) Hh) as [H1 H2]. split_and!; [done..| |done].
    pose proof (ds_insert (ds_list s) h (Some b) (Some a) (Hview _ _ _ Hh)) as E. rewrite !bool_decide_true in E by (by eexists). cbv match in E. unfold ds_used. cbn [ds_list]. lia.
  - by intros mac t x i x' [= <- <-].
  - intros t i s x. cbn. eexists _, _, _. split; [done|]. split_and!; try done. intros h. by destruct (ds_view s h) as [[]|].
  - intros r i. cbn. by eexists.
  - done.
  - intros f i Hf. cbn. assert (E : forallb (λ a, 0 <? a)%Z (f i.1) = true) by (clear -Hf; induction Hf as [|a l Ha _ IH]; [done|]; cbn; by rewrite IH, (proj2 (Z.ltb_lt _ _))). rewrite E. by eexists.
  - intros d a r d' Hd. destruct d as [|[|[|]]]; cbn in Hd; simplify_eq; lia.
Qed.

Definition demo_calls : list NetOp :=
  [OCall (CRecv 0 4); OCall (CSocket Inet Dgram Udp); OCall (CSocket Inet Dgram Udp); OPoll 5; OCall (CBind 0 (mk_addr [0; 0; 0; 0]%Z 68));
   OCall (CSendTo 0 [1; 2; 3]%Z (mk_addr [10; 0; 0; 1]%Z 67)); OPoll 6; OCall (CRecvFrom 0 2); OCall (CRecvFrom 0 2); OCall (CClose 0); OPoll 7;
   OCall (CClose 0); OCall (CSocket Inet Dgram AnyProtocol)].

Example demo_replies : match net_init (U := DemoUdp) (D := nat) true 0 net_boot demo_lan_start with
  | Done (st, x) => match net_run (U := DemoUdp) (D := nat) demo_calls st x with
      | Done (rs, _, _) => rs = [inl EBADF; inr (RNumber 0); inl ENOBUFS; inr RUnit; inr (RNumber 3); inr (RFrom [1; 2]%Z (mk_addr [10; 0; 0; 1]%Z 67)); inl EAGAIN; inr RUnit; inl EBADF; inr (RNumber 0)]
      | Stuck => False
      end
  | Stuck => False
  end.
Proof. by vm_compute. Qed.

Lemma sockets_refine_witness : ∃ st0 x0 rs st x' sp, net_init (U := DemoUdp) (D := nat) (I := list Z * option Z) true 0 net_boot demo_lan_start = Done (st0, x0)
  ∧ net_run (U := DemoUdp) (D := nat) demo_calls st0 x0 = Done (rs, st, x') ∧ spec_run demo_calls (mk_spec None [] None) rs sp
  ∧ refines ds_view ds_used ds_cap (λ i, i.1) (λ i, i.2) st sp.
Proof. exact (sockets_refine _ _ _ _ _ _ demo_calls 0 demo_lan_start demo_lan_start [0; 0; 0; 0; 0; 0]%Z demo_stack_laws eq_refl). Defined.
