(* ===== verification/Arm.v ===== *)
(** * The Cortex-M port, [arch/src/arm/cortex_m/], [bsp/src/arm/] and the rest
    of [kernel/src/arch.rs]

    The initial frame of a task and the assembly that starts and switches
    tasks ([context.rs]), over a CPU whose exception entry and return are those
    of the architecture; the SysTick handler and the port's [yield_task] over
    the kernel of [Sched]; the STM32F103 and AN521 boards over a bus.  The
    crate [cortex_m] sets the registers of SysTick and of the interrupt
    controller: what is asked of it is data. *)

From S2P Require Export Prelude.
From S2P Require Export TaskStack.
From S2P Require Export Sched.
From S2P Require Export SchedKernel.
From S2P Require Export SchedProps.
From S2P Require Export Uart.
From S2P Require Export UartProps.

Import Switch.

(** ** [context.rs]: the initial frame *)

(** r4-r11, then r0-r3, r12, LR, PC with the Thumb bit, and xPSR. *)
Definition initial_frame (entry : Z) : list Z :=
  replicate 8 0%Z ++ [0; 0; 0; 0; 0; 0xFFFFFFFD; Z.lor (wrap 32 entry) 1; 0x01000000]%Z.

Definition arm_init_task_stack (m : memory) (stack words entry : Z) : exec (Z * memory) :=
  stack_top ← add_w 32 stack (words * 4);
  let sp := Z.land stack_top (lnot_w 32 7) in
  sp ← sub_w sp (16 * 4);
  Done (sp, store_words 4 m sp (initial_frame entry)).

(** ** The CPU

    The program counter keeps its Thumb bit.  The registers that an exception saves, those that the handler saves, the
    process stack pointer, the memory and the two symbols of the kernel; a
    control block starts with its stack pointer. *)
Record ArmCpu : Type := mk_arm {
  hw_regs : list Z;          (* r0-r3, r12, LR, PC, xPSR *)
  r4_r11 : list Z;
  psp : Z;
  a_mem : memory;
  A_CURRENT_TCB : Z;
  A_NEXT_TCB : Z;
}.

(** Exception entry and return of the architecture, on a stack that is
    aligned to eight bytes. *)
Definition exception_entry (c : ArmCpu) : ArmCpu :=
  mk_arm (hw_regs c) (r4_r11 c) (psp c - 32) (store_words 4 (a_mem c) (psp c - 32) (hw_regs c)) (A_CURRENT_TCB c) (A_NEXT_TCB c).
Definition exception_return (c : ArmCpu) : exec ArmCpu :=
  regs ← load_words 4 (a_mem c) (psp c) 8;
  Done (mk_arm regs (r4_r11 c) (psp c + 32) (a_mem c) (A_CURRENT_TCB c) (A_NEXT_TCB c)).

(** [pendsv_handler]. *)
Definition pendsv_handler (c : ArmCpu) : exec ArmCpu :=
  let r0 := psp c in
  if (A_NEXT_TCB c =? 0)%Z then Done c else
  let r0 := (r0 - 32)%Z in
  let m := store_words 4 (a_mem c) r0 (r4_r11 c) in
  let m := if (A_CURRENT_TCB c =? 0)%Z then m else <[A_CURRENT_TCB c := r0]> m in
  let r1 := A_NEXT_TCB c in
  r0 ← get_exec (m !! r1);
  regs ← load_words 4 m r0 8;
  Done (mk_arm (hw_regs c) regs (r0 + 32) m r1 r1).

(** The whole exception. *)
Definition pendsv (c : ArmCpu) : exec ArmCpu := c ← pendsv_handler (exception_entry c); exception_return c.

(** [start_first_task]: r4 and r5 carry the link register and the address
    jumped to; [None] is the loop without a task.  The flags are kept as they
    were, which the assembly does not do: nothing tests them before the task
    runs. *)
Definition arm_start_first_task (c : ArmCpu) : exec (option ArmCpu) :=
  let r1 := A_NEXT_TCB c in
  if (r1 =? 0)%Z then Done None else
  r0 ← get_exec (a_mem c !! r1);
  regs ← load_words 4 (a_mem c) r0 8;
  let r0 := (r0 + 32)%Z in
  frame ← load_words 4 (a_mem c) r0 8;
  let psp := (r0 + 32)%Z in
  let lr := nth 5 frame 0%Z in
  let pc := nth 6 frame 0%Z in
  Done (Some (mk_arm (take 4 frame ++ [nth 4 frame 0%Z; lr; pc; nth 7 (hw_regs c) 0%Z]) (lr :: pc :: drop 2 regs) psp (a_mem c) r1 r1)).

(** ** [systick.rs] and [nvic.rs]: what is asked of the crate *)

Inductive CortexMCall : Type :=
  SetClockSourceCore | SetReload (v : Z) | ClearCurrent | EnableCounter | EnableInterrupt
  | Unmask (irqn : Z) | Mask (irqn : Z) | SetPriority (irqn priority : Z) | Unpend (irqn : Z).

Definition systick_init (system_freq_hz tick_freq_hz : Z) : exec (list CortexMCall) :=
  if (tick_freq_hz =? 0)%Z then Stuck else
  reload_val ← sub_w (system_freq_hz / tick_freq_hz) 1;
  Done [SetClockSourceCore; SetReload reload_val; ClearCurrent; EnableCounter; EnableInterrupt].
Definition nvic_enable_irq (irqn : Z) : list CortexMCall := [Unmask irqn].
Definition nvic_disable_irq (irqn : Z) : list CortexMCall := [Mask irqn].
Definition nvic_set_priority (irqn priority : Z) : list CortexMCall := [SetPriority irqn priority].
Definition nvic_clear_pending (irqn : Z) : list CortexMCall := [Unpend irqn].

(** ** The scheduler on this port

    [yield_cpu] sets the pending bit of PendSV, which runs as soon as no
    other exception does and then switches to [NEXT_TCB]. *)

Record ArmKernel : Type := mk_ak { ak_kernel : kernel; pendsv_pending : bool }.

Section kernel.
Context `{!SmpConfig}.

Definition arm_yield_cpu (a : ArmKernel) : ArmKernel := mk_ak (ak_kernel a) true.

(** [yield_task] on Arm, and [systick_handler] without the executor. *)
Definition arm_schedule (a : ArmKernel) : exec (bool * ArmKernel) :=
  '(b, k) ← schedule (ak_kernel a); Done (b, mk_ak k (pendsv_pending a)).
Definition arm_yield_task (a : ArmKernel) : exec ArmKernel :=
  '(b, a) ← arm_schedule a;
  if b : bool then Done (arm_yield_cpu a) else Done a.
Definition systick_handler (a : ArmKernel) : exec ArmKernel :=
  let k := ak_kernel a in
  k ← tick_update (mk_kernel (TCB_POOL k) (SCHEDULER k) (mach k) (Timer.tick (clock k)) (mem k));
  arm_yield_task (mk_ak k (pendsv_pending a)).

(** PendSV, when it is pending: [context_switch] unless there is no next task. *)
Definition run_pendsv (a : ArmKernel) : ArmKernel :=
  if negb (pendsv_pending a) then a else
  let m := mach (ak_kernel a) in
  mk_ak (with_mach (ak_kernel a) (match NEXT_TCB m with None => m | Some _ => context_switch m end)) false.

Definition arm_yield_if_preempt_pending (a : ArmKernel) : exec ArmKernel :=
  let k := ak_kernel a in
  let '(now, m) := can_preempt_now (mach k) in
  let k := with_mach k m in
  if now : bool then
    '(b, k) ← sched_preempt_pending k;
    if b : bool then arm_yield_task (mk_ak k (pendsv_pending a)) else Done (mk_ak k (pendsv_pending a))
  else Done (mk_ak k (pendsv_pending a)).

Definition arm_delay (a : ArmKernel) (n : Z) : exec ArmKernel :=
  let k := ak_kernel a in
  '(blocked, k) ← with_sched k false (delay_locked (wrapping_add 32 (ticks (clock k)) n));
  let a := mk_ak k (pendsv_pending a) in
  if blocked : bool then arm_yield_task a else Done a.

Definition arm_wake_blocked_task (a : ArmKernel) (task : ptr) : exec (bool * ArmKernel) :=
  match task with
  | None => Done (false, a)
  | Some x =>
      '(woke, k) ← with_sched (ak_kernel a) false (wake_locked x);
      let a := mk_ak k (pendsv_pending a) in
      if woke : bool then a ← arm_yield_if_preempt_pending a; Done (true, a) else Done (false, a)
  end.

(** [WaitQueue::wait] of the current task. *)
Definition arm_block_and_yield (a : ArmKernel) : exec ArmKernel :=
  let k := ak_kernel a in
  '(blocked, k) ← block_current_task_irq_disabled (with_mach k (disable_irq (mach k)));
  let a := mk_ak (with_mach k (enable_irq (mach k))) (pendsv_pending a) in
  if blocked : bool then arm_yield_task a else Done a.

Inductive arm_op : Type := ATimer | AYield | ADelay (n : Z) | ABlock | AWake (x : nat).

(** An operation that no other interrupt splits, and PendSV after it. *)
Definition run_arm_op (a : ArmKernel) (op : arm_op) : exec ArmKernel :=
  a ← match op with
      | ATimer => systick_handler a
      | AYield => arm_yield_task a
      | ADelay n => arm_delay a n
      | ABlock => arm_block_and_yield a
      | AWake x => '(_, a) ← arm_wake_blocked_task a (Some x); Done a
      end;
  Done (run_pendsv a).
Fixpoint run_arm_ops (a : ArmKernel) (ops : list arm_op) : exec ArmKernel :=
  match ops with [] => Done a | op :: ops => a ← run_arm_op a op; run_arm_ops a ops end.
End kernel.

(** ** [kernel/src/arch.rs]: the functions of the port

    A port gives its functions; the kernel keeps pointers to them, which are
    null until [init].  [K] is the state they act on. *)

Record Arch (K : Type) : Type := mk_arch {
  disable_global_irq : K → K;
  enable_global_irq : K → K;
  port_init_task_stack : memory → Z → Z → Z → exec (Z * memory);
  port_yield_cpu : K → exec K;
  port_idle_hint : K → K;
  port_current_cpu_id : K → Z;
}.
Arguments mk_arch {K}. Arguments disable_global_irq {K}. Arguments enable_global_irq {K}. Arguments port_init_task_stack {K}.
Arguments port_yield_cpu {K}. Arguments port_idle_hint {K}. Arguments port_current_cpu_id {K}.

(** The slots of the port, which are set together, and those of the handlers
    of external interrupts. *)
Record ArchSlots (K : Type) : Type := mk_slots {
  PORT_FNS : option (Arch K);
  EXTERNAL_IRQ_HANDLER : option (K → exec K);
  EXTERNAL_IRQ_ID_HANDLER : option (Z → K → exec K);
}.
Arguments mk_slots {K}. Arguments PORT_FNS {K}. Arguments EXTERNAL_IRQ_HANDLER {K}. Arguments EXTERNAL_IRQ_ID_HANDLER {K}.
Definition slots_boot {K} : ArchSlots K := mk_slots None None None.

Section arch.
Context {K : Type}.
Definition arch_init (p : Arch K) (s : ArchSlots K) : ArchSlots K := mk_slots (Some p) (EXTERNAL_IRQ_HANDLER s) (EXTERNAL_IRQ_ID_HANDLER s).
Definition set_external_irq_handler (f : K → exec K) (s : ArchSlots K) : ArchSlots K := mk_slots (PORT_FNS s) (Some f) (EXTERNAL_IRQ_ID_HANDLER s).
Definition set_external_irq_id_handler (f : Z → K → exec K) (s : ArchSlots K) : ArchSlots K := mk_slots (PORT_FNS s) (EXTERNAL_IRQ_HANDLER s) (Some f).
Definition external_irq_handler (s : ArchSlots K) : option (K → exec K) := EXTERNAL_IRQ_HANDLER s.
Definition external_irq_id_handler (s : ArchSlots K) : option (Z → K → exec K) := EXTERNAL_IRQ_ID_HANDLER s.

(** Without a port, setting up a stack and yielding panic. *)
Definition arch_init_task_stack (s : ArchSlots K) (m : memory) (stack words entry : Z) : exec (Z * memory) :=
  match PORT_FNS s with Some p => port_init_task_stack p m stack words entry | None => Stuck end.
Definition arch_yield_cpu (s : ArchSlots K) (k : K) : exec K := match PORT_FNS s with Some p => port_yield_cpu p k | None => Stuck end.
Definition arch_idle_hint (s : ArchSlots K) (k : K) : K := match PORT_FNS s with Some p => port_idle_hint p k | None => k end.
Definition arch_current_cpu_id (s : ArchSlots K) (k : K) : Z := match PORT_FNS s with Some p => port_current_cpu_id p k | None => 0 end.
End arch.

(** [disable_irq] and [enable_irq] through the slots. *)
Definition arch_disable_irq `{!SmpConfig} (s : ArchSlots machine) (m : machine) : machine :=
  let nest := critical_nest m in
  let m := if nest =? 0 then match PORT_FNS s with Some p => disable_global_irq p m | None => m end else m in
  set_critical_nest m (S nest).
Definition arch_enable_irq `{!SmpConfig} (s : ArchSlots machine) (m : machine) : machine :=
  let '(nest, m) := exit_critical m in
  if nest =? 0 then
    let '(has, m) := has_current_task m in
    if has : bool then match PORT_FNS s with Some p => enable_global_irq p m | None => m end else m
  else m.

(** [impl Arch for CortexM]: PRIMASK is the flag of the machine. *)
Definition cortex_m (yield_cpu : machine → exec machine) : Arch machine :=
  mk_arch (λ m, set_irq m false) (λ m, set_irq m true) arm_init_task_stack yield_cpu (λ m, m) (λ _, 0%Z).

(** ** The boards *)

Section boards.
Context {W : Type} `{!Bus W} (spin : nat).

Definition read_reg32 (addr : Z) (x : W) : Z * W := bus_read 4 addr x.
Definition write_reg32 (addr val : Z) (x : W) : W := bus_write 4 addr val x.

Fixpoint wait_reg (fuel : nat) (addr : Z) (busy : Z → bool) (x : W) : exec W :=
  match fuel with
  | O => Stuck
  | S fuel => let '(v, x) := read_reg32 addr x in if busy v then wait_reg fuel addr busy x else Done x
  end.
(** [write_reg(addr, read_reg(addr) | bits)]. *)
Definition or_reg (addr bits : Z) (x : W) : W := let '(v, x) := read_reg32 addr x in write_reg32 addr (Z.lor v bits) x.

(** [bsp/src/arm/stm32f103.rs]. *)
Definition STM_CPU_FREQ_HZ : Z := 72000000.
Definition APB2_FREQ_HZ : Z := 72000000.
Definition RCC_CR : Z := 0x40021000.
Definition RCC_CFGR : Z := 0x40021000 + 0x04.
Definition RCC_APB2ENR : Z := 0x40021000 + 0x18.
Definition FLASH_ACR : Z := 0x40022000.
Definition GPIOA_CRH : Z := 0x40010800 + 0x04.
Definition USART1_SR : Z := 0x40013800.
Definition USART1_DR : Z := 0x40013800 + 0x04.
Definition USART1_BRR : Z := 0x40013800 + 0x08.
Definition USART1_CR1 : Z := 0x40013800 + 0x0c.
Definition RCC_CR_HSION : Z := Z.shiftl 1 0.
Definition RCC_CR_HSIRDY : Z := Z.shiftl 1 1.
Definition RCC_CR_HSEON : Z := Z.shiftl 1 16.
Definition RCC_CR_HSERDY : Z := Z.shiftl 1 17.
Definition RCC_CR_PLLON : Z := Z.shiftl 1 24.
Definition RCC_CR_PLLRDY : Z := Z.shiftl 1 25.
Definition RCC_APB2ENR_AFIOEN : Z := Z.shiftl 1 0.
Definition RCC_APB2ENR_IOPAEN : Z := Z.shiftl 1 2.
Definition RCC_APB2ENR_USART1EN : Z := Z.shiftl 1 14.
Definition USART_SR_RXNE : Z := Z.shiftl 1 5.
Definition USART_SR_TXE : Z := Z.shiftl 1 7.
Definition USART_CR1_RE : Z := Z.shiftl 1 2.
Definition USART_CR1_TE : Z := Z.shiftl 1 3.
Definition USART_CR1_RXNEIE : Z := Z.shiftl 1 5.
Definition USART_CR1_UE : Z := Z.shiftl 1 13.
Definition USART1_IRQ : Z := 37.
Definition USART_BAUD : Z := 115200.
Definition HSE_TRIES : Z := 100000.

Definition clear_bit (bits v : Z) : bool := (Z.land v bits =? 0)%Z.

(** The loop that waits for the external oscillator gives up. *)
Fixpoint wait_hse (tries : nat) (x : W) : bool * W :=
  match tries with
  | O => (false, x)
  | S tries => let '(v, x) := read_reg32 RCC_CR x in if negb (clear_bit RCC_CR_HSERDY v) then (true, x) else wait_hse tries x
  end.

Definition early_clock_init (x : W) : exec W :=
  let x := or_reg RCC_CR RCC_CR_HSION x in
  x ← wait_reg spin RCC_CR (clear_bit RCC_CR_HSIRDY) x;
  let x := write_reg32 FLASH_ACR 0x12 x in
  let x := or_reg RCC_CR RCC_CR_HSEON x in
  let '(hse_ready, x) := wait_hse (Z.to_nat HSE_TRIES) x in
  if hse_ready then
    let x := write_reg32 RCC_CFGR (Z.lor (Z.lor (Z.shiftl 4 8) (Z.shiftl 1 16)) (Z.shiftl 7 18)) x in
    let x := or_reg RCC_CR RCC_CR_PLLON x in
    x ← wait_reg spin RCC_CR (clear_bit RCC_CR_PLLRDY) x;
    let x := or_reg RCC_CFGR 2 x in
    wait_reg spin RCC_CFGR (λ v, negb (Z.land (Z.shiftr v 2) 3 =? 2)%Z) x
  else Done x.

Definition enable_usart1_pins (x : W) : W :=
  let x := or_reg RCC_APB2ENR (Z.lor (Z.lor RCC_APB2ENR_AFIOEN RCC_APB2ENR_IOPAEN) RCC_APB2ENR_USART1EN) x in
  let '(crh, x) := read_reg32 GPIOA_CRH x in
  let crh := Z.land crh (lnot_w 32 (Z.lor (Z.shiftl 15 4) (Z.shiftl 15 8))) in
  let crh := Z.lor crh (Z.lor (Z.shiftl 11 4) (Z.shiftl 4 8)) in
  write_reg32 GPIOA_CRH crh x.

Definition init_usart1_regs (x : W) : W :=
  let x := write_reg32 USART1_CR1 0 x in
  let x := write_reg32 USART1_BRR ((APB2_FREQ_HZ + USART_BAUD / 2) / USART_BAUD) x in
  write_reg32 USART1_CR1 (Z.lor (Z.lor (Z.lor USART_CR1_UE USART_CR1_TE) USART_CR1_RE) USART_CR1_RXNEIE) x.

Definition usart1_putc (ch : Z) (x : W) : exec W :=
  x ← wait_reg spin USART1_SR (clear_bit USART_SR_TXE) x;
  Done (write_reg32 USART1_DR ch x).

Definition usart1_read_byte (x : W) : exec (option Z * W) :=
  let '(v, x) := read_reg32 USART1_SR x in
  if clear_bit USART_SR_RXNE v then Done (None, x) else
  let '(v, x) := read_reg32 USART1_DR x in
  Done (Some (wrap 8 v), x).

(** The handler; the loop takes at most [spin] bytes. *)
Definition usart1_irq_handler (rx : RxBuffer) (x : W) : exec (RxBuffer * W) :=
  '(_, rx, x) ← drain usart1_read_byte spin rx x; Done (rx, x).

(** [init_console], with the poll function of the console. *)
Definition stm_init_console (x : W) : (W → exec (option Z * W)) * W := (usart1_read_byte, init_usart1_regs (enable_usart1_pins x)).
Definition stm_init_irqs : list CortexMCall := nvic_enable_irq USART1_IRQ.
Definition stm_init_timer (systick_hz : Z) : exec (list CortexMCall) := systick_init STM_CPU_FREQ_HZ systick_hz.

(** [hal_bridge::openion_uart_rx_push]. *)
Definition openion_uart_rx_push (byte : Z) (rx : RxBuffer) : exec (bool * RxBuffer) := rx ← push_to_rx_buf byte rx; Done (true, rx).

(** [bsp/src/arm/an521.rs]: the console before the driver of the port. *)
Definition AN521_CPU_FREQ_HZ : Z := 25000000.
Definition AN521_UART_DATA : Z := 0x40200000.
Definition AN521_UART_STATE : Z := 0x40200004.
Definition AN521_UART_CTRL : Z := 0x40200008.
Definition UART_STATE_TXBF : Z := Z.shiftl 1 0.
Definition an521_uart_init (x : W) : W := write_reg32 AN521_UART_CTRL (Z.lor 1 (Z.shiftl 1 1)) x.
Definition an521_uart_putc (ch : Z) (x : W) : exec W :=
  x ← wait_reg spin AN521_UART_STATE (λ v, negb (clear_bit UART_STATE_TXBF v)) x;
  Done (write_reg32 AN521_UART_DATA ch x).
Definition an521_init_timer (systick_hz : Z) : exec (list CortexMCall) := systick_init AN521_CPU_FREQ_HZ systick_hz.
End boards.

(** ** The port as a [Port] *)

Record Ctx : Type := mk_ctx { cx_hw : list Z; cx_r4 : list Z; cx_psp : Z }.
Definition ctx_of (c : ArmCpu) : Ctx := mk_ctx (hw_regs c) (r4_r11 c) (psp c).

(** The block [t] holds the address of a frame that holds the context. *)
Record arm_holds (m : memory) (t : Z) (x : Ctx) : Prop := {
  ho_sp : m !! t = Some (cx_psp x - 64)%Z;
  ho_r4 : load_words 4 m (cx_psp x - 64) 8 = Done (cx_r4 x);
  ho_hw : load_words 4 m (cx_psp x - 32) 8 = Done (cx_hw x);
}.

(** A switch is PendSV with [NEXT_TCB] set. *)
#[export] Instance arm_port : Port ArmCpu Ctx Z := {
  p_cur := A_CURRENT_TCB; p_mem := a_mem; p_ctx := ctx_of;
  p_run c x m := mk_arm (cx_hw x) (cx_r4 x) (cx_psp x) m (A_CURRENT_TCB c) (A_NEXT_TCB c);
  p_switch c t := pendsv (mk_arm (hw_regs c) (r4_r11 c) (psp c) (a_mem c) (A_CURRENT_TCB c) t);
  s_next t := t; s_ctx _ x := x; s_writes _ := [];
  x_sp := cx_psp; x_wf x := length (cx_hw x) = 8 ∧ length (cx_r4 x) = 8; frame_size := 64%Z;
  holds := arm_holds;
}.

Lemma arm_holds_ext (m m' : memory) (t : Z) (x : Ctx) : m' !! t = m !! t →
  (∀ k, (cx_psp x - 64 <= k < cx_psp x)%Z → m' !! k = m !! k) → arm_holds m t x → arm_holds m' t x.
Proof.
  intros Ht Hk [H1 H2 H3]. split; [by rewrite Ht| |].
  - rewrite <- H2. apply (load_words_ext 4 ltac:(done)). intros k Hr. apply Hk. lia.
  - rewrite <- H3. apply (load_words_ext 4 ltac:(done)). intros k Hr. apply Hk. lia.
Qed.

(** The frame that [init_task_stack] makes. *)
Definition initial_ctx (entry top : Z) : Ctx :=
  mk_ctx [0; 0; 0; 0; 0; 0xFFFFFFFD; Z.lor (wrap 32 entry) 1; 0x01000000]%Z (replicate 8 0%Z) top.

Lemma arm_init_task_stack_spec (m : memory) (stack words entry t : Z) :
  (0 <= stack)%Z → (18 <= words)%Z → (stack + words * 4 < 2 ^ 32)%Z →
  ∃ sp m', arm_init_task_stack m stack words entry = Done (sp, m') ∧ (stack <= sp ∧ sp + 64 <= stack + words * 4 ∧ sp `mod` 8 = 0)%Z
  ∧ (∀ k, (k < stack ∨ stack + words * 4 <= k)%Z → m' !! k = m !! k)
  ∧ ((t < stack ∨ stack + words * 4 <= t)%Z → arm_holds (<[t := sp]> m') t (initial_ctx entry (sp + 64))).
Proof.
  intros H0 Hw Ht. unfold arm_init_task_stack. rewrite add_w_Done by done. cbn [mbind exec_bind].
  set (top := (stack + words * 4)%Z) in *.
  assert (Hal : Z.land top (lnot_w 32 7) = (top / 8 * 8)%Z).
  { change 8%Z with (2 ^ 3)%Z. rewrite <- Z.shiftr_div_pow2, <- Z.shiftl_mul_pow2 by lia. apply Z.bits_inj'. intros i Hi.
    rewrite Z.land_spec, testbit_lnot_w, Z.shiftl_spec by lia. change 7%Z with (Z.ones 3). destruct (decide (i < 3)%Z).
    - rewrite Z.ones_spec_low by lia. rewrite (Z.testbit_neg_r _ (i - 3)) by lia. by rewrite !andb_false_r.
    - rewrite Z.ones_spec_high, Z.shiftr_spec, Z.sub_add by lia. rewrite andb_true_r. case_bool_decide; [by rewrite andb_true_r|].
      by rewrite (testbit_high 32) by (unfold in_width; lia). }
  rewrite Hal, sub_w_Done by divmod. cbn [mbind exec_bind]. eexists _, _. split; [done|]. set (sp := (top / 8 * 8 - 16 * 4)%Z).
  assert (Hb : (stack <= sp ∧ sp + 64 <= top ∧ sp `mod` 8 = 0)%Z) by (unfold sp, top in *; divmod).
  split; [done|]. change (length (initial_frame entry)) with 16 in *.
  assert (Hout : ∀ k, (k < stack ∨ top <= k)%Z → store_words 4 m sp (initial_frame entry) !! k = m !! k).
  { intros k Hk. apply (store_words_out 4 ltac:(done)). change (length (initial_frame entry)) with 16. lia. }
  split; [exact Hout|]. intros Htt. unfold initial_frame. rewrite (store_words_app 4). change (length (replicate 8 0%Z)) with 8.
  set (m1 := store_words 4 m sp (replicate 8 0%Z)). split; cbn [cx_psp initial_ctx cx_r4 cx_hw].
  - rewrite lookup_insert_eq. f_equal. lia.
  - replace (sp + 64 - 64)%Z with sp by lia. rewrite <- (load_store 4 ltac:(done) (replicate 8 0%Z) m sp). fold m1. change (length (replicate 8 0%Z)) with 8.
    apply (load_words_ext 4 ltac:(done)). intros k Hk. rewrite lookup_insert_ne by lia. apply (store_words_out 4 ltac:(done)). lia.
  - replace (sp + 64 - 32)%Z with (sp + 4 * Z.of_nat 8)%Z by lia.
    etransitivity; [|exact (load_store 4 ltac:(done) [0; 0; 0; 0; 0; 0xFFFFFFFD; Z.lor (wrap 32 entry) 1; 0x01000000]%Z m1 (sp + 4 * Z.of_nat 8))].
    apply (load_words_ext 4 ltac:(done)). intros k Hk. rewrite lookup_insert_ne by (cbn [length] in Hk; lia). done.
Qed.

(** PendSV puts the context of the task that ran into memory and takes the
    one of the next task, which may be the same. *)
Lemma pendsv_spec (c : ArmCpu) (x : Ctx) :
  let cur := A_CURRENT_TCB c in let nxt := A_NEXT_TCB c in
  cur ≠ 0%Z → nxt ≠ 0%Z → length (hw_regs c) = 8 → length (r4_r11 c) = 8 →
  (cur < psp c - 64 ∨ psp c <= cur)%Z →
  (nxt = cur ∧ x = ctx_of c ∨ nxt ≠ cur ∧ arm_holds (a_mem c) nxt x ∧ (nxt < psp c - 64 ∨ psp c <= nxt)%Z
    ∧ (cx_psp x <= psp c - 64 ∨ psp c <= cx_psp x - 64)%Z ∧ (cur < cx_psp x - 64 ∨ cx_psp x <= cur)%Z) →
  ∃ c', pendsv c = Done c' ∧ ctx_of c' = x ∧ A_CURRENT_TCB c' = nxt ∧ A_NEXT_TCB c' = nxt
  ∧ arm_holds (a_mem c') cur (ctx_of c)
  ∧ (∀ k, k ≠ cur → (k < psp c - 64 ∨ psp c <= k)%Z → a_mem c' !! k = a_mem c !! k).
Proof.
  intros cur nxt Hcur Hnxt Hl8 Hr8 Hout Hcase. unfold pendsv, pendsv_handler, exception_entry. cbn [psp A_NEXT_TCB a_mem A_CURRENT_TCB r4_r11 hw_regs].
  fold cur nxt. rewrite (proj2 (Z.eqb_neq _ _) Hnxt), (proj2 (Z.eqb_neq _ _) Hcur).
  set (m1 := store_words 4 (a_mem c) (psp c - 32) (hw_regs c)). replace (psp c - 32 - 32)%Z with (psp c - 64)%Z by lia.
  set (m2 := store_words 4 m1 (psp c - 64) (r4_r11 c)). set (m3 := <[cur := (psp c - 64)%Z]> m2).
  assert (Hkeep : ∀ k, k ≠ cur → (k < psp c - 64 ∨ psp c <= k)%Z → m3 !! k = a_mem c !! k).
  { intros k Hk Hr. unfold m3. rewrite lookup_insert_ne by done. unfold m2. rewrite (store_words_out 4 ltac:(done)) by (rewrite Hr8; lia).
    unfold m1. apply (store_words_out 4 ltac:(done)). rewrite Hl8. lia. }
  assert (Hsave : arm_holds m3 cur (ctx_of c)).
  { split; cbn [cx_psp cx_r4 cx_hw ctx_of].
    - apply lookup_insert_eq.
    - pose proof (load_store 4 ltac:(done) (r4_r11 c) m1 (psp c - 64)) as E. rewrite Hr8 in E. rewrite <- E. fold m2.
      apply (load_words_ext 4 ltac:(done)). intros k Hk. unfold m3. by rewrite lookup_insert_ne by lia.
    - pose proof (load_store 4 ltac:(done) (hw_regs c) (a_mem c) (psp c - 32)) as E. rewrite Hl8 in E. rewrite <- E. fold m1. apply (load_words_ext 4 ltac:(done)). intros k Hk.
      unfold m3. rewrite lookup_insert_ne by lia. unfold m2. apply (store_words_out 4 ltac:(done)). rewrite Hr8. lia. }
  assert (Hx : arm_holds m3 nxt x).
  { destruct Hcase as [[-> ->]|(Hne&Hh&Hn&Hd&Hc)]; [done|]. eapply arm_holds_ext; [| |exact Hh].
    - by apply Hkeep.
    - intros k Hk. apply Hkeep; lia. }
  destruct Hx as [Hx1 Hx2 Hx3]. rewrite Hx1. cbn [get_exec mbind exec_bind]. rewrite Hx2. cbn [mbind exec_bind].
  unfold exception_return. cbn [a_mem psp r4_r11 A_CURRENT_TCB A_NEXT_TCB]. replace (cx_psp x - 64 + 32)%Z with (cx_psp x - 32)%Z by lia.
  rewrite Hx3. cbn [mbind exec_bind]. eexists. split; [done|]. cbn [a_mem A_CURRENT_TCB A_NEXT_TCB].
  split; [|done]. unfold ctx_of. cbn [hw_regs r4_r11 psp]. replace (cx_psp x - 32 + 32)%Z with (cx_psp x) by lia. by destruct x.
Qed.

#[export] Instance arm_laws : PortLaws ArmCpu Ctx Z.
Proof.
  split; unfold in_frame, written; cbn.
  - apply arm_holds_ext.
  - intros c x m. by destruct x.
  - intros c n y; cbn. intros Hc0 Hn0 [H8 Hr] _ _ Hcur _ Hcase.
    destruct (pendsv_spec (mk_arm (hw_regs c) (r4_r11 c) (psp c) (a_mem c) (A_CURRENT_TCB c) n) y) as (c'&Hrun&Hx&Hc'&_&Hsave&Hkeep);
      cbn [A_CURRENT_TCB A_NEXT_TCB psp hw_regs r4_r11 a_mem cx_hw cx_r4 cx_psp ctx_of] in *; [done..|lia| |].
    + destruct Hcase as [?|(?&?&Hdis)]; [by left|right]. pose proof (Hdis n (or_introl eq_refl)) as (_&Hd&_).
      split_and!; [done|done|lia| |].
      * destruct (decide (cx_psp y <= psp c - 64)%Z); [by left|]. destruct (decide (psp c <= cx_psp y - 64)%Z); [by right|].
        destruct (Hdis (Z.max (psp c - 64) (cx_psp y - 64))) as (_&Hd'&_); [right; lia|lia].
      * destruct (decide (A_CURRENT_TCB c < cx_psp y - 64)%Z); [by left|]. destruct (decide (cx_psp y <= A_CURRENT_TCB c)%Z); [by right|].
        destruct (Hdis (A_CURRENT_TCB c)) as (?&_); [right; lia|done].
    + exists c'. split_and!; [done..|]. intros k Hk Hf _. apply Hkeep; [done|lia].
Qed.

(** The first task starts with the frame made for it, but for r4 and r5. *)
Definition start_ctx (c : ArmCpu) (x : Ctx) : Ctx :=
  mk_ctx (take 7 (cx_hw x) ++ [nth 7 (hw_regs c) 0%Z]) (nth 5 (cx_hw x) 0%Z :: nth 6 (cx_hw x) 0%Z :: drop 2 (cx_r4 x)) (cx_psp x).

Lemma arm_start_turns (ts : list Z) (lo hi : Z → Z) (c : ArmCpu) (t : Z) (xs : Z → Ctx) : layout_ok ts lo hi → t ∈ ts → A_NEXT_TCB c = t →
  (∀ u, u ∈ ts → fits lo hi u (xs u) ∧ arm_holds (a_mem c) u (xs u)) →
  ∃ c', arm_start_first_task c = Done (Some c') ∧ turns ts lo hi c' (t, upd_ctx xs t (start_ctx c (xs t))).
Proof.
  intros Hla Hin Hn Hall. destruct (Hall t Hin) as [[[H8 Hr] Hp] [Hs H4 Hh]]. unfold arm_start_first_task. rewrite Hn.
  rewrite (proj2 (Z.eqb_neq _ _) (la_nonzero _ _ _ Hla t Hin)), Hs. cbn [get_exec mbind exec_bind]. rewrite H4. cbn [mbind exec_bind].
  replace (cx_psp (xs t) - 64 + 32)%Z with (cx_psp (xs t) - 32)%Z by lia. rewrite Hh. cbn [mbind exec_bind].
  replace (cx_psp (xs t) - 32 + 32)%Z with (cx_psp (xs t)) by lia. eexists. split; [done|]. unfold start_ctx.
  destruct (xs t) as [hw r4 sp] eqn:E; cbn [cx_hw cx_r4 cx_psp] in *.
  do 9 (destruct hw as [|? hw]; try done). do 9 (destruct r4 as [|? r4]; try done).
  split; cbn [fst snd p_cur p_ctx p_mem arm_port A_CURRENT_TCB a_mem]; [done|done|unfold upd_ctx; by rewrite bool_decide_true| |].
  - apply (fits_upd ts lo hi (t, xs)); [intros u Hu; by apply Hall|]. split; [done|exact Hp].
  - intros u Hu Hne. unfold upd_ctx. rewrite bool_decide_false by done. by apply Hall.
Qed.

(** ** The kernel on this port *)

Lemma disable_tcbs `{!SmpConfig} (m : machine) : CURRENT_TCB (disable_irq m) = CURRENT_TCB m ∧ NEXT_TCB (disable_irq m) = NEXT_TCB m.
Proof. unfold disable_irq. by destruct (critical_nest m =? 0). Qed.

Lemma enable_tcbs `{!SmpConfig} (m : machine) : CURRENT_TCB (enable_irq m) = CURRENT_TCB m ∧ NEXT_TCB (enable_irq m) = NEXT_TCB m.
Proof.
  unfold enable_irq, exit_critical. destruct (critical_nest m) as [|n]; cbn [Nat.eqb].
  - unfold has_current_task, sync_current, sync_current_task_shadow. by repeat case_bool_decide.
  - destruct n; cbn [Nat.eqb]; [|done]. unfold has_current_task, sync_current, sync_current_task_shadow. by repeat case_bool_decide.
Qed.

Lemma sync_tcbs `{!SmpConfig} (m : machine) : CURRENT_TCB (sync_current m) = CURRENT_TCB m ∧ NEXT_TCB (sync_current m) = NEXT_TCB m.
Proof. unfold sync_current, sync_current_task_shadow. by case_bool_decide. Qed.

(** When [schedule] says no, the next task is the current one. *)
Lemma schedule_cpu_false `{!SmpConfig} (h : heap) (s : Scheduler) (m : machine) (c : nat) (h' : heap) (s' : Scheduler) (m' : machine) :
  schedule_cpu_locked h s m c = Done (false, h', s', m') → NEXT_TCB m' = CURRENT_TCB m'.
Proof.
  unfold schedule_cpu_locked, pick_next, dispatch_next. intros Hsched. exec_inv; try done.
  all: repeat case_bool_decide; simplify_eq; try done.
Qed.

Lemma schedule_cpu_true `{!SmpConfig} (h : heap) (s : Scheduler) (m : machine) (c : nat) (h' : heap) (s' : Scheduler) (m' : machine) :
  schedule_cpu_locked h s m c = Done (true, h', s', m') → NEXT_TCB m' ≠ CURRENT_TCB m'.
Proof.
  unfold schedule_cpu_locked, pick_next, dispatch_next. intros Hsched. exec_inv; try done.
  all: repeat case_bool_decide; simplify_eq; try done; cbn; congruence.
Qed.

Lemma schedule_switches `{!SmpConfig} (k k' : kernel) (b : bool) (n : nat) (irq : bool) (cur nxt : ptr) (s : Scheduler) : kst k n irq cur nxt s →
  schedule k = Done (b, k') → if b then NEXT_TCB (mach k') ≠ CURRENT_TCB (mach k') else NEXT_TCB (mach k') = CURRENT_TCB (mach k').
Proof.
  intros Hk. unfold schedule, with_sched, locked_section, lock. cbn [mach with_mach SCHEDULER]. rewrite (ks_sched _ _ _ _ _ _ Hk). cbn [locked value mbind exec_bind].
  unfold schedule_locked. destruct (schedule_cpu_locked _ s _ _) as [[[[b' h'] s'] m']|] eqn:E; cbn [mbind exec_bind unlock value]; [|done].
  intros [= -> <-]. cbn [mach with_mach]. rewrite (proj1 (enable_tcbs _)), (proj2 (enable_tcbs _)). cbn [mach].
  rewrite (proj1 (enable_tcbs _)), (proj2 (enable_tcbs _)). destruct b; [by eapply schedule_cpu_true|by eapply schedule_cpu_false].
Qed.

(** A task that runs nowhere and waits nowhere. *)
Definition lost `{!SmpConfig} (k : kernel) (x : nat) : Prop :=
  ∃ s qss sl t, SCHEDULER k = mk_mutex false (Some s) ∧ sched_wf None (tcbs k) s qss sl ∧ tcbs k !! x = Some t ∧ state t = Running
    ∧ (x ∉ ready_of qss ++ sl) ∧ CURRENT_TCB (mach k) ≠ Some x ∧ NEXT_TCB (mach k) ≠ Some x.

Section single.
Context `{!SmpConfig} (idle : nat).
Hypothesis one_cpu : max_cpus = 1.

(** The task context, with no exception pending. *)
Definition arm_task_context (B : list nat) (a : ArmKernel) : Prop := task_context idle B (ak_kernel a) ∧ pendsv_pending a = false.

Lemma arm_yield_k {B : list nat} (a : ArmKernel) (cur : nat) (nxt run : ptr) :
  kernel_at idle B (ak_kernel a) 0 true cur nxt run → run = Some cur ∨ run = None → pendsv_pending a = false →
  ∃ a', arm_yield_task a = Done a' ∧ arm_task_context B (run_pendsv a').
Proof.
  intros Hk Hr Hp. destruct (schedule_k idle one_cpu _ 0 true cur nxt run Hk Hr) as (b&k'&nx&Heq&Hat).
  unfold arm_yield_task, arm_schedule. rewrite Heq. cbn [mbind exec_bind].
  pose proof Hat as (s&qss&sl&fl&[K1 K2 K3 K4 K5 K6]&Hco&Hcur&[Hon Hrun]). cbn in K3.
  destruct b; eexists; (split; [done|]); unfold run_pendsv, arm_yield_cpu; cbn [ak_kernel pendsv_pending negb].
  - rewrite K5. cbn [ak_kernel pendsv_pending]. split; [|done]. exists nx. destruct (Hrun nx eq_refl) as (t&Ht&_).
    cbn [ak_kernel]. eapply (kernel_at_mach idle); [exact Hat|by exists t|done|done| |exact K5|exact K5]. change (irq_on (mach k') = true). by rewrite K3.
  - rewrite Hp. cbn [negb]. split; [|done]. exists nx. destruct Hk as (s0&qss0&sl0&fl0&Hkst&_).
    pose proof (schedule_switches _ _ _ _ _ _ _ _ Hkst Heq) as Hsame. cbn in Hsame. rewrite K4, K5 in Hsame. injection Hsame as ->. exact Hat.
Qed.

Lemma systick_k {B : list nat} (a : ArmKernel) (cur : nat) :
  kernel_at idle B (ak_kernel a) 0 true cur (Some cur) (Some cur) → pendsv_pending a = false →
  ∃ a', systick_handler a = Done a' ∧ arm_task_context B (run_pendsv a').
Proof.
  intros Hk Hp. unfold systick_handler. set (k2 := mk_kernel _ _ _ (Timer.tick (clock (ak_kernel a))) _).
  assert (Hk2 : kernel_at idle B k2 0 true cur (Some cur) (Some cur)).
  { destruct Hk as (s&qss&sl&fl&[]&[[]]&?&?). exists s, qss, sl, fl. split_and!; [split|split; [split|..]|..]; done. }
  destruct (tick_update_k idle k2 0 true cur (Some cur) (Some cur) Hk2) as (k3&->&Hat&_). cbn [mbind exec_bind].
  eapply arm_yield_k; [exact Hat|by left|done].
Qed.

Lemma arm_yield_if_k {B : list nat} (a : ArmKernel) (cur : nat) :
  kernel_at idle B (ak_kernel a) 0 true cur (Some cur) (Some cur) → pendsv_pending a = false →
  ∃ a', arm_yield_if_preempt_pending a = Done a' ∧ arm_task_context B (run_pendsv a').
Proof.
  intros Hk Hp. pose proof Hk as (s&qss&sl&fl&[K1 K2 K3 K4 K5 K6]&Hco&Hcur&Hrun).
  destruct (sync_current_nest (mach (ak_kernel a)) K1) as (S1&S2&S3&S4&S5).
  assert (Hk1 : kernel_at idle B (with_mach (ak_kernel a) (sync_current (mach (ak_kernel a)))) 0 true cur (Some cur) (Some cur)).
  { eapply (kernel_at_mach idle); [done..| | | |]; congruence. }
  assert (Hcp : can_preempt_now (mach (ak_kernel a)) = (true, sync_current (mach (ak_kernel a)))).
  { unfold can_preempt_now, has_current_task, in_critical_section. by rewrite S2, K2, K4. }
  unfold arm_yield_if_preempt_pending. rewrite Hcp.
  destruct (preempt_pending_k idle one_cpu _ 0 cur _ _ Hk1) as (b&k'&Heq&Hat&_). rewrite Heq. cbn [mbind exec_bind].
  destruct b; [by eapply arm_yield_k; [exact Hat|left|]|]. eexists. split; [done|]. unfold run_pendsv. cbn [pendsv_pending]. rewrite Hp. cbn [negb].
  split; [by exists cur|done].
Qed.

(** The idle task never blocks; a task that is woken exists. *)
Definition arm_allowed (a : ArmKernel) (op : arm_op) : Prop :=
  match op with
  | ATimer | AYield => True
  | ADelay _ | ABlock => CURRENT_TCB (mach (ak_kernel a)) ≠ Some idle
  | AWake x => is_Some (tcbs (ak_kernel a) !! x)
  end.

Lemma run_arm_op_ok (a : ArmKernel) (op : arm_op) : arm_task_context [] a → arm_allowed a op →
  ∃ a', run_arm_op a op = Done a' ∧ arm_task_context [] a'.
Proof.
  intros [[cur Hk] Hp] Hop.
  assert (Hcu : CURRENT_TCB (mach (ak_kernel a)) = Some cur) by (destruct Hk as (s&qss&sl&fl&[]&_); done).
  assert (Hrun : ∃ a', (match op with
      | ATimer => systick_handler a | AYield => arm_yield_task a | ADelay n => arm_delay a n | ABlock => arm_block_and_yield a
      | AWake x => '(_, a) ← arm_wake_blocked_task a (Some x); Done a end) = Done a' ∧ arm_task_context [] (run_pendsv a')).
  { destruct op as [| |n| |x]; cbn [arm_allowed] in Hop.
    - by eapply systick_k.
    - eapply arm_yield_k; [exact Hk|by left|done].
    - unfold arm_delay. destruct (delay_stop idle (B := []) (ak_kernel a) cur (wrapping_add 32 (ticks (clock (ak_kernel a))) n)) as (k'&->&Hat); [congruence|done|].
      cbn [mbind exec_bind]. eapply arm_yield_k; [exact Hat|by right|done].
    - unfold arm_block_and_yield. destruct (block_stop idle (B := []) (ak_kernel a) cur) as (k'&->&Hat); [congruence|done|].
      cbn [mbind exec_bind]. eapply arm_yield_k; [exact Hat|by right|done].
    - cbn [arm_wake_blocked_task]. destruct (wake_k idle (B := []) (ak_kernel a) 0 true cur x _ _ Hk Hop ltac:(apply not_elem_of_nil)) as (b&k'&->&_&Hat&_).
      cbn [mbind exec_bind]. destruct b.
      + destruct (arm_yield_if_k (mk_ak k' (pendsv_pending a)) cur Hat Hp) as (a'&->&Hc). cbn [mbind exec_bind]. by exists a'.
      + eexists. split; [done|]. unfold run_pendsv. cbn [pendsv_pending]. rewrite Hp. split; [by exists cur|done]. }
  unfold run_arm_op. destruct Hrun as (a'&->&Hc). cbn [mbind exec_bind]. by exists (run_pendsv a').
Qed.

(** A second [schedule] before PendSV forgets what the first one chose. *)
Lemma second_schedule_loses {B : list nat} (k : kernel) (cur nx : nat) :
  kernel_at idle B k 0 true cur (Some nx) (Some nx) → nx ≠ cur →
  ∃ b k', schedule k = Done (b, k') ∧ lost k' nx.
Proof.
  intros (s&qss&sl&fl&Hk&Hco&Hcur&[Hon Hrun]) Hne. destruct (Hrun nx eq_refl) as (t&Ht&Hst).
  destruct (kernel_locked k 0 true cur (Some nx) s Hk Hcur) as (M1&M2&M3&M4). set (m0 := disable_irq (disable_irq (mach k))) in *.
  destruct (running_unlisted (tcbs k) s qss sl (Some nx) nx t (co_wf idle _ _ _ _ _ Hco)) as (Hn&_&_); [done|].
  assert (Hno : ∀ x tx, ¬ is_running (tcbs k) (CURRENT_TCB m0) x tx).
  { intros x tx (Hx&Htx&Hsx). rewrite M2 in Hx. injection Hx as <-. specialize (Hon cur tx Htx Hsx). congruence. }
  destruct (schedule_spec (tcbs k) s m0 0 qss sl ltac:(lia) (co_wf idle _ _ _ _ _ Hco) M4 ltac:(lia)) as (b&h'&s'&m'&Heq&Hout).
  destruct Hout as [(x&tx&Hx&_)|(h1&qss1&qss'&o&[_ Hrq]&Hpk)]; [by apply Hno in Hx|].
  destruct Hrq as [(x&tx&Hx&_)|(_&->&->)]; [by apply Hno in Hx|]. destruct Hpk as [P1 P2 P3 P4 P5 P6 P7 P8 P9 P10 P11].
  destruct (with_sched_spec k 0 true (Some cur) (Some nx) s s' false b schedule_locked h' m' Hk) as (k'&Hk'&Hkst'&Hp'&_).
  { unfold schedule_locked. rewrite (cpu_zero one_cpu). exact Heq. }
  { congruence. }
  { done. }
  { done. }
  exists b, k'. split; [exact Hk'|]. destruct Hkst' as [K1 K2 K3 K4 K5 K6].
  assert (Htc : tcbs k' = h') by (unfold tcbs; by rewrite Hp'). assert (Hnr : nx ∉ ready_of qss) by (intros Hin; apply Hn, elem_of_app; by left).
  exists s', qss', sl, t. rewrite Htc, K4, K5, P3. split_and!; [done|done|by rewrite P9|done| |congruence|].
  - intros [Hin|Hin]%elem_of_app; apply Hn, elem_of_app; [left; rewrite P2; apply elem_of_app; by right|by right].
  - destruct o as [n|]; [|rewrite M2; congruence]. intros [= ->]. apply Hnr. rewrite P2. apply elem_of_app. left. apply list_elem_of_here.
Qed.

Lemma window_k {B : list nat} (a a1 : ArmKernel) (cur : nat) :
  kernel_at idle B (ak_kernel a) 0 true cur (Some cur) (Some cur) → arm_schedule a = Done (true, a1) →
  ∃ a2 nx, systick_handler a1 = Done a2 ∧ NEXT_TCB (mach (ak_kernel a1)) = Some nx ∧ lost (ak_kernel a2) nx.
Proof.
  intros Hk Hs. destruct (schedule_k idle one_cpu _ 0 true cur _ _ Hk (or_introl eq_refl)) as (b&k'&nx&Heq&Hat).
  unfold arm_schedule in Hs. rewrite Heq in Hs. cbn [mbind exec_bind] in Hs. injection Hs as -> <-.
  pose proof Hk as (s0&_&_&_&Hkst&_). pose proof (schedule_switches _ _ _ _ _ _ _ _ Hkst Heq) as Hne. cbn in Hne.
  pose proof Hat as (s&qss&sl&fl&[K1 K2 K3 K4 K5 K6]&_). unfold systick_handler. cbn [ak_kernel pendsv_pending]. set (k2 := mk_kernel _ _ _ (Timer.tick _) _).
  assert (Hk2 : kernel_at idle B k2 0 true cur (Some nx) (Some nx)).
  { destruct Hat as (s1&qss1&sl1&fl1&[]&[[]]&?&?). exists s1, qss1, sl1, fl1. split_and!; [split|split; [split|..]|..]; done. }
  destruct (tick_update_k idle k2 0 true cur (Some nx) (Some nx) Hk2) as (k3&->&Hat3&_). cbn [mbind exec_bind].
  destruct (second_schedule_loses k3 cur nx Hat3) as (b&k4&Hk4&Hlost); [congruence|].
  unfold arm_yield_task, arm_schedule. cbn [ak_kernel]. rewrite Hk4. cbn [mbind exec_bind].
  eexists (if b then arm_yield_cpu _ else _), nx. split; [by destruct b|]. split; [exact K5|by destruct b].
Qed.
End single.

(** ** The serial port of the STM32F103 *)

Section usart.
Context {W : Type} `{!Bus W} (V : View W) (spin : nat).

Record usart_device : Prop := {
  us_busy : ∀ x, v_busy V x < spin;
  us_sr : ∀ x, v_ready V x → let '(v, x') := read_reg32 USART1_SR x in
    quiet V x x' ∧ Z.testbit v 5 = bool_decide (v_fifo V x ≠ []) ∧ if Z.testbit v 7 then v_busy V x' = 0 else v_busy V x' < v_busy V x;
  us_dr : ∀ x b rest, v_ready V x → v_fifo V x = b :: rest → let '(v, x') := read_reg32 USART1_DR x in wrap 8 v = b ∧ taken V [b] x x';
  us_write : ∀ b x, v_ready V x → v_busy V x = 0 → let x' := write_reg32 USART1_DR b x in
    v_sent V x' = v_sent V x ++ [b] ∧ v_service V x' = v_service V x ∧ v_ready V x' ∧ ∃ new, v_fifo V x' = v_fifo V x ++ new ∧ v_line V x = new ++ v_line V x';
}.

Lemma clear_bit_spec (v b : Z) : (0 <= b)%Z → clear_bit (Z.shiftl 1 b) v = negb (Z.testbit v b).
Proof.
  intros Hb. unfold clear_bit. rewrite land_bit by done. destruct (Z.testbit v b); [|done]. apply Z.eqb_neq.
  rewrite Z.shiftl_1_l. pose proof (Z.pow_pos_nonneg 2 b). lia.
Qed.

Lemma wait_txe_spec (fuel : nat) : usart_device → ∀ x, v_ready V x → v_busy V x < fuel →
  ∃ x', wait_reg fuel USART1_SR (clear_bit USART_SR_TXE) x = Done x' ∧ quiet V x x' ∧ v_busy V x' = 0.
Proof.
  intros Hd. induction fuel as [|fuel IH]; intros x Hr Hlt; [lia|]. cbn [wait_reg].
  pose proof (us_sr Hd x Hr) as Hs. destruct (read_reg32 USART1_SR x) as [v x1]. destruct Hs as (Hq&_&Hb).
  unfold USART_SR_TXE. rewrite clear_bit_spec by lia. destruct (Z.testbit v 7); cbn [negb]; [by exists x1|].
  destruct (IH x1) as (x'&Hw&Hq'&Hb'); [by apply Hq|lia|]. exists x'. split; [exact Hw|]. split; [by etransitivity|done].
Qed.

(** The port keeps the laws of a serial port, so that its handler, like the
    other drivers', queues the bytes in the order in which they came. *)
Lemma usart_serial : usart_device → serial_laws V usart1_read_byte (usart1_putc spin).
Proof.
  intros Hd. split.
  - intros x Hr. unfold usart1_read_byte. pose proof (us_sr Hd x Hr) as Hs. destruct (read_reg32 USART1_SR x) as [v x1]. destruct Hs as (Hq&Hrx&_).
    unfold USART_SR_RXNE. rewrite clear_bit_spec, Hrx by lia. case_bool_decide as Hf; cbn [negb].
    + destruct (v_fifo V x) as [|b rest] eqn:E; [done|]. destruct (q_arrives _ _ _ Hq) as (new&Hnew&_). rewrite E in Hnew.
      pose proof (us_dr Hd x1 b _ (q_ready _ _ _ Hq Hr) Hnew) as Hb. destruct (read_reg32 USART1_DR x1) as [v1 x2]. destruct Hb as [Hv Ht].
      exists (Some b), x2. rewrite Hv. split; [done|]. by apply (taken_app V [] [b] x x1 x2 (quiet_taken _ _ _ Hq)).
    + exists None, x1. split; [done|]. split; [|done]. destruct (v_fifo V x); [done|]. by destruct Hf.
  - intros b x Hr. unfold usart1_putc. destruct (wait_txe_spec spin Hd x Hr (us_busy Hd x)) as (x1&->&Hq&Hb). cbn [mbind exec_bind].
    eexists _, x1. split; [done|]. split; [done|]. exact (us_write Hd b x1 (q_ready _ _ _ Hq Hr) Hb).
Qed.

Lemma usart1_irq_spec (rx : RxBuffer) (x : W) : usart_device → length (stream V x) < spin → ring_wf rx → v_ready V x →
  ∃ p rx' x', usart1_irq_handler spin rx x = Done (rx', x') ∧ taken V p x x' ∧ (∃ more, p = v_fifo V x ++ more)
  ∧ ring_wf rx' ∧ rx_bytes rx' = take 127 (rx_bytes rx ++ p).
Proof.
  intros Hd Hlt Hwf Hr. unfold usart1_irq_handler.
  destruct (drain_spec V usart1_read_byte (usart1_putc spin) (usart_serial Hd) spin rx x Hlt Hwf Hr) as (p&rx'&x'&->&Ht&Hm&Hwf'&Hb).
  cbn [mbind exec_bind]. by exists p, rx', x'.
Qed.
End usart.

(** Interrupts are masked through the slots as [Critical] has it, once the
    port is installed. *)
Lemma arch_masks `{!SmpConfig} (y : machine → exec machine) (s : ArchSlots machine) (m : machine) :
  arch_disable_irq (arch_init (cortex_m y) s) m = disable_irq m ∧ arch_enable_irq (arch_init (cortex_m y) s) m = enable_irq m.
Proof. done. Qed.

(** The reload values of both boards fit the counter of 24 bits. *)
Example arm_reloads : stm_init_timer OPENION_SYSTICK_HZ = Done [SetClockSourceCore; SetReload 71999; ClearCurrent; EnableCounter; EnableInterrupt]
  ∧ an521_init_timer OPENION_SYSTICK_HZ = Done [SetClockSourceCore; SetReload 24999; ClearCurrent; EnableCounter; EnableInterrupt].
Proof. done. Qed.

(** ** Properties *)

(** C39. Tasks on Cortex-M keep their context: with a frame made for every
    task, on disjoint stacks, the first task starts at its entry with its
    stack pointer, and after any history in which the task that runs changes
    its registers and its stack and PendSV switches to any task, the task that
    runs has exactly the registers, program counter and stack pointer that it
    had when it was last switched out, or that its frame gives; r4 and r5 of
    the first task are those of [start_first_task]. *)
Theorem arm_contexts_kept (ts : list Z) (lo hi : Z → Z) (c : ArmCpu) (xs : Z → Ctx) (ss : list (Step Ctx Z)) :
  layout_ok ts lo hi → A_NEXT_TCB c ∈ ts → (∀ u, u ∈ ts → fits lo hi u (xs u) ∧ arm_holds (a_mem c) u (xs u)) →
  let first := (A_NEXT_TCB c, upd_ctx xs (A_NEXT_TCB c) (start_ctx c (xs (A_NEXT_TCB c)))) in
  steps_ok ts lo hi first ss →
  ∃ c1 c', arm_start_first_task c = Done (Some c1) ∧ ctx_of c1 = start_ctx c (xs (A_NEXT_TCB c)) ∧ run_steps c1 ss = Done c'
  ∧ let '(cur, ctxs) := spec_steps first ss in
    A_CURRENT_TCB c' = cur ∧ ctx_of c' = ctxs cur ∧ ∀ u, u ∈ ts → u ≠ cur → arm_holds (a_mem c') u (ctxs u).
Proof.
  intros Hla Hin Hall first Hss. destruct (arm_start_turns ts lo hi c _ xs Hla Hin eq_refl Hall) as (c1&Hstart&Ht).
  destruct (run_steps_ok ts lo hi Hla ss c1 first Ht Hss) as (c'&Hrun&Ht'). exists c1, c'. split_and!; [done| |done|].
  - etransitivity; [exact (tu_ctx _ _ _ _ _ Ht)|]. unfold upd_ctx. cbn. by rewrite bool_decide_true.
  - destruct (spec_steps first ss) as [cur ctxs]. destruct Ht'. by split_and!.
Qed.

(** Two tasks of 64 words each; the first one runs, uses its stack, and the
    two take turns. *)
Definition demo_arm_blocks : list Z := [16; 32]%Z.
Definition demo_arm_lo (t : Z) : Z := (t * 256)%Z.
Definition demo_arm_hi (t : Z) : Z := (t * 256 + 256)%Z.
Definition demo_arm_entry (t : Z) : Z := (0x8000000 + t * 16)%Z.
Definition demo_arm_task (m : memory) (t : Z) : exec memory :=
  '(sp, m) ← arm_init_task_stack m (demo_arm_lo t) 64 (demo_arm_entry t); Done (<[t := sp]> m).
Definition demo_arm_memory : memory :=
  match (m ← demo_arm_task ∅ 16; demo_arm_task m 32) with Done m => m | Stuck => ∅ end.
Definition demo_arm_cpu : ArmCpu := mk_arm (replicate 8 0x77%Z) (replicate 8 0x55%Z) 0 demo_arm_memory 0 16.
Definition demo_arm_ctx (t : Z) : Ctx := initial_ctx (demo_arm_entry t) (demo_arm_hi t).
Definition demo_arm_run (t : Z) : Step Ctx Z :=
  Run (mk_ctx (replicate 8 (t + 1)%Z) (replicate 8 (t + 2)%Z) (demo_arm_hi t - 48)) [((demo_arm_hi t - 16)%Z, t)].
Definition demo_arm_steps : list (Step Ctx Z) := [demo_arm_run 16; SwitchTo 32; demo_arm_run 32; SwitchTo 16; SwitchTo 32]%Z.

Lemma demo_arm_layout : layout_ok demo_arm_blocks demo_arm_lo demo_arm_hi.
Proof.
  split; unfold demo_arm_blocks, demo_arm_lo, demo_arm_hi.
  - intros t [->|[->|[]%elem_of_nil]%elem_of_cons]%elem_of_cons; lia.
  - intros t u Ht Hu Hne. apply list_elem_of_In in Ht, Hu. cbn in Ht, Hu. lia.
  - intros t u Ht Hu. apply list_elem_of_In in Ht, Hu. cbn in Ht, Hu. lia.
Qed.

Example demo_arm_turns : (c ← arm_start_first_task demo_arm_cpu; c ← get_exec c; c ← run_steps c demo_arm_steps; Done (A_CURRENT_TCB c, ctx_of c))
  = Done (32, mk_ctx (replicate 8 33) (replicate 8 34) 8400)%Z.
Proof. by vm_compute. Qed.

Lemma arm_contexts_kept_witness : ∃ c1 c', arm_start_first_task demo_arm_cpu = Done (Some c1) ∧ run_steps c1 demo_arm_steps = Done c'.
Proof.
  destruct (arm_contexts_kept demo_arm_blocks demo_arm_lo demo_arm_hi demo_arm_cpu demo_arm_ctx demo_arm_steps)
    as (c1&c'&Hs&_&Hr&_); [exact demo_arm_layout|exact (list_elem_of_here _ _)| | |exists c1, c'; split; [exact Hs|exact Hr]].
  - apply Forall_forall. repeat constructor; by vm_compute.
  - unfold demo_arm_steps. cbn [steps_ok].
    assert (Hsw : ∀ p t, t ∈ demo_arm_blocks → x_wf (p.2 p.1 : Ctx) → step_ok demo_arm_blocks demo_arm_lo demo_arm_hi p (SwitchTo t)).
    { intros p t Ht Hx. split_and!; [done|apply Hx..|done|]. intros k Hk. by apply elem_of_nil in Hk. }
    split_and!; [split; [split; [done|by vm_compute]|by apply Forall_singleton]| |split; [split; [done|by vm_compute]|by apply Forall_singleton]| | |done].
    all: apply Hsw; [by apply (bool_decide_eq_true_1 (_ ∈ _))|done].
Defined.

(** Every history of ticks, yields, delays, waits and wake-ups on Cortex-M
    runs, when no interrupt comes between [schedule] and PendSV. *)
Theorem arm_kernel_runs `{!SmpConfig} (idle : nat) (ops : list arm_op) : max_cpus = 1 →
  ∀ a, arm_task_context idle [] a →
  (∀ pre op a1, pre ++ [op] `prefix_of` ops → run_arm_ops a pre = Done a1 → arm_allowed idle a1 op) →
  ∃ a', run_arm_ops a ops = Done a' ∧ arm_task_context idle [] a'.
Proof.
  intros Hone. induction ops as [|op ops IH]; intros a Ha Hall; [by exists a|]. cbn [run_arm_ops].
  destruct (run_arm_op_ok idle Hone a op Ha) as (a1&Hrun&Ha1); [apply (Hall [] op a); [by exists ops|done]|]. rewrite Hrun. cbn [mbind exec_bind].
  apply IH; [done|]. intros pre op' a2 [suf Hpre] Hp. apply (Hall (op :: pre) op' a2); [exists suf; by rewrite Hpre|]. cbn [run_arm_ops]. by rewrite Hrun.
Qed.

(** [yield_task] on Cortex-M chooses the next task before it asks for PendSV,
    with interrupts on.  A tick in between chooses again, and the task chosen
    first is lost: it is marked as running, is neither the current nor the
    next task, and is in no queue. *)
Theorem arm_window_loses_task `{!SmpConfig} (idle cur : nat) (B : list nat) (a a1 : ArmKernel) : max_cpus = 1 →
  kernel_at idle B (ak_kernel a) 0 true cur (Some cur) (Some cur) → arm_schedule a = Done (true, a1) →
  ∃ a2 nx, systick_handler a1 = Done a2 ∧ NEXT_TCB (mach (ak_kernel a1)) = Some nx ∧ lost (ak_kernel a2) nx.
Proof. intros Hone. by apply window_k. Qed.
